(* ===== verification/_CoqProject ===== *)
-Q . S2P
Prelude.v
EidTrie.v
SegTree.v
ContiMem.v
Ownership.v
ShmDev.v
UmmuQueue.v
UmmuCmd.v
UmmuMcmdq.v
UmmuEvents.v
UmmuFlush.v
UmmuPerm.v
UmmuPermTree.v
UmmuPermMem.v
UmmuPermFill.v
UmmuPermClear.v
UmmuPermToken.v
UmmuPermTable.v
UmmuPermSeg.v
UmmuPermMng.v
UmmuPermApi.v
UbDecoder.v
UbDecoderInv.v
UbDecoderStep.v
UbDecoderUnmap.v
UbDecoderApi.v
UbDecoderSpec.v
UbDecoderQueue.v
UbDecoderEvents.v
UbRoute.v
UbRouteInv.v
UbRouteEnt.v
UbRouteSync.v
UbRouteBus.v
UbRouteLow.v
UbRouteUp.v
UbRouteSpec.v
UbLink.v
UbEnum.v
UbEnumRef.v
UbEnumSim.v
UbEnumSpec.v
SentryLimit.v
SentryMsg.v
ObmmAddr.v
ObmmPreimport.v
ObmmPreimportInv.v
ObmmPreimportStep.v
ObmmPreimportSpec.v
