(* ===== verification/Prelude.v ===== *)
(** * A verification library for the UnifiedBus (UB) OS component drivers

    The repository holds the kernel drivers of the UnifiedBus (UB): the UMMU, which translates
    and checks the addresses that devices use ([drivers/iommu/hisilicon]); the bus itself
    ([drivers/ub/ubus]); URMA, its remote memory access service with the UDMA device driver
    ([drivers/ub/urma]); OBMM, which shares memory between hosts ([drivers/ub/obmm]); and many
    smaller drivers.  This library models the parts that keep the shared state of these drivers
    and decide who may reach which memory, as executable definitions that follow the source
    function by function, and proves them against abstract specifications.

    ** The files

    - [Prelude]: error numbers, machine integers ([uwrap], [swrap]), alignment, the tactics, hint
      databases and lemmas on integers, bits and lists that the other files share.
    - [EidTrie]: [ubcore_eid_trie.c] and [ubcore_host_trie.c] of URMA, the Patricia tries from EIDs
      to EIDs and to hosts.  A trie is an inductive type; the refinement is to finite maps.
    - [SegTree]: [udma_seg_tree.c], the tree that counts the registered segments over each page
      and tells which ranges to map and unmap.
    - [ContiMem]: [conti_mem_allocator.c] of OBMM, the pool of contiguous segments with its
      clearing thread; [Ownership] and [ShmDev]: [obmm_ownership.c], [obmm_shm_dev.c] and what they
      call of [obmm_cache.c], the counters of readers and writers of a shared region, [mmap],
      [close], and the change of access rights with its rollback.
    - [UmmuQueue], [UmmuCmd], [UmmuMcmdq], [UmmuEvents], [UmmuFlush]: [queue.c], [interrupt.c] and
      [flush.c] of the UMMU: the ring pointers, the encoding of commands, the lock-free command
      queue ([ummu_mcmdq_issue_cmdlist] as a step relation of any number of CPUs and the hardware),
      the event and error handlers, and the invalidations built from them.
    - [UmmuPerm]*: [perm_table.c], [seg_tree.c] and [seg_mng.c], the permission table of the UMMU.
      [UmmuPerm] is the model; [UmmuPermTree] the table as a tree; [UmmuPermMem] the memory it lies
      in; [UmmuPermFill], [UmmuPermClear] and [UmmuPermToken] the three operations on it;
      [UmmuPermTable] the table against sets of segments; [UmmuPermSeg] and [UmmuPermMng] the
      segment manager; [UmmuPermApi] the entry points.
    - [UbDecoder]*: [vendor/hisilicon/hisi-decoder.c] and [decoder.c] of the bus, the table that sends
      accesses to the window of the host to other entities.  [UbDecoder] is the model;
      [UbDecoderInv] its invariant and the walk of the hardware; [UbDecoderStep] and
      [UbDecoderUnmap] one step of mapping and of unmapping; [UbDecoderApi] the loops and the
      rollback; [UbDecoderSpec] the contract; [UbDecoderQueue] the command queue;
      [UbDecoderEvents] the event handler.
    - [UbRoute]*, [UbLink]: [route.c], [port.c] and [link.c] of the bus, the routes of each port, their
      flooding over the links and the tables of the hardware.  [UbRoute] is the model; [UbRouteInv]
      the sorted list of addresses; [UbRouteEnt] the invariant of an entity; [UbRouteSync] the
      operations on it and the update of its table; [UbRouteBus] the whole bus and the end of
      flooding; [UbRouteLow] what holds when allocations fail; [UbRouteUp] a link that comes up; [UbRouteSpec] the contract; [UbLink] the connections
      of ports and the search for detached entities.
    - [UbEnum]*: [ub_enum_bfs_route_cal] of [enum.c], which computes the routes of newly enumerated
      entities by breadth-first search.  [UbEnum] is the model; [UbEnumRef] defines shortest ways and
      the layers of a search without arrays and counters; [UbEnumSim] relates the two; [UbEnumSpec]
      the theorem.
    - [ObmmAddr]: [obmm_addr_check.c], the physical address ranges in use, over a maple tree that is a
      type class with laws; it implements the class [PaRanges], against which [ObmmPreimport]* is
      proved: [obmm_preimport.c], [obmm_preimport_prefilled.c] and the address ranges of
      [obmm_import.c].  [ObmmPreimport] is the model, concurrent calls as sequences of steps;
      [ObmmPreimportInv] what each call owns and the invariant; [ObmmPreimportStep] the steps;
      [ObmmPreimportSpec] the contract.
    - [SentryLimit], [SentryMsg]: [oom_rate_limit.c] and [smh_message.c] of the sentry, the limit on reports
      with its text form, and the messages between drivers and the service.

    ** How code becomes definitions

    C functions become functions with the same name; state is passed explicitly, loops are
    [Fixpoint]s on fuel or on the list they walk, errors are the negated error numbers of the
    source.  A function that dereferences a null pointer, leaves an array or runs out of fuel
    gives [None], and the theorems show that it gives [Some]; fuel is chosen from the size of the
    data (the bits of an address, the pages of a request, the entries of a ring) and the theorems
    that a call returns show that it is enough.  Integers are [Z] with the wrap-around of their type
    written out; bit fields are read and written bit by bit where two views of the same memory meet
    (the first level of the decoder).  Memory that is allocated and freed is a finite map, so that
    leaks and uses after free show.

    Code outside the repository is a parameter: the allocators, register reads, page-table walkers
    and cache operations of the kernel answer through oracles, constrained only by what the
    kernel documents (an allocator returns memory that is not in use).  What the hardware does with
    the tables is written as a function on them ([walk] of the permission table, [decode] of the
    decoder) or as steps ([UmmuMcmdq], [UmmuEvents]).

    ** What the theorems show

    - The tries, the permission table and the decoder table refine finite maps and sets of
      segments, for each operation and for every history ([trie_history_refines],
      [perm_history_exact], [decoder_history_exact]); what the hardware grants or decodes is exactly
      what was asked for, and memory is given back.  The histories include the calls that run out of
      memory, and the theorems say what those leave: a grant without memory for its record leaves its
      range in the permission table, and an unmapping of the decoder without memory takes or keeps pages
      of the slots of 32 GB that it touches, and no other page.
    - The segment tree maps and unmaps exactly the pages whose count starts and ends at zero; the
      allocator of OBMM conserves its segments; the ownership counters count the mappings, through calls that
      succeed and calls that fail, and the cache operations are the ones that are needed.
    - The lock-free command queue keeps the order and content of commands, never overruns, never
      deadlocks, and a wait for a [CMD_SYNC] ends after it was consumed; the event queues are
      drained in order.
    - The routing tables name exactly the ports that the driver knows after any history with memory
      enough, and no other port whatever the allocations do ([route_history_exact]); links that come up
      and go down add and remove exactly their routes, and flooding ends on every topology.  The routes of new entities are those of the shortest
      ways ([enum_routes_shortest]).
    - No physical address is used by two imports, whatever calls run at the same time, and use
      counts and bitmaps are exact ([preimport_exclusive], [addr_check_refines]).
    - Messages of the sentry have one owner from their allocation to their end, and an
      acknowledgement was given for each that is collected; the rate limit bounds the reports of
      every second, and its text form can be written back where the count of events separates the limits.
    - Commands decode to what was encoded, and invalidations by range commands cover exactly their ranges
      for the token, address space, tag or virtual machine of the domain.
    - Error paths: rollbacks restore the state, and where they do not a closed example shows it
      (the [findings] of the manifest name them).

    ** Assumptions

    Pages have 4 KB; bit fields have the little-endian layout of arm64; memory accesses are
    sequentially consistent, with the interleavings of [UmmuMcmdq], [UmmuEvents],
    [UbDecoderEvents], [SentryMsg] and [ObmmPreimport] explicit and the rest called under the locks the source takes, one call at a
    time.  The window of the decoder and the ring sizes are those the hardware can express (at most
    16 TB and indices of 11 bits).  Network addresses have 24 bits and an entity has at most 128
    ports; the bits of a port are a set, so that [UB_MAX_CNA_NUM] is at least the addresses in use;
    the structures of ports and entities are those fields of the bus header that the routing uses.
    The queue of a search on the bus has room for two layers of it, and nodes of routes can be allocated
    during enumeration.  In the histories of the permission table in table mode no call grants again memory of a
    grant that failed for want of its record ([avoids]).  In the life of a shared region, files are opened without
    [O_SYNC], and after a first [mmap] that failed the next has its granularity ([array_fits]).  There is one reader of sentry messages, and fewer than [2 ^ 32] calls of
    OBMM run at once.

    ** Not modelled

    Of the modelled files: sysfs and debug output, module setup, and what the components of the
    manifest name.  Of the repository: the user interfaces of URMA ([uburma], [ubcore] beside the
    tries), which copy and dispatch requests; the network device [unic], the message layers [ubase],
    [cdma] and [ubcm], whose state lives in hardware queues configured by firmware commands; the
    scan of the bus by messages; firmware tables ([uvb], [ubfi]); and the small drivers [ubdevshm],
    [ubmempfd], [vfio], [fwctl], [perf] and [ipourma], and the reports of [sentry] over the network. *)

From stdpp Require Export base list gmap numbers option sorting.
From Stdlib Require Export ZArith Lia Bool.

#[export] Set Default Goal Selector "!".

Global Open Scope Z_scope.

(** ** Error numbers (include/uapi/asm-generic/errno*.h), returned negated *)

Definition EPERM : Z := 1.
Definition ENOENT : Z := 2.
Definition ENXIO : Z := 6.
Definition EAGAIN : Z := 11.
Definition ENOMEM : Z := 12.
Definition EFAULT : Z := 14.
Definition EBUSY : Z := 16.
Definition EEXIST : Z := 17.
Definition ENODEV : Z := 19.
Definition EINVAL : Z := 22.
Definition ENOSPC : Z := 28.
Definition ERANGE : Z := 34.
Definition ENOMSG : Z := 42.
Definition EOVERFLOW : Z := 75.
Definition ERESTART : Z := 85.
Definition EOPNOTSUPP : Z := 95.
Definition ETIMEDOUT : Z := 110.
Definition ENOTRECOVERABLE : Z := 131.

(** ** Machine integers: a [w]-bit unsigned value is a [Z] reduced modulo [2^w],
    a signed one is reduced into [-2^(w-1), 2^(w-1)). *)

Definition uwrap (w z : Z) : Z := z mod 2 ^ w.
Definition swrap (w z : Z) : Z := (z + 2 ^ (w - 1)) mod 2 ^ w - 2 ^ (w - 1).

Abbreviation u8 := (uwrap 8).
Abbreviation u16 := (uwrap 16).
Abbreviation u32 := (uwrap 32).
Abbreviation u64 := (uwrap 64).
Abbreviation s32 := (swrap 32).
Abbreviation s64 := (swrap 64).

Definition ULONG_MAX : Z := 2 ^ 64 - 1.

(** Page geometry of the 4K configuration of arm64. *)
Definition PAGE_SHIFT : Z := 12.
Definition PAGE_SIZE : Z := 2 ^ PAGE_SHIFT.
Definition PMD_SHIFT : Z := 21.
Definition PMD_SIZE : Z := 2 ^ PMD_SHIFT.
Definition PUD_SIZE : Z := 2 ^ 30.

(** [ALIGN] and [ALIGN_DOWN] of include/linux/align.h on 64-bit operands. *)
Definition ALIGN_DOWN (x a : Z) : Z := Z.land x (Z.lnot (a - 1)).
Definition ALIGN (x a : Z) : Z := ALIGN_DOWN (u64 (x + (a - 1))) a.
Definition IS_ALIGNED (x a : Z) : bool := Z.land x (a - 1) =? 0.
Definition PAGE_ALIGN (x : Z) : Z := ALIGN x PAGE_SIZE.

(** C truth value of an integer. *)
Definition ctrue (z : Z) : bool := negb (z =? 0).

(** ** Arithmetic lemmas and automation *)

Create HintDb ub discriminated.

(** Case analysis on the boolean comparisons of the code. *)
Ltac bdes :=
  repeat match goal with
  | |- context [?a =? ?b] => destruct (Z.eqb_spec a b)
  | |- context [?a <? ?b] => destruct (Z.ltb_spec a b)
  | |- context [?a <=? ?b] => destruct (Z.leb_spec a b)
  | H : context [?a =? ?b] |- _ => destruct (Z.eqb_spec a b)
  | H : context [?a <? ?b] |- _ => destruct (Z.ltb_spec a b)
  | H : context [?a <=? ?b] |- _ => destruct (Z.leb_spec a b)
  end; simpl in *.

(** Turns boolean hypotheses into propositions. *)
Ltac bprop :=
  repeat match goal with
  | H : _ && _ = true |- _ => apply andb_prop in H as [? H]
  | H : negb _ = true |- _ => apply negb_true_iff in H
  | H : negb _ = false |- _ => apply negb_false_iff in H
  | H : (_ =? _) = true |- _ => apply Z.eqb_eq in H
  | H : (_ =? _) = false |- _ => apply Z.eqb_neq in H
  | H : (_ <? _) = true |- _ => apply Z.ltb_lt in H
  | H : (_ <? _) = false |- _ => apply Z.ltb_ge in H
  | H : (_ <=? _) = true |- _ => apply Z.leb_le in H
  | H : (_ <=? _) = false |- _ => apply Z.leb_gt in H
  end.

(** Linear arithmetic with division and modulo by constants. *)
Ltac zlia := Z.to_euclidean_division_equations; lia.

(** Destructs every conjunction and existential of the context. *)
Ltac dest :=
  repeat match goal with
  | H : _ /\ _ |- _ => destruct H
  | H : exists _, _ |- _ => destruct H
  end.

Lemma ctrue_nz (r : Z) : ctrue r = true <-> r <> 0.
Proof. unfold ctrue. by rewrite negb_true_iff, Z.eqb_neq. Qed.
Lemma ctrue_z (r : Z) : ctrue r = false <-> r = 0.
Proof. unfold ctrue. by rewrite negb_false_iff, Z.eqb_eq. Qed.

Lemma pow2_pos (n : Z) : 0 <= n -> 0 < 2 ^ n.
Proof. intros. apply Z.pow_pos_nonneg; lia. Qed.

Lemma uwrap_range (w z : Z) : 0 <= w -> 0 <= uwrap w z < 2 ^ w.
Proof. intros. apply Z.mod_pos_bound, pow2_pos; lia. Qed.

Lemma uwrap_small (w z : Z) : 0 <= z < 2 ^ w -> uwrap w z = z.
Proof. apply Z.mod_small. Qed.

Lemma uwrap_idem (w z : Z) : uwrap w (uwrap w z) = uwrap w z.
Proof. apply Zmod_mod. Qed.

Lemma pow2_double (w : Z) : 0 < w -> 2 ^ w = 2 * 2 ^ (w - 1).
Proof.
  intros. replace w with (Z.succ (w - 1)) at 1 by lia.
  apply Z.pow_succ_r. lia.
Qed.

Lemma swrap_small (w z : Z) :
  0 < w -> - 2 ^ (w - 1) <= z < 2 ^ (w - 1) -> swrap w z = z.
Proof.
  intros. unfold swrap. rewrite Z.mod_small; [lia|].
  rewrite (pow2_double w); lia.
Qed.

Lemma swrap_range (w z : Z) :
  0 < w -> - 2 ^ (w - 1) <= swrap w z < 2 ^ (w - 1).
Proof.
  intros. unfold swrap. pose proof (pow2_pos w).
  pose proof (Z.mod_pos_bound (z + 2 ^ (w - 1)) (2 ^ w)).
  pose proof (pow2_double w). lia.
Qed.

Lemma swrap_idem (w z : Z) : 0 < w -> swrap w (swrap w z) = swrap w z.
Proof. intros. apply swrap_small, swrap_range; lia. Qed.

(** Reducing an operand first does not change a signed sum. *)
Lemma swrap_add_l (w a b : Z) : swrap w (swrap w a + b) = swrap w (a + b).
Proof.
  unfold swrap. f_equal.
  replace ((a + 2 ^ (w - 1)) mod 2 ^ w - 2 ^ (w - 1) + b + 2 ^ (w - 1))
    with ((a + 2 ^ (w - 1)) mod 2 ^ w + b) by lia.
  rewrite Zplus_mod_idemp_l. f_equal. lia.
Qed.

(** Adding and then subtracting the same amount restores a signed value. *)
Lemma swrap_add_sub (w a b : Z) :
  0 < w -> - 2 ^ (w - 1) <= a < 2 ^ (w - 1) -> swrap w (swrap w (a + b) - b) = a.
Proof.
  intros. rewrite <- Z.add_opp_r, swrap_add_l.
  replace (a + b + - b) with a by lia. by apply swrap_small.
Qed.

(** Congruence modulo [2^w], under which wrapped and unwrapped values agree. *)
Definition eqm (w a b : Z) : Prop := (2 ^ w | a - b).

#[export] Instance eqm_equiv (w : Z) : Equivalence (eqm w).
Proof.
  unfold eqm. split.
  - intros a. exists 0. lia.
  - intros a b [k H]. exists (- k). lia.
  - intros a b c [k H] [j J]. exists (k + j). lia.
Qed.

#[export] Instance eqm_add (w : Z) : Proper (eqm w ==> eqm w ==> eqm w) Z.add.
Proof. intros a b [k H] c d [j J]. exists (k + j). lia. Qed.

#[export] Instance eqm_opp (w : Z) : Proper (eqm w ==> eqm w) Z.opp.
Proof. intros a b [k H]. exists (- k). lia. Qed.

#[export] Instance eqm_sub (w : Z) : Proper (eqm w ==> eqm w ==> eqm w) Z.sub.
Proof. intros a b [k H] c d [j J]. exists (k - j). lia. Qed.

#[export] Instance eqm_mul (w : Z) : Proper (eqm w ==> eqm w ==> eqm w) Z.mul.
Proof. intros a b [k H] c d [j J]. exists (k * c + b * j). nia. Qed.

Lemma swrap_eqm (w a : Z) : eqm w (swrap w a) a.
Proof.
  unfold eqm, swrap. exists (- ((a + 2 ^ (w - 1)) / 2 ^ w)).
  pose proof (Zmod_eq_full (a + 2 ^ (w - 1)) (2 ^ w)).
  destruct (decide (2 ^ w = 0)) as [E|]; [|lia]. rewrite E, Z.mod_0_r. lia.
Qed.

Lemma uwrap_eqm (w a : Z) : eqm w (uwrap w a) a.
Proof.
  unfold eqm, uwrap. exists (- (a / 2 ^ w)).
  pose proof (Zmod_eq_full a (2 ^ w)).
  destruct (decide (2 ^ w = 0)) as [E|]; [|lia]. rewrite E, Z.mod_0_r. lia.
Qed.

Lemma swrap_cong (w a b : Z) : eqm w a b -> swrap w a = swrap w b.
Proof.
  intros [k Hk]. unfold swrap. f_equal.
  replace (a + 2 ^ (w - 1)) with (b + 2 ^ (w - 1) + k * 2 ^ w) by lia.
  apply Z_mod_plus_full.
Qed.

Lemma uwrap_cong (w a b : Z) : eqm w a b -> uwrap w a = uwrap w b.
Proof.
  intros [k Hk]. unfold uwrap. replace a with (b + k * 2 ^ w) by lia. apply Z_mod_plus_full.
Qed.

(** Proves an equality of wrapped expressions that holds of the unwrapped ones. *)
Ltac wrap_tac :=
  first [apply swrap_cong | apply uwrap_cong];
  rewrite ?swrap_eqm, ?uwrap_eqm;
  match goal with |- eqm _ ?a ?b => replace a with b by (nia || lia); reflexivity end.

Lemma align_down_pow2 (x k : Z) :
  0 <= k -> ALIGN_DOWN x (2 ^ k) = x - x mod 2 ^ k.
Proof.
  intros Hk. unfold ALIGN_DOWN.
  replace (2 ^ k - 1) with (Z.ones k) by (rewrite Z.ones_equiv; lia).
  rewrite <- Z.ldiff_land, Z.ldiff_ones_r by done.
  rewrite Z.shiftr_div_pow2, Z.shiftl_mul_pow2 by done.
  pose proof (pow2_pos k Hk). pose proof (Z.div_mod x (2 ^ k)). lia.
Qed.

Lemma align_pow2 (x k : Z) :
  0 <= k -> 0 <= x + (2 ^ k - 1) < 2 ^ 64 ->
  ALIGN x (2 ^ k) = (x + (2 ^ k - 1)) - (x + (2 ^ k - 1)) mod 2 ^ k.
Proof.
  intros Hk Hx. unfold ALIGN. rewrite uwrap_small by done.
  by apply align_down_pow2.
Qed.

(** [ALIGN] rounds up to the next multiple. *)
Lemma align_spec (x k : Z) :
  0 <= k -> 0 <= x -> x + 2 ^ k <= 2 ^ 64 ->
  exists q, ALIGN x (2 ^ k) = q * 2 ^ k /\ x <= q * 2 ^ k < x + 2 ^ k.
Proof.
  intros Hk Hx Hb. pose proof (pow2_pos k Hk).
  rewrite align_pow2 by lia.
  pose proof (Z.div_mod (x + (2 ^ k - 1)) (2 ^ k)).
  pose proof (Z.mod_pos_bound (x + (2 ^ k - 1)) (2 ^ k)).
  exists ((x + (2 ^ k - 1)) / 2 ^ k). lia.
Qed.

Lemma is_aligned_pow2 (x k : Z) :
  0 <= k -> IS_ALIGNED x (2 ^ k) = (x mod 2 ^ k =? 0).
Proof.
  intros Hk. unfold IS_ALIGNED.
  replace (2 ^ k - 1) with (Z.ones k) by (rewrite Z.ones_equiv; lia).
  by rewrite Z.land_ones.
Qed.

(** Reading one bit with a shift and a mask, or with a one-bit mask. *)
Lemma land_shiftr_1 (x k : Z) : 0 <= k -> Z.land (Z.shiftr x k) 1 = Z.b2z (Z.testbit x k).
Proof.
  intros. rewrite (Z.land_ones _ 1), Z.pow_1_r by lia.
  by rewrite Z.testbit_spec', Z.shiftr_div_pow2 by lia.
Qed.

Lemma testbit_land_shiftl (x k : Z) : 0 <= k -> ctrue (Z.land x (Z.shiftl 1 k)) = Z.testbit x k.
Proof.
  intros Hk. unfold ctrue. rewrite Z.shiftl_1_l.
  destruct (Z.eqb_spec (Z.land x (2 ^ k)) 0) as [E|E]; simpl.
  - apply (f_equal (fun z => Z.testbit z k)) in E.
    rewrite Z.land_spec, Z.pow2_bits_true, Z.bits_0, andb_true_r in E by done. done.
  - destruct (Z.testbit x k) eqn:Hb; [done|]. destruct E. apply Z.bits_inj'. intros n Hn.
    rewrite Z.land_spec, Z.bits_0. destruct (decide (n = k)) as [->|].
    + by rewrite Hb.
    + rewrite Z.pow2_bits_false by lia. apply andb_false_r.
Qed.

(** A [w]-bit value is determined by its low [w] bits. *)
Lemma bits_ext_small (w x y : Z) :
  0 <= w -> 0 <= x < 2 ^ w -> 0 <= y < 2 ^ w ->
  (forall k, 0 <= k < w -> Z.testbit x k = Z.testbit y k) -> x = y.
Proof.
  intros Hw Hx Hy Hk. rewrite <- (Z.mod_small x (2 ^ w)), <- (Z.mod_small y (2 ^ w)) by done.
  apply Z.bits_inj'. intros n Hn. destruct (Z.lt_ge_cases n w).
  - rewrite !Z.mod_pow2_bits_low by done. apply Hk. lia.
  - by rewrite !Z.mod_pow2_bits_high by lia.
Qed.

#[export] Hint Resolve uwrap_range swrap_range pow2_pos : ub.

(** ** Lists *)

(** Sum of a list of integers. *)
Definition zsum (l : list Z) : Z := foldr Z.add 0 l.

Lemma zsum_app (l1 l2 : list Z) : zsum (l1 ++ l2) = zsum l1 + zsum l2.
Proof. induction l1 as [|x l IH]; simpl; [lia|]. unfold zsum in *. simpl. lia. Qed.

(** First index in [i, i+n) that satisfies [p]. *)
Fixpoint find_from (p : Z -> bool) (i : Z) (n : nat) : option Z :=
  match n with
  | O => None
  | S n' => if p i then Some i else find_from p (i + 1) n'
  end.

Lemma find_from_Some (p : Z -> bool) (n : nat) : forall i j,
  find_from p i n = Some j ->
  i <= j < i + Z.of_nat n /\ p j = true /\ (forall k, i <= k < j -> p k = false).
Proof.
  induction n as [|n IH]; intros i j; simpl; [done|].
  destruct (p i) eqn:Hp; intros H.
  - injection H as <-. split_and!; try lia; try done.
  - apply IH in H as (? & ? & Hk). split_and!; try lia; try done.
    intros k ?. destruct (decide (k = i)) as [->|]; [done|]. apply Hk. lia.
Qed.

Lemma find_from_None (p : Z -> bool) (n : nat) : forall i,
  find_from p i n = None -> forall k, i <= k < i + Z.of_nat n -> p k = false.
Proof.
  induction n as [|n IH]; intros i H k Hk; simpl in *; [lia|].
  destruct (p i) eqn:Hp; [done|].
  destruct (decide (k = i)) as [->|]; [done|]. eapply IH; [done|]. lia.
Qed.
