(* ===== verification/EidTrie.v ===== *)
(** * The EID and host tries of ubcore

    [drivers/ub/urma/ubcore/ubcore_eid_trie.c] keeps a Patricia trie from
    128-bit EIDs to 128-bit EIDs, [ubcore_host_trie.c] the same trie from EIDs
    to host information.  The two files are one program at two value types, so
    the section below is parametric in the value type and the two modules at the
    end of the definitions instantiate it.

    A node pointer is a value of [trie] ([Null] is the NULL pointer); the
    pointer a writer stores with [rcu_assign_pointer] in a parent's slot is the
    tree the recursive function returns for that slot.  [kzalloc] may fail: the
    outcome of the allocations of a call are boolean arguments. *)

From S2P Require Import Prelude.

(** ** Keys *)

(** [union ubcore_eid]: sixteen raw bytes. *)
Definition ubcore_eid : Type := list Z.

(** The bytes of an EID: what the C type guarantees. *)
Definition eid_ok (e : ubcore_eid) : bool :=
  bool_decide (length e = 16%nat) && forallb (fun b => (0 <=? b) && (b <? 256)) e.

Definition raw (e : ubcore_eid) (i : Z) : Z := e !!! Z.to_nat i.

(** The [n]-th bit, 0 being the most significant. *)
Definition ubcore_eid_get_bit (addr : ubcore_eid) (n : Z) : Z :=
  Z.land (Z.shiftr (raw addr (n / 8)) (7 - n mod 8)) 1.

(** The inner loop of [ubcore_eid_diff_bit]: [n] iterations from [j]. *)
Fixpoint diff_bit_byte (xor j : Z) (n : nat) : option Z :=
  match n with
  | O => None
  | S n' =>
    if ctrue (Z.land xor (Z.shiftl 1 (7 - j))) then Some j
    else diff_bit_byte xor (j + 1) n'
  end.

(** The outer loop: [n] bytes from byte [i]. *)
Fixpoint diff_bit_loop (a b : ubcore_eid) (i : Z) (n : nat) : Z :=
  match n with
  | O => 128
  | S n' =>
    if raw a i =? raw b i then diff_bit_loop a b (i + 1) n'
    else match diff_bit_byte (Z.lxor (raw a i) (raw b i)) 0 8 with
         | Some j => i * 8 + j
         | None => diff_bit_loop a b (i + 1) n'
         end
  end.

Definition ubcore_eid_diff_bit (a b : ubcore_eid) : Z := diff_bit_loop a b 0 16.

(** ** The trie *)

Section Trie.
Context {V : Type} (zero_value : V).

(** [struct ubcore_eid_trie_node] behind a pointer: child[0], child[1], prefix,
    value, prefix_len, is_leaf. *)
Inductive trie : Type :=
| Null
| Node (child0 child1 : trie) (prefix : ubcore_eid) (value : V)
       (prefix_len : Z) (is_leaf : bool).

Definition trie_child (t : trie) (bit : Z) : trie :=
  match t with
  | Null => Null
  | Node c0 c1 _ _ _ _ => if bit =? 0 then c0 else c1
  end.

(** [rcu_assign_pointer(node->child[bit], c)]. *)
Definition set_child (t : trie) (bit : Z) (c : trie) : trie :=
  match t with
  | Null => Null
  | Node c0 c1 p v l f => if bit =? 0 then Node c c1 p v l f else Node c0 c p v l f
  end.

(** [ubcore_eid_trie_lookup]: the return code and the content of [*value_out]. *)
Fixpoint trie_lookup (node : trie) (key : ubcore_eid) (value_out : V) : Z * V :=
  match node with
  | Null => (- ENOENT, value_out)
  | Node c0 c1 prefix value prefix_len is_leaf =>
    if ubcore_eid_diff_bit key prefix <? prefix_len then (- ENOENT, value_out)
    else if is_leaf then (0, value)
    else if ubcore_eid_get_bit key prefix_len =? 0
         then trie_lookup c0 key value_out
         else trie_lookup c1 key value_out
  end.

(** The leaf [ubcore_eid_trie_insert] allocates first. *)
Definition new_leaf (key : ubcore_eid) (value : V) : trie :=
  Node Null Null key value 128 true.

(** The internal node that splits [node] at bit [diff]. *)
Definition new_internal (key : ubcore_eid) (diff : Z) (node leaf : trie)
    (node_prefix : ubcore_eid) : trie :=
  let n := Node Null Null key zero_value diff false in
  let n := set_child n (ubcore_eid_get_bit node_prefix diff) node in
  set_child n (ubcore_eid_get_bit key diff) leaf.

(** The walk of [ubcore_eid_trie_insert] from a slot holding [node]: the new
    content of the slot, or [None] when the second allocation ([alloc2]) fails. *)
Fixpoint insert_at (alloc2 : bool) (key : ubcore_eid) (value : V) (node : trie)
    : option trie :=
  match node with
  | Null => Some (new_leaf key value)
  | Node c0 c1 prefix v prefix_len is_leaf =>
    let diff := ubcore_eid_diff_bit key prefix in
    if diff <? prefix_len then
      if alloc2 then Some (new_internal key diff node (new_leaf key value) prefix)
      else None
    else if is_leaf then
      if alloc2 then Some (Node c0 c1 prefix value prefix_len is_leaf) else None
    else if ubcore_eid_get_bit key prefix_len =? 0 then
      c0' ← insert_at alloc2 key value c0; Some (Node c0' c1 prefix v prefix_len is_leaf)
    else
      c1' ← insert_at alloc2 key value c1; Some (Node c0 c1' prefix v prefix_len is_leaf)
  end.

(** [ubcore_eid_trie_insert]: [alloc1] is the allocation of the leaf, [alloc2]
    that of the replacement leaf or of the internal node. *)
Definition trie_insert (alloc1 alloc2 : bool) (root : trie) (key : ubcore_eid)
    (value : V) : Z * trie :=
  if alloc1 then
    match insert_at alloc2 key value root with
    | Some root' => (0, root')
    | None => (- ENOMEM, root)
    end
  else (- ENOMEM, root).

(** What the walk of [ubcore_eid_trie_delete] found below a slot: no such key;
    the slot itself holds the leaf; or the slot's new content. *)
Inductive del_res : Type := DelNoEnt | DelLeaf | DelSlot (t : trie).

Fixpoint delete_at (key : ubcore_eid) (node : trie) : del_res :=
  match node with
  | Null => DelNoEnt
  | Node c0 c1 prefix _ prefix_len is_leaf =>
    if ubcore_eid_diff_bit key prefix <? prefix_len then DelNoEnt
    else if is_leaf then DelLeaf
    else
      let p_bit := ubcore_eid_get_bit key prefix_len in
      match (if p_bit =? 0 then delete_at key c0 else delete_at key c1) with
      | DelNoEnt => DelNoEnt
      | DelLeaf => DelSlot (trie_child node (if ctrue p_bit then 0 else 1))
      | DelSlot c => DelSlot (set_child node p_bit c)
      end
  end.

(** [ubcore_eid_trie_delete]: return code, new root, and how many nodes are
    handed to [call_rcu]. *)
Definition trie_delete (root : trie) (key : ubcore_eid) : Z * trie * nat :=
  match delete_at key root with
  | DelNoEnt => (- ENOENT, root, 0%nat)
  | DelLeaf => (0, Null, 1%nat)
  | DelSlot t => (0, t, 2%nat)
  end.

(** [ubcore_eid_trie_reclaim]: the prefixes of the nodes passed to [kfree], in
    order. *)
Fixpoint trie_reclaim (node : trie) : list ubcore_eid :=
  match node with
  | Null => []
  | Node c0 c1 p _ _ _ => trie_reclaim c0 ++ trie_reclaim c1 ++ [p]
  end.

(** [ubcore_eid_trie_destroy]: the root is detached, then its nodes are freed. *)
Definition trie_destroy (root : trie) : trie * list ubcore_eid :=
  match root with
  | Null => (Null, [])
  | old_root => (Null, trie_reclaim old_root)
  end.
End Trie.

Arguments trie V : clear implicits.
Arguments del_res V : clear implicits.

(** The EID trie: values are EIDs, [kzalloc] fills them with zero bytes. *)
Module Eid.
Definition zero_eid : ubcore_eid := replicate 16 0.
Definition ubcore_eid_trie_lookup := @trie_lookup ubcore_eid.
Definition ubcore_eid_trie_insert := @trie_insert ubcore_eid zero_eid.
Definition ubcore_eid_trie_delete := @trie_delete ubcore_eid.
Definition ubcore_eid_trie_destroy := @trie_destroy ubcore_eid.
End Eid.

(** The host trie: values are [struct ubcore_host_info]. *)
Module Host.
Record ubcore_host_info := { hi_eid : ubcore_eid; hi_cna : list Z }.
Definition zero_info : ubcore_host_info :=
  {| hi_eid := replicate 16 0; hi_cna := replicate 16 0 |}.
Definition ubcore_host_trie_lookup := @trie_lookup ubcore_host_info.
Definition ubcore_host_trie_insert := @trie_insert ubcore_host_info zero_info.
Definition ubcore_host_trie_delete := @trie_delete ubcore_host_info.
Definition ubcore_host_trie_destroy := @trie_destroy ubcore_host_info.
End Host.

(** ** Bits of a key *)

Definition ebit (e : ubcore_eid) (n : Z) : bool := Z.testbit (raw e (n / 8)) (7 - n mod 8).

(** Two keys share their first [n] bits. *)
Definition agree (a b : ubcore_eid) (n : Z) : Prop := forall m, 0 <= m < n -> ebit a m = ebit b m.

Lemma get_bit_ebit (e : ubcore_eid) (n : Z) :
  ubcore_eid_get_bit e n = Z.b2z (ebit e n).
Proof.
  unfold ubcore_eid_get_bit, ebit. apply land_shiftr_1.
  pose proof (Z.mod_pos_bound n 8). lia.
Qed.

Lemma get_bit_0 (e : ubcore_eid) (n : Z) : (ubcore_eid_get_bit e n =? 0) = negb (ebit e n).
Proof. rewrite get_bit_ebit. by destruct (ebit e n). Qed.

Lemma ebit_byte (e : ubcore_eid) (i j : Z) :
  0 <= j < 8 -> ebit e (i * 8 + j) = Z.testbit (raw e i) (7 - j).
Proof.
  intros Hj. unfold ebit. rewrite Z.add_comm, Z.div_add, Z.mod_add by lia.
  by rewrite Z.div_small, Z.mod_small by lia.
Qed.

Lemma eid_ok_spec (e : ubcore_eid) :
  eid_ok e = true -> length e = 16%nat /\ forall i, 0 <= i < 16 -> 0 <= raw e i < 256.
Proof.
  unfold eid_ok. intros [H1 H2]%andb_prop. apply bool_decide_eq_true in H1.
  split; [done|]. intros i Hi. rewrite forallb_forall in H2.
  destruct (lookup_lt_is_Some_2 e (Z.to_nat i)) as [b Hb]; [lia|].
  unfold raw. rewrite (list_lookup_total_correct _ _ _ Hb).
  apply list_elem_of_lookup_2, list_elem_of_In, H2 in Hb. lia.
Qed.

Lemma diff_bit_byte_find (x : Z) (n : nat) : forall j,
  0 <= j -> j + Z.of_nat n <= 8 ->
  diff_bit_byte x j n = find_from (fun j => Z.testbit x (7 - j)) j n.
Proof.
  induction n as [|n IH]; intros j Hj Hn; simpl; [done|].
  rewrite testbit_land_shiftl by lia. rewrite IH by lia. done.
Qed.

(** The outer loop returns the first differing bit from byte [i] on. *)
Lemma diff_bit_loop_spec (a b : ubcore_eid) (n : nat) : forall i,
  eid_ok a = true -> eid_ok b = true -> 0 <= i -> i + Z.of_nat n = 16 ->
  let d := diff_bit_loop a b i n in
  i * 8 <= d <= 128 /\ (forall m, i * 8 <= m < d -> ebit a m = ebit b m) /\
  (d < 128 -> ebit a d <> ebit b d).
Proof.
  induction n as [|n IH]; intros i Ha Hb Hi Hn; cbn [diff_bit_loop].
  { split_and!; intros; lia. }
  destruct (IH (i + 1)) as (IH1 & IH2 & IH3); [done..|lia|lia|].
  assert (Hrest : (forall j, 0 <= j < 8 -> ebit a (i * 8 + j) = ebit b (i * 8 + j)) ->
    forall m, i * 8 <= m < diff_bit_loop a b (i + 1) n -> ebit a m = ebit b m).
  { intros Hj m Hm. destruct (Z.lt_ge_cases m ((i + 1) * 8)).
    - replace m with (i * 8 + (m - i * 8)) by lia. apply Hj. lia.
    - apply IH2. lia. }
  destruct (Z.eqb_spec (raw a i) (raw b i)) as [E|E].
  { split_and!; [lia..| |done]. apply Hrest. intros j Hj. by rewrite !ebit_byte, E by done. }
  rewrite diff_bit_byte_find by lia.
  destruct (find_from _ 0 8) as [j|] eqn:Hf.
  - apply find_from_Some in Hf as (Hj & Hx & Hk). split_and!; [lia..| |].
    + intros m Hm. replace m with (i * 8 + (m - i * 8)) by lia.
      specialize (Hk (m - i * 8)). rewrite !ebit_byte by lia.
      rewrite Z.lxor_spec in Hk. by apply xorb_eq, Hk; lia.
    + intros _. rewrite !ebit_byte by lia. rewrite Z.lxor_spec in Hx.
      intros Heq. by rewrite Heq, xorb_nilpotent in Hx.
  - destruct E. apply (bits_ext_small 8); [lia| | |].
    + apply (eid_ok_spec a); [done|lia].
    + apply (eid_ok_spec b); [done|lia].
    + intros k Hk. apply find_from_None with (k := 7 - k) in Hf; [|lia].
      rewrite Z.lxor_spec in Hf. replace (7 - (7 - k)) with k in Hf by lia. by apply xorb_eq.
Qed.

Lemma eid_ext (a b : ubcore_eid) :
  eid_ok a = true -> eid_ok b = true -> agree a b 128 -> a = b.
Proof.
  intros [Hla Hra]%eid_ok_spec [Hlb Hrb]%eid_ok_spec Hag.
  apply list_eq_same_length with (n := 16%nat); [done..|].
  intros i x y Hi Hx Hy.
  assert (Hr : raw a (Z.of_nat i) = raw b (Z.of_nat i)).
  { apply (bits_ext_small 8); [lia|apply Hra; lia|apply Hrb; lia|].
    intros k Hk. specialize (Hag (Z.of_nat i * 8 + (7 - k))).
    rewrite !ebit_byte in Hag by lia. replace (7 - (7 - k)) with k in Hag by lia.
    apply Hag. lia. }
  unfold raw in Hr. rewrite Nat2Z.id in Hr.
  by rewrite (list_lookup_total_correct _ _ _ Hx), (list_lookup_total_correct _ _ _ Hy) in Hr.
Qed.

Lemma diff_bit_cases (a b : ubcore_eid) :
  eid_ok a = true -> eid_ok b = true ->
  let d := ubcore_eid_diff_bit a b in
  0 <= d <= 128 /\ agree a b d /\ (d < 128 -> ebit a d <> ebit b d).
Proof.
  intros Ha Hb. destruct (diff_bit_loop_spec a b 16 0) as (? & H2 & ?); [done..|].
  unfold ubcore_eid_diff_bit. split_and!; [lia..| |done]. intros m Hm. apply H2. lia.
Qed.

(** A key that shares at least [l] bits with a prefix passes the divergence test
    of the walks, and conversely. *)
Lemma diff_bit_lt (a b : ubcore_eid) (l : Z) :
  eid_ok a = true -> eid_ok b = true -> l <= 128 ->
  BoolSpec (~ agree a b l) (agree a b l) (ubcore_eid_diff_bit a b <? l).
Proof.
  intros Ha Hb Hl. destruct (diff_bit_cases a b) as (? & Hag & Hne); [done..|].
  destruct (Z.ltb_spec (ubcore_eid_diff_bit a b) l); constructor.
  - intros H'. apply Hne; [lia|]. apply H'. lia.
  - intros m Hm. apply Hag. lia.
Qed.

Lemma agree_sym (a b : ubcore_eid) (n : Z) : agree a b n -> agree b a n.
Proof. intros H m Hm. symmetry. by apply H. Qed.

Lemma agree_trans (a b c : ubcore_eid) (n n' : Z) :
  n <= n' -> agree a b n' -> agree b c n -> agree a c n.
Proof. intros Hn H1 H2 m Hm. rewrite H1 by lia. by apply H2. Qed.

Lemma agree_refl (a : ubcore_eid) (n : Z) : agree a a n.
Proof. done. Qed.

#[export] Hint Resolve agree_refl agree_sym : ub.

(** ** Well-formed tries and the finite map they represent *)

Section TrieSpec.
Context {V : Type} (zero_value : V).
Implicit Types (t : trie V) (p k : ubcore_eid) (l n : Z) (b : bool).

(** What a node at bit [l] below prefix [p] requires of the child for bit [b]. *)
Definition sub_ok p l b t : Prop :=
  match t with
  | Null => False
  | Node _ _ p' _ l' _ => l < l' /\ agree p' p l /\ ebit p' l = b
  end.

(** The shape of a non-empty trie: leaves hold whole keys, an internal node has
    two children, which extend its prefix by either bit. *)
Fixpoint trie_wf t : Prop :=
  match t with
  | Null => False
  | Node c0 c1 p _ l is_leaf =>
    eid_ok p = true /\
    if is_leaf then l = 128 /\ c0 = Null /\ c1 = Null
    else 0 <= l < 128 /\ sub_ok p l false c0 /\ sub_ok p l true c1 /\
         trie_wf c0 /\ trie_wf c1
  end.

Definition root_wf t : Prop := t = Null \/ trie_wf t.

(** The finite map a trie stands for. *)
Fixpoint to_map t : gmap ubcore_eid V :=
  match t with
  | Null => ∅
  | Node c0 c1 p v _ is_leaf => if is_leaf then {[p := v]} else to_map c0 ∪ to_map c1
  end.

(** Number of allocated nodes, and the longest path a walk follows. *)
Fixpoint nodes t : nat :=
  match t with Null => 0 | Node c0 c1 _ _ _ _ => S (nodes c0 + nodes c1) end.

Fixpoint height t : nat :=
  match t with Null => 0 | Node c0 c1 _ _ _ _ => S (max (height c0) (height c1)) end.

Definition top_ok t k : Prop :=
  match t with Null => False | Node _ _ p _ l _ => eid_ok k = true /\ agree k p l end.

Lemma sub_ok_bit p l b t k :
  eid_ok p = true -> 0 <= l -> sub_ok p l b t -> top_ok t k ->
  agree k p l /\ ebit k l = b.
Proof.
  destruct t as [|c0 c1 p' v' l' f]; simpl; [done|].
  intros Hp Hl (? & Hag & <-) (_ & Hk). split.
  - by apply agree_trans with (b := p') (n' := l'); [lia|..].
  - apply Hk. lia.
Qed.

(** Every key below a node shares the node's prefix. *)
Lemma to_map_top t k v : trie_wf t -> to_map t !! k = Some v -> top_ok t k.
Proof.
  revert k v. induction t as [|c0 IH0 c1 IH1 p w l f]; intros k v; simpl; [done|].
  destruct f.
  - intros (? & -> & _ & _) [-> ->]%lookup_singleton_Some. auto with ub.
  - intros (Hp & Hl & S0 & S1 & W0 & W1) Hk.
    assert (H : exists b, let c := if b : bool then c1 else c0 in sub_ok p l b c /\ top_ok c k).
    { destruct (to_map c0 !! k) as [v0|] eqn:E0.
      - exists false. split; [done|]. by eapply IH0.
      - rewrite lookup_union_r in Hk by done. exists true. split; [done|]. by eapply IH1. }
    destruct H as (b & Hs & Ht). destruct (sub_ok_bit p l b (if b then c1 else c0) k Hp) as [Hag _]; [lia|done..|].
    split; [|done]. destruct b; [destruct c1|destruct c0]; by destruct Ht.
Qed.

Lemma to_map_child_None p l b t k :
  eid_ok p = true -> 0 <= l -> sub_ok p l b t -> trie_wf t ->
  ebit k l <> b -> to_map t !! k = None.
Proof.
  intros Hp Hl Hs Hw Hb. destruct (to_map t !! k) as [v|] eqn:E; [|done].
  destruct Hb. eapply sub_ok_bit; [done..|]. by eapply to_map_top.
Qed.

(** Looking up in an internal node: only the child of the key's bit matters. *)
Lemma to_map_internal c0 c1 p v l k :
  trie_wf (Node c0 c1 p v l false) ->
  to_map (Node c0 c1 p v l false) !! k = to_map (if ebit k l then c1 else c0) !! k.
Proof.
  intros (Hp & Hl & S0 & S1 & W0 & W1). simpl.
  destruct (ebit k l) eqn:Hb.
  - apply lookup_union_r. eapply to_map_child_None; [done| |done..|congruence]. lia.
  - apply lookup_union_l. eapply to_map_child_None; [done| |done..|congruence]. lia.
Qed.

(** The lookup walk computes the finite-map lookup. *)
Lemma lookup_walk t k out :
  trie_wf t -> eid_ok k = true ->
  trie_lookup t k out =
  match to_map t !! k with Some v => (0, v) | None => (- ENOENT, out) end.
Proof.
  induction t as [|c0 IH0 c1 IH1 p v l f]; intros Hw Hk; [done|].
  cbn [trie_lookup].
  assert (Hl : l <= 128) by (destruct f; simpl in Hw; lia).
  assert (Hp : eid_ok p = true) by apply Hw.
  destruct (diff_bit_lt k p l Hk Hp Hl) as [Hd|Hd].
  { destruct (to_map (Node c0 c1 p v l f) !! k) as [w|] eqn:E; [|done].
    apply to_map_top in E as [_ E]; [|done]. by destruct Hd. }
  destruct f.
  { destruct Hw as (_ & -> & _ & _). rewrite (eid_ext k p Hk Hp Hd).
    simpl. by rewrite lookup_singleton_eq. }
  rewrite (to_map_internal _ _ _ _ _ _ Hw), get_bit_0.
  destruct Hw as (_ & _ & _ & _ & W0 & W1).
  destruct (ebit k l); simpl; auto.
Qed.

(** *** Insertion *)

(** The internal node that separates [node] from the new leaf. *)
Lemma new_internal_eq k d node leaf p :
  ebit k d <> ebit p d ->
  new_internal zero_value k d node leaf p =
  if ebit p d then Node leaf node k zero_value d false
  else Node node leaf k zero_value d false.
Proof.
  intros Hne. unfold new_internal. rewrite !get_bit_ebit.
  by destruct (ebit p d), (ebit k d).
Qed.

Lemma split_spec k v t p l :
  eid_ok k = true -> trie_wf t ->
  (exists c0 c1 w f, t = Node c0 c1 p w l f) -> ubcore_eid_diff_bit k p < l -> l <= 128 ->
  let d := ubcore_eid_diff_bit k p in
  let t' := new_internal zero_value k d t (new_leaf k v) p in
  trie_wf t' /\ to_map t' = <[k:=v]> (to_map t).
Proof.
  intros Hk Hw (c0 & c1 & w & f & ->) Hd Hl d t'.
  assert (Hp : eid_ok p = true) by apply Hw.
  destruct (diff_bit_cases k p Hk Hp) as (Hd0 & Hag & Hne). fold d in Hd, Hd0, Hag, Hne.
  assert (Hnone : to_map (Node c0 c1 p w l f) !! k = None).
  { destruct (to_map _ !! k) as [u|] eqn:E; [|done].
    apply to_map_top in E as [_ E]; [|done]. destruct Hne; [lia|]. apply E. lia. }
  subst t'. rewrite new_internal_eq by (apply Hne; lia).
  remember (Node c0 c1 p w l f) as t eqn:Et.
  assert (Hst : sub_ok k d (ebit p d) t) by (subst t; simpl; auto with ub).
  assert (Hsl : sub_ok k d (negb (ebit p d)) (new_leaf k v)).
  { simpl. split_and!; [lia|done|]. specialize (Hne ltac:(lia)).
    by destruct (ebit k d), (ebit p d). }
  assert (Hwl : trie_wf (new_leaf k v)) by done.
  destruct (ebit p d); cbn [trie_wf to_map negb] in *; split.
  - split_and!; auto; lia.
  - by rewrite insert_union_singleton_l.
  - split_and!; auto; lia.
  - by rewrite insert_union_singleton_r.
Qed.

(** Splitting a child below an internal node keeps it a child of that node. *)
Lemma split_sub_ok k v t p' p l b :
  eid_ok k = true -> eid_ok p' = true -> 0 <= l ->
  agree p' p l -> ebit p' l = b -> agree k p l -> ebit k l = b ->
  ubcore_eid_diff_bit k p' < 128 ->
  sub_ok p l b (new_internal zero_value k (ubcore_eid_diff_bit k p') t (new_leaf k v) p').
Proof.
  intros Hk Hp' Hl Hag Hb Hagk Hbk H128.
  destruct (diff_bit_cases k p' Hk Hp') as (Hd0 & _ & Hne).
  specialize (Hne H128). rewrite new_internal_eq by done.
  assert (Hlt : l < ubcore_eid_diff_bit k p').
  { destruct (Z.lt_trichotomy l (ubcore_eid_diff_bit k p')) as [|[E|E]]; [done|..].
    - destruct Hne. by rewrite <- E, Hb.
    - destruct Hne. by rewrite Hagk, <- Hag by lia. }
  by destruct (ebit p' (ubcore_eid_diff_bit k p')).
Qed.

Lemma insert_at_spec k (v : V) t t' :
  trie_wf t -> eid_ok k = true -> insert_at zero_value true k v t = Some t' ->
  trie_wf t' /\ to_map t' = <[k:=v]> (to_map t) /\
  (forall p l b, 0 <= l -> sub_ok p l b t -> agree k p l -> ebit k l = b -> sub_ok p l b t').
Proof.
  revert t'. induction t as [|c0 IH0 c1 IH1 p w l f]; intros t' Hw Hk; [done|].
  cbn [insert_at]. rewrite get_bit_0.
  assert (Hl : l <= 128) by (destruct f; simpl in Hw; lia).
  assert (Hp : eid_ok p = true) by apply Hw.
  destruct (Z.ltb_spec (ubcore_eid_diff_bit k p) l) as [Hd|Hd].
  { intros [= <-]. destruct (split_spec k v (Node c0 c1 p w l f) p l) as [? ?]; eauto 6.
    split_and!; [done..|]. intros p1 l1 b Hl1 (? & ? & ?) ??. apply split_sub_ok; auto. lia. }
  assert (Hag : agree k p l).
  { destruct (diff_bit_cases k p) as (_ & Hag & _); [done..|]. intros m Hm. apply Hag. lia. }
  destruct f.
  { intros [= <-]. destruct Hw as (_ & -> & -> & ->). rewrite (eid_ext k p Hk Hp Hag).
    split_and!; [done|simpl; by rewrite insert_singleton_eq|done]. }
  destruct Hw as (_ & Hl' & S0 & S1 & W0 & W1).
  destruct (ebit k l) eqn:Hb; simpl; intros (c' & Hc & [= <-])%bind_Some.
  - apply IH1 in Hc as (W' & M' & S'); [|done..]. split_and!; [|cbn [to_map]; rewrite M'|done].
    + split_and!; try done; try lia. apply S'; auto. lia.
    + rewrite insert_union_r; [done|].
      eapply to_map_child_None; [done| |done..|congruence]. lia.
  - apply IH0 in Hc as (W' & M' & S'); [|done..]. split_and!; [|cbn [to_map]; rewrite M'|done].
    + split_and!; try done; try lia. apply S'; auto. lia.
    + by rewrite insert_union_l.
Qed.

(** The walk never fails for want of memory when its allocation succeeds. *)
Lemma insert_at_alloc k v t : exists t', insert_at zero_value true k v t = Some t'.
Proof.
  induction t as [|c0 [t0 E0] c1 [t1 E1] p w l f]; cbn [insert_at]; [by eexists|].
  rewrite E0, E1. simpl. repeat case_match; eauto.
Qed.

(** *** Deletion *)

(** A grandchild may take the place of its parent. *)
Lemma sub_ok_trans p l p1 l1 b1 b c :
  0 <= l1 -> l1 < l /\ agree p p1 l1 /\ ebit p l1 = b1 -> sub_ok p l b c -> sub_ok p1 l1 b1 c.
Proof.
  destruct c as [|d0 d1 p' v' l' f']; [done|]. intros Hl1 (? & Hag & <-) (? & Hag' & _).
  split_and!; [lia| |apply Hag'; lia].
  apply agree_trans with (b := p) (n' := l1); [lia| |done]. intros m Hm. apply Hag'. lia.
Qed.

Lemma delete_union_r k (v : V) (m : gmap ubcore_eid V) :
  m !! k = None -> delete k (m ∪ {[k := v]}) = m /\ delete k ({[k := v]} ∪ m) = m.
Proof.
  intros Hm. rewrite !delete_union, delete_singleton_eq, delete_id by done.
  split; [apply (right_id_L ∅ (∪))|apply (left_id_L ∅ (∪))].
Qed.

Lemma delete_at_spec k t :
  trie_wf t -> eid_ok k = true ->
  match delete_at k t with
  | DelNoEnt => to_map t !! k = None
  | DelLeaf => exists v, t = new_leaf k v
  | DelSlot t' =>
    is_Some (to_map t !! k) /\ trie_wf t' /\ to_map t' = delete k (to_map t) /\
    nodes t = (nodes t' + 2)%nat /\ (forall p l b, 0 <= l -> sub_ok p l b t -> sub_ok p l b t')
  end.
Proof.
  induction t as [|c0 IH0 c1 IH1 p w l f]; intros Hw Hk; [done|].
  cbn [delete_at]. rewrite get_bit_0, get_bit_ebit.
  assert (Hl : l <= 128) by (destruct f; simpl in Hw; lia).
  assert (Hp : eid_ok p = true) by apply Hw.
  destruct (diff_bit_lt k p l Hk Hp Hl) as [Hd|Hd].
  { destruct (to_map (Node c0 c1 p w l f) !! k) as [u|] eqn:E; [|done].
    apply to_map_top in E as [_ E]; [|done]. by destruct Hd. }
  destruct f.
  { destruct Hw as (_ & -> & -> & ->). rewrite (eid_ext k p Hk Hp Hd). by exists w. }
  rewrite (to_map_internal _ _ _ _ _ _ Hw).
  destruct Hw as (_ & Hl' & S0 & S1 & W0 & W1).
  specialize (IH0 W0 Hk). specialize (IH1 W1 Hk).
  assert (Hother : forall b c, sub_ok p l b c -> trie_wf c -> ebit k l <> b -> to_map c !! k = None).
  { intros b c ???. eapply to_map_child_None; [done| |done..]. lia. }
  destruct (ebit k l) eqn:Hb; cbn [negb Z.b2z].
  - assert (N0 := Hother false c0 S0 W0 ltac:(done)).
    destruct (delete_at k c1) as [| |c']; [done|..].
    + destruct IH1 as [u ->]. simpl. rewrite lookup_singleton_eq.
      split_and!; [by exists u|done| | |].
      * symmetry. by apply delete_union_r.
      * lia.
      * intros p1 l1 b1 ??. by eapply sub_ok_trans.
    + destruct IH1 as (? & W' & M' & N' & S'). cbn [set_child Z.eqb to_map nodes].
      split_and!; [done| | | |done].
      * split_and!; try done; try lia. apply S'; [lia|done].
      * by rewrite delete_union, M', (delete_id (to_map c0)).
      * lia.
  - assert (N1 := Hother true c1 S1 W1 ltac:(done)).
    destruct (delete_at k c0) as [| |c']; [done|..].
    + destruct IH0 as [u ->]. simpl. rewrite lookup_singleton_eq.
      split_and!; [by exists u|done| | |].
      * symmetry. by apply delete_union_r.
      * lia.
      * intros p1 l1 b1 ??. by eapply sub_ok_trans.
    + destruct IH0 as (? & W' & M' & N' & S'). cbn [set_child Z.eqb to_map nodes].
      split_and!; [done| | | |done].
      * split_and!; try done; try lia. apply S'; [lia|done].
      * by rewrite delete_union, M', (delete_id (to_map c1)).
      * lia.
Qed.

(** A well-formed node has at most [129 - prefix_len] levels below and at it. *)
Lemma height_bound t :
  trie_wf t ->
  match t with Null => False | Node _ _ _ _ l _ => Z.of_nat (height t) + l <= 129 end.
Proof.
  induction t as [|c0 IH0 c1 IH1 p w l f]; intros Hw; [done|].
  destruct f.
  { destruct Hw as (_ & -> & -> & ->). done. }
  destruct Hw as (_ & Hl & S0 & S1 & W0 & W1). specialize (IH0 W0). specialize (IH1 W1).
  destruct c0, c1; cbn [sub_ok] in *; try done. cbn [height] in *. lia.
Qed.

Lemma length_reclaim t : length (trie_reclaim t) = nodes t.
Proof. induction t; simpl; [done|]. rewrite !length_app. simpl. lia. Qed.
End TrieSpec.

(** ** What the tries promise *)

Section Properties.
Context {V : Type} (zero_value : V).

(** [ubcore_eid_diff_bit] returns the index of the first bit in which two
    EIDs differ, and 128 exactly when they are equal. *)
Theorem diff_bit_first (a b : ubcore_eid) (Ha : eid_ok a = true) (Hb : eid_ok b = true) :
  let d := ubcore_eid_diff_bit a b in
  0 <= d <= 128 /\
  (forall m, 0 <= m < d -> ubcore_eid_get_bit a m = ubcore_eid_get_bit b m) /\
  (d < 128 -> ubcore_eid_get_bit a d <> ubcore_eid_get_bit b d) /\
  (d = 128 <-> a = b).
Proof.
  intros d. destruct (diff_bit_cases a b Ha Hb) as (Hd & Hag & Hne).
  split_and!; [lia..| | |].
  - intros m Hm. rewrite !get_bit_ebit. f_equal. by apply Hag.
  - intros Hlt. rewrite !get_bit_ebit. specialize (Hne Hlt). fold d in Hne.
    by destruct (ebit a d), (ebit b d).
  - split.
    + intros E. apply eid_ext; [done..|]. unfold d in E. by rewrite E in Hag.
    + intros ->. destruct (decide (d < 128)) as [Hlt|]; [|lia]. by destruct (Hne Hlt).
Qed.

(** Without its second allocation, insertion into a non-empty trie stops. *)
Lemma insert_at_nomem (k : ubcore_eid) (v : V) (t : trie V) :
  trie_wf t -> insert_at zero_value false k v t = None.
Proof.
  induction t as [|c0 IH0 c1 IH1 p w l f]; [done|]. intros Hw.
  cbn [insert_at]. case_match; [done|]. destruct f; [done|].
  destruct Hw as (_ & _ & _ & _ & W0 & W1). rewrite IH0, IH1 by done. by case_match.
Qed.

Lemma insert_refines (a1 a2 : bool) (t : trie V) (k : ubcore_eid) (v : V)
    (Hw : root_wf t) (Hk : eid_ok k = true) :
  match trie_insert zero_value a1 a2 t k v with
  | (ret, t') =>
    (ret = 0 /\ root_wf t' /\ to_map t' = <[k:=v]> (to_map t)) \/
    (ret = - ENOMEM /\ t' = t /\ a1 && a2 = false)
  end.
Proof.
  unfold trie_insert. destruct a1; [|by right].
  destruct Hw as [->|Hw]; [left; split_and!; [done|by right|done]|].
  destruct a2.
  - destruct (insert_at_alloc zero_value k v t) as [t' Ht']. rewrite Ht'. left.
    apply insert_at_spec in Ht' as (? & ? & _); [|done..]. split_and!; [done|by right|done].
  - rewrite insert_at_nomem by done. by right.
Qed.

Lemma delete_refines (t : trie V) (k : ubcore_eid)
    (Hw : root_wf t) (Hk : eid_ok k = true) :
  match trie_delete t k with
  | (ret, t', freed) =>
    root_wf t' /\ to_map t' = delete k (to_map t) /\ nodes t = (nodes t' + freed)%nat /\
    ret = (if to_map t !! k is Some _ then 0 else - ENOENT)
  end.
Proof.
  unfold trie_delete. destruct Hw as [->|Hw].
  { simpl. rewrite delete_empty. split_and!; [by left|done..]. }
  pose proof (delete_at_spec k t Hw Hk) as H. destruct (delete_at k t) as [| |t'].
  - rewrite H, delete_id by done. split_and!; [by right|done|lia|done].
  - destruct H as [v ->]. simpl. rewrite delete_singleton_eq, lookup_singleton_eq.
    split_and!; [by left|done..].
  - destruct H as ([v ->] & ? & ? & ? & _). split_and!; [by right|done..].
Qed.

(** C7: insertion refines finite-map insertion.  Whatever allocations fail, a
    return of 0 leaves a well-formed trie that represents the updated map; any
    other return is [-ENOMEM], happens only when an allocation failed, and leaves
    the trie untouched. *)
Theorem trie_insert_refines (a1 a2 : bool) (t : trie V) (k : ubcore_eid) (v : V)
    (Hw : root_wf t) (Hk : eid_ok k = true) :
  match trie_insert zero_value a1 a2 t k v with
  | (ret, t') =>
    (ret = 0 /\ root_wf t' /\ to_map t' = <[k:=v]> (to_map t)) \/
    (ret = - ENOMEM /\ t' = t /\ a1 && a2 = false)
  end.
Proof. by apply insert_refines. Qed.

(** Lookup refines finite-map lookup: 0 and the stored value when the key is
    present, [-ENOENT] and an untouched output otherwise. *)
Theorem trie_lookup_refines (t : trie V) (k : ubcore_eid) (out : V)
    (Hw : root_wf t) (Hk : eid_ok k = true) :
  trie_lookup t k out =
  match to_map t !! k with Some v => (0, v) | None => (- ENOENT, out) end.
Proof. destruct Hw as [->|Hw]; [done|]. by apply lookup_walk. Qed.

(** C8: deletion refines finite-map deletion and leaks no node: it succeeds
    exactly on a present key, the new trie is well-formed and represents the map
    without the key, and the nodes handed to [call_rcu] are those that left the
    trie. *)
Theorem trie_delete_refines (t : trie V) (k : ubcore_eid)
    (Hw : root_wf t) (Hk : eid_ok k = true) :
  match trie_delete t k with
  | (ret, t', freed) =>
    root_wf t' /\ to_map t' = delete k (to_map t) /\ nodes t = (nodes t' + freed)%nat /\
    ret = (if to_map t !! k is Some _ then 0 else - ENOENT)
  end.
Proof. by apply delete_refines. Qed.

(** A walk of the trie visits at most 129 nodes, and destroying it frees each
    of its nodes once and empties it. *)
Theorem trie_walk_bound (t : trie V) (Hw : root_wf t) :
  (height t <= 129)%nat /\
  (trie_destroy t).1 = Null /\ length (trie_destroy t).2 = nodes t.
Proof.
  destruct Hw as [->|Hw]; [split_and!; simpl; lia || done|].
  pose proof (height_bound t Hw) as H. pose proof (length_reclaim t).
  destruct t as [|c0 c1 p v l f]; [done|].
  split_and!; [|done..]. destruct f; simpl in Hw; lia.
Qed.

(** Histories: the operations of the trie under its writer lock, with the
    outcome of their allocations, and the same history on a finite map. *)
Inductive trie_op : Type :=
| OpInsert (a1 a2 : bool) (k : ubcore_eid) (v : V)
| OpDelete (k : ubcore_eid).

Definition op_ok (o : trie_op) : bool :=
  match o with OpInsert _ _ k _ => eid_ok k | OpDelete k => eid_ok k end.

Definition trie_step (t : trie V) (o : trie_op) : Z * trie V :=
  match o with
  | OpInsert a1 a2 k v => trie_insert zero_value a1 a2 t k v
  | OpDelete k => (trie_delete t k).1
  end.

(** The map changes exactly when the call returned 0. *)
Definition map_step (ret : Z) (m : gmap ubcore_eid V) (o : trie_op) : gmap ubcore_eid V :=
  match o with
  | OpInsert _ _ k v => if ret =? 0 then <[k:=v]> m else m
  | OpDelete k => delete k m
  end.

Fixpoint run (os : list trie_op) (t : trie V) (m : gmap ubcore_eid V)
    : trie V * gmap ubcore_eid V :=
  match os with
  | [] => (t, m)
  | o :: os' => let '(ret, t') := trie_step t o in run os' t' (map_step ret m o)
  end.

Lemma step_refines (t : trie V) (o : trie_op) :
  root_wf t -> op_ok o = true ->
  let '(ret, t') := trie_step t o in
  root_wf t' /\ to_map t' = map_step ret (to_map t) o.
Proof.
  intros Hw Ho. destruct o as [a1 a2 k v|k]; simpl in *.
  - pose proof (insert_refines a1 a2 t k v Hw Ho) as H.
    destruct (trie_insert _ _ _ _ _ _) as [ret t'].
    destruct H as [(-> & ? & ?)|(-> & -> & ?)]; [done|]. split; [done|]. done.
  - pose proof (delete_refines t k Hw Ho) as H.
    destruct (trie_delete t k) as [[ret t'] freed]. simpl. by destruct H as (? & ? & _).
Qed.

Lemma run_refines (os : list trie_op) (t : trie V) :
  root_wf t -> forallb op_ok os = true ->
  let '(t', m) := run os t (to_map t) in root_wf t' /\ to_map t' = m.
Proof.
  revert t. induction os as [|o os IH]; intros t Hw Hos; [done|].
  apply andb_prop in Hos as [Ho Hos]. cbn [run].
  pose proof (step_refines t o Hw Ho) as Hs.
  destruct (trie_step t o) as [ret t']. destruct Hs as [Hw' <-]. by apply IH.
Qed.

(** C6: over any history of insertions and deletions from the empty trie, with
    any pattern of allocation failures, lookups answer as the finite map that
    performs the same history. *)
Theorem trie_history_refines (os : list trie_op) (k : ubcore_eid) (out : V)
    (Hos : forallb op_ok os = true) (Hk : eid_ok k = true) :
  let '(t, m) := run os Null ∅ in
  root_wf t /\ to_map t = m /\
  trie_lookup t k out = match m !! k with Some v => (0, v) | None => (- ENOENT, out) end.
Proof.
  pose proof (run_refines os Null (or_introl eq_refl) Hos) as H.
  cbn [to_map] in H.
  destruct (run os Null ∅) as [t m]. destruct H as [Hw <-].
  split_and!; [done..|]. destruct Hw as [->|Hw]; [done|]. by apply lookup_walk.
Qed.
End Properties.

(** ** Concrete runs *)

Definition key1 : ubcore_eid := replicate 15 0 ++ [1].
Definition key2 : ubcore_eid := replicate 15 0 ++ [3].
Definition key3 : ubcore_eid := 128 :: replicate 15 0.
Definition hist3 : list trie_op :=
  [OpInsert true true key1 1%nat; OpInsert true true key2 2%nat;
   OpInsert true false key3 9%nat; OpInsert true true key3 3%nat].
Definition trie3 : trie nat := (run 0%nat hist3 Null ∅).1.

Lemma trie3_wf : root_wf trie3.
Proof.
  pose proof (run_refines 0%nat hist3 Null (or_introl eq_refl) eq_refl) as H.
  unfold trie3. cbn [to_map] in H. destruct (run 0%nat hist3 Null ∅) as [t m].
  apply H.
Qed.

Example diff_bit_12 : ubcore_eid_diff_bit key1 key2 = 126.
Proof. reflexivity. Qed.

Lemma diff_bit_first_witness : ubcore_eid_diff_bit key1 key3 = 128 <-> key1 = key3.
Proof. apply (diff_bit_first key1 key3); reflexivity. Defined.

Lemma trie_insert_refines_witness :
  exists t', trie_insert 0%nat true true trie3 key1 7%nat = (0, t') /\
    to_map t' = <[key1:=7%nat]> (to_map trie3).
Proof.
  pose proof (trie_insert_refines 0%nat true true trie3 key1 7%nat trie3_wf eq_refl) as H.
  destruct (trie_insert 0%nat true true trie3 key1 7%nat) as [ret t'].
  exists t'. destruct H as [(-> & _ & ?)|(_ & _ & H)]; [done|discriminate H].
Defined.

Lemma trie_lookup_refines_witness : trie_lookup trie3 key2 0%nat = (0, 2%nat).
Proof. rewrite (trie_lookup_refines trie3 key2 0%nat trie3_wf eq_refl). reflexivity. Defined.

Lemma trie_delete_refines_witness :
  exists t', trie_delete trie3 key2 = (0, t', 2%nat) /\ to_map t' = delete key2 (to_map trie3).
Proof.
  pose proof (trie_delete_refines trie3 key2 trie3_wf eq_refl) as H.
  destruct (trie_delete trie3 key2) as [[ret t'] freed] eqn:E. exists t'.
  destruct H as (_ & Hm & Hn & Hr). vm_compute in E. injection E as <- <- <-. by split.
Defined.

Lemma trie_walk_bound_witness : length (trie_destroy trie3).2 = 5%nat.
Proof.
  rewrite (proj2 (proj2 (trie_walk_bound trie3 trie3_wf))). reflexivity.
Defined.

Lemma trie_history_refines_witness :
  exists t m, run 0%nat hist3 Null ∅ = (t, m) /\ trie_lookup t key3 0%nat = (0, 3%nat).
Proof.
  pose proof (trie_history_refines 0%nat hist3 key3 0%nat eq_refl eq_refl) as H.
  destruct (run 0%nat hist3 Null ∅) as [t m] eqn:E. exists t, m. split; [done|].
  destruct H as (_ & _ & ->).
  replace (m !! key3) with (Some 3%nat); [done|].
  apply (f_equal snd) in E. cbn [snd] in E. rewrite <- E. vm_compute. reflexivity.
Defined.
