(* ===== verification/SegTree.v ===== *)
(** * The segment tree of the UDMA driver

    [drivers/ub/urma/hw/udma/udma_seg_tree.c] counts, per user virtual address,
    how many registered segments cover it, in a lazily split binary tree over
    [0, 2^52).  Registering a segment returns the address ranges whose count went
    from 0 to 1 (they must be mapped), unregistering those that went from 1 to 0.

    The loops of the source keep an explicit array [stack[MAX_SEG_STACK_SIZE]] of
    node pointers.  A pointer is modelled by the path from the root to the node
    (nodes never move during a call), the array by a list whose length is checked
    at every push ([Overflow] is an out-of-bounds write).  The [n]-th [kzalloc] of
    a call succeeds when [alloc n] holds. *)

From S2P Require Import Prelude.

Definition MAX_ADDR_BITS : Z := 52.
Definition MAX_VADDR : Z := Z.shiftl 1 MAX_ADDR_BITS - 1.
Definition MAX_SEG_STACK_SIZE : Z := MAX_ADDR_BITS - PAGE_SHIFT + 1.
Definition BISECTOR : Z := 2.

(** ** Range lists *)

(** [struct udma_range_list]: the nodes from [head], each a start and a length,
    and the node [tail] points to (its index; [None] is NULL). *)
Record udma_range_list := { rl_nodes : list (Z * Z); rl_tail : option nat }.

Definition rl_empty : udma_range_list := {| rl_nodes := []; rl_tail := None |}.

(** [udma_add_to_range_list]: the result and whether it called [kzalloc].
    A NULL [tail] with a non-NULL [head] is a NULL dereference: [None]. *)
Definition udma_add_to_range_list (alloc : bool) (l : udma_range_list) (start fin : Z)
    : option (Z * udma_range_list * bool) :=
  let length := u64 (fin - start + 1) in
  match rl_nodes l with
  | [] =>
    if alloc then Some (0, {| rl_nodes := [(start, length)]; rl_tail := Some 0%nat |}, true)
    else Some (- ENOMEM, l, true)
  | _ =>
    i ← rl_tail l;
    '(ts, tl) ← rl_nodes l !! i;
    if u64 (ts + tl) =? start then
      Some (0, {| rl_nodes := <[i:=(ts, u64 (tl + length))]> (rl_nodes l);
                  rl_tail := Some i |}, false)
    else if alloc then
      (* tail->next = node; tail = node *)
      Some (0, {| rl_nodes := take (S i) (rl_nodes l) ++ [(start, length)];
                  rl_tail := Some (S i) |}, true)
    else Some (- ENOMEM, l, true)
  end.

Definition udma_range_list_destroy (l : udma_range_list) : udma_range_list := rl_empty.

(** [udma_range_list_rollback]: appends a copy of [node] after the last node
    reached from [head]. *)
Definition udma_range_list_rollback (alloc : bool) (l : udma_range_list)
    (node : option (Z * Z)) : Z * udma_range_list :=
  match node with
  | None => (- EINVAL, l)
  | Some nd =>
    if alloc then
      match rl_nodes l with
      | [] => (0, {| rl_nodes := [nd]; rl_tail := rl_tail l |})
      | _ => (0, {| rl_nodes := rl_nodes l ++ [nd]; rl_tail := Some (length (rl_nodes l)) |})
      end
    else (- ENOMEM, l)
  end.

(** ** Nodes *)

(** [struct udma_seg_tree_node] without its children. *)
Record seg_data := {
  sd_start : Z; sd_end : Z; sd_vm_start : Z; sd_vm_end : Z; sd_ref_count : Z; sd_lazy : Z
}.

(** A node pointer: NULL, or a node with its [left] and [right]. *)
Inductive seg_node := SNull | SNode (d : seg_data) (left right : seg_node).

Definition is_null (n : seg_node) : bool := match n with SNull => true | _ => false end.

Definition set_counts (d : seg_data) (ref lazy : Z) : seg_data :=
  {| sd_start := sd_start d; sd_end := sd_end d; sd_vm_start := sd_vm_start d;
     sd_vm_end := sd_vm_end d; sd_ref_count := ref; sd_lazy := lazy |}.

Definition set_vm (d : seg_data) (vs ve : Z) : seg_data :=
  {| sd_start := sd_start d; sd_end := sd_end d; sd_vm_start := vs; sd_vm_end := ve;
     sd_ref_count := sd_ref_count d; sd_lazy := sd_lazy d |}.

(** [cur->ref_count += val; cur->lazy += val] on 32-bit integers. *)
Definition add_counts (d : seg_data) (val : Z) : seg_data :=
  set_counts d (s32 (sd_ref_count d + val)) (s32 (sd_lazy d + val)).

Definition udma_seg_tree_node_create (alloc : bool) (start fin : Z) : seg_node :=
  if alloc then
    SNode {| sd_start := start; sd_end := fin; sd_vm_start := ULONG_MAX;
             sd_vm_end := ULONG_MAX; sd_ref_count := 0; sd_lazy := 0 |} SNull SNull
  else SNull.

Definition add_node_counts (n : seg_node) (val : Z) : seg_node :=
  match n with SNull => SNull | SNode d l r => SNode (add_counts d val) l r end.

(** [udma_seg_push_down_update]: return code, the node, and how many times
    [kzalloc] was called ([n] is the number of the first such call). *)
Definition udma_seg_push_down_update (alloc : nat -> bool) (n : nat) (node : seg_node)
    : Z * seg_node * nat :=
  match node with
  | SNull => (0, node, 0%nat)
  | SNode d lf rt =>
    if sd_start d =? sd_end d then (0, node, 0%nat)
    else
      let mid := u64 (sd_start d + u64 (sd_end d - sd_start d) / BISECTOR) in
      let '(lf, n1) :=
        if is_null lf then (udma_seg_tree_node_create (alloc n) (sd_start d) mid, 1%nat)
        else (lf, 0%nat) in
      let '(rt, n2) :=
        if is_null rt
        then (udma_seg_tree_node_create (alloc (n + n1)%nat) (u64 (mid + 1)) (sd_end d), 1%nat)
        else (rt, 0%nat) in
      if is_null lf || is_null rt then (- ENOMEM, SNode d SNull SNull, (n1 + n2)%nat)
      else if sd_lazy d =? 0 then (0, SNode d lf rt, (n1 + n2)%nat)
      else (0, SNode (set_counts d (sd_ref_count d) 0)
                 (add_node_counts lf (sd_lazy d)) (add_node_counts rt (sd_lazy d)),
            (n1 + n2)%nat)
  end.

(** ** Node pointers as paths *)

Abbreviation path := (list bool).

Fixpoint node_at (t : seg_node) (p : path) {struct p} : seg_node :=
  match p, t with
  | [], _ => t
  | b :: p', SNode _ l r => node_at (if b then r else l) p'
  | _ :: _, SNull => SNull
  end.

Fixpoint set_at (t : seg_node) (p : path) (x : seg_node) {struct p} : seg_node :=
  match p, t with
  | [], _ => x
  | false :: p', SNode d l r => SNode d (set_at l p' x) r
  | true :: p', SNode d l r => SNode d l (set_at r p' x)
  | _ :: _, SNull => SNull
  end.

(** The children of the node at [p] the loops push: right first, then left, so
    that left is popped first. *)
Definition children (p : path) (node : seg_node) : list path :=
  match node with
  | SNull => []
  | SNode _ l r => (if is_null l then [] else [p ++ [false]]) ++
                   (if is_null r then [] else [p ++ [true]])
  end.

Definition stack_fits {A} (st : list A) : bool := Z.of_nat (length st) <=? MAX_SEG_STACK_SIZE.

(** [struct udma_segment]: the fields the tree uses. *)
Record udma_segment := { seg_addr : Z; seg_length : Z; seg_vm_start : Z; seg_vm_end : Z }.

Definition seg_ul (seg : udma_segment) : Z := seg_addr seg.
Definition seg_ur (seg : udma_segment) : Z :=
  u64 (u64 (seg_addr seg + PAGE_ALIGN (seg_length seg)) - 1).

(** ** The update loop *)

(** How the loop of [udma_seg_update_range] ends: normally; at the label
    [rollback] with a return code, the node [cur] and whether the range list (and
    not the push down) failed; by an overflow of [stack]; by a NULL dereference;
    or for want of fuel. *)
Inductive upd_result :=
| Finished (t : seg_node) (l : udma_range_list)
| ToRollback (list_failed : bool) (ret : Z) (t : seg_node) (l : udma_range_list) (cur : path)
| Overflow
| NullDeref
| OutOfFuel.

Section Update.
Context (alloc : nat -> bool) (ul ur val vm_start vm_end : Z).

(** The leaf case of the loop body: [cur]'s new data, the list, the number of
    allocations, and the return code of [udma_add_to_range_list]. *)
Definition update_leaf (n : nat) (d : seg_data) (l : udma_range_list)
    : option (Z * seg_data * udma_range_list * nat) :=
  let old_count := sd_ref_count d in
  let d1 := add_counts d val in
  if ((old_count =? 0) && (sd_ref_count d1 =? 1)) || ((old_count =? 1) && (sd_ref_count d1 =? 0))
  then
    '(ret, l', called) ← udma_add_to_range_list (alloc n) l (sd_start d) (sd_end d);
    if ctrue ret then
      Some (ret, add_counts d1 (- val), l', if called : bool then S n else n)
    else Some (0, set_vm d1 vm_start vm_end, l', if called : bool then S n else n)
  else Some (0, d1, l, n).

Fixpoint update_loop (fuel : nat) (t : seg_node) (stack : list path) (l : udma_range_list)
    (n : nat) : upd_result :=
  match fuel with
  | O => OutOfFuel
  | S fuel' =>
    match stack with
    | [] => Finished t l
    | cur :: st =>
      match node_at t cur with
      | SNull => update_loop fuel' t st l n
      | SNode d lf rt =>
        if (ur <? sd_start d) || (sd_end d <? ul) then update_loop fuel' t st l n
        else if is_null lf && is_null rt && (ul <=? sd_start d) && (sd_end d <=? ur) then
          match update_leaf n d l with
          | None => NullDeref
          | Some (ret, d', l', n') =>
            let t' := set_at t cur (SNode d' lf rt) in
            if ctrue ret then ToRollback true ret t' l' cur else update_loop fuel' t' st l' n'
          end
        else
          let '(ret, node', k) := udma_seg_push_down_update alloc n (SNode d lf rt) in
          let t' := set_at t cur node' in
          if ctrue ret then ToRollback false ret t' l cur
          else
            let st' := children cur node' ++ st in
            if stack_fits st' then update_loop fuel' t' st' l (n + k)%nat else Overflow
      end
    end
  end.

(** [udma_rollback_seg_tree]: undoes the leaves visited before (and at) [stop]. *)
Fixpoint rollback_loop (fuel : nat) (t : seg_node) (stack : list path) (stop : path)
    : option seg_node :=
  match fuel with
  | O => None
  | S fuel' =>
    match stack with
    | [] => Some t
    | cur :: st =>
      let next (t : seg_node) (stack : list path) :=
        if bool_decide (cur = stop) then Some t else rollback_loop fuel' t stack stop in
      match node_at t cur with
      | SNull => next t st
      | SNode d lf rt =>
        if (ur <? sd_start d) || (sd_end d <? ul) then next t st
        else
          let d' := if is_null lf && is_null rt && (ul <=? sd_start d) && (sd_end d <=? ur)
                    then add_counts d (- val) else d in
          let node' := SNode d' lf rt in
          let st' := children cur node' ++ st in
          if stack_fits st' then next (set_at t cur node') st' else None
      end
    end
  end.
End Update.

Definition udma_rollback_seg_tree (fuel : nat) (root : seg_node) (seg : udma_segment)
    (val : Z) (stop : path) : option seg_node :=
  if is_null root || (seg_length seg =? 0) then Some root
  else rollback_loop (seg_ul seg) (seg_ur seg) val fuel root [[]] stop.

(** [udma_seg_update_range]: return code, tree and list; [None] when the call
    does not return (out-of-bounds stack, NULL dereference, or no fuel left). *)
Definition udma_seg_update_range (fuel : nat) (alloc : nat -> bool) (root : seg_node)
    (seg : udma_segment) (val : Z) (l : udma_range_list)
    : option (Z * seg_node * udma_range_list) :=
  if seg_length seg =? 0 then Some (- EINVAL, root, l)
  else
    match update_loop alloc (seg_ul seg) (seg_ur seg) val (seg_vm_start seg) (seg_vm_end seg)
            fuel root [[]] l 0 with
    | Finished t l' => Some (0, t, l')
    | ToRollback _ ret t l' cur =>
      t' ← udma_rollback_seg_tree fuel t seg val cur;
      Some (ret, t', udma_range_list_destroy l')
    | _ => None
    end.

(** [udma_seg_tree_init]: the tree, when both allocations succeed. *)
Definition udma_seg_tree_init (alloc_tree alloc_root : bool) : option seg_node :=
  if alloc_tree then
    match udma_seg_tree_node_create alloc_root 0 MAX_VADDR with
    | SNull => None
    | root => Some root
    end
  else None.

(** The loop of [udma_seg_tree_destroy]: the nodes freed, in order.  The tree is
    only read, so the stack holds the nodes themselves. *)
Fixpoint destroy_loop (fuel : nat) (stack : list seg_node) : option (list seg_data) :=
  match fuel with
  | O => None
  | S fuel' =>
    match stack with
    | [] => Some []
    | SNull :: st => None
    | SNode d lf rt :: st =>
      let st' := (if is_null rt then [] else [rt]) ++ (if is_null lf then [] else [lf]) ++ st in
      if stack_fits st' then freed ← destroy_loop fuel' st'; Some (d :: freed) else None
    end
  end.

Definition udma_seg_tree_destroy (fuel : nat) (root : seg_node) : option (list seg_data) :=
  if is_null root then Some [] else destroy_loop fuel [root].

(** [range_check_occupy] on a node's data. *)
Definition range_check_occupy (d : seg_data) (seg : udma_segment) : Z :=
  if (sd_vm_start d =? ULONG_MAX) || (sd_vm_end d =? ULONG_MAX) then 0
  else if (sd_vm_start d =? seg_vm_start seg) && (sd_vm_end d =? seg_vm_end seg) then 0
  else - EINVAL.

(** [n->start < fin && n->end >= start] for a non-NULL node. *)
Definition node_meets (start fin : Z) (n : seg_node) : bool :=
  match n with SNull => false | SNode d _ _ => (sd_start d <? fin) && (start <=? sd_end d) end.

(** The loop of [udma_seg_range_check]. *)
Fixpoint range_check_loop (fuel : nat) (start fin : Z) (seg : udma_segment)
    (check : seg_data -> udma_segment -> Z) (stack : list seg_node) : option Z :=
  match fuel with
  | O => None
  | S fuel' =>
    match stack with
    | [] => Some 0
    | SNull :: st => None
    | SNode d lf rt :: st =>
      let st' := (if node_meets start fin rt then [rt] else []) ++
                 (if node_meets start fin lf then [lf] else []) ++ st in
      if stack_fits st' then
        if is_null lf && is_null rt && negb ((fin <=? sd_start d) || (sd_end d <? start)) &&
           ctrue (check d seg)
        then Some (- EINVAL)
        else range_check_loop fuel' start fin seg check st'
      else None
    end
  end.

Definition udma_seg_range_check (fuel : nat) (root : seg_node) (seg : udma_segment)
    (check : seg_data -> udma_segment -> Z) : option Z :=
  let start := seg_ul seg in
  let fin := seg_ur seg in
  range_check_loop fuel start fin seg check (if node_meets start fin root then [root] else []).

(** [udma_seg_range_occupy].  [args_ok] is the test of its pointer arguments; the
    outcome of the check only decides whether a message is logged. *)
Definition udma_seg_range_occupy (fuel : nat) (alloc : nat -> bool) (args_ok : bool)
    (root : seg_node) (seg : udma_segment) (l : udma_range_list)
    : option (Z * seg_node * udma_range_list) :=
  if args_ok then
    _ ← udma_seg_range_check fuel root seg range_check_occupy;
    udma_seg_update_range fuel alloc root seg 1 rl_empty
  else Some (- EINVAL, root, l).

(** [udma_seg_range_release]. *)
Definition udma_seg_range_release (fuel : nat) (alloc : nat -> bool) (args_ok : bool)
    (root : seg_node) (seg : udma_segment) (l : udma_range_list)
    : option (Z * seg_node * udma_range_list) :=
  if args_ok then
    let seg := {| seg_addr := seg_addr seg; seg_length := seg_length seg;
                  seg_vm_start := ULONG_MAX; seg_vm_end := ULONG_MAX |} in
    udma_seg_update_range fuel alloc root seg (-1) rl_empty
  else Some (- EINVAL, root, l).

(** The number of segments that cover address [x]: the count of the leaf below
    which [x] lies. *)
Fixpoint cover_count (t : seg_node) (x : Z) : Z :=
  match t with
  | SNull => 0
  | SNode d SNull SNull => sd_ref_count d
  | SNode d (SNode dl _ _ as lf) rt => if x <=? sd_end dl then cover_count lf x else cover_count rt x
  | SNode d SNull rt => cover_count rt x
  end.

(** ** Recursive forms of the loops *)

(** The update as a recursion over the tree, [k] levels at most. *)
Inductive vres :=
| VOk (t : seg_node) (l : udma_range_list) (n : nat)
| VFail (list_failed : bool) (ret : Z) (t : seg_node) (l : udma_range_list) (p : path)
| VFault.

(** The part of a stop path below the child for bit [b]. *)
Definition sub_path (b : bool) (stop : option path) : option path :=
  match stop with Some (b' :: q) => if eqb b b' then Some q else None | _ => None end.

Section Recursive.
Context (alloc : nat -> bool) (ul ur val vm_start vm_end : Z).

Definition outside (d : seg_data) : bool := (ur <? sd_start d) || (sd_end d <? ul).
Definition inside (d : seg_data) : bool := (ul <=? sd_start d) && (sd_end d <=? ur).

Fixpoint upd (k : nat) (t : seg_node) (l : udma_range_list) (n : nat) : vres :=
  match t with
  | SNull => VOk SNull l n
  | SNode d lf rt =>
    if outside d then VOk t l n
    else if is_null lf && is_null rt && (ul <=? sd_start d) && (sd_end d <=? ur) then
      match update_leaf alloc val vm_start vm_end n d l with
      | None => VFault
      | Some (ret, d', l', n') =>
        if ctrue ret then VFail true ret (SNode d' lf rt) l' [] else VOk (SNode d' lf rt) l' n'
      end
    else
      let '(ret, node', m) := udma_seg_push_down_update alloc n t in
      if ctrue ret then VFail false ret node' l []
      else match k, node' with
           | S k', SNode d' lf' rt' =>
             match upd k' lf' l (n + m) with
             | VOk lf2 l1 n1 =>
               match upd k' rt' l1 n1 with
               | VOk rt2 l2 n2 => VOk (SNode d' lf2 rt2) l2 n2
               | VFail f r rt2 l2 p => VFail f r (SNode d' lf2 rt2) l2 (true :: p)
               | VFault => VFault
               end
             | VFail f r lf2 l1 p => VFail f r (SNode d' lf2 rt') l1 (false :: p)
             | VFault => VFault
             end
           | _, _ => VFault
           end
  end.

(** The rollback as a recursion: the new tree and whether [stop] was reached. *)
Fixpoint rb (stop : option path) (t : seg_node) : seg_node * bool :=
  match t with
  | SNull => (SNull, false)
  | SNode d lf rt =>
    let here := bool_decide (stop = Some []) in
    if outside d then (t, here)
    else
      let d' := if is_null lf && is_null rt && (ul <=? sd_start d) && (sd_end d <=? ur)
                then add_counts d (- val) else d in
      if here then (SNode d' lf rt, true)
      else
        let '(lf', s1) := rb (sub_path false stop) lf in
        if s1 then (SNode d' lf' rt, true)
        else let '(rt', s2) := rb (sub_path true stop) rt in (SNode d' lf' rt', s2)
  end.
End Recursive.

(** ** Well-formed trees *)

(** A node of [2^k] addresses from [s]: a leaf's pending count is its count, an
    internal node has none pending and is larger than a page. *)
Fixpoint seg_wf (k s : Z) (t : seg_node) : Prop :=
  match t with
  | SNull => False
  | SNode d lf rt =>
    sd_start d = s /\ sd_end d = s + 2 ^ k - 1 /\
    if is_null lf && is_null rt
    then sd_lazy d = sd_ref_count d /\ - 2 ^ 31 <= sd_ref_count d < 2 ^ 31
    else sd_lazy d = 0 /\ PAGE_SHIFT < k /\
         seg_wf (k - 1) s lf /\ seg_wf (k - 1) (s + 2 ^ (k - 1)) rt
  end.

(** Ranges in reverse order, all below [hi], with a gap between neighbours. *)
Fixpoint ranges_rok (hi : Z) (l : list (Z * Z)) : Prop :=
  match l with
  | [] => True
  | (s, len) :: l' => 0 <= s /\ 0 < len /\ s + len <= hi /\ ranges_rok (s - 1) l'
  end.

(** A range list built by [udma_add_to_range_list]: [tail] is the last node. *)
Definition rl_wf (hi : Z) (l : udma_range_list) : Prop :=
  rl_tail l = match rl_nodes l with [] => None | _ => Some (pred (length (rl_nodes l))) end /\
  ranges_rok hi (rev (rl_nodes l)).

(** [x] lies in one of the ranges. *)
Definition in_ranges (l : udma_range_list) (x : Z) : Prop :=
  Exists (fun r => r.1 <= x < r.1 + r.2) (rl_nodes l).

Lemma ranges_rok_mono (hi hi' : Z) (l : list (Z * Z)) :
  hi <= hi' -> ranges_rok hi l -> ranges_rok hi' l.
Proof. destruct l as [|[s len] l]; simpl; [done|]. intros. intuition lia. Qed.

Lemma rl_wf_mono (hi hi' : Z) (l : udma_range_list) : hi <= hi' -> rl_wf hi l -> rl_wf hi' l.
Proof. intros ? [? ?]. split; [done|]. by eapply ranges_rok_mono. Qed.

Lemma u64_small (z : Z) : 0 <= z < 2 ^ 64 -> u64 z = z.
Proof. apply uwrap_small. Qed.

(** Adding the range of a node beyond the list: it never faults; on success the
    list covers the new addresses too, otherwise it is unchanged. *)
Lemma add_to_range_list_spec (a : bool) (l : udma_range_list) (start fin : Z) :
  rl_wf start l -> 0 <= start <= fin -> fin < 2 ^ 52 ->
  match udma_add_to_range_list a l start fin with
  | None => False
  | Some (ret, l', _) =>
    (ret = 0 /\ rl_wf (fin + 1) l' /\
     forall x, in_ranges l' x <-> in_ranges l x \/ start <= x <= fin) \/
    (ret = - ENOMEM /\ l' = l)
  end.
Proof.
  intros [Ht Hr] Hs Hf. unfold udma_add_to_range_list. rewrite u64_small by lia.
  destruct l as [nodes tail]; cbn [rl_nodes rl_tail] in *.
  destruct nodes as [|nd nodes _] using rev_ind.
  { destruct a; [left|by right]. split_and!; [done| |].
    - split; [done|]. simpl. lia.
    - intros x. unfold in_ranges. simpl. rewrite Exists_cons, Exists_nil. simpl. intuition lia. }
  assert (Htl : tail = Some (length nodes)).
  { rewrite Ht, length_app. simpl. destruct nodes; simpl; f_equal; lia. }
  rewrite Htl. destruct nd as [ts tl]. rewrite rev_unit in Hr. destruct Hr as (? & ? & ? & Hr).
  assert (Hlk : (nodes ++ [(ts, tl)]) !! length nodes = Some (ts, tl)) by by apply list_lookup_middle.
  assert (Hne : forall A (x y : A), match nodes ++ [(ts, tl)] with [] => x | _ => y end = y)
    by by destruct nodes.
  rewrite Hne. cbn [mbind option_bind]. rewrite Hlk. cbn [mbind option_bind].
  rewrite (u64_small (ts + tl)) by lia.
  destruct (Z.eqb_spec (ts + tl) start) as [E|E].
  - left. rewrite (u64_small (tl + _)) by lia. rewrite insert_app_r_alt by lia.
    rewrite Nat.sub_diag. simpl. split_and!; [done| |].
    + split; simpl.
      * destruct nodes; simpl; [done|]. f_equal. rewrite length_app. simpl. lia.
      * rewrite rev_unit. simpl. split_and!; [lia..|done].
    + intros x. unfold in_ranges. simpl. rewrite !Exists_app, !Exists_cons, !Exists_nil. simpl.
      intuition lia.
  - destruct a; [left|by right]. split_and!; [done| |].
    + rewrite take_ge by (rewrite length_app; simpl; lia). split; simpl.
      * destruct nodes; simpl; [done|]. f_equal. rewrite !length_app. simpl. lia.
      * rewrite !rev_unit. simpl. split_and!; [lia..|done].
    + intros x. unfold in_ranges. simpl. rewrite take_ge by (rewrite length_app; simpl; lia).
      rewrite !Exists_app, !Exists_cons, !Exists_nil. simpl. intuition lia.
Qed.

(** ** Shape lemmas *)

Lemma seg_wf_node (k s : Z) (d : seg_data) (lf rt : seg_node) :
  sd_start d = s -> sd_end d = s + 2 ^ k - 1 -> sd_lazy d = 0 -> PAGE_SHIFT < k ->
  seg_wf (k - 1) s lf -> seg_wf (k - 1) (s + 2 ^ (k - 1)) rt -> seg_wf k s (SNode d lf rt).
Proof.
  intros. destruct lf; [done|].
  refine (conj _ (conj _ (conj _ (conj _ (conj _ _))))); assumption.
Qed.

Lemma cover_node (k s : Z) (d : seg_data) (lf rt : seg_node) (x : Z) :
  seg_wf (k - 1) s lf ->
  cover_count (SNode d lf rt) x =
  if x <? s + 2 ^ (k - 1) then cover_count lf x else cover_count rt x.
Proof.
  destruct lf as [|dl ll lr]; [done|]. intros (_ & He & _). cbn [cover_count]. rewrite He.
  replace (x <=? s + 2 ^ (k - 1) - 1) with (x <? s + 2 ^ (k - 1)) by lia. done.
Qed.

(** A node of the tree is a leaf or has two well-formed children. *)
Lemma seg_wf_cases (k s : Z) (d : seg_data) (lf rt : seg_node) :
  seg_wf k s (SNode d lf rt) ->
  sd_start d = s /\ sd_end d = s + 2 ^ k - 1 /\
  ((lf = SNull /\ rt = SNull /\ sd_lazy d = sd_ref_count d /\
    - 2 ^ 31 <= sd_ref_count d < 2 ^ 31) \/
   (is_null lf = false /\ is_null rt = false /\ sd_lazy d = 0 /\ PAGE_SHIFT < k /\
    seg_wf (k - 1) s lf /\ seg_wf (k - 1) (s + 2 ^ (k - 1)) rt)).
Proof.
  intros (Hs & He & H). split_and!; [done..|].
  destruct lf, rt; simpl in H; [left|right; by destruct H as (_ & _ & [] & _)|
    right; by destruct H as (_ & _ & _ & [])|right]; by intuition.
Qed.

Lemma wf_fresh_leaf (k s c : Z) :
  - 2 ^ 31 <= c < 2 ^ 31 ->
  let n := add_node_counts (udma_seg_tree_node_create true s (s + 2 ^ k - 1)) c in
  seg_wf k s n /\ (forall x, cover_count n x = c).
Proof.
  intros Hc. simpl. rewrite !(swrap_small 32) by (simpl; lia). split_and!; done || lia.
Qed.

(** Splitting: the counts are preserved, or memory ran out and nothing changed. *)
Lemma push_down_spec (alloc : nat -> bool) (n : nat) (k s : Z) (d : seg_data) (lf rt : seg_node) :
  seg_wf k s (SNode d lf rt) -> PAGE_SHIFT < k -> 0 <= s -> s + 2 ^ k <= 2 ^ 52 ->
  match udma_seg_push_down_update alloc n (SNode d lf rt) with
  | (ret, t', _) =>
    (ret = 0 /\ exists d' lf' rt', t' = SNode d' lf' rt' /\ sd_start d' = s /\
       sd_end d' = s + 2 ^ k - 1 /\ sd_lazy d' = 0 /\ seg_wf (k - 1) s lf' /\
       seg_wf (k - 1) (s + 2 ^ (k - 1)) rt' /\
       forall x, cover_count t' x = cover_count (SNode d lf rt) x) \/
    (ret = - ENOMEM /\ t' = SNode d lf rt)
  end.
Proof.
  intros Hw Hk Hs Hb. apply seg_wf_cases in Hw as (Hst & He & Hc).
  assert (H2 : 2 ^ k = 2 * 2 ^ (k - 1)) by (apply pow2_double; unfold PAGE_SHIFT in Hk; lia).
  assert (Hp : 0 < 2 ^ (k - 1)) by (apply pow2_pos; unfold PAGE_SHIFT in Hk; lia).
  unfold udma_seg_push_down_update.
  destruct (Z.eqb_spec (sd_start d) (sd_end d)) as [E|_]; [lia|].
  assert (Hmid : u64 (sd_start d + u64 (sd_end d - sd_start d) / BISECTOR) = s + 2 ^ (k - 1) - 1).
  { rewrite (u64_small (sd_end d - _)) by lia. rewrite u64_small.
    - rewrite He, Hst, H2. unfold BISECTOR. generalize (2 ^ (k - 1)). intros. zlia.
    - rewrite He, Hst, H2. unfold BISECTOR. rewrite H2 in Hb. revert Hb Hp.
      generalize (2 ^ (k - 1)). intros. zlia. }
  rewrite Hmid. destruct Hc as [(-> & -> & Hlz & Hr)|(N1 & N2 & Hlz & _ & W1 & W2)].
  - cbn [is_null]. rewrite u64_small by lia.
    destruct (alloc n) eqn:A1; [|right; by destruct (alloc _)].
    destruct (alloc (n + 1)%nat) eqn:A2; [|by right].
    rewrite Hst, He.
    replace (s + 2 ^ (k - 1) - 1 + 1) with (s + 2 ^ (k - 1)) by lia.
    replace (s + 2 ^ k - 1) with (s + 2 ^ (k - 1) + 2 ^ (k - 1) - 1) by lia.
    destruct (wf_fresh_leaf (k - 1) s (sd_ref_count d) Hr) as [WL CL].
    destruct (wf_fresh_leaf (k - 1) (s + 2 ^ (k - 1)) (sd_ref_count d) Hr) as [WR CR].
    assert (H0 : forall z, add_node_counts (udma_seg_tree_node_create true z (z + 2 ^ (k - 1) - 1)) 0 =
      udma_seg_tree_node_create true z (z + 2 ^ (k - 1) - 1)) by done.
    destruct (Z.eqb_spec (sd_lazy d) 0) as [E|E].
    + left. split; [done|].
      rewrite <- Hlz, E, H0 in WL, WR, CL, CR.
      do 3 eexists. split_and!; [reflexivity|done|lia|done|exact WL|exact WR|].
      intros x. rewrite (cover_node k s) by exact WL. cbn [cover_count]. rewrite <- Hlz, E.
      case_match; [rewrite CL|rewrite CR]; done.
    + left. split; [done|]. rewrite Hlz.
      do 3 eexists. split_and!; [reflexivity|done|simpl; lia|done|exact WL|exact WR|].
      intros x. rewrite (cover_node k s) by exact WL. cbn [cover_count].
      case_match; [rewrite CL|rewrite CR]; done.
  - rewrite N1, N2. cbn [orb]. rewrite N1, N2, Hlz. cbn [orb Z.eqb]. left. split; [done|].
    by exists d, lf, rt.
Qed.

(** Reading and writing through paths. *)
Lemma node_at_app (t : seg_node) (p q : path) : node_at t (p ++ q) = node_at (node_at t p) q.
Proof.
  revert t. induction p as [|b p IH]; intros t; [done|]. destruct t as [|d l r]; simpl.
  - by destruct q.
  - apply IH.
Qed.

Lemma set_at_app (t : seg_node) (p q : path) (x : seg_node) :
  set_at t (p ++ q) x = set_at t p (set_at (node_at t p) q x).
Proof.
  revert t. induction p as [|b p IH]; intros t; [done|]. destruct t as [|d l r]; simpl.
  - by destruct b.
  - destruct b; simpl; by rewrite IH.
Qed.

Lemma node_at_set_at (t : seg_node) (p : path) (x : seg_node) :
  node_at t p <> SNull -> node_at (set_at t p x) p = x.
Proof.
  revert t. induction p as [|b p IH]; intros t Hn; [done|]. destruct t as [|d l r]; [done|].
  destruct b; simpl in *; by apply IH.
Qed.

Lemma set_at_set_at (t : seg_node) (p : path) (x y : seg_node) :
  set_at (set_at t p x) p y = set_at t p y.
Proof.
  revert t. induction p as [|b p IH]; intros t; [done|]. destruct t as [|d l r]; [by destruct b|].
  destruct b; simpl; by rewrite IH.
Qed.

Lemma set_at_id (t : seg_node) (p : path) : set_at t p (node_at t p) = t.
Proof.
  revert t. induction p as [|b p IH]; intros t; [done|]. destruct t as [|d l r]; [by destruct b|].
  destruct b; simpl; by rewrite IH.
Qed.

(** The rest of [stop] below [p]. *)
Fixpoint strip (p stop : path) : option path :=
  match p, stop with
  | [], _ => Some stop
  | b :: p', c :: stop' => if eqb b c then strip p' stop' else None
  | _ :: _, [] => None
  end.

Lemma strip_nil (p stop : path) : strip p stop = Some [] <-> p = stop.
Proof.
  revert stop. induction p as [|b p IH]; intros stop; destruct stop as [|c stop]; simpl; try done.
  destruct (eqb b c) eqn:E.
  - apply eqb_prop in E as ->. rewrite IH. split; congruence.
  - split; [done|]. intros [= -> ->]. by rewrite eqb_reflx in E.
Qed.

Lemma strip_snoc (p stop : path) (b : bool) : sub_path b (strip p stop) = strip (p ++ [b]) stop.
Proof.
  revert stop. induction p as [|c p IH]; intros stop; simpl.
  - by destruct stop.
  - destruct stop as [|e stop]; [done|]. by destruct (eqb c e).
Qed.

(** ** The update on a well-formed tree *)

Section UpdateSpec.
Context (alloc : nat -> bool) (ul ur val vm_start vm_end : Z).
Context (Hul : ul mod 2 ^ PAGE_SHIFT = 0) (Hur : (ur + 1) mod 2 ^ PAGE_SHIFT = 0).

(** The count of an address after the update, and whether the change is one the
    caller has to map or unmap. *)
Definition new_count (c x : Z) : Z := if (ul <=? x) && (x <=? ur) then s32 (c + val) else c.
Definition switches (c : Z) : bool :=
  ((c =? 0) && (s32 (c + val) =? 1)) || ((c =? 1) && (s32 (c + val) =? 0)).

(** What a successful visit of the node of [2^k] addresses at [s] achieves; the
    last part says that the rollback undoes it. *)
Definition ok_post (k s : Z) (t : seg_node) (l : udma_range_list) (t' : seg_node)
    (l' : udma_range_list) : Prop :=
  seg_wf k s t' /\ rl_wf (s + 2 ^ k) l' /\
  (forall x, s <= x < s + 2 ^ k -> cover_count t' x = new_count (cover_count t x) x) /\
  (forall x, in_ranges l' x <->
     in_ranges l x \/ (s <= x < s + 2 ^ k /\ ul <= x <= ur /\ switches (cover_count t x) = true)) /\
  exists t'', rb ul ur val None t' = (t'', false) /\ seg_wf k s t'' /\
    forall x, s <= x < s + 2 ^ k -> cover_count t'' x = cover_count t x.

(** What remains of a failed visit after the rollback: the counts of [t], except
    that a node whose range could not be recorded lost [val]. *)
Definition fail_post (k s : Z) (t : seg_node) (f : bool) (t' : seg_node) (p : path) : Prop :=
  seg_wf k s t' /\
  exists t'' d lf rt, rb ul ur val (Some p) t' = (t'', true) /\ seg_wf k s t'' /\
    node_at t' p = SNode d lf rt /\ s <= sd_start d /\ sd_end d < s + 2 ^ k /\
    forall x, s <= x < s + 2 ^ k ->
      cover_count t'' x =
      if f && (sd_start d <=? x) && (x <=? sd_end d) then s32 (cover_count t x - val)
      else cover_count t x.

Lemma page_inside (s : Z) (d : seg_data) :
  s mod 2 ^ PAGE_SHIFT = 0 -> sd_start d = s -> sd_end d = s + 2 ^ PAGE_SHIFT - 1 ->
  outside ul ur d = false -> (ul <=? sd_start d) && (sd_end d <=? ur) = true.
Proof.
  unfold outside, PAGE_SHIFT in *. intros Hs Hst He Ho. rewrite Hst, He in *.
  revert Hul Hur Hs Ho. change (2 ^ 12) with 4096. intros. zlia.
Qed.

(** The counts of a leaf after adding and removing [val]. *)
Lemma leaf_undo_vm (d : seg_data) (vs ve : Z) :
  - 2 ^ 31 <= sd_ref_count d < 2 ^ 31 -> sd_lazy d = sd_ref_count d ->
  add_counts (set_vm (add_counts d val) vs ve) (- val) = set_vm d vs ve.
Proof.
  intros Hr Hl. unfold add_counts, set_counts, set_vm. cbn [sd_ref_count sd_lazy sd_start sd_end].
  by rewrite !Z.add_opp_r, !(swrap_add_sub 32) by (simpl; lia).
Qed.

Lemma leaf_undo (d : seg_data) :
  - 2 ^ 31 <= sd_ref_count d < 2 ^ 31 -> sd_lazy d = sd_ref_count d ->
  add_counts (add_counts d val) (- val) = d.
Proof.
  intros Hr Hl. destruct d as [s e vs ve r z]. exact (leaf_undo_vm _ vs ve Hr Hl).
Qed.

Lemma leaf_wf (k s v : Z) (d : seg_data) :
  sd_start d = s -> sd_end d = s + 2 ^ k - 1 -> sd_lazy d = sd_ref_count d ->
  seg_wf k s (SNode (add_counts d v) SNull SNull).
Proof.
  intros ?? Hl. simpl. rewrite Hl. split_and!; [done..| |];
    apply (swrap_range 32 (sd_ref_count d + v)); lia.
Qed.

(** A covered leaf with new counts [val] higher, whatever its VMA bounds. *)
Lemma leaf_ok (k s : Z) (d d' : seg_data) (l l' : udma_range_list) :
  0 <= k -> seg_wf k s (SNode d SNull SNull) -> (ul <=? sd_start d) && (sd_end d <=? ur) = true ->
  (exists vs ve, d' = set_vm (add_counts d val) vs ve) ->
  rl_wf (s + 2 ^ k) l' ->
  (forall x, in_ranges l' x <-> in_ranges l x \/
     (s <= x < s + 2 ^ k /\ switches (sd_ref_count d) = true)) ->
  ok_post k s (SNode d SNull SNull) l (SNode d' SNull SNull) l'.
Proof.
  intros Hk (Hst & He & Hlz & Hr) Hin (vs & ve & ->) Hl Hx. unfold ok_post.
  pose proof (pow2_pos k Hk) as Hp.
  pose proof (leaf_wf k s val d Hst He Hlz) as Hwf.
  assert (Ho : outside ul ur (set_vm (add_counts d val) vs ve) = false)
    by (unfold outside; simpl; lia).
  split_and!; [exact Hwf|done| | |].
  - intros x Hx'. simpl. unfold new_count. replace ((ul <=? x) && (x <=? ur)) with true by lia. done.
  - intros x. rewrite Hx. simpl. intuition lia.
  - cbn [rb]. rewrite Ho. rewrite bool_decide_false by done. cbn [is_null andb rb].
    simpl sd_start. simpl sd_end. rewrite Hin, leaf_undo_vm by done.
    eexists. split_and!; [reflexivity|done|done].
Qed.

Lemma visit_leaf (k s : Z) (d : seg_data) (l : udma_range_list) (n : nat) :
  0 <= k -> seg_wf k s (SNode d SNull SNull) -> 0 <= s -> s + 2 ^ k <= 2 ^ 52 -> rl_wf s l ->
  (ul <=? sd_start d) && (sd_end d <=? ur) = true ->
  match update_leaf alloc val vm_start vm_end n d l with
  | None => False
  | Some (ret, d', l', _) =>
    if ctrue ret
    then ret = - ENOMEM /\ fail_post k s (SNode d SNull SNull) true (SNode d' SNull SNull) []
    else ok_post k s (SNode d SNull SNull) l (SNode d' SNull SNull) l'
  end.
Proof.
  intros Hk Hw Hs Hb Hl Hin. pose proof Hw as (Hst & He & Hlz & Hr).
  pose proof (pow2_pos k Hk) as Hp.
  unfold update_leaf.
  change (sd_ref_count (add_counts d val)) with (s32 (sd_ref_count d + val)).
  fold (switches (sd_ref_count d)).
  destruct (switches (sd_ref_count d)) eqn:Hsw.
  - pose proof (add_to_range_list_spec (alloc n) l (sd_start d) (sd_end d)) as Ha.
    rewrite Hst in Ha at 1. specialize (Ha Hl ltac:(lia) ltac:(lia)).
    destruct (udma_add_to_range_list _ _ _ _) as [[[ret l'] called]|]; [|done].
    cbn [mbind option_bind]. destruct Ha as [(-> & Hl' & Hx)|(-> & ->)]; simpl ctrue; lazy beta iota.
    + apply leaf_ok; [done..|by eexists _, _| |].
      * replace (s + 2 ^ k) with (sd_end d + 1) by lia. done.
      * intros x. rewrite Hx, Hsw. intuition lia.
    + split; [done|]. rewrite leaf_undo by done. split; [done|].
      eexists _, d, SNull, SNull. cbn [rb node_at].
      replace (outside ul ur d) with false by (unfold outside; lia).
      rewrite bool_decide_true by done. cbn [is_null andb]. rewrite Hin.
      split_and!; [reflexivity|by apply leaf_wf|done|lia|lia|].
      intros x Hx. rewrite Hst, He. cbn [andb]. simpl cover_count.
      replace ((s <=? x) && (x <=? s + 2 ^ k - 1)) with true by lia. done.
  - cbn [mbind option_bind]. simpl ctrue; lazy beta iota. apply leaf_ok; [done..| | |].
    + exists (sd_vm_start d), (sd_vm_end d). done.
    + eapply rl_wf_mono; [|done]. lia.
    + intros x. rewrite Hsw. intuition done.
Qed.

(** Visits of the two halves of a split node combine to a visit of the node. *)
Section Join.
Context (k s : Z) (t : seg_node) (d : seg_data) (lf rt : seg_node).
Context (Hk : PAGE_SHIFT < k) (Hst : sd_start d = s) (He : sd_end d = s + 2 ^ k - 1).
Context (Hlz : sd_lazy d = 0) (Ho : outside ul ur d = false).
Context (Hwl : seg_wf (k - 1) s lf) (Hwr : seg_wf (k - 1) (s + 2 ^ (k - 1)) rt).
Context (Hcov : forall x, cover_count (SNode d lf rt) x = cover_count t x).

Lemma join_half : 2 ^ k = 2 * 2 ^ (k - 1) /\ 0 < 2 ^ (k - 1).
Proof.
  unfold PAGE_SHIFT in Hk. split; [apply pow2_double; lia|apply pow2_pos; lia].
Qed.

Lemma join_cover (x : Z) :
  cover_count t x = if x <? s + 2 ^ (k - 1) then cover_count lf x else cover_count rt x.
Proof. rewrite <- Hcov. by apply cover_node. Qed.

Lemma rb_internal (stop : option path) (a b : seg_node) :
  seg_wf (k - 1) s a -> stop <> Some [] ->
  rb ul ur val stop (SNode d a b) =
  let '(a', s1) := rb ul ur val (sub_path false stop) a in
  if s1 then (SNode d a' b, true)
  else let '(b', s2) := rb ul ur val (sub_path true stop) b in (SNode d a' b', s2).
Proof.
  intros Ha Hs. cbn [rb]. rewrite Ho, bool_decide_false by done.
  by destruct a.
Qed.

Lemma join_ok (l l1 l2 : udma_range_list) (lf2 rt2 : seg_node) :
  ok_post (k - 1) s lf l lf2 l1 -> ok_post (k - 1) (s + 2 ^ (k - 1)) rt l1 rt2 l2 ->
  ok_post k s t l (SNode d lf2 rt2) l2.
Proof.
  intros (W1 & R1 & C1 & I1 & u1 & U1 & V1 & X1) (W2 & R2 & C2 & I2 & u2 & U2 & V2 & X2).
  pose proof join_half as [H2 Hp]. unfold ok_post.
  split_and!; [by apply seg_wf_node|by replace (s + 2 ^ k) with (s + 2 ^ (k - 1) + 2 ^ (k - 1)) by lia| | |].
  - intros x Hx. rewrite (cover_node k s) by done. rewrite join_cover.
    destruct (Z.ltb_spec x (s + 2 ^ (k - 1))); [apply C1|apply C2]; lia.
  - intros x. rewrite I2, I1, join_cover.
    destruct (Z.ltb_spec x (s + 2 ^ (k - 1))); intuition lia.
  - exists (SNode d u1 u2). rewrite rb_internal by done. cbn [sub_path eqb]. rewrite U1, U2.
    split_and!; [done|by apply seg_wf_node|].
    intros x Hx. rewrite (cover_node k s) by done. rewrite join_cover.
    destruct (Z.ltb_spec x (s + 2 ^ (k - 1))); [apply X1|apply X2]; lia.
Qed.

Lemma join_fail_l (f : bool) (lf2 : seg_node) (q : path) :
  fail_post (k - 1) s lf f lf2 q -> fail_post k s t f (SNode d lf2 rt) (false :: q).
Proof.
  intros (W & u & e & a & b & U & V & N & B1 & B2 & X). pose proof join_half as [H2 Hp].
  split; [by apply seg_wf_node|]. exists (SNode d u rt), e, a, b.
  rewrite rb_internal by done. cbn [sub_path eqb]. rewrite U.
  split_and!; [done|by apply seg_wf_node|done|lia|lia|].
  intros x Hx. rewrite (cover_node k s) by done. rewrite join_cover.
  destruct (Z.ltb_spec x (s + 2 ^ (k - 1))) as [Hlt|Hge]; [apply X; lia|].
  replace (f && (sd_start e <=? x) && (x <=? sd_end e)) with false by (destruct f; lia). done.
Qed.

Lemma join_fail_r (f : bool) (l l1 : udma_range_list) (lf2 rt2 : seg_node) (q : path) :
  ok_post (k - 1) s lf l lf2 l1 -> fail_post (k - 1) (s + 2 ^ (k - 1)) rt f rt2 q ->
  fail_post k s t f (SNode d lf2 rt2) (true :: q).
Proof.
  intros (W1 & _ & _ & _ & u1 & U1 & V1 & X1) (W & u & e & a & b & U & V & N & B1 & B2 & X).
  pose proof join_half as [H2 Hp].
  split; [by apply seg_wf_node|]. exists (SNode d u1 u), e, a, b.
  rewrite rb_internal by done. cbn [sub_path eqb]. rewrite U1, U.
  split_and!; [done|by apply seg_wf_node|done|lia|lia|].
  intros x Hx. rewrite (cover_node k s) by done. rewrite join_cover.
  destruct (Z.ltb_spec x (s + 2 ^ (k - 1))) as [Hlt|Hge]; [|apply X; lia].
  replace (f && (sd_start e <=? x) && (x <=? sd_end e)) with false by (destruct f; lia).
  apply X1. lia.
Qed.
End Join.

Lemma align_half (s k : Z) :
  s mod 2 ^ PAGE_SHIFT = 0 -> PAGE_SHIFT <= k -> (s + 2 ^ k) mod 2 ^ PAGE_SHIFT = 0.
Proof.
  intros Hs Hk. replace k with (PAGE_SHIFT + (k - PAGE_SHIFT)) by lia.
  rewrite Z.pow_add_r by (unfold PAGE_SHIFT in *; lia).
  rewrite Z.mul_comm, Z_mod_plus_full. done.
Qed.

(** A node outside the segment, and a node that cannot be split, are left alone. *)
Lemma outside_ok (k s : Z) (d : seg_data) (lf rt : seg_node) (l : udma_range_list) :
  0 < 2 ^ k -> sd_start d = s -> sd_end d = s + 2 ^ k - 1 -> seg_wf k s (SNode d lf rt) ->
  rl_wf s l -> outside ul ur d = true -> ok_post k s (SNode d lf rt) l (SNode d lf rt) l.
Proof.
  intros Hp Hst He Hw Hl Ho.
  assert (Hx : forall x, s <= x < s + 2 ^ k -> (ul <=? x) && (x <=? ur) = false)
    by (unfold outside in Ho; lia).
  unfold ok_post. split_and!; [done| | | |].
  - eapply rl_wf_mono; [|done]. lia.
  - intros x ?. unfold new_count. by rewrite Hx.
  - intros x. split; [by left|]. intros [?|(? & ? & _)]; [done|]. specialize (Hx x). lia.
  - exists (SNode d lf rt). cbn [rb]. rewrite Ho, bool_decide_false by done. done.
Qed.

Lemma push_fail (k s : Z) (d : seg_data) (lf rt : seg_node) :
  0 < 2 ^ k -> sd_start d = s -> sd_end d = s + 2 ^ k - 1 -> seg_wf k s (SNode d lf rt) ->
  outside ul ur d = false ->
  is_null lf && is_null rt && (ul <=? sd_start d) && (sd_end d <=? ur) = false ->
  fail_post k s (SNode d lf rt) false (SNode d lf rt) [].
Proof.
  intros Hp Hst He Hw Ho Hleaf. split; [done|]. exists (SNode d lf rt), d, lf, rt.
  cbn [rb node_at]. rewrite Ho, bool_decide_true, Hleaf by done.
  split_and!; [done..|lia|lia|done].
Qed.

(** Only nodes larger than a page are ever split. *)
Lemma must_split (k s : Z) (d : seg_data) (lf rt : seg_node) :
  seg_wf k s (SNode d lf rt) -> s mod 2 ^ PAGE_SHIFT = 0 -> PAGE_SHIFT <= k ->
  outside ul ur d = false ->
  is_null lf && is_null rt && (ul <=? sd_start d) && (sd_end d <=? ur) = false ->
  PAGE_SHIFT < k.
Proof.
  intros (Hst & He & Hcase)%seg_wf_cases Hal Hk Ho Hleaf.
  destruct (Z.eq_dec k PAGE_SHIFT) as [->|]; [|lia].
  destruct Hcase as [(-> & -> & _)|(_ & _ & _ & ? & _)]; [|lia].
  pose proof (page_inside s d Hal Hst He Ho) as Hin.
  cbn [is_null andb] in Hleaf. congruence.
Qed.

(** The update of a well-formed tree, on every branch. *)
Lemma upd_spec (k : nat) : forall s t l n,
  PAGE_SHIFT <= Z.of_nat k -> seg_wf (Z.of_nat k) s t -> s mod 2 ^ PAGE_SHIFT = 0 ->
  0 <= s -> s + 2 ^ Z.of_nat k <= 2 ^ 52 -> rl_wf s l ->
  match upd alloc ul ur val vm_start vm_end k t l n with
  | VOk t' l' _ => ok_post (Z.of_nat k) s t l t' l'
  | VFail f ret t' _ p => ret = - ENOMEM /\ fail_post (Z.of_nat k) s t f t' p
  | VFault => False
  end.
Proof.
  induction k as [|k IH]; intros s t l n Hk Hw Hal Hs Hb Hl; [by unfold PAGE_SHIFT in Hk|].
  destruct t as [|d lf rt]; [done|]. cbn [upd].
  pose proof (pow2_pos (Z.of_nat (S k)) ltac:(lia)) as Hp.
  pose proof Hw as (Hst & He & Hcase)%seg_wf_cases.
  destruct (outside ul ur d) eqn:Ho.
  { by apply outside_ok with (d := d) (lf := lf) (rt := rt). }
  destruct (is_null lf && is_null rt && (ul <=? sd_start d) && (sd_end d <=? ur)) eqn:Hleaf.
  { assert (Hin : (ul <=? sd_start d) && (sd_end d <=? ur) = true) by lia.
    destruct lf, rt; try discriminate Hleaf.
    pose proof (visit_leaf (Z.of_nat (S k)) s d l n ltac:(lia) Hw Hs Hb Hl Hin) as H.
    destruct (update_leaf _ _ _ _ _ _ _) as [[[[ret d'] l'] n']|]; [|done].
    by destruct (ctrue ret). }
  pose proof (must_split _ _ _ _ _ Hw Hal Hk Ho Hleaf) as Hk'.
  pose proof (push_down_spec alloc n _ _ _ _ _ Hw Hk' Hs Hb) as Hpd.
  destruct (udma_seg_push_down_update alloc n (SNode d lf rt)) as [[ret t'] m].
  destruct Hpd as [(-> & d' & lf' & rt' & -> & Hst' & He' & Hlz' & Wl & Wr & Hc)|(-> & ->)].
  2:{ split; [done|]. by apply push_fail with (d := d) (lf := lf) (rt := rt). }
  simpl ctrue. lazy beta iota.
  assert (Ho' : outside ul ur d' = false) by (unfold outside in *; by rewrite Hst', He'; rewrite Hst, He in Ho).
  replace (Z.of_nat (S k) - 1) with (Z.of_nat k) in Wl, Wr by lia.
  assert (H2 : 2 ^ Z.of_nat (S k) = 2 * 2 ^ Z.of_nat k)
    by (rewrite Nat2Z.inj_succ; apply Z.pow_succ_r; lia).
  assert (Hj := fun P (H : P (Z.of_nat k)) => eq_rect_r P H
    (ltac:(lia) : Z.of_nat (S k) - 1 = Z.of_nat k)).
  pose proof (IH s lf' l (n + m)%nat ltac:(lia) Wl Hal Hs ltac:(lia) Hl) as IHl.
  destruct (upd _ _ _ _ _ _ k lf' _ _) as [lf2 l1 n1|f r lf2 l1 q|]; [| |done].
  2:{ destruct IHl as [-> Hf]. split; [done|].
      eapply join_fail_l; try done; by apply Hj. }
  assert (Hal2 : (s + 2 ^ Z.of_nat k) mod 2 ^ PAGE_SHIFT = 0).
  { apply align_half; [done|lia]. }
  pose proof (IH (s + 2 ^ Z.of_nat k) rt' l1 n1 ltac:(lia) Wr Hal2 ltac:(lia) ltac:(lia)
    ltac:(apply IHl)) as IHr.
  destruct (upd _ _ _ _ _ _ k rt' _ _) as [rt2 l2 n2|f r rt2 l2 q|]; [| |done].
  - eapply join_ok with (lf := lf') (rt := rt'); try done; by apply Hj.
  - destruct IHr as [-> Hf]. split; [done|].
    eapply join_fail_r with (lf := lf') (rt := rt'); try done; by apply Hj.
Qed.

Lemma fits_two {A} (a b : A) (st : list A) :
  Z.of_nat (length st) < MAX_ADDR_BITS - PAGE_SHIFT -> stack_fits (a :: b :: st) = true.
Proof. intros. unfold stack_fits, MAX_SEG_STACK_SIZE. apply Z.leb_le. simpl length. lia. Qed.

(** The loop with its explicit stack performs the recursion, never overflows the
    array, and terminates. *)
Lemma update_loop_upd (k : nat) : forall s t p st l n,
  PAGE_SHIFT <= Z.of_nat k -> seg_wf (Z.of_nat k) s (node_at t p) -> s mod 2 ^ PAGE_SHIFT = 0 ->
  0 <= s -> s + 2 ^ Z.of_nat k <= 2 ^ 52 -> rl_wf s l ->
  Z.of_nat k + Z.of_nat (length p) = MAX_ADDR_BITS -> (length st <= length p)%nat ->
  exists m, forall fuel,
    update_loop alloc ul ur val vm_start vm_end (m + fuel) t (p :: st) l n =
    match upd alloc ul ur val vm_start vm_end k (node_at t p) l n with
    | VOk node' l' n' =>
      update_loop alloc ul ur val vm_start vm_end fuel (set_at t p node') st l' n'
    | VFail f r node' l' q => ToRollback f r (set_at t p node') l' (p ++ q)
    | VFault => NullDeref
    end.
Proof.
  induction k as [|k IH]; intros s t p st l n Hk Hw Hal Hs Hb Hl Hd Hst; [by unfold PAGE_SHIFT in Hk|].
  pose proof (upd_spec (S k) s (node_at t p) l n Hk Hw Hal Hs Hb Hl) as Hspec.
  destruct (node_at t p) as [|d lf rt] eqn:Hn; [done|].
  pose proof Hw as (Hsd & He & Hcase)%seg_wf_cases. cbn [upd] in Hspec |- *.
  destruct (outside ul ur d) eqn:Ho.
  { exists 1%nat. intros fuel. cbn [update_loop Nat.add]. rewrite Hn.
    unfold outside in Ho. rewrite Ho. by rewrite <- Hn, set_at_id. }
  destruct (is_null lf && is_null rt && (ul <=? sd_start d) && (sd_end d <=? ur)) eqn:Hleaf.
  { exists 1%nat. intros fuel. cbn [update_loop Nat.add]. rewrite Hn.
    unfold outside in Ho. rewrite Ho, Hleaf.
    destruct (update_leaf _ _ _ _ _ _ _) as [[[[ret d'] l'] n']|]; [|done].
    destruct (ctrue ret); [|done]. by rewrite app_nil_r. }
  pose proof (must_split _ _ _ _ _ Hw Hal Hk Ho Hleaf) as Hk'.
  pose proof (push_down_spec alloc n _ _ _ _ _ Hw Hk' Hs Hb) as Hpd.
  destruct (udma_seg_push_down_update alloc n (SNode d lf rt)) as [[ret t'] j] eqn:Epd.
  destruct Hpd as [(-> & d' & lf' & rt' & -> & Hst' & He' & Hlz' & Wl & Wr & Hc)|(-> & ->)].
  2:{ exists 1%nat. intros fuel. cbn [update_loop Nat.add]. rewrite Hn.
      unfold outside in Ho. rewrite Ho, Hleaf, Epd. change (ctrue (- ENOMEM)) with true. lazy beta iota.
      by rewrite app_nil_r. }
  simpl ctrue in Hspec |- *. lazy beta iota in Hspec |- *.
  replace (Z.of_nat (S k) - 1) with (Z.of_nat k) in Wl, Wr by lia.
  assert (H2 : 2 ^ Z.of_nat (S k) = 2 * 2 ^ Z.of_nat k)
    by (rewrite Nat2Z.inj_succ; apply Z.pow_succ_r; lia).
  set (t1 := set_at t p (SNode d' lf' rt')).
  assert (Ht1 : node_at t1 p = SNode d' lf' rt') by (apply node_at_set_at; congruence).
  assert (Hnl : node_at t1 (p ++ [false]) = lf') by (by rewrite node_at_app, Ht1).
  assert (Hal2 : (s + 2 ^ Z.of_nat k) mod 2 ^ PAGE_SHIFT = 0) by (apply align_half; [done|lia]).
  pose proof (upd_spec k s lf' l (n + j)%nat ltac:(lia) Wl Hal Hs ltac:(lia) Hl) as Hl1.
  edestruct (IH s t1 (p ++ [false]) ((p ++ [true]) :: st) l (n + j)%nat) as [m1 Hm1];
    [lia|by rewrite Hnl|done..|lia|done|rewrite length_app; simpl; lia|rewrite length_app; simpl; lia|].
  rewrite Hnl in Hm1.
  assert (Hone : forall fuel,
    update_loop alloc ul ur val vm_start vm_end (S fuel) t (p :: st) l n =
    update_loop alloc ul ur val vm_start vm_end fuel t1 ((p ++ [false]) :: (p ++ [true]) :: st) l (n + j)%nat).
  { intros fuel. cbn [update_loop]. rewrite Hn. unfold outside in Ho. rewrite Ho, Hleaf, Epd.
    simpl ctrue. lazy beta iota.
    assert (Hch : children p (SNode d' lf' rt') = [p ++ [false]; p ++ [true]])
      by (by destruct lf', rt').
    rewrite Hch. cbn [app]. replace (stack_fits _) with true; [done|].
    symmetry. apply fits_two. lia. }
  destruct (upd _ _ _ _ _ _ k lf' l _) as [lf2 l1 n1|f r lf2 l1 q|] eqn:Eu; [| |done].
  2:{ exists (S m1). intros fuel. cbn [Nat.add]. rewrite Hone, Hm1.
      subst t1. rewrite set_at_app, set_at_set_at, <- app_assoc.
      by rewrite node_at_set_at by congruence. }
  set (t2 := set_at t1 (p ++ [false]) lf2).
  assert (Ht2 : t2 = set_at t p (SNode d' lf2 rt')).
  { subst t2 t1. rewrite set_at_app, set_at_set_at. by rewrite node_at_set_at by congruence. }
  assert (Hnr : node_at t2 (p ++ [true]) = rt')
    by (by rewrite Ht2, node_at_app, node_at_set_at by congruence).
  edestruct (IH (s + 2 ^ Z.of_nat k) t2 (p ++ [true]) st l1 n1) as [m2 Hm2];
    [lia|by rewrite Hnr|done|lia|lia|apply Hl1|rewrite length_app; simpl; lia|rewrite length_app; simpl; lia|].
  rewrite Hnr in Hm2. exists (S (m1 + m2)). intros fuel.
  replace (S (m1 + m2) + fuel)%nat with (S (m1 + (m2 + fuel))) by lia.
  rewrite Hone, Hm1. fold t2. rewrite Hm2.
  assert (Hset : forall x, set_at t2 (p ++ [true]) x = set_at t p (SNode d' lf2 x)).
  { intros x. rewrite Ht2, set_at_app, set_at_set_at. by rewrite node_at_set_at by congruence. }
  destruct (upd _ _ _ _ _ _ k rt' l1 n1) as [rt2 l2 n2|f r rt2 l2 q|].
  - by rewrite Hset.
  - by rewrite Hset, <- app_assoc.
  - done.
Qed.

(** Likewise for the loop of the rollback. *)
Lemma rollback_loop_rb (k : nat) : forall s t p st stop,
  PAGE_SHIFT <= Z.of_nat k -> seg_wf (Z.of_nat k) s (node_at t p) ->
  Z.of_nat k + Z.of_nat (length p) = MAX_ADDR_BITS -> (length st <= length p)%nat ->
  exists m, forall fuel,
    rollback_loop ul ur val (m + fuel) t (p :: st) stop =
    let '(node', b) := rb ul ur val (strip p stop) (node_at t p) in
    if b : bool then Some (set_at t p node')
    else rollback_loop ul ur val fuel (set_at t p node') st stop.
Proof.
  induction k as [|k IH]; intros s t p st stop Hk Hw Hd Hst; [by unfold PAGE_SHIFT in Hk|].
  destruct (node_at t p) as [|d lf rt] eqn:Hn; [done|].
  pose proof Hw as (Hsd & He & Hcase)%seg_wf_cases. cbn [rb].
  rewrite (bool_decide_ext (strip p stop = Some []) (p = stop)) by apply strip_nil.
  destruct (outside ul ur d) eqn:Ho.
  { exists 1%nat. intros fuel. cbn [rollback_loop Nat.add]. rewrite Hn.
    unfold outside in Ho. rewrite Ho, <- Hn, set_at_id. by destruct (bool_decide _). }
  destruct Hcase as [(-> & -> & _)|(N1 & N2 & Hlz & Hk' & Wl & Wr)].
  { exists 1%nat. intros fuel. cbn [rollback_loop Nat.add]. rewrite Hn.
    unfold outside in Ho. rewrite Ho. cbn [is_null children app andb rb].
    replace (stack_fits st) with true; [by destruct (bool_decide _)|].
    symmetry. apply Z.leb_le. unfold MAX_SEG_STACK_SIZE. lia. }
  rewrite N1. cbn [andb].
  assert (Hfit : stack_fits ((p ++ [false]) :: (p ++ [true]) :: st) = true)
    by (apply fits_two; lia).
  assert (Hone : forall fuel,
    rollback_loop ul ur val (S fuel) t (p :: st) stop =
    if bool_decide (p = stop) then Some t
    else rollback_loop ul ur val fuel t ((p ++ [false]) :: (p ++ [true]) :: st) stop).
  { intros fuel. cbn [rollback_loop]. rewrite Hn. unfold outside in Ho. rewrite Ho, N1.
    cbn [andb]. rewrite <- Hn, set_at_id, Hn. unfold children. rewrite N1, N2. cbn [app].
    by rewrite Hfit. }
  destruct (bool_decide (p = stop)) eqn:Hstop.
  { exists 1%nat. intros fuel. cbn [Nat.add]. rewrite Hone, <- Hn. by rewrite set_at_id. }
  replace (Z.of_nat (S k) - 1) with (Z.of_nat k) in Wl, Wr by lia.
  assert (Hnl : node_at t (p ++ [false]) = lf) by (by rewrite node_at_app, Hn).
  edestruct (IH s t (p ++ [false]) ((p ++ [true]) :: st) stop) as [m1 Hm1];
    [lia|by rewrite Hnl|rewrite length_app; simpl; lia|rewrite length_app; simpl; lia|].
  rewrite Hnl, <- strip_snoc in Hm1.
  assert (Hset : forall x, set_at t (p ++ [false]) x = set_at t p (SNode d x rt))
    by (intros x; by rewrite set_at_app, Hn).
  destruct (rb _ _ _ (sub_path false _) lf) as [lf' [|]] eqn:El.
  { exists (S m1). intros fuel. cbn [Nat.add]. by rewrite Hone, Hm1, Hset. }
  rewrite Hset in Hm1. set (t2 := set_at t p (SNode d lf' rt)) in *.
  assert (Hn2 : node_at t2 p = SNode d lf' rt) by (apply node_at_set_at; congruence).
  assert (Hnr : node_at t2 (p ++ [true]) = rt) by (by rewrite node_at_app, Hn2).
  edestruct (IH (s + 2 ^ Z.of_nat k) t2 (p ++ [true]) st stop) as [m2 Hm2];
    [lia|by rewrite Hnr|rewrite length_app; simpl; lia|rewrite length_app; simpl; lia|].
  rewrite Hnr, <- strip_snoc in Hm2. exists (S (m1 + m2)). intros fuel.
  replace (S (m1 + m2) + fuel)%nat with (S (m1 + (m2 + fuel))) by lia.
  rewrite Hone, Hm1, Hm2.
  assert (Hset2 : forall x, set_at t2 (p ++ [true]) x = set_at t p (SNode d lf' x))
    by (intros x; rewrite set_at_app, Hn2; subst t2; by rewrite set_at_set_at).
  destruct (rb _ _ _ (sub_path true _) rt) as [rt' b']. by rewrite Hset2.
Qed.
End UpdateSpec.

(** More fuel does not change a finished run. *)
Lemma update_loop_mono (alloc : nat -> bool) (ul ur val vs ve : Z) (m fuel : nat) : forall t st l n,
  update_loop alloc ul ur val vs ve fuel t st l n <> OutOfFuel ->
  update_loop alloc ul ur val vs ve (fuel + m) t st l n =
  update_loop alloc ul ur val vs ve fuel t st l n.
Proof.
  induction fuel as [|fuel IH]; intros t st l n; [done|]. cbn [update_loop Nat.add].
  repeat case_match; try done; apply IH.
Qed.

(** ** Calls on whole trees *)

Definition tree_wf (root : seg_node) : Prop := seg_wf MAX_ADDR_BITS 0 root.

(** A page-aligned, non-empty segment whose end does not wrap around. *)
Definition seg_ok (seg : udma_segment) : bool :=
  (seg_addr seg mod PAGE_SIZE =? 0) && (0 <=? seg_addr seg) && (0 <? seg_length seg) &&
  (seg_addr seg + seg_length seg <=? 2 ^ 64 - PAGE_SIZE).

Lemma seg_bounds (seg : udma_segment) :
  seg_ok seg = true ->
  seg_ul seg mod 2 ^ PAGE_SHIFT = 0 /\ (seg_ur seg + 1) mod 2 ^ PAGE_SHIFT = 0 /\
  seg_length seg <> 0 /\ seg_ur seg = seg_addr seg + PAGE_ALIGN (seg_length seg) - 1.
Proof.
  unfold seg_ok. intros Hok. bprop.
  destruct (align_spec (seg_length seg) PAGE_SHIFT) as (q & Hq & Hr);
    [unfold PAGE_SHIFT; lia|lia|fold PAGE_SIZE; lia|].
  fold PAGE_SIZE in Hq, Hr. fold (PAGE_ALIGN (seg_length seg)) in Hq.
  assert (Hur : seg_ur seg = seg_addr seg + PAGE_ALIGN (seg_length seg) - 1).
  { unfold seg_ur. rewrite (u64_small (seg_addr seg + _)) by lia. rewrite u64_small; lia. }
  split_and!; [done| |lia|done].
  rewrite Hur, Hq. replace (seg_addr seg + q * PAGE_SIZE - 1 + 1) with (seg_addr seg + q * PAGE_SIZE) by lia.
  by rewrite Z.mod_add.
Qed.

Lemma rl_empty_wf : rl_wf 0 rl_empty.
Proof. done. Qed.

(** [udma_seg_update_range] returns, and either performs the update or restores
    the counts everywhere but on the node whose range could not be recorded. *)
Lemma update_range_spec (alloc : nat -> bool) (root : seg_node) (seg : udma_segment) (val : Z) :
  tree_wf root -> seg_ok seg = true ->
  exists m ret t' l', tree_wf t' /\
    (forall fuel, udma_seg_update_range (m + fuel) alloc root seg val rl_empty = Some (ret, t', l')) /\
    ((ret = 0 /\ rl_wf (2 ^ 52) l' /\
      forall x, 0 <= x < 2 ^ 52 ->
        cover_count t' x = new_count (seg_ul seg) (seg_ur seg) val (cover_count root x) x /\
        (in_ranges l' x <->
         seg_ul seg <= x <= seg_ur seg /\ switches val (cover_count root x) = true)) \/
     (ret = - ENOMEM /\ l' = rl_empty /\
      exists (f : bool) lo hi, forall x, 0 <= x < 2 ^ 52 ->
        cover_count t' x = if f && (lo <=? x) && (x <=? hi) then s32 (cover_count root x - val)
                           else cover_count root x)).
Proof.
  intros Hw Hok. destruct (seg_bounds seg Hok) as (Hul & Hur & Hlen & _).
  set (ul := seg_ul seg) in *. set (ur := seg_ur seg) in *.
  set (vs := seg_vm_start seg). set (ve := seg_vm_end seg).
  pose proof (upd_spec alloc ul ur val vs ve Hul Hur 52 0 root rl_empty 0 ltac:(done) Hw
    ltac:(done) ltac:(done) ltac:(done) rl_empty_wf) as Hspec.
  destruct (update_loop_upd alloc ul ur val vs ve Hul Hur 52 0 root [] [] rl_empty 0) as [m Hm];
    [done..|]. cbn [node_at set_at app] in Hm.
  assert (Hupd : forall fuel, udma_seg_update_range fuel alloc root seg val rl_empty =
    match update_loop alloc ul ur val vs ve fuel root [[]] rl_empty 0 with
    | Finished t l' => Some (0, t, l')
    | ToRollback _ ret t l' cur =>
      t' ← udma_rollback_seg_tree fuel t seg val cur; Some (ret, t', udma_range_list_destroy l')
    | _ => None
    end).
  { intros fuel. unfold udma_seg_update_range. by rewrite (proj2 (Z.eqb_neq _ _) Hlen). }
  destruct (upd alloc ul ur val vs ve 52 root rl_empty 0) as [t' l' n'|f r t1 l1 q|]; [| |done].
  - destruct Hspec as (W & R & C & I & _).
    exists (m + 1)%nat, 0, t', l'. split_and!; [done| |left].
    + intros fuel. rewrite <- Nat.add_assoc, Hupd, Hm. done.
    + split_and!; [done|done|]. intros x Hx. split; [by apply C|].
      rewrite I. unfold in_ranges at 1. simpl. rewrite Exists_nil.
      change (0 + 2 ^ Z.of_nat 52) with (2 ^ 52). intuition lia.
  - destruct Hspec as (-> & W & t2 & d & lf & rt & U & V & N & B1 & B2 & X).
    destruct (rollback_loop_rb ul ur val 52 0 t1 [] [] q) as [m2 Hm2];
      [done..|]. cbn [node_at set_at] in Hm2. change (strip [] q) with (Some q) in Hm2. rewrite U in Hm2.
    exists (m + m2)%nat, (- ENOMEM), t2, rl_empty. split_and!; [done| |right].
    + intros fuel. rewrite Hupd. rewrite <- Nat.add_assoc at 1. rewrite Hm. unfold udma_rollback_seg_tree.
      rewrite (proj2 (Z.eqb_neq _ _) Hlen). destruct t1 as [|d1 l1' r1]; [done|]. cbn [is_null orb].
      replace (m + m2 + fuel)%nat with (m2 + (m + fuel))%nat by lia. by rewrite Hm2.
    + split_and!; [done|done|]. exists f, (sd_start d), (sd_end d). intros x Hx. by apply X.
Qed.

(** ** The read-only loops *)

Lemma fits_le2 {A} (l st : list A) :
  (length l <= 2)%nat -> Z.of_nat (length st) < MAX_ADDR_BITS - PAGE_SHIFT ->
  stack_fits (l ++ st) = true.
Proof.
  intros. unfold stack_fits, MAX_SEG_STACK_SIZE. apply Z.leb_le. rewrite length_app. lia.
Qed.

(** The check visits a node's subtree and goes on with the stack, or stops. *)
Lemma range_check_loop_total (start fin : Z) (seg : udma_segment)
    (check : seg_data -> udma_segment -> Z) (k : nat) : forall s node st,
  PAGE_SHIFT <= Z.of_nat k -> seg_wf (Z.of_nat k) s node ->
  Z.of_nat (length st) + Z.of_nat k <= MAX_ADDR_BITS ->
  exists m, (forall fuel, range_check_loop (m + fuel) start fin seg check (node :: st) = Some (- EINVAL)) \/
    (forall fuel, range_check_loop (m + fuel) start fin seg check (node :: st) =
                  range_check_loop fuel start fin seg check st).
Proof.
  induction k as [|k IH]; intros s node st Hk Hw Hd; [by unfold PAGE_SHIFT in Hk|].
  destruct node as [|d lf rt]; [done|]. apply seg_wf_cases in Hw as (_ & _ & Hcase).
  destruct Hcase as [(-> & -> & _)|(N1 & N2 & _ & Hk' & Wl & Wr)].
  { exists 1%nat. cbn [range_check_loop Nat.add node_meets app].
    replace (stack_fits st) with true
      by (symmetry; apply Z.leb_le; unfold MAX_SEG_STACK_SIZE; lia).
    destruct (_ && _); [by left|by right]. }
  replace (Z.of_nat (S k) - 1) with (Z.of_nat k) in Wl, Wr by lia.
  assert (Hopt : forall s' c st', seg_wf (Z.of_nat k) s' c ->
    Z.of_nat (length st') + Z.of_nat k <= MAX_ADDR_BITS ->
    exists m, (forall fuel, range_check_loop (m + fuel) start fin seg check
                ((if node_meets start fin c then [c] else []) ++ st') = Some (- EINVAL)) \/
      (forall fuel, range_check_loop (m + fuel) start fin seg check
                ((if node_meets start fin c then [c] else []) ++ st') =
                range_check_loop fuel start fin seg check st')).
  { intros s' c st' Hc Hd'. destruct (node_meets start fin c).
    - apply (IH s'); [lia|done|done].
    - exists 0%nat. by right. }
  set (stl := (if node_meets start fin lf then [lf] else []) ++ st).
  destruct (Hopt _ lf st Wl ltac:(lia)) as [m1 H1]. fold stl in H1.
  destruct (Hopt _ rt stl Wr) as [m2 H2].
  { unfold stl. rewrite length_app. destruct (node_meets _ _ _); simpl; lia. }
  assert (Hone : forall fuel, range_check_loop (S fuel) start fin seg check (SNode d lf rt :: st) =
    range_check_loop fuel start fin seg check
      ((if node_meets start fin rt then [rt] else []) ++ stl)).
  { intros fuel. cbn [range_check_loop]. rewrite N1. cbn [andb]. unfold stl.
    rewrite app_assoc at 1. rewrite fits_le2; [done| |lia].
    rewrite length_app. by destruct (node_meets _ _ rt), (node_meets _ _ lf); simpl; lia. }
  destruct H2 as [H2|H2]; [exists (S m2); left; intros fuel; cbn [Nat.add]; by rewrite Hone, H2|].
  exists (S (m2 + m1)). destruct H1 as [H1|H1]; [left|right]; intros fuel;
    replace (S (m2 + m1) + fuel)%nat with (S (m2 + (m1 + fuel))) by lia; by rewrite Hone, H2, H1.
Qed.

Lemma range_check_total (root : seg_node) (seg : udma_segment) :
  tree_wf root ->
  exists m, forall fuel, is_Some (udma_seg_range_check (m + fuel) root seg range_check_occupy).
Proof.
  intros Hw. unfold udma_seg_range_check. destruct (node_meets _ _ root); [|by exists 1%nat].
  destruct (range_check_loop_total (seg_ul seg) (seg_ur seg) seg range_check_occupy 52 0 root [])
    as [m [H|H]]; [done|done|done|exists m; intros; rewrite H; done|].
  exists (m + 1)%nat. intros fuel. rewrite <- Nat.add_assoc, H. done.
Qed.

(** The nodes of a tree in the order [udma_seg_tree_destroy] frees them. *)
Fixpoint seg_nodes (t : seg_node) : list seg_data :=
  match t with SNull => [] | SNode d lf rt => d :: seg_nodes rt ++ seg_nodes lf end.

Lemma destroy_loop_spec (k : nat) : forall s node st,
  PAGE_SHIFT <= Z.of_nat k -> seg_wf (Z.of_nat k) s node ->
  Z.of_nat (length st) + Z.of_nat k <= MAX_ADDR_BITS ->
  exists m, forall fuel,
    destroy_loop (m + fuel) (node :: st) = (fun l => seg_nodes node ++ l) <$> destroy_loop fuel st.
Proof.
  induction k as [|k IH]; intros s node st Hk Hw Hd; [by unfold PAGE_SHIFT in Hk|].
  destruct node as [|d lf rt]; [done|]. apply seg_wf_cases in Hw as (_ & _ & Hcase).
  destruct Hcase as [(-> & -> & _)|(N1 & N2 & _ & Hk' & Wl & Wr)].
  { exists 1%nat. intros fuel. cbn [destroy_loop Nat.add is_null app].
    replace (stack_fits st) with true
      by (symmetry; apply Z.leb_le; unfold MAX_SEG_STACK_SIZE; lia).
    by destruct (destroy_loop fuel st). }
  replace (Z.of_nat (S k) - 1) with (Z.of_nat k) in Wl, Wr by lia.
  destruct (IH _ lf st ltac:(lia) Wl ltac:(lia)) as [m1 H1].
  destruct (IH _ rt (lf :: st) ltac:(lia) Wr ltac:(simpl; lia)) as [m2 H2].
  exists (S (m2 + m1)). intros fuel.
  replace (S (m2 + m1) + fuel)%nat with (S (m2 + (m1 + fuel))) by lia.
  cbn [destroy_loop]. rewrite N1, N2. cbn [app].
  rewrite (fits_two rt lf st) by lia. rewrite H2, H1.
  destruct (destroy_loop fuel st); simpl; [|done]. by rewrite <- app_assoc.
Qed.

(** ** What the segment tree promises *)

(** A fresh tree is well-formed and counts nothing. *)
Lemma init_wf (root : seg_node) :
  udma_seg_tree_init true true = Some root -> tree_wf root /\ forall x, cover_count root x = 0.
Proof. intros [= <-]. split; [|done]. vm_compute. split_and!; done. Qed.

(** C25: registering a page-aligned segment in a well-formed tree returns, without
    ever leaving the bounds of its stack array.  When it returns 0, exactly the
    addresses of the segment count one more, and the list it hands back describes,
    as sorted ranges separated by gaps, exactly the addresses of the segment that
    were not covered before. *)
Theorem seg_range_occupy_spec (alloc : nat -> bool) (root : seg_node) (seg : udma_segment)
    (l : udma_range_list) (Hw : tree_wf root) (Hok : seg_ok seg = true)
    (Hc : forall x, 0 <= cover_count root x < 2 ^ 31 - 1) :
  exists m ret t' l', tree_wf t' /\
    (forall fuel, udma_seg_range_occupy (m + fuel) alloc true root seg l = Some (ret, t', l')) /\
    (ret = 0 \/ ret = - ENOMEM) /\
    (ret = 0 -> rl_wf (2 ^ 52) l' /\ forall x, 0 <= x < 2 ^ 52 ->
       cover_count t' x = cover_count root x +
         (if (seg_ul seg <=? x) && (x <=? seg_ur seg) then 1 else 0) /\
       (in_ranges l' x <-> seg_ul seg <= x <= seg_ur seg /\ cover_count root x = 0)).
Proof.
  destruct (update_range_spec alloc root seg 1 Hw Hok) as (m & ret & t' & l' & W & E & Hcase).
  destruct (range_check_total root seg Hw) as [m' Hm'].
  exists (m' + m)%nat, ret, t', l'. split_and!; [done| |destruct Hcase; dest; auto|].
  - intros fuel. unfold udma_seg_range_occupy.
    destruct (Hm' (m + fuel)%nat) as [r Hr].
    replace (m' + m + fuel)%nat with (m' + (m + fuel))%nat by lia. rewrite Hr. cbn [mbind option_bind].
    by replace (m' + (m + fuel))%nat with (m + (m' + fuel))%nat by lia.
  - intros ->. destruct Hcase as [(_ & R & X)|(H & _)]; [|done]. split; [done|].
    intros x Hx. destruct (X x Hx) as [X1 X2]. specialize (Hc x).
    assert (Hs : s32 (cover_count root x + 1) = cover_count root x + 1)
      by (apply swrap_small; simpl; lia).
    split.
    + rewrite X1. unfold new_count. rewrite Hs. case_match; lia.
    + rewrite X2. unfold switches. rewrite Hs. intuition lia.
Qed.

(** Unregistering is the converse: it returns, and on 0 exactly the addresses
    of the segment count one less and the list describes those whose count
    reached zero. *)
Theorem seg_range_release_spec (alloc : nat -> bool) (root : seg_node) (seg : udma_segment)
    (l : udma_range_list) (Hw : tree_wf root) (Hok : seg_ok seg = true)
    (Hc : forall x, 0 <= cover_count root x < 2 ^ 31)
    (Hcov : forall x, seg_ul seg <= x <= seg_ur seg -> 1 <= cover_count root x) :
  exists m ret t' l', tree_wf t' /\
    (forall fuel, udma_seg_range_release (m + fuel) alloc true root seg l = Some (ret, t', l')) /\
    (ret = 0 \/ ret = - ENOMEM) /\
    (ret = 0 -> rl_wf (2 ^ 52) l' /\ forall x, 0 <= x < 2 ^ 52 ->
       cover_count t' x = cover_count root x -
         (if (seg_ul seg <=? x) && (x <=? seg_ur seg) then 1 else 0) /\
       (in_ranges l' x <-> seg_ul seg <= x <= seg_ur seg /\ cover_count t' x = 0)).
Proof.
  unfold udma_seg_range_release. set (seg' := Build_udma_segment _ _ _ _).
  assert (Hok' : seg_ok seg' = true) by done.
  destruct (update_range_spec alloc root seg' (-1) Hw Hok') as (m & ret & t' & l' & W & E & Hcase).
  exists m, ret, t', l'. split_and!; [done|done|destruct Hcase; dest; auto|].
  intros ->. destruct Hcase as [(_ & R & X)|(H & _)]; [|done]. split; [done|].
  intros x Hx. destruct (X x Hx) as [X1 X2]. specialize (Hc x). specialize (Hcov x).
  change (seg_ul seg') with (seg_ul seg) in *. change (seg_ur seg') with (seg_ur seg) in *.
  assert (Hs : s32 (cover_count root x + -1) = cover_count root x + -1)
    by (apply swrap_small; simpl; lia).
  assert (Hn : cover_count t' x = cover_count root x -
    (if (seg_ul seg <=? x) && (x <=? seg_ur seg) then 1 else 0))
    by (rewrite X1; unfold new_count; rewrite Hs; case_match; lia).
  split; [done|]. rewrite X2, Hn. unfold switches. rewrite Hs.
  destruct ((seg_ul seg <=? x) && (x <=? seg_ur seg)) eqn:Ein; intuition lia.
Qed.

(** An update that runs out of memory returns [-ENOMEM], an empty list and a
    well-formed tree whose counts are the old ones everywhere, except on at most
    one interval (the node whose range could not be recorded), where the update is
    undone twice. *)
Theorem seg_update_rollback (alloc : nat -> bool) (root : seg_node) (seg : udma_segment)
    (val : Z) (Hw : tree_wf root) (Hok : seg_ok seg = true) :
  exists m ret t' l', tree_wf t' /\
    (forall fuel, udma_seg_update_range (m + fuel) alloc root seg val rl_empty = Some (ret, t', l')) /\
    (ret <> 0 -> ret = - ENOMEM /\ l' = rl_empty /\
       exists lo hi, forall x, 0 <= x < 2 ^ 52 ->
         cover_count t' x = if (lo <=? x) && (x <=? hi) then s32 (cover_count root x - val)
                            else cover_count root x).
Proof.
  destruct (update_range_spec alloc root seg val Hw Hok) as (m & ret & t' & l' & W & E & Hcase).
  exists m, ret, t', l'. split_and!; [done..|]. intros Hr.
  destruct Hcase as [(-> & _)|(-> & -> & f & lo & hi & X)]; [done|].
  split_and!; [done..|]. destruct f; [by exists lo, hi|].
  exists 1, 0. intros x Hx. rewrite X by done. replace ((1 <=? x) && (x <=? 0)) with false by lia. done.
Qed.

(** When the loop stops because a node could not be split, the rollback
    restores every count. *)
Theorem seg_split_failure_restores (alloc : nat -> bool) (root : seg_node) (seg : udma_segment)
    (val : Z) (fuel : nat) (ret : Z) (t1 : seg_node) (l1 : udma_range_list) (cur : path)
    (Hw : tree_wf root) (Hok : seg_ok seg = true)
    (Hrun : update_loop alloc (seg_ul seg) (seg_ur seg) val (seg_vm_start seg) (seg_vm_end seg)
              fuel root [[]] rl_empty 0 = ToRollback false ret t1 l1 cur) :
  exists m t', tree_wf t' /\
    (forall n, udma_rollback_seg_tree (m + n) t1 seg val cur = Some t') /\
    forall x, 0 <= x < 2 ^ 52 -> cover_count t' x = cover_count root x.
Proof.
  destruct (seg_bounds seg Hok) as (Hul & Hur & Hlen & _).
  pose proof (upd_spec alloc _ _ val (seg_vm_start seg) (seg_vm_end seg) Hul Hur 52 0 root rl_empty 0
    ltac:(done) Hw ltac:(done) ltac:(done) ltac:(done) rl_empty_wf) as Hspec.
  destruct (update_loop_upd alloc _ _ val (seg_vm_start seg) (seg_vm_end seg) Hul Hur 52 0 root [] []
    rl_empty 0) as [m Hm]; [done..|]. cbn [node_at set_at app] in Hm.
  rewrite <- (update_loop_mono _ _ _ _ _ _ m) in Hrun by congruence.
  rewrite Nat.add_comm, Hm in Hrun.
  destruct (upd _ _ _ _ _ _ 52 root rl_empty 0) as [t' l' n'|f r t2 l2 q|]; [|injection Hrun as -> -> -> -> ->|done].
  { destruct fuel; [done|]. cbn [update_loop] in Hrun. done. }
  destruct Hspec as (-> & W & t2' & d & lf & rt & U & V & N & B1 & B2 & X).
  destruct (rollback_loop_rb (seg_ul seg) (seg_ur seg) val 52 0 t1 [] [] cur) as [m2 Hm2]; [done..|].
  cbn [node_at set_at] in Hm2. change (strip [] cur) with (Some cur) in Hm2. rewrite U in Hm2.
  exists m2, t2'. split_and!; [done| |exact X].
  intros n. unfold udma_rollback_seg_tree. rewrite (proj2 (Z.eqb_neq _ _) Hlen).
  destruct t1; [done|]. cbn [is_null orb]. apply Hm2.
Qed.

(** Destroying a well-formed tree frees each of its nodes exactly once,
    within the bounds of the stack array. *)
Theorem seg_tree_destroy_spec (root : seg_node) (Hw : tree_wf root) :
  exists m, forall fuel, udma_seg_tree_destroy (m + fuel) root = Some (seg_nodes root).
Proof.
  destruct (destroy_loop_spec 52 0 root []) as [m Hm]; [done..|].
  exists (m + 1)%nat. intros fuel. unfold udma_seg_tree_destroy. destruct root; [done|].
  cbn [is_null]. rewrite <- Nat.add_assoc, Hm. cbn [destroy_loop Nat.add fmap option_fmap option_map].
  by rewrite app_nil_r.
Qed.

(** ** Concrete runs *)

Definition all_ok : nat -> bool := fun _ => true.
Definition seg1 : udma_segment :=
  {| seg_addr := 4096; seg_length := 8000; seg_vm_start := 0; seg_vm_end := 16384 |}.
Definition root0 : seg_node := udma_seg_tree_node_create true 0 MAX_VADDR.

Example occupy_ex :
  (fun r => (r.1.1, rl_nodes r.2, cover_count r.1.2 4096, cover_count r.1.2 12288))
  <$> udma_seg_range_occupy 1000 all_ok true root0 seg1 rl_empty = Some (0, [(4096, 8192)], 1, 0).
Proof. vm_compute. reflexivity. Qed.

(** The undo happens twice indeed: when the node of the range list cannot be
    allocated, the failed registration leaves a count of -1, and the registration
    that follows succeeds with an empty list, so that the page is never mapped. *)
Theorem seg_occupy_double_undo :
  exists t1 t2,
    udma_seg_range_occupy 1000 (fun n => negb (n =? 80)%nat) true root0 seg1 rl_empty =
      Some (- ENOMEM, t1, rl_empty) /\
    cover_count root0 4096 = 0 /\ cover_count t1 4096 = -1 /\
    udma_seg_range_occupy 1000 all_ok true t1
      {| seg_addr := 4096; seg_length := 4096; seg_vm_start := 0; seg_vm_end := 16384 |} rl_empty =
      Some (0, t2, rl_empty).
Proof.
  eexists _, _. split_and!; [vm_compute; reflexivity..|].
  vm_compute. reflexivity.
Qed.

Lemma root0_wf : tree_wf root0.
Proof. apply init_wf. reflexivity. Qed.

(** A tree in which one segment covers every address. *)
Definition root1 : seg_node := add_node_counts root0 1.

Lemma root1_wf : tree_wf root1.
Proof. vm_compute. split_and!; done. Qed.

Lemma seg_range_occupy_spec_witness :
  exists m ret t' l',
    (forall fuel, udma_seg_range_occupy (m + fuel) all_ok true root0 seg1 rl_empty = Some (ret, t', l')) /\
    (ret = 0 \/ ret = - ENOMEM).
Proof.
  destruct (seg_range_occupy_spec all_ok root0 seg1 rl_empty root0_wf eq_refl) as (m & r & t' & l' & _ & E & R & _).
  - intros x. simpl. lia.
  - exists m, r, t', l'. by split.
Defined.

Lemma seg_range_release_spec_witness :
  exists m ret t' l',
    (forall fuel, udma_seg_range_release (m + fuel) all_ok true root1 seg1 rl_empty = Some (ret, t', l')) /\
    (ret = 0 \/ ret = - ENOMEM).
Proof.
  destruct (seg_range_release_spec all_ok root1 seg1 rl_empty root1_wf eq_refl) as (m & r & t' & l' & _ & E & R & _).
  - intros x. simpl cover_count. vm_compute. by split.
  - intros x _. simpl cover_count. vm_compute. done.
  - exists m, r, t', l'. by split.
Defined.

Lemma seg_update_rollback_witness :
  exists m ret t' l',
    forall fuel, udma_seg_update_range (m + fuel) (fun _ => false) root0 seg1 1 rl_empty = Some (ret, t', l').
Proof.
  destruct (seg_update_rollback (fun _ => false) root0 seg1 1 root0_wf eq_refl) as (m & r & t' & l' & _ & E & _).
  by exists m, r, t', l'.
Defined.

Lemma seg_split_failure_restores_witness :
  exists m t', forall n, udma_rollback_seg_tree (m + n) root0 seg1 1 [] = Some t'.
Proof.
  destruct (seg_split_failure_restores (fun _ => false) root0 seg1 1 10 (- ENOMEM) root0 rl_empty []
    root0_wf eq_refl) as (m & t' & _ & E & _).
  - vm_compute. reflexivity.
  - by exists m, t'.
Defined.

Lemma seg_tree_destroy_spec_witness :
  exists m, forall fuel, udma_seg_tree_destroy (m + fuel) root0 = Some (seg_nodes root0).
Proof. apply (seg_tree_destroy_spec root0 root0_wf). Defined.
