(* ===== verification/ContiMem.v ===== *)
(** * The contiguous memory allocator of OBMM

    [drivers/ub/obmm/conti_mem_allocator.c] keeps, per NUMA node, segments of
    [granu] bytes obtained from a backing allocator: cleared ones ready for use,
    uncleared ones, the one the clearing thread works on, and poisoned ones.  Four
    atomic counters account for them.

    The backing allocator is the record of callbacks [conti_mempool_ops], any of
    which may be NULL ([None]); they act on an environment of an arbitrary type
    [E].  Functions pass a [world] around: the allocator, the environment, and the
    segments obtained from and returned to the callbacks so far.  A kernel
    [list_head] is a list, [list_add] inserts at its front, [list_add_tail] at its
    end.  Counters are 64-bit and wrap around. *)

From S2P Require Import Prelude.

(** [struct memseg_node].  [ms_clean] is the content of the memory it stands for:
    zeroed or not; no code reads it. *)
Record memseg_node := { ms_addr : Z; ms_size : Z; ms_clean : bool }.

(** A segment of memory, whatever its content. *)
Definition ms_key (n : memseg_node) : Z * Z := (ms_addr n, ms_size n).

(** [struct conti_mem_allocator] without its lock and wait queues: [clear_work],
    [pool_work] and [name] are whether the pointers are set. *)
Record conti_mem_allocator := {
  initialized : bool;
  sysfs_initialized : bool;
  nid : Z;
  granu : Z;
  pooled_mem_size : Z;
  used_mem_size : Z;
  ready_mem_size : Z;
  uncleared_mem_size : Z;
  memseg_ready : list memseg_node;
  memseg_uncleared : list memseg_node;
  memseg_clearing : option memseg_node;
  memseg_poisoned : list memseg_node;
  clear_work : bool;
  pool_work : bool;
  name : bool;
}.

Definition conti_get_total (a : conti_mem_allocator) : Z := u64 (pooled_mem_size a).
Definition conti_get_avail (a : conti_mem_allocator) : Z :=
  u64 (pooled_mem_size a - used_mem_size a).

(** [struct conti_mempool_ops] over an environment. *)
Record conti_mempool_ops (E : Type) := {
  op_clear_memseg : option (E -> conti_mem_allocator -> memseg_node -> Z * E);
  op_pool_free_memseg : option (E -> conti_mem_allocator -> memseg_node -> E);
  op_pool_alloc_memseg : option (E -> conti_mem_allocator -> option (Z * Z) * E);
  op_need_contract : option (E -> conti_mem_allocator -> bool);
  op_contract_size : option (E -> conti_mem_allocator -> Z);
  op_need_expand : option (E -> conti_mem_allocator -> bool);
  op_expand_size : option (E -> conti_mem_allocator -> Z);
}.
Arguments op_clear_memseg {E}.
Arguments op_pool_free_memseg {E}.
Arguments op_pool_alloc_memseg {E}.
Arguments op_need_contract {E}.
Arguments op_contract_size {E}.
Arguments op_need_expand {E}.
Arguments op_expand_size {E}.

Record world (E : Type) := {
  wa : conti_mem_allocator;
  we : E;
  w_got : list (Z * Z);
  w_freed : list (Z * Z);
}.
Arguments wa {E}.
Arguments we {E}.
Arguments w_got {E}.
Arguments w_freed {E}.

(** Field updates. *)
Definition set_counters (a : conti_mem_allocator) (pooled used ready uncleared : Z) :=
  {| initialized := initialized a; sysfs_initialized := sysfs_initialized a; nid := nid a;
     granu := granu a; pooled_mem_size := pooled; used_mem_size := used;
     ready_mem_size := ready; uncleared_mem_size := uncleared;
     memseg_ready := memseg_ready a; memseg_uncleared := memseg_uncleared a;
     memseg_clearing := memseg_clearing a; memseg_poisoned := memseg_poisoned a;
     clear_work := clear_work a; pool_work := pool_work a; name := name a |}.

Definition set_lists (a : conti_mem_allocator) (ready uncleared : list memseg_node)
    (clearing : option memseg_node) (poisoned : list memseg_node) :=
  {| initialized := initialized a; sysfs_initialized := sysfs_initialized a; nid := nid a;
     granu := granu a; pooled_mem_size := pooled_mem_size a; used_mem_size := used_mem_size a;
     ready_mem_size := ready_mem_size a; uncleared_mem_size := uncleared_mem_size a;
     memseg_ready := ready; memseg_uncleared := uncleared;
     memseg_clearing := clearing; memseg_poisoned := poisoned;
     clear_work := clear_work a; pool_work := pool_work a; name := name a |}.

Definition set_tasks (a : conti_mem_allocator) (init sysfs cw pw nm : bool) :=
  {| initialized := init; sysfs_initialized := sysfs; nid := nid a;
     granu := granu a; pooled_mem_size := pooled_mem_size a; used_mem_size := used_mem_size a;
     ready_mem_size := ready_mem_size a; uncleared_mem_size := uncleared_mem_size a;
     memseg_ready := memseg_ready a; memseg_uncleared := memseg_uncleared a;
     memseg_clearing := memseg_clearing a; memseg_poisoned := memseg_poisoned a;
     clear_work := cw; pool_work := pw; name := nm |}.

(** [atomic64_add] of the given amounts to the four counters. *)
Definition add_counters (a : conti_mem_allocator) (dp du dr dn : Z) : conti_mem_allocator :=
  set_counters a (s64 (pooled_mem_size a + dp)) (s64 (used_mem_size a + du))
    (s64 (ready_mem_size a + dr)) (s64 (uncleared_mem_size a + dn)).

Definition with_wa {E} (w : world E) (a : conti_mem_allocator) : world E :=
  {| wa := a; we := we w; w_got := w_got w; w_freed := w_freed w |}.

Section Conti.
Context {E : Type} (ops : conti_mempool_ops E).

(** ** The callbacks *)

(** The node passed to [clear_memseg] is zeroed when the callback returns 0. *)
Definition conti_clear_memseg (w : world E) (node : memseg_node)
    : Z * memseg_node * world E :=
  match op_clear_memseg ops with
  | Some f =>
    let '(ret, e) := f (we w) (wa w) node in
    (ret, {| ms_addr := ms_addr node; ms_size := ms_size node;
             ms_clean := if ret =? 0 then true else ms_clean node |},
     {| wa := wa w; we := e; w_got := w_got w; w_freed := w_freed w |})
  | None => (- EOPNOTSUPP, node, w)
  end.

Definition conti_pool_free_memseg (w : world E) (node : memseg_node) : world E :=
  match op_pool_free_memseg ops with
  | Some f => {| wa := wa w; we := f (we w) (wa w) node; w_got := w_got w;
                 w_freed := w_freed w ++ [ms_key node] |}
  | None => w
  end.

Definition conti_pool_alloc_memseg (w : world E) : option memseg_node * world E :=
  match op_pool_alloc_memseg ops with
  | Some f =>
    let '(r, e) := f (we w) (wa w) in
    match r with
    | Some (addr, size) =>
      (Some {| ms_addr := addr; ms_size := size; ms_clean := false |},
       {| wa := wa w; we := e; w_got := w_got w ++ [(addr, size)]; w_freed := w_freed w |})
    | None => (None, {| wa := wa w; we := e; w_got := w_got w; w_freed := w_freed w |})
    end
  | None => (None, w)
  end.

Definition conti_has_poisoned_memseg (w : world E) : bool :=
  match memseg_poisoned (wa w) with [] => false | _ => true end.

Definition conti_need_contract (w : world E) : bool :=
  match op_need_contract ops with Some f => f (we w) (wa w) | None => false end.
Definition conti_contract_size (w : world E) : Z :=
  match op_contract_size ops with Some f => f (we w) (wa w) | None => 0 end.
Definition conti_need_expand (w : world E) : bool :=
  match op_need_expand ops with Some f => f (we w) (wa w) | None => false end.
Definition conti_expand_size (w : world E) : Z :=
  match op_expand_size ops with Some f => f (we w) (wa w) | None => 0 end.

(** ** Expansion and contraction *)

(** The loop of [conti_mem_allocator_expand]: [paused i] is the [i]-th read of
    [pool_thread_should_pause] being non-zero; the result is the remaining count. *)
Fixpoint expand_loop (paused : nat -> bool) (i : nat) (w : world E) (count : nat)
    : nat * world E :=
  match count with
  | O => (O, w)
  | S count' =>
    if paused i then (count, w)
    else
      match conti_pool_alloc_memseg w with
      | (None, w1) => (count, w1)
      | (Some node, w1) =>
        let a := wa w1 in
        expand_loop paused (S i)
          (with_wa w1 (set_lists a (memseg_ready a) (memseg_uncleared a ++ [node])
                         (memseg_clearing a) (memseg_poisoned a))) count'
      end
  end.

Definition conti_mem_allocator_expand (paused : nat -> bool) (w : world E) (size : Z)
    : Z * world E :=
  if (size =? 0) || ctrue (size mod granu (wa w)) then (0, w)
  else
    let '(count, w1) := expand_loop paused 0 w (Z.to_nat (size / granu (wa w))) in
    let expand_size := u64 (size - Z.of_nat count * granu (wa w1)) in
    (expand_size, with_wa w1 (add_counters (wa w1) expand_size 0 0 expand_size)).

(** [list_for_each_entry_safe] with [list_move_tail], [count--] and a jump out at
    0: the moved nodes, the rest of the list, the count. *)
Fixpoint contract_walk (count : nat) (l : list memseg_node)
    : list memseg_node * list memseg_node * nat :=
  match l with
  | [] => ([], [], count)
  | node :: l' =>
    let count' := pred count in
    if (count' =? 0)%nat then ([node], l', 0%nat)
    else let '(m, r, c) := contract_walk count' l' in (node :: m, r, c)
  end.

(** [list_for_each_entry_safe] with [list_del] and [conti_pool_free_memseg]. *)
Fixpoint free_nodes (w : world E) (l : list memseg_node) : world E :=
  match l with
  | [] => w
  | node :: l' => free_nodes (conti_pool_free_memseg w node) l'
  end.

Definition conti_mem_allocator_contract (w : world E) (size : Z) : Z * world E :=
  let a := wa w in
  if (size =? 0) || ctrue (size mod granu a) then (0, w)
  else
    let count := Z.to_nat (size / granu a) in
    match op_pool_free_memseg ops with
    | None => (0, w)
    | Some _ =>
      let '(m1, uncleared, count1) := contract_walk count (memseg_uncleared a) in
      let '(m2, ready, count2) :=
        if (count1 =? 0)%nat then ([], memseg_ready a, count1)
        else contract_walk count1 (memseg_ready a) in
      let from_uncleared := u64 (Z.of_nat (length m1) * granu a) in
      let from_ready := u64 (Z.of_nat (length m2) * granu a) in
      let w1 := with_wa w (set_lists a ready uncleared (memseg_clearing a) (memseg_poisoned a)) in
      let w2 := free_nodes w1 (m1 ++ m2) in
      let contract_size := u64 (size - Z.of_nat count2 * granu a) in
      (contract_size,
       with_wa w2 (add_counters (wa w2) (- contract_size) 0 (- from_ready) (- from_uncleared)))
    end.

Definition conti_mem_allocator_free_poisoned (w : world E) : Z * world E :=
  let a := wa w in
  match op_pool_free_memseg ops with
  | None => (0, w)
  | Some _ =>
    let free_list := memseg_poisoned a in
    let w1 := with_wa w (set_lists a (memseg_ready a) (memseg_uncleared a) (memseg_clearing a) []) in
    (u64 (Z.of_nat (length free_list) * granu a), free_nodes w1 free_list)
  end.

(** [conti_free_memory]: the user gives back the nodes of [head]. *)
Definition conti_free_memory (w : world E) (head : list memseg_node) : world E :=
  let freed_size := u64 (Z.of_nat (length head) * granu (wa w)) in
  let w1 := free_nodes w head in
  with_wa w1 (add_counters (wa w1) (- freed_size) (- freed_size) 0 0).

(** ** Allocation *)

(** The loop of [conti_alloc_memory_slow]; [None] when the fuel runs out. *)
Fixpoint slow_loop (fuel : nat) (w : world E) (size : Z) (head : list memseg_node)
    (clear : bool) (allocated : Z) : option (Z * list memseg_node * world E) :=
  if size =? 0 then Some (allocated, head, w)
  else
    match fuel with
    | O => None
    | S fuel' =>
      match conti_pool_alloc_memseg w with
      | (None, w1) => Some (allocated, head, w1)
      | (Some node, w1) =>
        let '(ret, node', w2) := if clear then conti_clear_memseg w1 node else (0, node, w1) in
        if ret <? 0 then Some (allocated, head, conti_pool_free_memseg w2 node')
        else slow_loop fuel' w2 (u64 (size - granu (wa w2))) (head ++ [node']) clear
               (u64 (allocated + granu (wa w2)))
      end
    end.

Definition conti_alloc_memory_slow (fuel : nat) (w : world E) (size : Z)
    (head : list memseg_node) (clear : bool) : option (Z * list memseg_node * world E) :=
  '(allocated, head', w1) ← slow_loop fuel w size head clear 0;
  Some (allocated, head', with_wa w1 (add_counters (wa w1) allocated allocated 0 0)).

(** [list_for_each] until [allocated >= size], then [list_cut_before]: the nodes
    cut off, the rest of the list, and the new [allocated]. *)
Fixpoint alloc_walk (g size allocated : Z) (l : list memseg_node)
    : list memseg_node * list memseg_node * Z :=
  match l with
  | [] => ([], [], allocated)
  | node :: l' =>
    if size <=? allocated then ([], l, allocated)
    else let '(t, r, al) := alloc_walk g size (u64 (allocated + g)) l' in (node :: t, r, al)
  end.

(** [list_for_each_entry(node, &temp_list, list) conti_clear_memseg(...)]: the
    results are ignored. *)
Fixpoint clear_nodes (w : world E) (l : list memseg_node) : list memseg_node * world E :=
  match l with
  | [] => ([], w)
  | node :: l' =>
    let '(_, node', w1) := conti_clear_memseg w node in
    let '(l2, w2) := clear_nodes w1 l' in (node' :: l2, w2)
  end.

(** [conti_alloc_memory] up to its slow path: the size taken from the two lists, the
    nodes, and the world with the counters updated and the nodes cleared. *)
Definition alloc_from_pools (w : world E) (size : Z) (clear allow_slow : bool)
    : Z * list memseg_node * world E :=
  let a := wa w in
  let first := if clear then memseg_ready a else memseg_uncleared a in
  let second := if clear then (if allow_slow then Some (memseg_uncleared a) else None)
                else Some (memseg_ready a) in
  let '(head, first', al1) := alloc_walk (granu a) size 0 first in
  let '(temp_list, second', al2) :=
    match second with
    | Some l => let '(t, r, al) := alloc_walk (granu a) size al1 l in (t, Some r, al)
    | None => ([], None, al1)
    end in
  let first_allocated := u64 (Z.of_nat (length head) * granu a) in
  let second_allocated := u64 (Z.of_nat (length temp_list) * granu a) in
  let ready' := if clear then first' else default (memseg_ready a) second' in
  let uncleared' := if clear then default (memseg_uncleared a) second' else first' in
  let a1 := set_lists a ready' uncleared' (memseg_clearing a) (memseg_poisoned a) in
  let a2 := if clear then add_counters a1 0 0 (- first_allocated) (- second_allocated)
            else add_counters a1 0 0 (- second_allocated) (- first_allocated) in
  let a3 := add_counters a2 0 al2 0 0 in
  let '(temp', w1) := if clear then clear_nodes (with_wa w a3) temp_list
                      else (temp_list, with_wa w a3) in
  (al2, temp' ++ head, w1).

(** [conti_alloc_memory]: the allocated size and the list handed to the caller. *)
Definition conti_alloc_memory (fuel : nat) (w : world E) (size : Z) (clear allow_slow : bool)
    : option (Z * list memseg_node * world E) :=
  let '(allocated, head, w1) := alloc_from_pools w size clear allow_slow in
  if allow_slow && (allocated <? size) then
    '(slow, head', w2) ← conti_alloc_memory_slow fuel w1 (u64 (size - allocated)) head clear;
    Some (u64 (allocated + slow), head', w2)
  else Some (allocated, head, w1).

(** ** Isolation of a poisoned segment *)

(** The first node of [l] at [addr], and the list without it. *)
Fixpoint take_addr (addr : Z) (l : list memseg_node) : option (memseg_node * list memseg_node) :=
  match l with
  | [] => None
  | node :: l' =>
    if ms_addr node =? addr then Some (node, l')
    else '(n, r) ← take_addr addr l'; Some (n, node :: r)
  end.

Definition conti_mem_allocator_isolate_memseg (a : conti_mem_allocator) (addr : Z)
    : bool * conti_mem_allocator :=
  if negb (initialized a) then (false, a)
  else
    let addr := ALIGN_DOWN addr (granu a) in
    match take_addr addr (memseg_ready a) with
    | Some (node, ready') =>
      (true, add_counters (set_lists a ready' (memseg_uncleared a) (memseg_clearing a)
                             (node :: memseg_poisoned a)) (- granu a) 0 (- granu a) 0)
    | None =>
      match take_addr addr (memseg_uncleared a) with
      | Some (node, uncleared') =>
        (true, add_counters (set_lists a (memseg_ready a) uncleared' (memseg_clearing a)
                               (node :: memseg_poisoned a)) (- granu a) 0 0 (- granu a))
      | None => (false, a)
      end
    end.

(** ** The threads *)

(** First critical section of an iteration of [conti_clear_thread]: takes the first
    uncleared node, or [continue]s. *)
Definition clear_take (a : conti_mem_allocator) : conti_mem_allocator :=
  match memseg_uncleared a with
  | [] => a
  | node :: rest => set_lists a (memseg_ready a) rest (Some node) (memseg_poisoned a)
  end.

(** The rest of the iteration: clears the node without the lock, then puts it back. *)
Definition clear_put (w : world E) : world E :=
  match memseg_clearing (wa w) with
  | None => w
  | Some node =>
    let '(ret, node', w1) := conti_clear_memseg w node in
    let a := wa w1 in
    if ctrue ret then
      with_wa w1 (set_lists a (memseg_ready a) (node' :: memseg_uncleared a) None
                    (memseg_poisoned a))
    else
      with_wa w1 (add_counters (set_lists a (node' :: memseg_ready a) (memseg_uncleared a) None
                                  (memseg_poisoned a)) 0 0 (granu a) (- granu a))
  end.

(** One iteration of [conti_pool_thread] after its wait. *)
Definition conti_pool_thread (paused : nat -> bool) (w : world E) : world E :=
  let w1 := if conti_has_poisoned_memseg w
            then (conti_mem_allocator_free_poisoned w).2 else w in
  let w2 :=
    if conti_need_contract w1 then
      let size := conti_contract_size w1 in
      if 0 <? size then (conti_mem_allocator_contract w1 size).2 else w1
    else w1 in
  if conti_need_expand w2 then
    let size := conti_expand_size w2 in
    if 0 <? size then (conti_mem_allocator_expand paused w2 size).2 else w2
  else w2.
End Conti.

(** ** Initialisation and teardown *)

(** What the kernel services called by [conti_mem_allocator_init] return. *)
Record init_env := {
  ie_name_ok : bool;       (** [kvasprintf] *)
  ie_clear_thread_ok : bool; (** [kthread_create_on_node] of the clearing thread *)
  ie_pool_thread_ok : bool;
  ie_parent : bool;        (** [parent] is not NULL *)
  ie_kobj_ret : Z;         (** [kobject_init_and_add] *)
  ie_group_ret : Z;        (** [sysfs_create_group] *)
}.

Definition clear_thread_init (env : init_env) (a : conti_mem_allocator) : Z * conti_mem_allocator :=
  if ie_clear_thread_ok env
  then (0, set_tasks a (initialized a) (sysfs_initialized a) true (pool_work a) (name a))
  else (- ENODEV, a).

Definition pool_thread_init (env : init_env) (a : conti_mem_allocator) : Z * conti_mem_allocator :=
  if ie_pool_thread_ok env
  then (0, set_tasks a (initialized a) (sysfs_initialized a) (clear_work a) true (name a))
  else (- ENODEV, a).

(** The allocator after [memset], naming and the field initialisation. *)
Definition fresh_allocator (nid granu : Z) : conti_mem_allocator :=
  {| initialized := false; sysfs_initialized := false; nid := nid; granu := granu;
     pooled_mem_size := 0; used_mem_size := 0; ready_mem_size := 0; uncleared_mem_size := 0;
     memseg_ready := []; memseg_uncleared := []; memseg_clearing := None;
     memseg_poisoned := []; clear_work := false; pool_work := false; name := true |}.

(** The labels of the exception path: each falls through to the next. *)
Definition err_free_name (a : conti_mem_allocator) : conti_mem_allocator :=
  set_tasks a (initialized a) (sysfs_initialized a) (clear_work a) (pool_work a) false.
Definition err_stop_clear_thread (a : conti_mem_allocator) : conti_mem_allocator :=
  err_free_name (if clear_work a
    then set_tasks a (initialized a) (sysfs_initialized a) false (pool_work a) (name a) else a).
Definition err_stop_pool_thread (a : conti_mem_allocator) : conti_mem_allocator :=
  err_stop_clear_thread (if pool_work a
    then set_tasks a (initialized a) (sysfs_initialized a) (clear_work a) false (name a) else a).

Definition conti_mem_allocator_init {E} (env : init_env) (allocator : option conti_mem_allocator)
    (nid granu : Z) (ops : option (conti_mempool_ops E)) : Z * option conti_mem_allocator :=
  match allocator, ops with
  | Some _, Some ops =>
    match op_need_expand ops, op_expand_size ops with
    | Some _, Some _ =>
      if negb (IS_ALIGNED granu PAGE_SIZE) || (granu =? 0) then (- EINVAL, allocator)
      else
        let a0 := fresh_allocator nid granu in
        if negb (ie_name_ok env) then
          (- ENOMEM, Some (set_tasks (fresh_allocator 0 0) false false false false false))
        else
          let '(ret, a1) := if op_clear_memseg ops is Some _ then clear_thread_init env a0 else (0, a0) in
          if ctrue ret then (ret, Some (err_free_name a1))
          else
            let '(ret, a2) := pool_thread_init env a1 in
            if ctrue ret then (ret, Some (err_stop_clear_thread a2))
            else if ie_parent env then
              if ctrue (ie_kobj_ret env) then (ie_kobj_ret env, Some (err_stop_pool_thread a2))
              else if ctrue (ie_group_ret env) then
                (ie_group_ret env, Some (err_stop_pool_thread a2))
              else (0, Some (set_tasks a2 true true (clear_work a2) (pool_work a2) (name a2)))
            else (0, Some (set_tasks a2 true (sysfs_initialized a2) (clear_work a2) (pool_work a2)
                             (name a2)))
    | _, _ => (- EINVAL, allocator)
    end
  | _, _ => (- EINVAL, allocator)
  end.

(** [conti_mem_allocator_deinit]; a clearing thread that is stopped first finishes
    its iteration.  The list heads keep pointing at the freed nodes: the lists of
    the result are not those of a usable allocator. *)
Definition conti_mem_allocator_deinit {E} (ops : conti_mempool_ops E) (w : world E) : world E :=
  let stop a := set_tasks a false (sysfs_initialized a) false false false in
  let w0 := if clear_work (wa w) then clear_put ops w else w in
  let w1 := with_wa w0 (stop (wa w0)) in
  let a := wa w1 in
  let w2 :=
    match op_pool_free_memseg ops with
    | None => w1
    | Some _ => free_nodes ops w1 (memseg_poisoned a ++ memseg_ready a ++ memseg_uncleared a)
    end in
  let a2 := set_lists (wa w2) (memseg_ready a) (memseg_uncleared a) None (memseg_poisoned a) in
  with_wa w2 (set_tasks a2 (initialized a2) false (clear_work a2) (pool_work a2) (name a2)).

(** ** The accounting invariant *)

(** The segments the allocator holds. *)
Definition held (a : conti_mem_allocator) : list memseg_node :=
  memseg_ready a ++ memseg_uncleared a ++ option_list (memseg_clearing a) ++ memseg_poisoned a.

(** The counters of [a] when users hold [k] segments. *)
Definition counters_ok (a : conti_mem_allocator) (k : nat) : Prop :=
  let n l := Z.of_nat (length (l : list memseg_node)) in
  let uncleared := n (memseg_uncleared a) + n (option_list (memseg_clearing a)) in
  ready_mem_size a = s64 (granu a * n (memseg_ready a)) /\
  uncleared_mem_size a = s64 (granu a * uncleared) /\
  used_mem_size a = s64 (granu a * Z.of_nat k) /\
  pooled_mem_size a = s64 (granu a * (n (memseg_ready a) + uncleared + Z.of_nat k)).

(** [users] are the segments handed out by [conti_alloc_memory] and not given back:
    the counters are right, ready segments are zeroed, and every segment obtained
    from the backing allocator is held, in use, or was returned, exactly once. *)
Record conti_inv {E} (w : world E) (users : list memseg_node) : Prop := {
  inv_granu : 0 < granu (wa w) < 2 ^ 64;
  inv_counters : counters_ok (wa w) (length users);
  inv_clean : Forall (fun n => ms_clean n = true) (memseg_ready (wa w));
  inv_conserve : w_got w ≡ₚ map ms_key (held (wa w) ++ users) ++ w_freed w;
}.

Ltac len := cbn [option_list length] in *; rewrite ?length_app, ?length_map in *; cbn [option_list length] in *.
Ltac counters := unfold counters_ok, add_counters, set_lists, set_counters in *; simpl in *; dest;
  len; split_and!;
  repeat match goal with H : _ = s64 _ |- _ => rewrite H; clear H end; try done; try wrap_tac.

Section ContiLemmas.
Context {E : Type} (ops : conti_mempool_ops E).

Lemma clear_memseg_key (w : world E) (n : memseg_node) ret n' w' :
  conti_clear_memseg ops w n = (ret, n', w') ->
  ms_key n' = ms_key n /\ wa w' = wa w /\ w_got w' = w_got w /\ w_freed w' = w_freed w /\
  (ret = 0 -> ms_clean n' = true).
Proof.
  unfold conti_clear_memseg. destruct (op_clear_memseg ops) as [f|].
  - destruct (f _ _ n) as [r e]. intros [= <- <- <-]. split_and!; try done. by intros ->.
  - by intros [= <- <- <-].
Qed.

Lemma alloc_memseg_spec (w : world E) r w' :
  conti_pool_alloc_memseg ops w = (r, w') ->
  wa w' = wa w /\ w_freed w' = w_freed w /\
  w_got w' = w_got w ++ map ms_key (option_list r).
Proof.
  unfold conti_pool_alloc_memseg. destruct (op_pool_alloc_memseg ops) as [f|].
  - destruct (f _ _) as [[[addr size]|] e]; intros [= <- <-]; simpl; by rewrite ?app_nil_r.
  - intros [= <- <-]. simpl. by rewrite app_nil_r.
Qed.

Lemma expand_loop_spec paused (count : nat) : forall i (w : world E) c w',
  expand_loop ops paused i w count = (c, w') ->
  exists l, count = (length l + c)%nat /\
    wa w' = set_lists (wa w) (memseg_ready (wa w)) (memseg_uncleared (wa w) ++ l)
              (memseg_clearing (wa w)) (memseg_poisoned (wa w)) /\
    w_got w' = w_got w ++ map ms_key l /\ w_freed w' = w_freed w.
Proof.
  assert (Hnil : forall w : world E, wa w = set_lists (wa w) (memseg_ready (wa w))
      (memseg_uncleared (wa w) ++ []) (memseg_clearing (wa w)) (memseg_poisoned (wa w))).
  { intros w. rewrite app_nil_r. by destruct w as [[]]. }
  induction count as [|count IH]; intros i w c w' H; simpl in H.
  - injection H as <- <-. exists []. split_and!; [done|apply Hnil|by rewrite app_nil_r|done].
  - destruct (paused i).
    { injection H as <- <-. exists []. split_and!; [done|apply Hnil|by rewrite app_nil_r|done]. }
    destruct (conti_pool_alloc_memseg ops w) as [[node|] w1] eqn:Ha;
      apply alloc_memseg_spec in Ha as (Ha & Hf & Hg); simpl in Hg.
    + apply IH in H as (l & -> & Hw & Hgot & Hfr). exists (node :: l). simpl in *.
      rewrite Hw, Hgot, Hfr, Hg, Ha. unfold set_lists. simpl.
      rewrite <- !app_assoc. done.
    + injection H as <- <-. exists []. split_and!; [done| |by rewrite Hg|done].
      rewrite <- Ha. apply Hnil.
Qed.

Lemma contract_walk_spec (l : list memseg_node) : forall c m r c',
  (0 < c)%nat -> contract_walk c l = (m, r, c') ->
  l = m ++ r /\ c = (length m + c')%nat /\ (c' <> 0%nat -> r = []).
Proof.
  induction l as [|n l IH]; intros c m r c' Hc H; simpl in H.
  - by injection H as <- <- <-.
  - destruct (Nat.eqb_spec (pred c) 0).
    + injection H as <- <- <-. simpl. split_and!; [done|lia|done].
    + destruct (contract_walk (pred c) l) as [[m0 r0] c0] eqn:Hw.
      injection H as <- <- <-. apply IH in Hw as (-> & ? & ?); [|lia].
      simpl. split_and!; [done|lia|done].
Qed.

Lemma free_nodes_spec (l : list memseg_node) : forall (w : world E),
  op_pool_free_memseg ops <> None ->
  wa (free_nodes ops w l) = wa w /\ w_got (free_nodes ops w l) = w_got w /\
  w_freed (free_nodes ops w l) = w_freed w ++ map ms_key l.
Proof.
  induction l as [|n l IH]; intros w Hf; simpl; [by rewrite app_nil_r|].
  destruct (IH (conti_pool_free_memseg ops w n) Hf) as (-> & -> & ->).
  unfold conti_pool_free_memseg. destruct (op_pool_free_memseg ops); [|done].
  simpl. by rewrite <- app_assoc.
Qed.

(** ** Each operation preserves the invariant *)

Ltac perm := rewrite ?map_app; simpl; rewrite ?map_app; simpl; solve_Permutation.

Lemma expand_inv paused (w : world E) users (size : Z) r w' :
  conti_inv w users -> 0 <= size -> conti_mem_allocator_expand ops paused w size = (r, w') ->
  conti_inv w' users /\ granu (wa w') = granu (wa w).
Proof.
  intros [Hg Hc Hcl Hp] Hs H. unfold conti_mem_allocator_expand in H.
  destruct (_ || _) eqn:Hz.
  { by injection H as <- <-. }
  apply orb_false_elim in Hz as [Hz0 Hz]. unfold ctrue in Hz. bprop.
  destruct (expand_loop _ _ _ _ _) as [c w1] eqn:Hl.
  apply expand_loop_spec in Hl as (l & Hn & Ha & Hgot & Hf).
  injection H as _ <-. destruct w as [a e got freed]; simpl in *.
  assert (size = (Z.of_nat (length l) + Z.of_nat c) * granu a).
  { apply (f_equal Z.of_nat) in Hn. rewrite Z2Nat.id in Hn by (apply Z.div_pos; lia).
    pose proof (Z.div_mod size (granu a)). nia. }
  split; [split|]; simpl; rewrite ?Ha; simpl; try done.
  - counters.
  - rewrite Hgot, Hf, Hp. unfold held. simpl. perm.
Qed.

(** What [conti_mem_allocator_contract] takes: a prefix of the uncleared list, then
    one of the ready list, which it only touches when the former is exhausted. *)
Lemma contract_spec (w : world E) (size : Z) :
  op_pool_free_memseg ops <> None -> 0 < granu (wa w) -> 0 < size < 2 ^ 64 ->
  (granu (wa w) | size) ->
  exists m1 m2 uncleared ready w', let a := wa w in let g := granu a in
    let k := Z.of_nat (length m1) + Z.of_nat (length m2) in
    conti_mem_allocator_contract ops w size = (k * g, w') /\
    memseg_uncleared a = m1 ++ uncleared /\ memseg_ready a = m2 ++ ready /\
    (m2 <> [] -> uncleared = []) /\ k * g <= size /\
    (k * g < size -> uncleared = [] /\ ready = []) /\
    wa w' = add_counters (set_lists a ready uncleared (memseg_clearing a) (memseg_poisoned a))
      (- (k * g)) 0 (- u64 (Z.of_nat (length m2) * g)) (- u64 (Z.of_nat (length m1) * g)) /\
    w_got w' = w_got w /\ w_freed w' = w_freed w ++ map ms_key (m1 ++ m2).
Proof.
  intros Hf Hg Hs [q Hq]. unfold conti_mem_allocator_contract.
  replace (size =? 0) with false by (symmetry; apply Z.eqb_neq; lia).
  rewrite Hq, Z_mod_mult, Z_div_mult by lia. simpl.
  destruct (op_pool_free_memseg ops) eqn:Hop; [|done].
  destruct (contract_walk (Z.to_nat q) _) as [[m1 unc] c1] eqn:H1.
  apply contract_walk_spec in H1 as (Hu & Hc1 & Hr1); [|nia].
  destruct (if (c1 =? 0)%nat then _ else _) as [[m2 rdy] c2] eqn:H2.
  assert (memseg_ready (wa w) = m2 ++ rdy /\ c1 = (length m2 + c2)%nat /\
    (c2 <> 0%nat -> rdy = []) /\ (m2 <> [] -> unc = []) /\ (c2 <> 0%nat -> unc = []))
    as (Hr & Hc2 & Hr2 & He & He').
  { destruct (Nat.eqb_spec c1 0).
    - injection H2 as <- <- <-. split_and!; done.
    - apply contract_walk_spec in H2 as (-> & -> & ?); [|lia].
      split_and!; try done; intros _; apply Hr1; lia. }
  set (w0 := with_wa w _).
  destruct (free_nodes_spec (m1 ++ m2) w0) as (Ha & Hgot & Hfr); [by rewrite Hop|].
  exists m1, m2, unc, rdy. eexists. cbv zeta.
  assert (Hu64 : u64 (q * granu (wa w) - Z.of_nat c2 * granu (wa w)) =
    (Z.of_nat (length m1) + Z.of_nat (length m2)) * granu (wa w)).
  { rewrite uwrap_small by nia. nia. }
  rewrite Hu64, Ha. split_and!; try done; try nia.
  intros Hlt. assert (c2 <> 0%nat) by nia. auto.
Qed.

Lemma contract_inv (w : world E) users (size : Z) r w' :
  op_pool_free_memseg ops <> None -> conti_inv w users -> 0 <= size < 2 ^ 64 ->
  conti_mem_allocator_contract ops w size = (r, w') ->
  conti_inv w' users /\ granu (wa w') = granu (wa w).
Proof.
  intros Hf Hi Hs H. pose proof Hi as [Hg Hc Hcl Hp].
  destruct ((size =? 0) || ctrue (size mod granu (wa w))) eqn:Hb.
  { unfold conti_mem_allocator_contract in H. rewrite Hb in H. by injection H as <- <-. }
  apply orb_false_elim in Hb as [Hb0 Hb]. unfold ctrue in Hb. bprop.
  destruct (contract_spec w size) as (m1 & m2 & unc & rdy & w2 & Hs2 & Hu & Hr & _ & _ & _ & Ha
    & Hgot & Hfr); [done|lia|lia|apply Z.mod_divide; lia|].
  rewrite Hs2 in H. injection H as <- <-.
  split; [split|]; rewrite ?Ha; simpl; try done.
  - unfold counters_ok in Hc. rewrite Hu, Hr in Hc. counters.
  - rewrite Hr in Hcl. apply Forall_app in Hcl. tauto.
  - rewrite Hgot, Hfr, Hp. unfold held. rewrite Hu, Hr. simpl. perm.
Qed.

Lemma free_poisoned_inv (w : world E) users r w' :
  op_pool_free_memseg ops <> None -> conti_inv w users ->
  conti_mem_allocator_free_poisoned ops w = (r, w') ->
  conti_inv w' users /\ granu (wa w') = granu (wa w).
Proof.
  intros Hf [Hg Hc Hcl Hp] H. unfold conti_mem_allocator_free_poisoned in H.
  destruct (op_pool_free_memseg ops) eqn:Hop; [|done]. injection H as _ <-.
  match goal with |- context [free_nodes ops ?w0 ?l] =>
    destruct (free_nodes_spec l w0) as (Ha & Hgot & Hfr); [by rewrite Hop|] end.
  split; [split|]; rewrite ?Ha; simpl; try done.
  rewrite Hgot, Hfr. simpl. rewrite Hp. unfold held. simpl. perm.
Qed.

Lemma free_memory_inv (w : world E) (head rest : list memseg_node) :
  op_pool_free_memseg ops <> None -> conti_inv w (head ++ rest) ->
  conti_inv (conti_free_memory ops w head) rest /\
  granu (wa (conti_free_memory ops w head)) = granu (wa w).
Proof.
  intros Hf [Hg Hc Hcl Hp]. unfold conti_free_memory.
  destruct (free_nodes_spec head w) as (Ha & Hgot & Hfr); [done|].
  split; [split|]; simpl; rewrite ?Ha; simpl; try done.
  - counters.
  - rewrite Hgot, Hfr, Hp. unfold held. perm.
Qed.

Lemma take_addr_spec (addr : Z) (l : list memseg_node) : forall n r,
  take_addr addr l = Some (n, r) ->
  exists l1 l2, l = l1 ++ n :: l2 /\ r = l1 ++ l2 /\ ms_addr n = addr.
Proof.
  induction l as [|x l IH]; intros n r H; simpl in H; [done|].
  destruct (Z.eqb_spec (ms_addr x) addr).
  - injection H as <- <-. exists [], l. done.
  - destruct (take_addr addr l) as [[x0 r0]|] eqn:Ht; [|done].
    injection H as <- <-. destruct (IH _ _ eq_refl) as (l1 & l2 & -> & -> & ?).
    exists (x :: l1), l2. done.
Qed.

Lemma isolate_inv (w : world E) users addr r a' :
  conti_inv w users -> conti_mem_allocator_isolate_memseg (wa w) addr = (r, a') ->
  conti_inv (with_wa w a') users /\ granu a' = granu (wa w).
Proof.
  intros [Hg Hc Hcl Hp] H. unfold conti_mem_allocator_isolate_memseg in H.
  destruct (negb _); [by injection H as <- <-|].
  destruct (take_addr _ (memseg_ready _)) as [[n rdy]|] eqn:Hr; [|
    destruct (take_addr _ (memseg_uncleared _)) as [[n unc]|] eqn:Hu; [|by injection H as <- <-]].
  - apply take_addr_spec in Hr as (l1 & l2 & Hr & -> & _). injection H as <- <-.
    split; [split|]; simpl; try done.
    + unfold counters_ok in Hc. rewrite Hr in Hc. counters.
    + rewrite Hr, Forall_app, Forall_cons in Hcl. apply Forall_app. tauto.
    + rewrite Hp. unfold held. rewrite Hr. simpl. perm.
  - apply take_addr_spec in Hu as (l1 & l2 & Hu & -> & _). injection H as <- <-.
    split; [split|]; simpl; try done.
    + unfold counters_ok in Hc. rewrite Hu in Hc. counters.
    + rewrite Hp. unfold held. rewrite Hu. simpl. perm.
Qed.

Lemma clear_take_inv (w : world E) users :
  memseg_clearing (wa w) = None -> conti_inv w users ->
  conti_inv (with_wa w (clear_take (wa w))) users /\ granu (clear_take (wa w)) = granu (wa w).
Proof.
  intros Hn [Hg Hc Hcl Hp]. unfold clear_take.
  destruct (memseg_uncleared (wa w)) as [|n rest] eqn:Hu; [done|].
  split; [split|]; simpl; try done.
  - unfold counters_ok in Hc. rewrite Hu, Hn in Hc. counters.
  - rewrite Hp. unfold held. rewrite Hu, Hn. simpl. perm.
Qed.

Lemma clear_put_inv (w : world E) users :
  conti_inv w users -> conti_inv (clear_put ops w) users /\
  granu (wa (clear_put ops w)) = granu (wa w).
Proof.
  intros [Hg Hc Hcl Hp]. unfold clear_put.
  destruct (memseg_clearing (wa w)) as [n|] eqn:Hn; [|done].
  destruct (conti_clear_memseg ops w n) as [[ret n'] w1] eqn:Hm.
  apply clear_memseg_key in Hm as (Hk & Ha & Hgot & Hfr & Hz).
  unfold ctrue. destruct (Z.eqb_spec ret 0); simpl; (split; [split|]); simpl; rewrite ?Ha; simpl; try done.
  - unfold counters_ok in Hc. rewrite Hn in Hc. counters.
  - constructor; auto.
  - rewrite Hgot, Hfr, Hp. unfold held. rewrite Hn. simpl. rewrite !map_app. simpl. rewrite Hk. perm.
  - unfold counters_ok in Hc. rewrite Hn in Hc. counters.
  - rewrite Hgot, Hfr, Hp. unfold held. rewrite Hn. simpl. rewrite !map_app. simpl. rewrite Hk. perm.
Qed.

Lemma clear_put_none (w : world E) : memseg_clearing (wa (clear_put ops w)) = None.
Proof.
  unfold clear_put. destruct (memseg_clearing (wa w)) eqn:Hn; [|done].
  destruct (conti_clear_memseg _ _ _) as [[ret n'] w1]. by destruct (ctrue ret).
Qed.

(** ** Allocation *)

Lemma alloc_walk_spec (g q : Z) (l : list memseg_node) : forall p t r al,
  0 < g -> 0 <= p <= q -> q * g < 2 ^ 64 -> alloc_walk g (q * g) (p * g) l = (t, r, al) ->
  l = t ++ r /\ al = (p + Z.of_nat (length t)) * g /\ p + Z.of_nat (length t) <= q /\
  (al < q * g -> r = []).
Proof.
  induction l as [|n l IH]; intros p t r al Hg Hp Hq H; simpl in H.
  - injection H as <- <- <-. simpl. split_and!; [done|lia|lia|done].
  - destruct (Z.leb_spec (q * g) (p * g)).
    + injection H as <- <- <-. simpl. split_and!; [done|lia|lia|lia].
    + assert (p < q) by nia.
      replace (u64 (p * g + g)) with ((p + 1) * g) in H
        by (rewrite uwrap_small by nia; lia).
      destruct (alloc_walk g (q * g) ((p + 1) * g) l) as [[t0 r0] al0] eqn:Hw.
      injection H as <- <- <-.
      apply IH in Hw as (-> & -> & ? & ?); [|lia|lia|lia].
      simpl length. split_and!; [done|lia|lia|done].
Qed.

Lemma clear_nodes_spec (l : list memseg_node) : forall (w : world E) l' w',
  clear_nodes ops w l = (l', w') ->
  map ms_key l' = map ms_key l /\ wa w' = wa w /\ w_got w' = w_got w /\ w_freed w' = w_freed w.
Proof.
  induction l as [|n l IH]; intros w l' w' H; simpl in H.
  - by injection H as <- <-.
  - destruct (conti_clear_memseg ops w n) as [[ret n'] w1] eqn:Hm.
    destruct (clear_nodes ops w1 l) as [l2 w2] eqn:Hl. injection H as <- <-.
    apply IH in Hl as (? & -> & -> & ->).
    apply clear_memseg_key in Hm as (Hk & -> & -> & -> & _).
    simpl. rewrite Hk. split_and!; [by f_equal|done..].
Qed.

(** The slow path: with [fuel] at least the number of segments wanted it returns,
    it adds fresh segments to [head], and gives back the one it fails to clear. *)
Lemma slow_loop_spec (clear : bool) (fuel : nat) : forall (w : world E) q head p,
  op_pool_free_memseg ops <> None -> 0 < granu (wa w) -> 0 <= q <= Z.of_nat fuel -> 0 <= p ->
  (p + q) * granu (wa w) < 2 ^ 64 ->
  exists l dropped w',
    slow_loop ops fuel w (q * granu (wa w)) head clear (p * granu (wa w)) =
      Some ((p + Z.of_nat (length l)) * granu (wa w), head ++ l, w') /\
    Z.of_nat (length l) <= q /\ wa w' = wa w /\
    w_got w' = w_got w ++ map ms_key l ++ dropped /\ w_freed w' = w_freed w ++ dropped.
Proof.
  induction fuel as [|fuel IH]; intros w q head p Hf Hg Hq Hp Hb; cbn [slow_loop].
  - assert (q = 0) as -> by lia. simpl. exists [], [], w.
    rewrite !app_nil_r, Z.add_0_r. done.
  - destruct (Z.eqb_spec (q * granu (wa w)) 0) as [Hz|Hz].
    { exists [], [], w. rewrite !app_nil_r, Z.add_0_r. split_and!; [done|simpl; lia|done..]. }
    destruct (conti_pool_alloc_memseg ops w) as [[node|] w1] eqn:Ha;
      apply alloc_memseg_spec in Ha as (Ha & Hfr & Hgot); simpl in Hgot.
    2: { exists [], [], w1. rewrite Hgot, Hfr, !app_nil_r, Z.add_0_r.
         split_and!; [done|simpl; lia|done..]. }
    destruct (if clear then _ else _) as [[ret node'] w2] eqn:Hc.
    assert (ms_key node' = ms_key node /\ wa w2 = wa w /\ w_got w2 = w_got w1 /\
      w_freed w2 = w_freed w1) as (Hk & Ha2 & Hg2 & Hf2).
    { destruct clear; [|by injection Hc as <- <- <-].
      apply clear_memseg_key in Hc as (? & ? & ? & ? & _). by rewrite <- Ha. }
    destruct (ret <? 0).
    { exists [], [ms_key node'], (conti_pool_free_memseg ops w2 node').
      unfold conti_pool_free_memseg. destruct (op_pool_free_memseg ops); [|done]. simpl.
      rewrite Ha2, Hg2, Hf2, Hgot, Hfr, Hk, app_nil_r, Z.add_0_r.
      split_and!; [done|lia|done..]. }
    assert (q > 0) by nia.
    destruct (IH w2 (q - 1) (head ++ [node']) (p + 1)) as (l & d & w' & He & Hl & Hw & Hgo & Hfo);
      [done|rewrite Ha2; done|lia|lia|rewrite Ha2; nia|].
    rewrite Ha2 in He.
    replace (u64 (q * granu (wa w) - granu (wa w2))) with ((q - 1) * granu (wa w))
      by (rewrite Ha2, uwrap_small by nia; lia).
    replace (u64 (p * granu (wa w) + granu (wa w2))) with ((p + 1) * granu (wa w))
      by (rewrite Ha2, uwrap_small by nia; lia).
    exists (node' :: l), d, w'. rewrite He, Hw, Hgo, Hfo, Hg2, Hf2, Hgot, Hfr. simpl.
    rewrite Hk, <- !app_assoc. simpl.
    split_and!; [do 3 f_equal; lia|lia|by rewrite Ha2|done|done].
Qed.

(** The segments [conti_alloc_memory] may take without the backing allocator. *)
Definition usable (a : conti_mem_allocator) (clear allow_slow : bool) : list memseg_node :=
  if clear && negb allow_slow then memseg_ready a else memseg_ready a ++ memseg_uncleared a.

(** [tr] and [tu] are the segments taken from the ready and the uncleared list,
    [ready] and [uncleared] what stays there. *)
Record taken (w : world E) (q : Z) (clear allow_slow : bool) (head : list memseg_node)
    (w' : world E) (tr tu ready uncleared : list memseg_node) : Prop := {
  tk_ready : memseg_ready (wa w) = tr ++ ready;
  tk_uncleared : memseg_uncleared (wa w) = tu ++ uncleared;
  tk_count : Z.of_nat (length tr + length tu) =
    Z.min q (Z.of_nat (length (usable (wa w) clear allow_slow)));
  tk_keys : map ms_key head ≡ₚ map ms_key (tr ++ tu);
  tk_clean : clear = true -> exists w0 tu', clear_nodes ops w0 tu = (tu', w') /\ head = tu' ++ tr;
  tk_fast : clear = true -> allow_slow = false -> tu = [];
  tk_alloc : let g := granu (wa w) in wa w' =
    add_counters (add_counters (set_lists (wa w) ready uncleared (memseg_clearing (wa w))
                                  (memseg_poisoned (wa w)))
                    0 0 (- u64 (Z.of_nat (length tr) * g)) (- u64 (Z.of_nat (length tu) * g)))
      0 (Z.of_nat (length tr + length tu) * g) 0 0;
  tk_got : w_got w' = w_got w;
  tk_freed : w_freed w' = w_freed w;
}.

Lemma alloc_from_pools_taken (w : world E) (q : Z) (clear allow_slow : bool) al head w' :
  0 < granu (wa w) -> 0 <= q -> q * granu (wa w) < 2 ^ 64 ->
  alloc_from_pools ops w (q * granu (wa w)) clear allow_slow = (al, head, w') ->
  exists tr tu ready uncleared,
    al = Z.of_nat (length tr + length tu) * granu (wa w) /\
    taken w q clear allow_slow head w' tr tu ready uncleared.
Proof.
  intros Hg Hq Hb H. unfold alloc_from_pools in H.
  destruct (alloc_walk (granu (wa w)) _ 0 _) as [[t1 r1] al1] eqn:H1.
  apply (alloc_walk_spec (granu (wa w)) q _ 0) in H1 as (E1 & -> & Hl1 & Hr1); [|lia..].
  assert (Hfull : forall k, k < q -> k * granu (wa w) < q * granu (wa w)) by nia.
  destruct clear; [destruct allow_slow|].
  - destruct (alloc_walk _ _ _ (memseg_uncleared _)) as [[t2 r2] al2] eqn:H2.
    apply alloc_walk_spec in H2 as (E2 & -> & Hl2 & Hr2); [|lia..]. simpl in H.
    destruct (clear_nodes _ _ _) as [t2' w1] eqn:H3. injection H as <- <- <-.
    pose proof (clear_nodes_spec _ _ _ _ H3) as (Hk & Ha & Hgot & Hfr).
    exists t1, t2, r1, r2. split; [f_equal; lia|]. split; try done; unfold usable; simpl.
    + rewrite E1, E2. len. destruct (decide (Z.of_nat (length t1 + length t2) < q)) as [Hlt|]; [|lia].
      rewrite (Hr1 ltac:(apply Hfull; lia)), (Hr2 ltac:(apply Hfull; lia)). simpl. lia.
    + rewrite !map_app, Hk. apply Permutation_app_comm.
    + intros _. eauto.
    + rewrite Ha. simpl. repeat f_equal; lia.
  - simpl in H. injection H as <- <- <-.
    exists t1, [], r1, (memseg_uncleared (wa w)). split; [f_equal; simpl; lia|].
    split; try done; unfold usable; simpl.
    + rewrite E1. len. destruct (decide (Z.of_nat (length t1) < q)) as [Hlt|]; [|lia].
      rewrite (Hr1 ltac:(apply Hfull; lia)). simpl. lia.
    + by rewrite app_nil_r.
    + intros _. eexists _, []. done.
    + repeat f_equal; lia.
  - destruct (alloc_walk _ _ _ (memseg_ready _)) as [[t2 r2] al2] eqn:H2.
    apply alloc_walk_spec in H2 as (E2 & -> & Hl2 & Hr2); [|lia..]. simpl in H.
    injection H as <- <- <-.
    exists t2, t1, r2, r1. split; [f_equal; lia|]. split; try done; unfold usable; simpl.
    + rewrite E1, E2. len. destruct (decide (Z.of_nat (length t1 + length t2) < q)) as [Hlt|]; [|lia].
      rewrite (Hr1 ltac:(apply Hfull; lia)), (Hr2 ltac:(apply Hfull; lia)). simpl. lia.
    + repeat f_equal; lia.
Qed.

Lemma taken_inv (w : world E) users q clear allow_slow head w' tr tu ready uncleared :
  conti_inv w users -> taken w q clear allow_slow head w' tr tu ready uncleared ->
  length head = (length tr + length tu)%nat /\ granu (wa w') = granu (wa w) /\
  conti_inv w' (head ++ users).
Proof.
  intros [Hg Hc Hcl Hp] [Hr Hu Hn Hk _ _ Ha Hgot Hfr]. simpl in Ha.
  pose proof (Permutation_length Hk) as Hl. rewrite !length_map in Hl. len.
  rewrite Ha. split_and!; [done..|]. split; rewrite ?Ha; simpl; try done.
  - unfold counters_ok in Hc. rewrite Hr, Hu in Hc. len. rewrite Hl. counters.
  - rewrite Hr in Hcl. apply Forall_app in Hcl. tauto.
  - rewrite Hgot, Hfr, Hp. unfold held. rewrite Hr, Hu. simpl. rewrite !map_app.
    rewrite Hk, !map_app. perm.
Qed.

Lemma alloc_memory_inv (fuel : nat) (w : world E) users (q : Z) (clear allow_slow : bool) :
  op_pool_free_memseg ops <> None -> conti_inv w users -> 0 <= q <= Z.of_nat fuel ->
  q * granu (wa w) < 2 ^ 64 ->
  exists head w',
    conti_alloc_memory ops fuel w (q * granu (wa w)) clear allow_slow =
      Some (Z.of_nat (length head) * granu (wa w), head, w') /\
    Z.min q (Z.of_nat (length (usable (wa w) clear allow_slow))) <= Z.of_nat (length head) <= q /\
    granu (wa w') = granu (wa w) /\ conti_inv w' (head ++ users).
Proof.
  intros Hf Hi Hq Hb. unfold conti_alloc_memory. pose proof (inv_granu _ _ Hi) as Hg.
  destruct (alloc_from_pools ops w _ clear allow_slow) as [[al head] w1] eqn:Hap.
  apply alloc_from_pools_taken in Hap as (tr & tu & rd & uc & -> & Ht); [|lia..].
  pose proof (tk_count _ _ _ _ _ _ _ _ _ _ Ht) as Hn.
  destruct (taken_inv _ _ _ _ _ _ _ _ _ _ _ Hi Ht) as (Hl & Hgr & Hi1).
  rewrite <- Hl in *. destruct (allow_slow && _) eqn:Hs.
  2: { exists head, w1. split_and!; try done; lia. }
  bprop. unfold conti_alloc_memory_slow.
  replace (u64 (q * granu (wa w) - Z.of_nat (length head) * granu (wa w)))
    with ((q - Z.of_nat (length head)) * granu (wa w1))
    by (rewrite Hgr, uwrap_small by nia; lia).
  destruct (slow_loop_spec clear fuel w1 (q - Z.of_nat (length head)) head 0)
    as (l & d & w2 & He & Hl2 & Ha2 & Hg2 & Hf2); [done|lia|lia|lia|rewrite Hgr; nia|].
  rewrite Z.mul_0_l in He. rewrite He. simpl.
  exists (head ++ l). eexists. rewrite Ha2, Hgr. len. split_and!; try lia.
  - rewrite uwrap_small by nia. rewrite <- Z.mul_add_distr_r, Z.add_0_l, Nat2Z.inj_add. reflexivity.
  - done.
  - destruct Hi1 as [_ Hc1 Hcl1 Hp1]. split; simpl; rewrite ?Ha2, ?Hgr; try done.
    + rewrite <- Hgr. counters.
    + rewrite Hg2, Hf2, Hp1. unfold held. simpl. perm.
Qed.

(** ** Zeroed memory *)

(** The clearing callback exists and never fails. *)
Definition clear_total : Prop :=
  exists f, op_clear_memseg ops = Some f /\ forall e a n, (f e a n).1 = 0.

Lemma clear_memseg_total (w : world E) (n : memseg_node) ret n' w' :
  clear_total -> conti_clear_memseg ops w n = (ret, n', w') -> ms_clean n' = true.
Proof.
  intros (f & Hf & H0) H. unfold conti_clear_memseg in H. rewrite Hf in H.
  pose proof (H0 (we w) (wa w) n) as Hr. destruct (f _ _ n) as [r e]. simpl in Hr. subst r.
  by injection H as <- <- <-.
Qed.

Abbreviation all_clean := (Forall (fun n => ms_clean n = true)).

Lemma clear_nodes_total (l : list memseg_node) : forall (w : world E) l' w',
  clear_total -> clear_nodes ops w l = (l', w') -> all_clean l'.
Proof.
  induction l as [|n l IH]; intros w l' w' Ht H; simpl in H.
  - by injection H as <- <-.
  - destruct (conti_clear_memseg ops w n) as [[ret n'] w1] eqn:Hm.
    destruct (clear_nodes ops w1 l) as [l2 w2] eqn:Hl. injection H as <- <-.
    constructor; [by eapply clear_memseg_total|by eapply IH].
Qed.

Lemma slow_loop_total (fuel : nat) : forall (w : world E) size head al r,
  clear_total -> all_clean head -> slow_loop ops fuel w size head true al = Some r ->
  all_clean r.1.2.
Proof.
  induction fuel as [|fuel IH]; intros w size head al r Ht Hh H; cbn [slow_loop] in H;
    (destruct (size =? 0); [by injection H as <-|]); [done|].
  destruct (conti_pool_alloc_memseg ops w) as [[node|] w1]; [|by injection H as <-].
  destruct (conti_clear_memseg ops w1 node) as [[ret n'] w2] eqn:Hm.
  destruct (ret <? 0); [by injection H as <-|].
  eapply IH; [done| |done]. apply Forall_app. split; [done|].
  constructor; [by eapply clear_memseg_total|done].
Qed.

Lemma alloc_memory_clean (fuel : nat) (w : world E) users (q : Z) (allow_slow : bool) r :
  conti_inv w users -> 0 <= q -> q * granu (wa w) < 2 ^ 64 ->
  allow_slow = false \/ clear_total ->
  conti_alloc_memory ops fuel w (q * granu (wa w)) true allow_slow = Some r -> all_clean r.1.2.
Proof.
  intros Hi Hq Hb Ht H. unfold conti_alloc_memory in H.
  pose proof (inv_granu _ _ Hi) as Hg.
  destruct (alloc_from_pools ops w _ true allow_slow) as [[al head] w1] eqn:Hap.
  apply alloc_from_pools_taken in Hap as (tr & tu & rd & uc & -> & Htk); [|lia..].
  pose proof (inv_clean _ _ Hi) as Hcl.
  rewrite (tk_ready _ _ _ _ _ _ _ _ _ _ Htk) in Hcl. apply Forall_app in Hcl as [Hcl _].
  destruct (tk_clean _ _ _ _ _ _ _ _ _ _ Htk eq_refl) as (w0 & tu' & Hc & ->).
  assert (all_clean (tu' ++ tr)) as Hh.
  { apply Forall_app. split; [|done]. destruct Ht as [->|Ht].
    - rewrite (tk_fast _ _ _ _ _ _ _ _ _ _ Htk eq_refl eq_refl) in Hc.
      by injection Hc as <- _.
    - by eapply clear_nodes_total. }
  destruct (allow_slow && _) eqn:Hs; [|by injection H as <-].
  destruct Ht as [->|Ht]; [done|]. unfold conti_alloc_memory_slow in H.
  destruct (slow_loop ops fuel w1 _ _ true 0) as [[[al2 h2] w2]|] eqn:Hsl; [|done].
  injection H as <-. simpl. eapply (slow_loop_total _ _ _ _ _ (al2, h2, w2)); done.
Qed.

(** ** The threads, and the system of the allocator and its users *)

(** Documented contract of the callbacks: segments can be given back, and sizes are
    of type [size_t]. *)
Record ops_ok : Prop := {
  ok_free : op_pool_free_memseg ops <> None;
  ok_contract : forall f e a, op_contract_size ops = Some f -> 0 <= f e a < 2 ^ 64;
  ok_expand : forall f e a, op_expand_size ops = Some f -> 0 <= f e a < 2 ^ 64;
}.

Lemma pool_thread_inv paused (w : world E) users :
  ops_ok -> conti_inv w users ->
  conti_inv (conti_pool_thread ops paused w) users.
Proof.
  intros [Hf Hc He] Hi. unfold conti_pool_thread. cbv zeta.
  set (w1 := if conti_has_poisoned_memseg w then _ else _).
  assert (conti_inv w1 users) as Hi1.
  { unfold w1. destruct (conti_has_poisoned_memseg w); [|done].
    destruct (conti_mem_allocator_free_poisoned ops w) as [r w'] eqn:H.
    by eapply free_poisoned_inv in H as [? _]. }
  clearbody w1. set (w2 := if conti_need_contract ops w1 then _ else _).
  assert (conti_inv w2 users) as Hi2.
  { unfold w2. destruct (conti_need_contract ops w1); [|done].
    destruct (Z.ltb_spec 0 (conti_contract_size ops w1)); [|done].
    destruct (conti_mem_allocator_contract ops w1 _) as [r w'] eqn:H'.
    eapply contract_inv in H' as [? _]; try done.
    unfold conti_contract_size. destruct (op_contract_size ops) eqn:?; [eauto|lia]. }
  clearbody w2. destruct (conti_need_expand ops w2); [|done].
  destruct (Z.ltb_spec 0 (conti_expand_size ops w2)); [|done].
  destruct (conti_mem_allocator_expand ops paused w2 _) as [r w'] eqn:H'.
  eapply expand_inv in H' as [? _]; [done..|lia].
Qed.

(** The steps of the system: [conti_clear_thread] alternates [clear_take] and
    [clear_put]; users allocate multiples of [granu] and give back what they hold. *)
Inductive conti_step : world E * list memseg_node -> world E * list memseg_node -> Prop :=
  | step_pool_thread paused w users :
      conti_step (w, users) (conti_pool_thread ops paused w, users)
  | step_expand paused w users size :
      0 <= size < 2 ^ 64 ->
      conti_step (w, users) ((conti_mem_allocator_expand ops paused w size).2, users)
  | step_contract w users size :
      0 <= size < 2 ^ 64 ->
      conti_step (w, users) ((conti_mem_allocator_contract ops w size).2, users)
  | step_clear_take w users :
      memseg_clearing (wa w) = None ->
      conti_step (w, users) (with_wa w (clear_take (wa w)), users)
  | step_clear_put w users :
      conti_step (w, users) (clear_put ops w, users)
  | step_isolate w users addr :
      conti_step (w, users)
        (with_wa w (conti_mem_allocator_isolate_memseg (wa w) addr).2, users)
  | step_alloc fuel w users q clear allow_slow size head w' :
      0 <= q <= Z.of_nat fuel -> q * granu (wa w) < 2 ^ 64 ->
      conti_alloc_memory ops fuel w (q * granu (wa w)) clear allow_slow = Some (size, head, w') ->
      conti_step (w, users) (w', head ++ users)
  | step_free w users head rest :
      users ≡ₚ head ++ rest ->
      conti_step (w, users) (conti_free_memory ops w head, rest).

Lemma conti_inv_perm (w : world E) (u1 u2 : list memseg_node) :
  u1 ≡ₚ u2 -> conti_inv w u1 -> conti_inv w u2.
Proof.
  intros Hu [Hg Hc Hcl Hp]. split; try done.
  - by rewrite <- (Permutation_length Hu).
  - rewrite Hp, Hu. done.
Qed.

Lemma conti_step_inv s1 s2 :
  ops_ok -> conti_step s1 s2 -> conti_inv s1.1 s1.2 -> conti_inv s2.1 s2.2.
Proof.
  intros Hok Hs Hi. pose proof (ok_free Hok) as Hf.
  destruct Hs as [| | | | | |fuel w users q c sl size head w' Hq Hb H|]; simpl in *.
  - by apply pool_thread_inv.
  - destruct (conti_mem_allocator_expand _ _ _ _) eqn:H'. eapply expand_inv in H' as [? _]; [done..|lia].
  - destruct (conti_mem_allocator_contract _ _ _) eqn:H'. by eapply contract_inv in H' as [? _].
  - by eapply clear_take_inv.
  - by eapply clear_put_inv.
  - destruct (conti_mem_allocator_isolate_memseg _ _) eqn:H'. by eapply isolate_inv in H' as [? _].
  - destruct (alloc_memory_inv fuel w users q c sl Hf Hi Hq Hb) as (h & w2 & E2 & _ & _ & ?).
    rewrite E2 in H. by injection H as <- <- <-.
  - eapply free_memory_inv; [done|]. by eapply conti_inv_perm.
Qed.

Lemma conti_rtc_inv s1 s2 :
  ops_ok -> rtc conti_step s1 s2 -> conti_inv s1.1 s1.2 -> conti_inv s2.1 s2.2.
Proof. intros Hok. induction 1; eauto using conti_step_inv. Qed.

Lemma init_success env a0 nid granu a :
  conti_mem_allocator_init env (Some a0) nid granu (Some ops) = (0, Some a) ->
  0 <= granu < 2 ^ 64 -> forall e : E,
  conti_inv {| wa := a; we := e; w_got := []; w_freed := [] |} [] /\
  initialized a = true /\ pool_work a = true /\ name a = true /\
  clear_work a = (if op_clear_memseg ops is Some _ then true else false).
Proof.
  intros H Hg e. unfold conti_mem_allocator_init in H.
  destruct (op_need_expand ops), (op_expand_size ops); try done.
  destruct (negb _ || _) eqn:Hb; [done|]. apply orb_false_elim in Hb as [_ Hb]. bprop.
  destruct (ie_name_ok env); [|done]. simpl in H. unfold clear_thread_init, pool_thread_init in H.
  destruct (op_clear_memseg ops), (ie_clear_thread_ok env), (ie_pool_thread_ok env),
    (ie_parent env); unfold ENODEV in H; simpl in H; try done;
  repeat match type of H with context [ctrue ?x] =>
    destruct (ctrue x) eqn:?; [injection H as Hx _; rewrite Hx in *; done|] end;
  injection H as <-; (split; [split; simpl; try done; [lia|]|done]);
  unfold counters_ok; simpl; change (Z.of_nat 0) with 0;
  rewrite ?Z.add_0_r, Z.mul_0_r; done.
Qed.
End ContiLemmas.

(** ** Properties *)

(** A backing allocator over a counter: segments at increasing addresses, clearing
    fails exactly when [bad]. *)
Definition demo_ops (bad : bool) : conti_mempool_ops Z :=
  {| op_clear_memseg := Some (fun e _ _ => (if bad then - EBUSY else 0, e));
     op_pool_free_memseg := Some (fun e _ _ => e);
     op_pool_alloc_memseg := Some (fun e a => (Some (e, granu a), e + granu a));
     op_need_contract := None; op_contract_size := None;
     op_need_expand := Some (fun _ _ => true); op_expand_size := Some (fun _ _ => 2 * PAGE_SIZE) |}.

Definition demo_env : init_env :=
  {| ie_name_ok := true; ie_clear_thread_ok := true; ie_pool_thread_ok := true;
     ie_parent := false; ie_kobj_ret := 0; ie_group_ret := 0 |}.

Definition demo_start : world Z :=
  {| wa := set_tasks (fresh_allocator 0 PAGE_SIZE) true false true true true;
     we := 0; w_got := []; w_freed := [] |}.

Lemma demo_ok (bad : bool) : ops_ok (demo_ops bad).
Proof. split; simpl; [done|done|]. by intros f e a [= <-]. Qed.

Lemma demo_init (bad : bool) :
  conti_mem_allocator_init demo_env (Some (fresh_allocator 0 0)) 0 PAGE_SIZE
    (Some (demo_ops bad)) = (0, Some (wa demo_start)).
Proof. reflexivity. Qed.

Lemma demo_inv : conti_inv demo_start [].
Proof. by apply (init_success (demo_ops false) _ _ _ _ _ (demo_init false)). Qed.

(** The allocator after an expansion by two segments. *)
Definition demo_expanded (bad : bool) : world Z :=
  (conti_mem_allocator_expand (demo_ops bad) (fun _ => false) demo_start (2 * PAGE_SIZE)).2.

Lemma demo_expanded_inv (bad : bool) : conti_inv (demo_expanded bad) [].
Proof.
  unfold demo_expanded.
  destruct (conti_mem_allocator_expand (demo_ops bad) _ _ _) as [r w] eqn:H.
  by eapply expand_inv in H as [Hi _]; [exact Hi|exact demo_inv|].
Qed.

(** C28: starting from a successful [conti_mem_allocator_init], after any sequence of
    iterations of the two threads, expansions, contractions, isolations, allocations
    and frees by users, the four counters equal the number of segments in the lists
    and in use times [granu] (modulo the 64-bit wrap-around), every ready segment is
    zeroed, and every segment obtained from the backing allocator is in one list, in
    use, or was given back, exactly once: nothing leaks and nothing is freed twice. *)
Theorem conti_reachable_inv {E} (ops : conti_mempool_ops E) env a0 nid granu a (e : E) w users :
  conti_mem_allocator_init env (Some a0) nid granu (Some ops) = (0, Some a) ->
  0 <= granu < 2 ^ 64 -> ops_ok ops ->
  rtc (conti_step ops) ({| wa := a; we := e; w_got := []; w_freed := [] |}, []) (w, users) ->
  conti_inv w users.
Proof.
  intros Hinit Hg Hok Hr. apply (init_success ops) with (e := e) in Hinit as [Hi _]; [|done].
  exact (conti_rtc_inv ops _ _ Hok Hr Hi).
Qed.

Lemma conti_reachable_inv_witness :
  exists (w : world Z) users, length users = 1%nat /\ length (memseg_uncleared (wa w)) = 1%nat /\
    conti_inv w users.
Proof.
  set (w1 := conti_pool_thread (demo_ops false) (fun _ => false) demo_start).
  set (r := conti_alloc_memory (demo_ops false) 1 w1 (1 * granu (wa w1)) false false).
  destruct r as [[[size head] w2]|] eqn:Hr; [|discriminate Hr].
  exists w2, (head ++ []).
  assert (Hl : length (head ++ []) = 1%nat /\ length (memseg_uncleared (wa w2)) = 1%nat)
    by (injection Hr as _ <- <-; split; reflexivity).
  split; [apply Hl|]. split; [apply Hl|].
  apply (conti_reachable_inv (demo_ops false) demo_env (fresh_allocator 0 0) 0 PAGE_SIZE
    (wa demo_start) 0).
  - exact (demo_init false).
  - done.
  - exact (demo_ok false).
  - apply (rtc_l _ _ (w1, [])); [apply (step_pool_thread (demo_ops false) (fun _ => false))|].
    eapply rtc_once, (step_alloc _ 1 w1 [] 1); [done|reflexivity|exact Hr].
Defined.

(** [conti_alloc_memory] returns for any request that is a multiple of [granu]
    (its slow path takes at most [size / granu] rounds), the size it reports is that
    of the segments handed out, never exceeds the request (the [WARN_ON] at its end
    is dead), and is at least what the lists it may use without the backing allocator
    provide. *)
Theorem conti_alloc_spec {E} (ops : conti_mempool_ops E) (fuel : nat) (w : world E) users
    (size : Z) (clear allow_slow : bool) :
  op_pool_free_memseg ops <> None -> conti_inv w users -> 0 <= size < 2 ^ 64 ->
  (granu (wa w) | size) -> size / granu (wa w) <= Z.of_nat fuel ->
  exists head w', let allocated := Z.of_nat (length head) * granu (wa w) in
    conti_alloc_memory ops fuel w size clear allow_slow = Some (allocated, head, w') /\
    allocated <= size /\
    Z.min size (Z.of_nat (length (usable (wa w) clear allow_slow)) * granu (wa w)) <= allocated /\
    conti_inv w' (head ++ users).
Proof.
  intros Hf Hi Hs [q ->] Hq. pose proof (inv_granu _ _ Hi) as Hg.
  rewrite Z_div_mult in Hq by lia.
  destruct (alloc_memory_inv ops fuel w users q clear allow_slow)
    as (head & w' & -> & Hn & _ & Hi'); [done..|nia|lia|].
  exists head, w'. simpl. split_and!; [done|nia|nia|done].
Qed.

Lemma conti_alloc_spec_witness :
  exists head w', conti_alloc_memory (demo_ops false) 2 demo_start (2 * PAGE_SIZE) true true
      = Some (Z.of_nat (length head) * PAGE_SIZE, head, w') /\ length head = 2%nat /\
    conti_inv w' (head ++ []).
Proof.
  destruct (conti_alloc_spec (demo_ops false) 2 demo_start [] (2 * PAGE_SIZE) true true)
    as (head & w' & He & _ & _ & Hi); [done|exact demo_inv|done|by exists 2|done|].
  exists head, w'. split; [exact He|]. split; [|exact Hi]. injection He as _ Hh _.
  by rewrite <- Hh.
Defined.

(** Memory requested with [clear] is zeroed: always when it comes from the ready
    list only ([allow_slow] false), and in general when the clearing callback does not
    fail. *)
Theorem conti_alloc_clean {E} (ops : conti_mempool_ops E) (fuel : nat) (w : world E) users
    (size : Z) (allow_slow : bool) :
  op_pool_free_memseg ops <> None -> conti_inv w users -> 0 <= size < 2 ^ 64 ->
  (granu (wa w) | size) -> size / granu (wa w) <= Z.of_nat fuel ->
  allow_slow = false \/ clear_total ops ->
  exists allocated head w',
    conti_alloc_memory ops fuel w size true allow_slow = Some (allocated, head, w') /\
    Forall (fun n => ms_clean n = true) head.
Proof.
  intros Hf Hi Hs [q ->] Hq Ht. pose proof (inv_granu _ _ Hi) as Hg.
  rewrite Z_div_mult in Hq by lia.
  destruct (alloc_memory_inv ops fuel w users q true allow_slow)
    as (head & w' & He & _ & _ & _); [done..|nia|lia|].
  eexists _, head, w'. split; [exact He|].
  eapply (alloc_memory_clean ops fuel w users q allow_slow (_, head, w')); [done|nia|lia|done|done].
Qed.

Lemma conti_alloc_clean_witness :
  exists allocated head w',
    conti_alloc_memory (demo_ops false) 2 demo_start (2 * PAGE_SIZE) true true
      = Some (allocated, head, w') /\ Forall (fun n => ms_clean n = true) head.
Proof.
  apply (conti_alloc_clean (demo_ops false) 2 demo_start [] (2 * PAGE_SIZE) true);
    [done|exact demo_inv|done|by exists 2|done|].
  right. eexists. split; [reflexivity|done].
Defined.

(** When clearing fails, [conti_alloc_memory] still hands out, as zeroed, the
    memory it takes from the uncleared list: it ignores the result of
    [conti_clear_memseg], which its slow path checks. *)
Theorem conti_alloc_unclean :
  let w := demo_expanded true in
  exists head w', conti_inv w [] /\
    conti_alloc_memory (demo_ops true) 2 w (2 * PAGE_SIZE) true true
      = Some (2 * PAGE_SIZE, head, w') /\
    Forall (fun n => ms_clean n = false) head /\ length head = 2%nat.
Proof.
  eexists _, _. split; [apply demo_expanded_inv|].
  split; [reflexivity|]. split; [repeat constructor|reflexivity].
Qed.

(** [conti_mem_allocator_contract] frees a prefix of the uncleared list and then
    one of the ready list, which it only touches once the former is empty; the size it
    returns is what it freed, at most the request, and less only when both lists are
    exhausted. *)
Theorem conti_contract_order {E} (ops : conti_mempool_ops E) (w : world E) users (size : Z) :
  op_pool_free_memseg ops <> None -> conti_inv w users -> 0 < size < 2 ^ 64 ->
  (granu (wa w) | size) ->
  exists m1 m2 w', let k := Z.of_nat (length m1 + length m2) * granu (wa w) in
    conti_mem_allocator_contract ops w size = (k, w') /\
    memseg_uncleared (wa w) = m1 ++ memseg_uncleared (wa w') /\
    memseg_ready (wa w) = m2 ++ memseg_ready (wa w') /\
    w_freed w' = w_freed w ++ map ms_key (m1 ++ m2) /\
    (m2 <> [] -> memseg_uncleared (wa w') = []) /\
    k <= size /\ (k < size -> memseg_uncleared (wa w') = [] /\ memseg_ready (wa w') = []) /\
    conti_inv w' users.
Proof.
  intros Hf Hi Hs Hd. pose proof (inv_granu _ _ Hi) as Hg.
  destruct (contract_spec ops w size) as (m1 & m2 & unc & rdy & w' & He & Hu & Hr & Ho & Hk & Hx
    & Ha & _ & Hfr); [done|lia|lia|done|].
  destruct (contract_inv ops w users size _ _ Hf Hi ltac:(lia) He) as [Hi' _].
  exists m1, m2, w'. rewrite Nat2Z.inj_add. simpl. rewrite Ha in *. simpl.
  split_and!; done.
Qed.

Lemma conti_contract_order_witness :
  let w := demo_expanded false in
  exists w', conti_mem_allocator_contract (demo_ops false) w (3 * PAGE_SIZE)
    = (2 * PAGE_SIZE, w') /\ memseg_uncleared (wa w') = [].
Proof.
  intros w. pose proof (demo_expanded_inv false) as Hi.
  destruct (conti_contract_order (demo_ops false) w [] (3 * PAGE_SIZE))
    as (m1 & m2 & w' & He & _ & _ & _ & _ & _ & Hx & _); [done|done|done|by exists 3|].
  exists w'. vm_compute in He. injection He as Hn Hw. split.
  - by rewrite <- Hw.
  - by rewrite <- Hw.
Defined.

(** [conti_mem_allocator_deinit] gives back every segment: afterwards each segment
    ever obtained was returned exactly once, except those users still hold. *)
Theorem conti_deinit_returns_all {E} (ops : conti_mempool_ops E) (w : world E) users :
  op_pool_free_memseg ops <> None -> conti_inv w users ->
  clear_work (wa w) = true \/ memseg_clearing (wa w) = None ->
  let w' := conti_mem_allocator_deinit ops w in
  w_got w' ≡ₚ map ms_key users ++ w_freed w' /\
  initialized (wa w') = false /\ clear_work (wa w') = false /\ pool_work (wa w') = false.
Proof.
  intros Hf Hi Hc. unfold conti_mem_allocator_deinit.
  set (w0 := if clear_work (wa w) then _ else w).
  assert (conti_inv w0 users /\ memseg_clearing (wa w0) = None) as [Hi0 Hn].
  { unfold w0. destruct Hc as [Hc|Hc].
    - rewrite Hc. split; [by apply clear_put_inv|by apply clear_put_none].
    - destruct (clear_work (wa w)); [split; [by apply clear_put_inv|by apply clear_put_none]|done]. }
  clearbody w0. destruct (op_pool_free_memseg ops) eqn:Hop; [|done]. simpl.
  match goal with |- context [free_nodes ops ?v ?l] =>
    destruct (free_nodes_spec ops l v) as (Ha & Hg & Hfr); [by rewrite Hop|] end.
  rewrite Ha, Hg, Hfr. simpl. split_and!; try done.
  rewrite (inv_conserve _ _ Hi0). unfold held. rewrite Hn. simpl. rewrite !map_app. solve_Permutation.
Qed.

Lemma conti_deinit_returns_all_witness :
  let w := demo_expanded false in
  w_got (conti_mem_allocator_deinit (demo_ops false) w)
    ≡ₚ w_freed (conti_mem_allocator_deinit (demo_ops false) w).
Proof.
  intros w. pose proof (demo_expanded_inv false) as Hi.
  apply (conti_deinit_returns_all (demo_ops false) w []); [done|done|by left].
Defined.
