(* ===== verification/Ownership.v ===== *)
(** * Ownership counters of an OBMM shared memory region

    [drivers/ub/obmm/obmm_ownership.c] and [obmm_ownership.h] count, per page (or per
    PMD) of a region, how many mappings may read and how many may write it, and infer
    from the change of the counters which cache maintenance a permission change
    needs.  The constants are those of [include/uapi/ub/obmm.h].  Counters are 16 bits
    wide; an access outside the array is [None]. *)

From S2P Require Import Prelude.

(** ** Constants *)

Definition OBMM_SHM_MEM_CACHE_RESV : Z := 0.
Definition OBMM_SHM_MEM_NORMAL : Z := 1.
Definition OBMM_SHM_MEM_NORMAL_NC : Z := 2.
Definition OBMM_SHM_MEM_DEVICE : Z := 3.
Definition OBMM_SHM_MEM_CACHE_MASK : Z := 3.
Definition OBMM_SHM_MEM_READONLY : Z := 0.
Definition OBMM_SHM_MEM_READEXEC : Z := 4.
Definition OBMM_SHM_MEM_READWRITE : Z := 8.
Definition OBMM_SHM_MEM_NO_ACCESS : Z := 12.
Definition OBMM_SHM_MEM_ACCESS_MASK : Z := 12.

Definition OBMM_SHM_CACHE_NONE : Z := 0.
Definition OBMM_SHM_CACHE_INVAL : Z := 1.
Definition OBMM_SHM_CACHE_WB_INVAL : Z := 2.
Definition OBMM_SHM_CACHE_WB_ONLY : Z := 3.
Definition OBMM_SHM_CACHE_INFER : Z := 4.

(** [vm_flags] bits of include/linux/mm.h. *)
Definition VM_READ : Z := 1.
Definition VM_WRITE : Z := 2.
Definition VM_EXEC : Z := 4.
Definition VM_MAYREAD : Z := 16.
Definition VM_MAYWRITE : Z := 32.
Definition VM_MAYSHARE : Z := 128.

(** ** Data *)

Record obmm_page_state := { r_count : Z; w_count : Z }.

Record obmm_ownership_info := { page_states : list obmm_page_state; nentries : Z }.

Inductive obmm_mmap_mode := OBMM_MMAP_INIT | OBMM_MMAP_NORMAL | OBMM_MMAP_OSYNC.
Inductive obmm_mmap_granu := OBMM_MMAP_GRANU_NONE | OBMM_MMAP_GRANU_PAGE | OBMM_MMAP_GRANU_PMD.
Inductive obmm_region_type := OBMM_EXPORT_REGION | OBMM_IMPORT_REGION.

#[export] Instance obmm_mmap_mode_eq_dec : EqDecision obmm_mmap_mode.
Proof. solve_decision. Defined.
#[export] Instance obmm_mmap_granu_eq_dec : EqDecision obmm_mmap_granu.
Proof. solve_decision. Defined.

(** The fields of [struct obmm_region] that mapping and ownership use. *)
Record obmm_region := {
  type : obmm_region_type;
  flags : Z;
  mem_size : Z;
  mmap_mode : obmm_mmap_mode;
  mmap_granu : obmm_mmap_granu;
  mem_cap : Z;
  mmap_count : Z;
  ownership_info : option obmm_ownership_info;
}.

Definition set_mode (r : obmm_region) (m : obmm_mmap_mode) : obmm_region :=
  {| type := type r; flags := flags r; mem_size := mem_size r; mmap_mode := m;
     mmap_granu := mmap_granu r; mem_cap := mem_cap r; mmap_count := mmap_count r;
     ownership_info := ownership_info r |}.
Definition set_granu (r : obmm_region) (g : obmm_mmap_granu) : obmm_region :=
  {| type := type r; flags := flags r; mem_size := mem_size r; mmap_mode := mmap_mode r;
     mmap_granu := g; mem_cap := mem_cap r; mmap_count := mmap_count r;
     ownership_info := ownership_info r |}.
Definition set_count (r : obmm_region) (c : Z) : obmm_region :=
  {| type := type r; flags := flags r; mem_size := mem_size r; mmap_mode := mmap_mode r;
     mmap_granu := mmap_granu r; mem_cap := mem_cap r; mmap_count := c;
     ownership_info := ownership_info r |}.
Definition set_info (r : obmm_region) (i : option obmm_ownership_info) : obmm_region :=
  {| type := type r; flags := flags r; mem_size := mem_size r; mmap_mode := mmap_mode r;
     mmap_granu := mmap_granu r; mem_cap := mem_cap r; mmap_count := mmap_count r;
     ownership_info := i |}.

(** ** Access bits *)

Definition vm_flags_to_access (flags : Z) : Z :=
  if ctrue (Z.land flags VM_WRITE) then OBMM_SHM_MEM_READWRITE
  else if ctrue (Z.land flags VM_READ) then
    if ctrue (Z.land flags VM_EXEC) then OBMM_SHM_MEM_READEXEC else OBMM_SHM_MEM_READONLY
  else OBMM_SHM_MEM_NO_ACCESS.

Definition obmm_access_is_reader (access : Z) : bool :=
  negb (Z.land access OBMM_SHM_MEM_ACCESS_MASK =? OBMM_SHM_MEM_NO_ACCESS).
Definition obmm_access_is_writer (access : Z) : bool :=
  Z.land access OBMM_SHM_MEM_ACCESS_MASK =? OBMM_SHM_MEM_READWRITE.

Definition access_to_vm_flags (access : Z) : Z :=
  let a := Z.land access OBMM_SHM_MEM_ACCESS_MASK in
  if a =? OBMM_SHM_MEM_READWRITE then
    Z.lor (Z.lor VM_READ VM_WRITE) (Z.lor VM_MAYREAD VM_MAYWRITE)
  else if a =? OBMM_SHM_MEM_READEXEC then Z.lor VM_READ VM_MAYREAD
  else if a =? OBMM_SHM_MEM_READONLY then Z.lor VM_READ VM_MAYREAD
  else 0.

Definition vm_flags_to_mem_state (vm_flags : Z) (cacheable : bool) : Z :=
  let access := vm_flags_to_access vm_flags in
  if negb (access =? OBMM_SHM_MEM_NO_ACCESS) then
    Z.lor access (if cacheable then OBMM_SHM_MEM_NORMAL else OBMM_SHM_MEM_NORMAL_NC)
  else access.

(** ** Granularity *)

Definition ownership_pgoff_to_index (reg : obmm_region) (pgoff : Z) : Z :=
  match mmap_granu reg with
  | OBMM_MMAP_GRANU_PMD => Z.shiftr pgoff (PMD_SHIFT - PAGE_SHIFT)
  | _ => pgoff
  end.

Definition ownership_size_to_nentries (reg : obmm_region) (size : Z) : Z :=
  match mmap_granu reg with
  | OBMM_MMAP_GRANU_PMD => Z.shiftr size PMD_SHIFT
  | _ => Z.shiftr size PAGE_SHIFT
  end.

Definition obmm_is_aligned (reg : obmm_region) (addr : Z) : bool :=
  match mmap_granu reg with
  | OBMM_MMAP_GRANU_PMD => IS_ALIGNED addr PMD_SIZE
  | _ => IS_ALIGNED addr PAGE_SIZE
  end.

(** ** Counters *)

Definition merge_cache_ops (ops1 ops2 : Z) : Z :=
  if ops1 =? OBMM_SHM_CACHE_NONE then ops2
  else if ops2 =? OBMM_SHM_CACHE_NONE then ops1
  else if (ops1 =? OBMM_SHM_CACHE_WB_INVAL) || (ops2 =? OBMM_SHM_CACHE_WB_INVAL) then
    OBMM_SHM_CACHE_WB_INVAL
  else if ((ops1 =? OBMM_SHM_CACHE_WB_ONLY) && (ops2 =? OBMM_SHM_CACHE_INVAL)) ||
          ((ops1 =? OBMM_SHM_CACHE_INVAL) && (ops2 =? OBMM_SHM_CACHE_WB_ONLY)) then
    OBMM_SHM_CACHE_WB_INVAL
  else ops1.

(** The four conditional [--] and [++] of [update_page_ownership]. *)
Definition move_counts (page : obmm_page_state) (old_access new_access : Z) : obmm_page_state :=
  let w1 := if obmm_access_is_writer old_access then u16 (w_count page - 1) else w_count page in
  let r1 := if obmm_access_is_reader old_access then u16 (r_count page - 1) else r_count page in
  let w2 := if obmm_access_is_writer new_access then u16 (w1 + 1) else w1 in
  let r2 := if obmm_access_is_reader new_access then u16 (r1 + 1) else r1 in
  {| r_count := r2; w_count := w2 |}.

(** The cache operation inferred from the old and the new counters. *)
Definition infer_op (page page' : obmm_page_state) : Z :=
  if (0 <? w_count page) && (w_count page' =? 0) then
    if 0 <? r_count page' then OBMM_SHM_CACHE_WB_ONLY else OBMM_SHM_CACHE_WB_INVAL
  else if (0 <? r_count page) && (r_count page' =? 0) && (w_count page' =? 0) then
    OBMM_SHM_CACHE_INVAL
  else OBMM_SHM_CACHE_NONE.

Definition update_page_ownership (ownership : obmm_ownership_info) (pgoff : Z)
    (old_access new_access : Z) : option (Z * obmm_ownership_info) :=
  page ← page_states ownership !! Z.to_nat pgoff;
  let page' := move_counts page old_access new_access in
  Some (infer_op page page',
        {| page_states := <[Z.to_nat pgoff := page']> (page_states ownership);
           nentries := nentries ownership |}).

(** The [for] loop of [update_vma_perm_count]. *)
Fixpoint perm_loop (n : nat) (idx : Z) (ownership : obmm_ownership_info)
    (old_access new_access combined : Z) : option (Z * obmm_ownership_info) :=
  match n with
  | O => Some (combined, ownership)
  | S n' =>
    '(op, ownership') ← update_page_ownership ownership idx old_access new_access;
    perm_loop n' (idx + 1) ownership' old_access new_access (merge_cache_ops combined op)
  end.

Definition update_vma_perm_count (reg : obmm_region) (region_pgoff npages : Z)
    (old_access new_access : Z) : option (Z * obmm_region) :=
  match ownership_info reg with
  | None => Some (OBMM_SHM_CACHE_NONE, reg)
  | Some ownership =>
    let start_idx := ownership_pgoff_to_index reg region_pgoff in
    let nent := ownership_size_to_nentries reg (u64 (Z.shiftl npages PAGE_SHIFT)) in
    '(ops, ownership') ← perm_loop (Z.to_nat nent) start_idx ownership old_access new_access
                            OBMM_SHM_CACHE_NONE;
    Some (ops, set_info reg (Some ownership'))
  end.

(** [init_ownership_info]; [kzalloc_ok] and [vzalloc_ok] are the allocations. *)
Definition init_ownership_info (kzalloc_ok vzalloc_ok : bool) (reg : obmm_region)
    : Z * obmm_region :=
  match ownership_info reg with
  | Some _ => (0, reg)
  | None =>
    match mmap_granu reg with
    | OBMM_MMAP_GRANU_NONE => (- EINVAL, reg)
    | _ =>
      if negb kzalloc_ok then (- ENOMEM, reg)
      else
        let n := ownership_size_to_nentries reg (mem_size reg) in
        if negb vzalloc_ok then (- ENOMEM, reg)
        else (0, set_info reg (Some {|
               page_states := replicate (Z.to_nat n) {| r_count := 0; w_count := 0 |};
               nentries := s32 n |}))
    end
  end.

Definition release_ownership_info (reg : obmm_region) : obmm_region :=
  match ownership_info reg with
  | None => reg
  | Some _ => set_info reg None
  end.

(** ** Cache operations as sets of actions *)

Definition writes_back (op : Z) : bool :=
  (op =? OBMM_SHM_CACHE_WB_ONLY) || (op =? OBMM_SHM_CACHE_WB_INVAL).
Definition invalidates (op : Z) : bool :=
  (op =? OBMM_SHM_CACHE_INVAL) || (op =? OBMM_SHM_CACHE_WB_INVAL).
Definition is_op (op : Z) : Prop := 0 <= op <= 3.

Lemma merge_union (a b : Z) :
  is_op a -> is_op b ->
  is_op (merge_cache_ops a b) /\
  writes_back (merge_cache_ops a b) = writes_back a || writes_back b /\
  invalidates (merge_cache_ops a b) = invalidates a || invalidates b.
Proof.
  intros Ha Hb. unfold is_op in *.
  assert (a = 0 \/ a = 1 \/ a = 2 \/ a = 3) as Ha' by lia.
  assert (b = 0 \/ b = 1 \/ b = 2 \/ b = 3) as Hb' by lia.
  destruct Ha' as [->|[->|[->| ->]]], Hb' as [->|[->|[->| ->]]]; vm_compute; repeat split; congruence.
Qed.

Lemma infer_op_bits (p p' : obmm_page_state) :
  0 <= r_count p' -> 0 <= w_count p' ->
  is_op (infer_op p p') /\
  (writes_back (infer_op p p') = true <-> 0 < w_count p /\ w_count p' = 0) /\
  (invalidates (infer_op p p') = true <->
     (0 < r_count p \/ 0 < w_count p) /\ r_count p' = 0 /\ w_count p' = 0).
Proof.
  intros Hr Hw. unfold infer_op, is_op. bdes;
    (split; [vm_compute; split; congruence|]); vm_compute writes_back; vm_compute invalidates;
    split; split; intros; try done; dest; try lia.
Qed.

(** ** The loop over a range of entries *)

Definition in_range (idx : Z) (n : nat) (j : nat) : Prop := idx <= Z.of_nat j < idx + Z.of_nat n.

#[export] Instance in_range_dec idx n j : Decision (in_range idx n j).
Proof. unfold in_range. apply _. Defined.

Lemma perm_loop_spec (old new : Z) (n : nat) : forall idx info c,
  0 <= idx -> idx + Z.of_nat n <= Z.of_nat (length (page_states info)) ->
  exists c' info', perm_loop n idx info old new c = Some (c', info') /\
    length (page_states info') = length (page_states info) /\ nentries info' = nentries info /\
    (forall j, page_states info' !! j =
       if decide (in_range idx n j) then (fun p => move_counts p old new) <$> page_states info !! j
       else page_states info !! j).
Proof.
  induction n as [|n IH]; intros idx info c Hi Hn; simpl.
  - eexists _, _. split; [done|]. split_and!; try done. intros j.
    destruct (decide _) as [Hr|]; [unfold in_range in Hr; lia|done].
  - unfold update_page_ownership.
    destruct (lookup_lt_is_Some_2 (page_states info) (Z.to_nat idx)) as [p Hp]; [lia|].
    rewrite Hp. cbn [mbind option_bind].
    set (info1 := {| page_states := _; nentries := _ |}).
    assert (Hl1 : length (page_states info1) = length (page_states info))
      by (unfold info1; simpl; apply length_insert).
    destruct (IH (idx + 1) info1 (merge_cache_ops c (infer_op p (move_counts p old new))))
      as (c' & info' & -> & Hl & Hne & Hj); [lia|lia|].
    exists c', info'. split; [done|]. split; [by rewrite Hl|]. split; [done|].
    intros j. rewrite Hj. unfold info1. simpl.
    destruct (decide (j = Z.to_nat idx)) as [->|Hne'].
    + rewrite list_lookup_insert_eq by lia. rewrite Hp.
      rewrite !decide_False, decide_True by (unfold in_range; lia). done.
    + rewrite list_lookup_insert_ne by done.
      destruct (decide (in_range (idx + 1) n j)), (decide (in_range idx (S n) j)); try done;
        unfold in_range in *; lia.
Qed.

(** Which actions the combined operation contains. *)
Lemma perm_loop_op (old new : Z) (n : nat) : forall idx info c c' info',
  0 <= idx -> (forall p, p ∈ page_states info -> 0 <= r_count p /\ 0 <= w_count p) ->
  is_op c -> perm_loop n idx info old new c = Some (c', info') ->
  let ops := fun act : Z -> bool => exists j p, in_range idx n j /\ page_states info !! j = Some p /\
    act (infer_op p (move_counts p old new)) = true in
  is_op c' /\ (writes_back c' = true <-> writes_back c = true \/ ops writes_back) /\
  (invalidates c' = true <-> invalidates c = true \/ ops invalidates).
Proof.
  assert (Hmc : forall p, 0 <= r_count p -> 0 <= w_count p ->
    0 <= r_count (move_counts p old new) /\ 0 <= w_count (move_counts p old new)).
  { intros p Hr Hw. unfold move_counts. simpl.
    destruct (obmm_access_is_writer old), (obmm_access_is_reader old),
      (obmm_access_is_writer new), (obmm_access_is_reader new); split; try done;
      apply uwrap_range; lia. }
  induction n as [|n IH]; intros idx info c c' info' Hi Hpos Hc H ops.
  - simpl in H. injection H as <- <-. split; [done|].
    assert (Hno : forall act, ~ ops act)
      by (intros act (j & p & Hr & _); unfold in_range in Hr; lia).
    pose proof (Hno writes_back). pose proof (Hno invalidates). tauto.
  - simpl in H. unfold update_page_ownership in H.
    destruct (page_states info !! Z.to_nat idx) as [p|] eqn:Hp; [|done].
    cbn [mbind option_bind] in H.
    assert (0 <= r_count p /\ 0 <= w_count p) as [Hr0 Hw0]
      by (apply Hpos; by eapply list_elem_of_lookup_2).
    destruct (Hmc p Hr0 Hw0) as [Hr1 Hw1].
    destruct (infer_op_bits p (move_counts p old new) Hr1 Hw1) as (Hop & _).
    destruct (merge_union c (infer_op p (move_counts p old new)) Hc Hop) as (Hm & Hmw & Hmi).
    apply IH in H as (Ho & Hw & Hv); [|lia| |done].
    2: { simpl. intros q Hq. apply list_elem_of_lookup in Hq as [k Hk].
         apply list_lookup_insert_Some in Hk as [(_ & <- & _)|(_ & Hk)]; [done|].
         apply Hpos. by eapply list_elem_of_lookup_2. }
    assert (Hsplit : forall act, ops act <->
      act (infer_op p (move_counts p old new)) = true \/
      exists j q, in_range (idx + 1) n j /\
        <[Z.to_nat idx := move_counts p old new]> (page_states info) !! j = Some q /\
        act (infer_op q (move_counts q old new)) = true).
    { intros act. split.
      - intros (j & q & Hr & Hq & Ha). destruct (decide (j = Z.to_nat idx)) as [->|Hne].
        + rewrite Hp in Hq. injection Hq as <-. by left.
        + right. exists j, q. rewrite list_lookup_insert_ne by done.
          split_and!; [unfold in_range in *; lia|done..].
      - intros [Ha|(j & q & Hr & Hq & Ha)].
        + exists (Z.to_nat idx), p. split_and!; [unfold in_range; lia|done..].
        + exists j, q. rewrite list_lookup_insert_ne in Hq by (unfold in_range in Hr; lia).
          split_and!; [unfold in_range in *; lia|done..]. }
    split; [done|]. rewrite Hw, Hv, Hmw, Hmi, !orb_true_iff, !Hsplit. simpl. tauto.
Qed.

(** ** The mappings the counters stand for *)

(** A mapping: the entries it covers and its access bits. *)
Record holding := { h_idx : Z; h_n : nat; h_acc : Z }.

Definition with_acc (h : holding) (acc : Z) : holding :=
  {| h_idx := h_idx h; h_n := h_n h; h_acc := acc |}.

Definition holds (p : Z -> bool) (j : nat) (h : holding) : Z :=
  if decide (in_range (h_idx h) (h_n h) j) then Z.b2z (p (h_acc h)) else 0.

(** How many of the mappings [hs] cover entry [j] with an access that satisfies [p]. *)
Definition count (p : Z -> bool) (hs : list holding) (j : nat) : Z := zsum (map (holds p j) hs).

#[export] Instance count_perm (p : Z -> bool) : Proper (Permutation ==> eq ==> eq) (count p).
Proof.
  intros l1 l2 H j ? <-. unfold count, zsum.
  induction H; simpl; lia.
Qed.

Lemma count_cons (p : Z -> bool) h hs j : count p (h :: hs) j = holds p j h + count p hs j.
Proof. done. Qed.

Lemma count_app (p : Z -> bool) l1 l2 j : count p (l1 ++ l2) j = count p l1 j + count p l2 j.
Proof. unfold count. by rewrite map_app, zsum_app. Qed.

Lemma count_range (p : Z -> bool) hs j : 0 <= count p hs j <= Z.of_nat (length hs).
Proof.
  induction hs as [|h hs IH]; [done|]. rewrite count_cons. unfold holds.
  destruct (decide _), (p (h_acc h)); simpl length; simpl Z.b2z; lia.
Qed.

(** The counters of an entry agree with the mappings, modulo their 16 bits. *)
Definition state_ok (st : obmm_page_state) (hs : list holding) (j : nat) : Prop :=
  r_count st = u16 (count obmm_access_is_reader hs j) /\
  w_count st = u16 (count obmm_access_is_writer hs j).

Definition counts_ok (info : obmm_ownership_info) (hs : list holding) : Prop :=
  forall j st, page_states info !! j = Some st -> state_ok st hs j.

#[export] Instance counts_ok_perm info : Proper (Permutation ==> iff) (counts_ok info).
Proof.
  intros l1 l2 H. unfold counts_ok, state_ok.
  split; intros Hc j st Hj; destruct (Hc j st Hj); [rewrite <- H|rewrite H]; auto.
Qed.

Lemma move_counts_ok (st : obmm_page_state) (h : holding) (hs : list holding) (new : Z) (j : nat) :
  in_range (h_idx h) (h_n h) j -> state_ok st (h :: hs) j ->
  state_ok (move_counts st (h_acc h) new) (with_acc h new :: hs) j.
Proof.
  unfold state_ok. rewrite !count_cons. unfold holds. simpl.
  intros Hr. rewrite !decide_True by done. intros [Hrc Hwc]. unfold move_counts. simpl.
  rewrite Hrc, Hwc.
  destruct (obmm_access_is_writer (h_acc h)), (obmm_access_is_reader (h_acc h)),
    (obmm_access_is_writer new), (obmm_access_is_reader new); simpl; split;
    try done; wrap_tac.
Qed.

Lemma perm_loop_counts (h : holding) (hs : list holding) (new : Z) info c c' info' :
  0 <= h_idx h -> h_idx h + Z.of_nat (h_n h) <= Z.of_nat (length (page_states info)) ->
  counts_ok info (h :: hs) -> perm_loop (h_n h) (h_idx h) info (h_acc h) new c = Some (c', info') ->
  counts_ok info' (with_acc h new :: hs) /\
  length (page_states info') = length (page_states info).
Proof.
  intros Hi Hn Hok H.
  destruct (perm_loop_spec (h_acc h) new (h_n h) (h_idx h) info c) as (c2 & i2 & E & Hl & _ & Hj);
    [done..|]. rewrite H in E. injection E as <- <-. split; [|done].
  intros j st Hst. rewrite Hj in Hst. destruct (decide _) as [Hr|Hr].
  - destruct (page_states info !! j) as [st0|] eqn:H0; [|done]. injection Hst as <-.
    apply move_counts_ok; [done|by apply Hok].
  - specialize (Hok j st Hst). unfold state_ok in *. rewrite !count_cons in *. unfold holds in *.
    simpl. rewrite !decide_False in * by done. done.
Qed.

(** Giving an entry no access, or adding a mapping without access, counts nothing. *)
Lemma no_access_counts (hs : list holding) (h : holding) info :
  h_acc h = OBMM_SHM_MEM_NO_ACCESS -> counts_ok info (h :: hs) <-> counts_ok info hs.
Proof.
  intros Ha. unfold counts_ok, state_ok.
  assert (forall j, count obmm_access_is_reader (h :: hs) j = count obmm_access_is_reader hs j /\
    count obmm_access_is_writer (h :: hs) j = count obmm_access_is_writer hs j) as Hz.
  { intros j. rewrite !count_cons. unfold holds. rewrite Ha. by destruct (decide _). }
  split; intros H j st Hj; destruct (Hz j) as [E1 E2]; destruct (H j st Hj) as [R1 R2];
    [rewrite <- E1, <- E2|rewrite E1, E2]; auto.
Qed.

(** ** The region *)

Definition entry_of (reg : obmm_region) (pgoff npages : Z) (acc : Z) : holding :=
  {| h_idx := ownership_pgoff_to_index reg pgoff;
     h_n := Z.to_nat (ownership_size_to_nentries reg (u64 (Z.shiftl npages PAGE_SHIFT)));
     h_acc := acc |}.

Definition region_entries (reg : obmm_region) : Z :=
  ownership_size_to_nentries reg (mem_size reg).

(** The counters of a region agree with the mappings [hs]. *)
Definition own_ok (reg : obmm_region) (hs : list holding) : Prop :=
  match ownership_info reg with
  | None => True
  | Some info => Z.of_nat (length (page_states info)) = region_entries reg /\ counts_ok info hs
  end.

Definition in_region (reg : obmm_region) (h : holding) : Prop :=
  0 <= h_idx h /\ h_idx h + Z.of_nat (h_n h) <= region_entries reg.

(** What moving one mapping from one access to another does to the region. *)
Lemma perm_count_ok (reg : obmm_region) (pgoff npages old new : Z) (hs : list holding) :
  let h := entry_of reg pgoff npages old in
  in_region reg h -> own_ok reg (h :: hs) ->
  exists op info', update_vma_perm_count reg pgoff npages old new
      = Some (op, set_info reg info') /\
    own_ok (set_info reg info') (with_acc h new :: hs) /\
    (ownership_info reg = None <-> info' = None).
Proof.
  intros h Hin Hok. unfold update_vma_perm_count, own_ok in *.
  destruct (ownership_info reg) as [info|] eqn:Hinfo.
  - destruct Hok as [Hlen Hc]. destruct Hin as [Hi Hn].
    destruct (perm_loop_spec old new (h_n h) (h_idx h) info OBMM_SHM_CACHE_NONE)
      as (c & info' & He & Hl & _ & _); [done|lia|].
    cbv zeta. unfold h, entry_of in He. simpl in He. rewrite He. cbn [mbind option_bind].
    destruct (perm_loop_counts h hs new info _ _ _ Hi ltac:(lia) Hc He) as [Hc' Hl'].
    exists c, (Some info'). split; [done|]. simpl. split; [|done].
    split; [|done]. rewrite Hl', Hlen. done.
  - exists OBMM_SHM_CACHE_NONE, None. split; [|done]. by destruct reg; simpl in *; subst.
Qed.

Lemma writer_is_reader (acc : Z) : obmm_access_is_writer acc = true -> obmm_access_is_reader acc = true.
Proof. unfold obmm_access_is_writer, obmm_access_is_reader. intros H. bprop. by rewrite H. Qed.

Lemma count_writer_reader (hs : list holding) (j : nat) :
  count obmm_access_is_writer hs j <= count obmm_access_is_reader hs j.
Proof.
  induction hs as [|h hs IH]; [done|]. rewrite !count_cons. unfold holds.
  destruct (decide _); [|lia]. pose proof (writer_is_reader (h_acc h)).
  destruct (obmm_access_is_writer (h_acc h)), (obmm_access_is_reader (h_acc h)); simpl; naive_solver lia.
Qed.

(** Fewer than 2^16 mappings: the counters are the numbers of mappings. *)
Lemma state_ok_exact (st : obmm_page_state) (hs : list holding) (j : nat) :
  Z.of_nat (length hs) < 2 ^ 16 -> state_ok st hs j ->
  r_count st = count obmm_access_is_reader hs j /\ w_count st = count obmm_access_is_writer hs j.
Proof.
  intros Hl [-> ->].
  pose proof (count_range obmm_access_is_reader hs j).
  pose proof (count_range obmm_access_is_writer hs j).
  rewrite !uwrap_small by lia. done.
Qed.

(** The entries of mapping [h] on which the number of mappings satisfying [p] drops to
    zero when [h] moves to access [new]. *)
Definition last_leaves (p : Z -> bool) (h : holding) (new : Z) (hs : list holding) : Prop :=
  exists j, in_range (h_idx h) (h_n h) j /\
    0 < count p (h :: hs) j /\ count p (with_acc h new :: hs) j = 0.

(** The operation returned for a change, when the counters are exact. *)
Lemma perm_count_op (reg : obmm_region) info (pgoff npages old new : Z) (hs : list holding) op reg' :
  let h := entry_of reg pgoff npages old in
  ownership_info reg = Some info -> in_region reg h -> own_ok reg (h :: hs) ->
  Z.of_nat (length (h :: hs)) < 2 ^ 16 ->
  update_vma_perm_count reg pgoff npages old new = Some (op, reg') ->
  is_op op /\ (writes_back op = true <-> last_leaves obmm_access_is_writer h new hs) /\
  (invalidates op = true <-> last_leaves obmm_access_is_reader h new hs).
Proof.
  intros h Hinfo Hin Hok Hlen He.
  unfold update_vma_perm_count in He. rewrite Hinfo in He. cbv zeta in He.
  destruct (perm_loop _ _ _ _ _ _) as [[c i']|] eqn:Hl; [|done].
  injection He as <- <-. unfold own_ok in Hok. rewrite Hinfo in Hok. destruct Hok as [Hn Hc].
  assert (Hex : forall j p, in_range (h_idx h) (h_n h) j -> page_states info !! j = Some p ->
    r_count p = count obmm_access_is_reader (h :: hs) j /\
    w_count p = count obmm_access_is_writer (h :: hs) j /\
    r_count (move_counts p old new) = count obmm_access_is_reader (with_acc h new :: hs) j /\
    w_count (move_counts p old new) = count obmm_access_is_writer (with_acc h new :: hs) j).
  { intros j p Hr Hp. destruct (state_ok_exact p (h :: hs) j Hlen (Hc j p Hp)).
    destruct (state_ok_exact (move_counts p old new) (with_acc h new :: hs) j); [done| |done].
    by apply (move_counts_ok p h hs new j Hr), Hc. }
  apply (perm_loop_op old new) in Hl as (Hop & Hw & Hv); [|apply Hin| |done].
  2: { intros p Hp. apply list_elem_of_lookup in Hp as [k Hk]. destruct (Hc k p Hk) as [-> ->].
       split; apply uwrap_range; lia. }
  split; [done|]. rewrite Hw, Hv. unfold last_leaves.
  assert (Hlook : forall j, in_range (h_idx h) (h_n h) j -> is_Some (page_states info !! j)).
  { intros j Hr. apply lookup_lt_is_Some_2. destruct Hin. unfold in_range in Hr. lia. }
  assert (Hge : forall p l j, 0 <= count p l j) by (intros; apply count_range).
  split; split.
  - intros [?|(j & p & Hr & Hp & Ha)]; [done|]. exists j.
    destruct (Hex j p Hr Hp) as (E1 & E2 & E3 & E4).
    apply infer_op_bits in Ha; rewrite ?E3, ?E4; auto. by rewrite E2, E4 in Ha.
  - intros (j & Hr & Hb & Ha). right. destruct (Hlook j Hr) as [p Hp].
    destruct (Hex j p Hr Hp) as (E1 & E2 & E3 & E4). exists j, p.
    split_and!; [done..|]. apply infer_op_bits; rewrite ?E2, ?E3, ?E4; auto.
  - intros [?|(j & p & Hr & Hp & Ha)]; [done|]. exists j.
    destruct (Hex j p Hr Hp) as (E1 & E2 & E3 & E4).
    apply infer_op_bits in Ha; rewrite ?E3, ?E4; auto. rewrite E1, E2, E3 in Ha.
    pose proof (count_writer_reader (h :: hs) j). split; [done|]. lia.
  - intros (j & Hr & Hb & Ha). right. destruct (Hlook j Hr) as [p Hp].
    destruct (Hex j p Hr Hp) as (E1 & E2 & E3 & E4). exists j, p.
    split_and!; [done..|]. apply infer_op_bits; rewrite ?E1, ?E3, ?E4; auto.
    pose proof (count_writer_reader (with_acc h new :: hs) j).
    pose proof (Hge obmm_access_is_writer (with_acc h new :: hs) j). lia.
Qed.

(** C32: the cache operation [update_vma_perm_count] returns for a permission change is
    exactly the one needed: it writes back if and only if some entry of the range loses
    its last writer, and invalidates if and only if some entry loses its last accessor;
    the counters then agree with the mappings again. *)
Theorem ownership_cache_op_exact (reg : obmm_region) info (pgoff npages old new : Z)
    (hs : list holding) :
  let h := entry_of reg pgoff npages old in
  ownership_info reg = Some info -> in_region reg h -> own_ok reg (h :: hs) ->
  Z.of_nat (length (h :: hs)) < 2 ^ 16 ->
  exists op reg', update_vma_perm_count reg pgoff npages old new = Some (op, reg') /\
    own_ok reg' (with_acc h new :: hs) /\
    (writes_back op = true <-> last_leaves obmm_access_is_writer h new hs) /\
    (invalidates op = true <-> last_leaves obmm_access_is_reader h new hs).
Proof.
  intros h Hinfo Hin Hok Hlen.
  destruct (perm_count_ok reg pgoff npages old new hs Hin Hok) as (op & info' & He & Hok' & _).
  exists op, (set_info reg info'). split; [done|]. split; [done|].
  by eapply perm_count_op.
Qed.

(** A cacheable two-page region. *)
Definition demo_region (info : option obmm_ownership_info) : obmm_region :=
  {| type := OBMM_IMPORT_REGION; flags := 2; mem_size := 2 * PAGE_SIZE;
     mmap_mode := OBMM_MMAP_NORMAL; mmap_granu := OBMM_MMAP_GRANU_PAGE; mem_cap := 3;
     mmap_count := 1; ownership_info := info |}.

Lemma ownership_cache_op_exact_witness :
  let reg := demo_region (Some {| page_states := [{| r_count := 1; w_count := 1 |};
                                                  {| r_count := 1; w_count := 1 |}];
                                  nentries := 2 |}) in
  let h := entry_of reg 0 2 OBMM_SHM_MEM_READWRITE in
  exists op reg', update_vma_perm_count reg 0 2 OBMM_SHM_MEM_READWRITE OBMM_SHM_MEM_READONLY
      = Some (op, reg') /\ own_ok reg' [with_acc h OBMM_SHM_MEM_READONLY] /\
    writes_back op = true.
Proof.
  intros reg h.
  destruct (ownership_cache_op_exact reg
    {| page_states := [{| r_count := 1; w_count := 1 |}; {| r_count := 1; w_count := 1 |}];
       nentries := 2 |} 0 2 OBMM_SHM_MEM_READWRITE OBMM_SHM_MEM_READONLY [])
    as (op & reg' & He & Hok & Hw & _).
  - reflexivity.
  - split; vm_compute; congruence.
  - split; [reflexivity|]. intros j st Hj. destruct j as [|[|j]]; [| |done];
      injection Hj as <-; split; reflexivity.
  - done.
  - exists op, reg'. split; [exact He|]. split; [exact Hok|]. apply Hw. exists 0%nat.
    split; [vm_compute; split; congruence|]. split; reflexivity.
Defined.

(** [merge_cache_ops] combines two cache operations into the one that performs the
    actions of both, so that the result for a range covers every page of it whatever
    the order: it is commutative, associative and idempotent on cache operations. *)
Theorem merge_cache_ops_union (a b c : Z) :
  is_op a -> is_op b -> is_op c ->
  writes_back (merge_cache_ops a b) = writes_back a || writes_back b /\
  invalidates (merge_cache_ops a b) = invalidates a || invalidates b /\
  merge_cache_ops a b = merge_cache_ops b a /\
  merge_cache_ops a (merge_cache_ops b c) = merge_cache_ops (merge_cache_ops a b) c /\
  merge_cache_ops a a = a.
Proof.
  assert (Hinj : forall x y, is_op x -> is_op y -> writes_back x = writes_back y ->
    invalidates x = invalidates y -> x = y).
  { intros x y Hx Hy. unfold is_op in *. unfold writes_back, invalidates.
    unfold OBMM_SHM_CACHE_WB_ONLY, OBMM_SHM_CACHE_WB_INVAL, OBMM_SHM_CACHE_INVAL.
    bdes; lia || done. }
  intros Ha Hb Hc. destruct (merge_union a b Ha Hb) as (M1 & W1 & I1).
  destruct (merge_union b a Hb Ha) as (M2 & W2 & I2). destruct (merge_union b c Hb Hc) as (M3 & W3 & I3).
  destruct (merge_union _ c M1 Hc) as (M4 & W4 & I4). destruct (merge_union a _ Ha M3) as (M5 & W5 & I5).
  destruct (merge_union a a Ha Ha) as (M6 & W6 & I6).
  split_and!; try done; apply Hinj; try done.
  - by rewrite W1, W2, orb_comm.
  - by rewrite I1, I2, orb_comm.
  - by rewrite W4, W5, W3, W1, orb_assoc.
  - by rewrite I4, I5, I3, I1, orb_assoc.
  - by rewrite W6, orb_diag.
  - by rewrite I6, orb_diag.
Qed.

Lemma merge_cache_ops_union_witness :
  merge_cache_ops OBMM_SHM_CACHE_WB_ONLY
      (merge_cache_ops OBMM_SHM_CACHE_INVAL OBMM_SHM_CACHE_NONE)
    = merge_cache_ops (merge_cache_ops OBMM_SHM_CACHE_WB_ONLY OBMM_SHM_CACHE_INVAL)
        OBMM_SHM_CACHE_NONE.
Proof. by apply merge_cache_ops_union. Defined.
