(* ===== verification/ShmDev.v ===== *)
(** * The OBMM shared memory device

    [drivers/ub/obmm/obmm_shm_dev.c]: a region is mapped with [mmap], either cacheable
    or, for files opened with [O_SYNC], non-cacheable; a process changes the access
    rights of part of its mappings with the [OBMM_SHMDEV_UPDATE_RANGE] ioctl, which
    splits VMAs at the range boundaries, updates the ownership counters, flushes caches
    and rewrites page tables VMA by VMA, and rolls back on failure.

    The address space of the calling process is the list of its VMAs in address
    order.  Results of services outside this code (the allocation part of [split_vma],
    the cache flush of the hardware, the page-table walk, the mapping of the memory,
    memory allocation) come from an oracle, indexed by the number of calls so far.
    [None] is an access outside the ownership array. *)

From S2P Require Import Prelude Ownership.

(** ** Data *)

(** Page protections: the access part and the memory attribute. *)
Inductive prot_access := PAGE_NONE | PAGE_READONLY | PAGE_READONLY_EXEC | PAGE_SHARED_W.
Inductive prot_attr := ATTR_NORMAL | ATTR_WRITECOMBINE | ATTR_NONCACHED.
Definition pgprot : Set := prot_access * prot_attr.

(** [struct vm_area_struct].  [vm_mine]: the VMA has [obmm_vm_ops] and its file is the
    region's; [vm_pt] is the protection of its page-table entries. *)
Record vma := {
  vm_start : Z;
  vm_end : Z;
  vm_pgoff : Z;
  vm_flags : Z;
  vm_page_prot : pgprot;
  vm_private_data : Z;
  vm_mine : bool;
  vm_pt : pgprot;
}.

Definition set_bounds (v : vma) (s e pgoff : Z) : vma :=
  {| vm_start := s; vm_end := e; vm_pgoff := pgoff; vm_flags := vm_flags v;
     vm_page_prot := vm_page_prot v; vm_private_data := vm_private_data v;
     vm_mine := vm_mine v; vm_pt := vm_pt v |}.
Definition set_flags (v : vma) (f : Z) (prot : pgprot) (priv : Z) : vma :=
  {| vm_start := vm_start v; vm_end := vm_end v; vm_pgoff := vm_pgoff v; vm_flags := f;
     vm_page_prot := prot; vm_private_data := priv; vm_mine := vm_mine v; vm_pt := vm_pt v |}.
Definition set_pt (v : vma) (p : pgprot) : vma :=
  {| vm_start := vm_start v; vm_end := vm_end v; vm_pgoff := vm_pgoff v; vm_flags := vm_flags v;
     vm_page_prot := vm_page_prot v; vm_private_data := vm_private_data v;
     vm_mine := vm_mine v; vm_pt := p |}.

(** The region, the number of oracle calls so far, and the cache flushes performed:
    offset, length and operation. *)
Record shm_state := { s_reg : obmm_region; s_n : nat; s_flushed : list (Z * Z * Z) }.

Definition with_reg (st : shm_state) (r : obmm_region) : shm_state :=
  {| s_reg := r; s_n := s_n st; s_flushed := s_flushed st |}.
Definition tick (st : shm_state) : shm_state :=
  {| s_reg := s_reg st; s_n := S (s_n st); s_flushed := s_flushed st |}.

Record obmm_cmd_update_range := { ur_start : Z; ur_end : Z; mem_state : Z; cache_ops : Z }.

(** The file: [O_SYNC] of [f_flags], and the two bits of [f_mode]. *)
Record shm_file := { f_osync : bool; f_read : bool; f_write : bool }.

Definition OBMM_REGION_FLAG_ALLOW_MMAP : Z := 2.
Definition OBMM_MEM_ALLOW_CACHEABLE_MMAP : Z := 1.
Definition OBMM_MEM_ALLOW_NONCACHEABLE_MMAP : Z := 2.

Definition region_allow_mmap (reg : obmm_region) : bool :=
  ctrue (Z.land (flags reg) OBMM_REGION_FLAG_ALLOW_MMAP).

(** ** Protections and checks *)

Definition mem_state_to_pgprot (mem_state : Z) : pgprot :=
  let access := Z.land mem_state OBMM_SHM_MEM_ACCESS_MASK in
  let cache := Z.land mem_state OBMM_SHM_MEM_CACHE_MASK in
  let p :=
    if access =? OBMM_SHM_MEM_READONLY then PAGE_READONLY
    else if access =? OBMM_SHM_MEM_READEXEC then PAGE_READONLY_EXEC
    else if access =? OBMM_SHM_MEM_READWRITE then PAGE_SHARED_W
    else PAGE_NONE in
  (p, if cache =? OBMM_SHM_MEM_NORMAL_NC then ATTR_WRITECOMBINE
      else if cache =? OBMM_SHM_MEM_DEVICE then ATTR_NONCACHED
      else ATTR_NORMAL).

Definition validate_perm (file : shm_file) (vm_flags : Z) : bool :=
  negb ((ctrue (Z.land vm_flags VM_READ) && negb (f_read file)) ||
        (ctrue (Z.land vm_flags VM_WRITE) && negb (f_write file)) ||
        (ctrue (Z.land vm_flags VM_EXEC) && negb (f_read file))).

Definition validate_state (mem_state : Z) : bool :=
  let access := Z.land mem_state OBMM_SHM_MEM_ACCESS_MASK in
  let cache := Z.land mem_state OBMM_SHM_MEM_CACHE_MASK in
  if ctrue (Z.land mem_state
              (Z.lnot (Z.lor OBMM_SHM_MEM_CACHE_MASK OBMM_SHM_MEM_ACCESS_MASK))) then false
  else if cache =? OBMM_SHM_MEM_CACHE_RESV then false
  else if (access =? OBMM_SHM_MEM_READEXEC) &&
          ((cache =? OBMM_SHM_MEM_DEVICE) || (cache =? OBMM_SHM_MEM_NORMAL_NC)) then false
  else if (cache =? OBMM_SHM_MEM_NORMAL_NC) && negb (access =? OBMM_SHM_MEM_NO_ACCESS) then false
  else true.

Definition validate_update_info (region : obmm_region) (info : obmm_cmd_update_range)
    (cacheable : bool) : bool :=
  if negb cacheable then false
  else if ownership_info region is None then false
  else if ur_end info <=? ur_start info then false
  else if negb (obmm_is_aligned region (ur_start info)) ||
          negb (obmm_is_aligned region (ur_end info)) then false
  else true.

Definition validate_ownership_perm (file : shm_file) (info : obmm_cmd_update_range) : bool :=
  let access_param := Z.land (mem_state info) OBMM_SHM_MEM_ACCESS_MASK in
  let f0 := 0 in
  let f1 := if access_param =? OBMM_SHM_MEM_READONLY then Z.lor f0 VM_READ else f0 in
  let f2 := if access_param =? OBMM_SHM_MEM_READWRITE
            then Z.lor f1 (Z.lor VM_READ VM_WRITE) else f1 in
  let f3 := if access_param =? OBMM_SHM_MEM_READEXEC
            then Z.lor f2 (Z.lor VM_READ VM_EXEC) else f2 in
  validate_perm file f3.

Definition obmm_is_valid_cache_ops (ops : Z) : bool :=
  (ops =? OBMM_SHM_CACHE_NONE) || (ops =? OBMM_SHM_CACHE_INVAL) ||
  (ops =? OBMM_SHM_CACHE_WB_ONLY) || (ops =? OBMM_SHM_CACHE_WB_INVAL).

Section Dev.
(** The oracle. *)
Context (orc : nat -> Z).

(** [obmm_region_flush_range]; the flush of an import or export region is the oracle. *)
Definition obmm_region_flush_range (st : shm_state) (offset length ops : Z) : Z * shm_state :=
  let reg := s_reg st in
  if negb (obmm_is_valid_cache_ops ops) then (- EINVAL, st)
  else if (mem_size reg <=? offset) || (u64 (mem_size reg - offset) <? length) ||
          negb (IS_ALIGNED offset PAGE_SIZE) || negb (IS_ALIGNED length PAGE_SIZE) then
    (- EINVAL, st)
  else if ops =? OBMM_SHM_CACHE_NONE then (0, st)
  else
    let ret := orc (s_n st) in
    (ret, {| s_reg := reg; s_n := S (s_n st);
             s_flushed := if ctrue ret then s_flushed st
                          else s_flushed st ++ [(offset, length, ops)] |}).

(** ** VMA callbacks *)

Definition obmm_vma_open (reg : obmm_region) : obmm_region :=
  set_count reg (s32 (mmap_count reg + 1)).

Definition obmm_vma_may_split (reg : obmm_region) (addr : Z) : Z :=
  if negb (obmm_is_aligned reg addr) then - EINVAL else 0.

Definition npages (v : vma) : Z := Z.shiftr (u64 (vm_end v - vm_start v)) PAGE_SHIFT.

Definition obmm_vma_close (st : shm_state) (v : vma) : option shm_state :=
  let access := vm_flags_to_access (vm_flags v) in
  '(ops, reg1) ← update_vma_perm_count (s_reg st) (vm_pgoff v) (npages v) access
                   OBMM_SHM_MEM_NO_ACCESS;
  let st1 := with_reg st reg1 in
  let st2 :=
    if negb (ops =? OBMM_SHM_CACHE_NONE) && bool_decide (mmap_mode reg1 = OBMM_MMAP_NORMAL) then
      (obmm_region_flush_range st1 (u64 (Z.shiftl (vm_pgoff v) PAGE_SHIFT))
         (u64 (Z.shiftl (npages v) PAGE_SHIFT)) ops).2
    else st1 in
  let reg2 := set_count (s_reg st2) (s32 (mmap_count (s_reg st2) - 1)) in
  Some (with_reg st2
          (if mmap_count reg2 =? 0 then set_mode reg2 OBMM_MMAP_INIT else reg2)).

(** [split_vma]: asks [may_split], allocates, calls [open] for the new VMA.  The result
    is the return value, the new VMA, and the changed one. *)
Definition split_vma (st : shm_state) (v : vma) (addr : Z) (new_below : bool)
    : Z * list vma * vma * shm_state :=
  let ret := obmm_vma_may_split (s_reg st) addr in
  if ctrue ret then (ret, [], v, st)
  else
    let ret := orc (s_n st) in
    let st1 := tick st in
    if ctrue ret then (ret, [], v, st1)
    else
      let st2 := with_reg st1 (obmm_vma_open (s_reg st1)) in
      let mid := vm_pgoff v + Z.shiftr (addr - vm_start v) PAGE_SHIFT in
      if new_below then
        (0, [set_bounds v (vm_start v) addr (vm_pgoff v)], set_bounds v addr (vm_end v) mid, st2)
      else
        (0, [set_bounds v addr (vm_end v) mid], set_bounds v (vm_start v) addr (vm_pgoff v), st2).

(** ** Mapping *)

Definition OBMM_MMAP_FLAG_HUGETLB_PMD : Z := Z.shiftl 1 63.

(** [VM_DONTCOPY | VM_DONTEXPAND | VM_LOCKED | VM_PFNMAP]. *)
Definition MMAP_VM_FLAGS : Z := Z.lor (Z.lor 0x20000 0x40000) (Z.lor 0x2000 0x400).

(** The granularity of a request and its offset, or an error. *)
Definition mmap_request (v : vma) : Z + (obmm_mmap_granu * Z) :=
  let offset := u64 (Z.shiftl (vm_pgoff v) PAGE_SHIFT) in
  if ctrue (Z.land offset OBMM_MMAP_FLAG_HUGETLB_PMD) then
    let offset := Z.land offset (Z.lnot OBMM_MMAP_FLAG_HUGETLB_PMD) in
    if negb (IS_ALIGNED (vm_start v) PMD_SIZE) || negb (IS_ALIGNED (vm_end v) PMD_SIZE) then
      inl (- EINVAL)
    else if negb (IS_ALIGNED offset PMD_SIZE) then inl (- EINVAL)
    else inr (OBMM_MMAP_GRANU_PMD, offset)
  else inr (OBMM_MMAP_GRANU_PAGE, offset).

(** The part of [obmm_shm_fops_mmap] under [state_mutex]: [map] and the two [alloc]s are
    the results of [map_obmm_region] and of the allocations of [init_ownership_info]. *)
Definition mmap_locked (o_sync : bool) (map_ret : Z) (kz vz : bool) (reg : obmm_region) (v : vma)
    : option (Z * obmm_region) :=
  let old_mode := mmap_mode reg in
  if (o_sync && bool_decide (mmap_mode reg = OBMM_MMAP_NORMAL)) ||
     (negb o_sync && bool_decide (mmap_mode reg = OBMM_MMAP_OSYNC)) then Some (- EPERM, reg)
  else
    let reg1 := if decide (mmap_mode reg = OBMM_MMAP_INIT)
                then set_mode reg (if o_sync then OBMM_MMAP_OSYNC else OBMM_MMAP_NORMAL)
                else reg in
    let reset r := if decide (old_mode = OBMM_MMAP_INIT) then set_mode r OBMM_MMAP_INIT else r in
    if decide (mmap_mode reg1 = OBMM_MMAP_NORMAL) then
      let '(ret, reg2) := init_ownership_info kz vz reg1 in
      if ctrue ret then Some (ret, reset reg2)
      else if ctrue map_ret then Some (map_ret, reset reg2)
      else
        '(_, reg3) ← update_vma_perm_count reg2 (vm_pgoff v) (npages v) OBMM_SHM_MEM_NO_ACCESS
                       (vm_flags_to_access (vm_flags v));
        Some (0, set_count reg3 (s32 (mmap_count reg3 + 1)))
    else if ctrue map_ret then Some (map_ret, reset reg1)
    else Some (0, set_count reg1 (s32 (mmap_count reg1 + 1))).

Definition obmm_shm_fops_mmap (file : shm_file) (map_ret : Z) (kz vz : bool)
    (reg : obmm_region) (v : vma) : option (Z * obmm_region * vma) :=
  if negb (ctrue (Z.land (vm_flags v) VM_MAYSHARE)) then Some (- EINVAL, reg, v)
  else if negb (region_allow_mmap reg) then Some (- EPERM, reg, v)
  else if negb (validate_perm file (vm_flags v)) then Some (- EPERM, reg, v)
  else
    let size := u64 (vm_end v - vm_start v) in
    match mmap_request v with
    | inl ret => Some (ret, reg, v)
    | inr (granu, offset) =>
      let init_granu := mmap_granu reg in
      let reg1 := if decide (init_granu = OBMM_MMAP_GRANU_NONE) then set_granu reg granu else reg in
      if decide (mmap_granu reg1 = granu) then
        let v1 := set_bounds v (vm_start v) (vm_end v) (Z.shiftr offset PAGE_SHIFT) in
        if (mem_size reg <=? offset) || (u64 (mem_size reg - offset) <? size) then
          Some (- EINVAL, set_granu reg1 init_granu, v1)
        else
          let fl := Z.lor (vm_flags v1) MMAP_VM_FLAGS in
          let state := vm_flags_to_mem_state fl (negb (f_osync file)) in
          let prot := mem_state_to_pgprot state in
          let v2 := set_flags v1 fl prot (vm_private_data v1) in
          '(ret, reg2) ← mmap_locked (f_osync file) map_ret kz vz reg1 v2;
          if ctrue ret then Some (ret, set_granu reg2 init_granu, v2)
          else Some (0, reg2,
                     {| vm_start := vm_start v2; vm_end := vm_end v2; vm_pgoff := vm_pgoff v2;
                        vm_flags := vm_flags v2; vm_page_prot := prot;
                        vm_private_data := vm_private_data v2; vm_mine := true; vm_pt := prot |})
      else Some (- EPERM, set_granu reg1 init_granu, v)
    end.

(** ** Updating the access rights of a range *)

Definition OBMM_UPDATE_VM_FLAGS_MASK : Z :=
  Z.lor (Z.lor VM_READ VM_WRITE) (Z.lor VM_MAYREAD VM_MAYWRITE).

(** [vm_flags_clear] of the mask, then [vm_flags_set] of [new] restricted to it. *)
Definition replace_flags (old new : Z) : Z :=
  Z.lor (Z.land old (Z.lnot OBMM_UPDATE_VM_FLAGS_MASK)) (Z.land new OBMM_UPDATE_VM_FLAGS_MASK).

(** [update_vma_page_range]: the walk is the oracle. *)
Definition update_vma_page_range (st : shm_state) (v : vma) (state : Z) : Z * vma * shm_state :=
  let ret := orc (s_n st) in
  (ret, if ctrue ret then v else set_pt v (mem_state_to_pgprot state), tick st).

(** The body of the loop for one VMA: the VMAs that replace it, the return value, the
    new [modified_end] if the VMA was reached, and the state. *)
Definition update_one (info : obmm_cmd_update_range) (st : shm_state) (cursor : Z) (v : vma)
    : option (list vma * Z * option Z * shm_state) :=
  let new_access := Z.land (mem_state info) OBMM_SHM_MEM_ACCESS_MASK in
  let new_vm_flags := access_to_vm_flags new_access in
  if cursor <? vm_start v then Some ([v], - EFAULT, None, st)
  else if negb (vm_mine v) then Some ([v], - EFAULT, None, st)
  else
    let '(ret1, below, v1, st1) :=
      if vm_start v <? cursor then split_vma st v cursor true else (0, [], v, st) in
    if ctrue ret1 then Some (below ++ [v1], ret1, None, st1)
    else
      let '(ret2, above, v2, st2) :=
        if ur_end info <? vm_end v1 then split_vma st1 v1 (ur_end info) false
        else (0, [], v1, st1) in
      if ctrue ret2 then Some (below ++ [v2] ++ above, ret2, None, st2)
      else
        let old_access := vm_flags_to_access (vm_flags v2) in
        '(ops, reg3) ← update_vma_perm_count (s_reg st2) (vm_pgoff v2) (npages v2)
                         old_access new_access;
        let st3 := with_reg st2 reg3 in
        let v3 := set_flags v2 (replace_flags (vm_flags v2) new_vm_flags)
                    (mem_state_to_pgprot (mem_state info)) (vm_flags v2) in
        let flush_op :=
          if negb (cache_ops info =? OBMM_SHM_CACHE_INFER) then cache_ops info
          else if negb (ops =? OBMM_SHM_CACHE_NONE) &&
                  bool_decide (mmap_mode reg3 = OBMM_MMAP_NORMAL) then ops
          else OBMM_SHM_CACHE_NONE in
        let '(ret4, st4) :=
          if negb (flush_op =? OBMM_SHM_CACHE_NONE) then
            obmm_region_flush_range st3 (u64 (Z.shiftl (vm_pgoff v2) PAGE_SHIFT))
              (u64 (Z.shiftl (npages v2) PAGE_SHIFT)) flush_op
          else (0, st3) in
        if ctrue ret4 then Some (below ++ [v3] ++ above, ret4, Some (vm_end v3), st4)
        else
          let '(ret5, v5, st5) := update_vma_page_range st4 v3 (mem_state info) in
          Some (below ++ [v5] ++ above, ret5, Some (vm_end v3), st5).

(** [for_each_vma_range]: the VMAs, the return value, [cursor], [modified_end]. *)
Fixpoint update_loop (info : obmm_cmd_update_range) (vmas : list vma) (cursor modified_end : Z)
    (st : shm_state) : option (list vma * Z * Z * Z * shm_state) :=
  match vmas with
  | [] => Some ([], 0, cursor, modified_end, st)
  | v :: rest =>
    if vm_end v <=? ur_start info then
      '(l, ret, c, m, st') ← update_loop info rest cursor modified_end st;
      Some (v :: l, ret, c, m, st')
    else if ur_end info <=? vm_start v then Some (vmas, 0, cursor, modified_end, st)
    else
      '(l1, ret, reached, st1) ← update_one info st cursor v;
      let m1 := default modified_end reached in
      if ctrue ret then Some (l1 ++ rest, ret, cursor, m1, st1)
      else
        '(l2, ret2, c, m, st') ← update_loop info rest m1 m1 st1;
        Some (l1 ++ l2, ret2, c, m, st')
  end.

(** The rollback loop: [find_vma] returns the first VMA that ends after [cursor]. *)
Fixpoint rollback_loop (new_access cache_bits : Z) (vmas : list vma) (cursor modified_end : Z)
    (st : shm_state) : option (list vma * shm_state) :=
  if modified_end <=? cursor then Some (vmas, st)
  else
    match vmas with
    | [] => Some ([], st)
    | v :: rest =>
      if vm_end v <=? cursor then
        '(l, st') ← rollback_loop new_access cache_bits rest cursor modified_end st;
        Some (v :: l, st')
      else if cursor <? vm_start v then Some (vmas, st)
      else
        let old_vm_flags := vm_private_data v in
        let old_access := vm_flags_to_access old_vm_flags in
        '(_, reg1) ← update_vma_perm_count (s_reg st) (vm_pgoff v) (npages v) new_access old_access;
        let old_mem_state := Z.lor old_access cache_bits in
        let v1 := set_flags v (replace_flags (vm_flags v) old_vm_flags)
                    (mem_state_to_pgprot old_mem_state) (vm_private_data v) in
        let '(_, v2, st2) := update_vma_page_range (with_reg st reg1) v1 old_mem_state in
        '(l, st') ← rollback_loop new_access cache_bits rest (vm_end v) modified_end st2;
        Some (v2 :: l, st')
    end.

Definition obmm_shm_update_range (file : shm_file) (info : obmm_cmd_update_range)
    (vmas : list vma) (st : shm_state) : option (Z * list vma * shm_state) :=
  let cacheable := negb (f_osync file) in
  if negb (validate_update_info (s_reg st) info cacheable) then Some (- EINVAL, vmas, st)
  else if negb (validate_ownership_perm file info) then Some (- EPERM, vmas, st)
  else if negb (validate_state (mem_state info)) then Some (- EINVAL, vmas, st)
  else if negb (cache_ops info =? OBMM_SHM_CACHE_INFER) &&
          negb (obmm_is_valid_cache_ops (cache_ops info)) then Some (- EINVAL, vmas, st)
  else
    let new_access := Z.land (mem_state info) OBMM_SHM_MEM_ACCESS_MASK in
    let cache_bits := Z.land (mem_state info) OBMM_SHM_MEM_CACHE_MASK in
    '(l, ret0, cursor, modified_end, st1) ←
      update_loop info vmas (ur_start info) (ur_start info) st;
    let ret := if ctrue ret0 then ret0 else if cursor <? ur_end info then - EFAULT else 0 in
    if ctrue ret then
      '(l2, st2) ← rollback_loop new_access cache_bits l (ur_start info) modified_end st1;
      Some (ret, l2, st2)
    else Some (0, l, st1).
End Dev.

(** [obmm_shm_fops_open]: [refcnt] is the region's reference count. *)
Definition obmm_shm_fops_open (file : shm_file) (reg : obmm_region) (refcnt : Z) : Z * Z :=
  let cacheable := negb (f_osync file) in
  if cacheable && negb (ctrue (Z.land (mem_cap reg) OBMM_MEM_ALLOW_CACHEABLE_MMAP)) then
    (- EPERM, refcnt)
  else if negb cacheable &&
          negb (ctrue (Z.land (mem_cap reg) OBMM_MEM_ALLOW_NONCACHEABLE_MMAP)) then
    (- EPERM, refcnt)
  else if refcnt =? 0 then (- EAGAIN, refcnt)
  else (0, refcnt + 1).

(** [obmm_shm_fops_release]. *)
Definition obmm_shm_fops_release (refcnt : Z) : Z := refcnt - 1.

(** ** Address spaces and the mappings they hold *)

(** Size in bytes of an ownership entry. *)
Definition granule (reg : obmm_region) : Z :=
  match mmap_granu reg with OBMM_MMAP_GRANU_PMD => PMD_SIZE | _ => PAGE_SIZE end.

(** A mapping of the region: [q] and [n] are its first entry and its number of entries. *)
Definition vma_ok (reg : obmm_region) (v : vma) : Prop :=
  exists q n, vm_pgoff v * PAGE_SIZE = q * granule reg /\
    vm_end v - vm_start v = n * granule reg /\ (granule reg | vm_start v) /\
    0 <= q /\ 0 < n /\ (q + n) * granule reg <= mem_size reg < 2 ^ 64.

(** The VMAs of a process: in address order, from [lo] on. *)
Fixpoint mm_ok (reg : obmm_region) (lo : Z) (vmas : list vma) : Prop :=
  match vmas with
  | [] => True
  | v :: l => lo <= vm_start v < vm_end v /\ (vm_mine v = true -> vma_ok reg v) /\
              mm_ok reg (vm_end v) l
  end.

(** The mapping of a VMA as the ownership counters see it. *)
Definition hold (reg : obmm_region) (v : vma) : holding :=
  entry_of reg (vm_pgoff v) (npages v) (vm_flags_to_access (vm_flags v)).

Definition holdings (reg : obmm_region) (vmas : list vma) : list holding :=
  map (hold reg) (filter (fun v => vm_mine v = true) vmas).

(** Lists of mappings that give every entry the same numbers of readers and writers. *)
Definition heq (l1 l2 : list holding) : Prop :=
  forall j, count obmm_access_is_reader l1 j = count obmm_access_is_reader l2 j /\
            count obmm_access_is_writer l1 j = count obmm_access_is_writer l2 j.

#[export] Instance heq_equiv : Equivalence heq.
Proof.
  split.
  - intros l j. done.
  - intros l1 l2 H j. destruct (H j). by split.
  - intros l1 l2 l3 H1 H2 j. destruct (H1 j), (H2 j). split; congruence.
Qed.

#[export] Instance heq_app : Proper (heq ==> heq ==> heq) app.
Proof. intros a b H c d H' j. rewrite !count_app. destruct (H j), (H' j). split; lia. Qed.

#[export] Instance heq_cons h : Proper (heq ==> heq) (cons h).
Proof. intros a b H j. rewrite !count_cons. destruct (H j). split; lia. Qed.

Lemma heq_perm l1 l2 : l1 ≡ₚ l2 -> heq l1 l2.
Proof. intros H j. by rewrite H. Qed.

#[export] Instance own_ok_heq reg : Proper (heq ==> iff) (own_ok reg).
Proof.
  intros l1 l2 H. unfold own_ok. destruct (ownership_info reg) as [info|]; [|done].
  unfold counts_ok, state_ok. split; intros [Hl Hc]; (split; [done|]); intros j st Hj;
    destruct (H j) as [E1 E2]; [rewrite <- E1, <- E2|rewrite E1, E2]; auto.
Qed.

(** Two accesses count the same when they agree on reading and writing. *)
Lemma heq_same_class (h : holding) (a : Z) (l : list holding) :
  obmm_access_is_reader a = obmm_access_is_reader (h_acc h) ->
  obmm_access_is_writer a = obmm_access_is_writer (h_acc h) -> heq (with_acc h a :: l) (h :: l).
Proof. intros Hr Hw j. rewrite !count_cons. unfold holds. simpl. by rewrite Hr, Hw. Qed.

(** ** Arithmetic of entries *)

Lemma granule_pos reg : 0 < granule reg.
Proof. unfold granule. by destruct (mmap_granu reg). Qed.

Lemma aligned_granule reg addr : obmm_is_aligned reg addr = true <-> (granule reg | addr).
Proof.
  unfold obmm_is_aligned, granule, PMD_SIZE, PAGE_SIZE.
  rewrite <- Z.mod_divide by (destruct (mmap_granu reg); done).
  destruct (mmap_granu reg); rewrite is_aligned_pow2 by done; apply Z.eqb_eq.
Qed.

Lemma hold_entries reg v q n :
  vm_pgoff v * PAGE_SIZE = q * granule reg -> vm_end v - vm_start v = n * granule reg ->
  0 <= q -> 0 <= n -> n * granule reg < 2 ^ 64 ->
  hold reg v = {| h_idx := q; h_n := Z.to_nat n; h_acc := vm_flags_to_access (vm_flags v) |}.
Proof.
  intros Hq Hn H0 Hp Hb. unfold hold, entry_of, npages. f_equal.
  - unfold ownership_pgoff_to_index, granule, PMD_SIZE, PAGE_SIZE, PMD_SHIFT, PAGE_SHIFT in *.
    destruct (mmap_granu reg); rewrite ?Z.shiftr_div_pow2 by done; zlia.
  - f_equal. rewrite Hn. rewrite (uwrap_small 64 (n * _)) by (pose proof (granule_pos reg); nia).
    unfold ownership_size_to_nentries, granule, PMD_SIZE, PAGE_SIZE, PMD_SHIFT, PAGE_SHIFT in *.
    rewrite Z.shiftl_mul_pow2, Z.shiftr_div_pow2 by done.
    destruct (mmap_granu reg); rewrite ?Z.shiftr_div_pow2 by done;
      rewrite uwrap_small by zlia; zlia.
Qed.

(** ** What the operations leave alone *)

(** The geometry of a region, which no operation on a mapped region changes. *)
Definition geom (reg : obmm_region) : obmm_mmap_granu * Z := (mmap_granu reg, mem_size reg).

Lemma geom_inv r1 r2 : geom r1 = geom r2 -> mmap_granu r1 = mmap_granu r2 /\ mem_size r1 = mem_size r2.
Proof. by intros [= -> ->]. Qed.

Lemma hold_geom r1 r2 v : geom r1 = geom r2 -> hold r1 v = hold r2 v.
Proof.
  intros [Hg _]%geom_inv. unfold hold, entry_of, ownership_pgoff_to_index, ownership_size_to_nentries.
  by rewrite Hg.
Qed.

Lemma holdings_geom r1 r2 l : geom r1 = geom r2 -> holdings r1 l = holdings r2 l.
Proof. intros H. unfold holdings. apply map_ext. intros v. by apply hold_geom. Qed.

Lemma granule_geom r1 r2 : geom r1 = geom r2 -> granule r1 = granule r2.
Proof. intros [Hg _]%geom_inv. unfold granule. by rewrite Hg. Qed.

Lemma vma_ok_geom r1 r2 v : geom r1 = geom r2 -> vma_ok r1 v -> vma_ok r2 v.
Proof.
  intros H (q & n & Hv). exists q, n. rewrite <- (granule_geom _ _ H).
  apply geom_inv in H as [_ <-]. done.
Qed.

Lemma mm_ok_geom r1 r2 l : forall lo, geom r1 = geom r2 -> mm_ok r1 lo l -> mm_ok r2 lo l.
Proof.
  induction l as [|v l IH]; intros lo H; simpl; [done|]. intros (? & Hv & ?).
  split_and!; try lia; eauto using vma_ok_geom.
Qed.

Lemma own_ok_set_count reg c hs : own_ok (set_count reg c) hs <-> own_ok reg hs.
Proof. done. Qed.

(** ** Flags *)

(** The part of a VMA that access rights and offsets are read from. *)
Definition strip (v : vma) := (vm_start v, vm_end v, vm_pgoff v, vm_flags v, vm_mine v).

Lemma replace_flags_land old new b :
  Z.land b OBMM_UPDATE_VM_FLAGS_MASK = b ->
  Z.land (replace_flags old new) b = Z.land new b.
Proof.
  intros Hb. unfold replace_flags. rewrite Z.land_lor_distr_l, <- !Z.land_assoc.
  rewrite (Z.land_comm (Z.lnot _) b), (Z.land_comm OBMM_UPDATE_VM_FLAGS_MASK b), Hb.
  rewrite <- Z.ldiff_land. replace (Z.ldiff b OBMM_UPDATE_VM_FLAGS_MASK) with 0.
  - by rewrite Z.land_0_r.
  - rewrite <- Hb at 1. symmetry. apply Z.bits_inj'. intros k Hk.
    rewrite Z.ldiff_spec, Z.land_spec, Z.bits_0.
    by destruct (Z.testbit b k), (Z.testbit OBMM_UPDATE_VM_FLAGS_MASK k).
Qed.

Lemma access_cases (state : Z) :
  let a := Z.land state OBMM_SHM_MEM_ACCESS_MASK in a = 0 \/ a = 4 \/ a = 8 \/ a = 12.
Proof.
  unfold OBMM_SHM_MEM_ACCESS_MASK. change 12 with (Z.land (Z.ones 4) 12).
  rewrite Z.land_assoc, Z.land_ones by done. pose proof (Z.mod_pos_bound state (2 ^ 4)).
  change (2 ^ 4) with 16 in *. set (m := state mod 16) in *. clearbody m.
  assert (Hm : In m (map Z.of_nat (seq 0 16))).
  { apply in_map_iff. exists (Z.to_nat m). rewrite in_seq. lia. }
  simpl in Hm. repeat destruct Hm as [<-|Hm]; vm_compute; tauto.
Qed.

(** After the update the VMA counts as the requested access. *)
Lemma replace_flags_class old state :
  let a := Z.land state OBMM_SHM_MEM_ACCESS_MASK in
  let acc := vm_flags_to_access (replace_flags old (access_to_vm_flags a)) in
  obmm_access_is_reader acc = obmm_access_is_reader a /\
  obmm_access_is_writer acc = obmm_access_is_writer a.
Proof.
  pose proof (access_cases state) as Ha. intros a. unfold vm_flags_to_access.
  rewrite !replace_flags_land by reflexivity.
  destruct (ctrue (Z.land (replace_flags old (access_to_vm_flags a)) VM_EXEC));
    destruct Ha as [Ha|[Ha|[Ha|Ha]]]; unfold a; rewrite Ha; split; reflexivity.
Qed.

Lemma replace_flags_restore old new : replace_flags (replace_flags old new) old = old.
Proof.
  unfold replace_flags. apply Z.bits_inj'. intros k Hk.
  rewrite !Z.lor_spec, !Z.land_spec, Z.lor_spec, !Z.land_spec, Z.lnot_spec by done.
  destruct (Z.testbit old k), (Z.testbit new k), (Z.testbit OBMM_UPDATE_VM_FLAGS_MASK k); done.
Qed.

(** ** Splitting *)

(** [split_at v a] are the two parts of [v]. *)
Definition split_at (v : vma) (a : Z) : vma * vma :=
  (set_bounds v (vm_start v) a (vm_pgoff v),
   set_bounds v a (vm_end v) (vm_pgoff v + Z.shiftr (a - vm_start v) PAGE_SHIFT)).

Lemma split_ok reg v a :
  vma_ok reg v -> vm_start v < a < vm_end v -> (granule reg | a) ->
  vma_ok reg (split_at v a).1 /\ vma_ok reg (split_at v a).2 /\
  heq [hold reg (split_at v a).1; hold reg (split_at v a).2] [hold reg v].
Proof.
  intros (q & n & Hq & Hn & [s Hs] & Hq0 & Hn0 & Hm) Ha [k Hk].
  pose proof (granule_pos reg) as Hg.
  assert (Hpg : granule reg = PAGE_SIZE * (granule reg / PAGE_SIZE) /\ 0 < granule reg / PAGE_SIZE)
    by (unfold granule; by destruct (mmap_granu reg)).
  set (m := k - s). assert (Hm0 : 0 < m < n) by (unfold m; nia).
  assert (Hd : a - vm_start v = m * granule reg) by (unfold m; nia).
  assert (Hsh : Z.shiftr (a - vm_start v) PAGE_SHIFT * PAGE_SIZE = m * granule reg).
  { rewrite Hd, Z.shiftr_div_pow2 by done. fold PAGE_SIZE. destruct Hpg as [-> _].
    rewrite (Z.mul_comm PAGE_SIZE), Z.mul_assoc, Z.div_mul by done. done. }
  assert (Hb : vma_ok reg (split_at v a).1).
  { exists q, m. simpl. split_and!; [done|done|by exists s|done|lia|nia|lia]. }
  assert (Hc : vma_ok reg (split_at v a).2).
  { exists (q + m), (n - m). simpl. split_and!; [nia|nia|by exists k|lia|lia|nia|lia]. }
  split_and!; [done|done|].
  rewrite (hold_entries reg v q n), (hold_entries reg (split_at v a).1 q m),
    (hold_entries reg (split_at v a).2 (q + m) (n - m)); simpl; try lia; try nia.
  intros j. rewrite !count_cons. unfold holds, in_range, count. simpl.
  split; repeat destruct (decide _); lia.
Qed.

(** The same address space up to splitting, and up to fields that carry no rights. *)
Inductive splits (g : Z) : list vma -> list vma -> Prop :=
  | sp_nil : splits g [] []
  | sp_keep v v' l l' : strip v = strip v' -> splits g l l' -> splits g (v :: l) (v' :: l')
  | sp_split v a l l' :
      vm_mine v = true -> vm_start v < a < vm_end v -> (g | a) ->
      splits g ((split_at v a).1 :: (split_at v a).2 :: l) l' -> splits g (v :: l) l'.

Lemma splits_refl g l : splits g l l.
Proof. induction l; by constructor. Qed.

Lemma mm_ok_split reg lo v a l :
  vm_mine v = true -> vm_start v < a < vm_end v -> (granule reg | a) ->
  mm_ok reg lo (v :: l) -> mm_ok reg lo ((split_at v a).1 :: (split_at v a).2 :: l).
Proof.
  intros Hm Ha Hg (Hlo & Hv & Hl). destruct (split_ok reg v a (Hv Hm) Ha Hg) as (H1 & H2 & _).
  simpl. split_and!; try lia; try done.
Qed.

Lemma holdings_split reg v a l :
  vm_mine v = true -> vma_ok reg v -> vm_start v < a < vm_end v -> (granule reg | a) ->
  heq (holdings reg ((split_at v a).1 :: (split_at v a).2 :: l)) (holdings reg (v :: l)).
Proof.
  intros Hm Hv Ha Hg. destruct (split_ok reg v a Hv Ha Hg) as (_ & _ & H).
  unfold holdings. rewrite !filter_cons_True by done. simpl.
  change (heq ([hold reg (split_at v a).1; hold reg (split_at v a).2] ++
    map (hold reg) (filter (fun v => vm_mine v = true) l))
    ([hold reg v] ++ map (hold reg) (filter (fun v => vm_mine v = true) l))).
  by rewrite H.
Qed.

Lemma strip_hold reg v v' : strip v = strip v' -> hold reg v = hold reg v'.
Proof. unfold strip, hold, npages. by intros [= -> -> -> -> _]. Qed.

Lemma holdings_cons reg v l :
  holdings reg (v :: l) = (if vm_mine v then [hold reg v] else []) ++ holdings reg l.
Proof.
  unfold holdings. destruct (vm_mine v) eqn:Hm.
  - by rewrite filter_cons_True by done.
  - by rewrite filter_cons_False by (rewrite Hm; done).
Qed.

(** Splitting does not change what is counted. *)
Lemma splits_holdings reg l l' : splits (granule reg) l l' -> forall lo,
  mm_ok reg lo l -> heq (holdings reg l) (holdings reg l') /\ mm_ok reg lo l'.
Proof.
  induction 1 as [|v v' l l' Hs _ IH|v a l l' Hm Ha Hg _ IH]; intros lo Hok.
  - done.
  - destruct Hok as (Hlo & Hv & Hl). pose proof Hs as Hs'. unfold strip in Hs'.
    injection Hs' as Es Ee Ep Ef Em. destruct (IH _ Hl) as [Hh Hl'].
    rewrite !holdings_cons, <- Em, (strip_hold reg v v' Hs), Hh. split; [done|].
    simpl. rewrite <- Es, <- Ee, <- Em. split_and!; try lia; [|done].
    intros Hmine. destruct (Hv Hmine) as (q & n & Hvn). exists q, n.
    rewrite <- Es, <- Ee, <- Ep. done.
  - destruct (IH lo) as [Hh Hl']; [by apply mm_ok_split|]. split; [|done].
    rewrite <- Hh. symmetry. apply holdings_split; try done. by apply Hok.
Qed.

(** ** The state of the address space during an update *)

(** [v'] is [v] after the update: new rights, old flags stashed. *)
Definition modified (N : Z) (v v' : vma) : Prop :=
  vm_start v' = vm_start v /\ vm_end v' = vm_end v /\ vm_pgoff v' = vm_pgoff v /\
  vm_mine v' = vm_mine v /\ vm_flags v' = replace_flags (vm_flags v) N /\
  vm_private_data v' = vm_flags v.

(** Up to splitting, the VMAs between [c] and [me] are modified, the others are not. *)
Inductive upd (g N : Z) : Z -> Z -> list vma -> list vma -> Prop :=
  | upd_stop c l l' : splits g l l' -> upd g N c c l l'
  | upd_skip c me v l l' : vm_end v <= c -> upd g N c me l l' -> upd g N c me (v :: l) (v :: l')
  | upd_split c me v a l l' :
      vm_mine v = true -> vm_start v < a < vm_end v -> (g | a) ->
      upd g N c me ((split_at v a).1 :: (split_at v a).2 :: l) l' -> upd g N c me (v :: l) l'
  | upd_mod c me v v' l l' :
      vm_mine v = true -> vm_start v = c -> c < vm_end v <= me -> modified N v v' ->
      upd g N (vm_end v) me l l' -> upd g N c me (v :: l) (v' :: l').

Lemma upd_le g N c me l l' : upd g N c me l l' -> c <= me.
Proof. induction 1; lia. Qed.

Lemma upd_empty g N c me l l' : upd g N c me l l' -> me <= c -> splits g l l'.
Proof.
  induction 1; intros Hle; [done|constructor; auto|econstructor; eauto|lia].
Qed.

Lemma modified_ok reg N v v' : modified N v v' -> vma_ok reg v -> vma_ok reg v'.
Proof. intros (Es & Ee & Ep & _) (q & n & H). exists q, n. by rewrite Es, Ee, Ep. Qed.

(** The mapping of a modified VMA counts as the requested access. *)
Lemma modified_hold reg state v v' l :
  let a := Z.land state OBMM_SHM_MEM_ACCESS_MASK in
  modified (access_to_vm_flags a) v v' ->
  heq (with_acc (hold reg v) a :: l) (hold reg v' :: l).
Proof.
  intros a (Es & Ee & Ep & _ & Ef & _).
  destruct (replace_flags_class (vm_flags v) state) as [Hr Hw].
  rewrite <- (heq_same_class (hold reg v') a l).
  - unfold hold, npages, with_acc. simpl. by rewrite Es, Ee, Ep.
  - simpl. rewrite Ef. by symmetry.
  - simpl. rewrite Ef. by symmetry.
Qed.

Lemma vma_ok_in_region reg v : vma_ok reg v -> in_region reg (hold reg v).
Proof.
  intros (q & n & Hq & Hn & _ & H0 & H1 & Hm). pose proof (granule_pos reg).
  rewrite (hold_entries reg v q n) by (done || nia). split; simpl; [done|].
  rewrite Z2Nat.id by lia. unfold region_entries, ownership_size_to_nentries.
  assert (q + n <= mem_size reg / granule reg) by (apply Z.div_le_lower_bound; lia).
  unfold granule, PMD_SIZE, PAGE_SIZE in *.
  destruct (mmap_granu reg); rewrite Z.shiftr_div_pow2 by done; done.
Qed.

Lemma in_region_acc reg h a : in_region reg h -> in_region reg (with_acc h a).
Proof. done. Qed.

(** The mapping mode and whether there are counters. *)
Definition stat (reg : obmm_region) : obmm_mmap_mode * bool :=
  (mmap_mode reg, if ownership_info reg is Some _ then true else false).

Lemma stat_inv r1 r2 : stat r1 = stat r2 ->
  mmap_mode r1 = mmap_mode r2 /\ (ownership_info r1 = None <-> ownership_info r2 = None).
Proof.
  intros [= -> H]. split; [done|]. by destruct (ownership_info r1), (ownership_info r2).
Qed.

(** Changing the counted access of one VMA. *)
Lemma perm_count_vma reg v old new hs :
  vma_ok reg v -> own_ok reg (with_acc (hold reg v) old :: hs) ->
  exists op reg', update_vma_perm_count reg (vm_pgoff v) (npages v) old new = Some (op, reg') /\
    own_ok reg' (with_acc (hold reg v) new :: hs) /\ geom reg' = geom reg /\
    stat reg' = stat reg.
Proof.
  intros Hv Hok.
  destruct (perm_count_ok reg (vm_pgoff v) (npages v) old new hs) as (op & info' & He & Hok' & Hn).
  - by apply vma_ok_in_region in Hv.
  - done.
  - exists op, (set_info reg info'). split_and!; try done. unfold stat. simpl. f_equal.
    destruct Hn as [Hn1 Hn2], (ownership_info reg), info'; try done;
      [by specialize (Hn2 eq_refl)|by specialize (Hn1 eq_refl)].
Qed.

Section Rollback.
Context (orc : nat -> Z) (state : Z).
Let a := Z.land state OBMM_SHM_MEM_ACCESS_MASK.

Lemma rollback_done g cb l1 l2 c me st hs :
  me <= c -> splits g l1 l2 -> own_ok (s_reg st) (holdings (s_reg st) l2 ++ hs) ->
  exists l'' st', rollback_loop orc a cb l2 c me st = Some (l'', st') /\ splits g l1 l'' /\
    geom (s_reg st') = geom (s_reg st) /\ stat (s_reg st') = stat (s_reg st) /\
    own_ok (s_reg st') (holdings (s_reg st) l'' ++ hs).
Proof.
  intros Hle Hs Ho. exists l2, st.
  destruct l2; cbn [rollback_loop]; rewrite (proj2 (Z.leb_le _ _) Hle); done.
Qed.

(** The counters when one modified VMA is given its old access back. *)
Lemma rollback_count reg v v' hs :
  vma_ok reg v -> modified (access_to_vm_flags a) v v' -> own_ok reg (hold reg v' :: hs) ->
  exists op reg1, update_vma_perm_count reg (vm_pgoff v') (npages v') a
      (vm_flags_to_access (vm_private_data v')) = Some (op, reg1) /\
    own_ok reg1 (hold reg v :: hs) /\ geom reg1 = geom reg /\ stat reg1 = stat reg.
Proof.
  intros Hv Hmod Hok. rewrite <- (modified_hold reg state v v' _ Hmod) in Hok.
  destruct Hmod as (Es & Ee & Ep & _ & _ & Epr).
  destruct (perm_count_vma reg v a (vm_flags_to_access (vm_flags v)) hs)
    as (op & reg1 & He & Ho & Hge & Hmo); [done..|].
  exists op, reg1. unfold npages. rewrite Es, Ee, Ep, Epr. done.
Qed.

(** The rollback undoes the update: it gives every modified VMA its old rights back
    and counts it as before. *)
Lemma rollback_upd g c me l l' :
  upd g (access_to_vm_flags a) c me l l' -> forall cb lo st hs,
  g = granule (s_reg st) -> mm_ok (s_reg st) lo l ->
  own_ok (s_reg st) (holdings (s_reg st) l' ++ hs) ->
  exists l'' st', rollback_loop orc a cb l' c me st = Some (l'', st') /\ splits g l l'' /\
    geom (s_reg st') = geom (s_reg st) /\ stat (s_reg st') = stat (s_reg st) /\
    own_ok (s_reg st') (holdings (s_reg st) l'' ++ hs).
Proof.
  induction 1 as [c l l' Hs|c me v l l' Hle Hu IH|c me v x l l' Hm Hx Hgx Hu IH
    |c me v v' l l' Hm Hc Hme Hmod Hu IH]; intros cb lo st hs Hg Hmm Hok.
  - apply rollback_done; [lia|done..].
  - destruct (Z.leb_spec me c).
    { apply rollback_done; [done| |done]. constructor; [done|]. by eapply upd_empty. }
    cbn [rollback_loop]. rewrite (proj2 (Z.leb_gt me c)), (proj2 (Z.leb_le _ _) Hle) by lia.
    destruct Hmm as (_ & _ & Hmm). rewrite holdings_cons, <- app_assoc in Hok.
    destruct (IH cb (vm_end v) st ((if vm_mine v then [hold (s_reg st) v] else []) ++ hs))
      as (l'' & st' & -> & Hsp & Hge & Hmo & Ho); [done..| |].
    { revert Hok. apply own_ok_heq, heq_perm. solve_Permutation. }
    exists (v :: l''), st'. cbn [mbind option_bind]. split_and!; try done; [by constructor|].
    rewrite holdings_cons. revert Ho. apply own_ok_heq, heq_perm. solve_Permutation.
  - destruct (IH cb lo st hs) as (l'' & st' & He & Hsp & Hrest); [done|by apply mm_ok_split; subst|done|].
    exists l'', st'. split; [done|]. split; [by eapply sp_split|done].
  - pose proof Hmod as (Es & Ee & Ep & Em & Ef & Epr). destruct Hmm as (Hlo & Hv & Hmm).
    cbn [rollback_loop]. rewrite (proj2 (Z.leb_gt me c)), (proj2 (Z.leb_gt (vm_end v') c)),
      (proj2 (Z.ltb_ge c (vm_start v'))) by lia.
    rewrite holdings_cons, Em, Hm in Hok. simpl in Hok.
    destruct (rollback_count (s_reg st) v v' (holdings (s_reg st) l' ++ hs))
      as (op & reg1 & He & Ho & Hge & Hmo); [by apply Hv|done|done|].
    rewrite He. cbn [mbind option_bind]. unfold update_vma_page_range. cbv zeta.
    set (v1 := set_flags v' _ _ _).
    set (v2 := if ctrue _ then v1 else set_pt v1 _).
    assert (Hst : strip v = strip v2).
    { unfold v2, v1. destruct (ctrue _); unfold strip; simpl; rewrite Ef, Epr, replace_flags_restore;
        by rewrite Es, Ee, Ep, Em. }
    set (st2 := tick (with_reg st reg1)).
    assert (E2 : s_reg st2 = reg1) by done.
    destruct (IH cb (vm_end v) st2 (hold (s_reg st) v :: hs)) as (l'' & st' & He2 & Hsp & Hge2 & Hmo2 & Ho2).
    { rewrite E2, Hg. symmetry. by apply granule_geom. }
    { rewrite E2. by eapply mm_ok_geom. }
    { rewrite E2, (holdings_geom _ _ _ Hge). revert Ho. apply own_ok_heq.
      rewrite (heq_perm (holdings (s_reg st) l' ++ hold (s_reg st) v :: hs)
        (hold (s_reg st) v :: holdings (s_reg st) l' ++ hs)) by solve_Permutation. done. }
    rewrite Ee, He2. cbn [mbind option_bind]. exists (v2 :: l''), st'.
    rewrite E2 in *. split_and!; [done|by constructor|congruence|congruence|].
    rewrite holdings_cons. replace (vm_mine v2) with true by (unfold strip in Hst; congruence).
    rewrite <- (strip_hold _ _ _ Hst). rewrite (holdings_geom _ _ _ Hge) in Ho2.
    revert Ho2. apply own_ok_heq, heq_perm. solve_Permutation.
Qed.
End Rollback.

(** ** One VMA of the update *)

(** Two regions that differ in nothing the counters depend on. *)
Definition frame (r r' : obmm_region) : Prop :=
  geom r' = geom r /\ stat r' = stat r /\ forall hs, own_ok r hs -> own_ok r' hs.

Lemma frame_refl r : frame r r.
Proof. done. Qed.

Lemma split_vma_spec orc st v addr nb :
  exists ret extra v' st', split_vma orc st v addr nb = (ret, extra, v', st') /\
    frame (s_reg st) (s_reg st') /\
    (ctrue ret = true /\ extra = [] /\ v' = v \/
     ctrue ret = false /\ (granule (s_reg st) | addr) /\
     (extra, v') = if nb then ([(split_at v addr).1], (split_at v addr).2)
                   else ([(split_at v addr).2], (split_at v addr).1)).
Proof.
  unfold split_vma, obmm_vma_may_split.
  destruct (obmm_is_aligned (s_reg st) addr) eqn:Ha; simpl.
  - apply aligned_granule in Ha. destruct (ctrue (orc (s_n st))) eqn:Ho.
    + eexists _, _, _, _. split; [done|]. split; [done|]. left. done.
    + destruct nb; (eexists _, _, _, _; split; [done|]; split; [done|]; right; done).
  - eexists _, _, _, _. split; [done|]. split; [done|]. left. done.
Qed.

Lemma flush_range_reg orc st o n ops :
  s_reg (obmm_region_flush_range orc st o n ops).2 = s_reg st.
Proof.
  unfold obmm_region_flush_range. destruct (negb _); [done|]. destruct (_ || _); [done|].
  by destruct (_ =? _).
Qed.

Lemma splits_app g l1 l1' l2 l2' :
  splits g l1 l1' -> splits g l2 l2' -> splits g (l1 ++ l2) (l1' ++ l2').
Proof. intros H H2. induction H; simpl; [done|by constructor|by econstructor]. Qed.

Lemma holdings_app reg l1 l2 : holdings reg (l1 ++ l2) = holdings reg l1 ++ holdings reg l2.
Proof. unfold holdings. by rewrite filter_app, map_app. Qed.

Section UpdateOne.
Context (orc : nat -> Z) (info : obmm_cmd_update_range).
Let a := Z.land (mem_state info) OBMM_SHM_MEM_ACCESS_MASK.
Let N := access_to_vm_flags a.

(** Splitting at the start of the range. *)
Lemma split_start st v c :
  vm_mine v = true -> vma_ok (s_reg st) v -> vm_start v <= c < vm_end v ->
  exists ret below v1 st1,
    (if vm_start v <? c then split_vma orc st v c true else (0, [], v, st))
      = (ret, below, v1, st1) /\ frame (s_reg st) (s_reg st1) /\
    (ctrue ret = true /\ below = [] /\ v1 = v \/
     ctrue ret = false /\ vm_mine v1 = true /\ vm_start v1 = c /\ vm_end v1 = vm_end v /\
     vma_ok (s_reg st) v1 /\
     heq (holdings (s_reg st) (below ++ [v1])) (holdings (s_reg st) [v]) /\
     (forall l l', splits (granule (s_reg st)) (v1 :: l) l' ->
        splits (granule (s_reg st)) (v :: l) (below ++ l')) /\
     (forall me l l', upd (granule (s_reg st)) N c me (v1 :: l) l' ->
        upd (granule (s_reg st)) N c me (v :: l) (below ++ l'))).
Proof.
  intros Hm Hv Hc. destruct (Z.ltb_spec (vm_start v) c) as [Hlt|Hge].
  - destruct (split_vma_spec orc st v c true) as (ret & ex & v1 & st1 & -> & Hf & Hcase).
    exists ret, ex, v1, st1. split; [done|]. split; [done|].
    destruct Hcase as [?|(Hr & Hg & He)]; [by left|]. injection He as -> ->.
    right. destruct (split_ok (s_reg st) v c Hv ltac:(lia) Hg) as (_ & Hv2 & _).
    split_and!; try done.
    + apply (holdings_split (s_reg st) v c []); try done. lia.
    + intros l l' Hs. apply (sp_split _ v c); try done; [lia|]. simpl app. by constructor.
    + intros me l l' Hu. apply (upd_split _ _ _ _ v c); try done; [lia|].
      simpl app. apply upd_skip; [simpl; lia|done].
  - exists 0, [], v, st. split; [done|]. split; [done|]. right.
    split_and!; try done. lia.
Qed.

(** Splitting at the end of the range. *)
Lemma split_end st v c :
  vm_mine v = true -> vma_ok (s_reg st) v -> vm_start v = c -> c < ur_end info ->
  c < vm_end v ->
  exists ret above v2 st2,
    (if ur_end info <? vm_end v then split_vma orc st v (ur_end info) false else (0, [], v, st))
      = (ret, above, v2, st2) /\ frame (s_reg st) (s_reg st2) /\
    (ctrue ret = true /\ above = [] /\ v2 = v \/
     ctrue ret = false /\ vm_mine v2 = true /\ vm_start v2 = c /\ c < vm_end v2 <= ur_end info /\
     (above = [] /\ vm_end v2 = vm_end v \/ (vm_end v2 = ur_end info /\ ur_end info < vm_end v)) /\
     vma_ok (s_reg st) v2 /\
     heq (holdings (s_reg st) (v2 :: above)) (holdings (s_reg st) [v]) /\
     (forall me l l', upd (granule (s_reg st)) N c me (v2 :: above ++ l) l' ->
        upd (granule (s_reg st)) N c me (v :: l) l')).
Proof.
  intros Hm Hv Hs Hc Hc2. destruct (Z.ltb_spec (ur_end info) (vm_end v)) as [Hlt|Hge].
  - destruct (split_vma_spec orc st v (ur_end info) false) as (ret & ex & v2 & st2 & -> & Hf & Hcase).
    exists ret, ex, v2, st2. split; [done|]. split; [done|].
    destruct Hcase as [?|(Hr & Hg & He)]; [by left|]. injection He as -> ->.
    right. destruct (split_ok (s_reg st) v (ur_end info) Hv ltac:(lia) Hg) as (Hv1 & _ & _).
    split_and!; try done; simpl; try lia.
    + apply (holdings_split (s_reg st) v (ur_end info) []); try done. lia.
    + intros me l l' Hu. apply (upd_split _ _ _ _ v (ur_end info)); try done. lia.
  - exists 0, [], v, st. split; [done|]. split; [done|]. right.
    split_and!; try done; try lia. left. done.
Qed.

(** The counters and the VMA once it is reached. *)
Lemma update_counts reg v hs :
  vma_ok reg v -> own_ok reg (hold reg v :: hs) ->
  exists op reg', update_vma_perm_count reg (vm_pgoff v) (npages v)
      (vm_flags_to_access (vm_flags v)) a = Some (op, reg') /\
    geom reg' = geom reg /\ stat reg' = stat reg /\
    forall v', modified N v v' -> own_ok reg' (hold reg v' :: hs).
Proof.
  intros Hv Hok.
  destruct (perm_count_vma reg v (vm_flags_to_access (vm_flags v)) a hs)
    as (op & reg' & He & Ho & Hge & Hmo); [done..|].
  exists op, reg'. split_and!; try done. intros v' Hmod.
  by rewrite <- (modified_hold reg (mem_state info) v v' hs Hmod).
Qed.

(** The loop body: either the VMA is at most split, or it is modified up to [e]. *)
Lemma update_one_spec st c v hs :
  (vm_mine v = true -> vma_ok (s_reg st) v) -> c < vm_end v -> c < ur_end info ->
  own_ok (s_reg st) (holdings (s_reg st) [v] ++ hs) ->
  let g := granule (s_reg st) in
  exists l1 ret reached st1, update_one orc info st c v = Some (l1, ret, reached, st1) /\
    geom (s_reg st1) = geom (s_reg st) /\ stat (s_reg st1) = stat (s_reg st) /\
    own_ok (s_reg st1) (holdings (s_reg st) l1 ++ hs) /\
    (reached = None /\ ctrue ret = true /\ splits g [v] l1 \/
     exists e above, reached = Some e /\ c < e <= ur_end info /\
       (above = [] /\ e = vm_end v \/ (e = ur_end info /\ ur_end info < vm_end v)) /\
       forall me l l', upd g N e me (above ++ l) (above ++ l') -> upd g N c me (v :: l) (l1 ++ l')).
Proof.
  intros Hv Hcv Hce Hok g. unfold update_one. fold a N.
  destruct (Z.ltb_spec c (vm_start v)).
  { eexists _, _, _, _. split; [done|]. split_and!; try done. left. split_and!; [reflexivity|reflexivity|apply splits_refl]. }
  destruct (vm_mine v) eqn:Hm; simpl negb; cbv iota.
  2: { eexists _, _, _, _. split; [done|]. split_and!; try done. left. split_and!; [reflexivity|reflexivity|apply splits_refl]. }
  specialize (Hv eq_refl).
  destruct (split_start st v c Hm Hv ltac:(lia))
    as (ret1 & below & v1 & st1 & -> & (Hge1 & Hmo1 & Hf1) & Hs1). cbv iota beta.
  destruct Hs1 as [(Hr1 & -> & ->)|(Hr1 & Hm1 & Hst1 & Hen1 & Hv1 & Hh1 & Hsp1 & Hup1)]; rewrite Hr1.
  { eexists _, _, _, _. split; [done|]. split_and!; auto. left.
    split_and!; [done|done|apply splits_refl]. }
  rewrite <- Hh1 in Hok.
  apply (vma_ok_geom (s_reg st) (s_reg st1)) in Hv1; [|done].
  destruct (split_end st1 v1 c Hm1 Hv1 Hst1 Hce ltac:(lia))
    as (ret2 & above & v2 & st2 & -> & (Hge2 & Hmo2 & Hf2) & Hs2). cbv iota beta.
  rewrite (granule_geom _ _ Hge1), !(holdings_geom _ _ _ Hge1) in Hs2. fold g in Hs2, Hsp1, Hup1.
  destruct Hs2 as [(Hr2 & -> & ->)|(Hr2 & Hm2 & Hst2 & Hen2 & Hab & Hv2 & Hh2 & Hup2)]; rewrite Hr2.
  { eexists _, _, _, _. split; [done|]. split_and!; try congruence.
    - rewrite app_nil_r. auto.
    - left. split_and!; try done. rewrite app_nil_r. apply Hsp1, splits_refl. }
  apply (vma_ok_geom (s_reg st1) (s_reg st2)) in Hv2; [|done].
  assert (Hge : geom (s_reg st2) = geom (s_reg st)) by congruence.
  assert (Hok2 : own_ok (s_reg st2) (hold (s_reg st2) v2 :: holdings (s_reg st) (below ++ above) ++ hs)).
  { apply Hf2, Hf1. revert Hok. apply own_ok_heq.
    rewrite !holdings_app, <- Hh2, (hold_geom _ _ _ Hge), (holdings_cons _ v2), Hm2.
    apply heq_perm. solve_Permutation. }
  destruct (update_counts (s_reg st2) v2 _ Hv2 Hok2) as (ops & reg3 & -> & Hge3 & Hmo3 & Hcnt).
  cbn [mbind option_bind].
  set (v3 := set_flags v2 _ _ _). set (flush_op := if negb (cache_ops info =? _) then _ else _).
  set (fl := if negb (flush_op =? _) then _ else _).
  assert (Hfl : s_reg fl.2 = reg3).
  { unfold fl. clearbody flush_op. destruct (flush_op =? _); simpl; [done|].
    by rewrite flush_range_reg. }
  assert (Hfin : forall v', modified N v2 v' ->
    own_ok reg3 (holdings (s_reg st) (below ++ [v'] ++ above) ++ hs) /\
    forall me l l', upd g N (vm_end v2) me (above ++ l) (above ++ l') ->
      upd g N c me (v :: l) ((below ++ [v'] ++ above) ++ l')).
  { intros v' Hmod. pose proof Hmod as (_ & _ & _ & Em & _). split.
    - specialize (Hcnt v' Hmod). revert Hcnt. apply own_ok_heq.
      rewrite !holdings_app, (hold_geom _ _ _ Hge), (holdings_cons _ v'), Em, Hm2.
      apply heq_perm. solve_Permutation.
    - intros me l l' Hu. rewrite <- !app_assoc. apply Hup1, Hup2. simpl app.
      apply upd_mod; try done. pose proof (upd_le _ _ _ _ _ _ Hu). lia. }
  assert (Hm3 : modified N v2 v3) by done.
  destruct fl as [ret4 st4] eqn:Efl. simpl in Hfl. subst reg3. destruct (ctrue ret4).
  - eexists _, _, _, _. split; [done|]. destruct (Hfin v3 Hm3) as [H1 H2].
    split_and!; try congruence. right. exists (vm_end v2), above. split_and!; try lia; try done.
    destruct Hab as [[-> ?]|?]; [left; split; [done|congruence]|right; lia].
  - unfold update_vma_page_range. eexists _, _, _, _. split; [done|].
    destruct (Hfin (if ctrue (orc (s_n st4)) then v3 else set_pt v3 (mem_state_to_pgprot (mem_state info))))
      as [H1 H2]; [by destruct (ctrue (orc (s_n st4)))|].
    change (s_reg (tick st4)) with (s_reg st4).
    split_and!; [congruence|congruence|exact H1|]. right. exists (vm_end v2), above. split_and!; try lia; try done.
    destruct Hab as [[-> ?]|?]; [left; split; [done|congruence]|right; lia].
Qed.

Lemma update_loop_done reg vmas : forall lo c m st,
  mm_ok reg lo vmas -> ur_start info < ur_end info -> ur_end info <= lo ->
  update_loop orc info vmas c m st = Some (vmas, 0, c, m, st).
Proof.
  destruct vmas as [|v l]; intros lo c m st Hmm Hse Hlo; [done|]. destruct Hmm as (Hv & _).
  cbn [update_loop]. rewrite (proj2 (Z.leb_gt _ _)), (proj2 (Z.leb_le _ _)) by lia. done.
Qed.

Lemma update_loop_spec vmas : forall c st lo hs,
  ur_start info < ur_end info -> ur_start info <= c <= ur_end info ->
  c = ur_start info \/ c <= lo -> mm_ok (s_reg st) lo vmas ->
  own_ok (s_reg st) (holdings (s_reg st) vmas ++ hs) ->
  let g := granule (s_reg st) in
  exists l ret c' me st', update_loop orc info vmas c c st = Some (l, ret, c', me, st') /\
    upd g N c me vmas l /\ (ctrue ret = false -> c' = me) /\ me <= ur_end info /\
    geom (s_reg st') = geom (s_reg st) /\ stat (s_reg st') = stat (s_reg st) /\
    own_ok (s_reg st') (holdings (s_reg st) l ++ hs).
Proof.
  induction vmas as [|v vmas IH]; intros c st lo hs Hse Hc Hlo Hmm Hok g.
  { eexists _, _, _, _, _. split; [done|]. split_and!; try done; [|lia]. apply upd_stop, splits_refl. }
  pose proof Hmm as (Hv & Hvok & Hmm'). cbn [update_loop].
  destruct (Z.leb_spec (vm_end v) (ur_start info)) as [Hskip|Hskip].
  { destruct (IH c st (vm_end v) ((if vm_mine v then [hold (s_reg st) v] else []) ++ hs))
      as (l & ret & c' & me & st' & -> & Hu & Hr & Hme & Hge & Hmo & Ho); try done; [lia| |].
    { revert Hok. rewrite holdings_cons. apply own_ok_heq, heq_perm. solve_Permutation. }
    exists (v :: l), ret, c', me, st'. split_and!; try done; [apply upd_skip; [lia|done]|].
    revert Ho. rewrite holdings_cons. apply own_ok_heq, heq_perm. solve_Permutation. }
  destruct (Z.leb_spec (ur_end info) (vm_start v)).
  { eexists _, _, _, _, _. split; [done|]. split_and!; try done; [|lia]. apply upd_stop, splits_refl. }
  destruct (update_one_spec st c v (holdings (s_reg st) vmas ++ hs))
    as (l1 & ret & reached & st1 & -> & Hge & Hmo & Ho & Hcase); [done|lia|lia| |].
  { revert Hok. apply own_ok_heq, heq_perm. rewrite !holdings_cons. simpl. solve_Permutation. }
  cbn [mbind option_bind].
  assert (Ho' : own_ok (s_reg st1) (holdings (s_reg st) (l1 ++ vmas) ++ hs)).
  { revert Ho. apply own_ok_heq, heq_perm. rewrite holdings_app. solve_Permutation. }
  destruct Hcase as [(-> & Hret & Hsp)|(e & above & -> & He & Hab & Hup)].
  { rewrite Hret. simpl default. eexists _, _, _, _, _. split; [done|].
    split_and!; try done; [|lia].
    apply upd_stop, (splits_app g [v] l1); [done|apply splits_refl]. }
  simpl default. destruct (ctrue ret) eqn:Hret.
  { eexists _, _, _, _, _. split; [done|]. split_and!; try done; [|by rewrite Hret|lia].
    apply Hup, upd_stop, splits_refl. }
  destruct Hab as [[-> ->]|[-> Hab]].
  - destruct (IH (vm_end v) st1 (vm_end v) (holdings (s_reg st) l1 ++ hs))
      as (l & ret2 & c' & me & st' & -> & Hu & Hr & Hme & Hge2 & Hmo2 & Ho2);
      [done|lia|by right|by eapply mm_ok_geom| |].
    { revert Ho'. rewrite (holdings_geom _ _ _ Hge), holdings_app.
      apply own_ok_heq, heq_perm. solve_Permutation. }
    cbn [mbind option_bind]. exists (l1 ++ l), ret2, c', me, st'.
    rewrite (granule_geom _ _ Hge) in Hu. rewrite (holdings_geom _ _ _ Hge) in Ho2.
    split_and!; try done; try congruence; [by apply Hup|].
    revert Ho2. rewrite holdings_app. apply own_ok_heq, heq_perm. solve_Permutation.
  - rewrite (update_loop_done (s_reg st) vmas (vm_end v)) by (done || lia).
    cbn [mbind option_bind]. eexists _, _, _, _, _. split; [done|].
    split_and!; try done. apply Hup, upd_stop, splits_refl.
Qed.
End UpdateOne.

(** ** Rights by address *)

(** What the page at address [x] is: the offset in the file, the flags, and whether it
    belongs to the region. *)
Definition inside (v : vma) (x : Z) : bool := (vm_start v <=? x) && (x <? vm_end v).

Fixpoint view (l : list vma) (x : Z) : option (Z * Z * bool) :=
  match l with
  | [] => None
  | v :: l' =>
    if inside v x then Some (vm_pgoff v * PAGE_SIZE + (x - vm_start v), vm_flags v, vm_mine v)
    else view l' x
  end.

Lemma view_split reg v a l x :
  vma_ok reg v -> vm_start v < a < vm_end v -> (granule reg | a) ->
  view ((split_at v a).1 :: (split_at v a).2 :: l) x = view (v :: l) x.
Proof.
  intros (q & n & _ & _ & [s Hs] & _) Ha [k Hk].
  assert (Hd : Z.shiftr (a - vm_start v) PAGE_SHIFT * PAGE_SIZE = a - vm_start v).
  { rewrite Z.shiftr_div_pow2 by done. unfold granule, PMD_SIZE, PAGE_SIZE, PMD_SHIFT, PAGE_SHIFT in *.
    destruct (mmap_granu reg); zlia. }
  cbn [view]. unfold inside. simpl. bdes; try done; try lia.
  do 3 f_equal. lia.
Qed.

Lemma splits_view reg l l' : splits (granule reg) l l' -> forall lo x,
  mm_ok reg lo l -> view l' x = view l x.
Proof.
  induction 1 as [|v v' l l' Hs _ IH|v a l l' Hm Ha Hg _ IH]; intros lo x Hok.
  - done.
  - destruct Hok as (_ & _ & Hl). unfold strip in Hs. injection Hs as Es Ee Ep Ef Em.
    cbn [view]. unfold inside. by rewrite (IH _ x Hl), Es, Ee, Ep, Ef, Em.
  - rewrite (IH lo x) by (by apply mm_ok_split). apply (view_split reg); try done. by apply Hok.
Qed.

Lemma upd_view reg N c me l l' : upd (granule reg) N c me l l' -> forall lo x,
  mm_ok reg lo l ->
  if (c <=? x) && (x <? me)
  then exists o f, view l x = Some (o, f, true) /\ view l' x = Some (o, replace_flags f N, true)
  else view l' x = view l x.
Proof.
  induction 1 as [c l l' Hs|c me v l l' Hle Hu IH|c me v a l l' Hm Ha Hg Hu IH
    |c me v v' l l' Hm Hc Hme Hmod Hu IH]; intros lo x Hok.
  - replace ((c <=? x) && (x <? c)) with false by (symmetry; bdes; lia || done).
    by eapply splits_view.
  - destruct Hok as (_ & _ & Hl). specialize (IH _ x Hl). cbn [view].
    destruct (inside v x) eqn:Hi; [|done].
    unfold inside in Hi. apply andb_prop in Hi as [_ Hi]. bprop.
    by rewrite (proj2 (Z.leb_gt _ _)) by lia.
  - specialize (IH lo x ltac:(by apply mm_ok_split)).
    rewrite (view_split reg) in IH by (done || by apply Hok). done.
  - destruct Hok as (_ & _ & Hl). specialize (IH _ x Hl). pose proof (upd_le _ _ _ _ _ _ Hu).
    destruct Hmod as (Es & Ee & Ep & Em & Ef & _).
    cbn [view]. unfold inside. rewrite Es, Ee, Ep, Em, Ef, Hm, Hc.
    destruct (Z.leb_spec c x), (Z.ltb_spec x (vm_end v)); simpl.
    + rewrite (proj2 (Z.ltb_lt x me)) by lia. eauto.
    + rewrite (proj2 (Z.leb_le (vm_end v) x)) in IH by lia. simpl in IH. done.
    + rewrite (proj2 (Z.leb_gt (vm_end v) x)) in IH by lia. simpl in IH. done.
    + lia.
Qed.

(** ** The update as a whole *)

Lemma modified_mm reg N v v' : modified N v v' -> vm_mine v = true -> vma_ok reg v ->
  vm_mine v' = true -> vma_ok reg v'.
Proof. intros; by eapply modified_ok. Qed.

Lemma upd_mm_ok reg N c me l l' : upd (granule reg) N c me l l' -> forall lo,
  mm_ok reg lo l -> mm_ok reg lo l'.
Proof.
  induction 1 as [c l l' Hs|c me v l l' Hle Hu IH|c me v a l l' Hm Ha Hg Hu IH
    |c me v v' l l' Hm Hc Hme Hmod Hu IH]; intros lo Hok.
  - by eapply splits_holdings in Hok as [_ ?].
  - destruct Hok as (? & ? & ?). simpl. auto.
  - apply IH. by apply mm_ok_split.
  - destruct Hok as (? & Hv & ?). pose proof Hmod as (Es & Ee & _). simpl. rewrite Es, Ee.
    split_and!; [lia|lia| |by apply IH]. intros _. eapply modified_ok; [done|by apply Hv].
Qed.

Lemma shm_update_spec orc file info vmas st lo hs :
  mm_ok (s_reg st) lo vmas -> own_ok (s_reg st) (holdings (s_reg st) vmas ++ hs) ->
  let g := granule (s_reg st) in
  let N := access_to_vm_flags (Z.land (mem_state info) OBMM_SHM_MEM_ACCESS_MASK) in
  exists ret l st', obmm_shm_update_range orc file info vmas st = Some (ret, l, st') /\
    geom (s_reg st') = geom (s_reg st) /\ stat (s_reg st') = stat (s_reg st) /\
    own_ok (s_reg st') (holdings (s_reg st) l ++ hs) /\ mm_ok (s_reg st) lo l /\
    (ret = 0 /\ upd g N (ur_start info) (ur_end info) vmas l \/ ret <> 0 /\ splits g vmas l).
Proof.
  intros Hmm Hok g N. unfold obmm_shm_update_range.
  assert (Herr : forall e, e <> 0 -> exists ret l st',
    Some (e, vmas, st) = Some (ret, l, st') /\
    geom (s_reg st') = geom (s_reg st) /\ stat (s_reg st') = stat (s_reg st) /\
    own_ok (s_reg st') (holdings (s_reg st) l ++ hs) /\ mm_ok (s_reg st) lo l /\
    (ret = 0 /\ upd g N (ur_start info) (ur_end info) vmas l \/ ret <> 0 /\ splits g vmas l)).
  { intros e He. exists e, vmas, st. split_and!; try done. right. auto using splits_refl. }
  destruct (validate_update_info _ _ _) eqn:Hval; simpl negb; cbv iota; [|by apply Herr].
  destruct (validate_ownership_perm _ _); simpl negb; cbv iota; [|by apply Herr].
  destruct (validate_state _); simpl negb; cbv iota; [|by apply Herr].
  destruct (negb (cache_ops info =? _) && _); [by apply Herr|]. clear Herr.
  assert (Hse : ur_start info < ur_end info).
  { unfold validate_update_info in Hval. destruct (negb _); [done|].
    destruct (ownership_info _); [|done]. destruct (Z.leb_spec (ur_end info) (ur_start info)); [done|lia]. }
  destruct (update_loop_spec orc info vmas (ur_start info) st lo hs)
    as (l & ret & c' & me & st' & -> & Hu & Hc & Hme & Hge & Hmo & Ho); [lia|lia|auto|done|done|].
  cbn [mbind option_bind].
  destruct (ctrue (if ctrue ret then ret else if c' <? ur_end info then - EFAULT else 0)) eqn:Hret.
  - destruct (rollback_upd orc (mem_state info) g (ur_start info) me vmas l Hu
      (Z.land (mem_state info) OBMM_SHM_MEM_CACHE_MASK) lo st' hs)
      as (l2 & st2 & -> & Hsp & Hge2 & Hmo2 & Ho2).
    { unfold g. symmetry. by apply granule_geom. }
    { by eapply mm_ok_geom. }
    { by rewrite (holdings_geom _ _ _ Hge). }
    cbn [mbind option_bind]. eexists _, _, _. split; [done|]. split_and!; try congruence.
    + by rewrite <- (holdings_geom _ _ _ Hge).
    + by eapply splits_holdings in Hmm as [_ ?].
    + right. split; [|done]. unfold ctrue in Hret. bprop. done.
  - eexists _, _, _. split; [done|]. split_and!; try done.
    + by eapply upd_mm_ok.
    + left. split; [done|]. destruct (ctrue ret) eqn:Hr; [congruence|].
      destruct (Z.ltb_spec c' (ur_end info)); [done|]. specialize (Hc eq_refl). subst c'.
      replace (ur_end info) with me by lia. done.
Qed.

(** C29: an access-rights update always runs to an end, without any access outside the
    ownership array, and leaves the counters in agreement with the mappings.  When it
    succeeds, exactly the requested range has the new rights: every page of it belongs to
    the region and keeps its offset, every other address is as before. *)
Theorem shm_update_range_spec orc file info vmas st lo hs :
  mm_ok (s_reg st) lo vmas -> own_ok (s_reg st) (holdings (s_reg st) vmas ++ hs) ->
  let N := access_to_vm_flags (Z.land (mem_state info) OBMM_SHM_MEM_ACCESS_MASK) in
  exists ret l st', obmm_shm_update_range orc file info vmas st = Some (ret, l, st') /\
    own_ok (s_reg st') (holdings (s_reg st') l ++ hs) /\
    (ret = 0 -> forall x,
       if (ur_start info <=? x) && (x <? ur_end info)
       then exists o f, view vmas x = Some (o, f, true) /\
                        view l x = Some (o, replace_flags f N, true)
       else view l x = view vmas x).
Proof.
  intros Hmm Hok N.
  destruct (shm_update_spec orc file info vmas st lo hs Hmm Hok)
    as (ret & l & st' & He & Hge & _ & Ho & _ & Hcase).
  exists ret, l, st'. split; [done|]. rewrite (holdings_geom _ _ _ Hge). split; [done|].
  intros -> x. destruct Hcase as [[_ Hu]|[? _]]; [|done].
  by eapply upd_view.
Qed.

(** C30: an access-rights update that fails, at whatever point, restores what it changed:
    every address has the offset and the flags it had before, and the counters agree with
    the mappings again. *)
Theorem shm_update_range_rollback orc file info vmas st lo hs ret l st' :
  mm_ok (s_reg st) lo vmas -> own_ok (s_reg st) (holdings (s_reg st) vmas ++ hs) ->
  obmm_shm_update_range orc file info vmas st = Some (ret, l, st') -> ret <> 0 ->
  (forall x, view l x = view vmas x) /\
  own_ok (s_reg st') (holdings (s_reg st) vmas ++ hs) /\
  mmap_mode (s_reg st') = mmap_mode (s_reg st) /\ geom (s_reg st') = geom (s_reg st).
Proof.
  intros Hmm Hok He Hret.
  destruct (shm_update_spec orc file info vmas st lo hs Hmm Hok)
    as (ret2 & l2 & st2 & He2 & Hge & Hmo & Ho & _ & Hcase).
  rewrite He in He2. injection He2 as <- <- <-. apply stat_inv in Hmo as [Hmo _].
  destruct Hcase as [[? _]|[_ Hsp]]; [done|]. split_and!; try done.
  - intros x. by eapply splits_view.
  - destruct (splits_holdings _ _ _ Hsp lo Hmm) as [Hh _]. by rewrite Hh.
Qed.

(** A region of two pages mapped read-write as a whole, and its address space. *)
Definition demo_vma : vma :=
  {| vm_start := 0; vm_end := 2 * PAGE_SIZE; vm_pgoff := 0; vm_flags := 0xb3;
     vm_page_prot := (PAGE_SHARED_W, ATTR_NORMAL); vm_private_data := 0; vm_mine := true;
     vm_pt := (PAGE_SHARED_W, ATTR_NORMAL) |}.

Definition demo_state : shm_state :=
  {| s_reg := demo_region (Some {| page_states := [{| r_count := 1; w_count := 1 |};
                                                   {| r_count := 1; w_count := 1 |}];
                                   nentries := 2 |});
     s_n := 0; s_flushed := [] |}.

Definition demo_file : shm_file := {| f_osync := false; f_read := true; f_write := true |}.

Lemma demo_mm_ok : mm_ok (s_reg demo_state) 0 [demo_vma].
Proof.
  split; [done|]. split; [|done]. intros _. exists 0, 2. split_and!; try done. by exists 0.
Qed.

Lemma demo_own_ok : own_ok (s_reg demo_state) (holdings (s_reg demo_state) [demo_vma] ++ []).
Proof.
  split; [reflexivity|]. intros j st Hj. destruct j as [|[|j]]; [| |done];
    injection Hj as <-; split; reflexivity.
Qed.

(** Take the second page read-only; its first page is untouched. *)
Definition demo_update (state : Z) : obmm_cmd_update_range :=
  {| ur_start := PAGE_SIZE; ur_end := 2 * PAGE_SIZE; mem_state := state;
     cache_ops := OBMM_SHM_CACHE_INFER |}.

Lemma shm_update_range_spec_witness :
  exists l st', obmm_shm_update_range (fun _ => 0) demo_file
      (demo_update (Z.lor OBMM_SHM_MEM_READONLY OBMM_SHM_MEM_NORMAL)) [demo_vma] demo_state
      = Some (0, l, st') /\ length l = 2%nat /\
    own_ok (s_reg st') (holdings (s_reg st') l ++ []).
Proof.
  destruct (shm_update_range_spec (fun _ => 0) demo_file
    (demo_update (Z.lor OBMM_SHM_MEM_READONLY OBMM_SHM_MEM_NORMAL)) [demo_vma] demo_state 0 [])
    as (ret & l & st' & He & Ho & _); [exact demo_mm_ok|exact demo_own_ok|].
  exists l, st'. split.
  - rewrite He. vm_compute in He. by injection He as <- _ _.
  - split; [|exact Ho]. vm_compute in He. by injection He as _ <- _.
Defined.

Lemma shm_update_range_rollback_witness :
  exists l st', obmm_shm_update_range (fun n => match n with 1%nat => - EBUSY | _ => 0 end) demo_file
      (demo_update (Z.lor OBMM_SHM_MEM_READONLY OBMM_SHM_MEM_NORMAL)) [demo_vma] demo_state
      = Some (- EBUSY, l, st') /\ length l = 2%nat /\
    (forall x, view l x = view [demo_vma] x).
Proof.
  eexists _, _. split; [vm_compute; reflexivity|]. split; [reflexivity|].
  eapply (shm_update_range_rollback (fun n => match n with 1%nat => - EBUSY | _ => 0 end) demo_file
    (demo_update (Z.lor OBMM_SHM_MEM_READONLY OBMM_SHM_MEM_NORMAL)) [demo_vma] demo_state 0 []
    (- EBUSY)); [exact demo_mm_ok|exact demo_own_ok|vm_compute; reflexivity|done].
Defined.

(** The rollback does not restore the memory attribute: it combines the old access
    with the cacheability of the request.  A request to make a cacheable read-write page
    inaccessible and non-cacheable that fails in the cache flush leaves the page
    writable and mapped non-cacheable, a state [validate_state] refuses. *)
Theorem shm_rollback_keeps_cacheability :
  let req := Z.lor OBMM_SHM_MEM_NO_ACCESS OBMM_SHM_MEM_NORMAL_NC in
  let orc n := match n with 1%nat => - EBUSY | _ => 0 end in
  exists v1 v2 st', obmm_shm_update_range orc demo_file (demo_update req) [demo_vma] demo_state
      = Some (- EBUSY, [v1; v2], st') /\
    vm_flags v2 = vm_flags demo_vma /\
    vm_pt demo_vma = (PAGE_SHARED_W, ATTR_NORMAL) /\
    vm_pt v2 = (PAGE_SHARED_W, ATTR_WRITECOMBINE) /\
    validate_state (Z.lor OBMM_SHM_MEM_READWRITE OBMM_SHM_MEM_NORMAL_NC) = false.
Proof. eexists _, _, _. split; [vm_compute; reflexivity|]. split_and!; reflexivity. Qed.

(** ** Mapping and unmapping *)

(** The counters agree with the mappings [hs]; a region without counters has none, and
    a region with counters has a granularity. *)
Definition own_inv (reg : obmm_region) (hs : list holding) : Prop :=
  own_ok reg hs /\ (ownership_info reg = None -> hs = []) /\
  (ownership_info reg <> None -> mmap_granu reg <> OBMM_MMAP_GRANU_NONE).

Lemma init_ownership_ok kz vz reg hs ret reg' :
  own_inv reg hs -> mmap_granu reg <> OBMM_MMAP_GRANU_NONE -> 0 <= mem_size reg ->
  init_ownership_info kz vz reg = (ret, reg') -> ctrue ret = false ->
  own_inv reg' hs /\ geom reg' = geom reg /\ mmap_mode reg' = mmap_mode reg /\
  ownership_info reg' <> None.
Proof.
  intros (Hok & Hn & Hg) Hgr Hsz H Hr. unfold init_ownership_info in H.
  destruct (ownership_info reg) as [i|] eqn:Hi.
  { injection H as <- <-. rewrite Hi. split_and!; try done. split; [done|]. by rewrite Hi. }
  assert (hs = []) as -> by auto.
  assert (Hnew : (ret, reg') = (0, set_info reg (Some {|
      page_states := replicate (Z.to_nat (ownership_size_to_nentries reg (mem_size reg)))
                       {| r_count := 0; w_count := 0 |};
      nentries := s32 (ownership_size_to_nentries reg (mem_size reg)) |}))).
  { destruct (mmap_granu reg); [done| |]; destruct kz; simpl in H; [destruct vz; simpl in H| |
      destruct vz; simpl in H|]; injection H as <- <-; done. }
  injection Hnew as -> ->. split_and!; try done. split; [|done]. unfold own_ok. simpl. split.
  - rewrite length_replicate.
    change (region_entries _) with (ownership_size_to_nentries reg (mem_size reg)).
    apply Z2Nat.id. unfold ownership_size_to_nentries.
    destruct (mmap_granu reg); by apply Z.shiftr_nonneg.
  - intros j st Hj. simpl in Hj. apply lookup_replicate in Hj as [-> _]. done.
Qed.

Lemma mmap_locked_ok map_ret kz vz reg v hs reg' :
  own_inv reg hs -> mmap_granu reg <> OBMM_MMAP_GRANU_NONE -> vma_ok reg v ->
  mmap_locked false map_ret kz vz reg v = Some (0, reg') ->
  own_inv reg' (hold reg v :: hs) /\ geom reg' = geom reg /\ mmap_mode reg' = OBMM_MMAP_NORMAL.
Proof.
  intros Hinv Hgr Hv H. unfold mmap_locked in H. simpl in H.
  destruct (bool_decide (mmap_mode reg = OBMM_MMAP_OSYNC)) eqn:Hos; [done|].
  apply bool_decide_eq_false in Hos.
  set (reg1 := if decide (mmap_mode reg = OBMM_MMAP_INIT) then _ else reg) in *.
  assert (own_inv reg1 hs /\ geom reg1 = geom reg /\ mmap_mode reg1 = OBMM_MMAP_NORMAL)
    as (Hinv1 & Hge1 & Hmo1).
  { unfold reg1. destruct (decide _); [done|]. split_and!; try done.
    by destruct (mmap_mode reg). }
  clearbody reg1. rewrite decide_True in H by done.
  destruct (init_ownership_info kz vz reg1) as [ret reg2] eqn:Hi.
  destruct (ctrue ret) eqn:Hr; [injection H as -> _; done|].
  destruct (ctrue map_ret) eqn:Hmr; [injection H as -> _; done|].
  assert (Hge1' := geom_inv _ _ Hge1). pose proof Hv as (q & n & Hv').
  apply (init_ownership_ok _ _ _ hs) in Hi as (Hinv2 & Hge2 & Hmo2 & Hsome); [|done|..|done].
  2: { by destruct Hge1' as [-> _]. }
  2: { destruct Hge1' as [_ ->]. pose proof (granule_pos reg). nia. }
  assert (Hg2 : geom reg2 = geom reg) by congruence.
  destruct (perm_count_vma reg2 v OBMM_SHM_MEM_NO_ACCESS (vm_flags_to_access (vm_flags v)) hs)
    as (op & reg3 & He & Ho & Hge3 & [Hmo3 Hnn]%stat_inv).
  { by eapply vma_ok_geom. }
  { destruct Hinv2 as (Ho & _). unfold own_ok in *. destruct (ownership_info reg2); [|done].
    by rewrite no_access_counts. }
  rewrite He in H. cbn [mbind option_bind] in H. injection H as <-.
  rewrite (hold_geom _ _ _ Hg2) in Ho.
  split_and!; [|by transitivity (geom reg3); [|congruence]|simpl; congruence].
  split; [done|]. simpl. split; [tauto|]. intros _.
  destruct (geom_inv _ _ Hge3) as [-> _]. destruct (geom_inv _ _ Hg2) as [-> _]. done.
Qed.

(** What the kernel guarantees of the VMA it passes to [mmap]. *)
Record mmap_args (reg : obmm_region) (v : vma) : Prop := {
  ma_start : (PAGE_SIZE | vm_start v);
  ma_end : (PAGE_SIZE | vm_end v);
  ma_range : 0 <= vm_start v < vm_end v /\ vm_end v < 2 ^ 64;
  ma_size : 0 <= mem_size reg < 2 ^ 64;
}.

Lemma mmap_request_ok v granu offset :
  (PAGE_SIZE | vm_start v) -> (PAGE_SIZE | vm_end v) -> mmap_request v = inr (granu, offset) ->
  granu <> OBMM_MMAP_GRANU_NONE /\ 0 <= offset /\
  let g := match granu with OBMM_MMAP_GRANU_PMD => PMD_SIZE | _ => PAGE_SIZE end in
  (g | vm_start v) /\ (g | vm_end v) /\ (g | offset).
Proof.
  intros Hs He. unfold mmap_request. cbv zeta.
  set (off := u64 (Z.shiftl (vm_pgoff v) PAGE_SHIFT)).
  assert (Ho : 0 <= off < 2 ^ 64) by (apply uwrap_range; lia).
  assert (Hop : (PAGE_SIZE | off)).
  { unfold off, uwrap. rewrite Z.shiftl_mul_pow2 by done. fold PAGE_SIZE.
    apply Z.mod_divide; [done|]. unfold PAGE_SIZE, PAGE_SHIFT. zlia. }
  destruct (ctrue (Z.land off _)).
  - set (off' := Z.land off _).
    destruct (IS_ALIGNED (vm_start v) PMD_SIZE) eqn:H1; simpl; [|done].
    destruct (IS_ALIGNED (vm_end v) PMD_SIZE) eqn:H2; simpl; [|done].
    destruct (IS_ALIGNED off' PMD_SIZE) eqn:H3; simpl; [|done].
    intros [= <- <-]. unfold PMD_SIZE in *. rewrite is_aligned_pow2 in H1, H2, H3 by done. bprop.
    apply Z.mod_divide in H1, H2, H3; try done. split_and!; try done.
    apply Z.land_nonneg. lia.
  - intros [= <- <-]. split_and!; try done. lia.
Qed.

(** A successful [mmap] of a cacheable file gives a VMA inside the region, counted. *)
Lemma mmap_ok file map_ret kz vz reg v hs reg' v' :
  f_osync file = false -> mmap_args reg v -> own_inv reg hs ->
  obmm_shm_fops_mmap file map_ret kz vz reg v = Some (0, reg', v') ->
  vma_ok reg' v' /\ vm_mine v' = true /\ own_inv reg' (hold reg' v' :: hs) /\
  mmap_mode reg' = OBMM_MMAP_NORMAL /\ mem_size reg' = mem_size reg /\
  (mmap_granu reg <> OBMM_MMAP_GRANU_NONE -> geom reg' = geom reg).
Proof.
  intros Hos [Hs He [Hr1 Hr2] Hsz] Hinv H. unfold obmm_shm_fops_mmap in H.
  destruct (negb (ctrue (Z.land (vm_flags v) VM_MAYSHARE))); [done|].
  destruct (negb (region_allow_mmap reg)); [done|].
  destruct (negb (validate_perm file (vm_flags v))); [done|].
  destruct (mmap_request v) as [e|[granu offset]] eqn:Hreq.
  { injection H as -> _ _. unfold mmap_request in Hreq. cbv zeta in Hreq.
    repeat case_match; simplify_eq. }
  apply mmap_request_ok in Hreq as (Hgn & Hoff & Hga); [|done..].
  set (reg1 := if decide (mmap_granu reg = OBMM_MMAP_GRANU_NONE) then _ else reg) in *.
  destruct (decide (mmap_granu reg1 = granu)) as [Hgr|]; [|done].
  assert (Hm1 : mem_size reg1 = mem_size reg) by (unfold reg1; by destruct (decide _)).
  assert (Hinv1 : own_inv reg1 hs).
  { unfold reg1. destruct (decide _) as [Hn|]; [|done]. destruct Hinv as (Ho & H1 & H2).
    destruct (ownership_info reg) eqn:Hoi; [by destruct H2|]. unfold own_inv, own_ok. simpl.
    rewrite Hoi. split_and!; done. }
  assert (Hgeo : mmap_granu reg <> OBMM_MMAP_GRANU_NONE -> geom reg1 = geom reg)
    by (unfold reg1; by destruct (decide _)).
  clearbody reg1.
  destruct ((mem_size reg <=? offset) || _) eqn:Hb; [done|].
  apply orb_false_elim in Hb as [Hb1 Hb2]. bprop.
  rewrite (uwrap_small 64 (mem_size reg - offset)), (uwrap_small 64 (vm_end v - vm_start v)) in Hb2 by lia.
  destruct (mmap_locked _ _ _ _ _ _) as [[ret reg2]|] eqn:Hl; [|done].
  cbn [mbind option_bind] in H. destruct (ctrue ret) eqn:Hret; [injection H as -> _ _; done|].
  injection H as <- <-. rewrite Hos in Hl.
  assert (ret = 0) as -> by (unfold ctrue in Hret; by bprop).
  match type of Hl with mmap_locked _ _ _ _ _ ?x = _ => set (v2 := x) in * end.
  assert (Hv2 : vma_ok reg1 v2).
  { assert (Hgran : granule reg1 = match granu with OBMM_MMAP_GRANU_PMD => PMD_SIZE | _ => PAGE_SIZE end)
      by (unfold granule; by rewrite Hgr).
    rewrite <- Hgran in Hga. destruct Hga as ([s0 Hs0] & [e0 He0] & [q Hq]).
    exists q, (e0 - s0). pose proof (granule_pos reg1) as Hgp.
    assert (Hpg : Z.shiftr offset PAGE_SHIFT * PAGE_SIZE = offset).
    { rewrite Z.shiftr_div_pow2 by done. unfold granule, PMD_SIZE, PAGE_SIZE, PMD_SHIFT, PAGE_SHIFT in *.
      destruct (mmap_granu reg1); zlia. }
    simpl. split_and!; [lia|nia|by exists s0|nia|nia|nia|lia]. }
  destruct (mmap_locked_ok _ _ _ _ _ _ _ Hinv1 ltac:(by rewrite Hgr) Hv2 Hl) as (Hi2 & Hge & Hmo).
  set (v3 := {| vm_start := _ |}).
  assert (Hst : hold reg2 v3 = hold reg1 v2) by (rewrite (hold_geom reg2 reg1) by done; done).
  rewrite Hst. split_and!; try done.
  - by apply (vma_ok_geom reg1 reg2 v2).
  - destruct (geom_inv _ _ Hge) as [_ ->]. done.
  - intros Hn. rewrite Hge. auto.
Qed.

(** A failed [mmap] leaves the mode, the granularity and the number of mappings alone. *)
Lemma mmap_fail file map_ret kz vz reg v ret reg' v' :
  obmm_shm_fops_mmap file map_ret kz vz reg v = Some (ret, reg', v') -> ret <> 0 ->
  geom reg' = geom reg /\ mmap_mode reg' = mmap_mode reg /\ mmap_count reg' = mmap_count reg.
Proof.
  intros H Hret. unfold obmm_shm_fops_mmap in H.
  destruct (negb (ctrue (Z.land (vm_flags v) VM_MAYSHARE))); [by injection H as _ <- _|].
  destruct (negb (region_allow_mmap reg)); [by injection H as _ <- _|].
  destruct (negb (validate_perm file (vm_flags v))); [by injection H as _ <- _|].
  destruct (mmap_request v) as [e|[granu offset]]; [by injection H as _ <- _|].
  set (reg1 := if decide (mmap_granu reg = OBMM_MMAP_GRANU_NONE) then _ else reg) in *.
  assert (Hr1 : geom (set_granu reg1 (mmap_granu reg)) = geom reg /\ mmap_mode reg1 = mmap_mode reg /\
    mmap_count reg1 = mmap_count reg) by (unfold reg1; by destruct (decide _)).
  clearbody reg1.
  destruct (decide (mmap_granu reg1 = granu)); [|by injection H as _ <- _].
  destruct ((mem_size reg <=? offset) || _); [by injection H as _ <- _|].
  destruct (mmap_locked _ _ _ _ _ _) as [[ret2 reg2]|] eqn:Hl; [|done].
  cbn [mbind option_bind] in H. destruct (ctrue ret2) eqn:Hr2; [|by injection H as <- _ _].
  injection H as <- <- <-.
  assert (mem_size reg2 = mem_size reg1 /\ mmap_mode reg2 = mmap_mode reg1 /\
    mmap_count reg2 = mmap_count reg1) as (E1 & E2 & E3).
  { unfold mmap_locked in Hl. destruct (_ || _); [by injection Hl as _ <-|].
    assert (Hinit : forall r, mem_size (init_ownership_info kz vz r).2 = mem_size r /\
      mmap_mode (init_ownership_info kz vz r).2 = mmap_mode r /\
      mmap_count (init_ownership_info kz vz r).2 = mmap_count r).
    { intros r. unfold init_ownership_info. by repeat case_match. }
    set (r1 := if decide (mmap_mode reg1 = OBMM_MMAP_INIT) then _ else reg1) in *.
    assert (Hr1' : mem_size r1 = mem_size reg1 /\ mmap_count r1 = mmap_count reg1 /\
      (mmap_mode reg1 <> OBMM_MMAP_INIT -> mmap_mode r1 = mmap_mode reg1))
      by (unfold r1; by destruct (decide _)).
    clearbody r1. specialize (Hinit r1). destruct (init_ownership_info kz vz r1) as [ri r2].
    simpl in Hinit. dest.
    repeat case_match; simplify_eq; simpl in *; try done;
      try (destruct (update_vma_perm_count _ _ _ _ _) as [[]|]; simplify_eq/=; done);
      split_and!; try congruence; naive_solver congruence. }
  unfold geom in *. simpl in *. destruct Hr1 as (Hg & Hm & Hc). split_and!; congruence.
Qed.

Lemma close_ok orc st v hs :
  vma_ok (s_reg st) v -> own_inv (s_reg st) (hold (s_reg st) v :: hs) ->
  exists st', obmm_vma_close orc st v = Some st' /\ own_inv (s_reg st') hs /\
    geom (s_reg st') = geom (s_reg st).
Proof.
  intros Hv (Ho & Hn & Hg). unfold obmm_vma_close.
  destruct (perm_count_vma (s_reg st) v (vm_flags_to_access (vm_flags v)) OBMM_SHM_MEM_NO_ACCESS hs)
    as (op & reg1 & -> & Ho1 & Hge & [_ Hnn]%stat_inv); [done..|]. cbn [mbind option_bind].
  set (st2 := if negb (op =? _) && _ then _ else _).
  assert (Hst : s_reg st2 = reg1).
  { unfold st2. destruct (_ && _); [by rewrite flush_range_reg|done]. }
  clearbody st2. rewrite Hst. eexists. split; [done|]. cbn [s_reg with_reg].
  set (reg2 := set_count reg1 _).
  assert (Hinv : own_inv reg1 hs).
  { split_and!.
    - unfold own_ok in *. destruct (ownership_info reg1); [|done]. by rewrite no_access_counts in Ho1.
    - intros Hnone. apply Hnn in Hnone. by apply Hn in Hnone.
    - intros Hs. destruct (geom_inv _ _ Hge) as [-> _]. apply Hg. tauto. }
  by destruct (mmap_count reg2 =? 0).
Qed.

(** a successful [mmap] of a file opened without [O_SYNC] yields a VMA that lies
    inside the region, aligned to its granularity, and is added to the counters; a failed
    one leaves the mapping mode, the granularity, the size and the number of mappings of
    the region as they were. *)
Theorem shm_mmap_spec file map_ret kz vz reg v hs ret reg' v' :
  f_osync file = false -> mmap_args reg v -> own_inv reg hs ->
  obmm_shm_fops_mmap file map_ret kz vz reg v = Some (ret, reg', v') ->
  (ret = 0 -> vma_ok reg' v' /\ own_inv reg' (hold reg' v' :: hs) /\
     mmap_mode reg' = OBMM_MMAP_NORMAL) /\
  (ret <> 0 -> geom reg' = geom reg /\ mmap_mode reg' = mmap_mode reg /\
     mmap_count reg' = mmap_count reg).
Proof.
  intros Hos Ha Hinv H. split.
  - intros ->. edestruct mmap_ok as (? & _ & ? & ? & _); [done..|]. done.
  - by eapply mmap_fail.
Qed.

(** The region before its first mapping. *)
Definition demo_fresh : obmm_region := set_mode (set_granu (set_count (demo_region None) 0)
  OBMM_MMAP_GRANU_NONE) OBMM_MMAP_INIT.

Lemma demo_fresh_inv : own_inv demo_fresh [].
Proof. done. Qed.

Lemma demo_args reg : mem_size reg = 2 * PAGE_SIZE -> mmap_args reg demo_vma.
Proof. intros H. split; rewrite ?H; simpl; try done; [by exists 0|by exists 2]. Qed.

Lemma shm_mmap_spec_witness :
  exists reg' v', obmm_shm_fops_mmap demo_file 0 true true demo_fresh demo_vma = Some (0, reg', v') /\
    vma_ok reg' v' /\ own_inv reg' [hold reg' v'] /\ mmap_mode reg' = OBMM_MMAP_NORMAL.
Proof.
  eexists _, _. split; [vm_compute; reflexivity|].
  eapply (shm_mmap_spec demo_file 0 true true demo_fresh demo_vma [] 0);
    [done|by apply demo_args|exact demo_fresh_inv|vm_compute; reflexivity|done].
Defined.

(** ** The life of a cacheable region *)

Fixpoint ordered (lo : Z) (l : list vma) : Prop :=
  match l with
  | [] => True
  | v :: l' => lo <= vm_start v < vm_end v /\ ordered (vm_end v) l'
  end.

Lemma mm_ok_ordered reg l : forall lo,
  mm_ok reg lo l <-> ordered lo l /\ Forall (fun v => vm_mine v = true -> vma_ok reg v) l.
Proof.
  induction l as [|v l IH]; intros lo; simpl; [by split|].
  rewrite IH, Forall_cons. tauto.
Qed.

Lemma ordered_remove l1 v l2 : forall lo, ordered lo (l1 ++ v :: l2) -> ordered lo (l1 ++ l2).
Proof.
  induction l1 as [|u l1 IH]; intros lo; simpl.
  - destruct l2 as [|u l2]; simpl; [done|]. intros (? & ? & ?). split; [lia|done].
  - intros [? ?]. auto.
Qed.

(** A first [mmap] that fails leaves its ownership array behind, but not its granularity: the
    request [v] has the number of entries of such an array. *)
Definition array_fits (reg : obmm_region) (v : vma) : Prop :=
  mmap_granu reg = OBMM_MMAP_GRANU_NONE -> forall info granu offset, ownership_info reg = Some info ->
  mmap_request v = inr (granu, offset) ->
  Z.of_nat (length (page_states info)) = region_entries (set_granu reg granu).

(** The processes that map the region, and everything they can do with it. *)
Inductive sys_step (orc : nat -> Z) : shm_state * list (list vma) -> shm_state * list (list vma) -> Prop :=
  | sys_mmap i file map_ret kz vz v v' l1 l2 st procs reg' :
      f_osync file = false -> mmap_args (s_reg st) v -> array_fits (s_reg st) v -> procs !! i = Some (l1 ++ l2) ->
      obmm_shm_fops_mmap file map_ret kz vz (s_reg st) v = Some (0, reg', v') ->
      ordered 0 (l1 ++ v' :: l2) ->
      sys_step orc (st, procs) (with_reg st reg', <[i := l1 ++ v' :: l2]> procs)
  | sys_mmap_fail file map_ret kz vz v v' st procs ret reg' :
      f_osync file = false -> ret <> 0 ->
      obmm_shm_fops_mmap file map_ret kz vz (s_reg st) v = Some (ret, reg', v') ->
      sys_step orc (st, procs) (with_reg st reg', procs)
  | sys_close i v l1 l2 st procs st' :
      procs !! i = Some (l1 ++ v :: l2) -> vm_mine v = true ->
      obmm_vma_close orc st v = Some st' ->
      sys_step orc (st, procs) (st', <[i := l1 ++ l2]> procs)
  | sys_split i v a l1 l2 st procs ret hi low st' :
      procs !! i = Some (l1 ++ v :: l2) -> vm_mine v = true -> vm_start v < a < vm_end v ->
      split_vma orc st v a false = (ret, hi, low, st') ->
      sys_step orc (st, procs) (st', <[i := l1 ++ low :: hi ++ l2]> procs)
  | sys_update i file info vmas st procs ret l st' :
      procs !! i = Some vmas ->
      obmm_shm_update_range orc file info vmas st = Some (ret, l, st') ->
      sys_step orc (st, procs) (st', <[i := l]> procs).

Record sys_inv (s : shm_state * list (list vma)) : Prop := {
  si_mm : Forall (mm_ok (s_reg s.1) 0) s.2;
  si_own : own_inv (s_reg s.1) (holdings (s_reg s.1) (concat s.2));
  si_size : 0 <= mem_size (s_reg s.1) < 2 ^ 64;
}.

Lemma concat_insert (procs : list (list vma)) i l :
  procs !! i = Some l -> exists rest, concat procs ≡ₚ l ++ rest /\
    forall l', concat (<[i := l']> procs) ≡ₚ l' ++ rest.
Proof.
  intros H. exists (concat (take i procs) ++ concat (drop (S i) procs)). split.
  - rewrite <- (take_drop_middle procs i l H) at 1. rewrite concat_app. simpl. solve_Permutation.
  - intros l'. rewrite insert_take_drop by (by eapply lookup_lt_Some).
    rewrite concat_app. simpl. solve_Permutation.
Qed.

#[export] Instance holdings_perm reg : Proper (Permutation ==> Permutation) (holdings reg).
Proof. intros l1 l2 H. unfold holdings. by rewrite H. Qed.

Lemma own_inv_heq reg l1 l2 : heq l1 l2 -> (l1 = [] -> l2 = []) -> own_inv reg l1 -> own_inv reg l2.
Proof. intros Hh Hn (Ho & H1 & H2). split_and!; try done; [by rewrite <- Hh|auto]. Qed.

Lemma own_inv_perm reg l1 l2 : l1 ≡ₚ l2 -> own_inv reg l1 -> own_inv reg l2.
Proof.
  intros Hp. apply own_inv_heq; [by apply heq_perm|]. intros ->.
  by apply Permutation_nil_l in Hp.
Qed.

(** Without mappings of the region the geometry does not matter. *)
Lemma mm_ok_none r1 r2 lo l : holdings r1 l = [] -> mm_ok r1 lo l -> mm_ok r2 lo l.
Proof.
  rewrite !mm_ok_ordered. intros Hh [Ho Hf]. split; [done|].
  unfold holdings in Hh. apply map_eq_nil in Hh. apply Forall_forall. intros v Hv Hm.
  assert (v ∈ filter (fun v => vm_mine v = true) l) by (by apply list_elem_of_filter).
  rewrite Hh in *. by apply not_elem_of_nil in H.
Qed.

Lemma mm_ok_all_none r1 r2 procs :
  holdings r1 (concat procs) = [] -> Forall (mm_ok r1 0) procs -> Forall (mm_ok r2 0) procs.
Proof.
  induction procs as [|l procs IH]; [done|]. simpl. rewrite holdings_app, !Forall_cons.
  intros [H1 H2]%app_eq_nil [H3 H4]. split; [by eapply mm_ok_none|auto].
Qed.

Lemma Forall_geom r1 r2 procs : geom r1 = geom r2 -> Forall (mm_ok r1 0) procs -> Forall (mm_ok r2 0) procs.
Proof. intros H Hf. eapply Forall_impl; [done|]. intros l. by apply mm_ok_geom. Qed.

(** The new granularity of a first [mmap] does not affect the processes. *)
Lemma mmap_geom (reg reg' : obmm_region) procs :
  own_inv reg (holdings reg (concat procs)) -> Forall (mm_ok reg 0) procs ->
  (mmap_granu reg <> OBMM_MMAP_GRANU_NONE -> geom reg' = geom reg) ->
  Forall (mm_ok reg' 0) procs /\ holdings reg' (concat procs) = holdings reg (concat procs).
Proof.
  intros (_ & H1 & H2) Hmm Hge.
  destruct (decide (mmap_granu reg = OBMM_MMAP_GRANU_NONE)) as [Hn|Hn].
  - destruct (ownership_info reg) eqn:Hoi; [by destruct H2|]. specialize (H1 eq_refl).
    split; [by eapply mm_ok_all_none|]. rewrite H1. unfold holdings in *.
    apply map_eq_nil in H1. by rewrite H1.
  - specialize (Hge Hn). split; [eapply Forall_geom; [symmetry; exact Hge|done]|].
    by apply holdings_geom.
Qed.

Lemma sys_mmap_inv file mr kz vz v v' l1 l2 st procs reg' i :
  f_osync file = false -> mmap_args (s_reg st) v -> procs !! i = Some (l1 ++ l2) ->
  obmm_shm_fops_mmap file mr kz vz (s_reg st) v = Some (0, reg', v') ->
  ordered 0 (l1 ++ v' :: l2) -> sys_inv (st, procs) ->
  sys_inv (with_reg st reg', <[i := l1 ++ v' :: l2]> procs).
Proof.
  intros Hos Ha Hi He Hord [Hmm Hown Hsz]. simpl in *.
  destruct (concat_insert procs i _ Hi) as (rest & Hc & Hc').
  destruct (mmap_ok _ _ _ _ _ _ _ _ _ Hos Ha Hown He) as (Hv & Hmine & Hown' & _ & Hms & Hge).
  destruct (mmap_geom _ reg' _ Hown Hmm Hge) as [Hmm' Hh].
  pose proof (Forall_lookup_1 _ _ _ _ Hmm' Hi) as Hl'.
  split; simpl; [| |by rewrite Hms].
  - apply Forall_insert; [done|]. apply mm_ok_ordered. split; [done|].
    apply mm_ok_ordered in Hl' as [_ Hf]. rewrite Forall_app in Hf.
    rewrite Forall_app, Forall_cons. tauto.
  - rewrite <- Hh in Hown'. revert Hown'. apply own_inv_perm.
    rewrite Hc, Hc', !holdings_app, (holdings_cons _ v'), Hmine. solve_Permutation.
Qed.

Lemma sys_close_inv orc i v l1 l2 st procs st' :
  procs !! i = Some (l1 ++ v :: l2) -> vm_mine v = true -> obmm_vma_close orc st v = Some st' ->
  sys_inv (st, procs) -> sys_inv (st', <[i := l1 ++ l2]> procs).
Proof.
  intros Hi Hm He [Hmm Hown Hsz]. simpl in *.
  destruct (concat_insert procs i _ Hi) as (rest & Hc & Hc').
  pose proof (Forall_lookup_1 _ _ _ _ Hmm Hi) as Hl.
  apply mm_ok_ordered in Hl as [Hord Hf]. rewrite Forall_app, Forall_cons in Hf.
  destruct (close_ok orc st v (holdings (s_reg st) (l1 ++ l2 ++ rest))) as (st2 & He2 & Ho2 & Hge).
  { by apply Hf. }
  { revert Hown. apply own_inv_perm. rewrite Hc, !holdings_app, (holdings_cons _ v), Hm.
    solve_Permutation. }
  rewrite He in He2. injection He2 as <-.
  split; simpl; [| |by destruct (geom_inv _ _ Hge) as [_ ->]].
  - apply Forall_insert; [by eapply Forall_geom|].
    eapply mm_ok_geom; [symmetry; done|]. apply mm_ok_ordered. split; [by eapply ordered_remove|].
    rewrite Forall_app. tauto.
  - rewrite (holdings_geom _ _ _ Hge). revert Ho2. apply own_inv_perm.
    rewrite Hc'. by rewrite app_assoc.
Qed.

Lemma splits_nil reg l l' : splits (granule reg) l l' -> holdings reg l = [] -> holdings reg l' = [].
Proof.
  induction 1 as [|v v' l l' Hs _ IH|v a l l' Hm Ha Hg _ IH]; [done|..].
  - rewrite !holdings_cons. unfold strip in Hs. injection Hs as _ _ _ _ ->.
    intros [H1 H2]%app_eq_nil. rewrite (IH H2). by destruct (vm_mine v').
  - rewrite holdings_cons, Hm. done.
Qed.

Lemma own_inv_stat r r' hs hs' :
  geom r' = geom r -> stat r' = stat r -> own_ok r' hs' -> (hs = [] -> hs' = []) ->
  own_inv r hs -> own_inv r' hs'.
Proof.
  intros [Hg _]%geom_inv [_ Hn]%stat_inv Ho Hnil (_ & H1 & H2).
  split_and!; [done|tauto|]. rewrite Hg. tauto.
Qed.

(** Replacing the VMAs of one process by others that hold the same mappings. *)
Lemma sys_replace_inv i l l' st st' procs :
  procs !! i = Some l -> geom (s_reg st') = geom (s_reg st) -> mm_ok (s_reg st) 0 l' ->
  sys_inv (st, procs) ->
  (forall rest, own_inv (s_reg st) (holdings (s_reg st) l ++ rest) ->
     own_inv (s_reg st') (holdings (s_reg st) l' ++ rest)) ->
  sys_inv (st', <[i := l']> procs).
Proof.
  intros Hi Hge Hl' [Hmm Hown Hsz] Hstep. simpl in *.
  destruct (concat_insert procs i _ Hi) as (rest & Hc & Hc').
  split; simpl; [| |by destruct (geom_inv _ _ Hge) as [_ ->]].
  - apply Forall_insert; [by eapply Forall_geom|by eapply mm_ok_geom].
  - rewrite (holdings_geom _ _ _ Hge).
    apply (own_inv_perm _ (holdings (s_reg st) l' ++ holdings (s_reg st) rest)).
    { by rewrite Hc', holdings_app. }
    apply Hstep. revert Hown. apply own_inv_perm. by rewrite Hc, holdings_app.
Qed.

Lemma sys_split_inv orc i v a l1 l2 st procs ret hi low st' :
  procs !! i = Some (l1 ++ v :: l2) -> vm_mine v = true -> vm_start v < a < vm_end v ->
  split_vma orc st v a false = (ret, hi, low, st') ->
  sys_inv (st, procs) -> sys_inv (st', <[i := l1 ++ low :: hi ++ l2]> procs).
Proof.
  intros Hi Hm Ha He Hinv.
  pose proof (Forall_lookup_1 _ _ _ _ (si_mm _ Hinv) Hi) as Hl. simpl in Hl.
  destruct (split_vma_spec orc st v a false) as (ret2 & ex & v' & st2 & He2 & (Hge & Hmo & Hfr) & Hcase).
  rewrite He in He2. injection He2 as <- <- <- <-.
  assert (Hsp : splits (granule (s_reg st)) (l1 ++ v :: l2) (l1 ++ low :: hi ++ l2)).
  { destruct Hcase as [(_ & -> & ->)|(_ & Hg & Hex)]; [apply splits_refl|]. injection Hex as -> ->.
    apply splits_app; [apply splits_refl|]. eapply sp_split; try done. apply splits_refl. }
  destruct (splits_holdings _ _ _ Hsp 0 Hl) as [Hh Hl'].
  eapply sys_replace_inv; try done. intros rest Hown.
  eapply own_inv_stat; [done|done| | |exact Hown].
  - apply Hfr. destruct Hown as [Ho _]. by rewrite <- Hh.
  - intros [Hn ->]%app_eq_nil. rewrite app_nil_r. exact (splits_nil _ _ _ Hsp Hn).
Qed.

Lemma upd_nil reg N c me l l' : upd (granule reg) N c me l l' -> holdings reg l = [] -> holdings reg l' = [].
Proof.
  induction 1 as [c l l' Hs|c me v l l' Hle Hu IH|c me v a l l' Hm Ha Hg Hu IH
    |c me v v' l l' Hm Hc Hme Hmod Hu IH].
  - by apply splits_nil.
  - rewrite !holdings_cons. intros [H1 H2]%app_eq_nil. by rewrite H1, (IH H2).
  - rewrite holdings_cons, Hm. done.
  - rewrite holdings_cons, Hm. done.
Qed.

Lemma sys_update_inv orc i file info vmas st procs ret l st' :
  procs !! i = Some vmas -> obmm_shm_update_range orc file info vmas st = Some (ret, l, st') ->
  sys_inv (st, procs) -> sys_inv (st', <[i := l]> procs).
Proof.
  intros Hi He Hinv.
  pose proof (Forall_lookup_1 _ _ _ _ (si_mm _ Hinv) Hi) as Hl. simpl in Hl.
  assert (Hspec : forall hs, own_ok (s_reg st) (holdings (s_reg st) vmas ++ hs) ->
    geom (s_reg st') = geom (s_reg st) /\ stat (s_reg st') = stat (s_reg st) /\
    own_ok (s_reg st') (holdings (s_reg st) l ++ hs) /\ mm_ok (s_reg st) 0 l /\
    (holdings (s_reg st) vmas = [] -> holdings (s_reg st) l = [])).
  { intros hs Ho. destruct (shm_update_spec orc file info vmas st 0 hs Hl Ho)
      as (ret2 & l2 & st2 & He2 & Hge & Hst & Ho2 & Hl2 & Hcase).
    rewrite He in He2. injection He2 as <- <- <-. split_and!; try done.
    destruct Hcase as [[_ Hu]|[_ Hs]]; [by eapply upd_nil|by eapply splits_nil]. }
  destruct (concat_insert procs i _ Hi) as (rest0 & Hc & _).
  destruct (Hspec (holdings (s_reg st) rest0)) as (Hge & Hst & _ & Hl2 & Hnil).
  { destruct (si_own _ Hinv) as [Ho _]. simpl in Ho. revert Ho.
    apply own_ok_heq, heq_perm. by rewrite Hc, holdings_app. }
  eapply sys_replace_inv; try done. intros rest Hown.
  eapply own_inv_stat; [done|done| | |exact Hown].
  - apply Hspec, Hown.
  - intros [Hn ->]%app_eq_nil. by rewrite (Hnil Hn).
Qed.

(** *** An [mmap] that fails *)

(** The array of [init_ownership_info]. *)
Definition fresh_info (reg : obmm_region) : obmm_ownership_info :=
  {| page_states := replicate (Z.to_nat (region_entries reg)) {| r_count := 0; w_count := 0 |};
     nentries := s32 (region_entries reg) |}.

Lemma fresh_counts reg : counts_ok (fresh_info reg) [].
Proof. intros j st Hj. simpl in Hj. apply lookup_replicate in Hj as [-> _]. done. Qed.

Lemma init_ownership_cases kz vz reg ret reg' : init_ownership_info kz vz reg = (ret, reg') ->
  reg' = reg \/ (ownership_info reg = None /\ mmap_granu reg <> OBMM_MMAP_GRANU_NONE /\ reg' = set_info reg (Some (fresh_info reg))).
Proof.
  unfold init_ownership_info. destruct (ownership_info reg) eqn:Hi; [intros [= _ <-]; by left|].
  destruct (mmap_granu reg) eqn:Hg; [intros [= _ <-]; by left| |];
    (destruct kz, vz; intros [= _ <-]; try (by left); right; split; [done|]; split; [done|]; done).
Qed.

(** A failed [mmap] changes nothing, or leaves the array that it allocated. *)
Lemma mmap_fail_info file map_ret kz vz reg v ret reg' v' :
  obmm_shm_fops_mmap file map_ret kz vz reg v = Some (ret, reg', v') -> ret <> 0 ->
  reg' = reg \/ (ownership_info reg = None /\ exists granu, granu <> OBMM_MMAP_GRANU_NONE /\
    (mmap_granu reg = OBMM_MMAP_GRANU_NONE \/ granu = mmap_granu reg) /\
    reg' = set_info reg (Some (fresh_info (set_granu reg granu)))).
Proof.
  intros H Hret. unfold obmm_shm_fops_mmap in H.
  destruct (negb (ctrue (Z.land (vm_flags v) VM_MAYSHARE))); [injection H as _ <- _; by left|].
  destruct (negb (region_allow_mmap reg)); [injection H as _ <- _; by left|].
  destruct (negb (validate_perm file (vm_flags v))); [injection H as _ <- _; by left|].
  destruct (mmap_request v) as [e|[granu offset]]; [injection H as _ <- _; by left|].
  set (reg1 := if decide (mmap_granu reg = OBMM_MMAP_GRANU_NONE) then _ else reg) in *.
  assert (Hback : set_granu reg1 (mmap_granu reg) = reg) by (unfold reg1; destruct reg; by destruct (decide _)).
  assert (Hg1 : mmap_granu reg = OBMM_MMAP_GRANU_NONE \/ mmap_granu reg1 = mmap_granu reg) by (unfold reg1; destruct (decide _); [by left|by right]).
  assert (Hr1 : reg1 = set_granu reg (mmap_granu reg1)) by (unfold reg1; destruct reg; by destruct (decide _)).
  clearbody reg1. destruct (decide (mmap_granu reg1 = granu)); [|injection H as _ <- _; by left].
  destruct ((mem_size reg <=? offset) || _); [injection H as _ <- _; by left|].
  destruct (mmap_locked _ _ _ _ _ _) as [[ret2 reg2]|] eqn:Hl; [|done]. cbn [mbind option_bind] in H.
  destruct (ctrue ret2) eqn:Hr2; [|by injection H as <- _ _]. injection H as <- <- <-.
  assert (Hcase : reg2 = reg1 \/ (ownership_info reg1 = None /\ mmap_granu reg1 <> OBMM_MMAP_GRANU_NONE /\ reg2 = set_info reg1 (Some (fresh_info reg1)))).
  { unfold mmap_locked in Hl. destruct (_ || _); [injection Hl as _ <-; by left|].
    set (mode := if f_osync file then OBMM_MMAP_OSYNC else OBMM_MMAP_NORMAL) in *.
    destruct (decide (mmap_mode reg1 = OBMM_MMAP_INIT)) as [Hm|Hm].
    - assert (Hres : set_mode (set_mode reg1 mode) OBMM_MMAP_INIT = reg1) by (destruct reg1; simpl in *; by rewrite Hm).
      destruct (decide (mmap_mode (set_mode reg1 mode) = OBMM_MMAP_NORMAL)).
      + destruct (init_ownership_info kz vz (set_mode reg1 mode)) as [ri r2] eqn:Hi.
        assert (Hc : set_mode r2 OBMM_MMAP_INIT = reg1 \/ (ownership_info reg1 = None /\ mmap_granu reg1 <> OBMM_MMAP_GRANU_NONE /\
          set_mode r2 OBMM_MMAP_INIT = set_info reg1 (Some (fresh_info reg1)))).
        { apply init_ownership_cases in Hi as [->|(A & B & ->)]; [by left|right]. split; [done|]. split; [done|]. destruct reg1; simpl in *; by rewrite Hm. }
        destruct (ctrue ri); [by injection Hl as _ <-|]. destruct (ctrue map_ret); [by injection Hl as _ <-|].
        destruct (update_vma_perm_count _ _ _ _ _) as [[? ?]|]; [|done]. injection Hl as <- _. done.
      + destruct (ctrue map_ret); [injection Hl as _ <-; by left|]. by injection Hl as <- _.
    - destruct (decide (mmap_mode reg1 = OBMM_MMAP_NORMAL)).
      + destruct (init_ownership_info kz vz reg1) as [ri r2] eqn:Hi. apply init_ownership_cases in Hi.
        destruct (ctrue ri); [by injection Hl as _ <-|]. destruct (ctrue map_ret); [by injection Hl as _ <-|].
        destruct (update_vma_perm_count _ _ _ _ _) as [[? ?]|]; [|done]. injection Hl as <- _. done.
      + destruct (ctrue map_ret); [injection Hl as _ <-; by left|]. by injection Hl as <- _. }
  destruct Hcase as [->|(A & B & ->)]; [by left|right]. rewrite Hr1 in A. split; [exact A|]. exists (mmap_granu reg1). split; [done|]. split; [tauto|].
  rewrite <- Hr1. rewrite <- Hback at 2. by destruct reg1.
Qed.

(** An array that was left behind is the one that the next [mmap] would allocate, if it fits. *)
Lemma mmap_leftover file map_ret kz vz reg v granu offset reg' v' :
  f_osync file = false -> mmap_granu reg = OBMM_MMAP_GRANU_NONE -> mmap_request v = inr (granu, offset) ->
  ownership_info reg = Some (fresh_info (set_granu reg granu)) -> granu <> OBMM_MMAP_GRANU_NONE ->
  obmm_shm_fops_mmap file map_ret kz vz reg v = Some (0, reg', v') ->
  obmm_shm_fops_mmap file map_ret true true (set_info reg None) v = Some (0, reg', v').
Proof.
  intros Hos Hg Hreq Hi Hgr H. unfold obmm_shm_fops_mmap in *. change (region_allow_mmap (set_info reg None)) with (region_allow_mmap reg).
  change (mem_size (set_info reg None)) with (mem_size reg). change (mmap_granu (set_info reg None)) with (mmap_granu reg).
  destruct (negb (ctrue (Z.land (vm_flags v) VM_MAYSHARE))); [done|]. destruct (negb (region_allow_mmap reg)); [done|].
  destruct (negb (validate_perm file (vm_flags v))); [done|]. rewrite Hreq, Hg in *. rewrite !decide_True in * by done. cbv zeta in *.
  destruct ((mem_size reg <=? offset) || _); [done|].
  match type of H with context [mmap_locked _ _ _ _ _ ?x] => set (v2 := x) in * end.
  assert (El : forall r r1, mmap_locked (f_osync file) map_ret kz vz (set_granu reg granu) v2 = Some (r, r1) -> ctrue r = false ->
    mmap_locked (f_osync file) map_ret true true (set_granu (set_info reg None) granu) v2 = Some (r, r1)).
  { intros r r1 Hl Hr. destruct (decide (mmap_mode reg = OBMM_MMAP_OSYNC)) as [Eo|Eo].
    { unfold mmap_locked in Hl. rewrite Hos in Hl. simpl in Hl. rewrite Eo in Hl. by injection Hl as <- _. }
    rewrite <- Hl. unfold mmap_locked. rewrite Hos. simpl.
    assert (Hinit : forall m, let R := set_mode (set_granu reg granu) m in let R0 := set_mode (set_granu (set_info reg None) granu) m in
      init_ownership_info true true R0 = (0, R) /\ init_ownership_info kz vz R = (0, R)).
    { intros m R R0. unfold init_ownership_info at 2. change (ownership_info R) with (ownership_info reg). rewrite Hi. split; [|done].
      unfold init_ownership_info. change (ownership_info R0) with (@None obmm_ownership_info). change (mmap_granu R0) with granu.
      assert (E : set_info R0 (Some (fresh_info R0)) = R) by (change (fresh_info R0) with (fresh_info (set_granu reg granu)); rewrite <- Hi; unfold R, R0; by destruct reg). rewrite <- E. by destruct granu. }
    destruct (Hinit OBMM_MMAP_NORMAL) as [H1 H2]. rewrite (bool_decide_eq_false_2 _ Eo). destruct (decide (mmap_mode reg = OBMM_MMAP_INIT)) as [Em|Em].
    - simpl. rewrite H1, H2. done.
    - assert (En : mmap_mode reg = OBMM_MMAP_NORMAL) by (by destruct (mmap_mode reg)).
      change (mmap_mode (set_granu reg granu)) with (mmap_mode reg). change (mmap_mode (set_granu (set_info reg None) granu)) with (mmap_mode reg). rewrite En. cbn [decide decide_rel].
      assert (E1 : set_granu reg granu = set_mode (set_granu reg granu) OBMM_MMAP_NORMAL) by (rewrite <- En; by destruct reg).
      assert (E2 : set_granu (set_info reg None) granu = set_mode (set_granu (set_info reg None) granu) OBMM_MMAP_NORMAL) by (rewrite <- En; by destruct reg).
      rewrite E1, E2, H1, H2. by rewrite <- E1. }
  destruct (mmap_locked _ _ kz vz _ _) as [[r r1]|]; [|done]. cbn [mbind option_bind] in H. destruct (ctrue r) eqn:Hr; [by injection H as -> _ _|].
  rewrite (El r r1 eq_refl Hr). cbn [mbind option_bind]. by rewrite Hr.
Qed.

(** A first [mmap] has failed: there is an array, but no mapping and no granularity. *)
Record left_over (s : shm_state * list (list vma)) : Prop := {
  lo_none : mmap_granu (s_reg s.1) = OBMM_MMAP_GRANU_NONE;
  lo_info : exists granu, granu <> OBMM_MMAP_GRANU_NONE /\
    ownership_info (s_reg s.1) = Some (fresh_info (set_granu (s_reg s.1) granu));
  lo_inv : sys_inv (with_reg s.1 (set_info (s_reg s.1) None), s.2);
}.
Definition life_inv (s : shm_state * list (list vma)) : Prop := sys_inv s \/ left_over s.

Lemma left_none st procs : left_over (st, procs) -> holdings (s_reg st) (concat procs) = [].
Proof. intros [_ _ [_ (_ & H & _) _]]. simpl in H. specialize (H eq_refl). exact H. Qed.
Lemma left_not_mine st procs i l v : left_over (st, procs) -> procs !! i = Some l -> v ∈ l -> vm_mine v = false.
Proof.
  intros Hl%left_none Hi Hv. destruct (vm_mine v) eqn:Hm; [|done]. exfalso. unfold holdings in Hl. apply map_eq_nil in Hl.
  assert (Hin : v ∈ filter (fun v => vm_mine v = true) (concat procs)); [|rewrite Hl in Hin; by apply not_elem_of_nil in Hin].
  apply list_elem_of_filter. split; [done|]. destruct (concat_insert procs i l Hi) as (rest & Hc & _). rewrite Hc. apply elem_of_app. by left.
Qed.

Lemma fresh_entries reg granu : 0 <= mem_size reg ->
  Z.of_nat (length (page_states (fresh_info (set_granu reg granu)))) = region_entries (set_granu reg granu).
Proof.
  intros Hm. simpl. rewrite length_replicate. apply Z2Nat.id. unfold region_entries, ownership_size_to_nentries. simpl. destruct granu; by apply Z.shiftr_nonneg.
Qed.

Lemma sys_mmap_fail_inv file mr kz vz v v' st procs ret reg' :
  ret <> 0 -> obmm_shm_fops_mmap file mr kz vz (s_reg st) v = Some (ret, reg', v') ->
  life_inv (st, procs) -> life_inv (with_reg st reg', procs).
Proof.
  intros Hr He Hinv. destruct (mmap_fail_info _ _ _ _ _ _ _ _ _ He Hr) as [->|(Hn & granu & Hg & Hor & ->)]; [by destruct st|].
  destruct Hinv as [Hinv|[_ (g & _ & Hi) _]]; [|simpl in Hi; congruence]. pose proof Hinv as [Hmm Hown Hsz]. simpl in *.
  destruct Hor as [Hno| ->].
  - right. split; simpl; [done|by exists granu|].
    assert (E : set_info (set_info (s_reg st) (Some (fresh_info (set_granu (s_reg st) granu)))) None = s_reg st) by (destruct (s_reg st); simpl in *; by rewrite Hn).
    rewrite E. by destruct st.
  - left. pose proof Hown as (_ & Hnil & _). specialize (Hnil Hn). split; simpl; [by eapply Forall_geom; [|exact Hmm]| |done].
    change (holdings (set_info (s_reg st) _) (concat procs)) with (holdings (s_reg st) (concat procs)). rewrite Hnil.
    split; [|by split; [|intros _; simpl]]. unfold own_ok. simpl. split; [|apply fresh_counts]. pose proof (fresh_entries (s_reg st) (mmap_granu (s_reg st)) ltac:(lia)) as E. simpl in E. exact E.
Qed.

(** A process without mappings of the region changes nothing. *)
Lemma update_not_mine orc file info vmas st ret l st' : Forall (fun v => vm_mine v = false) vmas ->
  obmm_shm_update_range orc file info vmas st = Some (ret, l, st') -> l = vmas /\ st' = st.
Proof.
  intros Hf. unfold obmm_shm_update_range.
  assert (Hloop : forall c m, c = m -> exists ret, update_loop orc info vmas c m st = Some (vmas, ret, c, m, st)).
  { induction Hf as [|v vmas Hv _ IH]; intros c m Hcm; cbn [update_loop]; [by eexists|]. destruct (_ <=? _).
    - destruct (IH c m Hcm) as [r ->]. by eexists.
    - destruct (_ <=? _); [by eexists|]. unfold update_one. destruct (c <? vm_start v); [by eexists|]. rewrite Hv. by eexists. }
  destruct (negb _); [by intros [= _ <- <-]|]. destruct (negb _); [by intros [= _ <- <-]|]. destruct (negb _); [by intros [= _ <- <-]|].
  destruct (_ && _); [by intros [= _ <- <-]|]. destruct (Hloop (ur_start info) (ur_start info) eq_refl) as [r ->]. cbn [mbind option_bind].
  destruct (ctrue _); [|by intros [= _ <- <-]]. destruct vmas; cbn [rollback_loop]; rewrite (proj2 (Z.leb_le _ _)) by lia; by intros [= _ <- <-].
Qed.

Lemma sys_step_inv orc s1 s2 : sys_step orc s1 s2 -> life_inv s1 -> life_inv s2.
Proof.
  intros Hs. destruct Hs as [i file mr kz vz v v' l1 l2 st procs reg' Hos Ha Hfit Hi He Hord|file mr kz vz v v' st procs ret reg' Hos Hr He
    |i v l1 l2 st procs st' Hi Hm He|i v a l1 l2 st procs ret hi low st' Hi Hm Ha He|i file info vmas st procs ret l st' Hi He].
  - intros [Hinv|Hinv]; left; [by eapply sys_mmap_inv|]. destruct Hinv as [Hn (g & Hg & Hinfo) Hinv]. simpl in *.
    destruct (mmap_request v) as [e|[granu offset]] eqn:Hreq.
    { exfalso. unfold obmm_shm_fops_mmap in He. rewrite Hreq in He. destruct (negb _); [done|]. destruct (negb _); [done|]. destruct (negb _); [done|].
      injection He as -> _ _. unfold mmap_request in Hreq. cbv zeta in Hreq. repeat case_match; simplify_eq. }
    destruct (mmap_request_ok v granu offset (ma_start _ _ Ha) (ma_end _ _ Ha) Hreq) as (Hgr & _).
    assert (E : fresh_info (set_granu (s_reg st) g) = fresh_info (set_granu (s_reg st) granu)).
    { specialize (Hfit Hn _ granu offset Hinfo Hreq). rewrite fresh_entries in Hfit by (pose proof (ma_size _ _ Ha); lia). unfold fresh_info. by rewrite Hfit. }
    rewrite E in Hinfo. pose proof (mmap_leftover _ _ _ _ _ _ _ _ _ _ Hos Hn Hreq Hinfo Hgr He) as He'.
    exact (sys_mmap_inv file mr true true v v' l1 l2 (with_reg st (set_info (s_reg st) None)) procs reg' i Hos
      ltac:(by destruct Ha) Hi He' Hord Hinv).
  - by eapply sys_mmap_fail_inv.
  - intros [Hinv|Hinv]; [left; by eapply sys_close_inv|]. rewrite (left_not_mine _ _ i _ v Hinv Hi) in Hm; [done|]. apply elem_of_app. right. by left.
  - intros [Hinv|Hinv]; [left; by eapply sys_split_inv|]. rewrite (left_not_mine _ _ i _ v Hinv Hi) in Hm; [done|]. apply elem_of_app. right. by left.
  - intros [Hinv|Hinv]; [left; by eapply sys_update_inv|]. right. destruct (update_not_mine _ _ _ _ _ _ _ _ (proj2 (Forall_forall _ _) (fun v => left_not_mine _ _ i _ v Hinv Hi)) He) as [-> ->].
    by rewrite list_insert_id.
Qed.
Lemma sys_rtc_inv orc s1 s2 : rtc (sys_step orc) s1 s2 -> life_inv s1 -> life_inv s2.
Proof. induction 1 as [|s1 s2 s3 Hs _ IH]; [done|]. intros Hi. by eapply IH, sys_step_inv. Qed.

(** The counters of every entry are right, and once the region has a granularity there is an entry for
    each granule of the region. *)
Definition counted (reg : obmm_region) (hs : list holding) : Prop :=
  match ownership_info reg with
  | None => hs = []
  | Some info => counts_ok info hs /\
      (mmap_granu reg = OBMM_MMAP_GRANU_NONE -> hs = []) /\
      (mmap_granu reg <> OBMM_MMAP_GRANU_NONE -> Z.of_nat (length (page_states info)) = region_entries reg)
  end.

(** C31: over the whole life of a region that is only mapped through files opened without
    [O_SYNC], whatever sequence of mappings, VMA splits, access-rights updates (each of them
    successful or failed) and unmappings any number of processes perform, every page's reader
    and writer counters are the numbers of VMAs that may read and write it (modulo their
    16 bits), and every VMA lies inside the region.  One call is left out: after a first [mmap]
    that failed and left its array, an [mmap] with the other granularity ([array_fits]), which
    can count outside of that array. *)
Theorem shm_counters_reachable orc st procs st' procs' :
  ownership_info (s_reg st) = None -> 0 <= mem_size (s_reg st) < 2 ^ 64 ->
  Forall (eq []) procs -> rtc (sys_step orc) (st, procs) (st', procs') ->
  counted (s_reg st') (holdings (s_reg st') (concat procs')) /\
  Forall (mm_ok (s_reg st') 0) procs'.
Proof.
  intros Hn Hsz Hp Hr.
  assert (Hc : concat procs = []) by (clear Hr; induction Hp as [|? ? <- _ IH]; simpl; auto).
  destruct (sys_rtc_inv orc _ _ Hr) as [[Hmm (Ho & H1 & H2) _]|Hl].
  - left. split; simpl; [|unfold own_inv, own_ok; rewrite Hn, Hc; done|done].
    eapply Forall_impl; [exact Hp|]. by intros ? <-.
  - split; [|exact Hmm]. simpl in *. unfold counted, own_ok in *. destruct (ownership_info (s_reg st')) as [info|]; [|by apply H1].
    destruct Ho as [Ho1 Ho2]. split; [done|]. split; [|done]. intros E. by destruct H2.
  - pose proof (left_none _ _ Hl) as Hno. destruct Hl as [Hg (g & _ & Hi) [Hmm _ _]]. simpl in *. split; [|by eapply Forall_geom; [|exact Hmm]].
    unfold counted. rewrite Hi, Hno. split; [apply fresh_counts|]. by split.
Qed.

(** A first [mmap] that fails in [map_obmm_region], one that succeeds, and a split of its VMA: the states
    are reached, and the counters are right. *)
Lemma shm_counters_reachable_witness :
  let st0 := {| s_reg := demo_fresh; s_n := 0; s_flushed := [] |} in
  exists st' procs', rtc (sys_step (fun _ => 0)) (st0, [[]]) (st', procs') /\ length (concat procs') = 2%nat /\
    (r_count <$> (ownership_info (s_reg st') ≫= fun i => page_states i !! 1%nat)) = Some 1 /\
    counted (s_reg st') (holdings (s_reg st') (concat procs')).
Proof.
  intros st0.
  destruct (obmm_shm_fops_mmap demo_file (- ENOMEM) true true demo_fresh demo_vma)
    as [[[r0 reg0] v0]|] eqn:H0; [|discriminate H0].
  assert (E0 : r0 = - ENOMEM /\ mem_size reg0 = 2 * PAGE_SIZE /\ array_fits reg0 demo_vma).
  { injection H0 as <- <- <-. split; [done|]. split; [done|]. intros _ info granu off [= <-] [= <- <-]. reflexivity. }
  destruct E0 as (-> & Em0 & Ef0).
  destruct (obmm_shm_fops_mmap demo_file 0 true true reg0 demo_vma)
    as [[[r1 reg1] v1]|] eqn:H1; [|injection H0 as <- <-; discriminate H1].
  assert (E1 : r1 = 0 /\ vm_start v1 = 0 /\ vm_end v1 = 2 * PAGE_SIZE /\ vm_mine v1 = true /\
    mmap_granu reg1 = OBMM_MMAP_GRANU_PAGE /\ (r_count <$> (ownership_info reg1 ≫= fun i => page_states i !! 1%nat)) = Some 1)
    by (injection H0 as <- <-; injection H1 as <- <- <-; split_and!; reflexivity).
  destruct E1 as (-> & Es & Ee & Em & Eg & Ec).
  set (low := (split_at v1 PAGE_SIZE).1). set (hi := (split_at v1 PAGE_SIZE).2).
  set (st1 := with_reg (with_reg st0 reg0) reg1).
  set (st2 := with_reg (tick st1) (obmm_vma_open reg1)).
  set (procs := <[0%nat := [] ++ low :: [hi] ++ []]> (<[0%nat := [] ++ v1 :: []]> [[]])).
  assert (Hr : rtc (sys_step (fun _ => 0)) (st0, [[]]) (st2, procs)).
  { eapply rtc_l; [|eapply rtc_l; [|eapply rtc_once]].
    - apply (sys_mmap_fail (fun _ => 0) demo_file (- ENOMEM) true true demo_vma v0 st0 [[]] (- ENOMEM) reg0); done.
    - apply (sys_mmap (fun _ => 0) 0 demo_file 0 true true demo_vma v1 [] []); [done|by apply demo_args|exact Ef0|reflexivity| |].
      + exact H1.
      + simpl. rewrite Es, Ee. done.
    - apply (sys_split (fun _ => 0) 0 v1 PAGE_SIZE [] [] st1 _ 0 [hi]); [reflexivity|done|rewrite Es, Ee; done|].
      unfold split_vma, obmm_vma_may_split, obmm_is_aligned. simpl. rewrite Eg. reflexivity. }
  exists st2, procs. split; [exact Hr|]. split; [reflexivity|]. split; [exact Ec|].
  apply (shm_counters_reachable (fun _ => 0) st0 [[]]); [done|done|by repeat constructor|exact Hr].
Defined.

(** ** Cache maintenance when a mapping goes away *)

Lemma close_range reg v :
  vma_ok reg v -> exists q n, 0 <= q /\ 0 < n /\ (q + n) * granule reg <= mem_size reg < 2 ^ 64 /\
    u64 (Z.shiftl (vm_pgoff v) PAGE_SHIFT) = q * granule reg /\
    u64 (Z.shiftl (npages v) PAGE_SHIFT) = n * granule reg.
Proof.
  intros (q & n & Hq & Hn & _ & H0 & H1 & Hm). exists q, n. pose proof (granule_pos reg).
  split_and!; try done; try lia.
  - rewrite Z.shiftl_mul_pow2 by done. fold PAGE_SIZE. rewrite Hq. apply uwrap_small. nia.
  - unfold npages. rewrite Hn, (uwrap_small 64 (n * _)) by nia.
    rewrite Z.shiftl_mul_pow2, Z.shiftr_div_pow2 by done.
    assert (n * granule reg / 2 ^ PAGE_SHIFT * 2 ^ PAGE_SHIFT = n * granule reg) as ->.
    { unfold granule, PMD_SIZE, PAGE_SIZE, PMD_SHIFT, PAGE_SHIFT in *. destruct (mmap_granu reg); zlia. }
    apply uwrap_small. nia.
Qed.

(** Unmapping flushes what must be flushed: when a VMA of a cacheable region is closed
    and some entry loses its last writer, the cache lines of the whole VMA are written
    back, and they are invalidated too when some entry loses its last accessor. *)
Theorem shm_close_flushes orc st v info hs :
  let reg := s_reg st in let h := hold reg v in
  ownership_info reg = Some info -> mmap_mode reg = OBMM_MMAP_NORMAL -> vma_ok reg v ->
  own_ok reg (h :: hs) -> Z.of_nat (length (h :: hs)) < 2 ^ 16 -> orc (s_n st) = 0 ->
  last_leaves obmm_access_is_writer h OBMM_SHM_MEM_NO_ACCESS hs \/
    last_leaves obmm_access_is_reader h OBMM_SHM_MEM_NO_ACCESS hs ->
  exists st' op, obmm_vma_close orc st v = Some st' /\
    s_flushed st' = s_flushed st ++ [(u64 (Z.shiftl (vm_pgoff v) PAGE_SHIFT),
                                      u64 (Z.shiftl (npages v) PAGE_SHIFT), op)] /\
    (last_leaves obmm_access_is_writer h OBMM_SHM_MEM_NO_ACCESS hs -> writes_back op = true) /\
    (last_leaves obmm_access_is_reader h OBMM_SHM_MEM_NO_ACCESS hs -> invalidates op = true).
Proof.
  intros reg h Hinfo Hmode Hv Hok Hlen Horc Hlast. unfold obmm_vma_close. fold reg.
  pose proof (vma_ok_in_region _ _ Hv) as Hin.
  destruct (perm_count_vma reg v (vm_flags_to_access (vm_flags v)) OBMM_SHM_MEM_NO_ACCESS hs Hv Hok)
    as (op & reg1 & He & _ & Hge & [Hmo _]%stat_inv).
  destruct (perm_count_op _ _ _ _ _ _ _ _ _ Hinfo Hin Hok Hlen He) as (Hop & Hw & Hi).
  rewrite He. cbn [mbind option_bind]. rewrite bool_decide_true by congruence.
  assert (Hne : op <> OBMM_SHM_CACHE_NONE).
  { intros ->. destruct Hlast as [Hl|Hl]; [apply Hw in Hl|apply Hi in Hl]; done. }
  rewrite (proj2 (Z.eqb_neq _ _) Hne). simpl andb. cbv iota.
  destruct (close_range reg v Hv) as (q & n & H0 & H1 & Hm & Eo & El).
  unfold obmm_region_flush_range. cbn [s_reg with_reg s_n s_flushed]. rewrite Eo, El, Horc.
  destruct (geom_inv _ _ Hge) as [_ ->].
  assert (obmm_is_valid_cache_ops op = true) as ->.
  { unfold is_op in Hop. assert (op = 1 \/ op = 2 \/ op = 3) as [-> |[-> | ->]]
      by (unfold OBMM_SHM_CACHE_NONE in Hne; lia); done. }
  pose proof (granule_pos reg) as Hgp.
  assert (Hal : forall k, IS_ALIGNED (k * granule reg) PAGE_SIZE = true).
  { intros k. unfold PAGE_SIZE. rewrite is_aligned_pow2 by done. apply Z.eqb_eq.
    unfold granule, PMD_SIZE, PAGE_SIZE, PMD_SHIFT, PAGE_SHIFT. destruct (mmap_granu reg); zlia. }
  rewrite !Hal, (proj2 (Z.leb_gt _ _)), uwrap_small, (proj2 (Z.ltb_ge _ _)) by nia.
  rewrite (proj2 (Z.eqb_neq _ _) Hne). simpl.
  eexists _, op. split; [done|]. simpl. split; [done|]. tauto.
Qed.

Lemma shm_close_flushes_witness :
  exists st', obmm_vma_close (fun _ => 0) demo_state demo_vma = Some st' /\
    s_flushed st' <> [].
Proof.
  destruct (shm_close_flushes (fun _ => 0) demo_state demo_vma
    {| page_states := [{| r_count := 1; w_count := 1 |}; {| r_count := 1; w_count := 1 |}];
       nentries := 2 |} []) as (st' & op & He & Hf & _); try done.
  - by apply demo_mm_ok.
  - exact demo_own_ok.
  - left. exists 0%nat. split; [vm_compute; split; congruence|]. split; reflexivity.
  - exists st'. split; [exact He|]. rewrite Hf. by destruct (s_flushed demo_state).
Defined.

(** ** Two defects *)

(** Closing an [O_SYNC] mapping decrements counters its [mmap] did not increment,
    when the region was mapped cacheable before: the counters of an unmapped region
    become 65535.  A later cacheable writable mapping brings them to 0, and its unmapping
    then flushes nothing: dirty cache lines are not written back. *)
Theorem shm_osync_close_underflow :
  let osync := {| f_osync := true; f_read := true; f_write := true |} in
  let st r := {| s_reg := r; s_n := 0; s_flushed := [] |} in
  exists r1 v1 st1 r2 v2 st2 r3 v3 st3 info,
    obmm_shm_fops_mmap demo_file 0 true true demo_fresh demo_vma = Some (0, r1, v1) /\
    obmm_vma_close (fun _ => 0) (st r1) v1 = Some st1 /\
    obmm_shm_fops_mmap osync 0 true true (s_reg st1) demo_vma = Some (0, r2, v2) /\
    obmm_vma_close (fun _ => 0) (st r2) v2 = Some st2 /\
    mmap_count (s_reg st2) = 0 /\ ownership_info (s_reg st2) = Some info /\
    Forall (fun p => r_count p = 65535 /\ w_count p = 65535) (page_states info) /\
    obmm_shm_fops_mmap demo_file 0 true true (s_reg st2) demo_vma = Some (0, r3, v3) /\
    obmm_vma_close (fun _ => 0) (st r3) v3 = Some st3 /\ s_flushed st3 = [].
Proof.
  intros osync st. eexists _, _, _, _, _, _, _, _, _, _.
  split; [vm_compute; reflexivity|]. split; [vm_compute; reflexivity|].
  split; [vm_compute; reflexivity|]. split; [vm_compute; reflexivity|].
  split; [reflexivity|]. split; [reflexivity|]. split; [repeat constructor|].
  split; [vm_compute; reflexivity|]. split; [vm_compute; reflexivity|]. reflexivity.
Qed.

(** A 2 MiB region and a PMD-granular request for it. *)
Definition demo_huge : obmm_region :=
  {| type := OBMM_IMPORT_REGION; flags := 2; mem_size := PMD_SIZE; mmap_mode := OBMM_MMAP_INIT;
     mmap_granu := OBMM_MMAP_GRANU_NONE; mem_cap := 3; mmap_count := 0; ownership_info := None |}.

Definition demo_huge_vma : vma :=
  {| vm_start := 0; vm_end := PMD_SIZE; vm_pgoff := 2 ^ 51; vm_flags := 0xb3;
     vm_page_prot := (PAGE_SHARED_W, ATTR_NORMAL); vm_private_data := 0; vm_mine := false;
     vm_pt := (PAGE_SHARED_W, ATTR_NORMAL) |}.

(** A PMD-granular [mmap] that fails in [map_obmm_region] resets the granularity of
    the region but keeps the ownership array it allocated, which has one entry per 2 MiB;
    the next page-granular [mmap] then counts outside that array ([None]). *)
Theorem shm_mmap_granularity_overflow :
  exists r1 v1 info,
    obmm_shm_fops_mmap demo_file (- ENOMEM) true true demo_huge demo_huge_vma
      = Some (- ENOMEM, r1, v1) /\
    mmap_granu r1 = OBMM_MMAP_GRANU_NONE /\ ownership_info r1 = Some info /\
    length (page_states info) = 1%nat /\
    obmm_shm_fops_mmap demo_file 0 true true r1 demo_vma = None.
Proof.
  eexists _, _, _. split; [vm_compute; reflexivity|]. split; [reflexivity|].
  split; [reflexivity|]. split; reflexivity.
Qed.
