(* ===== verification/UmmuQueue.v ===== *)
(** * The queues of the UMMU

    [drivers/iommu/hisilicon/queue.c] and [queue.h]: ring buffers shared with the
    hardware.  The producer and consumer registers hold an index of [log2size] bits, a
    wrap bit above it and an overflow (or owner) flag in bit 31.  The command queues are
    written by the CPUs and the event queue is read by them.  Registers are 32 bits
    wide, entries are lists of 64-bit words. *)

From S2P Require Import Prelude.

(** ** Low-level queue manipulation *)

(** [struct ummu_ll_queue]. *)
Record ummu_ll_queue := { prod : Z; cons : Z; log2size : Z }.

Definition set_prod (q : ummu_ll_queue) (p : Z) : ummu_ll_queue :=
  {| prod := p; cons := cons q; log2size := log2size q |}.
Definition set_cons (q : ummu_ll_queue) (c : Z) : ummu_ll_queue :=
  {| prod := prod q; cons := c; log2size := log2size q |}.

Definition Q_IDX (q : ummu_ll_queue) (p : Z) : Z := Z.land p (Z.shiftl 1 (log2size q) - 1).
Definition Q_WRP (q : ummu_ll_queue) (p : Z) : Z := Z.land p (Z.shiftl 1 (log2size q)).
Definition Q_OVERFLOW_FLAG : Z := Z.shiftl 1 31.
Definition Q_OVF (p : Z) : Z := Z.land p Q_OVERFLOW_FLAG.

Definition ummu_queue_has_space (q : ummu_ll_queue) (n : Z) : bool :=
  let p := Q_IDX q (prod q) in
  let c := Q_IDX q (cons q) in
  let space :=
    if Q_WRP q (prod q) =? Q_WRP q (cons q)
    then u32 (Z.shiftl 1 (log2size q) - u32 (p - c))
    else u32 (c - p) in
  n <=? space.

Definition ummu_queue_full (q : ummu_ll_queue) : bool :=
  (Q_IDX q (prod q) =? Q_IDX q (cons q)) && negb (Q_WRP q (prod q) =? Q_WRP q (cons q)).

Definition ummu_queue_empty (q : ummu_ll_queue) : bool :=
  (Q_IDX q (prod q) =? Q_IDX q (cons q)) && (Q_WRP q (prod q) =? Q_WRP q (cons q)).

Definition ummu_queue_consumed (q : ummu_ll_queue) (p : Z) : bool :=
  ((Q_WRP q (cons q) =? Q_WRP q p) && (Q_IDX q p <? Q_IDX q (cons q))) ||
  (negb (Q_WRP q (cons q) =? Q_WRP q p) && (Q_IDX q (cons q) <=? Q_IDX q p)).

Definition ummu_queue_inc_cons (q : ummu_ll_queue) : ummu_ll_queue :=
  let c := u32 (Z.lor (Q_WRP q (cons q)) (Q_IDX q (cons q)) + 1) in
  set_cons q (Z.lor (Z.lor (Q_OVF (cons q)) (Q_WRP q c)) (Q_IDX q c)).

Definition ummu_queue_inc_prod_n (q : ummu_ll_queue) (n : Z) : Z :=
  let p := u32 (Z.lor (Q_WRP q (prod q)) (Q_IDX q (prod q)) + n) in
  Z.lor (Z.lor (Q_OVF (prod q)) (Q_WRP q p)) (Q_IDX q p).

(** [struct ummu_queue]: the ring memory [base] is a function from entry indices to
    entries, [prod_reg] and [cons_reg] are the hardware registers. *)
Record ummu_queue := {
  llq : ummu_ll_queue;
  base : Z -> list Z;
  prod_reg : Z;
  cons_reg : Z;
}.

Definition set_llq (q : ummu_queue) (l : ummu_ll_queue) : ummu_queue :=
  {| llq := l; base := base q; prod_reg := prod_reg q; cons_reg := cons_reg q |}.

(** [Q_ENT(q, p)]: the entry of the ring the pointer designates. *)
Definition Q_ENT (q : ummu_queue) (p : Z) : list Z := base q (Q_IDX (llq q) p).

Definition ummu_queue_sync_cons_out (q : ummu_queue) : ummu_queue :=
  {| llq := llq q; base := base q; prod_reg := prod_reg q; cons_reg := cons (llq q) |}.

Definition ummu_queue_sync_cons_ovf (q : ummu_queue) : ummu_queue :=
  let l := llq q in
  if Q_OVF (prod l) =? Q_OVF (cons l) then q
  else
    ummu_queue_sync_cons_out
      (set_llq q (set_cons l (Z.lor (Z.lor (Q_OVF (prod l)) (Q_WRP l (cons l)))
                                (Q_IDX l (cons l))))).

Definition ummu_queue_sync_prod_in (q : ummu_queue) : Z * ummu_queue :=
  let p := prod_reg q in
  let ret := if Q_OVF p =? Q_OVF (prod (llq q)) then 0 else - EOVERFLOW in
  (ret, set_llq q (set_prod (llq q) p)).

(** [ummu_queue_remove_raw]: the entry read, if any. *)
Definition ummu_queue_remove_raw (q : ummu_queue) : Z * option (list Z) * ummu_queue :=
  if ummu_queue_empty (llq q) then (- EAGAIN, None, q)
  else
    let ent := Q_ENT q (cons (llq q)) in
    (0, Some ent, ummu_queue_sync_cons_out (set_llq q (ummu_queue_inc_cons (llq q)))).

(** ** Allocation of a queue *)

Definition MAX_ORDER : Z := 10.

(** [get_order]: the smallest order whose block holds [size] bytes. *)
Definition get_order (size : Z) : Z := Z.max 0 (Z.log2_up size - PAGE_SHIFT).

(** The [do ... while] loop of [ummu_common_init_queue]: [alloc order] is whether the
    page allocator has a block.  The result is the final [log2size] (after its decrement)
    and whether [base] is set; [None] when the fuel runs out. *)
Fixpoint init_queue_loop (fuel : nat) (alloc : Z -> bool) (dwords l : Z) : option (Z * bool) :=
  match fuel with
  | O => None
  | S fuel' =>
    let qsz := Z.shiftl (Z.shiftl 1 l * dwords) 3 in
    let ok := (get_order qsz <=? MAX_ORDER) && alloc (get_order qsz) in
    if negb ok && (PAGE_SIZE <? qsz) then init_queue_loop fuel' alloc dwords (l - 1)
    else Some (l - 1, ok)
  end.

Definition ummu_common_init_queue (fuel : nat) (alloc : Z -> bool) (dwords : Z)
    (q : ummu_ll_queue) : option (Z * ummu_ll_queue) :=
  '(l1, ok) ← init_queue_loop fuel alloc dwords (log2size q);
  let l2 := l1 + 1 in
  if negb ok then Some (- ENOMEM, {| prod := prod q; cons := cons q; log2size := l2 |})
  else Some (0, {| prod := 0; cons := 0; log2size := l2 |}).

(** ** The map of valid entries *)

Definition BITS_PER_LONG : Z := 64.
Definition BIT_WORD (nr : Z) : Z := nr / BITS_PER_LONG.
Definition GENMASK (h l : Z) : Z := Z.shiftl (Z.ones (h - l + 1)) l.

(** [valid_map]: one bit per entry, in 64-bit words. *)
Abbreviation vmap := (Z -> Z).
Definition upd_word (m : vmap) (w v : Z) : vmap := fun i => if i =? w then v else m i.

(** The bits [sbidx, limit) of one word that an iteration handles. *)
Definition chunk_limit (q : ummu_ll_queue) (p eprod : Z) : Z :=
  let swidx := BIT_WORD (Q_IDX q p) in
  let sbidx := Q_IDX q p mod BITS_PER_LONG in
  let ewidx := BIT_WORD (Q_IDX q eprod) in
  let ebidx := Q_IDX q eprod mod BITS_PER_LONG in
  if (swidx =? ewidx) && (sbidx <? ebidx) then ebidx else BITS_PER_LONG.

(** One iteration of the loop of [ummu_mcmdq_poll_set_valid_map] at [prod q]: the mask of
    the bits it handles, the pointer it goes on with, the xor of [set] and the condition
    the poll waits for. *)
Definition chunk_mask (q : ummu_ll_queue) (eprod : Z) : Z :=
  GENMASK (chunk_limit q (prod q) eprod - 1) (Q_IDX q (prod q) mod BITS_PER_LONG).
Definition chunk_next (q : ummu_ll_queue) (eprod : Z) : Z :=
  ummu_queue_inc_prod_n q (chunk_limit q (prod q) eprod - Q_IDX q (prod q) mod BITS_PER_LONG).
Definition set_chunk (m : vmap) (q : ummu_ll_queue) (eprod : Z) : vmap :=
  let swidx := BIT_WORD (Q_IDX q (prod q)) in
  upd_word m swidx (Z.lxor (m swidx) (chunk_mask q eprod)).
Definition chunk_valid (m : vmap) (q : ummu_ll_queue) (eprod : Z) : bool :=
  let swidx := BIT_WORD (Q_IDX q (prod q)) in
  let mask := chunk_mask q eprod in
  let valid := Z.land (u64 (ULONG_MAX + Z.b2z (ctrue (Q_WRP q (prod q))))) mask in
  Z.land (m swidx) mask =? valid.

(** [ummu_mcmdq_poll_set_valid_map] with [set]: marks the entries. *)
Fixpoint set_valid_loop (fuel : nat) (m : vmap) (q : ummu_ll_queue) (eprod : Z) : option vmap :=
  if prod q =? eprod then Some m
  else
    match fuel with
    | O => None
    | S fuel' =>
      set_valid_loop fuel' (set_chunk m q eprod) (set_prod q (chunk_next q eprod)) eprod
    end.

(** The same without [set]: whether every word it waits for has the expected bits. *)
Fixpoint poll_valid_loop (fuel : nat) (m : vmap) (q : ummu_ll_queue) (eprod : Z) : option bool :=
  if prod q =? eprod then Some true
  else
    match fuel with
    | O => None
    | S fuel' =>
      r ← poll_valid_loop fuel' m (set_prod q (chunk_next q eprod)) eprod;
      Some (chunk_valid m q eprod && r)
    end.

Definition ummu_mcmdq_set_valid_map (fuel : nat) (m : vmap) (l sprod eprod : Z) : option vmap :=
  set_valid_loop fuel m {| prod := sprod; cons := 0; log2size := l |} eprod.
Definition ummu_mcmdq_poll_valid_map (fuel : nat) (m : vmap) (l sprod eprod : Z) : option bool :=
  poll_valid_loop fuel m {| prod := sprod; cons := 0; log2size := l |} eprod.

(** ** Pointers and positions *)

(** The pointer of position [P] (the number of entries ever produced or consumed) in a
    queue of [2^n] entries, with flag [f] in bit 31. *)
Definition ptr (n : Z) (f : bool) (P : Z) : Z :=
  Z.lor (if f then Q_OVERFLOW_FLAG else 0) (P mod 2 ^ (n + 1)).

(** The sizes in use: an index, a wrap bit and a flag fit in 32 bits. *)
Definition size_ok (n : Z) : Prop := 0 <= n <= 30.

Lemma low_bits (q : ummu_ll_queue) (p : Z) :
  0 <= log2size q -> Z.lor (Q_WRP q p) (Q_IDX q p) = p mod 2 ^ (log2size q + 1).
Proof.
  intros Hn. unfold Q_WRP, Q_IDX. rewrite <- Z.land_lor_distr_r.
  replace (Z.lor (Z.shiftl 1 (log2size q)) (Z.shiftl 1 (log2size q) - 1))
    with (Z.ones (log2size q + 1)); [by rewrite Z.land_ones by lia|].
  rewrite Z.shiftl_1_l. replace (2 ^ log2size q - 1) with (Z.ones (log2size q))
    by (rewrite Z.ones_equiv; lia).
  apply Z.bits_inj'. intros k Hk. rewrite Z.lor_spec, !Z.testbit_ones, Z.pow2_bits_eqb by lia.
  destruct (Z.eqb_spec (log2size q) k), (Z.leb_spec 0 k), (Z.ltb_spec k (log2size q)),
    (Z.ltb_spec k (log2size q + 1)); done || lia.
Qed.

Lemma Q_IDX_mod (q : ummu_ll_queue) (p : Z) : 0 <= log2size q -> Q_IDX q p = p mod 2 ^ log2size q.
Proof.
  intros Hn. unfold Q_IDX. rewrite Z.shiftl_1_l.
  replace (2 ^ log2size q - 1) with (Z.ones (log2size q)) by (rewrite Z.ones_equiv; lia).
  by rewrite Z.land_ones.
Qed.

Lemma Q_WRP_bit (q : ummu_ll_queue) (p : Z) :
  0 <= log2size q -> Q_WRP q p = if Z.testbit p (log2size q) then 2 ^ log2size q else 0.
Proof.
  intros Hn. unfold Q_WRP. rewrite Z.shiftl_1_l. apply Z.bits_inj'. intros k Hk.
  rewrite Z.land_spec, Z.pow2_bits_eqb by done.
  destruct (Z.testbit p (log2size q)) eqn:Hb; rewrite ?Z.pow2_bits_eqb, ?Z.bits_0 by done;
    destruct (Z.eqb_spec (log2size q) k) as [<-|]; by rewrite ?Hb, ?andb_false_r.
Qed.

Lemma wrp_eqb (q : ummu_ll_queue) (p p' : Z) : 0 <= log2size q ->
  (Q_WRP q p =? Q_WRP q p') = Bool.eqb (Z.testbit p (log2size q)) (Z.testbit p' (log2size q)).
Proof.
  intros Hn. rewrite !Q_WRP_bit by done. pose proof (pow2_pos (log2size q) Hn).
  destruct (Z.testbit p _), (Z.testbit p' _); cbn [Bool.eqb]; rewrite ?Z.eqb_refl; try done;
    apply Z.eqb_neq; lia.
Qed.

Section Ptr.
Context (n : Z) (Hn : size_ok n).

Lemma ptr_bits (f : bool) (P k : Z) : 0 <= k <= n -> Z.testbit (ptr n f P) k = Z.testbit P k.
Proof.
  intros Hk. unfold size_ok in Hn. unfold ptr. rewrite Z.lor_spec, Z.mod_pow2_bits_low by lia.
  destruct f; rewrite ?Z.bits_0; [|done]. unfold Q_OVERFLOW_FLAG.
  by rewrite Z.shiftl_1_l, Z.pow2_bits_false by lia.
Qed.

Lemma ptr_mod (f : bool) (P m : Z) : 0 <= m <= n + 1 -> ptr n f P mod 2 ^ m = P mod 2 ^ m.
Proof.
  intros Hm. unfold size_ok in Hn. apply Z.bits_inj'. intros k Hk. destruct (Z.lt_ge_cases k m).
  - rewrite !Z.mod_pow2_bits_low by lia. apply ptr_bits. lia.
  - by rewrite !Z.mod_pow2_bits_high by lia.
Qed.

Lemma ptr_ovf (f : bool) (P : Z) : Q_OVF (ptr n f P) = if f then Q_OVERFLOW_FLAG else 0.
Proof.
  unfold size_ok in Hn. unfold Q_OVF, ptr. rewrite Z.land_lor_distr_l.
  assert (Hz : Z.land (P mod 2 ^ (n + 1)) Q_OVERFLOW_FLAG = 0).
  { apply Z.bits_inj'. intros k Hk. unfold Q_OVERFLOW_FLAG. rewrite Z.land_spec, Z.shiftl_1_l, Z.bits_0.
    destruct (decide (k = 31)) as [->|].
    - by rewrite Z.mod_pow2_bits_high by lia.
    - by rewrite Z.pow2_bits_false, andb_false_r by lia. }
  rewrite Hz, Z.lor_0_r. by destruct f.
Qed.

(** Positions split into lap and index. *)
Lemma lap_index (P : Z) : exists a p, P = a * 2 ^ n + p /\ 0 <= p < 2 ^ n /\
  P mod 2 ^ n = p /\ Z.testbit P n = Z.odd a.
Proof.
  unfold size_ok in Hn. pose proof (pow2_pos n ltac:(lia)).
  exists (P / 2 ^ n), (P mod 2 ^ n).
  pose proof (Z.div_mod P (2 ^ n)). pose proof (Z.mod_pos_bound P (2 ^ n)).
  split_and!; try lia. by rewrite Z.testbit_odd, Z.shiftr_div_pow2 by lia.
Qed.

(** Two positions at most one lap apart. *)
Lemma laps (P C : Z) (d : Z) :
  0 <= d <= 2 ^ n -> P = C + d ->
  (Z.testbit P n = Z.testbit C n /\ P mod 2 ^ n = C mod 2 ^ n + d /\ d < 2 ^ n) \/
  (Z.testbit P n = negb (Z.testbit C n) /\ P mod 2 ^ n = C mod 2 ^ n + d - 2 ^ n).
Proof.
  intros Hd HP. pose proof (pow2_pos n ltac:(unfold size_ok in Hn; lia)).
  destruct (lap_index P) as (a & p & Ha & Hp & -> & ->).
  destruct (lap_index C) as (b & c & Hb & Hc & -> & ->).
  assert (a = b \/ a = b + 1) as [-> | ->] by nia.
  - left. split_and!; try done; nia.
  - right. rewrite Z.add_1_r, Z.odd_succ, <- Z.negb_odd. split; [done|]. nia.
Qed.
End Ptr.

(** ** The ring as a pair of counters *)

(** [q] stands for a queue that has produced [P] entries and consumed [C]. *)
Definition counts (q : ummu_ll_queue) (fp fc : bool) (P C : Z) : Prop :=
  size_ok (log2size q) /\ prod q = ptr (log2size q) fp P /\ cons q = ptr (log2size q) fc C /\
  0 <= C <= P /\ P - C <= 2 ^ log2size q.

Lemma idx_ptr (q : ummu_ll_queue) (f : bool) (P : Z) :
  size_ok (log2size q) -> Q_IDX q (ptr (log2size q) f P) = P mod 2 ^ log2size q.
Proof. intros Hn. rewrite Q_IDX_mod, ptr_mod by (unfold size_ok in *; done || lia). done. Qed.

Lemma wrp_ptr (q : ummu_ll_queue) (f f' : bool) (P C : Z) : size_ok (log2size q) ->
  (Q_WRP q (ptr (log2size q) f P) =? Q_WRP q (ptr (log2size q) f' C)) =
  Bool.eqb (Z.testbit P (log2size q)) (Z.testbit C (log2size q)).
Proof.
  intros Hn. rewrite wrp_eqb, !ptr_bits by (unfold size_ok in *; done || lia). done.
Qed.

(** Advancing a pointer advances its position and keeps its flag. *)
Lemma advance_ptr (q : ummu_ll_queue) (f : bool) (P k : Z) :
  size_ok (log2size q) -> 0 <= k <= 2 ^ 31 ->
  let p := u32 (Z.lor (Q_WRP q (ptr (log2size q) f P)) (Q_IDX q (ptr (log2size q) f P)) + k) in
  Z.lor (Z.lor (Q_OVF (ptr (log2size q) f P)) (Q_WRP q p)) (Q_IDX q p) = ptr (log2size q) f (P + k).
Proof.
  intros Hn Hk. pose proof Hn as Hn'. unfold size_ok in Hn'. cbv zeta.
  rewrite <- Z.lor_assoc, !low_bits, ptr_ovf, ptr_mod by (done || lia). unfold ptr. f_equal.
  pose proof (Z.mod_pos_bound P (2 ^ (log2size q + 1)) ltac:(apply pow2_pos; lia)).
  assert (2 ^ (log2size q + 1) <= 2 ^ 31) by (apply Z.pow_le_mono_r; lia).
  destruct (decide (P mod 2 ^ (log2size q + 1) + k = 2 ^ 32)) as [E|].
  - lia.
  - rewrite uwrap_small by lia. by rewrite Zplus_mod_idemp_l.
Qed.

Lemma inc_prod_counts (q : ummu_ll_queue) fp fc P C k :
  counts q fp fc P C -> 0 <= k <= 2 ^ 31 -> ummu_queue_inc_prod_n q k = ptr (log2size q) fp (P + k).
Proof.
  intros (Hn & Hp & _) Hk. unfold ummu_queue_inc_prod_n. rewrite Hp. by apply advance_ptr.
Qed.

Lemma has_space_counts (q : ummu_ll_queue) fp fc P C k :
  counts q fp fc P C -> 0 <= k ->
  (ummu_queue_has_space q k = true <-> P + k <= C + 2 ^ log2size q).
Proof.
  intros (Hn & Hp & Hc & Hpc & Hd) Hk. unfold ummu_queue_has_space.
  rewrite Hp, Hc, wrp_ptr, !idx_ptr by done. rewrite Z.shiftl_1_l.
  assert (Hnn : 0 <= log2size q <= 30) by done.
  assert (2 ^ log2size q <= 2 ^ 30) by (apply Z.pow_le_mono_r; lia).
  pose proof (pow2_pos (log2size q) ltac:(lia)).
  pose proof (Z.mod_pos_bound C (2 ^ log2size q)). pose proof (Z.mod_pos_bound P (2 ^ log2size q)).
  destruct (laps (log2size q) Hn P C (P - C)) as [(-> & Hi & Hlt)|(-> & Hi)]; [lia|lia|..].
  - rewrite eqb_reflx, (uwrap_small 32 (P mod _ - _)), uwrap_small, Z.leb_le by lia. lia.
  - replace (Bool.eqb _ _) with false by (by destruct (Z.testbit C _)).
    rewrite uwrap_small, Z.leb_le by lia. lia.
Qed.

Lemma full_counts (q : ummu_ll_queue) fp fc P C :
  counts q fp fc P C -> (ummu_queue_full q = true <-> P = C + 2 ^ log2size q).
Proof.
  intros (Hn & Hp & Hc & Hpc & Hd). unfold ummu_queue_full.
  rewrite Hp, Hc, wrp_ptr, !idx_ptr by done.
  pose proof (pow2_pos (log2size q) ltac:(unfold size_ok in Hn; lia)).
  destruct (laps (log2size q) Hn P C (P - C)) as [(-> & Hi & Hlt)|(-> & Hi)]; [lia|lia|..].
  - rewrite eqb_reflx, andb_false_r. split; [done|lia].
  - replace (Bool.eqb _ _) with false by (by destruct (Z.testbit C _)).
    rewrite andb_true_r, Z.eqb_eq. lia.
Qed.

Lemma empty_counts (q : ummu_ll_queue) fp fc P C :
  counts q fp fc P C -> (ummu_queue_empty q = true <-> P = C).
Proof.
  intros (Hn & Hp & Hc & Hpc & Hd). unfold ummu_queue_empty.
  rewrite Hp, Hc, wrp_ptr, !idx_ptr by done.
  pose proof (pow2_pos (log2size q) ltac:(unfold size_ok in Hn; lia)).
  destruct (laps (log2size q) Hn P C (P - C)) as [(-> & Hi & Hlt)|(-> & Hi)]; [lia|lia|..].
  - rewrite eqb_reflx, andb_true_r, Z.eqb_eq. lia.
  - replace (Bool.eqb _ _) with false by (by destruct (Z.testbit C _)).
    rewrite andb_false_r. split; [done|].
    pose proof (Z.mod_pos_bound C (2 ^ log2size q)). pose proof (Z.mod_pos_bound P (2 ^ log2size q)). lia.
Qed.

(** [X] is the position of a command: it is consumed once the counter is past it. *)
Lemma consumed_counts (q : ummu_ll_queue) fc fx C X :
  size_ok (log2size q) -> cons q = ptr (log2size q) fc C ->
  X - 2 ^ log2size q < C <= X + 2 ^ log2size q ->
  (ummu_queue_consumed q (ptr (log2size q) fx X) = true <-> X < C).
Proof.
  intros Hn Hc Hx. unfold ummu_queue_consumed. rewrite Hc, wrp_ptr, !idx_ptr by done.
  pose proof (pow2_pos (log2size q) ltac:(unfold size_ok in Hn; lia)).
  destruct (Z.le_gt_cases C X).
  - destruct (laps (log2size q) Hn X C (X - C)) as [(-> & Hi & Hlt)|(-> & Hi)]; [lia|lia|..].
    + rewrite eqb_reflx. simpl. rewrite orb_false_r, Z.ltb_lt. lia.
    + replace (Bool.eqb _ _) with false by (by destruct (Z.testbit C _)). simpl.
      rewrite Z.leb_le. lia.
  - destruct (laps (log2size q) Hn C X (C - X)) as [(-> & Hi & Hlt)|(-> & Hi)]; [lia|lia|..].
    + rewrite eqb_reflx. simpl. rewrite orb_false_r, Z.ltb_lt. lia.
    + replace (Bool.eqb _ _) with false by (by destruct (Z.testbit X _)). simpl.
      rewrite Z.leb_le. lia.
Qed.

(** Only the index and the wrap bit of a register matter: the hardware may keep status in
    the other bits of a consumer register. *)
Definition cong (n p P : Z) : Prop := p mod 2 ^ (n + 1) = P mod 2 ^ (n + 1).

#[export] Instance cong_dec (n p P : Z) : Decision (cong n p P) := Z.eq_dec _ _.

Lemma cong_ptr (n : Z) (f : bool) (P : Z) : size_ok n -> cong n (ptr n f P) P.
Proof. intros Hn. apply ptr_mod; unfold size_ok in *; lia. Qed.

Lemma idx_wrp_cong (q : ummu_ll_queue) (p p' : Z) :
  0 <= log2size q -> cong (log2size q) p p' -> Q_IDX q p = Q_IDX q p' /\ Q_WRP q p = Q_WRP q p'.
Proof.
  unfold cong. intros Hn E. pose proof (pow2_pos (log2size q) Hn). split.
  - rewrite !Q_IDX_mod by done.
    assert (Hd : forall x, x mod 2 ^ log2size q = x mod 2 ^ (log2size q + 1) mod 2 ^ log2size q).
    { intros x. symmetry. apply Z.mod_mod_divide. exists 2. rewrite Z.pow_add_r by lia. lia. }
    by rewrite Hd, E, <- Hd.
  - rewrite !Q_WRP_bit by done.
    rewrite <- (Z.mod_pow2_bits_low p (log2size q + 1)), E, Z.mod_pow2_bits_low by lia. done.
Qed.

Lemma has_space_cong (n p c c' k : Z) : 0 <= n -> cong n c c' ->
  ummu_queue_has_space {| prod := p; cons := c; log2size := n |} k =
  ummu_queue_has_space {| prod := p; cons := c'; log2size := n |} k.
Proof.
  intros Hn E. unfold ummu_queue_has_space. simpl.
  set (q := {| prod := p; cons := c; log2size := n |}).
  destruct (idx_wrp_cong q c c' Hn E) as [Ei Ew]. unfold Q_IDX, Q_WRP in *. simpl in *.
  by rewrite Ei, Ew.
Qed.

Lemma consumed_cong (n p c c' x : Z) : 0 <= n -> cong n c c' ->
  ummu_queue_consumed {| prod := p; cons := c; log2size := n |} x =
  ummu_queue_consumed {| prod := p; cons := c'; log2size := n |} x.
Proof.
  intros Hn E. unfold ummu_queue_consumed. simpl.
  set (q := {| prod := p; cons := c; log2size := n |}).
  destruct (idx_wrp_cong q c c' Hn E) as [Ei Ew]. unfold Q_IDX, Q_WRP in *. simpl in *.
  by rewrite Ei, Ew.
Qed.

(** ** Marking and polling entries *)

Section Valid.
Context (n : Z) (Hn : size_ok n) (H6 : 6 <= n).

(** The bit of the entry at index [i], and of position [X]. *)
Definition vbit (m : vmap) (i : Z) : bool := Z.testbit (m (i / 64)) (i mod 64).

(** Entry [i] is the entry of one of the positions [S, E). *)
Definition covered (S E i : Z) : bool := (i - S) mod 2 ^ n <? E - S.

Lemma covered_split (S M E i : Z) : S <= M <= E -> E <= S + 2 ^ n ->
  covered S E i = xorb (covered S M i) (covered M E i).
Proof.
  intros HM HE. unfold covered. pose proof (pow2_pos n ltac:(lia)).
  pose proof (Z.mod_pos_bound (i - S) (2 ^ n)). set (d := (i - S) mod 2 ^ n) in *.
  assert (Hd : (i - M) mod 2 ^ n = if d <? M - S then d - (M - S) + 2 ^ n else d - (M - S)).
  { replace (i - M) with ((i - S) - (M - S)) by lia.
    rewrite Zminus_mod. fold d. destruct (decide (M - S = 2 ^ n)) as [E0|].
    - rewrite E0, Z_mod_same_full, Z.sub_0_r. unfold d. rewrite Zmod_mod. fold d.
      destruct (Z.ltb_spec d (2 ^ n)); lia.
    - rewrite (Z.mod_small (M - S)) by lia. destruct (Z.ltb_spec d (M - S)).
      + rewrite <- (Z_mod_plus_full _ 1), Z.mod_small by lia. lia.
      + apply Z.mod_small. lia. }
  rewrite Hd. destruct (Z.ltb_spec d (M - S)), (Z.ltb_spec d (E - S)); simpl;
    try (destruct (Z.ltb_spec (d - (M - S) + 2 ^ n) (E - M)); done || lia);
    try (destruct (Z.ltb_spec (d - (M - S)) (E - M)); done || lia).
Qed.

Lemma pow_n : 2 ^ n = 64 * 2 ^ (n - 6).
Proof. change 64 with (2 ^ 6). rewrite <- Z.pow_add_r by lia. f_equal. lia. Qed.

Lemma idx_mod64 (X : Z) : X mod 2 ^ n mod 64 = X mod 64 /\ 0 <= X mod 2 ^ n / 64 < 2 ^ (n - 6).
Proof.
  pose proof (pow2_pos (n - 6) ltac:(lia)) as Hp. pose proof pow_n as Hpn. split.
  - apply Z.mod_mod_divide. exists (2 ^ (n - 6)). lia.
  - pose proof (Z.mod_pos_bound X (2 ^ n)). split; [apply Z.div_pos; lia|].
    apply Z.div_lt_upper_bound; lia.
Qed.

Lemma idx_n (q : ummu_ll_queue) (f : bool) (X : Z) :
  log2size q = n -> Q_IDX q (ptr n f X) = X mod 2 ^ n.
Proof. intros <-. by apply idx_ptr. Qed.

(** One iteration stays inside the range and inside one word. *)
Lemma chunk_ok (q : ummu_ll_queue) (f f' : bool) (X E : Z) :
  log2size q = n -> X < E <= X + 2 ^ n ->
  let len := chunk_limit q (ptr n f X) (ptr n f' E) - X mod 64 in
  0 < len /\ X + len <= E /\ X mod 64 + len <= 64.
Proof.
  intros Hq HE. pose proof pow_n as Hpn. pose proof (pow2_pos (n - 6) ltac:(lia)).
  unfold chunk_limit, BIT_WORD, BITS_PER_LONG. rewrite !(idx_n q _ _ Hq).
  destruct (idx_mod64 X) as [HX Hx], (idx_mod64 E) as [HE' He]. rewrite HX, HE'.
  pose proof (Z.mod_pos_bound X 64). pose proof (Z.mod_pos_bound E 64).
  pose proof (Z.div_mod X (2 ^ n)). pose proof (Z.div_mod E (2 ^ n)).
  pose proof (Z.div_mod (X mod 2 ^ n) 64). pose proof (Z.div_mod (E mod 2 ^ n) 64).
  pose proof (Z.mod_pos_bound X (2 ^ n)). pose proof (Z.mod_pos_bound E (2 ^ n)).
  destruct (Z.eqb_spec (X mod 2 ^ n / 64) (E mod 2 ^ n / 64)) as [Ew|Ew],
    (Z.ltb_spec (X mod 64) (E mod 64)); simpl.
  - assert (E / 2 ^ n = X / 2 ^ n) by nia. split_and!; nia.
  - split_and!; try lia; assert (E / 2 ^ n = X / 2 ^ n \/ E / 2 ^ n = X / 2 ^ n + 1) by nia; nia.
  - split_and!; try lia; assert (E / 2 ^ n = X / 2 ^ n \/ E / 2 ^ n = X / 2 ^ n + 1) by nia; nia.
  - split_and!; try lia; assert (E / 2 ^ n = X / 2 ^ n \/ E / 2 ^ n = X / 2 ^ n + 1) by nia; nia.
Qed.

Lemma ptr_inj (X E : Z) : X <= E <= X + 2 ^ n -> ptr n false X = ptr n false E -> X = E.
Proof.
  intros HE H. unfold ptr in H. rewrite !Z.lor_0_l in H. unfold size_ok in Hn.
  rewrite Z.pow_add_r in H by lia. change (2 ^ 1) with 2 in H.
  pose proof (pow2_pos n ltac:(lia)).
  pose proof (Z.div_mod X (2 ^ n * 2) ltac:(lia)) as HX.
  pose proof (Z.div_mod E (2 ^ n * 2) ltac:(lia)) as HE'. rewrite H in HX.
  set (a := X / (2 ^ n * 2)) in *. set (b := E / (2 ^ n * 2)) in *. clearbody a b.
  assert (E - X = (b - a) * (2 ^ n * 2)) as Hd by lia.
  assert (b - a = 0) by nia. lia.
Qed.

Lemma genmask_bit (h l k : Z) : 0 <= l <= h -> 0 <= k ->
  Z.testbit (GENMASK h l) k = (l <=? k) && (k <=? h).
Proof.
  intros Hl Hk. unfold GENMASK. rewrite Z.shiftl_spec, Z.testbit_ones by lia.
  destruct (Z.leb_spec 0 (k - l)), (Z.ltb_spec (k - l) (h - l + 1)), (Z.leb_spec l k),
    (Z.leb_spec k h); simpl; lia || done.
Qed.

(** The entries of one chunk, by index. *)
Lemma covered_chunk (X len i : Z) : 0 < len -> X mod 64 + len <= 64 -> 0 <= i < 2 ^ n ->
  covered X (X + len) i =
  (i / 64 =? X mod 2 ^ n / 64) && (X mod 64 <=? i mod 64) && (i mod 64 <=? X mod 64 + len - 1).
Proof.
  intros Hl Hw Hi. unfold covered. replace (X + len - X) with len by lia.
  destruct (idx_mod64 X) as [HX HX']. pose proof pow_n as Hpn.
  pose proof (pow2_pos (n - 6) ltac:(lia)) as Hp6. set (x := X mod 2 ^ n) in *.
  assert (Hx : 0 <= x < 2 ^ n) by (apply Z.mod_pos_bound; lia).
  assert (Hd : (i - X) mod 2 ^ n = if i <? x then i - x + 2 ^ n else i - x).
  { rewrite <- (Zminus_mod_idemp_r i X). fold x. destruct (Z.ltb_spec i x).
    - rewrite <- (Z_mod_plus_full _ 1), Z.mod_small; lia.
    - apply Z.mod_small. lia. }
  rewrite Hd. pose proof (Z.div_mod x 64) as Dx. pose proof (Z.div_mod i 64) as Di.
  pose proof (Z.mod_pos_bound i 64). rewrite HX in Dx. pose proof (Z.mod_pos_bound X 64).
  set (a := X mod 64) in *. set (b := i mod 64) in *. set (w := x / 64) in *. set (v := i / 64) in *.
  clearbody a b w v. clear Hd HX. clearbody x. generalize dependent (2 ^ n). intros N HN Hi Hx.
  destruct (Z.ltb_spec i x), (Z.eqb_spec v w), (Z.leb_spec a b), (Z.leb_spec b (a + len - 1));
    simpl; first [apply Z.ltb_lt; lia | apply Z.ltb_ge; lia].
Qed.

Lemma vbit_chunk (m : vmap) (X len i : Z) : 0 < len -> X mod 64 + len <= 64 -> 0 <= i < 2 ^ n ->
  vbit (upd_word m (X mod 2 ^ n / 64) (Z.lxor (m (X mod 2 ^ n / 64))
          (GENMASK (X mod 64 + len - 1) (X mod 64)))) i = xorb (vbit m i) (covered X (X + len) i).
Proof.
  intros Hl Hw Hi. rewrite covered_chunk by done. unfold vbit, upd_word.
  pose proof (Z.mod_pos_bound X 64). pose proof (Z.mod_pos_bound i 64).
  destruct (Z.eqb_spec (i / 64) (X mod 2 ^ n / 64)) as [Ew|]; simpl.
  - by rewrite Z.lxor_spec, genmask_bit, Ew by lia.
  - by rewrite xorb_false_r.
Qed.

(** One iteration: the chunk starts at [X] and has [len] entries of one word. *)
Lemma chunk_step (X E c : Z) : X < E <= X + 2 ^ n ->
  let q := {| prod := ptr n false X; cons := c; log2size := n |} in
  exists len, 0 < len /\ X + len <= E /\ X mod 64 + len <= 64 /\
    BIT_WORD (Q_IDX q (prod q)) = X mod 2 ^ n / 64 /\
    chunk_mask q (ptr n false E) = GENMASK (X mod 64 + len - 1) (X mod 64) /\
    chunk_next q (ptr n false E) = ptr n false (X + len).
Proof.
  intros HE q. destruct (chunk_ok q false false X E eq_refl HE) as (H1 & H2 & H3).
  unfold chunk_mask, chunk_next.
  set (len := chunk_limit q (ptr n false X) (ptr n false E) - X mod 64) in *.
  exists len. pose proof (Z.mod_pos_bound X 64).
  assert (Hi : Q_IDX q (prod q) = X mod 2 ^ n) by (by apply idx_n).
  assert (H64 : X mod 2 ^ n mod BITS_PER_LONG = X mod 64) by apply idx_mod64.
  unfold BIT_WORD. rewrite Hi, H64. simpl prod. fold len.
  replace (chunk_limit q (ptr n false X) (ptr n false E)) with (X mod 64 + len) by lia.
  split_and!; try done. apply (advance_ptr q false X len Hn). lia.
Qed.

(** Marking a chunk toggles its entries and leads to the next chunk. *)
Lemma set_chunk_spec (m : vmap) (X E c : Z) : X < E <= X + 2 ^ n ->
  let q := {| prod := ptr n false X; cons := c; log2size := n |} in
  exists len, 0 < len /\ X + len <= E /\ chunk_next q (ptr n false E) = ptr n false (X + len) /\
    forall i, 0 <= i < 2 ^ n ->
      vbit (set_chunk m q (ptr n false E)) i = xorb (vbit m i) (covered X (X + len) i).
Proof.
  intros HE q. destruct (chunk_step X E c HE) as (len & H1 & H2 & H3 & Ew & Em & En).
  exists len. split_and!; try done. intros i Hi. unfold set_chunk. fold q in Ew, Em.
  rewrite Ew, Em. by apply vbit_chunk.
Qed.

Lemma set_valid_spec (E c : Z) (fuel : nat) : forall m X,
  X <= E <= X + 2 ^ n -> E - X <= Z.of_nat fuel ->
  exists m', set_valid_loop fuel m {| prod := ptr n false X; cons := c; log2size := n |}
      (ptr n false E) = Some m' /\
    forall i, 0 <= i < 2 ^ n -> vbit m' i = xorb (vbit m i) (covered X E i).
Proof.
  induction fuel as [|fuel IH]; intros m X HE Hf; cbn [set_valid_loop];
    destruct (Z.eqb_spec (prod {| prod := ptr n false X; cons := c; log2size := n |})
      (ptr n false E)) as [Ep|Ep].
  1, 3: simpl in Ep; apply ptr_inj in Ep; [|done]; subst E; exists m; split; [done|];
    intros i Hi; unfold covered; rewrite Z.sub_diag;
    pose proof (Z.mod_pos_bound (i - X) (2 ^ n)); replace (_ <? 0) with false
      by (symmetry; apply Z.ltb_ge; lia); by rewrite xorb_false_r.
  { destruct Ep. simpl. f_equal. lia. }
  assert (HX : X <> E) by (by intros ->).
  destruct (set_chunk_spec m X E c ltac:(lia)) as (len & H1 & H2 & En & Hv).
  rewrite En. unfold set_prod. simpl cons. simpl log2size.
  set (m1 := set_chunk _ _ _) in *.
  destruct (IH m1 (X + len)) as (m' & -> & Hm'); [lia|lia|].
  exists m'. split; [done|]. intros i Hi. rewrite Hm', Hv, xorb_assoc by done.
  f_equal. symmetry. apply covered_split; lia.
Qed.

(** Positions of one chunk: same word, same lap. *)
Lemma chunk_pos (X len Y : Z) : 0 < len -> X mod 64 + len <= 64 -> X <= Y < X + len ->
  Y mod 2 ^ n / 64 = X mod 2 ^ n / 64 /\ Y mod 2 ^ n mod 64 = X mod 64 + (Y - X) /\
  Z.testbit Y n = Z.testbit X n.
Proof.
  intros Hl Hw HY. destruct (idx_mod64 X) as [HX HX']. pose proof pow_n as Hpn.
  pose proof (pow2_pos (n - 6) ltac:(lia)) as Hp6. pose proof (Z.mod_pos_bound X 64).
  pose proof (Z.div_mod (X mod 2 ^ n) 64) as Dx. rewrite HX in Dx.
  pose proof (Z.mod_pos_bound X (2 ^ n)). pose proof (Z.div_mod X (2 ^ n)) as DX.
  set (d := Y - X). assert (EY : Y = X + d) by (unfold d; lia).
  assert (HYm : Y mod 2 ^ n = X mod 2 ^ n + d).
  { symmetry. apply (Z.mod_unique_pos _ _ (X / 2 ^ n)); lia. }
  assert (HYd : Y / 2 ^ n = X / 2 ^ n).
  { symmetry. apply (Z.div_unique_pos _ _ _ (X mod 2 ^ n + d)); lia. }
  split_and!.
  - rewrite HYm. symmetry. apply (Z.div_unique_pos _ _ _ (X mod 64 + d)); lia.
  - rewrite HYm. symmetry. apply (Z.mod_unique_pos _ _ (X mod 2 ^ n / 64)); lia.
  - rewrite !Z.testbit_odd, !Z.shiftr_div_pow2 by lia. by rewrite HYd.
Qed.

Lemma wrap_word (q : ummu_ll_queue) (X k : Z) : log2size q = n -> 0 <= k < 64 ->
  Z.testbit (u64 (ULONG_MAX + Z.b2z (ctrue (Q_WRP q (ptr n false X))))) k = negb (Z.testbit X n).
Proof.
  intros Hq Hk. rewrite Q_WRP_bit, Hq, ptr_bits by (unfold size_ok in *; done || lia).
  pose proof (pow2_pos n ltac:(lia)). destruct (Z.testbit X n).
  - unfold ctrue. rewrite (proj2 (Z.eqb_neq _ _)) by lia. simpl negb. apply Z.bits_0.
  - change (u64 (ULONG_MAX + Z.b2z (ctrue 0))) with (Z.ones 64).
    apply Z.ones_spec_low. lia.
Qed.

Lemma poll_chunk (m : vmap) (q : ummu_ll_queue) (X len : Z) :
  log2size q = n -> 0 < len -> X mod 64 + len <= 64 ->
  let mask := GENMASK (X mod 64 + len - 1) (X mod 64) in
  (Z.land (m (X mod 2 ^ n / 64)) mask =?
     Z.land (u64 (ULONG_MAX + Z.b2z (ctrue (Q_WRP q (ptr n false X))))) mask) = true <->
  (forall Y, X <= Y < X + len -> vbit m (Y mod 2 ^ n) = negb (Z.testbit Y n)).
Proof.
  intros Hq Hl Hw mask. pose proof (Z.mod_pos_bound X 64). rewrite Z.eqb_eq. split.
  - intros He Y HY. destruct (chunk_pos X len Y Hl Hw HY) as (E1 & E2 & E3).
    unfold vbit. rewrite E1, E2, E3.
    apply (f_equal (fun z => Z.testbit z (X mod 64 + (Y - X)))) in He.
    rewrite !Z.land_spec in He. unfold mask in He. rewrite genmask_bit, wrap_word in He by (done || lia).
    rewrite (proj2 (Z.leb_le _ _)), (proj2 (Z.leb_le _ _)), !andb_true_r in He by lia. done.
  - intros HY. apply Z.bits_inj'. intros k Hk. rewrite !Z.land_spec. unfold mask.
    rewrite genmask_bit by lia.
    destruct (Z.leb_spec (X mod 64) k), (Z.leb_spec k (X mod 64 + len - 1));
      rewrite ?andb_false_r; try done. rewrite !andb_true_r, wrap_word by (done || lia).
    specialize (HY (X + (k - X mod 64)) ltac:(lia)).
    destruct (chunk_pos X len (X + (k - X mod 64)) Hl Hw ltac:(lia)) as (E1 & E2 & E3).
    unfold vbit in HY. rewrite E1, E2, E3 in HY.
    by replace (X mod 64 + (X + (k - X mod 64) - X)) with k in HY by lia.
Qed.

Lemma poll_chunk_spec (m : vmap) (X E c : Z) : X < E <= X + 2 ^ n ->
  let q := {| prod := ptr n false X; cons := c; log2size := n |} in
  exists len, 0 < len /\ X + len <= E /\ chunk_next q (ptr n false E) = ptr n false (X + len) /\
    (chunk_valid m q (ptr n false E) = true <->
     forall Y, X <= Y < X + len -> vbit m (Y mod 2 ^ n) = negb (Z.testbit Y n)).
Proof.
  intros HE q. destruct (chunk_step X E c HE) as (len & H1 & H2 & H3 & Ew & Em & En).
  exists len. split_and!; try done. unfold chunk_valid. fold q in Ew, Em. rewrite Ew, Em.
  by apply (poll_chunk m q X len).
Qed.

Lemma poll_valid_spec (m : vmap) (E c : Z) (fuel : nat) : forall X,
  X <= E <= X + 2 ^ n -> E - X <= Z.of_nat fuel ->
  exists b, poll_valid_loop fuel m {| prod := ptr n false X; cons := c; log2size := n |}
      (ptr n false E) = Some b /\
    (b = true <-> forall Y, X <= Y < E -> vbit m (Y mod 2 ^ n) = negb (Z.testbit Y n)).
Proof.
  induction fuel as [|fuel IH]; intros X HE Hf; cbn [poll_valid_loop];
    destruct (Z.eqb_spec (prod {| prod := ptr n false X; cons := c; log2size := n |})
      (ptr n false E)) as [Ep|Ep].
  1, 3: simpl in Ep; apply ptr_inj in Ep; [|done]; subst E; exists true; split; [done|];
    split; [lia|done].
  { destruct Ep. simpl. f_equal. lia. }
  assert (HX : X <> E) by (by intros ->).
  destruct (poll_chunk_spec m X E c ltac:(lia)) as (len & H1 & H2 & En & Hc).
  rewrite En. unfold set_prod. simpl cons. simpl log2size.
  destruct (IH (X + len)) as (b & -> & Hb); [lia|lia|]. cbn [mbind option_bind].
  eexists. split; [done|]. rewrite andb_true_iff, Hb, Hc. split.
  - intros [Ha Hr] Y HY. destruct (Z.lt_ge_cases Y (X + len)); [apply Ha|apply Hr]; lia.
  - intros Ha. split; intros Y HY; apply Ha; lia.
Qed.
End Valid.

(** ** The size of an allocated queue *)

Lemma init_loop_spec (alloc : Z -> bool) (dwords : Z) (fuel : nat) : forall l,
  0 < dwords -> dwords * 8 <= PAGE_SIZE -> 0 <= l < Z.of_nat fuel ->
  exists l' ok, init_queue_loop fuel alloc dwords l = Some (l' - 1, ok) /\ 0 <= l' <= l /\
    (l' < l -> PAGE_SIZE < dwords * 2 ^ (l' + 4)) /\
    (ok = true -> alloc (get_order (dwords * 2 ^ (l' + 3))) = true) /\
    (ok = false -> dwords * 2 ^ (l' + 3) <= PAGE_SIZE).
Proof.
  induction fuel as [|fuel IH]; intros l Hd Hp Hl; [lia|]. cbn [init_queue_loop].
  assert (Hq : Z.shiftl (Z.shiftl 1 l * dwords) 3 = dwords * 2 ^ (l + 3)).
  { rewrite Z.shiftl_1_l, Z.shiftl_mul_pow2, Z.pow_add_r by lia. lia. }
  rewrite Hq. set (ok := (_ <=? _) && alloc _).
  assert (Hok : ok = true -> alloc (get_order (dwords * 2 ^ (l + 3))) = true)
    by (unfold ok; rewrite andb_true_iff; tauto).
  destruct (negb ok && (PAGE_SIZE <? dwords * 2 ^ (l + 3))) eqn:Hc.
  - bprop. destruct (decide (l = 0)) as [->|]; [simpl in *; lia|].
    destruct (IH (l - 1) Hd Hp ltac:(lia)) as (l' & ok' & -> & Hr & Hlow & H1 & H2).
    exists l', ok'. split_and!; try done; try lia. intros Hlt.
    destruct (decide (l' = l - 1)) as [->|]; [|apply Hlow; lia].
    by replace (l - 1 + 4) with (l + 3) by lia.
  - exists l, ok. split_and!; try done; try lia. intros Hf. rewrite Hf in Hc. simpl in Hc. bprop. lia.
Qed.

(** A queue of entries of [dwords] words that starts at [2^l] entries shrinks at most to one
    page: [ummu_common_init_queue] ends, and leaves an empty queue whose ring the allocator
    granted, or fails once a single page is refused.  For the 32-byte commands the queue
    keeps at least the 64 entries that the map of valid entries needs. *)
Lemma init_queue_spec (alloc : Z -> bool) (dwords : Z) (q : ummu_ll_queue) (fuel : nat) :
  0 < dwords -> dwords * 8 <= PAGE_SIZE -> 0 <= log2size q < Z.of_nat fuel ->
  exists ret q', ummu_common_init_queue fuel alloc dwords q = Some (ret, q') /\
    0 <= log2size q' <= log2size q /\
    (ret = 0 /\ prod q' = 0 /\ cons q' = 0 /\
       alloc (get_order (dwords * 2 ^ (log2size q' + 3))) = true \/ ret = - ENOMEM) /\
    (dwords = 4 -> 6 <= log2size q -> 6 <= log2size q').
Proof.
  intros Hd Hp Hl. unfold ummu_common_init_queue.
  destruct (init_loop_spec alloc dwords fuel (log2size q) Hd Hp Hl) as (l' & ok & -> & Hr & Hlow & H1 & H2).
  cbn [mbind option_bind]. replace (l' - 1 + 1) with l' by lia.
  assert (H64 : dwords = 4 -> 6 <= log2size q -> 6 <= l').
  { intros -> H6. destruct (Z.lt_ge_cases l' 6) as [Hlt|]; [|lia]. specialize (Hlow ltac:(lia)).
    assert (2 ^ (l' + 4) <= 2 ^ 9) by (apply Z.pow_le_mono_r; lia). unfold PAGE_SIZE, PAGE_SHIFT in Hlow. lia. }
  destruct ok; simpl; eexists _, _; (split; [done|]); simpl; split_and!; try done; try lia.
  left. split_and!; try done. by apply H1.
Qed.

(** ** The claims on rings and on the map of valid entries *)

Lemma counts_inc_prod (q : ummu_ll_queue) fp fc P C k :
  counts q fp fc P C -> 0 <= k -> ummu_queue_has_space q k = true ->
  counts (set_prod q (ummu_queue_inc_prod_n q k)) fp fc (P + k) C.
Proof.
  intros H Hk Hs. pose proof H as (Hn & _ & Hc & Hpc & Hd). pose proof Hn as Hn'. unfold size_ok in Hn'.
  apply (has_space_counts _ _ _ _ _ _ H Hk) in Hs.
  assert (2 ^ log2size q <= 2 ^ 30) by (apply Z.pow_le_mono_r; lia).
  rewrite (inc_prod_counts _ _ _ _ _ _ H) by lia.
  unfold counts. simpl. split_and!; done || lia.
Qed.

Lemma counts_inc_cons (q : ummu_ll_queue) fp fc P C :
  counts q fp fc P C -> ummu_queue_empty q = false ->
  counts (ummu_queue_inc_cons q) fp fc P (C + 1).
Proof.
  intros H He. pose proof H as (Hn & Hp & Hc & Hpc & Hd).
  assert (P <> C) by (intros E; apply (empty_counts _ _ _ _ _ H) in E; congruence).
  unfold counts, ummu_queue_inc_cons. simpl. split_and!; try done; try lia.
  rewrite Hc. by apply advance_ptr.
Qed.

(** C35. Ring pointers implement unbounded counters.  For a queue of up to [2^30] entries
    whose registers stand for [P] entries produced and [C] consumed: the space test, the
    full, empty and consumed tests decide the corresponding comparison of the counters
    whatever the number of laps, and advancing either register (the producer only when
    there is space, the consumer only when the queue is not empty) adds to its counter,
    keeps the flag in bit 31 and stays within the capacity. *)
Theorem ummu_ring_counters (q : ummu_ll_queue) (fp fc : bool) (P C k : Z)
    (Hq : counts q fp fc P C) (Hk : 0 <= k) :
  (ummu_queue_empty q = true <-> P = C) /\
  (ummu_queue_full q = true <-> P = C + 2 ^ log2size q) /\
  (ummu_queue_has_space q k = true <-> P + k <= C + 2 ^ log2size q) /\
  (forall f X, X - 2 ^ log2size q < C <= X + 2 ^ log2size q ->
     (ummu_queue_consumed q (ptr (log2size q) f X) = true <-> X < C)) /\
  (ummu_queue_has_space q k = true ->
     counts (set_prod q (ummu_queue_inc_prod_n q k)) fp fc (P + k) C) /\
  (ummu_queue_empty q = false -> counts (ummu_queue_inc_cons q) fp fc P (C + 1)).
Proof.
  split_and!.
  - by eapply empty_counts.
  - pose proof (full_counts q fp fc P C Hq) as ->. lia.
  - by eapply has_space_counts.
  - intros f X HX. destruct Hq as (Hn & _ & Hc & _). by eapply consumed_counts.
  - intros. by eapply counts_inc_prod.
  - intros. by eapply counts_inc_cons.
Qed.

Definition ring_ex : ummu_ll_queue := {| prod := 2 ^ 31 + 9; cons := 6; log2size := 3 |}.

Lemma ummu_ring_counters_witness : counts ring_ex true false 25 22 /\
  ummu_queue_has_space ring_ex 5 = true /\ ummu_queue_has_space ring_ex 6 = false.
Proof.
  assert (H : counts ring_ex true false 25 22)
    by (unfold counts, size_ok; simpl; split_and!; (reflexivity || lia)).
  split; [done|].
  destruct (ummu_ring_counters ring_ex true false 25 22 5 H ltac:(lia)) as (_ & _ & H5 & _).
  split; [by apply H5|]. vm_compute. reflexivity.
Defined.

(** Publishing and polling slots.  For a map of at least 64 entries: marking the
    slots of positions [S, E) terminates and toggles exactly the bits of those entries;
    polling them terminates, and finds them valid exactly when every one of their bits is
    the complement of the wrap bit of its position.  So slots that were not valid before
    are found valid after they were marked. *)
Theorem ummu_valid_map_spec (n S E : Z) (m : vmap) (fuel : nat)
    (Hn : 6 <= n <= 30) (HE : S <= E <= S + 2 ^ n) (Hf : E - S <= Z.of_nat fuel) :
  exists m', ummu_mcmdq_set_valid_map fuel m n (ptr n false S) (ptr n false E) = Some m' /\
    (forall i, 0 <= i < 2 ^ n -> vbit m' i = xorb (vbit m i) (covered n S E i)) /\
    (forall mm, exists b,
       ummu_mcmdq_poll_valid_map fuel mm n (ptr n false S) (ptr n false E) = Some b /\
       (b = true <-> forall X, S <= X < E -> vbit mm (X mod 2 ^ n) = negb (Z.testbit X n))) /\
    ((forall X, S <= X < E -> vbit m (X mod 2 ^ n) = Z.testbit X n) ->
     ummu_mcmdq_poll_valid_map fuel m' n (ptr n false S) (ptr n false E) = Some true).
Proof.
  assert (Hs : size_ok n) by (unfold size_ok; lia).
  destruct (set_valid_spec n Hs ltac:(lia) E 0 fuel m S HE Hf) as (m' & Hm' & Hv).
  exists m'. split_and!; [done|done|..].
  - intros mm. by apply (poll_valid_spec n Hs ltac:(lia)).
  - intros Hold. destruct (poll_valid_spec n Hs ltac:(lia) m' E 0 fuel S HE Hf) as (b & Hb & Hbv).
    rewrite (proj2 Hbv) in Hb; [done|]. intros X HX.
    pose proof (pow2_pos n ltac:(lia)) as Hp. rewrite Hv, Hold by (done || by apply Z.mod_pos_bound).
    unfold covered. rewrite (proj2 (Z.ltb_lt _ _)); [by destruct (Z.testbit X n)|].
    rewrite Zminus_mod_idemp_l. destruct (decide (X - S = 2 ^ n)); [lia|].
    rewrite Z.mod_small by lia. lia.
Qed.

Lemma ummu_valid_map_spec_witness :
  exists m', ummu_mcmdq_set_valid_map 128 (fun _ => 0) 7 (ptr 7 false 60) (ptr 7 false 130) = Some m' /\
    ummu_mcmdq_poll_valid_map 128 m' 7 (ptr 7 false 60) (ptr 7 false 128) = Some true.
Proof.
  destruct (ummu_valid_map_spec 7 60 130 (fun _ => 0) 128 ltac:(lia) ltac:(lia) ltac:(lia))
    as (m' & Hm & _). exists m'. split; [exact Hm|].
  assert (E : Some m' = ummu_mcmdq_set_valid_map 128 (fun _ => 0) 7 (ptr 7 false 60) (ptr 7 false 130))
    by (symmetry; exact Hm).
  vm_compute in E. injection E as ->. vm_compute. reflexivity.
Defined.
