(* ===== verification/UmmuCmd.v ===== *)
(** * Commands of the UMMU

    The encoding of commands into four 64-bit words ([ummu_mcmdq_build_cmd] of
    [drivers/iommu/hisilicon/queue.c], with the fields of [queue.h]), the requests that
    put them on a queue, and batches of commands.  Putting a list of commands on the
    queue is the subject of [UmmuMcmdq]; here it is the value [issue]. *)

From S2P Require Import Prelude UmmuQueue.

(** ** Bit fields *)

(** [__bf_shf]: the position of the lowest bit of a mask. *)
Definition bf_shf (mask : Z) : Z := Z.log2 (Z.land mask (- mask)).
Definition FIELD_PREP (mask val : Z) : Z := Z.land (u64 (Z.shiftl val (bf_shf mask))) mask.
Definition FIELD_GET (mask reg : Z) : Z := Z.shiftr (Z.land reg mask) (bf_shf mask).
Definition BIT (n : Z) : Z := Z.shiftl 1 n.

Definition CMD_0_OP := GENMASK 7 0.
Definition CMD_SYNC_0_CM := GENMASK 13 12.
Definition CMD_SYNC_0_CM_NONE : Z := 0.
Definition CMD_SYNC_0_CM_IRQ : Z := 1.
Definition CMD_SYNC_0_CM_SEV : Z := 2.
Definition CMD_SYNC_0_MSISH := GENMASK 15 14.
Definition CMD_SYNC_0_MSIATTR := GENMASK 19 16.
Definition CMD_SYNC_1_MSIADDR := GENMASK 51 2.
Definition CMD_STALL_0_DSEC := BIT 10.
Definition CMD_STALL_0_RETRY := BIT 12.
Definition CMD_STALL_0_ABORT := BIT 13.
Definition CMD_STALL_1_TAG := GENMASK 15 0.
Definition CMD_STALL_2_TECT_TAG := GENMASK 15 0.
Definition CMD_PREFET_0_TKV := BIT 11.
Definition CMD_PREFET_0_TID := GENMASK 31 12.
Definition CMD_PREFET_2_DEID_0 := GENMASK 31 0.
Definition CMD_PREFET_2_DEID_1 := GENMASK 63 32.
Definition CMD_PREFET_3_DEID_0 := GENMASK 31 0.
Definition CMD_PREFET_3_DEID_1 := GENMASK 63 32.
Definition CMD_CFGI_0_LEAF := BIT 8.
Definition CMD_CFGI_0_TID := GENMASK 31 12.
Definition CMD_CFGI_0_RANGE := GENMASK 56 52.
Definition CMD_CFGI_2_DEID_0 := GENMASK 31 0.
Definition CMD_CFGI_2_DEID_1 := GENMASK 63 32.
Definition CMD_CFGI_3_DEID_0 := GENMASK 31 0.
Definition CMD_CFGI_3_DEID_1 := GENMASK 63 32.
Definition CMD_TLBI_0_LEAF := BIT 8.
Definition CMD_TLBI_0_ASID := GENMASK 27 12.
Definition CMD_TLBI_0_TOKEN_ID := GENMASK 31 12.
Definition CMD_TLBI_0_VMID := GENMASK 47 32.
Definition CMD_TLBI_0_NUM := GENMASK 56 52.
Definition CMD_TLBI_0_SCALE := GENMASK 61 57.
Definition CMD_TLBI_0_TL := GENMASK 63 62.
Definition CMD_TLBI_1_GS := GENMASK 1 0.
Definition CMD_TLBI_1_VA_MASK := GENMASK 63 12.
Definition CMD_TLBI_1_IPA_MASK := GENMASK 51 12.
Definition CMD_TLBI_2_TECTE_TAG := GENMASK 15 0.
Definition CMD_PLBI_0_TID := GENMASK 31 12.
Definition CMD_PLBI_0_RANGE := GENMASK 37 32.
Definition CMD_PLBI_1_ADDR_MASK := GENMASK 63 0.
Definition CMD_PLBI_2_TECTE_TAG := GENMASK 15 0.
Definition CMD_PLBI_1_NEXT_LEVEL_INDEX_MASK := GENMASK 15 0.
Definition CMD_PLBI_1_NEXT_LEVEL_OFFSET_MASK := GENMASK 61 32.
Definition CMD_CREATE_KVTBL0_EVT_EN := BIT 8.
Definition CMD_CREATE_KVTBL0_TAG_MASK := GENMASK 31 16.
Definition CMD_CREATE_KVTBL0_KV_INDEX_MASK := GENMASK 63 32.
Definition CMD_CREATE_KVTBL1_ADDR_MASK := GENMASK 51 6.
Definition CMD_CREATE_KVTBL2_EID_LOW := GENMASK 63 0.
Definition CMD_CREATE_KVTBL3_EID_HIGH := GENMASK 63 0.
Definition CMD_DELETE_KVTBL0_EVT_EN := BIT 8.
Definition CMD_DELETE_KVTBL0_TAG_MASK := GENMASK 31 16.
Definition CMD_DELETE_KVTBL0_KV_INDEX_MASK := GENMASK 63 32.
Definition CMD_DELETE_KVTBL2_EID_LOW := GENMASK 63 0.
Definition CMD_DELETE_KVTBL3_EID_HIGH := GENMASK 63 0.
Definition CMD_NULL_OP_SUB_OP := GENMASK 15 8.
Definition SUB_OP_CHECK_PA_CONTI_0_RESULT := GENMASK 19 16.
Definition SUB_OP_CHECK_PA_CONTI_0_FLAG := BIT 20.
Definition SUB_OP_CHECK_PA_CONTI_0_SIZE := GENMASK 29 24.
Definition SUB_OP_CHECK_PA_CONTI_0_ID := GENMASK 40 32.
Definition SUB_OP_CHECK_PA_CONTI_1_ADDR := GENMASK 63 12.

Definition UMMU_SH_ISH : Z := 3.
Definition UMMU_MEMATTR_OIWB : Z := 0xf.
Definition SUB_CMD_NULL_CHECK_PA_CONTINUITY : Z := 1.

(** ** Opcodes and entries *)

Definition CMD_SYNC : Z := 0x1.
Definition CMD_STALL_RESUME : Z := 0x02.
Definition CMD_STALL_TERM : Z := 0x03.
Definition CMD_PREFET_CFG : Z := 0x04.
Definition CMD_CFGI_TECT : Z := 0x08.
Definition CMD_CFGI_TECT_RANGE : Z := 0x09.
Definition CMD_CFGI_TCT : Z := 0x0A.
Definition CMD_CFGI_TCT_ALL : Z := 0x0B.
Definition CMD_PLBI_OS_EID : Z := 0x14.
Definition CMD_PLBI_OS_EIDTID : Z := 0x15.
Definition CMD_PLBI_OS_VA : Z := 0x16.
Definition CMD_TLBI_OS_ALL : Z := 0x10.
Definition CMD_TLBI_OS_TID : Z := 0x11.
Definition CMD_TLBI_OS_VA : Z := 0x12.
Definition CMD_TLBI_OS_VAA : Z := 0x13.
Definition CMD_TLBI_HYP_ALL : Z := 0x18.
Definition CMD_TLBI_HYP_TID : Z := 0x19.
Definition CMD_TLBI_HYP_VA : Z := 0x1A.
Definition CMD_TLBI_HYP_VAA : Z := 0x1B.
Definition CMD_TLBI_S1S2_VMALL : Z := 0x28.
Definition CMD_TLBI_S2_IPA : Z := 0x2A.
Definition CMD_TLBI_NS_OS_ALL : Z := 0x2C.
Definition CMD_TLBI_OS_ALL_U : Z := 0x90.
Definition CMD_TLBI_OS_ASID_U : Z := 0x91.
Definition CMD_TLBI_OS_VA_U : Z := 0x92.
Definition CMD_TLBI_OS_VAA_U : Z := 0x93.
Definition CMD_TLBI_HYP_ASID_U : Z := 0x99.
Definition CMD_TLBI_HYP_VA_U : Z := 0x9A.
Definition CMD_TLBI_S1S2_VMALL_U : Z := 0xA8.
Definition CMD_TLBI_S2_IPA_U : Z := 0xAA.
Definition CMD_CREATE_KVTBL : Z := 0x60.
Definition CMD_DELETE_KVTBL : Z := 0x61.
Definition CMD_NULL_OP : Z := 0x62.
Definition CMD_PLBI_OS_N : Z := 0x63.

(** The members of the union of [struct ummu_mcmdq_ent]. *)
Inductive ent_member :=
  | sync (msi_addr : Z) (support_sev : bool)
  | stall_resume (dsec retry abort : bool) (tect_tag tag : Z)
  | stall_term (tect_tag : Z)
  | prefet (tkv : bool) (tid deid_0 deid_1 deid_2 deid_3 : Z)
  | cfgi (leaf : bool) (tid vmid range deid_0 deid_1 deid_2 deid_3 : Z)
  | plbi (tid tecte_tag range addr : Z)
  | tlbi (leaf : bool) (asid vmid tid tect_tag num scale tl gs addr : Z)
  | resume (deid stag resp : Z)
  | create_kvtbl (evt_en : bool) (tecte_tag kv_index tect_base_addr eid_low eid_high : Z)
  | delete_kvtbl (evt_en : bool) (tecte_tag kv_index eid_low eid_high : Z)
  | null_op (sub_op result flag size_order id addr : Z)
  | plbi_free_bit (tid tecte_tag next_lvl_idx next_lvl_offset : Z).

(** An entry: the opcode and the member that was stored. *)
Record ummu_mcmdq_ent := { opcode : Z; member : ent_member }.

(** ** Building a command *)

(** [cmd\[i\] |= v]. *)
Abbreviation cmd_or := (nat * Z)%type.
Definition or_word (c : list Z) (w : cmd_or) : list Z := alter (fun x => Z.lor x (snd w)) (fst w) c.
Definition flag_or (i : nat) (b : bool) (bit : Z) : cmd_or := (i, if b then bit else 0).
Definition prep_or (i : nat) (mask v : Z) : cmd_or := (i, FIELD_PREP mask v).

Definition ummu_mcmdq_build_nop_cmd (e : ummu_mcmdq_ent) : option (Z * list cmd_or) :=
  match member e with
  | null_op sub_op result flag size_order id addr =>
    let w := [prep_or 0 CMD_NULL_OP_SUB_OP sub_op] in
    if sub_op =? SUB_CMD_NULL_CHECK_PA_CONTINUITY then
      Some (0, w ++
        [prep_or 0 SUB_OP_CHECK_PA_CONTI_0_RESULT result;
         flag_or 0 (ctrue flag) SUB_OP_CHECK_PA_CONTI_0_FLAG;
         prep_or 0 SUB_OP_CHECK_PA_CONTI_0_SIZE size_order;
         prep_or 0 SUB_OP_CHECK_PA_CONTI_0_ID id;
         (1%nat, Z.land SUB_OP_CHECK_PA_CONTI_1_ADDR addr)])
    else Some (- EINVAL, w)
  | _ => None
  end.

(** The four words of the destination id that several commands carry. *)
Definition deid_ors (m20 m21 m30 m31 d0 d1 d2 d3 : Z) : list cmd_or :=
  [prep_or 2 m20 d0; prep_or 2 m21 d1; prep_or 3 m30 d2; prep_or 3 m31 d3].
Abbreviation cfgi_deid :=
  (deid_ors CMD_CFGI_2_DEID_0 CMD_CFGI_2_DEID_1 CMD_CFGI_3_DEID_0 CMD_CFGI_3_DEID_1).

(** The range fields that end every invalidation by address. *)
Definition range_ors (leaf : bool) (num scale tl gs addr mask : Z) : list cmd_or :=
  [flag_or 0 leaf CMD_TLBI_0_LEAF; prep_or 0 CMD_TLBI_0_NUM num;
   prep_or 0 CMD_TLBI_0_SCALE scale; prep_or 0 CMD_TLBI_0_TL tl;
   prep_or 1 CMD_TLBI_1_GS gs; (1%nat, Z.land addr mask)].

(** The cases of the switch that read [ent->tlbi]. *)
Definition build_tlbi (op : Z) (leaf : bool) (asid vmid tid tect_tag num scale tl gs addr : Z) :
    list cmd_or :=
  let token := [prep_or 0 CMD_TLBI_0_TOKEN_ID tid] in
  let tag := [prep_or 2 CMD_TLBI_2_TECTE_TAG tect_tag] in
  let vm := [prep_or 0 CMD_TLBI_0_VMID vmid] in
  let as_ := [prep_or 0 CMD_TLBI_0_ASID asid] in
  let va := range_ors leaf num scale tl gs addr CMD_TLBI_1_VA_MASK in
  if op =? CMD_TLBI_OS_ALL then tag
  else if op =? CMD_TLBI_OS_TID then token ++ tag
  else if op =? CMD_TLBI_OS_VA then token ++ tag ++ va
  else if op =? CMD_TLBI_OS_VAA then tag ++ va
  else if op =? CMD_TLBI_HYP_TID then token
  else if op =? CMD_TLBI_HYP_VA then token ++ va
  else if op =? CMD_TLBI_HYP_VAA then va
  else if op =? CMD_TLBI_S1S2_VMALL then tag
  else if op =? CMD_TLBI_S2_IPA then tag ++ va
  else if op =? CMD_TLBI_OS_ALL_U then vm
  else if op =? CMD_TLBI_OS_ASID_U then as_ ++ vm
  else if op =? CMD_TLBI_OS_VA_U then as_ ++ vm ++ va
  else if op =? CMD_TLBI_OS_VAA_U then vm ++ va
  else if op =? CMD_TLBI_HYP_ASID_U then as_
  else if op =? CMD_TLBI_HYP_VA_U then as_ ++ va
  else if op =? CMD_TLBI_S1S2_VMALL_U then vm
  else (* CMD_TLBI_S2_IPA_U *)
    vm ++ range_ors leaf num scale tl gs addr CMD_TLBI_1_IPA_MASK.

Definition tlbi_opcodes : list Z :=
  [CMD_TLBI_OS_ALL; CMD_TLBI_OS_TID; CMD_TLBI_OS_VA; CMD_TLBI_OS_VAA; CMD_TLBI_HYP_TID;
   CMD_TLBI_HYP_VA; CMD_TLBI_HYP_VAA; CMD_TLBI_S1S2_VMALL; CMD_TLBI_S2_IPA; CMD_TLBI_OS_ALL_U;
   CMD_TLBI_OS_ASID_U; CMD_TLBI_OS_VA_U; CMD_TLBI_OS_VAA_U; CMD_TLBI_HYP_ASID_U;
   CMD_TLBI_HYP_VA_U; CMD_TLBI_S1S2_VMALL_U; CMD_TLBI_S2_IPA_U].

(** The switch of [ummu_mcmdq_build_cmd]: the return value and the words or-ed into the
    command after the opcode; [None] when the case reads another member than the one the
    entry holds. *)
Definition build_switch (e : ummu_mcmdq_ent) : option (Z * list cmd_or) :=
  let op := opcode e in
  if op =? CMD_SYNC then
    match member e with
    | sync msi_addr support_sev =>
      Some (0,
        (if ctrue msi_addr then
           [prep_or 0 CMD_SYNC_0_CM CMD_SYNC_0_CM_IRQ;
            (1%nat, Z.land msi_addr CMD_SYNC_1_MSIADDR)]
         else if support_sev then [prep_or 0 CMD_SYNC_0_CM CMD_SYNC_0_CM_SEV]
         else [prep_or 0 CMD_SYNC_0_CM CMD_SYNC_0_CM_NONE]) ++
        [prep_or 0 CMD_SYNC_0_MSISH UMMU_SH_ISH; prep_or 0 CMD_SYNC_0_MSIATTR UMMU_MEMATTR_OIWB])
    | _ => None
    end
  else if op =? CMD_STALL_RESUME then
    match member e with
    | stall_resume dsec retry abort tect_tag tag =>
      Some (0, [flag_or 0 dsec CMD_STALL_0_DSEC; flag_or 0 retry CMD_STALL_0_RETRY;
                flag_or 0 abort CMD_STALL_0_ABORT; prep_or 1 CMD_STALL_1_TAG tag;
                prep_or 2 CMD_STALL_2_TECT_TAG tect_tag])
    | _ => None
    end
  else if op =? CMD_STALL_TERM then
    match member e with
    | stall_resume _ _ _ tect_tag _ => Some (0, [prep_or 2 CMD_STALL_2_TECT_TAG tect_tag])
    | _ => None
    end
  else if op =? CMD_PREFET_CFG then
    match member e with
    | prefet tkv tid d0 d1 d2 d3 =>
      Some (0, [flag_or 0 tkv CMD_PREFET_0_TKV; prep_or 0 CMD_PREFET_0_TID tid] ++
               deid_ors CMD_PREFET_2_DEID_0 CMD_PREFET_2_DEID_1 CMD_PREFET_3_DEID_0
                 CMD_PREFET_3_DEID_1 d0 d1 d2 d3)
    | _ => None
    end
  else if op =? CMD_CFGI_TECT then
    match member e with
    | cfgi leaf tid vmid range d0 d1 d2 d3 =>
      Some (0, flag_or 0 leaf CMD_CFGI_0_LEAF :: cfgi_deid d0 d1 d2 d3)
    | _ => None
    end
  else if op =? CMD_CFGI_TECT_RANGE then
    match member e with
    | cfgi leaf tid vmid range d0 d1 d2 d3 =>
      Some (0, prep_or 0 CMD_CFGI_0_RANGE range :: cfgi_deid d0 d1 d2 d3)
    | _ => None
    end
  else if (op =? CMD_CFGI_TCT) || (op =? CMD_CFGI_TCT_ALL) then
    match member e with
    | cfgi leaf tid vmid range d0 d1 d2 d3 =>
      Some (0, flag_or 0 leaf CMD_CFGI_0_LEAF :: prep_or 0 CMD_CFGI_0_TID tid ::
               cfgi_deid d0 d1 d2 d3)
    | _ => None
    end
  else if op =? CMD_PLBI_OS_EID then
    match member e with
    | plbi tid tecte_tag range addr => Some (0, [prep_or 2 CMD_PLBI_2_TECTE_TAG tecte_tag])
    | _ => None
    end
  else if op =? CMD_PLBI_OS_EIDTID then
    match member e with
    | plbi tid tecte_tag range addr =>
      Some (0, [prep_or 0 CMD_PLBI_0_TID tid; prep_or 2 CMD_PLBI_2_TECTE_TAG tecte_tag])
    | _ => None
    end
  else if op =? CMD_PLBI_OS_VA then
    match member e with
    | plbi tid tecte_tag range addr =>
      Some (0, [prep_or 0 CMD_PLBI_0_TID tid; prep_or 0 CMD_PLBI_0_RANGE range;
                (1%nat, Z.land addr CMD_PLBI_1_ADDR_MASK);
                prep_or 2 CMD_PLBI_2_TECTE_TAG tecte_tag])
    | _ => None
    end
  else if bool_decide (op ∈ tlbi_opcodes) then
    match member e with
    | tlbi leaf asid vmid tid tect_tag num scale tl gs addr =>
      Some (0, build_tlbi op leaf asid vmid tid tect_tag num scale tl gs addr)
    | _ => None
    end
  else if (op =? CMD_TLBI_HYP_ALL) || (op =? CMD_TLBI_NS_OS_ALL) then Some (0, [])
  else if op =? CMD_CREATE_KVTBL then
    match member e with
    | create_kvtbl evt_en tecte_tag kv_index tect_base_addr eid_low eid_high =>
      Some (0, [flag_or 0 evt_en CMD_CREATE_KVTBL0_EVT_EN;
                prep_or 0 CMD_CREATE_KVTBL0_TAG_MASK tecte_tag;
                prep_or 0 CMD_CREATE_KVTBL0_KV_INDEX_MASK kv_index;
                (1%nat, Z.land tect_base_addr CMD_CREATE_KVTBL1_ADDR_MASK);
                prep_or 2 CMD_CREATE_KVTBL2_EID_LOW eid_low;
                prep_or 3 CMD_CREATE_KVTBL3_EID_HIGH eid_high])
    | _ => None
    end
  else if op =? CMD_DELETE_KVTBL then
    match member e with
    | delete_kvtbl evt_en tecte_tag kv_index eid_low eid_high =>
      Some (0, [flag_or 0 evt_en CMD_DELETE_KVTBL0_EVT_EN;
                prep_or 0 CMD_DELETE_KVTBL0_TAG_MASK tecte_tag;
                prep_or 0 CMD_DELETE_KVTBL0_KV_INDEX_MASK kv_index;
                prep_or 2 CMD_DELETE_KVTBL2_EID_LOW eid_low;
                prep_or 3 CMD_DELETE_KVTBL3_EID_HIGH eid_high])
    | _ => None
    end
  else if op =? CMD_NULL_OP then ummu_mcmdq_build_nop_cmd e
  else if op =? CMD_PLBI_OS_N then
    match member e with
    | plbi_free_bit tid tecte_tag next_lvl_idx next_lvl_offset =>
      Some (0, [prep_or 0 CMD_PLBI_0_TID tid;
                prep_or 1 CMD_PLBI_1_NEXT_LEVEL_INDEX_MASK next_lvl_idx;
                prep_or 1 CMD_PLBI_1_NEXT_LEVEL_OFFSET_MASK next_lvl_offset;
                prep_or 2 CMD_TLBI_2_TECTE_TAG tecte_tag])
    | _ => None
    end
  else Some (- EINVAL, []).

(** [ummu_mcmdq_build_cmd]: the return value and the four words of the command. *)
Definition ummu_mcmdq_build_cmd (e : ummu_mcmdq_ent) : option (Z * list Z) :=
  '(ret, ors) ← build_switch e;
  Some (ret, fold_left or_word (prep_or 0 CMD_0_OP (opcode e) :: ors) [0; 0; 0; 0]).

Definition non_va_range_tlbi (op : Z) : bool :=
  bool_decide (op ∈ [CMD_TLBI_OS_ALL; CMD_TLBI_OS_TID; CMD_TLBI_HYP_ALL; CMD_TLBI_HYP_TID;
    CMD_TLBI_S1S2_VMALL; CMD_TLBI_NS_OS_ALL; CMD_TLBI_OS_ALL_U; CMD_TLBI_OS_ASID_U;
    CMD_TLBI_HYP_ASID_U; CMD_TLBI_S1S2_VMALL_U]).

(** ** Requests to the queue *)

(** One call of [ummu_mcmdq_issue_cmdlist]: the commands and whether to synchronise. *)
Record issue := { cmds : list (list Z); wait : bool }.

(** [__ummu_mcmdq_issue_cmd]: an error, or the call it makes.  [double] is the option
    [UMMU_OPT_DOUBLE_TLBI]. *)
Definition issue_cmd (double : bool) (e : ummu_mcmdq_ent) (sync : bool) : option (Z + issue) :=
  '(ret, c) ← ummu_mcmdq_build_cmd e;
  if ctrue ret then Some (inl (- EINVAL))
  else if double && non_va_range_tlbi (opcode e) then Some (inr {| cmds := [c; c]; wait := sync |})
  else Some (inr {| cmds := [c]; wait := sync |}).

Definition ummu_mcmdq_issue_cmd (double : bool) (e : ummu_mcmdq_ent) := issue_cmd double e false.
Definition ummu_mcmdq_issue_cmd_with_sync (double : bool) (e : ummu_mcmdq_ent) :=
  issue_cmd double e true.

(** [struct ummu_mcmdq_batch]: [slots] are the commands of the array, [num] those in use. *)
Definition MCMDQ_BATCH_ENTRIES : nat := 32.
Record ummu_mcmdq_batch := { slots : list (list Z); num : nat }.

(** The result is the batch and the call of [ummu_mcmdq_issue_cmdlist], if any.  A slot
    outside the array is [None]. *)
Definition ummu_mcmdq_batch_add (b : ummu_mcmdq_batch) (e : ummu_mcmdq_ent) :
    option (ummu_mcmdq_batch * list issue) :=
  let '(n, out) :=
    if bool_decide (num b = MCMDQ_BATCH_ENTRIES)
    then (O, [{| cmds := take (num b) (slots b); wait := false |}])
    else (num b, []) in
  '(ret, c) ← ummu_mcmdq_build_cmd e;
  if bool_decide (n < length (slots b))%nat then
    let b' := <[n := c]> (slots b) in
    if ctrue ret then Some ({| slots := b'; num := n |}, out)
    else Some ({| slots := b'; num := S n |}, out)
  else None.

Definition ummu_mcmdq_batch_submit (b : ummu_mcmdq_batch) : issue :=
  {| cmds := take (num b) (slots b); wait := true |}.

(** ** What the hardware reads *)

(** The fields each invalidation carries. *)
Definition has_token (op : Z) : bool :=
  bool_decide (op ∈ [CMD_TLBI_OS_TID; CMD_TLBI_OS_VA; CMD_TLBI_HYP_TID; CMD_TLBI_HYP_VA]).
Definition has_tag (op : Z) : bool :=
  bool_decide (op ∈ [CMD_TLBI_OS_ALL; CMD_TLBI_OS_TID; CMD_TLBI_OS_VA; CMD_TLBI_OS_VAA;
                     CMD_TLBI_S1S2_VMALL; CMD_TLBI_S2_IPA]).
Definition has_asid (op : Z) : bool :=
  bool_decide (op ∈ [CMD_TLBI_OS_ASID_U; CMD_TLBI_OS_VA_U; CMD_TLBI_HYP_ASID_U; CMD_TLBI_HYP_VA_U]).
Definition has_vmid (op : Z) : bool :=
  bool_decide (op ∈ [CMD_TLBI_OS_ALL_U; CMD_TLBI_OS_ASID_U; CMD_TLBI_OS_VA_U; CMD_TLBI_OS_VAA_U;
                     CMD_TLBI_S1S2_VMALL_U; CMD_TLBI_S2_IPA_U]).
Definition has_range (op : Z) : bool :=
  bool_decide (op ∈ [CMD_TLBI_OS_VA; CMD_TLBI_OS_VAA; CMD_TLBI_HYP_VA; CMD_TLBI_HYP_VAA;
    CMD_TLBI_S2_IPA; CMD_TLBI_OS_VA_U; CMD_TLBI_OS_VAA_U; CMD_TLBI_HYP_VA_U; CMD_TLBI_S2_IPA_U]).
Definition addr_mask (op : Z) : Z :=
  if op =? CMD_TLBI_S2_IPA_U then CMD_TLBI_1_IPA_MASK else CMD_TLBI_1_VA_MASK.

Definition when (b : bool) (v : Z) : Z := if b then v else 0.

(** The part of an entry that its command transmits. *)
Definition carried (e : ummu_mcmdq_ent) : ent_member :=
  let op := opcode e in
  match member e with
  | sync a sev => if ctrue a then sync (Z.land a CMD_SYNC_1_MSIADDR) false else sync 0 sev
  | stall_resume d r a tct t =>
    if op =? CMD_STALL_TERM then stall_resume false false false tct 0 else stall_resume d r a tct t
  | cfgi leaf tid vmid range d0 d1 d2 d3 =>
    cfgi (leaf && negb (op =? CMD_CFGI_TECT_RANGE))
      (when ((op =? CMD_CFGI_TCT) || (op =? CMD_CFGI_TCT_ALL)) tid) 0
      (when (op =? CMD_CFGI_TECT_RANGE) range) d0 d1 d2 d3
  | plbi tid tag range addr =>
    plbi (when (negb (op =? CMD_PLBI_OS_EID)) tid) tag
      (when (op =? CMD_PLBI_OS_VA) range) (when (op =? CMD_PLBI_OS_VA) addr)
  | tlbi leaf asid vmid tid tag num scale tl gs addr =>
    tlbi (leaf && has_range op) (when (has_asid op) asid) (when (has_vmid op) vmid)
      (when (has_token op) tid) (when (has_tag op) tag) (when (has_range op) num)
      (when (has_range op) scale) (when (has_range op) tl) (when (has_range op) gs)
      (when (has_range op) (Z.land addr (addr_mask op)))
  | create_kvtbl en tag kv base lo hi =>
    create_kvtbl en tag kv (Z.land base CMD_CREATE_KVTBL1_ADDR_MASK) lo hi
  | null_op sub res flag size id addr =>
    null_op sub res (Z.b2z (ctrue flag)) size id (Z.land addr SUB_OP_CHECK_PA_CONTI_1_ADDR)
  | x => x
  end.

(** A decoder of commands, by opcode. *)
Definition decode_cmd (w0 w1 w2 w3 : Z) : option ent_member :=
  let op := FIELD_GET CMD_0_OP w0 in
  let flag bit := ctrue (FIELD_GET bit w0) in
  if op =? CMD_SYNC then
    let cm := FIELD_GET CMD_SYNC_0_CM w0 in
    Some (sync (when (cm =? CMD_SYNC_0_CM_IRQ) (Z.land w1 CMD_SYNC_1_MSIADDR))
            (cm =? CMD_SYNC_0_CM_SEV))
  else if op =? CMD_STALL_RESUME then
    Some (stall_resume (flag CMD_STALL_0_DSEC) (flag CMD_STALL_0_RETRY) (flag CMD_STALL_0_ABORT)
            (FIELD_GET CMD_STALL_2_TECT_TAG w2) (FIELD_GET CMD_STALL_1_TAG w1))
  else if op =? CMD_STALL_TERM then
    Some (stall_resume false false false (FIELD_GET CMD_STALL_2_TECT_TAG w2) 0)
  else if op =? CMD_PREFET_CFG then
    Some (prefet (flag CMD_PREFET_0_TKV) (FIELD_GET CMD_PREFET_0_TID w0)
            (FIELD_GET CMD_PREFET_2_DEID_0 w2) (FIELD_GET CMD_PREFET_2_DEID_1 w2)
            (FIELD_GET CMD_PREFET_3_DEID_0 w3) (FIELD_GET CMD_PREFET_3_DEID_1 w3))
  else if bool_decide (op ∈ [CMD_CFGI_TECT; CMD_CFGI_TECT_RANGE; CMD_CFGI_TCT; CMD_CFGI_TCT_ALL]) then
    Some (cfgi (flag CMD_CFGI_0_LEAF) (FIELD_GET CMD_CFGI_0_TID w0) 0 (FIELD_GET CMD_CFGI_0_RANGE w0)
            (FIELD_GET CMD_CFGI_2_DEID_0 w2) (FIELD_GET CMD_CFGI_2_DEID_1 w2)
            (FIELD_GET CMD_CFGI_3_DEID_0 w3) (FIELD_GET CMD_CFGI_3_DEID_1 w3))
  else if bool_decide (op ∈ [CMD_PLBI_OS_EID; CMD_PLBI_OS_EIDTID; CMD_PLBI_OS_VA]) then
    Some (plbi (FIELD_GET CMD_PLBI_0_TID w0) (FIELD_GET CMD_PLBI_2_TECTE_TAG w2)
            (FIELD_GET CMD_PLBI_0_RANGE w0) w1)
  else if bool_decide (op ∈ tlbi_opcodes) then
    Some (tlbi (flag CMD_TLBI_0_LEAF) (when (has_asid op) (FIELD_GET CMD_TLBI_0_ASID w0))
            (FIELD_GET CMD_TLBI_0_VMID w0) (when (has_token op) (FIELD_GET CMD_TLBI_0_TOKEN_ID w0))
            (FIELD_GET CMD_TLBI_2_TECTE_TAG w2) (FIELD_GET CMD_TLBI_0_NUM w0)
            (FIELD_GET CMD_TLBI_0_SCALE w0) (FIELD_GET CMD_TLBI_0_TL w0)
            (FIELD_GET CMD_TLBI_1_GS w1) (Z.land w1 (addr_mask op)))
  else if op =? CMD_CREATE_KVTBL then
    Some (create_kvtbl (flag CMD_CREATE_KVTBL0_EVT_EN) (FIELD_GET CMD_CREATE_KVTBL0_TAG_MASK w0)
            (FIELD_GET CMD_CREATE_KVTBL0_KV_INDEX_MASK w0) w1 w2 w3)
  else if op =? CMD_DELETE_KVTBL then
    Some (delete_kvtbl (flag CMD_DELETE_KVTBL0_EVT_EN) (FIELD_GET CMD_DELETE_KVTBL0_TAG_MASK w0)
            (FIELD_GET CMD_DELETE_KVTBL0_KV_INDEX_MASK w0) w2 w3)
  else if op =? CMD_NULL_OP then
    Some (null_op (FIELD_GET CMD_NULL_OP_SUB_OP w0) (FIELD_GET SUB_OP_CHECK_PA_CONTI_0_RESULT w0)
            (FIELD_GET SUB_OP_CHECK_PA_CONTI_0_FLAG w0) (FIELD_GET SUB_OP_CHECK_PA_CONTI_0_SIZE w0)
            (FIELD_GET SUB_OP_CHECK_PA_CONTI_0_ID w0) (Z.land w1 SUB_OP_CHECK_PA_CONTI_1_ADDR))
  else if op =? CMD_PLBI_OS_N then
    Some (plbi_free_bit (FIELD_GET CMD_PLBI_0_TID w0) (FIELD_GET CMD_TLBI_2_TECTE_TAG w2)
            (FIELD_GET CMD_PLBI_1_NEXT_LEVEL_INDEX_MASK w1)
            (FIELD_GET CMD_PLBI_1_NEXT_LEVEL_OFFSET_MASK w1))
  else None.

(** [v] fits in [w] bits; every field of an entry fits in the field of its command. *)
Definition fits (w v : Z) : Prop := 0 <= v < 2 ^ w.
Definition member_fits (u : ent_member) : Prop :=
  match u with
  | sync a _ => fits 64 a
  | stall_resume _ _ _ tct t => fits 16 tct /\ fits 16 t
  | stall_term t => fits 16 t
  | prefet _ tid d0 d1 d2 d3 => fits 20 tid /\ fits 32 d0 /\ fits 32 d1 /\ fits 32 d2 /\ fits 32 d3
  | cfgi _ tid vmid range d0 d1 d2 d3 => fits 20 tid /\ fits 16 vmid /\ fits 5 range /\
      fits 32 d0 /\ fits 32 d1 /\ fits 32 d2 /\ fits 32 d3
  | plbi tid tag range addr => fits 20 tid /\ fits 16 tag /\ fits 6 range /\ fits 64 addr
  | tlbi _ asid vmid tid tag num scale tl gs addr => fits 16 asid /\ fits 16 vmid /\ fits 20 tid /\
      fits 16 tag /\ fits 5 num /\ fits 5 scale /\ fits 2 tl /\ fits 2 gs /\ fits 64 addr
  | resume d s r => fits 32 d /\ fits 16 s /\ fits 8 r
  | create_kvtbl _ tag kv base lo hi =>
      fits 16 tag /\ fits 32 kv /\ fits 64 base /\ fits 64 lo /\ fits 64 hi
  | delete_kvtbl _ tag kv lo hi => fits 16 tag /\ fits 32 kv /\ fits 64 lo /\ fits 64 hi
  | null_op sub res flag size id addr =>
      fits 8 sub /\ fits 4 res /\ fits 16 flag /\ fits 6 size /\ fits 9 id /\ fits 64 addr
  | plbi_free_bit tid tag idx off => fits 20 tid /\ fits 16 tag /\ fits 16 idx /\ fits 30 off
  end.

(** ** Reading fields of a word built by or-ing *)

Lemma get_lor (m a b : Z) : FIELD_GET m (Z.lor a b) = Z.lor (FIELD_GET m a) (FIELD_GET m b).
Proof. unfold FIELD_GET. by rewrite Z.land_lor_distr_l, Z.shiftr_lor. Qed.

Lemma get_0 (m : Z) : FIELD_GET m 0 = 0.
Proof. unfold FIELD_GET. by rewrite Z.land_0_l, Z.shiftr_0_l. Qed.

(** Values confined to a mask do not meet the fields outside of it. *)
Lemma land_other (a m m' : Z) : Z.land m' m = 0 -> Z.land (Z.land a m') m = 0.
Proof. intros H. by rewrite <- Z.land_assoc, H, Z.land_0_r. Qed.

Lemma get_land_other (a m m' : Z) : Z.land m' m = 0 -> FIELD_GET m (Z.land a m') = 0.
Proof. intros H. unfold FIELD_GET. by rewrite land_other, Z.shiftr_0_l. Qed.

Lemma get_prep_other (v m m' : Z) : Z.land m' m = 0 -> FIELD_GET m (FIELD_PREP m' v) = 0.
Proof. intros H. unfold FIELD_PREP. by apply get_land_other. Qed.

Lemma land_prep_other (v m m' : Z) : Z.land m' m = 0 -> Z.land (FIELD_PREP m' v) m = 0.
Proof. intros H. unfold FIELD_PREP. by apply land_other. Qed.

Lemma get_flag_other (b : bool) (m m' : Z) :
  Z.land m' m = 0 -> FIELD_GET m (if b then m' else 0) = 0.
Proof. intros H. destruct b; [|apply get_0]. unfold FIELD_GET. by rewrite H, Z.shiftr_0_l. Qed.

Lemma land_again (a m : Z) : Z.land (Z.land a m) m = Z.land a m.
Proof. by rewrite <- Z.land_assoc, Z.land_diag. Qed.

(** Reading back the field itself: [mask] covers the [w] bits from its shift. *)
Lemma get_prep_same (w v m : Z) :
  0 <= w -> fits w v -> 0 <= bf_shf m -> w + bf_shf m <= 64 ->
  m = Z.shiftl (Z.ones w) (bf_shf m) ->
  FIELD_GET m (FIELD_PREP m v) = v.
Proof.
  intros Hw Hv Hs H64 Hm. unfold FIELD_GET, FIELD_PREP. rewrite land_again. unfold fits in Hv.
  set (s := bf_shf m) in *. rewrite uwrap_small.
  - rewrite Hm. rewrite Z.shiftr_land, Z.shiftr_shiftl_l, Z.sub_diag, Z.shiftl_0_r by done.
    rewrite Z.shiftr_shiftl_l, Z.sub_diag, Z.shiftl_0_r by done.
    rewrite Z.land_ones by done. by apply Z.mod_small.
  - rewrite Z.shiftl_mul_pow2 by done. pose proof (pow2_pos s Hs).
    assert (2 ^ w * 2 ^ s <= 2 ^ 64) by (rewrite <- Z.pow_add_r by done; apply Z.pow_le_mono_r; lia).
    nia.
Qed.

Lemma land_ones64 (v : Z) : fits 64 v -> Z.land v (GENMASK 63 0) = v.
Proof.
  intros Hv. change (GENMASK 63 0) with (Z.ones 64). rewrite Z.land_ones by lia. by apply Z.mod_small.
Qed.

Lemma prep_ones64 (v : Z) : fits 64 v -> FIELD_PREP (GENMASK 63 0) v = v.
Proof.
  intros Hv. unfold FIELD_PREP. change (bf_shf (GENMASK 63 0)) with 0.
  rewrite Z.shiftl_0_r, uwrap_small by done. by apply land_ones64.
Qed.

Lemma get_prep (v m : Z) :
  fits (Z.log2 m + 1 - bf_shf m) v ->
  (0 <=? Z.log2 m + 1 - bf_shf m) && (0 <=? bf_shf m) && (Z.log2 m <? 64) &&
  (m =? Z.shiftl (Z.ones (Z.log2 m + 1 - bf_shf m)) (bf_shf m)) = true ->
  FIELD_GET m (FIELD_PREP m v) = v.
Proof.
  intros Hv Hm. bprop. apply (get_prep_same (Z.log2 m + 1 - bf_shf m)); done || lia.
Qed.

Lemma get_flag (b : bool) (m : Z) :
  (m =? Z.shiftl 1 (bf_shf m)) && (0 <=? bf_shf m) = true ->
  FIELD_GET m (if b then m else 0) = Z.b2z b.
Proof.
  intros Hm. bprop. destruct b; [|apply get_0]. unfold FIELD_GET. rewrite Z.land_diag.
  replace (Z.shiftr m (bf_shf m)) with (Z.shiftr (Z.shiftl 1 (bf_shf m)) (bf_shf m)) by congruence.
  by rewrite Z.shiftr_shiftl_l, Z.sub_diag by done.
Qed.

Lemma ctrue_b2z (b : bool) : ctrue (Z.b2z b) = b.
Proof. by destruct b. Qed.

(** Reads every field of the words of a command. *)
Ltac get_tac :=
  repeat first
    [ rewrite get_lor | rewrite Z.land_lor_distr_l | rewrite get_0 | rewrite Z.land_0_l
    | rewrite Z.lor_0_l | rewrite Z.lor_0_r | rewrite land_again
    | rewrite get_prep by (assumption || reflexivity)
    | rewrite get_flag by reflexivity
    | rewrite get_prep_other by reflexivity
    | rewrite get_flag_other by reflexivity
    | rewrite get_land_other by reflexivity
    | rewrite land_prep_other by reflexivity
    | rewrite ctrue_b2z
    | rewrite prep_ones64 by assumption | rewrite land_ones64 by assumption ].

(** Evaluates the tests on a known opcode. *)
Ltac eval_bool c :=
  let r := eval vm_compute in c in
  match r with true => change c with true | false => change c with false end; cbv iota.
Ltac eval_op :=
  unfold when; rewrite ?andb_true_r, ?andb_false_r;
  repeat match goal with
  | |- context [has_range ?o] => eval_bool (has_range o)
  | |- context [negb (?a =? ?b)] => eval_bool (negb (a =? b))
  | |- context [if ?c then _ else _] => eval_bool c
  end; rewrite ?andb_true_r, ?andb_false_r.

(** One case of the switch, once its words are known. *)
Ltac cmd_case :=
  do 4 eexists; split; [reflexivity|]; cbn [fst snd app prep_or flag_or];
  match goal with |- FIELD_GET CMD_0_OP ?w = ?o /\ _ =>
    let H := fresh in assert (H : FIELD_GET CMD_0_OP w = o) by (get_tac; reflexivity);
    split; [exact H|]; right; right; unfold decode_cmd; rewrite H; clear H
  end;
  unfold carried, addr_mask; cbn [opcode member]; cbv zeta; eval_op; f_equal;
  get_tac; eval_op; try reflexivity.

(** The case of opcode [c]: the members it does not read are excluded. *)
Ltac op_case op c u Hu H :=
  destruct (Z.eqb_spec op c) as [->|];
  [destruct u; try discriminate H; injection H as <-; cbn [member_fits] in Hu; dest; cmd_case|].

(** The words after the opcode, and the first one with it. *)
Lemma roundtrip_aux (e : ummu_mcmdq_ent) (ors : list cmd_or) :
  fits 8 (opcode e) -> member_fits (member e) -> build_switch e = Some (0, ors) ->
  exists w0 w1 w2 w3,
    fold_left or_word (prep_or 0 CMD_0_OP (opcode e) :: ors) [0; 0; 0; 0] = [w0; w1; w2; w3] /\
    FIELD_GET CMD_0_OP w0 = opcode e /\
    (opcode e = CMD_TLBI_HYP_ALL \/ opcode e = CMD_TLBI_NS_OS_ALL \/
     decode_cmd w0 w1 w2 w3 = Some (carried e)).
Proof.
  destruct e as [op u]. cbn [opcode member]. intros Hop Hu H. unfold build_switch in H.
  cbn [opcode member] in H. destruct (Z.eqb_spec op CMD_SYNC) as [->|].
  { destruct u as [a sev| | | | | | | | | | |]; try discriminate H.
    unfold carried. destruct (ctrue a) eqn:Ha, sev; injection H as <-; cmd_case; by rewrite Ha. }
  op_case op CMD_STALL_RESUME u Hu H. op_case op CMD_STALL_TERM u Hu H. op_case op CMD_PREFET_CFG u Hu H.
  op_case op CMD_CFGI_TECT u Hu H. op_case op CMD_CFGI_TECT_RANGE u Hu H. op_case op CMD_CFGI_TCT u Hu H.
  op_case op CMD_CFGI_TCT_ALL u Hu H. op_case op CMD_PLBI_OS_EID u Hu H.
  op_case op CMD_PLBI_OS_EIDTID u Hu H. op_case op CMD_PLBI_OS_VA u Hu H.
  cbn [orb] in H. destruct (bool_decide_reflect (op ∈ tlbi_opcodes)) as [Ht|].
  { destruct u; try discriminate H. injection H as <-. cbn [member_fits] in Hu. dest.
    unfold tlbi_opcodes in Ht.
    repeat (apply elem_of_cons in Ht as [->|Ht]; [unfold build_tlbi; eval_op; cmd_case|]).
    by apply elem_of_nil in Ht. }
  destruct (Z.eqb_spec op CMD_TLBI_HYP_ALL) as [->|].
  { injection H as <-. do 4 eexists. split; [reflexivity|]. split; [reflexivity|]. by left. }
  destruct (Z.eqb_spec op CMD_TLBI_NS_OS_ALL) as [->|].
  { injection H as <-. do 4 eexists. split; [reflexivity|]. split; [reflexivity|]. right. by left. }
  cbn [orb] in H. op_case op CMD_CREATE_KVTBL u Hu H. op_case op CMD_DELETE_KVTBL u Hu H.
  destruct (Z.eqb_spec op CMD_NULL_OP) as [->|].
  { unfold ummu_mcmdq_build_nop_cmd in H. cbn [member] in H. destruct u; try discriminate H.
    destruct (Z.eqb_spec sub_op SUB_CMD_NULL_CHECK_PA_CONTINUITY) as [->|]; [|discriminate H].
    injection H as <-. cbn [member_fits] in Hu. dest. rewrite (Z.land_comm _ addr). cmd_case. }
  op_case op CMD_PLBI_OS_N u Hu H. discriminate H.
Qed.

(** C33. Commands decode to what was asked.  For every opcode of the switch, an entry whose
    fields fit their hardware widths is built into four words from which the opcode and
    every field that the opcode carries are read back unchanged (addresses up to the bits
    their field drops): no two fields of a command overlap and none is misplaced. *)
Theorem ummu_cmd_roundtrip (e : ummu_mcmdq_ent) (c : list Z)
    (Hop : fits 8 (opcode e)) (Hu : member_fits (member e))
    (Hb : ummu_mcmdq_build_cmd e = Some (0, c)) :
  exists w0 w1 w2 w3, c = [w0; w1; w2; w3] /\ FIELD_GET CMD_0_OP w0 = opcode e /\
    (opcode e = CMD_TLBI_HYP_ALL \/ opcode e = CMD_TLBI_NS_OS_ALL \/
     decode_cmd w0 w1 w2 w3 = Some (carried e)).
Proof.
  unfold ummu_mcmdq_build_cmd in Hb. destruct (build_switch e) as [[ret ors]|] eqn:Hs; [|done].
  cbn [mbind option_bind] in Hb. injection Hb as -> <-.
  destruct (roundtrip_aux e ors Hop Hu Hs) as (w0 & w1 & w2 & w3 & E & Ho & Hd).
  exists w0, w1, w2, w3. split; [exact E|done].
Qed.

Definition tlbi_ex : ummu_mcmdq_ent :=
  {| opcode := CMD_TLBI_OS_VA_U;
     member := tlbi true 0xbeef 0x1234 0 0 31 3 2 1 0xffff800000007000 |}.

Lemma ummu_cmd_roundtrip_witness : exists w0 w1 w2 w3,
  [w0; w1; w2; w3] = [0x87f012340beef192; 0xffff800000007001; 0; 0] /\
  decode_cmd w0 w1 w2 w3 =
    Some (tlbi true 0xbeef 0x1234 0 0 31 3 2 1 0xffff800000007000).
Proof.
  destruct (ummu_cmd_roundtrip tlbi_ex [0x87f012340beef192; 0xffff800000007001; 0; 0])
    as (w0 & w1 & w2 & w3 & E & _ & [Hd|[Hd|Hd]]).
  - vm_compute. intuition discriminate.
  - vm_compute. intuition discriminate.
  - vm_compute. reflexivity.
  - discriminate Hd.
  - discriminate Hd.
  - exists w0, w1, w2, w3. split; [by rewrite E|]. rewrite Hd. vm_compute. reflexivity.
Defined.

(** ** Batches *)

(** The command an entry contributes, if it can be built. *)
Definition built (e : ummu_mcmdq_ent) : list (list Z) :=
  match ummu_mcmdq_build_cmd e with Some (0, c) => [c] | _ => [] end.

(** A caller that adds entries and submits: the calls made, in order. *)
Fixpoint batch_adds (b : ummu_mcmdq_batch) (es : list ummu_mcmdq_ent) :
    option (ummu_mcmdq_batch * list issue) :=
  match es with
  | [] => Some (b, [])
  | e :: es' =>
    '(b1, o1) ← ummu_mcmdq_batch_add b e;
    '(b2, o2) ← batch_adds b1 es';
    Some (b2, o1 ++ o2)
  end.

Definition batch_run (b : ummu_mcmdq_batch) (es : list ummu_mcmdq_ent) : option (list issue) :=
  '(b', out) ← batch_adds b es;
  Some (out ++ [ummu_mcmdq_batch_submit b']).

Definition batch_ok (b : ummu_mcmdq_batch) : Prop :=
  length (slots b) = MCMDQ_BATCH_ENTRIES /\ (num b <= MCMDQ_BATCH_ENTRIES)%nat.
Definition full_issue (i : issue) : Prop := wait i = false /\ length (cmds i) = MCMDQ_BATCH_ENTRIES.

Lemma batch_add_spec (b : ummu_mcmdq_batch) (e : ummu_mcmdq_ent) :
  batch_ok b -> is_Some (ummu_mcmdq_build_cmd e) ->
  exists b' out, ummu_mcmdq_batch_add b e = Some (b', out) /\ batch_ok b' /\
    Forall full_issue out /\
    concat (map cmds out) ++ take (num b') (slots b') = take (num b) (slots b) ++ built e.
Proof.
  intros [Hl Hn] [[ret c] Hb]. unfold ummu_mcmdq_batch_add, built. rewrite Hb.
  set (st := if bool_decide (num b = MCMDQ_BATCH_ENTRIES) then _ else _).
  assert (Hst : exists n out, st = (n, out) /\ (n < MCMDQ_BATCH_ENTRIES)%nat /\ Forall full_issue out /\
    concat (map cmds out) ++ take n (slots b) = take (num b) (slots b)).
  { unfold st. case_bool_decide as E; eexists _, _; (split; [done|]); unfold MCMDQ_BATCH_ENTRIES in *.
    - rewrite E. split_and!; [lia| |simpl; by rewrite !app_nil_r].
      constructor; [|done]. split; [done|]. simpl. rewrite length_take. unfold MCMDQ_BATCH_ENTRIES. lia.
    - split_and!; [lia|done|done]. }
  destruct Hst as (n & out & -> & Hlt & Hf & Hc). cbn [mbind option_bind].
  rewrite bool_decide_true by lia. unfold ctrue.
  destruct (Z.eqb_spec ret 0) as [->|Hr]; simpl.
  - eexists _, _. split; [done|]. unfold batch_ok. simpl. rewrite length_insert.
    split_and!; try lia; try done. rewrite (take_S_r _ _ c) by (apply list_lookup_insert_eq; lia).
    by rewrite take_insert_ge, app_assoc, Hc by lia.
  - eexists _, _. split; [done|]. unfold batch_ok. simpl. rewrite length_insert.
    split_and!; try lia; try done. rewrite take_insert_ge, Hc by lia.
    by destruct ret; rewrite ?app_nil_r.
Qed.

Lemma batch_adds_spec (es : list ummu_mcmdq_ent) : forall b,
  batch_ok b -> Forall (fun e => is_Some (ummu_mcmdq_build_cmd e)) es ->
  exists b' out, batch_adds b es = Some (b', out) /\ batch_ok b' /\ Forall full_issue out /\
    concat (map cmds out) ++ take (num b') (slots b') =
    take (num b) (slots b) ++ concat (map built es).
Proof.
  induction es as [|e es IH]; intros b Hb Hes; simpl.
  { exists b, []. by rewrite app_nil_r. }
  apply Forall_cons in Hes as [He Hes].
  destruct (batch_add_spec b e Hb He) as (b1 & o1 & -> & H1 & F1 & C1).
  destruct (IH b1 H1 Hes) as (b2 & o2 & E2 & H2 & F2 & C2). cbn [mbind option_bind].
  rewrite E2. cbn [mbind option_bind]. exists b2, (o1 ++ o2). split_and!; [done|done|by apply Forall_app|].
  rewrite map_app, concat_app, <- app_assoc, C2, app_assoc, C1, <- app_assoc. done.
Qed.

(** Batches lose nothing.  Adding entries to an empty batch and submitting it never
    writes outside the array of 32 commands, and the calls made to the queue carry exactly
    the commands that could be built, each once and in the order of the additions; every
    call but the last carries 32 of them and does not wait, and the last one waits. *)
Theorem ummu_batch_run_spec (b : ummu_mcmdq_batch) (es : list ummu_mcmdq_ent)
    (Hl : length (slots b) = MCMDQ_BATCH_ENTRIES) (Hn : num b = O)
    (Hes : Forall (fun e => is_Some (ummu_mcmdq_build_cmd e)) es) :
  exists out last, batch_run b es = Some (out ++ [last]) /\
    concat (map cmds (out ++ [last])) = concat (map built es) /\
    Forall full_issue out /\ wait last = true /\ (length (cmds last) <= MCMDQ_BATCH_ENTRIES)%nat.
Proof.
  destruct (batch_adds_spec es b) as (b' & out & E & Hb & F & C); [|done|].
  { split; [done|]. rewrite Hn. unfold MCMDQ_BATCH_ENTRIES. lia. }
  exists out, (ummu_mcmdq_batch_submit b'). unfold batch_run. rewrite E. cbn [mbind option_bind].
  split_and!; [done| |done|done|].
  - rewrite map_app, concat_app. simpl. rewrite app_nil_r, C, Hn. done.
  - simpl. rewrite length_take. destruct Hb. lia.
Qed.

Lemma ummu_batch_run_spec_witness : exists out last,
  batch_run {| slots := replicate 32 []; num := 0 |} (replicate 40 tlbi_ex) = Some (out ++ [last]) /\
  concat (map cmds (out ++ [last])) = replicate 40 [0x87f012340beef192; 0xffff800000007001; 0; 0].
Proof.
  destruct (ummu_batch_run_spec {| slots := replicate 32 []; num := 0 |} (replicate 40 tlbi_ex))
    as (out & last & E & C & _).
  - reflexivity.
  - reflexivity.
  - apply Forall_replicate. exists (0, [0x87f012340beef192; 0xffff800000007001; 0; 0]).
    vm_compute. reflexivity.
  - exists out, last. split; [exact E|]. rewrite C. vm_compute. reflexivity.
Defined.
