(* ===== verification/UmmuMcmdq.v ===== *)
(** * The shared command queue of the UMMU

    [ummu_mcmdq_issue_cmdlist] of [drivers/iommu/hisilicon/queue.c]: any number of CPUs put
    lists of commands on one ring without holding a lock, one of them at a time publishing
    the work of all, while the hardware consumes.  Every access to shared memory or to a
    register is one step of a transition system; the steps of the CPUs and of the hardware
    interleave in any order (sequential consistency; the barriers of the code, which make
    the weaker hardware behave so, are not modelled).

    The state carries history variables besides the program's: the number of entries ever
    allocated, published, consumed and so on, the commands in the order of their
    allocation and the commands the hardware fetched.  No step reads them. *)

From S2P Require Import Prelude UmmuQueue UmmuCmd.

Abbreviation word := (list Z).

Definition MCMDQ_PROD_OWNED_FLAG : Z := Q_OVERFLOW_FLAG.
Definition INT_MIN : Z := - 2 ^ 31.

(** ** Shared state *)

(** [struct ummu_mcmdq]: the two halves of [q.llq.val], the ring, [valid_map],
    [owner_prod], [lock] and the registers; then the history variables. *)
Record mcmdq := {
  q_prod : Z; q_cons : Z;
  ring : Z -> word;
  valid_map : vmap;
  owner_prod : Z;
  lock : Z;
  hw_prod : Z; hw_cons : Z;
  (* history *)
  n_alloc : Z;       (* entries allocated *)
  n_freed : Z;       (* entries known to be consumed: the position of [q_cons] *)
  n_pub : Z;         (* entries published: the position of [hw_prod] *)
  n_done : Z;        (* entries consumed: the position of [hw_cons] *)
  n_own : Z;         (* the position of [owner_prod] *)
  n_close : Z;       (* the end of the last range an owner closed *)
  log : Z -> word;   (* the command allocated at a position *)
  resp : Z -> word;  (* the slot of a position once the hardware is done with it *)
  fetched : list word;
}.

(** A call: the commands and whether to wait for them. *)
Record call := { c_cmds : list word; c_sync : bool }.
Definition size (c : call) : Z := Z.of_nat (length (c_cmds c)) + Z.b2z (c_sync c).

(** The local variables of a call once it has its slots: [llq.prod] and [head.prod] without
    the flag, and the position of the first slot (history). *)
Record local := { l_call : call; l_prod : Z; l_head : Z; l_owner : bool; l_pos : Z }.
Definition l_end (l : local) : Z := l_pos l + size (l_call l).

(** A value read from a consumer register, with its position (history). *)
Record rd := { rv : Z; rg : Z }.

(** Where a CPU is in the code. *)
Inductive phase :=
  | Idle
  | Load (c : call)
  | Alloc (c : call) (prod cons : Z)
  | NotFull (c : call)
  | ExclRead (c : call)
  | ExclWrite (c : call) (r : rd)
  | ExclUnlock (c : call)
  | ExclReload (c : call)
  | Spin (c : call)
  | Writing (l : local) (i : Z)
  | Lock (l : local)
  | LockWait (l : local)
  | LockCas (l : local) (val : Z)
  | Valid (l : local) (p : Z)
  | OwnWait (l : local)
  | OwnClear (l : local)
  | OwnPoll (l : local) (prod p : Z)
  | OwnPub (l : local) (prod : Z)
  | OwnDone (l : local) (prod : Z)
  | SyncLoad (l : local)
  | SyncPoll (l : local) (r : rd)
  | SyncRead (l : local) (timeout : bool)
  | MsiPoll (l : local)
  | MsiRead (l : local)
  | CheckPa (l : local) (r : rd) (ok : bool)
  | TryUnlock (l : local) (r : rd) (ok : bool) (ret : Z)
  | UpdCons (l : local) (r : rd) (ok : bool) (ret : Z)
  | Unlock (l : local) (ok : bool) (ret : Z)
  | Done (l : local) (ok : bool) (ret : Z).

Abbreviation system := (mcmdq * list phase)%type.

Definition check_pa_continuity_nop_exec (e : word) : Z :=
  let cmd := hd 0 e in
  if (FIELD_GET CMD_0_OP cmd =? CMD_NULL_OP) &&
     (FIELD_GET CMD_NULL_OP_SUB_OP cmd =? SUB_CMD_NULL_CHECK_PA_CONTINUITY) then
    if ctrue (FIELD_GET SUB_OP_CHECK_PA_CONTI_0_RESULT cmd) then - ENOSPC
    else if (FIELD_GET SUB_OP_CHECK_PA_CONTI_0_FLAG cmd =? 1) &&
            negb (FIELD_GET SUB_OP_CHECK_PA_CONTI_0_ID cmd =? 0) then - ERANGE
    else 0
  else 0.

(** ** The code of a CPU *)

Section Code.
(** The size of the queue, the options [UMMU_OPT_MSIPOLL] and [UMMU_FEAT_SEV], the address
    of the ring and the bits [mcmdq_prod] of the producer register. *)
Context (n : Z) (msipoll sev : bool) (base_pa mcmdq_prod : Z).

Definition llq_of (p c : Z) : ummu_ll_queue := {| prod := p; cons := c; log2size := n |}.

Definition ummu_mcmdq_build_sync_cmd (p : Z) : word :=
  let msi_addr := if msipoll then u64 (base_pa + Q_IDX (llq_of 0 0) p * 32) else 0 in
  match ummu_mcmdq_build_cmd {| opcode := CMD_SYNC; member := sync msi_addr sev |} with
  | Some (_, c) => c
  | None => []
  end.

Definition clear_owned (p : Z) : Z := Z.land p (Z.lnot MCMDQ_PROD_OWNED_FLAG).
Definition is_owned (p : Z) : bool := ctrue (Z.land p MCMDQ_PROD_OWNED_FLAG).

(** The command of slot [i] of a call, [sync] last. *)
Definition entry (l : local) (i : Z) : word :=
  match c_cmds (l_call l) !! Z.to_nat i with
  | Some c => c
  | None => ummu_mcmdq_build_sync_cmd (ummu_queue_inc_prod_n (llq_of (l_prod l) 0) i)
  end.

(** Updates of the shared state. *)
Definition upd_ring (r : Z -> word) (i : Z) (e : word) : Z -> word :=
  fun j => if j =? i then e else r j.

Definition set_lock (s : mcmdq) (v : Z) : mcmdq :=
  {| q_prod := q_prod s; q_cons := q_cons s; ring := ring s; valid_map := valid_map s;
     owner_prod := owner_prod s; lock := v; hw_prod := hw_prod s; hw_cons := hw_cons s;
     n_alloc := n_alloc s; n_freed := n_freed s; n_pub := n_pub s; n_done := n_done s;
     n_own := n_own s; n_close := n_close s; log := log s; resp := resp s; fetched := fetched s |}.

Definition set_qcons (s : mcmdq) (r : rd) : mcmdq :=
  {| q_prod := q_prod s; q_cons := rv r; ring := ring s; valid_map := valid_map s;
     owner_prod := owner_prod s; lock := lock s; hw_prod := hw_prod s; hw_cons := hw_cons s;
     n_alloc := n_alloc s; n_freed := rg r; n_pub := n_pub s; n_done := n_done s;
     n_own := n_own s; n_close := n_close s; log := log s; resp := resp s; fetched := fetched s |}.

(** A successful [cmpxchg] of [q.llq.val]: the history records the commands of the call. *)
Definition take_slots (s : mcmdq) (p c : Z) (l : local) : mcmdq :=
  {| q_prod := p; q_cons := c; ring := ring s; valid_map := valid_map s;
     owner_prod := owner_prod s; lock := lock s; hw_prod := hw_prod s; hw_cons := hw_cons s;
     n_alloc := n_alloc s + size (l_call l); n_freed := n_freed s; n_pub := n_pub s;
     n_done := n_done s; n_own := n_own s; n_close := n_close s;
     log := fun X => if n_alloc s <=? X then entry l (X - n_alloc s) else log s X;
     resp := resp s; fetched := fetched s |}.

Definition set_ring (s : mcmdq) (r : Z -> word) : mcmdq :=
  {| q_prod := q_prod s; q_cons := q_cons s; ring := r; valid_map := valid_map s;
     owner_prod := owner_prod s; lock := lock s; hw_prod := hw_prod s; hw_cons := hw_cons s;
     n_alloc := n_alloc s; n_freed := n_freed s; n_pub := n_pub s; n_done := n_done s;
     n_own := n_own s; n_close := n_close s; log := log s; resp := resp s; fetched := fetched s |}.

Definition set_map (s : mcmdq) (m : vmap) : mcmdq :=
  {| q_prod := q_prod s; q_cons := q_cons s; ring := ring s; valid_map := m;
     owner_prod := owner_prod s; lock := lock s; hw_prod := hw_prod s; hw_cons := hw_cons s;
     n_alloc := n_alloc s; n_freed := n_freed s; n_pub := n_pub s; n_done := n_done s;
     n_own := n_own s; n_close := n_close s; log := log s; resp := resp s; fetched := fetched s |}.

(** [atomic_fetch_andnot] of the flag: the range that ends here is closed. *)
Definition close_range (s : mcmdq) : mcmdq :=
  {| q_prod := clear_owned (q_prod s); q_cons := q_cons s; ring := ring s; valid_map := valid_map s;
     owner_prod := owner_prod s; lock := lock s; hw_prod := hw_prod s; hw_cons := hw_cons s;
     n_alloc := n_alloc s; n_freed := n_freed s; n_pub := n_pub s; n_done := n_done s;
     n_own := n_own s; n_close := n_alloc s; log := log s; resp := resp s; fetched := fetched s |}.

Definition publish (s : mcmdq) (p : Z) : mcmdq :=
  {| q_prod := q_prod s; q_cons := q_cons s; ring := ring s; valid_map := valid_map s;
     owner_prod := owner_prod s; lock := lock s; hw_prod := Z.lor p mcmdq_prod;
     hw_cons := hw_cons s; n_alloc := n_alloc s; n_freed := n_freed s; n_pub := n_close s;
     n_done := n_done s; n_own := n_own s; n_close := n_close s; log := log s; resp := resp s;
     fetched := fetched s |}.

Definition set_owner (s : mcmdq) (p : Z) : mcmdq :=
  {| q_prod := q_prod s; q_cons := q_cons s; ring := ring s; valid_map := valid_map s;
     owner_prod := p; lock := lock s; hw_prod := hw_prod s; hw_cons := hw_cons s;
     n_alloc := n_alloc s; n_freed := n_freed s; n_pub := n_pub s; n_done := n_done s;
     n_own := n_close s; n_close := n_close s; log := log s; resp := resp s; fetched := fetched s |}.

(** After the slots are marked valid: the owner publishes, the others may wait. *)
Definition after_owner (l : local) : phase :=
  if c_sync (l_call l) then (if msipoll then MsiPoll l else SyncLoad l) else Done l false 0.
Definition after_valid (l : local) : phase := if l_owner l then OwnWait l else after_owner l.

(** The pointer of the [CMD_SYNC] of a call. *)
Definition sync_prod (l : local) : Z :=
  ummu_queue_inc_prod_n (llq_of (l_prod l) 0) (Z.of_nat (length (c_cmds (l_call l)))).

(** The steps of each function; [None] while the CPU has to wait (and at the program points
    of other functions).  [late] is whether a poll finds its time elapsed. *)
Abbreviation outcome := (option (mcmdq * phase)).

(** The loop that allocates slots. *)
Definition alloc_slots (s : mcmdq) (ph : phase) : outcome :=
  match ph with
  | Load c => Some (s, Alloc c (q_prod s) (q_cons s))
  | Alloc c p cn =>
    let llq := llq_of p cn in
    if negb (ummu_queue_has_space llq (size c)) then Some (s, NotFull c)
    else
      let head := Z.lor (ummu_queue_inc_prod_n llq (size c)) MCMDQ_PROD_OWNED_FLAG in
      if (q_prod s =? p) && (q_cons s =? cn) then
        let l := {| l_call := c; l_prod := clear_owned p; l_head := clear_owned head;
                    l_owner := negb (is_owned p); l_pos := n_alloc s |} in
        Some (take_slots s head cn l, Writing l 0)
      else Some (s, Alloc c (q_prod s) (q_cons s))
  | _ => None
  end.

Definition ummu_mcmdq_poll_until_not_full (late : bool) (s : mcmdq) (ph : phase) : outcome :=
  match ph with
  | NotFull c => if lock s =? 0 then Some (set_lock s INT_MIN, ExclRead c) else Some (s, Spin c)
  | ExclRead c => Some (s, ExclWrite c {| rv := hw_cons s; rg := n_done s |})
  | ExclWrite c r => Some (set_qcons s r, ExclUnlock c)
  | ExclUnlock c => Some (set_lock s 0, ExclReload c)
  | ExclReload c => Some (s, Alloc c (q_prod s) (q_cons s))
  | Spin c =>
    let llq := llq_of (q_prod s) (q_cons s) in
    if ummu_queue_full llq && negb late then Some (s, Spin c)
    else Some (s, Alloc c (q_prod s) (q_cons s))
  | _ => None
  end.

(** [ummu_mcmdq_write_entries], then the [CMD_SYNC]. *)
Definition ummu_mcmdq_write_entries (s : mcmdq) (ph : phase) : outcome :=
  match ph with
  | Writing l i =>
    if i <? size (l_call l) then
      let p := ummu_queue_inc_prod_n (llq_of (l_prod l) 0) i in
      Some (set_ring s (upd_ring (ring s) (Q_IDX (llq_of 0 0) p) (entry l i)), Writing l (i + 1))
    else Some (s, if c_sync (l_call l) then Lock l else Valid l (l_prod l))
  | _ => None
  end.

Definition ummu_mcmdq_shared_lock (s : mcmdq) (ph : phase) : outcome :=
  match ph with
  | Lock l =>
    Some (set_lock s (s32 (lock s + 1)), if 0 <=? lock s then Valid l (l_prod l) else LockWait l)
  | LockWait l => if 0 <=? lock s then Some (s, LockCas l (lock s)) else None
  | LockCas l val =>
    if lock s =? val then Some (set_lock s (s32 (val + 1)), Valid l (l_prod l))
    else Some (s, LockWait l)
  | _ => None
  end.

(** [ummu_mcmdq_set_valid_map], one word at a time. *)
Definition mark_valid (s : mcmdq) (ph : phase) : outcome :=
  match ph with
  | Valid l p =>
    if p =? l_head l then Some (s, after_valid l)
    else Some (set_map s (set_chunk (valid_map s) (llq_of p 0) (l_head l)),
               Valid l (chunk_next (llq_of p 0) (l_head l)))
  | _ => None
  end.

(** The owner waits for the previous one, closes its range, polls the valid map, writes the
    register and hands over. *)
Definition owner_publish (s : mcmdq) (ph : phase) : outcome :=
  match ph with
  | OwnWait l => if owner_prod s =? l_prod l then Some (s, OwnClear l) else None
  | OwnClear l => Some (close_range s, OwnPoll l (clear_owned (q_prod s)) (l_prod l))
  | OwnPoll l p x =>
    if x =? p then Some (s, OwnPub l p)
    else if chunk_valid (valid_map s) (llq_of x 0) p
      then Some (s, OwnPoll l p (chunk_next (llq_of x 0) p)) else None
  | OwnPub l p => Some (publish s p, OwnDone l p)
  | OwnDone l p => Some (set_owner s p, after_owner l)
  | _ => None
  end.

Definition ummu_mcmdq_poll_until_consumed (late : bool) (s : mcmdq) (ph : phase) : outcome :=
  match ph with
  | SyncLoad l => Some (s, SyncPoll l {| rv := q_cons s; rg := n_freed s |})
  | SyncPoll l r =>
    if ummu_queue_consumed (llq_of 0 (rv r)) (sync_prod l) then Some (s, CheckPa l r true)
    else Some (s, SyncRead l late)
  | SyncRead l timeout =>
    let r := {| rv := hw_cons s; rg := n_done s |} in
    Some (s, if timeout then CheckPa l r false else SyncPoll l r)
  | _ => None
  end.

Definition ummu_mcmdq_poll_until_msi (late : bool) (s : mcmdq) (ph : phase) : outcome :=
  match ph with
  | MsiPoll l =>
    if Z.land (hd 0 (ring s (Q_IDX (llq_of 0 0) (sync_prod l)))) (2 ^ 32 - 1) =? 0 then
      Some (s, CheckPa l {| rv := ummu_queue_inc_prod_n (llq_of (sync_prod l) 0) 1;
                            rg := l_end l |} true)
    else if late then Some (s, MsiRead l) else Some (s, MsiPoll l)
  | MsiRead l => Some (s, CheckPa l {| rv := hw_cons s; rg := n_done s |} false)
  | _ => None
  end.

Definition ummu_mcmdq_shared_tryunlock (s : mcmdq) (ph : phase) : outcome :=
  match ph with
  | TryUnlock l r ok ret =>
    if lock s =? 1 then Some (s, UpdCons l r ok ret) else Some (s, Unlock l ok ret)
  | _ => None
  end.
Definition ummu_mcmdq_shared_unlock (s : mcmdq) (ph : phase) : outcome :=
  match ph with
  | Unlock l ok ret => Some (set_lock s (s32 (lock s - 1)), Done l ok ret)
  | _ => None
  end.

(** [ummu_mcmdq_issue_cmdlist]: one step of a CPU. *)
Definition tstep (late : bool) (s : mcmdq) (ph : phase) : outcome :=
  match ph with
  | Idle | Done _ _ _ => None
  (* 1. allocate some space in the queue *)
  | Load _ | Alloc _ _ _ => alloc_slots s ph
  | NotFull _ | ExclRead _ | ExclWrite _ _ | ExclUnlock _ | ExclReload _ | Spin _ =>
    ummu_mcmdq_poll_until_not_full late s ph
  (* 2. write our commands into the queue *)
  | Writing _ _ => ummu_mcmdq_write_entries s ph
  | Lock _ | LockWait _ | LockCas _ _ => ummu_mcmdq_shared_lock s ph
  (* 3. mark our slots as valid *)
  | Valid _ _ => mark_valid s ph
  (* 4. the owner takes control of the hardware *)
  | OwnWait _ | OwnClear _ | OwnPoll _ _ _ | OwnPub _ _ | OwnDone _ _ => owner_publish s ph
  (* 5. wait for the CMD_SYNC *)
  | SyncLoad _ | SyncPoll _ _ | SyncRead _ _ => ummu_mcmdq_poll_until_consumed late s ph
  | MsiPoll _ | MsiRead _ => ummu_mcmdq_poll_until_msi late s ph
  | CheckPa l r ok =>
    let e := ring s (Q_IDX (llq_of 0 0) (l_prod l)) in
    Some (s, TryUnlock l r ok (check_pa_continuity_nop_exec e))
  | TryUnlock _ _ _ _ => ummu_mcmdq_shared_tryunlock s ph
  | UpdCons l r ok ret => Some (set_qcons s r, Unlock l ok ret)
  | Unlock _ _ _ => ummu_mcmdq_shared_unlock s ph
  end.

(** ** The system *)

(** The hardware consumes the entry at its consumer register while that differs from the
    producer register: it fetches the slot, may write a result or a completion into it,
    and advances the register, whose other bits it sets as it likes. *)
Definition hw_ready (s : mcmdq) : Prop := ~ cong n (hw_cons s) (hw_prod s).
Definition hw_fetch (s : mcmdq) (v : Z) (e : word) : mcmdq :=
  let i := Q_IDX (llq_of 0 0) (hw_cons s) in
  {| q_prod := q_prod s; q_cons := q_cons s; ring := upd_ring (ring s) i e;
     valid_map := valid_map s; owner_prod := owner_prod s; lock := lock s;
     hw_prod := hw_prod s; hw_cons := v;
     n_alloc := n_alloc s; n_freed := n_freed s; n_pub := n_pub s; n_done := n_done s + 1;
     n_own := n_own s; n_close := n_close s; log := log s;
     resp := fun X => if X =? n_done s then e else resp s X;
     fetched := fetched s ++ [ring s i] |}.

Inductive step : system -> system -> Prop :=
  | step_start s ths i ph c :
      ths !! i = Some ph -> (ph = Idle \/ exists l ok ret, ph = Done l ok ret) -> 1 <= size c ->
      step (s, ths) (s, <[i := Load c]> ths)
  | step_cpu s ths i ph late s' ph' :
      ths !! i = Some ph -> tstep late s ph = Some (s', ph') -> step (s, ths) (s', <[i := ph']> ths)
  | step_hw s ths v e :
      hw_ready s -> cong n v (hw_cons s + 1) -> step (s, ths) (hw_fetch s v e, ths).

(** After [ummu_mcmdq_init]: an empty queue and idle CPUs. *)
Definition init_mcmdq (r : Z -> word) : mcmdq :=
  {| q_prod := 0; q_cons := 0; ring := r; valid_map := fun _ => 0; owner_prod := 0; lock := 0;
     hw_prod := mcmdq_prod; hw_cons := 0; n_alloc := 0; n_freed := 0; n_pub := 0; n_done := 0;
     n_own := 0; n_close := 0; log := fun _ => []; resp := fun _ => []; fetched := [] |}.

Inductive reachable : system -> Prop :=
  | reach_init r k : Z.of_nat k < 2 ^ 31 - 1 -> reachable (init_mcmdq r, replicate k Idle)
  | reach_step x y : reachable x -> step x y -> reachable y.

(** ** The invariant *)

Context (Hn6 : 6 <= n <= 30) (Hen : cong n mcmdq_prod 0).

Abbreviation cap := (2 ^ n).

(** The bit of position [X] says that it is, or is not yet, valid. *)
Definition valid (s : mcmdq) (X : Z) : Prop :=
  vbit (valid_map s) (X mod cap) = negb (Z.testbit X n).
Definition unmarked (s : mcmdq) (X : Z) : Prop := vbit (valid_map s) (X mod cap) = Z.testbit X n.

(** What the slot of a written position holds. *)
Definition content (s : mcmdq) (X : Z) : word := if X <? n_done s then resp s X else log s X.

Definition flag (s : mcmdq) : bool := is_owned (q_prod s).

Record ginv (s : mcmdq) : Prop := {
  gi_order : 0 <= n_freed s <= n_done s /\ n_done s <= n_pub s <= n_alloc s /\
             n_alloc s <= n_freed s + cap;
  gi_own : n_own s <= n_pub s /\ n_own s <= n_close s <= n_alloc s /\ n_close s <= n_own s + cap;
  gi_pub : n_pub s = n_own s \/ n_pub s = n_close s;
  gi_prod : q_prod s = ptr n (flag s) (n_alloc s);
  gi_cons : cong n (q_cons s) (n_freed s);
  gi_owner : owner_prod s = ptr n false (n_own s);
  gi_hwp : cong n (hw_prod s) (n_pub s);
  gi_hwc : cong n (hw_cons s) (n_done s);
  gi_valid : forall X, n_alloc s - cap <= X < n_pub s -> valid s X;
  gi_ring : forall X, n_freed s <= X < n_alloc s -> valid s X -> ring s (X mod cap) = content s X;
  gi_fetched : fetched s = map (log s) (seqZ 0 (n_done s));
  gi_closed : flag s = false -> n_alloc s = n_close s;
}.

(** The local variables of a call, given the number of slots and the commands allocated. *)
Record slots_ok (na : Z) (lg : Z -> word) (l : local) : Prop := {
  lo_pos : 0 <= l_pos l < l_end l;
  lo_end : l_end l <= na;
  lo_size : l_end l <= l_pos l + cap;
  lo_prod : l_prod l = ptr n false (l_pos l);
  lo_head : l_head l = ptr n false (l_end l);
  lo_log : forall X, l_pos l <= X < l_end l -> lg X = entry l (X - l_pos l);
}.
Definition local_ok (s : mcmdq) (l : local) : Prop := slots_ok (n_alloc s) (log s) l.

(** The owner of the range that is still open. *)
Definition gath (s : mcmdq) (l : local) : Prop :=
  l_owner l = true -> l_pos l = n_close s /\ flag s = true.
(** Slots from [X] on are not published and hold the commands of the call; those before
    it may be marked already. *)
Definition pend (s : mcmdq) (l : local) (X : Z) : Prop :=
  (X < l_end l -> n_pub s <= X) /\ (forall Y, X <= Y < l_end l -> unmarked s Y).
Definition wrote (s : mcmdq) (a b : Z) : Prop :=
  forall Y, a <= Y < b -> ring s (Y mod cap) = log s Y.
(** A holder of the shared lock: its slots cannot be reused. *)
Definition held (s : mcmdq) (l : local) (X : Z) : Prop :=
  c_sync (l_call l) = true ->
  n_freed s <= l_pos l /\ (forall Y, l_pos l <= Y < X -> valid s Y).
(** The owner that closed its range. *)
Definition closing (s : mcmdq) (l : local) (p : Z) : Prop :=
  l_pos l = n_own s /\ p = ptr n false (n_close s) /\ n_own s < n_close s.
Definition rd_ok (s : mcmdq) (l : local) (r : rd) (ok : bool) : Prop :=
  cong n (rv r) (rg r) /\ n_freed s <= rg r <= n_done s /\ (ok = true -> l_end l <= rg r).
(** What a call that saw its completion returns. *)
Definition ret_ok (s : mcmdq) (l : local) (ok : bool) (ret : Z) : Prop :=
  ok = true -> l_end l <= n_done s /\ ret = check_pa_continuity_nop_exec (resp s (l_pos l)).

Definition tinv (s : mcmdq) (ph : phase) : Prop :=
  match ph with
  | Idle => True
  | Load c | Alloc c _ _ | NotFull c | ExclRead c | ExclUnlock c | ExclReload c | Spin c =>
    1 <= size c
  | ExclWrite c r => 1 <= size c /\ cong n (rv r) (rg r) /\ n_freed s <= rg r <= n_done s
  | Writing l i =>
    local_ok s l /\ gath s l /\ pend s l (l_pos l) /\ 0 <= i <= size (l_call l) /\
    wrote s (l_pos l) (l_pos l + i)
  | Lock l | LockWait l =>
    local_ok s l /\ gath s l /\ pend s l (l_pos l) /\ wrote s (l_pos l) (l_end l) /\
    c_sync (l_call l) = true
  | LockCas l val =>
    local_ok s l /\ gath s l /\ pend s l (l_pos l) /\ wrote s (l_pos l) (l_end l) /\
    c_sync (l_call l) = true /\ 0 <= val
  | Valid l p =>
    local_ok s l /\ gath s l /\
    exists X, p = ptr n false X /\ l_pos l <= X <= l_end l /\ pend s l X /\
      wrote s X (l_end l) /\ held s l X
  | OwnWait l => local_ok s l /\ gath s l /\ l_owner l = true /\ held s l (l_end l)
  | OwnClear l =>
    local_ok s l /\ gath s l /\ l_owner l = true /\ held s l (l_end l) /\ n_own s = l_pos l
  | OwnPoll l p x =>
    local_ok s l /\ held s l (l_end l) /\ closing s l p /\ n_pub s = n_own s /\
    exists X, x = ptr n false X /\ l_pos l <= X <= n_close s /\
      (forall Y, l_pos l <= Y < X -> valid s Y)
  | OwnPub l p =>
    local_ok s l /\ held s l (l_end l) /\ closing s l p /\ n_pub s = n_own s /\
    (forall Y, l_pos l <= Y < n_close s -> valid s Y)
  | OwnDone l p => local_ok s l /\ held s l (l_end l) /\ closing s l p /\ n_pub s = n_close s
  | SyncLoad l | SyncRead l _ | MsiPoll l | MsiRead l =>
    local_ok s l /\ held s l (l_end l) /\ c_sync (l_call l) = true
  | SyncPoll l r =>
    local_ok s l /\ held s l (l_end l) /\ c_sync (l_call l) = true /\
    cong n (rv r) (rg r) /\ l_end l - cap <= rg r <= n_done s
  | CheckPa l r ok =>
    local_ok s l /\ held s l (l_end l) /\ c_sync (l_call l) = true /\ rd_ok s l r ok
  | TryUnlock l r ok ret | UpdCons l r ok ret =>
    local_ok s l /\ held s l (l_end l) /\ c_sync (l_call l) = true /\ rd_ok s l r ok /\
    ret_ok s l ok ret
  | Unlock l ok ret => local_ok s l /\ c_sync (l_call l) = true /\ ret_ok s l ok ret
  | Done l ok ret => local_ok s l /\ ret_ok s l ok ret
  end.

(** The slots a CPU has. *)
Definition slots_of (ph : phase) : option local :=
  match ph with
  | Writing l _ | Lock l | LockWait l | LockCas l _ | Valid l _ | OwnWait l | OwnClear l
  | OwnPoll l _ _ | OwnPub l _ | OwnDone l _ | SyncLoad l | SyncPoll l _ | SyncRead l _
  | MsiPoll l | MsiRead l | CheckPa l _ _ | TryUnlock l _ _ _ | UpdCons l _ _ _
  | Unlock l _ _ => Some l
  | _ => None
  end.

(** Exclusive holders, waiters and shared holders of the lock. *)
Definition excl (ph : phase) : bool :=
  match ph with ExclRead _ | ExclWrite _ _ | ExclUnlock _ => true | _ => false end.
Definition waiter (ph : phase) : bool :=
  match ph with LockWait _ | LockCas _ _ => true | _ => false end.
Definition holder (ph : phase) : bool :=
  match ph with
  | Valid l _ | OwnWait l | OwnClear l | OwnPoll l _ _ | OwnPub l _ | OwnDone l _
  | SyncLoad l | SyncPoll l _ | SyncRead l _ | MsiPoll l | MsiRead l | CheckPa l _ _
  | TryUnlock l _ _ _ | UpdCons l _ _ _ | Unlock l _ _ => c_sync (l_call l)
  | _ => false
  end.

(** The register value a call is about to store, if it stores one. *)
Definition rd_of (ph : phase) : option rd :=
  match ph with
  | CheckPa _ r _ | TryUnlock _ r _ _ | UpdCons _ r _ _ => Some r
  | _ => None
  end.

(** Two CPUs: their slots are disjoint, and a consumer value that one is about to store
    does not pass the slots of a holder nor a value read later. *)
Definition pinv (a b : phase) : Prop :=
  (forall la lb, slots_of a = Some la -> slots_of b = Some lb ->
     l_end la <= l_pos lb \/ l_end lb <= l_pos la) /\
  (forall l r ok ret, a = UpdCons l r ok ret -> holder b = true ->
     (forall lb, slots_of b = Some lb -> (forall ok' ret', b <> Unlock lb ok' ret') -> rg r <= l_pos lb) /\
     (forall r', rd_of b = Some r' -> rg r <= rg r')).

Definition count (f : phase -> bool) (ths : list phase) : Z :=
  zsum (map (fun ph => Z.b2z (f ph)) ths).

Record linv (s : mcmdq) (ths : list phase) : Prop := {
  li_len : Z.of_nat (length ths) < 2 ^ 31 - 1;
  li_shared : 0 <= lock s -> count excl ths = 0 /\ lock s = count holder ths;
  li_excl : lock s < 0 -> count excl ths = 1 /\ count holder ths = 0 /\
            INT_MIN <= lock s <= INT_MIN + count waiter ths;
}.

Record inv (x : system) : Prop := {
  in_g : ginv x.1;
  in_t : forall i ph, x.2 !! i = Some ph -> tinv x.1 ph;
  in_p : forall i j a b, i <> j -> x.2 !! i = Some a -> x.2 !! j = Some b -> pinv a b;
  in_l : linv x.1 x.2;
}.

(** ** Pointers, slots and counts *)

Lemma cap_pos : 64 <= cap.
Proof. change 64 with (2 ^ 6). apply Z.pow_le_mono_r; lia. Qed.

Lemma size_n : size_ok n.
Proof. unfold size_ok. lia. Qed.

Lemma owned_ptr (f : bool) (P : Z) : is_owned (ptr n f P) = f.
Proof.
  unfold is_owned. change (Z.land _ _) with (Q_OVF (ptr n f P)). rewrite ptr_ovf by apply size_n.
  by destruct f.
Qed.

Lemma ptr_bit31 (f : bool) (P : Z) : Z.testbit (ptr n f P) 31 = f.
Proof.
  unfold ptr. rewrite Z.lor_spec, Z.mod_pow2_bits_high, orb_false_r by lia.
  by destruct f.
Qed.

Lemma clear_ptr (f : bool) (P : Z) : clear_owned (ptr n f P) = ptr n false P.
Proof.
  unfold clear_owned. apply Z.bits_inj'. intros k Hk. rewrite Z.land_spec, Z.lnot_spec by done.
  unfold MCMDQ_PROD_OWNED_FLAG, Q_OVERFLOW_FLAG. rewrite Z.shiftl_1_l.
  destruct (decide (k = 31)) as [->|].
  - by rewrite Z.pow2_bits_true, andb_false_r, ptr_bit31 by lia.
  - rewrite Z.pow2_bits_false, andb_true_r by lia. unfold ptr. rewrite !Z.lor_spec.
    destruct f; [|done]. unfold Q_OVERFLOW_FLAG. by rewrite Z.shiftl_1_l, Z.pow2_bits_false, Z.bits_0 by lia.
Qed.

Lemma own_ptr (f : bool) (P : Z) : Z.lor (ptr n f P) MCMDQ_PROD_OWNED_FLAG = ptr n true P.
Proof.
  unfold ptr. rewrite Z.lor_comm, Z.lor_assoc. f_equal. by destruct f.
Qed.

Lemma idx_llq (f : bool) (p c X : Z) : Q_IDX (llq_of p c) (ptr n f X) = X mod cap.
Proof. apply (idx_ptr (llq_of p c)), size_n. Qed.

Lemma inc_llq (f : bool) (c X k : Z) : 0 <= k <= 2 ^ 31 ->
  ummu_queue_inc_prod_n (llq_of (ptr n f X) c) k = ptr n f (X + k).
Proof. intros Hk. apply (advance_ptr (llq_of (ptr n f X) c)); [apply size_n|done]. Qed.

(** Two positions less than a lap apart have different slots. *)
Lemma slot_neq (X Y : Z) : X <> Y -> - cap < X - Y < cap -> X mod cap <> Y mod cap.
Proof.
  intros Hne Hd E. pose proof cap_pos.
  pose proof (Z.div_mod X cap ltac:(lia)) as HX. pose proof (Z.div_mod Y cap ltac:(lia)) as HY.
  rewrite E in HX. set (a := X / cap) in *. set (b := Y / cap) in *. clearbody a b.
  assert (X - Y = cap * (a - b)) as Hm by lia. assert (a - b = 0) by nia. lia.
Qed.

Lemma covered_pos (X len Y : Z) : 0 <= len <= cap -> X + len - cap <= Y < X + cap ->
  covered n X (X + len) (Y mod cap) = (X <=? Y) && (Y <? X + len).
Proof.
  intros Hl HY. pose proof cap_pos. unfold covered. rewrite Zminus_mod_idemp_l.
  replace (X + len - X) with len by lia. destruct (Z.leb_spec X Y); simpl.
  - rewrite Z.mod_small by lia. destruct (Z.ltb_spec (Y - X) len), (Z.ltb_spec Y (X + len)); done || lia.
  - rewrite <- (Z_mod_plus_full _ 1), Z.mod_small by lia.
    destruct (Z.ltb_spec (Y - X + 1 * cap) len); done || lia.
Qed.

Lemma zsum_insert (f : phase -> Z) (ths : list phase) : forall i ph ph',
  ths !! i = Some ph ->
  zsum (map f (<[i := ph']> ths)) = zsum (map f ths) - f ph + f ph'.
Proof.
  induction ths as [|x ths IH]; intros [|i] ph ph' H; simpl in *; try done.
  - injection H as ->. unfold zsum. simpl. lia.
  - unfold zsum in *. simpl. rewrite (IH i ph ph' H). lia.
Qed.

Lemma count_insert (f : phase -> bool) (ths : list phase) i ph ph' : ths !! i = Some ph ->
  count f (<[i := ph']> ths) = count f ths - Z.b2z (f ph) + Z.b2z (f ph').
Proof. intros H. unfold count. by rewrite (zsum_insert (fun ph => Z.b2z (f ph)) _ _ ph). Qed.

Lemma users_range (f : phase -> bool) (ths : list phase) :
  0 <= count f ths <= Z.of_nat (length ths).
Proof.
  unfold count, zsum. induction ths as [|x ths IH]; cbn [map foldr length]; [lia|].
  rewrite Nat2Z.inj_succ. destruct (f x); simpl Z.b2z; lia.
Qed.

Lemma count_zero (f : phase -> bool) (ths : list phase) : forall i ph,
  count f ths = 0 -> ths !! i = Some ph -> f ph = false.
Proof.
  induction ths as [|x ths IH]; intros [|i] ph H0 Hi; try done; simpl in Hi;
    pose proof (users_range f ths); unfold count, zsum in *; cbn [map foldr] in H0.
  - injection Hi as ->. destruct (f ph); simpl Z.b2z in *; [lia|done].
  - apply (IH i); [|done]. destruct (f x); simpl Z.b2z in *; lia.
Qed.

Lemma count_one (f : phase -> bool) (ths : list phase) i j a b :
  f Idle = false -> count f ths = 1 -> i <> j -> ths !! i = Some a -> f a = true ->
  ths !! j = Some b -> f b = false.
Proof.
  intros HI H1 Hij Ha Hfa Hb. pose proof (count_insert f ths i a Idle Ha) as Hc.
  rewrite Hfa, HI, H1 in Hc. simpl Z.b2z in Hc.
  apply (count_zero f (<[i := Idle]> ths) j); [lia|]. by rewrite list_lookup_insert_ne.
Qed.

Lemma count_pos (f : phase -> bool) (ths : list phase) i a :
  f Idle = false -> ths !! i = Some a -> f a = true -> 1 <= count f ths.
Proof.
  intros HI Ha Hfa. pose proof (count_insert f ths i a Idle Ha) as Hc.
  pose proof (users_range f (<[i := Idle]> ths)). rewrite Hfa, HI in Hc. simpl Z.b2z in Hc. lia.
Qed.

(** ** Steps *)

(** What has to be shown of a step of CPU [i]. *)
Lemma inv_update s ths i ph s' ph' :
  inv (s, ths) -> ths !! i = Some ph -> ginv s' -> tinv s' ph' ->
  (forall j b, j <> i -> ths !! j = Some b -> tinv s b -> pinv ph b -> pinv b ph -> tinv s' b) ->
  (forall j b, j <> i -> ths !! j = Some b -> tinv s b -> pinv ph b -> pinv b ph ->
     pinv ph' b /\ pinv b ph') ->
  linv s' (<[i := ph']> ths) -> inv (s', <[i := ph']> ths).
Proof.
  intros [Hg Ht Hp Hl] Hi Hg' Ht' Hframe Hpair Hl'. simpl in *.
  assert (Hlt : (i < length ths)%nat) by (by eapply lookup_lt_Some).
  constructor; simpl; try done.
  - intros j b Hb. destruct (decide (j = i)) as [->|Hne].
    + rewrite list_lookup_insert_eq in Hb by done. by injection Hb as <-.
    + rewrite list_lookup_insert_ne in Hb by done.
      apply (Hframe j b); [done|done|by apply (Ht j)|by apply (Hp i j)|by apply (Hp j i)].
  - intros j k a b Hne Ha Hb. destruct (decide (j = i)) as [->|Hj], (decide (k = i)) as [->|Hk].
    + done.
    + rewrite list_lookup_insert_eq in Ha by done. injection Ha as <-.
      rewrite list_lookup_insert_ne in Hb by done.
      apply (Hpair k b); [done|done|by apply (Ht k)|by apply (Hp i k)|by apply (Hp k i)].
    + rewrite list_lookup_insert_eq in Hb by done. injection Hb as <-.
      rewrite list_lookup_insert_ne in Ha by done.
      apply (Hpair j a); [done|done|by apply (Ht j)|by apply (Hp i j)|by apply (Hp j i)].
    + rewrite list_lookup_insert_ne in Ha, Hb by done. by apply (Hp j k).
Qed.

(** Two CPUs after a step of the first. *)
Lemma pinv_step a a' b :
  pinv a b -> pinv b a ->
  (forall l, slots_of a' = Some l -> slots_of a = Some l \/
     (forall lb, slots_of b = Some lb -> l_end lb <= l_pos l)) ->
  (forall l r ok ret, a' = UpdCons l r ok ret -> holder b = false) ->
  (holder a' = true -> (holder a = true /\ slots_of a' = slots_of a /\
       (forall l ok ret, a <> Unlock l ok ret)) \/
     (forall l r ok ret la, b = UpdCons l r ok ret -> slots_of a' = Some la -> rg r <= l_pos la)) ->
  (forall r', rd_of a' = Some r' -> (holder a = true /\ rd_of a = Some r') \/
     (forall l r ok ret, b = UpdCons l r ok ret -> rg r <= rg r')) ->
  pinv a' b /\ pinv b a'.
Proof.
  intros [Ha1 Ha2] [Hb1 Hb2] Hs Hu Hh Hr.
  assert (Hd : forall la lb, slots_of a' = Some la -> slots_of b = Some lb ->
     l_end la <= l_pos lb \/ l_end lb <= l_pos la).
  { intros la lb Ea Eb. destruct (Hs la Ea) as [E|E]; [by apply Ha1|]. right. by apply E. }
  split; split.
  - done.
  - intros l r ok ret Ea Hold. rewrite (Hu _ _ _ _ Ea) in Hold. done.
  - intros la lb Ea Eb. destruct (Hd lb la Eb Ea); tauto.
  - intros l r ok ret Eb Hold. split.
    + intros la Ea Hnu. destruct (Hh Hold) as [(H1 & H2 & H3)|H1]; [|by eapply H1].
      destruct (Hb2 l r ok ret Eb H1) as [Hp _]. apply Hp; [by rewrite <- H2|]. intros. apply H3.
    + intros r' Er. destruct (Hr r' Er) as [[H1 H2]|H1]; [|by eapply H1].
      destruct (Hb2 l r ok ret Eb H1) as [_ Hp]. by apply Hp.
Qed.

(** The lock when its value and its users stay the same. *)
Lemma linv_same s s' ths i ph ph' :
  linv s ths -> ths !! i = Some ph -> lock s' = lock s -> excl ph' = excl ph ->
  holder ph' = holder ph -> (waiter ph' = waiter ph \/ 0 <= lock s) ->
  linv s' (<[i := ph']> ths).
Proof.
  intros [H1 H2 H3] Hi El Ee Eh Hw.
  constructor; rewrite ?length_insert, ?El, ?(count_insert _ _ _ _ _ Hi), ?Ee, ?Eh; [done|..].
  - intros H0. destruct (H2 H0). lia.
  - intros H0. destruct (H3 H0) as (? & ? & ?). destruct Hw as [->|]; lia.
Qed.

Lemma ginv_lock s v : ginv s -> ginv (set_lock s v).
Proof. intros [H1 H2 H3 H4 H5 H6 H7 H8 H9 H10 H11 H12]. by constructor. Qed.

(** A value about to be stored was read before. *)
Lemma upd_read s l r ok ret : tinv s (UpdCons l r ok ret) -> rg r <= n_done s.
Proof. simpl. unfold rd_ok. tauto. Qed.

(** Steps that change no shared data but the lock. *)
Lemma inv_quiet s ths i ph ph' v :
  inv (s, ths) -> ths !! i = Some ph -> tinv s ph' ->
  (forall l, slots_of ph' = Some l -> slots_of ph = Some l) ->
  (forall j b l r ok ret, j <> i -> ths !! j = Some b -> ph' = UpdCons l r ok ret -> holder b = false) ->
  (holder ph' = true -> (holder ph = true /\ slots_of ph' = slots_of ph /\
      (forall l ok ret, ph <> Unlock l ok ret)) \/
     (forall l, slots_of ph' = Some l -> n_done s <= l_pos l)) ->
  (forall r, rd_of ph' = Some r -> (holder ph = true /\ rd_of ph = Some r) \/ n_done s <= rg r \/
     (exists l, slots_of ph = Some l /\ holder ph = true /\
        (forall l ok ret, ph <> Unlock l ok ret) /\ l_pos l <= rg r)) ->
  linv (set_lock s v) (<[i := ph']> ths) -> inv (set_lock s v, <[i := ph']> ths).
Proof.
  intros Hinv Hi Ht Hs Hu Hh Hr Hl. apply (inv_update s ths i ph); try done.
  - apply ginv_lock, Hinv.
  - intros j b Hj Hb Htb Hab Hba. apply pinv_step with ph; try done.
    + intros l El. left. by apply Hs.
    + intros l r ok ret E. by apply (Hu j b l r ok ret).
    + intros Hh'. destruct (Hh Hh') as [H|H]; [by left|]. right.
      intros l r ok ret la -> Ela. apply upd_read in Htb. specialize (H la Ela). lia.
    + intros r Er. destruct (Hr r Er) as [H|[H|(l & H1 & H2 & H3 & H4)]]; [by left|right..].
      * intros l r' ok ret ->. apply upd_read in Htb. lia.
      * intros l' r' ok ret ->. destruct Hba as [_ Hba].
        destruct (Hba l' r' ok ret eq_refl H2) as [Hp _]. specialize (Hp l H1 (H3 l)). lia.
Qed.

Lemma inv_pure s ths i ph ph' :
  inv (s, ths) -> ths !! i = Some ph -> tinv s ph' ->
  (forall l, slots_of ph' = Some l -> slots_of ph = Some l) ->
  (forall j b l r ok ret, j <> i -> ths !! j = Some b -> ph' = UpdCons l r ok ret -> holder b = false) ->
  (holder ph' = true -> (holder ph = true /\ slots_of ph' = slots_of ph /\
      (forall l ok ret, ph <> Unlock l ok ret)) \/
     (forall l, slots_of ph' = Some l -> n_done s <= l_pos l)) ->
  (forall r, rd_of ph' = Some r -> (holder ph = true /\ rd_of ph = Some r) \/ n_done s <= rg r \/
     (exists l, slots_of ph = Some l /\ holder ph = true /\
        (forall l ok ret, ph <> Unlock l ok ret) /\ l_pos l <= rg r)) ->
  excl ph' = excl ph -> holder ph' = holder ph -> (waiter ph' = waiter ph \/ 0 <= lock s) ->
  inv (s, <[i := ph']> ths).
Proof.
  intros Hinv Hi Ht Hs Hu Hh Hr He Hho Hw.
  assert (E : s = set_lock s (lock s)) by (by destruct s). rewrite E. apply (inv_quiet s ths i ph); try done.
  apply (linv_same s _ ths i ph); try done. apply Hinv.
Qed.

(** The side conditions of a step between phases of known shape. *)
Ltac quiet :=
  simpl; intros;
  repeat match goal with
  | H : Some _ = Some _ |- _ => injection H as ?; subst
  | H : None = Some _ |- _ => discriminate H
  end;
  first [done | congruence | by left | by right
        | right; let E := fresh in intros ? E; injection E as <-; assumption | left; split_and!; congruence | left; congruence | tauto].

(** The phases reached once the slots are marked. *)
Lemma after_owner_facts l :
  slots_of (after_owner l) = (if c_sync (l_call l) then Some l else None) /\
  holder (after_owner l) = c_sync (l_call l) /\ excl (after_owner l) = false /\
  waiter (after_owner l) = false /\ rd_of (after_owner l) = None /\
  (forall l' r ok ret, after_owner l <> UpdCons l' r ok ret).
Proof.
  unfold after_owner. destruct (c_sync (l_call l)) eqn:E, msipoll; simpl; rewrite ?E; split_and!; done.
Qed.

Lemma after_owner_tinv s l : local_ok s l -> held s l (l_end l) -> tinv s (after_owner l).
Proof.
  intros Hl Hh. unfold after_owner. destruct (c_sync (l_call l)) eqn:E, msipoll; simpl; split_and!; try done;
    unfold ret_ok; try done.
Qed.

(** *** Waiting for space *)

Lemma st_not_full s ths i c : inv (s, ths) -> ths !! i = Some (NotFull c) -> lock s = 0 ->
  inv (set_lock s INT_MIN, <[i := ExclRead c]> ths).
Proof.
  intros Hinv Hi Hl. apply (inv_quiet s ths i (NotFull c)); try done; try quiet.
  { apply (in_t _ Hinv i _ Hi). }
  destruct Hinv as [_ _ _ [H1 H2 H3]]. simpl in *. destruct (H2 ltac:(lia)) as [He Hh].
  constructor; rewrite ?length_insert, ?(count_insert _ _ _ _ _ Hi); simpl; try done.
  intros _. pose proof (users_range waiter ths). unfold INT_MIN. lia.
Qed.

Lemma st_excl_unlock s ths i c : inv (s, ths) -> ths !! i = Some (ExclUnlock c) ->
  inv (set_lock s 0, <[i := ExclReload c]> ths).
Proof.
  intros Hinv Hi. apply (inv_quiet s ths i (ExclUnlock c)); try done; try quiet.
  { apply (in_t _ Hinv i _ Hi). }
  destruct Hinv as [_ _ _ [H1 H2 H3]]. simpl in *.
  pose proof (count_pos excl ths i _ eq_refl Hi eq_refl).
  destruct (Z.le_gt_cases 0 (lock s)) as [Hl|Hl]; [destruct (H2 Hl); lia|].
  destruct (H3 Hl) as (He & Hh & _).
  constructor; rewrite ?length_insert, ?(count_insert _ _ _ _ _ Hi); simpl; try done; lia.
Qed.

(** An exclusive holder is alone. *)
Lemma excl_alone s ths i j a b : linv s ths -> ths !! i = Some a -> excl a = true ->
  j <> i -> ths !! j = Some b -> holder b = false /\ excl b = false.
Proof.
  intros [H1 H2 H3] Ha Hea Hj Hb. pose proof (count_pos excl ths i _ eq_refl Ha Hea).
  destruct (Z.le_gt_cases 0 (lock s)) as [Hl|Hl]; [destruct (H2 Hl); lia|].
  destruct (H3 Hl) as (He & Hh & _). split; [by apply (count_zero holder ths j)|].
  by apply (count_one excl ths i j a).
Qed.

(** A shared holder excludes exclusive ones. *)
Lemma holder_no_excl s ths i j a b : linv s ths -> ths !! i = Some a -> holder a = true ->
  ths !! j = Some b -> excl b = false.
Proof.
  intros [H1 H2 H3] Ha Hha Hb. pose proof (count_pos holder ths i _ eq_refl Ha Hha).
  destruct (Z.le_gt_cases 0 (lock s)) as [Hl|Hl]; [|destruct (H3 Hl); lia].
  destruct (H2 Hl). by apply (count_zero excl ths j).
Qed.

(** *** Taking the shared lock *)

Lemma lock_valid_tinv s l : ginv s -> local_ok s l -> gath s l -> pend s l (l_pos l) ->
  wrote s (l_pos l) (l_end l) -> tinv s (Valid l (l_prod l)) /\ n_done s <= l_pos l.
Proof.
  intros Hg Hl Hga Hp Hw. pose proof (lo_pos _ _ _ Hl). pose proof (gi_order _ Hg).
  pose proof (proj1 Hp ltac:(lia)). split; [|lia]. simpl. split_and!; try done.
  exists (l_pos l). split_and!; try lia; try done.
  - apply (lo_prod _ _ _ Hl).
  - intros _. split; [lia|]. intros Y HY. lia.
Qed.

Lemma st_lock s ths i l : inv (s, ths) -> ths !! i = Some (Lock l) ->
  inv (set_lock s (s32 (lock s + 1)),
       <[i := if 0 <=? lock s then Valid l (l_prod l) else LockWait l]> ths).
Proof.
  intros Hinv Hi. pose proof Hinv as [Hg Ht _ [H1 H2 H3]]. simpl in *.
  destruct (Ht i _ Hi) as (Hlo & Hga & Hp & Hw & Hsy). pose proof (users_range holder ths).
  pose proof (users_range waiter ths). destruct (lock_valid_tinv s l Hg Hlo Hga Hp Hw) as [Hv Hd].
  destruct (Z.leb_spec 0 (lock s)) as [Hl|Hl].
  - destruct (H2 Hl) as [He Hh]. apply (inv_quiet s ths i (Lock l)); try done; try quiet.
    constructor; rewrite ?length_insert, ?(count_insert _ _ _ _ _ Hi); simpl; rewrite ?Hsy, ?swrap_small;
      simpl Z.b2z; try lia.
  - destruct (H3 Hl) as (He & Hh & Hlk). apply (inv_quiet s ths i (Lock l)); try done; try quiet.
    unfold INT_MIN in *.
    constructor; rewrite ?length_insert, ?(count_insert _ _ _ _ _ Hi); simpl; rewrite ?swrap_small;
      simpl Z.b2z; unfold INT_MIN; try lia.
Qed.

Lemma st_lock_cas s ths i l : inv (s, ths) -> ths !! i = Some (LockCas l (lock s)) ->
  inv (set_lock s (s32 (lock s + 1)), <[i := Valid l (l_prod l)]> ths).
Proof.
  intros Hinv Hi. pose proof Hinv as [Hg Ht _ [H1 H2 H3]]. simpl in *.
  destruct (Ht i _ Hi) as (Hlo & Hga & Hp & Hw & Hsy & Hl). pose proof (users_range holder ths).
  destruct (lock_valid_tinv s l Hg Hlo Hga Hp Hw) as [Hv Hd].
  destruct (H2 Hl) as [He Hh]. apply (inv_quiet s ths i (LockCas l (lock s))); try done; try quiet.
  constructor; rewrite ?length_insert, ?(count_insert _ _ _ _ _ Hi); simpl; rewrite ?Hsy, ?swrap_small;
    simpl Z.b2z; try lia.
Qed.

Lemma st_unlock s ths i l ok ret : inv (s, ths) -> ths !! i = Some (Unlock l ok ret) ->
  inv (set_lock s (s32 (lock s - 1)), <[i := Done l ok ret]> ths).
Proof.
  intros Hinv Hi. pose proof Hinv as [Hg Ht _ [H1 H2 H3]]. simpl in *.
  destruct (Ht i _ Hi) as (Hlo & Hsy & Hr). pose proof (users_range holder ths).
  pose proof (count_pos holder ths i _ eq_refl Hi Hsy).
  destruct (Z.le_gt_cases 0 (lock s)) as [Hl|Hl]; [|destruct (H3 Hl); lia].
  destruct (H2 Hl) as [He Hh]. apply (inv_quiet s ths i (Unlock l ok ret)); try done; try quiet.
  constructor; rewrite ?length_insert, ?(count_insert _ _ _ _ _ Hi); simpl; rewrite ?Hsy, ?swrap_small;
    simpl Z.b2z; try lia.
Qed.

(** *** The other CPUs during a step *)

Definition own_phase (ph : phase) : bool :=
  match ph with OwnClear _ | OwnPoll _ _ _ | OwnPub _ _ | OwnDone _ _ => true | _ => false end.

(** What a step from [s] to [s'] may not disturb for the assertion of phase [b] to stay. *)
Record frame (s s' : mcmdq) (b : phase) : Prop := {
  fr_alloc : n_alloc s <= n_alloc s';
  fr_log : forall X, X < n_alloc s -> log s' X = log s X;
  fr_valid : forall Y, n_freed s <= Y < n_alloc s -> valid s Y -> valid s' Y;
  fr_pend : forall l Y, slots_of b = Some l -> l_pos l <= Y < l_end l -> n_pub s <= Y ->
    unmarked s Y -> unmarked s' Y /\ n_pub s' <= Y /\ ring s' (Y mod cap) = ring s (Y mod cap);
  fr_gath : forall l, slots_of b = Some l -> l_owner l = true -> l_pos l = n_close s -> flag s = true ->
    l_pos l = n_close s' /\ flag s' = true;
  fr_freed : n_freed s' = n_freed s \/ (excl b = false /\
    (forall l, slots_of b = Some l -> holder b = true -> (forall l ok ret, b <> Unlock l ok ret) ->
       n_freed s' <= l_pos l) /\
    (forall r, rd_of b = Some r -> holder b = true -> n_freed s' <= rg r));
  fr_own : (n_own s' = n_own s /\ n_close s' = n_close s /\ n_pub s' = n_pub s) \/ own_phase b = false;
  fr_done : n_done s <= n_done s';
  fr_resp : forall X, X < n_done s -> resp s' X = resp s X;
}.

Section Frame.
Context (s s' : mcmdq) (b : phase) (Hg : ginv s) (Hf : frame s s' b).

Lemma local_frame l : local_ok s l -> local_ok s' l.
Proof.
  intros [H1 H2 H3 H4 H5 H6]. constructor; try done.
  - pose proof (fr_alloc _ _ _ Hf). lia.
  - intros X HX. rewrite (fr_log _ _ _ Hf) by lia. by apply H6.
Qed.

Lemma gath_frame l : slots_of b = Some l -> gath s l -> gath s' l.
Proof. intros Hs H Ho. destruct (H Ho). by apply (fr_gath _ _ _ Hf). Qed.

Lemma pend_frame l X : slots_of b = Some l -> l_pos l <= X -> pend s l X -> pend s' l X.
Proof.
  intros Hs HX [H1 H2]. split.
  - intros HE. specialize (H1 HE). destruct (fr_pend _ _ _ Hf l X Hs ltac:(lia) H1) as (_ & ? & _); [|done].
    apply H2. lia.
  - intros Y HY. specialize (H1 ltac:(lia)). apply (fr_pend _ _ _ Hf l Y Hs); [lia|lia|]. by apply H2.
Qed.

Lemma wrote_frame l X Y : slots_of b = Some l -> local_ok s l -> l_pos l <= X -> Y <= l_end l ->
  pend s l X -> wrote s X Y -> wrote s' X Y.
Proof.
  intros Hs Hl HX HY [H1 H2] Hw Z HZ. specialize (H1 ltac:(lia)).
  destruct (fr_pend _ _ _ Hf l Z Hs ltac:(lia) ltac:(lia)) as (_ & _ & ->); [apply H2; lia|].
  rewrite (fr_log _ _ _ Hf) by (pose proof (lo_end _ _ _ Hl); lia). by apply Hw.
Qed.

Lemma held_frame l X : slots_of b = Some l -> holder b = c_sync (l_call l) ->
  (forall l ok ret, b <> Unlock l ok ret) -> local_ok s l -> X <= l_end l -> held s l X -> held s' l X.
Proof.
  intros Hs Hh Hu Hl HX H Hsy. destruct (H Hsy) as [H1 H2]. pose proof (lo_end _ _ _ Hl). split.
  - destruct (fr_freed _ _ _ Hf) as [->|(_ & Hfr & _)]; [done|]. apply Hfr; [done| |done]. by rewrite Hh.
  - intros Y HY. apply (fr_valid _ _ _ Hf); [lia|]. by apply H2.
Qed.

Lemma rd_frame l r ok : slots_of b = Some l -> holder b = true -> rd_of b = Some r ->
  rd_ok s l r ok -> rd_ok s' l r ok.
Proof.
  intros Hs Hh Hr (H1 & H2 & H3). pose proof (fr_done _ _ _ Hf). split_and!; try done; try lia.
  destruct (fr_freed _ _ _ Hf) as [->|(_ & _ & Hfr)]; [lia|]. by apply Hfr.
Qed.

Lemma ret_frame l ok ret : local_ok s l -> ret_ok s l ok ret -> ret_ok s' l ok ret.
Proof.
  intros Hl H Hok. destruct (H Hok) as [H1 H2]. pose proof (fr_done _ _ _ Hf).
  pose proof (lo_pos _ _ _ Hl). split; [lia|]. by rewrite (fr_resp _ _ _ Hf) by lia.
Qed.

Lemma own_frame : own_phase b = true ->
  n_own s' = n_own s /\ n_close s' = n_close s /\ n_pub s' = n_pub s.
Proof. intros Hb. destruct (fr_own _ _ _ Hf) as [H|H]; [done|congruence]. Qed.
End Frame.

Ltac frame_tac :=
  match goal with
  | Hf : frame _ _ ?b |- local_ok _ _ => apply (local_frame _ _ b Hf); assumption
  | Hf : frame _ _ ?b |- gath _ _ => apply (gath_frame _ _ b Hf); [reflexivity|assumption]
  | Hf : frame _ _ ?b |- pend _ _ _ => apply (pend_frame _ _ b Hf); [reflexivity|lia|assumption]
  | Hf : frame _ _ ?b |- held _ _ _ =>
    apply (held_frame _ _ b Hf); [reflexivity|reflexivity|done|assumption|lia|assumption]
  | Hf : frame _ _ ?b |- rd_ok _ _ _ _ => apply (rd_frame _ _ b Hf); [reflexivity|assumption|reflexivity|assumption]
  | Hf : frame _ _ ?b |- ret_ok _ _ _ _ => apply (ret_frame _ _ b Hf); assumption
  | Hf : frame _ _ ?b |- wrote _ _ _ =>
    apply (wrote_frame _ _ b Hf) with (l := ltac:(match b with context [?l] =>
      match type of l with local => exact l end end));
    [reflexivity|assumption|lia|unfold l_end; lia|assumption|assumption]
  | |- _ => assumption
  end.

Lemma tinv_frame s s' b : ginv s -> tinv s b -> frame s s' b -> tinv s' b.
Proof.
  intros Hg Ht Hf. pose proof (gi_order _ Hg) as Ho. pose proof (gi_own _ Hg) as Hw.
  pose proof (fr_done _ _ _ Hf) as Hd.
  destruct b; simpl in Ht |- *; try exact I; try exact Ht; destruct_and? Ht; split_and!; try frame_tac; try lia;
    try (destruct (own_frame s s' _ Hf eq_refl) as (E1 & E2 & E3); unfold closing in *;
         rewrite ?E1, ?E2, ?E3; done || lia).
  - destruct (fr_freed _ _ _ Hf) as [->|[Hx _]]; [done|discriminate Hx].
  - destruct H2 as (X & H3 & H4 & H5 & H6 & H7). exists X. split_and!; try frame_tac; lia.
  - destruct (own_frame s s' _ Hf eq_refl) as (E1 & E2 & E3). unfold closing in *.
    match goal with H : exists _, _ |- _ => destruct H as (X & HX & HXr & HXv) end.
    exists X. rewrite E2. split_and!; try done; try lia.
    intros Y HY. apply (fr_valid _ _ _ Hf); [lia|by auto].
  - destruct (own_frame s s' _ Hf eq_refl) as (E1 & E2 & E3). unfold closing in *. rewrite E2.
    intros Y HY. apply (fr_valid _ _ _ Hf); [lia|by auto].
Qed.

(** *** Storing a consumer value *)

Lemma ginv_qcons s r : ginv s -> cong n (rv r) (rg r) -> n_freed s <= rg r <= n_done s ->
  ginv (set_qcons s r).
Proof.
  intros [H1 H2 H3 H4 H5 H6 H7 H8 H9 H10 H11 H12] Hc Hr. constructor; simpl; try done; try lia.
  intros X HX Hv. apply H10; [lia|done].
Qed.

Lemma frame_qcons s r b : excl b = false ->
  (forall l, slots_of b = Some l -> holder b = true -> (forall l ok ret, b <> Unlock l ok ret) ->
     rg r <= l_pos l) ->
  (forall r', rd_of b = Some r' -> holder b = true -> rg r <= rg r') ->
  frame s (set_qcons s r) b.
Proof.
  intros He Hs Hr. constructor; simpl; try done.
  - by right.
  - by left.
Qed.

Lemma st_excl_write s ths i c r : inv (s, ths) -> ths !! i = Some (ExclWrite c r) ->
  inv (set_qcons s r, <[i := ExclUnlock c]> ths).
Proof.
  intros Hinv Hi. pose proof Hinv as [Hg Ht _ Hl]. simpl in *. destruct (Ht i _ Hi) as (Hz & Hc & Hr).
  apply (inv_update s ths i (ExclWrite c r)); try done.
  - by apply ginv_qcons.
  - intros j b Hj Hb Htb _ _. destruct (excl_alone s ths i j _ b Hl Hi eq_refl Hj Hb) as [Hh He].
    apply (tinv_frame s); [done|done|]. apply frame_qcons; [done|congruence..].
  - by apply (linv_same s _ ths i (ExclWrite c r)); try (left; done).
Qed.

Lemma st_upd_cons s ths i l r ok ret : inv (s, ths) -> ths !! i = Some (UpdCons l r ok ret) ->
  inv (set_qcons s r, <[i := Unlock l ok ret]> ths).
Proof.
  intros Hinv Hi. pose proof Hinv as [Hg Ht _ Hl]. simpl in *.
  destruct (Ht i _ Hi) as (Hlo & Hh & Hsy & (Hc & Hr & Hok) & Hret).
  apply (inv_update s ths i (UpdCons l r ok ret)); try done.
  - by apply ginv_qcons.
  - intros j b Hj Hb Htb [_ Hab] _. apply (tinv_frame s); [done|done|].
    apply frame_qcons.
    + apply (holder_no_excl s ths i j (UpdCons l r ok ret) b Hl Hi Hsy Hb).
    + intros lb Hlb Hhb Hu. destruct (Hab l r ok ret eq_refl Hhb) as [Hp _]. apply Hp; [done|].
      intros. apply Hu.
    + intros r' Hr' Hhb. destruct (Hab l r ok ret eq_refl Hhb) as [_ Hp]. by apply Hp.
  - intros j b Hj Hb _ Hab Hba. apply pinv_step with (UpdCons l r ok ret); try done; try quiet.
  - by apply (linv_same s _ ths i (UpdCons l r ok ret)); try (left; done).
Qed.

(** *** Writing commands *)

Lemma ring_other s P Y e : ginv s -> n_freed s <= P < n_alloc s -> n_freed s <= Y < n_alloc s ->
  Y <> P -> upd_ring (ring s) (P mod cap) e (Y mod cap) = ring s (Y mod cap).
Proof.
  intros Hg HP HY Hne. pose proof (gi_order _ Hg). unfold upd_ring.
  rewrite (proj2 (Z.eqb_neq _ _)); [done|]. apply slot_neq; lia.
Qed.

Lemma ring_same s P e : upd_ring (ring s) (P mod cap) e (P mod cap) = e.
Proof. unfold upd_ring. by rewrite Z.eqb_refl. Qed.

Lemma valid_unmarked s X : valid s X -> unmarked s X -> False.
Proof. unfold valid, unmarked. intros ->. by destruct (Z.testbit X n). Qed.

(** Writing a slot that is not marked disturbs no other CPU. *)
Lemma frame_ring s P e b : ginv s -> n_pub s <= P < n_alloc s ->
  (forall l, slots_of b = Some l -> local_ok s l /\ ~ (l_pos l <= P < l_end l)) ->
  frame s (set_ring s (upd_ring (ring s) (P mod cap) e)) b.
Proof.
  intros Hg HP Hb. pose proof (gi_order _ Hg). constructor; simpl; try done.
  - intros l Y Hl HY HpY Hu. destruct (Hb l Hl) as [Hlo Hn]. pose proof (lo_end _ _ _ Hlo).
    split_and!; [done|done|]. apply ring_other; [done|lia|lia|]. intros ->. done.
  - by left.
  - by left.
Qed.

Lemma slots_local s b l : tinv s b -> slots_of b = Some l -> local_ok s l.
Proof. destruct b; simpl; intros H E; try done; injection E as <-; tauto. Qed.

Lemma st_write s ths i l k : inv (s, ths) -> ths !! i = Some (Writing l k) -> k < size (l_call l) ->
  let x := Q_IDX (llq_of 0 0) (ummu_queue_inc_prod_n (llq_of (l_prod l) 0) k) in
  inv (set_ring s (upd_ring (ring s) x (entry l k)), <[i := Writing l (k + 1)]> ths).
Proof.
  intros Hinv Hi Hk x. pose proof Hinv as [Hg Ht _ Hl]. simpl in *.
  destruct (Ht i _ Hi) as (Hlo & Hga & [Hp1 Hp2] & Hk' & Hw).
  pose proof Hlo as [Ho1 Ho2 Ho3 Ho4 Ho5 Ho6]. unfold l_end in *. pose proof (gi_order _ Hg) as Ho.
  assert (cap <= 2 ^ 30) by (apply Z.pow_le_mono_r; lia). specialize (Hp1 ltac:(lia)).
  assert (Hx : x = (l_pos l + k) mod cap) by (unfold x; by rewrite Ho4, inc_llq, idx_llq by lia).
  clearbody x. subst x. set (P := l_pos l + k) in *.
  assert (HP : n_pub s <= P < n_alloc s) by lia.
  apply (inv_update s ths i (Writing l k)); try done.
  - destruct Hg as [H1 H2 H3 H4 H5 H6 H7 H8 H9 H10 H11 H12]. constructor; simpl; try done.
    intros X HX Hv. destruct (decide (X = P)) as [->|Hne].
    + exfalso. apply (valid_unmarked s P Hv). apply Hp2. lia.
    + rewrite ring_other; [by apply H10|by constructor|lia|lia|done].
  - split_and!; try done; try lia. intros Y HY. change (log (set_ring _ _) Y) with (log s Y). simpl ring.
    destruct (decide (Y = P)) as [->|Hne].
    + rewrite ring_same, Ho6 by lia. f_equal. lia.
    + rewrite ring_other by (done || lia). apply Hw. lia.
  - intros j b Hj Hb Htb [Hd _] _. apply (tinv_frame s); [done|done|]. apply frame_ring; [done|done|].
    intros lb Hlb. split; [by apply (slots_local s b)|]. specialize (Hd l lb eq_refl Hlb).
    unfold l_end in *. lia.
  - intros j b Hj Hb _ Hab Hba. apply pinv_step with (Writing l k); try done; quiet.
  - by apply (linv_same s _ ths i (Writing l k)); try (left; done).
Qed.

(** *** Marking slots *)

Section Mark.
Context (s : mcmdq) (X len : Z) (m' : vmap) (Hg : ginv s).
Context (Hlen : 0 < len) (HX : n_pub s <= X) (HE : X + len <= n_alloc s).
Context (Hm : forall i, 0 <= i < cap ->
  vbit m' i = xorb (vbit (valid_map s) i) (covered n X (X + len) i)).

Lemma mark_bit Y : n_alloc s - cap <= Y < n_alloc s ->
  vbit m' (Y mod cap) = xorb (vbit (valid_map s) (Y mod cap)) ((X <=? Y) && (Y <? X + len)).
Proof.
  intros HY. pose proof (gi_order _ Hg). pose proof cap_pos.
  rewrite Hm, covered_pos by (try apply Z.mod_pos_bound; lia). done.
Qed.

Lemma mark_in Y : X <= Y < X + len -> unmarked s Y -> valid (set_map s m') Y.
Proof.
  unfold unmarked, valid. intros HY Hu. pose proof (gi_order _ Hg). simpl. rewrite mark_bit, Hu by lia.
  rewrite (proj2 (Z.leb_le _ _)), (proj2 (Z.ltb_lt _ _)) by lia. by destruct (Z.testbit Y n).
Qed.

Lemma mark_out Y : n_alloc s - cap <= Y < n_alloc s -> ~ (X <= Y < X + len) ->
  (valid (set_map s m') Y <-> valid s Y) /\ (unmarked (set_map s m') Y <-> unmarked s Y).
Proof.
  unfold unmarked, valid. intros HY Hn. simpl. rewrite mark_bit by done.
  replace ((X <=? Y) && (Y <? X + len)) with false; [by rewrite xorb_false_r|].
  symmetry. apply andb_false_iff. rewrite Z.leb_gt, Z.ltb_ge. lia.
Qed.

Lemma ginv_mark : (forall Y, X <= Y < X + len -> unmarked s Y) -> wrote s X (X + len) ->
  ginv (set_map s m').
Proof.
  intros Hu Hw. pose proof (gi_order _ Hg) as Ho.
  pose proof Hg as [H1 H2 H3 H4 H5 H6 H7 H8 H9 H10 H11 H12].
  constructor; try done.
  - simpl. intros Y HY. apply mark_out; [lia|lia|]. apply H9. lia.
  - simpl. intros Y HY Hv. destruct (decide (X <= Y < X + len)) as [Hin|Hout].
    + unfold content. simpl. rewrite (proj2 (Z.ltb_ge _ _)) by lia. by apply Hw.
    + apply H10; [lia|]. apply mark_out in Hv; [done|lia|done].
Qed.

Lemma frame_mark b : (forall Y, X <= Y < X + len -> unmarked s Y) ->
  (forall l, slots_of b = Some l -> local_ok s l /\ (l_end l <= X \/ X + len <= l_pos l)) ->
  frame s (set_map s m') b.
Proof.
  intros Hu Hb. pose proof (gi_order _ Hg) as Ho. constructor; simpl; try done.
  - intros Y HY Hv. destruct (decide (X <= Y < X + len)) as [Hin|Hout].
    + exfalso. apply (valid_unmarked s Y Hv). by apply Hu.
    + apply mark_out; [lia|done|done].
  - intros l Y Hl HY HpY HuY. destruct (Hb l Hl) as [Hlo Hn]. pose proof (lo_end _ _ _ Hlo).
    split_and!; [|done|done]. apply mark_out; [lia|lia|done].
  - by left.
  - by left.
Qed.
End Mark.

Lemma st_mark s ths i l p : inv (s, ths) -> ths !! i = Some (Valid l p) -> p <> l_head l ->
  inv (set_map s (set_chunk (valid_map s) (llq_of p 0) (l_head l)),
       <[i := Valid l (chunk_next (llq_of p 0) (l_head l))]> ths).
Proof.
  intros Hinv Hi Hne. pose proof Hinv as [Hg Ht _ Hl]. simpl in *.
  destruct (Ht i _ Hi) as (Hlo & Hga & X & -> & HX & [Hp1 Hp2] & Hw & Hh).
  pose proof Hlo as [Ho1 Ho2 Ho3 Ho4 Ho5 Ho6]. pose proof (gi_order _ Hg) as Ho.
  assert (HXE : X < l_end l).
  { destruct (decide (X = l_end l)) as [->|]; [|lia]. destruct Hne. done. }
  specialize (Hp1 HXE). rewrite Ho5.
  destruct (set_chunk_spec n size_n ltac:(lia) (valid_map s) X (l_end l) 0 ltac:(lia))
    as (len & Hlen & HlE & Hnext & Hbits). fold (llq_of (ptr n false X) 0) in *. rewrite Hnext.
  set (m' := set_chunk _ _ _) in *.
  assert (Hu : forall Y, X <= Y < X + len -> unmarked s Y) by (intros; apply Hp2; lia).
  apply (inv_update s ths i (Valid l (ptr n false X))); try done.
  - apply (ginv_mark s X len m'); try done; try lia. intros Y HY. apply Hw. lia.
  - simpl. split_and!; [done|done|]. exists (X + len). split_and!; try done; try lia.
    + split; [simpl; lia|]. intros Y HY.
      apply (mark_out s X len m'); try done; try lia. apply Hp2. lia.
    + intros Y HY. apply Hw. lia.
    + intros Hsy. destruct (Hh Hsy) as [Hf Hv]. split; [done|]. intros Y HY.
      destruct (Z.lt_ge_cases Y X).
      * apply (mark_out s X len m'); try done; try lia. apply Hv. lia.
      * apply (mark_in s X len m'); try done; try lia. apply Hu. lia.
  - intros j b Hj Hb Htb [Hd _] _. apply (tinv_frame s); [done|done|].
    apply (frame_mark s X len m'); try done; try lia. intros lb Hlb.
    split; [by apply (slots_local s b)|]. specialize (Hd l lb eq_refl Hlb). lia.
  - intros j b Hj Hb _ Hab Hba.
    apply pinv_step with (Valid l (ptr n false X)); try done; quiet.
  - by apply (linv_same s _ ths i (Valid l (ptr n false X))); try (left; done).
Qed.

(** *** Allocating slots *)

Section Take.
Context (s : mcmdq) (c : call) (Hg : ginv s) (Hc : 1 <= size c).
Context (Hsp : ummu_queue_has_space (llq_of (q_prod s) (q_cons s)) (size c) = true).

Definition new_local : local :=
  {| l_call := c; l_prod := clear_owned (q_prod s);
     l_head := clear_owned (Z.lor (ummu_queue_inc_prod_n (llq_of (q_prod s) (q_cons s)) (size c))
                 MCMDQ_PROD_OWNED_FLAG);
     l_owner := negb (is_owned (q_prod s)); l_pos := n_alloc s |}.

Abbreviation s1 := (take_slots s
  (Z.lor (ummu_queue_inc_prod_n (llq_of (q_prod s) (q_cons s)) (size c)) MCMDQ_PROD_OWNED_FLAG)
  (q_cons s) new_local).

Lemma take_room : n_alloc s + size c <= n_freed s + cap.
Proof.
  pose proof (gi_order _ Hg). pose proof (gi_prod _ Hg) as Hp.
  apply (has_space_counts (llq_of (q_prod s) (ptr n false (n_freed s))) (flag s) false).
  - unfold counts. simpl. split_and!; try done; try lia. apply size_n.
  - lia.
  - rewrite <- Hsp. apply has_space_cong; [lia|]. unfold cong. rewrite (cong_ptr n false _ size_n).
    symmetry. apply (gi_cons _ Hg).
Qed.

Lemma take_head : ummu_queue_inc_prod_n (llq_of (q_prod s) (q_cons s)) (size c) =
  ptr n (flag s) (n_alloc s + size c).
Proof.
  pose proof take_room. pose proof (gi_order _ Hg). rewrite (gi_prod _ Hg) at 1.
  assert (cap <= 2 ^ 30) by (apply Z.pow_le_mono_r; lia). apply inc_llq. lia.
Qed.

Lemma take_local : local_ok s1 new_local.
Proof.
  pose proof take_room. pose proof (gi_order _ Hg). pose proof take_head as Hh.
  constructor; unfold l_end; simpl; try lia.
  - by rewrite (gi_prod _ Hg), clear_ptr.
  - by rewrite Hh, own_ptr, clear_ptr.
  - intros X HX. rewrite (proj2 (Z.leb_le _ _)) by lia. done.
Qed.

Lemma take_flag : flag s1 = true.
Proof. unfold flag. simpl. rewrite take_head, own_ptr. apply owned_ptr. Qed.

Lemma ginv_take : ginv s1.
Proof.
  pose proof take_room as Hr. pose proof (gi_order _ Hg) as Ho. pose proof take_flag as Hf.
  pose proof Hg as [H1 H2 H3 H4 H5 H6 H7 H8 H9 H10 H11 H12].
  constructor; rewrite ?Hf; simpl; try done; try lia.
  - by rewrite take_head, own_ptr.
  - intros X HX. apply H9. lia.
  - intros X HX Hv. unfold content. simpl. destruct (Z.leb_spec (n_alloc s) X) as [Hge|Hlt].
    + exfalso. unfold valid in Hv. simpl in Hv.
      assert (HvX : valid s (X - cap)) by (apply H9; lia). unfold valid in HvX.
      replace ((X - cap) mod cap) with (X mod cap) in HvX
        by (rewrite <- (Z_mod_plus_full (X - cap) 1); f_equal; lia).
      rewrite Hv in HvX. destruct (laps n size_n X (X - cap) cap) as [(_ & _ & ?)|[Hb _]]; [|lia|lia|].
      * pose proof cap_pos. lia.
      * rewrite Hb in HvX. by destruct (Z.testbit (X - cap) n).
    + apply H10; [lia|done].
  - rewrite H11. apply map_ext_in. intros X HX. apply list_elem_of_In, elem_of_seqZ in HX.
    rewrite (proj2 (Z.leb_gt _ _)) by lia. done.
Qed.

(** The new slots are not marked: the previous lap left them so. *)
Lemma take_pend : pend s1 new_local (n_alloc s).
Proof.
  pose proof take_room as Hr. pose proof (gi_order _ Hg) as Ho. unfold pend, l_end. simpl.
  split; [lia|]. intros X HX. unfold unmarked. simpl.
  assert (HvX : valid s (X - cap)) by (apply (gi_valid _ Hg); lia). unfold valid in HvX.
  replace ((X - cap) mod cap) with (X mod cap) in HvX
    by (rewrite <- (Z_mod_plus_full (X - cap) 1); f_equal; lia).
  rewrite HvX. pose proof cap_pos.
  destruct (laps n size_n X (X - cap) cap) as [(_ & _ & ?)|[Hb _]]; [lia|lia|lia|]. done.
Qed.

Lemma frame_take b : frame s s1 b.
Proof.
  constructor; simpl; try done; try lia.
  - intros X HX. by rewrite (proj2 (Z.leb_gt _ _)) by lia.
  - intros l Hl Ho Hcl Hf. split; [done|]. apply take_flag.
Qed.
End Take.

Lemma st_alloc s ths i c : inv (s, ths) -> ths !! i = Some (Alloc c (q_prod s) (q_cons s)) ->
  ummu_queue_has_space (llq_of (q_prod s) (q_cons s)) (size c) = true ->
  inv (take_slots s
        (Z.lor (ummu_queue_inc_prod_n (llq_of (q_prod s) (q_cons s)) (size c)) MCMDQ_PROD_OWNED_FLAG)
        (q_cons s) (new_local s c), <[i := Writing (new_local s c) 0]> ths).
Proof.
  intros Hinv Hi Hsp. pose proof Hinv as [Hg Ht _ Hl]. simpl in *. pose proof (Ht i _ Hi) as Hc.
  simpl in Hc. apply (inv_update s ths i (Alloc c (q_prod s) (q_cons s))); try done.
  - by apply ginv_take.
  - refine (conj _ (conj _ (conj _ (conj _ _)))).
    + by apply take_local.
    + intros Hown. simpl in Hown. apply negb_true_iff in Hown. split; [|by apply take_flag].
      simpl. by apply (gi_closed _ Hg).
    + by apply take_pend.
    + simpl. lia.
    + intros Y HY. lia.
  - intros j b Hj Hb Htb _ _. apply (tinv_frame s); [done|done|]. by apply frame_take.
  - intros j b Hj Hb Htb Hab Hba. apply pinv_step with (Alloc c (q_prod s) (q_cons s)); try done.
    intros l [= <-]. right. intros lb Hlb. pose proof (slots_local s b lb Htb Hlb) as Hlo.
    apply (lo_end _ _ _ Hlo).
  - by apply (linv_same s _ ths i (Alloc c (q_prod s) (q_cons s))); try (left; done).
Qed.

(** *** The owner *)

(** At most one CPU has stopped gathering and not yet handed over. *)
Lemma own_alone s a b la : ginv s -> tinv s b -> slots_of a = Some la -> local_ok s la -> pinv a b ->
  (l_pos la = n_own s /\ n_own s < n_close s \/ l_pos la = n_own s /\ n_own s = n_close s) ->
  own_phase b = false.
Proof.
  intros Hg Hb Ha Hlo [Hd _] Hc. destruct (own_phase b) eqn:Hob; [exfalso|done].
  assert (exists lb, slots_of b = Some lb /\ l_pos lb = n_own s /\ local_ok s lb) as (lb & Elb & Hp & Hlb).
  { destruct b; simpl in Hob; try discriminate Hob; simpl in Hb; unfold closing in Hb;
      eexists; (split; [reflexivity|]); destruct_and? Hb; split; done. }
  pose proof (lo_pos _ _ _ Hlo). pose proof (lo_pos _ _ _ Hlb). specialize (Hd la lb Ha Elb). lia.
Qed.

Lemma st_own_clear s ths i l : inv (s, ths) -> ths !! i = Some (OwnClear l) ->
  inv (close_range s, <[i := OwnPoll l (clear_owned (q_prod s)) (l_prod l)]> ths).
Proof.
  intros Hinv Hi. pose proof Hinv as [Hg Ht _ Hl]. simpl in *.
  destruct (Ht i _ Hi) as (Hlo & Hga & Hown & Hh & Hn). destruct (Hga Hown) as [Hcl Hfl].
  pose proof Hlo as [Ho1 Ho2 Ho3 Ho4 Ho5 Ho6]. pose proof (gi_order _ Hg) as Ho.
  assert (Hpr : clear_owned (q_prod s) = ptr n false (n_alloc s)) by (by rewrite (gi_prod _ Hg), clear_ptr).
  assert (Hpub : n_pub s = n_own s) by (destruct (gi_pub _ Hg); lia).
  apply (inv_update s ths i (OwnClear l)); try done.
  - pose proof Hg as [H1 H2 H3 H4 H5 H6 H7 H8 H9 H10 H11 H12].
    assert (Hf' : flag (close_range s) = false) by (unfold flag; simpl; rewrite Hpr; apply owned_ptr).
    constructor; rewrite ?Hf'; simpl; try done; try lia. 
  - refine (conj _ (conj _ (conj _ (conj _ _)))); try done.
    + unfold closing. simpl. rewrite Hpr. split_and!; try done; lia.
    + exists (l_pos l). simpl. split_and!; try done; try lia.
  - intros j b Hj Hb Htb Hab Hba. apply (tinv_frame s); [done|done|].
    constructor; simpl; try done; [|by left|right].
    + intros lb Hlb Hob Hcb _. exfalso. destruct Hab as [Hd _].
      pose proof (lo_pos _ _ _ (slots_local s b lb Htb Hlb)). specialize (Hd l lb eq_refl Hlb). lia.
    + apply (own_alone s (OwnClear l) b l); try done. right. lia.
  - intros j b Hj Hb Htb Hab Hba. apply pinv_step with (OwnClear l); try done; quiet.
  - by apply (linv_same s _ ths i (OwnClear l)); try (left; done).
Qed.

Lemma cong_lor p P : cong n p P -> cong n (Z.lor p mcmdq_prod) P.
Proof.
  unfold cong. intros <-. apply Z.bits_inj'. intros k Hk. destruct (Z.lt_ge_cases k (n + 1)) as [Hlt|Hge].
  - rewrite !Z.mod_pow2_bits_low, Z.lor_spec by lia.
    replace (Z.testbit mcmdq_prod k) with false; [by rewrite orb_false_r|].
    rewrite <- (Z.mod_pow2_bits_low mcmdq_prod (n + 1)) by lia. rewrite Hen.
    by rewrite Z.mod_0_l, Z.bits_0 by (apply Z.pow_nonzero; lia).
  - by rewrite !Z.mod_pow2_bits_high by lia.
Qed.

Lemma st_own_pub s ths i l p : inv (s, ths) -> ths !! i = Some (OwnPub l p) ->
  inv (publish s p, <[i := OwnDone l p]> ths).
Proof.
  intros Hinv Hi. pose proof Hinv as [Hg Ht _ Hl]. simpl in *.
  destruct (Ht i _ Hi) as (Hlo & Hh & (Hc1 & Hc2 & Hc3) & Hpub & Hv).
  pose proof (gi_order _ Hg) as Ho. pose proof (gi_own _ Hg) as How.
  apply (inv_update s ths i (OwnPub l p)); try done.
  - pose proof Hg as [H1 H2 H3 H4 H5 H6 H7 H8 H9 H10 H11 H12]. constructor; simpl; try done; try lia.
    + apply cong_lor. subst p. apply cong_ptr, size_n.
    + intros X HX. destruct (Z.lt_ge_cases X (n_pub s)); [apply H9; lia|]. apply Hv. lia.
  - intros j b Hj Hb Htb Hab Hba. apply (tinv_frame s); [done|done|].
    constructor; simpl; try done; [|by left|right].
    + intros lb Y Hlb HY HpY Hu. split_and!; try done.
      destruct (Z.lt_ge_cases Y (n_close s)); [|lia].
      exfalso. apply (valid_unmarked s Y); [|done]. apply Hv. lia.
    + apply (own_alone s (OwnPub l p) b l); try done. left. lia.
  - intros j b Hj Hb Htb Hab Hba. apply pinv_step with (OwnPub l p); try done; quiet.
  - by apply (linv_same s _ ths i (OwnPub l p)); try (left; done).
Qed.

Lemma st_own_done s ths i l p : inv (s, ths) -> ths !! i = Some (OwnDone l p) ->
  inv (set_owner s p, <[i := after_owner l]> ths).
Proof.
  intros Hinv Hi. pose proof Hinv as [Hg Ht _ Hl]. simpl in *.
  destruct (Ht i _ Hi) as (Hlo & Hh & (Hc1 & Hc2 & Hc3) & Hpub).
  pose proof (gi_order _ Hg) as Ho. pose proof (gi_own _ Hg) as How.
  destruct (after_owner_facts l) as (F1 & F2 & F3 & F4 & F5 & F6). pose proof cap_pos.
  apply (inv_update s ths i (OwnDone l p)); try done.
  - pose proof Hg as [H1 H2 H3 H4 H5 H6 H7 H8 H9 H10 H11 H12]. constructor; simpl; try done; try lia.
  - by apply after_owner_tinv.
  - intros j b Hj Hb Htb Hab Hba. apply (tinv_frame s); [done|done|].
    constructor; simpl; try done; [by left|right].
    apply (own_alone s (OwnDone l p) b l); try done. left. lia.
  - intros j b Hj Hb Htb Hab Hba. apply pinv_step with (OwnDone l p); try done.
    + intros l'. rewrite F1. destruct (c_sync (l_call l)); [|done]. intros [= <-]. by left.
    + intros l' r ok ret E. by destruct (F6 l' r ok ret).
    + rewrite F1, F2. intros Hs. rewrite Hs. left. simpl. by rewrite Hs.
    + rewrite F5. done.
  - by apply (linv_same s _ ths i (OwnDone l p)); try (left; done).
Qed.

(** *** Steps that read *)

Lemma st_valid_end s ths i l : inv (s, ths) -> ths !! i = Some (Valid l (l_head l)) ->
  inv (s, <[i := after_valid l]> ths).
Proof.
  intros Hinv Hi. pose proof Hinv as [Hg Ht _ Hl]. simpl in *.
  destruct (Ht i _ Hi) as (Hlo & Hga & X & HX & HXr & _ & _ & Hh).
  pose proof Hlo as [Ho1 Ho2 Ho3 Ho4 Ho5 Ho6].
  assert (X = l_end l) as -> by (apply (ptr_inj n size_n (proj1 Hn6)); [lia|by rewrite <- HX]).
  destruct (after_owner_facts l) as (F1 & F2 & F3 & F4 & F5 & F6).
  unfold after_valid. destruct (l_owner l) eqn:Hown.
  - apply (inv_pure s ths i (Valid l (l_head l))); try done; try quiet.
  - apply (inv_pure s ths i (Valid l (l_head l))); try done.
    + by apply after_owner_tinv.
    + intros l'. rewrite F1. by destruct (c_sync (l_call l)).
    + intros j b l' r ok ret _ _ E. by destruct (F6 l' r ok ret).
    + rewrite F1, F2. intros Hs. rewrite Hs. left. simpl. by rewrite Hs.
    + rewrite F5. done.
    + left. by rewrite F4.
Qed.

Lemma st_own_wait s ths i l : inv (s, ths) -> ths !! i = Some (OwnWait l) ->
  owner_prod s = l_prod l -> inv (s, <[i := OwnClear l]> ths).
Proof.
  intros Hinv Hi Heq. pose proof Hinv as [Hg Ht _ Hl]. simpl in *.
  destruct (Ht i _ Hi) as (Hlo & Hga & Hown & Hh). destruct (Hga Hown) as [Hcl _].
  pose proof (gi_own _ Hg) as How.
  assert (n_own s = l_pos l).
  { apply (ptr_inj n size_n (proj1 Hn6)); [lia|]. rewrite <- (gi_owner _ Hg), Heq. apply (lo_prod _ _ _ Hlo). }
  apply (inv_pure s ths i (OwnWait l)); try done; try quiet.
Qed.

Lemma st_own_poll s ths i l p x : inv (s, ths) -> ths !! i = Some (OwnPoll l p x) ->
  x <> p -> chunk_valid (valid_map s) (llq_of x 0) p = true ->
  inv (s, <[i := OwnPoll l p (chunk_next (llq_of x 0) p)]> ths).
Proof.
  intros Hinv Hi Hne Hcv. pose proof Hinv as [Hg Ht _ Hl]. simpl in *.
  destruct (Ht i _ Hi) as (Hlo & Hh & (Hc1 & -> & Hc3) & Hpub & X & -> & HX & Hv).
  pose proof (gi_own _ Hg) as How.
  assert (HXE : X < n_close s) by (destruct (decide (X = n_close s)) as [->|]; [done|lia]).
  destruct (poll_chunk_spec n size_n ltac:(lia) (valid_map s) X (n_close s) 0 ltac:(lia))
    as (len & Hlen & HlE & Hnext & Hbits). fold (llq_of (ptr n false X) 0) in *. rewrite Hnext.
  pose proof (proj1 Hbits Hcv) as Hb.
  apply (inv_pure s ths i (OwnPoll l (ptr n false (n_close s)) (ptr n false X))); try done; try quiet.
  simpl. unfold closing. split_and!; try done. exists (X + len). split_and!; try done; try lia.
  intros Y HY. destruct (Z.lt_ge_cases Y X); [apply Hv; lia|]. apply Hb. lia.
Qed.

Lemma st_own_polled s ths i l p : inv (s, ths) -> ths !! i = Some (OwnPoll l p p) ->
  inv (s, <[i := OwnPub l p]> ths).
Proof.
  intros Hinv Hi. pose proof Hinv as [Hg Ht _ Hl]. simpl in *.
  destruct (Ht i _ Hi) as (Hlo & Hh & (Hc1 & -> & Hc3) & Hpub & X & HX & HXr & Hv).
  pose proof (gi_own _ Hg) as How.
  assert (X = n_close s) as -> by (by apply (ptr_inj n size_n (proj1 Hn6)); [lia|]).
  apply (inv_pure s ths i (OwnPoll l (ptr n false (n_close s)) (ptr n false (n_close s)))); try done; try quiet.
Qed.

(** The pointer and the command of the [CMD_SYNC] of a call. *)
Lemma sync_prod_ptr s l : local_ok s l -> c_sync (l_call l) = true ->
  sync_prod l = ptr n false (l_end l - 1) /\
  l_end l - 1 - l_pos l = Z.of_nat (length (c_cmds (l_call l))).
Proof.
  intros [Ho1 Ho2 Ho3 Ho4 Ho5 Ho6] Hs. unfold sync_prod, l_end, size in *. rewrite Hs in *. simpl Z.b2z in *.
  assert (cap <= 2 ^ 30) by (apply Z.pow_le_mono_r; lia).
  rewrite Ho4, inc_llq by lia. split; [f_equal|]; lia.
Qed.

Lemma sync_word_bit a sv :
  exists w r, ummu_mcmdq_build_cmd {| opcode := CMD_SYNC; member := sync a sv |} = Some (0, w :: r) /\
    Z.testbit w 0 = true.
Proof.
  unfold ummu_mcmdq_build_cmd, build_switch. cbn [opcode member].
  replace (CMD_SYNC =? CMD_SYNC) with true by done. cbv iota.
  destruct (ctrue a), sv; cbn [mbind option_bind fold_left app or_word alter list_alter fst snd prep_or];
    eexists _, _; (split; [reflexivity|]); rewrite !Z.lor_spec; done.
Qed.

Lemma sync_entry_live s l : local_ok s l -> c_sync (l_call l) = true ->
  Z.land (hd 0 (log s (l_end l - 1))) (2 ^ 32 - 1) <> 0.
Proof.
  intros Hlo Hs. pose proof (sync_prod_ptr s l Hlo Hs) as [_ Hlen].
  pose proof (lo_pos _ _ _ Hlo). rewrite (lo_log _ _ _ Hlo) by lia. unfold entry.
  rewrite lookup_ge_None_2 by (rewrite Hlen; lia). unfold ummu_mcmdq_build_sync_cmd.
  destruct (sync_word_bit (if msipoll then u64 (base_pa + Q_IDX (llq_of 0 0)
     (ummu_queue_inc_prod_n (llq_of (l_prod l) 0) (l_end l - 1 - l_pos l)) * 32) else 0) sev)
    as (w & r & -> & Hb). simpl hd. intros E.
  apply (f_equal (fun z => Z.testbit z 0)) in E. rewrite Z.land_spec, Hb in E. discriminate E.
Qed.

(** A completed [CMD_SYNC] has been consumed. *)
Lemma consumed_end s l r : ginv s -> tinv s (SyncPoll l r) ->
  ummu_queue_consumed (llq_of 0 (rv r)) (sync_prod l) = true -> l_end l <= rg r.
Proof.
  intros Hg (Hlo & Hh & Hs & Hc & Hr) Hcon. pose proof (gi_order _ Hg). destruct (Hh Hs) as [Hf _].
  pose proof (lo_pos _ _ _ Hlo). pose proof cap_pos.
  destruct (sync_prod_ptr s l Hlo Hs) as [Hp _]. rewrite Hp in Hcon.
  unfold llq_of in Hcon. rewrite (consumed_cong n 0 (rv r) (ptr n false (rg r))) in Hcon; [|lia|].
  - apply (consumed_counts (llq_of 0 (ptr n false (rg r))) false false (rg r) (l_end l - 1)
      size_n eq_refl) in Hcon; simpl; lia.
  - unfold cong. rewrite (cong_ptr n false _ size_n). apply Hc.
Qed.

Lemma msi_end s l : ginv s -> tinv s (MsiPoll l) ->
  Z.land (hd 0 (ring s (Q_IDX (llq_of 0 0) (sync_prod l)))) (2 ^ 32 - 1) = 0 -> l_end l <= n_done s.
Proof.
  intros Hg (Hlo & Hh & Hs) Hz. pose proof (gi_order _ Hg). destruct (Hh Hs) as [Hf Hv].
  pose proof (lo_pos _ _ _ Hlo). pose proof (lo_end _ _ _ Hlo).
  destruct (sync_prod_ptr s l Hlo Hs) as [Hp _]. rewrite Hp, idx_llq in Hz.
  destruct (Z.le_gt_cases (l_end l) (n_done s)) as [|Hgt]; [done|exfalso].
  rewrite (gi_ring _ Hg) in Hz; [|lia|apply Hv; lia].
  unfold content in Hz. rewrite (proj2 (Z.ltb_ge _ _)) in Hz by lia.
  by apply (sync_entry_live s l).
Qed.

Lemma st_check s ths i l r ok : inv (s, ths) -> ths !! i = Some (CheckPa l r ok) ->
  inv (s, <[i := TryUnlock l r ok
    (check_pa_continuity_nop_exec (ring s (Q_IDX (llq_of 0 0) (l_prod l))))]> ths).
Proof.
  intros Hinv Hi. pose proof Hinv as [Hg Ht _ Hl]. simpl in *.
  destruct (Ht i _ Hi) as (Hlo & Hh & Hs & Hr). pose proof Hlo as [Ho1 Ho2 Ho3 Ho4 Ho5 Ho6].
  apply (inv_pure s ths i (CheckPa l r ok)); try done; try quiet.
  refine (conj Hlo (conj Hh (conj Hs (conj Hr _)))). intros Hok. destruct Hr as (_ & Hr & He).
  specialize (He Hok). split; [lia|]. destruct (Hh Hs) as [Hf Hv]. f_equal.
  rewrite Ho4, idx_llq, (gi_ring _ Hg) by (try apply Hv; lia). unfold content.
  by rewrite (proj2 (Z.ltb_lt _ _)) by lia.
Qed.

Lemma st_try_last s ths i l r ok ret : inv (s, ths) -> ths !! i = Some (TryUnlock l r ok ret) ->
  lock s = 1 -> inv (s, <[i := UpdCons l r ok ret]> ths).
Proof.
  intros Hinv Hi Hl1. pose proof Hinv as [Hg Ht _ Hl]. simpl in *.
  pose proof (Ht i _ Hi) as Htt. destruct Htt as (Hlo & Hh & Hs & Hr & Hret).
  apply (inv_pure s ths i (TryUnlock l r ok ret)); try done; try quiet.
  intros j b l' r' ok' ret' Hj Hb _. destruct (li_shared _ _ Hl ltac:(lia)) as [_ Hc].
  apply (count_one holder ths i j (TryUnlock l r ok ret) b); try done. lia.
Qed.

(** A CPU that reads the consumer value of its completion. *)
Lemma st_to_check s ths i ph l r ok : inv (s, ths) -> ths !! i = Some ph ->
  slots_of ph = Some l -> holder ph = true -> excl ph = false -> waiter ph = false ->
  (forall l ok ret, ph <> Unlock l ok ret) -> local_ok s l -> held s l (l_end l) ->
  c_sync (l_call l) = true -> rd_ok s l r ok ->
  (l_end l <= rg r \/ n_done s <= rg r) -> inv (s, <[i := CheckPa l r ok]> ths).
Proof.
  intros Hinv Hi Hsl Hho Hex Hwa Hun Hlo Hh Hs Hr Hlate.
  apply (inv_pure s ths i ph); try done.
  - simpl. intros l' [= <-]. done.
  - intros _. left. by rewrite Hsl.
  - simpl. intros r' [= <-]. right. destruct Hlate as [H|H]; [right|by left].
    exists l. split_and!; try done. pose proof (lo_pos _ _ _ Hlo). lia.
  - by rewrite Hho.
  - left. by rewrite Hwa.
Qed.

Lemma st_sync s ths i late ph s' ph' : inv (s, ths) -> ths !! i = Some ph ->
  (exists l, ph = SyncLoad l \/ (exists r, ph = SyncPoll l r) \/ (exists t, ph = SyncRead l t) \/
     ph = MsiPoll l \/ ph = MsiRead l) ->
  tstep late s ph = Some (s', ph') -> inv (s', <[i := ph']> ths).
Proof.
  intros Hinv Hi (l & Hph) Hst. pose proof Hinv as [Hg Ht _ Hl]. simpl in *.
  pose proof (gi_order _ Hg) as Ho. pose proof (gi_hwc _ Hg) as Hhc. pose proof (gi_cons _ Hg) as Hqc.
  pose proof (Ht i _ Hi) as Htt.
  destruct Hph as [->|[[r ->]|[[t ->]|[-> | ->]]]]; simpl in Hst.
  - injection Hst as <- <-. destruct Htt as (Hlo & Hh & Hs).
    apply (inv_pure s ths i (SyncLoad l)); try done; try quiet.
    simpl. pose proof (lo_end _ _ _ Hlo). split_and!; done || lia.
  - destruct (ummu_queue_consumed _ _) eqn:Hc; injection Hst as <- <-.
    + pose proof (consumed_end s l r Hg Htt Hc) as He. destruct Htt as (Hlo & Hh & Hs & Hcg & Hr).
      apply (st_to_check s ths i (SyncPoll l r)); try done; [|by left].
      destruct (Hh Hs). pose proof (lo_pos _ _ _ Hlo). split_and!; done || lia.
    + destruct Htt as (Hlo & Hh & Hs & _).
      apply (inv_pure s ths i (SyncPoll l r)); try done; try quiet.
  - destruct Htt as (Hlo & Hh & Hs). destruct t; injection Hst as <- <-.
    + apply (st_to_check s ths i (SyncRead l true)); try done; [|by right].
      split_and!; simpl; done || lia.
    + apply (inv_pure s ths i (SyncRead l false)); try done; try quiet.
      simpl. pose proof (lo_end _ _ _ Hlo). split_and!; done || lia.
  - destruct (Z.eqb_spec (Z.land (hd 0 (ring s (Q_IDX (llq_of 0 0) (sync_prod l)))) (2 ^ 32 - 1)) 0) as [Hz|].
    + injection Hst as <- <-. pose proof (msi_end s l Hg Htt Hz) as He. destruct Htt as (Hlo & Hh & Hs).
      destruct (Hh Hs). pose proof (lo_pos _ _ _ Hlo). destruct (sync_prod_ptr s l Hlo Hs) as [Hp _].
      apply (st_to_check s ths i (MsiPoll l)); try done; [|by left]. simpl. rewrite Hp, inc_llq by lia.
      unfold rd_ok; simpl. replace (l_end l - 1 + 1) with (l_end l) by lia.
      split_and!; try lia. apply cong_ptr, size_n.
    + destruct Htt as (Hlo & Hh & Hs).
      destruct late; injection Hst as <- <-; apply (inv_pure s ths i (MsiPoll l)); try done; quiet.
  - injection Hst as <- <-. destruct Htt as (Hlo & Hh & Hs).
    apply (st_to_check s ths i (MsiRead l)); try done; [|by right]. split_and!; simpl; done || lia.
Qed.

(** The steps around the allocation that change no shared data. *)
Lemma st_early s ths i ph ph' : inv (s, ths) -> ths !! i = Some ph -> tinv s ph' ->
  slots_of ph' = None -> holder ph' = false -> holder ph = false -> rd_of ph' = None ->
  excl ph' = excl ph -> waiter ph' = waiter ph -> inv (s, <[i := ph']> ths).
Proof.
  intros Hinv Hi Ht Hs Hh' Hh Hr He Hw. apply (inv_pure s ths i ph); try done.
  - by rewrite Hs.
  - intros j b l r ok ret _ _ E. rewrite E in Hs. discriminate Hs.
  - by rewrite Hh'.
  - by rewrite Hr.
  - by rewrite Hh'.
  - by left.
Qed.

Lemma st_cpu s ths i ph late s' ph' : inv (s, ths) -> ths !! i = Some ph ->
  tstep late s ph = Some (s', ph') -> inv (s', <[i := ph']> ths).
Proof.
  intros Hinv Hi Hst. pose proof (in_t _ Hinv i ph Hi) as Ht.
  pose proof (in_g _ Hinv) as Hg. simpl in Ht, Hg.
  destruct ph; try (solve [apply (st_sync s ths i late _ s' ph' Hinv Hi); [eexists; eauto 6|exact Hst]]);
    simpl in Hst; try done; try (injection Hst as <- <-).
  - by apply (st_early s ths i (Load c)).
  - destruct (ummu_queue_has_space _ _) eqn:Hsp; simpl in Hst.
    + destruct (Z.eqb_spec (q_prod s) prod) as [<-|], (Z.eqb_spec (q_cons s) cons) as [<-|];
        injection Hst as <- <-; try (by apply (st_early s ths i (Alloc c prod cons)));
        try (by apply (st_early s ths i (Alloc c (q_prod s) cons)));
        try (by apply (st_early s ths i (Alloc c prod (q_cons s)))).
      by apply st_alloc.
    + injection Hst as <- <-. by apply (st_early s ths i (Alloc c prod cons)).
  - destruct (Z.eqb_spec (lock s) 0); injection Hst as <- <-; [by apply st_not_full|].
    by apply (st_early s ths i (NotFull c)).
  - apply (st_early s ths i (ExclRead c)); try done. simpl. pose proof (gi_order _ Hg).
    split_and!; [done|apply (gi_hwc _ Hg)|lia|lia].
  - by apply st_excl_write.
  - by apply st_excl_unlock.
  - by apply (st_early s ths i (ExclReload c)).
  - destruct (_ && _); injection Hst as <- <-; by apply (st_early s ths i (Spin c)).
  - destruct (Z.ltb_spec i0 (size (l_call l))); injection Hst as <- <-; [by apply st_write|].
    destruct Ht as (Hlo & Hga & Hp & Hk & Hw). assert (i0 = size (l_call l)) as -> by lia.
    fold (l_end l) in Hw. destruct (lock_valid_tinv s l Hg Hlo Hga Hp Hw) as [Hv Hd].
    destruct (c_sync (l_call l)) eqn:Hs;
      apply (inv_pure s ths i (Writing l (size (l_call l)))); try done; try quiet.
  - by apply st_lock.
  - destruct (Z.leb_spec 0 (lock s)); [injection Hst as <- <-|done].
    destruct Ht as (Hlo & Hga & Hp & Hw & Hs). apply (inv_pure s ths i (LockWait l)); try done; quiet.
  - destruct (Z.eqb_spec (lock s) val) as [<-|]; injection Hst as <- <-; [by apply st_lock_cas|].
    destruct Ht as (Hlo & Hga & Hp & Hw & Hs & _). apply (inv_pure s ths i (LockCas l val)); try done; quiet.
  - destruct (Z.eqb_spec p (l_head l)) as [->|]; injection Hst as <- <-; [by apply st_valid_end|].
    by apply st_mark.
  - destruct (Z.eqb_spec (owner_prod s) (l_prod l)); [injection Hst as <- <-|done]. by apply st_own_wait.
  - by apply st_own_clear.
  - destruct (Z.eqb_spec p prod) as [->|]; [injection Hst as <- <-; by apply st_own_polled|].
    destruct (chunk_valid _ _ _) eqn:Hc; [injection Hst as <- <-|done]. by apply st_own_poll.
  - by apply st_own_pub.
  - by apply st_own_done.
  - by apply st_check.
  - destruct (Z.eqb_spec (lock s) 1); injection Hst as <- <-; [by apply st_try_last|].
    destruct Ht as (Hlo & Hh & Hs & Hr & Hret).
    apply (inv_pure s ths i (TryUnlock l r ok ret)); try done; quiet.
  - by apply st_upd_cons.
  - by apply st_unlock.
Qed.

(** The hardware consumes an entry. *)
Lemma st_hw s ths v e : inv (s, ths) -> hw_ready s -> cong n v (hw_cons s + 1) ->
  inv (hw_fetch s v e, ths).
Proof.
  intros Hinv Hrdy Hv. pose proof Hinv as [Hg Ht Hp Hl]. simpl in *.
  pose proof (gi_order _ Hg) as Ho. pose proof (gi_hwc _ Hg) as Hc. pose proof (gi_hwp _ Hg) as Hhp.
  assert (Hlt : n_done s < n_pub s).
  { destruct (decide (n_done s = n_pub s)) as [E|]; [|lia]. destruct Hrdy. unfold cong in *. by rewrite Hc, Hhp, E. }
  assert (Hidx : Q_IDX (llq_of 0 0) (hw_cons s) = n_done s mod cap).
  { destruct (idx_wrp_cong (llq_of 0 0) (hw_cons s) (n_done s)) as [-> _]; [simpl; lia|done|].
    apply Q_IDX_mod. simpl. lia. }
  assert (Hf : ring s (n_done s mod cap) = log s (n_done s)).
  { rewrite (gi_ring _ Hg); [|lia|apply (gi_valid _ Hg); lia]. unfold content.
    by rewrite (proj2 (Z.ltb_ge _ _)) by lia. }
  constructor; simpl; try done.
  - pose proof Hg as [H1 H2 H3 H4 H5 H6 H7 H8 H9 H10 H11 H12]. constructor; simpl; try done; try lia.
    + unfold cong in *. rewrite Hv, <- Zplus_mod_idemp_l, Hc, Zplus_mod_idemp_l. done.
    + intros X HX HvX. rewrite Hidx. unfold content. simpl. destruct (decide (X = n_done s)) as [->|Hne].
      * rewrite ring_same, Z.eqb_refl, (proj2 (Z.ltb_lt _ _)) by lia. done.
      * rewrite ring_other by (done || lia). rewrite (proj2 (Z.eqb_neq _ _)) by done.
        rewrite H10 by done. unfold content.
        destruct (Z.ltb_spec X (n_done s)), (Z.ltb_spec X (n_done s + 1)); done || lia.
    + rewrite Hidx, Hf, H11, seqZ_app, map_app by lia. done.
  - intros i ph Hi. apply (tinv_frame s); [done|by apply (Ht i)|].
    constructor; simpl; try done; try lia.
    + intros l Y Hlb HY HpY Hu. pose proof (lo_end _ _ _ (slots_local s ph l (Ht i ph Hi) Hlb)).
      split_and!; try done. rewrite Hidx. apply ring_other; [done|lia|lia|lia].
    + intros X HX. by rewrite (proj2 (Z.eqb_neq _ _)) by lia.
  - destruct Hl as [H1 H2 H3]. by constructor.
Qed.

Lemma inv_init r k : Z.of_nat k < 2 ^ 31 - 1 -> inv (init_mcmdq r, replicate k Idle).
Proof.
  intros Hk. pose proof cap_pos.
  assert (Hid : forall i ph, replicate k Idle !! i = Some ph -> ph = Idle)
    by (intros i ph Hi; by apply lookup_replicate in Hi as [-> _]).
  assert (Hc : forall f, f Idle = false -> count f (replicate k Idle) = 0).
  { intros f Hf. unfold count, zsum. clear -Hf. induction k; simpl; rewrite ?Hf; [done|]. simpl. lia. }
  constructor; simpl.
  - constructor; simpl; try done; try lia.
    intros X HX. unfold valid, vbit. simpl valid_map. rewrite Z.bits_0. symmetry. apply negb_false_iff.
    rewrite Z.testbit_odd, Z.shiftr_div_pow2 by lia.
    replace (X / cap) with (-1); [done|]. apply (Z.div_unique_pos _ _ _ (X + cap)); lia.
  - intros i ph Hi. by rewrite (Hid i ph Hi).
  - intros i j a b _ Ha Hb. rewrite (Hid i a Ha), (Hid j b Hb). split; done.
  - constructor; simpl; rewrite ?length_replicate, ?Hc by done; lia.
Qed.

Lemma inv_reachable x : reachable x -> inv x.
Proof.
  induction 1 as [r k Hk|x y _ IH Hs]; [by apply inv_init|].
  destruct Hs as [s ths i ph c Hi Hph Hc|s ths i ph late s' ph' Hi Hst|s ths v e Hr Hv].
  - apply (st_early s ths i ph); try done.
    all: destruct Hph as [->|(l & ok & ret & ->)]; done.
  - by apply (st_cpu s ths i ph late).
  - by apply st_hw.
Qed.

(** ** Executions *)

(** A schedule: who moves next. *)
Inductive event :=
  | ev_start (i : nat) (c : call)
  | ev_cpu (i : nat) (late : bool)
  | ev_hw (v : Z) (e : word).

Definition idle (ph : phase) : bool := match ph with Idle | Done _ _ _ => true | _ => false end.

Definition exec (ev : event) (x : system) : option system :=
  let '(s, ths) := x in
  match ev with
  | ev_start i c =>
    ph ← ths !! i;
    if idle ph && (1 <=? size c) then Some (s, <[i := Load c]> ths) else None
  | ev_cpu i late =>
    ph ← ths !! i;
    '(s', ph') ← tstep late s ph;
    Some (s', <[i := ph']> ths)
  | ev_hw v e =>
    if bool_decide (cong n (hw_cons s) (hw_prod s)) then None
    else if bool_decide (cong n v (hw_cons s + 1)) then Some (hw_fetch s v e, ths) else None
  end.

Fixpoint run (evs : list event) (x : system) : option system :=
  match evs with
  | [] => Some x
  | ev :: evs' => y ← exec ev x; run evs' y
  end.

Lemma exec_step ev x y : exec ev x = Some y -> step x y.
Proof.
  destruct x as [s ths], ev as [i c|i late|v e]; simpl; intros H.
  - destruct (ths !! i) as [ph|] eqn:Hi; [|done]. cbn [mbind option_bind] in H.
    destruct (idle ph) eqn:Hid; [|done]. destruct (Z.leb_spec 1 (size c)); [|done].
    injection H as <-. apply (step_start s ths i ph c); [done| |done].
    destruct ph as [| | | | | | | | | | | | | | | | | | | | | | | | | | | | l ok ret]; try discriminate Hid; [by left|].
    right. by exists l, ok, ret.
  - destruct (ths !! i) as [ph|] eqn:Hi; [|done]. cbn [mbind option_bind] in H.
    destruct (tstep late s ph) as [[s' ph']|] eqn:Ht; [|done]. injection H as <-. by eapply step_cpu.
  - do 2 (case_bool_decide; try done). injection H as <-. by apply step_hw.
Qed.

Lemma run_reachable evs : forall x y, reachable x -> run evs x = Some y -> reachable y.
Proof.
  induction evs as [|ev evs IH]; intros x y Hx H; simpl in H; [by injection H as <-|].
  destruct (exec ev x) as [z|] eqn:E; [|done]. apply (IH z); [|done].
  apply (reach_step x); [done|]. by apply exec_step in E.
Qed.

(** ** Progress *)

(** A CPU that still has to mark the slot of position [X]. *)
Definition covers (ph : phase) (X : Z) : Prop :=
  match ph with
  | Writing l _ | Lock l | LockWait l | LockCas l _ => l_pos l <= X < l_end l
  | Valid l p => exists P, p = ptr n false P /\ l_pos l <= P <= X /\ X < l_end l
  | _ => False
  end.
Definition is_closing (ph : phase) : bool :=
  match ph with OwnPoll _ _ _ | OwnPub _ _ | OwnDone _ _ => true | _ => false end.

(** For everything a CPU can wait for there is a CPU that brings it about. *)
Record pending_inv (x : system) : Prop := {
  pe_mark : forall X, n_pub x.1 <= X < n_alloc x.1 -> unmarked x.1 X ->
    exists i ph, x.2 !! i = Some ph /\ covers ph X;
  pe_close : n_own x.1 < n_close x.1 -> exists i ph, x.2 !! i = Some ph /\ is_closing ph = true;
}.

(** A step that leaves the positions and the map as they are, and does not leave a phase
    that others wait for. *)
Lemma pending_keep s s' ths i ph ph' : ths !! i = Some ph ->
  valid_map s' = valid_map s -> n_pub s <= n_pub s' -> n_alloc s' = n_alloc s -> n_own s' = n_own s ->
  n_close s' = n_close s ->
  (forall X, n_pub s <= X -> covers ph X -> covers ph' X) ->
  (is_closing ph = true -> is_closing ph' = true) ->
  pending_inv (s, ths) -> pending_inv (s', <[i := ph']> ths).
Proof.
  intros Hi Hm Hpub Ha Ho Hc Hcov Hcl [H1 H2]. simpl in *.
  assert (Hlt : (i < length ths)%nat) by (by eapply lookup_lt_Some).
  constructor; simpl.
  - unfold unmarked. rewrite Hm, Ha. intros X HX Hu. destruct (H1 X) as (j & b & Hj & Hb); [lia|done|].
    destruct (decide (j = i)) as [->|Hne].
    + exists i, ph'. rewrite list_lookup_insert_eq by done. split; [done|].
      apply Hcov; [lia|]. congruence.
    + exists j, b. by rewrite list_lookup_insert_ne.
  - rewrite Ho, Hc. intros Hlo. destruct (H2 Hlo) as (j & b & Hj & Hb).
    destruct (decide (j = i)) as [->|Hne].
    + exists i, ph'. rewrite list_lookup_insert_eq by done. split; [done|]. apply Hcl. congruence.
    + exists j, b. by rewrite list_lookup_insert_ne.
Qed.

Lemma pending_take s ths i c : inv (s, ths) -> ths !! i = Some (Alloc c (q_prod s) (q_cons s)) ->
  ummu_queue_has_space (llq_of (q_prod s) (q_cons s)) (size c) = true -> pending_inv (s, ths) ->
  pending_inv (take_slots s
        (Z.lor (ummu_queue_inc_prod_n (llq_of (q_prod s) (q_cons s)) (size c)) MCMDQ_PROD_OWNED_FLAG)
        (q_cons s) (new_local s c), <[i := Writing (new_local s c) 0]> ths).
Proof.
  intros Hinv Hi Hsp [H1 H2]. simpl in *.
  assert (Hlt : (i < length ths)%nat) by (by eapply lookup_lt_Some). constructor; simpl.
  - intros X HX Hu. destruct (Z.lt_ge_cases X (n_alloc s)).
    + destruct (H1 X ltac:(lia) Hu) as (j & b & Hj & Hb). exists j, b.
      rewrite list_lookup_insert_ne; [done|]. intros ->. rewrite Hi in Hj. by injection Hj as <-.
    + exists i, (Writing (new_local s c) 0). rewrite list_lookup_insert_eq by done. split; [done|].
      unfold covers, l_end. simpl. lia.
  - intros Hlo. destruct (H2 Hlo) as (j & b & Hj & Hb). exists j, b.
    rewrite list_lookup_insert_ne; [done|]. intros ->. rewrite Hi in Hj. by injection Hj as <-.
Qed.

Lemma pending_mark s ths i l p : inv (s, ths) -> ths !! i = Some (Valid l p) -> p <> l_head l ->
  pending_inv (s, ths) ->
  pending_inv (set_map s (set_chunk (valid_map s) (llq_of p 0) (l_head l)),
       <[i := Valid l (chunk_next (llq_of p 0) (l_head l))]> ths).
Proof.
  intros Hinv Hi Hne [Hm1 Hm2]. pose proof Hinv as [Hg Ht _ Hl]. simpl in *.
  destruct (Ht i _ Hi) as (Hlo & Hga & X & -> & HX & [Hp1 Hp2] & Hw & Hh).
  pose proof Hlo as [Ho1 Ho2 Ho3 Ho4 Ho5 Ho6]. pose proof (gi_order _ Hg) as Ho.
  assert (HXE : X < l_end l).
  { destruct (decide (X = l_end l)) as [->|]; [|lia]. destruct Hne. done. }
  specialize (Hp1 HXE). rewrite Ho5.
  destruct (set_chunk_spec n size_n ltac:(lia) (valid_map s) X (l_end l) 0 ltac:(lia))
    as (len & Hlen & HlE & Hnext & Hbits). fold (llq_of (ptr n false X) 0) in *. rewrite Hnext.
  set (m' := set_chunk _ _ _) in *.
  assert (Hlt : (i < length ths)%nat) by (by eapply lookup_lt_Some). constructor; simpl.
  - intros Y HY Hu. destruct (decide (X <= Y < X + len)) as [Hin|Hout].
    { exfalso. apply (valid_unmarked _ _ (mark_in s X len m' Hg Hlen Hp1 ltac:(lia) Hbits Y Hin
        (Hp2 Y ltac:(lia)))). done. }
    apply (mark_out s X len m' Hg Hlen Hp1 ltac:(lia) Hbits Y ltac:(lia) Hout) in Hu.
    destruct (Hm1 Y HY Hu) as (j & b & Hj & Hb). destruct (decide (j = i)) as [->|Hji].
    + exists i, (Valid l (ptr n false (X + len))). rewrite list_lookup_insert_eq by done. split; [done|].
      rewrite Hi in Hj. injection Hj as <-. destruct Hb as (P & HP & HPr & HYE).
      assert (P = X) as ->.
      { destruct (Z.le_gt_cases P X).
        - apply (ptr_inj n size_n (proj1 Hn6)); [lia|done].
        - symmetry. apply (ptr_inj n size_n (proj1 Hn6)); [lia|done]. }
      exists (X + len). split_and!; done || lia.
    + exists j, b. by rewrite list_lookup_insert_ne.
  - intros Hlow. destruct (Hm2 Hlow) as (j & b & Hj & Hb). exists j, b.
    rewrite list_lookup_insert_ne; [done|]. intros ->. rewrite Hi in Hj. by injection Hj as <-.
Qed.

(** The CPUs other than [i] bring about what is waited for. *)
Lemma pending_close s ths i l : ths !! i = Some (OwnClear l) -> pending_inv (s, ths) ->
  pending_inv (close_range s, <[i := OwnPoll l (clear_owned (q_prod s)) (l_prod l)]> ths).
Proof.
  intros Hi [H1 H2]. simpl in *. assert (Hlt : (i < length ths)%nat) by (by eapply lookup_lt_Some).
  constructor; simpl.
  - intros X HX Hu. destruct (H1 X HX Hu) as (j & b & Hj & Hb). exists j, b.
    rewrite list_lookup_insert_ne; [done|]. intros ->. rewrite Hi in Hj. by injection Hj as <-.
  - intros _. eexists i, _. by rewrite list_lookup_insert_eq.
Qed.

Lemma pending_done s ths i l p : ths !! i = Some (OwnDone l p) -> pending_inv (s, ths) ->
  pending_inv (set_owner s p, <[i := after_owner l]> ths).
Proof.
  intros Hi [H1 H2]. simpl in *. constructor; simpl; [|lia].
  intros X HX Hu. destruct (H1 X HX Hu) as (j & b & Hj & Hb). exists j, b.
  rewrite list_lookup_insert_ne; [done|]. intros ->. rewrite Hi in Hj. by injection Hj as <-.
Qed.

Lemma covers_marked s l X : tinv s (Valid l (l_head l)) -> ~ covers (Valid l (l_head l)) X.
Proof.
  intros (Hlo & _) (P & HP & HPr & HX). pose proof Hlo as [Ho1 Ho2 Ho3 Ho4 Ho5 Ho6].
  assert (P = l_end l) by (apply (ptr_inj n size_n (proj1 Hn6)); [lia|by rewrite <- HP]). lia.
Qed.

Lemma pending_cpu s ths i ph late s' ph' : inv (s, ths) -> ths !! i = Some ph ->
  tstep late s ph = Some (s', ph') -> pending_inv (s, ths) -> pending_inv (s', <[i := ph']> ths).
Proof.
  intros Hinv Hi Hst Hpe. pose proof (in_t _ Hinv i ph Hi) as Ht.
  pose proof (in_g _ Hinv) as Hg. simpl in Ht, Hg.
  assert (Hv : forall l X, local_ok s l -> l_pos l <= X < l_end l -> covers (Valid l (l_prod l)) X)
    by (intros l X Hlo HX; exists (l_pos l); split_and!; try lia; apply (lo_prod _ _ _ Hlo)).
  destruct ph; simpl in Hst; try done; try (injection Hst as <- <-);
    try (by apply (pending_keep s _ ths i _ _ Hi)).
  - destruct (ummu_queue_has_space _ _) eqn:Hsp; simpl in Hst.
    + destruct (Z.eqb_spec (q_prod s) prod) as [<-|], (Z.eqb_spec (q_cons s) cons) as [<-|];
        injection Hst as <- <-; [by apply pending_take|by apply (pending_keep s _ ths i _ _ Hi)..].
    + injection Hst as <- <-. by apply (pending_keep s _ ths i _ _ Hi).
  - destruct (_ =? _); injection Hst as <- <-; by apply (pending_keep s _ ths i _ _ Hi).
  - destruct (_ && _); injection Hst as <- <-; by apply (pending_keep s _ ths i _ _ Hi).
  - destruct (_ <? _); injection Hst as <- <-; apply (pending_keep s _ ths i _ _ Hi); try done.
    intros X _ HX. destruct (c_sync _); [done|]. apply Hv; [apply Ht|done].
  - apply (pending_keep s _ ths i _ _ Hi); try done.
    intros X _ HX. destruct (_ <=? _); [|done]. apply Hv; [apply Ht|done].
  - destruct (_ <=? _); [injection Hst as <- <-|done]. by apply (pending_keep s _ ths i _ _ Hi).
  - destruct (_ =? _); injection Hst as <- <-; apply (pending_keep s _ ths i _ _ Hi); try done.
    intros X _ HX. apply Hv; [apply Ht|done].
  - destruct (Z.eqb_spec p (l_head l)) as [->|]; injection Hst as <- <-; [|by apply pending_mark].
    apply (pending_keep s _ ths i _ _ Hi); try done. intros X _ HX. by destruct (covers_marked s l X).
  - destruct (_ =? _); [injection Hst as <- <-|done]. by apply (pending_keep s _ ths i _ _ Hi).
  - by apply pending_close.
  - destruct (_ =? _); [injection Hst as <- <-; by apply (pending_keep s _ ths i _ _ Hi)|].
    destruct (chunk_valid _ _ _); [injection Hst as <- <-|done]. by apply (pending_keep s _ ths i _ _ Hi).
  - apply (pending_keep s _ ths i _ _ Hi); try done. simpl. destruct (gi_pub _ Hg), (gi_own _ Hg); lia.
  - by apply pending_done.
  - destruct (ummu_queue_consumed _ _); injection Hst as <- <-; by apply (pending_keep s _ ths i _ _ Hi).
  - destruct (_ =? _), late; injection Hst as <- <-; by apply (pending_keep s _ ths i _ _ Hi).
  - destruct (_ =? _); injection Hst as <- <-; by apply (pending_keep s _ ths i _ _ Hi).
Qed.

Lemma pending_reachable x : reachable x -> pending_inv x.
Proof.
  induction 1 as [r k Hk|x y Hx IH Hs].
  { constructor; simpl; [|lia]. intros X HX. lia. }
  apply inv_reachable in Hx.
  destruct Hs as [s ths i ph c Hi Hph Hc|s ths i ph late s' ph' Hi Hst|s ths v e Hr Hv].
  - apply (pending_keep s s ths i ph); try done;
      destruct Hph as [->|(l & ok & ret & ->)]; done.
  - by apply (pending_cpu s ths i ph late).
  - destruct IH as [H1 H2]. by constructor.
Qed.

(** The phases in which a CPU writes, marks or publishes, or holds the lock exclusively. *)
Definition in_protocol (ph : phase) : bool :=
  match ph with
  | Writing _ _ | Lock _ | LockWait _ | LockCas _ _ | Valid _ _ | OwnClear _ | OwnPoll _ _ _
  | OwnPub _ _ | OwnDone _ _ | ExclRead _ | ExclWrite _ _ | ExclUnlock _ => true
  | _ => false
  end.
(** A CPU that cannot take a step. *)
Definition blocked (s : mcmdq) (ph : phase) : Prop := forall late, tstep late s ph = None.

Lemma count_exists (f : phase -> bool) (ths : list phase) :
  0 < count f ths -> exists i ph, ths !! i = Some ph /\ f ph = true.
Proof.
  unfold count, zsum. induction ths as [|x ths IH]; cbn [map foldr]; [lia|].
  destruct (f x) eqn:Hf; simpl Z.b2z.
  - intros _. by exists O, x.
  - intros H. destruct IH as (i & ph & Hi & Hp); [lia|]. by exists (S i), ph.
Qed.

(** Some CPU in the protocol can move. *)
Definition can_move (x : system) : Prop :=
  exists j b, x.2 !! j = Some b /\ in_protocol b = true /\ tstep false x.1 b <> None.

Lemma excl_moves x : inv x -> lock x.1 < 0 -> can_move x.
Proof.
  intros Hinv Hl. destruct (li_excl _ _ (in_l _ Hinv) Hl) as (He & _ & _).
  destruct (count_exists excl x.2) as (j & b & Hj & Hb); [lia|]. exists j, b. split; [done|].
  by destruct b.
Qed.

Lemma cover_moves x j b X : inv x -> x.2 !! j = Some b -> covers b X -> can_move x.
Proof.
  intros Hinv Hj Hb. destruct (decide (lock x.1 < 0)) as [Hl|Hl]; [by apply excl_moves|].
  exists j, b. split; [done|]. destruct b; try done; (split; [done|]); simpl.
  - by destruct (_ <? _).
  - by rewrite (proj2 (Z.leb_le _ _)) by lia.
  - by destruct (_ =? _).
  - by destruct (_ =? _).
Qed.

Lemma poll_moves x j l p y : inv x -> pending_inv x -> x.2 !! j = Some (OwnPoll l p y) -> can_move x.
Proof.
  intros Hinv Hpe Hj. pose proof (in_g _ Hinv) as Hg. pose proof (in_t _ Hinv j _ Hj) as Ht.
  destruct (tstep false x.1 (OwnPoll l p y)) as [z|] eqn:Hst.
  { exists j, (OwnPoll l p y). rewrite Hst. done. }
  destruct Ht as (Hlo & Hh & (Hc1 & -> & Hc3) & Hpub & X & -> & HX & Hv).
  pose proof (gi_own _ Hg) as How. pose proof (gi_order _ Hg) as Ho.
  simpl in Hst. destruct (Z.eqb_spec (ptr n false X) (ptr n false (n_close x.1))) as [|Hne]; [done|].
  destruct (chunk_valid _ _ _) eqn:Hcv; [done|].
  assert (HXE : X < n_close x.1) by (destruct (decide (X = n_close x.1)) as [->|]; [done|lia]).
  destruct (poll_chunk_spec n size_n ltac:(lia) (valid_map x.1) X (n_close x.1) 0 ltac:(lia))
    as (len & Hlen & HlE & _ & Hbits). fold (llq_of (ptr n false X) 0) in Hbits.
  (* the first slot of the chunk that is not valid *)
  destruct (find_from (fun Y => negb (Bool.eqb (vbit (valid_map x.1) (Y mod cap)) (negb (Z.testbit Y n))))
    X (Z.to_nat len)) as [Y|] eqn:Hfind.
  - apply find_from_Some in Hfind as (HY & HbY & _). apply negb_true_iff, eqb_false_iff in HbY.
    destruct (pe_mark _ Hpe Y) as (k & b & Hk & Hb); [lia| |by apply (cover_moves x k b Y)].
    unfold unmarked. destruct (vbit _ _), (Z.testbit Y n); done.
  - exfalso. rewrite (proj2 Hbits) in Hcv; [done|]. intros Y HY.
    pose proof (find_from_None _ _ _ Hfind Y ltac:(lia)) as HbY.
    by apply negb_false_iff, eqb_prop in HbY.
Qed.

Lemma blocked_moves x i ph : inv x -> pending_inv x -> x.2 !! i = Some ph -> idle ph = false ->
  blocked x.1 ph -> can_move x.
Proof.
  intros Hinv Hpe Hi Hid Hb. pose proof (in_g _ Hinv) as Hg. pose proof (in_t _ Hinv i _ Hi) as Ht.
  specialize (Hb false). destruct ph; simpl in Hb; try done;
    try (by destruct (_ =? _)); try (by destruct (_ <? _)); try (by destruct (_ && _));
    try (by destruct (ummu_queue_consumed _ _)).
  - by destruct (ummu_queue_has_space _ _), (_ && _).
  - apply excl_moves; [done|]. destruct (Z.leb_spec 0 (lock x.1)); [done|lia].
  - destruct Ht as (Hlo & Hga & Hown & _). destruct (Hga Hown) as [Hcl _].
    pose proof (gi_own _ Hg). destruct (pe_close _ Hpe) as (j & b & Hj & Hcb).
    { destruct (decide (n_own x.1 = n_close x.1)) as [E|]; [|lia]. exfalso.
      rewrite (proj2 (Z.eqb_eq _ _)) in Hb; [done|].
      by rewrite (gi_owner _ Hg), (lo_prod _ _ _ Hlo), Hcl, E. }
    destruct b; try discriminate Hcb; [by eapply poll_moves|by eexists j, _..].
  - by eapply poll_moves.
Qed.

(** What a step of a CPU leaves alone. *)
Lemma cpu_monotone s ths i ph late s' ph' : inv (s, ths) -> ths !! i = Some ph ->
  tstep late s ph = Some (s', ph') ->
  (forall X, n_freed s <= X < n_pub s -> ring s' (X mod cap) = ring s (X mod cap)) /\
  n_pub s <= n_pub s' /\ n_freed s <= n_freed s' /\ n_alloc s <= n_alloc s'.
Proof.
  intros Hinv Hi Hs. pose proof Hinv as [Hg Ht Hp _]. simpl in *.
  pose proof (gi_order _ Hg) as Ho. pose proof (gi_own _ Hg) as How. pose proof (gi_pub _ Hg) as Hpu.
  pose proof (Ht i ph Hi) as Hti.
  destruct ph; simpl in Hs; try done;
    repeat match type of Hs with context [if ?b then _ else _] => destruct b eqn:? end; try done;
    injection Hs as <- <-; simpl; try (split_and!; done || lia).
  - simpl in Hti. split_and!; done || lia.
  - destruct Hti as (_ & _ & Hr). split_and!; done || lia.
  - destruct Hti as (Hlo & _ & [H1 _] & Hk & _). pose proof Hlo as [Ho1 Ho2 Ho3 Ho4 Ho5 Ho6].
    unfold l_end in *. bprop. assert (cap <= 2 ^ 30) by (apply Z.pow_le_mono_r; lia).
    specialize (H1 ltac:(lia)). rewrite Ho4, inc_llq, idx_llq by lia. split_and!; try lia.
    intros X HX. apply ring_other; [done|lia|lia|lia].
  - destruct Hti as (_ & _ & _ & (_ & Hr & _) & _). split_and!; done || lia.
Qed.

(** ** The claims *)

(** C1. The hardware executes what was asked, in order.  In every state that any number of
    CPUs and the hardware can reach, the commands fetched so far are exactly the commands
    of the first positions in the order of their allocation (the commands of a call are
    contiguous and end with its [CMD_SYNC]); every slot that is published and not yet
    fetched holds its command; at most [2^n] slots are in use, and the software's and the
    hardware's pointers are those of the counters. *)
Theorem mcmdq_hw_order (s : mcmdq) (ths : list phase) (Hr : reachable (s, ths)) :
  fetched s = map (log s) (seqZ 0 (n_done s)) /\
  (forall X, n_done s <= X < n_pub s -> ring s (X mod cap) = log s X) /\
  0 <= n_freed s <= n_done s /\ n_done s <= n_pub s <= n_alloc s /\ n_alloc s <= n_freed s + cap /\
  cong n (q_prod s) (n_alloc s) /\ cong n (q_cons s) (n_freed s) /\
  cong n (hw_prod s) (n_pub s) /\ cong n (hw_cons s) (n_done s).
Proof.
  pose proof (in_g _ (inv_reachable _ Hr)) as Hg. simpl in Hg. pose proof (gi_order _ Hg) as Ho.
  split_and!; try lia; try apply Hg.
  - intros X HX. rewrite (gi_ring _ Hg); [|lia|apply (gi_valid _ Hg); lia]. unfold content.
    by rewrite (proj2 (Z.ltb_ge _ _)) by lia.
  - rewrite (gi_prod _ Hg). apply cong_ptr, size_n.
Qed.

(** C2. No interference.  CPUs hold disjoint slots, none of which is published while its
    CPU still writes; a step of a CPU leaves every slot that is published and not yet
    reclaimed as it is, and never moves the producer register of the hardware, nor the
    consumer pointer of the software, backwards. *)
Theorem mcmdq_no_interference (s s' : mcmdq) (ths : list phase) (i : nat) (ph ph' : phase) (late : bool)
    (Hr : reachable (s, ths)) (Hi : ths !! i = Some ph) (Hs : tstep late s ph = Some (s', ph')) :
  (forall j k a b la lb, j <> k -> ths !! j = Some a -> ths !! k = Some b ->
     slots_of a = Some la -> slots_of b = Some lb -> l_end la <= l_pos lb \/ l_end lb <= l_pos la) /\
  (forall l k, ph = Writing l k -> n_pub s <= l_pos l) /\
  (forall X, n_freed s <= X < n_pub s -> ring s' (X mod cap) = ring s (X mod cap)) /\
  n_pub s <= n_pub s' /\ n_freed s <= n_freed s' /\ n_alloc s <= n_alloc s'.
Proof.
  pose proof (inv_reachable _ Hr) as Hinv. pose proof Hinv as [Hg Ht Hp _]. simpl in *.
  split; [|split; [|by apply (cpu_monotone s ths i ph late s' ph')]].
  - intros j k a b la lb Hjk Ha Hb Hla Hlb. by apply (Hp j k a b Hjk Ha Hb).
  - intros l k ->. destruct (Ht i _ Hi) as (Hlo & _ & [H1 _] & _). apply H1. apply (lo_pos _ _ _ Hlo).
Qed.

(** C3. Completion.  A call that returns after it saw its [CMD_SYNC] complete (through the
    consumer register or through the message that overwrites the command) returns only
    after the hardware fetched every one of its commands, in order, and its result is
    computed from the slot of its first command as the hardware left it: the slot has not
    been reused in between. *)
Theorem mcmdq_sync_complete (s : mcmdq) (ths : list phase) (i : nat) (l : local) (ret : Z)
    (Hr : reachable (s, ths)) (Hi : ths !! i = Some (Done l true ret)) :
  (forall k, 0 <= k < size (l_call l) -> fetched s !! Z.to_nat (l_pos l + k) = Some (entry l k)) /\
  ret = check_pa_continuity_nop_exec (resp s (l_pos l)).
Proof.
  pose proof (inv_reachable _ Hr) as [Hg Ht _ _]. simpl in *.
  destruct (Ht i _ Hi) as (Hlo & Hret). destruct (Hret eq_refl) as [He ->]. split; [|done].
  pose proof Hlo as [Ho1 Ho2 Ho3 Ho4 Ho5 Ho6]. intros k Hk. unfold l_end in *.
  rewrite (gi_fetched _ Hg), list_lookup_fmap, lookup_seqZ_lt by lia. simpl. f_equal.
  rewrite Z2Nat.id by lia. rewrite Ho6 by lia. f_equal. lia.
Qed.

(** C4. The private lock.  An exclusive holder excludes every other holder, shared ones
    included; while there is none, the lock word counts the shared holders; and a CPU about
    to store a consumer value holds one that lies between the stored one and the hardware's. *)
Theorem mcmdq_lock_exclusive (s : mcmdq) (ths : list phase) (Hr : reachable (s, ths)) :
  (forall i j a b, i <> j -> ths !! i = Some a -> ths !! j = Some b -> excl a = true ->
     excl b = false /\ holder b = false) /\
  (0 <= lock s -> lock s = count holder ths /\ count excl ths = 0) /\
  (lock s < 0 -> count excl ths = 1 /\ count holder ths = 0) /\
  (forall i ph r, ths !! i = Some ph ->
     ((exists c, ph = ExclWrite c r) \/ (exists l ok ret, ph = UpdCons l r ok ret)) ->
     cong n (rv r) (rg r) /\ n_freed s <= rg r <= n_done s).
Proof.
  pose proof (inv_reachable _ Hr) as [Hg Ht _ Hl]. simpl in *. split_and!.
  - intros i j a b Hij Ha Hb He.
    destruct (excl_alone s ths i j a b Hl Ha He (not_eq_sym Hij) Hb). done.
  - intros H. destruct (li_shared _ _ Hl H). done.
  - intros H. destruct (li_excl _ _ Hl H) as (? & ? & _). done.
  - intros i ph r Hi [[c ->]|(l & ok & ret & ->)]; specialize (Ht i _ Hi).
    + apply Ht.
    + destruct Ht as (_ & _ & _ & (H1 & H2 & _) & _). done.
Qed.

(** C5. No deadlock.  Whenever a CPU in the middle of a call cannot take a step (it waits
    for the previous owner, for the slots of others to become valid or for the lock), some
    CPU that writes, marks, publishes or holds the lock exclusively can. *)
Theorem mcmdq_no_deadlock (s : mcmdq) (ths : list phase) (i : nat) (ph : phase)
    (Hr : reachable (s, ths)) (Hi : ths !! i = Some ph) (Hid : idle ph = false)
    (Hb : blocked s ph) :
  exists j b, ths !! j = Some b /\ in_protocol b = true /\ tstep false s b <> None.
Proof.
  apply (blocked_moves (s, ths) i ph); try done; [by apply inv_reachable|by apply pending_reachable].
Qed.
End Code.

(** ** Witnesses *)

(** Two CPUs on a queue of 64 entries: the first sends a command and waits, the second
    sends one and waits while the first publishes for both. *)
Definition ex_call (k : Z) : call := {| c_cmds := [[k; 0; 0; 0]]; c_sync := true |}.
Definition times (k : nat) (ev : event) : list event := replicate k ev.
Definition ex_sched : list event :=
  ev_start 0 (ex_call 0x91) :: ev_start 1 (ex_call 0x92) ::
  times 2 (ev_cpu 0 false) ++ times 2 (ev_cpu 1 false) ++
  times 5 (ev_cpu 1 false) ++ times 12 (ev_cpu 0 false).
Definition ex_done : list event :=
  ex_sched ++ [ev_hw 1 [0; 0; 0; 0]; ev_hw 2 [0; 0; 0; 0]] ++ times 7 (ev_cpu 0 false).
(** The first CPU closes the range before the second has marked its slots. *)
Definition ex_block : list event :=
  ev_start 0 (ex_call 0x91) :: ev_start 1 (ex_call 0x92) ::
  times 2 (ev_cpu 0 false) ++ times 2 (ev_cpu 1 false) ++ times 8 (ev_cpu 0 false).
Definition ex_run (evs : list event) : option system :=
  run 6 false false 0 (2 ^ 31) evs (init_mcmdq (2 ^ 31) (fun _ => []), [Idle; Idle]).

Abbreviation ex_reachable := (reachable 6 false false 0 (2 ^ 31)).

Lemma ex_reach evs x : ex_run evs = Some x -> ex_reachable x.
Proof.
  apply run_reachable. apply (reach_init 6 false false 0 (2 ^ 31) (fun _ => []) 2). lia.
Qed.

Definition ex_local (k : Z) (own : bool) (p : Z) : local :=
  {| l_call := ex_call k; l_prod := p; l_head := p + 2; l_owner := own; l_pos := p |}.

Lemma ex_n : 6 <= 6 <= 30.
Proof. lia. Qed.
Lemma ex_en : cong 6 (2 ^ 31) 0.
Proof. reflexivity. Qed.

(** A fact about the end of a run, found by evaluation. *)
Lemma ex_end {A} evs (f : system -> A) y : f <$> ex_run evs = Some y ->
  exists s ths, ex_run evs = Some (s, ths) /\ f (s, ths) = y.
Proof. destruct (ex_run evs) as [[s ths]|]; [|done]. intros [= <-]. by exists s, ths. Qed.

Lemma mcmdq_hw_order_witness : exists s ths, ex_run ex_done = Some (s, ths) /\ n_done s = 2 /\
  fetched s = map (log s) (seqZ 0 (n_done s)) /\ ring s (3 mod 2 ^ 6) = log s 3.
Proof.
  destruct (ex_end ex_done (fun x => (n_done x.1, n_pub x.1)) (2, 4)) as (s & ths & E & Hd);
    [vm_compute; reflexivity|]. injection Hd as Hd Hp.
  destruct (mcmdq_hw_order 6 false false 0 (2 ^ 31) ex_n ex_en s ths (ex_reach _ _ E)) as (Hf & Hx & _).
  exists s, ths. split_and!; [done|done|done|]. apply Hx. lia.
Defined.

Lemma mcmdq_no_interference_witness : exists s ths s' ph',
  ex_run ex_sched = Some (s, ths) /\
  tstep 6 false false 0 (2 ^ 31) false s (Valid (ex_local 0x92 false 2) 4) = Some (s', ph') /\
  n_pub s = 4 /\ ring s' (3 mod 2 ^ 6) = ring s (3 mod 2 ^ 6).
Proof.
  destruct (ex_end ex_sched (fun x => (n_freed x.1, n_pub x.1, x.2 !! 1%nat))
    (0, 4, Some (Valid (ex_local 0x92 false 2) 4))) as (s & ths & E & Hd);
    [vm_compute; reflexivity|]. injection Hd as Hd Hp Hi.
  exists s, ths, s, (SyncLoad (ex_local 0x92 false 2)).
  assert (Hs : tstep 6 false false 0 (2 ^ 31) false s (Valid (ex_local 0x92 false 2) 4) =
    Some (s, SyncLoad (ex_local 0x92 false 2))) by reflexivity.
  destruct (mcmdq_no_interference 6 false false 0 (2 ^ 31) ex_n ex_en s s ths 1 _ _ false
    (ex_reach _ _ E) Hi Hs) as (_ & _ & Hx & _).
  split_and!; [done|done|done|]. apply Hx. lia.
Defined.

Lemma mcmdq_sync_complete_witness : exists s ths,
  ex_run ex_done = Some (s, ths) /\ ths !! 0%nat = Some (Done (ex_local 0x91 true 0) true 0) /\
  fetched s !! 0%nat = Some [0x91; 0; 0; 0].
Proof.
  destruct (ex_end ex_done (fun x => x.2 !! 0%nat) (Some (Done (ex_local 0x91 true 0) true 0)))
    as (s & ths & E & Hi); [vm_compute; reflexivity|]. cbn [snd] in Hi.
  exists s, ths. split_and!; [done|done|].
  destruct (mcmdq_sync_complete 6 false false 0 (2 ^ 31) ex_n ex_en s ths 0 _ _ (ex_reach _ _ E) Hi)
    as [Hf _]. apply (Hf 0). vm_compute. split; [discriminate|reflexivity].
Defined.

Lemma mcmdq_lock_exclusive_witness : exists s ths,
  ex_run ex_sched = Some (s, ths) /\ lock s = 2 /\ count holder ths = 2 /\ count excl ths = 0.
Proof.
  destruct (ex_end ex_sched (fun x => lock x.1) 2) as (s & ths & E & Hd); [vm_compute; reflexivity|].
  cbn [fst] in Hd. exists s, ths.
  destruct (mcmdq_lock_exclusive 6 false false 0 (2 ^ 31) ex_n ex_en s ths (ex_reach _ _ E))
    as (_ & Hl & _). destruct (Hl ltac:(lia)). split_and!; [done|done|lia|done].
Defined.

Lemma mcmdq_no_deadlock_witness : exists s ths,
  ex_run ex_block = Some (s, ths) /\ ths !! 0%nat = Some (OwnPoll (ex_local 0x91 true 0) 4 0) /\
  exists j b, ths !! j = Some b /\ in_protocol b = true /\ tstep 6 false false 0 (2 ^ 31) false s b <> None.
Proof.
  destruct (ex_end ex_block (fun x => (x.2 !! 0%nat, chunk_valid (valid_map x.1) (llq_of 6 0 0) 4))
    (Some (OwnPoll (ex_local 0x91 true 0) 4 0), false)) as (s & ths & E & Hd); [vm_compute; reflexivity|].
  injection Hd as Hi Hm. exists s, ths. split_and!; [done|done|].
  apply (mcmdq_no_deadlock 6 false false 0 (2 ^ 31) ex_n ex_en s ths 0 _ (ex_reach _ _ E) Hi eq_refl).
  intros late. cbn [tstep owner_publish]. change (0 =? 4) with false. cbv iota. by rewrite Hm.
Defined.
