(* ===== verification/UmmuEvents.v ===== *)
(** * Events and errors of the UMMU

    [drivers/iommu/hisilicon/interrupt.c]: the threaded handler of the event queue
    ([ummu_evtq_thread]), the handling of page faults ([ummu_handle_iopf], the response
    [ummu_page_response]), and the handler of global errors ([ummu_gerror_handler], which
    skips the command a queue stopped at).  The event queue is the ring of [UmmuQueue]; the
    hardware produces into it while the thread runs, so the component is a step relation
    over the accesses of the two. *)

From S2P Require Import Prelude UmmuQueue UmmuCmd.

(** ** Events *)

Definition EVTQ_ENT_DWORDS : nat := 8.
Definition EVTQ_ENT0_CODE := GENMASK 7 0.
Definition EVTQ_ENT0_RNW := Z.shiftl 1 11.
Definition EVTQ_ENT0_IND := Z.shiftl 1 12.
Definition EVTQ_ENT0_PNU := Z.shiftl 1 13.
Definition EVTQ_ENT0_CLS := GENMASK 15 14.
Definition EVTQ_ENT0_NSIPA := Z.shiftl 1 16.
Definition EVTQ_ENT0_S2 := Z.shiftl 1 17.
Definition EVTQ_ENT0_STALL := Z.shiftl 1 18.
Definition EVTQ_ENT0_TID := GENMASK 51 32.
Definition EVTQ_ENT1_STAG := GENMASK 15 0.
Definition EVTQ_ENT2_IPA := GENMASK 51 12.
Definition EVTQ_ENT3_IADDR := GENMASK 63 0.
Definition EVTQ_ENT4_TECTE_TAG := GENMASK 15 0.

(** A [struct device], by its address. *)
Abbreviation device := Z (only parsing).

(** [struct ummu_device_event]; the one-bit fields are booleans. *)
Record ummu_device_event := {
  code : Z;
  read : bool;
  instruction : bool;
  privileged : bool;
  cls : Z;
  ns_ipa : bool;
  s2 : bool;
  stall : bool;
  stag : Z;
  tect_tag : Z;
  tid : Z;
  ipa : Z;
  iova : Z;
  dev : option device;
}.

(** [struct iommu_fault_page_request] of a fault (its [type] is always a page request). *)
Record iommu_fault := {
  flags : Z;
  pasid : Z;
  grpid : Z;
  perm : Z;
  addr : Z;
  private_data0 : Z;
  private_data1 : Z;
}.

Definition IOMMU_FAULT_PERM_READ : Z := 1.
Definition IOMMU_FAULT_PERM_WRITE : Z := 2.
Definition IOMMU_FAULT_PERM_EXEC : Z := 4.
Definition IOMMU_FAULT_PERM_PRIV : Z := 8.
Definition IOMMU_FAULT_PAGE_REQUEST_PASID_VALID : Z := 1.
Definition IOMMU_FAULT_PAGE_REQUEST_LAST_PAGE : Z := 2.
Definition IOMMU_FAULT_PAGE_REQUEST_PRIV_DATA : Z := 4.
Definition IOMMU_PAGE_RESP_SUCCESS : Z := 0.
Definition IOMMU_PAGE_RESP_INVALID : Z := 1.
Definition IOMMU_PAGE_RESP_FAILURE : Z := 2.

(** [struct iommu_domain], whether it has an address space and is the kernel's, and the
    logic domain that designates it as its agent. *)
Record iommu_domain := { mm : bool; ksva : bool }.
Record logic_ummu_domain := { agent_domain : iommu_domain }.
Definition iommu_to_agent_domain (d : logic_ummu_domain) : iommu_domain := agent_domain d.

(** What the handlers ask of the other layers: the device of a tid, the domain attached
    to it, and the fault handler of the IOMMU core. *)
Record world := {
  ummu_core_get_device : Z -> option device;
  ummu_core_get_domain_by_tid : device -> Z -> option logic_ummu_domain;
  iommu_report_device_fault : device -> iommu_fault -> Z;
}.

(** What the handlers do, in order. *)
Inductive effect :=
  | GetDevice (d : device)
  | PutDevice (d : device)
  | Report (d : device) (f : iommu_fault)
  | Issue (e : ummu_mcmdq_ent).

Definition word (raw : list Z) (i : nat) : Z := nth i raw 0.

(** [ummu_device_decode_event]: the event, and the reference it takes on the device. *)
Definition ummu_device_decode_event (w : world) (raw : list Z) :
    ummu_device_event * list effect :=
  let t := u32 (FIELD_GET EVTQ_ENT0_TID (word raw 0)) in
  let d := ummu_core_get_device w t in
  let bit m := ctrue (FIELD_GET m (word raw 0)) in
  ({| code := u8 (FIELD_GET EVTQ_ENT0_CODE (word raw 0));
      read := bit EVTQ_ENT0_RNW;
      instruction := bit EVTQ_ENT0_IND;
      privileged := bit EVTQ_ENT0_PNU;
      cls := uwrap 2 (FIELD_GET EVTQ_ENT0_CLS (word raw 0));
      ns_ipa := bit EVTQ_ENT0_NSIPA;
      s2 := bit EVTQ_ENT0_S2;
      stall := bit EVTQ_ENT0_STALL;
      tid := t;
      stag := u16 (FIELD_GET EVTQ_ENT1_STAG (word raw 1));
      ipa := Z.land (word raw 2) EVTQ_ENT2_IPA;
      iova := FIELD_GET EVTQ_ENT3_IADDR (word raw 3);
      tect_tag := u16 (FIELD_GET EVTQ_ENT4_TECTE_TAG (word raw 4));
      dev := d |},
   match d with Some d => [GetDevice d] | None => [] end).

(** [ummu] is the address of the device, which the fault carries back to the response. *)
Definition ummu_make_iommu_fault (ummu : Z) (evt : ummu_device_event) : iommu_fault :=
  {| flags := Z.lor (Z.lor IOMMU_FAULT_PAGE_REQUEST_LAST_PAGE IOMMU_FAULT_PAGE_REQUEST_PRIV_DATA)
                IOMMU_FAULT_PAGE_REQUEST_PASID_VALID;
     grpid := stag evt;
     perm := Z.lor (Z.lor (if instruction evt then IOMMU_FAULT_PERM_EXEC else 0)
                      (if privileged evt then IOMMU_FAULT_PERM_PRIV else 0))
               (if read evt then IOMMU_FAULT_PERM_READ else IOMMU_FAULT_PERM_WRITE);
     addr := iova evt;
     private_data0 := tect_tag evt;
     private_data1 := ummu;
     pasid := tid evt |}.

(** The [CMD_STALL_RESUME] entries; the fields [tag] and [tect_tag] have 16 bits. *)
Definition resume_ent (retry abort : bool) (tag tect : Z) : ummu_mcmdq_ent :=
  {| opcode := CMD_STALL_RESUME; member := stall_resume false retry abort (u16 tect) (u16 tag) |}.

(** [resp_grpid] and [resp_code] are the fields of the response. *)
Definition ummu_page_response (f : iommu_fault) (resp_grpid resp_code : Z) : list effect :=
  if negb (ctrue (Z.land (flags f) IOMMU_FAULT_PAGE_REQUEST_PRIV_DATA)) then []
  else if (resp_code =? IOMMU_PAGE_RESP_INVALID) || (resp_code =? IOMMU_PAGE_RESP_FAILURE) then
    [Issue (resume_ent false true resp_grpid (private_data0 f))]
  else if resp_code =? IOMMU_PAGE_RESP_SUCCESS then
    [Issue (resume_ent true false resp_grpid (private_data0 f))]
  else [].

Definition ummu_abort_page_fault (gripid tect : Z) : list effect :=
  [Issue (resume_ent false true (u32 gripid) (u32 tect))].

Definition ummu_report_iommu_fault (w : world) (evt_src : device) (t : Z) : bool :=
  match ummu_core_get_domain_by_tid w evt_src t with
  | None => false
  | Some d =>
    let domain := iommu_to_agent_domain d in
    negb (negb (mm domain) || ksva domain)
  end.

Definition ummu_handle_iopf (w : world) (ummu : Z) (evt : ummu_device_event) : Z * list effect :=
  let flt := ummu_make_iommu_fault ummu evt in
  let abort_req := ummu_abort_page_fault (grpid flt) (private_data0 flt) in
  if s2 evt then (- EFAULT, abort_req)
  else
    match dev evt with
    | None => (- EINVAL, abort_req)
    | Some d =>
      if negb (ummu_report_iommu_fault w d (pasid flt)) then (- EOPNOTSUPP, abort_req)
      else
        let ret := iommu_report_device_fault w d flt in
        if ctrue ret then (ret, Report d flt :: abort_req) else (0, [Report d flt])
    end.

Definition ummu_device_handle_evt (w : world) (ummu : Z) (evt : ummu_device_event) :
    Z * list effect :=
  if stall evt then ummu_handle_iopf w ummu evt else (- EOPNOTSUPP, []).

Definition ummu_core_put_device (d : option device) : list effect :=
  match d with Some d => [PutDevice d] | None => [] end.

(** The body of the inner loop of [ummu_evtq_thread]. *)
Definition handle_raw (w : world) (ummu : Z) (raw : list Z) : list effect :=
  let '(event, e1) := ummu_device_decode_event w raw in
  let '(_, e2) := ummu_device_handle_evt w ummu event in
  e1 ++ e2 ++ ummu_core_put_device (dev event).

(** ** The thread and the hardware *)

(** Where the thread is: not running, at [ummu_queue_remove_raw], at the body of the inner
    loop with the event it read, at [ummu_queue_sync_prod_in], at the condition of the outer
    loop, at [ummu_queue_sync_cons_ovf]. *)
Inductive ephase := EIdle | ERemove | EHandle (raw : list Z) | ESync | ECheck | EOvf.

(** The queue, the thread, the events the hardware put on the queue and those it dropped,
    and the events handled with what was done for each. *)
Record estate := {
  evq : ummu_queue;
  phase : ephase;
  produced : list (list Z);
  lost : nat;
  handled : list (list Z * list effect);
}.

Definition eset (s : estate) (q : ummu_queue) (p : ephase) : estate :=
  {| evq := q; phase := p; produced := produced s; lost := lost s; handled := handled s |}.

(** One access of [ummu_evtq_thread]; an interrupt starts it. *)
Definition ummu_evtq_thread (w : world) (ummu : Z) (s : estate) : estate :=
  match phase s with
  | EIdle => eset s (evq s) ERemove
  | ERemove =>
    let '(ret, ent, q) := ummu_queue_remove_raw (evq s) in
    match ent with
    | Some raw => eset s q (if ret =? 0 then EHandle raw else ESync)
    | None => eset s q ESync
    end
  | EHandle raw =>
    {| evq := evq s; phase := ERemove; produced := produced s; lost := lost s;
       handled := handled s ++ [(raw, handle_raw w ummu raw)] |}
  | ESync => eset s (snd (ummu_queue_sync_prod_in (evq s))) ECheck
  | ECheck => eset s (evq s) (if ummu_queue_empty (llq (evq s)) then EOvf else ERemove)
  | EOvf => eset s (ummu_queue_sync_cons_ovf (evq s)) EIdle
  end.

(** The queue as the hardware sees it, through the registers. *)
Definition hw_view (q : ummu_queue) : ummu_ll_queue :=
  {| prod := prod_reg q; cons := cons_reg q; log2size := log2size (llq q) |}.

(** The hardware records an event: in the ring when it is not full, else the event is lost
    and the overflow flag is toggled unless an overflow is still to be acknowledged. *)
Definition hw_event (e : list Z) (s : estate) : estate :=
  let q := evq s in
  let v := hw_view q in
  if negb (ummu_queue_full v) then
    {| evq := {| llq := llq q;
                base := fun i => if i =? Q_IDX v (prod_reg q) then e else base q i;
                prod_reg := ummu_queue_inc_prod_n v 1;
                cons_reg := cons_reg q |};
       phase := phase s; produced := produced s ++ [e]; lost := lost s; handled := handled s |}
  else
    {| evq := {| llq := llq q; base := base q;
                prod_reg := if Q_OVF (prod_reg q) =? Q_OVF (cons_reg q)
                            then Z.lxor (prod_reg q) Q_OVERFLOW_FLAG else prod_reg q;
                cons_reg := cons_reg q |};
       phase := phase s; produced := produced s; lost := S (lost s); handled := handled s |}.

Inductive estep (ummu : Z) : estate -> estate -> Prop :=
  | step_thread w s : estep ummu s (ummu_evtq_thread w ummu s)
  | step_hw e s : length e = EVTQ_ENT_DWORDS -> estep ummu s (hw_event e s).

(** The queue after [ummu_write_evtq_regs], empty. *)
Definition evtq_init (n : Z) : estate :=
  {| evq := {| llq := {| prod := 0; cons := 0; log2size := n |};
              base := fun _ => repeat 0 EVTQ_ENT_DWORDS; prod_reg := 0; cons_reg := 0 |};
     phase := EIdle; produced := []; lost := 0; handled := [] |}.

Definition ereachable (ummu n : Z) (s : estate) : Prop := rtc (estep ummu) (evtq_init n) s.

(** The events the thread has taken from the ring. *)
Definition taken (s : estate) : list (list Z) :=
  map fst (handled s) ++ match phase s with EHandle raw => [raw] | _ => [] end.

(** The thread alone, [k] accesses. *)
Fixpoint erun (w : world) (ummu : Z) (k : nat) (s : estate) : estate :=
  match k with
  | O => s
  | S k' => erun w ummu k' (ummu_evtq_thread w ummu s)
  end.

(** ** Global errors *)

Definition MCMDQ_CONS_ERR : Z := Z.shiftl 1 23.
Definition MCMDQ_PROD_ERRACK : Z := Z.shiftl 1 23.
Definition MCMDQ_CONS_ERR_REASON : Z := GENMASK 26 24.
Definition MCMDQ_CERROR_NONE_IDX : Z := 0.
Definition MCMDQ_CERROR_ILL_IDX : Z := 1.
Definition MCMDQ_CERROR_ABT_IDX : Z := 2.
Definition GERROR_MCMDQ_ERR : Z := Z.shiftl 1 0.
Definition GERROR_ERR_MASK : Z := GENMASK 6 0.

(** The parts of [struct ummu_mcmdq] the handler touches: the queue, and the shadow of the
    producer register that the CPUs publish from. *)
Record err_mcmdq := { mq : ummu_queue; mcmdq_prod : Z }.

Definition set_base (q : ummu_queue) (b : Z -> list Z) : ummu_queue :=
  {| llq := llq q; base := b; prod_reg := prod_reg q; cons_reg := cons_reg q |}.

(** [ummu_queue_write] of one entry. *)
Definition write_entry (q : ummu_queue) (p : Z) (c : list Z) : ummu_queue :=
  set_base q (fun i => if i =? Q_IDX (llq q) p then c else base q i).

(** [struct ummu_mcmdq_ent cmd_sync] of [ummu_device_mcmdq_skip_err]. *)
Definition cmd_sync : ummu_mcmdq_ent := {| opcode := CMD_SYNC; member := sync 0 false |}.

Definition ummu_device_mcmdq_skip_err (q : ummu_queue) : ummu_queue :=
  let c := cons_reg q in
  let rsn_idx := FIELD_GET MCMDQ_CONS_ERR_REASON c in
  if rsn_idx =? MCMDQ_CERROR_ABT_IDX then q
  else if rsn_idx =? MCMDQ_CERROR_NONE_IDX then q
  else
    match ummu_mcmdq_build_cmd cmd_sync with
    | Some (ret, cmd) => if ctrue ret then q else write_entry q c cmd
    | None => q
    end.

(** [v & ~ack | cons & err]. *)
Definition errack (v c : Z) : Z :=
  Z.lor (Z.land v (Z.lnot MCMDQ_PROD_ERRACK)) (Z.land c MCMDQ_CONS_ERR).

Section Gerror.
(** [pub m]: the producer register and its shadow when the handler holds the lock, after the
    CPUs that were issuing commands meanwhile.  The consumer register does not move, the
    queue being stopped at the error. *)
Variable pub : err_mcmdq -> Z * Z.

(** One iteration of the loop of [ummu_mcmdq_skip_err]. *)
Definition skip_err_one (m : err_mcmdq) : err_mcmdq :=
  let c := cons_reg (mq m) in
  if Z.land (Z.lxor (prod_reg (mq m)) c) MCMDQ_CONS_ERR =? 0 then m
  else
    let q := ummu_device_mcmdq_skip_err (mq m) in
    {| mq := {| llq := llq q; base := base q; prod_reg := errack (fst (pub m)) c;
                cons_reg := cons_reg q |};
       mcmdq_prod := errack (snd (pub m)) c |}.

Definition ummu_mcmdq_skip_err (l : list err_mcmdq) : list err_mcmdq := map skip_err_one l.

(** The registers [UMMU_GERROR] and [UMMU_GERRORN] and the command queues. *)
Record gstate := { gerror : Z; gerrorn : Z; mcmdqs : list err_mcmdq }.

(** Returns whether the interrupt was handled. *)
Definition ummu_gerror_handler (g : gstate) : bool * gstate :=
  let active := Z.lxor (gerror g) (gerrorn g) in
  if negb (ctrue (Z.land active GERROR_ERR_MASK)) then (false, g)
  else
    let l := if ctrue (Z.land active GERROR_MCMDQ_ERR) then ummu_mcmdq_skip_err (mcmdqs g)
             else mcmdqs g in
    (true, {| gerror := gerror g; gerrorn := gerror g; mcmdqs := l |}).
End Gerror.

(** ** The invariant of the queue *)

(** The registers and the shadow stand for the counters: [P] events produced, [S] of which
    the thread knows, [C] taken, and the ring holds those not taken. *)
Definition einv (n : Z) (s : estate) (fp fs fc : bool) (P S C : Z) : Prop :=
  let q := evq s in
  log2size (llq q) = n /\ prod_reg q = ptr n fp P /\ prod (llq q) = ptr n fs S /\
  cons (llq q) = ptr n fc C /\ cons_reg q = ptr n fc C /\
  (0 <= C <= S /\ S <= P /\ P - C <= 2 ^ n) /\
  P = Z.of_nat (length (produced s)) /\ taken s = take (Z.to_nat C) (produced s) /\
  forall X, C <= X < P -> produced s !! Z.to_nat X = Some (base q (X mod 2 ^ n)).

Section Evtq.
Context (ummu n : Z) (Hn : size_ok n).

Lemma shadow_counts (s : estate) fp fs fc P S C :
  einv n s fp fs fc P S C -> counts (llq (evq s)) fs fc S C.
Proof. intros (Hl & Hp & Hs & Hc & _ & Hb & _). unfold counts. rewrite Hl. split_and!; try done; lia. Qed.

Lemma view_counts (s : estate) fp fs fc P S C :
  einv n s fp fs fc P S C -> counts (hw_view (evq s)) fp fc P C.
Proof.
  intros (Hl & Hp & Hs & _ & Hc & Hb & _). unfold counts, hw_view. cbn.
  rewrite Hl. split_and!; try done; lia.
Qed.

Lemma ptr_flip (f : bool) (P : Z) : Z.lxor (ptr n f P) Q_OVERFLOW_FLAG = ptr n (negb f) P.
Proof.
  assert (Hz : Z.testbit (P mod 2 ^ (n + 1)) 31 = false).
  { apply Z.mod_pow2_bits_high. unfold size_ok in Hn. lia. }
  apply Z.bits_inj'. intros k Hk. unfold ptr. rewrite Z.lxor_spec, !Z.lor_spec.
  assert (Hf : Z.testbit Q_OVERFLOW_FLAG k = (31 =? k)).
  { unfold Q_OVERFLOW_FLAG. rewrite Z.shiftl_1_l. apply Z.pow2_bits_eqb. lia. }
  destruct f; cbn [negb]; rewrite ?Z.bits_0, Hf; destruct (Z.eqb_spec 31 k) as [<-|];
    rewrite ?Hz; cbn; rewrite ?xorb_false_r; done.
Qed.

Lemma index_ptr (q : ummu_ll_queue) (f : bool) (P : Z) :
  log2size q = n -> Q_IDX q (ptr n f P) = P mod 2 ^ n.
Proof. intros <-. by apply idx_ptr. Qed.

Lemma einv_init : einv n (evtq_init n) false false false 0 0 0.
Proof.
  assert (Hp : ptr n false 0 = 0) by (unfold ptr; rewrite Z.mod_0_l; [done|]; apply Z.pow_nonzero; unfold size_ok in Hn; lia).
  unfold einv. cbn. rewrite Hp. pose proof (pow2_pos n ltac:(unfold size_ok in Hn; lia)).
  split_and!; try done; intros; lia.
Qed.

Lemma ring_slot (X Y : Z) : X < Y < X + 2 ^ n -> X mod 2 ^ n <> Y mod 2 ^ n.
Proof.
  intros HXY E. pose proof (pow2_pos n ltac:(unfold size_ok in Hn; lia)).
  assert (HD : (Y - X) mod 2 ^ n = 0) by (rewrite Zminus_mod, E, Z.sub_diag; apply Z.mod_0_l; lia).
  rewrite Z.mod_small in HD; lia.
Qed.

Lemma einv_hw (s : estate) (e : list Z) fp fs fc P S C :
  einv n s fp fs fc P S C -> exists fp' P', einv n (hw_event e s) fp' fs fc P' S C.
Proof.
  intros H. pose proof (view_counts _ _ _ _ _ _ _ H) as Hv.
  pose proof (full_counts _ _ _ _ _ Hv) as Hf. cbn in Hf.
  destruct H as (Hl & Hp & Hs & Hc & Hr & Hb & HP & Ht & Hring). unfold hw_event.
  destruct (ummu_queue_full (hw_view (evq s))) eqn:Hfull; cbn [negb].
  - exists (if Bool.eqb fp fc then negb fp else fp), P. unfold einv. cbn [evq llq base prod_reg cons_reg produced].
    split_and!; try done; try lia.
    rewrite Hp, Hr, !ptr_ovf by done. destruct fp, fc; cbn; rewrite ?ptr_flip; done.
  - assert (P - C < 2 ^ n).
    { rewrite Hl in Hf. destruct (decide (P = C + 2 ^ n)) as [E|]; [|lia].
      by apply Hf in E. }
    exists fp, (P + 1). unfold einv. cbn [evq llq base prod_reg cons_reg produced].
    rewrite length_app. split_and!; try done; try (cbn [length]; lia).
    + rewrite (inc_prod_counts _ _ _ _ _ 1 Hv) by lia. cbn. by rewrite Hl.
    + rewrite take_app_le by lia. exact Ht.
    + intros X HX. assert (Hi : Q_IDX (hw_view (evq s)) (prod_reg (evq s)) = P mod 2 ^ n).
      { rewrite Hp. by apply index_ptr. }
      rewrite Hi. destruct (decide (X = P)) as [->|].
      * rewrite Z.eqb_refl, lookup_app_r by lia. by replace (Z.to_nat P - _)%nat with O by lia.
      * rewrite lookup_app_l by lia. rewrite Hring by lia.
        destruct (Z.eqb_spec (X mod 2 ^ n) (P mod 2 ^ n)) as [E|]; [|done].
        by apply ring_slot in E; [|lia].
Qed.

(** The shadow is the only thing the thread compares against. *)
Lemma remove_done (w : world) (s : estate) fp fs fc P S C :
  einv n s fp fs fc P S C -> phase s = ERemove -> S = C ->
  ummu_evtq_thread w ummu s = eset s (evq s) ESync.
Proof.
  intros H Hph E. unfold ummu_evtq_thread. rewrite Hph. unfold ummu_queue_remove_raw.
  by rewrite (proj2 (empty_counts _ _ _ _ _ (shadow_counts _ _ _ _ _ _ _ H)) E).
Qed.

Lemma remove_next (w : world) (s : estate) fp fs fc P S C :
  einv n s fp fs fc P S C -> phase s = ERemove -> C < S -> exists raw q,
  ummu_evtq_thread w ummu s = eset s q (EHandle raw) /\
  einv n (eset s q (EHandle raw)) fp fs fc P S (C + 1).
Proof.
  intros H Hph Hlt. pose proof (shadow_counts _ _ _ _ _ _ _ H) as Hsc.
  unfold ummu_evtq_thread. rewrite Hph. unfold ummu_queue_remove_raw.
  destruct (ummu_queue_empty (llq (evq s))) eqn:He.
  { apply (empty_counts _ _ _ _ _ Hsc) in He. lia. }
  rewrite Z.eqb_refl. do 2 eexists. split; [done|].
  destruct (counts_inc_cons _ _ _ _ _ Hsc He) as (_ & _ & Hc' & _).
  destruct H as (Hl & Hp & Hs & Hc & Hr & Hb & HP & Ht & Hring).
  cbn [ummu_queue_inc_cons set_cons log2size] in Hc'.
  unfold einv, eset, ummu_queue_sync_cons_out, set_llq. cbn [evq llq base prod_reg cons_reg produced].
  rewrite Hl in Hc'. split_and!; try done; try lia.
  - unfold taken in *. cbn [handled phase produced]. rewrite Hph, app_nil_r in Ht. rewrite Ht.
    unfold Q_ENT. rewrite Hc. replace (Z.to_nat (C + 1)) with (Datatypes.S (Z.to_nat C)) by lia.
    symmetry. apply take_S_r. rewrite Hring by lia. by rewrite index_ptr.
  - intros X HX. apply Hring. lia.
Qed.

Lemma einv_phase (s : estate) (p : ephase) fp fs fc P S C :
  einv n s fp fs fc P S C -> taken (eset s (evq s) p) = taken s ->
  einv n (eset s (evq s) p) fp fs fc P S C.
Proof. unfold einv, eset. cbn. intros H Ht. rewrite Ht. exact H. Qed.

Lemma taken_eset (s : estate) (q : ummu_queue) (p : ephase) :
  (forall raw, phase s <> EHandle raw) -> (forall raw, p <> EHandle raw) ->
  taken (eset s q p) = taken s.
Proof.
  intros H1 H2. unfold taken. cbn. f_equal.
  destruct (phase s); try done; try (by destruct (H1 raw)); destruct p; try done; by destruct (H2 raw).
Qed.

Lemma handle_inv (w : world) (s : estate) (raw : list Z) fp fs fc P S C :
  einv n s fp fs fc P S C -> phase s = EHandle raw ->
  einv n (ummu_evtq_thread w ummu s) fp fs fc P S C.
Proof.
  intros (Hl & Hp & Hs & Hc & Hr & Hb & HP & Ht & Hring) Hph. unfold ummu_evtq_thread. rewrite Hph.
  unfold einv. cbn [evq produced]. split_and!; try done; try lia.
  unfold taken in *. cbn. rewrite Hph in Ht. by rewrite map_app, app_nil_r.
Qed.

Lemma sync_inv (w : world) (s : estate) fp fs fc P S C :
  einv n s fp fs fc P S C -> phase s = ESync ->
  einv n (ummu_evtq_thread w ummu s) fp fp fc P P C.
Proof.
  intros (Hl & Hp & Hs & Hc & Hr & Hb & HP & Ht & Hring) Hph. unfold ummu_evtq_thread. rewrite Hph.
  unfold einv, ummu_queue_sync_prod_in, eset. cbn. split_and!; try done; try lia.
  unfold taken in *. cbn. by rewrite Hph in Ht.
Qed.

Lemma ovf_inv (w : world) (s : estate) fp fs fc P S C :
  einv n s fp fs fc P S C -> phase s = EOvf ->
  einv n (ummu_evtq_thread w ummu s) fp fs fs P S C.
Proof.
  intros H Hph. unfold ummu_evtq_thread. rewrite Hph.
  assert (Ht' : taken (eset s (ummu_queue_sync_cons_ovf (evq s)) EIdle) = taken s).
  { apply taken_eset; [by rewrite Hph|done]. }
  destruct H as (Hl & Hp & Hs & Hc & Hr & Hb & HP & Ht & Hring).
  unfold einv. rewrite Ht'. unfold eset, ummu_queue_sync_cons_ovf. cbn [evq produced].
  rewrite Hs, Hc, !ptr_ovf by done.
  destruct (Z.eqb_spec (if fs then Q_OVERFLOW_FLAG else 0) (if fc then Q_OVERFLOW_FLAG else 0)) as [E|E].
  - assert (fs = fc) as -> by (destruct fs, fc; done). split_and!; try done; lia.
  - cbn. rewrite <- Z.lor_assoc, low_bits by (rewrite Hl; unfold size_ok in Hn; lia).
    rewrite Hl, ptr_mod by (unfold size_ok in Hn; done || lia). split_and!; try done; lia.
Qed.

Lemma einv_thread (w : world) (s : estate) fp fs fc P S C :
  einv n s fp fs fc P S C -> exists fs' fc' S' C', einv n (ummu_evtq_thread w ummu s) fp fs' fc' P S' C'.
Proof.
  intros H. destruct (phase s) as [| |raw| | |] eqn:Hph.
  - exists fs, fc, S, C. unfold ummu_evtq_thread. rewrite Hph. apply einv_phase; [done|].
    apply taken_eset; by rewrite ?Hph.
  - destruct (decide (S = C)) as [E|].
    + exists fs, fc, S, C. rewrite (remove_done w s _ _ _ _ _ _ H Hph E). apply einv_phase; [done|].
      apply taken_eset; by rewrite ?Hph.
    + assert (C < S) by (destruct H as (_ & _ & _ & _ & _ & ? & _); lia).
      destruct (remove_next w s _ _ _ _ _ _ H Hph) as (raw & q & -> & H'); [done|]. by exists fs, fc, S, (C + 1).
  - exists fs, fc, S, C. by eapply handle_inv.
  - exists fp, fc, P, C. by eapply sync_inv.
  - exists fs, fc, S, C. unfold ummu_evtq_thread. rewrite Hph. apply einv_phase; [done|].
    apply taken_eset; [by rewrite Hph|]. by destruct (ummu_queue_empty _).
  - exists fs, fs, S, C. by eapply ovf_inv.
Qed.

Lemma ereachable_inv (s : estate) :
  ereachable ummu n s -> exists fp fs fc P S C, einv n s fp fs fc P S C.
Proof.
  unfold ereachable. intros H. revert s H. apply rtc_ind_r.
  - do 6 eexists. apply einv_init.
  - intros x y _ Hy (fp & fs & fc & P & S & C & Hx). destruct Hy as [w s0|e s0 _].
    + destruct (einv_thread w s0 _ _ _ _ _ _ Hx) as (fs' & fc' & S' & C' & ?). eauto 10.
    + destruct (einv_hw s0 e _ _ _ _ _ _ Hx) as (fp' & P' & ?). eauto 10.
Qed.

(** ** The thread alone *)

Lemma erun_add (w : world) (a b : nat) : forall s, erun w ummu (a + b) s = erun w ummu b (erun w ummu a s).
Proof. induction a as [|a IH]; intros s; cbn; [done|]. apply IH. Qed.

Lemma thread_produced (w : world) (s : estate) : produced (ummu_evtq_thread w ummu s) = produced s.
Proof.
  unfold ummu_evtq_thread. destruct (phase s); try done.
  unfold ummu_queue_remove_raw. by destruct (ummu_queue_empty _).
Qed.

Lemma erun_produced (w : world) (k : nat) : forall s, produced (erun w ummu k s) = produced s.
Proof. induction k as [|k IH]; intros s; cbn; [done|]. by rewrite IH, thread_produced. Qed.

Lemma erun_steps (w : world) (k : nat) : forall s, rtc (estep ummu) s (erun w ummu k s).
Proof.
  induction k as [|k IH]; intros s; [apply rtc_refl|]. eapply rtc_l; [apply (step_thread _ w)|]. apply IH.
Qed.

(** The inner loop takes every event the shadow knows of. *)
Lemma drain (w : world) (k : nat) : forall s fp fs fc P S C,
  einv n s fp fs fc P S C -> phase s = ERemove -> S = C + Z.of_nat k ->
  let s' := erun w ummu (2 * k + 1) s in einv n s' fp fs fc P S S /\ phase s' = ESync.
Proof.
  induction k as [|k IH]; intros s fp fs fc P S C H Hph HS.
  - cbn. assert (S = C) as -> by lia. rewrite (remove_done w s _ _ _ _ _ _ H Hph eq_refl).
    split; [|done]. apply einv_phase; [done|]. apply taken_eset; by rewrite ?Hph.
  - destruct (remove_next w s _ _ _ _ _ _ H Hph) as (raw & q & E & H'); [lia|].
    replace (2 * Datatypes.S k + 1)%nat with (2 + (2 * k + 1))%nat by lia.
    rewrite erun_add. cbn [erun]. rewrite E. apply (IH _ fp fs fc P S (C + 1)); [|done|lia].
    by apply (handle_inv w _ raw).
Qed.

(** Synchronising, and leaving the outer loop when that brought nothing new. *)
Lemma sync_leave (w : world) (s : estate) fp fs fc P S :
  einv n s fp fs fc P S S -> phase s = ESync -> S = P ->
  let s' := erun w ummu 3 s in einv n s' fp fp fp P P P /\ phase s' = EIdle.
Proof.
  intros H Hph HS. subst S. cbn [erun].
  pose proof (sync_inv w s _ _ _ _ _ _ H Hph) as H1.
  set (s1 := ummu_evtq_thread w ummu s) in *.
  assert (Hp1 : phase s1 = ECheck) by (unfold s1, ummu_evtq_thread; by rewrite Hph).
  pose proof (proj2 (empty_counts _ _ _ _ _ (shadow_counts _ _ _ _ _ _ _ H1)) eq_refl) as He.
  assert (E : ummu_evtq_thread w ummu s1 = eset s1 (evq s1) EOvf).
  { unfold ummu_evtq_thread. by rewrite Hp1, He. }
  rewrite E. split; [|done]. eapply ovf_inv; [|done]. apply einv_phase; [done|].
  apply taken_eset; by rewrite ?Hp1.
Qed.

(** Synchronising, and going around the outer loop. *)
Lemma sync_again (w : world) (s : estate) fp fs fc P S :
  einv n s fp fs fc P S S -> phase s = ESync -> S < P ->
  let s' := erun w ummu 2 s in einv n s' fp fp fc P P S /\ phase s' = ERemove.
Proof.
  intros H Hph HS. cbn [erun]. pose proof (sync_inv w s _ _ _ _ _ _ H Hph) as H1.
  set (s1 := ummu_evtq_thread w ummu s) in *.
  assert (Hp1 : phase s1 = ECheck) by (unfold s1, ummu_evtq_thread; by rewrite Hph).
  assert (E : ummu_evtq_thread w ummu s1 = eset s1 (evq s1) ERemove).
  { unfold ummu_evtq_thread. rewrite Hp1. destruct (ummu_queue_empty _) eqn:He; [|done].
    apply (empty_counts _ _ _ _ _ (shadow_counts _ _ _ _ _ _ _ H1)) in He. lia. }
  rewrite E. split; [|done]. apply einv_phase; [done|]. apply taken_eset; by rewrite ?Hp1.
Qed.

Lemma thread_drains (w : world) (s : estate) fp fs fc P S C :
  einv n s fp fs fc P S C -> phase s = EIdle -> exists k,
  Z.of_nat k <= 2 * (P - C) + 8 /\
  let s' := erun w ummu k s in einv n s' fp fp fp P P P /\ phase s' = EIdle.
Proof.
  intros H Hph. assert (Hb : 0 <= C <= S /\ S <= P) by (unfold einv in H; by destruct_and? H).
  assert (E : ummu_evtq_thread w ummu s = eset s (evq s) ERemove) by (unfold ummu_evtq_thread; by rewrite Hph).
  assert (H0 : einv n (eset s (evq s) ERemove) fp fs fc P S C).
  { apply einv_phase; [done|]. apply taken_eset; by rewrite ?Hph. }
  destruct (drain w (Z.to_nat (S - C)) _ _ _ _ _ _ _ H0 eq_refl) as [H1 Hp1]; [lia|].
  destruct (decide (S = P)) as [HSP|].
  - exists (1 + ((2 * Z.to_nat (S - C) + 1) + 3))%nat. split; [lia|].
    rewrite (erun_add w 1), (erun_add w (2 * _ + 1)).
    change (erun w ummu 1 s) with (ummu_evtq_thread w ummu s). rewrite E. by eapply sync_leave.
  - destruct (sync_again w _ _ _ _ _ _ H1 Hp1) as [H2 Hp2]; [lia|].
    destruct (drain w (Z.to_nat (P - S)) _ _ _ _ _ _ _ H2 Hp2) as [H3 Hp3]; [lia|].
    exists (1 + ((2 * Z.to_nat (S - C) + 1) + (2 + ((2 * Z.to_nat (P - S) + 1) + 3))))%nat.
    split; [lia|]. rewrite (erun_add w 1), (erun_add w (2 * _ + 1)), (erun_add w 2), (erun_add w (2 * _ + 1)).
    change (erun w ummu 1 s) with (ummu_evtq_thread w ummu s). rewrite E. by eapply sync_leave.
Qed.
End Evtq.

(** ** What is done for one event *)

Lemma field_get_bits (mask l k x : Z) :
  bf_shf mask = l -> mask = Z.shiftl (Z.ones k) l -> 0 <= l -> 0 <= k ->
  FIELD_GET mask x = (x / 2 ^ l) mod 2 ^ k.
Proof.
  intros Hs Hm Hl Hk. unfold FIELD_GET. rewrite Hs, Hm, Z.shiftr_land, Z.shiftr_shiftl_l by done.
  by rewrite Z.sub_diag, Z.shiftl_0_r, Z.land_ones, Z.shiftr_div_pow2.
Qed.

Lemma field_bit (mask l x : Z) :
  bf_shf mask = l -> mask = Z.shiftl 1 l -> 0 <= l -> ctrue (FIELD_GET mask x) = Z.testbit x l.
Proof.
  intros Hs Hm Hl. rewrite (field_get_bits mask l 1) by done.
  unfold ctrue. rewrite Z.testbit_eqb by done. change (2 ^ 1) with 2.
  pose proof (Z.mod_pos_bound (x / 2 ^ l) 2).
  destruct (Z.eqb_spec ((x / 2 ^ l) mod 2) 0), (Z.eqb_spec ((x / 2 ^ l) mod 2) 1); done || lia.
Qed.

(** Everything but the references to devices. *)
Definition is_action (e : effect) : bool :=
  match e with GetDevice _ | PutDevice _ => false | _ => true end.
Definition actions (l : list effect) : list effect := filter (fun e => is_action e = true) l.
Definition gets (l : list effect) : list device :=
  omap (fun e => match e with GetDevice d => Some d | _ => None end) l.
Definition puts (l : list effect) : list device :=
  omap (fun e => match e with PutDevice d => Some d | _ => None end) l.

(** The identifiers an event carries: the tags of the stalled transaction, the token. *)
Definition evt_stag (raw : list Z) : Z := u16 (word raw 1).
Definition evt_tect (raw : list Z) : Z := u16 (word raw 4).
Definition evt_tid (raw : list Z) : Z := (word raw 0 / 2 ^ 32) mod 2 ^ 20.

Lemma decode_fields (w : world) (raw : list Z) :
  let evt := fst (ummu_device_decode_event w raw) in
  stall evt = Z.testbit (word raw 0) 18 /\ s2 evt = Z.testbit (word raw 0) 17 /\
  stag evt = evt_stag raw /\ tect_tag evt = evt_tect raw /\ tid evt = evt_tid raw /\
  iova evt = u64 (word raw 3).
Proof.
  cbn [fst ummu_device_decode_event stall s2 stag tect_tag tid iova].
  assert (H16 : forall x, u16 (x mod 2 ^ 16) = u16 x) by (intros; apply Zmod_mod).
  split_and!.
  - by apply field_bit.
  - by apply field_bit.
  - rewrite (field_get_bits EVTQ_ENT1_STAG 0 16) by done. rewrite Z.pow_0_r, Z.div_1_r. apply H16.
  - rewrite (field_get_bits EVTQ_ENT4_TECTE_TAG 0 16) by done. rewrite Z.pow_0_r, Z.div_1_r. apply H16.
  - rewrite (field_get_bits EVTQ_ENT0_TID 32 20) by done. apply uwrap_small. unfold evt_tid.
    pose proof (Z.mod_pos_bound (word raw 0 / 2 ^ 32) (2 ^ 20)). lia.
  - rewrite (field_get_bits EVTQ_ENT3_IADDR 0 64) by done. by rewrite Z.pow_0_r, Z.div_1_r.
Qed.

Lemma u16_small (x : Z) : u16 (u32 (u16 x)) = u16 x.
Proof.
  pose proof (uwrap_range 16 x). rewrite (uwrap_small 32) by lia. apply uwrap_small. lia.
Qed.

(** The command a resume entry becomes, as the hardware reads it. *)
Lemma resume_command (double retry abort : bool) (tag tect : Z) : exists w0 w1 w2 w3,
  ummu_mcmdq_issue_cmd double (resume_ent retry abort tag tect) =
    Some (inr {| cmds := [[w0; w1; w2; w3]]; wait := false |}) /\
  FIELD_GET CMD_0_OP w0 = CMD_STALL_RESUME /\
  decode_cmd w0 w1 w2 w3 = Some (stall_resume false retry abort (u16 tect) (u16 tag)).
Proof.
  pose proof (uwrap_range 16 tect ltac:(lia)). pose proof (uwrap_range 16 tag ltac:(lia)).
  destruct (roundtrip_aux (resume_ent retry abort tag tect) _ ltac:(by split)
    ltac:(by cbn; unfold fits) eq_refl) as (w0 & w1 & w2 & w3 & E & Ho & [Hd|[Hd|Hd]]); try done.
  exists w0, w1, w2, w3. split; [|done]. unfold ummu_mcmdq_issue_cmd, issue_cmd, ummu_mcmdq_build_cmd.
  change (build_switch _) with (Some (0,
    [flag_or 0 false CMD_STALL_0_DSEC; flag_or 0 retry CMD_STALL_0_RETRY;
     flag_or 0 abort CMD_STALL_0_ABORT; prep_or 1 CMD_STALL_1_TAG (u16 tag);
     prep_or 2 CMD_STALL_2_TECT_TAG (u16 tect)])).
  cbn [mbind option_bind]. rewrite E. by destruct double.
Qed.

Lemma handle_raw_gets_puts (w : world) (ummu : Z) (raw : list Z) :
  let l := handle_raw w ummu raw in
  gets l = option_list (ummu_core_get_device w (evt_tid raw)) /\ puts l = gets l /\
  actions l = snd (ummu_device_handle_evt w ummu (fst (ummu_device_decode_event w raw))).
Proof.
  destruct (decode_fields w raw) as (_ & _ & _ & _ & Ht & _).
  unfold handle_raw. destruct (ummu_device_decode_event w raw) as [evt e1] eqn:Ed.
  cbn [fst] in *.
  assert (Hd : dev evt = ummu_core_get_device w (tid evt)) by (unfold ummu_device_decode_event in Ed; by injection Ed as <- <-).
  assert (He1 : e1 = match dev evt with Some d => [GetDevice d] | None => [] end)
    by (unfold ummu_device_decode_event in Ed; by injection Ed as <- <-).
  assert (Hact : forall x, x ∈ snd (ummu_device_handle_evt w ummu evt) -> is_action x = true).
  { intros x. unfold ummu_device_handle_evt, ummu_handle_iopf, ummu_abort_page_fault.
    repeat case_match; cbn; intros Hx; repeat (apply elem_of_cons in Hx as [->|Hx]); try done;
      by apply elem_of_nil in Hx. }
  destruct (ummu_device_handle_evt w ummu evt) as [r e2]. cbn [fst snd] in *.
  assert (H2 : gets e2 = [] /\ puts e2 = [] /\ actions e2 = e2).
  { clear Ed He1 Hd. induction e2 as [|x e2 IH]; [done|].
    destruct IH as (Hg & Hp & Ha); [intros; apply Hact; by right|].
    pose proof (Hact x ltac:(by left)) as Hx. unfold gets, puts, actions in *.
    split_and!; [by destruct x| by destruct x|]. rewrite filter_cons_True by done. by rewrite Ha. }
  destruct H2 as (Hg & Hp & Ha). unfold gets, puts, actions in *. rewrite !omap_app, !filter_app.
  rewrite <- Ht, <- Hd, Hg, Hp, Ha, He1. destruct (dev evt); split_and!; rewrite ?app_nil_r; reflexivity.
Qed.

(** ** Errors of the command queues *)

Lemma errack_bits (v c k : Z) : 0 <= k ->
  Z.testbit (errack v c) k = if k =? 23 then Z.testbit c 23 else Z.testbit v k.
Proof.
  intros Hk. unfold errack, MCMDQ_PROD_ERRACK, MCMDQ_CONS_ERR.
  rewrite Z.lor_spec, !Z.land_spec, Z.lnot_spec, Z.shiftl_1_l, Z.pow2_bits_eqb, (Z.eqb_sym k) by lia.
  destruct (Z.eqb_spec 23 k) as [<-|]; cbn; by rewrite ?andb_false_r, ?andb_true_r, ?orb_false_r.
Qed.

Lemma xor_err (p c : Z) :
  (Z.land (Z.lxor p c) MCMDQ_CONS_ERR =? 0) = Bool.eqb (Z.testbit p 23) (Z.testbit c 23).
Proof.
  pose proof (testbit_land_shiftl (Z.lxor p c) 23 ltac:(lia)) as H.
  unfold ctrue in H. rewrite Z.lxor_spec in H. unfold MCMDQ_CONS_ERR.
  destruct (_ =? 0), (Z.testbit p 23), (Z.testbit c 23); done.
Qed.

(** Whether a queue has stopped at a command that is to be replaced. *)
Definition in_error (m : err_mcmdq) : bool :=
  xorb (Z.testbit (prod_reg (mq m)) 23) (Z.testbit (cons_reg (mq m)) 23).
Definition err_reason (m : err_mcmdq) : Z := (cons_reg (mq m) / 2 ^ 24) mod 2 ^ 3.
Definition replaced (m : err_mcmdq) : bool :=
  in_error m && negb (err_reason m =? MCMDQ_CERROR_ABT_IDX) && negb (err_reason m =? MCMDQ_CERROR_NONE_IDX).

Lemma skip_err_spec (m : err_mcmdq) :
  ummu_device_mcmdq_skip_err (mq m) =
  if (err_reason m =? MCMDQ_CERROR_ABT_IDX) || (err_reason m =? MCMDQ_CERROR_NONE_IDX) then mq m
  else write_entry (mq m) (cons_reg (mq m)) [0xfc001; 0; 0; 0].
Proof.
  unfold ummu_device_mcmdq_skip_err. rewrite (field_get_bits MCMDQ_CONS_ERR_REASON 24 3) by done.
  fold (err_reason m). destruct (_ =? _); [done|]. by destruct (_ =? _).
Qed.

(** ** Theorems *)

Lemma handled_spec (ummu n : Z) (s : estate) : ereachable ummu n s ->
  forall raw l, (raw, l) ∈ handled s -> exists w, l = handle_raw w ummu raw.
Proof.
  intros H.
  refine (rtc_ind_r (fun s => forall raw l, (raw, l) ∈ handled s -> exists w, l = handle_raw w ummu raw)
            _ _ _ s H).
  - intros raw l Hin. by apply elem_of_nil in Hin.
  - intros x y _ Hy IH raw l Hin. destruct Hy as [w s0|e s0 _].
    + unfold ummu_evtq_thread, ummu_queue_remove_raw in Hin.
      destruct (phase s0) as [| |r| | |]; try by apply IH.
      * apply IH. by destruct (ummu_queue_empty _).
      * cbn in Hin. apply elem_of_app in Hin as [Hin|Hin]; [by apply IH|].
        apply list_elem_of_singleton, pair_eq in Hin as [-> ->]. by exists w.
    + apply IH. unfold hw_event in Hin. by destruct (ummu_queue_full _).
Qed.

(** C24. The event queue is a FIFO without loss or duplication.  Whatever the order of the
    accesses of the thread and the hardware, the events the thread took from the ring are
    the oldest events the hardware put there, each once and in order, and the events not
    taken yet are intact in the ring, at most [2^n] of them; every event whose handling is
    complete was given to the handler exactly as it was produced. *)
Theorem evtq_fifo (ummu n : Z) (s : estate) (Hn : size_ok n) (Hs : ereachable ummu n s) :
  exists C, taken s = take C (produced s) /\ length (taken s) = C /\
    Z.of_nat (length (produced s) - C) <= 2 ^ n /\
    (forall i e, drop C (produced s) !! i = Some e -> base (evq s) (Z.of_nat (C + i) mod 2 ^ n) = e) /\
    (forall raw l, (raw, l) ∈ handled s -> exists w, l = handle_raw w ummu raw).
Proof.
  destruct (ereachable_inv ummu n Hn s Hs) as (fp & fs & fc & P & S & C & H).
  destruct H as (Hl & Hp & Hsh & Hc & Hr & Hb & HP & Ht & Hring).
  exists (Z.to_nat C). split_and!; [done| rewrite Ht, length_take; lia | lia | | by eapply handled_spec].
  intros i e Hi. rewrite lookup_drop in Hi. pose proof (lookup_lt_Some _ _ _ Hi).
  specialize (Hring (Z.of_nat (Z.to_nat C + i)) ltac:(lia)). rewrite Nat2Z.id, Hi in Hring.
  by injection Hring.
Qed.

(** A world with one device, whose domain is a process address space. *)
Definition w_ex : world :=
  {| ummu_core_get_device := fun t => if t =? 5 then Some 77 else None;
     ummu_core_get_domain_by_tid := fun d t => Some {| agent_domain := {| mm := true; ksva := false |} |};
     iommu_report_device_fault := fun d f => if addr f =? 0 then - EFAULT else 0 |}.

(** A stalled read of [a] with token 5 and tag 9. *)
Definition evt_ex (a : Z) : list Z := [5 * 2 ^ 32 + 2 ^ 18 + 2 ^ 11 + 0xa; 9; 0; a; 3; 0; 0; 0].

(** A ring of two entries: two events, the first taken, then two more, the last one lost. *)
Definition es_ex : estate :=
  let t := ummu_evtq_thread w_ex 1 in
  hw_event (evt_ex 0x4000) (hw_event (evt_ex 0x3000)
    (t (t (t (t (t (hw_event (evt_ex 0x2000) (hw_event (evt_ex 0x1000) (evtq_init 1))))))))).

Lemma es_ex_reachable : ereachable 1 1 es_ex.
Proof.
  unfold ereachable, es_ex.
  repeat (eapply rtc_r; [|first [by apply step_hw | apply step_thread]]). apply rtc_refl.
Qed.

Lemma evtq_fifo_witness : length (produced es_ex) = 3%nat /\ lost es_ex = 1%nat /\
  exists C, taken es_ex = take C (produced es_ex) /\ length (taken es_ex) = C.
Proof.
  split; [vm_compute; reflexivity|]. split; [vm_compute; reflexivity|].
  destruct (evtq_fifo 1 1 es_ex ltac:(unfold size_ok; lia) es_ex_reachable) as (C & Ht & HC & _).
  exact (ex_intro _ C (conj Ht HC)).
Defined.

(** C27. An interrupt drains the queue.  From every reachable state in which the thread is
    not running, with [k] events waiting, a run of the thread undisturbed by the hardware
    ends within [2 k + 8] accesses, with every event produced handled, and with the
    consumer register equal to the producer register: the queue is empty and a reported
    overflow is acknowledged. *)
Theorem evtq_drains (ummu n : Z) (w : world) (s : estate) (Hn : size_ok n)
    (Hs : ereachable ummu n s) (Hi : phase s = EIdle) :
  exists k, (k <= 2 * (length (produced s) - length (handled s)) + 8)%nat /\
    let s' := erun w ummu k s in
    phase s' = EIdle /\ map fst (handled s') = produced s /\ prod_reg (evq s') = cons_reg (evq s').
Proof.
  destruct (ereachable_inv ummu n Hn s Hs) as (fp & fs & fc & P & S & C & H).
  destruct (thread_drains ummu n Hn w s _ _ _ _ _ _ H Hi) as (k & Hk & H' & Hi').
  exists k. pose proof (erun_produced ummu w k s) as Hpr.
  destruct H as (_ & _ & _ & _ & _ & Hb & HP & Ht & _).
  destruct H' as (_ & Hp & _ & _ & Hc & _ & HP' & Ht' & _). cbv zeta.
  unfold taken in Ht, Ht'. rewrite Hi, app_nil_r in Ht. rewrite Hi', app_nil_r in Ht'.
  assert (Hlen : length (handled s) = Z.to_nat C).
  { rewrite <- (length_map fst), Ht, length_take. lia. }
  split_and!; [lia|done| |by rewrite Hp, Hc]. rewrite Ht', Hpr in *. apply take_ge. lia.
Qed.

(** The state above, run to the end of the interrupt. *)
Definition es_idle : estate := erun w_ex 1 12 es_ex.

Lemma es_idle_reachable : ereachable 1 1 es_idle.
Proof.
  unfold ereachable, es_idle. transitivity es_ex; [apply es_ex_reachable|].
  apply erun_steps.
Qed.

Lemma evtq_drains_witness :
  exists k, let s' := erun w_ex 1 k (hw_event (evt_ex 0x5000) es_idle) in
    phase s' = EIdle /\ length (handled s') = 4%nat.
Proof.
  assert (Hr : ereachable 1 1 (hw_event (evt_ex 0x5000) es_idle)).
  { eapply rtc_r; [apply es_idle_reachable|]. by apply step_hw. }
  destruct (evtq_drains 1 1 w_ex _ ltac:(unfold size_ok; lia) Hr ltac:(vm_compute; reflexivity))
    as (k & _ & Hi & Hh & _).
  exists k. split; [done|]. rewrite <- (length_map fst), Hh. vm_compute. reflexivity.
Defined.

(** Every stalled transaction is resumed exactly once.  For an event without the stall
    bit nothing is issued.  For a stalled one, either the fault is handed over to the fault
    handler, which accepts it, with the token, the address and the tags of the event, and
    the response then issues one command for these tags, a retry on success and an abort on
    failure or an invalid response; or the thread issues the abort itself.  The hardware
    reads from the issued words the same tags and flags.  The reference taken on the device
    is dropped. *)
Theorem ummu_event_resolved (w : world) (ummu : Z) (double : bool) (raw : list Z) :
  let l := handle_raw w ummu raw in
  let resume retry abort := Issue (resume_ent retry abort (evt_stag raw) (evt_tect raw)) in
  puts l = gets l /\
  (if Z.testbit (word raw 0) 18 then
     (exists d f, actions l = [Report d f] /\ iommu_report_device_fault w d f = 0 /\
        pasid f = evt_tid raw /\ addr f = u64 (word raw 3) /\
        ummu_page_response f (grpid f) IOMMU_PAGE_RESP_SUCCESS = [resume true false] /\
        ummu_page_response f (grpid f) IOMMU_PAGE_RESP_FAILURE = [resume false true] /\
        ummu_page_response f (grpid f) IOMMU_PAGE_RESP_INVALID = [resume false true]) \/
     (exists pre, actions l = pre ++ [resume false true] /\
        (pre = [] \/ exists d f, pre = [Report d f] /\ iommu_report_device_fault w d f <> 0))
   else actions l = []) /\
  (forall retry abort, exists w0 w1 w2 w3,
     ummu_mcmdq_issue_cmd double (resume_ent retry abort (evt_stag raw) (evt_tect raw)) =
       Some (inr {| cmds := [[w0; w1; w2; w3]]; wait := false |}) /\
     decode_cmd w0 w1 w2 w3 = Some (stall_resume false retry abort (evt_tect raw) (evt_stag raw))).
Proof.
  destruct (handle_raw_gets_puts w ummu raw) as (_ & Hp & Ha).
  destruct (decode_fields w raw) as (Hst & Hs2 & Hstag & Htect & Htid & Hiova).
  assert (H16 : forall x, u16 (u16 x) = u16 x) by (intros; apply uwrap_idem).
  cbv zeta. split; [done|]. split.
  - rewrite Ha. set (evt := fst _) in *. clearbody evt. unfold ummu_device_handle_evt. rewrite Hst.
    destruct (Z.testbit (word raw 0) 18); [|done].
    assert (Habort : ummu_abort_page_fault (grpid (ummu_make_iommu_fault ummu evt))
      (private_data0 (ummu_make_iommu_fault ummu evt)) =
      [Issue (resume_ent false true (evt_stag raw) (evt_tect raw))]).
    { unfold ummu_abort_page_fault, resume_ent. cbn. rewrite Hstag, Htect.
      unfold evt_stag, evt_tect. by rewrite !u16_small, !H16. }
    unfold ummu_handle_iopf. rewrite Habort.
    destruct (s2 evt); [right; exists []; eauto|]. destruct (dev evt) as [d|]; [|right; exists []; eauto].
    destruct (ummu_report_iommu_fault _ _ _); [|right; exists []; eauto]. cbn [negb].
    destruct (Z.eqb_spec (iommu_report_device_fault w d (ummu_make_iommu_fault ummu evt)) 0) as [E|E].
    + left. exists d, (ummu_make_iommu_fault ummu evt). unfold ctrue. rewrite E. unfold ummu_page_response. cbn.
      rewrite Hstag, Htect. by split_and!.
    + right. exists [Report d (ummu_make_iommu_fault ummu evt)]. unfold ctrue.
      rewrite (proj2 (Z.eqb_neq _ _) E). split; [done|]. right. eauto.
  - intros retry abort.
    destruct (resume_command double retry abort (evt_stag raw) (evt_tect raw)) as (w0 & w1 & w2 & w3 & E & _ & D).
    exists w0, w1, w2, w3. split; [done|]. rewrite D. unfold evt_stag, evt_tect. by rewrite !H16.
Qed.

(** C36. A global error leaves no queue stuck.  The handler claims the interrupt exactly
    when an error bit is active, and then acknowledges all of them.  When a command queue
    reported an error, every queue in error is acknowledged in its producer register and in
    the shadow the CPUs publish from, without losing what they published meanwhile (every
    other bit is theirs); the command it stopped at is replaced by a [CMD_SYNC] unless the
    fetch of it is to be retried, no other entry is touched, and queues that are not in
    error are left alone. *)
Theorem ummu_gerror_recovers (pub : err_mcmdq -> Z * Z) (g : gstate) :
  let active := Z.lxor (gerror g) (gerrorn g) in
  let '(handled, g') := ummu_gerror_handler pub g in
  (handled = true <-> Z.land active GERROR_ERR_MASK <> 0) /\
  (handled = true -> Z.lxor (gerror g') (gerrorn g') = 0) /\ (handled = false -> g' = g) /\
  (handled = true -> Z.testbit active 0 = true -> forall i m, mcmdqs g !! i = Some m ->
   exists m', mcmdqs g' !! i = Some m' /\ cons_reg (mq m') = cons_reg (mq m) /\
     (if in_error m then
        in_error m' = false /\
        (forall k, 0 <= k -> k <> 23 ->
           Z.testbit (prod_reg (mq m')) k = Z.testbit (fst (pub m)) k /\
           Z.testbit (mcmdq_prod m') k = Z.testbit (snd (pub m)) k) /\
        Z.testbit (mcmdq_prod m') 23 = Z.testbit (cons_reg (mq m)) 23 /\
        (forall j, base (mq m') j =
           if replaced m && (j =? Q_IDX (llq (mq m)) (cons_reg (mq m)))
           then [0xfc001; 0; 0; 0] else base (mq m) j)
      else m' = m)) /\
  decode_cmd 0xfc001 0 0 0 = Some (sync 0 false).
Proof.
  cbv zeta. unfold ummu_gerror_handler, ctrue.
  destruct (Z.eqb_spec (Z.land (Z.lxor (gerror g) (gerrorn g)) GERROR_ERR_MASK) 0) as [E|E];
    cbn [negb]; split_and!; try done; try (by intros).
  - intros _. apply Z.lxor_nilpotent.
  - intros _ Hact i m Hm. cbn [mcmdqs].
    pose proof (testbit_land_shiftl (Z.lxor (gerror g) (gerrorn g)) 0 ltac:(lia)) as Hb.
    unfold ctrue in Hb. unfold GERROR_MCMDQ_ERR. rewrite Hb, Hact. unfold ummu_mcmdq_skip_err.
    exists (skip_err_one pub m). rewrite list_lookup_fmap, Hm. split; [done|].
    unfold skip_err_one. rewrite xor_err, (skip_err_spec m). unfold replaced.
    destruct (in_error m) eqn:He; unfold in_error in He.
    + replace (Bool.eqb _ _) with false by (by destruct (Z.testbit (prod_reg (mq m)) 23), (Z.testbit (cons_reg (mq m)) 23)).
      unfold in_error. cbn [mq mcmdq_prod prod_reg cons_reg base].
      split; [by destruct (_ || _)|]. split_and!.
      * rewrite errack_bits by lia. destruct (_ || _); apply xorb_nilpotent.
      * intros k Hk Hne. rewrite !errack_bits by done. by destruct (Z.eqb_spec k 23).
      * by rewrite errack_bits.
      * intros j. destruct (err_reason m =? MCMDQ_CERROR_ABT_IDX), (err_reason m =? MCMDQ_CERROR_NONE_IDX);
          cbn; try done.
    + replace (Bool.eqb _ _) with true by (by destruct (Z.testbit (prod_reg (mq m)) 23), (Z.testbit (cons_reg (mq m)) 23)).
      done.
Qed.
