(* ===== verification/UmmuFlush.v ===== *)
(** * Invalidation requests of the UMMU

    [drivers/iommu/hisilicon/flush.c]: the commands that invalidate translations (by
    context and by address range), configuration entries and permission entries, as the
    lists of commands given to the queue.  An address range is split into as few range
    commands as their [num]/[scale] encoding allows. *)

From S2P Require Import Prelude UmmuQueue UmmuCmd.

(** ** Domains and devices *)

Definition CMD_TLBI_RANGE_NUM_MAX : Z := 31.
Definition CMD_TLBI_RANGE_SCALE_MAX : Z := 31.
Definition CMD_TLBI_RANGE_SCALE_LIMIT : Z := 15.
Definition LOCAL_TECT_TAG : Z := 0.

Inductive ummu_tlbi_scene := UMMU_TLBI_SCENE_DMA | UMMU_TLBI_SCENE_SVA.
Inductive ummu_tlbi_scope := UMMU_TLBI_SCOPE_CTX | UMMU_TLBI_SCOPE_RNG.
Inductive ummu_tlbi_type := UMMU_TLBI_TYPE_S1E2H | UMMU_TLBI_TYPE_S1NH | UMMU_TLBI_TYPE_S2.
Inductive ummu_domain_stage := UMMU_DOMAIN_S1 | UMMU_DOMAIN_S2 | UMMU_DOMAIN_OTHER.

Definition ummu_tlbi_code_table (scene : ummu_tlbi_scene) (scope : ummu_tlbi_scope)
    (type : ummu_tlbi_type) : Z :=
  match scene, scope, type with
  | UMMU_TLBI_SCENE_DMA, UMMU_TLBI_SCOPE_CTX, UMMU_TLBI_TYPE_S1E2H => CMD_TLBI_HYP_TID
  | UMMU_TLBI_SCENE_DMA, UMMU_TLBI_SCOPE_CTX, UMMU_TLBI_TYPE_S1NH => CMD_TLBI_OS_TID
  | UMMU_TLBI_SCENE_DMA, UMMU_TLBI_SCOPE_CTX, UMMU_TLBI_TYPE_S2 => CMD_TLBI_S1S2_VMALL
  | UMMU_TLBI_SCENE_DMA, UMMU_TLBI_SCOPE_RNG, UMMU_TLBI_TYPE_S1E2H => CMD_TLBI_HYP_VA
  | UMMU_TLBI_SCENE_DMA, UMMU_TLBI_SCOPE_RNG, UMMU_TLBI_TYPE_S1NH => CMD_TLBI_OS_TID
  | UMMU_TLBI_SCENE_DMA, UMMU_TLBI_SCOPE_RNG, UMMU_TLBI_TYPE_S2 => CMD_TLBI_OS_VA
  | UMMU_TLBI_SCENE_SVA, UMMU_TLBI_SCOPE_CTX, UMMU_TLBI_TYPE_S1E2H => CMD_TLBI_HYP_ASID_U
  | UMMU_TLBI_SCENE_SVA, UMMU_TLBI_SCOPE_CTX, UMMU_TLBI_TYPE_S1NH => CMD_TLBI_OS_ASID_U
  | UMMU_TLBI_SCENE_SVA, UMMU_TLBI_SCOPE_CTX, UMMU_TLBI_TYPE_S2 => CMD_TLBI_OS_ASID_U
  | UMMU_TLBI_SCENE_SVA, UMMU_TLBI_SCOPE_RNG, UMMU_TLBI_TYPE_S1E2H => CMD_TLBI_HYP_VA_U
  | UMMU_TLBI_SCENE_SVA, UMMU_TLBI_SCOPE_RNG, UMMU_TLBI_TYPE_S1NH => CMD_TLBI_OS_ASID_U
  | UMMU_TLBI_SCENE_SVA, UMMU_TLBI_SCOPE_RNG, UMMU_TLBI_TYPE_S2 => CMD_TLBI_OS_VA_U
  end.

(** The capabilities of the device that the requests depend on. *)
Record ummu_cap := {
  feat_e2h : bool;
  feat_range_inv : bool;
  feat_hyp : bool;
  opt_limit_scale : bool;
  opt_double_tlbi : bool;
  opt_double_plbi : bool;
  opt_sync_with_plbi : bool;
}.

(** The parts of [struct ummu_domain] that the requests read. *)
Record ummu_domain := {
  stage : ummu_domain_stage;
  is_sva : bool;              (* base_domain.domain.type == IOMMU_DOMAIN_SVA *)
  tlbi_asid : bool;
  dom_tid : Z;                (* base_domain.tid *)
  dom_asid : Z;               (* cfgs.s1_cfg.tct.asid *)
  dom_vmid : Z;               (* cfgs.s2_cfg.vmid *)
  dom_tecte_tag : Z;          (* cfgs.tecte_tag *)
  pgsize_bitmap : Z;
}.

Record ummu_tlb_range := { iova : Z; size : Z; granule : Z }.

Definition zero_tlbi : ent_member := tlbi false 0 0 0 0 0 0 0 0 0.

(** The fields of [cmd.tlbi] that a range request sets. *)
Definition set_range (e : ummu_mcmdq_ent) (num scale tl gs addr : Z) : ummu_mcmdq_ent :=
  match member e with
  | tlbi leaf asid vmid tid tag _ _ _ _ _ =>
    {| opcode := opcode e; member := tlbi leaf asid vmid tid tag num scale tl gs addr |}
  | _ => e
  end.
Definition set_leaf (e : ummu_mcmdq_ent) (l : bool) : ummu_mcmdq_ent :=
  match member e with
  | tlbi _ asid vmid tid tag num scale tl gs addr =>
    {| opcode := opcode e; member := tlbi l asid vmid tid tag num scale tl gs addr |}
  | _ => e
  end.

(** [__ffs]: the position of the lowest bit that is set, of a word that is not 0. *)
Definition ffs (x : Z) : Z := bf_shf x.

Definition granule_to_lvl (granule translation_granule : Z) : Z :=
  4 - (Z.log2 granule - 3) / (translation_granule - 3).

Section Flush.
(** [uMMU_INVALID_TID], of the core's header. *)
Variable UMMU_INVALID_TID : Z.
Variable cap : ummu_cap.

(** ** Translations *)

(** On a zeroed command.  The fields of the command have 32 bits ([tid]) and 16 bits. *)
Definition ummu_domain_tlbi_cmd (d : ummu_domain) (scope : ummu_tlbi_scope)
    (scene : ummu_tlbi_scene) : Z + ummu_mcmdq_ent :=
  match stage d with
  | UMMU_DOMAIN_S1 =>
    let type := if feat_e2h cap then UMMU_TLBI_TYPE_S1E2H else UMMU_TLBI_TYPE_S1NH in
    match scene with
    | UMMU_TLBI_SCENE_DMA =>
      if dom_tid d =? UMMU_INVALID_TID then inl (- EINVAL)
      else inr {| opcode := ummu_tlbi_code_table scene scope type;
                  member := tlbi false 0 0 (u32 (dom_tid d)) 0 0 0 0 0 0 |}
    | UMMU_TLBI_SCENE_SVA =>
      inr {| opcode := ummu_tlbi_code_table scene scope type;
             member := tlbi false (u16 (dom_asid d)) 0 0 0 0 0 0 0 0 |}
    end
  | UMMU_DOMAIN_S2 =>
    let op := ummu_tlbi_code_table scene scope UMMU_TLBI_TYPE_S2 in
    match scene with
    | UMMU_TLBI_SCENE_DMA =>
      inr {| opcode := op; member := tlbi false 0 0 0 (u16 (dom_tecte_tag d)) 0 0 0 0 0 |}
    | UMMU_TLBI_SCENE_SVA =>
      inr {| opcode := op; member := tlbi false 0 (u16 (dom_vmid d)) 0 0 0 0 0 0 0 |}
    end
  | UMMU_DOMAIN_OTHER => inl (- EINVAL)
  end.

(** The loop of [ummu_range_tlbi_nofeat]: the entries added to the batch. *)
Fixpoint nofeat_loop (fuel : nat) (cmd : ummu_mcmdq_ent) (granule rg_start rg_end : Z) :
    option (list ummu_mcmdq_ent) :=
  if rg_start <? rg_end then
    match fuel with
    | O => None
    | S fuel' =>
      l ← nofeat_loop fuel' cmd granule (u64 (rg_start + granule)) rg_end;
      Some (set_range cmd 0 0 0 0 rg_start :: l)
    end
  else Some [].

(** [struct ummu_mcmdq_batch batch_cmds = {}]. *)
Definition empty_batch : ummu_mcmdq_batch :=
  {| slots := repeat [0; 0; 0; 0] MCMDQ_BATCH_ENTRIES; num := 0 |}.

Definition ummu_range_tlbi_nofeat (fuel : nat) (cmd : ummu_mcmdq_ent) (r : ummu_tlb_range) :
    option (list issue) :=
  l ← nofeat_loop fuel cmd (granule r) (iova r) (u64 (iova r + size r));
  batch_run empty_batch l.

(** [num] and [scale] of one range command. *)
Definition range_scale (max_scale num_pages : Z) : Z := Z.min (ffs num_pages) max_scale.
Definition range_num (scale num_pages : Z) : Z :=
  let n := Z.land (Z.shiftr num_pages scale) CMD_TLBI_RANGE_NUM_MAX in
  if ctrue n then n else CMD_TLBI_RANGE_NUM_MAX.

(** The loop of [__ummu_tlbi_range]; [None] also where [__ffs] is called on 0. *)
Fixpoint range_loop (fuel : nat) (cmd : ummu_mcmdq_ent) (max_scale gs tl rg_start rg_end
    num_pages : Z) : option (list ummu_mcmdq_ent) :=
  if rg_start <? rg_end then
    match fuel with
    | O => None
    | S fuel' =>
      if num_pages =? 0 then None
      else
        let scale := range_scale max_scale num_pages in
        let num := range_num scale num_pages in
        let e := set_range cmd (u8 (num - 1)) (u8 scale) tl (u8 (Z.shiftr (gs - 10) 1)) rg_start in
        let ranged := u64 (Z.shiftl num (scale + gs)) in
        l ← range_loop fuel' cmd max_scale gs tl (u64 (rg_start + ranged)) rg_end
              (u64 (num_pages - u64 (Z.shiftl num scale)));
        Some (e :: l)
    end
  else Some [].

(** [__ummu_tlbi_range]: the lists of commands issued. *)
Definition tlbi_range (fuel : nat) (cmd : ummu_mcmdq_ent) (r : ummu_tlb_range) (d : ummu_domain) :
    option (list issue) :=
  if (iova r =? ULONG_MAX) || (size r =? 0) then Some []
  else if negb (feat_range_inv cap) then ummu_range_tlbi_nofeat fuel cmd r
  else
    let max_scale := if opt_limit_scale cap then CMD_TLBI_RANGE_SCALE_LIMIT
                     else CMD_TLBI_RANGE_SCALE_MAX in
    let gs := ffs (pgsize_bitmap d) in
    let tl := u8 (granule_to_lvl (granule r) gs) in
    l ← range_loop fuel cmd max_scale gs tl (iova r) (u64 (iova r + size r)) (Z.shiftr (size r) gs);
    batch_run empty_batch l.

Definition ummu_tlbi_range (fuel : nat) (r : ummu_tlb_range) (leaf : bool) (d : ummu_domain) :
    option (list issue) :=
  let scene := if is_sva d then UMMU_TLBI_SCENE_SVA else UMMU_TLBI_SCENE_DMA in
  match ummu_domain_tlbi_cmd d UMMU_TLBI_SCOPE_RNG scene with
  | inl _ => Some []
  | inr cmd => tlbi_range fuel (set_leaf cmd leaf) r d
  end.

(** [struct iommu_iotlb_gather]. *)
Record iommu_iotlb_gather := { g_start : Z; g_end : Z; g_pgsize : Z }.
Definition gather_range (g : iommu_iotlb_gather) : ummu_tlb_range :=
  {| iova := g_start g; size := u64 (g_end g - g_start g + 1); granule := g_pgsize g |}.

Definition ummu_iotlb_sync (fuel : nat) (d : ummu_domain) (g : iommu_iotlb_gather) :=
  ummu_tlbi_range fuel (gather_range g) true d.
Definition ummu_device_tlb_inv_walk (fuel : nat) (d : ummu_domain) (g : iommu_iotlb_gather) :=
  ummu_tlbi_range fuel (gather_range g) false d.

(** A request that waits for its completion: its result and the list of commands issued,
    if any.  The queue itself reports no error. *)
Definition request (sync : bool) (e : ummu_mcmdq_ent) : option (Z * list issue) :=
  r ← issue_cmd (opt_double_tlbi cap) e sync;
  match r with
  | inl err => Some (err, [])
  | inr i => Some (0, [i])
  end.
Abbreviation with_sync := (request true).

Definition ummu_tlbi_context (d : ummu_domain) : option (list issue) :=
  let scene := if is_sva d && tlbi_asid d then UMMU_TLBI_SCENE_SVA else UMMU_TLBI_SCENE_DMA in
  match ummu_domain_tlbi_cmd d UMMU_TLBI_SCOPE_CTX scene with
  | inl _ => Some []
  | inr cmd => snd <$> with_sync cmd
  end.

Definition ummu_flush_iotlb_all_asid (d : ummu_domain) : option (ummu_domain * list issue) :=
  let d' := {| stage := stage d; is_sva := is_sva d; tlbi_asid := true; dom_tid := dom_tid d;
               dom_asid := dom_asid d; dom_vmid := dom_vmid d; dom_tecte_tag := dom_tecte_tag d;
               pgsize_bitmap := pgsize_bitmap d |} in
  l ← ummu_tlbi_context d'; Some (d', l).
Definition ummu_flush_iotlb_all (d : ummu_domain) : option (list issue) := ummu_tlbi_context d.

Definition ummu_init_flush_iotlb : option (list issue) :=
  l1 ← (if feat_hyp cap then snd <$> with_sync {| opcode := CMD_TLBI_HYP_ALL; member := zero_tlbi |}
        else Some []);
  l2 ← snd <$> with_sync {| opcode := CMD_TLBI_NS_OS_ALL; member := zero_tlbi |};
  Some (l1 ++ l2).

(** ** Configuration entries *)

Definition ummu_device_prefetch_cfg (tecte_tag tid : Z) : option (list issue) :=
  snd <$> with_sync {| opcode := CMD_PREFET_CFG;
                       member := prefet (negb (tid =? UMMU_INVALID_TID)) tid tecte_tag 0 0 0 |}.

Definition ummu_sync_tect_range (tecte_tag range : Z) : option (list issue) :=
  snd <$> with_sync {| opcode := CMD_CFGI_TECT_RANGE;
                       member := cfgi false 0 0 range tecte_tag 0 0 0 |}.

Definition ummu_sync_tect_all : option (list issue) :=
  ummu_sync_tect_range 0 CMD_TLBI_RANGE_NUM_MAX.

Definition ummu_device_sync_tect (tecte_tag : Z) : option (list issue) :=
  snd <$> with_sync {| opcode := CMD_CFGI_TECT; member := cfgi true 0 0 0 tecte_tag 0 0 0 |}.

Definition ummu_sync_tct (tecte_tag tid : Z) (leaf : bool) : option (list issue) :=
  l1 ← (if opt_sync_with_plbi cap then
          snd <$> request false {| opcode := CMD_PLBI_OS_EIDTID;
                                   member := plbi tid (u16 tecte_tag) 0 0 |}
        else Some []);
  l2 ← snd <$> with_sync {| opcode := CMD_CFGI_TCT; member := cfgi leaf tid 0 0 tecte_tag 0 0 0 |};
  Some (l1 ++ l2).

Definition ummu_sync_tct_all (tecte_tag : Z) : option (list issue) :=
  snd <$> with_sync {| opcode := CMD_CFGI_TCT_ALL; member := cfgi false 0 0 0 tecte_tag 0 0 0 |}.

(** ** Permission entries *)

(** The loop of [get_minist_log2size_range]; sizes have 64 bits. *)
Fixpoint log2size_loop (fuel : nat) (size index : Z) : option Z :=
  if 0 <? size then
    match fuel with
    | O => None
    | S fuel' => log2size_loop fuel' (Z.shiftr size 1) (u8 (index + 1))
    end
  else Some index.
Definition get_minist_log2size_range (size : Z) : option Z :=
  log2size_loop 64 (if 0 <? size then size - 1 else size) 0.

(** [plbi_num] times the same request: the result of the last one. *)
Fixpoint repeat_request (n : nat) (e : ummu_mcmdq_ent) (ret : Z) : option (Z * list issue) :=
  match n with
  | O => Some (ret, [])
  | S n' =>
    '(r, l1) ← with_sync e;
    '(r', l2) ← repeat_request n' e r;
    Some (r', l1 ++ l2)
  end.
Definition plbi_num : nat := if opt_double_plbi cap then 2 else 1.

Definition ummu_device_flush_plb (tag tid addr size : Z) : option (Z * list issue) :=
  range ← get_minist_log2size_range size;
  repeat_request plbi_num {| opcode := CMD_PLBI_OS_VA; member := plbi tid (u16 tag) range addr |} 0.

Definition ummu_device_flush_plb_all (d : ummu_domain) : option (list issue) :=
  snd <$> repeat_request plbi_num
    {| opcode := CMD_PLBI_OS_EIDTID; member := plbi (dom_tid d) (u16 (dom_tecte_tag d)) 0 0 |} 0.

Definition ummu_device_flush_ioplb_all : option (list issue) :=
  snd <$> with_sync {| opcode := CMD_PLBI_OS_EID; member := plbi 0 LOCAL_TECT_TAG 0 0 |}.

Definition ummu_device_check_pa_continuity (addr size_order id : Z) : option (Z * list issue) :=
  with_sync {| opcode := CMD_NULL_OP;
               member := null_op SUB_CMD_NULL_CHECK_PA_CONTINUITY 0 0 size_order id addr |}.
End Flush.

(** ** The lowest bit *)

Lemma odd_part (x : Z) : 0 < x -> exists k o, 0 <= k /\ 0 <= o /\ x = 2 ^ k * (2 * o + 1).
Proof.
  intros Hx. destruct x as [|p|p]; try lia. clear Hx. induction p as [p IH|p IH|].
  - exists 0, (Z.pos p). lia.
  - destruct IH as (k & o & Hk & Ho & E). exists (k + 1), o. rewrite Z.pow_add_r by lia. lia.
  - exists 0, 0. lia.
Qed.

Lemma land_opp_odd (o : Z) : Z.land (2 * o + 1) (- (2 * o + 1)) = 1.
Proof.
  replace (- (2 * o + 1)) with (Z.lnot (2 * o)) by (unfold Z.lnot; lia).
  apply Z.bits_inj'. intros n Hn. rewrite Z.land_spec, Z.lnot_spec by done.
  destruct (decide (n = 0)) as [->|].
  - by rewrite Z.testbit_odd_0, Z.testbit_even_0.
  - replace n with (Z.succ (n - 1)) by lia.
    rewrite Z.testbit_odd_succ, Z.testbit_even_succ, (Z.testbit_odd_succ 0) by lia.
    rewrite Z.bits_0. by destruct (Z.testbit o (n - 1)).
Qed.

Lemma ffs_spec (x : Z) : 0 < x -> exists o, 0 <= o /\ 0 <= ffs x /\ x = 2 ^ ffs x * (2 * o + 1).
Proof.
  intros Hx. destruct (odd_part x Hx) as (k & o & Hk & Ho & E).
  assert (Hl : Z.land x (- x) = 2 ^ k).
  { rewrite E, <- Z.mul_opp_r, (Z.mul_comm (2 ^ k)), (Z.mul_comm (2 ^ k)), <- !Z.shiftl_mul_pow2 by done.
    rewrite <- Z.shiftl_land, land_opp_odd. by apply Z.shiftl_1_l. }
  assert (ffs x = k) as -> by (unfold ffs, bf_shf; rewrite Hl; by apply Z.log2_pow2). by exists o.
Qed.

(** ** Splitting a range *)

(** The pages one command covers: at least one, and no more than are left. *)
Lemma range_step (ms np : Z) : 0 <= ms -> 0 < np ->
  let s := range_scale ms np in let n := range_num s np in
  0 <= s <= ms /\ 1 <= n <= 31 /\ n * 2 ^ s <= np.
Proof.
  intros Hms Hnp. cbv zeta. destruct (ffs_spec np Hnp) as (o & Ho & Hf & E).
  unfold range_scale. set (s := Z.min (ffs np) ms). assert (Hs : 0 <= s <= ms /\ s <= ffs np) by lia.
  pose proof (pow2_pos s ltac:(lia)). unfold range_num, ctrue, CMD_TLBI_RANGE_NUM_MAX.
  rewrite Z.shiftr_div_pow2, (Z.land_ones _ 5) by lia. change (2 ^ 5) with 32.
  assert (Hle : 2 ^ s <= np).
  { rewrite E. assert (2 ^ s <= 2 ^ ffs np) by (apply Z.pow_le_mono_r; lia). nia. }
  assert (Hq : 1 <= np / 2 ^ s) by (apply Z.div_le_lower_bound; lia).
  pose proof (Z.mul_div_le np (2 ^ s) ltac:(lia)) as Hd. set (q := np / 2 ^ s) in *. clearbody q.
  pose proof (Z.mod_pos_bound q 32 ltac:(lia)). pose proof (Z.div_mod q 32 ltac:(lia)).
  assert (Hn : forall n, n <= q -> n * 2 ^ s <= np).
  { intros n Hnq. transitivity (q * 2 ^ s); [apply Z.mul_le_mono_nonneg_r; lia | lia]. }
  pose proof (Z.mod_le q 32 ltac:(lia) ltac:(lia)).
  destruct (Z.eqb_spec (q mod 32) 0); cbn [negb]; split_and!; try lia; apply Hn; lia.
Qed.

(** Spans that follow each other from [s] to [e]. *)
Fixpoint tiles (l : list (Z * Z)) (s e : Z) : Prop :=
  match l with
  | [] => s = e
  | (a, n) :: l' => a = s /\ 0 < n /\ tiles l' (s + n) e
  end.

Lemma tiles_le (l : list (Z * Z)) : forall s e, tiles l s e -> s <= e.
Proof.
  induction l as [|[a n] l IH]; intros s e; cbn; [lia|]. intros (-> & Hn & H). apply IH in H. lia.
Qed.

(** Such spans cover exactly the addresses in between. *)
Lemma tiles_cover (l : list (Z * Z)) : forall s e x,
  tiles l s e -> (s <= x < e <-> exists a n, (a, n) ∈ l /\ a <= x < a + n).
Proof.
  induction l as [|[a n] l IH]; intros s e x; cbn.
  - intros ->. split; [lia|]. intros (a & n & Hin & _). by apply elem_of_nil in Hin.
  - intros (-> & Hn & H). pose proof (tiles_le _ _ _ H). specialize (IH _ _ x H). split.
    + intros Hx. destruct (Z.lt_ge_cases x (s + n)).
      * exists s, n. split; [by left|lia].
      * destruct (proj1 IH ltac:(lia)) as (a & m & Hin & ?). exists a, m. split; [by right|lia].
    + intros (a & m & Hin & Hx). apply elem_of_cons in Hin as [E|Hin]; [injection E as -> ->; lia|].
      assert (s + n <= x < e) by (apply IH; eauto). lia.
Qed.

(** The addresses a range command covers: [num + 1] blocks of [2^scale] pages, of the page
    size the field [gs] stands for. *)
Definition span (m : ent_member) : Z * Z :=
  match m with
  | tlbi _ _ _ _ _ num scale _ gs addr => (addr, Z.shiftl (num + 1) (scale + 2 * gs + 10))
  | _ => (0, 0)
  end.

Definition page_shift_ok (gs : Z) : Prop := gs = 12 \/ gs = 14 \/ gs = 16.

Lemma gs_field (gs : Z) : page_shift_ok gs ->
  2 * u8 (Z.shiftr (gs - 10) 1) + 10 = gs /\ fits 2 (u8 (Z.shiftr (gs - 10) 1)).
Proof. intros [E|[E|E]]; rewrite E; vm_compute; intuition discriminate. Qed.

Section Range.
Context (cmd : ummu_mcmdq_ent) (ms gs tl : Z).
Context (Hms : 0 <= ms <= 31) (Hgs : page_shift_ok gs).

Abbreviation gsf := (u8 (Z.shiftr (gs - 10) 1)).

(** One entry of the split. *)
Definition piece (e : ummu_mcmdq_ent) : Prop := exists num scale addr,
  e = set_range cmd num scale tl gsf addr /\ fits 5 num /\ fits 5 scale /\ fits 64 addr /\ (2 ^ gs | addr).
Definition piece_span (e : ummu_mcmdq_ent) : Z * Z := span (member e).

Lemma range_loop_spec (rg_end : Z) (Hcmd : exists leaf asid vmid tid tag num scale t g addr,
    member cmd = tlbi leaf asid vmid tid tag num scale t g addr) :
  rg_end < 2 ^ 64 -> forall fuel start np,
  0 <= start -> (2 ^ gs | start) -> 0 <= np -> start + np * 2 ^ gs = rg_end ->
  (Z.to_nat np <= fuel)%nat -> exists l,
  range_loop fuel cmd ms gs tl start rg_end np = Some l /\ Forall piece l /\
  tiles (map piece_span l) start rg_end.
Proof.
  intros Hend. pose proof (gs_field gs Hgs) as [Hgf Hgf2]. pose proof (pow2_pos gs ltac:(unfold page_shift_ok in Hgs; lia)) as Hg.
  destruct Hcmd as (leaf & asid & vmid & tid & tag & num0 & sc0 & t0 & g0 & a0 & Hm).
  induction fuel as [|fuel IH]; intros start np Hs Hd Hnp He Hf; cbn [range_loop];
    destruct (Z.ltb_spec start rg_end) as [Hlt|Hge]; try (exists []; cbn; split_and!; [done|done|nia]).
  { assert (np = 0) by lia. lia. }
  assert (0 < np) by nia. rewrite (proj2 (Z.eqb_neq np 0)) by lia.
  destruct (range_step ms np ltac:(lia) ltac:(done)) as (Hsc & Hnum & Hle).
  set (s := range_scale ms np) in *. set (n := range_num s np) in *. cbv zeta.
  pose proof (pow2_pos s ltac:(lia)).
  assert (Hng : 0 < n * 2 ^ s * 2 ^ gs <= np * 2 ^ gs) by nia.
  assert (np <= np * 2 ^ gs) by nia.
  rewrite !Z.shiftl_mul_pow2, Z.pow_add_r, Z.mul_assoc by (unfold page_shift_ok in Hgs; lia).
  rewrite (uwrap_small 64 (n * 2 ^ s * 2 ^ gs)), (uwrap_small 64 (n * 2 ^ s)), !(uwrap_small 64) by lia.
  destruct (IH (start + n * 2 ^ s * 2 ^ gs) (np - n * 2 ^ s)) as (l & -> & Hl & Ht); try nia.
  { apply Z.divide_add_r; [done|]. by exists (n * 2 ^ s). }
  cbn [mbind option_bind]. eexists. split; [done|]. rewrite (uwrap_small 8 (n - 1)), (uwrap_small 8 s) by lia.
  split.
  - constructor; [|done]. exists (n - 1), s, start. unfold fits. split_and!; try done; lia.
  - cbn [map tiles]. unfold piece_span at 1, set_range. rewrite Hm. cbn [member span].
    replace (n - 1 + 1) with n by lia. rewrite <- Z.add_assoc, Hgf, Z.shiftl_mul_pow2, Z.pow_add_r, Z.mul_assoc
      by (unfold page_shift_ok in Hgs; lia).
    split_and!; [done|lia|done].
Qed.
End Range.

(** ** What the hardware is told *)

(** The command [c] reads as the opcode [op] with the fields [m]. *)
Definition reads_as (c : list Z) (op : Z) (m : ent_member) : Prop := exists w0 w1 w2 w3,
  c = [w0; w1; w2; w3] /\ FIELD_GET CMD_0_OP w0 = op /\ decode_cmd w0 w1 w2 w3 = Some m.

Lemma built_reads (e : ummu_mcmdq_ent) (ors : list cmd_or) :
  fits 8 (opcode e) -> member_fits (member e) -> build_switch e = Some (0, ors) ->
  opcode e <> CMD_TLBI_HYP_ALL -> opcode e <> CMD_TLBI_NS_OS_ALL ->
  exists c, ummu_mcmdq_build_cmd e = Some (0, c) /\ reads_as c (opcode e) (carried e).
Proof.
  intros Hop Hu Hs H1 H2.
  destruct (roundtrip_aux e ors Hop Hu Hs) as (w0 & w1 & w2 & w3 & E & Ho & [Hd|[Hd|Hd]]); try done.
  exists [w0; w1; w2; w3]. unfold ummu_mcmdq_build_cmd. rewrite Hs. cbn [mbind option_bind].
  rewrite E. split; [done|]. by exists w0, w1, w2, w3.
Qed.

(** The invalidations by address that the table holds. *)
Definition range_ops : list Z := [CMD_TLBI_HYP_VA; CMD_TLBI_OS_VA; CMD_TLBI_HYP_VA_U; CMD_TLBI_OS_VA_U].

Lemma range_ops_facts (op : Z) : op ∈ range_ops ->
  fits 8 op /\ has_range op = true /\ addr_mask op = CMD_TLBI_1_VA_MASK /\
  op <> CMD_TLBI_HYP_ALL /\ op <> CMD_TLBI_NS_OS_ALL /\
  (forall m, match m with tlbi _ _ _ _ _ _ _ _ _ _ => True | _ => False end ->
     exists ors, build_switch {| opcode := op; member := m |} = Some (0, ors)).
Proof.
  intros H. unfold range_ops in H. rewrite !elem_of_cons in H.
  destruct H as [-> |[-> |[-> |[-> |H]]]]; [..|by apply elem_of_nil in H];
    (split_and!; try done; intros [] ?; try done; by eexists).
Qed.

(** An aligned address passes the mask of the address field. *)
Lemma aligned_mask (a : Z) : fits 64 a -> (2 ^ 12 | a) -> Z.land a CMD_TLBI_1_VA_MASK = a.
Proof.
  intros Ha [k Hk]. apply Z.bits_inj'. intros n Hn. rewrite Z.land_spec.
  change CMD_TLBI_1_VA_MASK with (Z.shiftl (Z.ones 52) 12).
  rewrite Z.shiftl_spec, Z.testbit_ones by lia.
  destruct (Z.lt_ge_cases n 12).
  - rewrite Hk. by rewrite Z.mul_pow2_bits_low by lia.
  - destruct (Z.lt_ge_cases n 64).
    + rewrite (proj2 (Z.leb_le _ _)), (proj2 (Z.ltb_lt _ _)) by lia. by rewrite andb_true_r.
    + rewrite <- (Z.mod_small a (2 ^ 64)) by done. by rewrite Z.mod_pow2_bits_high by lia.
Qed.

Lemma tl_fits (g gs : Z) : page_shift_ok gs -> 2 ^ gs <= g < 2 ^ (5 * (gs - 3) + 3) ->
  fits 2 (u8 (granule_to_lvl g gs)).
Proof.
  intros Hgs Hg. unfold page_shift_ok in Hgs. pose proof (pow2_pos gs ltac:(lia)).
  assert (Hl : gs <= Z.log2 g < 5 * (gs - 3) + 3).
  { split; [apply Z.log2_le_pow2; lia|]. apply Z.log2_lt_pow2; lia. }
  unfold granule_to_lvl, fits.
  assert (1 <= (Z.log2 g - 3) / (gs - 3) < 5).
  { split; [apply Z.div_le_lower_bound; lia|]. apply Z.div_lt_upper_bound; lia. }
  rewrite uwrap_small; change (2 ^ 2) with 4; lia.
Qed.

(** The entries of a split, as the hardware reads them. *)
Lemma pieces_read (leaf : bool) (op asid vmid tid tag gs tl : Z) (l : list ummu_mcmdq_ent) :
  page_shift_ok gs -> op ∈ range_ops -> fits 16 asid -> fits 16 vmid -> fits 20 tid -> fits 16 tag -> fits 2 tl ->
  let cmd := {| opcode := op; member := tlbi leaf asid vmid tid tag 0 0 0 0 0 |} in
  Forall (piece cmd gs tl) l ->
  Forall (fun e => is_Some (ummu_mcmdq_build_cmd e)) l /\
  exists mem, Forall2 (fun c m => reads_as c op m) (concat (map built l)) mem /\
    map span mem = map piece_span l /\
    Forall (fun m => exists num scale addr, m =
      tlbi leaf (when (has_asid op) asid) (when (has_vmid op) vmid) (when (has_token op) tid)
        (when (has_tag op) tag) num scale tl (u8 (Z.shiftr (gs - 10) 1)) addr) mem.
Proof.
  intros Hgs Hop Ha Hv Ht Hg Htl cmd Hl.
  destruct (range_ops_facts op Hop) as (Hf & Hr & Hm & H1 & H2 & Hb).
  destruct (gs_field gs Hgs) as [_ Hgf].
  induction Hl as [|e l (num & scale & addr & -> & Hnum & Hsc & Had & Hal) Hl IH].
  { split; [done|]. exists []. by split_and!. }
  destruct IH as (IHs & mem & IH2 & IHs2 & IHf).
  destruct (Hb (member (set_range cmd num scale tl (u8 (Z.shiftr (gs - 10) 1)) addr)) I) as (ors & Hs).
  destruct (built_reads (set_range cmd num scale tl (u8 (Z.shiftr (gs - 10) 1)) addr) ors Hf) as (c & Hc & Hrd);
    [cbn; by split_and!|done|done|done|].
  assert (Hcar : carried (set_range cmd num scale tl (u8 (Z.shiftr (gs - 10) 1)) addr) =
    tlbi leaf (when (has_asid op) asid) (when (has_vmid op) vmid) (when (has_token op) tid)
        (when (has_tag op) tag) num scale tl (u8 (Z.shiftr (gs - 10) 1)) addr).
  { unfold carried, set_range. cbn [cmd opcode member]. rewrite Hr, Hm, andb_true_r. cbn [when].
    rewrite aligned_mask; [done..|]. transitivity (2 ^ gs); [|done]. exists (2 ^ (gs - 12)).
    rewrite <- Z.pow_add_r by (unfold page_shift_ok in Hgs; lia). f_equal. lia. }
  split; [constructor; [rewrite Hc; by eexists|done]|].
  rewrite Hcar in Hrd. eexists (_ :: mem). cbn [map concat]. unfold built at 1. rewrite Hc. split_and!.
  - constructor; [exact Hrd|exact IH2].
  - cbn [map]. by rewrite IHs2.
  - constructor; [by exists num, scale, addr|done].
Qed.

(** A batch that starts empty. *)
Lemma batch_empty (l : list ummu_mcmdq_ent) :
  Forall (fun e => is_Some (ummu_mcmdq_build_cmd e)) l -> exists out last,
  batch_run empty_batch l = Some (out ++ [last]) /\ Forall full_issue out /\ wait last = true /\
  concat (map cmds (out ++ [last])) = concat (map built l).
Proof.
  intros Hl. destruct (batch_adds_spec l empty_batch) as (b & out & E & _ & Hf & Hc); [split; [done|unfold MCMDQ_BATCH_ENTRIES; cbn; lia]|done|].
  exists out, (ummu_mcmdq_batch_submit b). unfold batch_run. rewrite E. split_and!; try done.
  rewrite map_app, concat_app. cbn [map concat ummu_mcmdq_batch_submit cmds]. by rewrite app_nil_r, Hc.
Qed.

(** The identity of what is invalidated: everything but the range. *)
Definition target (m : ent_member) : option (bool * Z * Z * Z * Z) :=
  match m with
  | tlbi leaf asid vmid tid tag _ _ _ _ _ => Some (leaf, asid, vmid, tid, tag)
  | _ => None
  end.

Lemma domain_cmd_shape (inv : Z) (cap : ummu_cap) (d : ummu_domain) scope scene cmd :
  ummu_domain_tlbi_cmd inv cap d scope scene = inr cmd -> fits 20 (dom_tid d) ->
  exists asid vmid tid tag,
  cmd = {| opcode := opcode cmd; member := tlbi false asid vmid tid tag 0 0 0 0 0 |} /\
  fits 16 asid /\ fits 16 vmid /\ fits 20 tid /\ fits 16 tag.
Proof.
  intros H Ht. assert (H0 : forall w, 0 <= w -> fits w 0) by (intros w Hw; split; [lia|by apply pow2_pos]).
  assert (H16 : forall x, fits 16 (u16 x)) by (intros x; apply uwrap_range; lia).
  assert (H32 : fits 20 (u32 (dom_tid d))).
  { unfold fits in *. rewrite uwrap_small; [done|]. change (2 ^ 32) with (2 ^ 20 * 2 ^ 12). lia. }
  unfold ummu_domain_tlbi_cmd in H. destruct (stage d), scene; try done; try destruct (_ =? inv); try done;
    injection H as <-; do 4 eexists; (split; [done|]); split_and!; (apply H0; lia) || done.
Qed.

Definition scene_of (d : ummu_domain) : ummu_tlbi_scene :=
  if is_sva d then UMMU_TLBI_SCENE_SVA else UMMU_TLBI_SCENE_DMA.

(** The command that invalidates translations of a domain by address, and whose they are: of a first-stage domain those of its
    token, or of its address space if it is shared with a process; of a second-stage domain those of its tag, or of its
    virtual machine.  (First stages without E2H have none: all of the token or address space goes.) *)
Inductive by_address (inv : Z) (cap : ummu_cap) (d : ummu_domain) (leaf : bool) : Z -> bool * Z * Z * Z * Z -> Prop :=
  | by_token : stage d = UMMU_DOMAIN_S1 -> feat_e2h cap = true -> is_sva d = false -> dom_tid d <> inv -> by_address inv cap d leaf CMD_TLBI_HYP_VA (leaf, 0, 0, dom_tid d, 0)
  | by_asid : stage d = UMMU_DOMAIN_S1 -> feat_e2h cap = true -> is_sva d = true -> by_address inv cap d leaf CMD_TLBI_HYP_VA_U (leaf, dom_asid d, 0, 0, 0)
  | by_tag : stage d = UMMU_DOMAIN_S2 -> is_sva d = false -> by_address inv cap d leaf CMD_TLBI_OS_VA (leaf, 0, 0, 0, dom_tecte_tag d)
  | by_vmid : stage d = UMMU_DOMAIN_S2 -> is_sva d = true -> by_address inv cap d leaf CMD_TLBI_OS_VA_U (leaf, 0, dom_vmid d, 0, 0).

Lemma by_address_cmd (inv : Z) (cap : ummu_cap) (d : ummu_domain) (leaf : bool) (op : Z) (tgt : bool * Z * Z * Z * Z) :
  by_address inv cap d leaf op tgt -> fits 20 (dom_tid d) -> fits 16 (dom_asid d) -> fits 16 (dom_vmid d) -> fits 16 (dom_tecte_tag d) ->
  exists cmd, ummu_domain_tlbi_cmd inv cap d UMMU_TLBI_SCOPE_RNG (scene_of d) = inr cmd /\ opcode cmd = op /\ op ∈ range_ops /\ target (carried (set_leaf cmd leaf)) = Some tgt.
Proof.
  intros H Ht Ha Hv Hg. assert (H32 : u32 (dom_tid d) = dom_tid d) by (apply uwrap_small; unfold fits in Ht; lia).
  assert (H16 : forall x, fits 16 x -> u16 x = x) by (intros x Hx; by apply uwrap_small).
  unfold ummu_domain_tlbi_cmd, scene_of. destruct H as [E1 E2 E3 E4|E1 E2 E3|E1 E3|E1 E3]; rewrite E1, E3, ?E2, ?H32, ?H16, ?(proj2 (Z.eqb_neq _ _) E4) by done;
    (eexists; split; [done|]; split; [done|]; split; [apply list_elem_of_In; cbn; tauto|]; cbn; by rewrite ?andb_true_r).
Qed.

(** C26. A range invalidation covers the range exactly.  For a domain whose invalidations
    are by address ([by_address]: not first stages without E2H), on a device with range commands (with or without the limit on their
    scale), and a range of whole pages that does not wrap, the request ends; the lists it
    issues hold commands that the hardware reads as invalidations of the token, address space, tag or virtual machine
    of this domain, each
    covering the addresses that follow those of the one before, from the first address of
    the range to its last: every address of the range is invalidated, none outside of it,
    and none twice.  The last list waits for the completion of all. *)
Theorem ummu_tlbi_range_exact (inv : Z) (cap : ummu_cap) (fuel : nat) (r : ummu_tlb_range)
    (leaf : bool) (d : ummu_domain) (op : Z) (tgt : bool * Z * Z * Z * Z)
    (Hby : by_address inv cap d leaf op tgt)
    (Htid : fits 20 (dom_tid d)) (Hasid : fits 16 (dom_asid d)) (Hvmid : fits 16 (dom_vmid d)) (Htag : fits 16 (dom_tecte_tag d)) (Hfeat : feat_range_inv cap = true)
    (Hgs : page_shift_ok (ffs (pgsize_bitmap d)))
    (Hi : 0 <= iova r) (Hai : (2 ^ ffs (pgsize_bitmap d) | iova r))
    (Hs : 0 < size r) (Has : (2 ^ ffs (pgsize_bitmap d) | size r)) (Hend : iova r + size r < 2 ^ 64)
    (Hg : 2 ^ ffs (pgsize_bitmap d) <= granule r < 2 ^ (5 * (ffs (pgsize_bitmap d) - 3) + 3))
    (Hf : (Z.to_nat (size r / 2 ^ ffs (pgsize_bitmap d)) <= fuel)%nat) :
  exists out last mem, ummu_tlbi_range inv cap fuel r leaf d = Some (out ++ [last]) /\
    Forall full_issue out /\ wait last = true /\
    Forall2 (fun c m => reads_as c op m) (concat (map cmds (out ++ [last]))) mem /\
    Forall (fun m => target m = Some tgt) mem /\
    tiles (map span mem) (iova r) (iova r + size r) /\
    (forall x, iova r <= x < iova r + size r <->
       exists m, m ∈ mem /\ fst (span m) <= x < fst (span m) + snd (span m)).
Proof.
  destruct (by_address_cmd inv cap d leaf op tgt Hby Htid Hasid Hvmid Htag) as (cmd & Hcmd & <- & Hop & <-).
  destruct (domain_cmd_shape _ _ _ _ _ _ Hcmd Htid) as (asid & vmid & tid & tag & Ec & F1 & F2 & F3 & F4).
  unfold ummu_tlbi_range. fold (scene_of d). rewrite Hcmd. unfold tlbi_range, ULONG_MAX.
  rewrite (proj2 (Z.eqb_neq (iova r) _)), (proj2 (Z.eqb_neq (size r) _)), Hfeat by lia. cbn [orb negb].
  set (ms := if opt_limit_scale cap then _ else _).
  assert (Hms : 0 <= ms <= 31) by (unfold ms; by destruct (opt_limit_scale cap)).
  set (gs := ffs (pgsize_bitmap d)) in *. pose proof (tl_fits _ _ Hgs Hg) as Htl.
  pose proof (pow2_pos gs ltac:(unfold page_shift_ok in Hgs; lia)).
  rewrite (uwrap_small 64), Z.shiftr_div_pow2 by (unfold page_shift_ok in Hgs; lia).
  replace (set_leaf cmd leaf) with
    {| opcode := opcode cmd; member := tlbi leaf asid vmid tid tag 0 0 0 0 0 |} by (by rewrite Ec).
  set (cmd' := {| opcode := opcode cmd; member := tlbi leaf asid vmid tid tag 0 0 0 0 0 |}).
  destruct (range_loop_spec cmd' ms gs (u8 (granule_to_lvl (granule r) gs)) Hms Hgs (iova r + size r))
    with (fuel := fuel) (start := iova r) (np := size r / 2 ^ gs) as (l & -> & Hp & Ht); try done.
  { unfold cmd'. by repeat eexists. }
  { apply Z.div_pos; lia. }
  { destruct Has as [k ->]. rewrite Z.div_mul; lia. }
  destruct (pieces_read leaf _ _ _ _ _ _ _ _ Hgs Hop F1 F2 F3 F4 Htl Hp) as (Hb & mem & Hr & Hsp & Hm).
  destruct (batch_empty l Hb) as (out & last & Hrun & Hfull & Hw & Hc).
  exists out, last, mem. rewrite <- Hsp in Ht. split_and!; try done.
  - by rewrite Hc.
  - eapply Forall_impl; [exact Hm|]. intros m (num & sc & a & ->). unfold cmd', carried. cbn [opcode member target]. by rewrite (proj1 (proj2 (range_ops_facts _ Hop))), andb_true_r.
  - intros x. rewrite (tiles_cover _ _ _ x Ht). split.
    + intros (a & n & Hin & Hx). apply list_elem_of_fmap in Hin as (m & E & Hm'). exists m. by rewrite <- E.
    + intros (m & Hm' & Hx). exists (fst (span m)), (snd (span m)). split; [|done].
      apply list_elem_of_fmap. exists m. by destruct (span m).
Qed.

(** A host device with range commands of limited scale, and a DMA domain with 4K pages. *)
Definition cap_ex : ummu_cap :=
  {| feat_e2h := true; feat_range_inv := true; feat_hyp := true; opt_limit_scale := true;
     opt_double_tlbi := false; opt_double_plbi := true; opt_sync_with_plbi := false |}.
Definition dom_ex : ummu_domain :=
  {| stage := UMMU_DOMAIN_S1; is_sva := false; tlbi_asid := false; dom_tid := 0x55; dom_asid := 0;
     dom_vmid := 0; dom_tecte_tag := 7; pgsize_bitmap := 2 ^ 12 + 2 ^ 21 + 2 ^ 30 |}.
(** 0x123 pages: 3 pages, then 9 blocks of 32. *)
Definition range_ex : ummu_tlb_range := {| iova := 0x7000; size := 0x123000; granule := 0x1000 |}.
Lemma ummu_tlbi_range_exact_witness : exists out last mem,
  ummu_tlbi_range 0xfffff cap_ex 300 range_ex true dom_ex = Some (out ++ [last]) /\
  Forall2 (fun c m => reads_as c CMD_TLBI_HYP_VA m) (concat (map cmds (out ++ [last]))) mem /\
  Forall (fun m => target m = Some (true, 0, 0, 0x55, 0)) mem /\
  tiles (map span mem) 0x7000 0x12a000.
Proof.
  destruct (ummu_tlbi_range_exact 0xfffff cap_ex 300 range_ex true dom_ex CMD_TLBI_HYP_VA (true, 0, 0, 0x55, 0))
    as (out & last & mem & E & _ & _ & Hr & Hg & Ht & _).
  - apply by_token; try reflexivity; discriminate.
  - unfold fits. cbn. lia.
  - unfold fits. cbn. lia.
  - unfold fits. cbn. lia.
  - unfold fits. cbn. lia.
  - reflexivity.
  - left. reflexivity.
  - cbn. lia.
  - exists 7. reflexivity.
  - cbn. lia.
  - exists 0x123. reflexivity.
  - cbn. lia.
  - vm_compute. intuition discriminate.
  - replace (size range_ex / 2 ^ ffs (pgsize_bitmap dom_ex)) with 0x123 by (vm_compute; reflexivity). lia.
  - exact (ex_intro _ out (ex_intro _ last (ex_intro _ mem (conj E (conj Hr (conj Hg Ht)))))).
Defined.

(** ** Permission entries *)

Lemma log2size_loop_spec (fuel : nat) : forall size index,
  0 <= size < 2 ^ Z.of_nat fuel -> 0 <= index -> index + Z.of_nat fuel < 256 ->
  log2size_loop fuel size index = Some (index + (if size =? 0 then 0 else Z.log2 size + 1)).
Proof.
  induction fuel as [|fuel IH]; intros size index Hs Hi Hb; cbn [log2size_loop].
  - assert (size = 0) as -> by (change (2 ^ Z.of_nat 0) with 1 in Hs; lia). cbn. f_equal. lia.
  - rewrite Nat2Z.inj_succ, Z.pow_succ_r in Hs by lia. destruct (Z.ltb_spec 0 size).
    + rewrite uwrap_small by lia. rewrite Z.shiftr_div_pow2 by lia. change (2 ^ 1) with 2.
      pose proof (Z.div_pos size 2). rewrite IH; [|split; [lia|apply Z.div_lt_upper_bound; lia]|lia|lia].
      f_equal. rewrite (proj2 (Z.eqb_neq size 0)) by lia.
      destruct (Z.eqb_spec (size / 2) 0) as [E|E].
      * assert (size = 1) as -> by zlia. cbn. lia.
      * assert (1 < size) by zlia. change (size / 2) with (size / 2 ^ 1). rewrite <- Z.shiftr_div_pow2, Z.log2_shiftr by lia.
        pose proof (Z.log2_pos size). lia.
    + assert (size = 0) as -> by lia. cbn. f_equal. lia.
Qed.

Lemma log2size_up (size : Z) : 0 <= size < 2 ^ 64 -> get_minist_log2size_range size = Some (Z.log2_up size).
Proof.
  intros Hs. unfold get_minist_log2size_range. rewrite log2size_loop_spec.
  - destruct (Z.ltb_spec 0 size).
    + destruct (decide (size = 1)) as [->|]; [done|].
      rewrite (proj2 (Z.eqb_neq _ _)) by lia. f_equal. rewrite Z.log2_up_eqn by lia.
      replace (Z.pred size) with (size - 1) by lia. lia.
    + by assert (size = 0) as -> by lia.
  - change (2 ^ Z.of_nat 64) with (2 ^ 64). destruct (Z.ltb_spec 0 size); lia.
  - lia.
  - lia.
Qed.

(** Invalidating the permissions of a buffer tells the hardware the smallest power of
    two that holds it.  For a buffer of up to [2^63] bytes the request issues one command,
    or the same one twice on devices that need it, each in a list that waits; the hardware
    reads the token, the tag and the address of the request, and a range exponent [k] with
    [size <= 2^k], and [2^(k-1) < size] for more than one byte. *)
Theorem ummu_flush_plb_range (cap : ummu_cap) (tag tid addr size : Z) (Ht : fits 20 tid)
    (Ha : fits 64 addr) (Hs : 0 <= size <= 2 ^ 63) :
  exists k c, ummu_device_flush_plb cap tag tid addr size =
    Some (0, repeat {| cmds := [c]; wait := true |} (if opt_double_plbi cap then 2 else 1)) /\
    reads_as c CMD_PLBI_OS_VA (plbi tid (u16 tag) k addr) /\
    size <= 2 ^ k /\ (1 < size -> 2 ^ (k - 1) < size).
Proof.
  exists (Z.log2_up size). unfold ummu_device_flush_plb. rewrite log2size_up by lia. cbn [mbind option_bind].
  set (e := {| opcode := CMD_PLBI_OS_VA; member := _ |}).
  assert (Hk : fits 6 (Z.log2_up size)).
  { split; [apply Z.log2_up_nonneg|].
    assert (Z.log2_up size <= Z.log2_up (2 ^ 63)) by (apply Z.log2_up_le_mono; lia).
    rewrite Z.log2_up_pow2 in * by lia. change (2 ^ 6) with 64. lia. }
  destruct (built_reads e _ ltac:(done) ltac:(cbn; split_and!; [done|apply uwrap_range; lia|done|done]) eq_refl)
    as (c & Hc & Hr); [done|done|].
  exists c. split_and!; [|done| |].
  - assert (Hreq : request cap true e = Some (0, [{| cmds := [c]; wait := true |}])).
    { unfold request, issue_cmd. rewrite Hc. cbn [mbind option_bind]. by destruct (opt_double_tlbi cap). }
    unfold plbi_num. by destruct (opt_double_plbi cap); cbn [repeat_request repeat]; rewrite Hreq.
  - destruct (decide (size <= 1)).
    + pose proof (pow2_pos _ (Z.log2_up_nonneg size)). lia.
    + apply Z.log2_up_spec. lia.
  - intros H1. replace (Z.log2_up size - 1) with (Z.pred (Z.log2_up size)) by lia.
    by apply Z.log2_up_spec.
Qed.

Lemma ummu_flush_plb_range_witness : exists k c,
  ummu_device_flush_plb cap_ex 7 0x55 0x1000 5000 = Some (0, repeat {| cmds := [c]; wait := true |} 2) /\
  reads_as c CMD_PLBI_OS_VA (plbi 0x55 7 k 0x1000) /\ 5000 <= 2 ^ k.
Proof.
  destruct (ummu_flush_plb_range cap_ex 7 0x55 0x1000 5000) as (k & c & E & Hr & Hk & _).
  - unfold fits. lia.
  - unfold fits. lia.
  - lia.
  - exact (ex_intro _ k (ex_intro _ c (conj E (conj Hr Hk)))).
Defined.
