(* ===== verification/UmmuPerm.v ===== *)
(** * The memory address permission table of the UMMU

    [drivers/iommu/hisilicon/perm_table.c]: the table that tells the hardware which ranges
    of the address space a remote party may access.  It is a radix tree of four levels.  A
    level block has 512 nodes; a node holds a range of its own (as offsets into the region
    it stands for), the number of a level block of the next level, or both.  Level blocks
    live in blocks of four, which are found by their index in an xarray.

    The definitions below work on this memory: a node is designated by its block and its
    position in it, and every access to a block that is not there fails ([None]).  The
    allocations of the blocks are answered by an oracle. *)

From S2P Require Import Prelude UmmuQueue UmmuCmd.

Declare Scope perm_scope.
Delimit Scope perm_scope with perm.

(** ** Constants and macros *)

Definition UMMU_BLKTBL_MAX_ENTRIES : Z := 512.
Definition MAPT_MAX_LVL_INDEX : Z := 3.
Definition MAPT_MAX_ENTRY_INDEX : Z := 512.
Definition MAPT_PER_LVL_BLOCK_CNT : Z := 4.
Definition MAPT_MAX_LVL_ID_BIT_SIZE : Z := Z.shiftl UMMU_BLKTBL_MAX_ENTRIES 2.
Definition MAPT_VPAGE_SHIFT : Z := 12.
Definition MAX_ADDRESS_BITS : Z := 48.
Definition INVALID_ADDR : Z := 0xFFF.
Definition UMMU_MAX_TOKEN_NUM : Z := 2.
Definition UMMU_GATHER_MAX_CNT : Z := 12.

(** [g_mapt_range_bits]: the bits of the address that index each level. *)
Definition g_mapt_range_bits (level : Z) : Z * Z :=
  if level =? 0 then (47, 39) else if level =? 1 then (38, 30)
  else if level =? 2 then (29, 21) else (20, 12).

Definition GET_BITS_MASK (bits : Z) : Z := Z.shiftl 1 bits - 1.
Definition GET_LEVEL_RANGE_MASK (level : Z) : Z := GET_BITS_MASK (snd (g_mapt_range_bits level)).
Definition GET_LEVEL_BLOCK_INDEX (addr level : Z) : Z :=
  let '(hi, lo) := g_mapt_range_bits level in Z.land (Z.shiftr addr lo) (GET_BITS_MASK (hi - lo + 1)).

Definition TABLE_ADDR_LOW (addr : Z) : Z := FIELD_GET (GENMASK 31 0) addr.
Definition TABLE_ADDR_HIGH (addr : Z) : Z := FIELD_GET (GENMASK 38 32) addr.
Definition LVL_OFFSET_LOW (offset : Z) : Z := FIELD_GET (GENMASK 19 0) offset.
Definition LVL_OFFSET_HIGH (offset : Z) : Z := FIELD_GET (GENMASK 29 20) offset.
Definition TABLE_LVL_OFFSET (low high : Z) : Z := Z.lor (u32 (Z.shiftl high 20)) low.
Definition ADDR_FULL (low high : Z) : Z := Z.lor (Z.shiftl high 32) low.
Definition IS_RTE_IN_USE (addr : Z) : bool := negb (Z.land addr INVALID_ADDR =? INVALID_ADDR).

(** ** Nodes and blocks *)

(** [struct ummu_mapt_table_node]; one-bit fields are booleans. *)
Record ummu_mapt_table_node := {
  valid : bool;
  type : bool;
  next_block : bool;
  e_bit : Z;
  permission : Z;
  f_bit : bool;
  next_lv_offset_low : Z;
  next_lv_offset_high : Z;
  next_lv_index : Z;
  base_low : Z;
  base_high : Z;
  token_check : Z;
  limit_low : Z;
  limit_high : Z;
  nonce : Z;
  token_val_0 : Z;
  token_val_1 : Z;
}.
Abbreviation node := ummu_mapt_table_node.

Definition zero_node : node :=
  {| valid := false; type := false; next_block := false; e_bit := 0; permission := 0;
     f_bit := false; next_lv_offset_low := 0; next_lv_offset_high := 0; next_lv_index := 0;
     base_low := 0; base_high := 0; token_check := 0; limit_low := 0; limit_high := 0;
     nonce := 0; token_val_0 := 0; token_val_1 := 0 |}.

Definition node_base (n : node) : Z := ADDR_FULL (base_low n) (base_high n).
Definition node_limit (n : node) : Z := ADDR_FULL (limit_low n) (limit_high n).
Definition node_offset (n : node) : Z :=
  TABLE_LVL_OFFSET (next_lv_offset_low n) (next_lv_offset_high n).

(** [struct ummu_mapt_block]: [nodes] is the memory at [block_addr]. *)
Record ummu_mapt_block := {
  block_id : Z;
  level_cnt : Z;
  level_entry_cnt : list Z;
  nodes : Z -> node;
}.

(** [struct ummu_mapt_table_ctx], with what the table functions read of
    [struct ummu_mapt_info]. *)
Record ummu_mapt_table_ctx := {
  expan : bool;
  free_bit : bool;
  block_cnt : Z;
  level_block_bitmap : gset Z;
  xa : gmap Z ummu_mapt_block;
}.

(** The requests for the PLB that an operation gathers. *)
Inductive plbi_req := PlbiVa (va size : Z) | PlbiFBit (lvl_idx lvl_offset : Z).

(** What [struct ummu_data_info] says of the request. *)
Record ummu_data_info := {
  d_perm : Z;
  d_tokenval : Z;
  data_base : Z;
  data_limit : Z;
  d_token_check : Z;
  d_e_bit : Z;
}.

(** The state of an operation: the table, the node that stands for the root on the stack of
    [ummu_table_op], the fields of the request that change, and how many answers of the
    allocators were used. *)
Record pstate := {
  ctx : ummu_mapt_table_ctx;
  root : node;
  lvl : Z;
  head_flag : bool;
  gather : list plbi_req;
  answers : nat;
}.

(** Operations on the state; [None] is an access outside of what is allocated. *)
Definition M (A : Type) : Type := pstate -> option (A * pstate).
Definition ret {A} (x : A) : M A := fun s => Some (x, s).
Definition bind {A B} (m : M A) (f : A -> M B) : M B :=
  fun s => match m s with Some (x, s') => f x s' | None => None end.
Definition get : M pstate := fun s => Some (s, s).
Definition put (s : pstate) : M unit := fun _ => Some (tt, s).
Definition undefined {A} : M A := fun _ => None.

Notation "x <-- m ;; k" := (bind m (fun x => k))
  (at level 100, m at next level, right associativity) : perm_scope.
Notation "m ;;; k" := (bind m (fun _ => k)) (at level 100, right associativity) : perm_scope.
Open Scope perm_scope.

(** A pointer to a node: the one on the stack, or a position in a block. *)
Inductive nptr := Root | At (blk off : Z).

(** A block of four level blocks. *)
Definition NODES_PER_BLOCK : Z := MAPT_PER_LVL_BLOCK_CNT * MAPT_MAX_ENTRY_INDEX.

Definition set_ctx (f : ummu_mapt_table_ctx -> ummu_mapt_table_ctx) : M unit := fun s =>
  Some (tt, {| ctx := f (ctx s); root := root s; lvl := lvl s; head_flag := head_flag s;
               gather := gather s; answers := answers s |}).
Definition set_xa (x : gmap Z ummu_mapt_block) (c : ummu_mapt_table_ctx) : ummu_mapt_table_ctx :=
  {| expan := expan c; free_bit := free_bit c; block_cnt := block_cnt c;
     level_block_bitmap := level_block_bitmap c; xa := x |}.
Definition set_bitmap (b : gset Z) (c : ummu_mapt_table_ctx) : ummu_mapt_table_ctx :=
  {| expan := expan c; free_bit := free_bit c; block_cnt := block_cnt c;
     level_block_bitmap := b; xa := xa c |}.
Definition set_block_cnt (n : Z) (c : ummu_mapt_table_ctx) : ummu_mapt_table_ctx :=
  {| expan := expan c; free_bit := free_bit c; block_cnt := n;
     level_block_bitmap := level_block_bitmap c; xa := xa c |}.

Definition set_nodes (b : ummu_mapt_block) (f : Z -> node) : ummu_mapt_block :=
  {| block_id := block_id b; level_cnt := level_cnt b; level_entry_cnt := level_entry_cnt b;
     nodes := f |}.
Definition set_level_cnt (b : ummu_mapt_block) (n : Z) : ummu_mapt_block :=
  {| block_id := block_id b; level_cnt := n; level_entry_cnt := level_entry_cnt b;
     nodes := nodes b |}.
Definition set_entry_cnt (b : ummu_mapt_block) (l : list Z) : ummu_mapt_block :=
  {| block_id := block_id b; level_cnt := level_cnt b; level_entry_cnt := l; nodes := nodes b |}.

(** [xa_load]. *)
Definition load_block (i : Z) : M (option ummu_mapt_block) := s <-- get ;; ret (xa (ctx s) !! i).
Definition deref_block (i : Z) : M ummu_mapt_block :=
  b <-- load_block i ;; match b with Some b => ret b | None => undefined end.
Definition store_block (i : Z) (b : ummu_mapt_block) : M unit :=
  set_ctx (fun c => set_xa (<[i := b]> (xa c)) c).

Definition in_block (off : Z) : bool := (0 <=? off) && (off <? NODES_PER_BLOCK).

Definition get_node (p : nptr) : M node :=
  match p with
  | Root => s <-- get ;; ret (root s)
  | At b o =>
    blk <-- deref_block b ;;
    if in_block o then ret (nodes blk o) else undefined
  end.
Definition set_node (p : nptr) (n : node) : M unit :=
  match p with
  | Root => fun s => Some (tt, {| ctx := ctx s; root := n; lvl := lvl s; head_flag := head_flag s;
                                  gather := gather s; answers := answers s |})
  | At b o =>
    blk <-- deref_block b ;;
    if in_block o then store_block b (set_nodes blk (fun i => if i =? o then n else nodes blk i))
    else undefined
  end.
Definition modify_node (p : nptr) (f : node -> node) : M unit := n <-- get_node p ;; set_node p (f n).

Definition set_lvl (l : Z) : M unit := fun s =>
  Some (tt, {| ctx := ctx s; root := root s; lvl := l; head_flag := head_flag s;
               gather := gather s; answers := answers s |}).
Definition set_head_flag (b : bool) : M unit := fun s =>
  Some (tt, {| ctx := ctx s; root := root s; lvl := lvl s; head_flag := b;
               gather := gather s; answers := answers s |}).

(** ** Filling and updating one node *)

Definition ummu_table_fill_node (n : node) (base limit : Z) (d : ummu_data_info) (new_node : bool) :
    node :=
  let tok := d_token_check d =? 1 in
  {| valid := new_node || valid n;
     type := new_node || type n;
     next_block := next_block n;
     e_bit := uwrap 1 (d_e_bit d);
     permission := uwrap 6 (d_perm d);
     f_bit := false;
     next_lv_offset_low := next_lv_offset_low n;
     next_lv_offset_high := next_lv_offset_high n;
     next_lv_index := next_lv_index n;
     base_low := TABLE_ADDR_LOW base;
     base_high := TABLE_ADDR_HIGH base;
     token_check := uwrap 1 (d_token_check d);
     limit_low := TABLE_ADDR_LOW limit;
     limit_high := TABLE_ADDR_HIGH limit;
     nonce := if tok then 1 else nonce n;
     token_val_0 := if tok then d_tokenval d else token_val_0 n;
     token_val_1 := if tok then d_tokenval d else token_val_1 n |}.

Definition set_type (n : node) (t : bool) : node :=
  {| valid := valid n; type := t; next_block := next_block n; e_bit := e_bit n;
     permission := permission n; f_bit := f_bit n; next_lv_offset_low := next_lv_offset_low n;
     next_lv_offset_high := next_lv_offset_high n; next_lv_index := next_lv_index n;
     base_low := base_low n; base_high := base_high n; token_check := token_check n;
     limit_low := limit_low n; limit_high := limit_high n; nonce := nonce n;
     token_val_0 := token_val_0 n; token_val_1 := token_val_1 n |}.

(** The fields of a node that designate the next level. *)
Definition set_next (n : node) (nb : bool) (index low high : Z) : node :=
  {| valid := valid n; type := type n; next_block := nb; e_bit := e_bit n;
     permission := permission n; f_bit := f_bit n; next_lv_offset_low := low;
     next_lv_offset_high := high; next_lv_index := index;
     base_low := base_low n; base_high := base_high n; token_check := token_check n;
     limit_low := limit_low n; limit_high := limit_high n; nonce := nonce n;
     token_val_0 := token_val_0 n; token_val_1 := token_val_1 n |}.
Definition set_next_block (n : node) (nb : bool) : node :=
  set_next n nb (next_lv_index n) (next_lv_offset_low n) (next_lv_offset_high n).

(** [cur_node->base_low = INVALID_ADDR ...] and [cur_node->f_bit = 1]. *)
Definition drop_range (n : node) : node :=
  {| valid := valid n; type := type n; next_block := next_block n; e_bit := e_bit n;
     permission := 0; f_bit := f_bit n; next_lv_offset_low := next_lv_offset_low n;
     next_lv_offset_high := next_lv_offset_high n; next_lv_index := next_lv_index n;
     base_low := INVALID_ADDR; base_high := 0; token_check := token_check n;
     limit_low := INVALID_ADDR; limit_high := 0; nonce := nonce n;
     token_val_0 := token_val_0 n; token_val_1 := token_val_1 n |}.
Definition set_f_bit (n : node) : node :=
  {| valid := valid n; type := type n; next_block := next_block n; e_bit := e_bit n;
     permission := permission n; f_bit := true; next_lv_offset_low := next_lv_offset_low n;
     next_lv_offset_high := next_lv_offset_high n; next_lv_index := next_lv_index n;
     base_low := base_low n; base_high := base_high n; token_check := token_check n;
     limit_low := limit_low n; limit_high := limit_high n; nonce := nonce n;
     token_val_0 := token_val_0 n; token_val_1 := token_val_1 n |}.
Definition set_tokens (n : node) (non t0 t1 : Z) : node :=
  {| valid := valid n; type := type n; next_block := next_block n; e_bit := e_bit n;
     permission := permission n; f_bit := f_bit n; next_lv_offset_low := next_lv_offset_low n;
     next_lv_offset_high := next_lv_offset_high n; next_lv_index := next_lv_index n;
     base_low := base_low n; base_high := base_high n; token_check := token_check n;
     limit_low := limit_low n; limit_high := limit_high n; nonce := non;
     token_val_0 := t0; token_val_1 := t1 |}.

Definition ummu_add_token (n : node) (tokenval : Z) : Z * node :=
  if valid n && (nonce n =? 1) then (0, set_tokens n UMMU_MAX_TOKEN_NUM (token_val_0 n) tokenval)
  else (- EINVAL, n).
Definition ummu_remove_token (n : node) (tokenval : Z) : Z * node :=
  if token_val_0 n =? tokenval then (0, set_tokens n 1 (token_val_1 n) (token_val_1 n))
  else if token_val_1 n =? tokenval then (0, set_tokens n 1 (token_val_0 n) (token_val_0 n))
  else (- EINVAL, n).

Inductive ummu_grant_op_type := UMMU_GRANT | UMMU_ADD_TOKEN | UMMU_REMOVE_TOKEN | UMMU_UNGRANT | UMMU_OP_END.

Definition ummu_update_token (op : ummu_grant_op_type) (p : nptr) (d : ummu_data_info) : M Z :=
  match op with
  | UMMU_ADD_TOKEN =>
    n <-- get_node p ;; let '(r, n') := ummu_add_token n (d_tokenval d) in set_node p n' ;;; ret r
  | UMMU_REMOVE_TOKEN =>
    n <-- get_node p ;; let '(r, n') := ummu_remove_token n (d_tokenval d) in set_node p n' ;;; ret r
  | _ => ret (- EINVAL)
  end.

(** ** Counters, blocks and the gathered requests *)

Definition ummu_modify_entry_cnt (blk lv_offset cnt : Z) : M unit :=
  b <-- deref_block blk ;;
  let index := Z.to_nat (lv_offset / MAPT_MAX_ENTRY_INDEX) in
  match level_entry_cnt b !! index with
  | Some c =>
    let c' := if 0 <? cnt then u16 (c + cnt) else u16 (c - - cnt) in
    store_block blk (set_entry_cnt b (<[index := c']> (level_entry_cnt b)))
  | None => undefined
  end.

Definition update_ummu_gather (r : plbi_req) : M unit := fun s =>
  if UMMU_GATHER_MAX_CNT <=? Z.of_nat (length (gather s)) then Some (tt, s)
  else Some (tt, {| ctx := ctx s; root := root s; lvl := lvl s; head_flag := head_flag s;
                    gather := gather s ++ [r]; answers := answers s |}).

Definition ummu_table_type_switch_plbi (d : ummu_data_info) (nb nl level : Z) : M unit :=
  s <-- get ;;
  let full_addr := if (lvl s <? MAPT_MAX_LVL_INDEX) && negb (head_flag s) then data_limit d
                   else data_base d in
  update_ummu_gather
    (PlbiVa (Z.lor (Z.land full_addr (u64 (Z.lnot (GET_LEVEL_RANGE_MASK level)))) nb)
            (u64 (nl - nb + 1))).

Section Alloc.
(** The results of [kcalloc], [ummu_alloc_mapt_blk_mem] and [xa_store], in the order of the
    calls: 0, or an error. *)
Variable answer : nat -> Z.

Definition ask : M Z := fun s =>
  Some (answer (answers s), {| ctx := ctx s; root := root s; lvl := lvl s; head_flag := head_flag s;
                               gather := gather s; answers := S (answers s) |}).

(** A new block: its memory is zeroed.  The result is 0 or an error. *)
Definition ummu_alloc_new_mapt_block (blk_idx : Z) : M Z :=
  s <-- get ;;
  if (negb (blk_idx =? 0) && negb (expan (ctx s))) || (UMMU_BLKTBL_MAX_ENTRIES <=? blk_idx)
  then ret (- ERANGE)
  else
    r1 <-- ask ;;
    if ctrue r1 then ret (- ENOMEM)
    else
      r2 <-- ask ;;
      if ctrue r2 then ret r2
      else
        r3 <-- ask ;;
        if ctrue r3 then ret (- EFAULT)
        else
          store_block blk_idx {| block_id := blk_idx; level_cnt := 0;
                                 level_entry_cnt := [0; 0; 0; 0]; nodes := fun _ => zero_node |} ;;;
          set_ctx (fun c => set_block_cnt (u16 (block_cnt c + 1)) c) ;;;
          ret 0.

(** [find_first_zero_bit]. *)
Definition find_first_zero_bit (b : gset Z) (size : Z) : Z :=
  match find_from (fun i => negb (bool_decide (i ∈ b))) 0 (Z.to_nat size) with
  | Some i => i
  | None => size
  end.

(** A level block for the node at [pre], which is in block [pre_blk] if any: an error, or 0
    with the node linked to it. *)
Definition ummu_alloc_level_block (pre : nptr) (pre_blk : option Z) : M Z :=
  s <-- get ;;
  let lvl_id := find_first_zero_bit (level_block_bitmap (ctx s)) MAPT_MAX_LVL_ID_BIT_SIZE in
  if MAPT_MAX_LVL_ID_BIT_SIZE <=? lvl_id then ret (- ERANGE)
  else
    modify_node pre (fun n => set_next_block n false) ;;;
    let blk_idx := lvl_id / MAPT_PER_LVL_BLOCK_CNT in
    mapt_blk <-- load_block blk_idx ;;
    r <-- (match mapt_blk with
           | None =>
             r <-- ummu_alloc_new_mapt_block blk_idx ;;
             if ctrue r then ret r
             else modify_node pre (fun n => set_next_block n true) ;;; ret 0
           | Some _ =>
             (if bool_decide (pre_blk = Some blk_idx) then ret tt
              else modify_node pre (fun n => set_next_block n true)) ;;;
             ret 0
           end) ;;
    if ctrue r then ret r
    else
      let next_lvl_offset := MAPT_MAX_ENTRY_INDEX * (lvl_id mod MAPT_PER_LVL_BLOCK_CNT) in
      modify_node pre (fun n => set_next n (next_block n) (u16 blk_idx)
                                  (LVL_OFFSET_LOW next_lvl_offset) (LVL_OFFSET_HIGH next_lvl_offset)) ;;;
      set_ctx (fun c => set_bitmap ({[ lvl_id ]} ∪ level_block_bitmap c) c) ;;;
      b <-- deref_block blk_idx ;;
      store_block blk_idx (set_level_cnt b (u16 (level_cnt b + 1))) ;;;
      ret 0.

(** ** Granting *)

Section FillHead.
(** [ummu_table_fill_node_by_level] for the next level. *)
Variable fill_next : Z -> nptr -> Z -> Z -> M Z.
Context (d : ummu_data_info) (level : Z).

(** The end of both functions: descend, allocating the next level if there is none. *)
Definition fill_descend (blk : Z) (cur : nptr) (nb nl : Z) : M Z :=
  n <-- get_node cur ;;
  r <-- (if type n then
           r <-- ummu_alloc_level_block cur (Some blk) ;;
           if ctrue r then ret (- ENOMEM)
           else modify_node cur (fun n => set_type n false) ;;; ret 0
         else ret 0) ;;
  if ctrue r then ret r else fill_next (level + 1) cur nb nl.

Definition ummu_table_fill_head_node_free_bit (pre cur : nptr) (nb nl : Z) : M Z :=
  p <-- get_node pre ;;
  n <-- get_node cur ;;
  if negb (valid n) then
    set_node cur (ummu_table_fill_node n nb nl d true) ;;;
    ummu_modify_entry_cnt (next_lv_index p) (node_offset p) 1 ;;;
    ret 0
  else if f_bit n then
    set_node cur (ummu_table_fill_node n nb nl d false) ;;;
    update_ummu_gather (PlbiFBit (next_lv_index n) (node_offset n)) ;;;
    ret 0
  else fill_descend (next_lv_index p) cur nb nl.

Definition ummu_table_fill_head_node (pre cur : nptr) (nb nl : Z) : M Z :=
  p <-- get_node pre ;;
  n <-- get_node cur ;;
  if valid n then
    if negb (IS_RTE_IN_USE (node_base n)) && negb (IS_RTE_IN_USE (node_limit n)) then
      set_node cur (ummu_table_fill_node n nb nl d false) ;;;
      ummu_table_type_switch_plbi d 0 INVALID_ADDR level ;;;
      ret 0
    else fill_descend (next_lv_index p) cur nb nl
  else
    set_node cur (ummu_table_fill_node n nb nl d true) ;;;
    ummu_modify_entry_cnt (next_lv_index p) (node_offset p) 1 ;;;
    ret 0.

(** The loop over the nodes [i], ..., [limit_idx] ([count] of them). *)
Fixpoint fill_loop (count : nat) (i base_idx limit_idx : Z) (pre : nptr) (blk lvl_offset : Z)
    (lvl_base lvl_limit : Z) : M Z :=
  match count with
  | O => ret 0
  | S count' =>
    let lvl_msk := GET_LEVEL_RANGE_MASK level in
    let cur := At blk (lvl_offset + i) in
    let nb := if i =? base_idx then Z.land lvl_base lvl_msk else 0 in
    let nl := if i =? limit_idx then Z.land lvl_limit lvl_msk else lvl_msk in
    r <-- (if (base_idx <? i) && (i <? limit_idx) then
             n <-- get_node cur ;;
             if valid n then ret (- EINVAL)
             else
               set_node cur (ummu_table_fill_node n nb nl d true) ;;;
               ummu_modify_entry_cnt blk lvl_offset 1 ;;;
               ret 0
           else
             s <-- get ;;
             (if lvl s =? level then set_head_flag (i =? base_idx) else ret tt) ;;;
             if free_bit (ctx s) then ummu_table_fill_head_node_free_bit pre cur nb nl
             else ummu_table_fill_head_node pre cur nb nl) ;;
    if ctrue r then ret r
    else fill_loop count' (i + 1) base_idx limit_idx pre blk lvl_offset lvl_base lvl_limit
  end.
End FillHead.

(** [fuel] bounds the depth of the recursion, which the test of [level] ends. *)
Fixpoint ummu_table_fill_node_by_level (fuel : nat) (d : ummu_data_info) (level : Z) (pre : nptr)
    (lvl_base lvl_limit : Z) : M Z :=
  match fuel with
  | O => undefined
  | S fuel' =>
    if MAPT_MAX_LVL_INDEX <? level then ret (- EINVAL)
    else
      p <-- get_node pre ;;
      let lvl_offset := node_offset p in
      mapt_blk <-- load_block (next_lv_index p) ;;
      match mapt_blk with
      | None => ret (- EINVAL)
      | Some _ =>
        let base_idx := u16 (GET_LEVEL_BLOCK_INDEX lvl_base level) in
        let limit_idx := u16 (GET_LEVEL_BLOCK_INDEX lvl_limit level) in
        s <-- get ;;
        (if (MAPT_MAX_LVL_INDEX <=? lvl s) && negb (base_idx =? limit_idx) then set_lvl level
         else ret tt) ;;;
        fill_loop (ummu_table_fill_node_by_level fuel' d) d level (Z.to_nat (limit_idx - base_idx + 1))
          base_idx base_idx limit_idx pre (next_lv_index p) lvl_offset lvl_base lvl_limit
      end
  end.
End Alloc.

(** ** Revoking *)

(** [mapt_info->domain] is set.  The memory of a block that is given back is gone from the
    xarray. *)
Definition ummu_free_level_block (prev : nptr) : M unit :=
  p <-- get_node prev ;;
  let lv_offset := node_offset p in
  let lv_index := next_lv_index p in
  mapt_blk <-- load_block lv_index ;;
  match mapt_blk with
  | None => ret tt
  | Some b =>
    let lvl_id := u32 (block_id b * MAPT_PER_LVL_BLOCK_CNT + lv_offset / MAPT_MAX_ENTRY_INDEX) in
    let b' := if ctrue lvl_id then set_level_cnt b (u16 (level_cnt b - 1)) else b in
    (if ctrue lvl_id then
       store_block lv_index b' ;;;
       set_ctx (fun c => set_bitmap (level_block_bitmap c ∖ {[ lvl_id ]}) c)
     else ret tt) ;;;
    s <-- get ;;
    if (level_cnt b' =? 0) && (1 <? block_cnt (ctx s)) then
      set_ctx (fun c => set_xa (delete (block_id b) (xa c)) c) ;;;
      set_ctx (fun c => set_block_cnt (u16 (block_cnt c - 1)) c)
    else ret tt
  end.

Definition ummu_table_clear_node (cur pre : nptr) : M unit :=
  p <-- get_node pre ;;
  let lv_offset := node_offset p in
  mapt_blk <-- load_block (next_lv_index p) ;;
  match mapt_blk with
  | None => ret tt
  | Some _ =>
    n <-- get_node cur ;;
    if type n then
      set_node cur zero_node ;;;
      ummu_modify_entry_cnt (next_lv_index p) lv_offset (-1) ;;;
      b <-- deref_block (next_lv_index p) ;;
      match level_entry_cnt b !! Z.to_nat (lv_offset / MAPT_MAX_ENTRY_INDEX) with
      | None => undefined
      | Some c =>
        if c =? 0 then
          ummu_free_level_block pre ;;;
          modify_node pre (fun n => set_next (set_type n true) false 0 0 0)
        else ret tt
      end
    else ret tt
  end.

Section ClearHead.
Variable clear_next : Z -> nptr -> Z -> Z -> M Z.
Context (d : ummu_data_info) (level : Z).

Definition ummu_table_clear_head_node (pre cur : nptr) (nb nl : Z) : M Z :=
  n <-- get_node cur ;;
  if negb (IS_RTE_IN_USE (node_base n)) && negb (IS_RTE_IN_USE (node_limit n)) then
    if type n then ret (- EINVAL)
    else
      r <-- clear_next (level + 1) cur nb nl ;;
      n' <-- get_node cur ;;
      (if type n' then
         ummu_table_clear_node cur pre ;;;
         ummu_table_type_switch_plbi d 0 INVALID_ADDR level
       else ret tt) ;;;
      ret r
  else if (node_base n =? nb) && (node_limit n =? nl) then
    if negb (type n) then set_node cur (drop_range n) ;;; ret 0
    else ummu_table_clear_node cur pre ;;; ret 0
  else if type n then ret (- EINVAL)
  else
    r <-- clear_next (level + 1) cur nb nl ;;
    n' <-- get_node cur ;;
    (if type n' then ummu_table_type_switch_plbi d (node_base n) (node_limit n) level else ret tt) ;;;
    ret r.

Definition ummu_table_clear_head_node_free_bit (pre cur : nptr) (nb nl : Z) : M Z :=
  n <-- get_node cur ;;
  if f_bit n then
    if type n then ret (- EINVAL)
    else
      r <-- clear_next (level + 1) cur nb nl ;;
      n' <-- get_node cur ;;
      (if type n' then
         ummu_table_clear_node cur pre ;;;
         update_ummu_gather (PlbiFBit (next_lv_index n) (node_offset n))
       else ret tt) ;;;
      ret r
  else if (node_base n =? nb) && (node_limit n =? nl) then
    if negb (type n) then set_node cur (set_f_bit n) ;;; ret 0
    else ummu_table_clear_node cur pre ;;; ret 0
  else if type n then ret (- EINVAL)
  else
    r <-- clear_next (level + 1) cur nb nl ;;
    n' <-- get_node cur ;;
    (if type n' then ummu_table_type_switch_plbi d (node_base n) (node_limit n) level else ret tt) ;;;
    ret r.

Fixpoint clear_loop (count : nat) (i base_idx limit_idx : Z) (pre : nptr) (blk lvl_offset : Z)
    (lvl_base lvl_limit : Z) : M Z :=
  match count with
  | O => ret 0
  | S count' =>
    let lvl_msk := GET_LEVEL_RANGE_MASK level in
    let cur := At blk (lvl_offset + i) in
    n <-- get_node cur ;;
    if negb (valid n) then ret (- EINVAL)
    else
      let nb := if i =? base_idx then Z.land lvl_base lvl_msk else 0 in
      let nl := if i =? limit_idx then Z.land lvl_limit lvl_msk else lvl_msk in
      r <-- (if (base_idx <? i) && (i <? limit_idx) then ummu_table_clear_node cur pre ;;; ret 0
             else
               s <-- get ;;
               (if lvl s =? level then set_head_flag (i =? base_idx) else ret tt) ;;;
               if free_bit (ctx s) then ummu_table_clear_head_node_free_bit pre cur nb nl
               else ummu_table_clear_head_node pre cur nb nl) ;;
      if ctrue r then ret r
      else clear_loop count' (i + 1) base_idx limit_idx pre blk lvl_offset lvl_base lvl_limit
  end.
End ClearHead.

Fixpoint ummu_table_clear_node_by_level (fuel : nat) (d : ummu_data_info) (level : Z) (pre : nptr)
    (lvl_base lvl_limit : Z) : M Z :=
  match fuel with
  | O => undefined
  | S fuel' =>
    if MAPT_MAX_LVL_INDEX <? level then ret (- EINVAL)
    else
      p <-- get_node pre ;;
      mapt_blk <-- load_block (next_lv_index p) ;;
      match mapt_blk with
      | None => ret (- EINVAL)
      | Some _ =>
        let base_idx := u16 (GET_LEVEL_BLOCK_INDEX lvl_base level) in
        let limit_idx := u16 (GET_LEVEL_BLOCK_INDEX lvl_limit level) in
        s <-- get ;;
        (if (MAPT_MAX_LVL_INDEX <=? lvl s) && negb (base_idx =? limit_idx) then set_lvl level
         else ret tt) ;;;
        clear_loop (ummu_table_clear_node_by_level fuel' d) d level (Z.to_nat (limit_idx - base_idx + 1))
          base_idx base_idx limit_idx pre (next_lv_index p) (node_offset p) lvl_base lvl_limit
      end
  end.

(** ** Tokens *)

Section TokenHead.
Variable update_next : Z -> nptr -> Z -> Z -> M Z.
Context (op : ummu_grant_op_type) (d : ummu_data_info) (level : Z).

Definition ummu_table_update_node_token_free_bit (cur : nptr) (nb nl : Z) : M Z :=
  n <-- get_node cur ;;
  if f_bit n then
    if type n then ret (- EINVAL) else update_next (level + 1) cur nb nl
  else if (node_base n =? nb) && (node_limit n =? nl) then ummu_update_token op cur d
  else if type n then ret (- EINVAL)
  else update_next (level + 1) cur nb nl.

Definition ummu_table_update_node_token (cur : nptr) (nb nl : Z) : M Z :=
  n <-- get_node cur ;;
  if (node_base n =? nb) && (node_limit n =? nl) then
    r <-- ummu_update_token op cur d ;;
    if ctrue r then ret r else ret 0
  else if negb (type n) then update_next (level + 1) cur nb nl
  else ret (- EINVAL).

Fixpoint token_loop (count : nat) (i base_idx limit_idx : Z) (blk lvl_offset : Z)
    (lvl_base lvl_limit : Z) : M Z :=
  match count with
  | O => ret 0
  | S count' =>
    let lvl_msk := GET_LEVEL_RANGE_MASK level in
    let cur := At blk (lvl_offset + i) in
    n <-- get_node cur ;;
    if negb (valid n) then ret (- EINVAL)
    else
      let nb := if i =? base_idx then Z.land lvl_base lvl_msk else 0 in
      let nl := if i =? limit_idx then Z.land lvl_limit lvl_msk else lvl_msk in
      r <-- (if (base_idx <? i) && (i <? limit_idx) then ummu_update_token op cur d
             else
               s <-- get ;;
               if free_bit (ctx s) then ummu_table_update_node_token_free_bit cur nb nl
               else ummu_table_update_node_token cur nb nl) ;;
      if ctrue r then ret r
      else token_loop count' (i + 1) base_idx limit_idx blk lvl_offset lvl_base lvl_limit
  end.
End TokenHead.

Fixpoint ummu_table_update_token_by_level (fuel : nat) (op : ummu_grant_op_type) (d : ummu_data_info)
    (level : Z) (pre : nptr) (lvl_base lvl_limit : Z) : M Z :=
  match fuel with
  | O => undefined
  | S fuel' =>
    if MAPT_MAX_LVL_INDEX <? level then ret (- EINVAL)
    else
      p <-- get_node pre ;;
      mapt_blk <-- load_block (next_lv_index p) ;;
      match mapt_blk with
      | None => ret (- EINVAL)
      | Some _ =>
        let base_idx := u16 (GET_LEVEL_BLOCK_INDEX lvl_base level) in
        let limit_idx := u16 (GET_LEVEL_BLOCK_INDEX lvl_limit level) in
        token_loop (ummu_table_update_token_by_level fuel' op d) op d level
          (Z.to_nat (limit_idx - base_idx + 1)) base_idx base_idx limit_idx
          (next_lv_index p) (node_offset p) lvl_base lvl_limit
      end
  end.

(** ** The operations on the table *)

(** Levels 0 to 3 and the call that finds the level too deep. *)
Definition MAX_DEPTH : nat := 5.

(** [ummu_table_op], on a zeroed node on the stack. *)
Definition ummu_table_op (answer : nat -> Z) (op : ummu_grant_op_type) (d : ummu_data_info) : M Z :=
  set_node Root zero_node ;;;
  match op with
  | UMMU_GRANT =>
    r <-- ummu_table_fill_node_by_level answer MAX_DEPTH d 0 Root (data_base d) (data_limit d) ;;
    if ctrue r then
      ummu_table_clear_node_by_level MAX_DEPTH d 0 Root (data_base d) (data_limit d) ;;; ret r
    else ret r
  | UMMU_ADD_TOKEN | UMMU_REMOVE_TOKEN =>
    ummu_table_update_token_by_level MAX_DEPTH op d 0 Root (data_base d) (data_limit d)
  | UMMU_UNGRANT =>
    ummu_table_clear_node_by_level MAX_DEPTH d 0 Root (data_base d) (data_limit d)
  | UMMU_OP_END => ret (- EINVAL)
  end.

(** The table of [ummu_init_ksva_mapt_for_table] after its root level block was allocated. *)
Definition mapt_init (expan_ free_bit_ : bool) : ummu_mapt_table_ctx :=
  {| expan := expan_; free_bit := free_bit_; block_cnt := 1; level_block_bitmap := {[ 0 ]};
     xa := {[ 0 := {| block_id := 0; level_cnt := 1; level_entry_cnt := [0; 0; 0; 0];
                      nodes := fun _ => zero_node |} ]} |}.

(** ** What the hardware grants *)

(** The attributes of a range: permission, execution bit, and the tokens to present, which
    count only if they are checked. *)
Record attr := { a_perm : Z; a_ebit : Z; a_check : Z; a_nonce : Z; a_tok0 : Z; a_tok1 : Z }.
Definition node_attr (n : node) : attr :=
  let tok v := if token_check n =? 1 then v else 0 in
  {| a_perm := permission n; a_ebit := e_bit n; a_check := token_check n; a_nonce := tok (nonce n);
     a_tok0 := tok (token_val_0 n); a_tok1 := tok (token_val_1 n) |}.

(** Whether the range a node holds is in force. *)
Definition rte_in_use (fb : bool) (n : node) : bool :=
  if fb then negb (f_bit n) else IS_RTE_IN_USE (node_base n) || IS_RTE_IN_USE (node_limit n).

(** The walk of the hardware: at each level the node of the address grants it if it holds
    it, else the walk goes on below. *)
Fixpoint walk (fuel : nat) (c : ummu_mapt_table_ctx) (level blk off a : Z) : option attr :=
  match fuel with
  | O => None
  | S fuel' =>
    b ← xa c !! blk;
    let n := nodes b (off + GET_LEVEL_BLOCK_INDEX a level) in
    let o := Z.land a (GET_LEVEL_RANGE_MASK level) in
    if negb (valid n) then None
    else if rte_in_use (free_bit c) n && (node_base n <=? o) && (o <=? node_limit n)
    then Some (node_attr n)
    else if type n then None
    else walk fuel' c (level + 1) (next_lv_index n) (node_offset n) a
  end.
Definition hw_grants (c : ummu_mapt_table_ctx) (a : Z) : option attr := walk 4 c 0 0 0 a.
