(* ===== verification/UmmuPermTree.v ===== *)
(** * Permission tables as trees

    What the permission table of [UmmuPerm] stores, without its memory: a table is a finite
    map from the index of a node to a cell, a cell holds a range of its own, a table of the
    next level, or both.  Granting and revoking are functions on these trees; this file
    shows that they add and remove exactly the addresses of a segment, that they keep the
    trees well-formed, and that revoking undoes a grant, complete or interrupted. *)

From S2P Require Import Prelude UmmuPerm.

(** ** Trees *)

(** A range, as offsets into the region of its cell. *)
Record rng := { rb : Z; rl : Z; ra : attr }.

#[warnings="-register-all"]
Inductive cell := Cell (own : option rng) (sub : option (gmap Z cell)).
Abbreviation tbl := (gmap Z cell).

Definition own (c : cell) : option rng := let 'Cell o _ := c in o.
Definition sub (c : cell) : option tbl := let 'Cell _ s := c in s.

(** The size of the region of a cell with [k] levels below it. *)
Definition cs (k : nat) : Z := 2 ^ (9 * Z.of_nat k + 12).

Lemma cs_pos (k : nat) : 0 < cs k.
Proof. apply pow2_pos. lia. Qed.
Lemma cs_S (k : nat) : cs (S k) = 512 * cs k.
Proof. unfold cs. change 512 with (2 ^ 9). rewrite <- Z.pow_add_r by lia. f_equal. lia. Qed.
Lemma cs_0 : cs 0 = 4096.
Proof. reflexivity. Qed.
Lemma cs_page (k : nat) : (4096 | cs k).
Proof.
  unfold cs. exists (2 ^ (9 * Z.of_nat k)). change 4096 with (2 ^ 12). rewrite <- Z.pow_add_r; lia.
Qed.
Lemma cs_ones (k : nat) : cs k - 1 = Z.ones (9 * Z.of_nat k + 12).
Proof. unfold cs. rewrite Z.ones_equiv. lia. Qed.
Lemma cs_shift (k : nat) (x : Z) : Z.shiftr x (9 * Z.of_nat k + 12) = x / cs k.
Proof. unfold cs. by rewrite Z.shiftr_div_pow2 by lia. Qed.
Lemma cs_land (k : nat) (x : Z) : Z.land x (cs k - 1) = x mod cs k.
Proof. rewrite cs_ones. unfold cs. by rewrite Z.land_ones by lia. Qed.
#[global] Opaque cs.

(** The part of [b, l] in cell [i]. *)
Definition pb (k : nat) (b i : Z) : Z := if i =? b / cs k then b mod cs k else 0.
Definition pl (k : nat) (l i : Z) : Z := if i =? l / cs k then l mod cs k else cs k - 1.
Definition middle (k : nat) (b l i : Z) : bool := (b / cs k <? i) && (i <? l / cs k).

(** The address [a] of a table with [k] levels. *)
Fixpoint look (k : nat) (T : tbl) (a : Z) : option attr :=
  match k with
  | O => None
  | S k' =>
    match T !! (a / cs k') with
    | None => None
    | Some c =>
      let r := a mod cs k' in
      match own c with
      | Some g => if (rb g <=? r) && (r <=? rl g) then Some (ra g)
                  else match sub c with Some T' => look k' T' r | None => None end
      | None => match sub c with Some T' => look k' T' r | None => None end
      end
    end
  end.

(** A step on each of the cells [i], ..., [i + n - 1], until one fails. *)
Fixpoint iter (step : Z -> option cell -> option cell * bool) (n : nat) (i : Z) (T : tbl) : tbl * bool :=
  match n with
  | O => (T, true)
  | S n' =>
    let '(c, ok) := step i (T !! i) in
    let T' := partial_alter (fun _ => c) i T in
    if ok then iter step n' (i + 1) T' else (T', false)
  end.

Definition span_len (k : nat) (b l : Z) : nat := Z.to_nat (l / cs k - b / cs k + 1).

(** Adding a range. *)
Definition ins_cell (rec : tbl -> Z -> Z -> tbl * bool) (mid : bool) (nb nl : Z) (x : attr)
    (c : option cell) : option cell * bool :=
  match c with
  | None => (Some (Cell (Some {| rb := nb; rl := nl; ra := x |}) None), true)
  | Some (Cell o s) =>
    if mid then (c, false)
    else
      match o with
      | None => (Some (Cell (Some {| rb := nb; rl := nl; ra := x |}) s), true)
      | Some _ => let '(T', ok) := rec (default ∅ s) nb nl in (Some (Cell o (Some T')), ok)
      end
  end.
Fixpoint ins (k : nat) (x : attr) (T : tbl) (b l : Z) : tbl * bool :=
  match k with
  | O => (T, false)
  | S k' =>
    iter (fun i => ins_cell (ins k' x) (middle k' b l i) (pb k' b i) (pl k' l i) x)
      (span_len k' b l) (b / cs k') T
  end.

(** Removing a range. *)
Definition shrink (T : tbl) : option tbl := if bool_decide (T = ∅) then None else Some T.
Definition rem_cell (rec : tbl -> Z -> Z -> tbl * bool) (mid : bool) (nb nl : Z)
    (c : option cell) : option cell * bool :=
  match c with
  | None => (None, false)
  | Some (Cell o s) =>
    if mid then (match s with None => None | Some _ => c end, true)
    else
      match o, s with
      | None, None => (c, false)
      | None, Some T =>
        let '(T', ok) := rec T nb nl in
        (match shrink T' with None => None | Some T' => Some (Cell None (Some T')) end, ok)
      | Some g, _ =>
        if (rb g =? nb) && (rl g =? nl) then
          (match s with None => None | Some T => Some (Cell None (Some T)) end, true)
        else
          match s with
          | None => (c, false)
          | Some T => let '(T', ok) := rec T nb nl in (Some (Cell o (shrink T')), ok)
          end
      end
  end.
Fixpoint rem (k : nat) (T : tbl) (b l : Z) : tbl * bool :=
  match k with
  | O => (T, false)
  | S k' =>
    iter (fun i => rem_cell (rem k') (middle k' b l i) (pb k' b i) (pl k' l i))
      (span_len k' b l) (b / cs k') T
  end.

(** ** Well-formed trees *)

Fixpoint twf (k : nat) (T : tbl) : Prop :=
  match k with
  | O => T = ∅
  | S k' => forall i c, T !! i = Some c ->
    0 <= i < 512 /\ (own c <> None \/ sub c <> None) /\
    (forall g, own c = Some g -> 0 <= rb g <= rl g /\ rl g < cs k' /\ (4096 | rb g)) /\
    (forall T', sub c = Some T' -> T' <> ∅ /\ twf k' T') /\
    (forall g T' r, own c = Some g -> sub c = Some T' -> rb g <= r <= rl g -> look k' T' r = None)
  end.

(** A segment is stored: in each cell it meets, as the cell's own range or below. *)
Fixpoint stored (k : nat) (T : tbl) (b l : Z) (x : attr) : Prop :=
  match k with
  | O => False
  | S k' => forall i, b / cs k' <= i <= l / cs k' -> exists c, T !! i = Some c /\
    ((own c = Some {| rb := pb k' b i; rl := pl k' l i; ra := x |} /\
      (middle k' b l i = true -> sub c = None)) \/
     (middle k' b l i = false /\ exists T', sub c = Some T' /\ stored k' T' (pb k' b i) (pl k' l i) x))
  end.

(** A segment of a table with [k] levels. *)
Definition seg_in (k : nat) (b l : Z) : Prop := 0 <= b <= l /\ l < cs k /\ (4096 | b).
Definition vacant (k : nat) (T : tbl) (b l : Z) : Prop := forall a, b <= a <= l -> look k T a = None.

(** ** Loops over cells *)

Lemma iter_ok (step : Z -> option cell -> option cell * bool) (n : nat) : forall i T,
  (forall j, i <= j < i + Z.of_nat n -> snd (step j (T !! j)) = true) ->
  exists T', iter step n i T = (T', true) /\
    forall j, T' !! j = if decide (i <= j < i + Z.of_nat n) then fst (step j (T !! j)) else T !! j.
Proof.
  induction n as [|n IH]; intros i T H; cbn.
  - exists T. split; [done|]. intros j. by rewrite decide_False by lia.
  - pose proof (H i ltac:(lia)) as Hi. destruct (step i (T !! i)) as [c ok] eqn:E. cbn in Hi. subst ok.
    destruct (IH (i + 1) (partial_alter (fun _ => c) i T)) as (T' & -> & HT').
    + intros j Hj. rewrite lookup_partial_alter_ne by lia. apply H. lia.
    + exists T'. split; [done|]. intros j. rewrite HT'. destruct (decide (j = i)) as [->|].
      * rewrite decide_False, decide_True, lookup_partial_alter_eq by lia. by rewrite E.
      * rewrite lookup_partial_alter_ne by done. destruct (decide (i <= j < _)), (decide (i + 1 <= j < _)); done || lia.
Qed.

Lemma iter_fail (step : Z -> option cell -> option cell * bool) (n : nat) : forall i m T,
  i <= m < i + Z.of_nat n -> (forall j, i <= j < m -> snd (step j (T !! j)) = true) ->
  snd (step m (T !! m)) = false ->
  exists T', iter step n i T = (T', false) /\
    forall j, T' !! j = if decide (i <= j <= m) then fst (step j (T !! j)) else T !! j.
Proof.
  induction n as [|n IH]; intros i m T Hm H Hf; [lia|]. cbn.
  destruct (step i (T !! i)) as [c ok] eqn:E. destruct (decide (m = i)) as [->|].
  - rewrite E in Hf. cbn in Hf. subst ok. eexists. split; [done|]. intros j.
    destruct (decide (j = i)) as [->|].
    + by rewrite decide_True, lookup_partial_alter_eq, E by lia.
    + by rewrite decide_False, lookup_partial_alter_ne by lia.
  - pose proof (H i ltac:(lia)) as Hi. rewrite E in Hi. cbn in Hi. subst ok.
    destruct (IH (i + 1) m (partial_alter (fun _ => c) i T)) as (T' & -> & HT').
    + lia.
    + intros j Hj. rewrite lookup_partial_alter_ne by lia. apply H. lia.
    + by rewrite lookup_partial_alter_ne by done.
    + exists T'. split; [done|]. intros j. rewrite HT'. destruct (decide (j = i)) as [->|].
      * rewrite decide_False, decide_True, lookup_partial_alter_eq by lia. by rewrite E.
      * rewrite lookup_partial_alter_ne by done. destruct (decide (i <= j <= m)), (decide (i + 1 <= j <= m)); done || lia.
Qed.

(** ** The parts of a segment *)

Lemma addr_split (k : nat) (a : Z) : a = a / cs k * cs k + a mod cs k /\ 0 <= a mod cs k < cs k.
Proof.
  pose proof (cs_pos k). pose proof (Z.div_mod a (cs k)). pose proof (Z.mod_pos_bound a (cs k)). lia.
Qed.

Lemma addr_join (k : nat) (i r : Z) : 0 <= r < cs k -> (i * cs k + r) / cs k = i /\ (i * cs k + r) mod cs k = r.
Proof.
  intros Hr. pose proof (cs_pos k). split.
  - rewrite Z.div_add_l, Z.div_small by lia. lia.
  - rewrite Z.add_comm, Z.mod_add, Z.mod_small by lia. done.
Qed.

Section Part.
Context (k : nat) (b l : Z) (Hbl : 0 <= b <= l).

Lemma span_len_idx (i : Z) :
  b / cs k <= i < b / cs k + Z.of_nat (span_len k b l) <-> b / cs k <= i <= l / cs k.
Proof.
  unfold span_len. assert (b / cs k <= l / cs k) by (apply Z.div_le_mono; [apply cs_pos|lia]). lia.
Qed.

Lemma part_spec (i : Z) : b / cs k <= i <= l / cs k ->
  0 <= pb k b i <= pl k l i /\ pl k l i < cs k /\
  forall r, 0 <= r < cs k -> (pb k b i <= r <= pl k l i <-> b <= i * cs k + r <= l).
Proof.
  intros Hi. pose proof (cs_pos k). pose proof (addr_split k b) as [Eb Hb]. pose proof (addr_split k l) as [El Hl].
  unfold pb, pl.
  assert (Hlt : forall x y, x < y -> x * cs k + cs k <= y * cs k) by (intros; nia).
  destruct (Z.eqb_spec i (b / cs k)) as [E1|N1], (Z.eqb_spec i (l / cs k)) as [E2|N2].
  - rewrite <- E1 in Eb. rewrite <- E2 in El. split_and!; lia.
  - pose proof (Hlt i (l / cs k) ltac:(lia)). rewrite <- E1 in Eb. split_and!; lia.
  - pose proof (Hlt (b / cs k) i ltac:(lia)). rewrite <- E2 in El. split_and!; lia.
  - pose proof (Hlt (b / cs k) i ltac:(lia)). pose proof (Hlt i (l / cs k) ltac:(lia)). split_and!; lia.
Qed.

Lemma part_outside (i r : Z) : 0 <= r < cs k -> ~ (b / cs k <= i <= l / cs k) -> ~ (b <= i * cs k + r <= l).
Proof.
  intros Hr Hi Ha. apply Hi. destruct (addr_join k i r Hr) as [<- _]. pose proof (cs_pos k).
  split; apply Z.div_le_mono; lia.
Qed.

Lemma part_middle (i : Z) : middle k b l i = true -> pb k b i = 0 /\ pl k l i = cs k - 1.
Proof.
  unfold middle, pb, pl. intros [H1%Z.ltb_lt H2%Z.ltb_lt]%andb_prop.
  by rewrite (proj2 (Z.eqb_neq i (b / cs k))), (proj2 (Z.eqb_neq i (l / cs k))) by lia.
Qed.

Lemma part_page (i : Z) : (4096 | b) -> (4096 | pb k b i).
Proof.
  intros H. unfold pb. destruct (i =? _); [|by exists 0]. pose proof (cs_pos k).
  rewrite Z.mod_eq by lia. apply Z.divide_sub_r; [done|]. apply Z.divide_mul_l, cs_page.
Qed.

Lemma part_idx (i : Z) : l < cs (S k) -> b / cs k <= i <= l / cs k -> 0 <= i < 512.
Proof.
  rewrite cs_S. intros Hl Hi. pose proof (cs_pos k).
  assert (0 <= b / cs k) by (apply Z.div_pos; lia).
  assert (l / cs k < 512) by (apply Z.div_lt_upper_bound; lia). lia.
Qed.
End Part.

(** ** Cells *)

Definition clook (k : nat) (c : option cell) (r : Z) : option attr :=
  match c with
  | None => None
  | Some c =>
    match own c with
    | Some g => if (rb g <=? r) && (r <=? rl g) then Some (ra g)
                else match sub c with Some T' => look k T' r | None => None end
    | None => match sub c with Some T' => look k T' r | None => None end
    end
  end.

Lemma look_S (k : nat) (T : tbl) (a : Z) : look (S k) T a = clook k (T !! (a / cs k)) (a mod cs k).
Proof. done. Qed.

Definition cwf (k : nat) (c : cell) : Prop :=
  (own c <> None \/ sub c <> None) /\
  (forall g, own c = Some g -> 0 <= rb g <= rl g /\ rl g < cs k /\ (4096 | rb g)) /\
  (forall T', sub c = Some T' -> T' <> ∅ /\ twf k T') /\
  (forall g T' r, own c = Some g -> sub c = Some T' -> rb g <= r <= rl g -> look k T' r = None).

Lemma twf_S (k : nat) (T : tbl) :
  twf (S k) T <-> forall i c, T !! i = Some c -> 0 <= i < 512 /\ cwf k c.
Proof. unfold cwf. cbn [twf]. split; intros H i c Hi; by apply H in Hi. Qed.

(** A cell that is there grants something. *)
Lemma cell_live (k : nat) (c : cell) :
  (forall T, twf k T -> T <> ∅ -> exists a, 0 <= a < cs k /\ look k T a <> None) ->
  cwf k c -> exists r, 0 <= r < cs k /\ clook k (Some c) r <> None.
Proof.
  intros IH (Hne & Hg & Hs & Hd). destruct c as [[g|] s]; cbn in *.
  - destruct (Hg g eq_refl) as (H1 & H2 & H3). exists (rb g). split; [lia|].
    by rewrite Z.leb_refl, (proj2 (Z.leb_le _ _)) by lia.
  - destruct s as [T|]; [|by destruct Hne]. destruct (Hs T eq_refl) as [HT Hw]. by apply IH.
Qed.

Lemma tree_live (k : nat) : forall T, twf k T -> T <> ∅ -> exists a, 0 <= a < cs k /\ look k T a <> None.
Proof.
  induction k as [|k IH]; intros T Hw Hne; [by destruct Hne|].
  apply map_choose in Hne as (i & c & Hi). rewrite twf_S in Hw. apply Hw in Hi as Hc.
  destruct Hc as [Hr Hc]. destruct (cell_live k c IH Hc) as (r & Hr' & Hl).
  exists (i * cs k + r). rewrite cs_S. split; [nia|].
  rewrite look_S. destruct (addr_join k i r Hr') as [-> ->]. by rewrite Hi.
Qed.

(** What is stored is granted. *)
Lemma stored_look (k : nat) : forall T b l y a,
  twf k T -> 0 <= b <= l -> l < cs k -> stored k T b l y -> b <= a <= l -> look k T a = Some y.
Proof.
  induction k as [|k IH]; intros T b l y a Hw Hb Hl Hs Ha; [done|].
  pose proof (cs_pos k). destruct (addr_split k a) as [Ea Hr].
  assert (Hi : b / cs k <= a / cs k <= l / cs k) by (split; apply Z.div_le_mono; lia).
  destruct (part_spec k b l Hb _ Hi) as (P1 & P2 & P3). specialize (P3 _ Hr). rewrite <- Ea in P3.
  apply P3 in Ha. destruct (Hs _ Hi) as (c & Hc & [[Ho _]|(_ & T' & Hsub & Hst)]); rewrite look_S, Hc; cbn.
  - rewrite Ho. cbn. by rewrite !(proj2 (Z.leb_le _ _)) by lia.
  - rewrite twf_S in Hw. apply Hw in Hc as (_ & _ & _ & Hsw & Hd). rewrite Hsub in *.
    destruct (Hsw T' eq_refl) as [_ Hw'].
    pose proof (IH T' _ _ y (a mod cs k) Hw' P1 P2 Hst Ha) as Hlk.
    destruct (own c) as [g|]; [|done]. destruct ((rb g <=? _) && _) eqn:E; [|done].
    apply andb_prop in E as [?%Z.leb_le ?%Z.leb_le]. by rewrite (Hd g T' (a mod cs k)) in Hlk by (done || lia).
Qed.

(** Disjoint segments have disjoint parts, and neither fills a cell that they share. *)
Lemma parts_disjoint (k : nat) (b l b2 l2 i : Z) :
  0 <= b <= l -> 0 <= b2 <= l2 -> l2 < b \/ l < b2 ->
  b / cs k <= i <= l / cs k -> b2 / cs k <= i <= l2 / cs k ->
  (pl k l2 i < pb k b i \/ pl k l i < pb k b2 i) /\ middle k b2 l2 i = false.
Proof.
  intros Hb Hb2 Hd Hi Hi2. destruct (part_spec k b l Hb i Hi) as (P1 & P2 & P3).
  destruct (part_spec k b2 l2 Hb2 i Hi2) as (Q1 & Q2 & Q3).
  assert (Hdis : pl k l2 i < pb k b i \/ pl k l i < pb k b2 i).
  { destruct (decide (pl k l2 i < pb k b i \/ pl k l i < pb k b2 i)) as [|Hn]; [done|].
    specialize (P3 (Z.max (pb k b i) (pb k b2 i))). specialize (Q3 (Z.max (pb k b i) (pb k b2 i))). lia. }
  split; [done|]. apply not_true_iff_false. intros Hm. apply part_middle in Hm. lia.
Qed.

(** ** Granting *)

Section Ins.
Context (x : attr).

(** What adding a range to a cell does: a new cell, the range of a cell that only had a
    table, or the table below a cell with another range. *)
Inductive ins_case (k : nat) (mid : bool) (nb nl : Z) : option cell -> cell -> Prop :=
  | ins_new : ins_case k mid nb nl None (Cell (Some {| rb := nb; rl := nl; ra := x |}) None)
  | ins_own T1 : mid = false -> ins_case k mid nb nl (Some (Cell None (Some T1)))
      (Cell (Some {| rb := nb; rl := nl; ra := x |}) (Some T1))
  | ins_below o s T2 : mid = false -> k <> O -> ins k x (default ∅ s) nb nl = (T2, true) ->
      twf k (default ∅ s) -> vacant k (default ∅ s) nb nl -> rl o < nb \/ nl < rb o ->
      ins_case k mid nb nl (Some (Cell (Some o) s)) (Cell (Some o) (Some T2)).

Lemma twf_empty (k : nat) : twf k ∅.
Proof. destruct k; [done|]. cbn. intros i c Hi. by rewrite lookup_empty in Hi. Qed.

Lemma look_empty (k : nat) (a : Z) : look k ∅ a = None.
Proof. destruct k; [done|]. cbn. by rewrite lookup_empty. Qed.

(** The facts about a cell in which a part of a segment is free. *)
Lemma vacant_cell (k : nat) (nb nl : Z) (o : rng) (s : option tbl) :
  cwf k (Cell (Some o) s) -> seg_in k nb nl ->
  (forall r, nb <= r <= nl -> clook k (Some (Cell (Some o) s)) r = None) ->
  (rl o < nb \/ nl < rb o) /\ twf k (default ∅ s) /\ vacant k (default ∅ s) nb nl /\ k <> O.
Proof.
  intros (_ & Hg & Hs & _) (Hb & Hl & Hp) Hv. destruct (Hg o eq_refl) as (H1 & H2 & H3). cbn in Hv.
  assert (Hdis : rl o < nb \/ nl < rb o).
  { destruct (decide (rl o < nb \/ nl < rb o)) as [|Hov]; [done|].
    specialize (Hv (Z.max nb (rb o)) ltac:(lia)).
    by rewrite !(proj2 (Z.leb_le _ _)) in Hv by lia. }
  split; [done|]. split_and!.
  - destruct s as [T|]; [by apply Hs | apply twf_empty].
  - intros r Hr. specialize (Hv r Hr). destruct s as [T|]; cbn; [|apply look_empty].
    destruct ((rb o <=? r) && (r <=? rl o)) eqn:E; [|done].
    apply andb_prop in E as [?%Z.leb_le ?%Z.leb_le]. lia.
  - intros ->. rewrite cs_0 in *.
    destruct Hp as [p Hp], H3 as [q Hq]. assert (p = 0) by lia. assert (q = 0) by lia. lia.
Qed.

Lemma ins_cell_cases (k : nat) (mid : bool) (nb nl : Z) (c : option cell) :
  (forall T, twf k T -> vacant k T nb nl -> k <> O -> snd (ins k x T nb nl) = true) ->
  (forall c0, c = Some c0 -> cwf k c0) -> seg_in k nb nl ->
  (forall r, nb <= r <= nl -> clook k c r = None) -> (mid = true -> nb = 0 /\ nl = cs k - 1) ->
  exists c', ins_cell (ins k x) mid nb nl x c = (Some c', true) /\ ins_case k mid nb nl c c'.
Proof.
  intros IH Hw Hin Hv Hmid. destruct c as [c|]; cbn; [|by eexists; split; [done|constructor]].
  specialize (Hw c eq_refl). destruct mid.
  { destruct (Hmid eq_refl) as [-> ->]. destruct (cell_live k c (tree_live k) Hw) as (r & Hr & Hl).
    by rewrite Hv in Hl by lia. }
  destruct c as [[o|] s].
  - destruct (vacant_cell k nb nl o s Hw Hin Hv) as (Hd & Ht & Hva & Hk).
    specialize (IH _ Ht Hva Hk). destruct (ins k x (default ∅ s) nb nl) as [T2 ok] eqn:E. cbn in IH. subst ok.
    eexists. split; [done|]. by constructor.
  - eexists. split; [done|]. destruct s as [T1|]; [by constructor|]. by destruct Hw as [[|] _].
Qed.

(** What a segment is to each of its cells. *)
Lemma seg_parts (k : nat) (T : tbl) (b l i : Z) :
  seg_in (S k) b l -> twf (S k) T -> vacant (S k) T b l -> b / cs k <= i <= l / cs k ->
  (forall c0, T !! i = Some c0 -> cwf k c0) /\ seg_in k (pb k b i) (pl k l i) /\
  (forall r, pb k b i <= r <= pl k l i -> clook k (T !! i) r = None) /\
  (middle k b l i = true -> pb k b i = 0 /\ pl k l i = cs k - 1).
Proof.
  intros (Hb & Hl & Hp) Hw Hv Hi. destruct (part_spec k b l Hb i Hi) as (H1 & H2 & H3).
  split_and!.
  - intros c0 Hc. rewrite twf_S in Hw. by apply Hw in Hc as [_ ?].
  - unfold seg_in. split_and!; try lia. by apply part_page.
  - intros r Hr. pose proof (proj1 (H3 r ltac:(lia)) Hr) as Ha. specialize (Hv _ Ha).
    rewrite look_S in Hv. destruct (addr_join k i r ltac:(lia)) as [E1 E2]. by rewrite E1, E2 in Hv.
  - by apply part_middle.
Qed.

(** The result of granting a segment, cell by cell. *)
Definition ins_result (k : nat) (T : tbl) (b l : Z) (T' : tbl) : Prop := forall i,
  if decide (b / cs k <= i <= l / cs k)
  then exists c', T' !! i = Some c' /\ ins_case k (middle k b l i) (pb k b i) (pl k l i) (T !! i) c'
  else T' !! i = T !! i.

Lemma ins_step (k : nat) (T : tbl) (b l : Z) :
  (forall T nb nl, twf k T -> seg_in k nb nl -> vacant k T nb nl -> k <> O -> snd (ins k x T nb nl) = true) ->
  twf (S k) T -> seg_in (S k) b l -> vacant (S k) T b l ->
  exists T', ins (S k) x T b l = (T', true) /\ ins_result k T b l T'.
Proof.
  intros IH Hw Hin Hv. pose proof Hin as (Hb & _).
  set (step := fun i => ins_cell (ins k x) (middle k b l i) (pb k b i) (pl k l i) x).
  assert (Hc : forall i, b / cs k <= i <= l / cs k -> exists c', step i (T !! i) = (Some c', true) /\
    ins_case k (middle k b l i) (pb k b i) (pl k l i) (T !! i) c').
  { intros i Hi. destruct (seg_parts k T b l i Hin Hw Hv Hi) as (P1 & P2 & P3 & P4).
    apply ins_cell_cases; try done. intros. by apply IH. }
  destruct (iter_ok step (span_len k b l) (b / cs k) T) as (T' & E & HT').
  { intros j Hj. apply span_len_idx in Hj; [|done]. by destruct (Hc j Hj) as (c' & -> & _). }
  exists T'. split; [exact E|]. intros i. rewrite HT'. pose proof (span_len_idx k b l Hb i) as Hii.
  destruct (decide (b / cs k <= i <= l / cs k)) as [Hi|Hi].
  - rewrite decide_True by (by apply Hii). destruct (Hc i Hi) as (c' & -> & ?). by exists c'.
  - by rewrite decide_False by (by rewrite Hii).
Qed.

(** Granting a segment whose addresses are free succeeds. *)
Lemma ins_run (k : nat) : forall T b l,
  twf (S k) T -> seg_in (S k) b l -> vacant (S k) T b l ->
  exists T', ins (S k) x T b l = (T', true) /\ ins_result k T b l T'.
Proof.
  induction k as [|k IH]; intros T b l Hw Hin Hv; apply ins_step; try done.
  intros T0 nb nl Hw0 Hin0 Hv0 _. by destruct (IH T0 nb nl Hw0 Hin0 Hv0) as (T' & -> & _).
Qed.

Definition inside (b l a : Z) : bool := (b <=? a) && (a <=? l).

Lemma inside_spec (b l a : Z) : inside b l a = true <-> b <= a <= l.
Proof. unfold inside. rewrite andb_true_iff, !Z.leb_le. lia. Qed.
Lemma inside_false (b l a : Z) : ~ (b <= a <= l) -> inside b l a = false.
Proof. intros H. apply not_true_iff_false. by rewrite inside_spec. Qed.

Definition ins_sound (k : nat) : Prop := forall T b l T',
  k <> O -> twf k T -> seg_in k b l -> vacant k T b l -> ins k x T b l = (T', true) ->
  twf k T' /\ T' <> ∅ /\
  forall a, 0 <= a < cs k -> look k T' a = if inside b l a then Some x else look k T a.

Lemma clook_own (k : nat) (g : rng) (s : option tbl) (r : Z) :
  clook k (Some (Cell (Some g) s)) r =
  if inside (rb g) (rl g) r then Some (ra g) else clook k (Some (Cell None s)) r.
Proof. done. Qed.

Lemma ins_case_sound (k : nat) (mid : bool) (nb nl : Z) (c : option cell) (c' : cell) :
  ins_sound k -> (forall c0, c = Some c0 -> cwf k c0) -> seg_in k nb nl ->
  (forall r, nb <= r <= nl -> clook k c r = None) -> ins_case k mid nb nl c c' ->
  cwf k c' /\
  forall r, 0 <= r < cs k -> clook k (Some c') r = if inside nb nl r then Some x else clook k c r.
Proof.
  intros IH Hw Hin Hv Hc. pose proof Hin as (H1 & H2 & H3).
  destruct Hc as [|T1 Hm|o s T2 Hm Hk Hi Ht Hva Hd].
  - split; [|intros r Hr; rewrite clook_own; by destruct (inside _ _ _)].
    unfold cwf. cbn. split_and!; [by left | intros g [= <-]; cbn; lia || done | done | done].
  - split; [|done]. destruct (Hw _ eq_refl) as (_ & _ & Hs & _). unfold cwf. cbn.
    split_and!; [by left | intros g [= <-]; by cbn | done|]. intros g T' r [= <-] [= <-] Hr.
    by apply (Hv r).
  - destruct (IH _ _ _ _ Hk Ht Hin Hva Hi) as (W2 & N2 & L2). destruct (Hw _ eq_refl) as (_ & Hg & Hs & Hdis).
    assert (Hold : forall r, look k (default ∅ s) r = clook k (Some (Cell None s)) r).
    { intros r. destruct s; cbn; [done|apply look_empty]. }
    split.
    + unfold cwf. cbn. split_and!; [by left | done | by intros T' [= <-] |].
      intros g T' r [= <-] [= <-] Hr. destruct (Hg o eq_refl) as (? & ? & _).
      rewrite L2, inside_false by lia. destruct s as [T1|]; [by apply (Hdis o) | apply look_empty].
    + intros r Hr. rewrite !clook_own, <- Hold. cbn [clook own sub]. rewrite L2 by done.
      destruct (inside nb nl r) eqn:E; [|done]. apply inside_spec in E. by rewrite inside_false by lia.
Qed.

Lemma ins_result_sound (k : nat) (T : tbl) (b l : Z) (T' : tbl) :
  ins_sound k -> twf (S k) T -> seg_in (S k) b l -> vacant (S k) T b l -> ins_result k T b l T' ->
  twf (S k) T' /\ T' <> ∅ /\
  forall a, 0 <= a < cs (S k) -> look (S k) T' a = if inside b l a then Some x else look (S k) T a.
Proof.
  intros IH Hw Hin Hv HT. pose proof Hin as (Hb & Hl & _).
  assert (Hcell : forall i c', b / cs k <= i <= l / cs k -> T' !! i = Some c' -> cwf k c' /\
    forall r, 0 <= r < cs k -> clook k (Some c') r =
      if inside (pb k b i) (pl k l i) r then Some x else clook k (T !! i) r).
  { intros i c' Hi Hc. specialize (HT i). rewrite decide_True in HT by done. destruct HT as (c2 & E & Hcase).
    rewrite Hc in E. injection E as <-.
    destruct (seg_parts k T b l i Hin Hw Hv Hi) as (P1 & P2 & P3 & _). by eapply ins_case_sound. }
  split_and!.
  - rewrite twf_S in *. intros i c' Hc'. destruct (decide (b / cs k <= i <= l / cs k)) as [Hi|Hi].
    + split; [by apply (part_idx k b l)|]. by apply (Hcell i c').
    + specialize (HT i). rewrite decide_False in HT by done. apply Hw. by rewrite <- HT.
  - pose proof (HT (b / cs k)) as H0. pose proof (cs_pos k).
    rewrite decide_True in H0 by (split; [lia|by apply Z.div_le_mono; lia]).
    destruct H0 as (c' & E & _). intros ->. by rewrite lookup_empty in E.
  - intros a Ha. rewrite !look_S. destruct (addr_split k a) as [Ea Hr].
    destruct (decide (b / cs k <= a / cs k <= l / cs k)) as [Hi|Hi].
    + pose proof (HT (a / cs k)) as H0. rewrite decide_True in H0 by done. destruct H0 as (c' & E & _).
      rewrite E. destruct (Hcell _ _ Hi E) as [_ ->]; [|done].
      destruct (part_spec k b l Hb _ Hi) as (_ & _ & Hp). specialize (Hp _ Hr). rewrite <- Ea in Hp.
      destruct (inside b l a) eqn:E1.
      * apply inside_spec, Hp in E1. by rewrite (proj2 (inside_spec _ _ _) E1).
      * rewrite inside_false; [done|]. intros H1. apply Hp, inside_spec in H1. congruence.
    + pose proof (HT (a / cs k)) as H0. rewrite decide_False in H0 by done. rewrite H0.
      rewrite inside_false; [done|]. pose proof (part_outside k b l _ _ Hr Hi) as Ho.
      by rewrite <- Ea in Ho.
Qed.

Lemma ins_is_sound (k : nat) : ins_sound k.
Proof.
  induction k as [|k IH]; intros T b l T' Hk Hw Hin Hv E; [done|].
  destruct (ins_run k T b l Hw Hin Hv) as (T2 & E2 & HR). rewrite E in E2. injection E2 as <-.
  by apply ins_result_sound.
Qed.

(** The segment granted is stored, and segments disjoint from it stay stored. *)
Lemma ins_stored (k : nat) : forall T b l T',
  k <> O -> twf k T -> seg_in k b l -> vacant k T b l -> ins k x T b l = (T', true) -> stored k T' b l x.
Proof.
  induction k as [|k IH]; intros T b l T' Hk Hw Hin Hv E; [done|].
  destruct (ins_run k T b l Hw Hin Hv) as (T2 & E2 & HR). rewrite E in E2. injection E2 as <-.
  intros i Hi. destruct (seg_parts k T b l i Hin Hw Hv Hi) as (_ & P2 & _ & _).
  specialize (HR i). rewrite decide_True in HR by done. destruct HR as (c' & Hc & Hcase).
  exists c'. split; [done|]. inversion Hcase as [|T1 Hm|o s T2 Hm Hk' Hi2 Ht Hva Hd]; subst; cbn.
  - by left.
  - left. split; [done|]. congruence.
  - right. split; [done|]. exists T2. split; [done|]. by eapply IH.
Qed.

Lemma ins_keeps (k : nat) : forall T b l T' b2 l2 y,
  k <> O -> twf k T -> seg_in k b l -> vacant k T b l -> ins k x T b l = (T', true) ->
  0 <= b2 <= l2 -> l2 < b \/ l < b2 -> stored k T b2 l2 y -> stored k T' b2 l2 y.
Proof.
  induction k as [|k IH]; intros T b l T' b2 l2 y Hk Hw Hin Hv E Hb2 Hd Hs; [done|].
  destruct (ins_run k T b l Hw Hin Hv) as (T2 & E2 & HR). rewrite E in E2. injection E2 as <-.
  intros i Hi2. specialize (HR i). destruct (Hs i Hi2) as (c & Hc & Hst).
  destruct (decide (b / cs k <= i <= l / cs k)) as [Hi|Hi]; [|exists c; by rewrite HR].
  destruct (parts_disjoint k b l b2 l2 i ltac:(by destruct Hin) Hb2 Hd Hi Hi2) as [Hpd Hm2].
  destruct (seg_parts k T b l i Hin Hw Hv Hi) as (_ & P2 & _ & _).
  destruct (part_spec k b2 l2 Hb2 i Hi2) as (Q1 & _).
  destruct HR as (c' & Hc' & Hcase). exists c'. split; [done|]. rewrite Hc in Hcase. rewrite Hm2 in *.
  inversion Hcase as [|T1 Hm|o s T2 Hm Hk' Hi3 Ht Hva Hd']; subst; cbn in *.
  - destruct Hst as [[? _]|Hst]; [done|]. by right.
  - destruct Hst as [[Ho _]|(_ & T1 & -> & Hst)]; [by left|]. right. split; [done|].
    exists T2. split; [done|]. by eapply IH.
Qed.

Lemma shrink_default (k : nat) (o : rng) (s : option tbl) :
  cwf k (Cell (Some o) s) -> shrink (default ∅ s) = s.
Proof.
  intros (_ & _ & Hs & _). unfold shrink. destruct s as [T|]; cbn.
  - destruct (Hs T eq_refl) as [Hne _]. by rewrite bool_decide_false.
  - by rewrite bool_decide_true.
Qed.

Lemma rem_ins_cell (k : nat) (mid : bool) (nb nl : Z) (c : option cell) (c' : cell) :
  (forall T T', k <> O -> twf k T -> vacant k T nb nl -> ins k x T nb nl = (T', true) ->
     rem k T' nb nl = (T, true)) ->
  (forall c0, c = Some c0 -> cwf k c0) -> nb <= nl -> ins_case k mid nb nl c c' ->
  rem_cell (rem k) mid nb nl (Some c') = (c, true).
Proof.
  intros IH Hw Hle Hc. destruct Hc as [|T1 Hm|o s T2 Hm Hk Hi Ht Hva Hd]; cbn; try rewrite Hm.
  - rewrite !Z.eqb_refl. by destruct mid.
  - by rewrite !Z.eqb_refl.
  - destruct (Hw _ eq_refl) as (_ & Hg & _ & _). destruct (Hg o eq_refl) as (? & ? & _).
    assert ((rb o =? nb) && (rl o =? nl) = false) as ->.
    { apply andb_false_iff. rewrite !Z.eqb_neq. lia. }
    rewrite (IH _ _ Hk Ht Hva Hi). by rewrite (shrink_default k o s (Hw _ eq_refl)).
Qed.

(** Revoking undoes a grant. *)
Lemma rem_ins (k : nat) : forall T b l T',
  k <> O -> twf k T -> seg_in k b l -> vacant k T b l -> ins k x T b l = (T', true) ->
  rem k T' b l = (T, true).
Proof.
  induction k as [|k IH]; intros T b l T' Hk Hw Hin Hv E; [done|].
  destruct (ins_run k T b l Hw Hin Hv) as (T2 & E2 & HR). rewrite E in E2. injection E2 as <-.
  set (step := fun i => rem_cell (rem k) (middle k b l i) (pb k b i) (pl k l i)).
  assert (Hc : forall i, b / cs k <= i <= l / cs k -> step i (T' !! i) = (T !! i, true)).
  { intros i Hi. destruct (seg_parts k T b l i Hin Hw Hv Hi) as (P1 & P2 & P3 & P4).
    specialize (HR i). rewrite decide_True in HR by done. destruct HR as (c' & -> & Hcase).
    eapply rem_ins_cell; try done; [intros; by eapply IH | destruct P2; lia]. }
  destruct (iter_ok step (span_len k b l) (b / cs k) T') as (Tr & Er & HTr).
  { intros j Hj. apply span_len_idx in Hj; [|by destruct Hin]. by rewrite Hc. }
  cbn [rem]. fold step. rewrite Er. f_equal. apply map_eq. intros i. rewrite HTr.
  pose proof (span_len_idx k b l ltac:(by destruct Hin) i) as Hii. specialize (HR i).
  destruct (decide (b / cs k <= i <= l / cs k)) as [Hi|Hi].
  - rewrite decide_True by (by apply Hii). by rewrite Hc.
  - by rewrite decide_False by (by rewrite Hii).
Qed.

(** A grant that was interrupted: some of its cells were written, and the last one it came
    to, which holds another range, could not be given a table or has one in which the grant
    was interrupted. *)
Fixpoint part (k : nat) (T : tbl) (b l : Z) (Tp : tbl) : Prop :=
  match k with
  | O => False
  | S k' => exists m o s sp, b / cs k' <= m <= l / cs k' /\ middle k' b l m = false /\
    T !! m = Some (Cell (Some o) s) /\
    (forall i, Tp !! i =
       if decide (b / cs k' <= i < m)
       then fst (ins_cell (ins k' x) (middle k' b l i) (pb k' b i) (pl k' l i) x (T !! i))
       else if decide (i = m) then Some (Cell (Some o) sp) else T !! i) /\
    ((s = None /\ sp = None) \/
     exists T1 Tp1, s = Some T1 /\ sp = Some Tp1 /\ part k' T1 (pb k' b m) (pl k' l m) Tp1)
  end.

(** Revoking it restores the table, and reports an error. *)
Lemma rem_part (k : nat) : forall T b l Tp,
  twf k T -> seg_in k b l -> vacant k T b l -> part k T b l Tp -> rem k Tp b l = (T, false).
Proof.
  induction k as [|k IH]; intros T b l Tp Hw Hin Hv Hp; [done|].
  destruct Hp as (m & o & s & sp & Hm & Hmid & HTm & HTp & Hsp).
  set (step := fun i => rem_cell (rem k) (middle k b l i) (pb k b i) (pl k l i)).
  assert (Hlow : forall i, b / cs k <= i < m -> step i (Tp !! i) = (T !! i, true)).
  { intros i Hi. assert (Hi' : b / cs k <= i <= l / cs k) by lia.
    destruct (seg_parts k T b l i Hin Hw Hv Hi') as (P1 & P2 & P3 & P4).
    rewrite HTp, decide_True by lia.
    destruct (ins_cell_cases k (middle k b l i) (pb k b i) (pl k l i) (T !! i)) as (c' & -> & Hcase); try done.
    { intros T0 Hw0 Hv0 Hk. destruct k as [|k']; [done|].
      by destruct (ins_run k' T0 _ _ Hw0 P2 Hv0) as (T' & -> & _). }
    eapply rem_ins_cell; try done; [|destruct P2; lia].
    intros T0 T' Hk Hw0 Hv0 E. by eapply rem_ins. }
  destruct (seg_parts k T b l m Hin Hw Hv Hm) as (P1 & P2 & P3 & P4).
  rewrite HTm in *. destruct (vacant_cell k _ _ o s (P1 _ eq_refl) P2 P3) as (Hd & Ht & Hva & Hk).
  assert (Hat : step m (Tp !! m) = (Some (Cell (Some o) s), false)).
  { rewrite HTp, decide_False, decide_True by lia. unfold step. rewrite Hmid. cbn.
    destruct (P1 _ eq_refl) as (_ & Hg & _ & _). destruct (Hg o eq_refl) as (? & ? & _).
    assert ((rb o =? pb k b m) && (rl o =? pl k l m) = false) as ->.
    { apply andb_false_iff. rewrite !Z.eqb_neq. destruct P2. lia. }
    destruct Hsp as [[-> ->]|(T1 & Tp1 & -> & -> & Hp1)]; [done|].
    rewrite (IH _ _ _ _ Ht P2 Hva Hp1). f_equal. f_equal. f_equal. exact (shrink_default k o (Some T1) (P1 _ eq_refl)). }
  destruct (iter_fail step (span_len k b l) (b / cs k) m Tp) as (Tr & Er & HTr).
  { apply span_len_idx; [by destruct Hin|done]. }
  { intros j Hj. by rewrite Hlow. }
  { by rewrite Hat. }
  cbn [rem]. fold step. rewrite Er. f_equal. apply map_eq. intros i. rewrite HTr.
  destruct (decide (b / cs k <= i <= m)) as [Hi|Hi].
  - destruct (decide (i = m)) as [->|]; [by rewrite Hat, HTm|]. by rewrite Hlow by lia.
  - rewrite HTp, !decide_False by lia. done.
Qed.
End Ins.

(** ** Revoking *)

(** What removing a stored range does to a cell. *)
Inductive rem_case (k : nat) (mid : bool) (nb nl : Z) (y : attr) : cell -> option cell -> Prop :=
  | rem_leaf : rem_case k mid nb nl y (Cell (Some {| rb := nb; rl := nl; ra := y |}) None) None
  | rem_own T1 : mid = false ->
      rem_case k mid nb nl y (Cell (Some {| rb := nb; rl := nl; ra := y |}) (Some T1))
        (Some (Cell None (Some T1)))
  | rem_below o T1 T2 : mid = false -> rem k T1 nb nl = (T2, true) -> stored k T1 nb nl y ->
      (forall g, o = Some g -> rl g < nb \/ nl < rb g) ->
      rem_case k mid nb nl y (Cell o (Some T1))
        (match o, shrink T2 with None, None => None | _, s => Some (Cell o s) end).

Definition cstored (k : nat) (mid : bool) (nb nl : Z) (y : attr) (c : cell) : Prop :=
  (own c = Some {| rb := nb; rl := nl; ra := y |} /\ (mid = true -> sub c = None)) \/
  (mid = false /\ exists T', sub c = Some T' /\ stored k T' nb nl y).

Lemma rem_cell_cases (k : nat) (mid : bool) (nb nl : Z) (y : attr) (c : cell) :
  (forall T, twf k T -> stored k T nb nl y -> snd (rem k T nb nl) = true) ->
  cwf k c -> 0 <= nb <= nl -> nl < cs k -> cstored k mid nb nl y c ->
  exists c', rem_cell (rem k) mid nb nl (Some c) = (c', true) /\ rem_case k mid nb nl y c c'.
Proof.
  intros IH Hw Hb Hl Hs. destruct c as [o s]. destruct Hs as [[Ho Hmid]|(Hmid & T1 & Hsub & Hst)]; cbn in *.
  - subst o. destruct s as [T1|]; destruct mid; cbn; rewrite ?Z.eqb_refl; try by specialize (Hmid eq_refl).
    + eexists. split; [done|]. by constructor.
    + eexists. split; [done|]. by constructor.
    + eexists. split; [done|]. by constructor.
  - subst s. rewrite Hmid. destruct Hw as (Hne & Hg & Hsw & Hd). destruct (Hsw T1 eq_refl) as [HT1 Hw1].
    specialize (IH T1 Hw1 Hst). destruct (rem k T1 nb nl) as [T2 ok] eqn:E. cbn in IH. subst ok.
    assert (Hdis : forall g, o = Some g -> rl g < nb \/ nl < rb g).
    { intros g ->. destruct (decide (rl g < nb \/ nl < rb g)) as [|Hn]; [done|].
      destruct (Hg g eq_refl) as (? & ? & _).
      pose proof (stored_look k T1 nb nl y (Z.max nb (rb g)) Hw1 Hb Hl Hst ltac:(lia)) as Hlk.
      by rewrite (Hd g T1) in Hlk by (done || lia). }
    eexists. split; [|by eapply rem_below]. destruct o as [g|]; [|by destruct (shrink T2)].
    destruct (Hg g eq_refl) as (? & ? & _). specialize (Hdis g eq_refl).
    assert ((rb g =? nb) && (rl g =? nl) = false) as ->.
    { apply andb_false_iff. rewrite !Z.eqb_neq. lia. }
    done.
Qed.

(** The result of revoking a stored segment, cell by cell. *)
Definition rem_result (k : nat) (T : tbl) (b l : Z) (y : attr) (T' : tbl) : Prop := forall i,
  if decide (b / cs k <= i <= l / cs k)
  then exists c, T !! i = Some c /\ rem_case k (middle k b l i) (pb k b i) (pl k l i) y c (T' !! i)
  else T' !! i = T !! i.

Lemma rem_run (k : nat) : forall T b l y,
  twf (S k) T -> 0 <= b <= l -> l < cs (S k) -> stored (S k) T b l y ->
  exists T', rem (S k) T b l = (T', true) /\ rem_result k T b l y T'.
Proof.
  induction k as [k IHk] using lt_wf_ind. intros T b l y Hw Hb Hl Hs.
  set (step := fun i => rem_cell (rem k) (middle k b l i) (pb k b i) (pl k l i)).
  assert (Hc : forall i, b / cs k <= i <= l / cs k -> exists c c', T !! i = Some c /\
    step i (T !! i) = (c', true) /\ rem_case k (middle k b l i) (pb k b i) (pl k l i) y c c').
  { intros i Hi. destruct (Hs i Hi) as (c & Hc & Hst). exists c. rewrite Hc.
    destruct (part_spec k b l Hb i Hi) as (P1 & P2 & _).
    destruct (rem_cell_cases k (middle k b l i) (pb k b i) (pl k l i) y c) as (c' & E & Hcase); try done.
    - intros T0 Hw0 Hs0. destruct k as [|k]; [done|].
      by destruct (IHk k ltac:(lia) T0 _ _ y Hw0 P1 P2 Hs0) as (T' & -> & _).
    - rewrite twf_S in Hw. by apply Hw in Hc as [_ ?].
    - by exists c'. }
  destruct (iter_ok step (span_len k b l) (b / cs k) T) as (T' & E & HT').
  { intros j Hj. apply span_len_idx in Hj; [|done]. by destruct (Hc j Hj) as (c & c' & _ & -> & _). }
  exists T'. split; [exact E|]. intros i. rewrite HT'. pose proof (span_len_idx k b l Hb i) as Hii.
  destruct (decide (b / cs k <= i <= l / cs k)) as [Hi|Hi].
  - rewrite decide_True by (by apply Hii). destruct (Hc i Hi) as (c & c' & -> & E' & ?).
    exists c. by rewrite E'.
  - by rewrite decide_False by (by rewrite Hii).
Qed.

Definition rem_sound (k : nat) : Prop := forall T b l y T',
  twf k T -> 0 <= b <= l -> l < cs k -> stored k T b l y -> rem k T b l = (T', true) ->
  twf k T' /\ forall a, 0 <= a < cs k -> look k T' a = if inside b l a then None else look k T a.

Lemma clook_shrink (k : nat) (o : option rng) (T : tbl) (r : Z) :
  clook k (match o, shrink T with None, None => None | _, s => Some (Cell o s) end) r =
  clook k (Some (Cell o (Some T))) r.
Proof.
  unfold shrink. destruct (decide (T = ∅)) as [->|Hne].
  - rewrite bool_decide_true by done. destruct o as [g|]; cbn; rewrite look_empty; done.
  - rewrite bool_decide_false by done. by destruct o.
Qed.

Lemma rem_case_sound (k : nat) (mid : bool) (nb nl : Z) (y : attr) (c : cell) (c' : option cell) :
  rem_sound k -> cwf k c -> 0 <= nb <= nl -> nl < cs k -> rem_case k mid nb nl y c c' ->
  (forall c1, c' = Some c1 -> cwf k c1) /\
  forall r, 0 <= r < cs k -> clook k c' r = if inside nb nl r then None else clook k (Some c) r.
Proof.
  intros IH (Hne & Hg & Hs & Hd) Hb Hl Hc. destruct Hc as [|T1 Hm|o T1 T2 Hm Hr Hst Hdis].
  - split; [done|]. intros r Hr. rewrite clook_own. cbn. by destruct (inside _ _ _).
  - split.
    + intros c1 [= <-]. unfold cwf. cbn in *. split_and!; [by right|done|done|done].
    + intros r Hr. rewrite clook_own. cbn in *. destruct (inside nb nl r) eqn:E; [|done].
      apply inside_spec in E. by eapply Hd.
  - destruct (Hs T1 eq_refl) as [HT1 Hw1]. destruct (IH T1 nb nl y T2 Hw1 Hb Hl Hst Hr) as [Hw2 L2]. split.
    + assert (Hc1 : (o = None -> T2 <> ∅) -> cwf k (Cell o (shrink T2))).
      { intros Hn. unfold cwf, shrink. cbn in *. split_and!; try done.
        - destruct o; [by left|]. right. by rewrite bool_decide_false by auto.
        - intros T'. case_bool_decide; [done|]. by intros [= <-].
        - intros g T' r. case_bool_decide; [done|]. intros -> [= <-] Hr'.
          destruct (Hg g eq_refl) as (? & ? & _). rewrite L2 by lia. destruct (inside nb nl r); [done|].
          by eapply Hd. }
      intros c1 E. destruct o as [g|].
      * injection E as <-. by apply Hc1.
      * unfold shrink in *. case_bool_decide; [done|]. injection E as <-. by apply Hc1.
    + intros r Hr'. rewrite clook_shrink. destruct o as [g|].
      * rewrite !clook_own. cbn. rewrite L2 by done. destruct (inside nb nl r) eqn:E; [|done].
        apply inside_spec in E. specialize (Hdis g eq_refl). by rewrite inside_false by lia.
      * cbn. by apply L2.
Qed.

Lemma rem_result_sound (k : nat) (T : tbl) (b l : Z) (y : attr) (T' : tbl) :
  rem_sound k -> twf (S k) T -> 0 <= b <= l -> l < cs (S k) -> rem_result k T b l y T' ->
  twf (S k) T' /\ forall a, 0 <= a < cs (S k) -> look (S k) T' a = if inside b l a then None else look (S k) T a.
Proof.
  intros IH Hw Hb Hl HT. rewrite twf_S in Hw.
  assert (Hcell : forall i, b / cs k <= i <= l / cs k -> (forall c1, T' !! i = Some c1 -> cwf k c1) /\
    forall r, 0 <= r < cs k -> clook k (T' !! i) r =
      if inside (pb k b i) (pl k l i) r then None else clook k (T !! i) r).
  { intros i Hi. specialize (HT i). rewrite decide_True in HT by done. destruct HT as (c & E & Hcase).
    destruct (part_spec k b l Hb i Hi) as (P1 & P2 & _). rewrite E. apply Hw in E as [_ Hc].
    by eapply rem_case_sound. }
  split.
  - rewrite twf_S. intros i c' Hc'. pose proof (HT i) as H0.
    destruct (decide (b / cs k <= i <= l / cs k)) as [Hi|Hi].
    + split; [by apply (part_idx k b l)|]. by apply (Hcell i Hi).
    + apply Hw. by rewrite <- H0.
  - intros a Ha. rewrite !look_S. destruct (addr_split k a) as [Ea Hr].
    destruct (decide (b / cs k <= a / cs k <= l / cs k)) as [Hi|Hi].
    + rewrite (proj2 (Hcell _ Hi)) by done.
      destruct (part_spec k b l Hb _ Hi) as (_ & _ & Hp). specialize (Hp _ Hr). rewrite <- Ea in Hp.
      destruct (inside b l a) eqn:E1.
      * apply inside_spec, Hp in E1. by rewrite (proj2 (inside_spec _ _ _) E1).
      * rewrite inside_false; [done|]. intros H1. apply Hp, inside_spec in H1. congruence.
    + pose proof (HT (a / cs k)) as H0. rewrite decide_False in H0 by done. rewrite H0.
      rewrite inside_false; [done|]. pose proof (part_outside k b l _ _ Hr Hi) as Ho.
      by rewrite <- Ea in Ho.
Qed.

Lemma rem_is_sound (k : nat) : rem_sound k.
Proof.
  induction k as [|k IH]; intros T b l y T' Hw Hb Hl Hs E; [done|].
  destruct (rem_run k T b l y Hw Hb Hl Hs) as (T2 & E2 & HR). rewrite E in E2. injection E2 as <-.
  by eapply rem_result_sound.
Qed.

(** Segments disjoint from the one revoked stay stored. *)
Lemma rem_keeps (k : nat) : forall T b l y T' b2 l2 y2,
  twf k T -> 0 <= b <= l -> l < cs k -> stored k T b l y -> rem k T b l = (T', true) ->
  0 <= b2 <= l2 -> l2 < cs k -> l2 < b \/ l < b2 -> stored k T b2 l2 y2 -> stored k T' b2 l2 y2.
Proof.
  induction k as [|k IH]; intros T b l y T' b2 l2 y2 Hw Hb Hl Hs E Hb2 Hl2 Hd Hs2; [done|].
  destruct (rem_run k T b l y Hw Hb Hl Hs) as (T2 & E2 & HR). rewrite E in E2. injection E2 as <-.
  intros i Hi2. specialize (HR i). destruct (Hs2 i Hi2) as (c & Hc & Hst).
  destruct (decide (b / cs k <= i <= l / cs k)) as [Hi|Hi]; [|exists c; by rewrite HR].
  destruct (parts_disjoint k b l b2 l2 i Hb Hb2 Hd Hi Hi2) as [Hpd Hm2].
  destruct (part_spec k b2 l2 Hb2 i Hi2) as (Q1 & Q2 & _). destruct (part_spec k b l Hb i Hi) as (P1 & P2 & _).
  rewrite twf_S in Hw. destruct (Hw i c Hc) as (_ & _ & _ & Hsw & _).
  destruct HR as (c0 & Hc0 & Hcase). rewrite Hc in Hc0. injection Hc0 as <-. rewrite Hm2 in *.
  inversion Hcase as [E1 E3|T1 Hm E1 E3|o T1 T2 Hm Hr Hst1 Hdis E1 E3]; subst c; cbn in *.
  - destruct Hst as [[[= E4 E5 _] _]|(_ & T3 & ? & _)]; [lia|done].
  - destruct Hst as [[[= E4 E5 _] _]|(_ & T3 & [= <-] & Hst)]; [lia|].
    eexists. split; [done|]. right. split; [done|]. by exists T1.
  - destruct Hst as [[-> _]|(_ & T3 & [= <-] & Hst)].
    + eexists. split; [done|]. by left.
    + destruct (Hsw T1 eq_refl) as [_ Hw1].
      pose proof (IH T1 _ _ y T2 _ _ y2 Hw1 P1 P2 Hst1 Hr Q1 Q2 Hpd Hst) as Hst2.
      assert (T2 <> ∅).
      { intros ->. destruct (rem_is_sound k T1 _ _ y ∅ Hw1 P1 P2 Hst1 Hr) as [W2 _].
        pose proof (stored_look k ∅ _ _ y2 (pb k b2 i) W2 Q1 Q2 Hst2 ltac:(lia)) as Hlk. by rewrite look_empty in Hlk. }
      exists (Cell o (Some T2)). unfold shrink. rewrite bool_decide_false by done.
      split; [by destruct o|]. right. split; [done|]. by exists T2.
Qed.
