(* ===== verification/UmmuPermMem.v ===== *)
(** * The memory of the permission table

    The memory of [UmmuPerm] represents a tree of [UmmuPermTree]: each level block in use
    holds the cells of one table.  A path (the indices from the root) is attached to every
    level block, so that a subtree owns the blocks whose path extends its own, and work in
    one subtree leaves the others alone. *)

From S2P Require Import Prelude UmmuQueue UmmuCmd UmmuPerm UmmuPermTree.

(** ** Running operations *)

Create HintDb perm discriminated.

Definition wp {A} (m : M A) (s : pstate) (Q : A -> pstate -> Prop) : Prop :=
  match m s with Some (x, s') => Q x s' | None => False end.

Lemma wp_bind {A B} (m : M A) (f : A -> M B) (s : pstate) (Q : B -> pstate -> Prop) :
  wp m s (fun x s' => wp (f x) s' Q) -> wp (bind m f) s Q.
Proof. unfold wp, bind. by destruct (m s) as [[x s']|]. Qed.

Lemma wp_mono {A} (m : M A) (s : pstate) (P Q : A -> pstate -> Prop) :
  wp m s P -> (forall x s', P x s' -> Q x s') -> wp m s Q.
Proof. unfold wp. destruct (m s) as [[x s']|]; [|done]. auto. Qed.

Lemma wp_ret {A} (x : A) (s : pstate) (Q : A -> pstate -> Prop) : Q x s -> wp (ret x) s Q.
Proof. done. Qed.

Lemma wp_get (s : pstate) (Q : pstate -> pstate -> Prop) : Q s s -> wp get s Q.
Proof. done. Qed.

(** ** Level blocks *)

Lemma alter_is_insert {A} (f : A -> A) (m : gmap Z A) (i : Z) (x : A) :
  m !! i = Some x -> alter f i m = <[i := f x]> m.
Proof.
  intros Hx. apply map_eq. intros j. destruct (decide (j = i)) as [->|].
  - by rewrite lookup_alter_eq, lookup_insert_eq, Hx.
  - by rewrite lookup_alter_ne, lookup_insert_ne by done.
Qed.

(** The node [i] of level block [id], and the count of its valid nodes. *)
Definition ptr_of (id i : Z) : nptr := At (id / 4) (512 * (id mod 4) + i).
Definition nodeat (c : ummu_mapt_table_ctx) (id i : Z) : node :=
  match xa c !! (id / 4) with Some b => nodes b (512 * (id mod 4) + i) | None => zero_node end.
Definition cnt (c : ummu_mapt_table_ctx) (id : Z) : option Z :=
  match xa c !! (id / 4) with Some b => level_entry_cnt b !! Z.to_nat (id mod 4) | None => None end.

Definition present (c : ummu_mapt_table_ctx) (id : Z) : Prop := is_Some (xa c !! (id / 4)).
Definition index_ok (i : Z) : Prop := 0 <= i < 512.

Lemma index_split (id i : Z) : index_ok i -> 0 <= 512 * (id mod 4) + i < 2048.
Proof. unfold index_ok. intros. pose proof (Z.mod_pos_bound id 4). lia. Qed.

Lemma index_inj (id i id' i' : Z) : index_ok i -> index_ok i' ->
  id / 4 = id' / 4 -> 512 * (id mod 4) + i = 512 * (id' mod 4) + i' -> id = id' /\ i = i'.
Proof.
  unfold index_ok. intros. pose proof (Z.mod_pos_bound id 4). pose proof (Z.mod_pos_bound id' 4).
  pose proof (Z.div_mod id 4). pose proof (Z.div_mod id' 4). lia.
Qed.

(** Writing a node, and a counter. *)
Definition cset (c : ummu_mapt_table_ctx) (id i : Z) (n : node) : ummu_mapt_table_ctx :=
  set_xa (alter (fun b => set_nodes b (fun j => if j =? 512 * (id mod 4) + i then n else nodes b j))
            (id / 4) (xa c)) c.
Definition ccnt (c : ummu_mapt_table_ctx) (id v : Z) : ummu_mapt_table_ctx :=
  set_xa (alter (fun b => set_entry_cnt b (<[Z.to_nat (id mod 4) := v]> (level_entry_cnt b)))
            (id / 4) (xa c)) c.

Lemma nodeat_cset (c : ummu_mapt_table_ctx) (id i : Z) (n : node) (id' i' : Z) :
  present c id -> index_ok i -> index_ok i' ->
  nodeat (cset c id i n) id' i' = if decide (id' = id /\ i' = i) then n else nodeat c id' i'.
Proof.
  intros [b Hb] Hi Hi'. unfold nodeat, cset. cbn. rewrite lookup_alter.
  destruct (decide (id / 4 = id' / 4)) as [E|E].
  - rewrite <- E, Hb. cbn -[Z.mul Z.add Z.eqb Z.div Z.modulo]. case_decide as Ed.
    + destruct Ed as [-> ->]. by rewrite Z.eqb_refl.
    + rewrite (proj2 (Z.eqb_neq _ _)); [done|]. intros E2. apply Ed.
      destruct (index_inj id i id' i' Hi Hi' E ltac:(lia)). done.
  - rewrite decide_False; [done|]. intros [-> _]. done.
Qed.

Lemma cnt_cset (c : ummu_mapt_table_ctx) (id i : Z) (n : node) (id' : Z) :
  cnt (cset c id i n) id' = cnt c id'.
Proof.
  unfold cnt, cset. cbn. rewrite lookup_alter. case_decide as E; [|done]. rewrite <- E.
  by destruct (xa c !! (id / 4)).
Qed.

Lemma nodeat_ccnt (c : ummu_mapt_table_ctx) (id v id' i' : Z) :
  nodeat (ccnt c id v) id' i' = nodeat c id' i'.
Proof.
  unfold nodeat, ccnt. cbn. rewrite lookup_alter. case_decide as E; [|done]. rewrite <- E.
  by destruct (xa c !! (id / 4)).
Qed.

Lemma cnt_ccnt (c : ummu_mapt_table_ctx) (id v id' : Z) : is_Some (cnt c id) ->
  cnt (ccnt c id v) id' = if decide (id' = id) then Some v else cnt c id'.
Proof.
  unfold cnt, ccnt. cbn. intros H. rewrite lookup_alter. case_decide as E.
  - destruct (xa c !! (id / 4)) as [b|] eqn:Hb; [|by destruct H]. rewrite <- E, Hb. cbn.
    pose proof (Z.mod_pos_bound id 4). pose proof (Z.mod_pos_bound id' 4).
    destruct H as [v0 Hv]. apply lookup_lt_Some in Hv. destruct (decide (id' = id)) as [->|Hne].
    + by rewrite list_lookup_insert_eq.
    + rewrite list_lookup_insert_ne; [done|]. intros Hm. apply Hne.
      pose proof (Z.div_mod id 4). pose proof (Z.div_mod id' 4). lia.
  - rewrite decide_False; [done|]. by intros ->.
Qed.

Lemma present_cset (c : ummu_mapt_table_ctx) (id i : Z) (n : node) (id' : Z) :
  present (cset c id i n) id' <-> present c id'.
Proof.
  unfold present, cset. cbn. rewrite lookup_alter. case_decide as E; [|done]. rewrite <- E.
  rewrite fmap_is_Some. done.
Qed.

Lemma present_ccnt (c : ummu_mapt_table_ctx) (id v id' : Z) : present (ccnt c id v) id' <-> present c id'.
Proof.
  unfold present, ccnt. cbn. rewrite lookup_alter. case_decide as E; [|done]. rewrite <- E.
  rewrite fmap_is_Some. done.
Qed.

(** The state with another table. *)
Definition with_ctx (s : pstate) (c : ummu_mapt_table_ctx) : pstate :=
  {| ctx := c; root := root s; lvl := lvl s; head_flag := head_flag s; gather := gather s;
     answers := answers s |}.

Lemma wp_set_ctx (s : pstate) f (Q : unit -> pstate -> Prop) :
  Q tt (with_ctx s (f (ctx s))) -> wp (set_ctx f) s Q.
Proof. done. Qed.
Lemma wp_load_block (s : pstate) i (Q : option ummu_mapt_block -> pstate -> Prop) :
  Q (xa (ctx s) !! i) s -> wp (load_block i) s Q.
Proof. done. Qed.
Lemma wp_deref_block (s : pstate) i b (Q : ummu_mapt_block -> pstate -> Prop) :
  xa (ctx s) !! i = Some b -> Q b s -> wp (deref_block i) s Q.
Proof. intros Hb HQ. apply wp_bind, wp_load_block. by rewrite Hb. Qed.
Lemma wp_store_block (s : pstate) i b (Q : unit -> pstate -> Prop) :
  Q tt (with_ctx s (set_xa (<[i := b]> (xa (ctx s))) (ctx s))) -> wp (store_block i b) s Q.
Proof. done. Qed.
Lemma wp_ask (answer : nat -> Z) (s : pstate) (Q : Z -> pstate -> Prop) :
  (forall j s', ctx s' = ctx s -> root s' = root s -> Q (answer j) s') -> wp (ask answer) s Q.
Proof. intros H. by apply H. Qed.

Lemma wp_get_node (s : pstate) (id i : Z) (Q : node -> pstate -> Prop) :
  present (ctx s) id -> index_ok i -> Q (nodeat (ctx s) id i) s -> wp (get_node (ptr_of id i)) s Q.
Proof.
  intros [b Hb] Hi HQ. unfold wp, get_node, ptr_of, deref_block, load_block, bind, get, ret. rewrite Hb.
  pose proof (index_split id i Hi). unfold in_block.
  change NODES_PER_BLOCK with 2048. rewrite (proj2 (Z.leb_le _ _)), (proj2 (Z.ltb_lt _ _)) by lia.
  unfold nodeat in HQ. by rewrite Hb in HQ.
Qed.

Lemma wp_set_node (s : pstate) (id i : Z) (n : node) (Q : unit -> pstate -> Prop) :
  present (ctx s) id -> index_ok i -> Q tt (with_ctx s (cset (ctx s) id i n)) ->
  wp (set_node (ptr_of id i) n) s Q.
Proof.
  intros [b Hb] Hi HQ. unfold wp, set_node, ptr_of, deref_block, load_block, store_block, set_ctx, bind, get, ret.
  rewrite Hb. pose proof (index_split id i Hi). unfold in_block.
  change NODES_PER_BLOCK with 2048. rewrite (proj2 (Z.leb_le _ _)), (proj2 (Z.ltb_lt _ _)) by lia.
  unfold cset in HQ. erewrite alter_is_insert in HQ by done. exact HQ.
Qed.

Lemma wp_modify_node (s : pstate) (id i : Z) (f : node -> node) (Q : unit -> pstate -> Prop) :
  present (ctx s) id -> index_ok i -> Q tt (with_ctx s (cset (ctx s) id i (f (nodeat (ctx s) id i)))) ->
  wp (modify_node (ptr_of id i) f) s Q.
Proof. intros Hp Hi HQ. apply wp_bind, wp_get_node; [done..|]. by apply wp_set_node. Qed.

(** Counting up and down in range. *)
Lemma wp_entry_cnt (s : pstate) (id d v : Z) (Q : unit -> pstate -> Prop) :
  cnt (ctx s) id = Some v -> d = 1 \/ d = -1 -> 0 <= v + d < 2 ^ 16 ->
  Q tt (with_ctx s (ccnt (ctx s) id (v + d))) ->
  wp (ummu_modify_entry_cnt (id / 4) (512 * (id mod 4)) d) s Q.
Proof.
  intros Hv Hd Hr HQ. unfold cnt in Hv. destruct (xa (ctx s) !! (id / 4)) as [b|] eqn:Hb; [|done].
  unfold wp, ummu_modify_entry_cnt, deref_block, load_block, store_block, set_ctx, bind, get, ret.
  rewrite Hb. replace (512 * (id mod 4) / MAPT_MAX_ENTRY_INDEX) with (id mod 4)
    by (change MAPT_MAX_ENTRY_INDEX with 512; rewrite Z.mul_comm, Z.div_mul; lia).
  rewrite Hv. unfold ccnt in HQ. erewrite alter_is_insert in HQ by done.
  replace (if 0 <? d then u16 (v + d) else u16 (v - - d)) with (v + d); [exact HQ|].
  destruct Hd as [-> | ->]; cbn [Z.ltb Z.compare Z.opp]; rewrite uwrap_small; lia.
Qed.

(** ** The invariant of the blocks *)

(** How many level blocks of block [bi] are in use. *)
Definition bit (D : gset Z) (id : Z) : Z := if decide (id ∈ D) then 1 else 0.
Definition used (D : gset Z) (bi : Z) : Z :=
  bit D (bi * 4) + bit D (bi * 4 + 1) + bit D (bi * 4 + 2) + bit D (bi * 4 + 3).

Lemma bit_change (D D' : gset Z) (id x : Z) :
  (x ∈ D' <-> x ∈ D \/ x = id) -> id ∉ D -> bit D' x = bit D x + if decide (x = id) then 1 else 0.
Proof. intros H Hid. unfold bit. destruct (decide (x ∈ D')), (decide (x ∈ D)), (decide (x = id)); subst; try done; exfalso; tauto. Qed.

Lemma used_change (D D' : gset Z) (id bi : Z) :
  (forall x, x ∈ D' <-> x ∈ D \/ x = id) -> id ∉ D ->
  used D' bi = used D bi + if decide (id / 4 = bi) then 1 else 0.
Proof.
  intros H Hid. unfold used. rewrite !(bit_change D D' id) by done.
  pose proof (Z.div_mod id 4). pose proof (Z.mod_pos_bound id 4).
  repeat case_decide; lia.
Qed.

(** [loc] gives the path of every level block in use. *)
Record ginv (c : ummu_mapt_table_ctx) (loc : gmap Z (list Z)) : Prop := {
  gi_bm : level_block_bitmap c = dom loc;
  gi_root : loc !! 0 = Some [];
  gi_loc : forall id p, loc !! id = Some p -> 0 <= id < 2048 /\ present c id;
  gi_blk : forall bi blk, xa c !! bi = Some blk -> 0 <= bi < 512 /\ block_id blk = bi /\
    length (level_entry_cnt blk) = 4%nat /\ level_cnt blk = used (dom loc) bi;
  gi_free : forall id, present c id -> id ∉ dom loc ->
    cnt c id = Some 0 /\ forall i, index_ok i -> nodeat c id i = zero_node;
  gi_cnt : block_cnt c = Z.of_nat (size (xa c));
}.

(** No block is kept without a level block in use. *)
Definition live (c : ummu_mapt_table_ctx) (loc : gmap Z (list Z)) : Prop :=
  forall bi, is_Some (xa c !! bi) -> 0 < used (dom loc) bi.

Lemma gi_present (c : ummu_mapt_table_ctx) loc id p : ginv c loc -> loc !! id = Some p -> present c id.
Proof. intros H Hl. by apply (gi_loc _ _ H) in Hl as [_ ?]. Qed.

Lemma ginv_cset (c : ummu_mapt_table_ctx) loc id i n p :
  ginv c loc -> loc !! id = Some p -> index_ok i -> ginv (cset c id i n) loc.
Proof.
  intros H Hl Hi. pose proof (gi_present _ _ _ _ H Hl) as Hp. split; try apply H.
  - intros id' p' Hl'. rewrite present_cset. by apply (gi_loc _ _ H) in Hl'.
  - intros bi blk Hb. cbn in Hb. rewrite lookup_alter in Hb. case_decide as E; [|by apply (gi_blk _ _ H)].
    subst bi. destruct (xa c !! (id / 4)) as [b|] eqn:Eb; [|done]. injection Hb as <-. by apply (gi_blk _ _ H) in Eb.
  - intros id' Hp' Hnl. rewrite present_cset in Hp'. destruct (gi_free _ _ H id' Hp' Hnl) as [Hc Hz].
    rewrite cnt_cset. split; [done|]. intros j Hj. rewrite nodeat_cset by done.
    rewrite decide_False; [by apply Hz|]. intros [-> _]. apply Hnl; by eapply elem_of_dom_2.
  - cbn. rewrite (gi_cnt _ _ H). destruct Hp as [b Hb]. erewrite alter_is_insert by done.
    by rewrite map_size_insert_Some by (by exists b).
Qed.

Lemma ginv_ccnt (c : ummu_mapt_table_ctx) loc id v p :
  ginv c loc -> loc !! id = Some p -> ginv (ccnt c id v) loc.
Proof.
  intros H Hl. pose proof (gi_present _ _ _ _ H Hl) as Hp. split; try apply H.
  - intros id' p' Hl'. rewrite present_ccnt. by apply (gi_loc _ _ H) in Hl'.
  - intros bi blk Hb. cbn in Hb. rewrite lookup_alter in Hb. case_decide as E; [|by apply (gi_blk _ _ H)].
    subst bi. destruct (xa c !! (id / 4)) as [b|] eqn:Eb; [|done]. injection Hb as <-. cbn.
    rewrite length_insert. by apply (gi_blk _ _ H) in Eb.
  - intros id' Hp' Hnl. rewrite present_ccnt in Hp'. destruct (gi_free _ _ H id' Hp' Hnl) as [Hc Hz].
    rewrite cnt_ccnt.
    + rewrite decide_False by (intros ->; apply Hnl; by eapply elem_of_dom_2). split; [done|].
      intros j Hj. rewrite nodeat_ccnt. by apply Hz.
    + destruct Hp as [b Hb]. unfold cnt. rewrite Hb. destruct (gi_blk _ _ H _ _ Hb) as (_ & _ & Hlen & _).
      apply lookup_lt_is_Some. pose proof (Z.mod_pos_bound id 4). lia.
  - cbn. rewrite (gi_cnt _ _ H). destruct Hp as [b Hb]. erewrite alter_is_insert by done.
    by rewrite map_size_insert_Some by (by exists b).
Qed.

Lemma live_alter (c : ummu_mapt_table_ctx) loc f bi : live c loc -> live (set_xa (alter f bi (xa c)) c) loc.
Proof. intros H bi' Hb. apply H. cbn in Hb. by rewrite lookup_alter_is_Some in Hb. Qed.

Lemma live_cset (c : ummu_mapt_table_ctx) loc id i n : live c loc -> live (cset c id i n) loc.
Proof. apply live_alter. Qed.
Lemma live_ccnt (c : ummu_mapt_table_ctx) loc id v : live c loc -> live (ccnt c id v) loc.
Proof. apply live_alter. Qed.

(** *** Allocating a level block *)

Definition fresh_block (bi : Z) : ummu_mapt_block :=
  {| block_id := bi; level_cnt := 0; level_entry_cnt := [0; 0; 0; 0]; nodes := fun _ => zero_node |}.
Definition cnew (c : ummu_mapt_table_ctx) (bi : Z) : ummu_mapt_table_ctx :=
  set_block_cnt (u16 (block_cnt c + 1)) (set_xa (<[bi := fresh_block bi]> (xa c)) c).
Definition clvl (c : ummu_mapt_table_ctx) (bi v : Z) : ummu_mapt_table_ctx :=
  set_xa (alter (fun b => set_level_cnt b v) bi (xa c)) c.

Lemma xa_size (c : ummu_mapt_table_ctx) loc : ginv c loc -> Z.of_nat (size (xa c)) <= 512.
Proof.
  intros H. rewrite <- size_dom.
  assert (Hsub : dom (xa c) ⊆ list_to_set (seqZ 0 512)).
  { intros bi Hbi. apply elem_of_dom in Hbi as [b Hb]. apply (gi_blk _ _ H) in Hb as [? _].
    apply elem_of_list_to_set, elem_of_seqZ. lia. }
  apply subseteq_size in Hsub. rewrite size_list_to_set in Hsub by apply NoDup_seqZ.
  rewrite length_seqZ in Hsub. lia.
Qed.

Lemma nodeat_cnew (c : ummu_mapt_table_ctx) (bi id i : Z) :
  nodeat (cnew c bi) id i = if decide (id / 4 = bi) then zero_node else nodeat c id i.
Proof.
  unfold nodeat, cnew. cbn. rewrite lookup_insert. destruct (decide (bi = id / 4)), (decide (id / 4 = bi)); try done; congruence.
Qed.

Lemma small_index (id : Z) : [0; 0; 0; 0] !! Z.to_nat (id mod 4) = Some 0.
Proof.
  pose proof (Z.mod_pos_bound id 4). assert (id mod 4 = 0 \/ id mod 4 = 1 \/ id mod 4 = 2 \/ id mod 4 = 3) as H4 by lia.
  by destruct H4 as [-> |[-> |[-> | ->]]].
Qed.

Lemma cnt_cnew (c : ummu_mapt_table_ctx) (bi id : Z) :
  cnt (cnew c bi) id = if decide (id / 4 = bi) then Some 0 else cnt c id.
Proof.
  unfold cnt, cnew. cbn. rewrite lookup_insert. destruct (decide (bi = id / 4)), (decide (id / 4 = bi)); try congruence.
  apply small_index.
Qed.

Lemma ginv_cnew (c : ummu_mapt_table_ctx) loc bi :
  ginv c loc -> xa c !! bi = None -> 0 <= bi < 512 -> ginv (cnew c bi) loc.
Proof.
  intros H Hb Hr. pose proof (xa_size _ _ H). split; try apply H.
  - intros id p Hl. destruct (gi_loc _ _ H id p Hl) as [? Hp]. split; [done|]. unfold present in *. cbn.
    rewrite lookup_insert_is_Some. destruct (decide (bi = id / 4)); [by left|by right].
  - intros bi' blk. cbn. rewrite lookup_insert. case_decide as E; [|by apply (gi_blk _ _ H)].
    intros [= <-]. subst bi'. cbn. split_and!; try done; try lia.
    assert (Hno : forall id, id / 4 = bi -> bit (dom loc) id = 0).
    { intros id E. unfold bit. rewrite decide_False; [done|]. intros [p Hp]%elem_of_dom.
      apply (gi_present _ _ _ _ H) in Hp as [b Hb']. congruence. }
    unfold used. rewrite !Hno; [done|zlia..].
  - intros id Hp Hn. rewrite cnt_cnew. case_decide as E.
    + split; [done|]. intros i Hi. rewrite nodeat_cnew. by rewrite decide_True.
    + assert (Hp' : present c id).
      { unfold present in *. cbn in Hp. by rewrite lookup_insert_ne in Hp by congruence. }
      destruct (gi_free _ _ H id Hp' Hn) as [? Hz]. split; [done|]. intros i Hi. rewrite nodeat_cnew, decide_False by done.
      by apply Hz.
  - cbn. rewrite map_size_insert_None by done. rewrite (gi_cnt _ _ H), uwrap_small; lia.
Qed.

(** The level block [id] is in use from now on. *)
Definition cuse (c : ummu_mapt_table_ctx) (id : Z) : ummu_mapt_table_ctx :=
  clvl (set_bitmap ({[ id ]} ∪ level_block_bitmap c) c) (id / 4)
    (match xa c !! (id / 4) with Some b => u16 (level_cnt b + 1) | None => 0 end).

Lemma nodeat_clvl (c : ummu_mapt_table_ctx) (bi v id i : Z) : nodeat (clvl c bi v) id i = nodeat c id i.
Proof. unfold nodeat, clvl. cbn. rewrite lookup_alter. case_decide as E; [|done]. rewrite <- E. by destruct (xa c !! bi). Qed.
Lemma cnt_clvl (c : ummu_mapt_table_ctx) (bi v id : Z) : cnt (clvl c bi v) id = cnt c id.
Proof. unfold cnt, clvl. cbn. rewrite lookup_alter. case_decide as E; [|done]. rewrite <- E. by destruct (xa c !! bi). Qed.
Lemma present_clvl (c : ummu_mapt_table_ctx) (bi v id : Z) : present (clvl c bi v) id <-> present c id.
Proof. unfold present, clvl. cbn. by rewrite lookup_alter_is_Some. Qed.

Lemma used_range (D : gset Z) (bi : Z) : 0 <= used D bi <= 4.
Proof. unfold used, bit. repeat case_decide; lia. Qed.

Lemma dom_add (loc : gmap Z (list Z)) (id : Z) (q : list Z) (x : Z) :
  x ∈ dom (<[id := q]> loc) <-> x ∈ dom loc \/ x = id.
Proof. rewrite dom_insert_L, elem_of_union, elem_of_singleton. tauto. Qed.

Lemma ginv_cuse (c : ummu_mapt_table_ctx) loc id q :
  ginv c loc -> present c id -> id ∉ dom loc -> 0 <= id < 2048 -> ginv (cuse c id) (<[id := q]> loc).
Proof.
  intros H Hp Hn Hr. assert (Hid : loc !! id = None) by (by apply not_elem_of_dom).
  assert (Hne : id <> 0) by (intros ->; by rewrite (gi_root _ _ H) in Hid).
  pose proof (dom_add loc id q) as Hdom.
  unfold cuse. destruct Hp as [b0 Hb0]. rewrite Hb0. destruct (gi_blk _ _ H _ _ Hb0) as (G1 & G2 & G3 & G4).
  pose proof (used_range (dom loc) (id / 4)). rewrite G4, uwrap_small by lia. split.
  - cbn. by rewrite (gi_bm _ _ H), dom_insert_L.
  - rewrite lookup_insert_ne by done. apply H.
  - intros id' p' Hl. rewrite present_clvl. apply lookup_insert_Some in Hl as [[<- <-]|[_ Hl]].
    + split; [done|]. by exists b0.
    + by apply (gi_loc _ _ H) in Hl.
  - intros bi blk. cbn. rewrite lookup_alter. rewrite (used_change (dom loc) _ id _ Hdom Hn).
    case_decide as E; intros Hb.
    + subst bi. rewrite Hb0 in Hb. injection Hb as <-. cbn. split_and!; try done; lia.
    + destruct (gi_blk _ _ H _ _ Hb) as (? & ? & ? & ->). split_and!; try done; lia.
  - intros id' Hp' Hnd. rewrite present_clvl in Hp'. rewrite cnt_clvl.
    destruct (gi_free _ _ H id' Hp') as [Hc Hz]; [rewrite Hdom in Hnd; tauto|]. split; [done|].
    intros i Hi. rewrite nodeat_clvl. by apply Hz.
  - cbn. rewrite (gi_cnt _ _ H). erewrite alter_is_insert by done. by rewrite map_size_insert_Some by (by exists b0).
Qed.

Lemma live_cuse (c : ummu_mapt_table_ctx) loc id q :
  (forall bi, is_Some (xa c !! bi) -> bi <> id / 4 -> 0 < used (dom loc) bi) -> id ∉ dom loc ->
  live (cuse c id) (<[id := q]> loc).
Proof.
  intros H Hn bi Hb. unfold cuse, clvl in Hb. cbn in Hb. rewrite lookup_alter_is_Some in Hb.
  rewrite (used_change (dom loc) _ id _ (dom_add loc id q) Hn).
  pose proof (used_range (dom loc) bi). case_decide as E; [lia|]. specialize (H bi Hb ltac:(congruence)). lia.
Qed.

(** Only the node [ip] of level block [idp] differs. *)
Definition touch (c : ummu_mapt_table_ctx) (loc : gmap Z (list Z)) (c' : ummu_mapt_table_ctx)
    (idp ip : Z) (n' : node) : Prop :=
  free_bit c' = free_bit c /\ forall id q, loc !! id = Some q -> cnt c' id = cnt c id /\
    forall i, index_ok i -> nodeat c' id i = if decide (id = idp /\ i = ip) then n' else nodeat c id i.

Lemma touch_cset (c0 c : ummu_mapt_table_ctx) loc idp ip n0 n :
  touch c0 loc c idp ip n0 -> present c idp -> index_ok ip -> touch c0 loc (cset c idp ip n) idp ip n.
Proof.
  intros [Hf H] Hp Hi. split; [done|]. intros id q Hl. destruct (H id q Hl) as [Hc Hn]. rewrite cnt_cset.
  split; [done|]. intros i Hi'. rewrite nodeat_cset, Hn by done. by repeat case_decide.
Qed.

Lemma touch_refl (c : ummu_mapt_table_ctx) loc idp ip : touch c loc c idp ip (nodeat c idp ip).
Proof. split; [done|]. intros id q Hl. split; [done|]. intros i Hi. case_decide as E; [|done]. by destruct E as [-> ->]. Qed.

Lemma touch_same (c0 c c' : ummu_mapt_table_ctx) loc idp ip n :
  touch c0 loc c idp ip n -> free_bit c' = free_bit c ->
  (forall id q, loc !! id = Some q -> cnt c' id = cnt c id /\ forall i, nodeat c' id i = nodeat c id i) ->
  touch c0 loc c' idp ip n.
Proof.
  intros [Hf H] Hf' Hs. split; [congruence|]. intros id q Hl. destruct (H id q Hl) as [Hc Hn].
  destruct (Hs id q Hl) as [Hc' Hn']. split; [congruence|]. intros i Hi. by rewrite Hn', Hn.
Qed.

(** ** Representation *)

(** A node designates the level block [id]. *)
Definition links (n : node) (id : Z) : Prop := next_lv_index n = id / 4 /\ node_offset n = 512 * (id mod 4).

Definition own_rep (fb : bool) (n : node) (o : option rng) : Prop :=
  match o with
  | Some g => rte_in_use fb n = true /\ node_base n = rb g /\ node_limit n = rl g /\ node_attr n = ra g
  | None => rte_in_use fb n = false
  end.

Definition cell_rep (R : list Z -> Z -> tbl -> Prop) (fb : bool) (n : node) (q : list Z)
    (c : option cell) : Prop :=
  match c with
  | None => n = zero_node
  | Some (Cell o s) =>
    valid n = true /\ own_rep fb n o /\
    match s with
    | None => type n = true
    | Some T => type n = false /\ exists id, links n id /\ R q id T
    end
  end.

(** What is below [p]. *)
Definition below (p q : list Z) : Prop := p `prefix_of` q.

(** Every level block in use below [p] belongs to the table [T]: it is the block [id] of the
    table itself or it is below one of its tables. *)
Definition covers (loc : gmap Z (list Z)) (p : list Z) (id : Z) (T : tbl) : Prop :=
  forall id' q, loc !! id' = Some q -> below p q ->
    (q = p /\ id' = id) \/ exists i o T', below (p ++ [i]) q /\ T !! i = Some (Cell o (Some T')).

Fixpoint rep (k : nat) (c : ummu_mapt_table_ctx) (loc : gmap Z (list Z)) (p : list Z) (id : Z) (T : tbl) : Prop :=
  match k with
  | O => False
  | S k' =>
    loc !! id = Some p /\ cnt c id = Some (Z.of_nat (size T)) /\
    (forall i, is_Some (T !! i) -> index_ok i) /\
    (forall i, index_ok i -> cell_rep (rep k' c loc) (free_bit c) (nodeat c id i) (p ++ [i]) (T !! i)) /\
    covers loc p id T
  end.

(** The level blocks with a given property are as before. *)
Definition same_on (P : list Z -> Prop) (c : ummu_mapt_table_ctx) (loc : gmap Z (list Z))
    (c' : ummu_mapt_table_ctx) (loc' : gmap Z (list Z)) : Prop :=
  free_bit c' = free_bit c /\
  (forall id q, loc !! id = Some q -> P q ->
    loc' !! id = Some q /\ cnt c' id = cnt c id /\ forall i, index_ok i -> nodeat c' id i = nodeat c id i) /\
  forall id q, loc' !! id = Some q -> P q -> loc !! id = Some q.
Abbreviation same_out p := (same_on (fun q => ~ below p q)).

Lemma rep_frame (k : nat) : forall P c loc c' loc' p id T,
  same_on P c loc c' loc' -> (forall q, below p q -> P q) -> rep k c loc p id T -> rep k c' loc' p id T.
Proof.
  induction k as [|k IH]; intros P c loc c' loc' p id T Hs HP Hr; [done|].
  destruct Hr as (Hl & Hc & Hk & Hcells & Hcov). pose proof Hs as (Hf & Hsame & Hback).
  destruct (Hsame id p Hl ltac:(apply HP; exists []; by rewrite app_nil_r)) as (Hl' & Hc' & Hn').
  split_and!; [done|congruence|done| |].
  - intros i Hi. specialize (Hcells i Hi). rewrite Hf, Hn' by done.
    destruct (T !! i) as [[o s]|]; [|done]. destruct Hcells as (Hv & Ho & Hsub).
    split_and!; try done. destruct s as [T'|]; [|done]. destruct Hsub as (Ht & id' & Hlk & Hr').
    split; [done|]. exists id'. split; [done|]. apply (IH P c loc c' loc'); try done.
    intros q Hq. apply HP. unfold below in *. etrans; [|done]. by exists [i].
  - intros id' q Hl1 Hq. apply Hcov; [|done]. apply Hback; [done|]. by apply HP.
Qed.

Lemma same_refl P c loc : same_on P c loc c loc.
Proof. by split_and!. Qed.
Lemma same_trans (P Q R : list Z -> Prop) c1 l1 c2 l2 c3 l3 :
  same_on P c1 l1 c2 l2 -> same_on Q c2 l2 c3 l3 -> (forall q, R q -> P q /\ Q q) -> same_on R c1 l1 c3 l3.
Proof.
  intros (F1 & H1 & B1) (F2 & H2 & B2) HR. split_and!; [congruence| |].
  - intros id q Hl HRq. destruct (HR q HRq) as [HP HQ].
    destruct (H1 id q Hl HP) as (L1 & C1 & N1). destruct (H2 id q L1 HQ) as (L2 & C2 & N2).
    split_and!; [done|congruence|]. intros i Hi. rewrite N2, N1; done.
  - intros id q Hl HRq. destruct (HR q HRq) as [HP HQ]. apply B1; [by apply B2|done].
Qed.

Lemma below_child (p : list Z) (i : Z) (q : list Z) : below (p ++ [i]) q -> below p q.
Proof. unfold below. intros H. etrans; [|done]. by exists [i]. Qed.
Lemma below_sibling (p : list Z) (i j : Z) (q : list Z) : below (p ++ [i]) q -> below (p ++ [j]) q -> i = j.
Proof.
  unfold below. intros [a ->] [b E]. rewrite <- !app_assoc in E. apply app_inv_head in E. cbn in E. congruence.
Qed.
Lemma not_below_self (p : list Z) (i : Z) : ~ below (p ++ [i]) p.
Proof. unfold below. intros H%prefix_length. rewrite length_app in H. cbn in H. lia. Qed.

Lemma below_cases (p q : list Z) : below p q -> q = p \/ exists i, below (p ++ [i]) q.
Proof.
  intros [[|i r] ->]; [left; by rewrite app_nil_r|]. right. exists i, r. by rewrite <- app_assoc.
Qed.

(** A change of one cell. *)
Lemma rep_cell (k : nat) (c : ummu_mapt_table_ctx) loc p id T c' loc' i0 T' :
  rep (S k) c loc p id T -> index_ok i0 ->
  loc' !! id = Some p -> free_bit c' = free_bit c -> cnt c' id = Some (Z.of_nat (size T')) ->
  (forall i, i <> i0 -> T' !! i = T !! i) ->
  (forall i, index_ok i -> i <> i0 -> nodeat c' id i = nodeat c id i) ->
  same_on (fun q => exists i, i <> i0 /\ below (p ++ [i]) q) c loc c' loc' ->
  (forall id', loc' !! id' = Some p -> id' = id) ->
  (forall id' q, loc' !! id' = Some q -> below (p ++ [i0]) q -> exists o T1, T' !! i0 = Some (Cell o (Some T1))) ->
  cell_rep (rep k c' loc') (free_bit c') (nodeat c' id i0) (p ++ [i0]) (T' !! i0) ->
  rep (S k) c' loc' p id T'.
Proof.
  intros (Hl & Hc & Hk & Hcells & Hcov) Hi0 Hl' Hf Hc' HT Hn Hsame Hself Hsub0 Hcell. split_and!; try done.
  - intros i Hi. destruct (decide (i = i0)) as [->|]; [done|]. rewrite HT in Hi by done. by apply Hk.
  - intros i Hi. destruct (decide (i = i0)) as [->|Hne]; [done|]. rewrite HT, Hn by done.
    specialize (Hcells i Hi). rewrite Hf. destruct (T !! i) as [[o s]|]; [|done].
    destruct Hcells as (Hv & Ho & Hsub). split_and!; try done. destruct s as [T1|]; [|done].
    destruct Hsub as (Ht & id1 & Hlk & Hr). split; [done|]. exists id1. split; [done|].
    eapply rep_frame; [exact Hsame| |exact Hr]. intros q Hq. by exists i.
  - intros id' q Hl1 Hq. apply below_cases in Hq as [-> |[i Hq]]; [left; split; [done|by apply Hself]|].
    right. destruct (decide (i = i0)) as [-> |Hne].
    + destruct (Hsub0 id' q Hl1 Hq) as (o & T1 & E). by exists i0, o, T1.
    + destruct Hsame as (_ & _ & Hback). apply Hback in Hl1; [|by exists i].
      destruct (Hcov id' q Hl1 (below_child p i q Hq)) as [[-> _]|(j & o & T1 & Hj & E)]; [by apply not_below_self in Hq|].
      assert (j = i) as -> by (by eapply below_sibling). exists i, o, T1. by rewrite HT.
Qed.

(** ** Allocation *)

Lemma first_zero (b : gset Z) (n : Z) : 0 <= n ->
  let i := find_first_zero_bit b n in i < n -> 0 <= i /\ i ∉ b.
Proof.
  intros Hn. cbv zeta. unfold find_first_zero_bit.
  destruct (find_from _ 0 (Z.to_nat n)) as [i|] eqn:E; [|lia].
  apply find_from_Some in E as (? & E & _). intros _. split; [lia|].
  apply negb_true_iff, bool_decide_eq_false in E. done.
Qed.

Lemma set_next_links (n : node) (nb : bool) (id : Z) : 0 <= id < 2048 ->
  links (set_next n nb (u16 (id / 4)) (LVL_OFFSET_LOW (512 * (id mod 4))) (LVL_OFFSET_HIGH (512 * (id mod 4)))) id.
Proof.
  intros Hid. unfold links, node_offset. cbn -[Z.mul Z.modulo Z.div LVL_OFFSET_LOW LVL_OFFSET_HIGH TABLE_LVL_OFFSET].
  split; [apply uwrap_small; zlia|]. pose proof (Z.mod_pos_bound id 4).
  assert (id mod 4 = 0 \/ id mod 4 = 1 \/ id mod 4 = 2 \/ id mod 4 = 3) as H4 by lia.
  by destruct H4 as [-> |[-> |[-> | ->]]].
Qed.

Lemma no_zero (b : gset Z) (n : Z) : 0 <= n -> n <= find_first_zero_bit b n -> forall i, 0 <= i < n -> i ∈ b.
Proof.
  intros Hn Hle i Hi. unfold find_first_zero_bit in Hle.
  destruct (find_from _ 0 (Z.to_nat n)) as [j|] eqn:E; [apply find_from_Some in E as (? & _); lia|].
  pose proof (find_from_None _ _ _ E i ltac:(lia)) as Hx. apply negb_false_iff, bool_decide_eq_true in Hx. done.
Qed.

(** Why an allocation fails: an allocator did, the table has one block only, or all level
    blocks are in use. *)
Definition blocked (answer : nat -> Z) (c : ummu_mapt_table_ctx) (loc : gmap Z (list Z)) : Prop :=
  (exists j, answer j <> 0) \/ expan c = false \/ forall id, 0 <= id < 2048 -> id ∈ dom loc.

(** What a new level block changes: the node that designates it, and the block itself. *)
Definition alloc_post (answer : nat -> Z) (c : ummu_mapt_table_ctx) (loc : gmap Z (list Z)) (idp ip : Z) (q : list Z)
    (r : Z) (c' : ummu_mapt_table_ctx) : Prop :=
  let n := nodeat c idp ip in
  (r <> 0 /\ blocked answer c' loc /\ ginv c' loc /\ live c' loc /\ exists nb, touch c loc c' idp ip (set_next_block n nb)) \/
  (r = 0 /\ exists id1 nb i l h, (id1 ∉ dom loc) /\ ginv c' (<[id1 := q]> loc) /\ live c' (<[id1 := q]> loc) /\
     touch c loc c' idp ip (set_next n nb i l h) /\ links (set_next n nb i l h) id1 /\
     cnt c' id1 = Some 0 /\ forall j, index_ok j -> nodeat c' id1 j = zero_node).

Lemma set_next_set_next (n : node) nb1 i1 l1 h1 nb2 i2 l2 h2 :
  set_next (set_next n nb1 i1 l1 h1) nb2 i2 l2 h2 = set_next n nb2 i2 l2 h2.
Proof. done. Qed.

(** The end of the allocation, once the block is there and the node has a next block flag. *)
Lemma wp_alloc_finish (answer : nat -> Z) (s : pstate) (c0 : ummu_mapt_table_ctx) loc idp ip pp q id1 nb :
  let c := ctx s in
  ginv c loc -> (forall bi, is_Some (xa c !! bi) -> bi <> id1 / 4 -> 0 < used (dom loc) bi) ->
  loc !! idp = Some pp -> index_ok ip -> id1 ∉ dom loc -> 0 <= id1 < 2048 -> present c id1 ->
  touch c0 loc c idp ip (set_next_block (nodeat c0 idp ip) nb) ->
  wp (let next_lvl_offset := MAPT_MAX_ENTRY_INDEX * (id1 mod MAPT_PER_LVL_BLOCK_CNT) in
      (modify_node (ptr_of idp ip) (fun n => set_next n (next_block n) (u16 (id1 / 4))
                                  (LVL_OFFSET_LOW next_lvl_offset) (LVL_OFFSET_HIGH next_lvl_offset)) ;;;
      set_ctx (fun c => set_bitmap ({[ id1 ]} ∪ level_block_bitmap c) c) ;;;
      b <-- deref_block (id1 / 4) ;;
      store_block (id1 / 4) (set_level_cnt b (u16 (level_cnt b + 1))) ;;;
      ret 0)) s (fun r s' => alloc_post answer c0 loc idp ip q r (ctx s') /\ root s' = root s).
Proof.
  intros c Hg Hlv Hl Hi Hn Hr Hp Ht. pose proof (gi_present _ _ _ _ Hg Hl) as Hpp.
  change MAPT_MAX_ENTRY_INDEX with 512. change MAPT_PER_LVL_BLOCK_CNT with 4. cbv zeta.
  apply wp_bind, wp_modify_node; [done..|]. fold c.
  destruct (proj2 Ht idp pp Hl) as [_ Hnode]. specialize (Hnode ip Hi). rewrite decide_True in Hnode by done.
  rewrite Hnode. set (n' := set_next _ _ _ _ _).
  assert (Hg1 : ginv (cset c idp ip n') loc) by (by eapply ginv_cset).
  assert (Hp1 : present (cset c idp ip n') id1) by (by apply present_cset).
  destruct Hp1 as [b Hb].
  apply wp_bind, wp_set_ctx, wp_bind. eapply wp_deref_block; [exact Hb|].
  apply wp_bind, wp_store_block, wp_ret. cbn [ctx root with_ctx]. split; [|done].
  set (c1 := cset c idp ip n') in *.
  assert (Ec : set_xa (<[id1 / 4 := set_level_cnt b (u16 (level_cnt b + 1))]> (xa c1))
                 (set_bitmap ({[id1]} ∪ level_block_bitmap c1) c1) = cuse c1 id1).
  { unfold cuse, clvl. rewrite Hb. cbn [xa set_bitmap]. by erewrite alter_is_insert by done. }
  change (xa (set_bitmap ({[id1]} ∪ level_block_bitmap c1) c1)) with (xa c1). rewrite Ec.
  right. split; [done|].
  exists id1, nb, (u16 (id1 / 4)), (LVL_OFFSET_LOW (512 * (id1 mod 4))), (LVL_OFFSET_HIGH (512 * (id1 mod 4))).
  destruct (gi_free _ _ Hg1 id1 ltac:(by exists b) Hn) as [Hc0 Hz0].
  split_and!; [done| apply ginv_cuse; [done|by exists b|done|done] | | | by apply set_next_links | |].
  - apply live_cuse; [|done]. intros bi Hbi. apply Hlv. unfold c1, cset in Hbi. cbn in Hbi.
    by rewrite lookup_alter_is_Some in Hbi.
  - eapply touch_same; [by eapply touch_cset|done|]. intros id q' _. unfold cuse. rewrite cnt_clvl. split; [done|]. intros i. by rewrite nodeat_clvl.
  - unfold cuse. by rewrite cnt_clvl.
  - intros j Hj. unfold cuse. rewrite nodeat_clvl. by apply Hz0.
Qed.


Lemma wp_alloc_new (answer : nat -> Z) (s : pstate) (bi : Z) : bi < 512 ->
  wp (ummu_alloc_new_mapt_block answer bi) s (fun r s' => root s' = root s /\
    ((r <> 0 /\ ctx s' = ctx s /\ ((exists j, answer j <> 0) \/ expan (ctx s) = false)) \/
     (r = 0 /\ ctx s' = cnew (ctx s) bi))).
Proof.
  intros Hbi. unfold ummu_alloc_new_mapt_block. apply wp_bind, wp_get.
  rewrite (proj2 (Z.leb_gt _ bi)) by (unfold UMMU_BLKTBL_MAX_ENTRIES; lia). rewrite orb_false_r.
  destruct (negb (bi =? 0) && negb (expan (ctx s))) eqn:E0.
  { apply andb_prop in E0 as [_ E0%negb_true_iff]. apply wp_ret. split; [done|]. left. split_and!; [done|done|by right]. }
  apply wp_bind, wp_ask. intros j1 s1 C1 R1. destruct (ctrue (answer j1)) eqn:E1.
  { apply ctrue_nz in E1. apply wp_ret. split; [done|]. left. split_and!; [done|done|left; by exists j1]. }
  apply wp_bind, wp_ask. intros j2 s2 C2 R2. destruct (ctrue (answer j2)) eqn:E2.
  { apply ctrue_nz in E2. apply wp_ret. split; [congruence|]. left. split_and!; [done|congruence|left; by exists j2]. }
  apply wp_bind, wp_ask. intros j3 s3 C3 R3. destruct (ctrue (answer j3)) eqn:E3.
  { apply ctrue_nz in E3. apply wp_ret. split; [congruence|]. left. split_and!; [done|congruence|left; by exists j3]. }
  apply wp_bind, wp_store_block, wp_bind, wp_set_ctx, wp_ret. cbn [root with_ctx ctx]. split; [congruence|].
  right. split; [done|]. by rewrite C3, C2, C1.
Qed.

(** [ummu_alloc_level_block] for a node of the table. *)
Lemma wp_alloc_level (answer : nat -> Z) (s : pstate) loc idp ip pp q pre_blk :
  let c := ctx s in
  ginv c loc -> live c loc -> loc !! idp = Some pp -> index_ok ip ->
  wp (ummu_alloc_level_block answer (ptr_of idp ip) pre_blk) s
    (fun r s' => alloc_post answer c loc idp ip q r (ctx s') /\ root s' = root s).
Proof.
  intros c Hg Hlv Hl Hi. pose proof (gi_present _ _ _ _ Hg Hl) as Hpp.
  unfold ummu_alloc_level_block. apply wp_bind, wp_get. fold c. rewrite (gi_bm _ _ Hg).
  change MAPT_MAX_LVL_ID_BIT_SIZE with 2048. change MAPT_PER_LVL_BLOCK_CNT with 4.
  pose proof (first_zero (dom loc) 2048 ltac:(lia)) as Hz. cbv zeta in Hz.
  set (id1 := find_first_zero_bit (dom loc) 2048) in *. cbv zeta.
  destruct (Z.leb_spec 2048 id1) as [Hge|Hlt].
  { apply wp_ret. split; [|done]. left. split_and!; try done.
    { right. right. by apply no_zero. }
    exists (next_block (nodeat c idp ip)).
    replace (set_next_block _ _) with (nodeat c idp ip) by (by destruct (nodeat c idp ip)). apply touch_refl. }
  destruct (Hz Hlt) as [Hid1 Hnd]. clear Hz.
  apply wp_bind, wp_modify_node; [done..|]. fold c. set (n := nodeat c idp ip) in *.
  set (c1 := cset c idp ip (set_next_block n false)).
  assert (Hg1 : ginv c1 loc) by (by eapply ginv_cset).
  assert (Hlv1 : live c1 loc) by (by apply live_cset).
  assert (Ht1 : touch c loc c1 idp ip (set_next_block n false)) by (eapply touch_cset; [apply touch_refl|done|done]).
  apply wp_bind, wp_load_block. cbn [ctx with_ctx].
  destruct (xa c1 !! (id1 / 4)) as [blk|] eqn:Hblk; apply wp_bind.
  - (* the block is there *)
    apply wp_bind. destruct (bool_decide _).
    + apply wp_ret, wp_ret. cbn [ctrue Z.eqb negb].
      eapply (wp_alloc_finish answer (with_ctx s c1) c loc idp ip pp q id1 false); try done; [by intros; apply Hlv1|by exists blk].
    + apply wp_modify_node; [by apply present_cset|done|]. cbn [ctx with_ctx].
      destruct (proj2 Ht1 idp pp Hl) as [_ Hnode]. specialize (Hnode ip Hi). rewrite decide_True in Hnode by done.
      rewrite Hnode. apply wp_ret. cbn [ctrue Z.eqb negb].
      eapply (wp_alloc_finish answer (with_ctx s (cset c1 idp ip (set_next_block (set_next_block n false) true))) c loc idp ip pp q id1 true);
        try done.
      * by eapply ginv_cset.
      * intros bi Hbi _. by apply (live_cset _ _ idp ip (set_next_block (set_next_block n false) true) Hlv1).
      * apply present_cset. by exists blk.
      * eapply touch_cset; [exact Ht1|by apply present_cset|done].
  - (* a new block *)
    apply wp_bind. eapply wp_mono; [apply wp_alloc_new; zlia|]. intros r s1 [R1 [(Hr & C1 & Hwhy)|[-> C1]]]; cbn [ctx with_ctx root] in *.
    { rewrite (proj2 (ctrue_nz r) Hr). apply wp_ret. rewrite (proj2 (ctrue_nz r) Hr). apply wp_ret.
      rewrite C1. split; [|done]. left. split_and!; try done; [|by exists false]. destruct Hwhy; [by left|right; by left]. }
    assert (Hg2 : ginv (cnew c1 (id1 / 4)) loc) by (apply ginv_cnew; [done|done|zlia]).
    assert (Ht2 : touch c loc (cnew c1 (id1 / 4)) idp ip (set_next_block n false)).
    { eapply touch_same; [exact Ht1|done|]. intros id q' Hl'.
      assert (id / 4 <> id1 / 4).
      { intros E. pose proof (gi_present _ _ _ _ Hg1 Hl') as [b Hb]. congruence. }
      rewrite cnt_cnew, decide_False by done. split; [done|]. intros i. by rewrite nodeat_cnew, decide_False. }
    cbn [ctrue Z.eqb negb]. apply wp_bind.
    assert (Hp2 : present (ctx s1) idp) by (rewrite C1; by eapply gi_present).
    apply wp_modify_node; [done|done|]. apply wp_ret. cbn [ctrue Z.eqb negb].
    destruct (proj2 Ht2 idp pp Hl) as [_ Hnode]. specialize (Hnode ip Hi). rewrite decide_True in Hnode by done.
    rewrite C1, Hnode. set (c3 := cset _ _ _ _).
    eapply wp_mono; [eapply (wp_alloc_finish answer (with_ctx s1 c3) c loc idp ip pp q id1 true); try done|].
    + by eapply ginv_cset.
    + intros bi Hbi Hne. apply Hlv1. unfold c3, cset in Hbi. cbn in Hbi. rewrite lookup_alter_is_Some in Hbi.
      by rewrite lookup_insert_ne in Hbi by congruence.
    + apply present_cset. unfold present. cbn. rewrite lookup_insert_eq. by eexists.
    + eapply touch_cset; [exact Ht2| by rewrite <- C1 |done].
    + cbn [root with_ctx]. intros r s' [H1 H2]. split; [done|]. congruence.
Qed.

(** ** Changes below one node *)

(** Level blocks that are not below the node [i] of level block [id] (of path [p]) are as
    before, but for that node and the count of [id]. *)
Definition cell_frame (p : list Z) (id i : Z) (c : ummu_mapt_table_ctx) (loc : gmap Z (list Z))
    (c' : ummu_mapt_table_ctx) (loc' : gmap Z (list Z)) : Prop :=
  free_bit c' = free_bit c /\
  (forall id' q, loc !! id' = Some q -> ~ below (p ++ [i]) q ->
    loc' !! id' = Some q /\ (id' <> id -> cnt c' id' = cnt c id') /\
    forall j, index_ok j -> ~ (id' = id /\ j = i) -> nodeat c' id' j = nodeat c id' j) /\
  forall id' q, loc' !! id' = Some q -> ~ below (p ++ [i]) q -> loc !! id' = Some q.

Section CellFrame.
Context (p : list Z) (id i : Z).

Lemma cf_refl c loc : cell_frame p id i c loc c loc.
Proof. by split_and!. Qed.

Lemma cf_trans c1 l1 c2 l2 c3 l3 :
  cell_frame p id i c1 l1 c2 l2 -> cell_frame p id i c2 l2 c3 l3 -> cell_frame p id i c1 l1 c3 l3.
Proof.
  intros (F1 & H1 & B1) (F2 & H2 & B2). split_and!; [congruence| |].
  - intros id' q Hl Hq.
    destruct (H1 id' q Hl Hq) as (L1 & C1 & N1). destruct (H2 id' q L1 Hq) as (L2 & C2 & N2).
    split_and!; [done|intros; rewrite C2, C1; done|]. intros j Hj Hne. rewrite N2, N1; done.
  - intros id' q Hl Hq. apply B1; [by apply B2|done].
Qed.

Lemma cf_cset c loc n : present c id -> index_ok i -> cell_frame p id i c loc (cset c id i n) loc.
Proof.
  intros Hp Hi. split_and!; [done| |done]. intros id' q Hl Hq. rewrite cnt_cset. split_and!; [done..|].
  intros j Hj Hne. by rewrite nodeat_cset, decide_False.
Qed.

Lemma cf_ccnt c loc v : is_Some (cnt c id) -> cell_frame p id i c loc (ccnt c id v) loc.
Proof.
  intros Hp. split_and!; [done| |done]. intros id' q Hl Hq. rewrite cnt_ccnt by done. split_and!; [done| |].
  - intros Hne. by rewrite decide_False.
  - intros j Hj Hne. by rewrite nodeat_ccnt.
Qed.

Lemma cf_touch c loc c' n : touch c loc c' id i n -> cell_frame p id i c loc c' loc.
Proof.
  intros [Hf H]. split_and!; [done| |done]. intros id' q Hl Hq. destruct (H id' q Hl) as [Hc Hn].
  split_and!; [done|done|]. intros j Hj Hne. by rewrite Hn, decide_False.
Qed.

Lemma cf_add c loc id1 : loc !! id1 = None -> cell_frame p id i c loc c (<[id1 := p ++ [i]]> loc).
Proof.
  intros Hn. split_and!; [done| |].
  - intros id' q Hl Hq. split_and!; [|done|done]. rewrite lookup_insert_ne; [done|congruence].
  - intros id' q [[<- <-]|[_ ?]]%lookup_insert_Some Hq; [|done]. destruct Hq. exists []. by rewrite app_nil_r.
Qed.

Lemma cf_same c loc c' loc' : same_out (p ++ [i]) c loc c' loc' -> cell_frame p id i c loc c' loc'.
Proof.
  intros (Hf & H & Hb). split_and!; [done| |done]. intros id' q Hl Hq. destruct (H id' q Hl Hq) as (L & C & N).
  split_and!; [done..|]. intros j Hj _. by apply N.
Qed.

Lemma cf_out c loc c' loc' : loc !! id = Some p -> cell_frame p id i c loc c' loc' -> same_out p c loc c' loc'.
Proof.
  intros Hid (Hf & H & Hb). split_and!; [done| |].
  - intros id' q Hl Hq. assert (id' <> id) as Hne.
    { intros ->. apply Hq. replace q with p by congruence. by exists []; rewrite app_nil_r. }
    destruct (H id' q Hl) as (L & C & N); [intros Hb'; by apply Hq, (below_child p i)|].
    split_and!; [done|by apply C|]. intros j Hj. apply N; [done|]. by intros [-> _].
  - intros id' q Hl Hq. apply Hb; [done|]. intros Hb'. by apply Hq, (below_child p i).
Qed.

(** Nothing is below a cell without a table. *)
Lemma no_block_below (k : nat) c loc T id' q : rep (S k) c loc p id T ->
  (forall o T1, T !! i <> Some (Cell o (Some T1))) -> loc !! id' = Some q -> ~ below (p ++ [i]) q.
Proof.
  intros (_ & _ & _ & _ & Hcov) HT Hl Hq.
  destruct (Hcov id' q Hl (below_child p i q Hq)) as [[-> _]|(j & o & T1 & Hj & E)]; [by apply not_below_self in Hq|].
  assert (j = i) as -> by (by eapply below_sibling). by apply HT in E.
Qed.

Lemma cf_rep (k : nat) c loc T c' loc' T' :
  rep (S k) c loc p id T -> index_ok i -> cell_frame p id i c loc c' loc' ->
  cnt c' id = Some (Z.of_nat (size T')) -> (forall j, j <> i -> T' !! j = T !! j) ->
  (forall id' q, loc' !! id' = Some q -> below (p ++ [i]) q -> exists o T1, T' !! i = Some (Cell o (Some T1))) ->
  cell_rep (rep k c' loc') (free_bit c') (nodeat c' id i) (p ++ [i]) (T' !! i) ->
  rep (S k) c' loc' p id T'.
Proof.
  intros Hr Hi (Hf & H & Hb) Hc HT Hsub Hcell. pose proof Hr as (Hl & _ & _ & _ & Hcov).
  destruct (H id p Hl (not_below_self p i)) as (L & _ & N).
  eapply rep_cell; try done.
  - intros j Hj Hne. apply N; [done|]. by intros [_ ?].
  - assert (Hnb : forall q j, j <> i -> below (p ++ [j]) q -> ~ below (p ++ [i]) q).
    { intros q j Hji Hbj Hb2. apply Hji. by eapply below_sibling. }
    split_and!; [done| |].
    + intros id' q Hl' (j & Hji & Hbj). destruct (H id' q Hl' (Hnb q j Hji Hbj)) as (L' & C' & N').
      assert (id' <> id).
      { intros ->. replace q with p in Hbj by congruence. by apply not_below_self in Hbj. }
      split_and!; [done|by apply C'|]. intros j' Hj'. apply N'; [done|]. by intros [? _].
    + intros id' q Hl' (j & Hji & Hbj). apply Hb; [done|by eapply Hnb].
  - intros id' Hl'. apply Hb in Hl'; [|apply not_below_self].
    destruct (Hcov id' p Hl') as [[_ ?]|(j & ? & ? & Hj & _)]; [by exists []; rewrite app_nil_r|done|].
    by apply not_below_self in Hj.
Qed.
End CellFrame.

(** The node from which a table is reached: the one on the stack, or the parent's. *)
Definition pnode (s : pstate) (pre : nptr) : option node :=
  match get_node pre s with Some (n, _) => Some n | None => None end.

Definition pre_ok (loc : gmap Z (list Z)) (pre : nptr) (p : list Z) (id : Z) : Prop :=
  (pre = Root /\ p = [] /\ id = 0) \/
  exists idp ip pp, pre = ptr_of idp ip /\ index_ok ip /\ loc !! idp = Some pp /\ p = pp ++ [ip].

Lemma pnode_at (s : pstate) (id i : Z) :
  present (ctx s) id -> index_ok i -> pnode s (ptr_of id i) = Some (nodeat (ctx s) id i).
Proof.
  intros Hp Hi. unfold pnode. pose proof (wp_get_node s id i (fun n s' => n = nodeat (ctx s) id i) Hp Hi eq_refl) as H.
  unfold wp in H. destruct (get_node _ s) as [[n s']|]; [congruence|done].
Qed.

Lemma wp_get_pre (s : pstate) (pre : nptr) (n : node) (Q : node -> pstate -> Prop) :
  pnode s pre = Some n -> Q n s -> wp (get_node pre) s Q.
Proof.
  unfold pnode, wp. destruct pre as [|b o]; cbn; [by intros [= <-]|].
  unfold deref_block, load_block, bind, get, ret. destruct (xa (ctx s) !! b) as [blk|]; [|done].
  destruct (in_block o); [by intros [= <-]|done].
Qed.

Lemma pnode_keep (s s' : pstate) loc loc' pre p id :
  ginv (ctx s) loc -> ginv (ctx s') loc' -> same_out p (ctx s) loc (ctx s') loc' -> root s' = root s ->
  pre_ok loc pre p id -> pnode s' pre = pnode s pre /\ pre_ok loc' pre p id.
Proof.
  intros Hg Hg' (_ & Hs & _) Hr [(-> & -> & ->)|(idp & ip & pp & -> & Hi & Hl & ->)].
  - unfold pnode. cbn. rewrite Hr. split; [done|by left].
  - destruct (Hs idp pp Hl (not_below_self pp ip)) as (Hl' & _ & Hn).
    rewrite !pnode_at; [|by eapply gi_present|done|by eapply gi_present|done]. rewrite Hn by done.
    split; [done|]. right. by exists idp, ip, pp.
Qed.

(** ** Steps that leave the table alone *)

Definition quiet {A} (m : M A) : Prop :=
  forall s (Q : A -> pstate -> Prop), (forall y s', ctx s' = ctx s -> root s' = root s -> Q y s') -> wp m s Q.

Lemma quiet_ret {A} (y : A) : quiet (ret y).
Proof. intros s Q H. by apply H. Qed.
Lemma quiet_lvl l : quiet (set_lvl l).
Proof. intros s Q H. by apply H. Qed.
Lemma quiet_head_flag b : quiet (set_head_flag b).
Proof. intros s Q H. by apply H. Qed.
Lemma quiet_gather r : quiet (update_ummu_gather r).
Proof. intros s Q H. unfold wp, update_ummu_gather. destruct (_ <=? _); by apply H. Qed.
Lemma quiet_plbi d nb nl level : quiet (ummu_table_type_switch_plbi d nb nl level).
Proof. intros s Q H. apply wp_bind, wp_get, quiet_gather. done. Qed.
Lemma quiet_if {A} (b : bool) (m1 m2 : M A) : quiet m1 -> quiet m2 -> quiet (if b then m1 else m2).
Proof. by destruct b. Qed.
#[export] Hint Resolve quiet_ret quiet_lvl quiet_head_flag quiet_gather quiet_plbi quiet_if : perm.

Lemma pnode_ext (s s' : pstate) pre : ctx s' = ctx s -> root s' = root s -> pnode s' pre = pnode s pre.
Proof.
  intros Hc Hr. unfold pnode. destruct pre as [|b o]; cbn; [by rewrite Hr|].
  unfold deref_block, load_block, bind, get, ret. rewrite Hc. destruct (xa (ctx s) !! b); [|done]. by destruct (in_block o).
Qed.
