(* ===== verification/UmmuPermFill.v ===== *)
(** * Granting in the permission table

    [ummu_table_fill_node_by_level] on the memory computes [ins] on the tree it represents;
    when an allocation fails it leaves an interrupted grant ([part]). *)

From S2P Require Import Prelude UmmuQueue UmmuCmd UmmuPerm UmmuPermTree UmmuPermMem.

(** ** Addresses *)

(** The level of tables of [k + 1] levels. *)
Abbreviation level_of k := (3 - Z.of_nat k).

Lemma level_mask (k : nat) : (k < 4)%nat -> GET_LEVEL_RANGE_MASK (level_of k) = cs k - 1.
Proof. intros Hk. rewrite cs_ones. by do 4 (destruct k as [|k]; [done|]); lia. Qed.

Lemma level_index (k : nat) (x : Z) : (k < 4)%nat -> 0 <= x < cs (S k) ->
  GET_LEVEL_BLOCK_INDEX x (level_of k) = x / cs k /\ 0 <= x / cs k < 512.
Proof.
  intros Hk Hx. rewrite cs_S in Hx. pose proof (cs_pos k).
  assert (Hi : 0 <= x / cs k < 512) by (split; [apply Z.div_pos; lia|apply Z.div_lt_upper_bound; lia]).
  split; [|done]. unfold GET_LEVEL_BLOCK_INDEX.
  assert (Hb : exists hi, g_mapt_range_bits (level_of k) = (hi, 9 * Z.of_nat k + 12) /\
                 GET_BITS_MASK (hi - (9 * Z.of_nat k + 12) + 1) = Z.ones 9).
  { do 4 (destruct k as [|k]; [by eexists|]). lia. }
  destruct Hb as (hi & -> & ->). rewrite cs_shift, Z.land_ones by lia. by apply Z.mod_small.
Qed.

(** ** Nodes that hold a range *)

Definition data_attr (d : ummu_data_info) : attr :=
  let tok v := if d_token_check d =? 1 then v else 0 in
  {| a_perm := uwrap 6 (d_perm d); a_ebit := uwrap 1 (d_e_bit d); a_check := d_token_check d;
     a_nonce := tok 1; a_tok0 := tok (d_tokenval d); a_tok1 := tok (d_tokenval d) |}.

Lemma addr_halves (h a : Z) : 32 <= h -> bf_shf (GENMASK h 32) = 32 -> 0 <= a < 2 ^ (h + 1) ->
  ADDR_FULL (FIELD_GET (GENMASK 31 0) a) (FIELD_GET (GENMASK h 32) a) = a.
Proof.
  intros Hh Es Ha. unfold ADDR_FULL, FIELD_GET.
  change (bf_shf (GENMASK 31 0)) with 0. rewrite Es. apply Z.bits_inj'. intros n Hn.
  rewrite Z.shiftr_0_r, Z.lor_spec, Z.shiftl_spec, (Z.land_spec a (GENMASK 31 0)) by lia.
  rewrite (genmask_bit 31 0 n) by lia. destruct (Z.ltb_spec n 32) as [Hlt|Hge].
  - rewrite Z.testbit_neg_r by lia. rewrite (proj2 (Z.leb_le 0 n)), (proj2 (Z.leb_le n 31)) by lia.
    by rewrite andb_true_r.
  - rewrite Z.shiftr_spec by lia. rewrite Z.land_spec, genmask_bit by lia. replace (n - 32 + 32) with n by lia.
    rewrite (proj2 (Z.leb_gt n 31)) by lia. rewrite !andb_false_r, orb_false_r.
    rewrite (proj2 (Z.leb_le 32 n)) by lia. destruct (Z.leb_spec n h) as [|Hbig]; [by rewrite andb_true_r|].
    rewrite andb_false_r. symmetry. apply Z.bits_above_log2; [lia|].
    destruct (decide (a = 0)) as [-> |]; [cbn; lia|]. apply Z.log2_lt_pow2; [lia|].
    apply Z.lt_le_trans with (2 ^ (h + 1)); [lia|]. apply Z.pow_le_mono_r; lia.
Qed.

Lemma addr_full (a : Z) : 0 <= a < 2 ^ 39 -> ADDR_FULL (TABLE_ADDR_LOW a) (TABLE_ADDR_HIGH a) = a.
Proof. intros Ha. by apply (addr_halves 38). Qed.

Lemma page_in_use (a : Z) : (4096 | a) -> IS_RTE_IN_USE a = true.
Proof.
  intros [q ->]. unfold IS_RTE_IN_USE, INVALID_ADDR. change 0xFFF with (Z.ones 12).
  rewrite Z.land_ones by lia. change (2 ^ 12) with 4096. by rewrite Z.mod_mul by lia.
Qed.

Lemma filled (fb : bool) (n : node) (d : ummu_data_info) (nb nl : Z) (new : bool) :
  d_token_check d = 0 \/ d_token_check d = 1 -> 0 <= nb < 2 ^ 39 -> 0 <= nl < 2 ^ 39 -> (4096 | nb) ->
  own_rep fb (ummu_table_fill_node n nb nl d new) (Some {| rb := nb; rl := nl; ra := data_attr d |}).
Proof.
  intros Hd Hb Hl Hp. unfold own_rep, node_base, node_limit. cbn -[ADDR_FULL TABLE_ADDR_LOW TABLE_ADDR_HIGH Z.pow].
  rewrite !addr_full by done. split_and!; try done.
  - unfold rte_in_use, node_base, node_limit. cbn -[ADDR_FULL TABLE_ADDR_LOW TABLE_ADDR_HIGH Z.pow IS_RTE_IN_USE].
    rewrite !addr_full by done. rewrite (page_in_use nb) by done. by destruct fb.
  - unfold node_attr, data_attr. cbn -[uwrap]. by destruct Hd as [-> | ->].
Qed.

Lemma cs_39 (k : nat) : (k < 4)%nat -> cs k <= 2 ^ 39.
Proof. intros Hk. by do 4 (destruct k as [|k]; [by vm_compute|]); lia. Qed.

(** ** One cell *)

Lemma rep_cells (k : nat) c loc p id T i : rep (S k) c loc p id T -> index_ok i ->
  cell_rep (rep k c loc) (free_bit c) (nodeat c id i) (p ++ [i]) (T !! i).
Proof. intros (_ & _ & _ & H & _). apply H. Qed.

Lemma rep_small (k : nat) c loc p id T : rep (S k) c loc p id T -> Z.of_nat (size T) <= 512.
Proof.
  intros (_ & _ & Hk & _). rewrite <- size_dom.
  assert (Hsub : dom T ⊆ list_to_set (seqZ 0 512)).
  { intros i Hi. apply elem_of_dom, Hk in Hi. apply elem_of_list_to_set, elem_of_seqZ. unfold index_ok in Hi. lia. }
  apply subseteq_size in Hsub. rewrite size_list_to_set in Hsub by apply NoDup_seqZ.
  rewrite length_seqZ in Hsub. lia.
Qed.

(** The state of a step in the table at [p]. *)
Record at_table (k : nat) (s : pstate) (loc : gmap Z (list Z)) (pre : nptr) (p : list Z) (id : Z)
    (T : tbl) : Prop := {
  at_ginv : ginv (ctx s) loc;
  at_live : live (ctx s) loc;
  at_pre : pre_ok loc pre p id;
  at_link : exists n, pnode s pre = Some n /\ links n id;
  at_rep : rep k (ctx s) loc p id T;
}.

Lemma at_ext (k : nat) (s s' : pstate) loc pre p id T :
  ctx s' = ctx s -> root s' = root s -> at_table k s loc pre p id T -> at_table k s' loc pre p id T.
Proof.
  intros Hc Hr [H1 H2 H3 (n & H4 & H5) H6]. split; rewrite ?Hc; try done. exists n. by rewrite (pnode_ext s).
Qed.

Section Cell.
Context (k : nat) (pre : nptr) (p : list Z) (id i : Z) (Hi : index_ok i).

Lemma at_loc s loc T : at_table (S k) s loc pre p id T -> loc !! id = Some p.
Proof. intros H. by destruct (at_rep _ _ _ _ _ _ _ H). Qed.
Lemma at_present s loc T : at_table (S k) s loc pre p id T -> present (ctx s) id.
Proof. intros H. eapply gi_present; [apply H|by eapply at_loc]. Qed.

(** The table after a change of one of its cells. *)
Lemma at_cell s loc T s' loc' T' :
  at_table (S k) s loc pre p id T -> ginv (ctx s') loc' -> live (ctx s') loc' -> root s' = root s ->
  cell_frame p id i (ctx s) loc (ctx s') loc' ->
  cnt (ctx s') id = Some (Z.of_nat (size T')) -> (forall j, j <> i -> T' !! j = T !! j) ->
  (forall id' q, loc' !! id' = Some q -> below (p ++ [i]) q -> exists o T1, T' !! i = Some (Cell o (Some T1))) ->
  cell_rep (rep k (ctx s') loc') (free_bit (ctx s')) (nodeat (ctx s') id i) (p ++ [i]) (T' !! i) ->
  at_table (S k) s' loc' pre p id T' /\ same_out p (ctx s) loc (ctx s') loc'.
Proof.
  intros H Hg Hlv Hr Hcf Hc HT Hsub Hcell. pose proof (at_loc _ _ _ H) as Hl. destruct H as [Hg0 Hlv0 Hpre (n & Hn & Hlk) Hrep].
  pose proof (cf_out p id i _ _ _ _ Hl Hcf) as Hso.
  destruct (pnode_keep s s' loc loc' pre p id Hg0 Hg Hso Hr Hpre) as [Hn' Hpre'].
  split; [|done]. split; try done.
  - exists n. by rewrite Hn'.
  - by eapply cf_rep.
Qed.
End Cell.

(** ** Granting in one cell *)

Lemma fill_cases (x : attr) (k : nat) (mid : bool) (nb nl : Z) (c : option cell) :
  seg_in k nb nl -> (forall c0, c = Some c0 -> cwf k c0) -> (forall r, nb <= r <= nl -> clook k c r = None) ->
  (mid = true -> nb = 0 /\ nl = cs k - 1) ->
  exists c', ins_cell (ins k x) mid nb nl x c = (Some c', true) /\ ins_case x k mid nb nl c c'.
Proof.
  intros Hseg Hcw Hcv Hm. apply ins_cell_cases; try done. intros T0 Hw0 Hv0 Hk0. destruct k as [|k']; [done|].
  by destruct (ins_run x k' T0 nb nl Hw0 Hseg Hv0) as (T' & -> & _).
Qed.

Section Fill.
Context (answer : nat -> Z) (d : ummu_data_info).
Hypothesis Hd : d_token_check d = 0 \/ d_token_check d = 1.
Abbreviation x := (data_attr d).

(** At most so many level blocks are added to a table of [k] levels: two of its cells may
    get one, and what is below them. *)
Fixpoint budget (k : nat) : Z :=
  match k with O => 0 | S k' => 2 * (budget k' + 1) end.
Definition grown (loc loc' : gmap Z (list Z)) (n : Z) : Prop := Z.of_nat (size loc') <= Z.of_nat (size loc) + n.

Lemma budget_pos (k : nat) : 0 <= budget k.
Proof. induction k as [|k IH]; cbn [budget]; lia. Qed.

(** What a grant in a table ends with. *)
Definition fill_post (k : nat) (s : pstate) (loc : gmap Z (list Z)) (pre : nptr) (p : list Z) (id : Z)
    (T : tbl) (b l : Z) (r : Z) (s' : pstate) : Prop :=
  exists loc' T', at_table k s' loc' pre p id T' /\ same_out p (ctx s) loc (ctx s') loc' /\
    root s' = root s /\ grown loc loc' (budget k) /\
    ((r = 0 /\ ins k x T b l = (T', true)) \/ (r <> 0 /\ blocked answer (ctx s') loc' /\ part x k T b l T')).

(** What the step on one cell ends with. *)
Definition cell_post (k : nat) (s : pstate) (loc : gmap Z (list Z)) (pre : nptr) (p : list Z) (id i : Z)
    (T : tbl) (mid : bool) (nb nl : Z) (r : Z) (s' : pstate) : Prop :=
  exists loc' c', at_table (S k) s' loc' pre p id (<[i := c']> T) /\ same_out p (ctx s) loc (ctx s') loc' /\
    root s' = root s /\ grown loc loc' (if mid then 0 else budget k + 1) /\
    ((r = 0 /\ ins_cell (ins k x) mid nb nl x (T !! i) = (Some c', true)) \/
     (r <> 0 /\ blocked answer (ctx s') loc' /\ mid = false /\ exists o s0 sp, T !! i = Some (Cell (Some o) s0) /\ c' = Cell (Some o) sp /\
        ((s0 = None /\ sp = None) \/
         exists T1 Tp1, s0 = Some T1 /\ sp = Some Tp1 /\ part x k T1 nb nl Tp1))).

Section Step.
Context (k : nat) (Hk : (k < 4)%nat) (pre : nptr) (p : list Z) (id i : Z) (Hi : index_ok i).
Context (s : pstate) (loc : gmap Z (list Z)) (T : tbl).
Hypothesis Hat : at_table (S k) s loc pre p id T.
Context (nb nl : Z) (Hseg : seg_in k nb nl).

Lemma seg_39 : 0 <= nb < 2 ^ 39 /\ 0 <= nl < 2 ^ 39.
Proof. destruct Hseg as (? & ? & ?). pose proof (cs_39 k Hk). lia. Qed.

(** A new cell, whichever way the counter is reached. *)
Lemma fill_new (mid : bool) : T !! i = None ->
  wp (set_node (ptr_of id i) (ummu_table_fill_node (nodeat (ctx s) id i) nb nl d true) ;;;
      ummu_modify_entry_cnt (id / 4) (512 * (id mod 4)) 1 ;;; ret 0) s
    (cell_post k s loc pre p id i T mid nb nl).
Proof.
  intros HT. pose proof (at_present _ _ _ _ _ _ _ Hat) as Hp. pose proof (at_loc _ _ _ _ _ _ _ Hat) as Hl.
  pose proof (at_rep _ _ _ _ _ _ _ Hat) as Hrep. pose proof (rep_small _ _ _ _ _ _ Hrep) as Hsz.
  pose proof Hrep as (_ & Hc & _ & _).
  pose proof (rep_cells _ _ _ _ _ _ i Hrep Hi) as Hcell. rewrite HT in Hcell. cbn in Hcell. rewrite Hcell.
  apply wp_bind, wp_set_node; [done..|].
  apply wp_bind. eapply wp_entry_cnt; [cbn [ctx with_ctx]; by rewrite cnt_cset|by left|lia|].
  apply wp_ret. set (n' := ummu_table_fill_node _ _ _ _ _). set (g := {| rb := nb; rl := nl; ra := x |}).
  set (s' := with_ctx _ _).
  assert (C1 : ctx s' = ccnt (cset (ctx s) id i n') id (Z.of_nat (size T) + 1)) by done.
  assert (R1 : root s' = root s) by done. clearbody s'.
  destruct (at_cell k pre p id i Hi s loc T s' loc (<[i := Cell (Some g) None]> T) Hat) as [Hat' Hso]; rewrite ?C1.
  - eapply ginv_ccnt; [|done]. eapply ginv_cset; [apply Hat|done|done].
  - apply live_ccnt, live_cset, Hat.
  - done.
  - eapply cf_trans; [by apply cf_cset|]. apply cf_ccnt. rewrite cnt_cset. by rewrite Hc.
  - rewrite cnt_ccnt, decide_True by (rewrite ?cnt_cset, ?Hc; done). f_equal.
    rewrite map_size_insert_None by done. lia.
  - intros j Hj. by rewrite lookup_insert_ne.
  - intros id' q Hl' Hq. exfalso. eapply (no_block_below p id i k); [exact Hrep| |done|done]. intros. by rewrite HT.
  - rewrite lookup_insert_eq, nodeat_ccnt, nodeat_cset, decide_True by done. split; [done|].
    split; [|done]. pose proof seg_39 as [H1 H2]. apply filled; try done. apply Hseg.
  - exists loc, (Cell (Some g) None). split_and!; [done|done|done| |].
    + pose proof (budget_pos k). unfold grown. destruct mid; lia.
    + left. by rewrite HT.
Qed.

(** The range of a cell that only had a table. *)
Lemma fill_own (T1 : tbl) : T !! i = Some (Cell None (Some T1)) -> forall s1 : pstate,
  ctx s1 = cset (ctx s) id i (ummu_table_fill_node (nodeat (ctx s) id i) nb nl d false) -> root s1 = root s ->
  cell_post k s loc pre p id i T false nb nl 0 s1.
Proof.
  intros HT s1 C1 R1. pose proof (at_present _ _ _ _ _ _ _ Hat) as Hp. pose proof (at_loc _ _ _ _ _ _ _ Hat) as Hl.
  pose proof (at_rep _ _ _ _ _ _ _ Hat) as Hrep. pose proof Hrep as (_ & Hc & _ & _).
  pose proof (rep_cells _ _ _ _ _ _ i Hrep Hi) as Hcell. rewrite HT in Hcell. destruct Hcell as (Hv & Ho & Ht & id1 & Hlk & Hr1).
  set (g := {| rb := nb; rl := nl; ra := x |}).
  destruct (at_cell k pre p id i Hi s loc T s1 loc (<[i := Cell (Some g) (Some T1)]> T) Hat) as [Hat' Hso]; rewrite ?C1.
  - eapply ginv_cset; [apply Hat|done|done].
  - apply live_cset, Hat.
  - done.
  - by apply cf_cset.
  - rewrite cnt_cset, Hc. by rewrite map_size_insert_Some.
  - intros j Hj. by rewrite lookup_insert_ne.
  - intros. exists (Some g), T1. by rewrite lookup_insert_eq.
  - rewrite lookup_insert_eq, nodeat_cset, decide_True by done. split; [done|].
    pose proof seg_39 as [H1 H2]. split; [apply filled; try done; apply Hseg|]. split; [done|].
    exists id1. split; [done|]. eapply (rep_frame k (fun q => below (p ++ [i]) q)); [|done|exact Hr1].
    split_and!; [done| |done]. intros id' q Hl' Hb. rewrite cnt_cset. split_and!; [done..|]. intros j Hj.
    rewrite nodeat_cset by done. rewrite decide_False; [done|]. intros [-> _]. replace q with p in Hb by congruence.
    by apply not_below_self in Hb.
  - exists loc, (Cell (Some g) (Some T1)). split_and!; [done|done|done| |].
    + pose proof (budget_pos k). unfold grown. lia.
    + left. by rewrite HT.
Qed.

(** Going down: the cell holds another range. *)
Section Descend.
Context (fill_next : Z -> nptr -> Z -> Z -> M Z) (level : Z).
Hypothesis fill_next_ok : forall s1 loc1 id1 T1, k <> O ->
  at_table k s1 loc1 (ptr_of id i) (p ++ [i]) id1 T1 -> twf k T1 -> vacant k T1 nb nl ->
  wp (fill_next (level + 1) (ptr_of id i) nb nl) s1 (fill_post k s1 loc1 (ptr_of id i) (p ++ [i]) id1 T1 nb nl).

(** The step once there is a table below, in a state that differs from the first one in the
    cell only. *)
Lemma descend_below (o : rng) (s0 : option tbl) (s1 : pstate) (loc1 : gmap Z (list Z)) (id1 : Z) :
  T !! i = Some (Cell (Some o) s0) -> k <> O -> twf k (default ∅ s0) -> vacant k (default ∅ s0) nb nl ->
  snd (ins k x (default ∅ s0) nb nl) = true ->
  ginv (ctx s1) loc1 -> live (ctx s1) loc1 -> root s1 = root s ->
  cell_frame p id i (ctx s) loc (ctx s1) loc1 -> cnt (ctx s1) id = cnt (ctx s) id ->
  grown loc loc1 1 ->
  let n := nodeat (ctx s1) id i in
  valid n = true -> own_rep (free_bit (ctx s1)) n (Some o) -> type n = false -> links n id1 ->
  rep k (ctx s1) loc1 (p ++ [i]) id1 (default ∅ s0) ->
  wp (fill_next (level + 1) (ptr_of id i) nb nl) s1 (cell_post k s loc pre p id i T false nb nl).
Proof.
  intros HT Hk0 Hw Hv Hok Hg Hlv Hr Hcf Hc Hgr n Hvalid Hown Hty Hlk Hrep.
  pose proof (at_loc _ _ _ _ _ _ _ Hat) as Hl. pose proof (at_rep _ _ _ _ _ _ _ Hat) as Hrep0.
  destruct (proj1 (proj2 Hcf) id p Hl (not_below_self p i)) as (Hl1 & _ & _).
  assert (Hat1 : at_table k s1 loc1 (ptr_of id i) (p ++ [i]) id1 (default ∅ s0)).
  { split; try done.
    - right. by exists id, i, p.
    - exists n. split; [|done]. apply pnode_at; [by eapply gi_present|done]. }
  eapply wp_mono; [by apply fill_next_ok|]. intros r s' (loc' & T' & Hat' & Hso & Hr' & Hgr' & Hres).
  destruct (proj1 (proj2 Hso) id p Hl1 (not_below_self p i)) as (Hl' & Hc' & Hn').
  destruct (at_cell k pre p id i Hi s loc T s' loc' (<[i := Cell (Some o) (Some T')]> T) Hat) as [Hat2 Hso2].
  - apply Hat'.
  - apply Hat'.
  - congruence.
  - eapply cf_trans; [exact Hcf|]. by apply cf_same.
  - rewrite Hc', Hc. destruct Hrep0 as (_ & -> & _). by rewrite map_size_insert_Some.
  - intros j Hj. by rewrite lookup_insert_ne.
  - intros. exists (Some o), T'. by rewrite lookup_insert_eq.
  - rewrite lookup_insert_eq, Hn' by done. fold n. destruct Hso as (-> & _). split; [done|]. split; [done|].
    split; [done|]. exists id1. split; [done|]. apply Hat'.
  - exists loc', (Cell (Some o) (Some T')). split_and!; [done|done|congruence|unfold grown in *; lia|].
    destruct Hres as [[-> Hins]|(Hr0 & Hwhy & Hpart)].
    + left. split; [done|]. rewrite HT. cbn. by rewrite Hins.
    + right. split_and!; [done..|]. exists o, s0, (Some T'). split_and!; [done..|]. right.
      destruct s0 as [T1|]; [by exists T1, T'|]. exfalso. cbn in Hpart. destruct k; [done|].
      destruct Hpart as (? & ? & ? & ? & _ & _ & HE & _). by rewrite lookup_empty in HE.
Qed.

Lemma wp_descend (o : rng) (s0 : option tbl) :
  T !! i = Some (Cell (Some o) s0) -> k <> O -> twf k (default ∅ s0) -> vacant k (default ∅ s0) nb nl ->
  snd (ins k x (default ∅ s0) nb nl) = true ->
  wp (fill_descend answer fill_next level (id / 4) (ptr_of id i) nb nl) s (cell_post k s loc pre p id i T false nb nl).
Proof.
  intros HT Hk0 Hw Hv Hok. pose proof (at_present _ _ _ _ _ _ _ Hat) as Hp. pose proof (at_loc _ _ _ _ _ _ _ Hat) as Hl.
  pose proof (at_rep _ _ _ _ _ _ _ Hat) as Hrep. pose proof Hrep as (_ & Hc & _ & _).
  pose proof (rep_cells _ _ _ _ _ _ i Hrep Hi) as Hcell. rewrite HT in Hcell. destruct Hcell as (Hvn & Ho & Hs).
  unfold fill_descend. apply wp_bind, wp_get_node; [done..|]. apply wp_bind. destruct s0 as [T1|].
  - destruct Hs as (Ht & id1 & Hlk & Hr1). rewrite Ht. apply wp_ret. cbn [ctrue Z.eqb negb].
    eapply (descend_below o (Some T1) s loc id1); try done; [apply Hat|apply Hat|unfold grown; lia].
  - rewrite Hs. apply wp_bind. eapply wp_mono.
    { apply (wp_alloc_level answer s loc id i p (p ++ [i])); [apply Hat|apply Hat|done|done]. }
    intros r s1 [[(Hr & Hwhy & Hg1 & Hlv1 & nb1 & Ht1)|(-> & id1 & nb1 & i1 & l1 & h1 & Hnew & Hg1 & Hlv1 & Ht1 & Hlk & Hc1 & Hz1)] R1].
    + rewrite (proj2 (ctrue_nz r) Hr). apply wp_ret. cbn [ctrue Z.eqb negb Z.opp ENOMEM]. apply wp_ret.
      destruct (proj2 Ht1 id p Hl) as [C1 N1]. specialize (N1 i Hi). rewrite decide_True in N1 by done.
      destruct (at_cell k pre p id i Hi s loc T s1 loc (<[i := Cell (Some o) None]> T) Hat) as [Hat2 Hso2]; try done.
      * by eapply cf_touch.
      * rewrite C1, Hc. by rewrite map_size_insert_Some.
      * intros j Hj. by rewrite lookup_insert_ne.
      * intros id' q' Hl' Hq. exfalso. eapply (no_block_below p id i k); [exact Hrep| |done|done].
        intros o' T1'. by rewrite HT.
      * rewrite lookup_insert_eq, N1. destruct Ht1 as [-> _]. by split_and!.
      * exists loc, (Cell (Some o) None). split_and!; [done..| |].
        { pose proof (budget_pos k). unfold grown. lia. }
        right. split_and!; [done..|].
        exists o, None, None. split_and!; [done..|]. by left.
    + cbn [ctrue Z.eqb negb]. apply wp_bind.
      assert (Hid1 : loc !! id1 = None) by (by apply not_elem_of_dom).
      assert (Hsub : loc ⊆ <[id1 := p ++ [i]]> loc) by (by apply insert_subseteq).
      assert (Hl1 : <[id1 := p ++ [i]]> loc !! id = Some p) by (by eapply lookup_weaken).
      assert (Hne : id1 <> id) by congruence.
      pose proof (gi_present _ _ _ _ Hg1 Hl1) as Hp1.
      apply wp_modify_node; [done..|]. apply wp_ret. cbn [ctrue Z.eqb negb].
      destruct (proj2 Ht1 id p Hl) as [C1 N1]. specialize (N1 i Hi). rewrite decide_True in N1 by done.
      rewrite N1. set (n1 := set_next _ _ _ _ _) in *. set (s2 := with_ctx _ _).
      assert (C2 : ctx s2 = cset (ctx s1) id i (set_type n1 false)) by done.
      assert (R2 : root s2 = root s) by done. clearbody s2.
      eapply (descend_below o None s2 (<[id1 := p ++ [i]]> loc) id1); try done; rewrite ?C2.
      * by eapply ginv_cset.
      * by apply live_cset.
      * eapply cf_trans; [by eapply cf_touch|]. eapply cf_trans; [by apply cf_add|by apply cf_cset].
      * by rewrite cnt_cset.
      * unfold grown. rewrite map_size_insert_None by done. lia.
      * by rewrite nodeat_cset, decide_True by done.
      * rewrite nodeat_cset, decide_True by done. cbn [free_bit cset set_xa]. destruct Ht1 as [-> _]. done.
      * by rewrite nodeat_cset, decide_True by done.
      * by rewrite nodeat_cset, decide_True by done.
      * destruct k as [|k']; [done|]. cbn [rep default]. rewrite lookup_insert_eq, cnt_cset. split_and!; [done..| | |].
        -- intros j [c0 Hj]. by rewrite lookup_empty in Hj.
        -- intros j Hj. rewrite lookup_empty. cbn [cell_rep]. rewrite nodeat_cset by done.
           rewrite decide_False by (by intros [? _]). by apply Hz1.
        -- intros id' q [[<- <-]|[_ Hl']]%lookup_insert_Some Hq; [by left|]. exfalso.
           eapply (no_block_below p id i); [exact Hrep| |done|done]. intros o' T1'. by rewrite HT.
Qed.

(** The three functions of the loop. *)
Hypothesis Hcw : forall c0, T !! i = Some c0 -> cwf k c0.
Hypothesis Hcv : forall r, nb <= r <= nl -> clook k (T !! i) r = None.

Lemma wp_head (fb : bool) : fb = free_bit (ctx s) ->
  wp (if fb then ummu_table_fill_head_node_free_bit answer fill_next d level pre (ptr_of id i) nb nl
      else ummu_table_fill_head_node answer fill_next d level pre (ptr_of id i) nb nl) s
    (cell_post k s loc pre p id i T false nb nl).
Proof.
  intros ->. destruct (fill_cases x k false nb nl (T !! i) Hseg Hcw Hcv ltac:(done)) as (c' & Hins & Hcase).
  pose proof (at_present _ _ _ _ _ _ _ Hat) as Hp. pose proof (at_rep _ _ _ _ _ _ _ Hat) as Hrep.
  destruct (at_link _ _ _ _ _ _ _ Hat) as (n & Hn & Hix & Hoff).
  pose proof (rep_cells _ _ _ _ _ _ i Hrep Hi) as Hcell.
  unfold ummu_table_fill_head_node_free_bit, ummu_table_fill_head_node.
  destruct (T !! i) as [[[o|] s0]|] eqn:HT.
  - destruct Hcell as (Hv & Ho & Hs). inversion Hcase as [| |o' s' T2 Hm Hk0 Hi2 Ht Hva Hdis]; subst.
    cbn in Ho. destruct Ho as (Ho & _).
    destruct (free_bit (ctx s)); (eapply wp_bind, wp_get_pre; [done|]; apply wp_bind, wp_get_node; [done..|]); rewrite Hv, Hix.
    + cbn in Ho. apply negb_true_iff in Ho. rewrite Ho. cbn [negb]. eapply wp_descend; try done. by rewrite Hi2.
    + cbn in Ho. assert (negb (IS_RTE_IN_USE (node_base (nodeat (ctx s) id i))) && negb (IS_RTE_IN_USE (node_limit (nodeat (ctx s) id i))) = false) as ->.
      { rewrite <- negb_orb. by rewrite Ho. }
      eapply wp_descend; try done. by rewrite Hi2.
  - destruct Hcell as (Hv & Ho & Hs). inversion Hcase as [|T1 Hm|]; subst. cbn in Ho.
    destruct (free_bit (ctx s)); (eapply wp_bind, wp_get_pre; [done|]; apply wp_bind, wp_get_node; [done..|]); rewrite Hv.
    + apply negb_false_iff in Ho. rewrite Ho. cbn [negb].
      apply wp_bind, wp_set_node; [done..|]. apply wp_bind, quiet_gather. intros _ s1 C1 R1. apply wp_ret.
      by eapply fill_own.
    + apply orb_false_iff in Ho as [-> ->]. cbn [negb andb].
      apply wp_bind, wp_set_node; [done..|]. apply wp_bind, quiet_plbi. intros _ s1 C1 R1. apply wp_ret.
      by eapply fill_own.
  - cbn in Hcell. destruct (free_bit (ctx s));
      (eapply wp_bind, wp_get_pre; [done|]; apply wp_bind, wp_get_node; [done..|]);
      rewrite Hix, Hoff; replace (valid (nodeat (ctx s) id i)) with false by (by rewrite Hcell); cbn [negb]; by apply fill_new.
Qed.

Lemma wp_middle : nb = 0 -> nl = cs k - 1 ->
  wp (n <-- get_node (ptr_of id i) ;;
      if valid n then ret (- EINVAL)
      else set_node (ptr_of id i) (ummu_table_fill_node n nb nl d true) ;;;
           ummu_modify_entry_cnt (id / 4) (512 * (id mod 4)) 1 ;;; ret 0) s
    (cell_post k s loc pre p id i T true nb nl).
Proof.
  intros H1 H2. destruct (fill_cases x k true nb nl (T !! i) Hseg Hcw Hcv ltac:(done)) as (c' & Hins & Hcase).
  pose proof (at_present _ _ _ _ _ _ _ Hat) as Hp. pose proof (at_rep _ _ _ _ _ _ _ Hat) as Hrep.
  pose proof (rep_cells _ _ _ _ _ _ i Hrep Hi) as Hcell. inversion Hcase as [HT| |]; try done.
  rewrite <- HT in Hcell. cbn in Hcell. apply wp_bind, wp_get_node; [done..|].
  replace (valid (nodeat (ctx s) id i)) with false by (by rewrite Hcell). by apply fill_new.
Qed.
End Descend.
End Step.

Lemma cell_post_ext (k : nat) (s s1 : pstate) loc pre p id i T mid nb nl r s' :
  ctx s1 = ctx s -> root s1 = root s ->
  cell_post k s1 loc pre p id i T mid nb nl r s' -> cell_post k s loc pre p id i T mid nb nl r s'.
Proof.
  intros Hc Hr (loc' & c' & H1 & H2 & H3 & H4 & H5). exists loc', c'. rewrite Hc in H2. split_and!; try done. congruence.
Qed.

(** ** The loop *)

Section Loop.
Context (k : nat) (Hk : (k < 4)%nat) (pre : nptr) (p : list Z) (id : Z).
Context (s : pstate) (loc : gmap Z (list Z)) (T : tbl) (b l : Z).
Hypothesis Hw : twf (S k) T.
Hypothesis Hin : seg_in (S k) b l.
Hypothesis Hv : vacant (S k) T b l.
Context (fill_next : Z -> nptr -> Z -> Z -> M Z).
Hypothesis fill_next_ok : forall cur q nb nl s1 loc1 id1 T1, k <> O -> seg_in k nb nl ->
  at_table k s1 loc1 cur q id1 T1 -> twf k T1 -> vacant k T1 nb nl ->
  wp (fill_next (level_of k + 1) cur nb nl) s1 (fill_post k s1 loc1 cur q id1 T1 nb nl).

Abbreviation step i := (ins_cell (ins k x) (middle k b l i) (pb k b i) (pl k l i) x).

(** The cells before [i] that may have got a level block. *)
Definition heads (i : Z) : Z := if i <=? b / cs k then 0 else if i <=? l / cs k then 1 else 2.

Lemma heads_S (i : Z) : b / cs k <= i <= l / cs k ->
  heads i + (if middle k b l i then 0 else 1) <= heads (i + 1) <= 2.
Proof. intros Hi. unfold heads, middle. repeat (case_match; try lia); lia. Qed.

(** The body of the loop. *)
Definition fill_body (i : Z) : M Z :=
  let cur := ptr_of id i in
  if middle k b l i then
    n <-- get_node cur ;;
    if valid n then ret (- EINVAL)
    else set_node cur (ummu_table_fill_node n (pb k b i) (pl k l i) d true) ;;;
         ummu_modify_entry_cnt (id / 4) (512 * (id mod 4)) 1 ;;; ret 0
  else
    s <-- get ;;
    (if lvl s =? level_of k then set_head_flag (i =? b / cs k) else ret tt) ;;;
    if free_bit (ctx s)
    then ummu_table_fill_head_node_free_bit answer fill_next d (level_of k) pre cur (pb k b i) (pl k l i)
    else ummu_table_fill_head_node answer fill_next d (level_of k) pre cur (pb k b i) (pl k l i).

Lemma wp_body (i : Z) (s1 : pstate) (loc1 : gmap Z (list Z)) (T1 : tbl) :
  b / cs k <= i <= l / cs k -> at_table (S k) s1 loc1 pre p id T1 -> T1 !! i = T !! i ->
  wp (fill_body i) s1 (cell_post k s1 loc1 pre p id i T1 (middle k b l i) (pb k b i) (pl k l i)).
Proof.
  intros Hi Hat HT. destruct (seg_parts k T b l i Hin Hw Hv Hi) as (P1 & P2 & P3 & P4). rewrite <- HT in *.
  assert (Hio : index_ok i) by (apply (part_idx k b l); [apply Hin|apply Hin|done]).
  unfold fill_body. destruct (middle k b l i) eqn:Hm.
  - destruct (P4 eq_refl). eapply wp_middle; try done.
  - apply wp_bind, wp_get, wp_bind, quiet_if; [apply quiet_head_flag|apply quiet_ret|]. intros _ s2 C2 R2.
    eapply wp_mono; [|intros r s'; apply (cell_post_ext k s1 s2 loc1); done].
    eapply wp_head; try done; [by eapply at_ext | | by rewrite C2]. intros. by apply fill_next_ok.
Qed.

Lemma loop_body (count : nat) (i : Z) :
  fill_loop answer fill_next d (level_of k) (S count) i (b / cs k) (l / cs k) pre (id / 4) (512 * (id mod 4)) b l =
  (r <-- fill_body i ;;
   if ctrue r then ret r
   else fill_loop answer fill_next d (level_of k) count (i + 1) (b / cs k) (l / cs k) pre (id / 4) (512 * (id mod 4)) b l).
Proof.
  cbn [fill_loop]. unfold fill_body, middle, pb, pl, ptr_of. rewrite level_mask by done. by rewrite !cs_land.
Qed.

Lemma wp_fill_loop (count : nat) : forall (i : Z) (s1 : pstate) (loc1 : gmap Z (list Z)) (T1 : tbl),
  b / cs k <= i -> i + Z.of_nat count = l / cs k + 1 ->
  at_table (S k) s1 loc1 pre p id T1 -> same_out p (ctx s) loc (ctx s1) loc1 -> root s1 = root s ->
  grown loc loc1 (heads i * (budget k + 1)) ->
  (forall j, T1 !! j = if decide (b / cs k <= j < i) then fst (step j (T !! j)) else T !! j) ->
  wp (fill_loop answer fill_next d (level_of k) count i (b / cs k) (l / cs k) pre (id / 4) (512 * (id mod 4)) b l) s1
    (fill_post (S k) s loc pre p id T b l).
Proof.
  induction count as [|count IH]; intros i s1 loc1 T1 Hi Hcount Hat Hso Hr Hgr HT1; pose proof (budget_pos k) as Hbp.
  - apply wp_ret. exists loc1, T1. split_and!; [done..| |].
    { unfold grown in *. cbn [budget]. unfold heads in Hgr. repeat case_match; lia. }
    left. split; [done|].
    destruct (ins_run x k T b l Hw Hin Hv) as (T' & E & HR). rewrite E. f_equal. apply map_eq. intros j.
    rewrite HT1. specialize (HR j). destruct (decide (b / cs k <= j <= l / cs k)) as [Hj|Hj].
    + rewrite decide_True by lia. destruct HR as (c' & -> & Hcase).
      destruct (seg_parts k T b l j Hin Hw Hv Hj) as (P1 & P2 & P3 & P4).
      destruct (fill_cases x k (middle k b l j) (pb k b j) (pl k l j) (T !! j) P2 P1 P3 P4) as (c2 & -> & Hc2). cbn. f_equal.
      destruct Hcase; inversion Hc2; subst; congruence.
    + by rewrite decide_False, HR by lia.
  - rewrite loop_body. apply wp_bind. eapply wp_mono.
    { apply (wp_body i s1 loc1 T1); [lia|done|]. by rewrite HT1, decide_False by lia. }
    intros r s2 (loc2 & c' & Hat2 & Hso2 & Hr2 & Hgr2 & Hres).
    assert (Hgr' : grown loc loc2 (heads (i + 1) * (budget k + 1))).
    { pose proof (heads_S i ltac:(lia)) as Hh. unfold grown in *. destruct (middle k b l i); nia. }
    assert (HTi : T1 !! i = T !! i) by (by rewrite HT1, decide_False by lia). rewrite HTi in Hres.
    assert (Hso' : same_out p (ctx s) loc (ctx s2) loc2) by (by eapply same_trans).
    destruct Hres as [[-> Hins]|(Hr0 & Hwhy & Hmid & o & s0 & sp & HTo & -> & Hsp)].
    + cbn [ctrue Z.eqb negb]. eapply (IH (i + 1) s2 loc2 (<[i := c']> T1)); try done; [lia|lia|congruence|].
      intros j. destruct (decide (j = i)) as [-> |Hne].
      * by rewrite lookup_insert_eq, decide_True, Hins by lia.
      * rewrite lookup_insert_ne, HT1 by done. destruct (decide (b / cs k <= j < i)), (decide (b / cs k <= j < i + 1)); done || lia.
    + rewrite (proj2 (ctrue_nz r) Hr0). apply wp_ret. exists loc2, (<[i := Cell (Some o) sp]> T1).
      split_and!; [done|done|congruence| |].
      { pose proof (heads_S i ltac:(lia)) as Hh. unfold grown in *. cbn [budget]. nia. }
      right. split; [done|]. split; [done|].
      exists i, o, s0, sp. split_and!; try done; try lia. intros j. destruct (decide (j = i)) as [-> |Hne].
      * by rewrite lookup_insert_eq, decide_False by lia.
      * rewrite lookup_insert_ne, HT1 by done. destruct (decide (b / cs k <= j < i)); done.
Qed.
End Loop.

(** [ummu_table_fill_node_by_level]. *)
Lemma wp_fill (k : nat) : forall (fuel : nat) pre p id (s : pstate) loc T b l,
  k <> O -> (k <= 4)%nat -> (k <= fuel)%nat -> seg_in k b l ->
  at_table k s loc pre p id T -> twf k T -> vacant k T b l ->
  wp (ummu_table_fill_node_by_level answer fuel d (4 - Z.of_nat k) pre b l) s (fill_post k s loc pre p id T b l).
Proof.
  induction k as [|k IH]; intros fuel pre p id s loc T b l Hk0 Hk Hf Hin Hat Hw Hv; [done|].
  destruct fuel as [|fuel]; [lia|]. replace (4 - Z.of_nat (S k)) with (level_of k) by lia.
  cbn [ummu_table_fill_node_by_level]. rewrite (proj2 (Z.ltb_ge _ _)) by (unfold MAPT_MAX_LVL_INDEX; lia).
  destruct (at_link _ _ _ _ _ _ _ Hat) as (n & Hn & Hix & Hoff). pose proof (at_present _ _ _ _ _ _ _ Hat) as [blk Hblk].
  eapply wp_bind, wp_get_pre; [done|]. apply wp_bind, wp_load_block. rewrite Hix, Hblk.
  destruct Hin as (Hb & Hl & Hpg).
  destruct (level_index k b ltac:(lia) ltac:(lia)) as [-> Hbi]. destruct (level_index k l ltac:(lia) ltac:(lia)) as [-> Hli].
  rewrite !uwrap_small by lia. apply wp_bind, wp_get, wp_bind, quiet_if; [apply quiet_lvl|apply quiet_ret|].
  intros _ s1 C1 R1. rewrite Hoff.
  assert (b / cs k <= l / cs k) by (apply Z.div_le_mono; [apply cs_pos|lia]).
  eapply (wp_fill_loop k ltac:(lia) pre p id s loc T b l); try done; try lia.
  - intros cur q nb nl s2 loc2 id2 T2 Hk1 Hs2 Hat2 Hw2 Hv2. replace (level_of k + 1) with (4 - Z.of_nat k) by lia.
    apply IH; try done; lia.
  - by eapply at_ext.
  - rewrite C1. apply same_refl.
  - unfold grown, heads. rewrite (proj2 (Z.leb_le _ _)) by lia. lia.
  - intros j. by rewrite decide_False by lia.
Qed.
End Fill.

(** ** The configuration stays *)

Definition keeps {A} (m : M A) : Prop := forall s y s', m s = Some (y, s') -> expan (ctx s') = expan (ctx s).

Lemma keeps_ret {A} (y : A) : keeps (ret y).
Proof. by intros s ? ? [= _ <-]. Qed.
Lemma keeps_undefined {A} : keeps (@undefined A).
Proof. done. Qed.
Lemma keeps_get : keeps get.
Proof. by intros s ? ? [= _ <-]. Qed.
Lemma keeps_bind {A B} (m : M A) (f : A -> M B) : keeps m -> (forall y, keeps (f y)) -> keeps (bind m f).
Proof.
  intros Hm Hf s y s'. unfold bind. destruct (m s) as [[z s1]|] eqn:E; [|done]. intros H.
  rewrite (Hf z s1 y s' H). by apply (Hm s z s1).
Qed.
Lemma keeps_set_ctx f : (forall c, expan (f c) = expan c) -> keeps (set_ctx f).
Proof. intros H s y s' [= _ <-]. apply H. Qed.
Lemma keeps_lvl v : keeps (set_lvl v).
Proof. by intros s ? ? [= _ <-]. Qed.
Lemma keeps_head_flag v : keeps (set_head_flag v).
Proof. by intros s ? ? [= _ <-]. Qed.
Lemma keeps_ask answer : keeps (ask answer).
Proof. by intros s ? ? [= _ <-]. Qed.
Lemma keeps_gather r : keeps (update_ummu_gather r).
Proof. intros s y s'. unfold update_ummu_gather. destruct (_ <=? _); by intros [= _ <-]. Qed.
Lemma keeps_root n : keeps (set_node Root n).
Proof. by intros s ? ? [= _ <-]. Qed.
#[export] Hint Resolve keeps_ret keeps_undefined keeps_get keeps_set_ctx keeps_lvl keeps_head_flag keeps_ask
  keeps_gather keeps_root : perm.

Ltac keeps_tac :=
  repeat first [ apply keeps_bind; [|intros] | solve [auto with perm] | case_match | progress cbn beta iota zeta ].

Lemma keeps_load i : keeps (load_block i).
Proof. unfold load_block. keeps_tac. Qed.
#[export] Hint Resolve keeps_load : perm.
Lemma keeps_deref i : keeps (deref_block i).
Proof. unfold deref_block. keeps_tac. Qed.
Lemma keeps_store i b : keeps (store_block i b).
Proof. unfold store_block. auto with perm. Qed.
#[export] Hint Resolve keeps_deref keeps_store : perm.
Lemma keeps_get_node q : keeps (get_node q).
Proof. unfold get_node. keeps_tac. Qed.
Lemma keeps_set_node q n : keeps (set_node q n).
Proof. destruct q; [auto with perm|]. unfold set_node. keeps_tac. Qed.
#[export] Hint Resolve keeps_get_node keeps_set_node : perm.
Lemma keeps_modify q f : keeps (modify_node q f).
Proof. unfold modify_node. keeps_tac. Qed.
Lemma keeps_entry_cnt blk off n : keeps (ummu_modify_entry_cnt blk off n).
Proof. unfold ummu_modify_entry_cnt. keeps_tac. Qed.
Lemma keeps_plbi d nb nl level : keeps (ummu_table_type_switch_plbi d nb nl level).
Proof. unfold ummu_table_type_switch_plbi. keeps_tac. Qed.
#[export] Hint Resolve keeps_modify keeps_entry_cnt keeps_plbi : perm.
Lemma keeps_alloc_new answer i : keeps (ummu_alloc_new_mapt_block answer i).
Proof. unfold ummu_alloc_new_mapt_block. keeps_tac. Qed.
#[export] Hint Resolve keeps_alloc_new : perm.
Lemma keeps_alloc_level answer q blk : keeps (ummu_alloc_level_block answer q blk).
Proof. unfold ummu_alloc_level_block. keeps_tac. Qed.
#[export] Hint Resolve keeps_alloc_level : perm.

Section Keeps.
Context (answer : nat -> Z) (d : ummu_data_info).

Lemma keeps_fill_loop next level : (forall a q nb nl, keeps (next a q nb nl)) -> forall count i bi li pre blk off b l,
  keeps (fill_loop answer next d level count i bi li pre blk off b l).
Proof.
  intros Hn. induction count as [|count IH]; intros; cbn [fill_loop]; [auto with perm|].
  unfold ummu_table_fill_head_node_free_bit, ummu_table_fill_head_node, fill_descend. keeps_tac.
Qed.

Lemma keeps_fill (fuel : nat) : forall level pre b l, keeps (ummu_table_fill_node_by_level answer fuel d level pre b l).
Proof.
  induction fuel as [|fuel IH]; intros; cbn [ummu_table_fill_node_by_level]; [auto with perm|].
  pose proof (keeps_fill_loop (ummu_table_fill_node_by_level answer fuel d) level IH). keeps_tac.
Qed.
End Keeps.
