(* ===== verification/UmmuPermClear.v ===== *)
(** * Revoking in the permission table

    [ummu_table_clear_node_by_level] on the memory computes [rem] on the tree it represents.
    A level block that becomes empty is given back, and with it a block without level blocks
    in use; the node that designated it ([pre]) is changed by the callee, which is why the
    result distinguishes tables that are empty from those that are not. *)

From S2P Require Import Prelude UmmuQueue UmmuCmd UmmuPerm UmmuPermTree UmmuPermMem UmmuPermFill.

(** ** Giving a level block back *)

(** The level block [id] is no longer in use. *)
Definition crel (c : ummu_mapt_table_ctx) (id v : Z) : ummu_mapt_table_ctx :=
  set_bitmap (level_block_bitmap c ∖ {[ id ]}) (clvl c (id / 4) v).
(** The block [bi] is gone. *)
Definition cdrop (c : ummu_mapt_table_ctx) (bi : Z) : ummu_mapt_table_ctx :=
  set_block_cnt (u16 (block_cnt c - 1)) (set_xa (delete bi (xa c)) c).

Lemma dom_del (loc : gmap Z (list Z)) (id x : Z) : x ∈ dom (delete id loc) <-> x ∈ dom loc /\ x <> id.
Proof. rewrite dom_delete_L. set_solver. Qed.

Lemma used_del (loc : gmap Z (list Z)) (id bi : Z) : id ∈ dom loc ->
  used (dom loc) bi = used (dom (delete id loc)) bi + if decide (id / 4 = bi) then 1 else 0.
Proof.
  intros Hid. apply used_change.
  - intros y. rewrite dom_del. destruct (decide (y = id)); subst; intuition congruence.
  - rewrite dom_del. tauto.
Qed.

Lemma ginv_crel (c : ummu_mapt_table_ctx) loc id p b :
  ginv c loc -> loc !! id = Some p -> id <> 0 -> cnt c id = Some 0 ->
  (forall i, index_ok i -> nodeat c id i = zero_node) -> xa c !! (id / 4) = Some b ->
  ginv (crel c id (level_cnt b - 1)) (delete id loc).
Proof.
  intros H Hl Hne Hc Hz Hb. assert (Hd : id ∈ dom loc) by (by eapply elem_of_dom_2).
  unfold crel. split.
  - cbn. by rewrite (gi_bm _ _ H), dom_delete_L.
  - rewrite lookup_delete_ne by done. apply H.
  - intros id' p' Hl'. apply lookup_delete_Some in Hl' as [_ Hl']. apply (gi_loc _ _ H) in Hl' as [? Hp].
    split; [done|]. by rewrite <- (present_clvl c (id / 4) (level_cnt b - 1)) in Hp.
  - intros bi blk. cbn. rewrite lookup_alter. pose proof (used_del loc id bi Hd) as Hu. case_decide as E; intros Hbi.
    + subst bi. rewrite Hb in Hbi. injection Hbi as <-. cbn. destruct (gi_blk _ _ H _ _ Hb) as (? & ? & ? & ->).
      split_and!; try done; try lia. 
    + destruct (gi_blk _ _ H _ _ Hbi) as (? & ? & ? & ->). split_and!; try done; lia.
  - intros id' Hp Hnd.
    change (cnt (set_bitmap ?x ?y) id') with (cnt y id'). change (present (set_bitmap ?x ?y) id') with (present y id') in Hp.
    rewrite present_clvl in Hp. rewrite dom_del in Hnd. rewrite cnt_clvl.
    assert (Hn : forall i, nodeat (set_bitmap (level_block_bitmap c ∖ {[id]}) (clvl c (id / 4) (level_cnt b - 1))) id' i = nodeat c id' i)
      by (intros; apply nodeat_clvl).
    destruct (decide (id' = id)) as [-> |Hni].
    + split; [done|]. intros i Hi. rewrite Hn. by apply Hz.
    + destruct (gi_free _ _ H id' Hp ltac:(tauto)) as [Hc' Hz']. split; [done|]. intros i Hi. rewrite Hn. by apply Hz'.
  - cbn. rewrite (gi_cnt _ _ H). erewrite alter_is_insert by done. by rewrite map_size_insert_Some by (by exists b).
Qed.

Lemma unused (D : gset Z) (id : Z) : used D (id / 4) = 0 -> id ∉ D.
Proof.
  unfold used, bit. intros H Hin. pose proof (Z.div_mod id 4). pose proof (Z.mod_pos_bound id 4).
  assert (id = id / 4 * 4 \/ id = id / 4 * 4 + 1 \/ id = id / 4 * 4 + 2 \/ id = id / 4 * 4 + 3) as Hc by lia.
  destruct Hc as [E|[E|[E|E]]]; rewrite E in Hin; repeat case_decide; try done; lia.
Qed.

Lemma ginv_cdrop (c : ummu_mapt_table_ctx) loc bi b :
  ginv c loc -> xa c !! bi = Some b -> used (dom loc) bi = 0 -> ginv (cdrop c bi) loc.
Proof.
  intros H Hb Hu. assert (Hpr : forall id, id / 4 <> bi -> present (cdrop c bi) id <-> present c id).
  { intros id Hne. unfold present. cbn. by rewrite lookup_delete_ne by congruence. }
  assert (Hno : forall id, id ∈ dom loc -> id / 4 <> bi) by (intros id Hid <-; by apply unused in Hu).
  pose proof (xa_size _ _ H) as Hsz.
  split; try apply H.
  - intros id p Hl. destruct (gi_loc _ _ H id p Hl) as [? Hp]. split; [done|]. apply Hpr; [|done].
    by apply Hno; eapply elem_of_dom_2.
  - intros bi' blk. cbn. rewrite lookup_delete_Some. intros [_ Hb']. by apply (gi_blk _ _ H).
  - intros id Hp Hnd. assert (Hne : id / 4 <> bi).
    { intros <-. destruct Hp as [? Hp]. cbn in Hp. by rewrite lookup_delete_eq in Hp. }
    apply Hpr in Hp; [|done]. destruct (gi_free _ _ H id Hp Hnd) as [Hc Hz]. unfold cnt, nodeat in *. cbn.
    rewrite lookup_delete_ne by congruence. done.
  - cbn. rewrite (gi_cnt _ _ H), map_size_delete_Some by (by exists b).
    assert (size (xa c) <> 0%nat) by (intros E; apply map_size_empty_inv in E; by rewrite E, lookup_empty in Hb).
    rewrite uwrap_small; lia.
Qed.

(** A block that is not in use is not the only one: the root's is in use. *)
Lemma two_blocks (c : ummu_mapt_table_ctx) loc bi b :
  ginv c loc -> xa c !! bi = Some b -> used (dom loc) bi = 0 -> 1 < block_cnt c.
Proof.
  intros Hg Hb Hu. rewrite (gi_cnt _ _ Hg).
  destruct (gi_loc _ _ Hg 0 []) as [_ [b0 Hb0]]; [apply Hg|]. change (0 / 4) with 0 in Hb0.
  assert (Hn0 : bi <> 0).
  { intros ->. assert (H0 : 0 ∉ dom loc) by (by apply unused). apply H0. eapply elem_of_dom_2, Hg. }
  rewrite <- (insert_delete_id (xa c) 0 b0 Hb0). rewrite map_size_insert_None by apply lookup_delete_eq.
  assert (size (delete 0 (xa c)) <> 0%nat); [|lia].
  intros E. apply map_size_empty_inv in E. assert (Hx : delete 0 (xa c) !! bi = None) by (by rewrite E, lookup_empty).
  rewrite lookup_delete_ne in Hx by congruence. congruence.
Qed.

(** [ummu_free_level_block] for an empty level block; the root's stays. *)
Lemma wp_free_level (s : pstate) loc pre n id p :
  ginv (ctx s) loc -> live (ctx s) loc -> pnode s pre = Some n -> links n id -> loc !! id = Some p ->
  cnt (ctx s) id = Some 0 -> (forall i, index_ok i -> nodeat (ctx s) id i = zero_node) ->
  let loc' := if decide (id = 0) then loc else delete id loc in
  wp (ummu_free_level_block pre) s (fun _ s' => root s' = root s /\ ginv (ctx s') loc' /\ live (ctx s') loc' /\
    free_bit (ctx s') = free_bit (ctx s) /\
    forall id' q, loc' !! id' = Some q -> cnt (ctx s') id' = cnt (ctx s) id' /\
      forall i, nodeat (ctx s') id' i = nodeat (ctx s) id' i).
Proof.
  intros Hg Hlv Hn [Hix Hoff] Hl Hc Hz loc'. destruct (gi_loc _ _ Hg id p Hl) as [Hr [b Hb]].
  destruct (gi_blk _ _ Hg _ _ Hb) as (Hbi & Hid & Hlen & Hlc). pose proof (used_range (dom loc) (id / 4)) as Hur.
  unfold ummu_free_level_block. eapply wp_bind, wp_get_pre; [done|]. apply wp_bind, wp_load_block. rewrite Hix, Hoff, Hb.
  assert (Elvl : u32 (block_id b * MAPT_PER_LVL_BLOCK_CNT + 512 * (id mod 4) / MAPT_MAX_ENTRY_INDEX) = id).
  { rewrite Hid. change MAPT_PER_LVL_BLOCK_CNT with 4. change MAPT_MAX_ENTRY_INDEX with 512.
    rewrite (Z.mul_comm 512), Z.div_mul by lia. pose proof (Z.div_mod id 4). rewrite uwrap_small; lia. }
  rewrite Elvl. unfold loc'. destruct (decide (id = 0)) as [-> |Hne].
  - cbn [ctrue Z.eqb negb]. apply wp_bind, wp_ret, wp_bind, wp_get. rewrite Hlc.
    assert (0 < used (dom loc) (0 / 4)) by (apply Hlv; by exists b).
    rewrite (proj2 (Z.eqb_neq _ 0)) by lia. cbn [andb]. by apply wp_ret.
  - assert (ctrue id = true) as -> by (by apply ctrue_nz).
    assert (Hd : id ∈ dom loc) by (by eapply elem_of_dom_2). pose proof (used_del loc id (id / 4) Hd) as Hu.
    rewrite decide_True in Hu by done. pose proof (used_range (dom (delete id loc)) (id / 4)).
    apply wp_bind, wp_bind, wp_store_block, wp_set_ctx, wp_bind, wp_get. cbn [level_cnt set_level_cnt].
    rewrite Hlc, uwrap_small by lia. set (s1 := with_ctx (with_ctx s _) _).
    assert (C1 : ctx s1 = crel (ctx s) id (level_cnt b - 1)).
    { unfold s1, crel, clvl. cbn. rewrite Hlc. by erewrite alter_is_insert by done. }
    assert (R1 : root s1 = root s) by done. assert (F1 : free_bit (ctx s1) = free_bit (ctx s)) by done. clearbody s1.
    pose proof (ginv_crel _ _ _ _ _ Hg Hl Hne Hc Hz Hb) as Hg1. rewrite <- C1 in Hg1.
    assert (Hsame : forall id', cnt (ctx s1) id' = cnt (ctx s) id' /\ forall i, nodeat (ctx s1) id' i = nodeat (ctx s) id' i).
    { intros id'. rewrite C1. split; [apply cnt_clvl|]. intros. apply nodeat_clvl. }
    assert (Hlv1 : forall bi, is_Some (xa (ctx s1) !! bi) -> bi <> id / 4 -> 0 < used (dom (delete id loc)) bi).
    { intros bi Hbi1 Hnb. rewrite C1 in Hbi1. cbn in Hbi1. rewrite lookup_alter_is_Some in Hbi1. apply Hlv in Hbi1.
      pose proof (used_del loc id bi Hd) as Hu2. rewrite decide_False in Hu2 by congruence. lia. }
    assert (Hb1 : xa (ctx s1) !! (id / 4) = Some (set_level_cnt b (level_cnt b - 1))).
    { rewrite C1. cbn. by rewrite lookup_alter_eq, Hb. }
    destruct (Z.eqb_spec (used (dom loc) (id / 4) - 1) 0) as [E0|E0].
    + assert (Hbc : 1 < block_cnt (ctx s1)) by (eapply two_blocks; [exact Hg1|done|lia]).
      rewrite (proj2 (Z.ltb_lt _ _)) by done. cbn [andb]. apply wp_bind, wp_set_ctx, wp_set_ctx. rewrite Hid.
      set (s2 := with_ctx _ _). assert (C2 : ctx s2 = cdrop (ctx s1) (id / 4)) by done.
      assert (R2 : root s2 = root s1) by done. assert (F2 : free_bit (ctx s2) = free_bit (ctx s1)) by done. clearbody s2.
      rewrite C2, R2. rewrite C2 in F2. split_and!; try done; try congruence.
      * eapply ginv_cdrop; [done|done|lia].
      * intros bi Hbi1. cbn in Hbi1. apply lookup_delete_is_Some in Hbi1 as [Hnb Hbi1]. apply Hlv1; [done|congruence].
      * intros id' q Hl'. destruct (Hsame id') as [<- Hn']. 
        assert (id' / 4 <> id / 4).
        { intros E. assert (H0 : used (dom (delete id loc)) (id' / 4) = 0) by (rewrite E; lia). apply unused in H0.
          apply H0. by eapply elem_of_dom_2. }
        unfold cnt, nodeat, cdrop in *. cbn. rewrite lookup_delete_ne by congruence. split; [done|]. intros i. by rewrite <- Hn'.
    + cbn [andb]. apply wp_ret. split_and!; try done. intros bi Hbi1. destruct (decide (bi = id / 4)) as [-> |]; [lia|by apply Hlv1].
Qed.

(** ** Tables that may have become empty *)

(** The node of a table that was given back. *)
Definition unlinked (n : node) : node := set_next (set_type n true) false 0 0 0.

(** The table was reached from [pre], which was [n], and is empty now: the root's level block
    is still there; another one was given back and [pre] no longer designates it. *)
Definition emptied (k : nat) (s : pstate) (loc : gmap Z (list Z)) (pre : nptr) (p : list Z) (n : node)
    (s' : pstate) (loc' : gmap Z (list Z)) : Prop :=
  ginv (ctx s') loc' /\ live (ctx s') loc' /\ free_bit (ctx s') = free_bit (ctx s) /\
  match pre with
  | Root => rep k (ctx s') loc' [] 0 ∅
  | _ => exists idp ip pp, pre = ptr_of idp ip /\ index_ok ip /\ loc !! idp = Some pp /\ p = pp ++ [ip] /\
      root s' = root s /\ cell_frame pp idp ip (ctx s) loc (ctx s') loc' /\
      cnt (ctx s') idp = cnt (ctx s) idp /\ nodeat (ctx s') idp ip = unlinked n /\
      forall id' q, loc' !! id' = Some q -> ~ below p q
  end.

Definition tab_post (k : nat) (s : pstate) (loc : gmap Z (list Z)) (pre : nptr) (p : list Z) (id : Z)
    (n : node) (T' : tbl) (s' : pstate) : Prop := exists loc',
  (T' <> ∅ /\ at_table k s' loc' pre p id T' /\ same_out p (ctx s) loc (ctx s') loc' /\ root s' = root s) \/
  (T' = ∅ /\ emptied k s loc pre p n s' loc').

Lemma node_ptr_inj (id i id' i' : Z) : index_ok i -> index_ok i' -> ptr_of id i = ptr_of id' i' -> id = id' /\ i = i'.
Proof. intros Hi Hi' [= E1 E2]. by apply index_inj. Qed.

Lemma same_out_frame pp idp ip c loc c1 loc1 c2 loc2 :
  same_out (pp ++ [ip]) c loc c1 loc1 -> cell_frame pp idp ip c1 loc1 c2 loc2 -> cell_frame pp idp ip c loc c2 loc2.
Proof. intros H1 H2. eapply cf_trans; [|exact H2]. by apply cf_same. Qed.

(** What happened before in the same table does not matter. *)
Lemma tab_post_trans (k : nat) (s s1 : pstate) loc loc1 pre p id n T' s' :
  pre_ok loc pre p id -> same_out p (ctx s) loc (ctx s1) loc1 -> root s1 = root s ->
  tab_post k s1 loc1 pre p id n T' s' -> tab_post k s loc pre p id n T' s'.
Proof.
  intros Hpre Hso Hr (loc' & [(Hne & Hat & Hso' & Hr')|(-> & Hg & Hlv & Hf & Hem)]); exists loc'.
  - left. split_and!; [done|done| |congruence]. by eapply same_trans.
  - right. split; [done|]. split_and!; [done|done|rewrite Hf; apply Hso|]. destruct pre as [|bk of']; [done|].
    destruct Hem as (idp & ip & pp & E & Hi & Hl & -> & Hr' & Hcf & Hc & Hn & Hno).
    destruct Hpre as [[? _]|(idp0 & ip0 & pp0 & E0 & Hi0 & Hl0 & E1)]; [done|].
    rewrite E0 in E. apply node_ptr_inj in E as [<- <-]; [|done..]. apply app_inj_tail in E1 as [<- _].
    exists idp0, ip0, pp. split_and!; try done; [congruence|by eapply same_out_frame|].
    rewrite Hc. destruct Hso as (_ & Hso & _). by destruct (Hso idp0 pp Hl0 (not_below_self pp ip0)) as (_ & -> & _).
Qed.

Lemma links_index (n : node) (id i : Z) : links n id -> At (next_lv_index n) (node_offset n + i) = ptr_of id i.
Proof. intros [-> ->]. done. Qed.

(** The count of a level block as the code reads it. *)
Lemma wp_deref_cnt {A} (s : pstate) (id v : Z) (f : Z -> M A) (Q : A -> pstate -> Prop) :
  cnt (ctx s) id = Some v -> wp (f v) s Q ->
  wp (b <-- deref_block (id / 4) ;;
      match level_entry_cnt b !! Z.to_nat (512 * (id mod 4) / MAPT_MAX_ENTRY_INDEX) with
      | None => undefined | Some c => f c end) s Q.
Proof.
  unfold cnt. intros Hc HQ. destruct (xa (ctx s) !! (id / 4)) as [b|] eqn:Hb; [|done].
  apply wp_bind. eapply wp_deref_block; [done|].
  replace (512 * (id mod 4) / MAPT_MAX_ENTRY_INDEX) with (id mod 4)
    by (change MAPT_MAX_ENTRY_INDEX with 512; rewrite Z.mul_comm, Z.div_mul; lia). by rewrite Hc.
Qed.

(** An empty table is given back. *)
Lemma wp_release (k : nat) (s : pstate) loc pre p id n :
  at_table (S k) s loc pre p id ∅ -> pnode s pre = Some n ->
  wp (ummu_free_level_block pre ;;; modify_node pre (fun n => set_next (set_type n true) false 0 0 0)) s
    (fun _ s' => tab_post (S k) s loc pre p id n ∅ s').
Proof.
  intros Hat Hn. pose proof (at_loc _ _ _ _ _ _ _ Hat) as Hl. destruct Hat as [Hg Hlv Hpre (n1 & Hn1 & Hlk) (_ & Hc & _ & Hz & Hcov)].
  replace n1 with n in * by congruence. rewrite map_size_empty in Hc.
  assert (Hz' : forall i, index_ok i -> nodeat (ctx s) id i = zero_node).
  { intros i Hi. specialize (Hz i Hi). by rewrite lookup_empty in Hz. }
  apply wp_bind. eapply wp_mono; [by eapply wp_free_level|]. intros _ s1 (R1 & Hg1 & Hlv1 & F1 & Hsame).
  destruct Hpre as [(-> & -> & ->)|(idp & ip & pp & -> & Hi & Hlp & ->)].
  - rewrite decide_True in * by done. destruct (Hsame 0 [] Hl) as [Hc0 Hn0].
    eapply wp_bind, (wp_get_pre s1 Root); [done|]. exists loc. right. split; [done|]. split_and!; [done..|].
    cbn [rep]. split_and!; [done|cbn [ctx]; by rewrite Hc0, Hc, map_size_empty| | |].
    + intros i [c0 Hx]. by rewrite lookup_empty in Hx.
    + intros i Hi. rewrite lookup_empty. cbn [ctx cell_rep]. rewrite Hn0. by apply Hz'.
    + exact Hcov.
  - assert (Hid : id <> 0).
    { intros ->. rewrite (gi_root _ _ Hg) in Hl. injection Hl as Hl. by apply app_cons_not_nil in Hl. }
    rewrite decide_False in * by done.
    assert (Hne : idp <> id).
    { intros ->. rewrite Hl in Hlp. injection Hlp as E. apply (not_below_self pp ip). exists []. rewrite app_nil_r. congruence. }
    assert (Hlp1 : delete id loc !! idp = Some pp) by (by rewrite lookup_delete_ne).
    pose proof (gi_present _ _ _ _ Hg1 Hlp1) as Hp1. destruct (Hsame idp pp Hlp1) as [Hcp Hnp].
    assert (En : nodeat (ctx s1) idp ip = n).
    { rewrite Hnp. rewrite pnode_at in Hn by (done || by eapply gi_present). congruence. }
    apply wp_modify_node; [done..|]. rewrite En. exists (delete id loc). right. split; [done|].
    unfold emptied. cbn [ctx with_ctx root]. split_and!; [by eapply ginv_cset|by apply live_cset|done|].
    exists idp, ip, pp. rewrite cnt_cset, nodeat_cset, decide_True by done. split_and!; try done.
    + eapply cf_trans; [|by apply cf_cset]. split_and!; [done| |by intros id' q [_ ?]%lookup_delete_Some].
      intros id' q Hl' Hq.
      assert (id' <> id).
      { intros ->. apply Hq. rewrite Hl in Hl'. injection Hl' as <-. exists []. by rewrite app_nil_r. }
      assert (Hl2 : delete id loc !! id' = Some q) by (by rewrite lookup_delete_ne).
      destruct (Hsame id' q Hl2) as [? ?]. by split_and!.
    + intros id' q [Hni Hl']%lookup_delete_Some Hq.
      destruct (Hcov id' q Hl' Hq) as [[_ ->]|(j & o & T1 & _ & E)]; [done|]. by rewrite lookup_empty in E.
Qed.

(** ** Revoking in one cell *)

Section Clear.
Context (d : ummu_data_info).

Section Step.
Context (k : nat) (Hk : (k < 4)%nat) (pre : nptr) (p : list Z) (id i : Z) (Hi : index_ok i) (n0 : node).

(** [ummu_table_clear_node] removes a cell without a table below it, *)
Lemma wp_clear_leaf (s : pstate) loc T o :
  at_table (S k) s loc pre p id T -> pnode s pre = Some n0 -> T !! i = Some (Cell o None) ->
  wp (ummu_table_clear_node (ptr_of id i) pre) s (fun _ s' => tab_post (S k) s loc pre p id n0 (delete i T) s').
Proof.
  intros Hat Hn0 HT. pose proof (at_present _ _ _ _ _ _ _ Hat) as Hp. pose proof (at_loc _ _ _ _ _ _ _ Hat) as Hl.
  pose proof (at_rep _ _ _ _ _ _ _ Hat) as Hrep. pose proof (rep_small _ _ _ _ _ _ Hrep) as Hsz. pose proof Hrep as (_ & Hc & _ & _).
  pose proof (rep_cells _ _ _ _ _ _ i Hrep Hi) as Hcell. rewrite HT in Hcell. destruct Hcell as (_ & _ & Hty).
  destruct (at_link _ _ _ _ _ _ _ Hat) as (n & Hn & Hix & Hoff). replace n with n0 in * by congruence.
  assert (Hs1 : size T = S (size (delete i T))).
  { rewrite <- (insert_delete_id T i _ HT) at 1. by rewrite map_size_insert_None by apply lookup_delete_eq. }
  destruct Hp as [b Hb]. unfold ummu_table_clear_node. eapply wp_bind, wp_get_pre; [done|].
  apply wp_bind, wp_load_block. rewrite Hix, Hoff, Hb. assert (Hp : present (ctx s) id) by (by exists b).
  apply wp_bind, wp_get_node; [done..|]. rewrite Hty. apply wp_bind, wp_set_node; [done..|].
  apply wp_bind. eapply wp_entry_cnt; [cbn [ctx with_ctx]; by rewrite cnt_cset|by right|lia|].
  assert (E1 : Z.of_nat (size T) + -1 = Z.of_nat (size (delete i T))) by (rewrite Hs1; lia).
  rewrite E1. set (s1 := with_ctx _ _).
  assert (C1 : ctx s1 = ccnt (cset (ctx s) id i zero_node) id (Z.of_nat (size (delete i T)))) by done.
  assert (R1 : root s1 = root s) by done. clearbody s1.
  destruct (at_cell k pre p id i Hi s loc T s1 loc (delete i T) Hat) as [Hat' Hso]; rewrite ?C1.
  - eapply ginv_ccnt; [|done]. eapply ginv_cset; [apply Hat|done|done].
  - apply live_ccnt, live_cset, Hat.
  - done.
  - eapply cf_trans; [by apply cf_cset|]. apply cf_ccnt. rewrite cnt_cset. by rewrite Hc.
  - by rewrite cnt_ccnt, decide_True by (rewrite ?cnt_cset, ?Hc; done).
  - intros j Hj. by rewrite lookup_delete_ne.
  - intros id' q Hl' Hq. exfalso. eapply (no_block_below p id i k); [exact Hrep| |done|done].
    intros o' T1'. by rewrite HT.
  - rewrite lookup_delete_eq, nodeat_ccnt, nodeat_cset, decide_True by done. done.
  - destruct (pnode_keep s s1 loc loc pre p id) as [Hn1 _]; try done; [apply Hat|apply Hat'|apply Hat|].
    eapply wp_deref_cnt; [apply (at_rep _ _ _ _ _ _ _ Hat')|].
    destruct (Z.eqb_spec (Z.of_nat (size (delete i T))) 0) as [E|E].
    + assert (ET : delete i T = ∅) by (apply map_size_empty_inv; lia). rewrite ET in *.
      eapply wp_mono; [by eapply wp_release; [|rewrite Hn1]|]. intros ? s2 Hpost. eapply tab_post_trans; [apply Hat|done|done|done].
    + apply wp_ret. exists loc. left. split_and!; try done. intros ET. rewrite ET, map_size_empty in E. done.
Qed.

(** and leaves one with a table alone. *)
Lemma wp_clear_branch (s : pstate) loc T o T1 (Q : unit -> pstate -> Prop) :
  at_table (S k) s loc pre p id T -> T !! i = Some (Cell o (Some T1)) -> Q tt s ->
  wp (ummu_table_clear_node (ptr_of id i) pre) s Q.
Proof.
  intros Hat HT HQ. pose proof (at_present _ _ _ _ _ _ _ Hat) as Hp.
  pose proof (rep_cells _ _ _ _ _ _ i (at_rep _ _ _ _ _ _ _ Hat) Hi) as Hcell. rewrite HT in Hcell. destruct Hcell as (_ & _ & Hty & _).
  destruct (at_link _ _ _ _ _ _ _ Hat) as (n & Hn & Hix & Hoff). destruct Hp as [b Hb]. unfold ummu_table_clear_node.
  eapply wp_bind, wp_get_pre; [done|]. apply wp_bind, wp_load_block. rewrite Hix, Hb.
  apply wp_bind, wp_get_node; [by exists b|done|]. rewrite Hty. by apply wp_ret.
Qed.

(** A node of the cell written over, with the same table below. *)
Lemma at_set_own (s s1 : pstate) loc T o T1 o' n' :
  at_table (S k) s loc pre p id T -> T !! i = Some (Cell o (Some T1)) ->
  ctx s1 = cset (ctx s) id i n' -> root s1 = root s ->
  valid n' = true -> own_rep (free_bit (ctx s)) n' o' -> type n' = false ->
  next_lv_index n' = next_lv_index (nodeat (ctx s) id i) -> node_offset n' = node_offset (nodeat (ctx s) id i) ->
  at_table (S k) s1 loc pre p id (<[i := Cell o' (Some T1)]> T) /\ same_out p (ctx s) loc (ctx s1) loc.
Proof.
  intros Hat HT C1 R1 Hv Ho Hty Hix Hoff. pose proof (at_present _ _ _ _ _ _ _ Hat) as Hp. pose proof (at_loc _ _ _ _ _ _ _ Hat) as Hl.
  pose proof (at_rep _ _ _ _ _ _ _ Hat) as Hrep. pose proof Hrep as (_ & Hc & _ & _).
  pose proof (rep_cells _ _ _ _ _ _ i Hrep Hi) as Hcell. rewrite HT in Hcell. destruct Hcell as (_ & _ & _ & id1 & [L1 L2] & Hr1).
  apply (at_cell k pre p id i Hi s loc T s1 loc); rewrite ?C1; try done.
  - eapply ginv_cset; [apply Hat|done|done].
  - apply live_cset, Hat.
  - by apply cf_cset.
  - rewrite cnt_cset, Hc. by rewrite map_size_insert_Some.
  - intros j Hj. by rewrite lookup_insert_ne.
  - intros. exists o', T1. by rewrite lookup_insert_eq.
  - rewrite lookup_insert_eq, nodeat_cset, decide_True by done. split_and!; [done|done|done|].
    exists id1. split; [split; congruence|]. eapply (rep_frame k (fun q => below (p ++ [i]) q)); [|done|exact Hr1].
    split_and!; [done| |done]. intros id' q Hl' Hb. rewrite cnt_cset. split_and!; [done..|]. intros j Hj.
    rewrite nodeat_cset by done. rewrite decide_False; [done|]. intros [-> _]. replace q with p in Hb by congruence.
    by apply not_below_self in Hb.
Qed.

Lemma tab_post_ext (s s1 s2 : pstate) loc T' :
  ctx s2 = ctx s1 -> root s2 = root s1 ->
  tab_post (S k) s loc pre p id n0 T' s1 -> tab_post (S k) s loc pre p id n0 T' s2.
Proof.
  intros Hc Hr (loc' & H). exists loc'. destruct H as [(H1 & H2 & H3 & H4)|(H1 & H2)].
  - left. split_and!; [done|by eapply at_ext|by rewrite Hc|congruence].
  - right. split; [done|]. unfold emptied in *. rewrite Hc, Hr. done.
Qed.

Section Head.
Context (clear_next : Z -> nptr -> Z -> Z -> M Z) (level nb nl : Z) (rsafe : tbl -> Prop).
Hypothesis clear_next_ok : forall s1 loc1 id1 T1 n1,
  at_table k s1 loc1 (ptr_of id i) (p ++ [i]) id1 T1 -> pnode s1 (ptr_of id i) = Some n1 -> T1 <> ∅ -> rsafe T1 ->
  wp (clear_next (level + 1) (ptr_of id i) nb nl) s1 (fun r s' =>
    (r = 0 <-> snd (rem k T1 nb nl) = true) /\
    tab_post k s1 loc1 (ptr_of id i) (p ++ [i]) id1 n1 (fst (rem k T1 nb nl)) s').
Context (s : pstate) (loc : gmap Z (list Z)) (T : tbl).
Hypothesis Hat : at_table (S k) s loc pre p id T.
Hypothesis Hn0 : pnode s pre = Some n0.

(** Going down. *)
Lemma wp_below (o : option rng) (T1 : tbl) : T !! i = Some (Cell o (Some T1)) -> T1 <> ∅ -> rsafe T1 ->
  wp (clear_next (level + 1) (ptr_of id i) nb nl) s (fun r s1 =>
    (r = 0 <-> snd (rem k T1 nb nl) = true) /\ exists loc1,
    at_table (S k) s1 loc1 pre p id (<[i := Cell o (shrink (fst (rem k T1 nb nl)))]> T) /\
    same_out p (ctx s) loc (ctx s1) loc1 /\ root s1 = root s /\ pnode s1 pre = Some n0).
Proof.
  intros HT Hne Hs. pose proof (at_present _ _ _ _ _ _ _ Hat) as Hp. pose proof (at_loc _ _ _ _ _ _ _ Hat) as Hl.
  pose proof (at_rep _ _ _ _ _ _ _ Hat) as Hrep. pose proof Hrep as (_ & Hc & _ & _).
  pose proof (rep_cells _ _ _ _ _ _ i Hrep Hi) as Hcell. rewrite HT in Hcell. destruct Hcell as (Hv & Ho & Hty & id1 & Hlk & Hr1).
  set (n := nodeat (ctx s) id i) in *.
  assert (Hat1 : at_table k s loc (ptr_of id i) (p ++ [i]) id1 T1).
  { split; [apply Hat|apply Hat|right; by exists id, i, p| |done]. exists n. split; [by apply pnode_at|done]. }
  eapply wp_mono; [eapply (clear_next_ok s loc id1 T1 n); [done|by apply pnode_at|done|done]|].
  intros r s1 [Hr (loc1 & Hpost)]. split; [done|]. exists loc1. set (T2 := fst (rem k T1 nb nl)) in *.
  assert (Hfin : at_table (S k) s1 loc1 pre p id (<[i := Cell o (shrink T2)]> T) /\ same_out p (ctx s) loc (ctx s1) loc1 /\ root s1 = root s).
  { destruct Hpost as [(HT2 & Hat2 & Hso & R1)|(HT2 & Hg & Hlv & Hf & Hem)].
    - unfold shrink. rewrite bool_decide_false by done. destruct (proj1 (proj2 Hso) id p Hl (not_below_self p i)) as (Hl' & Hc' & Hn').
      destruct (at_cell k pre p id i Hi s loc T s1 loc1 (<[i := Cell o (Some T2)]> T) Hat) as [? ?]; try done.
      + apply Hat2.
      + apply Hat2.
      + by apply cf_same.
      + rewrite Hc', Hc. by rewrite map_size_insert_Some.
      + intros j Hj. by rewrite lookup_insert_ne.
      + intros. exists o, T2. by rewrite lookup_insert_eq.
      + rewrite lookup_insert_eq, Hn' by done. fold n. destruct Hso as (-> & _). split_and!; try done.
        exists id1. split; [done|]. apply Hat2.
    - unfold shrink. rewrite bool_decide_true by done. destruct Hem as (idp & ip & pp & E & Hi' & Hl' & E' & R1 & Hcf & Hc' & Hn' & Hno).
      apply node_ptr_inj in E as [<- <-]; [|done..]. apply app_inj_tail in E' as [<- _].
      destruct (at_cell k pre p id i Hi s loc T s1 loc1 (<[i := Cell o None]> T) Hat) as [? ?]; try done.
      + rewrite Hc', Hc. by rewrite map_size_insert_Some.
      + intros j Hj. by rewrite lookup_insert_ne.
      + intros id' q Hl2 Hq. by apply Hno in Hl2.
      + rewrite lookup_insert_eq, Hn', Hf by done. by split_and!. }
  destruct Hfin as (Hat' & Hso & R1). split_and!; try done.
  destruct (pnode_keep s s1 loc loc1 pre p id) as [-> _]; try done; [apply Hat|apply Hat'|apply Hat].
Qed.

(** What the step on a cell ends with. *)
Definition clr_post (mid : bool) (r : Z) (s' : pstate) : Prop :=
  let q := rem_cell (rem k) mid nb nl (T !! i) in
  (r = 0 <-> snd q = true) /\ tab_post (S k) s loc pre p id n0 (partial_alter (fun _ => fst q) i T) s'.

Lemma not_empty (T0 : tbl) (c : cell) : T0 !! i = Some c -> T0 <> ∅.
Proof. intros H ->. by rewrite lookup_empty in H. Qed.

Lemma put_not_empty (T0 : tbl) (c : cell) : partial_alter (fun _ => Some c) i T0 <> ∅.
Proof. apply (not_empty _ c). apply lookup_partial_alter_eq. Qed.

Lemma clr_same (mid : bool) (r : Z) : T <> ∅ ->
  (r = 0 <-> snd (rem_cell (rem k) mid nb nl (T !! i)) = true) -> fst (rem_cell (rem k) mid nb nl (T !! i)) = T !! i ->
  clr_post mid r s.
Proof.
  intros Hne Hr Hf. split; [done|]. rewrite Hf, partial_alter_self. exists loc. left. by split_and!.
Qed.

Lemma clr_leaf (mid : bool) (o : option rng) : T !! i = Some (Cell o None) ->
  rem_cell (rem k) mid nb nl (T !! i) = (None, true) ->
  wp (ummu_table_clear_node (ptr_of id i) pre ;;; ret 0) s (clr_post mid).
Proof.
  intros HT E. apply wp_bind. eapply wp_mono; [by eapply wp_clear_leaf|]. intros ? s1 H1. apply wp_ret.
  unfold clr_post. by rewrite E.
Qed.

Lemma type_of_cell (s1 : pstate) loc1 T1 o s0 : at_table (S k) s1 loc1 pre p id T1 -> T1 !! i = Some (Cell o s0) ->
  type (nodeat (ctx s1) id i) = match s0 with None => true | Some _ => false end.
Proof.
  intros Hat1 HT1. pose proof (rep_cells _ _ _ _ _ _ i (at_rep _ _ _ _ _ _ _ Hat1) Hi) as Hc. rewrite HT1 in Hc.
  destruct Hc as (_ & _ & Hc). destruct s0; [by destruct Hc|done].
Qed.

(** The range was in the table below a cell without one of its own, *)
Lemma clr_none (m : M unit) (T1 : tbl) : quiet m -> T !! i = Some (Cell None (Some T1)) -> T1 <> ∅ -> rsafe T1 ->
  wp (r <-- clear_next (level + 1) (ptr_of id i) nb nl ;;
      n' <-- get_node (ptr_of id i) ;;
      (if type n' then ummu_table_clear_node (ptr_of id i) pre ;;; m else ret tt) ;;; ret r) s (clr_post false).
Proof.
  intros Hm HT Hne Hs. apply wp_bind. eapply wp_mono; [by eapply wp_below|].
  intros r s1 (Hr & loc1 & Hat1 & Hso & R1 & Hn1). apply wp_bind, wp_get_node; [by eapply at_present|done|].
  rewrite (type_of_cell s1 loc1 _ _ _ Hat1 (lookup_insert_eq _ _ _)). unfold clr_post. rewrite HT. cbn [rem_cell].
  destruct (rem k T1 nb nl) as [T2 ok]. cbn [fst snd] in *. unfold shrink in *. case_bool_decide as E.
  - apply wp_bind, wp_bind. eapply wp_mono; [eapply (wp_clear_leaf s1 loc1); [done|done|apply lookup_insert_eq]|].
    intros ? s2 H2. apply Hm. intros ? s3 C3 R3. apply wp_ret. split; [done|].
    rewrite delete_insert_eq in H2. eapply tab_post_ext; [done..|]. eapply tab_post_trans; [apply Hat|done|done|]. exact H2.
  - apply wp_bind, wp_ret, wp_ret. split; [done|]. exists loc1. left. split_and!; try done.
    apply put_not_empty.
Qed.

(** or below one with another range. *)
Lemma clr_other (m : M unit) (g : rng) (T1 : tbl) : quiet m -> T !! i = Some (Cell (Some g) (Some T1)) ->
  (rb g =? nb) && (rl g =? nl) = false -> T1 <> ∅ -> rsafe T1 ->
  wp (r <-- clear_next (level + 1) (ptr_of id i) nb nl ;;
      n' <-- get_node (ptr_of id i) ;; (if type n' then m else ret tt) ;;; ret r) s (clr_post false).
Proof.
  intros Hm HT Hg Hne Hs. apply wp_bind. eapply wp_mono; [by eapply wp_below|].
  intros r s1 (Hr & loc1 & Hat1 & Hso & R1 & Hn1). apply wp_bind, wp_get_node; [by eapply at_present|done|].
  apply wp_bind, quiet_if; [done|apply quiet_ret|]. intros ? s2 C2 R2. apply wp_ret.
  unfold clr_post. rewrite HT. cbn [rem_cell]. rewrite Hg.
  destruct (rem k T1 nb nl) as [T2 ok]. cbn [fst snd] in *. split; [done|]. eapply tab_post_ext; [done..|].
  exists loc1. left. split_and!; try done. apply put_not_empty.
Qed.

(** The range is the cell's own, and there is a table below. *)
Lemma clr_own (g : rng) (T1 : tbl) (n' : node) : T !! i = Some (Cell (Some g) (Some T1)) ->
  (rb g =? nb) && (rl g =? nl) = true ->
  valid n' = true -> own_rep (free_bit (ctx s)) n' None -> type n' = false ->
  next_lv_index n' = next_lv_index (nodeat (ctx s) id i) -> node_offset n' = node_offset (nodeat (ctx s) id i) ->
  wp (set_node (ptr_of id i) n' ;;; ret 0) s (clr_post false).
Proof.
  intros HT Hg Hv Ho Hty Hix Hoff. apply wp_bind, wp_set_node; [by eapply at_present|done|]. apply wp_ret.
  set (s1 := with_ctx _ _).
  destruct (at_set_own s s1 loc T (Some g) T1 None n') as [Hat1 Hso]; try done.
  unfold clr_post. rewrite HT. cbn [rem_cell]. rewrite Hg. split; [done|]. exists loc. left. split_and!; try done.
  apply put_not_empty.
Qed.

(** ** The functions of the loop *)

Hypothesis Hsafe : forall o T1, T !! i = Some (Cell o (Some T1)) ->
  (forall g, o = Some g -> (rb g =? nb) && (rl g =? nl) = false) -> T1 <> ∅ /\ rsafe T1.

Lemma wp_clear_head (fb : bool) (c : cell) : fb = free_bit (ctx s) -> T !! i = Some c ->
  wp (if fb then ummu_table_clear_head_node_free_bit clear_next d level pre (ptr_of id i) nb nl
      else ummu_table_clear_head_node clear_next d level pre (ptr_of id i) nb nl) s (clr_post false).
Proof.
  intros -> HT. pose proof (at_present _ _ _ _ _ _ _ Hat) as Hp. pose proof (at_rep _ _ _ _ _ _ _ Hat) as Hrep.
  pose proof (rep_cells _ _ _ _ _ _ i Hrep Hi) as Hcell. pose proof (not_empty T c HT) as Hne.
  unfold ummu_table_clear_head_node_free_bit, ummu_table_clear_head_node.
  destruct c as [[g|] s0]; rewrite HT in Hcell; destruct Hcell as (Hv & Ho & Hs); pose proof (type_of_cell s loc T _ _ Hat HT) as Hty.
  - destruct Ho as (Hu & Hb & Hl & Ha).
    assert (Hbody : wp (if (node_base (nodeat (ctx s) id i) =? nb) && (node_limit (nodeat (ctx s) id i) =? nl) then
        if negb (type (nodeat (ctx s) id i)) then
          set_node (ptr_of id i) ((if free_bit (ctx s) then set_f_bit else drop_range) (nodeat (ctx s) id i)) ;;; ret 0
        else ummu_table_clear_node (ptr_of id i) pre ;;; ret 0
      else if type (nodeat (ctx s) id i) then ret (- EINVAL)
      else r <-- clear_next (level + 1) (ptr_of id i) nb nl ;;
           n' <-- get_node (ptr_of id i) ;;
           (if type n' then ummu_table_type_switch_plbi d (node_base (nodeat (ctx s) id i)) (node_limit (nodeat (ctx s) id i)) level
            else ret tt) ;;; ret r) s (clr_post false)).
    { rewrite Hb, Hl, Hty. destruct ((rb g =? nb) && (rl g =? nl)) eqn:Hm; destruct s0 as [T1|]; cbn [negb].
      - eapply clr_own; try done; destruct (free_bit (ctx s)); done.
      - eapply clr_leaf; [done|]. rewrite HT. cbn. by rewrite Hm.
      - destruct (Hsafe (Some g) T1 HT) as [H1 H2]; [by intros ? [= <-]|]. eapply clr_other; try done. apply quiet_plbi.
      - apply wp_ret. apply clr_same; rewrite ?HT; cbn; rewrite ?Hm; done. }
    destruct (free_bit (ctx s)); apply wp_bind, wp_get_node; try done.
    + cbn in Hu. apply negb_true_iff in Hu. rewrite Hu. exact Hbody.
    + cbn in Hu. rewrite <- negb_orb, Hu. exact Hbody.
  - destruct (free_bit (ctx s)); apply wp_bind, wp_get_node; try done; cbn in Ho.
    + apply negb_false_iff in Ho. rewrite Ho, Hty. destruct s0 as [T1|].
      * destruct (Hsafe None T1 HT) as [H1 H2]; [done|]. eapply clr_none; try done. apply quiet_gather.
      * apply wp_ret. by apply clr_same; rewrite ?HT.
    + rewrite <- negb_orb, Ho, Hty. destruct s0 as [T1|].
      * destruct (Hsafe None T1 HT) as [H1 H2]; [done|]. eapply clr_none; try done. apply quiet_plbi.
      * apply wp_ret. by apply clr_same; rewrite ?HT.
Qed.

Lemma wp_clear_middle (c : cell) : T !! i = Some c ->
  wp (ummu_table_clear_node (ptr_of id i) pre ;;; ret 0) s (clr_post true).
Proof.
  intros HT. destruct c as [o [T1|]].
  - apply wp_bind. eapply wp_clear_branch; [done|done|]. apply wp_ret.
    apply clr_same; rewrite ?HT; try done. by eapply not_empty.
  - eapply clr_leaf; [done|]. by rewrite HT.
Qed.
End Head.
End Step.

(** ** The loop *)

(** Revoking may go through a table: what it goes down to is not empty, and no table that it
    still needs is given back on the way. *)
Fixpoint lsafe (step : Z -> option cell -> option cell * bool) (cell_ok : Z -> cell -> Prop) (n : nat)
    (i : Z) (T : tbl) : Prop :=
  match n with
  | O => True
  | S n' =>
    (forall c, T !! i = Some c -> cell_ok i c) /\
    let '(c', ok) := step i (T !! i) in
    let T' := partial_alter (fun _ => c') i T in
    ok = true -> n' = O \/ (T' <> ∅ /\ lsafe step cell_ok n' (i + 1) T')
  end.
Definition cell_safe (rsafe : tbl -> Prop) (mid : bool) (nb nl : Z) (c : cell) : Prop :=
  mid = false -> forall o T1, c = Cell o (Some T1) ->
  (forall g, o = Some g -> (rb g =? nb) && (rl g =? nl) = false) -> T1 <> ∅ /\ rsafe T1.
Fixpoint safe (k : nat) (T : tbl) (b l : Z) : Prop :=
  match k with
  | O => True
  | S k' =>
    lsafe (fun i => rem_cell (rem k') (middle k' b l i) (pb k' b i) (pl k' l i))
      (fun i => cell_safe (fun T1 => safe k' T1 (pb k' b i) (pl k' l i)) (middle k' b l i) (pb k' b i) (pl k' l i))
      (span_len k' b l) (b / cs k') T
  end.

Section Loop.
Context (k : nat) (Hk : (k < 4)%nat) (pre : nptr) (p : list Z) (id : Z) (n0 : node) (b l : Z).
Hypothesis Hbl : 0 <= b <= l.
Hypothesis Hl : l < cs (S k).
Context (clear_next : Z -> nptr -> Z -> Z -> M Z).
Hypothesis clear_next_ok : forall cur q nb nl s1 loc1 id1 T1 n1,
  0 <= nb <= nl -> nl < cs k -> at_table k s1 loc1 cur q id1 T1 -> pnode s1 cur = Some n1 -> T1 <> ∅ -> safe k T1 nb nl ->
  wp (clear_next (level_of k + 1) cur nb nl) s1 (fun r s' =>
    (r = 0 <-> snd (rem k T1 nb nl) = true) /\ tab_post k s1 loc1 cur q id1 n1 (fst (rem k T1 nb nl)) s').

Abbreviation step := (fun i => rem_cell (rem k) (middle k b l i) (pb k b i) (pl k l i)).
Abbreviation cell_ok := (fun i => cell_safe (fun T1 => safe k T1 (pb k b i) (pl k l i)) (middle k b l i) (pb k b i) (pl k l i)).

Definition clear_body (i : Z) : M Z :=
  let cur := ptr_of id i in
  if middle k b l i then ummu_table_clear_node cur pre ;;; ret 0
  else
    s <-- get ;;
    (if lvl s =? level_of k then set_head_flag (i =? b / cs k) else ret tt) ;;;
    if free_bit (ctx s)
    then ummu_table_clear_head_node_free_bit clear_next d (level_of k) pre cur (pb k b i) (pl k l i)
    else ummu_table_clear_head_node clear_next d (level_of k) pre cur (pb k b i) (pl k l i).

Lemma wp_clear_body (i : Z) (s : pstate) loc T c :
  b / cs k <= i <= l / cs k -> at_table (S k) s loc pre p id T -> pnode s pre = Some n0 -> T !! i = Some c -> cell_ok i c ->
  wp (clear_body i) s (clr_post k pre p id i n0 (pb k b i) (pl k l i) s loc T (middle k b l i)).
Proof.
  intros Hi Hat Hn0 HT Hok. destruct (part_spec k b l Hbl i Hi) as (P1 & P2 & _).
  assert (Hio : index_ok i) by (by apply (part_idx k b l)).
  unfold clear_body. destruct (middle k b l i) eqn:Hm; [by eapply wp_clear_middle|].
  apply wp_bind, wp_get, wp_bind, quiet_if; [apply quiet_head_flag|apply quiet_ret|]. intros _ s2 C2 R2.
  eapply wp_mono.
  - eapply wp_clear_head with (rsafe := fun T1 => safe k T1 (pb k b i) (pl k l i)); try done.
    + intros. by apply clear_next_ok.
    + by eapply at_ext.
    + by rewrite (pnode_ext s).
    + intros o T1 HT1. rewrite HT in HT1. injection HT1 as ->. by apply Hok.
    + by rewrite C2.
  - intros r s' [Hr Hpost]. split; [done|]. eapply tab_post_trans; [apply Hat| |done|exact Hpost]. rewrite C2. apply same_refl.
Qed.

Lemma clear_loop_body (count : nat) (i : Z) (s : pstate) (Q : Z -> pstate -> Prop) n :
  present (ctx s) id -> index_ok i -> nodeat (ctx s) id i = n ->
  (valid n = true -> wp (r <-- clear_body i ;;
     if ctrue r then ret r
     else clear_loop clear_next d (level_of k) count (i + 1) (b / cs k) (l / cs k) pre (id / 4) (512 * (id mod 4)) b l) s Q) ->
  (valid n = false -> Q (- EINVAL) s) ->
  wp (clear_loop clear_next d (level_of k) (S count) i (b / cs k) (l / cs k) pre (id / 4) (512 * (id mod 4)) b l) s Q.
Proof.
  intros Hp Hi Hn H1 H2. cbn [clear_loop]. rewrite level_mask, !cs_land by done.
  change (At (id / 4) (512 * (id mod 4) + i)) with (ptr_of id i). apply wp_bind, wp_get_node; [done..|]. rewrite Hn.
  destruct (valid n); [|by apply H2]. cbn [negb]. exact (H1 eq_refl).
Qed.

Lemma wp_clear_loop (count : nat) : forall (i : Z) (s : pstate) loc T,
  b / cs k <= i -> i + Z.of_nat count = l / cs k + 1 ->
  at_table (S k) s loc pre p id T -> pnode s pre = Some n0 -> T <> ∅ -> lsafe step cell_ok count i T ->
  wp (clear_loop clear_next d (level_of k) count i (b / cs k) (l / cs k) pre (id / 4) (512 * (id mod 4)) b l) s (fun r s' =>
    (r = 0 <-> snd (iter step count i T) = true) /\ tab_post (S k) s loc pre p id n0 (fst (iter step count i T)) s').
Proof.
  induction count as [|count IH]; intros i s loc T Hi Hcount Hat Hn0 Hne Hsafe.
  { apply wp_ret. split; [done|]. exists loc. left. by split_and!. }
  assert (Hio : index_ok i) by (apply (part_idx k b l); lia || done). destruct Hsafe as [Hcell Hrest].
  pose proof (rep_cells _ _ _ _ _ _ i (at_rep _ _ _ _ _ _ _ Hat) Hio) as Hrc.
  eapply clear_loop_body; [by eapply at_present|done|done| |].
  - intros Hv. destruct (T !! i) as [c|] eqn:HT; [|cbn in Hrc; by rewrite Hrc in Hv].
    apply wp_bind. eapply wp_mono; [eapply (wp_clear_body i s loc T c); try done; [lia|by apply Hcell]|].
    intros r s1 [Hr Hpost]. cbn [iter]. rewrite HT in *. destruct (step i (Some c)) as [c' ok] eqn:E. cbn [fst snd] in *.
    destruct ok.
    + assert (r = 0) as -> by (by apply Hr). cbn [ctrue Z.eqb negb].
      destruct Hpost as (loc1 & [(Hne1 & Hat1 & Hso & R1)|(He & Hem)]).
      * assert (Hn1 : pnode s1 pre = Some n0).
        { destruct (pnode_keep s s1 loc loc1 pre p id) as [-> _]; try done; [apply Hat|apply Hat1|apply Hat]. }
        destruct (Hrest eq_refl) as [-> |[_ Hls]].
        -- apply wp_ret. split; [done|]. exists loc1. left. done.
        -- eapply wp_mono; [eapply (IH (i + 1) s1 loc1); try done; lia|]. intros r s2 [Hr2 Hp2]. split; [done|].
           eapply tab_post_trans; [apply Hat|done|done|done].
      * destruct (Hrest eq_refl) as [-> |[? _]]; [|done]. apply wp_ret. split; [done|]. exists loc1. by right.
    + assert (Hr0 : r <> 0) by (intros E0; by apply Hr in E0). rewrite (proj2 (ctrue_nz r) Hr0). apply wp_ret. by split.
  - intros Hv. destruct (T !! i) as [[o s0]|] eqn:HT; [destruct Hrc; congruence|]. cbn [iter]. rewrite HT. cbn [fst snd rem_cell].
    split; [done|]. exists loc. left. rewrite <- HT, partial_alter_self. by split_and!.
Qed.
End Loop.

(** [ummu_table_clear_node_by_level]. *)
Lemma wp_clear (k : nat) : forall (fuel : nat) pre p id (s : pstate) loc T b l n0,
  (k <= 4)%nat -> (k <= fuel)%nat -> 0 <= b <= l -> l < cs k ->
  at_table k s loc pre p id T -> pnode s pre = Some n0 -> T <> ∅ -> safe k T b l ->
  wp (ummu_table_clear_node_by_level fuel d (4 - Z.of_nat k) pre b l) s (fun r s' =>
    (r = 0 <-> snd (rem k T b l) = true) /\ tab_post k s loc pre p id n0 (fst (rem k T b l)) s').
Proof.
  induction k as [|k IH]; intros fuel pre p id s loc T b l n0 Hk Hf Hb Hl Hat Hn0 Hne Hs; [by destruct (at_rep _ _ _ _ _ _ _ Hat)|].
  destruct fuel as [|fuel]; [lia|]. replace (4 - Z.of_nat (S k)) with (level_of k) by lia.
  cbn [ummu_table_clear_node_by_level]. rewrite (proj2 (Z.ltb_ge _ _)) by (unfold MAPT_MAX_LVL_INDEX; lia).
  destruct (at_link _ _ _ _ _ _ _ Hat) as (n & Hn & Hix & Hoff). replace n with n0 in * by congruence.
  pose proof (at_present _ _ _ _ _ _ _ Hat) as [blk Hblk].
  eapply wp_bind, wp_get_pre; [done|]. apply wp_bind, wp_load_block. rewrite Hix, Hblk.
  destruct (level_index k b ltac:(lia) ltac:(lia)) as [-> Hbi]. destruct (level_index k l ltac:(lia) ltac:(lia)) as [-> Hli].
  rewrite !uwrap_small by lia. apply wp_bind, wp_get, wp_bind, quiet_if; [apply quiet_lvl|apply quiet_ret|].
  intros _ s1 C1 R1. rewrite Hoff.
  assert (b / cs k <= l / cs k) by (apply Z.div_le_mono; [apply cs_pos|lia]).
  eapply wp_mono; [eapply wp_clear_loop with (n0 := n0) (T := T) (loc := loc); try done; try lia|].
  - intros cur q nb nl s2 loc2 id2 T2 n2 Hb2 Hl2 Hat2 Hn2 Hne2 Hs2. replace (level_of k + 1) with (4 - Z.of_nat k) by lia.
    apply IH; try done; lia.
  - by eapply at_ext.
  - by rewrite (pnode_ext s).
  - intros r s' [Hr Hpost]. split; [done|]. eapply tab_post_trans; [apply Hat| |done|exact Hpost]. rewrite C1. apply same_refl.
Qed.
End Clear.
