(* ===== verification/UmmuPermToken.v ===== *)
(** * Changing the tokens of a granted segment

    [ummu_table_update_token_by_level] on the memory changes the attributes of the cells of
    one stored segment, and nothing else. *)

From S2P Require Import Prelude UmmuQueue UmmuCmd UmmuPerm UmmuPermTree UmmuPermMem UmmuPermFill UmmuPermClear.

(** ** On trees *)

Section Upd.
Context (x' : attr).

Definition upd_cell (rec : tbl -> Z -> Z -> tbl) (nb nl : Z) (c : option cell) : option cell :=
  match c with
  | Some (Cell (Some g) s) =>
    if (rb g =? nb) && (rl g =? nl) then Some (Cell (Some {| rb := nb; rl := nl; ra := x' |}) s)
    else match s with Some T1 => Some (Cell (Some g) (Some (rec T1 nb nl))) | None => c end
  | Some (Cell None (Some T1)) => Some (Cell None (Some (rec T1 nb nl)))
  | _ => c
  end.
Fixpoint upd (k : nat) (T : tbl) (b l : Z) : tbl :=
  match k with
  | O => T
  | S k' => fst (iter (fun i c => (upd_cell (upd k') (pb k' b i) (pl k' l i) c, true)) (span_len k' b l) (b / cs k') T)
  end.

Lemma upd_lookup (k : nat) (T : tbl) (b l i : Z) : 0 <= b <= l ->
  upd (S k) T b l !! i =
  if decide (b / cs k <= i <= l / cs k) then upd_cell (upd k) (pb k b i) (pl k l i) (T !! i) else T !! i.
Proof.
  intros Hb. cbn [upd].
  destruct (iter_ok (fun i c => (upd_cell (upd k) (pb k b i) (pl k l i) c, true)) (span_len k b l) (b / cs k) T) as (T' & -> & H); [done|].
  cbn [fst]. rewrite H. pose proof (span_len_idx k b l Hb i) as Hi. cbn [fst].
  destruct (decide (b / cs k <= i <= l / cs k)), (decide (b / cs k <= i < _)); tauto.
Qed.

(** The three shapes a cell of a stored segment has, and what they become. *)
Lemma upd_cases (k : nat) (mid : bool) (nb nl : Z) (y : attr) (c : cell) (c' : option cell) :
  rem_case k mid nb nl y c c' ->
  (exists s, c = Cell (Some {| rb := nb; rl := nl; ra := y |}) s /\ (mid = true -> s = None) /\
     upd_cell (upd k) nb nl (Some c) = Some (Cell (Some {| rb := nb; rl := nl; ra := x' |}) s)) \/
  (exists o T1, c = Cell o (Some T1) /\ mid = false /\ stored k T1 nb nl y /\
     (forall g, o = Some g -> rl g < nb \/ nl < rb g) /\
     (forall g, o = Some g -> nb <= nl -> rb g <= rl g -> (rb g =? nb) && (rl g =? nl) = false)).
Proof.
  intros [|T1 Hm|o T1 T2 Hm Hr Hst Hdis].
  - left. exists None. split_and!; [done|done|]. cbn [upd_cell rb rl]. by rewrite !Z.eqb_refl.
  - left. exists (Some T1). split_and!; [done|congruence|]. cbn [upd_cell rb rl]. by rewrite !Z.eqb_refl.
  - right. exists o, T1. split_and!; try done. intros g -> H1 H2. specialize (Hdis g eq_refl).
    apply andb_false_iff. rewrite !Z.eqb_neq. lia.
Qed.

Lemma upd_cell_below (k : nat) (nb nl : Z) (o : option rng) (T1 : tbl) :
  (forall g, o = Some g -> (rb g =? nb) && (rl g =? nl) = false) ->
  upd_cell (upd k) nb nl (Some (Cell o (Some T1))) = Some (Cell o (Some (upd k T1 nb nl))).
Proof. intros H. destruct o as [g|]; cbn [upd_cell]; [|done]. by rewrite (H g). Qed.

(** What is known of each cell of a stored segment. *)
Lemma stored_cell (k : nat) (T : tbl) (b l i : Z) (y : attr) :
  twf (S k) T -> 0 <= b <= l -> l < cs (S k) -> stored (S k) T b l y -> b / cs k <= i <= l / cs k ->
  exists c c', T !! i = Some c /\ cwf k c /\ rem_case k (middle k b l i) (pb k b i) (pl k l i) y c c'.
Proof.
  intros Hw Hb Hl Hs Hi. destruct (rem_run k T b l y Hw Hb Hl Hs) as (T' & _ & HR). specialize (HR i).
  rewrite decide_True in HR by done. destruct HR as (c & Hc & Hcase). exists c, (T' !! i). split_and!; [done| |done].
  rewrite twf_S in Hw. by apply Hw in Hc as [_ ?].
Qed.

Definition upd_ok (k : nat) : Prop := forall T b l y,
  twf k T -> 0 <= b <= l -> l < cs k -> stored k T b l y ->
  twf k (upd k T b l) /\ upd k T b l <> ∅ /\ stored k (upd k T b l) b l x' /\
  (forall a, 0 <= a < cs k -> look k (upd k T b l) a = if inside b l a then Some x' else look k T a) /\
  (forall b2 l2 y2, 0 <= b2 <= l2 -> l2 < b \/ l < b2 -> stored k T b2 l2 y2 -> stored k (upd k T b l) b2 l2 y2).

Lemma upd_cell_ok (k : nat) (mid : bool) (nb nl : Z) (y : attr) (c : cell) (c' : option cell) :
  upd_ok k -> cwf k c -> 0 <= nb <= nl -> nl < cs k -> rem_case k mid nb nl y c c' ->
  exists c2, upd_cell (upd k) nb nl (Some c) = Some c2 /\ cwf k c2 /\
    (forall r, 0 <= r < cs k -> clook k (Some c2) r = if inside nb nl r then Some x' else clook k (Some c) r) /\
    cstored k mid nb nl x' c2 /\
    (forall nb2 nl2 y2, 0 <= nb2 <= nl2 -> nl2 < nb \/ nl < nb2 ->
       cstored k false nb2 nl2 y2 c -> cstored k false nb2 nl2 y2 c2).
Proof.
  intros IH (Hne & Hg & Hs & Hd) Hb Hl Hcase. apply upd_cases in Hcase as [(s & -> & Hm & E)|(o & T1 & -> & Hm & Hst & Hdis & Hno)].
  - eexists. split; [exact E|]. cbn [own sub] in *. split_and!.
    + unfold cwf. cbn [own sub]. split_and!; [by left| |done|].
      * intros g [= <-]. by destruct (Hg _ eq_refl).
      * intros g T' r [= <-] HT Hr. by apply (Hd _ T' r eq_refl).
    + intros r Hr. rewrite !clook_own. cbn [rb rl ra]. by destruct (inside nb nl r).
    + left. split; [done|]. cbn [sub]. done.
    + intros nb2 nl2 y2 H1 H2 [[[= E1 E2 _] _]|(_ & T1 & HT & Hst)]; [lia|]. right. split; [done|]. by exists T1.
  - destruct (Hs T1 eq_refl) as [HT1 Hw1]. destruct (IH T1 nb nl y Hw1 Hb Hl Hst) as (W2 & N2 & S2 & L2 & K2).
    assert (Hno' : forall g, o = Some g -> (rb g =? nb) && (rl g =? nl) = false).
    { intros g Ho. apply Hno; [done|lia|]. cbn in Hg. destruct (Hg g Ho). lia. }
    eexists. split; [by apply upd_cell_below|]. cbn [own sub] in *. split_and!.
    + unfold cwf. cbn [own sub]. split_and!; [by right|done|by intros T' [= <-]|].
      intros g T' r Ho HT Hr. cbn in Ho, HT. subst o. injection HT as <-. destruct (Hg g eq_refl) as (? & ? & _). specialize (Hdis g eq_refl).
      rewrite L2, inside_false by lia. by apply (Hd g T1 r).
    + intros r Hr. destruct o as [g|].
      * rewrite !clook_own. cbn [clook own sub]. rewrite L2 by done. destruct (inside nb nl r) eqn:E; [|done].
        apply inside_spec in E. specialize (Hdis g eq_refl). by rewrite inside_false by lia.
      * cbn [clook own sub]. by apply L2.
    + right. split; [done|]. by eexists.
    + intros nb2 nl2 y2 H1 H2 [[Ho _]|(_ & T3 & [= <-] & Hst2)]; [by left|]. right. split; [done|].
      eexists. split; [done|]. by apply K2.
Qed.

Lemma upd_is_ok (k : nat) : upd_ok k.
Proof.
  induction k as [|k IH]; intros T b l y Hw Hb Hl Hs; [done|].
  assert (Hcell : forall i, b / cs k <= i <= l / cs k -> exists c c2, T !! i = Some c /\ upd (S k) T b l !! i = Some c2 /\ cwf k c2 /\
    (forall r, 0 <= r < cs k -> clook k (Some c2) r = if inside (pb k b i) (pl k l i) r then Some x' else clook k (Some c) r) /\
    cstored k (middle k b l i) (pb k b i) (pl k l i) x' c2 /\
    (forall nb2 nl2 y2, 0 <= nb2 <= nl2 -> nl2 < pb k b i \/ pl k l i < nb2 ->
       cstored k false nb2 nl2 y2 c -> cstored k false nb2 nl2 y2 c2)).
  { intros i Hi. destruct (stored_cell k T b l i y Hw Hb Hl Hs Hi) as (c & c' & Hc & Hcw & Hcase).
    destruct (part_spec k b l Hb i Hi) as (P1 & P2 & _).
    destruct (upd_cell_ok k _ _ _ y c c' IH Hcw P1 P2 Hcase) as (c2 & E & H). exists c, c2. split; [done|].
    split; [|done]. by rewrite upd_lookup, decide_True, Hc by done. }
  assert (Hout : forall i, ~ (b / cs k <= i <= l / cs k) -> upd (S k) T b l !! i = T !! i).
  { intros i Hi. by rewrite upd_lookup, decide_False by done. }
  rewrite twf_S in Hw. pose proof (cs_pos k).
  split_and!.
  - rewrite twf_S. intros i c Hc. destruct (decide (b / cs k <= i <= l / cs k)) as [Hi|Hi]; [|by rewrite Hout in Hc; [apply Hw|]].
    destruct (Hcell i Hi) as (c0 & c2 & _ & E & Hcw & _). split; [by apply (part_idx k b l)|]. congruence.
  - destruct (Hcell (b / cs k)) as (c0 & c2 & _ & E & _); [split; [lia|apply Z.div_le_mono; lia]|].
    intros E0. by rewrite E0, lookup_empty in E.
  - intros i Hi. destruct (Hcell i Hi) as (c0 & c2 & _ & E & _ & _ & Hst & _). by exists c2.
  - intros a Ha. rewrite !look_S. destruct (addr_split k a) as [Ea Hr].
    destruct (decide (b / cs k <= a / cs k <= l / cs k)) as [Hi|Hi].
    + destruct (Hcell _ Hi) as (c0 & c2 & Hc & E & _ & L & _). rewrite E, Hc, L by done.
      destruct (part_spec k b l Hb _ Hi) as (_ & _ & Hp). specialize (Hp _ Hr). rewrite <- Ea in Hp.
      destruct (inside b l a) eqn:E1.
      * apply inside_spec, Hp in E1. by rewrite (proj2 (inside_spec _ _ _) E1).
      * rewrite inside_false; [done|]. intros H1. apply Hp, inside_spec in H1. congruence.
    + rewrite Hout by done. rewrite inside_false; [done|]. pose proof (part_outside k b l _ _ Hr Hi) as Ho. by rewrite <- Ea in Ho.
  - intros b2 l2 y2 Hb2 Hd Hs2 i Hi2. destruct (Hs2 i Hi2) as (c & Hc & Hst).
    destruct (decide (b / cs k <= i <= l / cs k)) as [Hi|Hi]; [|exists c; by rewrite Hout].
    destruct (parts_disjoint k b l b2 l2 i Hb Hb2 Hd Hi Hi2) as [Hpd Hm2]. rewrite Hm2 in *.
    destruct (part_spec k b2 l2 Hb2 i Hi2) as (Q1 & _).
    destruct (Hcell i Hi) as (c0 & c2 & Hc0 & E & _ & _ & _ & Hk). exists c2. split; [done|].
    apply Hk; [done|done|]. rewrite Hc in Hc0. injection Hc0 as <-. exact Hst.
Qed.
End Upd.

(** ** On the memory *)

(** What a change of tokens does to the attributes of a range whose tokens are checked. *)
Definition token_attr (op : ummu_grant_op_type) (v : Z) (x : attr) : option attr :=
  let with_tokens n t0 t1 := {| a_perm := a_perm x; a_ebit := a_ebit x; a_check := a_check x;
                                a_nonce := n; a_tok0 := t0; a_tok1 := t1 |} in
  match op with
  | UMMU_ADD_TOKEN => if a_nonce x =? 1 then Some (with_tokens UMMU_MAX_TOKEN_NUM (a_tok0 x) v) else None
  | UMMU_REMOVE_TOKEN =>
    if a_tok0 x =? v then Some (with_tokens 1 (a_tok1 x) (a_tok1 x))
    else if a_tok1 x =? v then Some (with_tokens 1 (a_tok0 x) (a_tok0 x))
    else None
  | _ => None
  end.

Section Token.
Context (op : ummu_grant_op_type) (d : ummu_data_info) (x x' : attr).
Hypothesis Hx : a_check x = 1.
Hypothesis Hx' : token_attr op (d_tokenval d) x = Some x'.

(** [ummu_update_token] on a node that holds [x]. *)
Lemma wp_update_token (id i : Z) (s : pstate) (Q : Z -> pstate -> Prop) :
  present (ctx s) id -> index_ok i -> let n := nodeat (ctx s) id i in
  valid n = true -> node_attr n = x ->
  (forall s', ctx s' = cset (ctx s) id i (set_tokens n (a_nonce x') (a_tok0 x') (a_tok1 x')) -> root s' = root s ->
     node_attr (set_tokens n (a_nonce x') (a_tok0 x') (a_tok1 x')) = x' -> Q 0 s') ->
  wp (ummu_update_token op (ptr_of id i) d) s Q.
Proof.
  intros Hp Hi n Hv Hn HQ.
  assert (Hfields : token_check n = 1 /\ nonce n = a_nonce x /\ token_val_0 n = a_tok0 x /\ token_val_1 n = a_tok1 x).
  { rewrite <- Hn in Hx. cbn in Hx. rewrite <- Hn. unfold node_attr. rewrite Hx. done. }
  destruct Hfields as (F1 & F2 & F3 & F4).
  assert (Ha : forall z t0 t1, node_attr (set_tokens n z t0 t1) =
    {| a_perm := a_perm x; a_ebit := a_ebit x; a_check := a_check x; a_nonce := z; a_tok0 := t0; a_tok1 := t1 |}).
  { intros. rewrite <- Hn. unfold node_attr. cbn. rewrite F1. done. }
  unfold token_attr in Hx'. unfold ummu_update_token. destruct op; try done.
  - destruct (a_nonce x =? 1) eqn:E; [|done]. injection Hx' as <-. apply wp_bind, wp_get_node; [done..|]. fold n.
    unfold ummu_add_token. rewrite Hv, F2, E. cbn [andb]. apply wp_bind, wp_set_node; [done..|]. apply wp_ret.
    apply HQ; [cbn; by rewrite F3|done|apply Ha].
  - apply wp_bind, wp_get_node; [done..|]. fold n. unfold ummu_remove_token. rewrite F3, F4.
    destruct (a_tok0 x =? d_tokenval d); [|destruct (a_tok1 x =? d_tokenval d); [|done]]; injection Hx' as <-;
      (apply wp_bind, wp_set_node; [done..|]); apply wp_ret; apply HQ; [done|done|apply Ha|done|done|apply Ha].
Qed.

(** The table is as before but for one segment. *)
Definition tok_post (k : nat) (s : pstate) (loc : gmap Z (list Z)) (pre : nptr) (p : list Z) (id : Z)
    (T' : tbl) (r : Z) (s' : pstate) : Prop :=
  r = 0 /\ at_table k s' loc pre p id T' /\ same_out p (ctx s) loc (ctx s') loc /\ root s' = root s.

(** The node of a cell changed, its tables kept. *)
Lemma at_set_range (k : nat) (s s1 : pstate) loc pre p id i T o sb o' n' :
  index_ok i -> at_table (S k) s loc pre p id T -> T !! i = Some (Cell o sb) ->
  ctx s1 = cset (ctx s) id i n' -> root s1 = root s ->
  let n := nodeat (ctx s) id i in
  valid n' = true -> own_rep (free_bit (ctx s)) n' o' -> type n' = type n ->
  next_lv_index n' = next_lv_index n -> node_offset n' = node_offset n ->
  at_table (S k) s1 loc pre p id (<[i := Cell o' sb]> T) /\ same_out p (ctx s) loc (ctx s1) loc.
Proof.
  intros Hi Hat HT C1 R1 n Hv Ho Hty Hix Hoff. pose proof (at_present _ _ _ _ _ _ _ Hat) as Hp. pose proof (at_loc _ _ _ _ _ _ _ Hat) as Hl.
  pose proof (at_rep _ _ _ _ _ _ _ Hat) as Hrep. pose proof Hrep as (_ & Hc & _ & _).
  pose proof (rep_cells _ _ _ _ _ _ i Hrep Hi) as Hcell. rewrite HT in Hcell. destruct Hcell as (_ & _ & Hsub). fold n in Hsub.
  assert (Hkeep : same_on (fun q => below (p ++ [i]) q) (ctx s) loc (cset (ctx s) id i n') loc).
  { split_and!; [done| |done]. intros id' q Hl' Hb. rewrite cnt_cset. split_and!; [done..|]. intros j Hj.
    rewrite nodeat_cset by done. rewrite decide_False; [done|]. intros [-> _]. replace q with p in Hb by congruence.
    by apply not_below_self in Hb. }
  apply (at_cell k pre p id i Hi s loc T s1 loc); rewrite ?C1; try done.
  - eapply ginv_cset; [apply Hat|done|done].
  - apply live_cset, Hat.
  - by apply cf_cset.
  - rewrite cnt_cset, Hc. by rewrite map_size_insert_Some.
  - intros j Hj. by rewrite lookup_insert_ne.
  - intros id' q Hl' Hq. destruct sb as [T1|]; [exists o', T1; by rewrite lookup_insert_eq|]. exfalso.
    eapply (no_block_below p id i k); [exact Hrep| |done|done]. intros. by rewrite HT.
  - rewrite lookup_insert_eq, nodeat_cset, decide_True by done. split_and!; [done|done|].
    destruct sb as [T1|]; [|congruence]. destruct Hsub as (Ht & id1 & [L1 L2] & Hr1). split; [congruence|].
    exists id1. split; [split; congruence|]. by eapply rep_frame.
Qed.

Section Step.
Context (k : nat) (pre : nptr) (p : list Z) (id i : Z) (Hi : index_ok i) (nb nl : Z).
Context (s : pstate) (loc : gmap Z (list Z)) (T : tbl).
Hypothesis Hat : at_table (S k) s loc pre p id T.

(** A cell that holds the range itself. *)
Lemma wp_token_own (sb : option tbl) : T !! i = Some (Cell (Some {| rb := nb; rl := nl; ra := x |}) sb) ->
  wp (ummu_update_token op (ptr_of id i) d) s
    (tok_post (S k) s loc pre p id (<[i := Cell (Some {| rb := nb; rl := nl; ra := x' |}) sb]> T)).
Proof.
  intros HT. pose proof (rep_cells _ _ _ _ _ _ i (at_rep _ _ _ _ _ _ _ Hat) Hi) as Hcell. rewrite HT in Hcell.
  destruct Hcell as (Hv & (Hu & Hb & Hl & Ha) & _).
  apply wp_update_token; [by eapply at_present|done|done|done|]. intros s' C' R' Ha'.
  destruct (at_set_range k s s' loc pre p id i T _ sb (Some {| rb := nb; rl := nl; ra := x' |}) _ Hi Hat HT C' R') as [? ?]; done.
Qed.

(** A cell with the range below it. *)
Lemma wp_token_below (next : M Z) (o : option rng) (T1 T2 : tbl) : T !! i = Some (Cell o (Some T1)) ->
  (forall id1, at_table k s loc (ptr_of id i) (p ++ [i]) id1 T1 ->
     wp next s (tok_post k s loc (ptr_of id i) (p ++ [i]) id1 T2)) ->
  wp next s (tok_post (S k) s loc pre p id (<[i := Cell o (Some T2)]> T)).
Proof.
  intros HT Hnext. pose proof (at_present _ _ _ _ _ _ _ Hat) as Hp. pose proof (at_loc _ _ _ _ _ _ _ Hat) as Hl.
  pose proof (at_rep _ _ _ _ _ _ _ Hat) as Hrep. pose proof Hrep as (_ & Hc & _ & _).
  pose proof (rep_cells _ _ _ _ _ _ i Hrep Hi) as Hcell. rewrite HT in Hcell. destruct Hcell as (Hv & Ho & Hty & id1 & Hlk & Hr1).
  eapply wp_mono; [apply (Hnext id1)|].
  { split; [apply Hat|apply Hat|right; by exists id, i, p| |done]. eexists. split; [by apply pnode_at|done]. }
  intros r s1 (-> & Hat1 & Hso & R1). destruct (proj1 (proj2 Hso) id p Hl (not_below_self p i)) as (_ & Hc' & Hn').
  destruct (at_cell k pre p id i Hi s loc T s1 loc (<[i := Cell o (Some T2)]> T) Hat) as [? ?]; try done.
  - apply Hat1.
  - apply Hat1.
  - by apply cf_same.
  - rewrite Hc', Hc. by rewrite map_size_insert_Some.
  - intros j Hj. by rewrite lookup_insert_ne.
  - intros. exists o, T2. by rewrite lookup_insert_eq.
  - rewrite lookup_insert_eq, Hn' by done. destruct Hso as (-> & _). split_and!; try done. exists id1. split; [done|]. apply Hat1.
Qed.

Context (update_next : Z -> nptr -> Z -> Z -> M Z) (level : Z).
Hypothesis update_next_ok : forall id1 T1, twf k T1 -> stored k T1 nb nl x ->
  at_table k s loc (ptr_of id i) (p ++ [i]) id1 T1 ->
  wp (update_next (level + 1) (ptr_of id i) nb nl) s (tok_post k s loc (ptr_of id i) (p ++ [i]) id1 (upd x' k T1 nb nl)).
Context (Hpg : (4096 | nb)) (Hb : 0 <= nb <= nl).

Lemma ctrue_tail (m : M Z) (Q : Z -> pstate -> Prop) s0 : wp m s0 Q -> (forall r s', Q r s' -> r = 0) ->
  wp (r <-- m ;; if ctrue r then ret r else ret 0) s0 Q.
Proof.
  intros Hm HQ. apply wp_bind. eapply wp_mono; [exact Hm|]. intros r s' H. pose proof (HQ _ _ H) as ->. done.
Qed.

(** The functions for the first and the last cell. *)
Lemma wp_token_head (fb : bool) (c : cell) (c' : option cell) : fb = free_bit (ctx s) ->
  T !! i = Some c -> cwf k c -> rem_case k false nb nl x c c' ->
  wp (if fb then ummu_table_update_node_token_free_bit update_next op d level (ptr_of id i) nb nl
      else ummu_table_update_node_token update_next op d level (ptr_of id i) nb nl) s
    (tok_post (S k) s loc pre p id (partial_alter (fun _ => upd_cell x' (upd x' k) nb nl (T !! i)) i T)).
Proof.
  intros -> HT (_ & Hg & Hs & _) Hcase. pose proof (at_present _ _ _ _ _ _ _ Hat) as Hp. rewrite HT.
  pose proof (rep_cells _ _ _ _ _ _ i (at_rep _ _ _ _ _ _ _ Hat) Hi) as Hcell. rewrite HT in Hcell.
  unfold ummu_table_update_node_token_free_bit, ummu_table_update_node_token.
  apply (upd_cases x') in Hcase as [(sb & -> & _ & ->)|(o & T1 & -> & _ & Hst & _ & Hno)].
  - destruct Hcell as (Hv & (Hu & Hbb & Hll & _) & _). cbn [rb rl] in *.
    destruct (free_bit (ctx s)); apply wp_bind, wp_get_node; try done.
    + cbn in Hu. apply negb_true_iff in Hu. rewrite Hu, Hbb, Hll, !Z.eqb_refl. cbn [andb]. by apply wp_token_own.
    + rewrite Hbb, Hll, !Z.eqb_refl. cbn [andb]. apply ctrue_tail; [by apply wp_token_own|]. by intros r s' [? _].
  - assert (Hno' : forall g, o = Some g -> (rb g =? nb) && (rl g =? nl) = false).
    { intros g Ho. apply Hno; [done|lia|]. cbn in Hg. destruct (Hg g Ho). lia. }
    rewrite upd_cell_below by done. destruct (Hs T1 eq_refl) as [_ Hw1].
    destruct Hcell as (Hv & Ho & Hty & _).
    assert (Hgo : wp (update_next (level + 1) (ptr_of id i) nb nl) s
      (tok_post (S k) s loc pre p id (<[i := Cell o (Some (upd x' k T1 nb nl))]> T))).
    { eapply wp_token_below; [done|]. intros id1 Hat1. by apply update_next_ok. }
    assert (Hm : free_bit (ctx s) = false \/ o <> None ->
      (node_base (nodeat (ctx s) id i) =? nb) && (node_limit (nodeat (ctx s) id i) =? nl) = false).
    { intros Hcas. destruct o as [g|].
      - destruct Ho as (_ & -> & -> & _). by apply Hno'.
      - destruct Hcas as [E|?]; [|done]. cbn in Ho. rewrite E in Ho. apply orb_false_iff in Ho as [Ho _].
        apply andb_false_iff. left. apply Z.eqb_neq. intros En. rewrite En, page_in_use in Ho by done. done. }
    destruct (free_bit (ctx s)) eqn:Efb; apply wp_bind, wp_get_node; try done.
    + destruct o as [g|].
      * destruct Ho as (Hu & _). cbn in Hu. apply negb_true_iff in Hu. rewrite Hu, Hm by (by right). by rewrite Hty.
      * cbn in Ho. apply negb_false_iff in Ho. by rewrite Ho, Hty.
    + rewrite Hm by (by left). by rewrite Hty.
Qed.
End Step.

Section Loop.
Context (k : nat) (Hk : (k < 4)%nat) (pre : nptr) (p : list Z) (id : Z) (T : tbl) (b l : Z).
Hypothesis Hw : twf (S k) T.
Hypothesis Hin : seg_in (S k) b l.
Hypothesis Hs : stored (S k) T b l x.
Context (s : pstate) (loc : gmap Z (list Z)).
Context (update_next : Z -> nptr -> Z -> Z -> M Z).
Hypothesis update_next_ok : forall cur q nb nl s1 loc1 id1 T1, twf k T1 -> seg_in k nb nl -> stored k T1 nb nl x ->
  at_table k s1 loc1 cur q id1 T1 ->
  wp (update_next (level_of k + 1) cur nb nl) s1 (tok_post k s1 loc1 cur q id1 (upd x' k T1 nb nl)).

Abbreviation step i := (upd_cell x' (upd x' k) (pb k b i) (pl k l i)).

Definition token_body (i : Z) : M Z :=
  if middle k b l i then ummu_update_token op (ptr_of id i) d
  else
    s <-- get ;;
    if free_bit (ctx s)
    then ummu_table_update_node_token_free_bit update_next op d (level_of k) (ptr_of id i) (pb k b i) (pl k l i)
    else ummu_table_update_node_token update_next op d (level_of k) (ptr_of id i) (pb k b i) (pl k l i).

Lemma wp_token_body (i : Z) (s1 : pstate) (T1 : tbl) :
  b / cs k <= i <= l / cs k -> at_table (S k) s1 loc pre p id T1 -> T1 !! i = T !! i ->
  wp (token_body i) s1 (tok_post (S k) s1 loc pre p id (partial_alter (fun _ => step i (T1 !! i)) i T1)).
Proof.
  intros Hi Hat HT. pose proof Hin as (Hb & Hl & Hpg).
  destruct (stored_cell k T b l i x Hw Hb Hl Hs Hi) as (c & c' & Hc & Hcw & Hcase).
  destruct (part_spec k b l Hb i Hi) as (P1 & P2 & _). rewrite <- HT in Hc.
  assert (Hio : index_ok i) by (by apply (part_idx k b l)).
  unfold token_body. destruct (middle k b l i) eqn:Hm.
  - apply (upd_cases x') in Hcase as [(sb & -> & _ & E)|(o & T2 & _ & ? & _)]; [|done]. rewrite Hc, E. by apply wp_token_own.
  - apply wp_bind, wp_get. eapply wp_token_head; try done; [|by apply part_page].
    intros id1 T2 Hw2 Hs2 Hat2. apply update_next_ok; try done. unfold seg_in. split_and!; try lia. by apply part_page.
Qed.

Lemma token_loop_body (count : nat) (i : Z) (s1 : pstate) (Q : Z -> pstate -> Prop) :
  present (ctx s1) id -> index_ok i -> valid (nodeat (ctx s1) id i) = true ->
  wp (token_body i) s1 (fun r s2 => r = 0 /\
    wp (token_loop update_next op d (level_of k) count (i + 1) (b / cs k) (l / cs k) (id / 4) (512 * (id mod 4)) b l) s2 Q) ->
  wp (token_loop update_next op d (level_of k) (S count) i (b / cs k) (l / cs k) (id / 4) (512 * (id mod 4)) b l) s1 Q.
Proof.
  intros Hp Hi Hv H. cbn [token_loop]. rewrite level_mask, !cs_land by done.
  change (At (id / 4) (512 * (id mod 4) + i)) with (ptr_of id i). apply wp_bind, wp_get_node; [done..|]. rewrite Hv. cbn [negb].
  apply wp_bind. eapply wp_mono; [exact H|]. by intros r s2 [-> ?].
Qed.

Lemma wp_token_loop (count : nat) : forall (i : Z) (s1 : pstate) (T1 : tbl),
  b / cs k <= i -> i + Z.of_nat count = l / cs k + 1 ->
  at_table (S k) s1 loc pre p id T1 -> same_out p (ctx s) loc (ctx s1) loc -> root s1 = root s ->
  (forall j, T1 !! j = if decide (b / cs k <= j < i) then step j (T !! j) else T !! j) ->
  wp (token_loop update_next op d (level_of k) count i (b / cs k) (l / cs k) (id / 4) (512 * (id mod 4)) b l) s1
    (tok_post (S k) s loc pre p id (upd x' (S k) T b l)).
Proof.
  induction count as [|count IH]; intros i s1 T1 Hi Hcount Hat Hso Hr HT1.
  - apply wp_ret. replace (upd x' (S k) T b l) with T1; [by split_and!|]. apply map_eq. intros j.
    rewrite HT1, upd_lookup by (destruct Hin; lia).
    destruct (decide (b / cs k <= j < i)), (decide (b / cs k <= j <= l / cs k)); done || lia.
  - assert (HTi : T1 !! i = T !! i) by (by rewrite HT1, decide_False by lia).
    pose proof Hin as (Hb & Hl & _). assert (Hio : index_ok i) by (apply (part_idx k b l); lia || done).
    destruct (stored_cell k T b l i x Hw Hb Hl Hs ltac:(lia)) as (c & c' & Hc & _ & _).
    apply token_loop_body; [by eapply at_present|done| |].
    + pose proof (rep_cells _ _ _ _ _ _ i (at_rep _ _ _ _ _ _ _ Hat) Hio) as Hrc. rewrite HTi, Hc in Hrc.
      destruct c. by destruct Hrc.
    + eapply wp_mono; [apply (wp_token_body i s1 T1); [lia|done|done]|]. intros r s2 (-> & Hat2 & Hso2 & R2). split; [done|].
      eapply (IH (i + 1) s2); try lia; [done|by eapply same_trans|congruence|].
      intros j. destruct (decide (j = i)) as [-> |Hne].
      * by rewrite lookup_partial_alter_eq, decide_True, HTi by lia.
      * rewrite lookup_partial_alter_ne, HT1 by done.
        destruct (decide (b / cs k <= j < i)), (decide (b / cs k <= j < i + 1)); done || lia.
Qed.
End Loop.

(** [ummu_table_update_token_by_level]. *)
Lemma wp_token (k : nat) : forall (fuel : nat) pre p id (s : pstate) loc T b l,
  (k <= 4)%nat -> (k <= fuel)%nat -> seg_in k b l ->
  at_table k s loc pre p id T -> twf k T -> stored k T b l x ->
  wp (ummu_table_update_token_by_level fuel op d (4 - Z.of_nat k) pre b l) s (tok_post k s loc pre p id (upd x' k T b l)).
Proof.
  induction k as [|k IH]; intros fuel pre p id s loc T b l Hk Hf Hin Hat Hw Hs; [by destruct (at_rep _ _ _ _ _ _ _ Hat)|].
  destruct fuel as [|fuel]; [lia|]. replace (4 - Z.of_nat (S k)) with (level_of k) by lia.
  cbn [ummu_table_update_token_by_level]. rewrite (proj2 (Z.ltb_ge _ _)) by (unfold MAPT_MAX_LVL_INDEX; lia).
  destruct (at_link _ _ _ _ _ _ _ Hat) as (n & Hn & Hix & Hoff). pose proof (at_present _ _ _ _ _ _ _ Hat) as [blk Hblk].
  eapply wp_bind, wp_get_pre; [done|]. apply wp_bind, wp_load_block. rewrite Hix, Hblk.
  pose proof Hin as (Hb & Hl & Hpg).
  destruct (level_index k b ltac:(lia) ltac:(lia)) as [-> Hbi]. destruct (level_index k l ltac:(lia) ltac:(lia)) as [-> Hli].
  rewrite !uwrap_small by lia. rewrite Hoff.
  assert (b / cs k <= l / cs k) by (apply Z.div_le_mono; [apply cs_pos|lia]).
  eapply wp_token_loop with (T := T); try done; try lia.
  - intros cur q nb nl s2 loc2 id2 T2 Hw2 Hs2 Hst2 Hat2. replace (level_of k + 1) with (4 - Z.of_nat k) by lia.
    apply IH; try done; lia.
  - intros j. by rewrite decide_False by lia.
Qed.
End Token.
