(* ===== verification/UmmuPermTable.v ===== *)
(** * The permission table as a set of granted segments

    What the table of [UmmuPerm] means to its users: a map from the base of each granted
    segment to its limit and attributes.  The operations of [ummu_table_op] are shown to
    maintain it, and the walk of the hardware to grant an address exactly if a segment
    holds it. *)

From S2P Require Import Prelude UmmuQueue UmmuCmd UmmuPerm UmmuPermTree UmmuPermMem UmmuPermFill UmmuPermClear UmmuPermToken.

(** ** Segments that can be revoked *)

Section Safe.
Context (step : Z -> option cell -> option cell * bool) (cell_ok : Z -> cell -> Prop).

(** The loop may go up to [m] if it stops there. *)
Lemma lsafe_upto (n : nat) : forall (i m : Z) (T : tbl),
  i <= m -> m < i + Z.of_nat n ->
  (forall j, i <= j <= m -> exists c, T !! j = Some c /\ cell_ok j c) ->
  m + 1 = i + Z.of_nat n \/ snd (step m (T !! m)) = false -> lsafe step cell_ok n i T.
Proof.
  induction n as [|n IH]; intros i m T Him Hmn H Hend; [done|]. cbn [lsafe].
  destruct (H i ltac:(lia)) as (c & Hc & Hok). split; [intros c0 Hc0; congruence|].
  destruct (step i (T !! i)) as [c' ok] eqn:E. intros ->. destruct (decide (m = i)) as [-> |Hne].
  - left. destruct Hend as [Hend|Hend]; [lia|]. by rewrite E in Hend.
  - right. split.
    + destruct (H (i + 1) ltac:(lia)) as (c1 & Hc1 & _). intros E0.
      assert (Hx : partial_alter (fun _ => c') i T !! (i + 1) = None) by (by rewrite E0, lookup_empty).
      rewrite lookup_partial_alter_ne in Hx by lia. congruence.
    + apply (IH (i + 1) m); try lia.
      * intros j Hj. rewrite lookup_partial_alter_ne by lia. apply H. lia.
      * rewrite lookup_partial_alter_ne by lia. destruct Hend; [left; lia|by right].
Qed.
End Safe.

Lemma stored_safe (k : nat) : forall T b l y,
  twf k T -> 0 <= b <= l -> l < cs k -> stored k T b l y -> safe k T b l.
Proof.
  induction k as [|k IH]; intros T b l y Hw Hb Hl Hs; [done|]. cbn [safe].
  assert (Hidx : b / cs k <= l / cs k) by (apply Z.div_le_mono; [apply cs_pos|lia]).
  apply (lsafe_upto _ _ _ _ (l / cs k)); [done|unfold span_len; lia| |left; unfold span_len; lia].
  intros i Hi. destruct (Hs i Hi) as (c & Hc & Hst). exists c. split; [done|].
  intros Hm o T1 -> Hno. cbn in Hst. rewrite twf_S in Hw. destruct (Hw i _ Hc) as (_ & _ & _ & Hsw & _).
  destruct (Hsw T1 eq_refl) as [Hne Hw1]. split; [done|].
  destruct Hst as [[-> _]|(_ & T2 & [= <-] & Hst)].
  - specialize (Hno _ eq_refl). cbn [rb rl] in Hno. by rewrite !Z.eqb_refl in Hno.
  - destruct (part_spec k b l Hb i Hi) as (P1 & P2 & _). by apply (IH _ _ _ y).
Qed.

Lemma part_not_empty (x : attr) (k : nat) (T : tbl) (b l : Z) (Tp : tbl) : part x k T b l Tp -> Tp <> ∅ /\ T <> ∅.
Proof.
  destruct k as [|k]; [done|]. intros (m & o & s & sp & Hm & _ & HT & HTp & _). split; intros ->.
  - specialize (HTp m). by rewrite lookup_empty, decide_False, decide_True in HTp by lia.
  - by rewrite lookup_empty in HT.
Qed.

(** An interrupted grant can be revoked. *)
Lemma part_safe (x : attr) (k : nat) : forall T b l Tp,
  twf k T -> seg_in k b l -> vacant k T b l -> part x k T b l Tp -> safe k Tp b l.
Proof.
  induction k as [|k IH]; intros T b l Tp Hw Hin Hv Hp; [done|].
  pose proof Hp as (m & o & s & sp & Hm & Hmid & HTm & HTp & Hsp). cbn [safe].
  destruct (seg_parts k T b l m Hin Hw Hv Hm) as (P1 & P2 & P3 & P4). rewrite HTm in P1, P3.
  destruct (vacant_cell k _ _ o s (P1 _ eq_refl) P2 P3) as (Hd & Ht & Hva & Hk).
  assert (Htm : Tp !! m = Some (Cell (Some o) sp)) by (by rewrite HTp, decide_False, decide_True by lia).
  apply (lsafe_upto _ _ _ _ m); [lia|unfold span_len; lia| |right].
  - intros i Hi. destruct (decide (i = m)) as [-> |Hne].
    + eexists. split; [done|]. intros _ o' T1 [= <- ->] _.
      destruct Hsp as [[_ ?]|(T0 & Tp1 & -> & [= <-] & Hp1)]; [done|].
      split; [by destruct (part_not_empty _ _ _ _ _ _ Hp1)|]. by eapply IH.
    + assert (Hi' : b / cs k <= i <= l / cs k) by lia.
      destruct (seg_parts k T b l i Hin Hw Hv Hi') as (Q1 & Q2 & Q3 & Q4).
      destruct (fill_cases x k (middle k b l i) (pb k b i) (pl k l i) (T !! i) Q2 Q1 Q3 Q4) as (c' & Hins & Hcase).
      exists c'. split; [by rewrite HTp, decide_True, Hins by lia|]. intros Hm0 o' T1 -> Hno.
      inversion Hcase as [|T2 Hmf|o2 s2 T2 Hmf Hk2 Hi2 Ht2 Hva2 Hdis]; subst.
      * specialize (Hno _ eq_refl). cbn [rb rl] in Hno. by rewrite !Z.eqb_refl in Hno.
      * destruct (ins_is_sound x k _ _ _ _ Hk2 Ht2 Q2 Hva2 Hi2) as (W2 & N2 & _). split; [done|].
        pose proof Q2 as (? & ? & ?). eapply stored_safe; [done|lia|done|]. by apply (ins_stored x k (default ∅ s2)).
  - cbn beta. rewrite Htm, Hmid. cbn [rem_cell]. destruct (P1 _ eq_refl) as (_ & Hg & _ & _). destruct (Hg o eq_refl) as (? & ? & _).
    assert ((rb o =? pb k b m) && (rl o =? pl k l m) = false) as ->.
    { apply andb_false_iff. rewrite !Z.eqb_neq. destruct P2. lia. }
    destruct Hsp as [[_ ->]|(T1 & Tp1 & -> & -> & Hp1)]; [done|].
    by rewrite (rem_part x k _ _ _ _ Ht P2 Hva Hp1).
Qed.

(** ** The walk of the hardware *)

Lemma level_index_mod (k : nat) (a : Z) : (k < 4)%nat -> GET_LEVEL_BLOCK_INDEX a (level_of k) = (a mod cs (S k)) / cs k.
Proof.
  intros Hk. unfold GET_LEVEL_BLOCK_INDEX.
  assert (Hb : exists hi, g_mapt_range_bits (level_of k) = (hi, 9 * Z.of_nat k + 12) /\
                 GET_BITS_MASK (hi - (9 * Z.of_nat k + 12) + 1) = Z.ones 9).
  { do 4 (destruct k as [|k]; [by eexists|]). lia. }
  destruct Hb as (hi & -> & ->). rewrite cs_shift, Z.land_ones by lia. change (2 ^ 9) with 512.
  rewrite cs_S, (Z.mul_comm 512). pose proof (cs_pos k). rewrite Z.rem_mul_r by lia.
  rewrite (Z.mul_comm (cs k)), Z.div_add by lia. by rewrite (Z.div_small (a mod cs k)) by (apply Z.mod_pos_bound; lia).
Qed.

Lemma walk_look (k : nat) : forall c loc p id T a, (k <= 4)%nat -> rep k c loc p id T ->
  walk k c (4 - Z.of_nat k) (id / 4) (512 * (id mod 4)) a = look k T (a mod cs k).
Proof.
  induction k as [|k IH]; intros c loc p id T a Hk Hr; [done|]. replace (4 - Z.of_nat (S k)) with (level_of k) by lia.
  cbn [walk look]. rewrite level_index_mod, level_mask, cs_land by lia. pose proof (cs_pos k).
  assert (Hmm : (a mod cs (S k)) mod cs k = a mod cs k).
  { rewrite cs_S, (Z.mul_comm 512), Z.rem_mul_r by lia. rewrite (Z.mul_comm (cs k)), Z.mod_add by lia. by rewrite Z.mod_mod by lia. }
  rewrite Hmm. set (i := a mod cs (S k) / cs k).
  assert (Hi : index_ok i).
  { unfold i, index_ok. pose proof (Z.mod_pos_bound a (cs (S k)) (cs_pos _)) as Hm. rewrite cs_S in *.
    split; [apply Z.div_pos; lia|apply Z.div_lt_upper_bound; lia]. }
  pose proof Hr as (Hl & Hc & _ & Hcells & _). specialize (Hcells i Hi).
  unfold cnt in Hc. unfold nodeat in Hcells. destruct (xa c !! (id / 4)) as [b|]; [|done]. cbn [mbind option_bind].
  set (n := nodes b _) in *. destruct (T !! i) as [[o s]|]; cbn [cell_rep own sub] in *; [|by rewrite Hcells].
  destruct Hcells as (-> & Ho & Hs). cbn [negb].
  assert (Hrest : (if type n then None else walk k c (level_of k + 1) (next_lv_index n) (node_offset n) a) =
                  match s with Some T' => look k T' (a mod cs k) | None => None end).
  { destruct s as [T'|]; [|by rewrite Hs]. destruct Hs as (-> & id' & [-> ->] & Hr').
    replace (level_of k + 1) with (4 - Z.of_nat k) by lia. eapply IH; [lia|done]. }
  destruct o as [g|]; cbn [own_rep] in Ho.
  - destruct Ho as (-> & -> & -> & ->). cbn [andb]. destruct ((rb g <=? _) && _); [done|exact Hrest].
  - rewrite Ho. exact Hrest.
Qed.

(** ** The table and the segments it holds *)

(** The granted segments, by their base: limit and attributes. *)
Abbreviation segs := (gmap Z (Z * attr)).
Definition granted (G : segs) (a : Z) (x : attr) : Prop := exists b l, G !! b = Some (l, x) /\ b <= a <= l.
Definition is_free (G : segs) (b l : Z) : Prop := forall a x, b <= a <= l -> ~ granted G a x.

(** A segment the table can hold. *)
Definition seg_ok (b l : Z) : Prop := 0 <= b <= l /\ l < 2 ^ 48 /\ (4096 | b).

Record holds (T : tbl) (G : segs) : Prop := {
  h_wf : twf 4 T;
  h_seg : forall b l x, G !! b = Some (l, x) -> seg_in 4 b l /\ stored 4 T b l x;
  h_disjoint : forall b1 l1 x1 b2 l2 x2, G !! b1 = Some (l1, x1) -> G !! b2 = Some (l2, x2) -> b1 <> b2 ->
    l1 < b2 \/ l2 < b1;
  h_all : forall a x, 0 <= a < cs 4 -> look 4 T a = Some x -> granted G a x;
}.

(** The memory holds the segments [G], and nothing else is allocated. *)
Definition table_inv (c : ummu_mapt_table_ctx) (G : segs) : Prop :=
  exists loc T, ginv c loc /\ live c loc /\ rep 4 c loc [] 0 T /\ holds T G.

Lemma seg_ok_in (b l : Z) : seg_ok b l <-> seg_in 4 b l.
Proof. unfold seg_ok, seg_in. by replace (cs 4) with (2 ^ 48) by (by vm_compute). Qed.

Lemma holds_vacant (T : tbl) (G : segs) (b l : Z) : holds T G -> seg_in 4 b l -> is_free G b l -> vacant 4 T b l.
Proof.
  intros H (Hb & Hl & _) Hf a Ha. destruct (look 4 T a) as [x|] eqn:E; [|done].
  by apply (h_all _ _ H) in E as E'; [apply (Hf a x) in E'|lia].
Qed.

Lemma holds_granted (T : tbl) (G : segs) (a : Z) (x : attr) : holds T G ->
  granted G a x -> look 4 T a = Some x.
Proof.
  intros H (b & l & HG & Ha). destruct (h_seg _ _ H b l x HG) as [(? & ? & ?) Hs].
  by eapply stored_look; [apply H| | |exact Hs|].
Qed.

(** Segments that do not meet. *)
Lemma free_disjoint (T : tbl) (G : segs) (b l b2 l2 : Z) (x2 : attr) : holds T G -> b <= l -> is_free G b l ->
  G !! b2 = Some (l2, x2) -> l2 < b \/ l < b2.
Proof.
  intros H Hbl Hf HG. destruct (decide (l2 < b \/ l < b2)) as [|Hn]; [done|].
  destruct (h_seg _ _ H b2 l2 x2 HG) as [(? & _) _].
  exfalso. apply (Hf (Z.max b b2) x2); [lia|]. exists b2, l2. split; [done|lia].
Qed.

Lemma holds_grant (T : tbl) (G : segs) (b l : Z) (x : attr) (T' : tbl) : holds T G -> seg_in 4 b l -> is_free G b l ->
  ins 4 x T b l = (T', true) -> holds T' (<[b := (l, x)]> G).
Proof.
  intros H Hin Hf E. pose proof (holds_vacant T G b l H Hin Hf) as Hv. pose proof Hin as (Hb & Hl & _).
  destruct (ins_is_sound x 4 T b l T' ltac:(done) (h_wf _ _ H) Hin Hv E) as (W & _ & L).
  assert (Hdis : forall b2 l2 x2, G !! b2 = Some (l2, x2) -> l2 < b \/ l < b2)
    by (intros; eapply free_disjoint; [done|lia|done|done]).
  split; [done| | |].
  - intros b2 l2 x2 [[<- [= <- <-]]|[Hne HG]]%lookup_insert_Some; [split; [done|]; apply (ins_stored x 4 T); by try apply H|].
    destruct (h_seg _ _ H _ _ _ HG) as [Hs2 Hst]. split; [done|]. apply (ins_keeps x 4 T b l); try done; [apply H|apply Hs2|by eapply Hdis].
  - intros b1 l1 x1 b2 l2 x2 [[<- [= <- <-]]|[N1 G1]]%lookup_insert_Some [[<- [= <- <-]]|[N2 G2]]%lookup_insert_Some Hne; try done.
    + destruct (Hdis _ _ _ G2); lia.
    + destruct (Hdis _ _ _ G1); lia.
    + by eapply h_disjoint.
  - intros a y Ha. rewrite L by done. destruct (inside b l a) eqn:Ei; intros Hy.
    + injection Hy as <-. apply inside_spec in Ei. exists b, l. by rewrite lookup_insert_eq.
    + apply (h_all _ _ H) in Hy as (b2 & l2 & HG & Ha2); [|done]. exists b2, l2. split; [|done].
      rewrite lookup_insert_ne; [done|]. intros <-. destruct (Hdis _ _ _ HG); lia.
Qed.

Lemma holds_ungrant (T : tbl) (G : segs) (b l : Z) (x : attr) (T' : tbl) : holds T G -> G !! b = Some (l, x) ->
  rem 4 T b l = (T', true) -> holds T' (delete b G).
Proof.
  intros H HG E. destruct (h_seg _ _ H b l x HG) as [(Hb & Hl & Hp) Hst].
  destruct (rem_is_sound 4 T b l x T' (h_wf _ _ H) Hb Hl Hst E) as (W & L).
  split; [done| | |].
  - intros b2 l2 x2 [Hne HG2]%lookup_delete_Some. destruct (h_seg _ _ H _ _ _ HG2) as [Hs2 Hst2]. split; [done|].
    apply (rem_keeps 4 T b l x T'); try done; [apply H|apply Hs2|apply Hs2|].
    destruct (h_disjoint _ _ H _ _ _ _ _ _ HG HG2 Hne); lia.
  - intros b1 l1 x1 b2 l2 x2 [N1 G1]%lookup_delete_Some [N2 G2]%lookup_delete_Some Hne. by eapply h_disjoint.
  - intros a y Ha. rewrite L by done. destruct (inside b l a) eqn:Ei; [done|]. intros Hy.
    apply (h_all _ _ H) in Hy as (b2 & l2 & HG2 & Ha2); [|done]. exists b2, l2. split; [|done].
    rewrite lookup_delete_ne; [done|]. intros <-. rewrite HG in HG2. injection HG2 as <- <-.
    apply inside_spec in Ha2. congruence.
Qed.

(** ** The operations *)

Lemma at_root (s : pstate) loc T : ginv (ctx s) loc -> live (ctx s) loc -> rep 4 (ctx s) loc [] 0 T -> root s = zero_node ->
  at_table 4 s loc Root [] 0 T.
Proof. intros Hg Hlv Hr Hz. split; try done; [by left|]. exists zero_node. unfold pnode. cbn. by rewrite Hz. Qed.

Lemma wp_run {A} (m : M A) (s : pstate) (Q : A -> pstate -> Prop) : wp m s Q -> exists y s', m s = Some (y, s') /\ Q y s'.
Proof. unfold wp. destruct (m s) as [[y s']|]; [|done]. intros H. by exists y, s'. Qed.

Lemma wp_and_run {A} (m : M A) (s : pstate) (P : A -> pstate -> Prop) : wp m s P ->
  wp m s (fun y s' => P y s' /\ m s = Some (y, s')).
Proof. unfold wp. by destruct (m s) as [[y s']|]. Qed.

(** The state in which the walk starts. *)
Definition with_root (s : pstate) : pstate :=
  {| ctx := ctx s; root := zero_node; lvl := lvl s; head_flag := head_flag s; gather := gather s; answers := answers s |}.

Definition req_ok (d : ummu_data_info) : Prop :=
  seg_ok (data_base d) (data_limit d) /\ (d_token_check d = 0 \/ d_token_check d = 1).

(** What a table from the stack is after revoking. *)
Lemma tab_post_root (s s' : pstate) loc n T' : tab_post 4 s loc Root [] 0 n T' s' ->
  exists loc', ginv (ctx s') loc' /\ live (ctx s') loc' /\ rep 4 (ctx s') loc' [] 0 T'.
Proof.
  intros (loc' & [(_ & Hat & _ & _)|(-> & Hg & Hlv & _ & Hr)]); exists loc'; [|done].
  split_and!; apply Hat.
Qed.

Lemma wp_table_grant (answer : nat -> Z) (d : ummu_data_info) (s : pstate) (G : segs) :
  table_inv (ctx s) G -> req_ok d -> is_free G (data_base d) (data_limit d) ->
  wp (ummu_table_op answer UMMU_GRANT d) s (fun r s' =>
    (r = 0 /\ table_inv (ctx s') (<[data_base d := (data_limit d, data_attr d)]> G)) \/
    (r <> 0 /\ table_inv (ctx s') G /\
     ((exists j, answer j <> 0) \/ expan (ctx s) = false \/ 2048 <= Z.of_nat (size (level_block_bitmap (ctx s))) + 30))).
Proof.
  intros (loc & T & Hg & Hlv & Hr & Hh) [Hs Htok] Hf. rewrite seg_ok_in in Hs.
  pose proof (holds_vacant T G _ _ Hh Hs Hf) as Hv. pose proof (h_wf _ _ Hh) as Hw. pose proof Hs as (Hb & Hl & _).
  unfold ummu_table_op. apply wp_bind. change (wp (set_node Root zero_node) s ?Q) with (Q tt (with_root s)). cbn beta.
  assert (Hat : at_table 4 (with_root s) loc Root [] 0 T) by (by apply at_root).
  apply wp_bind. eapply wp_mono.
  { apply wp_and_run. by apply (wp_fill answer d Htok 4 MAX_DEPTH Root [] 0); (lia || unfold MAX_DEPTH; lia || done). }
  intros r s1 [(loc1 & T1 & Hat1 & Hso & R1 & Hgr & Hres) Erun]. apply keeps_fill in Erun. cbn [ctx with_root] in Erun.
  destruct Hres as [[-> Hins]|(Hr0 & Hwhy & Hpart)].
  - cbn [ctrue Z.eqb negb]. apply wp_ret. left. split; [done|]. exists loc1, T1. split_and!; try apply Hat1. by eapply holds_grant.
  - rewrite (proj2 (ctrue_nz r) Hr0). apply wp_bind. eapply wp_mono.
    { apply (wp_clear d 4 MAX_DEPTH Root [] 0 s1 loc1 T1 _ _ zero_node); try done; try (unfold MAX_DEPTH; lia).
      - unfold pnode. cbn. by rewrite R1.
      - by destruct (part_not_empty _ _ _ _ _ _ Hpart).
      - by eapply part_safe. }
    intros r2 s2 [_ Hpost]. rewrite (rem_part _ 4 T _ _ T1 Hw Hs Hv Hpart) in Hpost. apply tab_post_root in Hpost as (loc2 & H1 & H2 & H3).
    apply wp_ret. right. split_and!; [done|by exists loc2, T|]. destruct Hwhy as [Hj|[He|Hfull]]; [by left|right; left; congruence|].
    right. right. rewrite (gi_bm _ _ Hg), size_dom.
    assert (Hsub : list_to_set (seqZ 0 2048) ⊆ dom loc1).
    { intros id Hid. apply elem_of_list_to_set, elem_of_seqZ in Hid. apply Hfull. lia. }
    apply subseteq_size in Hsub. rewrite size_list_to_set, length_seqZ, size_dom in Hsub by apply NoDup_seqZ.
    unfold grown in Hgr. change (budget 4) with 30 in Hgr. lia.
Qed.

Lemma wp_table_ungrant (answer : nat -> Z) (d : ummu_data_info) (s : pstate) (G : segs) (x : attr) :
  table_inv (ctx s) G -> G !! data_base d = Some (data_limit d, x) ->
  wp (ummu_table_op answer UMMU_UNGRANT d) s (fun r s' => r = 0 /\ table_inv (ctx s') (delete (data_base d) G)).
Proof.
  intros (loc & T & Hg & Hlv & Hr & Hh) HG. destruct (h_seg _ _ Hh _ _ _ HG) as [(Hb & Hl & Hp) Hst].
  pose proof (h_wf _ _ Hh) as Hw. destruct (rem_run 3 T _ _ x Hw Hb Hl Hst) as (T' & E & _).
  unfold ummu_table_op. apply wp_bind. change (wp (set_node Root zero_node) s ?Q) with (Q tt (with_root s)). cbn beta.
  assert (Hat : at_table 4 (with_root s) loc Root [] 0 T) by (by apply at_root).
  eapply wp_mono.
  { apply (wp_clear d 4 MAX_DEPTH Root [] 0 (with_root s) loc T _ _ zero_node); try done; try (unfold MAX_DEPTH; lia).
    - intros ->. pose proof (stored_look 4 ∅ _ _ x (data_base d) Hw Hb Hl Hst ltac:(lia)) as Hx. by rewrite look_empty in Hx.
    - by eapply stored_safe. }
  intros r s1 [Hr0 Hpost]. rewrite E in *. split; [by apply Hr0|]. apply tab_post_root in Hpost as (loc2 & H1 & H2 & H3).
  exists loc2, T'. split_and!; try done. by eapply holds_ungrant.
Qed.

Lemma holds_token (T : tbl) (G : segs) (b l : Z) (x x' : attr) : holds T G -> G !! b = Some (l, x) ->
  holds (upd x' 4 T b l) (<[b := (l, x')]> G).
Proof.
  intros H HG. destruct (h_seg _ _ H b l x HG) as [Hin Hst]. pose proof Hin as (Hb & Hl & Hp).
  destruct (upd_is_ok x' 4 T b l x (h_wf _ _ H) Hb Hl Hst) as (W & _ & S2 & L & K).
  assert (Hdis : forall b2 l2 x2, b <> b2 -> G !! b2 = Some (l2, x2) -> l < b2 \/ l2 < b)
    by (intros; by eapply h_disjoint).
  split; [done| | |].
  - intros b2 l2 x2 [[<- [= <- <-]]|[Hne HG2]]%lookup_insert_Some; [done|].
    destruct (h_seg _ _ H _ _ _ HG2) as [Hs2 Hst2]. split; [done|]. apply K; [apply Hs2| |done].
    destruct (Hdis b2 l2 x2 Hne HG2); lia.
  - intros b1 l1 x1 b2 l2 x2 [[<- [= <- <-]]|[N1 G1]]%lookup_insert_Some [[<- [= <- <-]]|[N2 G2]]%lookup_insert_Some Hne; try done.
    + by eapply Hdis.
    + destruct (Hdis _ _ _ N1 G1); lia.
    + by eapply h_disjoint.
  - intros a y Ha. rewrite L by done. destruct (inside b l a) eqn:Ei; intros Hy.
    + injection Hy as <-. apply inside_spec in Ei. exists b, l. by rewrite lookup_insert_eq.
    + apply (h_all _ _ H) in Hy as (b2 & l2 & HG2 & Ha2); [|done]. exists b2, l2. split; [|done].
      rewrite lookup_insert_ne; [done|]. intros <-. rewrite HG in HG2. injection HG2 as <- <-.
      apply inside_spec in Ha2. congruence.
Qed.

Lemma wp_table_token (answer : nat -> Z) (op : ummu_grant_op_type) (d : ummu_data_info) (s : pstate) (G : segs) (x x' : attr) :
  table_inv (ctx s) G -> G !! data_base d = Some (data_limit d, x) -> a_check x = 1 ->
  token_attr op (d_tokenval d) x = Some x' ->
  wp (ummu_table_op answer op d) s (fun r s' => r = 0 /\ table_inv (ctx s') (<[data_base d := (data_limit d, x')]> G)).
Proof.
  intros (loc & T & Hg & Hlv & Hr & Hh) HG Hx Hx'. destruct (h_seg _ _ Hh _ _ _ HG) as [Hin Hst].
  unfold ummu_table_op. apply wp_bind. change (wp (set_node Root zero_node) s ?Q) with (Q tt (with_root s)). cbn beta.
  assert (Hat : at_table 4 (with_root s) loc Root [] 0 T) by (by apply at_root).
  assert (Hop : op = UMMU_ADD_TOKEN \/ op = UMMU_REMOVE_TOKEN) by (destruct op; try done; auto).
  assert (H : wp (ummu_table_update_token_by_level MAX_DEPTH op d 0 Root (data_base d) (data_limit d)) (with_root s)
    (fun r s' => r = 0 /\ table_inv (ctx s') (<[data_base d := (data_limit d, x')]> G))).
  { eapply wp_mono; [apply (wp_token op d x x' Hx Hx' 4 MAX_DEPTH Root [] 0 (with_root s) loc T); try done; try (unfold MAX_DEPTH; lia); apply Hh|].
    intros r s1 (-> & Hat1 & _ & _). split; [done|]. exists loc, (upd x' 4 T (data_base d) (data_limit d)).
    split_and!; try apply Hat1. by eapply holds_token. }
  destruct Hop as [-> | ->]; exact H.
Qed.

(** ** What the hardware sees *)

Lemma hw_look (c : ummu_mapt_table_ctx) loc T a : rep 4 c loc [] 0 T -> 0 <= a < 2 ^ 48 -> hw_grants c a = look 4 T a.
Proof.
  intros Hr Ha. unfold hw_grants. pose proof (walk_look 4 c loc [] 0 T a ltac:(lia) Hr) as Hw.
  change (4 - Z.of_nat 4) with 0 in Hw. change (0 / 4) with 0 in Hw. change (512 * (0 mod 4)) with 0 in Hw. rewrite Hw.
  by rewrite Z.mod_small by (change (cs 4) with (2 ^ 48); lia).
Qed.

Lemma table_hw (c : ummu_mapt_table_ctx) (G : segs) (a : Z) (x : attr) : table_inv c G -> 0 <= a < 2 ^ 48 ->
  hw_grants c a = Some x <-> granted G a x.
Proof.
  intros (loc & T & Hg & Hlv & Hr & Hh) Ha. rewrite (hw_look c loc T a Hr Ha). split.
  - apply (h_all _ _ Hh). by change (cs 4) with (2 ^ 48).
  - by apply holds_granted.
Qed.

(** ** Memory *)

Lemma table_init (e fb : bool) : table_inv (mapt_init e fb) ∅.
Proof.
  exists {[ 0 := [] ]}, ∅.
  assert (H4 : forall id : Z, id / 4 = 0 <-> 0 <= id < 4) by (intros; zlia).
  assert (Hx : forall bi blk, xa (mapt_init e fb) !! bi = Some blk -> bi = 0 /\
    blk = {| block_id := 0; level_cnt := 1; level_entry_cnt := [0; 0; 0; 0]; nodes := fun _ => zero_node |}).
  { intros bi blk Hb. cbn in Hb. apply lookup_singleton_Some in Hb as [<- <-]. done. }
  assert (Hn : forall id i, nodeat (mapt_init e fb) id i = zero_node).
  { intros id i. unfold nodeat. destruct (xa _ !! (id / 4)) as [blk|] eqn:E; [|done]. by apply Hx in E as [_ ->]. }
  assert (Hc : forall id, present (mapt_init e fb) id -> cnt (mapt_init e fb) id = Some 0).
  { intros id [blk E]. unfold cnt. rewrite E. apply Hx in E as [_ ->]. apply small_index. }
  assert (H0 : present (mapt_init e fb) 0) by (by exists {| block_id := 0; level_cnt := 1; level_entry_cnt := [0; 0; 0; 0]; nodes := fun _ => zero_node |}).
  split_and!.
  - split.
    + cbn. by rewrite dom_singleton_L.
    + done.
    + intros id p [<- <-]%lookup_singleton_Some. split; [lia|done].
    + intros bi blk Hb. apply Hx in Hb as [-> ->]. split_and!; try done; lia.
    + intros id Hp _. split; [by apply Hc|]. intros. apply Hn.
    + done.
  - intros bi [blk Hb]. apply Hx in Hb as [-> _]. by vm_compute.
  - cbn [rep]. split_and!; [done|by rewrite Hc| | |].
    + intros i [c0 Hi]. by rewrite lookup_empty in Hi.
    + intros i _. rewrite lookup_empty. apply Hn.
    + intros id' q [<- <-]%lookup_singleton_Some _. by left.
  - split.
    + apply twf_empty.
    + intros b l x Hb. by rewrite lookup_empty in Hb.
    + intros ? ? ? ? ? ? Hb. by rewrite lookup_empty in Hb.
    + intros a x _. by rewrite look_empty.
Qed.

(** Only the root's level block is in use when nothing is granted. *)
Lemma table_empty (c : ummu_mapt_table_ctx) : table_inv c ∅ ->
  level_block_bitmap c = {[ 0 ]} /\ dom (xa c) = {[ 0 ]} /\ block_cnt c = 1.
Proof.
  intros (loc & T & Hg & Hlv & Hr & Hh).
  assert (T = ∅) as ->.
  { destruct (decide (T = ∅)) as [|Hne]; [done|]. destruct (tree_live 4 T (h_wf _ _ Hh) Hne) as (a & Ha & Hl).
    destruct (look 4 T a) as [x|] eqn:E; [|done]. apply (h_all _ _ Hh) in E as (b & l & Hb & _); [|done].
    by rewrite lookup_empty in Hb. }
  destruct Hr as (Hl0 & _ & _ & _ & Hcov).
  assert (Hd : dom loc = {[ 0 ]}).
  { apply set_eq. intros id. rewrite elem_of_singleton, elem_of_dom. split.
    - intros [q Hq]. destruct (Hcov id q Hq) as [[_ ->]|(i & o & T' & _ & E)]; [by exists q|done|by rewrite lookup_empty in E].
    - intros ->. by exists []. }
  assert (Hxa : dom (xa c) = {[ 0 ]}).
  { apply set_eq. intros bi. rewrite elem_of_singleton, elem_of_dom. split.
    - intros Hb. apply Hlv in Hb as Hu. rewrite Hd in Hu. destruct (decide (bi = 0)) as [|Hn]; [done|]. unfold used, bit in Hu.
      rewrite !decide_False in Hu by (rewrite elem_of_singleton; lia). done.
    - intros ->. destruct (gi_loc _ _ Hg 0 [] Hl0) as [_ Hp]. done. }
  split_and!; [by rewrite (gi_bm _ _ Hg)|done|]. rewrite (gi_cnt _ _ Hg), <- size_dom, Hxa, size_singleton. done.
Qed.
