(* ===== verification/UmmuPermSeg.v ===== *)
(** * Granting and revoking access: the segment manager and the entry points

    [drivers/iommu/hisilicon/seg_tree.c] and [seg_mng.c] keep the granted segments of a
    table in a maple tree; [ummu_perm_grant] and [ummu_perm_ungrant] of [perm_table.c] check
    a request against it, change the permission table and then the tree.  The maple tree is
    the kernel's: its operations are a class, its laws another one. *)

From S2P Require Import Prelude UmmuQueue UmmuCmd UmmuPerm.

(** ** What the kernel provides *)

(** A maple tree that stores ranges of indices, each with a pointer.  [mtree_insert_range]
    also takes the answer of the allocator of its nodes. *)
Class MapleTree (M : Type) := {
  mt_init : M;
  mtree_insert_range : M -> Z -> Z -> Z -> Z -> M * Z;
  mas_find : M -> Z -> option Z;
  mtree_erase : M -> Z -> M * option Z;
  mtree_entries : M -> list Z;
}.

(** The constants of the kernel's header [linux/ummu_core.h]. *)
Class UmmuCodes := {
  MAPT_PERM_R : Z; MAPT_PERM_W : Z; MAPT_PERM_RW : Z;
  MAPT_PERM_ATOMIC_R : Z; MAPT_PERM_ATOMIC_W : Z; MAPT_PERM_ATOMIC_RW : Z;
  UMMU_EBIT_OFF : Z; UMMU_EBIT_END : Z;
}.

(** ** Segments *)

(** [struct ummu_seg_info]. *)
Record ummu_seg_info := {
  start_addr : Z;
  grant_size : Z;
  s_permission : Z;
  s_e_bit : Z;
  s_token_check : Z;
  token_count : Z;
  token_val0 : Z;
  token_val1 : Z;
}.

Definition set_seg_tokens (g : ummu_seg_info) (n t0 t1 : Z) : ummu_seg_info :=
  {| start_addr := start_addr g; grant_size := grant_size g; s_permission := s_permission g;
     s_e_bit := s_e_bit g; s_token_check := s_token_check g; token_count := n;
     token_val0 := t0; token_val1 := t1 |}.

Inductive range_compare_ret := RANGE_MATCH | RANGE_OVERLAP | RANGE_NOT_EXIST.
#[global] Instance range_compare_ret_eq : EqDecision range_compare_ret.
Proof. solve_decision. Defined.

Definition ummu_compare (left size : Z) (seg : ummu_seg_info) : range_compare_ret :=
  if (start_addr seg =? left) && (grant_size seg =? size) then RANGE_MATCH
  else if u64 (left + size) <? start_addr seg then RANGE_NOT_EXIST
  else RANGE_OVERLAP.

(** What is asked for: the fields of [struct ummu_data_info] the entry points set. *)
Record ummu_grant_param := {
  p_info : ummu_data_info;
  data_size : Z;
  bytoken : Z;
}.

Section Mng.
Context `{MapleTree MT}.

(** The manager of a table: the tree of pointers, and the memory they point to. *)
Record seg_mng := { seg_tree : MT; seg_heap : gmap Z ummu_seg_info }.

(** [ummu_find_seg]: [None] is an access to memory that was freed. *)
Definition ummu_find_seg (m : seg_mng) (left size : Z) :
    option (range_compare_ret * option (Z * ummu_seg_info)) :=
  match mas_find (seg_tree m) left with
  | None => Some (RANGE_NOT_EXIST, None)
  | Some p =>
    match seg_heap m !! p with
    | None => None
    | Some seg => Some (ummu_compare left size seg, Some (p, seg))
    end
  end.

Definition ummu_insert_seg (m : seg_mng) (p left size ins : Z) : seg_mng * Z :=
  let '(t, r) := mtree_insert_range (seg_tree m) left (u64 (left + size)) p ins in
  ({| seg_tree := t; seg_heap := seg_heap m |}, if ctrue r then - EINVAL else 0).

Definition ummu_delete_seg (m : seg_mng) (left size : Z) : option (seg_mng * Z) :=
  match ummu_find_seg m left size with
  | None => None
  | Some (RANGE_NOT_EXIST, _) => Some (m, - ENXIO)
  | Some (RANGE_OVERLAP, _) => Some (m, - ERANGE)
  | Some (RANGE_MATCH, _) =>
    let '(t, data) := mtree_erase (seg_tree m) left in
    match data with
    | None => Some ({| seg_tree := t; seg_heap := seg_heap m |}, - EINVAL)
    | Some p => Some ({| seg_tree := t; seg_heap := delete p (seg_heap m) |}, 0)
    end
  end.

(** [mas_for_each] frees every entry. *)
Definition ummu_destroy_seg_tree (m : seg_mng) : gmap Z ummu_seg_info :=
  foldr (fun p h => delete p h) (seg_heap m) (mtree_entries (seg_tree m)).

(** ** The manager (seg_mng.c) *)

Definition ummu_table_param_check (seg : ummu_seg_info) (d : ummu_data_info) : ummu_grant_op_type :=
  if (s_token_check seg =? 1) && (d_token_check d =? 1) && (s_permission seg =? d_perm d) &&
     (s_e_bit seg =? d_e_bit d) && (token_count seg =? 1)
  then UMMU_ADD_TOKEN
  else UMMU_OP_END.

Definition ummu_ungrant_param_check (seg : ummu_seg_info) (q : ummu_grant_param) : ummu_grant_op_type :=
  if bytoken q =? 0 then UMMU_UNGRANT
  else if s_token_check seg =? 0 then UMMU_OP_END
  else if (token_val0 seg =? d_tokenval (p_info q)) || (token_val1 seg =? d_tokenval (p_info q)) then
    if token_count seg =? 1 then UMMU_UNGRANT
    else if token_count seg =? UMMU_MAX_TOKEN_NUM then UMMU_REMOVE_TOKEN
    else UMMU_OP_END
  else UMMU_OP_END.

Definition ummu_remove_tokenval (tokenval : Z) (g : ummu_seg_info) : ummu_seg_info :=
  if token_val0 g =? tokenval then set_seg_tokens g 1 (token_val1 g) (token_val1 g)
  else if token_val1 g =? tokenval then set_seg_tokens g 1 (token_val0 g) (token_val0 g)
  else set_seg_tokens g 1 (token_val0 g) (token_val1 g).

(** The part of [ummu_grant_check] for a table. *)
Definition table_grant_check (m : seg_mng) (q : ummu_grant_param) : option ummu_grant_op_type :=
  match ummu_find_seg m (data_base (p_info q)) (u64 (data_size q - 1)) with
  | None => None
  | Some (RANGE_MATCH, Some (_, seg)) => Some (ummu_table_param_check seg (p_info q))
  | Some (RANGE_MATCH, None) => None
  | Some (RANGE_OVERLAP, _) => Some UMMU_OP_END
  | Some (RANGE_NOT_EXIST, _) => Some UMMU_GRANT
  end.

Definition table_ungrant_check (m : seg_mng) (q : ummu_grant_param) : option ummu_grant_op_type :=
  match ummu_find_seg m (data_base (p_info q)) (u64 (data_size q - 1)) with
  | None => None
  | Some (RANGE_MATCH, Some (_, seg)) => Some (ummu_ungrant_param_check seg q)
  | Some _ => Some UMMU_OP_END
  end.

(** [kz] is the answer of [kzalloc], [ins] the one of the allocator of the tree. *)
Definition ummu_insert_new_addr (m : seg_mng) (q : ummu_grant_param) (kz : option Z) (ins : Z) : seg_mng * Z :=
  match kz with
  | None => (m, - ENOMEM)
  | Some p =>
    let d := p_info q in
    let tok v := if ctrue (d_token_check d) then v else 0 in
    let g := {| start_addr := data_base d; grant_size := u64 (data_size q - 1);
                s_permission := d_perm d; s_e_bit := d_e_bit d; s_token_check := d_token_check d;
                token_count := tok 1; token_val0 := tok (d_tokenval d); token_val1 := tok (d_tokenval d) |} in
    let m1 := {| seg_tree := seg_tree m; seg_heap := <[p := g]> (seg_heap m) |} in
    let '(m2, r) := ummu_insert_seg m1 p (start_addr g) (grant_size g) ins in
    (if ctrue r then {| seg_tree := seg_tree m2; seg_heap := delete p (seg_heap m2) |} else m2, r)
  end.

Definition ummu_delete_addr (m : seg_mng) (q : ummu_grant_param) : option (seg_mng * Z) :=
  ummu_delete_seg m (data_base (p_info q)) (u64 (data_size q - 1)).

Definition ummu_token_update (m : seg_mng) (q : ummu_grant_param) (op : ummu_grant_op_type) : option (seg_mng * Z) :=
  match ummu_find_seg m (data_base (p_info q)) (u64 (data_size q - 1)) with
  | None => None
  | Some (RANGE_MATCH, Some (p, seg)) =>
    let seg' := match op with
                | UMMU_REMOVE_TOKEN => ummu_remove_tokenval (d_tokenval (p_info q)) seg
                | _ => set_seg_tokens seg UMMU_MAX_TOKEN_NUM (token_val0 seg) (d_tokenval (p_info q))
                end in
    Some ({| seg_tree := seg_tree m; seg_heap := <[p := seg']> (seg_heap m) |}, 0)
  | Some _ => Some (m, - EINVAL)
  end.

(** ** Entry mode: one node *)

Definition ENTRY_ADDR_LOW (addr : Z) : Z := FIELD_GET (GENMASK 31 0) addr.
Definition ENTRY_ADDR_HIGH (addr : Z) : Z := FIELD_GET (GENMASK 47 32) addr.

(** [struct ummu_mapt_entry_node]: the fields of a table node that it has. *)
Definition ummu_entry_fill_node (n : node) (d : ummu_data_info) : node :=
  let tok := d_token_check d =? 1 in
  {| valid := true; type := type n; next_block := next_block n; e_bit := uwrap 1 (d_e_bit d);
     permission := uwrap 6 (d_perm d); f_bit := f_bit n; next_lv_offset_low := next_lv_offset_low n;
     next_lv_offset_high := next_lv_offset_high n; next_lv_index := next_lv_index n;
     base_low := ENTRY_ADDR_LOW (data_base d); base_high := ENTRY_ADDR_HIGH (data_base d);
     token_check := uwrap 1 (d_token_check d);
     limit_low := ENTRY_ADDR_LOW (data_limit d); limit_high := ENTRY_ADDR_HIGH (data_limit d);
     nonce := if tok then 1 else nonce n;
     token_val_0 := if tok then d_tokenval d else token_val_0 n;
     token_val_1 := if tok then d_tokenval d else token_val_1 n |}.

Definition ummu_entry_param_check (n : node) (d : ummu_data_info) : ummu_grant_op_type :=
  if negb (valid n) then UMMU_GRANT
  else if (node_base n =? data_base d) && (node_limit n =? data_limit d) &&
          ((token_check n =? 1) && (d_token_check d =? 1)) && (permission n =? u32 (d_perm d)) &&
          (e_bit n =? d_e_bit d) && (nonce n =? 1)
  then UMMU_ADD_TOKEN
  else UMMU_OP_END.

Definition ummu_entry_ungrant_param_check (n : node) (q : ummu_grant_param) : ummu_grant_op_type :=
  let d := p_info q in
  if negb (valid n) then UMMU_OP_END
  else if negb (node_base n =? data_base d) || negb (node_limit n =? data_limit d) then UMMU_OP_END
  else if bytoken q =? 0 then UMMU_UNGRANT
  else if token_check n =? 1 then
    if negb (token_val_0 n =? d_tokenval d) && negb (token_val_1 n =? d_tokenval d) then UMMU_OP_END
    else if nonce n =? 1 then UMMU_UNGRANT
    else if nonce n =? UMMU_MAX_TOKEN_NUM then UMMU_REMOVE_TOKEN
    else UMMU_OP_END
  else UMMU_OP_END.

Definition ummu_entry_op (op : ummu_grant_op_type) (n : node) (d : ummu_data_info) : node * Z :=
  match op with
  | UMMU_GRANT => (ummu_entry_fill_node n d, 0)
  | UMMU_ADD_TOKEN => let '(r, n') := ummu_add_token n (d_tokenval d) in (n', r)
  | UMMU_REMOVE_TOKEN => let '(r, n') := ummu_remove_token n (d_tokenval d) in (n', r)
  | UMMU_UNGRANT => (zero_node, 0)
  | UMMU_OP_END => (n, - EINVAL)
  end.

(** ** The state of a domain *)

(** [block_base] of [struct ummu_mapt_info], by its mode. *)
Inductive mapt_base :=
  | EntryBase (entry_block : node)
  | TableBase (table_ctx : ummu_mapt_table_ctx) (granted_addr_mng : seg_mng)
  | NoBase.

Record ummu_mapt_info := {
  base : mapt_base;
  mi_valid : bool;
  positive_plbi : bool;
}.

Definition set_base (mi : ummu_mapt_info) (b : mapt_base) : ummu_mapt_info :=
  {| base := b; mi_valid := mi_valid mi; positive_plbi := positive_plbi mi |}.

(** The answers of the kernel during one call. *)
Record answers_of := {
  ans_blocks : nat -> Z;
  ans_kz : option Z;
  ans_ins : Z;
  ans_random : Z;
}.

(** [struct iommu_plb_gather] and the requests in the cookie. *)
Record plb_out := { plb_va : Z; plb_size : Z; plb_reqs : list plbi_req }.

(** ** Checks of a request *)
Context `{UmmuCodes}.

Definition ummu_check_perm (perm : Z) : Z :=
  if (perm =? MAPT_PERM_R) || (perm =? MAPT_PERM_W) || (perm =? MAPT_PERM_RW) ||
     (perm =? MAPT_PERM_ATOMIC_R) || (perm =? MAPT_PERM_ATOMIC_W) || (perm =? MAPT_PERM_ATOMIC_RW)
  then 0 else - EINVAL.
Definition ummu_check_ebit (e : Z) : Z := if (UMMU_EBIT_END <=? e) || (e <? UMMU_EBIT_OFF) then - EINVAL else 0.

(** [struct ummu_token_info]. *)
Record ummu_token_info := { input : Z; tokenVal : Z }.

(** The value, and the token of the caller, which gets a random value. *)
Definition ummu_get_token (t : ummu_token_info) (old rnd : Z) : Z * ummu_token_info :=
  if input t =? 0 then (tokenVal t, t)
  else if input t =? 1 then (rnd, {| input := input t; tokenVal := rnd |})
  else (old, t).

Definition ummu_check_data (table_mode : bool) (data size perm e : Z) (token : option ummu_token_info) : Z :=
  if size =? 0 then - EINVAL
  else if ctrue (Z.shiftr data MAX_ADDRESS_BITS) || ctrue (Z.shiftr (u64 (size - 1)) MAX_ADDRESS_BITS) ||
          ctrue (Z.shiftr (u64 (data + size - 1)) MAX_ADDRESS_BITS) then - EINVAL
  else if ctrue (ummu_check_perm perm) || ctrue (ummu_check_ebit e) then - EINVAL
  else if match token with Some t => negb (input t =? 0) && negb (input t =? 1) | None => false end then - EINVAL
  else if table_mode && negb (IS_ALIGNED data (2 ^ MAPT_VPAGE_SHIFT)) then - EINVAL
  else 0.

(** [ummu_perm_data_preproc]; [tokenval] is not initialised before. *)
Definition ummu_perm_data_preproc (data size perm e : Z) (token : option ummu_token_info) (old rnd : Z) : ummu_data_info :=
  {| d_perm := perm; d_e_bit := e;
     d_tokenval := match token with Some t => fst (ummu_get_token t old rnd) | None => old end;
     data_base := data; data_limit := u64 (data + size - 1);
     d_token_check := match token with Some _ => 1 | None => 0 end |}.

(** ** The entry points *)

(** [struct ummu_seg_attr] of the cookie. *)
Record ummu_seg_attr := { sa_token : option ummu_token_info; sa_e_bit : Z }.

Definition start_state (c : ummu_mapt_table_ctx) (reqs : list plbi_req) : pstate :=
  {| ctx := c; root := zero_node; lvl := MAPT_MAX_LVL_INDEX; head_flag := false; gather := reqs; answers := 0 |}.

(** [ummu_update_info], for a table. *)
Definition ummu_update_info (op : ummu_grant_op_type) (m : seg_mng) (q : ummu_grant_param) (a : answers_of) :
    option (seg_mng * Z) :=
  match op with
  | UMMU_GRANT => Some (ummu_insert_new_addr m q (ans_kz a) (ans_ins a))
  | UMMU_ADD_TOKEN | UMMU_REMOVE_TOKEN => ummu_token_update m q op
  | UMMU_UNGRANT => ummu_delete_addr m q
  | UMMU_OP_END => Some (m, - EINVAL)
  end.

(** [ummu_grant_imp] (and [ummu_ungrant_imp]) with the [ummu_update_info] that follows. *)
Definition grant_imp_update (op : ummu_grant_op_type) (mi : ummu_mapt_info) (q : ummu_grant_param)
    (a : answers_of) (reqs : list plbi_req) : option (Z * ummu_mapt_info * list plbi_req) :=
  match base mi with
  | EntryBase n => let '(n', r) := ummu_entry_op op n (p_info q) in Some (r, set_base mi (EntryBase n'), reqs)
  | TableBase c m =>
    match ummu_table_op (ans_blocks a) op (p_info q) (start_state c reqs) with
    | None => None
    | Some (r, s) =>
      if ctrue r then Some (r, set_base mi (TableBase (ctx s) m), gather s)
      else
        match ummu_update_info op m q a with
        | None => None
        | Some (m', r') => Some (r', set_base mi (TableBase (ctx s) m'), gather s)
        end
    end
  | NoBase => None
  end.

Definition ummu_grant_check (mi : ummu_mapt_info) (q : ummu_grant_param) : option ummu_grant_op_type :=
  match base mi with
  | EntryBase n => Some (ummu_entry_param_check n (p_info q))
  | TableBase _ m => table_grant_check m q
  | NoBase => None
  end.
Definition ummu_ungrant_check (mi : ummu_mapt_info) (q : ummu_grant_param) : option ummu_grant_op_type :=
  match base mi with
  | EntryBase n => Some (ummu_entry_ungrant_param_check n q)
  | TableBase _ m => table_ungrant_check m q
  | NoBase => None
  end.

Definition is_table (mi : ummu_mapt_info) : bool := match base mi with TableBase _ _ => true | _ => false end.
Definition ummu_perm_table_mode_is_valid (mi : ummu_mapt_info) : bool :=
  match base mi with NoBase => false | _ => true end.
Definition op_end (op : ummu_grant_op_type) : bool := match op with UMMU_OP_END => true | _ => false end.

(** [ummu_perm_grant]: the result, the state, what is asked of the PLB if anything, and the
    token of the caller. *)
Definition ummu_perm_grant (ias : Z) (mi : ummu_mapt_info) (va size perm : Z) (cookie : option ummu_seg_attr)
    (old : Z) (a : answers_of) : 
    option (Z * ummu_mapt_info * option plb_out * option ummu_token_info) :=
  match cookie with
  | None => Some (- EINVAL, mi, None, None)
  | Some attr =>
    let data := Z.land va (GENMASK (ias - 1) 0) in
    if negb (mi_valid mi) then Some (- EINVAL, mi, None, sa_token attr)
    else if negb (ummu_perm_table_mode_is_valid mi) then Some (- EINVAL, mi, None, sa_token attr)
    else if ctrue (ummu_check_data (is_table mi) data size perm (sa_e_bit attr) (sa_token attr)) then Some (- EINVAL, mi, None, sa_token attr)
    else
      let d := ummu_perm_data_preproc data size perm (sa_e_bit attr) (sa_token attr) old (ans_random a) in
      let tok := match sa_token attr with
                 | Some t => Some (snd (ummu_get_token t old (ans_random a)))
                 | None => None
                 end in
      let q := {| p_info := d; data_size := size; bytoken := 0 |} in
      match ummu_grant_check mi q with
      | None => None
      | Some op =>
        if op_end op then Some (- EINVAL, mi, None, tok)
        else
          match grant_imp_update op mi q a [] with
          | None => None
          | Some (r, mi', reqs) =>
            Some (r, mi', Some {| plb_va := data_base d;
              plb_size := if positive_plbi mi || (match op with UMMU_GRANT => true | _ => false end && negb (ctrue r))
                          then 0 else size;
              plb_reqs := reqs |}, tok)
          end
      end
  end.

(** [ummu_perm_ungrant]; [tok] is the token of the cookie. *)
Definition ummu_perm_ungrant (ias : Z) (mi : ummu_mapt_info) (va size : Z) (tok : option Z) (old : Z)
    (a : answers_of) : option (Z * ummu_mapt_info * option plb_out) :=
  let data := Z.land va (GENMASK (ias - 1) 0) in
  if negb (mi_valid mi) then Some (- EINVAL, mi, None)
  else if negb (ummu_perm_table_mode_is_valid mi) then Some (- EINVAL, mi, None)
  else
    let d := {| d_perm := old; d_e_bit := old; d_tokenval := default old tok; data_base := data;
                data_limit := u64 (data + size - 1); d_token_check := old |} in
    let q := {| p_info := d; data_size := size; bytoken := match tok with Some _ => 1 | None => 0 end |} in
    if is_table mi && negb (IS_ALIGNED data (2 ^ MAPT_VPAGE_SHIFT)) then Some (- EINVAL, mi, None)
    else
      match ummu_ungrant_check mi q with
      | None => None
      | Some op =>
        if op_end op then Some (- EINVAL, mi, None)
        else
          match grant_imp_update op mi q a [] with
          | None => None
          | Some (r, mi', reqs) => Some (r, mi', Some {| plb_va := data; plb_size := size; plb_reqs := reqs |})
          end
      end.

(** A domain in table mode after [ummu_init_ksva_mapt], and one in entry mode, whose
    node is not valid and has no tokens. *)
Definition ksva_table (expan_ free_bit_ positive : bool) : ummu_mapt_info :=
  {| base := TableBase (mapt_init expan_ free_bit_) {| seg_tree := mt_init; seg_heap := ∅ |};
     mi_valid := true; positive_plbi := positive |}.
Definition ksva_entry (n : node) (positive : bool) : ummu_mapt_info :=
  {| base := EntryBase n; mi_valid := true; positive_plbi := positive |}.
End Mng.
#[global] Arguments seg_mng : clear implicits.
#[global] Arguments ummu_mapt_info : clear implicits.
