(* ===== verification/UmmuPermMng.v ===== *)
(** * Access to memory as granted and revoked by the driver

    The entry points of [UmmuPermSeg] on a domain in table mode, against a specification in
    terms of the granted segments: the segment manager and the permission table agree, a
    request changes both or neither, and the hardware grants exactly what was granted and not
    revoked. *)

From S2P Require Import Prelude UmmuQueue UmmuCmd UmmuPerm UmmuPermTree UmmuPermMem UmmuPermFill UmmuPermClear UmmuPermToken UmmuPermTable UmmuPermSeg.

(** ** The contract of the kernel *)

(** Ranges that do not meet [b, l]. *)
Definition clear_of (E : gmap Z (Z * Z)) (b l : Z) : Prop :=
  forall b' l' p', E !! b' = Some (l', p') -> l' < b \/ l < b'.

(** The maple tree holds disjoint ranges, by their first index: the last one and the
    pointer. *)
Class MapleTreeOk (M : Type) `{MapleTree M} := {
  mt_entries : M -> gmap Z (Z * Z);
  mt_ok : M -> Prop;
  mt_init_ok : mt_ok mt_init /\ mt_entries mt_init = ∅;
  mt_insert_ok : forall t b l p, mt_ok t -> b <= l -> clear_of (mt_entries t) b l ->
    exists t', mtree_insert_range t b l p 0 = (t', 0) /\ mt_ok t' /\ mt_entries t' = <[b := (l, p)]> (mt_entries t);
  mt_insert_err : forall t b l p ins, mt_ok t -> b <= l -> ins <> 0 \/ ~ clear_of (mt_entries t) b l ->
    exists t' r, mtree_insert_range t b l p ins = (t', r) /\ r <> 0 /\ mt_ok t' /\ mt_entries t' = mt_entries t;
  mt_find_Some : forall t i p, mt_ok t -> mas_find t i = Some p ->
    exists b l, mt_entries t !! b = Some (l, p) /\ i <= l /\
      forall b' l' p', mt_entries t !! b' = Some (l', p') -> i <= l' -> b <= b';
  mt_find_None : forall t i, mt_ok t -> mas_find t i = None ->
    forall b l p, mt_entries t !! b = Some (l, p) -> l < i;
  mt_erase_ok : forall t i b l p, mt_ok t -> mt_entries t !! b = Some (l, p) -> b <= i <= l ->
    exists t', mtree_erase t i = (t', Some p) /\ mt_ok t' /\ mt_entries t' = delete b (mt_entries t);
  mt_all_ok : forall t p, mt_ok t -> p ∈ mtree_entries t <-> exists b l, mt_entries t !! b = Some (l, p);
}.

(** The codes of permissions fit their field, the execution bit is a bit. *)
Class UmmuCodesOk `{UmmuCodes} := {
  perm_codes : forall z, ummu_check_perm z = 0 -> 0 <= z < 64;
  ebit_codes : 0 <= UMMU_EBIT_OFF /\ UMMU_EBIT_END <= 2;
}.

Section Mng.
Context `{HM : MapleTreeOk MT} `{HC : UmmuCodesOk}.

(** ** The manager and the segments *)

Definition seg_is (g : ummu_seg_info) (b l : Z) (x : attr) : Prop :=
  start_addr g = b /\ grant_size g = l - b /\ s_permission g = a_perm x /\ s_e_bit g = a_ebit x /\
  s_token_check g = a_check x /\ token_count g = a_nonce x /\ token_val0 g = a_tok0 x /\ token_val1 g = a_tok1 x /\
  (a_check x = 0 \/ a_check x = 1 /\ (a_nonce x = 1 \/ a_nonce x = 2)).

Record mng_inv (m : seg_mng MT) (G : segs) : Prop := {
  mi_ok : mt_ok (seg_tree m);
  mi_seg : forall b l p, mt_entries (seg_tree m) !! b = Some (l, p) ->
    exists g x, seg_heap m !! p = Some g /\ G !! b = Some (l, x) /\ seg_is g b l x;
  mi_all : forall b l x, G !! b = Some (l, x) -> exists p, mt_entries (seg_tree m) !! b = Some (l, p);
  mi_inj : forall b1 l1 b2 l2 p, mt_entries (seg_tree m) !! b1 = Some (l1, p) ->
    mt_entries (seg_tree m) !! b2 = Some (l2, p) -> b1 = b2;
  mi_heap : forall p, is_Some (seg_heap m !! p) -> exists b l, mt_entries (seg_tree m) !! b = Some (l, p);
}.

(** Segments are in range and disjoint. *)
Definition segs_ok (G : segs) : Prop :=
  (forall b l x, G !! b = Some (l, x) -> seg_ok b l) /\
  forall b1 l1 x1 b2 l2 x2, G !! b1 = Some (l1, x1) -> G !! b2 = Some (l2, x2) -> b1 <> b2 -> l1 < b2 \/ l2 < b1.

Lemma table_segs (c : ummu_mapt_table_ctx) (G : segs) : table_inv c G -> segs_ok G.
Proof.
  intros (loc & T & _ & _ & _ & Hh). split; [|apply Hh].
  intros b l x Hb. apply seg_ok_in. by destruct (h_seg _ _ Hh b l x Hb).
Qed.

Lemma mng_clear (m : seg_mng MT) (G : segs) (b l : Z) : mng_inv m G -> segs_ok G -> b <= l -> is_free G b l ->
  clear_of (mt_entries (seg_tree m)) b l.
Proof.
  intros Hm [Hr _] Hbl Hf b' l' p' HE. destruct (mi_seg _ _ Hm _ _ _ HE) as (g & x & _ & HG & _).
  destruct (decide (l' < b \/ l < b')) as [|Hn]; [done|]. exfalso.
  destruct (Hr _ _ _ HG) as (? & _). apply (Hf (Z.max b b') x); [lia|]. exists b', l'. split; [done|lia].
Qed.

(** What [ummu_find_seg] finds. *)
Lemma find_spec (m : seg_mng MT) (G : segs) (left size : Z) : mng_inv m G -> segs_ok G -> 0 <= size ->
  exists ret o, ummu_find_seg m left size = Some (ret, o) /\
    match ret with
    | RANGE_MATCH => exists p g x, o = Some (p, g) /\ mt_entries (seg_tree m) !! left = Some (left + size, p) /\
        seg_heap m !! p = Some g /\ G !! left = Some (left + size, x) /\ seg_is g left (left + size) x
    | RANGE_OVERLAP => (forall x, G !! left <> Some (left + size, x)) /\ (0 <= left + size < 2 ^ 64 -> ~ is_free G left (left + size))
    | RANGE_NOT_EXIST => (forall x, G !! left <> Some (left + size, x)) /\ (0 <= left + size < 2 ^ 64 -> is_free G left (left + size))
    end.
Proof.
  intros Hm [Hr Hdis] Hsz. unfold ummu_find_seg. destruct (mas_find (seg_tree m) left) as [p|] eqn:Ef.
  - destruct (mt_find_Some _ _ _ (mi_ok _ _ Hm) Ef) as (b & l & HE & Hl & Hmin).
    destruct (mi_seg _ _ Hm _ _ _ HE) as (g & x & Hg & HG & Hseg). rewrite Hg.
    pose proof Hseg as (S1 & S2 & _). destruct (Hr _ _ _ HG) as (Hb & Hl2 & _). eexists _, _. split; [done|].
    assert (Hno : ~ (b = left /\ l - b = size) -> forall y, G !! left <> Some (left + size, y)).
    { intros Hn y Hy. destruct (mi_all _ _ Hm _ _ _ Hy) as (p' & HE'). pose proof (Hmin _ _ _ HE' ltac:(lia)).
      destruct (decide (b = left)) as [-> |Hne]; [apply Hn; rewrite HG in Hy; injection Hy as ? ?; lia|].
      destruct (Hdis _ _ _ _ _ _ HG Hy Hne); lia. }
    unfold ummu_compare. rewrite S1, S2.
    destruct ((b =? left) && (l - b =? size)) eqn:Em.
    + apply andb_prop in Em as [->%Z.eqb_eq Em%Z.eqb_eq]. replace (left + size) with l by lia. by exists p, g, x.
    + assert (Hn : ~ (b = left /\ l - b = size)).
      { intros [-> <-]. by rewrite !Z.eqb_refl in Em. }
      destruct (Z.ltb_spec (u64 (left + size)) b) as [Hlt|Hge].
      * split; [by apply Hno|]. intros Hb64. rewrite uwrap_small in Hlt by lia. intros a y Ha (b' & l' & HG' & Ha').
        destruct (mi_all _ _ Hm _ _ _ HG') as (p' & HE'). pose proof (Hmin _ _ _ HE' ltac:(lia)). lia.
      * split; [by apply Hno|]. intros Hb64 Hf. rewrite uwrap_small in Hge by lia.
        apply (Hf (Z.max left b) x); [lia|]. exists b, l. split; [done|lia].
  - eexists _, _. split; [done|]. pose proof (mt_find_None _ _ (mi_ok _ _ Hm) Ef) as Hnone. split.
    + intros y Hy. destruct (mi_all _ _ Hm _ _ _ Hy) as (p' & HE'). apply Hnone in HE'. lia.
    + intros _ a y Ha (b' & l' & HG' & Ha'). destruct (mi_all _ _ Hm _ _ _ HG') as (p' & HE'). apply Hnone in HE'. lia.
Qed.

(** ** Changes of the manager *)

Lemma mng_insert (m : seg_mng MT) (G : segs) (b l p : Z) (g : ummu_seg_info) (x : attr) :
  mng_inv m G -> segs_ok G -> seg_ok b l -> is_free G b l -> seg_heap m !! p = None -> seg_is g b l x ->
  exists t', mtree_insert_range (seg_tree m) b l p 0 = (t', 0) /\
    mng_inv {| seg_tree := t'; seg_heap := <[p := g]> (seg_heap m) |} (<[b := (l, x)]> G).
Proof.
  intros Hm HG (Hb & Hl & Hp) Hf Hfresh Hseg. pose proof (mng_clear _ _ b l Hm HG ltac:(lia) Hf) as Hc.
  destruct (mt_insert_ok (seg_tree m) b l p (mi_ok _ _ Hm) ltac:(lia) Hc) as (t' & E & Hok & HE).
  exists t'. split; [done|].
  assert (Hnp : forall b' l', mt_entries (seg_tree m) !! b' <> Some (l', p)).
  { intros b' l' H1. destruct (mi_seg _ _ Hm _ _ _ H1) as (g' & ? & H2 & _). congruence. }
  split; cbn [seg_tree seg_heap]; rewrite ?HE; [done| | | |].
  - intros b' l' p' [[<- [= <- <-]]|[Hne H1]]%lookup_insert_Some.
    + exists g, x. by rewrite !lookup_insert_eq.
    + destruct (mi_seg _ _ Hm _ _ _ H1) as (g' & x' & H2 & H3 & H4). exists g', x'.
      rewrite !lookup_insert_ne; [done|done|]. intros ->. congruence.
  - intros b' l' x' [[<- [= <- <-]]|[Hne H1]]%lookup_insert_Some; [exists p; by rewrite lookup_insert_eq|].
    destruct (mi_all _ _ Hm _ _ _ H1) as (p' & H2). exists p'. by rewrite lookup_insert_ne.
  - intros b1 l1 b2 l2 p' [[<- [= <- <-]]|[N1 H1]]%lookup_insert_Some [[<- E2]|[N2 H2]]%lookup_insert_Some; try done.
    + by apply Hnp in H2.
    + injection E2 as <- <-. by apply Hnp in H1.
    + by eapply mi_inj.
  - intros p' Hp'. destruct (decide (p' = p)) as [-> |Hne]; [exists b, l; by rewrite lookup_insert_eq|].
    rewrite lookup_insert_ne in Hp' by done. destruct (mi_heap _ _ Hm _ Hp') as (b' & l' & H1). exists b', l'.
    rewrite lookup_insert_ne; [done|]. intros <-. destruct (mi_seg _ _ Hm _ _ _ H1) as (g' & x' & _ & H3 & _).
    apply (Hf b x'); [lia|]. exists b, l'. split; [done|]. destruct HG as [HG _]. apply HG in H3 as (? & _). lia.
Qed.

Lemma mng_delete (m : seg_mng MT) (G : segs) (b l p : Z) : mng_inv m G -> b <= l ->
  mt_entries (seg_tree m) !! b = Some (l, p) ->
  exists t', mtree_erase (seg_tree m) b = (t', Some p) /\
    mng_inv {| seg_tree := t'; seg_heap := delete p (seg_heap m) |} (delete b G).
Proof.
  intros Hm Hbl HE. destruct (mt_erase_ok _ b _ _ _ (mi_ok _ _ Hm) HE ltac:(lia)) as (t' & E & Hok & HE').
  exists t'. split; [done|]. split; cbn [seg_tree seg_heap]; rewrite ?HE'; [done| | | |].
  - intros b' l' p' [Hne H1]%lookup_delete_Some. destruct (mi_seg _ _ Hm _ _ _ H1) as (g' & x' & H2 & H3 & H4).
    exists g', x'. rewrite !lookup_delete_ne; [done|done|]. intros <-. apply Hne. by eapply mi_inj.
  - intros b' l' x' [Hne H1]%lookup_delete_Some. destruct (mi_all _ _ Hm _ _ _ H1) as (p' & H2). exists p'.
    by rewrite lookup_delete_ne.
  - intros b1 l1 b2 l2 p' [_ H1]%lookup_delete_Some [_ H2]%lookup_delete_Some. by eapply mi_inj.
  - intros p' [g' [Hne Hp']%lookup_delete_Some]. destruct (mi_heap _ _ Hm p' ltac:(by exists g')) as (b' & l' & H1).
    exists b', l'. rewrite lookup_delete_ne; [done|]. intros <-. congruence.
Qed.

Lemma mng_update (m : seg_mng MT) (G : segs) (b l p : Z) (g' : ummu_seg_info) (x' : attr) : mng_inv m G ->
  mt_entries (seg_tree m) !! b = Some (l, p) -> seg_is g' b l x' ->
  mng_inv {| seg_tree := seg_tree m; seg_heap := <[p := g']> (seg_heap m) |} (<[b := (l, x')]> G).
Proof.
  intros Hm HE Hseg. split; cbn [seg_tree seg_heap]; [apply Hm| | |apply Hm|].
  - intros b2 l2 p2 H1. destruct (decide (b2 = b)) as [-> |Hne].
    + rewrite HE in H1. injection H1 as <- <-. exists g', x'. by rewrite !lookup_insert_eq.
    + destruct (mi_seg _ _ Hm _ _ _ H1) as (g2 & x2 & H2 & H3 & H4). exists g2, x2.
      rewrite !lookup_insert_ne; [done|done|]. intros <-. apply Hne. by eapply mi_inj.
  - intros b2 l2 x2 [[<- [= <- <-]]|[Hne H1]]%lookup_insert_Some; [by exists p|]. by eapply mi_all.
  - intros p2 Hp2. destruct (decide (p2 = p)) as [-> |Hne]; [by exists b, l|].
    rewrite lookup_insert_ne in Hp2 by done. by apply (mi_heap _ _ Hm).
Qed.

(** What [ummu_insert_new_addr] does without memory: nothing. *)
Lemma insert_no_memory (m : seg_mng MT) (G : segs) (q : ummu_grant_param) (kz : option Z) (ins : Z) :
  mng_inv m G -> (kz = None \/ ins <> 0) -> (forall p, kz = Some p -> seg_heap m !! p = None) ->
  data_base (p_info q) <= u64 (data_base (p_info q) + u64 (data_size q - 1)) ->
  exists m' r, ummu_insert_new_addr m q kz ins = (m', r) /\ r < 0 /\ mng_inv m' G.
Proof.
  intros Hm Hk Hf Hle. unfold ummu_insert_new_addr. destruct kz as [p|]; [|by exists m, (- ENOMEM)].
  destruct Hk as [?|Hins]; [done|]. unfold ummu_insert_seg. cbn [seg_tree seg_heap start_addr grant_size].
  destruct (mt_insert_err (seg_tree m) _ _ p ins (mi_ok _ _ Hm) Hle (or_introl Hins)) as (t' & r & -> & Hr & Hok & HE).
  rewrite (proj2 (ctrue_nz r) Hr). eexists _, _. split; [done|]. split; [done|].
  cbn [seg_tree seg_heap]. rewrite (proj2 (ctrue_nz (- EINVAL))) by done. rewrite delete_insert_id by (by apply Hf).
  destruct Hm as [M1 M2 M3 M4 M5]. split; cbn [seg_tree seg_heap]; rewrite ?HE; done.
Qed.

(** ** The specification *)

(** Granting [b, l] with attributes [x]: a new segment, or a second token for a segment that
    has one. *)
Inductive grant_spec (G : segs) (b l v : Z) (x : attr) : segs -> Prop :=
  | grant_new : is_free G b l -> grant_spec G b l v x (<[b := (l, x)]> G)
  | grant_token y y' : G !! b = Some (l, y) -> a_check y = 1 -> a_check x = 1 -> a_perm y = a_perm x ->
      a_ebit y = a_ebit x -> token_attr UMMU_ADD_TOKEN v y = Some y' -> grant_spec G b l v x (<[b := (l, y')]> G).

(** Revoking [b, l], or only the token [v] for it. *)
Inductive ungrant_spec (G : segs) (b l : Z) : option Z -> segs -> Prop :=
  | ungrant_all x : G !! b = Some (l, x) -> ungrant_spec G b l None (delete b G)
  | ungrant_last v x : G !! b = Some (l, x) -> a_check x = 1 -> a_tok0 x = v \/ a_tok1 x = v -> a_nonce x = 1 ->
      ungrant_spec G b l (Some v) (delete b G)
  | ungrant_token v x x' : G !! b = Some (l, x) -> a_check x = 1 -> a_nonce x = 2 ->
      token_attr UMMU_REMOVE_TOKEN v x = Some x' -> ungrant_spec G b l (Some v) (<[b := (l, x')]> G).

(** A domain in table mode that holds the segments [G]. *)
Definition perm_inv (mi : ummu_mapt_info MT) (G : segs) : Prop :=
  exists c m, base mi = TableBase c m /\ mi_valid mi = true /\ table_inv c G /\ mng_inv m G.

(** The same with segments [L] in the table that the manager does not know. *)
Definition leak_inv (mi : ummu_mapt_info MT) (G L : segs) : Prop :=
  exists c m, base mi = TableBase c m /\ mi_valid mi = true /\ table_inv c (G ∪ L) /\ G ##ₘ L /\ mng_inv m G.

Lemma perm_leak (mi : ummu_mapt_info MT) (G : segs) : perm_inv mi G <-> leak_inv mi G ∅.
Proof.
  split.
  - intros (c & m & Eb & Ev & Ht & Hm). exists c, m. rewrite (right_id_L ∅ (∪) G). split_and!; try done. apply map_disjoint_empty_r.
  - intros (c & m & Eb & Ev & Ht & _ & Hm). rewrite (right_id_L ∅ (∪) G) in Ht. by exists c, m.
Qed.

Lemma segs_ok_union (G L : segs) : G ##ₘ L -> segs_ok (G ∪ L) -> segs_ok G.
Proof.
  intros Hd [H1 H2]. split; [intros b l x Hb; apply (H1 b l x)|intros b1 l1 x1 b2 l2 x2 Hb1 Hb2; apply (H2 b1 l1 x1 b2 l2 x2)]; by apply lookup_union_Some_l.
Qed.
Lemma free_union (G L : segs) (b l : Z) : is_free G b l -> is_free L b l -> is_free (G ∪ L) b l.
Proof.
  intros HG HL a x Ha (b' & l' & Hb & Ha'). apply lookup_union_Some_raw in Hb as [Hb|[_ Hb]]; [apply (HG a x Ha)|apply (HL a x Ha)]; by exists b', l'.
Qed.
Lemma free_base (G : segs) (b l : Z) : segs_ok G -> b <= l -> is_free G b l -> G !! b = None.
Proof.
  intros [Hr _] Hbl Hf. destruct (G !! b) as [[l' x]|] eqn:E; [|done]. exfalso. destruct (Hr _ _ _ E) as (? & _).
  apply (Hf b x); [lia|]. exists b, l'. split; [done|lia].
Qed.
Lemma disjoint_at (G L : segs) (b l : Z) (x : attr) : G ##ₘ L -> G !! b = Some (l, x) -> L !! b = None.
Proof. intros Hd Hb. by apply (map_disjoint_Some_l G L b (l, x)). Qed.

(** There is no memory for the record of a segment, or for its place in the maple tree. *)
Definition lost (a : answers_of) : Prop := ans_kz a = None \/ ans_ins a <> 0.

(** The kernel does not hand out memory that is in use. *)
Definition fresh_ok (mi : ummu_mapt_info MT) (a : answers_of) : Prop :=
  forall c m p, base mi = TableBase c m -> ans_kz a = Some p -> seg_heap m !! p = None.

(** ** Checks *)

Lemma shiftr_ctrue (z : Z) : 0 <= z -> ctrue (Z.shiftr z MAX_ADDRESS_BITS) = false -> z < 2 ^ 48.
Proof.
  intros Hz E. apply ctrue_z in E. unfold MAX_ADDRESS_BITS in E. rewrite Z.shiftr_div_pow2 in E by lia.
  apply Z.div_small_iff in E; [|lia]. lia.
Qed.

Lemma aligned_page (z : Z) : IS_ALIGNED z (2 ^ MAPT_VPAGE_SHIFT) = true -> (4096 | z).
Proof.
  unfold IS_ALIGNED, MAPT_VPAGE_SHIFT. intros E%Z.eqb_eq. change (2 ^ 12 - 1) with (Z.ones 12) in E.
  rewrite Z.land_ones in E by lia. apply Z.mod_divide; [lia|]. exact E.
Qed.

Lemma check_data_in (tm : bool) (data size perm e : Z) (tok : option ummu_token_info) :
  0 <= data -> 0 <= size < 2 ^ 64 -> ummu_check_data tm data size perm e tok = 0 ->
  (0 < size /\ data + size - 1 < 2 ^ 48 /\ u64 (size - 1) = size - 1 /\ u64 (data + size - 1) = data + size - 1 /\
   0 <= perm < 64 /\ 0 <= e < 2) /\ (tm = true -> (4096 | data)).
Proof.
  intros Hd Hs. unfold ummu_check_data. destruct (Z.eqb_spec size 0) as [|Hne]; [done|].
  destruct (_ || _ || _) eqn:E1; [done|]. apply orb_false_iff in E1 as [[E1 E2]%orb_false_iff E3].
  destruct (_ || _) eqn:E4; [done|]. apply orb_false_iff in E4 as [E4%ctrue_z E5%ctrue_z].
  destruct (match tok with Some t => _ | None => _ end); [done|].
  destruct (tm && _) eqn:E6; [done|]. intros _.
  apply shiftr_ctrue in E1; [|lia]. rewrite uwrap_small in E2 by lia. apply shiftr_ctrue in E2; [|lia].
  rewrite uwrap_small in E3 by lia. apply shiftr_ctrue in E3; [|lia].
  apply perm_codes in E4. pose proof ebit_codes. unfold ummu_check_ebit in E5.
  destruct ((UMMU_EBIT_END <=? e) || (e <? UMMU_EBIT_OFF)) eqn:E7; [done|]. apply orb_false_iff in E7 as [?%Z.leb_gt ?%Z.ltb_ge].
  rewrite !uwrap_small by lia. split; [split_and!; try done; lia|].
  intros ->. cbn in E6. by apply negb_false_iff, aligned_page in E6.
Qed.

Lemma check_data_ok (data size perm e : Z) (tok : option ummu_token_info) :
  0 <= data -> 0 <= size < 2 ^ 64 -> ummu_check_data true data size perm e tok = 0 ->
  0 < size /\ seg_ok data (data + size - 1) /\ u64 (size - 1) = size - 1 /\ u64 (data + size - 1) = data + size - 1 /\
  0 <= perm < 64 /\ 0 <= e < 2.
Proof.
  intros Hd Hs Hc. destruct (check_data_in _ _ _ _ _ _ Hd Hs Hc) as ((? & ? & ? & ? & ?) & Ha).
  specialize (Ha eq_refl). unfold seg_ok. split_and!; try done; lia.
Qed.

(** ** Granting *)

Section Grant.
Context (mi : ummu_mapt_info MT) (G L : segs) (a : answers_of) (q : ummu_grant_param) (reqs : list plbi_req).
Hypothesis Hinv : leak_inv mi G L.
Abbreviation d := (p_info q).
Abbreviation b := (data_base d).
Abbreviation l := (data_limit d).
Abbreviation sz := (u64 (data_size q - 1)).
Hypothesis Hlimit : l = b + sz.

(** The segment is new: the table is changed, and then the manager, or nothing is; but the manager may run out of memory. *)
Lemma imp_grant : req_ok d -> 0 <= d_perm d < 64 -> 0 <= d_e_bit d < 2 -> is_free (G ∪ L) b l -> fresh_ok mi a ->
  exists r mi' reqs', grant_imp_update UMMU_GRANT mi q a reqs = Some (r, mi', reqs') /\
    ((r = 0 /\ leak_inv mi' (<[b := (l, data_attr d)]> G) L) \/
     (r <> 0 /\ leak_inv mi' G L /\ ((exists j, ans_blocks a j <> 0) \/ exists c m, base mi = TableBase c m /\
        (expan c = false \/ 2048 <= Z.of_nat (size (level_block_bitmap c)) + 30))) \/
     (r < 0 /\ lost a /\ leak_inv mi' G (<[b := (l, data_attr d)]> L))).
Proof.
  intros Hreq Hperm Hebit Hf Hfresh. destruct Hinv as (c & m & Eb & Ev & Ht & Hd & Hm).
  pose proof (table_segs _ _ Ht) as HU. pose proof (segs_ok_union G L Hd HU) as HG. unfold grant_imp_update. rewrite Eb.
  assert (Hbl : b <= l) by (destruct Hreq as [(? & _) _]; lia). pose proof (free_base _ _ _ HU Hbl Hf) as Hnone.
  apply lookup_union_None in Hnone as [NG NL]. assert (HfG : is_free G b l).
  { intros i x Hi (b' & l' & Hb & Hi'). apply (Hf i x Hi). exists b', l'. split; [by apply lookup_union_Some_l|done]. }
  destruct (wp_run _ _ _ (wp_table_grant (ans_blocks a) d (start_state c reqs) (G ∪ L) Ht Hreq Hf)) as (r & s' & -> & Hres).
  destruct Hres as [[-> Ht']|(Hr & Ht' & Hwhy)].
  - cbn [ctrue Z.eqb negb ummu_update_info]. destruct Hreq as [Hseg Htok].
    destruct (decide (ans_kz a = None \/ ans_ins a <> 0)) as [Hl|Hl].
    { destruct (insert_no_memory m G q (ans_kz a) (ans_ins a) Hm Hl) as (m' & r & -> & Hr & Hm').
      - intros p Hkz. by apply (Hfresh c m p).
      - rewrite <- Hlimit, uwrap_small by (destruct Hseg; lia). done.
      - eexists r, _, _. split; [done|]. right. right. split_and!; [done|done|]. eexists _, _. split_and!; [done|done| | |done].
        + by rewrite <- insert_union_r.
        + by apply map_disjoint_insert_r. }
    apply Decidable.not_or in Hl as [Hkz Hins]. destruct (ans_kz a) as [p|] eqn:Ekz; [|done]. apply dec_stable in Hins.
    unfold ummu_insert_new_addr. rewrite Hins. set (g := {| start_addr := b |}) in *.
    assert (Hsi : seg_is g b l (data_attr d)).
    { unfold seg_is, data_attr. cbn [start_addr grant_size s_permission s_e_bit s_token_check token_count token_val0 token_val1
        a_perm a_ebit a_check a_nonce a_tok0 a_tok1 g]. rewrite (uwrap_small 6), (uwrap_small 1) by lia.
      destruct Htok as [-> | ->]; cbn [ctrue Z.eqb Pos.eqb negb]; split_and!; try done; lia. }
    destruct (mng_insert m G b l p g (data_attr d) Hm HG Hseg HfG (Hfresh c m p Eb Ekz) Hsi) as (t' & Ei & Hm').
    unfold ummu_insert_seg. cbn [seg_tree seg_heap start_addr grant_size g].
    rewrite uwrap_small by (destruct Hseg; lia). rewrite <- Hlimit, Ei.
    eexists 0, _, _. split; [done|]. left. split; [done|]. eexists _, _. split_and!; [done|done| | |done].
    + by rewrite <- insert_union_l.
    + by apply map_disjoint_insert_l.
  - rewrite (proj2 (ctrue_nz r) Hr). eexists r, _, _. split; [done|]. right. left. split_and!; [done|by exists (ctx s'), m|].
    destruct Hwhy as [?|?]; [by left|]. right. by exists c, m.
Qed.

(** A second token for the segment. *)
Lemma imp_add_token (p : Z) (g : ummu_seg_info) (y y' : attr) c m :
  base mi = TableBase c m -> mt_entries (seg_tree m) !! b = Some (l, p) -> seg_heap m !! p = Some g ->
  G !! b = Some (l, y) -> seg_is g b l y -> a_check y = 1 -> token_attr UMMU_ADD_TOKEN (d_tokenval d) y = Some y' ->
  ummu_find_seg m b sz = Some (RANGE_MATCH, Some (p, g)) ->
  exists mi' reqs', grant_imp_update UMMU_ADD_TOKEN mi q a reqs = Some (0, mi', reqs') /\
    leak_inv mi' (<[b := (l, y')]> G) L.
Proof.
  intros Eb HE Hg HG Hseg Hc Hy Hfind. destruct Hinv as (c' & m' & Eb' & Ev & Ht & Hd & Hm).
  rewrite Eb in Eb'. injection Eb' as <- <-. unfold grant_imp_update. rewrite Eb.
  destruct (wp_run _ _ _ (wp_table_token (ans_blocks a) UMMU_ADD_TOKEN d (start_state c reqs) (G ∪ L) y y' Ht (lookup_union_Some_l _ _ _ _ HG) Hc Hy)) as (r & s' & -> & -> & Ht').
  cbn [ctrue Z.eqb negb ummu_update_info]. unfold ummu_token_update. rewrite Hfind.
  eexists _, _. split; [done|]. pose proof (disjoint_at _ _ _ _ _ Hd HG) as NL. eexists _, _. split_and!; [done|done|by rewrite <- insert_union_l|by apply map_disjoint_insert_l|]. eapply mng_update; [done|done|].
  unfold token_attr in Hy. destruct (a_nonce y =? 1) eqn:En; [|done]. injection Hy as <-.
  destruct Hseg as (S1 & S2 & S3 & S4 & S5 & S6 & S7 & S8 & S9). unfold seg_is. cbn. split_and!; try done.
  right. split; [done|by right].
Qed.

(** One of the two tokens of the segment goes. *)
Lemma imp_remove_token (p : Z) (g : ummu_seg_info) (y y' : attr) c m :
  base mi = TableBase c m -> mt_entries (seg_tree m) !! b = Some (l, p) ->
  G !! b = Some (l, y) -> seg_is g b l y -> a_check y = 1 -> token_attr UMMU_REMOVE_TOKEN (d_tokenval d) y = Some y' ->
  ummu_find_seg m b sz = Some (RANGE_MATCH, Some (p, g)) ->
  exists mi' reqs', grant_imp_update UMMU_REMOVE_TOKEN mi q a reqs = Some (0, mi', reqs') /\
    leak_inv mi' (<[b := (l, y')]> G) L.
Proof.
  intros Eb HE HG Hseg Hc Hy Hfind. destruct Hinv as (c' & m' & Eb' & Ev & Ht & Hd & Hm).
  rewrite Eb in Eb'. injection Eb' as <- <-. unfold grant_imp_update. rewrite Eb.
  destruct (wp_run _ _ _ (wp_table_token (ans_blocks a) UMMU_REMOVE_TOKEN d (start_state c reqs) (G ∪ L) y y' Ht (lookup_union_Some_l _ _ _ _ HG) Hc Hy)) as (r & s' & -> & -> & Ht').
  cbn [ctrue Z.eqb negb ummu_update_info]. unfold ummu_token_update. rewrite Hfind.
  eexists _, _. split; [done|]. pose proof (disjoint_at _ _ _ _ _ Hd HG) as NL. eexists _, _. split_and!; [done|done|by rewrite <- insert_union_l|by apply map_disjoint_insert_l|]. eapply mng_update; [done|done|].
  destruct Hseg as (S1 & S2 & S3 & S4 & S5 & S6 & S7 & S8 & S9). unfold ummu_remove_tokenval. rewrite S7, S8.
  unfold token_attr in Hy. destruct (a_tok0 y =? d_tokenval d); [|destruct (a_tok1 y =? d_tokenval d); [|done]];
    injection Hy as <-; unfold seg_is; cbn; split_and!; try done; right; (split; [done|by left]).
Qed.

(** The segment goes. *)
Lemma imp_ungrant (p : Z) (g : ummu_seg_info) (y : attr) c m :
  base mi = TableBase c m -> mt_entries (seg_tree m) !! b = Some (l, p) -> G !! b = Some (l, y) ->
  ummu_find_seg m b sz = Some (RANGE_MATCH, Some (p, g)) ->
  exists mi' reqs', grant_imp_update UMMU_UNGRANT mi q a reqs = Some (0, mi', reqs') /\ leak_inv mi' (delete b G) L.
Proof.
  intros Eb HE HG Hfind. destruct Hinv as (c' & m' & Eb' & Ev & Ht & Hd & Hm).
  rewrite Eb in Eb'. injection Eb' as <- <-. unfold grant_imp_update. rewrite Eb.
  destruct (wp_run _ _ _ (wp_table_ungrant (ans_blocks a) d (start_state c reqs) (G ∪ L) y Ht (lookup_union_Some_l _ _ _ _ HG))) as (r & s' & -> & -> & Ht').
  cbn [ctrue Z.eqb negb ummu_update_info]. unfold ummu_delete_addr, ummu_delete_seg. rewrite Hfind.
  destruct (segs_ok_union G L Hd (table_segs _ _ Ht)) as [Hr _]. destruct (Hr _ _ _ HG) as (Hb & _). pose proof (disjoint_at _ _ _ _ _ Hd HG) as NL.
  destruct (mng_delete m G b l p Hm ltac:(lia) HE) as (t' & -> & Hm'). eexists _, _. split; [done|]. eexists _, _. split_and!; [done|done| |by apply map_disjoint_delete_l|done].
  by rewrite delete_union, (delete_id L) in Ht'.
Qed.

(** What the checks of [seg_mng.c] decide for a segment that is there, and what follows. *)
Section Found.
Context (p : Z) (g : ummu_seg_info) (y : attr) (c : ummu_mapt_table_ctx) (m : seg_mng MT).
Hypothesis Eb : base mi = TableBase c m.
Hypothesis HE : mt_entries (seg_tree m) !! b = Some (l, p).
Hypothesis Hg : seg_heap m !! p = Some g.
Hypothesis HGb : G !! b = Some (l, y).
Hypothesis Hsi : seg_is g b l y.
Hypothesis Hfind : ummu_find_seg m b sz = Some (RANGE_MATCH, Some (p, g)).

Lemma grant_found : b <= l -> 0 <= d_perm d < 64 -> 0 <= d_e_bit d < 2 ->
  let op := ummu_table_param_check g d in
  (op_end op = true /\ forall G', ~ grant_spec G b l (d_tokenval d) (data_attr d) G') \/
  (op_end op = false /\ exists G' mi' reqs', grant_spec G b l (d_tokenval d) (data_attr d) G' /\
     grant_imp_update op mi q a reqs = Some (0, mi', reqs') /\ leak_inv mi' G' L).
Proof.
  intros Hbl Hp He. pose proof Hsi as (S1 & S2 & S3 & S4 & S5 & S6 & S7 & S8 & S9).
  assert (Hx1 : a_perm (data_attr d) = d_perm d) by (apply uwrap_small; lia).
  assert (Hx2 : a_ebit (data_attr d) = d_e_bit d) by (apply uwrap_small; lia).
  unfold ummu_table_param_check. rewrite S3, S4, S5, S6. destruct (_ && _) eqn:Eck; cbn [op_end]; [right|left]; split; try done.
  - apply andb_prop in Eck as [Eck C5%Z.eqb_eq]. apply andb_prop in Eck as [Eck C4%Z.eqb_eq].
    apply andb_prop in Eck as [Eck C3%Z.eqb_eq]. apply andb_prop in Eck as [C1%Z.eqb_eq C2%Z.eqb_eq].
    assert (Hy : exists y', token_attr UMMU_ADD_TOKEN (d_tokenval d) y = Some y') by (unfold token_attr; rewrite C5; by eexists).
    destruct Hy as [y' Hy]. destruct (imp_add_token p g y y' c m Eb HE Hg HGb Hsi C1 Hy Hfind) as (mi' & reqs' & E & Hinv').
    exists (<[b := (l, y')]> G), mi', reqs'. split; [|done]. eapply grant_token; try done; congruence.
  - intros G' [Hf|y2 y' HG2 C1 C2 C3 C4 Hy].
    + apply (Hf b y); [lia|]. exists b, l. split; [done|lia].
    + rewrite HGb in HG2. injection HG2 as <-. unfold token_attr in Hy. destruct (a_nonce y =? 1) eqn:En; [|done].
      change (d_token_check d = 1) in C2. by rewrite C1, C2, C3, C4, Hx1, Hx2, !Z.eqb_refl in Eck.
Qed.

Lemma ungrant_found (tok : option Z) (old : Z) :
  bytoken q = match tok with Some _ => 1 | None => 0 end -> d_tokenval d = default old tok ->
  let op := ummu_ungrant_param_check g q in
  (op_end op = true /\ forall G', ~ ungrant_spec G b l tok G') \/
  (op_end op = false /\ exists G' mi' reqs', ungrant_spec G b l tok G' /\
     grant_imp_update op mi q a reqs = Some (0, mi', reqs') /\ leak_inv mi' G' L).
Proof.
  intros Hbt Htv. pose proof Hsi as (S1 & S2 & S3 & S4 & S5 & S6 & S7 & S8 & S9).
  destruct (imp_ungrant p g y c m Eb HE HGb Hfind) as (mi1 & reqs1 & E1 & Hinv1).
  unfold ummu_ungrant_param_check. rewrite Hbt, Htv, S5, S6, S7, S8. destruct tok as [v|]; cbn [Z.eqb].
  - change (default old (Some v)) with v in *. destruct S9 as [C0|[C1 Hn]].
    { rewrite C0. left. split; [done|]. intros G' Hs.
      inversion Hs as [| v0 x0 H1 H2 | v0 x0 x' H1 H2]; subst; rewrite HGb in H1; injection H1 as <-; congruence. }
    rewrite C1. cbn [Z.eqb]. destruct ((a_tok0 y =? v) || (a_tok1 y =? v)) eqn:Etok.
    + apply orb_true_iff in Etok as Etok'. rewrite !Z.eqb_eq in Etok'. right. destruct Hn as [N1|N2].
      * rewrite N1. split; [done|]. exists (delete b G), mi1, reqs1. split; [by eapply ungrant_last|done].
      * rewrite N2. split; [done|].
        assert (Hy : exists y', token_attr UMMU_REMOVE_TOKEN (d_tokenval d) y = Some y').
        { unfold token_attr. rewrite Htv. destruct (a_tok0 y =? v); [by eexists|]. cbn in Etok. rewrite Etok. by eexists. }
        destruct Hy as [y' Hy]. destruct (imp_remove_token p g y y' c m Eb HE HGb Hsi C1 Hy Hfind) as (mi' & reqs' & E & Hinv').
        exists (<[b := (l, y')]> G), mi', reqs'. split; [|done]. rewrite Htv in Hy. by eapply ungrant_token.
    + left. split; [done|]. intros G' Hs. apply orb_false_iff in Etok as [T0 T1].
      inversion Hs as [| v0 x0 H1 H2 H3 | v0 x0 x' H1 H2 H3 H4]; subst; rewrite HGb in H1; injection H1 as <-.
      * rewrite Z.eqb_neq in T0, T1. by destruct H3.
      * unfold token_attr in H4. by rewrite T0, T1 in H4.
  - right. split; [done|]. exists (delete b G), mi1, reqs1. split; [by eapply ungrant_all|done].
Qed.
End Found.
End Grant.

(** ** The entry points *)

(** The request [ummu_perm_grant] makes. *)
Definition asked (ias va size perm : Z) (attr : ummu_seg_attr) (old rnd : Z) : ummu_data_info :=
  ummu_perm_data_preproc (Z.land va (GENMASK (ias - 1) 0)) size perm (sa_e_bit attr) (sa_token attr) old rnd.

Definition asked_base (ias va : Z) : Z := Z.land va (GENMASK (ias - 1) 0).

Lemma asked_nonneg (ias va : Z) : 0 <= va -> 0 <= asked_base ias va.
Proof. intros Hn. apply Z.land_nonneg. by left. Qed.

(** Why a well-formed request is refused. *)
Definition refused (mi : ummu_mapt_info MT) (G : segs) (b l v : Z) (x : attr) (a : answers_of) : Prop :=
  (forall G', ~ grant_spec G b l v x G') \/ (exists j, ans_blocks a j <> 0) \/
  exists c m, base mi = TableBase c m /\ (expan c = false \/ 2048 <= Z.of_nat (size (level_block_bitmap c)) + 30).

Lemma grant_table (ias : Z) (mi : ummu_mapt_info MT) (G L : segs) (va size perm : Z) (attr : ummu_seg_attr)
    (old : Z) (a : answers_of) :
  leak_inv mi G L -> 0 <= va -> 0 <= size < 2 ^ 64 -> fresh_ok mi a ->
  let d := asked ias va size perm attr old (ans_random a) in
  let b := data_base d in let l := data_limit d in let x := data_attr d in is_free L b l ->
  exists r mi' plb tok, ummu_perm_grant ias mi va size perm (Some attr) old a = Some (r, mi', plb, tok) /\
    ((r = 0 /\ seg_ok b l /\ exists G', grant_spec G b l (d_tokenval d) x G' /\ leak_inv mi' G' L) \/
     (r <> 0 /\ leak_inv mi' G L /\
      (ummu_check_data true b size perm (sa_e_bit attr) (sa_token attr) <> 0 \/ refused mi G b l (d_tokenval d) x a)) \/
     (r < 0 /\ lost a /\ is_free G b l /\ leak_inv mi' G (<[b := (l, x)]> L))).
Proof.
  intros Hinv Hva Hsize Hfresh d b l x HfL. pose proof Hinv as (c & m & Eb & Ev & Ht & Hd & Hm).
  pose proof (asked_nonneg ias va Hva) as Hb0. change (Z.land va (GENMASK (ias - 1) 0)) with b in *.
  unfold ummu_perm_grant, ummu_perm_table_mode_is_valid, is_table. rewrite Ev, Eb. cbn [negb].
  change (Z.land va (GENMASK (ias - 1) 0)) with b. cbv zeta.
  destruct (ctrue (ummu_check_data true b size perm (sa_e_bit attr) (sa_token attr))) eqn:Echk.
  { apply ctrue_nz in Echk. eexists _, _, _, _. split; [done|]. right. left. split_and!; [done|done|by left]. }
  apply ctrue_z in Echk. destruct (check_data_ok b size perm (sa_e_bit attr) (sa_token attr) Hb0 Hsize Echk) as (Hs0 & Hseg & Hw1 & Hw2 & Hp & He).
  assert (El : l = b + size - 1) by exact Hw2. assert (Hsl : seg_ok b l) by (by rewrite El).
  change (ummu_perm_data_preproc b size perm (sa_e_bit attr) (sa_token attr) old (ans_random a)) with d.
  set (q := {| p_info := d |}). set (tok := match sa_token attr with Some _ => _ | None => _ end).
  assert (Hlim : data_limit (p_info q) = data_base (p_info q) + u64 (data_size q - 1)) by (change (l = b + u64 (size - 1)); rewrite Hw1, El; lia).
  assert (Hbl : b + u64 (size - 1) = l) by (rewrite Hw1, El; lia).
  assert (Htokc : d_token_check d = 0 \/ d_token_check d = 1).
  { unfold d, asked, ummu_perm_data_preproc. cbn. destruct (sa_token attr); auto. }
  pose proof (segs_ok_union G L Hd (table_segs _ _ Ht)) as HG.
  destruct (find_spec m G b (u64 (size - 1)) Hm HG ltac:(lia)) as (ret & o & Hfind & Hret). rewrite Hbl in Hret.
  assert (Hl64 : 0 <= l < 2 ^ 64) by (destruct Hseg as (? & ? & _); rewrite El; lia).
  unfold ummu_grant_check. rewrite Eb. unfold table_grant_check. cbn [p_info data_size q]. fold b. rewrite Hfind. destruct ret.
  - destruct Hret as (p & g & y & -> & HE & Hg & HGb & Hsi).
    change (ummu_table_param_check g d) with (ummu_table_param_check g (p_info q)).
    destruct (grant_found mi G L a q [] Hinv p g y c m Eb HE Hg HGb Hsi Hfind) as [[-> Hno]|(-> & G' & mi' & reqs' & Hsp & -> & Hinv')];
      try done; [destruct Hseg; change (b <= l); lia| |].
    + eexists _, _, _, _. split; [done|]. right. left. split_and!; [done|done|]. right. left. exact Hno.
    + eexists _, _, _, _. split; [done|]. left. split_and!; [done|done|]. by exists G'.
  - destruct Hret as [Hno Hov]. cbn [op_end]. eexists _, _, _, _. split; [done|]. right. left. split_and!; [done|done|]. right. left.
    intros G' [Hf|y y' HGb _ _ _ _ _]; [by apply (Hov Hl64)|by apply (Hno y)].
  - destruct Hret as [Hno Hf]. specialize (Hf Hl64). cbn [op_end].
    destruct (imp_grant mi G L a q [] Hinv Hlim) as (r & mi' & reqs' & -> & Hres); try done; [by apply free_union|].
    eexists _, _, _, _. split; [done|]. destruct Hres as [[-> Hinv']|[(Hr & Hinv' & Hwhy)|(Hr & Hl & Hinv')]].
    + left. split_and!; [done|done|]. eexists. split; [by apply grant_new|exact Hinv'].
    + right. left. split_and!; [done|done|]. right. right. exact Hwhy.
    + right. right. by split_and!.
Qed.

(** The limit of a segment that was found. *)
Lemma limit_of (b size : Z) (G : segs) (y : attr) : segs_ok G -> 0 <= b -> G !! b = Some (b + u64 (size - 1), y) ->
  u64 (b + size - 1) = b + u64 (size - 1).
Proof.
  intros [Hr _] Hb HG. destruct (Hr _ _ _ HG) as (H1 & H2 & _). rewrite <- (uwrap_small 64 (b + u64 (size - 1))) by lia.
  apply uwrap_cong. rewrite (uwrap_eqm 64 (size - 1)). by replace (b + (size - 1)) with (b + size - 1) by lia.
Qed.

Lemma ungrant_table (ias : Z) (mi : ummu_mapt_info MT) (G L : segs) (va size : Z) (tok : option Z) (old : Z) (a : answers_of) :
  leak_inv mi G L -> 0 <= va ->
  let b := asked_base ias va in let l := u64 (b + size - 1) in
  exists r mi' plb, ummu_perm_ungrant ias mi va size tok old a = Some (r, mi', plb) /\
    ((r = 0 /\ (exists G', ungrant_spec G b l tok G' /\ leak_inv mi' G' L) /\
      exists reqs, plb = Some {| plb_va := b; plb_size := size; plb_reqs := reqs |}) \/
     (r <> 0 /\ mi' = mi /\ forall G', ungrant_spec G b l tok G' -> l <> b + u64 (size - 1))).
Proof.
  intros Hinv Hva b l. pose proof Hinv as (c & m & Eb & Ev & Ht & Hd & Hm). pose proof (segs_ok_union G L Hd (table_segs _ _ Ht)) as HG.
  assert (Hb0 : 0 <= b) by (by apply asked_nonneg).
  unfold ummu_perm_ungrant, ummu_perm_table_mode_is_valid, is_table. rewrite Ev, Eb. cbn [negb]. cbv zeta.
  change (Z.land va (GENMASK (ias - 1) 0)) with b.
  set (d := {| d_perm := old |}). set (q := {| p_info := d |}).
  assert (Hspec : forall G', ungrant_spec G b l tok G' -> exists x, G !! b = Some (l, x)).
  { intros G' [x0 H1|v x0 H1|v x0 x' H1]; by exists x0. }
  destruct (true && negb (IS_ALIGNED b (2 ^ MAPT_VPAGE_SHIFT))) eqn:Ea.
  { eexists _, _, _. split; [done|]. right. split_and!; [done|done|]. intros G' Hs%Hspec. destruct Hs as [x0 Hx]. exfalso.
    destruct HG as [Hr _]. destruct (Hr _ _ _ Hx) as (_ & _ & Hdiv). cbn in Ea. apply negb_true_iff in Ea.
    unfold IS_ALIGNED, MAPT_VPAGE_SHIFT in Ea. change (2 ^ 12 - 1) with (Z.ones 12) in Ea. rewrite Z.land_ones in Ea by lia.
    apply Z.eqb_neq in Ea. apply Ea. by apply Z.mod_divide. }
  pose proof (uwrap_range 64 (size - 1) ltac:(lia)).
  destruct (find_spec m G b (u64 (size - 1)) Hm HG ltac:(lia)) as (ret & o & Hfind & Hret).
  assert (Hcase : table_ungrant_check m q = match ret, o with RANGE_MATCH, Some (_, g) => Some (ummu_ungrant_param_check g q) | _, _ => Some UMMU_OP_END end).
  { unfold table_ungrant_check. change (data_base (p_info q)) with b. change (data_size q) with size. rewrite Hfind. by destruct ret, o as [[? ?]|]. }
  unfold ummu_ungrant_check. rewrite Eb, Hcase. destruct ret.
  - destruct Hret as (p & g & y & -> & HE & Hg & HGb & Hsi). pose proof (limit_of b size G y HG Hb0 HGb) as El. fold l in El.
    rewrite <- El in HE, HGb, Hsi.
    destruct (ungrant_found mi G L a q [] Hinv p g y c m Eb HE HGb Hsi Hfind tok old) as [[-> Hno]|(-> & G' & mi' & reqs' & Hsp & -> & Hinv')];
      try done; eexists _, _, _; (split; [done|]).
    + right. split_and!; [done|done|]. intros G' Hs. by apply Hno in Hs.
    + left. split_and!; [done|by exists G'|by exists reqs'].
  - destruct Hret as [Hno _]. cbn [op_end]. eexists _, _, _. split; [done|]. right. split_and!; [done|done|].
    intros G' Hs E. apply Hspec in Hs as [x0 Hx]. apply (Hno x0). by rewrite <- E.
  - destruct Hret as [Hno _]. cbn [op_end]. eexists _, _, _. split; [done|]. right. split_and!; [done|done|].
    intros G' Hs E. apply Hspec in Hs as [x0 Hx]. apply (Hno x0). by rewrite <- E.
Qed.

(** ** Histories of calls *)

(** A call and what it returned. *)
Inductive perm_call :=
  | CallGrant (va size perm : Z) (attr : ummu_seg_attr) (old : Z) (a : answers_of) (ret : Z)
  | CallUngrant (va size : Z) (tok : option Z) (ret : Z).

(** The segments as a function of the calls and their results. *)
Definition spec_grant (G : segs) (d : ummu_data_info) : segs :=
  let b := data_base d in let l := data_limit d in
  match G !! b with
  | None => <[b := (l, data_attr d)]> G
  | Some (_, y) => match token_attr UMMU_ADD_TOKEN (d_tokenval d) y with Some y' => <[b := (l, y')]> G | None => G end
  end.
Definition spec_ungrant (G : segs) (b : Z) (tok : option Z) : segs :=
  match tok, G !! b with
  | Some v, Some (l, x) =>
    if a_nonce x =? 1 then delete b G
    else match token_attr UMMU_REMOVE_TOKEN v x with Some x' => <[b := (l, x')]> G | None => G end
  | _, _ => delete b G
  end.
Definition spec_call (ias : Z) (G : segs) (c : perm_call) : segs :=
  match c with
  | CallGrant va size perm attr old a ret => if ret =? 0 then spec_grant G (asked ias va size perm attr old (ans_random a)) else G
  | CallUngrant va size tok ret => if ret =? 0 then spec_ungrant G (asked_base ias va) tok else G
  end.
Definition segs_of (ias : Z) (cs : list perm_call) : segs := foldl (spec_call ias) ∅ cs.

Lemma grant_spec_fun (G G' : segs) (d : ummu_data_info) :
  (forall b l x, G !! b = Some (l, x) -> b <= l) -> data_base d <= data_limit d ->
  grant_spec G (data_base d) (data_limit d) (d_tokenval d) (data_attr d) G' -> G' = spec_grant G d.
Proof.
  intros Hr Hbl [Hf|y y' HG _ _ _ _ Hy]; unfold spec_grant.
  - destruct (G !! data_base d) as [[l' y]|] eqn:E; [|done]. exfalso. pose proof (Hr _ _ _ E).
    apply (Hf (data_base d) y); [lia|]. exists (data_base d), l'. split; [done|lia].
  - by rewrite HG, Hy.
Qed.

Lemma ungrant_spec_fun (G G' : segs) (b l : Z) (tok : option Z) : ungrant_spec G b l tok G' -> G' = spec_ungrant G b tok.
Proof.
  intros [x HG|v x HG _ _ Hn|v x x' HG _ Hn Hx]; unfold spec_ungrant; rewrite ?HG.
  - done.
  - by rewrite Hn.
  - by rewrite Hn, Hx.
Qed.

(** What a failed grant may have left in the table: there was no memory for its record. *)
Definition left_behind (ias : Z) (c : perm_call) (b l : Z) (x : attr) : Prop :=
  match c with
  | CallGrant va size perm attr old a ret =>
    let d := asked ias va size perm attr old (ans_random a) in ret <> 0 /\ lost a /\ b = data_base d /\ l = data_limit d /\ x = data_attr d
  | CallUngrant _ _ _ _ => False
  end.
Definition avoids (ias : Z) (cs : list perm_call) (b l : Z) : Prop :=
  forall c b' l' x, c ∈ cs -> left_behind ias c b' l' x -> l' < b \/ l < b'.

(** The domain after some calls, one after the other, with any answers of the allocators.  In a table,
    memory whose grant may have been left behind is not granted again. *)
Inductive perm_calls (ias : Z) (mi0 : ummu_mapt_info MT) : list perm_call -> ummu_mapt_info MT -> Prop :=
  | calls_nil : perm_calls ias mi0 [] mi0
  | calls_grant cs mi va size perm attr old a r mi' plb tok : perm_calls ias mi0 cs mi ->
      0 <= va -> 0 <= size < 2 ^ 64 -> fresh_ok mi a ->
      (let d := asked ias va size perm attr old (ans_random a) in is_table mi = true -> avoids ias cs (data_base d) (data_limit d)) ->
      ummu_perm_grant ias mi va size perm (Some attr) old a = Some (r, mi', plb, tok) ->
      perm_calls ias mi0 (cs ++ [CallGrant va size perm attr old a r]) mi'
  | calls_ungrant cs mi va size tok old a r mi' plb : perm_calls ias mi0 cs mi -> 0 <= va ->
      ummu_perm_ungrant ias mi va size tok old a = Some (r, mi', plb) ->
      perm_calls ias mi0 (cs ++ [CallUngrant va size tok r]) mi'.

(** Segments that calls left behind. *)
Definition leaks (ias : Z) (cs : list perm_call) (L : segs) : Prop :=
  forall b l x, L !! b = Some (l, x) -> exists c, c ∈ cs /\ left_behind ias c b l x.

Lemma leaks_app (ias : Z) (cs : list perm_call) (c : perm_call) (L : segs) : leaks ias cs L -> leaks ias (cs ++ [c]) L.
Proof. intros HL b l x Hb. destruct (HL b l x Hb) as (c' & Hc & H'). exists c'. split; [|done]. apply elem_of_app. by left. Qed.

Lemma perm_init (e fb pos : bool) : perm_inv (ksva_table e fb pos) ∅.
Proof.
  eexists _, _. split_and!; [done|done|apply table_init|]. destruct mt_init_ok as [Hok He].
  split; cbn [seg_tree seg_heap]; rewrite ?He; try done.
  intros p [g Hp]. by rewrite lookup_empty in Hp.
Qed.

Lemma calls_inv (ias : Z) (e fb pos : bool) (cs : list perm_call) (mi : ummu_mapt_info MT) :
  perm_calls ias (ksva_table e fb pos) cs mi -> exists L, leak_inv mi (segs_of ias cs) L /\ leaks ias cs L.
Proof.
  induction 1 as [|cs mi va size perm attr old a r mi' plb tok _ (L & IH & HL) Hva Hsz Hfr Hav Hrun|cs mi va size tok old a r mi' plb _ (L & IH & HL) Hva Hrun].
  - exists ∅. split; [apply perm_leak, perm_init|]. intros b l x Hb. by rewrite lookup_empty in Hb.
  - unfold segs_of. rewrite foldl_snoc. fold (segs_of ias cs). cbn [spec_call]. set (d := asked _ _ _ _ _ _ _) in *.
    assert (HfL : is_free L (data_base d) (data_limit d)).
    { intros i x Hi (b' & l' & Hb & Hi'). destruct (HL _ _ _ Hb) as (c & Hc & Hlb). destruct IH as (c' & m & Eb & _).
      destruct (Hav ltac:(unfold is_table; by rewrite Eb) _ _ _ _ Hc Hlb); lia. }
    destruct (grant_table ias mi (segs_of ias cs) L va size perm attr old a IH Hva Hsz Hfr HfL) as (r2 & mi2 & plb2 & tok2 & E2 & Hres).
    rewrite Hrun in E2. injection E2 as <- <- <- <-. fold d in Hres.
    destruct Hres as [(-> & [? _] & G' & Hsp & Hinv)|[(Hr & Hinv & _)|(Hr & Hl & _ & Hinv)]].
    + cbn [Z.eqb]. rewrite <- (grant_spec_fun _ G' d); [exists L; split; [done|by apply leaks_app]| |lia|done].
      intros b0 l0 x0 Hx0. destruct IH as (c & m & _ & _ & Ht & Hd & _). destruct (segs_ok_union _ _ Hd (table_segs _ _ Ht)) as [Hok _].
      destruct (Hok _ _ _ Hx0). lia.
    + rewrite (proj2 (Z.eqb_neq r 0)) by done. exists L. split; [done|by apply leaks_app].
    + rewrite (proj2 (Z.eqb_neq r 0)) by lia. exists (<[data_base d := (data_limit d, data_attr d)]> L). split; [done|].
      intros b l x [[<- [= <- <-]]|[_ Hb]]%lookup_insert_Some; [|by apply (leaks_app _ _ _ _ HL)].
      eexists. split; [apply elem_of_app; right; apply list_elem_of_singleton; reflexivity|]. cbn [left_behind]. split_and!; try done. lia.
  - unfold segs_of. rewrite foldl_snoc. fold (segs_of ias cs). cbn [spec_call]. exists L. split; [|by apply leaks_app].
    destruct (ungrant_table ias mi (segs_of ias cs) L va size tok old a IH Hva) as (r2 & mi2 & plb2 & E2 & Hres).
    rewrite Hrun in E2. injection E2 as <- <- <-. destruct Hres as [(-> & (G' & Hsp & Hinv) & _)|(Hr & -> & _)].
    + cbn [Z.eqb]. by rewrite <- (ungrant_spec_fun _ G' _ _ _ Hsp).
    + by rewrite (proj2 (Z.eqb_neq r 0)).
Qed.
End Mng.

(** ** A maple tree *)

(** The contract can be met: a finite map that is searched. *)
Definition gmap_find (i : Z) (L : list (Z * (Z * Z))) : option (Z * (Z * Z)) :=
  foldr (fun e acc => if i <=? fst (snd e) then
                        match acc with Some e' => if fst e <=? fst e' then Some e else acc | None => Some e end
                      else acc) None L.

#[export] Instance gmap_tree : MapleTree (gmap Z (Z * Z)) := {
  mt_init := ∅;
  mtree_insert_range t b l p ins :=
    if bool_decide (ins = 0) && bool_decide (map_Forall (fun b' e => fst e < b \/ l < b') t) then (<[b := (l, p)]> t, 0)
    else (t, if ins =? 0 then -17 else ins);
  mas_find t i := (fun e => snd (snd e)) <$> gmap_find i (map_to_list t);
  mtree_erase t i :=
    match gmap_find i (map_to_list t) with
    | Some (b, (l, p)) => if b <=? i then (delete b t, Some p) else (t, None)
    | None => (t, None)
    end;
  mtree_entries t := (fun e => snd (snd e)) <$> map_to_list t;
}.

Lemma gmap_find_None (i : Z) (L : list (Z * (Z * Z))) : gmap_find i L = None -> forall e, e ∈ L -> fst (snd e) < i.
Proof.
  induction L as [|e0 L IH]; intros E e He; [by apply elem_of_nil in He|]. cbn [gmap_find foldr] in E. fold (gmap_find i L) in E.
  destruct (Z.leb_spec i (fst (snd e0))) as [Hi|Hi].
  - destruct (gmap_find i L); [by destruct (_ <=? _)|done].
  - apply elem_of_cons in He as [-> |He]; [done|]. by apply IH.
Qed.

Lemma gmap_find_Some (i : Z) (L : list (Z * (Z * Z))) (e : Z * (Z * Z)) : gmap_find i L = Some e ->
  e ∈ L /\ i <= fst (snd e) /\ forall e', e' ∈ L -> i <= fst (snd e') -> fst e <= fst e'.
Proof.
  revert e. induction L as [|e0 L IH]; intros e; [done|]. cbn [gmap_find foldr]. fold (gmap_find i L).
  destruct (Z.leb_spec i (fst (snd e0))) as [Hi|Hi].
  - destruct (gmap_find i L) as [e1|] eqn:E1.
    + destruct (IH e1 eq_refl) as (H1 & H2 & H3). destruct (Z.leb_spec (fst e0) (fst e1)); intros [= <-].
      * split_and!; [by left|done|]. intros e' [-> |He']%elem_of_cons Hi'; [lia|]. specialize (H3 e' He' Hi'). lia.
      * split_and!; [by right|done|]. intros e' [-> |He']%elem_of_cons Hi'; [lia|]. by apply H3.
    + intros [= <-]. split_and!; [by left|done|]. intros e' [-> |He']%elem_of_cons Hi'; [lia|].
      pose proof (gmap_find_None i L E1 e' He'). lia.
  - intros E. destruct (IH e E) as (H1 & H2 & H3). split_and!; [by right|done|].
    intros e' [-> |He']%elem_of_cons Hi'; [lia|]. by apply H3.
Qed.

Lemma map_list_elem (t : gmap Z (Z * Z)) (b l p : Z) : (b, (l, p)) ∈ map_to_list t <-> t !! b = Some (l, p).
Proof. apply elem_of_map_to_list. Qed.

#[export] Program Instance gmap_tree_ok : MapleTreeOk (gmap Z (Z * Z)) := {
  mt_entries t := t;
  mt_ok t := forall b l p, t !! b = Some (l, p) -> b <= l /\
    forall b' l' p', t !! b' = Some (l', p') -> b' <> b -> l < b' \/ l' < b;
}.
Next Obligation. split; [|done]. intros b l p Hb. change ((∅ : gmap Z (Z * Z)) !! b = Some (l, p)) in Hb. by rewrite lookup_empty in Hb. Qed.
Next Obligation.
  intros t b l p Hok Hbl Hc. exists (<[b := (l, p)]> t). cbn. rewrite (bool_decide_true (0 = 0)) by done.
  rewrite bool_decide_true.
  - cbn. split_and!; [done| |done]. intros b1 l1 p1 [[<- [= <- <-]]|[N1 H1]]%lookup_insert_Some.
    + split; [done|]. intros b' l' p' [[<- _]|[N2 H2]]%lookup_insert_Some Hne; [done|]. destruct (Hc _ _ _ H2); lia.
    + destruct (Hok _ _ _ H1) as [? Hd]. split; [done|].
      intros b' l' p' [[<- [= <- <-]]|[N2 H2]]%lookup_insert_Some Hne; [destruct (Hc _ _ _ H1); lia|by eapply Hd].
  - intros b' [l' p'] H1. by apply (Hc b' l' p').
Qed.
Next Obligation.
  intros t b l p ins Hok Hbl Hc. exists t, (if ins =? 0 then -17 else ins). cbn.
  destruct (bool_decide (ins = 0) && _) eqn:E.
  - exfalso. apply andb_prop in E as [E1%bool_decide_eq_true E2%bool_decide_eq_true]. destruct Hc as [?|Hc]; [done|].
    apply Hc. intros b' l' p' H1. apply (E2 b' (l', p') H1).
  - split_and!; try done. destruct (Z.eqb_spec ins 0); lia.
Qed.
Next Obligation.
  intros t i p Hok Hf. cbn in Hf. apply fmap_Some in Hf as ([b [l p']] & E & ->). apply gmap_find_Some in E as (H1 & H2 & H3).
  cbn in *. apply map_list_elem in H1. exists b, l. split_and!; try done.
  intros b' l' p1 H4%map_list_elem Hi. exact (H3 _ H4 Hi).
Qed.
Next Obligation.
  intros t i Hok Hf b l p Hb%map_list_elem. cbn in Hf. destruct (gmap_find i (map_to_list t)) eqn:E; [done|].
  exact (gmap_find_None _ _ E _ Hb).
Qed.
Next Obligation.
  intros t i b l p Hok Hb Hi. exists (delete b t). cbn.
  destruct (gmap_find i (map_to_list t)) as [[b0 [l0 p0]]|] eqn:E.
  - apply gmap_find_Some in E as (H1 & H2 & H3). cbn in *. apply map_list_elem in H1 as H1'.
    assert (b0 = b) as ->.
    { pose proof (H3 (b, (l, p)) (proj2 (map_list_elem t b l p) Hb) ltac:(cbn; lia)) as H4. cbn in H4.
      destruct (decide (b0 = b)) as [|Hne]; [done|]. destruct (Hok _ _ _ Hb) as [_ Hd]. destruct (Hd _ _ _ H1' Hne); lia. }
    rewrite Hb in H1'. injection H1' as <- <-. rewrite (proj2 (Z.leb_le b i)) by lia. split_and!; try done.
    intros b1 l1 p1 [N1 G1]%lookup_delete_Some. destruct (Hok _ _ _ G1) as [? Hd]. split; [done|].
    intros b' l' p' [_ G2]%lookup_delete_Some. by eapply Hd.
  - pose proof (gmap_find_None _ _ E (b, (l, p)) (proj2 (map_list_elem t b l p) Hb)) as H4. cbn in H4. lia.
Qed.
Next Obligation.
  intros t p Hok. cbn. rewrite list_elem_of_fmap. split.
  - intros ([b [l p']] & -> & H1). exists b, l. by apply map_list_elem.
  - intros (b & l & H1). exists (b, (l, p)). split; [done|]. by apply map_list_elem.
Qed.

(** Codes that fit. *)
#[export] Instance sample_codes : UmmuCodes := {
  MAPT_PERM_R := 1; MAPT_PERM_W := 2; MAPT_PERM_RW := 3; MAPT_PERM_ATOMIC_R := 5; MAPT_PERM_ATOMIC_W := 6;
  MAPT_PERM_ATOMIC_RW := 7; UMMU_EBIT_OFF := 0; UMMU_EBIT_END := 2;
}.
#[export] Instance sample_codes_ok : UmmuCodesOk.
Proof.
  split; [|cbn; lia]. intros z. unfold ummu_check_perm. cbn. destruct (_ || _ || _ || _ || _ || _) eqn:E; [|done].
  intros _. rewrite !orb_true_iff, !Z.eqb_eq in E. lia.
Qed.
