(* ===== verification/UmmuPermApi.v ===== *)
(** * What [ummu_perm_grant] and [ummu_perm_ungrant] promise

    A domain has a permission table or a single entry.  For both, the segments in force are a
    function of the calls and of their results, and the hardware grants those and nothing
    else.  A grant that runs out of memory after the table was changed is the exception: its range
    stays granted, unknown to the manager. *)

From S2P Require Import Prelude UmmuQueue UmmuCmd UmmuPerm UmmuPermTree UmmuPermMem UmmuPermFill UmmuPermClear UmmuPermToken UmmuPermTable UmmuPermSeg UmmuPermMng.

Section Api.
Context `{HM : MapleTreeOk MT} `{HC : UmmuCodesOk}.

(** The attributes the hardware finds for an address of a domain. *)
Definition domain_grants (mi : ummu_mapt_info MT) (a : Z) : option attr :=
  match base mi with
  | EntryBase n => if valid n && (node_base n <=? a) && (a <=? node_limit n) then Some (node_attr n) else None
  | TableBase c _ => hw_grants c a
  | NoBase => None
  end.

(** ** Entry mode *)

(** A valid entry is the segment in force. *)
Definition entry_holds (n : node) (G : segs) : Prop :=
  if valid n then
    G = {[ node_base n := (node_limit n, node_attr n) ]} /\ node_base n <= node_limit n /\
    (token_check n = 0 \/ token_check n = 1 /\ (nonce n = 1 \/ nonce n = 2))
  else G = ∅.
Definition entry_inv (mi : ummu_mapt_info MT) (G : segs) : Prop :=
  exists n, base mi = EntryBase n /\ mi_valid mi = true /\ entry_holds n G.

Lemma entry_addr (a : Z) : 0 <= a < 2 ^ 48 -> ADDR_FULL (ENTRY_ADDR_LOW a) (ENTRY_ADDR_HIGH a) = a.
Proof. intros Ha. by apply (addr_halves 47). Qed.

Lemma entry_filled (n : node) (d : ummu_data_info) : 0 <= data_base d <= data_limit d -> data_limit d < 2 ^ 48 ->
  d_token_check d = 0 \/ d_token_check d = 1 ->
  entry_holds (ummu_entry_fill_node n d) {[ data_base d := (data_limit d, data_attr d) ]}.
Proof.
  intros Hb Hl Ht. unfold entry_holds, node_base, node_limit.
  cbn [valid base_low base_high limit_low limit_high token_check nonce ummu_entry_fill_node].
  rewrite !entry_addr by lia. split_and!; [|lia|].
  - f_equal. f_equal. unfold node_attr, data_attr. cbn -[uwrap]. by destruct Ht as [-> | ->].
  - destruct Ht as [-> | ->]; [by left|by right; split; [|left]].
Qed.

(** Tokens of an entry. *)
Lemma entry_tokens (n : node) (G : segs) (k t0 t1 : Z) (y : attr) : entry_holds n G -> valid n = true -> token_check n = 1 ->
  k = 1 \/ k = 2 -> y = {| a_perm := permission n; a_ebit := e_bit n; a_check := 1; a_nonce := k; a_tok0 := t0; a_tok1 := t1 |} ->
  entry_holds (set_tokens n k t0 t1) (<[node_base n := (node_limit n, y)]> G).
Proof.
  unfold entry_holds. intros Hn Ev Hc Hk ->. rewrite Ev in Hn. destruct Hn as (-> & Hbl & _).
  cbn [valid set_tokens]. rewrite Ev. rewrite insert_singleton_eq. unfold node_attr, node_base, node_limit.
  cbn [base_low base_high limit_low limit_high token_check nonce permission e_bit token_val_0 token_val_1 set_tokens].
  rewrite Hc. split_and!; [done|done|]. by right.
Qed.

Lemma entry_lookup (n : node) (G : segs) (b l : Z) (y : attr) : entry_holds n G -> G !! b = Some (l, y) ->
  valid n = true /\ b = node_base n /\ l = node_limit n /\ y = node_attr n.
Proof.
  unfold entry_holds. destruct (valid n); [|by intros -> ?]. intros (-> & _) [<- [= <- <-]]%lookup_singleton_Some. done.
Qed.

(** Tokens of an entry that checks them. *)
Lemma node_attr_checked (n : node) : token_check n = 1 ->
  node_attr n = {| a_perm := permission n; a_ebit := e_bit n; a_check := 1; a_nonce := nonce n;
                   a_tok0 := token_val_0 n; a_tok1 := token_val_1 n |}.
Proof. intros E. unfold node_attr. by rewrite E. Qed.

(** What a grant does to the entry. *)
Lemma entry_grant_op (n : node) (G : segs) (d : ummu_data_info) : entry_holds n G ->
  0 <= data_base d <= data_limit d -> data_limit d < 2 ^ 48 -> 0 <= d_perm d < 64 -> 0 <= d_e_bit d < 2 ->
  d_token_check d = 0 \/ d_token_check d = 1 ->
  let op := ummu_entry_param_check n d in
  (op_end op = true /\ forall G', grant_spec G (data_base d) (data_limit d) (d_tokenval d) (data_attr d) G' ->
     G <> ∅ /\ is_free G (data_base d) (data_limit d)) \/
  (op_end op = false /\ exists n' G', ummu_entry_op op n d = (n', 0) /\ entry_holds n' G' /\
     grant_spec G (data_base d) (data_limit d) (d_tokenval d) (data_attr d) G').
Proof.
  intros Hn Hb Hl Hp He Ht. unfold ummu_entry_param_check.
  assert (Hx1 : a_perm (data_attr d) = d_perm d) by (apply uwrap_small; lia).
  assert (Hx2 : a_ebit (data_attr d) = d_e_bit d) by (apply uwrap_small; lia).
  rewrite (uwrap_small 32) by lia. destruct (valid n) eqn:Ev; cbn [negb].
  - destruct (_ && _) eqn:Eck; cbn [op_end]; [right|left]; split; try done.
    + repeat match goal with Hc : _ && _ = true |- _ => apply andb_prop in Hc as [? ?] end.
      rewrite ->Z.eqb_eq in *. cbn [ummu_entry_op]. unfold ummu_add_token. rewrite Ev, (proj2 (Z.eqb_eq (nonce n) 1)) by done. cbn [andb].
      eexists _, _. split; [done|]. split; [eapply entry_tokens; [done..|by right|done]|].
      pose proof Hn as Hn'. unfold entry_holds in Hn'. rewrite Ev in Hn'. destruct Hn' as (HG & _).
      replace (node_base n) with (data_base d) in * by done. replace (node_limit n) with (data_limit d) in * by done.
      eapply (grant_token G _ _ _ _ (node_attr n)); rewrite ?node_attr_checked by done; cbn [a_check a_perm a_ebit]; try congruence.
      * rewrite HG. by rewrite lookup_singleton_eq, node_attr_checked by done.
      * done.
      * unfold token_attr. cbn [a_nonce]. by rewrite (proj2 (Z.eqb_eq (nonce n) 1)) by done.
    + intros G' [Hf|y y' HG C1 C2 C3 C4 Hy].
      * split; [|done]. unfold entry_holds in Hn. rewrite Ev in Hn. destruct Hn as (-> & _). intros E.
        by apply (f_equal (lookup (node_base n))) in E; rewrite lookup_singleton_eq, lookup_empty in E.
      * exfalso. destruct (entry_lookup _ _ _ _ _ Hn HG) as (_ & E1 & E2 & ->). cbn [a_check node_attr] in C1.
        rewrite node_attr_checked in C3, C4, Hy by done. cbn [a_perm a_ebit] in C3, C4.
        unfold token_attr in Hy. cbn [a_nonce] in Hy. destruct (nonce n =? 1) eqn:En; [|done].
        change (d_token_check d = 1) in C2.
        by rewrite <- E1, <- E2, C1, C2, C3, C4, Hx1, Hx2, !Z.eqb_refl in Eck.
  - right. split; [done|]. eexists _, _. split; [done|]. split; [by apply entry_filled|].
    unfold entry_holds in Hn. rewrite Ev in Hn. subst G. rewrite <- insert_empty. apply grant_new.
    intros a x _ (b' & l' & HG & _). by rewrite lookup_empty in HG.
Qed.

(** What a revocation does to the entry. *)
Lemma entry_ungrant_op (n : node) (G : segs) (q : ummu_grant_param) (tok : option Z) (old : Z) : entry_holds n G ->
  bytoken q = match tok with Some _ => 1 | None => 0 end -> d_tokenval (p_info q) = default old tok ->
  let op := ummu_entry_ungrant_param_check n q in
  let spec := ungrant_spec G (data_base (p_info q)) (data_limit (p_info q)) tok in
  (op_end op = true /\ forall G', ~ spec G') \/
  (op_end op = false /\ exists n' G', ummu_entry_op op n (p_info q) = (n', 0) /\ entry_holds n' G' /\ spec G').
Proof.
  intros Hn Hbt Htv op spec. unfold op, ummu_entry_ungrant_param_check.
  assert (Hspec : forall G', spec G' -> exists y, G !! data_base (p_info q) = Some (data_limit (p_info q), y)).
  { intros G' [y HG|v y HG|v y y' HG]; by exists y. }
  destruct (valid n) eqn:Ev; cbn [negb]; [|left; split; [done|]; intros G' [y HG]%Hspec; destruct (entry_lookup _ _ _ _ _ Hn HG); congruence].
  destruct (negb (node_base n =? data_base (p_info q)) || negb (node_limit n =? data_limit (p_info q))) eqn:Er.
  { left. split; [done|]. intros G' [y HG]%Hspec. destruct (entry_lookup _ _ _ _ _ Hn HG) as (_ & E1 & E2 & _).
    by rewrite E1, E2, !Z.eqb_refl in Er. }
  apply orb_false_iff in Er as [Eb%negb_false_iff El%negb_false_iff]. rewrite ->Z.eqb_eq in Eb, El.
  pose proof Hn as Hn'. unfold entry_holds in Hn'. rewrite Ev in Hn'. destruct Hn' as (HG & Hbl & Hck). unfold spec in *.
  rewrite Eb, El in HG.
  assert (Hzero : entry_holds zero_node (delete (data_base (p_info q)) G)) by (by rewrite HG, delete_singleton_eq).
  assert (HGb : G !! data_base (p_info q) = Some (data_limit (p_info q), node_attr n)) by (by rewrite HG, lookup_singleton_eq).
  rewrite Hbt, Htv. destruct tok as [v|]; cbn [Z.eqb].
  - change (default old (Some v)) with v in *. destruct Hck as [C0|[C1 Hk]].
    { rewrite C0. left. split; [done|]. intros G' Hs.
      inversion Hs as [| v0 x0 H1 H2 | v0 x0 x' H1 H2]; subst v0; rewrite HGb in H1; injection H1 as <-; cbn in H2; congruence. }
    rewrite C1. cbn [Z.eqb]. rewrite node_attr_checked in HGb by done.
    destruct (negb (token_val_0 n =? v) && negb (token_val_1 n =? v)) eqn:Etok.
    + left. split; [done|]. apply andb_prop in Etok as [T0%negb_true_iff T1%negb_true_iff]. intros G' Hs.
      inversion Hs as [| v0 x0 H1 H2 H3 | v0 x0 x' H1 H2 H3 H4]; subst v0; rewrite HGb in H1; injection H1 as <-.
      * cbn in H3. rewrite Z.eqb_neq in T0, T1. by destruct H3.
      * unfold token_attr in H4. cbn [a_tok0 a_tok1] in H4. by rewrite T0, T1 in H4.
    + right. destruct Hk as [K1|K2].
      * rewrite K1. split; [done|]. exists zero_node, (delete (data_base (p_info q)) G). split_and!; [done|done|].
        eapply ungrant_last; [done..| |done]. cbn. apply andb_false_iff in Etok. rewrite !negb_false_iff, !Z.eqb_eq in Etok. tauto.
      * rewrite K2. split; [done|]. change (exists n' G', (let '(r, n0) := ummu_remove_token n (d_tokenval (p_info q)) in (n0, r)) = (n', 0) /\ entry_holds n' G' /\
          ungrant_spec G (data_base (p_info q)) (data_limit (p_info q)) (Some v) G'). unfold ummu_remove_token. rewrite Htv. change (default old (Some v)) with v.
        assert (Hput : forall t, (token_attr UMMU_REMOVE_TOKEN v (node_attr n) = Some {| a_perm := permission n; a_ebit := e_bit n; a_check := 1; a_nonce := 1; a_tok0 := t; a_tok1 := t |}) ->
          exists n' G', (set_tokens n 1 t t, 0) = (n', 0) /\ entry_holds n' G' /\ ungrant_spec G (data_base (p_info q)) (data_limit (p_info q)) (Some v) G').
        { intros t Ht. eexists _, _. split; [done|]. split; [eapply entry_tokens; [done..|by left|done]|].
          rewrite Eb, El. rewrite node_attr_checked in Ht by done. by eapply ungrant_token. }
        rewrite node_attr_checked in Hput by done. unfold token_attr in Hput. cbn [a_tok0 a_tok1 a_perm a_ebit a_check] in Hput.
        destruct (token_val_0 n =? v); [by apply Hput|]. destruct (token_val_1 n =? v); [by apply Hput|done].
  - right. split; [done|]. exists zero_node, (delete (data_base (p_info q)) G). split_and!; [done|done|by eapply ungrant_all].
Qed.

Lemma grant_entry (ias : Z) (mi : ummu_mapt_info MT) (G : segs) (va size perm : Z) (attr : ummu_seg_attr)
    (old : Z) (a : answers_of) :
  entry_inv mi G -> 0 <= va -> 0 <= size < 2 ^ 64 ->
  let d := asked ias va size perm attr old (ans_random a) in
  let b := data_base d in let l := data_limit d in let spec := grant_spec G b l (d_tokenval d) (data_attr d) in
  exists r mi' plb tok, ummu_perm_grant ias mi va size perm (Some attr) old a = Some (r, mi', plb, tok) /\
    ((r = 0 /\ b <= l /\ exists G', spec G' /\ entry_inv mi' G') \/
     (r <> 0 /\ mi' = mi /\
      (ummu_check_data false b size perm (sa_e_bit attr) (sa_token attr) <> 0 \/
       forall G', spec G' -> G <> ∅ /\ is_free G b l))).
Proof.
  intros (n & Eb & Ev & Hn) Hva Hsize d b l spec.
  pose proof (asked_nonneg ias va Hva) as Hb0. change (asked_base ias va) with b in Hb0.
  unfold ummu_perm_grant, ummu_perm_table_mode_is_valid, is_table. rewrite Ev, Eb. cbn [negb]. cbv zeta.
  change (Z.land va (GENMASK (ias - 1) 0)) with b.
  destruct (ctrue (ummu_check_data false b size perm (sa_e_bit attr) (sa_token attr))) eqn:Echk.
  { apply ctrue_nz in Echk. eexists _, _, _, _. split; [done|]. right. split_and!; [done|done|by left]. }
  apply ctrue_z in Echk. destruct (check_data_in _ _ _ _ _ _ Hb0 Hsize Echk) as ((Hs0 & Hl48 & Hw1 & Hw2 & Hp & He) & _).
  change (ummu_perm_data_preproc b size perm (sa_e_bit attr) (sa_token attr) old (ans_random a)) with d.
  assert (El : l = b + size - 1) by exact Hw2.
  assert (Htokc : d_token_check d = 0 \/ d_token_check d = 1).
  { unfold d, asked, ummu_perm_data_preproc. cbn. destruct (sa_token attr); auto. }
  unfold ummu_grant_check, grant_imp_update. rewrite Eb. cbn [p_info].
  destruct (entry_grant_op n G d Hn) as [[-> Hno]|(-> & n' & G' & -> & Hn' & Hsp)]; try done;
    try (change (data_base d) with b; change (data_limit d) with l; lia).
  - eexists _, _, _, _. split; [done|]. right. split_and!; [done|done|by right].
  - eexists _, _, _, _. split; [done|]. left. split_and!; [done|lia|]. exists G'. split; [done|]. by exists n'.
Qed.

Lemma ungrant_entry (ias : Z) (mi : ummu_mapt_info MT) (G : segs) (va size : Z) (tok : option Z) (old : Z) (a : answers_of) :
  entry_inv mi G -> 0 <= va ->
  let b := asked_base ias va in let l := u64 (b + size - 1) in
  exists r mi' plb, ummu_perm_ungrant ias mi va size tok old a = Some (r, mi', plb) /\
    ((r = 0 /\ exists G', ungrant_spec G b l tok G' /\ entry_inv mi' G') \/
     (r <> 0 /\ mi' = mi /\ forall G', ~ ungrant_spec G b l tok G')).
Proof.
  intros (n & Eb & Ev & Hn) Hva b l. unfold ummu_perm_ungrant, ummu_perm_table_mode_is_valid, is_table. rewrite Ev, Eb. cbn [negb andb]. cbv zeta.
  change (Z.land va (GENMASK (ias - 1) 0)) with b. change (u64 (b + size - 1)) with l.
  set (q := {| p_info := _ |}). unfold ummu_ungrant_check, grant_imp_update. rewrite Eb. cbn [p_info].
  destruct (entry_ungrant_op n G q tok old Hn) as [[-> Hno]|(-> & n' & G' & Eop & Hn' & Hsp)]; try done.
  - eexists _, _, _. split; [done|]. right. by split_and!.
  - rewrite Eop. eexists _, _, _. split; [done|]. left. split; [done|]. exists G'. split; [done|]. by exists n'.
Qed.

(** ** Both modes *)

Lemma entry_calls_inv (ias : Z) (n : node) (pos : bool) (cs : list perm_call) (mi : ummu_mapt_info MT) :
  valid n = false -> perm_calls ias (ksva_entry n pos) cs mi -> entry_inv mi (segs_of ias cs).
Proof.
  intros Hv. induction 1 as [|cs mi va size perm attr old a r mi' plb tok _ IH Hva Hsz _ _ Hrun|cs mi va size tok old a r mi' plb _ IH Hva Hrun].
  - exists n. split_and!; [done|done|]. unfold entry_holds. by rewrite Hv.
  - unfold segs_of. rewrite foldl_snoc. fold (segs_of ias cs). cbn [spec_call]. set (d := asked _ _ _ _ _ _ _).
    destruct (grant_entry ias mi (segs_of ias cs) va size perm attr old a IH Hva Hsz) as (r2 & mi2 & plb2 & tok2 & E2 & Hres).
    rewrite Hrun in E2. injection E2 as <- <- <- <-. fold d in Hres.
    destruct Hres as [(-> & Hbl & G' & Hsp & Hinv)|(Hr & -> & _)]; [|by rewrite (proj2 (Z.eqb_neq r 0))].
    cbn [Z.eqb]. rewrite <- (grant_spec_fun _ G' d); [done| |done|done].
    intros b0 l0 x0 Hx0. destruct IH as (n0 & _ & _ & Hn0). destruct (entry_lookup _ _ _ _ _ Hn0 Hx0) as (Ev & -> & -> & _).
    unfold entry_holds in Hn0. rewrite Ev in Hn0. by destruct Hn0 as (_ & ? & _).
  - unfold segs_of. rewrite foldl_snoc. fold (segs_of ias cs). cbn [spec_call].
    destruct (ungrant_entry ias mi (segs_of ias cs) va size tok old a IH Hva) as (r2 & mi2 & plb2 & E2 & Hres).
    rewrite Hrun in E2. injection E2 as <- <- <-. destruct Hres as [(-> & G' & Hsp & Hinv)|(Hr & -> & _)].
    + cbn [Z.eqb]. by rewrite <- (ungrant_spec_fun _ G' _ _ _ Hsp).
    + by rewrite (proj2 (Z.eqb_neq r 0)).
Qed.

Lemma table_grants (mi : ummu_mapt_info MT) (G L : segs) (a : Z) (x : attr) : leak_inv mi G L -> 0 <= a < 2 ^ 48 ->
  domain_grants mi a = Some x <-> granted (G ∪ L) a x.
Proof. intros (c & m & Eb & _ & Ht & _) Ha. unfold domain_grants. rewrite Eb. by apply table_hw. Qed.

Lemma entry_grants (mi : ummu_mapt_info MT) (G : segs) (a : Z) (x : attr) : entry_inv mi G ->
  domain_grants mi a = Some x <-> granted G a x.
Proof.
  intros (n & Eb & _ & Hn). unfold domain_grants, granted. rewrite Eb. split.
  - destruct (valid n) eqn:Ev; [|done]. unfold entry_holds in Hn. rewrite Ev in Hn. destruct Hn as (-> & _).
    cbn [andb]. destruct (_ && _) eqn:Er; [|done]. intros [= <-]. apply andb_prop in Er as [?%Z.leb_le ?%Z.leb_le].
    eexists _, _. split; [apply lookup_singleton_eq|done].
  - intros (b & l & HG & Ha). destruct (entry_lookup _ _ _ _ _ Hn HG) as (-> & -> & -> & ->).
    by rewrite (proj2 (Z.leb_le (node_base n) a)), (proj2 (Z.leb_le a (node_limit n))) by lia.
Qed.

(** Without segments nothing is left but the root. *)
Lemma perm_empty (mi : ummu_mapt_info MT) : perm_inv mi ∅ -> exists c m, base mi = TableBase c m /\
  level_block_bitmap c = {[ 0 ]} /\ dom (xa c) = {[ 0 ]} /\ seg_heap m = ∅.
Proof.
  intros (c & m & Eb & _ & Ht & Hm). exists c, m. destruct (table_empty c Ht) as (? & ? & _). split_and!; try done.
  apply map_empty. intros p. destruct (seg_heap m !! p) as [g|] eqn:E; [|done]. exfalso.
  destruct (mi_heap _ _ Hm p ltac:(by exists g)) as (b & l & HE). destruct (mi_seg _ _ Hm _ _ _ HE) as (? & ? & _ & HG & _).
  by rewrite lookup_empty in HG.
Qed.

(** ** Out of memory *)

(** The manager does not know the segment. *)
Lemma ungrant_unknown (ias : Z) (mi : ummu_mapt_info MT) (c : ummu_mapt_table_ctx) (m : seg_mng MT) (G : segs)
    (va size : Z) (tok : option Z) (old : Z) (a : answers_of) :
  base mi = TableBase c m -> mi_valid mi = true -> mng_inv m G -> segs_ok G ->
  (forall x, G !! asked_base ias va <> Some (asked_base ias va + u64 (size - 1), x)) ->
  ummu_perm_ungrant ias mi va size tok old a = Some (- EINVAL, mi, None).
Proof.
  intros Eb Ev Hm HG Hno. unfold ummu_perm_ungrant, ummu_perm_table_mode_is_valid, is_table. rewrite Ev, Eb. cbn [negb]. cbv zeta.
  change (Z.land va (GENMASK (ias - 1) 0)) with (asked_base ias va). destruct (true && _); [done|].
  pose proof (uwrap_range 64 (size - 1) ltac:(lia)).
  destruct (find_spec m G (asked_base ias va) (u64 (size - 1)) Hm HG ltac:(lia)) as (ret & o & Hfind & Hret).
  unfold ummu_ungrant_check, table_ungrant_check. rewrite Eb. cbn [p_info data_base data_size]. rewrite Hfind.
  destruct ret; [|done..]. destruct Hret as (p & g & x & _ & _ & _ & HGb & _). by apply Hno in HGb.
Qed.

Lemma grant_no_memory (ias : Z) (mi : ummu_mapt_info MT) (c : ummu_mapt_table_ctx) (m : seg_mng MT) (G : segs)
    (va size perm : Z) (attr : ummu_seg_attr) (old : Z) (a : answers_of) :
  base mi = TableBase c m -> perm_inv mi G -> 0 <= va -> 0 <= size < 2 ^ 64 -> fresh_ok mi a ->
  let d := asked ias va size perm attr old (ans_random a) in
  let b := data_base d in let l := data_limit d in
  ummu_check_data true b size perm (sa_e_bit attr) (sa_token attr) = 0 -> is_free G b l ->
  (forall j, ans_blocks a j = 0) -> expan c = true -> Z.of_nat (base.size (level_block_bitmap c)) + 30 < 2048 ->
  ans_kz a = None \/ ans_ins a <> 0 ->
  exists r mi' plb tok, ummu_perm_grant ias mi va size perm (Some attr) old a = Some (r, mi', plb, tok) /\ r < 0 /\
    (forall i, b <= i <= l -> domain_grants mi' i = Some (data_attr d)) /\
    forall tok old a', ummu_perm_ungrant ias mi' va size tok old a' = Some (- EINVAL, mi', None).
Proof.
  intros Eb (c' & m' & Eb' & Ev & Ht & Hm) Hva Hsize Hfresh d b l Hchk Hf Hans Hex Hsz Hmem.
  rewrite Eb in Eb'. injection Eb' as <- <-. pose proof (table_segs _ _ Ht) as HG.
  pose proof (asked_nonneg ias va Hva) as Hb0. change (asked_base ias va) with b in Hb0.
  destruct (check_data_ok b size perm (sa_e_bit attr) (sa_token attr) Hb0 Hsize Hchk) as (Hs0 & Hseg & Hw1 & Hw2 & Hp & He).
  assert (El : l = b + size - 1) by exact Hw2. assert (Hbl : b + u64 (size - 1) = l) by lia.
  assert (Hl : 0 <= l < 2 ^ 64) by (destruct Hseg as (? & ? & _); lia).
  assert (Hno : forall x, G !! b <> Some (l, x)). { intros x Hx. apply (Hf b x); [lia|]. exists b, l. split; [done|lia]. }
  unfold ummu_perm_grant, ummu_perm_table_mode_is_valid, is_table. rewrite Ev, Eb. cbn [negb]. cbv zeta.
  change (Z.land va (GENMASK (ias - 1) 0)) with b. rewrite Hchk. cbn [ctrue Z.eqb negb].
  change (ummu_perm_data_preproc b size perm (sa_e_bit attr) (sa_token attr) old (ans_random a)) with d.
  set (q := {| p_info := d |}). destruct (find_spec m G b (u64 (size - 1)) Hm HG ltac:(lia)) as (ret & o & Hfind & Hret).
  unfold ummu_grant_check. rewrite Eb. unfold table_grant_check. cbn [p_info data_size q]. fold b. rewrite Hfind.
  rewrite Hbl in Hret. destruct ret; [by destruct Hret as (? & ? & x & _ & _ & _ & HGb & _); apply Hno in HGb|by destruct Hret as [_ Hov]; destruct (Hov Hl)|].
  cbn [op_end]. unfold grant_imp_update. rewrite Eb. cbn [p_info].
  assert (Hreq : req_ok d).
  { split; [change (seg_ok b l); by rewrite El|]. unfold d, asked, ummu_perm_data_preproc. cbn. destruct (sa_token attr); auto. }
  change (p_info q) with d.
  destruct (wp_run _ _ _ (wp_table_grant (ans_blocks a) d (start_state c []) G Ht Hreq Hf)) as (r & s' & -> & Hres).
  destruct Hres as [[-> Ht']|(_ & _ & [[j Hj]|[Hx|Hx]])]; [|by rewrite Hans in Hj|by cbn in Hx; congruence|by cbn in Hx; lia].
  cbn [ctrue Z.eqb negb ummu_update_info].
  destruct (insert_no_memory m G q (ans_kz a) (ans_ins a) Hm Hmem) as (m' & r & -> & Hr & Hm').
  { intros p Hkz. by apply (Hfresh c m p). }
  { change (b <= u64 (b + u64 (size - 1))). rewrite Hbl, uwrap_small by lia. lia. }
  eexists _, _, _, _. split; [done|]. split; [done|]. split.
  - intros i Hi. unfold domain_grants. cbn [base set_base]. apply (table_hw _ _ i _ Ht').
    + destruct Hseg as (? & ? & _). lia.
    + exists b, l. split; [apply lookup_insert_eq|done].
  - intros tok old' a'. eapply (ungrant_unknown ias _ (ctx s') m' G); [done|done|done|done|].
    intros x Hx. apply (Hno x). rewrite <- Hbl. exact Hx.
Qed.

(** ** The theorems *)

(** What the hardware grants of the segments [G], and nothing else. *)
Definition grants_exactly (mi : ummu_mapt_info MT) (G : segs) : Prop :=
  forall i x, 0 <= i < 2 ^ 48 -> domain_grants mi i = Some x <-> granted G i x.

(** C10: Granting access in table mode: on a domain whose manager knows the segments [G] and whose table also holds
    the segments [L] that earlier grants left behind, a request for [size] bytes from [va] apart from [L] has one of three
    ends.  It succeeds by putting in force exactly one more segment, or a second token
    of a segment that has one, in the table and in the segment manager; or it fails and changes
    neither; or it fails because there is no memory for the record of a new segment, and then the
    table holds that segment although the manager does not know it: it is left behind.  It fails in the second way only if the request is malformed,
    if the segments do not allow it (it
    overlaps another one, or is one with other attributes or two tokens), if an allocation of a level block
    failed, or if the table may not grow or may have run out of its 2048 level blocks.  After
    each, the hardware grants exactly the segments in force and those left behind. *)
Theorem ummu_perm_grant_spec (ias : Z) (mi : ummu_mapt_info MT) (G L : segs) (va size perm : Z) (attr : ummu_seg_attr)
    (old : Z) (a : answers_of) :
  leak_inv mi G L -> 0 <= va -> 0 <= size < 2 ^ 64 -> fresh_ok mi a ->
  let d := asked ias va size perm attr old (ans_random a) in
  let b := data_base d in let l := data_limit d in let x := data_attr d in is_free L b l ->
  exists r mi' plb tok, ummu_perm_grant ias mi va size perm (Some attr) old a = Some (r, mi', plb, tok) /\
    ((r = 0 /\ exists G', grant_spec G b l (d_tokenval d) x G' /\ leak_inv mi' G' L /\ grants_exactly mi' (G' ∪ L)) \/
     (r <> 0 /\ leak_inv mi' G L /\ grants_exactly mi' (G ∪ L) /\
      (ummu_check_data true b size perm (sa_e_bit attr) (sa_token attr) <> 0 \/ refused mi G b l (d_tokenval d) x a)) \/
     (r < 0 /\ (ans_kz a = None \/ ans_ins a <> 0) /\ is_free G b l /\
      leak_inv mi' G (<[b := (l, x)]> L) /\ grants_exactly mi' (G ∪ <[b := (l, x)]> L))).
Proof.
  intros Hinv Hva Hsize Hfresh d b l x HfL.
  destruct (grant_table ias mi G L va size perm attr old a Hinv Hva Hsize Hfresh HfL) as (r & mi' & plb & tok & E & Hres).
  exists r, mi', plb, tok. split; [exact E|]. destruct Hres as [(Hr & _ & G' & Hsp & Hi)|[(Hr & Hi & Hwhy)|(Hr & Hl & Hf & Hi)]].
  - left. split; [done|]. exists G'. split_and!; [done|done|]. intros i y Hy. by apply table_grants.
  - right. left. split_and!; [done|done| |done]. intros i y Hy. by apply table_grants.
  - right. right. split_and!; [done|done|done|done|]. intros i y Hy. by apply table_grants.
Qed.

(** C11: Revoking access in table mode: it succeeds exactly when the range is a segment in
    force and, if it is revoked by token, when the token is one of the segment's; then the
    segment goes, or one of its two tokens does, in the table and in the manager, and the
    lookaside buffers are asked to forget the range.  Otherwise nothing changes. *)
Theorem ummu_perm_ungrant_spec (ias : Z) (mi : ummu_mapt_info MT) (G : segs) (va size : Z) (tok : option Z) (old : Z)
    (a : answers_of) :
  perm_inv mi G -> 0 <= va ->
  let b := asked_base ias va in let l := u64 (b + size - 1) in
  exists r mi' plb, ummu_perm_ungrant ias mi va size tok old a = Some (r, mi', plb) /\
    ((r = 0 /\ (exists G', ungrant_spec G b l tok G' /\ perm_inv mi' G' /\ grants_exactly mi' G') /\
      exists reqs, plb = Some {| plb_va := b; plb_size := size; plb_reqs := reqs |}) \/
     (r <> 0 /\ mi' = mi /\ forall G', ungrant_spec G b l tok G' -> l <> b + u64 (size - 1))).
Proof.
  intros Hinv%perm_leak Hva b l. destruct (ungrant_table ias mi G ∅ va size tok old a Hinv Hva) as (r & mi' & plb & E & Hres).
  exists r, mi', plb. split; [exact E|]. destruct Hres as [(Hr & (G' & Hsp & Hi) & Hplb)|Hres]; [|by right].
  left. split_and!; [done| |done]. exists G'. split_and!; [done|by apply perm_leak|]. intros i y Hy.
  rewrite (table_grants _ _ _ _ _ Hi Hy). by rewrite (right_id_L ∅ (∪) G').
Qed.

(** C15: Entry mode refines the same specification with room for one segment: a grant is
    refused only for a malformed request, or because the segments do not allow it, or because
    another segment is in force; a revocation succeeds exactly when the specification has it. *)
Theorem ummu_perm_entry_spec (ias : Z) (mi : ummu_mapt_info MT) (G : segs) (va size : Z) :
  entry_inv mi G -> 0 <= va -> 0 <= size < 2 ^ 64 ->
  (forall perm attr old a,
    let d := asked ias va size perm attr old (ans_random a) in
    let b := data_base d in let l := data_limit d in let spec := grant_spec G b l (d_tokenval d) (data_attr d) in
    exists r mi' plb tok, ummu_perm_grant ias mi va size perm (Some attr) old a = Some (r, mi', plb, tok) /\
      ((r = 0 /\ exists G', spec G' /\ entry_inv mi' G' /\ grants_exactly mi' G') \/
       (r <> 0 /\ mi' = mi /\ (ummu_check_data false b size perm (sa_e_bit attr) (sa_token attr) <> 0 \/
         forall G', spec G' -> G <> ∅ /\ is_free G b l)))) /\
  (forall tok old a,
    let spec := ungrant_spec G (asked_base ias va) (u64 (asked_base ias va + size - 1)) tok in
    exists r mi' plb, ummu_perm_ungrant ias mi va size tok old a = Some (r, mi', plb) /\
      ((r = 0 /\ exists G', spec G' /\ entry_inv mi' G' /\ grants_exactly mi' G') \/
       (r <> 0 /\ mi' = mi /\ forall G', ~ spec G'))).
Proof.
  intros Hinv Hva Hsize. split.
  - intros perm attr old a d b l spec.
    destruct (grant_entry ias mi G va size perm attr old a Hinv Hva Hsize) as (r & mi' & plb & tok & E & Hres).
    exists r, mi', plb, tok. split; [exact E|]. destruct Hres as [(Hr & _ & G' & Hsp & Hi)|Hres]; [|by right].
    left. split; [done|]. exists G'. split_and!; [done|done|]. intros i y _. by apply entry_grants.
  - intros tok old a spec. destruct (ungrant_entry ias mi G va size tok old a Hinv Hva) as (r & mi' & plb & E & Hres).
    exists r, mi', plb. split; [exact E|]. destruct Hres as [(Hr & G' & Hsp & Hi)|Hres]; [|by right].
    left. split; [done|]. exists G'. split_and!; [done|done|]. intros i y _. by apply entry_grants.
Qed.

(** C9: After any sequence of grants and revocations on a new domain, in table mode or entry
    mode and with any failures of the allocators, the hardware grants exactly what the calls that succeeded granted and did not
    revoke ([segs_of]), and the ranges [L] that were left behind: each of them is the range of a grant in table mode that failed
    for want of memory for its record; without such a grant there are none.  In table mode, when all was revoked and nothing left behind, every level block but the root, every
    block of them but the first and every record of the manager is free again.  (In table mode, the calls do
    not grant again memory of a grant that failed for want of its record, [avoids].) *)
Theorem perm_history_exact (ias : Z) (mi0 : ummu_mapt_info MT) (cs : list perm_call) (mi : ummu_mapt_info MT) :
  (exists e fb pos, mi0 = ksva_table e fb pos) \/ (exists n pos, valid n = false /\ mi0 = ksva_entry n pos) ->
  perm_calls ias mi0 cs mi ->
  exists L, grants_exactly mi (segs_of ias cs ∪ L) /\ segs_of ias cs ##ₘ L /\
  (forall b l x, L !! b = Some (l, x) -> is_table mi0 = true /\ exists c, c ∈ cs /\ left_behind ias c b l x) /\
  (segs_of ias cs = ∅ -> L = ∅ -> forall c m, base mi = TableBase c m ->
     level_block_bitmap c = {[ 0 ]} /\ dom (xa c) = {[ 0 ]} /\ seg_heap m = ∅).
Proof.
  intros [(e & fb & pos & ->)|(n & pos & Hv & ->)] Hcs.
  - apply calls_inv in Hcs as (L & Hinv & HL). exists L. split_and!.
    + intros i x Hi. by apply table_grants.
    + by destruct Hinv as (? & ? & _ & _ & _ & ? & _).
    + intros b l x Hb. split; [done|by apply HL].
    + intros E -> c m Eb. rewrite E in Hinv. apply perm_leak in Hinv. destruct (perm_empty mi Hinv) as (c' & m' & Eb' & Hm). rewrite Eb in Eb'.
      by injection Eb' as <- <-.
  - apply entry_calls_inv in Hcs; [|done]. exists ∅. rewrite (right_id_L ∅ (∪)). split_and!.
    + intros i x _. by apply entry_grants.
    + apply map_disjoint_empty_r.
    + intros b l x Hb. by rewrite lookup_empty in Hb.
    + intros _ _ c m Eb. destruct Hcs as (n' & Eb' & _). congruence.
Qed.

(** The exception: when the table was changed and the record of the segment cannot be
    allocated or put into the maple tree, [ummu_perm_grant] reports an error, but the hardware
    grants the whole range, and [ummu_perm_ungrant] refuses to revoke it, by token or not. *)
Theorem perm_grant_leaks (ias : Z) (mi : ummu_mapt_info MT) (c : ummu_mapt_table_ctx) (m : seg_mng MT) (G : segs)
    (va size perm : Z) (attr : ummu_seg_attr) (old : Z) (a : answers_of) :
  base mi = TableBase c m -> perm_inv mi G -> 0 <= va -> 0 <= size < 2 ^ 64 -> fresh_ok mi a ->
  let d := asked ias va size perm attr old (ans_random a) in
  let b := data_base d in let l := data_limit d in
  ummu_check_data true b size perm (sa_e_bit attr) (sa_token attr) = 0 -> is_free G b l ->
  (forall j, ans_blocks a j = 0) -> expan c = true -> Z.of_nat (base.size (level_block_bitmap c)) + 30 < 2048 ->
  ans_kz a = None \/ ans_ins a <> 0 ->
  exists r mi' plb tok, ummu_perm_grant ias mi va size perm (Some attr) old a = Some (r, mi', plb, tok) /\ r < 0 /\
    (forall i, b <= i <= l -> domain_grants mi' i = Some (data_attr d)) /\
    forall tok old a', ummu_perm_ungrant ias mi' va size tok old a' = Some (- EINVAL, mi', None).
Proof. intros Eb Hinv Hva Hsize Hfresh d b l. by apply (grant_no_memory ias mi c m G). Qed.
End Api.

(** ** Witnesses *)

Definition sample_table : ummu_mapt_info (gmap Z (Z * Z)) := ksva_table true false false.
Definition sample_attr : ummu_seg_attr := {| sa_token := None; sa_e_bit := 0 |}.
Definition sample_answers (kz : option Z) : answers_of :=
  {| ans_blocks := fun _ => 0; ans_kz := kz; ans_ins := 0; ans_random := 0 |}.
Definition sample_range (x : Z) : attr :=
  {| a_perm := x; a_ebit := 0; a_check := 0; a_nonce := 0; a_tok0 := 0; a_tok1 := 0 |}.

Lemma sample_fresh (kz : option Z) : fresh_ok sample_table (sample_answers kz).
Proof. intros c m p [= <- <-] _. apply lookup_empty. Qed.
Lemma empty_free (b l : Z) : is_free ∅ b l.
Proof. intros a x _ (b' & l' & HG & _). by rewrite lookup_empty in HG. Qed.

(** 8 KB from page 1, readable: the hardware then grants byte 5000. *)
Lemma ummu_perm_grant_spec_witness : exists mi' plb tok,
  ummu_perm_grant 48 sample_table 4096 8192 1 (Some sample_attr) 0 (sample_answers (Some 7)) = Some (0, mi', plb, tok) /\
  domain_grants mi' 5000 = Some (sample_range 1).
Proof.
  destruct (ummu_perm_grant_spec 48 sample_table ∅ ∅ 4096 8192 1 sample_attr 0 (sample_answers (Some 7))
    (proj1 (perm_leak _ _) (perm_init true false false)) ltac:(lia) ltac:(lia) (sample_fresh _) (empty_free _ _)) as (r & mi' & plb & tok & E & Hres).
  destruct Hres as [[-> (G' & Hsp & _ & Hg)]|[(_ & _ & _ & [Hc|[Hr|[[j Hj]|(c & m & [= <- <-] & [Hx|Hx])]]])|(_ & [Hk|Hk] & _)]].
  - exists mi', plb, tok. split; [exact E|]. apply Hg; [lia|]. exists 4096, 12287. split; [|lia]. rewrite (right_id_L ∅ (∪) G').
    destruct Hsp as [_|y y' HG]; [apply lookup_insert_eq|by rewrite lookup_empty in HG].
  - by destruct Hc.
  - destruct (Hr _ (grant_new _ _ _ _ _ (empty_free _ _))).
  - by destruct Hj.
  - done.
  - exfalso. by apply Hx.
  - done.
  - by destruct Hk.
Defined.

(** Nothing is in force, so that nothing can be revoked. *)
Lemma ummu_perm_ungrant_spec_witness : exists r plb,
  ummu_perm_ungrant 48 sample_table 4096 8192 None 0 (sample_answers None) = Some (r, sample_table, plb) /\ r <> 0.
Proof.
  destruct (ummu_perm_ungrant_spec 48 sample_table ∅ 4096 8192 None 0 (sample_answers None)
    (perm_init true false false) ltac:(lia)) as (r & mi' & plb & E & Hres).
  destruct Hres as [(_ & (G' & Hsp & _) & _)|(Hr & -> & _)].
  - exfalso. inversion Hsp as [x HG| |]; subst. by rewrite lookup_empty in HG.
  - exists r, plb. by split.
Defined.

(** The entry takes a segment. *)
Lemma ummu_perm_entry_spec_witness : exists mi' plb tok,
  ummu_perm_grant 48 (ksva_entry (MT := gmap Z (Z * Z)) zero_node false) 100 10 2 (Some sample_attr) 0 (sample_answers None) = Some (0, mi', plb, tok) /\
  domain_grants mi' 109 = Some (sample_range 2).
Proof.
  destruct (ummu_perm_entry_spec 48 (ksva_entry (MT := gmap Z (Z * Z)) zero_node false) ∅ 100 10) as [Hgrant _];
    [by exists zero_node|lia|lia|].
  destruct (Hgrant 2 sample_attr 0 (sample_answers None)) as (r & mi' & plb & tok & E & Hres).
  destruct Hres as [[-> (G' & Hsp & _ & Hg)]|(_ & _ & [Hc|Hr])].
  - exists mi', plb, tok. split; [exact E|]. apply Hg; [lia|]. exists 100, 109. split; [|lia].
    destruct Hsp as [_|y y' HG]; [apply lookup_insert_eq|by rewrite lookup_empty in HG].
  - by destruct Hc.
  - by destruct (Hr _ (grant_new _ _ _ _ _ (empty_free _ _))).
Defined.

(** A history of two grants; there is no memory for the record of the second one, and the hardware grants both. *)
Definition sample_first (r : Z) : perm_call := CallGrant 4096 8192 1 sample_attr 0 (sample_answers (Some 7)) r.
Definition sample_second (r : Z) : perm_call := CallGrant 65536 4096 1 sample_attr 0 (sample_answers None) r.

Lemma sample_calls : exists mi, perm_calls 48 sample_table [sample_first 0; sample_second (- ENOMEM)] mi /\ domain_grants mi 5000 = Some (sample_range 1) /\ domain_grants mi 65537 = Some (sample_range 1).
Proof.
  assert (E1 : exists mi1 plb tok, ummu_perm_grant 48 sample_table 4096 8192 1 (Some sample_attr) 0 (sample_answers (Some 7)) = Some (0, mi1, plb, tok) /\
    exists mi2 plb2 tok2, ummu_perm_grant 48 mi1 65536 4096 1 (Some sample_attr) 0 (sample_answers None) = Some (- ENOMEM, mi2, plb2, tok2) /\
      domain_grants mi2 5000 = Some (sample_range 1) /\ domain_grants mi2 65537 = Some (sample_range 1)).
  { eexists _, _, _. split; [vm_compute; reflexivity|]. eexists _, _, _. split; [vm_compute; reflexivity|]. split; vm_compute; reflexivity. }
  destruct E1 as (mi1 & plb & tok & E1 & mi2 & plb2 & tok2 & E2 & H1 & H2). exists mi2. split; [|by split].
  eapply (calls_grant 48 sample_table [sample_first 0] mi1); [|lia|lia|by intros ? ? ?| |exact E2].
  - eapply (calls_grant 48 sample_table [] sample_table); [constructor|lia|lia|apply sample_fresh| |exact E1]. cbv zeta. intros _ c b' l' x Hc. by apply not_elem_of_nil in Hc.
  - cbv zeta. intros _ c b' l' x Hc. apply list_elem_of_singleton in Hc as ->. intros [Hr _]; by destruct Hr.
Qed.

Lemma perm_history_exact_witness : exists mi L, perm_calls 48 sample_table [sample_first 0; sample_second (- ENOMEM)] mi /\
  grants_exactly mi (segs_of 48 [sample_first 0; sample_second (- ENOMEM)] ∪ L) /\ granted L 65537 (sample_range 1).
Proof.
  destruct sample_calls as (mi & Hc & _ & Hg).
  destruct (perm_history_exact 48 sample_table _ mi (or_introl (ex_intro _ true (ex_intro _ false (ex_intro _ false eq_refl)))) Hc) as (L & HL & _ & _).
  exists mi, L. split; [exact Hc|]. split; [exact HL|]. apply HL in Hg; [|lia]. destruct Hg as (b & l & Hb & Hi). exists b, l. split; [|exact Hi].
  apply lookup_union_Some_raw in Hb as [Hb|[_ Hb]]; [|exact Hb]. exfalso.
  assert (Es : segs_of 48 [sample_first 0; sample_second (- ENOMEM)] = {[ 4096 := (12287, sample_range 1) ]}) by (vm_compute; reflexivity).
  rewrite Es in Hb. apply lookup_singleton_Some in Hb as [<- [= <-]]. lia.
Defined.

(** No memory for the record of the segment. *)
Lemma perm_grant_leaks_witness : exists r mi' plb tok,
  ummu_perm_grant 48 sample_table 4096 8192 1 (Some sample_attr) 0 (sample_answers None) = Some (r, mi', plb, tok) /\ r < 0 /\
  domain_grants mi' 5000 = Some (sample_range 1) /\
  ummu_perm_ungrant 48 mi' 4096 8192 None 0 (sample_answers None) = Some (- EINVAL, mi', None).
Proof.
  destruct (perm_grant_leaks 48 sample_table (mapt_init true false) {| seg_tree := mt_init; seg_heap := ∅ |} ∅
    4096 8192 1 sample_attr 0 (sample_answers None) eq_refl (perm_init true false false) ltac:(lia) ltac:(lia)
    (sample_fresh _) ltac:(by vm_compute) (empty_free _ _) ltac:(done) eq_refl) as (r & mi' & plb & tok & E & Hr & Hg & Hu).
  - cbn [mapt_init level_block_bitmap]. rewrite size_singleton. lia.
  - by left.
  - exists r, mi', plb, tok. split_and!; [exact E|done| |apply Hu]. apply Hg. by vm_compute.
Defined.
