(* ===== verification/UbDecoder.v ===== *)
(** * The address decoder of the UB bus controller

    [drivers/ub/ubus/vendor/hisilicon/hisi-decoder.c]: the table that sends accesses to the
    MMIO window of the host to addresses of other entities on the bus.  The window is cut
    into pages of 1 MB.  The first level has 512 slots of 32 GB; a slot is eight pointers of
    8 bytes to tables of 4096 pages each, or one range entry of 64 bytes, which maps a part of
    the slot at once and points to one table of 32768 pages for the rest.  Both views of a
    slot share its memory, so that the first level is modelled as 64-bit words whose
    bit fields are read and written one by one.

    Memory of the second level is found by the address the hardware uses for it; an access to
    memory that is not there, or past its end, gives [None].  The answers of the allocator
    are an oracle, and so are the reads of the registers of the command queue. *)

From S2P Require Import Prelude UmmuQueue UmmuCmd.

(** ** Constants *)

Definition SZ_1M : Z := 2 ^ 20.
Definition SZ_4G : Z := 2 ^ 32.
Definition RGTLB_TO_PGTLB : Z := 8.
Definition DECODER_PAGE_SIZE : Z := Z.shiftl 1 12.
Definition DECODER_PAGE_TABLE_SIZE : Z := Z.shiftl 1 12.
Definition UBA_ADDR_OFFSET : Z := 12.
Definition DECODER_PAGE_INDEX_LOC : Z := 20.
Definition DECODER_PAGE_TABLE_LOC : Z := 35.
Definition DECODER_SUB_PAGE_TABLE_LOC : Z := 32.
Definition DECODER_PAGE_TABLE_MASK : Z := GENMASK 43 35.
Definition DECODER_SUB_PAGE_TABLE_MASK : Z := GENMASK 34 32.
Definition DECODER_PGTLB_PAGE_MASK : Z := GENMASK 31 20.
Definition DECODER_RGTLB_PAGE_MASK : Z := GENMASK 34 20.
Definition DECODER_RGTLB_ADDRESS_MASK : Z := GENMASK 34 20.
Definition DECODER_RGTLB_ADDRESS_OFFSET : Z := 20.
Definition TOKEN_VALID_MASK : Z := GENMASK 0 0.
Definition MEM_LMT_MAX : Z := 0x7FFF.
Definition RANGE_UBA_LOW_MASK : Z := GENMASK 34 20.
Definition RANGE_UBA_HIGH_MASK : Z := GENMASK 63 35.
Definition DECODER_PGTBL_PGPRT_MASK : Z := GENMASK 47 12.
Definition DECODER_DMA_PAGE_ADDR_OFFSET : Z := 12.
Definition PGTLB_ATTR_DEFAULT : Z := Z.lor (Z.lor 1 4) 48.

(** [enum entry_type]. *)
Definition INVALID_ENTRY : Z := 0.
Definition PAGE_TABLE : Z := 1.
Definition PAGE : Z := 2.
Definition RANGE_TABLE : Z := 3.

(** ** Bit fields: [w] bits from bit [lo] on *)

Definition bf_get (lo w x : Z) : Z := Z.land (Z.shiftr x lo) (Z.ones w).
Definition bf_set (lo w v x : Z) : Z :=
  Z.lor (Z.ldiff x (Z.shiftl (Z.ones w) lo)) (Z.shiftl (Z.land v (Z.ones w)) lo).

(** ** Data *)

(** [struct decoder_map_info]. *)
Record decoder_map_info := {
  pa : Z; uba : Z; i_size : Z; i_tpg_num : Z; i_order_id : Z; i_order_type : Z;
  i_eid_low : Z; i_eid_high : Z; i_token_id : Z; i_token_value : Z; i_upi : Z; i_src_eid : Z;
}.

(** [struct page_entry]. *)
Record page_entry := {
  entry_type : Z; token_vld : Z; ub_addr : Z; tpg_num : Z; order_type : Z; order_id : Z;
  dst_eid_low : Z; dst_eid_high : Z; token_id : Z; token_value : Z; upi : Z; src_eid : Z;
}.
Definition zero_entry : page_entry :=
  {| entry_type := 0; token_vld := 0; ub_addr := 0; tpg_num := 0; order_type := 0; order_id := 0;
     dst_eid_low := 0; dst_eid_high := 0; token_id := 0; token_value := 0; upi := 0; src_eid := 0 |}.
Definition set_entry_type (e : page_entry) (t : Z) : page_entry :=
  {| entry_type := t; token_vld := token_vld e; ub_addr := ub_addr e; tpg_num := tpg_num e;
     order_type := order_type e; order_id := order_id e; dst_eid_low := dst_eid_low e;
     dst_eid_high := dst_eid_high e; token_id := token_id e; token_value := token_value e;
     upi := upi e; src_eid := src_eid e |}.

(** [struct page_table_entry], one word. *)
Definition pte_type (x : Z) : Z := bf_get 0 2 x.
Definition pte_next (x : Z) : Z := bf_get 12 36 x.
Definition set_pte_type (v x : Z) : Z := bf_set 0 2 v x.
Definition set_pte_next (v x : Z) : Z := bf_set 12 36 v x.
Definition set_pte_attr (v x : Z) : Z := bf_set 56 8 v x.

(** [struct range_table_entry], eight words. *)
Definition rte_token_vld (w : Z -> Z) : Z := bf_get 8 1 (w 0).
Definition rte_mem_base (w : Z -> Z) : Z := bf_get 0 15 (w 1).
Definition rte_mem_limit (w : Z -> Z) : Z := bf_get 16 15 (w 1).
Definition rte_ub_addr (w : Z -> Z) : Z := bf_get 12 52 (w 2).
Definition rte_tpg_num (w : Z -> Z) : Z := bf_get 32 20 (w 3).
Definition rte_order_type (w : Z -> Z) : Z := bf_get 52 2 (w 3).
Definition rte_order_id (w : Z -> Z) : Z := bf_get 54 8 (w 3).
Definition rte_token_id (w : Z -> Z) : Z := bf_get 0 20 (w 6).
Definition rte_token_value (w : Z -> Z) : Z := bf_get 32 32 (w 6).
Definition rte_upi (w : Z -> Z) : Z := bf_get 0 16 (w 7).
Definition rte_src_eid (w : Z -> Z) : Z := bf_get 32 20 (w 7).

(** [struct page_table_desc]: [page_base] is the memory that [page_dma] names. *)
Record page_table_desc := { page_base : option Z; page_dma : Z; count : Z }.
Definition zero_desc : page_table_desc := {| page_base := None; page_dma := 0; count := 0 |}.

(** Memory of the second level: its number of entries, and the entries. *)
Record region := { r_len : Z; r_at : Z -> page_entry }.

(** [struct ub_decoder_queue]: [qs], the fields of [prod] and [cons], and the ring. *)
Record decoder_queue := { qs : Z; wr_idx : Z; rd_idx : Z; err_resp : Z; ring : Z -> Z * Z }.

(** [struct ub_decoder], with the memory it owns, the number of requests for memory so far and how many of them were denied. *)
Record ub_decoder := {
  mmio_base_addr : Z;
  mmio_end_addr : Z;
  rg_size : Z;
  create_matt : bool;
  invalid_page_dma : Z;
  pgtlb : Z -> Z;
  desc_base : Z -> page_table_desc;
  mem : gmap Z region;
  asked : nat;
  denied : nat;
  cmdq : decoder_queue;
}.

Definition set_pgtlb (d : ub_decoder) (i : Z) (f : Z -> Z) : ub_decoder :=
  {| mmio_base_addr := mmio_base_addr d; mmio_end_addr := mmio_end_addr d; rg_size := rg_size d;
     create_matt := create_matt d; invalid_page_dma := invalid_page_dma d;
     pgtlb := fun j => if j =? i then f (pgtlb d j) else pgtlb d j; desc_base := desc_base d;
     mem := mem d; asked := asked d; denied := denied d; cmdq := cmdq d |}.
Definition set_desc (d : ub_decoder) (i : Z) (x : page_table_desc) : ub_decoder :=
  {| mmio_base_addr := mmio_base_addr d; mmio_end_addr := mmio_end_addr d; rg_size := rg_size d;
     create_matt := create_matt d; invalid_page_dma := invalid_page_dma d;
     pgtlb := pgtlb d; desc_base := fun j => if j =? i then x else desc_base d j;
     mem := mem d; asked := asked d; denied := denied d; cmdq := cmdq d |}.
Definition set_mem (d : ub_decoder) (m : gmap Z region) (n : nat) : ub_decoder :=
  {| mmio_base_addr := mmio_base_addr d; mmio_end_addr := mmio_end_addr d; rg_size := rg_size d;
     create_matt := create_matt d; invalid_page_dma := invalid_page_dma d;
     pgtlb := pgtlb d; desc_base := desc_base d; mem := m; asked := n; denied := denied d; cmdq := cmdq d |}.
(** A request for memory that is denied. *)
Definition deny (d : ub_decoder) : ub_decoder :=
  {| mmio_base_addr := mmio_base_addr d; mmio_end_addr := mmio_end_addr d; rg_size := rg_size d;
     create_matt := create_matt d; invalid_page_dma := invalid_page_dma d;
     pgtlb := pgtlb d; desc_base := desc_base d; mem := mem d; asked := S (asked d); denied := S (denied d); cmdq := cmdq d |}.
Definition set_cmdq (d : ub_decoder) (q : decoder_queue) : ub_decoder :=
  {| mmio_base_addr := mmio_base_addr d; mmio_end_addr := mmio_end_addr d; rg_size := rg_size d;
     create_matt := create_matt d; invalid_page_dma := invalid_page_dma d;
     pgtlb := pgtlb d; desc_base := desc_base d; mem := mem d; asked := asked d; denied := denied d; cmdq := q |}.

(** The entry [i] of the memory at [k]. *)
Definition read_entry (d : ub_decoder) (k i : Z) : option page_entry :=
  r ← mem d !! k; if (0 <=? i) && (i <? r_len r) then Some (r_at r i) else None.
Definition write_entry (d : ub_decoder) (k i : Z) (e : page_entry) : option ub_decoder :=
  r ← mem d !! k;
  if (0 <=? i) && (i <? r_len r) then
    Some (set_mem d (<[k := {| r_len := r_len r; r_at := fun j => if j =? i then e else r_at r j |}]> (mem d)) (asked d))
  else None.

(** ** Indices *)

Definition get_pgtlb_idx (d : ub_decoder) (a : Z) : Z :=
  Z.shiftr (Z.land (u64 (a - mmio_base_addr d)) DECODER_PAGE_TABLE_MASK) DECODER_PAGE_TABLE_LOC.
Definition get_rgtlb_addr (d : ub_decoder) (a : Z) : Z :=
  Z.shiftr (Z.land (u64 (a - mmio_base_addr d)) DECODER_RGTLB_ADDRESS_MASK) DECODER_RGTLB_ADDRESS_OFFSET.
Definition get_rgtlb_page_idx (d : ub_decoder) (a : Z) : Z :=
  Z.shiftr (Z.land (u64 (a - mmio_base_addr d)) DECODER_RGTLB_PAGE_MASK) DECODER_PAGE_INDEX_LOC.
Definition get_page_idx (d : ub_decoder) (a : Z) : Z :=
  Z.shiftr (Z.land (u64 (a - mmio_base_addr d)) DECODER_PGTLB_PAGE_MASK) DECODER_PAGE_INDEX_LOC.
Definition get_pgtlb_sub_idx (d : ub_decoder) (a : Z) : Z :=
  Z.shiftr (Z.land (u64 (a - mmio_base_addr d)) DECODER_SUB_PAGE_TABLE_MASK) DECODER_SUB_PAGE_TABLE_LOC.

(** The field that points to memory at the address [dma]. *)
Definition next_lv (dma : Z) : Z := Z.shiftr (Z.land dma DECODER_PGTBL_PGPRT_MASK) DECODER_DMA_PAGE_ADDR_OFFSET.

Section Decoder.
(** The [n]-th request for memory, given the addresses in use; [ubc_feature] of the bus. *)
Context (dma_alloc : nat -> gset Z -> option Z) (ubc_feature : Z).

(** [dmam_alloc_coherent]: zeroed memory for [len] entries. *)
Definition dmam_alloc (d : ub_decoder) (len : Z) : option Z * ub_decoder :=
  match dma_alloc (asked d) (dom (mem d)) with
  | None => (None, deny d)
  | Some k => (Some k, set_mem d (<[k := {| r_len := len; r_at := fun _ => zero_entry |}]> (mem d)) (S (asked d)))
  end.
Definition dmam_free (d : ub_decoder) (k : Z) : ub_decoder := set_mem d (delete k (mem d)) (asked d).

Definition fill_page_entry (info : decoder_map_info) (offset : Z) : page_entry :=
  {| entry_type := PAGE; token_vld := Z.land ubc_feature TOKEN_VALID_MASK;
     ub_addr := uwrap 52 (Z.shiftr (u64 (uba info + offset)) UBA_ADDR_OFFSET);
     tpg_num := uwrap 20 (i_tpg_num info); order_type := uwrap 2 (i_order_type info);
     order_id := uwrap 8 (i_order_id info); dst_eid_low := i_eid_low info;
     dst_eid_high := i_eid_high info; token_id := uwrap 20 (i_token_id info);
     token_value := uwrap 32 (i_token_value info); upi := uwrap 16 (i_upi info);
     src_eid := uwrap 20 (i_src_eid info) |}.

(** ** Slots that hold a range *)

Definition rgtlb_alloc_page (d : ub_decoder) (ti : Z) : Z * ub_decoder :=
  match dmam_alloc d (DECODER_PAGE_SIZE * RGTLB_TO_PGTLB) with
  | (None, d) => (- ENOMEM, d)
  | (Some k, d) =>
    let d := set_desc d (ti * RGTLB_TO_PGTLB) {| page_base := Some k; page_dma := k; count := 0 |} in
    (0, set_pgtlb d (ti * RGTLB_TO_PGTLB) (fun x => set_pte_attr PGTLB_ATTR_DEFAULT (set_pte_next (next_lv k) x)))
  end.

Definition rgtlb_free_page (d : ub_decoder) (ti k : Z) : ub_decoder :=
  let i := ti * RGTLB_TO_PGTLB in
  let d := dmam_free d k in
  let d := set_pgtlb d i (set_pte_next (invalid_page_dma d)) in
  set_desc d i {| page_base := None; page_dma := 0; count := count (desc_base d i) |}.

(** The words of the slot [ti]. *)
Definition slot (d : ub_decoder) (ti : Z) : Z -> Z := fun j => pgtlb d (ti * RGTLB_TO_PGTLB + j).

(** [rgtlb_map]: the result and the new offset. *)
Definition rgtlb_map (d : ub_decoder) (ti : Z) (info : decoder_map_info) (offset : Z) :
    option (Z * Z * ub_decoder) :=
  let i := ti * RGTLB_TO_PGTLB in
  let addr := get_rgtlb_addr d (u64 (pa info + offset)) in
  let index := get_rgtlb_page_idx d (u64 (pa info + offset)) in
  let offset' := u64 (offset + SZ_1M) in
  if (rte_mem_base (slot d ti) <=? addr) && (addr <=? rte_mem_limit (slot d ti)) then Some (- EINVAL, offset', d)
  else
    let '(r, d1) := match page_base (desc_base d i) with
                    | None => rgtlb_alloc_page d ti
                    | Some _ => (0, d)
                    end in
    if ctrue r then Some (- ENOMEM, offset', d1)
    else
      k ← page_base (desc_base d1 i);
      page ← read_entry d1 k index;
      if negb (entry_type page =? INVALID_ENTRY) then Some (- EINVAL, offset', d1)
      else
        d2 ← write_entry d1 k index (fill_page_entry info offset);
        let de := desc_base d2 i in
        Some (0, offset', set_desc d2 i {| page_base := page_base de; page_dma := page_dma de; count := u32 (count de + 1) |}).

(** One entry of the loop of [copy_rg_to_pg]: the count and the new memory. *)
Definition copy_entry (rg : region) (idx : Z) (acc : Z * (Z -> page_entry)) (j : Z) : Z * (Z -> page_entry) :=
  let e := r_at rg (idx * DECODER_PAGE_SIZE + j) in
  if entry_type e =? PAGE then (u32 (fst acc + 1), fun j' => if j' =? j then e else snd acc j') else acc.

(** [copy_rg_to_pg]: [rg] is the memory of the range, which it does not change. *)
Definition copy_rg_to_pg (d : ub_decoder) (ti : Z) (rg : region) (idx : Z) : Z * ub_decoder :=
  let i := ti * RGTLB_TO_PGTLB + idx in
  match dmam_alloc d DECODER_PAGE_SIZE with
  | (None, d) => (- ENOMEM, d)
  | (Some k, d) =>
    let d := set_pgtlb d i (fun x => set_pte_attr PGTLB_ATTR_DEFAULT (set_pte_next (next_lv k) (set_pte_type PAGE_TABLE x))) in
    let '(n, f) := foldl (copy_entry rg idx) (0, fun _ => zero_entry) (seqZ 0 DECODER_PAGE_SIZE) in
    let d := set_desc d i {| page_base := Some k; page_dma := k; count := n |} in
    (0, set_mem d (<[k := {| r_len := DECODER_PAGE_SIZE; r_at := f |}]> (mem d)) (asked d))
  end.

Definition has_entries (rg : region) (idx : Z) : bool :=
  existsb (fun j => negb (entry_type (r_at rg (idx * DECODER_PAGE_SIZE + j)) =? INVALID_ENTRY)) (seqZ 0 DECODER_PAGE_SIZE).

Fixpoint copy_loop (d : ub_decoder) (ti : Z) (rg : region) (l : list Z) : Z * ub_decoder :=
  match l with
  | [] => (0, d)
  | idx :: l' =>
    if has_entries rg idx then
      let '(r, d) := copy_rg_to_pg d ti rg idx in
      if ctrue r then (r, d) else copy_loop d ti rg l'
    else copy_loop d ti rg l'
  end.

(** The eight entries as pointers to nothing. *)
Definition reset_slot (d : ub_decoder) (ti : Z) : ub_decoder :=
  foldl (fun d j => set_pgtlb d (ti * RGTLB_TO_PGTLB + j) (fun x =>
      set_pte_attr PGTLB_ATTR_DEFAULT (set_pte_next (invalid_page_dma d) (set_pte_type PAGE_TABLE x))))
    d (seqZ 0 RGTLB_TO_PGTLB).

Definition rgtlb_unmap_to_range (d : ub_decoder) (ti : Z) : option (Z * ub_decoder) :=
  let i := ti * RGTLB_TO_PGTLB in
  let d := set_pgtlb d (i + 6) (bf_set 32 32 0) in
  let d := reset_slot d ti in
  match page_base (desc_base d i) with
  | None => Some (0, d)
  | Some k =>
    rg ← mem d !! k;
    let d := set_desc d i zero_desc in
    let '(r, d) := copy_loop d ti rg (seqZ 0 RGTLB_TO_PGTLB) in
    if ctrue r then Some (r, d) else Some (0, dmam_free d k)
  end.

(** [rgtlb_unmap_to_page]; a null [page_base] is dereferenced. *)
Definition rgtlb_unmap_to_page (d : ub_decoder) (ti index : Z) : option (Z * ub_decoder) :=
  let i := ti * RGTLB_TO_PGTLB in
  k ← page_base (desc_base d i);
  page ← read_entry d k index;
  if negb (entry_type page =? PAGE) then Some (- EINVAL, d)
  else
    d ← write_entry d k index (set_entry_type page INVALID_ENTRY);
    let de := desc_base d i in
    let d := set_desc d i {| page_base := page_base de; page_dma := page_dma de; count := u32 (count de - 1) |} in
    Some (0, if count (desc_base d i) =? 0 then rgtlb_free_page d ti k else d).

Definition rgtlb_unmap (d : ub_decoder) (ti : Z) (info : decoder_map_info) (offset : Z) : option (Z * Z * ub_decoder) :=
  let w := slot d ti in
  let begin := get_rgtlb_addr d (u64 (pa info + offset)) in
  let size := u64 ((rte_mem_limit w - rte_mem_base w + 1) * SZ_1M) in
  if begin =? rte_mem_base w then
    let offset := u64 (offset + size) in
    if offset <=? i_size info then '(r, d) ← rgtlb_unmap_to_range d ti; Some (r, offset, d)
    else Some (- EINVAL, offset, d)
  else
    let sub_idx := get_rgtlb_page_idx d (u64 (pa info + offset)) in
    '(r, d) ← rgtlb_unmap_to_page d ti sub_idx; Some (r, u64 (offset + SZ_1M), d).

Definition handle_range_table (d : ub_decoder) (offset : Z) (info : decoder_map_info) (is_map : bool) :
    option (Z * Z * ub_decoder) :=
  let ti := get_pgtlb_idx d (u64 (pa info + offset)) in
  if is_map then rgtlb_map d ti info offset else rgtlb_unmap d ti info offset.

(** ** Slots that hold tables *)

Definition pgtlb_alloc_page (d : ub_decoder) (i : Z) : Z * ub_decoder :=
  match dmam_alloc d DECODER_PAGE_SIZE with
  | (None, d) => (- ENOMEM, d)
  | (Some k, d) =>
    let d := set_desc d i {| page_base := Some k; page_dma := k; count := 0 |} in
    (0, set_pgtlb d i (fun x => set_pte_attr PGTLB_ATTR_DEFAULT (set_pte_next (next_lv k) (set_pte_type PAGE_TABLE x))))
  end.

Definition pgtlb_free_page (d : ub_decoder) (i k : Z) : ub_decoder :=
  let d := dmam_free d k in
  let d := set_pgtlb d i (fun x => set_pte_type PAGE_TABLE (set_pte_next (invalid_page_dma d) x)) in
  set_desc d i {| page_base := None; page_dma := 0; count := count (desc_base d i) |}.

Definition pgtlb_map_to_page (d : ub_decoder) (i : Z) (info : decoder_map_info) (offset : Z) : option (Z * ub_decoder) :=
  let '(r, d) := match page_base (desc_base d i) with
                 | None => pgtlb_alloc_page d i
                 | Some _ => (0, d)
                 end in
  if ctrue r then Some (r, d)
  else
    let index := get_page_idx d (u64 (pa info + offset)) in
    k ← page_base (desc_base d i);
    page ← read_entry d k index;
    if negb (entry_type page =? INVALID_ENTRY) then Some (- EINVAL, d)
    else
      d ← write_entry d k index (fill_page_entry info offset);
      let de := desc_base d i in
      Some (0, set_desc d i {| page_base := page_base de; page_dma := page_dma de; count := u32 (count de + 1) |}).

(** The pointer is read before the memory. *)
Definition pgtlb_unmap_to_page (d : ub_decoder) (i : Z) (info : decoder_map_info) (offset : Z) : option (Z * ub_decoder) :=
  let index := get_page_idx d (u64 (pa info + offset)) in
  if pte_next (pgtlb d i) =? invalid_page_dma d then Some (- EINVAL, d)
  else
    k ← page_base (desc_base d i);
    page ← read_entry d k index;
    if negb (entry_type page =? PAGE) then Some (- EINVAL, d)
    else
      d ← write_entry d k index (set_entry_type page INVALID_ENTRY);
      let de := desc_base d i in
      let d := set_desc d i {| page_base := page_base de; page_dma := page_dma de; count := u32 (count de - 1) |} in
      Some (0, if count (desc_base d i) =? 0 then pgtlb_free_page d i k else d).

Definition handle_page_table (d : ub_decoder) (offset : Z) (info : decoder_map_info) (is_map : bool) :
    option (Z * Z * ub_decoder) :=
  let ti := get_pgtlb_idx d (u64 (pa info + offset)) in
  let sub := get_pgtlb_sub_idx d (u64 (pa info + offset)) in
  let i := ti * RGTLB_TO_PGTLB + sub in
  '(r, d) ← (if is_map then pgtlb_map_to_page d i info offset else pgtlb_unmap_to_page d i info offset);
  Some (r, u64 (offset + SZ_1M), d).

(** The words of a range entry, in the order of the fields; the new offset. *)
Definition fill_range_table (d : ub_decoder) (ti : Z) (info : decoder_map_info) (offset : Z) : Z * ub_decoder :=
  let i := ti * RGTLB_TO_PGTLB in
  let mem_base := get_rgtlb_addr d (u64 (pa info + offset)) in
  let size := u64 (Z.shiftl (MEM_LMT_MAX - mem_base + 1) DECODER_RGTLB_ADDRESS_OFFSET) in
  let uba_low := Z.land (u64 (uba info + offset)) RANGE_UBA_LOW_MASK in
  let uba_high := Z.land (u64 (uba info + offset)) RANGE_UBA_HIGH_MASK in
  let '(mem_limit, offset') :=
    if size <=? u64 (i_size info - offset) then (MEM_LMT_MAX, u64 (offset + size))
    else
      let mem_limit := u64 (get_rgtlb_addr d (u64 (pa info + i_size info)) - 1) in
      (mem_limit, u64 (offset + Z.shiftl (u64 (mem_limit - mem_base + 1)) DECODER_RGTLB_ADDRESS_OFFSET)) in
  let d := set_pgtlb d i (fun x => bf_set 8 1 (Z.land ubc_feature TOKEN_VALID_MASK) (set_pte_attr PGTLB_ATTR_DEFAULT
             (set_pte_next (invalid_page_dma d) (set_pte_type RANGE_TABLE x)))) in
  let d := set_pgtlb d (i + 1) (fun x => bf_set 16 15 mem_limit (bf_set 0 15 mem_base x)) in
  let d := set_pgtlb d (i + 2) (bf_set 12 52 (Z.shiftr (Z.lor uba_high uba_low) UBA_ADDR_OFFSET)) in
  let d := set_pgtlb d (i + 3) (fun x => bf_set 52 2 (i_order_type info) (bf_set 54 8 (i_order_id info)
             (bf_set 32 20 (i_tpg_num info) x))) in
  let d := set_pgtlb d (i + 4) (fun _ => i_eid_low info) in
  let d := set_pgtlb d (i + 5) (fun _ => i_eid_high info) in
  let d := set_pgtlb d (i + 6) (fun x => bf_set 32 32 (i_token_value info) (bf_set 0 20 (i_token_id info) x)) in
  let d := set_pgtlb d (i + 7) (fun x => bf_set 32 20 (i_src_eid info) (bf_set 0 16 (i_upi info) x)) in
  (offset', d).

Definition handle_pgrg_table (d : ub_decoder) (offset : Z) (info : decoder_map_info) (is_map : bool) :
    option (Z * Z * ub_decoder) :=
  if negb is_map then handle_page_table d offset info is_map
  else
    let ti := get_pgtlb_idx d (u64 (pa info + offset)) in
    let sub_index := get_pgtlb_sub_idx d (u64 (pa info + offset)) in
    if negb (sub_index =? 0) || (u64 (i_size info - offset) <? rg_size d) then handle_page_table d offset info is_map
    else if existsb (fun j => negb (pte_next (slot d ti j) =? invalid_page_dma d)) (seqZ 0 RGTLB_TO_PGTLB)
    then handle_page_table d offset info is_map
    else let '(offset', d) := fill_range_table d ti info offset in Some (0, offset', d).

(** ** Requests *)

Definition handle_step (d : ub_decoder) (offset : Z) (info : decoder_map_info) (is_map : bool) :
    option (Z * Z * ub_decoder) :=
  let ti := get_pgtlb_idx d (u64 (pa info + offset)) in
  if pte_type (slot d ti 0) =? RANGE_TABLE then handle_range_table d offset info is_map
  else if pte_next (slot d ti 0) =? invalid_page_dma d then handle_pgrg_table d offset info is_map
  else handle_page_table d offset info is_map.

(** The loop of [handle_table]; [rollback] is what follows a failed mapping.  An iteration
    covers at least 1 MB, which bounds them. *)
Fixpoint handle_loop (rollback : Z -> ub_decoder -> option ub_decoder) (fuel : nat) (d : ub_decoder) (offset : Z)
    (info : decoder_map_info) (is_map : bool) : option (Z * ub_decoder) :=
  match fuel with
  | O => None
  | S fuel' =>
    if i_size info <=? offset then Some (0, d)
    else
      '(r, offset', d) ← handle_step d offset info is_map;
      if ctrue r then
        d ← (if is_map then rollback offset d else Some d);
        Some (r, d)
      else handle_loop rollback fuel' d offset' info is_map
  end.
Definition handle_table (rollback : Z -> ub_decoder -> option ub_decoder) (d : ub_decoder) (info : decoder_map_info)
    (is_map : bool) : option (Z * ub_decoder) :=
  handle_loop rollback (S (Z.to_nat (i_size info / SZ_1M + 1))) d 0 info is_map.

(** ** The command queue *)

Definition SYNC : Z := 1.
Definition TLBI_PARTIAL : Z := 3.
Definition TLBI_ADDR_MASK : Z := GENMASK 43 20.
Definition TLBI_ADDR_OFFSET : Z := 20.
Definition SYNC_NTF_DATA : Z := 0xffffffff.

(** The wrap bit is part of the index: a field of 11 bits. *)
Definition dq_idx (q : decoder_queue) (p : Z) : Z := Z.land p (Z.shiftl 1 (qs q) - 1).
Definition dq_wrp (q : decoder_queue) (p : Z) : Z := Z.land p (Z.shiftl 1 (qs q)).

Definition queue_has_space (q : decoder_queue) (n : Z) : bool :=
  let prod := dq_idx q (wr_idx q) in
  let cons := dq_idx q (rd_idx q) in
  let space := if dq_wrp q (wr_idx q) =? dq_wrp q (rd_idx q)
               then u32 (Z.shiftl 1 (qs q) - u32 (prod - cons)) else u32 (cons - prod) in
  n <=? space.
Definition queue_inc_prod_n (q : decoder_queue) (n : Z) : Z :=
  let prod := u32 (Z.lor (dq_wrp q (wr_idx q)) (dq_idx q (wr_idx q)) + n) in
  Z.lor (dq_wrp q prod) (dq_idx q prod).

Definition set_wr_idx (q : decoder_queue) (v : Z) : decoder_queue :=
  {| qs := qs q; wr_idx := uwrap 11 v; rd_idx := rd_idx q; err_resp := err_resp q; ring := ring q |}.
Definition put_cmd (q : decoder_queue) (c : Z * Z) : decoder_queue :=
  {| qs := qs q; wr_idx := wr_idx q; rd_idx := rd_idx q; err_resp := err_resp q;
     ring := fun i => if i =? dq_idx q (wr_idx q) then c else ring q i |}.

Definition decoder_cmdq_issue_cmd (q : decoder_queue) (addr size op : Z) : decoder_queue :=
  let base := uwrap 28 (Z.shiftr (Z.land addr TLBI_ADDR_MASK) TLBI_ADDR_OFFSET) in
  let limt := uwrap 28 (Z.shiftr (Z.land (u64 (addr + size - 1)) TLBI_ADDR_MASK) TLBI_ADDR_OFFSET) in
  let cmd0 := Z.lor (FIELD_PREP (GENMASK 7 0) (u8 op)) (FIELD_PREP (GENMASK 59 32) base) in
  let cmd1 := FIELD_PREP (GENMASK 27 0) limt in
  let q := put_cmd q (cmd0, cmd1) in
  set_wr_idx q (queue_inc_prod_n q 1).

(** [q_base] is the physical address of the queue. *)
Definition decoder_cmdq_issue_sync (q_base : Z) (q : decoder_queue) : decoder_queue :=
  let sync_dma := u64 (q_base + dq_idx q (wr_idx q) * 16) in
  let cmd0 := Z.lor (Z.lor (FIELD_PREP (GENMASK 7 0) SYNC) (FIELD_PREP (GENMASK 13 12) 1))
                    (FIELD_PREP (GENMASK 63 32) SYNC_NTF_DATA) in
  let cmd1 := FIELD_PREP (GENMASK 51 2) (uwrap 50 (Z.shiftr sync_dma 2)) in
  let q := put_cmd q (cmd0, cmd1) in
  set_wr_idx q (queue_inc_prod_n q 1).

(** What the hardware answers during one request: the reads of the consumer index before the
    timeout ([inl] is an error of the access), the error bit of the producer register, and
    whether the notification arrived in time. *)
Record hw_answers := { cons_reads : list (Z + Z); prod_err : Z; notified : bool }.

Definition set_cons (q : decoder_queue) (v : Z) : decoder_queue :=
  {| qs := qs q; wr_idx := wr_idx q; rd_idx := uwrap 11 v; err_resp := err_resp q; ring := ring q |}.

Fixpoint wait_for_cmdq_free (reads : list (Z + Z)) (q : decoder_queue) (n : Z) : Z * decoder_queue :=
  match reads with
  | [] => (- ETIMEDOUT, q)
  | inl err :: _ => (err, q)
  | inr v :: reads' =>
    let q := set_cons q v in
    if queue_has_space q (n + 1) then (0, q) else wait_for_cmdq_free reads' q n
  end.

Definition decoder_cmdq_update_prod (q : decoder_queue) (err : Z) : decoder_queue :=
  {| qs := qs q; wr_idx := wr_idx q; rd_idx := rd_idx q; err_resp := uwrap 1 err; ring := ring q |}.

Definition hi_decoder_cmd_request (q_base : Z) (hw : hw_answers) (d : ub_decoder) (addr size op : Z) : Z * ub_decoder :=
  let '(r, q) := wait_for_cmdq_free (cons_reads hw) (cmdq d) 1 in
  if ctrue r then (r, set_cmdq d q)
  else
    let q := decoder_cmdq_issue_cmd q addr size op in
    let q := decoder_cmdq_issue_sync q_base q in
    let q := decoder_cmdq_update_prod q (prod_err hw) in
    (if notified hw then 0 else - ETIMEDOUT, set_cmdq d q).

(** ** Entry points *)

Definition unmap_info (addr size : Z) : decoder_map_info :=
  {| pa := addr; uba := 0; i_size := size; i_tpg_num := 0; i_order_id := 0; i_order_type := 0;
     i_eid_low := 0; i_eid_high := 0; i_token_id := 0; i_token_value := 0; i_upi := 0; i_src_eid := 0 |}.
Definition set_info_size (info : decoder_map_info) (size : Z) : decoder_map_info :=
  {| pa := pa info; uba := uba info; i_size := size; i_tpg_num := i_tpg_num info;
     i_order_id := i_order_id info; i_order_type := i_order_type info; i_eid_low := i_eid_low info;
     i_eid_high := i_eid_high info; i_token_id := i_token_id info; i_token_value := i_token_value info;
     i_upi := i_upi info; i_src_eid := i_src_eid info |}.

Definition hi_decoder_unmap (q_base : Z) (hw : hw_answers) (d : ub_decoder) (addr size : Z) : option (Z * ub_decoder) :=
  let info := unmap_info addr (ALIGN size SZ_1M) in
  if create_matt d then
    '(r, d) ← handle_table (fun _ d => Some d) d info false;
    if ctrue r then Some (r, d)
    else Some (hi_decoder_cmd_request q_base hw d (pa info) (i_size info) TLBI_PARTIAL)
  else Some (hi_decoder_cmd_request q_base hw d (pa info) (i_size info) TLBI_PARTIAL).

Definition hi_decoder_map (q_base : Z) (hw : hw_answers) (d : ub_decoder) (info : decoder_map_info) : option (Z * ub_decoder) :=
  let info := set_info_size info (ALIGN (i_size info) SZ_1M) in
  let last := u64 (pa info + i_size info - 1) in
  if (pa info <? mmio_base_addr d) || (mmio_end_addr d <? last) || (last <? pa info) then Some (- EINVAL, d)
  else if create_matt d then
    handle_table (fun size d => '(_, d) ← hi_decoder_unmap q_base hw d (pa info) size; Some d) d info true
  else Some (0, d).

(** [hi_create_decoder_table] on a new decoder, after [ub_create_decoder]: [table] and
    [descs] tell whether the first two allocations succeed. *)
Definition ub_decoder_init_page_table (inv : Z) (w : Z -> Z) : Z -> Z :=
  fun i => if (0 <=? i) && (i <? DECODER_PAGE_TABLE_SIZE)
           then set_pte_attr PGTLB_ATTR_DEFAULT (set_pte_next inv (set_pte_type PAGE_TABLE (w i))) else w i.
Definition hi_create_decoder_table (base end_ rg : Z) (matt : bool) (qsize : Z) (table descs : bool) : Z + ub_decoder :=
  if negb table then inl (- ENOMEM)
  else if negb descs then inl (- ENOMEM)
  else
    match dma_alloc 0 ∅ with
    | None => inl (- ENOMEM)
    | Some k =>
      inr {| mmio_base_addr := base; mmio_end_addr := end_; rg_size := rg; create_matt := matt;
             invalid_page_dma := next_lv k;
             pgtlb := ub_decoder_init_page_table (next_lv k) (fun _ => 0);
             desc_base := fun _ => zero_desc;
             mem := {[ k := {| r_len := DECODER_PAGE_SIZE * RGTLB_TO_PGTLB; r_at := fun _ => zero_entry |} ]};
             asked := 1;
             denied := 0;
             cmdq := {| qs := qsize; wr_idx := 0; rd_idx := 0; err_resp := 0; ring := fun _ => (0, 0) |} |}
    end.

(** [ub_get_decoder_cap]: the window is cut to what the hardware decodes.  [cap] is the read of
    the register, [juris] that of the features, of which one bit matters; [inl] is an error of
    the access.  The results are [mmio_size_sup], the sizes of the queues, the end of the window
    and [create_matt]. *)
Definition mmio_size (sup : Z) : Z := Z.shiftl (128 * 2 ^ 30) sup.
Definition ub_get_decoder_cap (base end_ : Z) (cap : Z + Z) (juris : Z + bool) : Z + Z * Z * Z * Z * bool :=
  match cap with
  | inl e => inl e
  | inr val =>
    let sup := Z.shiftr (Z.land val (GENMASK 18 16)) 16 in
    let cmdq_qs := Z.shiftr (Z.land val (GENMASK 15 12)) 12 in
    let evtq_qs := Z.shiftr (Z.land val (GENMASK 7 4)) 4 in
    if (cmdq_qs =? 0) || (evtq_qs =? 0) then inl (- EINVAL)
    else
      let size := u64 (end_ - base + 1) in
      let end' := if mmio_size sup <? size then u64 (base + mmio_size sup - 1) else end_ in
      match juris with
      | inl e => inl e
      | inr j => inr (sup, cmdq_qs, evtq_qs, end', negb j)
      end
  end.
End Decoder.
