(* ===== verification/UbDecoderInv.v ===== *)
(** * The tables of the address decoder

    What the hardware reads in the tables of [UbDecoder], the invariant of the tables, and
    what each step of [handle_table] does to the pages that are mapped. *)

From S2P Require Import Prelude UmmuQueue UmmuCmd UbDecoder.

(** ** Bit fields *)

Lemma bf_get_bit (lo w x n : Z) : 0 <= lo -> 0 <= w -> 0 <= n ->
  Z.testbit (bf_get lo w x) n = Z.testbit x (n + lo) && (n <? w).
Proof.
  intros Hl Hw Hn. unfold bf_get. rewrite Z.land_spec, Z.shiftr_spec, Z.testbit_ones_nonneg by lia. done.
Qed.

Lemma bf_set_bit (lo w v x n : Z) : 0 <= lo -> 0 <= w -> 0 <= n ->
  Z.testbit (bf_set lo w v x) n = if (lo <=? n) && (n <? lo + w) then Z.testbit v (n - lo) else Z.testbit x n.
Proof.
  intros Hl Hw Hn. unfold bf_set. rewrite Z.lor_spec, Z.ldiff_spec, !Z.shiftl_spec by lia.
  destruct (Z.leb_spec lo n) as [H1|H1]; cbn [andb].
  - rewrite Z.land_spec, Z.testbit_ones_nonneg by lia. destruct (Z.ltb_spec n (lo + w)) as [H2|H2].
    + rewrite (proj2 (Z.ltb_lt (n - lo) w)) by lia. by rewrite andb_false_r, andb_true_r.
    + rewrite (proj2 (Z.ltb_ge (n - lo) w)) by lia. by rewrite !andb_false_r, andb_true_r, orb_false_r.
  - rewrite (Z.testbit_neg_r (Z.ones w)), (Z.testbit_neg_r (Z.land _ _)) by lia. by rewrite andb_true_r, orb_false_r.
Qed.

Lemma bf_get_set (lo w v x : Z) : 0 <= lo -> 0 <= w -> bf_get lo w (bf_set lo w v x) = uwrap w v.
Proof.
  intros Hl Hw. unfold uwrap. rewrite <- Z.land_ones by done. apply Z.bits_inj'. intros n Hn.
  rewrite bf_get_bit, bf_set_bit, Z.land_spec, Z.testbit_ones_nonneg by lia.
  destruct (Z.ltb_spec n w) as [H|H]; [|by rewrite !andb_false_r].
  rewrite (proj2 (Z.leb_le lo (n + lo))), (proj2 (Z.ltb_lt (n + lo) (lo + w))) by lia.
  cbn [andb]. by replace (n + lo - lo) with n by lia.
Qed.

Lemma bf_get_set_ne (lo w lo' w' v x : Z) : 0 <= lo -> 0 <= w -> 0 <= lo' -> 0 <= w' -> lo + w <= lo' \/ lo' + w' <= lo ->
  bf_get lo' w' (bf_set lo w v x) = bf_get lo' w' x.
Proof.
  intros Hl Hw Hl' Hw' Hd. apply Z.bits_inj'. intros n Hn. rewrite !bf_get_bit by lia. rewrite bf_set_bit by lia.
  destruct (Z.ltb_spec n w') as [H|H]; [|by rewrite !andb_false_r].
  destruct ((lo <=? n + lo') && (n + lo' <? lo + w)) eqn:E; [|done]. apply andb_prop in E as [?%Z.leb_le ?%Z.ltb_lt]. lia.
Qed.

Lemma bf_get_range (lo w x : Z) : 0 <= w -> 0 <= bf_get lo w x < 2 ^ w.
Proof. intros Hw. unfold bf_get. rewrite Z.land_ones by done. apply Z.mod_pos_bound. by apply pow2_pos. Qed.

(** Reads a field of a word whose fields were written. *)
Ltac bf := unfold pte_type, pte_next, set_pte_type, set_pte_next, set_pte_attr;
  repeat first [rewrite bf_get_set by lia | rewrite bf_get_set_ne by lia].

Lemma field_div (x h l : Z) : 0 <= l <= h -> Z.shiftr (Z.land x (GENMASK h l)) l = x / 2 ^ l mod 2 ^ (h - l + 1).
Proof.
  intros Hl. unfold GENMASK. rewrite Z.shiftr_land, Z.shiftr_shiftl_l, Z.sub_diag, Z.shiftl_0_r by lia.
  by rewrite Z.land_ones, Z.shiftr_div_pow2 by lia.
Qed.

(** ** Pages *)

(** 1 MB pages of the window, and what indexes them. *)
Definition PAGES : Z := 2 ^ 24.
Definition addr_of (d : ub_decoder) (p : Z) : Z := mmio_base_addr d + p * SZ_1M.

Section Index.
Context (d : ub_decoder) (p : Z).
Hypothesis Hp : 0 <= p < PAGES.

Lemma addr_off : u64 (addr_of d p - mmio_base_addr d) = p * 2 ^ 20.
Proof. unfold addr_of, PAGES, SZ_1M in *. rewrite uwrap_small; lia. Qed.

Lemma idx_slot : get_pgtlb_idx d (addr_of d p) = p / 32768.
Proof.
  unfold get_pgtlb_idx, DECODER_PAGE_TABLE_MASK, DECODER_PAGE_TABLE_LOC. rewrite addr_off, field_div by lia.
  unfold PAGES in Hp. change (2 ^ 35) with (32768 * 2 ^ 20). change (2 ^ (43 - 35 + 1)) with 512.
  rewrite Z.div_mul_cancel_r by lia. apply Z.mod_small. zlia.
Qed.
Lemma idx_rg : get_rgtlb_addr d (addr_of d p) = p mod 32768.
Proof.
  unfold get_rgtlb_addr, DECODER_RGTLB_ADDRESS_MASK, DECODER_RGTLB_ADDRESS_OFFSET. rewrite addr_off, field_div by lia.
  change (2 ^ (34 - 20 + 1)) with 32768. by rewrite Z.div_mul by lia.
Qed.
Lemma idx_rg_page : get_rgtlb_page_idx d (addr_of d p) = p mod 32768.
Proof. exact idx_rg. Qed.
Lemma idx_page : get_page_idx d (addr_of d p) = p mod 4096.
Proof.
  unfold get_page_idx, DECODER_PGTLB_PAGE_MASK, DECODER_PAGE_INDEX_LOC. rewrite addr_off, field_div by lia.
  change (2 ^ (31 - 20 + 1)) with 4096. by rewrite Z.div_mul by lia.
Qed.
Lemma idx_sub : get_pgtlb_sub_idx d (addr_of d p) = p / 4096 mod 8.
Proof.
  unfold get_pgtlb_sub_idx, DECODER_SUB_PAGE_TABLE_MASK, DECODER_SUB_PAGE_TABLE_LOC. rewrite addr_off, field_div by lia.
  change (2 ^ (34 - 32 + 1)) with 8. change (2 ^ 32) with (4096 * 2 ^ 20). by rewrite Z.div_mul_cancel_r by lia.
Qed.
End Index.

(** ** What the hardware reads *)

(** A pointer of the first level names memory by its page number. *)
Definition page_at (d : ub_decoder) (nx i : Z) : option page_entry :=
  r ← mem d !! (nx * 4096);
  if (0 <=? i) && (i <? r_len r) && (entry_type (r_at r i) =? PAGE) then Some (r_at r i) else None.

(** The [k]-th page of a range entry. *)
Definition range_entry (w : Z -> Z) (k : Z) : page_entry :=
  {| entry_type := PAGE; token_vld := rte_token_vld w; ub_addr := uwrap 52 (rte_ub_addr w + k * 256);
     tpg_num := rte_tpg_num w; order_type := rte_order_type w; order_id := rte_order_id w;
     dst_eid_low := w 4; dst_eid_high := w 5; token_id := rte_token_id w; token_value := rte_token_value w;
     upi := rte_upi w; src_eid := rte_src_eid w |}.

(** Where an access to the page [p] goes. *)
Definition decode (d : ub_decoder) (p : Z) : option page_entry :=
  let w := slot d (p / 32768) in
  let a := p mod 32768 in
  if pte_type (w 0) =? RANGE_TABLE then
    if (rte_mem_base w <=? a) && (a <=? rte_mem_limit w) then Some (range_entry w (a - rte_mem_base w))
    else page_at d (pte_next (w 0)) a
  else page_at d (pte_next (w (p / 4096 mod 8))) (p mod 4096).

(** ** The invariant *)

(** The entries of a table that are in use. *)
Definition used (f : Z -> option page_entry) (len : Z) : gset Z :=
  filter (fun j => is_Some (f j)) (list_to_set (seqZ 0 len)).

Lemma elem_of_used (f : Z -> option page_entry) (len j : Z) : j ∈ used f len <-> 0 <= j < len /\ is_Some (f j).
Proof.
  unfold used. rewrite elem_of_filter, elem_of_list_to_set, elem_of_seqZ.
  replace (0 + len) with len by lia. tauto.
Qed.

(** The table of the pointer [i], which has [len] pages, of which [f] are mapped. *)
Definition tab_ok (d : ub_decoder) (f : Z -> option page_entry) (i len : Z) : Prop :=
  match page_base (desc_base d i) with
  | None => pte_next (pgtlb d i) = invalid_page_dma d /\ forall j, 0 <= j < len -> f j = None
  | Some k =>
    pte_next (pgtlb d i) = next_lv k /\ (exists j, 0 <= j < len /\ is_Some (f j)) /\
    count (desc_base d i) = Z.of_nat (size (used f len)) /\
    exists r, mem d !! k = Some r /\ r_len r = len /\ forall j, 0 <= j < len ->
      match f j with Some e => r_at r j = e /\ entry_type e = PAGE | None => entry_type (r_at r j) = INVALID_ENTRY end
  end.

Definition in_range (w : Z -> Z) (a : Z) : bool := (rte_mem_base w <=? a) && (a <=? rte_mem_limit w).

(** The slot [t] maps the pages [F] from [32768 * t] on. *)
Definition slot_ok (d : ub_decoder) (F : Z -> option page_entry) (t : Z) : Prop :=
  let w := slot d t in
  (pte_type (w 0) = PAGE_TABLE /\
   forall j, 0 <= j < 8 -> tab_ok d (fun a => F ((t * 8 + j) * 4096 + a)) (t * 8 + j) 4096) \/
  (pte_type (w 0) = RANGE_TABLE /\ rte_mem_base w <= rte_mem_limit w /\
   (forall a, rte_mem_base w <= a <= rte_mem_limit w -> F (t * 32768 + a) = Some (range_entry w (a - rte_mem_base w))) /\
   tab_ok d (fun a => if in_range w a then None else F (t * 32768 + a)) (t * 8) 32768 /\
   forall j, 1 <= j < 8 -> page_base (desc_base d (t * 8 + j)) = None).

(** Memory: the page of the invalid pointer, and what the descriptors own. *)
Definition addr_ok (k : Z) : Prop := 0 <= k < 2 ^ 48 /\ (4096 | k).
(** Memory of the second level; [X] is memory that is lost: no table has it. *)
Record mem_okX (X : gset Z) (d : ub_decoder) : Prop := {
  mo_inv : 0 <= invalid_page_dma d < 2 ^ 36;
  mo_invalid : exists r, mem d !! (invalid_page_dma d * 4096) = Some r /\ forall j, entry_type (r_at r j) = INVALID_ENTRY;
  mo_addr : forall k, is_Some (mem d !! k) -> addr_ok k;
  mo_own : forall i k, page_base (desc_base d i) = Some k -> 0 <= i < 4096 /\ is_Some (mem d !! k) /\ k <> invalid_page_dma d * 4096;
  mo_inj : forall i j k, page_base (desc_base d i) = Some k -> page_base (desc_base d j) = Some k -> i = j;
  mo_all : forall k, is_Some (mem d !! k) -> k = invalid_page_dma d * 4096 \/ (exists i, page_base (desc_base d i) = Some k) \/ k ∈ X;
}.
Arguments mo_inv {X} d _.
Arguments mo_invalid {X} d _.
Arguments mo_addr {X} d _.
Arguments mo_own {X} d _.
Arguments mo_inj {X} d _.
Arguments mo_all {X} d _.
Definition dec_invX (X : gset Z) (d : ub_decoder) (F : Z -> option page_entry) : Prop :=
  mem_okX X d /\ forall t, 0 <= t < 512 -> slot_ok d F t.

Section Lost.
Context {X : gset Z}.
Abbreviation mem_ok := (mem_okX X).
Abbreviation dec_inv := (dec_invX X).

Lemma next_lv_addr (k : Z) : addr_ok k -> next_lv k * 4096 = k /\ 0 <= next_lv k < 2 ^ 36.
Proof.
  intros [Hk [q ->]]. unfold next_lv, DECODER_PGTBL_PGPRT_MASK, DECODER_DMA_PAGE_ADDR_OFFSET.
  rewrite field_div by lia. change (2 ^ 12) with 4096. rewrite Z.div_mul by lia.
  change (2 ^ (47 - 12 + 1)) with (2 ^ 36). rewrite Z.mod_small by lia. lia.
Qed.

Lemma page_at_tab (d : ub_decoder) (f : Z -> option page_entry) (i len a : Z) : mem_ok d -> tab_ok d f i len -> 0 <= a < len ->
  page_at d (pte_next (pgtlb d i)) a = f a.
Proof.
  intros Hm Ht Ha. unfold tab_ok in Ht. unfold page_at. destruct (page_base (desc_base d i)) as [k|] eqn:Ek.
  - destruct Ht as (-> & _ & _ & r & Hr & Hl & Hf). destruct (mo_own d Hm _ _ Ek) as (_ & Hs & _).
    destruct (next_lv_addr k) as [-> _]; [by apply (mo_addr d Hm)|]. rewrite Hr. cbn. rewrite Hl.
    rewrite (proj2 (Z.leb_le 0 a)), (proj2 (Z.ltb_lt a len)) by lia. cbn [andb]. specialize (Hf a Ha).
    destruct (f a) as [e|]; [destruct Hf as [-> ->]; done|]. by rewrite Hf.
  - destruct Ht as [-> Hf]. destruct (mo_invalid d Hm) as (r & Hr & Hz). rewrite Hr. cbn. rewrite Hz.
    cbn. rewrite andb_false_r. by rewrite Hf.
Qed.

(** The hardware sends every access where it is mapped to, and no other. *)
Lemma decode_ok (d : ub_decoder) (F : Z -> option page_entry) (p : Z) : dec_inv d F -> 0 <= p < PAGES -> decode d p = F p.
Proof.
  intros [Hm Hs] Hp. unfold PAGES in Hp. specialize (Hs (p / 32768) ltac:(zlia)). unfold decode.
  destruct Hs as [[Ht Hj]|(Ht & _ & Hr & Hn & _)]; rewrite Ht.
  - cbn. specialize (Hj (p / 4096 mod 8) ltac:(zlia)).
    change (slot d (p / 32768) (p / 4096 mod 8)) with (pgtlb d (p / 32768 * 8 + p / 4096 mod 8)).
    rewrite (page_at_tab _ _ _ _ _ Hm Hj) by zlia. f_equal. zlia.
  - cbn. fold (in_range (slot d (p / 32768)) (p mod 32768)). destruct (in_range _ _) eqn:E.
    + apply andb_prop in E as [?%Z.leb_le ?%Z.leb_le]. rewrite <- Hr by lia. f_equal. zlia.
    + change (slot d (p / 32768) 0) with (pgtlb d (p / 32768 * 8 + 0)). rewrite Z.add_0_r.
      rewrite (page_at_tab _ _ _ _ _ Hm Hn) by zlia. cbv beta. rewrite E. f_equal. zlia.
Qed.

(** ** Changes of one table *)

Definition fupd (f : Z -> option page_entry) (a : Z) (v : option page_entry) : Z -> option page_entry :=
  fun j => if j =? a then v else f j.

Lemma used_ext (f f' : Z -> option page_entry) (len : Z) : (forall j, 0 <= j < len -> f j = f' j) -> used f len = used f' len.
Proof.
  intros Hf. apply set_eq. intros j. rewrite !elem_of_used. split; intros [Hj Hs]; (split; [done|]); [by rewrite <- Hf|by rewrite Hf].
Qed.
Lemma used_plus (f : Z -> option page_entry) (len a : Z) (e : page_entry) : 0 <= a < len -> f a = None ->
  size (used (fupd f a (Some e)) len) = S (size (used f len)).
Proof.
  intros Ha Hf. replace (used (fupd f a (Some e)) len) with ({[ a ]} ∪ used f len).
  - rewrite size_union, size_singleton; [done|]. apply disjoint_singleton_l. rewrite elem_of_used, Hf. intros [_ [? ?]]. done.
  - apply set_eq. intros j. rewrite elem_of_union, elem_of_singleton, !elem_of_used. unfold fupd.
    destruct (Z.eqb_spec j a) as [->|Hne]; [|tauto]. split; [intros _; by split|by left].
Qed.
Lemma used_minus (f : Z -> option page_entry) (len a : Z) : 0 <= a < len -> is_Some (f a) ->
  size (used f len) = S (size (used (fupd f a None) len)).
Proof.
  intros Ha [e He]. rewrite <- (used_plus _ len a e) by (done || by unfold fupd; rewrite Z.eqb_refl).
  f_equal. apply used_ext. intros j _. unfold fupd. destruct (Z.eqb_spec j a) as [->|]; [|done]. by rewrite He, ?Z.eqb_refl.
Qed.
Lemma used_le (f : Z -> option page_entry) (len : Z) : 0 <= len -> Z.of_nat (size (used f len)) <= len.
Proof.
  intros Hl. assert (size (used f len) <= size (list_to_set (seqZ 0 len) : gset Z))%nat as H1.
  { apply subseteq_size. intros j. unfold used. rewrite elem_of_filter. tauto. }
  rewrite size_list_to_set in H1 by apply NoDup_seqZ. rewrite length_seqZ in H1. lia.
Qed.
Lemma used_empty (f : Z -> option page_entry) (len : Z) : size (used f len) = O -> forall j, 0 <= j < len -> f j = None.
Proof.
  intros Hs j Hj. apply size_empty_inv in Hs. destruct (f j) eqn:E; [|done]. exfalso.
  apply (not_elem_of_empty (C := gset Z) j). apply Hs, elem_of_used. by rewrite E.
Qed.

(** The parts of the decoder that the tables do not change. *)
Definition same_cfg (d d' : ub_decoder) : Prop :=
  mmio_base_addr d' = mmio_base_addr d /\ mmio_end_addr d' = mmio_end_addr d /\ rg_size d' = rg_size d /\
  create_matt d' = create_matt d /\ invalid_page_dma d' = invalid_page_dma d /\ cmdq d' = cmdq d.

(** Only the table [i] changes: its pointer but for the token bit (and the type, if it is to be
    kept), its descriptor and its memory. *)
Record upd_at (keep : bool) (d d' : ub_decoder) (i : Z) : Prop := {
  u_cfg : same_cfg d d';
  u_word : forall j, j <> i -> pgtlb d' j = pgtlb d j;
  u_type : pte_type (pgtlb d' i) = pte_type (pgtlb d i) \/ keep = false /\ pte_type (pgtlb d' i) = PAGE_TABLE;
  u_tok : bf_get 8 1 (pgtlb d' i) = bf_get 8 1 (pgtlb d i);
  u_desc : forall j, j <> i -> desc_base d' j = desc_base d j;
  u_mem : forall j k, j <> i -> page_base (desc_base d j) = Some k -> mem d' !! k = mem d !! k;
}.

Lemma tab_ext (d : ub_decoder) (f f' : Z -> option page_entry) (i len : Z) :
  (forall j, 0 <= j < len -> f j = f' j) -> tab_ok d f i len -> tab_ok d f' i len.
Proof.
  intros Hf. unfold tab_ok. destruct (page_base (desc_base d i)) as [k|].
  - intros (H1 & (j & Hj & Hs) & H2 & r & H3 & H4 & H5). split_and!; [done| |by rewrite <- (used_ext f)|].
    + exists j. split; [done|]. by rewrite <- Hf.
    + exists r. split_and!; [done|done|]. intros j' Hj'. rewrite <- Hf by done. by apply H5.
  - intros [H1 H2]. split; [done|]. intros j Hj. rewrite <- Hf by done. by apply H2.
Qed.

Lemma tab_frame (d d' : ub_decoder) (f : Z -> option page_entry) (i len : Z) : invalid_page_dma d' = invalid_page_dma d ->
  pte_next (pgtlb d' i) = pte_next (pgtlb d i) -> desc_base d' i = desc_base d i ->
  (forall k, page_base (desc_base d i) = Some k -> mem d' !! k = mem d !! k) -> tab_ok d f i len -> tab_ok d' f i len.
Proof.
  intros Ei Ew Ed Em. unfold tab_ok. rewrite Ed, Ew, Ei. destruct (page_base (desc_base d i)) as [k|]; [|done].
  rewrite (Em k) by done. done.
Qed.

Section Table.
Context (dma_alloc : nat -> gset Z -> option Z) (keep : bool).
(** What the kernel documents of [dma_alloc_coherent]: memory that is not in use, at an
    aligned address the device can reach. *)
Hypothesis Halloc : forall n g k, dma_alloc n g = Some k -> (k ∉ g) /\ addr_ok k.

(** A table gets its memory; [g] writes the pointer. *)
Definition new_table (d : ub_decoder) (i len : Z) (g : Z -> Z -> Z) : Z * ub_decoder :=
  match dmam_alloc dma_alloc d len with
  | (None, d) => (- ENOMEM, d)
  | (Some k, d) =>
    let d := set_desc d i {| page_base := Some k; page_dma := k; count := 0 |} in (0, set_pgtlb d i (g k))
  end.

(** A page is mapped in the table [i]. *)
Definition map_into (d : ub_decoder) (i len a : Z) (g : Z -> Z -> Z) (e : page_entry) : option (Z * ub_decoder) :=
  let '(r, d) := match page_base (desc_base d i) with None => new_table d i len g | Some _ => (0, d) end in
  if ctrue r then Some (r, d)
  else
    k ← page_base (desc_base d i);
    page ← read_entry d k a;
    if negb (entry_type page =? INVALID_ENTRY) then Some (- EINVAL, d)
    else
      d ← write_entry d k a e;
      let de := desc_base d i in
      Some (0, set_desc d i {| page_base := page_base de; page_dma := page_dma de; count := u32 (count de + 1) |}).

(** The pointer names the new memory; its other fields are kept, but for the type. *)
Definition links (g : Z -> Z -> Z) : Prop := forall k x, addr_ok k ->
  pte_next (g k x) = next_lv k /\ (pte_type (g k x) = pte_type x \/ keep = false /\ pte_type (g k x) = PAGE_TABLE) /\ bf_get 8 1 (g k x) = bf_get 8 1 x.

Lemma links_page : keep = false -> links (fun k x => set_pte_attr PGTLB_ATTR_DEFAULT (set_pte_next (next_lv k) (set_pte_type PAGE_TABLE x))).
Proof.
  intros Hkeep k x Hk. destruct (next_lv_addr k Hk) as [_ Hn]. bf. rewrite uwrap_small by lia. split_and!; [done|by right|done].
Qed.
Lemma links_range : links (fun k x => set_pte_attr PGTLB_ATTR_DEFAULT (set_pte_next (next_lv k) x)).
Proof.
  intros k x Hk. destruct (next_lv_addr k Hk) as [_ Hn]. bf. rewrite uwrap_small by lia. split_and!; [done|by left|done].
Qed.

(** The table [i] gets the memory [r] at [k]. *)
Definition linked (d : ub_decoder) (i k : Z) (r : region) (c : Z) (n : nat) (g : Z -> Z -> Z) : ub_decoder :=
  set_pgtlb (set_desc (set_mem d (<[k := r]> (mem d)) n) i {| page_base := Some k; page_dma := k; count := c |}) i (g k).

Lemma linked_ok (d : ub_decoder) (i k : Z) (r : region) (c : Z) (n : nat) (g : Z -> Z -> Z) : mem_ok d ->
  page_base (desc_base d i) = None -> mem d !! k = None -> addr_ok k -> 0 <= i < 4096 -> links g ->
  mem_ok (linked d i k r c n g) /\ upd_at keep d (linked d i k r c n g) i.
Proof.
  intros Hm En Hk Hok Hi Hg. destruct (Hg k (pgtlb d i) Hok) as (_ & G2 & G3).
  assert (Hinv : k <> invalid_page_dma d * 4096). { intros ->. destruct (mo_invalid d Hm) as (r0 & Hr & _). congruence. }
  split.
  - destruct Hm as [M1 M2 M3 M4 M5 M6]. split; cbn [invalid_page_dma mem desc_base set_pgtlb set_desc set_mem linked].
    + done.
    + destruct M2 as (r0 & Hr & Hz). exists r0. rewrite lookup_insert_ne; done.
    + intros k' Hk'. destruct (decide (k' = k)) as [->|Hne]; [done|]. rewrite lookup_insert_ne in Hk' by done. by apply M3.
    + intros i' k'. destruct (Z.eqb_spec i' i) as [->|Hne]; cbn [page_base]; [intros [= <-]; by rewrite lookup_insert_eq|].
      intros Hp. destruct (M4 _ _ Hp) as (? & Hs & ?). split_and!; try done; try lia. rewrite lookup_insert_ne; [done|].
      intros <-. rewrite Hk in Hs. by destruct Hs.
    + intros i' j' k'. destruct (Z.eqb_spec i' i) as [->|Hi'], (Z.eqb_spec j' i) as [->|Hj']; cbn [page_base]; try done.
      * intros [= <-] Hp. destruct (M4 _ _ Hp) as (_ & [? ?] & _). congruence.
      * intros Hp [= <-]. destruct (M4 _ _ Hp) as (_ & [? ?] & _). congruence.
      * apply M5.
    + intros k' Hk'. destruct (decide (k' = k)) as [->|Hne]; [right; left; exists i; by rewrite Z.eqb_refl|].
      rewrite lookup_insert_ne in Hk' by done. destruct (M6 _ Hk') as [?|[[j Hj]|?]]; [by left| |by right; right]. right. left. exists j.
      destruct (Z.eqb_spec j i) as [->|]; [congruence|done].
  - split; cbn [desc_base pgtlb mem set_pgtlb set_desc set_mem linked]; rewrite ?Z.eqb_refl; try done.
    + intros j Hj. by rewrite (proj2 (Z.eqb_neq j i)).
    + intros j Hj. by rewrite (proj2 (Z.eqb_neq j i)).
    + intros j k' Hj Hp. rewrite lookup_insert_ne; [done|]. intros <-. destruct (mo_own d Hm _ _ Hp) as (_ & [? ?] & _). congruence.
Qed.

Section One.
Context (d : ub_decoder) (f : Z -> option page_entry) (i len a : Z).
Hypothesis Hm : mem_ok d.
Hypothesis Ht : tab_ok d f i len.
Hypothesis Hi : 0 <= i < 4096.
Hypothesis Ha : 0 <= a < len.
Hypothesis Hlen : len <= 32768.

(** The table has memory with free entries for the pages that are not mapped. *)
Definition tab_mem (d : ub_decoder) (k : Z) : Prop :=
  page_base (desc_base d i) = Some k /\ pte_next (pgtlb d i) = next_lv k /\
  count (desc_base d i) = Z.of_nat (size (used f len)) /\
  exists r, mem d !! k = Some r /\ r_len r = len /\ forall j, 0 <= j < len ->
      match f j with Some e => r_at r j = e /\ entry_type e = PAGE | None => entry_type (r_at r j) = INVALID_ENTRY end.

Lemma new_table_ok (g : Z -> Z -> Z) : links g -> page_base (desc_base d i) = None ->
  exists r d', new_table d i len g = (r, d') /\
    ((r = - ENOMEM /\ d' = deny d) \/
     (r = 0 /\ exists k, mem_ok d' /\ tab_mem d' k /\ upd_at keep d d' i)).
Proof.
  intros Hg En. unfold new_table, dmam_alloc. destruct (dma_alloc (asked d) (dom (mem d))) as [k|] eqn:Ea.
  - destruct (Halloc _ _ _ Ea) as [Hk Hok]. apply not_elem_of_dom in Hk. eexists _, _. split; [done|]. right. split; [done|].
    exists k. destruct (Hg k (pgtlb d i) Hok) as (G1 & _). unfold tab_ok in Ht. rewrite En in Ht. destruct Ht as [_ Hf].
    destruct (linked_ok d i k {| r_len := len; r_at := fun _ => zero_entry |} 0 (S (asked d)) g Hm En Hk Hok Hi Hg) as [Hm' Hu'].
    split_and!; [exact Hm'| |exact Hu'].
    unfold tab_mem. cbn [desc_base pgtlb mem set_pgtlb set_desc set_mem]. rewrite !Z.eqb_refl. cbn [page_base count].
    split_and!; [done|done| |].
    + symmetry. replace (size (used f len)) with O; [done|]. symmetry. apply size_empty_iff. intros j. rewrite elem_of_used.
      split; [|by intros ?%elem_of_empty]. intros [Hj [? Hs]]. by rewrite Hf in Hs.
    + eexists. rewrite lookup_insert_eq. split_and!; [done|done|]. intros j Hj. by rewrite Hf.
  - eexists _, _. split; [done|]. left. by split_and!.
Qed.

(** Writing the entry [a] of the table: its memory and its count change. *)
Definition put_entry (d : ub_decoder) (k c : Z) (e : page_entry) : option ub_decoder :=
  d ← write_entry d k a e;
  let de := desc_base d i in
  Some (set_desc d i {| page_base := page_base de; page_dma := page_dma de; count := c |}).

Lemma put_entry_ok (k c : Z) (e : page_entry) (v : option page_entry) : tab_mem d k ->
  match v with Some e' => e' = e /\ entry_type e = PAGE | None => entry_type e = INVALID_ENTRY end ->
  c = Z.of_nat (size (used (fupd f a v) len)) ->
  exists d', put_entry d k c e = Some d' /\ mem_ok d' /\ upd_at keep d d' i /\ pgtlb d' i = pgtlb d i /\
    page_base (desc_base d' i) = Some k /\ count (desc_base d' i) = c /\
    (exists r, mem d' !! k = Some r /\ r_len r = len /\ forall j, 0 <= j < len ->
      match fupd f a v j with Some e => r_at r j = e /\ entry_type e = PAGE | None => entry_type (r_at r j) = INVALID_ENTRY end) /\
    forall k', k' <> k -> mem d' !! k' = mem d !! k'.
Proof.
  intros (Ek & _ & _ & r & Hr & Hl & Hf) Hv Hc. unfold put_entry, write_entry. rewrite Hr. cbn [mbind option_bind].
  rewrite Hl, (proj2 (Z.leb_le 0 a)), (proj2 (Z.ltb_lt a len)) by lia. cbn [andb mbind option_bind].
  eexists. split; [done|]. destruct (mo_own d Hm _ _ Ek) as (_ & _ & Hki).
  split_and!; cbn [desc_base pgtlb mem set_desc set_mem]; rewrite ?Z.eqb_refl; try done.
  - destruct Hm as [M1 M2 M3 M4 M5 M6]. split; cbn [invalid_page_dma mem desc_base set_desc set_mem].
    + done.
    + destruct M2 as (r0 & Hr0 & Hz). exists r0. by rewrite lookup_insert_ne.
    + intros k' Hk'. destruct (decide (k' = k)) as [->|Hne]; [by apply M3|]. rewrite lookup_insert_ne in Hk' by done. by apply M3.
    + intros i' k' Hp. assert (Hp' : page_base (desc_base d i') = Some k') by (by destruct (Z.eqb_spec i' i) as [->|]).
      destruct (M4 _ _ Hp') as (? & Hs & ?). split_and!; try done; try lia.
      destruct (decide (k' = k)) as [->|Hne]; [by rewrite lookup_insert_eq|by rewrite lookup_insert_ne].
    + intros i' j' k' H1 H2. apply (M5 _ _ k'); [by destruct (Z.eqb_spec i' i) as [->|]|by destruct (Z.eqb_spec j' i) as [->|]].
    + intros k' Hk'. assert (Hs : is_Some (mem d !! k')).
      { destruct (decide (k' = k)) as [->|Hne]; [by rewrite Hr|by rewrite lookup_insert_ne in Hk']. }
      destruct (M6 _ Hs) as [?|[[j Hj]|?]]; [by left| |by right; right]. right. left. exists j. by destruct (Z.eqb_spec j i) as [->|].
  - split; cbn [desc_base pgtlb mem set_desc set_mem]; rewrite ?Z.eqb_refl; try done.
    + by left.
    + intros j Hj. by rewrite (proj2 (Z.eqb_neq j i)).
    + intros j k' Hj Hp. rewrite lookup_insert_ne; [done|]. intros <-. apply Hj. by eapply (mo_inj d Hm).
  - eexists. rewrite lookup_insert_eq. split_and!; [done|done|]. intros j Hj. cbn [r_at]. unfold fupd.
    destruct (Z.eqb_spec j a) as [->|Hne]; [|by apply Hf]. destruct v; [|done]. by destruct Hv as [-> ->].
  - intros k' Hk'. by rewrite lookup_insert_ne.
Qed.

Lemma tab_get (k : Z) : page_base (desc_base d i) = Some k -> tab_mem d k.
Proof. intros Ek. unfold tab_mem. unfold tab_ok in Ht. rewrite Ek in Ht. destruct Ht as (H1 & _ & H2 & H3). by split_and!. Qed.

Lemma read_tab (d0 : ub_decoder) (k : Z) : tab_mem d0 k -> exists page, read_entry d0 k a = Some page /\
  match f a with Some e => page = e /\ entry_type e = PAGE | None => entry_type page = INVALID_ENTRY end.
Proof.
  intros (_ & _ & _ & r & Hr & Hl & Hf). unfold read_entry. rewrite Hr. cbn [mbind option_bind]. rewrite Hl.
  rewrite (proj2 (Z.leb_le 0 a)), (proj2 (Z.ltb_lt a len)) by lia. eexists. split; [done|]. by apply Hf.
Qed.
End One.

Lemma upd_trans (d d1 d2 : ub_decoder) (i : Z) : upd_at keep d d1 i -> upd_at keep d1 d2 i -> upd_at keep d d2 i.
Proof.
  intros [(C1 & C2 & C3 & C4 & C5 & C6) W T K D M] [(C1' & C2' & C3' & C4' & C5' & C6') W' T' K' D' M']. split.
  - unfold same_cfg. split_and!; congruence.
  - intros j Hj. by rewrite W', W.
  - destruct T' as [->|]; [|by right]. done.
  - congruence.
  - intros j Hj. by rewrite D', D.
  - intros j k Hj Hk. rewrite (M' j k), (M j k); [done|done|done|done|]. by rewrite D.
Qed.

Lemma put_entry_fold (d : ub_decoder) (i a k : Z) (e : page_entry) (h : Z -> Z) (B : Type) (c : ub_decoder -> option B) :
  (d1 ← write_entry d k a e;
   c (set_desc d1 i {| page_base := page_base (desc_base d1 i); page_dma := page_dma (desc_base d1 i);
                       count := h (count (desc_base d1 i)) |})) =
  (d1 ← put_entry i a d k (h (count (desc_base d i))) e; c d1).
Proof.
  unfold put_entry, write_entry. destruct (mem d !! k); [|done]. cbn [mbind option_bind]. by destruct (_ && _).
Qed.

(** Mapping a page in a table. *)
Lemma map_into_ok (d : ub_decoder) (f : Z -> option page_entry) (i len a : Z) (g : Z -> Z -> Z) (e : page_entry) :
  mem_ok d -> tab_ok d f i len -> 0 <= i < 4096 -> 0 <= a < len -> len <= 32768 -> links g -> entry_type e = PAGE ->
  exists r d', map_into d i len a g e = Some (r, d') /\
    ((r = 0 /\ f a = None /\ mem_ok d' /\ tab_ok d' (fupd f a (Some e)) i len /\ upd_at keep d d' i) \/
     (r <> 0 /\ (d' = d \/ d' = deny d) /\ (is_Some (f a) \/ r = - ENOMEM))).
Proof.
  intros Hm Ht Hi Ha Hlen Hg He. unfold map_into.
  assert (Hput : forall d0 k, mem_ok d0 -> tab_mem f i len d0 k -> f a = None -> exists d', mem_ok d' /\ upd_at keep d0 d' i /\
    tab_ok d' (fupd f a (Some e)) i len /\ put_entry i a d0 k (u32 (count (desc_base d0 i) + 1)) e = Some d').
  { intros d0 k Hm0 Hk Hfa. pose proof Hk as (Ek & Ew & Ec & _). pose proof (used_le f len ltac:(lia)).
    assert (Hcnt : u32 (count (desc_base d0 i) + 1) = Z.of_nat (size (used (fupd f a (Some e)) len))).
    { rewrite used_plus, Ec by done. pose proof (used_le (fupd f a (Some e)) len ltac:(lia)) as H1. rewrite used_plus in H1 by done.
      rewrite uwrap_small; lia. }
    destruct (put_entry_ok d0 f i len a Hm0 Ha k _ e (Some e) Hk (conj eq_refl He) Hcnt) as (d' & E & Hm' & Hu & Ew' & Ek' & Ec' & Hr & _).
    exists d'. split_and!; try done. unfold tab_ok. rewrite Ek', Ew', Ec'. split_and!; [done| |done|done].
    exists a. split; [done|]. unfold fupd. by rewrite Z.eqb_refl. }
  destruct (page_base (desc_base d i)) as [k|] eqn:Ek.
  - cbn [ctrue Z.eqb negb]. rewrite Ek. cbn [mbind option_bind]. pose proof (tab_get d f i len Ht k Ek) as Hk.
    destruct (read_tab f i len a Ha d k Hk) as (page & -> & Hpage). cbn [mbind option_bind]. destruct (f a) as [e0|] eqn:Ef.
    + destruct Hpage as [-> ->]. eexists _, _. split; [done|]. right. split_and!; [done|by left|by left].
    + rewrite Hpage. cbn [Z.eqb negb INVALID_ENTRY]. destruct (Hput d k Hm Hk eq_refl) as (d' & Hm' & Hu & Ht' & E).
      rewrite (put_entry_fold d i a k e (fun c => u32 (c + 1)) _ (fun d => Some (0, d))), E. cbn [mbind option_bind].
      eexists _, _. split; [done|]. left. by split_and!.
  - destruct (new_table_ok d f i len Hm Ht Hi g Hg Ek) as (r & d' & -> & [(-> & ->)|(-> & k & Hm' & Hk & Hu)]).
    + cbn [ctrue]. eexists _, _. split; [done|]. right. split_and!; [done|by right|by right].
    + cbn [ctrue Z.eqb negb]. pose proof Hk as (Ek' & _). rewrite Ek'. cbn [mbind option_bind].
      destruct (read_tab f i len a Ha d' k Hk) as (page & -> & Hpage). cbn [mbind option_bind].
      assert (Ef : f a = None) by (unfold tab_ok in Ht; rewrite Ek in Ht; by apply Ht). rewrite Ef in Hpage.
      rewrite Hpage. cbn [Z.eqb negb INVALID_ENTRY]. destruct (Hput d' k Hm' Hk Ef) as (d2 & Hm2 & Hu2 & Ht2 & E).
      rewrite (put_entry_fold d' i a k e (fun c => u32 (c + 1)) _ (fun d => Some (0, d))), E. cbn [mbind option_bind].
      eexists _, _. split; [done|]. left. split_and!; try done. by eapply upd_trans.
Qed.

(** The memory of a table goes; [g] writes the pointer. *)
Definition drop_table (d : ub_decoder) (i k : Z) (g : Z -> Z) : ub_decoder :=
  let d := dmam_free d k in
  let d := set_pgtlb d i g in
  set_desc d i {| page_base := None; page_dma := 0; count := count (desc_base d i) |}.

(** A page of the table [i] is unmapped. *)
Definition unmap_from (d : ub_decoder) (i a : Z) (g : Z -> Z) : option (Z * ub_decoder) :=
  k ← page_base (desc_base d i);
  page ← read_entry d k a;
  if negb (entry_type page =? PAGE) then Some (- EINVAL, d)
  else
    d ← write_entry d k a (set_entry_type page INVALID_ENTRY);
    let de := desc_base d i in
    let d := set_desc d i {| page_base := page_base de; page_dma := page_dma de; count := u32 (count de - 1) |} in
    Some (0, if count (desc_base d i) =? 0 then drop_table d i k g else d).

Definition unlinks (inv : Z) (g : Z -> Z) : Prop := forall x,
  pte_next (g x) = inv /\ (pte_type (g x) = pte_type x \/ keep = false /\ pte_type (g x) = PAGE_TABLE) /\ bf_get 8 1 (g x) = bf_get 8 1 x.

Lemma unlinks_page (inv : Z) : keep = false -> 0 <= inv < 2 ^ 36 -> unlinks inv (fun x => set_pte_type PAGE_TABLE (set_pte_next inv x)).
Proof. intros Hkeep Hi x. bf. rewrite uwrap_small by lia. split_and!; [done|by right|done]. Qed.
Lemma unlinks_range (inv : Z) : 0 <= inv < 2 ^ 36 -> unlinks inv (set_pte_next inv).
Proof. intros Hi x. bf. rewrite uwrap_small by lia. split_and!; [done|by left|done]. Qed.

Lemma drop_table_ok (d : ub_decoder) (f : Z -> option page_entry) (i len k : Z) (g : Z -> Z) : mem_ok d ->
  page_base (desc_base d i) = Some k -> unlinks (invalid_page_dma d) g -> (forall j, 0 <= j < len -> f j = None) ->
  mem_ok (drop_table d i k g) /\ tab_ok (drop_table d i k g) f i len /\ upd_at keep d (drop_table d i k g) i.
Proof.
  intros Hm Ek Hg Hf. destruct (Hg (pgtlb d i)) as (G1 & G2 & G3). destruct (mo_own d Hm _ _ Ek) as (_ & _ & Hki).
  split_and!.
  - destruct Hm as [M1 M2 M3 M4 M5 M6]. split; cbn [invalid_page_dma mem desc_base set_pgtlb set_desc set_mem drop_table dmam_free].
    + done.
    + destruct M2 as (r & Hr & Hz). exists r. by rewrite lookup_delete_ne.
    + intros k' [r [_ Hr]%lookup_delete_Some]. by apply M3.
    + intros i' k'. destruct (Z.eqb_spec i' i) as [->|Hne]; [done|]. intros Hp. destruct (M4 _ _ Hp) as (? & Hs & ?).
      split_and!; try done; try lia. rewrite lookup_delete_ne; [done|]. intros <-. apply Hne. by eapply M5.
    + intros i' j' k'. destruct (Z.eqb_spec i' i) as [->|], (Z.eqb_spec j' i) as [->|]; try done. apply M5.
    + intros k' [r [Hne Hr]%lookup_delete_Some]. destruct (M6 k' ltac:(by exists r)) as [?|[[j Hj]|?]]; [by left| |by right; right]. right. left. exists j.
      destruct (Z.eqb_spec j i) as [->|]; [|done]. rewrite Ek in Hj. by injection Hj.
  - unfold tab_ok. cbn [desc_base pgtlb set_pgtlb set_desc set_mem drop_table dmam_free]. rewrite !Z.eqb_refl. cbn [page_base]. by split.
  - split; cbn [desc_base pgtlb mem set_pgtlb set_desc set_mem drop_table dmam_free]; rewrite ?Z.eqb_refl; try done.
    + intros j Hj. by rewrite (proj2 (Z.eqb_neq j i)).
    + intros j Hj. by rewrite (proj2 (Z.eqb_neq j i)).
    + intros j k' Hj Hp. rewrite lookup_delete_ne; [done|]. intros <-. apply Hj. by eapply (mo_inj d Hm).
Qed.

(** Unmapping a page that is mapped. *)
Lemma unmap_from_ok (d : ub_decoder) (f : Z -> option page_entry) (i len a : Z) (g : Z -> Z) :
  mem_ok d -> tab_ok d f i len -> 0 <= a < len -> len <= 32768 -> unlinks (invalid_page_dma d) g -> is_Some (f a) ->
  exists d', unmap_from d i a g = Some (0, d') /\ mem_ok d' /\ tab_ok d' (fupd f a None) i len /\ upd_at keep d d' i.
Proof.
  intros Hm Ht Ha Hlen Hg Hs. unfold unmap_from. destruct (page_base (desc_base d i)) as [k|] eqn:Ek.
  2: { unfold tab_ok in Ht. rewrite Ek in Ht. destruct Ht as [_ Hf]. rewrite Hf in Hs by done. by destruct Hs. }
  pose proof (tab_get d f i len Ht k Ek) as Hk. pose proof Hk as (_ & Ew & Ec & _). cbn [mbind option_bind].
  destruct (read_tab f i len a Ha d k Hk) as (page & -> & Hpage). cbn [mbind option_bind].
  destruct (f a) as [e|] eqn:Ef; [|by destruct Hs]. destruct Hpage as [-> ->]. cbn [Z.eqb Pos.eqb negb PAGE].
  pose proof (used_minus f len a Ha ltac:(by rewrite Ef)) as Hd. pose proof (used_le f len ltac:(lia)).
  assert (Hcnt : u32 (count (desc_base d i) - 1) = Z.of_nat (size (used (fupd f a None) len))).
  { rewrite Ec, uwrap_small; lia. }
  destruct (put_entry_ok d f i len a Hm Ha k _ (set_entry_type e INVALID_ENTRY) None Hk eq_refl Hcnt) as (d' & E & Hm' & Hu & Ew' & Ek' & Ec' & Hr & _).
  rewrite (put_entry_fold d i a k _ (fun c => u32 (c - 1)) _ (fun d => Some (0, if count (desc_base d i) =? 0 then drop_table d i k g else d))), E.
  cbn [mbind option_bind]. rewrite Ec'. eexists. split; [done|].
  destruct (Z.eqb_spec (u32 (count (desc_base d i) - 1)) 0) as [E0|E0].
  - assert (Hnone : forall j, 0 <= j < len -> fupd f a None j = None) by (apply used_empty; lia).
    destruct Hu as [(C1 & C2 & C3 & C4 & C5 & C6) W T K D M] eqn:HU. clear HU.
    destruct (drop_table_ok d' (fupd f a None) i len k g Hm' Ek') as (? & ? & ?); [by rewrite C5|done|].
    split_and!; try done. eapply upd_trans; [|done]. by split.
  - split_and!; try done. unfold tab_ok. rewrite Ek', Ew', Ec'. split_and!; [done| |done|done].
    destruct (size_pos_elem_of (used (fupd f a None) len)) as [j Hj]; [lia|]. exists j. by apply elem_of_used.
Qed.
End Table.
End Lost.
