(* ===== verification/UbDecoderStep.v ===== *)
(** * Steps of the decoder

    What one iteration of [handle_table] does to the pages that are mapped, for slots that
    hold tables and slots that hold a range. *)

From S2P Require Import Prelude UmmuQueue UmmuCmd UbDecoder UbDecoderInv.

Lemma pgtlb_set (d : ub_decoder) (i : Z) (g : Z -> Z) : pgtlb (set_pgtlb d i g) i = g (pgtlb d i).
Proof. cbn. by rewrite Z.eqb_refl. Qed.
Lemma pgtlb_set_ne (d : ub_decoder) (i j : Z) (g : Z -> Z) : j <> i -> pgtlb (set_pgtlb d i g) j = pgtlb d j.
Proof. intros Hne. cbn. by rewrite (proj2 (Z.eqb_neq j i)). Qed.
Ltac words := repeat first [rewrite pgtlb_set | rewrite pgtlb_set_ne by lia].

Section Lost.
Context {X : gset Z}.
Abbreviation mem_ok := (mem_okX X).
Abbreviation dec_inv := (dec_invX X).

(** ** Slots *)

Definition words_eq (w w' : Z -> Z) : Prop := forall j, 0 <= j < 8 -> w' j = w j.

Lemma range_entry_ext (w w' : Z -> Z) (k : Z) : words_eq w w' -> range_entry w' k = range_entry w k.
Proof.
  intros E. unfold range_entry, rte_token_vld, rte_ub_addr, rte_tpg_num, rte_order_type, rte_order_id, rte_token_id, rte_token_value, rte_upi, rte_src_eid.
  by rewrite !E by lia.
Qed.
Lemma range_bounds_ext (w w' : Z -> Z) : words_eq w w' -> rte_mem_base w' = rte_mem_base w /\ rte_mem_limit w' = rte_mem_limit w.
Proof. intros E. unfold rte_mem_base, rte_mem_limit. by rewrite !E by lia. Qed.

Lemma slot_frame (d d' : ub_decoder) (F F' : Z -> option page_entry) (t : Z) :
  invalid_page_dma d' = invalid_page_dma d ->
  (forall j, 0 <= j < 8 -> pgtlb d' (t * 8 + j) = pgtlb d (t * 8 + j) /\ desc_base d' (t * 8 + j) = desc_base d (t * 8 + j) /\
     forall k, page_base (desc_base d (t * 8 + j)) = Some k -> mem d' !! k = mem d !! k) ->
  (forall a, 0 <= a < 32768 -> F' (t * 32768 + a) = F (t * 32768 + a)) -> slot_ok d F t -> slot_ok d' F' t.
Proof.
  intros Ei Hj HF Hs. assert (Hw : words_eq (slot d t) (slot d' t)) by (intros j Hb; by apply Hj).
  destruct (range_bounds_ext _ _ Hw) as [Eb El]. unfold slot_ok. rewrite (Hw 0) by lia. rewrite Eb, El.
  destruct Hs as [[Ht Htab]|(Ht & Hbl & Hr & Htab & Hn)]; [left|right]; (split; [done|]).
  - intros j Hb. destruct (Hj j Hb) as (H1 & H2 & H3). eapply tab_ext; [|eapply tab_frame; [done| |done|done|by apply Htab]].
    + intros a Ha. cbv beta. specialize (HF (j * 4096 + a) ltac:(lia)).
      replace ((t * 8 + j) * 4096 + a) with (t * 32768 + (j * 4096 + a)) by lia. by rewrite HF.
    + by rewrite H1.
  - split_and!; [done| | |].
    + intros a Ha. rewrite (range_entry_ext _ _ _ Hw), <- Hr by done.
      pose proof (bf_get_range 0 15 (slot d t 1) ltac:(lia)). pose proof (bf_get_range 16 15 (slot d t 1) ltac:(lia)).
      apply HF. unfold rte_mem_base, rte_mem_limit in Ha. change (2 ^ 15) with 32768 in *. lia.
    + destruct (Hj 0 ltac:(lia)) as (H1 & H2 & H3). rewrite Z.add_0_r in H1, H2, H3.
      eapply tab_ext; [|eapply tab_frame; [done|by rewrite H1|done|done|exact Htab]].
      intros a Ha. cbv beta. unfold in_range. rewrite Eb, El, HF by lia. done.
    + intros j Hb. destruct (Hj j ltac:(lia)) as (_ & -> & _). by apply Hn.
Qed.

(** A change of one table of one slot. *)
Lemma dec_upd (keep : bool) (d d' : ub_decoder) (F F' : Z -> option page_entry) (t j : Z) :
  dec_inv d F -> mem_ok d' -> upd_at keep d d' (t * 8 + j) -> 0 <= t < 512 -> 0 <= j < 8 ->
  (forall p, ~ t * 32768 <= p < t * 32768 + 32768 -> F' p = F p) -> slot_ok d' F' t -> dec_inv d' F'.
Proof.
  intros [Hm Hs] Hm' [(_ & _ & _ & _ & C5 & _) W T K D M] Ht Hj HF Hslot. split; [done|]. intros t' Ht'.
  destruct (decide (t' = t)) as [->|Hne]; [done|]. eapply (slot_frame d); [done| | |by apply Hs].
  - intros j' Hj'. assert (t' * 8 + j' <> t * 8 + j) by lia. split_and!; [by apply W|by apply D|].
    intros k. by apply M.
  - intros a Ha. apply HF. lia.
Qed.

Lemma slot_page_upd (d d' : ub_decoder) (F : Z -> option page_entry) (t j a : Z) (v : option page_entry) :
  pte_type (slot d t 0) = PAGE_TABLE ->
  (forall j, 0 <= j < 8 -> tab_ok d (fun a => F ((t * 8 + j) * 4096 + a)) (t * 8 + j) 4096) ->
  upd_at false d d' (t * 8 + j) -> 0 <= j < 8 -> 0 <= a < 4096 ->
  tab_ok d' (fupd (fun a => F ((t * 8 + j) * 4096 + a)) a v) (t * 8 + j) 4096 ->
  slot_ok d' (fupd F ((t * 8 + j) * 4096 + a) v) t.
Proof.
  intros Ht Htab [(_ & _ & _ & _ & C5 & _) W T K D M] Hj Ha Hnew. left. split.
  - unfold slot, RGTLB_TO_PGTLB in *. rewrite Z.add_0_r in *. destruct (decide (j = 0)) as [->|Hne].
    + rewrite Z.add_0_r in T. destruct T as [->|[_ ->]]; done.
    + rewrite W by lia. done.
  - intros j' Hj'. destruct (decide (j' = j)) as [->|Hne].
    + eapply tab_ext; [|exact Hnew]. intros a' Ha'. unfold fupd. destruct (Z.eqb_spec a' a) as [->|Hne]; [by rewrite Z.eqb_refl|].
      rewrite (proj2 (Z.eqb_neq _ _)) by lia. done.
    + eapply tab_ext; [|eapply tab_frame; [done|by rewrite W by lia|by apply D; lia| |by apply Htab]].
      * intros a' Ha'. unfold fupd. rewrite (proj2 (Z.eqb_neq _ _)) by lia. done.
      * intros k. apply M. lia.
Qed.

Lemma slot_range_upd (d d' : ub_decoder) (F : Z -> option page_entry) (t a : Z) (v : option page_entry) :
  pte_type (slot d t 0) = RANGE_TABLE -> rte_mem_base (slot d t) <= rte_mem_limit (slot d t) ->
  (forall a, rte_mem_base (slot d t) <= a <= rte_mem_limit (slot d t) ->
     F (t * 32768 + a) = Some (range_entry (slot d t) (a - rte_mem_base (slot d t)))) ->
  (forall j, 1 <= j < 8 -> page_base (desc_base d (t * 8 + j)) = None) ->
  upd_at true d d' (t * 8) -> 0 <= a < 32768 -> in_range (slot d t) a = false ->
  tab_ok d' (fupd (fun a => if in_range (slot d t) a then None else F (t * 32768 + a)) a v) (t * 8) 32768 ->
  slot_ok d' (fupd F (t * 32768 + a) v) t.
Proof.
  intros Ht Hbl Hr Hn [_ W T K D M] Ha Hout Hnew. right.
  assert (Hw : forall j, 1 <= j < 8 -> slot d' t j = slot d t j) by (intros j Hj; apply W; unfold RGTLB_TO_PGTLB; lia).
  assert (Hbd : rte_mem_base (slot d' t) = rte_mem_base (slot d t) /\ rte_mem_limit (slot d' t) = rte_mem_limit (slot d t)).
  { unfold rte_mem_base, rte_mem_limit. by rewrite !Hw by lia. }
  assert (Hre : forall k, range_entry (slot d' t) k = range_entry (slot d t) k).
  { intros k. unfold range_entry, rte_token_vld, rte_ub_addr, rte_tpg_num, rte_order_type, rte_order_id, rte_token_id, rte_token_value, rte_upi, rte_src_eid.
    rewrite (Hw 2), (Hw 3), (Hw 4), (Hw 5), (Hw 6), (Hw 7) by lia. f_equal. unfold slot, RGTLB_TO_PGTLB. rewrite Z.add_0_r. exact K. }
  destruct Hbd as [Eb El]. unfold in_range in Hout. split_and!.
  - unfold slot, RGTLB_TO_PGTLB in *. rewrite Z.add_0_r in *. destruct T as [->|[? _]]; done.
  - by rewrite Eb, El.
  - intros a' Ha'. rewrite Eb, El in Ha'. rewrite Hre, Eb. unfold fupd. rewrite (proj2 (Z.eqb_neq _ _)); [by apply Hr|].
    intros E. assert (a' = a) as -> by lia. by rewrite (proj2 (Z.leb_le _ a)), (proj2 (Z.leb_le a _)) in Hout by lia.
  - eapply tab_ext; [|exact Hnew]. intros a' Ha'. unfold fupd, in_range. rewrite Eb, El.
    destruct (Z.eqb_spec a' a) as [->|Hne]; [by rewrite Hout, Z.eqb_refl|]. by rewrite (proj2 (Z.eqb_neq (t * 32768 + a') _)) by lia.
  - intros j Hj. rewrite D by lia. by apply Hn.
Qed.

(** ** A new range *)

(** An aligned address passes the masks. *)
Lemma uba_masks (x : Z) : 0 <= x < 2 ^ 64 -> (SZ_1M | x) ->
  Z.lor (Z.land x RANGE_UBA_HIGH_MASK) (Z.land x RANGE_UBA_LOW_MASK) = x.
Proof.
  intros Hx [y ->]. apply Z.bits_inj'. intros m Hm. unfold RANGE_UBA_HIGH_MASK, RANGE_UBA_LOW_MASK.
  rewrite Z.lor_spec, !Z.land_spec, !genmask_bit, <- andb_orb_distrib_r by lia.
  destruct (Z.ltb_spec m 20) as [H1|H1].
  { unfold SZ_1M. by rewrite Z.mul_pow2_bits_low by lia. }
  destruct (Z.leb_spec m 63) as [H2|H2].
  - assert (((35 <=? m) && true) || ((20 <=? m) && (m <=? 34)) = true) as ->; [|by rewrite andb_true_r].
    destruct (Z.leb_spec 35 m), (Z.leb_spec 20 m), (Z.leb_spec m 34); (done || lia).
  - rewrite (proj2 (Z.leb_gt m 34)) by lia. rewrite !andb_false_r. cbn [orb]. symmetry.
    destruct (decide (y * SZ_1M = 0)) as [->|]; [by rewrite Z.bits_0|]. apply Z.bits_above_log2; [lia|].
    apply Z.log2_lt_pow2; [lia|]. apply Z.lt_le_trans with (2 ^ 64); [lia|]. apply Z.pow_le_mono_r; lia.
Qed.

(** The address of the [q]-th page of a range. *)
Lemma range_addr (u q : Z) :
  uwrap 52 (uwrap 52 (Z.shiftr (u64 (u * SZ_1M)) 12) + q * 256) = uwrap 52 (Z.shiftr (u64 ((u + q) * SZ_1M)) 12).
Proof.
  assert (H : forall v, Z.shiftr (u64 (v * SZ_1M)) 12 = 256 * (v mod 2 ^ 44)).
  { intros v. unfold uwrap, SZ_1M. rewrite Z.mul_comm. change (2 ^ 64) with (2 ^ 20 * 2 ^ 44). rewrite Z.mul_mod_distr_l by lia.
    rewrite Z.shiftr_div_pow2 by lia. change (2 ^ 20) with (256 * 2 ^ 12). rewrite <- Z.mul_assoc, (Z.mul_comm (2 ^ 12)), Z.mul_assoc.
    by rewrite Z.div_mul by lia. }
  rewrite !H. unfold uwrap. rewrite Zplus_mod_idemp_l. replace (256 * (u mod 2 ^ 44) + q * 256) with (256 * (u mod 2 ^ 44 + q)) by lia.
  change (2 ^ 52) with (256 * 2 ^ 44). rewrite !Z.mul_mod_distr_l by lia. by rewrite Zplus_mod_idemp_l, Z.mod_mod by lia.
Qed.

(** A request for the [n] pages from [p0] on. *)
Record info_ok (d : ub_decoder) (info : decoder_map_info) (p0 n : Z) : Prop := {
  io_pa : pa info = addr_of d p0;
  io_size : i_size info = n * SZ_1M;
  io_lo : 0 <= p0;
  io_n : 0 <= n;
  io_hi : p0 + n <= PAGES;
  io_base : 0 <= mmio_base_addr d /\ mmio_base_addr d + PAGES * SZ_1M < 2 ^ 64;
}.

Section Request.
Context (dma_alloc : nat -> gset Z -> option Z) (ubc_feature : Z).
Hypothesis Halloc : forall n g k, dma_alloc n g = Some k -> (k ∉ g) /\ addr_ok k.
Context (info : decoder_map_info) (p0 n : Z).

(** The entry of the [k]-th page. *)
Abbreviation entry k := (fill_page_entry ubc_feature info (k * SZ_1M)).

Section At.
Context (d : ub_decoder) (k : Z).
Hypothesis Hinfo : info_ok d info p0 n.
Hypothesis Hk : 0 <= k < n.
Abbreviation p := (p0 + k).
Abbreviation t := (p / 32768).

Lemma at_addr (j : Z) : 0 <= j <= n -> u64 (pa info + j * SZ_1M) = addr_of d (p0 + j) /\ u64 (j * SZ_1M) = j * SZ_1M.
Proof.
  destruct Hinfo as [H1 H2 H3 H4 H5 H6]. intros Hj. rewrite H1. unfold addr_of, SZ_1M, PAGES in *.
  rewrite !uwrap_small by lia. split; lia.
Qed.
Lemma page_in : 0 <= p < PAGES.
Proof. destruct Hinfo. lia. Qed.
Lemma slot_in : 0 <= t < 512.
Proof. pose proof page_in as Hp. unfold PAGES in Hp. zlia. Qed.

(** How far a range from this page on goes: to the end of the slot or of the request. *)
Definition range_len : Z := Z.min (32768 - p mod 32768) (n - k).

Lemma range_len_ok : 1 <= range_len /\ k + range_len <= n /\ p mod 32768 + range_len <= 32768.
Proof. unfold range_len. zlia. Qed.

Lemma fill_range_limit :
  (if u64 (Z.shiftl (MEM_LMT_MAX - p mod 32768 + 1) 20) <=? u64 (i_size info - k * SZ_1M)
   then (MEM_LMT_MAX, u64 (k * SZ_1M + u64 (Z.shiftl (MEM_LMT_MAX - p mod 32768 + 1) 20)))
   else
     let limit := u64 (get_rgtlb_addr d (u64 (pa info + i_size info)) - 1) in
     (limit, u64 (k * SZ_1M + Z.shiftl (u64 (limit - p mod 32768 + 1)) 20))) =
  (p mod 32768 + range_len - 1, (k + range_len) * SZ_1M).
Proof.
  pose proof page_in as Hp. pose proof Hinfo as [H1 H2 H3 H4 H5 H6]. destruct (at_addr n ltac:(lia)) as [Hend _].
  unfold MEM_LMT_MAX, range_len. rewrite H2, Hend. rewrite !Z.shiftl_mul_pow2 by lia. unfold SZ_1M, PAGES in *.
  rewrite !(uwrap_small 64 ((32767 - p mod 32768 + 1) * 2 ^ 20)) by zlia. rewrite (uwrap_small 64 (n * 2 ^ 20 - k * 2 ^ 20)) by lia.
  destruct (Z.leb_spec ((32767 - p mod 32768 + 1) * 2 ^ 20) (n * 2 ^ 20 - k * 2 ^ 20)) as [Hle|Hgt].
  - rewrite Z.min_l by lia. rewrite (uwrap_small 64) by zlia. f_equal; lia.
  - rewrite Z.min_r by lia. assert (Hm : (p0 + n) mod 32768 = p mod 32768 + (n - k)) by zlia.
    rewrite idx_rg by (unfold PAGES; zlia). rewrite Hm. cbv zeta. rewrite (uwrap_small 64 (p mod 32768 + (n - k) - 1)) by zlia.
    rewrite (uwrap_small 64 (p mod 32768 + (n - k) - 1 - p mod 32768 + 1)) by zlia.
    rewrite uwrap_small by zlia. f_equal; lia.
Qed.

(** The range entry stands for the page entries. *)
Lemma fill_range_ok : (SZ_1M | uba info) -> 0 <= invalid_page_dma d < 2 ^ 36 ->
  exists d', fill_range_table ubc_feature d t info (k * SZ_1M) = ((k + range_len) * SZ_1M, d') /\
    pte_type (slot d' t 0) = RANGE_TABLE /\ pte_next (slot d' t 0) = invalid_page_dma d /\
    rte_mem_base (slot d' t) = p mod 32768 /\ rte_mem_limit (slot d' t) = p mod 32768 + range_len - 1 /\
    (forall q, range_entry (slot d' t) q = entry (k + q)) /\
    (forall i, ~ t * 8 <= i < t * 8 + 8 -> pgtlb d' i = pgtlb d i) /\
    desc_base d' = desc_base d /\ mem d' = mem d /\ same_cfg d d'.
Proof.
  intros [u Hu] Hinv. pose proof page_in as Hp. pose proof range_len_ok as Hlen. pose proof (Z.mod_pos_bound p 32768 ltac:(lia)).
  unfold fill_range_table, DECODER_RGTLB_ADDRESS_OFFSET. destruct (at_addr k ltac:(lia)) as [-> _]. rewrite idx_rg by done.
  pose proof fill_range_limit as Hlim. cbv zeta in Hlim |- *. rewrite Hlim. cbv beta iota. unfold RGTLB_TO_PGTLB.
  eexists. split; [done|]. unfold slot, RGTLB_TO_PGTLB, rte_mem_base, rte_mem_limit. split_and!.
  - rewrite Z.add_0_r. words. by bf.
  - rewrite Z.add_0_r. words. bf. by apply uwrap_small.
  - words. bf. apply uwrap_small. change (2 ^ 15) with 32768. lia.
  - words. bf. apply uwrap_small. change (2 ^ 15) with 32768. lia.
  - intros q. unfold range_entry, fill_page_entry, rte_token_vld, rte_ub_addr, rte_tpg_num, rte_order_type, rte_order_id, rte_token_id, rte_token_value, rte_upi, rte_src_eid.
    rewrite Z.add_0_r. words. bf. f_equal.
    + unfold TOKEN_VALID_MASK. change (GENMASK 0 0) with (Z.ones 1). rewrite Z.land_ones by lia. unfold uwrap. by rewrite Z.mod_mod.
    + rewrite Hu. replace (u * SZ_1M + k * SZ_1M) with ((u + k) * SZ_1M) by lia.
      rewrite uba_masks; [|by apply uwrap_range|].
      * unfold UBA_ADDR_OFFSET. rewrite range_addr. do 4 f_equal. lia.
      * unfold uwrap, SZ_1M. change (2 ^ 64) with (2 ^ 20 * 2 ^ 44). rewrite Z.mul_comm, Z.mul_mod_distr_l by lia.
        eexists. by rewrite Z.mul_comm.
  - intros i Hi. by words.
  - done.
  - done.
  - done.
Qed.

(** ** Mapping *)

Abbreviation link_page := (fun k x => set_pte_attr PGTLB_ATTR_DEFAULT (set_pte_next (next_lv k) (set_pte_type PAGE_TABLE x))).
Abbreviation link_range := (fun k x => set_pte_attr PGTLB_ATTR_DEFAULT (set_pte_next (next_lv k) x)).

Lemma pgtlb_map_into (i off : Z) : pgtlb_map_to_page dma_alloc ubc_feature d i info off =
  map_into dma_alloc d i 4096 (get_page_idx d (u64 (pa info + off))) link_page (fill_page_entry ubc_feature info off).
Proof.
  unfold pgtlb_map_to_page, map_into. destruct (page_base (desc_base d i)); [done|].
  unfold pgtlb_alloc_page, new_table, dmam_alloc. by destruct (dma_alloc _ _).
Qed.

Lemma rgtlb_map_into (ti off : Z) : in_range (slot d ti) (get_rgtlb_addr d (u64 (pa info + off))) = false ->
  rgtlb_map dma_alloc ubc_feature d ti info off =
  ('(r, d') ← map_into dma_alloc d (ti * 8) 32768 (get_rgtlb_page_idx d (u64 (pa info + off))) link_range (fill_page_entry ubc_feature info off);
   Some (r, u64 (off + SZ_1M), d')).
Proof.
  unfold in_range. intros E. unfold rgtlb_map, map_into, RGTLB_TO_PGTLB. cbv zeta. rewrite E. destruct (page_base (desc_base d (ti * 8))) eqn:Ek.
  - cbn [ctrue Z.eqb negb]. rewrite Ek. cbn [mbind option_bind]. destruct (read_entry _ _ _); [|done]. cbn [mbind option_bind].
    destruct (negb _); [done|]. by destruct (write_entry _ _ _ _).
  - unfold rgtlb_alloc_page, new_table, dmam_alloc, RGTLB_TO_PGTLB. change (DECODER_PAGE_SIZE * 8) with 32768. destruct (dma_alloc _ _); [|done]. cbn [ctrue Z.eqb negb desc_base set_pgtlb set_desc].
    rewrite Z.eqb_refl. cbn [page_base mbind option_bind]. destruct (read_entry _ _ _); [|done]. cbn [mbind option_bind].
    destruct (negb _); [done|]. by destruct (write_entry _ _ _ _).
Qed.

(** The range of a slot, as pages. *)
Definition range_at (d : ub_decoder) (t : Z) : option (Z * Z) :=
  if pte_type (slot d t 0) =? RANGE_TABLE
  then Some (t * 32768 + rte_mem_base (slot d t), t * 32768 + rte_mem_limit (slot d t)) else None.

Definition fadd (F : Z -> option page_entry) (lo m : Z) : Z -> option page_entry :=
  fun q => if (lo <=? q) && (q <? lo + m) then Some (entry (q - p0)) else F q.

Lemma range_at_frame (d0 d' : ub_decoder) (t' : Z) : (forall j, 0 <= j < 8 -> pgtlb d' (t' * 8 + j) = pgtlb d0 (t' * 8 + j)) ->
  range_at d' t' = range_at d0 t'.
Proof.
  intros Hw. unfold range_at, rte_mem_base, rte_mem_limit, slot, RGTLB_TO_PGTLB. by rewrite !Hw by lia.
Qed.
Lemma range_at_page (d0 d' : ub_decoder) (t0 j : Z) : upd_at false d0 d' (t0 * 8 + j) -> 0 <= j < 8 ->
  pte_type (slot d0 t0 0) = PAGE_TABLE -> forall t', range_at d' t' = range_at d0 t'.
Proof.
  intros [_ W T _ _ _] Hj Ht t'. destruct (decide (t' = t0)) as [->|Hne]; [|apply range_at_frame; intros j' Hj'; apply W; lia].
  unfold range_at. rewrite Ht. cbn [Z.eqb Pos.eqb PAGE_TABLE RANGE_TABLE].
  assert (pte_type (slot d' t0 0) = PAGE_TABLE) as ->; [|done]. unfold slot, RGTLB_TO_PGTLB in *. rewrite Z.add_0_r in *.
  destruct (decide (j = 0)) as [->|Hj0]; [rewrite Z.add_0_r in T; by destruct T as [->|[_ ->]]|by rewrite W by lia].
Qed.
Lemma range_at_range (d0 d' : ub_decoder) (t0 : Z) : upd_at true d0 d' (t0 * 8) -> forall t', range_at d' t' = range_at d0 t'.
Proof.
  intros [_ W T _ _ _] t'. destruct (decide (t' = t0)) as [->|Hne]; [|apply range_at_frame; intros j' Hj'; apply W; lia].
  unfold range_at, rte_mem_base, rte_mem_limit, slot, RGTLB_TO_PGTLB. rewrite Z.add_0_r. destruct T as [->|[? _]]; [|done].
  by rewrite !W by lia.
Qed.

(** What a step of a mapping leaves. *)
Definition map_post (F : Z -> option page_entry) (r off : Z) (d' : ub_decoder) : Prop :=
  same_cfg d d' /\
  ((r = 0 /\ exists m, 1 <= m /\ k + m <= n /\ off = (k + m) * SZ_1M /\ (forall q, p <= q < p + m -> F q = None) /\
      dec_inv d' (fadd F p m) /\
      forall t', range_at d' t' = range_at d t' \/
        (t' = t /\ range_at d t' = None /\ range_at d' t' = Some (p, p + m - 1) /\ m = range_len /\ page_base (desc_base d' (t' * 8)) = None)) \/
   (r <> 0 /\ dec_inv d' F /\ (forall t', range_at d' t' = range_at d t') /\ desc_base d' = desc_base d /\
      (is_Some (F p) \/ r = - ENOMEM))) /\
  forall t', t' <> t -> desc_base d' (t' * 8) = desc_base d (t' * 8).

Lemma dec_deny (d0 : ub_decoder) (F : Z -> option page_entry) : dec_inv d0 F -> dec_inv (deny d0) F.
Proof. intros [[M1 M2 M3 M4 M5 M6] Hs]. split; [by split|]. exact Hs. Qed.

(** One page in one table. *)
Lemma map_post_one (F : Z -> option page_entry) (r : Z) (d' : ub_decoder) : dec_inv d F ->
  (r = 0 /\ F p = None /\ dec_inv d' (fupd F p (Some (entry k))) /\ same_cfg d d' /\ (forall t', range_at d' t' = range_at d t') /\
   forall t', t' <> t -> desc_base d' (t' * 8) = desc_base d (t' * 8)) \/
  (r <> 0 /\ (d' = d \/ d' = deny d) /\ (is_Some (F p) \/ r = - ENOMEM)) ->
  map_post F r (u64 (k * SZ_1M + SZ_1M)) d'.
Proof.
  intros Hinv [(-> & Hp & [Hm Hs] & Hc & Hr & Hdesc)|(Hr & Hd & Hwhy)].
  - split_and!; [done| |done]. left. split; [done|]. exists 1. destruct (at_addr (k + 1) ltac:(lia)) as [_ Hu].
    split_and!; [lia|lia| | | |by left; apply Hr].
    + replace (k * SZ_1M + SZ_1M) with ((k + 1) * SZ_1M) by lia. exact Hu.
    + intros q Hq. assert (q = p) as -> by lia. done.
    + split; [done|]. intros t' Ht'. eapply slot_frame; [done|done| |by apply Hs]. intros a Ha. unfold fadd, fupd.
      destruct (Z.eqb_spec (t' * 32768 + a) p) as [->|Hne].
      * rewrite (proj2 (Z.leb_le p p)), (proj2 (Z.ltb_lt p (p + 1))) by lia. cbn [andb]. by replace (p - p0) with k by lia.
      * destruct (_ && _) eqn:E; [|done]. apply andb_prop in E as [?%Z.leb_le ?%Z.ltb_lt]. lia.
  - split_and!; [by destruct Hd as [->| ->]| |by destruct Hd as [->| ->]]. right. split_and!; [done| | | |done].
    + destruct Hd as [->| ->]; [done|by apply dec_deny].
    + by destruct Hd as [->| ->].
    + by destruct Hd as [->| ->].
Qed.

(** Where the page is. *)
Lemma page_split : p = (t * 8 + p / 4096 mod 8) * 4096 + p mod 4096 /\ p = t * 32768 + p mod 32768 /\
  0 <= p / 4096 mod 8 < 8 /\ 0 <= p mod 4096 < 4096 /\ 0 <= t * 8 + p / 4096 mod 8 < 4096.
Proof. pose proof page_in as Hp. unfold PAGES in Hp. zlia. Qed.

Lemma page_map_step (F : Z -> option page_entry) : dec_inv d F -> pte_type (slot d t 0) = PAGE_TABLE ->
  exists r off d', handle_page_table dma_alloc ubc_feature d (k * SZ_1M) info true = Some (r, off, d') /\ map_post F r off d'.
Proof.
  intros Hinv Ht. pose proof page_in as Hp. pose proof slot_in as Hti. destruct page_split as (Ep & _ & Hj & Ha & Hi).
  pose proof Hinv as [Hm Hs]. destruct (Hs t Hti) as [[_ Htab]|(Ht' & _)]; [|by rewrite Ht in Ht']. specialize (Htab _ Hj) as Htj.
  unfold handle_page_table. destruct (at_addr k ltac:(lia)) as [-> _]. rewrite idx_slot, idx_sub by done. unfold RGTLB_TO_PGTLB.
  rewrite pgtlb_map_into. destruct (at_addr k ltac:(lia)) as [-> _]. rewrite idx_page by done.
  destruct (map_into_ok dma_alloc false Halloc d _ _ _ (p mod 4096) link_page (entry k) Hm Htj Hi Ha ltac:(lia) (links_page _ eq_refl) eq_refl)
    as (r & d' & -> & Hres). cbn [mbind option_bind]. eexists _, _, _. split; [done|]. apply map_post_one; [done|].
  cbv beta in Hres. rewrite <- Ep in Hres. destruct Hres as [(-> & Hf & Hm' & Htab' & Hu)|Hres]; [left|by right].
  split_and!; [done|done| |apply Hu|by eapply range_at_page|intros t' Hne; apply Hu; lia].
  eapply dec_upd; [exact Hinv|done|exact Hu|done|done| |].
  - intros q Hq. unfold fupd. rewrite (proj2 (Z.eqb_neq q p)); [done|]. zlia.
  - rewrite Ep at 1. by eapply slot_page_upd.
Qed.

Lemma range_map_step (F : Z -> option page_entry) : dec_inv d F -> pte_type (slot d t 0) = RANGE_TABLE ->
  exists r off d', handle_range_table dma_alloc ubc_feature d (k * SZ_1M) info true = Some (r, off, d') /\ map_post F r off d'.
Proof.
  intros Hinv Ht. pose proof page_in as Hp. pose proof slot_in as Hti. destruct page_split as (_ & Ep & _ & _ & _).
  pose proof (Z.mod_pos_bound p 32768 ltac:(lia)) as Ha.
  pose proof Hinv as [Hm Hs]. destruct (Hs t Hti) as [[Ht' _]|(_ & Hbl & Hr & Htab & Hn)]; [by rewrite Ht in Ht'|].
  unfold handle_range_table. destruct (at_addr k ltac:(lia)) as [Eaddr _]. rewrite Eaddr, idx_slot by done.
  destruct (in_range (slot d t) (p mod 32768)) eqn:Er.
  - unfold rgtlb_map. rewrite Eaddr, idx_rg by done. fold (in_range (slot d t) (p mod 32768)). rewrite Er.
    eexists _, _, _. split; [done|]. apply map_post_one; [done|]. right. split_and!; [done|by left|]. left.
    apply andb_prop in Er as [?%Z.leb_le ?%Z.leb_le]. rewrite Ep, Hr by lia. done.
  - rewrite rgtlb_map_into by (by rewrite Eaddr, idx_rg). rewrite Eaddr, idx_rg_page by done.
    destruct (map_into_ok dma_alloc true Halloc d _ _ _ (p mod 32768) link_range (entry k) Hm Htab ltac:(lia) Ha ltac:(lia) (links_range _) eq_refl)
      as (r & d' & -> & Hres). cbn [mbind option_bind]. eexists _, _, _. split; [done|]. apply map_post_one; [done|].
    cbv beta in Hres. rewrite Er, <- Ep in Hres. destruct Hres as [(-> & Hf & Hm' & Htab' & Hu)|Hres]; [left|by right].
    split_and!; [done|done| |apply Hu|by eapply range_at_range|intros t' Hne; apply Hu; lia].
    eapply (dec_upd true d d' F _ t 0); [exact Hinv|done|by rewrite Z.add_0_r|done|lia| |].
    + intros q Hq. unfold fupd. rewrite (proj2 (Z.eqb_neq q p)); [done|]. zlia.
    + rewrite Ep at 1. by eapply slot_range_upd.
Qed.

(** A slot whose pointers are all invalid maps nothing. *)
Lemma tab_invalid (f : Z -> option page_entry) (i len : Z) : mem_ok d -> tab_ok d f i len ->
  pte_next (pgtlb d i) = invalid_page_dma d -> page_base (desc_base d i) = None /\ forall j, 0 <= j < len -> f j = None.
Proof.
  intros Hm Ht Hn. unfold tab_ok in Ht. destruct (page_base (desc_base d i)) as [k'|] eqn:Ek; [|by destruct Ht].
  exfalso. destruct Ht as (E & _). destruct (mo_own d Hm _ _ Ek) as (_ & Hs & Hne). apply Hne.
  destruct (next_lv_addr k') as [<- _]; [by apply (mo_addr d Hm)|]. congruence.
Qed.

Lemma pgrg_map_step (F : Z -> option page_entry) : (SZ_1M | uba info) -> dec_inv d F -> pte_type (slot d t 0) = PAGE_TABLE ->
  exists r off d', handle_pgrg_table dma_alloc ubc_feature d (k * SZ_1M) info true = Some (r, off, d') /\ map_post F r off d'.
Proof.
  intros Hu Hinv Ht. pose proof page_in as Hp. pose proof slot_in as Hti. destruct page_split as (_ & Ep & _ & _ & _).
  pose proof Hinv as [Hm Hs]. destruct (Hs t Hti) as [[_ Htab]|(Ht' & _)]; [|by rewrite Ht in Ht'].
  unfold handle_pgrg_table. cbn [negb]. destruct (at_addr k ltac:(lia)) as [-> _]. rewrite idx_slot by done.
  destruct (negb _ || _); [by apply page_map_step|]. destruct (existsb _ _) eqn:Ex; [by apply page_map_step|].
  assert (Hnone : forall j, 0 <= j < 8 -> page_base (desc_base d (t * 8 + j)) = None /\ forall a, 0 <= a < 4096 -> F ((t * 8 + j) * 4096 + a) = None).
  { intros j Hj. apply (tab_invalid _ _ 4096 Hm (Htab j Hj)). destruct (pte_next (slot d t j) =? invalid_page_dma d) eqn:E; [by apply Z.eqb_eq|].
    exfalso. assert (existsb (fun j => negb (pte_next (slot d t j) =? invalid_page_dma d)) (seqZ 0 RGTLB_TO_PGTLB) = true) as Ht2; [|congruence].
    apply existsb_exists. exists j. rewrite E. split; [|done]. apply list_elem_of_In, elem_of_seqZ. unfold RGTLB_TO_PGTLB. lia. }
  assert (HF : forall a, 0 <= a < 32768 -> F (t * 32768 + a) = None).
  { intros a Ha. destruct (Hnone (a / 4096) ltac:(zlia)) as [_ Hf]. specialize (Hf (a mod 4096) ltac:(zlia)).
    rewrite <- Hf. f_equal. zlia. }
  destruct (fill_range_ok Hu (mo_inv d Hm)) as (d' & -> & R1 & R2 & R3 & R4 & R5 & R6 & R7 & R8 & R9).
  pose proof range_len_ok as (L1 & L2 & L3). eexists _, _, _. split; [done|]. split_and!; [done| |by rewrite R7]. left. split; [done|].
  exists range_len. split_and!; [done|done|done| | |].
  - intros q Hq. rewrite <- (HF (q - t * 32768)) by zlia. f_equal. lia.
  - assert (R9' := R9). destruct R9' as (_ & _ & _ & _ & Ei & _). split.
    { destruct Hm as [M1 M2 M3 M4 M5 M6]. split; rewrite ?Ei, ?R7, ?R8; done. }
    intros t' Ht'. destruct (decide (t' = t)) as [->|Hne].
    + right. rewrite R1, R3, R4. split_and!; [done|lia| | |].
      * intros a Ha. rewrite R5. unfold fadd. rewrite (proj2 (Z.leb_le p _)), (proj2 (Z.ltb_lt _ (p + range_len))) by zlia.
        cbn [andb]. do 3 f_equal. zlia.
      * unfold tab_ok. rewrite R7.
        assert (E0 : page_base (desc_base d (t * 8)) = None) by (destruct (Hnone 0 ltac:(lia)) as [E _]; by rewrite Z.add_0_r in E).
        rewrite E0, Ei. unfold slot, RGTLB_TO_PGTLB in R2. rewrite Z.add_0_r in R2. split; [done|].
        intros a Ha. unfold in_range. rewrite R3, R4. unfold fadd.
        destruct ((p mod 32768 <=? a) && (a <=? p mod 32768 + range_len - 1)) eqn:Er; [done|].
        destruct ((p <=? t * 32768 + a) && (t * 32768 + a <? p + range_len)) eqn:Er2; [|by apply HF].
        apply andb_prop in Er2 as [?%Z.leb_le ?%Z.ltb_lt]. rewrite (proj2 (Z.leb_le _ a)), (proj2 (Z.leb_le a _)) in Er by zlia. done.
      * intros j Hj. rewrite R7. by destruct (Hnone j ltac:(lia)).
    + eapply (slot_frame d); [done| | |by apply Hs].
      * intros j Hj. rewrite R7, R8. split_and!; [apply R6; lia|done|done].
      * intros a Ha. unfold fadd. destruct (_ && _) eqn:E; [|done]. apply andb_prop in E as [?%Z.leb_le ?%Z.ltb_lt]. exfalso. zlia.
  - intros t'. destruct (decide (t' = t)) as [->|Hne]; [right|left; apply range_at_frame; intros j Hj; apply R6; lia].
    unfold range_at. rewrite Ht, R1, R3, R4. cbn [Z.eqb Pos.eqb PAGE_TABLE RANGE_TABLE]. split_and!; try done; [do 2 f_equal; zlia|].
    rewrite R7. destruct (Hnone 0 ltac:(lia)) as [E _]. by rewrite Z.add_0_r in E.
Qed.

Lemma map_step (F : Z -> option page_entry) : (SZ_1M | uba info) -> dec_inv d F ->
  exists r off d', handle_step dma_alloc ubc_feature d (k * SZ_1M) info true = Some (r, off, d') /\ map_post F r off d'.
Proof.
  intros Hu Hinv. pose proof page_in as Hp. pose proof slot_in as Hti. pose proof Hinv as [_ Hs].
  unfold handle_step. destruct (at_addr k ltac:(lia)) as [-> _]. rewrite idx_slot by done.
  destruct (Hs t Hti) as [[Ht _]|(Ht & _)]; rewrite Ht; cbn [Z.eqb Pos.eqb PAGE_TABLE RANGE_TABLE]; [|by apply range_map_step].
  destruct (_ =? _); [by apply pgrg_map_step|by apply page_map_step].
Qed.
End At.
End Request.
End Lost.
