(* ===== verification/UbDecoderUnmap.v ===== *)
(** * Steps that unmap

    A page goes, or a whole range; a slot that loses its range turns its remaining pages into
    tables of their own. *)

From S2P Require Import Prelude UmmuQueue UmmuCmd UbDecoder UbDecoderInv UbDecoderStep.

Section Lost.
Context {X : gset Z}.
Abbreviation mem_ok := (mem_okX X).
Abbreviation dec_inv := (dec_invX X).

(** ** The memory of a range is split into tables *)

Lemma used_snoc (f : Z -> option page_entry) (m : Z) : 0 <= m ->
  Z.of_nat (size (used f (m + 1))) = Z.of_nat (size (used f m)) + (match f m with Some _ => 1 | None => 0 end).
Proof.
  intros Hm. destruct (f m) as [e|] eqn:E.
  - replace (used f (m + 1)) with ({[ m ]} ∪ used f m).
    + rewrite size_union, size_singleton; [lia|]. apply disjoint_singleton_l. rewrite elem_of_used. lia.
    + apply set_eq. intros j. rewrite elem_of_union, elem_of_singleton, !elem_of_used. split.
      * intros [->|[? ?]]; (split; [lia|]); [by rewrite E|done].
      * intros [Hj Hs]. destruct (decide (j = m)); [by left|]. right. split; [lia|done].
  - replace (used f (m + 1)) with (used f m); [lia|]. apply set_eq. intros j. rewrite !elem_of_used. split.
    + intros [? ?]. split; [lia|done].
    + intros [Hj Hs]. split; [|done]. destruct (decide (j = m)) as [->|]; [|lia]. rewrite E in Hs. by destruct Hs.
Qed.

Section Copy.
Context (rg : region) (idx : Z) (f : Z -> option page_entry).
(** The entries of the part [idx] of the memory are the pages [f]. *)
Hypothesis Hf : forall j, 0 <= j < 4096 ->
  match f j with Some e => r_at rg (idx * 4096 + j) = e /\ entry_type e = PAGE
            | None => entry_type (r_at rg (idx * 4096 + j)) = INVALID_ENTRY end.

Definition copied (m j : Z) : page_entry :=
  if (0 <=? j) && (j <? m) then match f j with Some e => e | None => zero_entry end else zero_entry.

Lemma copy_fold (m : nat) : Z.of_nat m <= 4096 -> exists f',
  foldl (copy_entry rg idx)
    (0, fun _ => zero_entry) (seqZ 0 (Z.of_nat m)) = (Z.of_nat (size (used f (Z.of_nat m))), f') /\
  forall j, f' j = copied (Z.of_nat m) j.
Proof.
  induction m as [|m IH]; intros Hm.
  - eexists. split; [done|]. intros j. unfold copied. by destruct (Z.leb_spec 0 j), (Z.ltb_spec j (Z.of_nat 0)); (done || lia).
  - destruct (IH ltac:(lia)) as (f' & E & Hf'). rewrite seqZ_S, foldl_app, E. cbn [foldl]. rewrite Z.add_0_l.
    unfold copy_entry at 1. change DECODER_PAGE_SIZE with 4096. cbn [fst snd].
    specialize (Hf (Z.of_nat m) ltac:(lia)). pose proof (used_snoc f (Z.of_nat m) ltac:(lia)) as Hu.
    replace (Z.of_nat (S m)) with (Z.of_nat m + 1) by lia. rewrite Hu. pose proof (used_le f (Z.of_nat m) ltac:(lia)).
    assert (Hc : forall j, copied (Z.of_nat m + 1) j = if j =? Z.of_nat m then match f j with Some e => e | None => zero_entry end else copied (Z.of_nat m) j).
    { intros j. unfold copied. destruct (Z.eqb_spec j (Z.of_nat m)) as [->|Hne].
      - by rewrite (proj2 (Z.leb_le 0 _)), (proj2 (Z.ltb_lt _ (Z.of_nat m + 1))) by lia.
      - destruct (Z.leb_spec 0 j), (Z.ltb_spec j (Z.of_nat m + 1)), (Z.ltb_spec j (Z.of_nat m)); (done || lia). }
    destruct (f (Z.of_nat m)) as [e|] eqn:Efm.
    + destruct Hf as [-> ->]. cbn [Z.eqb Pos.eqb PAGE]. eexists. split; [by rewrite uwrap_small by lia|].
      intros j. rewrite Hc. destruct (Z.eqb_spec j (Z.of_nat m)) as [->|]; [by rewrite Efm|done].
    + rewrite Hf. cbn [Z.eqb INVALID_ENTRY PAGE]. rewrite Z.add_0_r. eexists. split; [done|]. intros j. rewrite Hc, Hf'.
      destruct (Z.eqb_spec j (Z.of_nat m)) as [->|]; [|done]. rewrite Efm. unfold copied.
      rewrite (proj2 (Z.ltb_ge _ (Z.of_nat m))) by lia. by rewrite andb_false_r.
Qed.

Lemma has_entries_spec : has_entries rg idx = true <-> exists j, 0 <= j < 4096 /\ is_Some (f j).
Proof.
  unfold has_entries. change DECODER_PAGE_SIZE with 4096. rewrite existsb_exists. split.
  - intros (j & Hj%list_elem_of_In%elem_of_seqZ & Hne). exists j. split; [lia|]. specialize (Hf j ltac:(lia)).
    destruct (f j); [done|]. by rewrite Hf in Hne.
  - intros (j & Hj & [e He]). exists j. specialize (Hf j Hj). rewrite He in Hf. destruct Hf as [-> ->].
    split; [|done]. apply list_elem_of_In, elem_of_seqZ. lia.
Qed.
End Copy.

Section Unmap.
Context (dma_alloc : nat -> gset Z -> option Z).
Hypothesis Halloc : forall n g k, dma_alloc n g = Some k -> (k ∉ g) /\ addr_ok k.
Abbreviation link_page := (fun k x => set_pte_attr PGTLB_ATTR_DEFAULT (set_pte_next (next_lv k) (set_pte_type PAGE_TABLE x))).

Section Split.
(** The memory [rg] at [k0] of the range of the slot [t] holds the pages [fr]. *)
Context (k0 t : Z) (rg : region) (fr : Z -> option page_entry).
Hypothesis Hfr : forall a, 0 <= a < 32768 ->
  match fr a with Some e => r_at rg a = e /\ entry_type e = PAGE | None => entry_type (r_at rg a) = INVALID_ENTRY end.
Hypothesis Ht : 0 <= t < 512.
Abbreviation part idx := (fun a => fr (idx * 4096 + a)).
Abbreviation live d := (dmam_free d k0).

Lemma part_ok (idx j : Z) : 0 <= idx < 8 -> 0 <= j < 4096 ->
  match part idx j with Some e => r_at rg (idx * 4096 + j) = e /\ entry_type e = PAGE
                   | None => entry_type (r_at rg (idx * 4096 + j)) = INVALID_ENTRY end.
Proof. intros Hi Hj. apply Hfr. lia. Qed.

Lemma copy_rg_ok (d : ub_decoder) (idx : Z) : mem_ok (live d) -> is_Some (mem d !! k0) -> 0 <= idx < 8 ->
  page_base (desc_base d (t * 8 + idx)) = None -> (exists j, 0 <= j < 4096 /\ is_Some (part idx j)) ->
  exists r d', copy_rg_to_pg dma_alloc d t rg idx = (r, d') /\
    ((r = - ENOMEM /\ d' = deny d) \/
     (r = 0 /\ is_Some (mem d' !! k0) /\ mem_ok (live d') /\ tab_ok (live d') (part idx) (t * 8 + idx) 4096 /\
      upd_at false (live d) (live d') (t * 8 + idx))).
Proof.
  intros Hm H0 Hidx En Hne. unfold copy_rg_to_pg, dmam_alloc, RGTLB_TO_PGTLB.
  destruct (dma_alloc (asked d) (dom (mem d))) as [k|] eqn:Ea.
  2: { eexists _, _. split; [done|]. left. by split_and!. }
  destruct (Halloc _ _ _ Ea) as [Hk Hok]. apply not_elem_of_dom in Hk.
  assert (Hk0 : k <> k0) by (intros ->; rewrite Hk in H0; by destruct H0).
  destruct (copy_fold rg idx (part idx) (fun j Hj => part_ok idx j Hidx Hj) 4096 ltac:(lia)) as (f' & E & Hf').
  change (Z.of_nat 4096) with 4096 in E, Hf'. change (seqZ 0 DECODER_PAGE_SIZE) with (seqZ 0 4096). rewrite E.
  clear E. eexists _, _. split; [reflexivity|]. right. split; [reflexivity|].
  set (r := {| r_len := DECODER_PAGE_SIZE; r_at := f' |}). set (c := Z.of_nat (size (used (part idx) 4096))).
  destruct (linked_ok false (live d) (t * 8 + idx) k r c (S (asked d)) link_page Hm En) as [Hm' Hu];
    [cbn; by rewrite lookup_delete_ne|done|lia|by apply links_page|].
  match goal with |- context [mem_ok (dmam_free ?d' k0)] =>
    assert (Elive : dmam_free d' k0 = linked (live d) (t * 8 + idx) k r c (S (asked d)) link_page) end.
  { unfold linked, dmam_free, set_pgtlb, set_desc, set_mem.
    cbn [mmio_base_addr mmio_end_addr rg_size create_matt invalid_page_dma pgtlb desc_base mem asked cmdq].
    assert (Emem : delete k0 (<[k := r]> (<[k := {| r_len := DECODER_PAGE_SIZE; r_at := fun _ => zero_entry |}]> (mem d))) = <[k := r]> (delete k0 (mem d)))
      by (by rewrite insert_insert_eq, delete_insert_ne).
    fold r. rewrite Emem. reflexivity. }
  split; [cbn; rewrite !lookup_insert_ne; done|]. rewrite Elive. split; [exact Hm'|]. split; [|exact Hu].
  unfold tab_ok, linked. cbn [desc_base pgtlb mem set_pgtlb set_desc set_mem dmam_free]. rewrite !Z.eqb_refl. cbn [page_base count].
  destruct (links_page false eq_refl k (pgtlb d (t * 8 + idx)) Hok) as (G1 & _). split; [exact G1|]. split; [exact Hne|]. split; [reflexivity|].
  exists r. rewrite lookup_insert_eq. split_and!; [done|done|]. intros j Hj. pose proof (part_ok idx j Hidx Hj) as Hp. cbn [r_at r].
  rewrite Hf'. unfold copied. rewrite (proj2 (Z.leb_le 0 j)), (proj2 (Z.ltb_lt j 4096)) by lia. cbn [andb].
  destruct (fr (idx * 4096 + j)) as [e|]; [split; [reflexivity|apply Hp]|reflexivity].
Qed.

(** Only the tables of [l] changed. *)
Record upd_list (d d' : ub_decoder) (l : list Z) : Prop := {
  ul_cfg : same_cfg d d';
  ul_word : forall i, (forall idx, idx ∈ l -> i <> t * 8 + idx) -> pgtlb d' i = pgtlb d i;
  ul_desc : forall i, (forall idx, idx ∈ l -> i <> t * 8 + idx) -> desc_base d' i = desc_base d i;
  ul_mem : forall i k, (forall idx, idx ∈ l -> i <> t * 8 + idx) -> page_base (desc_base d i) = Some k -> mem d' !! k = mem d !! k;
}.

Lemma upd_list_nil (d : ub_decoder) : upd_list d d [].
Proof. by split. Qed.
Lemma upd_list_cons (d d1 d' : ub_decoder) (idx : Z) (l : list Z) : upd_at false d d1 (t * 8 + idx) -> upd_list d1 d' l -> upd_list d d' (idx :: l).
Proof.
  intros [(C1 & C2 & C3 & C4 & C5 & C6) W T K D M] [(C1' & C2' & C3' & C4' & C5' & C6') W' D' M'].
  assert (Hsub : forall i, (forall x, x ∈ idx :: l -> i <> t * 8 + x) -> i <> t * 8 + idx /\ forall x, x ∈ l -> i <> t * 8 + x).
  { intros i Hi. split; [apply Hi; by left|]. intros x Hx. apply Hi. by right. }
  split.
  - unfold same_cfg. split_and!; congruence.
  - intros i [H1 H2]%Hsub. by rewrite W', W.
  - intros i [H1 H2]%Hsub. by rewrite D', D.
  - intros i k [H1 H2]%Hsub Hk. rewrite (M' i k), (M i k); [done|done|done|done|]. by rewrite D.
Qed.
Lemma upd_list_skip (d d' : ub_decoder) (idx : Z) (l : list Z) : upd_list d d' l -> upd_list d d' (idx :: l).
Proof.
  intros [C W D M]. split; [done| | |].
  - intros i Hi. apply W. intros x Hx. apply Hi. by right.
  - intros i Hi. apply D. intros x Hx. apply Hi. by right.
  - intros i k Hi. apply M. intros x Hx. apply Hi. by right.
Qed.

Lemma copy_loop_ok (l : list Z) : NoDup l -> (forall idx, idx ∈ l -> 0 <= idx < 8) -> forall d,
  mem_ok (live d) -> is_Some (mem d !! k0) ->
  (forall idx, idx ∈ l -> page_base (desc_base d (t * 8 + idx)) = None /\ pte_next (pgtlb d (t * 8 + idx)) = invalid_page_dma d) ->
  pte_type (slot d t 0) = PAGE_TABLE ->
  exists r d' kept, copy_loop dma_alloc d t rg l = (r, d') /\ ((r = 0 /\ forall idx, idx ∈ l -> kept idx = true) \/ r = - ENOMEM) /\
    is_Some (mem d' !! k0) /\ mem_ok (live d') /\ pte_type (slot d' t 0) = PAGE_TABLE /\ upd_list (live d) (live d') l /\
    forall idx, idx ∈ l -> tab_ok (live d') (fun a => if (kept idx : bool) then part idx a else None) (t * 8 + idx) 4096.
Proof.
  induction l as [|idx l IH]; intros Hnd Hb d Hm H0 Hempty Htype.
  { eexists _, _, (fun _ => true). split; [reflexivity|]. split_and!; try done; [by left|]. intros idx Hi. by apply elem_of_nil in Hi. }
  assert (Hnone : forall x, x ∈ idx :: l -> tab_ok (live d) (fun _ => None) (t * 8 + x) 4096).
  { intros x Hx. destruct (Hempty x Hx) as [En Ew]. unfold tab_ok. cbn [desc_base pgtlb dmam_free set_mem invalid_page_dma]. by rewrite En. }
  apply NoDup_cons in Hnd as [Hnot Hnd]. destruct (Hempty idx ltac:(by left)) as [En Ew]. pose proof (Hb idx ltac:(by left)) as Hidx.
  assert (Hout : forall x, x ∈ l -> t * 8 + idx <> t * 8 + x) by (intros x Hx E; assert (x = idx) as -> by lia; done).
  cbn [copy_loop]. pose proof (has_entries_spec rg idx (part idx) (fun j Hj => part_ok idx j Hidx Hj)) as Hhas.
  destruct (has_entries rg idx) eqn:Eh.
  - destruct (copy_rg_ok d idx Hm H0 Hidx En (proj1 Hhas eq_refl)) as (r & d1 & -> & [(-> & ->)|(-> & H1 & Hm1 & Ht1 & Hu1)]).
    { cbn [ctrue]. eexists _, _, (fun _ => false). split; [reflexivity|]. split_and!; [by right|done|by destruct Hm as [M1 M2 M3 M4 M5 M6]|done|by split|exact Hnone]. }
    cbn [ctrue Z.eqb negb]. pose proof Hu1 as [(_ & _ & _ & _ & Ci & _) W T K D M].
    destruct (IH Hnd ltac:(intros x Hx; apply Hb; by right) d1 Hm1 H1) as (r & d' & kept & -> & Hr & Hk0 & Hm' & Htp & Hul & Htabs).
    + intros x Hx. change (page_base (desc_base (live d1) (t * 8 + x)) = None /\ pte_next (pgtlb (live d1) (t * 8 + x)) = invalid_page_dma (live d1)).
      pose proof (Hout x Hx). rewrite D, W, Ci by lia. apply Hempty. by right.
    + change (pte_type (pgtlb (live d1) (t * 8 + 0)) = PAGE_TABLE). change (pte_type (pgtlb (live d) (t * 8 + 0)) = PAGE_TABLE) in Htype.
      destruct (decide (idx = 0)) as [->|Hne]; [destruct T as [->|[_ ->]]; done|by rewrite W by lia].
    + eexists _, _, (fun x => if x =? idx then true else kept x). split; [reflexivity|]. split_and!; [|done|done|done|by eapply upd_list_cons|].
      * destruct Hr as [[-> Hkept]|Hr]; [left|by right]. split; [done|]. intros x [->|Hx]%elem_of_cons; [by rewrite Z.eqb_refl|]. destruct (x =? idx); [done|by apply Hkept].
      * intros x [->|Hx]%elem_of_cons.
        -- rewrite Z.eqb_refl. destruct Hul as [(_ & _ & _ & _ & Ci' & _) W' D' M']. eapply (tab_frame (live d1)); [done|by rewrite W'|by apply D'|by intros k Hk; apply (M' (t * 8 + idx))|done].
        -- rewrite (proj2 (Z.eqb_neq x idx)) by (intros ->; done). by apply Htabs.
  - destruct (IH Hnd ltac:(intros x Hx; apply Hb; by right) d Hm H0 ltac:(intros x Hx; apply Hempty; by right) Htype) as (r & d' & kept & -> & Hr & Hk0 & Hm' & Htp & Hul & Htabs).
    eexists _, _, (fun x => if x =? idx then true else kept x). split; [reflexivity|]. split_and!; [|done|done|done|by apply upd_list_skip|].
    + destruct Hr as [[-> Hkept]|Hr]; [left|by right]. split; [done|]. intros x [->|Hx]%elem_of_cons; [by rewrite Z.eqb_refl|]. destruct (x =? idx); [done|by apply Hkept].
    + intros x [->|Hx]%elem_of_cons; [|rewrite (proj2 (Z.eqb_neq x idx)) by (intros ->; done); by apply Htabs].
      rewrite Z.eqb_refl. destruct Hul as [(_ & _ & _ & _ & Ci' & _) W' D' M'].
      eapply (tab_frame (live d)); [done|by rewrite W'|by apply D'|by intros k Hk; apply (M' (t * 8 + idx))|].
      eapply tab_ext; [|apply (Hnone idx ltac:(by left))]. intros a Ha. cbv beta. destruct (part idx a) as [e|] eqn:Ej; [|done].
      assert (false = true) as ?; [|done]. apply Hhas. exists a. split; [done|]. rewrite Ej. by eexists.
Qed.
End Split.

Lemma dec_ext (d : ub_decoder) (F F' : Z -> option page_entry) : (forall q, 0 <= q < PAGES -> F q = F' q) -> dec_inv d F -> dec_inv d F'.
Proof.
  intros HF [Hm Hs]. split; [done|]. intros t Ht. eapply slot_frame; [done|done| |by apply Hs].
  intros a Ha. symmetry. apply HF. unfold PAGES. lia.
Qed.

(** ** A range goes *)

Lemma mem_ok_ext (d d' : ub_decoder) : invalid_page_dma d' = invalid_page_dma d -> mem d' = mem d ->
  (forall i, page_base (desc_base d' i) = page_base (desc_base d i)) -> mem_ok d -> mem_ok d'.
Proof.
  intros E1 E2 E3 [M1 M2 M3 M4 M5 M6]. split; rewrite ?E1, ?E2; try done.
  - intros i k. rewrite E3. apply M4.
  - intros i j k. rewrite !E3. apply M5.
  - intros k Hk. destruct (M6 k Hk) as [?|[[i Hi]|?]]; [by left| |by right; right]. right. left. exists i. by rewrite E3.
Qed.

Definition cleared (d : ub_decoder) (t : Z) : ub_decoder := reset_slot (set_pgtlb d (t * 8 + 6) (bf_set 32 32 0)) t.

Lemma cleared_ok (d : ub_decoder) (t : Z) : 0 <= invalid_page_dma d < 2 ^ 36 ->
  (forall j, 0 <= j < 8 -> pte_type (pgtlb (cleared d t) (t * 8 + j)) = PAGE_TABLE /\ pte_next (pgtlb (cleared d t) (t * 8 + j)) = invalid_page_dma d) /\
  (forall i, ~ t * 8 <= i < t * 8 + 8 -> pgtlb (cleared d t) i = pgtlb d i) /\
  desc_base (cleared d t) = desc_base d /\ mem (cleared d t) = mem d /\ same_cfg d (cleared d t).
Proof.
  intros Hi. unfold cleared, reset_slot, RGTLB_TO_PGTLB. change (seqZ 0 8) with [0; 1; 2; 3; 4; 5; 6; 7]. cbn [foldl].
  split_and!; try done.
  - intros j Hj. assert (j = 0 \/ j = 1 \/ j = 2 \/ j = 3 \/ j = 4 \/ j = 5 \/ j = 6 \/ j = 7) as Hc by lia.
    cbn [invalid_page_dma set_pgtlb].
    destruct Hc as [->|[->|[->|[->|[->|[->|[->| ->]]]]]]]; words; bf; (split; [done|by apply uwrap_small]).
  - intros i Hout. by words.
Qed.

Definition fdel (F : Z -> option page_entry) (lo m : Z) : Z -> option page_entry :=
  fun q => if (lo <=? q) && (q <? lo + m) then None else F q.

(** Pages of the slot [t] that are not kept are gone too. *)
Definition fcut (t : Z) (kept : Z -> bool) (F : Z -> option page_entry) : Z -> option page_entry :=
  fun q => if (q / 32768 =? t) && negb (kept (q mod 32768 / 4096)) then None else F q.

(** The memory of the range is lost. *)
Lemma mem_lost (d : ub_decoder) (k0 : Z) : mem_ok (dmam_free d k0) -> addr_ok k0 -> mem_okX ({[ k0 ]} ∪ X) d.
Proof.
  intros [M1 M2 M3 M4 M5 M6] Hk. cbn [dmam_free set_mem invalid_page_dma mem desc_base] in *.
  assert (Hd : forall k, is_Some (delete k0 (mem d) !! k) -> is_Some (mem d !! k)) by (intros k [r [_ Hr]%lookup_delete_Some]; by exists r).
  split; [done| | | |done|].
  - destruct M2 as (r & [_ Hr]%lookup_delete_Some & Hj). by exists r.
  - intros k Hs. destruct (decide (k = k0)) as [->|Hne]; [done|]. apply M3. by rewrite lookup_delete_ne.
  - intros i k Hi. destruct (M4 i k Hi) as (? & Hs & ?). split_and!; try done; try lia. by apply Hd.
  - intros k Hs. destruct (decide (k = k0)) as [->|Hne]; [right; right; set_solver|]. destruct (M6 k) as [?|[?|?]]; [by rewrite lookup_delete_ne|by left|by right; left|right; right; set_solver].
Qed.
Lemma tab_unfree (d : ub_decoder) (k0 : Z) (f : Z -> option page_entry) (i len : Z) : tab_ok (dmam_free d k0) f i len -> tab_ok d f i len.
Proof.
  unfold tab_ok. cbn [dmam_free set_mem desc_base pgtlb mem invalid_page_dma]. destruct (page_base (desc_base d i)) as [k|]; [|done].
  intros (H1 & H2 & H3 & r & [_ H4]%lookup_delete_Some & H5). split_and!; try done. by exists r.
Qed.

Section Gone.
Context (d : ub_decoder) (F : Z -> option page_entry) (t : Z).
Hypothesis Hinv : dec_inv d F.
Hypothesis Ht : 0 <= t < 512.
Hypothesis Hty : pte_type (slot d t 0) = RANGE_TABLE.
Abbreviation w := (slot d t).
Abbreviation lo := (t * 32768 + rte_mem_base w).
Abbreviation m := (rte_mem_limit w - rte_mem_base w + 1).
Abbreviation rest := (fun a => if in_range w a then None else F (t * 32768 + a)).

Lemma range_slot : rte_mem_base w <= rte_mem_limit w /\ tab_ok d rest (t * 8) 32768 /\
  (forall j, 1 <= j < 8 -> page_base (desc_base d (t * 8 + j)) = None) /\ 0 <= rte_mem_base w /\ rte_mem_limit w < 32768.
Proof.
  destruct Hinv as [_ Hs]. destruct (Hs t Ht) as [[Ht' _]|(_ & Hbl & Hr & Htab & Hn)]; [by rewrite Hty in Ht'|].
  pose proof (bf_get_range 0 15 (slot d t 1) ltac:(lia)) as Hb0. pose proof (bf_get_range 16 15 (slot d t 1) ltac:(lia)) as Hl0.
  split_and!; [done|done|done|by apply Hb0|by apply Hl0].
Qed.

Lemma rest_del (a : Z) : 0 <= a < 32768 -> rest a = fdel F lo m (t * 32768 + a).
Proof.
  intros Ha. unfold in_range, fdel.
  replace (t * 32768 + a <? lo + m) with (a <=? rte_mem_limit w) by (apply eq_iff_eq_true; rewrite Z.leb_le, Z.ltb_lt; lia).
  by replace (lo <=? t * 32768 + a) with (rte_mem_base w <=? a) by (apply eq_iff_eq_true; rewrite !Z.leb_le; lia).
Qed.

(** The slot with tables for what is left. *)
Definition cut_post (X' : gset Z) (kept : Z -> bool) (d' : ub_decoder) : Prop :=
  same_cfg d d' /\ dec_invX X' d' (fcut t kept (fdel F lo m)) /\ range_at d' t = None /\ (forall t', t' <> t -> range_at d' t' = range_at d t') /\
  forall t', t' <> t -> desc_base d' (t' * 8) = desc_base d (t' * 8).

Lemma range_gone (X' : gset Z) (kept : Z -> bool) (d' : ub_decoder) : same_cfg d d' -> mem_okX X' d' -> pte_type (slot d' t 0) = PAGE_TABLE ->
  (forall j, 0 <= j < 8 -> tab_ok d' (fun a => if kept j then rest (j * 4096 + a) else None) (t * 8 + j) 4096) ->
  (forall i, ~ t * 8 <= i < t * 8 + 8 -> pgtlb d' i = pgtlb d i /\ desc_base d' i = desc_base d i /\
     forall k, page_base (desc_base d i) = Some k -> mem d' !! k = mem d !! k) ->
  cut_post X' kept d'.
Proof.
  intros Hcfg Hm' Htp Htabs Hout. pose proof Hcfg as (_ & _ & _ & _ & Ei & _). pose proof range_slot as (Hbl & _ & _ & Hb0 & Hl0). split_and!; [exact Hcfg| | | |].
  - split; [done|]. intros t' Ht'. destruct (decide (t' = t)) as [->|Hne].
    + left. split; [done|]. intros j Hj. eapply tab_ext; [|by apply Htabs]. intros a Ha. cbv beta. unfold fcut.
      assert (E1 : ((t * 8 + j) * 4096 + a) / 32768 = t) by zlia. assert (E2 : ((t * 8 + j) * 4096 + a) mod 32768 / 4096 = j) by zlia.
      rewrite E1, E2, Z.eqb_refl. cbn [andb]. destruct (kept j); cbn [negb]; [|done]. rewrite rest_del by lia. f_equal. lia.
    + destruct Hinv as [_ Hs]. eapply (slot_frame d); [done| | |by apply Hs].
      * intros j Hj. apply Hout. lia.
      * intros a Ha. unfold fcut, fdel. rewrite (proj2 (Z.eqb_neq ((t' * 32768 + a) / 32768) t)) by zlia. cbn [andb].
        destruct (_ && _) eqn:E; [|done]. apply andb_prop in E as [?%Z.leb_le ?%Z.ltb_lt]. lia.
  - unfold range_at. by rewrite Htp.
  - intros t' Hne. apply range_at_frame. intros j Hj. apply Hout. lia.
  - intros t' Hne. apply Hout. lia.
Qed.

(** The memory of the range is split into tables, and freed; or memory runs out, and it is lost. *)
Lemma range_split (d2 : ub_decoder) (k0 : Z) (rg : region) :
  (forall j, 0 <= j < 8 -> pte_type (pgtlb d2 (t * 8 + j)) = PAGE_TABLE /\ pte_next (pgtlb d2 (t * 8 + j)) = invalid_page_dma d) ->
  (forall i, ~ t * 8 <= i < t * 8 + 8 -> pgtlb d2 i = pgtlb d i) ->
  desc_base d2 = desc_base d -> mem d2 = mem d -> same_cfg d d2 ->
  page_base (desc_base d (t * 8)) = Some k0 -> mem d !! k0 = Some rg ->
  (forall a, 0 <= a < 32768 ->
     match rest a with Some e => r_at rg a = e /\ entry_type e = PAGE | None => entry_type (r_at rg a) = INVALID_ENTRY end) ->
  exists r d4, copy_loop dma_alloc (set_desc d2 (t * 8) zero_desc) t rg (seqZ 0 8) = (r, d4) /\
    ((r = - ENOMEM /\ exists kept, cut_post ({[ k0 ]} ∪ X) kept d4) \/ (r = 0 /\ cut_post X (fun _ => true) (dmam_free d4 k0))).
Proof.
  intros Hw Ho Ed Em Hcfg Ek Hrg Hfr. pose proof range_slot as (_ & _ & Hn & _). destruct Hinv as [Hm _]. set (d3 := set_desc d2 (t * 8) zero_desc).
  assert (Ed3 : forall i, desc_base d3 i = if i =? t * 8 then zero_desc else desc_base d i) by (intros i; cbn; by rewrite Ed).
  assert (Hm3 : mem_ok (dmam_free d3 k0)).
  { destruct (drop_table_ok false d (fun _ => None) (t * 8) 0 k0 (set_pte_next (invalid_page_dma d)) Hm Ek) as (Hm3 & _);
      [by apply unlinks_range, (mo_inv d Hm)|done|].
    eapply mem_ok_ext; [| | |exact Hm3]; [by apply Hcfg|by cbn [mem dmam_free d3 set_desc set_mem drop_table set_pgtlb]; rewrite Em|].
    intros i. change (desc_base (dmam_free d3 k0) i) with (desc_base d3 i). rewrite Ed3.
    cbn [desc_base dmam_free set_desc set_mem drop_table set_pgtlb]. by destruct (i =? t * 8). }
  assert (Ew3 : pgtlb d3 = pgtlb d2) by done. assert (Emem3 : mem d3 = mem d) by exact Em. assert (Hc3 : same_cfg d d3) by exact Hcfg. clearbody d3.
  destruct (copy_loop_ok k0 t rg rest Hfr Ht (seqZ 0 8)) with (d := d3) as (r & d4 & kept & -> & Hr & Hk0 & Hm4 & Htp & [Hcfg4 W D M] & Htabs).
  - apply NoDup_seqZ.
  - intros idx Hi%elem_of_seqZ. lia.
  - exact Hm3.
  - by rewrite Emem3, Hrg.
  - intros idx Hi%elem_of_seqZ. rewrite Ed3, Ew3. split.
    + destruct (Z.eqb_spec (t * 8 + idx) (t * 8)); [done|]. apply Hn. lia.
    + destruct Hc3 as (_ & _ & _ & _ & -> & _). apply Hw. lia.
  - unfold slot. rewrite Ew3. apply Hw. lia.
  - eexists _, _. split; [reflexivity|].
    assert (Hc4 : same_cfg d d4). { destruct Hc3 as (B1 & B2 & B3 & B4 & B5 & B6), Hcfg4 as (B1' & B2' & B3' & B4' & B5' & B6'). cbn in *. unfold same_cfg. split_and!; congruence. }
    assert (Hout : forall i, ~ t * 8 <= i < t * 8 + 8 -> pgtlb d4 i = pgtlb d i /\ desc_base d4 i = desc_base d i /\
      forall k, page_base (desc_base d i) = Some k -> k <> k0 /\ mem d4 !! k = mem d !! k).
    { intros i Hi. assert (Hl : forall idx, idx ∈ seqZ 0 8 -> i <> t * 8 + idx) by (intros idx Hx%elem_of_seqZ; lia).
      assert (Edi : desc_base (dmam_free d3 k0) i = desc_base d i).
      { change (desc_base (dmam_free d3 k0)) with (desc_base d3). by rewrite Ed3, (proj2 (Z.eqb_neq i (t * 8))) by lia. }
      change (pgtlb d4) with (pgtlb (dmam_free d4 k0)). change (desc_base d4) with (desc_base (dmam_free d4 k0)).
      rewrite W, D, Edi by done. change (pgtlb (dmam_free d3 k0)) with (pgtlb d3). rewrite Ew3. split_and!; [by apply Ho|done|]. intros k Hk.
      assert (Hne : k <> k0). { intros ->. apply Hi. assert (i = t * 8) as -> by (by eapply (mo_inj d Hm)). lia. }
      split; [done|]. pose proof (M i k Hl ltac:(by rewrite Edi)) as HM. cbn [mem dmam_free set_mem] in HM. by rewrite !lookup_delete_ne, Emem3 in HM by done. }
    destruct Hr as [[-> Hkept]| ->]; [right|left]; (split; [done|]).
    + apply range_gone; [exact Hc4|exact Hm4|exact Htp| |].
      * intros j Hj. assert (Hin : j ∈ seqZ 0 8) by (apply elem_of_seqZ; lia). specialize (Htabs j Hin). by rewrite (Hkept j Hin) in Htabs.
      * intros i Hi. destruct (Hout i Hi) as (H1 & H2 & H3). split_and!; [done|done|]. intros k Hk. destruct (H3 k Hk) as [Hne <-]. by apply lookup_delete_ne.
    + exists kept. apply range_gone; [exact Hc4| |exact Htp| |].
      * apply mem_lost; [done|]. apply (mo_addr d Hm). by rewrite Hrg.
      * intros j Hj. eapply tab_unfree, Htabs, elem_of_seqZ. lia.
      * intros i Hi. destruct (Hout i Hi) as (H1 & H2 & H3). split_and!; [done|done|]. intros k Hk. by destruct (H3 k Hk).
Qed.

Lemma range_unmap_ok : exists r d', rgtlb_unmap_to_range dma_alloc d t = Some (r, d') /\
    ((r = - ENOMEM /\ page_base (desc_base d (t * 8)) <> None /\ exists k0 kept, cut_post ({[ k0 ]} ∪ X) kept d') \/ (r = 0 /\ cut_post X (fun _ => true) d')).
Proof.
  pose proof range_slot as (_ & Htab & Hn & _). pose proof Hinv as [Hm _].
  destruct (cleared_ok d t (mo_inv d Hm)) as (Hw & Ho & Ed & Em & Hcfg).
  unfold rgtlb_unmap_to_range, RGTLB_TO_PGTLB. fold (cleared d t). cbv zeta. generalize dependent (cleared d t). intros d2 Hw Ho Ed Em Hcfg. rewrite Ed.
  unfold tab_ok in Htab. destruct (page_base (desc_base d (t * 8))) as [k0|] eqn:Ek.
  - destruct Htab as (_ & _ & _ & rg & Hrg & _ & Hfr). rewrite Em, Hrg. cbn [mbind option_bind].
    destruct (range_split d2 k0 rg Hw Ho Ed Em Hcfg Ek Hrg Hfr) as (r & d4 & -> & [(-> & kept & Hc)|(-> & Hc)]);
      cbn [ctrue Z.eqb negb]; eexists _, _; (split; [reflexivity|]).
    + left. split_and!; [done|done|]. by exists k0, kept.
    + by right.
  - eexists _, _. split; [reflexivity|]. right. split; [done|]. apply range_gone; [done| | | |].
    + eapply mem_ok_ext; [|done|by rewrite Ed|exact Hm]. by apply Hcfg.
    + apply Hw. lia.
    + intros j Hj. unfold tab_ok. rewrite Ed. assert (page_base (desc_base d (t * 8 + j)) = None) as ->.
      { destruct (decide (j = 0)) as [->|]; [by rewrite Z.add_0_r|apply Hn; lia]. }
      destruct Hcfg as (_ & _ & _ & _ & -> & _). split; [by apply Hw|]. intros a Ha.
      destruct Htab as [_ Hf]. by apply Hf; lia.
    + intros i Hi. rewrite Ed, Em. split_and!; [by apply Ho|done|done].
Qed.
End Gone.

(** ** Steps *)

Abbreviation unlink_page inv := (fun x => set_pte_type PAGE_TABLE (set_pte_next inv x)).

Lemma pgtlb_unmap_from (d : ub_decoder) (i : Z) (info : decoder_map_info) (off : Z) : pte_next (pgtlb d i) <> invalid_page_dma d ->
  pgtlb_unmap_to_page d i info off = unmap_from d i (get_page_idx d (u64 (pa info + off))) (unlink_page (invalid_page_dma d)).
Proof.
  intros Hn. unfold pgtlb_unmap_to_page, unmap_from. rewrite (proj2 (Z.eqb_neq _ _) Hn).
  destruct (page_base (desc_base d i)) as [k|]; [|done]. cbn [mbind option_bind]. destruct (read_entry _ _ _) as [e|]; [|done].
  cbn [mbind option_bind]. destruct (negb _); [done|]. unfold write_entry. destruct (mem d !! k); [|done]. cbn [mbind option_bind].
  by destruct (_ && _).
Qed.
Lemma rgtlb_unmap_from (d : ub_decoder) (t a : Z) :
  rgtlb_unmap_to_page d t a = unmap_from d (t * 8) a (set_pte_next (invalid_page_dma d)).
Proof.
  unfold rgtlb_unmap_to_page, unmap_from, RGTLB_TO_PGTLB.
  destruct (page_base (desc_base d (t * 8))) as [k|]; [|done]. cbn [mbind option_bind]. destruct (read_entry _ _ _) as [e|]; [|done].
  cbn [mbind option_bind]. destruct (negb _); [done|]. unfold write_entry. destruct (mem d !! k); [|done]. cbn [mbind option_bind].
  by destruct (_ && _).
Qed.

(** What is left when memory runs out: some pages of the slots from [lo] to [hi] are gone, and the memory of a range may be lost. *)
Definition cut_to (d d' : ub_decoder) (F : Z -> option page_entry) (lo hi : Z) : Prop :=
  exists X' F', dec_invX X' d' F' /\ (forall q, F' q = F q \/ F' q = None) /\ (forall q, ~ lo <= q / 32768 <= hi -> F' q = F q) /\
    forall t, range_at d' t = range_at d t \/ range_at d' t = None.

Section At.
Context (ubc_feature : Z) (info : decoder_map_info) (p0 n : Z) (d : ub_decoder) (k : Z).
Hypothesis Hinfo : info_ok d info p0 n.
Hypothesis Hk : 0 <= k < n.
Abbreviation p := (p0 + k).
Abbreviation t := (p / 32768).

(** What a step leaves of the pages [F]. *)
Definition unmap_post (F : Z -> option page_entry) (r off : Z) (d' : ub_decoder) : Prop :=
  same_cfg d d' /\
  ((r = 0 /\ exists m, 1 <= m /\ k + m <= n /\ off = (k + m) * SZ_1M /\ dec_inv d' (fdel F p m) /\
      (forall t', range_at d' t' = range_at d t' \/ (range_at d t' = Some (p, p + m - 1) /\ range_at d' t' = None)) /\
      forall t', range_at d' t' <> None -> page_base (desc_base d (t' * 8)) = None -> page_base (desc_base d' (t' * 8)) = None) \/
   (r = - ENOMEM /\ cut_to d d' F t t /\ exists hi, range_at d t = Some (p, hi) /\ hi < p0 + n /\ page_base (desc_base d (t * 8)) <> None)).

Lemma unmap_post_one (F : Z -> option page_entry) (d' : ub_decoder) : same_cfg d d' -> dec_inv d' (fupd F p None) ->
  (forall t', range_at d' t' = range_at d t') ->
  (forall t', range_at d' t' <> None -> page_base (desc_base d (t' * 8)) = None -> page_base (desc_base d' (t' * 8)) = None) ->
  unmap_post F 0 (u64 (k * SZ_1M + SZ_1M)) d'.
Proof.
  intros Hc [Hm Hs] Hr Hd. split; [done|]. left. split; [done|]. exists 1. destruct (at_addr info p0 n d Hinfo (k + 1) ltac:(lia)) as [_ Hu].
  split_and!; [lia|lia| | |by left; apply Hr|done].
  - replace (k * SZ_1M + SZ_1M) with ((k + 1) * SZ_1M) by lia. exact Hu.
  - split; [done|]. intros t' Ht'. eapply slot_frame; [done|done| |by apply Hs]. intros a Ha. unfold fdel, fupd.
    destruct (Z.eqb_spec (t' * 32768 + a) p) as [->|Hne].
    + by rewrite (proj2 (Z.leb_le p p)), (proj2 (Z.ltb_lt p (p + 1))) by lia.
    + destruct (_ && _) eqn:E; [|done]. apply andb_prop in E as [?%Z.leb_le ?%Z.ltb_lt]. lia.
Qed.

Lemma page_unmap_step (F : Z -> option page_entry) : dec_inv d F -> pte_type (slot d t 0) = PAGE_TABLE -> is_Some (F p) ->
  exists r off d', handle_page_table dma_alloc ubc_feature d (k * SZ_1M) info false = Some (r, off, d') /\ unmap_post F r off d'.
Proof.
  intros Hinv Ht HF. pose proof (page_in info p0 n d k Hinfo Hk) as Hp. pose proof (slot_in info p0 n d k Hinfo Hk) as Hti.
  destruct (page_split info p0 n d k Hinfo Hk) as (Ep & _ & Hj & Ha & Hi).
  pose proof Hinv as [Hm Hs]. destruct (Hs t Hti) as [[_ Htab]|(Ht' & _)]; [|by rewrite Ht in Ht']. specialize (Htab _ Hj) as Htj.
  unfold handle_page_table. destruct (at_addr info p0 n d Hinfo k ltac:(lia)) as [Eaddr _]. rewrite Eaddr, idx_slot, idx_sub by done. unfold RGTLB_TO_PGTLB.
  rewrite pgtlb_unmap_from.
  2: { intros E. destruct (tab_invalid d _ _ _ Hm Htj E) as [_ Hnone]. specialize (Hnone _ Ha). cbv beta in Hnone.
       rewrite <- Ep in Hnone. rewrite Hnone in HF. by destruct HF. }
  rewrite Eaddr, idx_page by done.
  destruct (unmap_from_ok false d _ _ _ (p mod 4096) (unlink_page (invalid_page_dma d)) Hm Htj Ha ltac:(lia) (unlinks_page _ _ eq_refl (mo_inv d Hm)))
    as (d' & -> & Hm' & Htab' & Hu); [cbv beta; by rewrite <- Ep|].
  cbn [mbind option_bind]. eexists _, _, _. split; [reflexivity|]. apply unmap_post_one; [apply Hu| |by eapply range_at_page|].
  2: { intros t' Hrt Hd. destruct (decide (t' = t)) as [->|Hne]; [|by rewrite (u_desc _ _ _ _ Hu) by lia].
       rewrite (range_at_page _ _ _ _ Hu Hj Ht) in Hrt. unfold range_at in Hrt. by rewrite Ht in Hrt. }
  eapply dec_upd; [exact Hinv|done|exact Hu|done|done| |].
  - intros q Hq. unfold fupd. rewrite (proj2 (Z.eqb_neq q p)); [done|]. zlia.
  - rewrite Ep at 1. by eapply slot_page_upd.
Qed.

Lemma range_unmap_step (F : Z -> option page_entry) : dec_inv d F -> pte_type (slot d t 0) = RANGE_TABLE -> is_Some (F p) ->
  (forall lo hi, range_at d t = Some (lo, hi) -> lo <= p <= hi -> p = lo /\ hi < p0 + n) ->
  exists r off d', handle_range_table dma_alloc ubc_feature d (k * SZ_1M) info false = Some (r, off, d') /\ unmap_post F r off d'.
Proof.
  intros Hinv Hty HF Hcut. pose proof (page_in info p0 n d k Hinfo Hk) as Hp. pose proof (slot_in info p0 n d k Hinfo Hk) as Hti.
  destruct (page_split info p0 n d k Hinfo Hk) as (_ & Ep & _ & _ & _). pose proof (Z.mod_pos_bound p 32768 ltac:(lia)) as Ha.
  pose proof Hinv as [Hm Hs]. destruct (Hs t Hti) as [[Ht' _]|(_ & Hbl & Hr & Htab & Hn)]; [by rewrite Hty in Ht'|].
  destruct (range_slot d F t Hinv Hti Hty) as (_ & _ & _ & Hb0 & Hl0). pose proof Hinfo as [I1 I2 I3 I4 I5 I6].
  unfold range_at in Hcut. rewrite Hty in Hcut. specialize (Hcut _ _ eq_refl).
  unfold handle_range_table. destruct (at_addr info p0 n d Hinfo k ltac:(lia)) as [Eaddr _]. rewrite Eaddr, idx_slot by done.
  unfold rgtlb_unmap. rewrite Eaddr, idx_rg, idx_rg_page by done. destruct (Z.eqb_spec (p mod 32768) (rte_mem_base (slot d t))) as [Eb|Eb].
  - destruct (Hcut ltac:(lia)) as [_ Hhi]. set (m := rte_mem_limit (slot d t) - rte_mem_base (slot d t) + 1).
    assert (Eoff : u64 (k * SZ_1M + u64 (m * SZ_1M)) = (k + m) * SZ_1M).
    { unfold SZ_1M, PAGES in *. rewrite (uwrap_small 64 (m * _)) by lia. rewrite uwrap_small by lia. lia. }
    rewrite Eoff, I2, (proj2 (Z.leb_le _ _)) by (unfold SZ_1M; lia).
    destruct (range_unmap_ok d F t Hinv Hti Hty) as (r & d' & -> & Hres). cbn [mbind option_bind].
    eexists _, _, _. split; [reflexivity|]. destruct Hres as [(-> & Hpb & k0 & kept & Hc & Hinv' & Hrt & Hro & _)|(-> & Hc & Hinv' & Hrt & Hro & Hdo)]; (split; [exact Hc|]); [right|left].
    { split_and!; [done| |].
      - eexists _, _. split; [exact Hinv'|]. unfold fcut, fdel. split_and!.
        + intros q. destruct (_ && _); [by right|]. destruct (_ && _); [by right|by left].
        + intros q Hq. rewrite (proj2 (Z.eqb_neq (q / 32768) t)) by lia. cbn [andb]. destruct (_ && _) eqn:E; [|done].
          apply andb_prop in E as [?%Z.leb_le ?%Z.ltb_lt]. destruct Hq. zlia.
        + intros t'. destruct (decide (t' = t)) as [->|Hne]; [by right|left; by apply Hro].
      - exists (t * 32768 + rte_mem_limit (slot d t)). split_and!; [|lia|done].
        unfold range_at. rewrite Hty. cbn [Z.eqb Pos.eqb RANGE_TABLE]. do 2 f_equal; lia. }
    assert (Hinv2 : dec_inv d' (fdel F (t * 32768 + rte_mem_base (slot d t)) (rte_mem_limit (slot d t) - rte_mem_base (slot d t) + 1))).
    { eapply dec_ext; [|exact Hinv']. intros q _. unfold fcut. by rewrite andb_false_r. }
    split; [done|]. exists m. rewrite <- Eb, <- Ep in Hinv2. split_and!; [lia|lia|done|by rewrite Eb in Hinv2| |].
    2: { intros t' Hrt' Hd. destruct (decide (t' = t)) as [->|Hne]; [done|by rewrite Hdo]. }
    intros t'. destruct (decide (t' = t)) as [->|Hne]; [right|left; by apply Hro]. split; [|done].
    unfold range_at. rewrite Hty. cbn [Z.eqb Pos.eqb RANGE_TABLE]. do 2 f_equal; lia.
  - assert (Er : in_range (slot d t) (p mod 32768) = false).
    { destruct (in_range _ _) eqn:E; [|done]. apply andb_prop in E as [?%Z.leb_le ?%Z.leb_le]. destruct (Hcut ltac:(lia)). lia. }
    rewrite rgtlb_unmap_from.
    destruct (unmap_from_ok true d _ _ _ (p mod 32768) (set_pte_next (invalid_page_dma d)) Hm Htab Ha ltac:(lia) (unlinks_range _ _ (mo_inv d Hm)))
      as (d' & -> & Hm' & Htab' & Hu); [cbv beta; by rewrite Er, <- Ep|].
    cbn [mbind option_bind]. eexists _, _, _. split; [reflexivity|]. apply unmap_post_one; [apply Hu| |by eapply range_at_range|].
    2: { intros t' Hrt Hd. destruct (decide (t' = t)) as [->|Hne]; [|by rewrite (u_desc _ _ _ _ Hu) by lia].
         unfold tab_ok in Htab. rewrite Hd in Htab. destruct Htab as [_ Hnone]. specialize (Hnone _ Ha). cbv beta in Hnone.
         rewrite Er, <- Ep in Hnone. rewrite Hnone in HF. by destruct HF. }
    eapply (dec_upd true d d' F _ t 0); [exact Hinv|done|by rewrite Z.add_0_r|done|lia| |].
    + intros q Hq. unfold fupd. rewrite (proj2 (Z.eqb_neq q p)); [done|]. zlia.
    + rewrite Ep at 1. by eapply slot_range_upd.
Qed.

Lemma unmap_step (F : Z -> option page_entry) : dec_inv d F -> is_Some (F p) ->
  (forall lo hi, range_at d t = Some (lo, hi) -> lo <= p <= hi -> p = lo /\ hi < p0 + n) ->
  exists r off d', handle_step dma_alloc ubc_feature d (k * SZ_1M) info false = Some (r, off, d') /\ unmap_post F r off d'.
Proof.
  intros Hinv HF Hcut. pose proof (page_in info p0 n d k Hinfo Hk) as Hp. pose proof (slot_in info p0 n d k Hinfo Hk) as Hti.
  pose proof Hinv as [_ Hs]. unfold handle_step. destruct (at_addr info p0 n d Hinfo k ltac:(lia)) as [-> _]. rewrite idx_slot by done.
  destruct (Hs t Hti) as [[Ht _]|(Ht & _)]; rewrite Ht; cbn [Z.eqb Pos.eqb PAGE_TABLE RANGE_TABLE]; [|by apply range_unmap_step].
  destruct (_ =? _); [|by apply page_unmap_step]. unfold handle_pgrg_table. cbn [negb]. by apply page_unmap_step.
Qed.
End At.
End Unmap.
End Lost.
