(* ===== verification/UbDecoderApi.v ===== *)
(** * What the address decoder promises

    [hi_decoder_map] and [hi_decoder_unmap] against the mappings of the window: a map from the
    first page of each to its number of pages and its target. *)

From S2P Require Import Prelude UmmuQueue UmmuCmd UbDecoder UbDecoderInv UbDecoderStep UbDecoderUnmap.

(** ** Requests for memory *)

(** A step asks for memory that is denied exactly when it returns [-ENOMEM], and then it ends. *)
Section Denied.
Context (dma_alloc : nat -> gset Z -> option Z) (ubc_feature : Z).
Definition den (r : Z) (d d' : ub_decoder) : Prop := denied d' = if r =? - ENOMEM then S (denied d) else denied d.

Lemma den_ok (d : ub_decoder) (r : Z) : r <> - ENOMEM -> den r d d.
Proof. intros Hr. unfold den. by rewrite (proj2 (Z.eqb_neq _ _) Hr). Qed.
Lemma den_trans (d d1 d' : ub_decoder) (r : Z) : denied d1 = denied d -> den r d1 d' -> den r d d'.
Proof. unfold den. by intros ->. Qed.
Lemma den_write (d d' : ub_decoder) (k i : Z) (e : page_entry) : write_entry d k i e = Some d' -> denied d' = denied d.
Proof. unfold write_entry. destruct (mem d !! k); [|done]. cbn [mbind option_bind]. destruct (_ && _); [|done]. by intros [= <-]. Qed.

Lemma den_copy_rg (d d' : ub_decoder) (ti : Z) (rg : region) (idx r : Z) : copy_rg_to_pg dma_alloc d ti rg idx = (r, d') -> den r d d'.
Proof.
  unfold copy_rg_to_pg, dmam_alloc. destruct (dma_alloc _ _) as [k|]; [|by intros [= <- <-]]. destruct (foldl _ _ _) as [n f]. by intros [= <- <-].
Qed.
Lemma den_copy (ti : Z) (rg : region) (l : list Z) : forall d d' r, copy_loop dma_alloc d ti rg l = (r, d') -> den r d d'.
Proof.
  induction l as [|idx l IH]; intros d d' r; cbn [copy_loop]; [by intros [= <- <-]|]. destruct (has_entries rg idx); [|apply IH].
  destruct (copy_rg_to_pg _ _ _ _ _) as [r1 d1] eqn:E. apply den_copy_rg in E. destruct (ctrue r1) eqn:Er; [by intros [= <- <-]|]. apply ctrue_z in Er. subst r1.
  intros H. eapply den_trans; [exact E|by apply IH].
Qed.
Lemma den_to_range (d d' : ub_decoder) (ti r : Z) : rgtlb_unmap_to_range dma_alloc d ti = Some (r, d') -> den r d d'.
Proof.
  unfold rgtlb_unmap_to_range. cbv zeta. set (d1 := reset_slot _ _). assert (E1 : denied d1 = denied d) by done. clearbody d1.
  destruct (page_base _) as [k|]; [|intros [= <- <-]; by apply (den_trans _ d1), den_ok]. destruct (mem d1 !! k) as [rg|]; [|done]. cbn [mbind option_bind].
  destruct (copy_loop _ _ _ _ _) as [r2 d2] eqn:E. apply den_copy in E. destruct (ctrue r2) eqn:Er; intros [= <- <-].
  - by apply (den_trans _ d1).
  - apply ctrue_z in Er. subst r2. by apply (den_trans _ d1).
Qed.
Lemma den_map_page (d d' : ub_decoder) (i r : Z) (info : decoder_map_info) (off : Z) : pgtlb_map_to_page dma_alloc ubc_feature d i info off = Some (r, d') -> den r d d'.
Proof.
  unfold pgtlb_map_to_page. assert (H : exists r1 d1, match page_base (desc_base d i) with None => pgtlb_alloc_page dma_alloc d i | Some _ => (0, d) end = (r1, d1) /\ den r1 d d1).
  { destruct (page_base _); [by exists 0, d|]. unfold pgtlb_alloc_page, dmam_alloc. destruct (dma_alloc _ _); by eexists _, _. }
  destruct H as (r1 & d1 & -> & E). destruct (ctrue r1) eqn:Er; [by intros [= <- <-]|]. apply ctrue_z in Er. subst r1. cbv zeta.
  destruct (page_base _) as [k|]; [|done]. cbn [mbind option_bind]. destruct (read_entry _ _ _) as [pg|]; [|done]. cbn [mbind option_bind].
  destruct (negb _); [intros [= <- <-]; by apply (den_trans _ d1), den_ok|]. destruct (write_entry _ _ _ _) as [d2|] eqn:Ew; [|done]. apply den_write in Ew. cbn [mbind option_bind].
  intros [= <- <-]. by apply (den_trans _ d1).
Qed.
Lemma den_unmap_page (d d' : ub_decoder) (i r : Z) (info : decoder_map_info) (off : Z) : pgtlb_unmap_to_page d i info off = Some (r, d') -> den r d d'.
Proof.
  unfold pgtlb_unmap_to_page. cbv zeta. destruct (_ =? _); [intros [= <- <-]; by apply den_ok|]. destruct (page_base _) as [k|]; [|done]. cbn [mbind option_bind]. destruct (read_entry _ _ _) as [pg|]; [|done]. cbn [mbind option_bind].
  destruct (negb _); [intros [= <- <-]; by apply den_ok|]. destruct (write_entry _ _ _ _) as [d2|] eqn:Ew; [|done]. apply den_write in Ew. cbn [mbind option_bind]. intros [= <- <-]. by destruct (_ =? _).
Qed.
Lemma den_rg_page (d d' : ub_decoder) (ti i r : Z) : rgtlb_unmap_to_page d ti i = Some (r, d') -> den r d d'.
Proof.
  unfold rgtlb_unmap_to_page. cbv zeta. destruct (page_base _) as [k|]; [|done]. cbn [mbind option_bind]. destruct (read_entry _ _ _) as [pg|]; [|done]. cbn [mbind option_bind].
  destruct (negb _); [intros [= <- <-]; by apply den_ok|]. destruct (write_entry _ _ _ _) as [d2|] eqn:Ew; [|done]. apply den_write in Ew. cbn [mbind option_bind]. intros [= <- <-]. by destruct (_ =? _).
Qed.
Lemma den_rg_map (d d' : ub_decoder) (ti r off : Z) (info : decoder_map_info) (offset : Z) : rgtlb_map dma_alloc ubc_feature d ti info offset = Some (r, off, d') -> den r d d'.
Proof.
  unfold rgtlb_map. cbv zeta. destruct (_ && _); [intros [= <- <- <-]; by apply den_ok|].
  assert (H : exists r1 d1, match page_base (desc_base d (ti * RGTLB_TO_PGTLB)) with None => rgtlb_alloc_page dma_alloc d ti | Some _ => (0, d) end = (r1, d1) /\ (r1 = 0 \/ r1 = - ENOMEM) /\ den r1 d d1).
  { destruct (page_base _); [exists 0, d; split_and!; try done; by left|]. unfold rgtlb_alloc_page, dmam_alloc. destruct (dma_alloc _ _); eexists _, _; (split; [done|]); split; try done; [by left|by right]. }
  destruct H as (r1 & d1 & -> & Hr1 & E). destruct (ctrue r1) eqn:Er.
  { intros [= <- <- <-]. destruct Hr1 as [-> | ->]; [done|exact E]. }
  apply ctrue_z in Er. subst r1. destruct (page_base _) as [k|]; [|done]. cbn [mbind option_bind]. destruct (read_entry _ _ _) as [pg|]; [|done]. cbn [mbind option_bind].
  destruct (negb _); [intros [= <- <- <-]; by apply (den_trans _ d1), den_ok|]. destruct (write_entry _ _ _ _) as [d2|] eqn:Ew; [|done]. apply den_write in Ew. cbn [mbind option_bind].
  intros [= <- <- <-]. by apply (den_trans _ d1).
Qed.
Lemma den_page_table (d d' : ub_decoder) (off off' r : Z) (info : decoder_map_info) (m : bool) : handle_page_table dma_alloc ubc_feature d off info m = Some (r, off', d') -> den r d d'.
Proof.
  unfold handle_page_table. cbv zeta. destruct m.
  - destruct (pgtlb_map_to_page _ _ _ _ _ _) as [[r1 d1]|] eqn:E; [|done]. apply den_map_page in E. cbn [mbind option_bind]. by intros [= <- <- <-].
  - destruct (pgtlb_unmap_to_page _ _ _ _) as [[r1 d1]|] eqn:E; [|done]. apply den_unmap_page in E. cbn [mbind option_bind]. by intros [= <- <- <-].
Qed.
Lemma den_step (d d' : ub_decoder) (off off' r : Z) (info : decoder_map_info) (m : bool) : handle_step dma_alloc ubc_feature d off info m = Some (r, off', d') -> den r d d'.
Proof.
  unfold handle_step. cbv zeta. destruct (_ =? RANGE_TABLE).
  - unfold handle_range_table. destruct m; [apply den_rg_map|]. unfold rgtlb_unmap. cbv zeta. destruct (_ =? _).
    + destruct (_ <=? _); [|intros [= <- <- <-]; by apply den_ok]. destruct (rgtlb_unmap_to_range _ _ _) as [[r1 d1]|] eqn:E; [|done]. apply den_to_range in E. cbn [mbind option_bind]. by intros [= <- <- <-].
    + destruct (rgtlb_unmap_to_page _ _ _) as [[r1 d1]|] eqn:E; [|done]. apply den_rg_page in E. cbn [mbind option_bind]. by intros [= <- <- <-].
  - destruct (_ =? _); [|apply den_page_table]. unfold handle_pgrg_table. destruct (negb m); [apply den_page_table|]. cbv zeta. destruct (_ || _); [apply den_page_table|]. destruct (existsb _ _); [apply den_page_table|].
    destruct (fill_range_table _ _ _ _ _) as [o d1] eqn:E. unfold fill_range_table in E. destruct (if _ <=? _ then _ else _) as [ml o']. intros [= <- <- <-]. injection E as _ <-. done.
Qed.

Lemma den_loop_unmap (rb : Z -> ub_decoder -> option ub_decoder) (info : decoder_map_info) (fuel : nat) : forall d d' off r,
  handle_loop dma_alloc ubc_feature rb fuel d off info false = Some (r, d') -> den r d d'.
Proof.
  induction fuel as [|fuel IH]; intros d d' off r; cbn [handle_loop]; [done|]. destruct (_ <=? _); [by intros [= <- <-]|].
  destruct (handle_step _ _ _ _ _ _) as [[[r1 o1] d1]|] eqn:E; [|done]. apply den_step in E. cbn [mbind option_bind]. destruct (ctrue r1) eqn:Er; [by intros [= <- <-]|].
  apply ctrue_z in Er. subst r1. intros H. eapply den_trans; [exact E|by eapply IH].
Qed.
Lemma den_request (q_base : Z) (hw : hw_answers) (d : ub_decoder) (addr size op : Z) : denied (snd (hi_decoder_cmd_request q_base hw d addr size op)) = denied d.
Proof. unfold hi_decoder_cmd_request. destruct (wait_for_cmdq_free _ _ _) as [r q]. by destruct (ctrue r). Qed.
Lemma den_unmap (q_base : Z) (hw : hw_answers) (d d' : ub_decoder) (addr size r : Z) : hi_decoder_unmap dma_alloc ubc_feature q_base hw d addr size = Some (r, d') -> (denied d <= denied d')%nat.
Proof.
  unfold hi_decoder_unmap. cbv zeta. destruct (create_matt d).
  - unfold handle_table. destruct (handle_loop _ _ _ _ _ _ _ _) as [[r1 d1]|] eqn:E; [|done]. apply den_loop_unmap in E. unfold den in E. cbn [mbind option_bind]. destruct (ctrue r1).
    + intros [= <- <-]. destruct (_ =? _); lia.
    + intros [= H]. pose proof (den_request q_base hw d1 addr (ALIGN size SZ_1M) TLBI_PARTIAL) as Hr. rewrite H in Hr. cbn [snd] in Hr. destruct (_ =? _); lia.
  - intros [= H]. pose proof (den_request q_base hw d addr (ALIGN size SZ_1M) TLBI_PARTIAL) as Hr. rewrite H in Hr. cbn [snd] in Hr. lia.
Qed.

(** A mapping returns [-ENOMEM] only if memory was denied during the call, and 0 only if none was. *)
Lemma den_map (q_base : Z) (hw : hw_answers) (d d' : ub_decoder) (info : decoder_map_info) (r : Z) : hi_decoder_map dma_alloc ubc_feature q_base hw d info = Some (r, d') ->
  (r = - ENOMEM -> (denied d < denied d')%nat) /\ (r = 0 -> denied d' = denied d).
Proof.
  unfold hi_decoder_map. cbv zeta. destruct (_ || _); [by intros [= <- <-]|]. destruct (create_matt d); [|by intros [= <- <-]]. unfold handle_table. set (i := set_info_size _ _). set (rb := fun _ _ => _).
  assert (Hloop : forall fuel d off, handle_loop dma_alloc ubc_feature rb fuel d off i true = Some (r, d') -> (r = - ENOMEM -> (denied d < denied d')%nat) /\ (r = 0 -> denied d' = denied d)); [|apply Hloop].
  clear d. induction fuel as [|fuel IH]; intros d off; cbn [handle_loop]; [done|]. destruct (_ <=? _); [by intros [= <- <-]|].
  destruct (handle_step _ _ _ _ _ _) as [[[r1 o1] d1]|] eqn:E; [|done]. apply den_step in E. unfold den in E. cbn [mbind option_bind]. destruct (ctrue r1) eqn:Er.
  - unfold rb. destruct (hi_decoder_unmap _ _ _ _ _ _ _) as [[r2 d2]|] eqn:Eu; [|done]. apply den_unmap in Eu. cbn [mbind option_bind]. intros [= -> ->]. split.
    + intros ->. change (- ENOMEM =? - ENOMEM) with true in E. cbv iota in E. lia.
    + intros ->. done.
  - apply ctrue_z in Er. subst r1. change (0 =? - ENOMEM) with false in E. cbv iota in E. intros H. rewrite <- E. by eapply IH.
Qed.
End Denied.

Section Lost.
Context {X : gset Z}.
Abbreviation mem_ok := (mem_okX X).
Abbreviation dec_inv := (dec_invX X).

(** ** Loops *)

(** A range is a part of its slot that is mapped. *)
Lemma range_mapped (d : ub_decoder) (F : Z -> option page_entry) (t lo hi : Z) : dec_inv d F -> 0 <= t < 512 -> range_at d t = Some (lo, hi) ->
  t * 32768 <= lo <= hi /\ hi < t * 32768 + 32768 /\ forall q, lo <= q <= hi -> is_Some (F q).
Proof.
  intros Hinv Ht Hr. unfold range_at in Hr. destruct (Z.eqb_spec (pte_type (slot d t 0)) RANGE_TABLE) as [Hty|]; [|done]. injection Hr as <- <-.
  destruct (range_slot d F t Hinv Ht Hty) as (H1 & _ & _ & H2 & H3). split_and!; [lia|lia|lia|].
  destruct Hinv as [_ Hs]. destruct (Hs t Ht) as [[Ht' _]|(_ & _ & Hq & _)]; [by rewrite Hty in Ht'|].
  intros q Hb. specialize (Hq (q - t * 32768) ltac:(lia)). replace (t * 32768 + (q - t * 32768)) with q in Hq by lia. by rewrite Hq.
Qed.

Lemma cfg_refl (d : ub_decoder) : same_cfg d d.
Proof. done. Qed.
Lemma cfg_trans (d d1 d2 : ub_decoder) : same_cfg d d1 -> same_cfg d1 d2 -> same_cfg d d2.
Proof. intros (? & ? & ? & ? & ? & ?) (? & ? & ? & ? & ? & ?). unfold same_cfg. split_and!; congruence. Qed.
Lemma info_cfg (d d' : ub_decoder) (info : decoder_map_info) (p0 n : Z) : same_cfg d d' -> info_ok d info p0 n -> info_ok d' info p0 n.
Proof.
  intros (E & _) [H1 H2 H3 H4 H5 H6]. split; try done; unfold addr_of in *; rewrite E; done.
Qed.

Section Loops.
Context (dma_alloc : nat -> gset Z -> option Z) (ubc_feature : Z).
Hypothesis Halloc : forall n g k, dma_alloc n g = Some k -> (k ∉ g) /\ addr_ok k.

(** No range crosses the ends of the pages from [lo] to [hi]. *)
Definition uncut (d : ub_decoder) (lo hi : Z) : Prop := forall t a b q, 0 <= t < 512 -> range_at d t = Some (a, b) ->
  a <= q <= b -> lo <= q < hi -> lo <= a /\ b < hi.
(** The slots whose range is there hold nothing else. *)
Definition alone (d : ub_decoder) (lo hi : Z) : Prop := forall t a b, 0 <= t < 512 -> range_at d t = Some (a, b) ->
  lo <= a -> b < hi -> page_base (desc_base d (t * 8)) = None.

Lemma fdel_fdel (F : Z -> option page_entry) (lo m n q : Z) : 0 <= m <= n -> fdel (fdel F lo m) (lo + m) (n - m) q = fdel F lo n q.
Proof.
  intros Hm. unfold fdel. destruct (Z.leb_spec (lo + m) q), (Z.ltb_spec q (lo + m + (n - m))), (Z.leb_spec lo q), (Z.ltb_spec q (lo + m)), (Z.ltb_spec q (lo + n)); cbn; (done || lia).
Qed.

Lemma unmap_loop (info : decoder_map_info) (p0 n : Z) (rb : Z -> ub_decoder -> option ub_decoder) (fuel : nat) :
  forall d F k, info_ok d info p0 n -> 0 <= k <= n -> n - k < Z.of_nat fuel -> dec_inv d F ->
  (forall q, p0 + k <= q < p0 + n -> is_Some (F q)) -> uncut d (p0 + k) (p0 + n) ->
  exists r d', handle_loop dma_alloc ubc_feature rb fuel d (k * SZ_1M) info false = Some (r, d') /\ same_cfg d d' /\
    ((r = 0 /\ dec_inv d' (fdel F (p0 + k) (n - k)) /\
      forall t, range_at d' t = range_at d t \/ exists a b, range_at d t = Some (a, b) /\ p0 + k <= a /\ b < p0 + n /\ range_at d' t = None) \/
     (r = - ENOMEM /\ cut_to d d' F ((p0 + k) / 32768) ((p0 + n - 1) / 32768) /\ ~ alone d (p0 + k) (p0 + n))).
Proof.
  induction fuel as [|fuel IH]; intros d F k Hinfo Hk Hfuel Hinv HF Hcut; [lia|].
  cbn [handle_loop]. pose proof Hinfo as [I1 I2 I3 I4 I5 I6]. rewrite I2.
  destruct (Z.leb_spec (n * SZ_1M) (k * SZ_1M)) as [Hend|Hmore].
  { assert (k = n) as -> by (unfold SZ_1M in *; lia). eexists _, _. split; [done|]. split; [done|]. left. split_and!; [done| |by left].
    eapply dec_ext; [|exact Hinv]. intros q _. unfold fdel. destruct (_ && _) eqn:E; [|done]. apply andb_prop in E as [?%Z.leb_le ?%Z.ltb_lt]. lia. }
  assert (Hkn : 0 <= k < n) by (unfold SZ_1M in *; lia). pose proof (slot_in info p0 n d k Hinfo Hkn) as Hti.
  destruct (unmap_step dma_alloc Halloc ubc_feature info p0 n d k Hinfo Hkn F Hinv) as (r & off & d1 & -> & Hc & Hres).
  { apply HF. lia. }
  { intros a b Hab Hp. destruct (Hcut _ a b _ Hti Hab Hp ltac:(lia)). lia. }
  cbn [mbind option_bind]. destruct Hres as [(-> & m & Hm1 & Hm2 & -> & Hinv1 & Hr1 & Hd1)|(-> & Hfail & hi & Hhi & Hhi2 & Hpb)].
  - cbn [ctrue Z.eqb negb]. replace (k + m) with (k + m) by lia.
    destruct (IH d1 (fdel F (p0 + k) m) (k + m)) as (r & d' & -> & Hc' & Hres); [by eapply info_cfg|lia|lia|done| | |].
    + intros q Hq. unfold fdel. rewrite (proj2 (Z.ltb_ge q (p0 + k + m))) by lia. rewrite andb_false_r. apply HF. lia.
    + intros t a b q Ht Hab H1 H2. destruct (range_mapped d1 _ t a b Hinv1 Ht Hab) as (R1 & R2 & R3).
      assert (Hold : range_at d t = Some (a, b)) by (destruct (Hr1 t) as [<-|[_ E]]; [done|congruence]).
      destruct (Hcut t a b q Ht Hold H1 ltac:(lia)) as [H3 H4]. split; [|done].
      destruct (decide (p0 + (k + m) <= a)) as [|Hn]; [done|]. exfalso. specialize (R3 a ltac:(lia)). unfold fdel in R3.
      rewrite (proj2 (Z.leb_le _ a)), (proj2 (Z.ltb_lt a _)) in R3 by lia. by destruct R3.
    + eexists _, _. split; [done|]. split; [by eapply cfg_trans|]. destruct Hres as [(-> & Hinv' & Hr')|(-> & Hfail & Hna)]; [left|right].
      * split_and!; [done| |].
        -- eapply dec_ext; [|exact Hinv']. intros q _. replace (p0 + (k + m)) with (p0 + k + m) by lia.
           replace (n - (k + m)) with (n - k - m) by lia. apply fdel_fdel. lia.
        -- intros t. destruct (Hr1 t) as [E1|[E1 E2]].
           ++ rewrite <- E1. destruct (Hr' t) as [?|(a & b & ? & ? & ? & ?)]; [by left|]. right. exists a, b. split_and!; try done; lia.
           ++ right. exists (p0 + k), (p0 + k + m - 1). split_and!; [done|lia|lia|]. destruct (Hr' t) as [->|(a & b & Eab & _)]; congruence.
      * split_and!; [done| |].
        { destruct Hfail as (X' & F' & Hx & HF1 & HF2 & HR). exists X', F'. pose proof (Z.div_le_mono (p0 + k) (p0 + (k + m)) 32768 ltac:(lia) ltac:(lia)). split_and!; [done| | |].
          - intros q. destruct (HF1 q) as [->| ->]; [|by right]. unfold fdel. destruct (_ && _); [by right|by left].
          - intros q Hq. rewrite HF2 by lia. unfold fdel. destruct (_ && _) eqn:E; [|done]. apply andb_prop in E as [?%Z.leb_le ?%Z.ltb_lt]. destruct Hq.
            split; apply Z.div_le_mono; lia.
          - intros t. destruct (HR t) as [->| ->]; [|by right]. destruct (Hr1 t) as [->|[_ ->]]; [by left|by right]. }
        intros Hal. apply Hna. intros t a b Ht Hab H1 H2. apply Hd1; [congruence|].
        assert (Hold : range_at d t = Some (a, b)) by (destruct (Hr1 t) as [<-|[_ E]]; [done|congruence]).
        apply (Hal t a b Ht Hold); lia.
  - cbn [ctrue]. eexists _, _. split; [done|]. split; [done|]. right. split_and!; [done| |].
    { destruct Hfail as (X' & F' & Hx & HF1 & HF2 & HR). exists X', F'. split_and!; [done|done| |done]. intros q Hq. apply HF2. intros Hq'. apply Hq. assert (Eq : q / 32768 = (p0 + k) / 32768) by lia. rewrite Eq. split; [done|]. apply Z.div_le_mono; lia. }
    intros Hal. apply Hpb.
    apply (Hal _ _ _ Hti Hhi); lia.
Qed.

(** ** Unmapping *)

Context (q_base : Z) (hw : hw_answers).

(** All but the command queue and the tables. *)
Definition same_window (d d' : ub_decoder) : Prop :=
  mmio_base_addr d' = mmio_base_addr d /\ mmio_end_addr d' = mmio_end_addr d /\ rg_size d' = rg_size d /\
  create_matt d' = create_matt d /\ invalid_page_dma d' = invalid_page_dma d.

Lemma window_trans (d d1 d2 : ub_decoder) : same_window d d1 -> same_window d1 d2 -> same_window d d2.
Proof. intros (? & ? & ? & ? & ?) (? & ? & ? & ? & ?). unfold same_window. split_and!; congruence. Qed.
Lemma cfg_window (d d' : ub_decoder) : same_cfg d d' -> same_window d d'.
Proof. intros (? & ? & ? & ? & ? & ?). by unfold same_window. Qed.

Lemma cmd_request_frame (d : ub_decoder) (addr size op : Z) : exists r q,
  hi_decoder_cmd_request q_base hw d addr size op = (r, set_cmdq d q).
Proof.
  unfold hi_decoder_cmd_request. destruct (wait_for_cmdq_free _ _ _) as [r q]. destruct (ctrue r); by eexists _, _.
Qed.
Lemma dec_cmdq (d : ub_decoder) (F : Z -> option page_entry) (q : decoder_queue) : dec_inv d F -> dec_inv (set_cmdq d q) F.
Proof. intros [[M1 M2 M3 M4 M5 M6] Hs]. split; [by split|exact Hs]. Qed.

Lemma align_1M (k : Z) : 0 <= k < 2 ^ 43 -> ALIGN (k * SZ_1M) SZ_1M = k * SZ_1M.
Proof.
  intros Hk. unfold SZ_1M. rewrite align_pow2 by lia. change (2 ^ 20) with 1048576 in *.
  replace (k * 1048576 + (1048576 - 1)) with (1048575 + k * 1048576) by lia. rewrite Z.mod_add, Z.mod_small by lia. lia.
Qed.

Lemma handle_unmap (d : ub_decoder) (F : Z -> option page_entry) (addr size p0 n : Z) :
  create_matt d = true -> info_ok d (unmap_info addr (ALIGN size SZ_1M)) p0 n -> dec_inv d F ->
  (forall q, p0 <= q < p0 + n -> is_Some (F q)) -> uncut d p0 (p0 + n) ->
  exists r d', hi_decoder_unmap dma_alloc ubc_feature q_base hw d addr size = Some (r, d') /\ same_window d d' /\
    ((denied d' = denied d /\ dec_inv d' (fdel F p0 n) /\
      (exists d1, same_cfg d d1 /\ (r, d') = hi_decoder_cmd_request q_base hw d1 addr (n * SZ_1M) TLBI_PARTIAL) /\
      forall t, range_at d' t = range_at d t \/ exists a b, range_at d t = Some (a, b) /\ p0 <= a /\ b < p0 + n /\ range_at d' t = None) \/
     (r = - ENOMEM /\ denied d' = S (denied d) /\ cut_to d d' F (p0 / 32768) ((p0 + n - 1) / 32768) /\ ~ alone d p0 (p0 + n))).
Proof.
  intros Hmatt Hinfo Hinv HF Hcut. unfold hi_decoder_unmap. rewrite Hmatt. unfold handle_table.
  pose proof Hinfo as [_ I2 _ I4 _ _]. cbn [i_size unmap_info] in I2.
  destruct (unmap_loop (unmap_info addr (ALIGN size SZ_1M)) p0 n (fun _ d => Some d) (S (Z.to_nat (i_size (unmap_info addr (ALIGN size SZ_1M)) / SZ_1M + 1)))
    d F 0 Hinfo ltac:(lia)) as (r & d1 & E & Hc & Hres).
  { cbn [i_size unmap_info]. rewrite I2, Z.div_mul by (unfold SZ_1M; lia). lia. }
  { done. }
  { intros q Hq. apply HF. lia. }
  { by rewrite Z.add_0_r. }
  rewrite Z.mul_0_l, Z.add_0_r, Z.sub_0_r in *. rewrite E. cbn [mbind option_bind]. apply den_loop_unmap in E. unfold den in E.
  destruct Hres as [(-> & Hinv1 & Hr)|(-> & Hfail & Hna)].
  - cbn [ctrue Z.eqb negb pa i_size unmap_info]. rewrite I2. destruct (cmd_request_frame d1 addr (n * SZ_1M) TLBI_PARTIAL) as (r & q & Ereq).
    rewrite Ereq. eexists _, _. split; [done|]. split; [by apply cfg_window in Hc|]. left. split_and!; [done|by apply dec_cmdq| |done].
    by exists d1.
  - cbn [ctrue]. eexists _, _. split; [done|]. split; [by apply cfg_window|]. by right.
Qed.

(** ** Mapping *)

Section Map.
Context (info : decoder_map_info) (p0 n : Z) (d0 : ub_decoder) (F0 : Z -> option page_entry).
Hypothesis Hinfo0 : info_ok d0 info p0 n.
Hypothesis Huba : (SZ_1M | uba info).
Hypothesis Hinv0 : dec_inv d0 F0.
Hypothesis Hmatt : create_matt d0 = true.
Abbreviation added k := (fadd ubc_feature info p0 F0 p0 k).

(** The ranges after the first [k] pages: the old ones, and new ones for whole slots. *)
Definition ranges_to (d : ub_decoder) (k : Z) : Prop := forall t, 0 <= t < 512 -> range_at d t = range_at d0 t \/
  (range_at d0 t = None /\ exists a b, range_at d t = Some (a, b) /\ p0 <= a /\ b < p0 + k /\
     page_base (desc_base d (t * 8)) = None /\ (k = n \/ t < (p0 + k) / 32768)).
Definition free_to (k : Z) : Prop := forall q, p0 <= q < p0 + k -> F0 q = None.

Lemma added_out (k q : Z) : ~ p0 <= q < p0 + k -> added k q = F0 q.
Proof. intros Hq. unfold fadd. destruct (_ && _) eqn:E; [|done]. apply andb_prop in E as [?%Z.leb_le ?%Z.ltb_lt]. lia. Qed.
Lemma added_in (k q : Z) : p0 <= q < p0 + k -> added k q = Some (fill_page_entry ubc_feature info ((q - p0) * SZ_1M)).
Proof. intros Hq. unfold fadd. by rewrite (proj2 (Z.leb_le p0 q)), (proj2 (Z.ltb_lt q (p0 + k))) by lia. Qed.

(** An old range does not meet the pages of the request that were free. *)
Lemma old_range (k t a b q : Z) : free_to k -> 0 <= t < 512 -> range_at d0 t = Some (a, b) -> a <= q <= b -> ~ p0 <= q < p0 + k.
Proof.
  intros Hf Ht Hab Hq Hk. destruct (range_mapped d0 F0 t a b Hinv0 Ht Hab) as (_ & _ & R3).
  destruct (R3 q Hq) as [e He]. by rewrite Hf in He by lia.
Qed.

(** Undoing the first [k] pages. *)
Lemma rollback_ok (d : ub_decoder) (k : Z) : same_window d0 d -> 0 <= k <= n -> dec_inv d (added k) -> free_to k -> ranges_to d k ->
  exists r d', hi_decoder_unmap dma_alloc ubc_feature q_base hw d (pa info) (k * SZ_1M) = Some (r, d') /\ same_window d0 d' /\
    dec_inv d' F0 /\ forall t, 0 <= t < 512 -> range_at d' t = range_at d0 t.
Proof.
  intros Hw Hk Hinv Hf Hr. pose proof Hw as (W1 & _ & _ & W4 & _). destruct Hinfo0 as [I1 I2 I3 I4 I5 I6].
  assert (Hcut : uncut d p0 (p0 + k)).
  { intros t a b q Ht Hab H1 H2. destruct (Hr t Ht) as [E|(_ & a' & b' & E & ? & ? & _)]; [|rewrite Hab in E; injection E as -> ->; lia].
    rewrite E in Hab. by destruct (old_range k t a b q Hf Ht Hab H1). }
  assert (Hal : alone d p0 (p0 + k)).
  { intros t a b Ht Hab H1 H2. destruct (Hr t Ht) as [E|(_ & a' & b' & _ & _ & _ & ? & _)]; [|done].
    rewrite E in Hab. destruct (range_mapped d0 F0 t a b Hinv0 Ht Hab). destruct (old_range k t a b a Hf Ht Hab); lia. }
  destruct (handle_unmap d (added k) (pa info) (k * SZ_1M) p0 k) as (r & d' & E & Hw' & Hres).
  - congruence.
  - split; cbn [pa i_size unmap_info]; [|apply align_1M; unfold PAGES in I5; lia|lia|lia|lia|by rewrite W1].
    rewrite I1. unfold addr_of. by rewrite W1.
  - done.
  - intros q Hq. by rewrite added_in by lia.
  - done.
  - exists r, d'. split; [done|]. split; [by eapply window_trans|]. destruct Hres as [(_ & Hinv' & _ & Hr')|(_ & _ & _ & Hna)]; [|done].
    assert (HinvF : dec_inv d' F0).
    { eapply dec_ext; [|exact Hinv']. intros q _. unfold fdel. destruct (_ && _) eqn:Eq.
      - apply andb_prop in Eq as [?%Z.leb_le ?%Z.ltb_lt]. symmetry. apply Hf. lia.
      - apply added_out. intros ?. by rewrite (proj2 (Z.leb_le p0 q)), (proj2 (Z.ltb_lt q (p0 + k))) in Eq by lia. }
    split; [done|]. intros t Ht. destruct (Hr t Ht) as [E1|(E0 & a & b & E1 & Ha & Hb & _)].
    + destruct (Hr' t) as [E2|(a & b & E2 & Ha & Hb & _)]; [congruence|]. exfalso. rewrite E1 in E2.
      destruct (range_mapped d0 F0 t a b Hinv0 Ht E2). destruct (old_range k t a b a Hf Ht E2); lia.
    + rewrite E0. destruct (Hr' t) as [E2|(a' & b' & _ & _ & _ & E2)]; [|done]. exfalso. rewrite E1 in E2.
      destruct (range_mapped d' F0 t a b HinvF Ht E2) as (R1 & _ & R3). destruct (R3 a ltac:(lia)) as [e He]. rewrite Hf in He by lia. done.
Qed.

Lemma map_loop (fuel : nat) : forall d k, same_window d0 d -> 0 <= k <= n -> n - k < Z.of_nat fuel ->
  dec_inv d (added k) -> free_to k -> ranges_to d k ->
  exists r d', handle_loop dma_alloc ubc_feature (fun size d => '(_, d) ← hi_decoder_unmap dma_alloc ubc_feature q_base hw d (pa info) size; Some d)
      fuel d (k * SZ_1M) info true = Some (r, d') /\ same_window d0 d' /\
    ((r = 0 /\ free_to n /\ dec_inv d' (added n) /\ ranges_to d' n) \/
     (r <> 0 /\ dec_inv d' F0 /\ (forall t, 0 <= t < 512 -> range_at d' t = range_at d0 t) /\ (~ free_to n \/ r = - ENOMEM))).
Proof.
  induction fuel as [|fuel IH]; intros d k Hw Hk Hfuel Hinv Hf Hr; [lia|].
  cbn [handle_loop]. pose proof Hinfo0 as [I1 I2 I3 I4 I5 I6]. rewrite I2.
  destruct (Z.leb_spec (n * SZ_1M) (k * SZ_1M)) as [Hend|Hmore].
  { assert (k = n) as -> by (unfold SZ_1M in *; lia). eexists _, _. split; [done|]. split; [done|]. left. by split_and!. }
  assert (Hkn : 0 <= k < n) by (unfold SZ_1M in *; lia).
  assert (Hinfo : info_ok d info p0 n).
  { destruct Hw as (W1 & _). split; try done; unfold addr_of in *; by rewrite W1. }
  pose proof (slot_in info p0 n d k Hinfo Hkn) as Hti.
  destruct (map_step dma_alloc ubc_feature Halloc info p0 n d k Hinfo Hkn (added k) Huba Hinv) as (r & off & d1 & -> & Hc & Hres & Hdesc).
  cbn [mbind option_bind]. destruct Hres as [(-> & m & Hm1 & Hm2 & -> & Hnone & Hinv1 & Hr1)|(Hrn & Hinv1 & Hr1 & Hd1 & Hwhy)].
  - cbn [ctrue Z.eqb negb]. assert (Hf' : free_to (k + m)).
    { intros q Hq. destruct (decide (q < p0 + k)); [apply Hf; lia|]. rewrite <- (added_out k q) by lia. apply Hnone. lia. }
    apply IH; [by eapply window_trans; [|apply cfg_window]|lia|lia| |done|].
    + eapply dec_ext; [|exact Hinv1]. intros q _. unfold fadd.
      destruct (Z.leb_spec (p0 + k) q), (Z.ltb_spec q (p0 + k + m)), (Z.leb_spec p0 q), (Z.ltb_spec q (p0 + k)), (Z.ltb_spec q (p0 + (k + m))); cbn; (done || lia).
    + intros t Ht. pose proof (range_len_ok p0 n k Hkn) as HL. destruct (Hr1 t) as [E1|(-> & E1 & E2 & Em & Hpb)].
      * destruct (Hr t Ht) as [E|(E0 & a & b & Eab & Ha & Hb & Hpb & Hlast)]; [left; congruence|right].
        split; [done|]. exists a, b. destruct Hlast as [->|Hlt]; [lia|]. split_and!; [congruence|lia|lia| |].
        -- rewrite Hdesc by lia. done.
        -- right. apply Z.lt_le_trans with ((p0 + k) / 32768); [done|]. apply Z.div_le_mono; lia.
      * right. split; [destruct (Hr _ Ht) as [E|(E0 & _)]; [congruence|done]|]. exists (p0 + k), (p0 + k + m - 1).
        split_and!; [done|lia|lia|done|]. destruct (decide (k + m = n)) as [|Hne]; [by left|right].
        unfold range_len in Em. pose proof (Z.mod_pos_bound (p0 + k) 32768 ltac:(lia)). zlia.
  - rewrite (proj2 (ctrue_nz r) Hrn). destruct (rollback_ok d1 k) as (r' & d' & -> & Hw' & HinvF & HrF).
    + by eapply window_trans; [|apply cfg_window].
    + lia.
    + done.
    + done.
    + intros t Ht. rewrite Hr1, Hd1. by apply Hr.
    + cbn [mbind option_bind]. eexists _, _. split; [done|]. split; [done|]. right. split_and!; [done|done|done|].
      destruct Hwhy as [[e He]|Hfail]; [left|by right]. intros Hfree. rewrite added_out in He by lia. by rewrite Hfree in He by lia.
Qed.

Lemma handle_map (size : Z) : i_size info = ALIGN size SZ_1M -> 1 <= n -> addr_of d0 (p0 + n) - 1 <= mmio_end_addr d0 ->
  exists r d', hi_decoder_map dma_alloc ubc_feature q_base hw d0 (set_info_size info size) = Some (r, d') /\ same_window d0 d' /\
    ((r = 0 /\ free_to n /\ dec_inv d' (added n) /\ ranges_to d' n) \/
     (r <> 0 /\ dec_inv d' F0 /\ (forall t, 0 <= t < 512 -> range_at d' t = range_at d0 t) /\ (~ free_to n \/ r = - ENOMEM))).
Proof.
  intros Esz Hn Hend. unfold hi_decoder_map. change (i_size (set_info_size info size)) with size. rewrite <- Esz.
  assert (Einfo : set_info_size (set_info_size info size) (i_size info) = info) by (by destruct info). rewrite Einfo.
  pose proof Hinfo0 as [I1 I2 I3 I4 I5 I6]. rewrite I1, I2. unfold addr_of in *. unfold PAGES, SZ_1M in *.
  rewrite uwrap_small by lia. rewrite (proj2 (Z.ltb_ge _ (mmio_base_addr d0))) by lia.
  rewrite (proj2 (Z.ltb_ge (mmio_end_addr d0) _)) by lia. rewrite (proj2 (Z.ltb_ge _ (mmio_base_addr d0 + p0 * 2 ^ 20))) by lia.
  cbn [orb]. rewrite Hmatt. unfold handle_table. rewrite I2. unfold SZ_1M. rewrite Z.div_mul by lia.
  destruct (map_loop (S (Z.to_nat (n + 1))) d0 0) as (r & d' & E & Hres); [done|lia|lia| | | |].
  - eapply dec_ext; [|exact Hinv0]. intros q _. by rewrite added_out by lia.
  - intros q Hq. lia.
  - intros t Ht. by left.
  - exists r, d'. rewrite I1 in E. by split.
Qed.
End Map.
End Loops.
End Lost.

(** ** The specification *)

(** Mappings by their first page: the number of pages and the target. *)
Abbreviation maps := (gmap Z (Z * decoder_map_info)).

Definition apart (S : maps) : Prop := forall p1 n1 i1 p2 n2 i2, S !! p1 = Some (n1, i1) -> S !! p2 = Some (n2, i2) -> p1 <> p2 ->
  p1 + n1 <= p2 \/ p2 + n2 <= p1.

Section Spec.
Context (dma_alloc : nat -> gset Z -> option Z) (ubc_feature : Z) (q_base : Z).
Hypothesis Halloc : forall n g k, dma_alloc n g = Some k -> (k ∉ g) /\ addr_ok k.
Abbreviation entry_of i k := (fill_page_entry ubc_feature i (k * SZ_1M)).

(** The page [p] is mapped to [e]. *)
Definition target (S : maps) (p : Z) (e : page_entry) : Prop :=
  exists p0 n i, S !! p0 = Some (n, i) /\ p0 <= p < p0 + n /\ e = entry_of i (p - p0).
Definition covered (S : maps) (p : Z) : Prop := exists p0 n i, S !! p0 = Some (n, i) /\ p0 <= p < p0 + n.

(** The hardware sends accesses where the mappings say, and the pages [L] that an unmapping left behind; no others. *)
Definition decodes_exactly (d : ub_decoder) (S : maps) (L : Z -> option page_entry) : Prop :=
  forall p e, 0 <= p < PAGES -> decode d p = Some e <-> target S p e \/ L p = Some e.

(** A window the hardware can decode, whose table the driver owns. *)
Definition window_ok (d : ub_decoder) : Prop :=
  create_matt d = true /\ 0 <= mmio_base_addr d /\ mmio_base_addr d + PAGES * SZ_1M < 2 ^ 64 /\
  mmio_end_addr d < mmio_base_addr d + PAGES * SZ_1M.

(** The table holds the mappings [S], the pages [L] of former mappings, and the memory [X] is lost. *)
Definition decoder_holds (X : gset Z) (d : ub_decoder) (S : maps) (L : Z -> option page_entry) : Prop :=
  window_ok d /\ apart S /\ (forall p0 n i, S !! p0 = Some (n, i) -> 0 <= p0 /\ 1 <= n /\ p0 + n <= PAGES) /\
  (exists F, dec_invX X d F /\ forall p e, 0 <= p < PAGES -> F p = Some e <-> target S p e \/ L p = Some e) /\
  (forall t a b, 0 <= t < 512 -> range_at d t = Some (a, b) -> (exists p0 n i, S !! p0 = Some (n, i) /\ p0 <= a /\ b < p0 + n) \/ forall q, a <= q <= b -> is_Some (L q)) /\
  forall p e, L p = Some e -> ~ covered S p.

(** A request for the [n] pages from [p0] on. *)
Definition request_ok (d : ub_decoder) (i : decoder_map_info) (p0 n : Z) : Prop :=
  pa i = addr_of d p0 /\ ALIGN (i_size i) SZ_1M = n * SZ_1M /\ 0 <= p0 /\ 1 <= n /\
  addr_of d (p0 + n) - 1 <= mmio_end_addr d /\ (SZ_1M | uba i).

Lemma holds_decodes (X : gset Z) (d : ub_decoder) (S : maps) (L : Z -> option page_entry) : decoder_holds X d S L -> decodes_exactly d S L.
Proof. intros (_ & _ & _ & (F & Hinv & HF) & _) p e Hp. rewrite (decode_ok d F p Hinv Hp). by apply HF. Qed.

Lemma window_same (d d' : ub_decoder) : same_window d d' -> window_ok d -> window_ok d'.
Proof. intros (E1 & E2 & E3 & E4 & E5) (W1 & W2 & W3 & W4). unfold window_ok. by rewrite E1, E2, E4. Qed.

Lemma request_in (d : ub_decoder) (i : decoder_map_info) (p0 n : Z) : window_ok d -> request_ok d i p0 n -> p0 + n <= PAGES.
Proof. intros (_ & _ & _ & W) (_ & _ & _ & _ & R & _). unfold addr_of, PAGES, SZ_1M in *. lia. Qed.

Lemma target_insert (S : maps) (p0 n : Z) (i : decoder_map_info) (p : Z) (e : page_entry) : S !! p0 = None ->
  target (<[p0 := (n, i)]> S) p e <-> (p0 <= p < p0 + n /\ e = entry_of i (p - p0)) \/ target S p e.
Proof.
  intros Hn. unfold target. split.
  - intros (q & m & j & [[<- [= <- <-]]|[Hne Hq]]%lookup_insert_Some & Hp & He); [by left|right; by exists q, m, j].
  - intros [[Hp He]|(q & m & j & Hq & Hp & He)]; [exists p0, n, i; by rewrite lookup_insert_eq|]. exists q, m, j.
    rewrite lookup_insert_ne; [done|]. intros <-. congruence.
Qed.

(** The pages of other mappings stay when one goes. *)
Lemma target_delete (S : maps) (p0 n : Z) (i : decoder_map_info) (p : Z) (e : page_entry) : apart S -> S !! p0 = Some (n, i) ->
  target (delete p0 S) p e <-> ~ p0 <= p < p0 + n /\ target S p e.
Proof.
  intros Ha H0. unfold target. split.
  - intros (q & m & j & [Hne Hq]%lookup_delete_Some & Hp & He). split; [|by exists q, m, j].
    destruct (Ha _ _ _ _ _ _ H0 Hq Hne); lia.
  - intros [Hout (q & m & j & Hq & Hp & He)]. exists q, m, j. rewrite lookup_delete_ne; [done|]. intros <-. rewrite H0 in Hq.
    injection Hq as <- <-. done.
Qed.

Lemma target_covered (S : maps) (p : Z) (e : page_entry) : target S p e -> covered S p.
Proof. intros (p0 & n & i & H1 & H2 & _). by exists p0, n, i. Qed.

Lemma map_holds (X : gset Z) (hw : hw_answers) (d : ub_decoder) (S : maps) (L : Z -> option page_entry) (i : decoder_map_info) (p0 n : Z) : decoder_holds X d S L -> request_ok d i p0 n ->
  exists r d', hi_decoder_map dma_alloc ubc_feature q_base hw d i = Some (r, d') /\ same_window d d' /\
    ((r = 0 /\ (forall p e, p0 <= p < p0 + n -> ~ (target S p e \/ L p = Some e)) /\ decoder_holds X d' (<[p0 := (n, i)]> S) L) \/
     (r <> 0 /\ decoder_holds X d' S L /\ ((exists p e, p0 <= p < p0 + n /\ (target S p e \/ L p = Some e)) \/ r = - ENOMEM))).
Proof.
  intros Hh Hreq. pose proof Hh as (Hw & Hap & Hin & (F & Hinv & HF) & Hrg & HL). pose proof Hreq as (R1 & R2 & R3 & R4 & R5 & R6).
  pose proof (request_in d i p0 n Hw Hreq) as Hpg. pose proof Hw as (Wm & W0 & W1 & W2).
  set (i' := set_info_size i (n * SZ_1M)). assert (Ei : set_info_size i' (i_size i) = i) by (by destruct i).
  assert (Hinfo : info_ok d i' p0 n) by (split; try done; lia).
  destruct (handle_map dma_alloc ubc_feature Halloc q_base hw i' p0 n d F Hinfo R6 Hinv Wm (i_size i) (eq_sym R2) R4 R5) as (r & d' & E & Hwin & Hres).
  rewrite Ei in E. exists r, d'. split; [done|]. split; [done|]. destruct Hres as [(-> & Hfree & Hinv' & Hr')|(Hr & Hinv' & Hr' & Hwhy)]; [left|right].
  - assert (Hno : forall p e, p0 <= p < p0 + n -> ~ (target S p e \/ L p = Some e)).
    { intros p e Hp Ht. apply HF in Ht; [|lia]. by rewrite Hfree in Ht. }
    assert (Hmeet : forall q m j, S !! q = Some (m, j) -> p0 + n <= q \/ q + m <= p0).
    { intros q m j Hq. destruct (Hin _ _ _ Hq). destruct (decide (p0 + n <= q \/ q + m <= p0)) as [|Hn]; [done|]. exfalso.
      apply (Hno (Z.max p0 q) (entry_of j (Z.max p0 q - q)) ltac:(lia)). left. exists q, m, j. split_and!; [done|lia|lia|done]. }
    assert (Hnew : S !! p0 = None).
    { destruct (S !! p0) as [[m j]|] eqn:E0; [|done]. destruct (Hin _ _ _ E0). destruct (Hmeet _ _ _ E0); lia. }
    split_and!; [done|done|]. split_and!; [by eapply window_same| | | | |].
    + intros p1 n1 i1 p2 n2 i2 [[<- [= <- <-]]|[N1 H1]]%lookup_insert_Some [[<- E2]|[N2 H2]]%lookup_insert_Some Hne; [done| |injection E2 as <- <-|by eapply Hap].
      * by eapply Hmeet.
      * destruct (Hmeet _ _ _ H1); [by right|by left].
    + intros p1 n1 i1 [[<- [= <- <-]]|[N1 H1]]%lookup_insert_Some; [lia|by eapply Hin].
    + eexists. split; [exact Hinv'|]. intros p e Hp. rewrite target_insert by done. destruct (decide (p0 <= p < p0 + n)) as [Hi|Ho].
      * rewrite added_in by done. split; [intros [= <-]; by left; left|]. intros [[[_ ->]|Ht]|Ht]; [done|destruct (Hno p e Hi); by left|destruct (Hno p e Hi); by right].
      * rewrite added_out, HF by done. intuition.
    + intros t a b Ht Hab. destruct (Hr' t Ht) as [E0|(_ & a' & b' & E0 & ? & ? & _)].
      * rewrite E0 in Hab. destruct (Hrg t a b Ht Hab) as [(q & m & j & Hq & ? & ?)|?]; [left|by right]. exists q, m, j. rewrite lookup_insert_ne; [done|].
        intros <-. congruence.
      * left. rewrite Hab in E0. injection E0 as <- <-. exists p0, n, i. by rewrite lookup_insert_eq.
    + intros p e Hp (q & m & j & [[<- [= <- <-]]|[_ Hq]]%lookup_insert_Some & Hc); [apply (Hno p e Hc); by right|apply (HL p e Hp); by exists q, m, j].
  - split_and!; [done| |].
    + split_and!; [by eapply window_same|done|done|by exists F| |done]. intros t a b Ht. rewrite Hr' by done. by apply Hrg.
    + destruct Hwhy as [Hnf|?]; [left|by right].
      destruct (decide (Forall (fun q => F q = None) (seqZ p0 n))) as [Hall|Hex].
      * destruct Hnf. intros q Hq. rewrite Forall_forall in Hall. apply Hall, elem_of_seqZ. lia.
      * apply not_Forall_Exists, Exists_exists in Hex as (q & Hq%elem_of_seqZ & Hs); [|apply _]. cbn in Hs.
        destruct (F q) as [e|] eqn:Eq; [|done]. exists q, e. split; [lia|]. apply HF; [lia|done].
Qed.

(** A range that meets a mapping lies inside of it. *)
Lemma mapping_uncut (X : gset Z) (d : ub_decoder) (S : maps) (L : Z -> option page_entry) (p0 n : Z) (i : decoder_map_info) : decoder_holds X d S L -> S !! p0 = Some (n, i) -> uncut d p0 (p0 + n).
Proof.
  intros (_ & Hap & _ & _ & Hrg & HL) H0 t a b q Ht Hab H1 H2. destruct (Hrg t a b Ht Hab) as [(p1 & n1 & i1 & Hp1 & ? & ?)|Hl].
  - destruct (decide (p0 = p1)) as [<-|Hne]; [rewrite H0 in Hp1; injection Hp1 as <- <-; lia|].
    destruct (Hap _ _ _ _ _ _ H0 Hp1 Hne); lia.
  - exfalso. destruct (Hl q H1) as [e He]. apply (HL q e He). by exists p0, n, i.
Qed.

(** The mappings without a slot of 32 GB in common with the [n] pages from [p0] on. *)
Definition clear_of_slots (p0 n : Z) (x : Z * (Z * decoder_map_info)) : Prop :=
  (fst x + fst (snd x) - 1) / 32768 < p0 / 32768 \/ (p0 + n - 1) / 32768 < fst x / 32768.
#[global] Instance clear_of_slots_dec (p0 n : Z) (x : Z * (Z * decoder_map_info)) : Decision (clear_of_slots p0 n x).
Proof. unfold clear_of_slots. apply _. Defined.
Definition spared (p0 n : Z) (S : maps) : maps := filter (clear_of_slots p0 n) S.

(** What an unmapping may leave that ran out of memory: the mappings beside its slots, and some pages of the others. *)
Lemma spared_holds (X : gset Z) (d d' : ub_decoder) (S : maps) (L : Z -> option page_entry) (F : Z -> option page_entry) (p0 n : Z) :
  decoder_holds X d S L -> same_window d d' -> dec_invX X d F -> cut_to d d' F (p0 / 32768) ((p0 + n - 1) / 32768) ->
  exists X' L', decoder_holds X' d' (spared p0 n S) L' /\ (forall p e, 0 <= p < PAGES -> L' p = Some e -> target S p e \/ L p = Some e) /\
    (forall p, 0 <= p < PAGES -> decode d' p = decode d p \/ decode d' p = None) /\
    forall p, 0 <= p < PAGES -> ~ p0 / 32768 <= p / 32768 <= (p0 + n - 1) / 32768 -> decode d' p = decode d p.
Proof.
  intros Hh Hwin HinvF (X' & F' & Hinv' & HF1 & HF2 & HR). pose proof Hh as (Hw & Hap & Hin & (F0 & Hinv & HF0) & Hrg & HL).
  assert (HF : forall p e, 0 <= p < PAGES -> F p = Some e <-> target S p e \/ L p = Some e).
  { intros p e Hp. rewrite <- (decode_ok d F p HinvF Hp). by apply (holds_decodes X). }
  assert (Hsub : forall q m j, spared p0 n S !! q = Some (m, j) -> S !! q = Some (m, j) /\ clear_of_slots p0 n (q, (m, j))) by (intros q m j [? ?]%map_lookup_filter_Some; done).
  assert (Hcov : forall p, covered (spared p0 n S) p -> ~ p0 / 32768 <= p / 32768 <= (p0 + n - 1) / 32768).
  { intros p (q & m & j & [Hq [Hc|Hc]]%Hsub & Hp); cbn [fst snd] in Hc; pose proof (Z.div_le_mono q p 32768 ltac:(lia) ltac:(lia)); pose proof (Z.div_le_mono p (q + m - 1) 32768 ltac:(lia) ltac:(lia)); lia. }
  exists X', (fun p => if existsb (fun x => (fst x <=? p) && (p <? fst x + fst (snd x))) (map_to_list (spared p0 n S)) then None else F' p).
  assert (Hex : forall p, existsb (fun x => (fst x <=? p) && (p <? fst x + fst (snd x))) (map_to_list (spared p0 n S)) = true <-> covered (spared p0 n S) p).
  { intros p. rewrite existsb_exists. split.
    - intros ([q [m j]] & Hq%list_elem_of_In%elem_of_map_to_list & [?%Z.leb_le ?%Z.ltb_lt]%andb_prop). exists q, m, j. split; [done|]. cbn [fst snd] in *. lia.
    - intros (q & m & j & Hq & Hp). exists (q, (m, j)). split; [by apply list_elem_of_In, elem_of_map_to_list|]. cbn [fst snd]. lia. }
  assert (HtgS : forall p e, target (spared p0 n S) p e -> target S p e) by (intros p e (q & m & j & [Hq _]%Hsub & Hp); by exists q, m, j).
  split_and!.
  - split_and!; [by eapply window_same| | | | |].
    + intros p1 n1 i1 p2 n2 i2 [H1 _]%Hsub [H2 _]%Hsub. by eapply Hap.
    + intros q m j [Hq _]%Hsub. by eapply Hin.
    + exists F'. split; [done|]. intros p e Hp. destruct (existsb _ _) eqn:Ee.
      * apply Hex in Ee. rewrite HF2, HF by (done || by apply Hcov). destruct Ee as (q & m & j & Hq & Hpq). split; [|intros [Ht|?]; [by left; apply HtgS|done]].
        destruct (Hsub _ _ _ Hq) as [HSq _]. intros [(q' & m' & j' & Hq' & Hp' & ->)|Hl]; [left|by destruct (HL p e Hl); exists q, m, j].
        exists q', m', j'. destruct (decide (q = q')) as [<-|Hne]; [|destruct (Hap _ _ _ _ _ _ HSq Hq' Hne); lia]. rewrite HSq in Hq'. injection Hq' as <- <-. done.
      * split; [by right|]. intros [Ht|?]; [|done]. apply target_covered, Hex in Ht. congruence.
    + intros t a b Ht Hab. assert (Hold : range_at d t = Some (a, b)) by (destruct (HR t) as [<-|E]; [done|congruence]).
      destruct (range_mapped d' F' t a b Hinv' Ht Hab) as (R1 & R2 & R3). destruct (Hrg t a b Ht Hold) as [(q & m & j & Hq & ? & ?)|Hl].
      * destruct (decide (clear_of_slots p0 n (q, (m, j)))) as [Hc|Hc].
        -- left. exists q, m, j. split; [by apply map_lookup_filter_Some|done].
        -- right. intros x Hx. destruct (existsb _ _) eqn:Ee; [|by apply R3]. exfalso. apply Hex in Ee as (q' & m' & j' & [Hq' Hc']%Hsub & Hx').
           destruct (decide (q = q')) as [<-|Hne]; [rewrite Hq in Hq'; by injection Hq' as <- <-|destruct (Hap _ _ _ _ _ _ Hq Hq' Hne); lia].
      * right. intros x Hx. destruct (existsb _ _) eqn:Ee; [|by apply R3]. exfalso. apply Hex in Ee as (q' & m' & j' & [Hq' Hc']%Hsub & Hx').
        destruct (Hl x Hx) as [e He]. apply (HL x e He). by exists q', m', j'.
    + intros p e Hp Hc. apply Hex in Hc. by rewrite Hc in Hp.
  - intros p e Hp Hl. destruct (existsb _ _); [done|]. destruct (HF1 p) as [E|E]; rewrite E in Hl; [|done]. by apply HF.
  - intros p Hp. rewrite (decode_ok d' F' p Hinv' Hp), (decode_ok d F p HinvF Hp). apply HF1.
  - intros p Hp Ho. rewrite (decode_ok d' F' p Hinv' Hp), (decode_ok d F p HinvF Hp). by apply HF2.
Qed.

Lemma unmap_holds (X : gset Z) (hw : hw_answers) (d : ub_decoder) (S : maps) (L : Z -> option page_entry) (p0 n size : Z) (i : decoder_map_info) :
  decoder_holds X d S L -> S !! p0 = Some (n, i) -> ALIGN size SZ_1M = n * SZ_1M ->
  exists r d', hi_decoder_unmap dma_alloc ubc_feature q_base hw d (addr_of d p0) size = Some (r, d') /\ same_window d d' /\
    ((denied d' = denied d /\ decoder_holds X d' (delete p0 S) L /\ exists d1, same_cfg d d1 /\
        (r, d') = hi_decoder_cmd_request q_base hw d1 (addr_of d p0) (n * SZ_1M) TLBI_PARTIAL) \/
     (r = - ENOMEM /\ denied d' = Datatypes.S (denied d) /\ exists F, dec_invX X d F /\ cut_to d d' F (p0 / 32768) ((p0 + n - 1) / 32768))).
Proof.
  intros Hh H0 Hsz. pose proof Hh as (Hw & Hap & Hin & (F & Hinv & HF) & Hrg & HL). pose proof Hw as (Wm & W0 & W1 & W2).
  destruct (Hin _ _ _ H0) as (H1 & H2 & H3). pose proof (mapping_uncut X d S L p0 n i Hh H0) as Hcut.
  destruct (handle_unmap (X := X) dma_alloc ubc_feature Halloc q_base hw d F (addr_of d p0) size p0 n) as (r & d' & E & Hwin & Hres); [done| |done| |done|].
  { split; cbn [pa i_size unmap_info]; (done || lia). }
  { intros q Hq. exists (entry_of i (q - p0)). apply HF; [lia|]. left. by exists p0, n, i. }
  exists r, d'. split; [done|]. split; [done|]. destruct Hres as [(Hden & Hinv' & Hreq & Hr')|(-> & Hden & Hc & _)]; [left|right; split_and!; [done|done|by exists F]].
  assert (HLp : forall p e, L p = Some e -> ~ p0 <= p < p0 + n) by (intros p e Hl Hp; apply (HL p e Hl); by exists p0, n, i).
  split; [done|]. split; [|done]. split_and!; [by eapply window_same| | | | |].
  - intros p1 n1 i1 p2 n2 i2 [_ E1]%lookup_delete_Some [_ E2]%lookup_delete_Some. by eapply Hap.
  - intros p1 n1 i1 [_ E1]%lookup_delete_Some. by eapply Hin.
  - eexists. split; [exact Hinv'|]. intros p e Hp. rewrite (target_delete S p0 n i) by done. specialize (HLp p e). unfold fdel.
    destruct (Z.leb_spec p0 p), (Z.ltb_spec p (p0 + n)); cbn [andb]; rewrite ?HF by done; intuition (done || lia).
  - intros t a b Ht Hab. destruct (Hr' t) as [E0|(a' & b' & _ & _ & _ & E0)]; [|congruence].
    assert (Hold : range_at d t = Some (a, b)) by congruence. destruct (Hrg t a b Ht Hold) as [(p1 & n1 & i1 & Hp1 & ? & ?)|?]; [left|by right].
    exists p1, n1, i1. split; [|done]. apply lookup_delete_Some. split; [|done]. intros <-. rewrite H0 in Hp1. injection Hp1 as <- <-.
    destruct (range_mapped d' _ t a b Hinv' Ht Hab) as (R1 & _ & R3). destruct (R3 a ltac:(lia)) as [e He]. unfold fdel in He.
    by rewrite (proj2 (Z.leb_le p0 a)), (proj2 (Z.ltb_lt a (p0 + n))) in He by lia.
  - intros p e Hl (q & m & j & [_ Hq]%lookup_delete_Some & Hp). apply (HL p e Hl). by exists q, m, j.
Qed.

(** A new table maps nothing. *)
Lemma create_holds (base end_ rg qsize : Z) (d : ub_decoder) :
  hi_create_decoder_table dma_alloc base end_ rg true qsize true true = inr d -> window_ok d -> decoder_holds ∅ d ∅ (fun _ => None).
Proof.
  intros E Hw. split; [done|]. unfold hi_create_decoder_table in E. cbn [negb] in E. destruct (dma_alloc 0 ∅) as [k|] eqn:Ek; [|done].
  destruct (Halloc _ _ _ Ek) as [_ Hk]. destruct (next_lv_addr k Hk) as [Hk1 Hk2]. injection E as <-.
  assert (Hword : forall j, 0 <= j < 4096 -> let x := ub_decoder_init_page_table (next_lv k) (fun _ => 0) j in
    pte_type x = PAGE_TABLE /\ pte_next x = next_lv k).
  { intros j Hj. unfold ub_decoder_init_page_table. change DECODER_PAGE_TABLE_SIZE with 4096.
    rewrite (proj2 (Z.leb_le 0 j)), (proj2 (Z.ltb_lt j 4096)) by lia. cbn [andb]. bf. rewrite (uwrap_small 36) by lia. done. }
  split_and!; [by intros ? ? ? ? ? ? ?%lookup_empty_Some|by intros ? ? ? ?%lookup_empty_Some| | |done].
  - exists (fun _ => None). split.
    + split.
      * split; cbn [invalid_page_dma mem desc_base page_base zero_desc]; [done| | |done|done|].
        -- rewrite Hk1, lookup_singleton_eq. eexists. split; [done|]. done.
        -- intros k' [? [<- _]%lookup_singleton_Some]. done.
        -- intros k' [? [<- _]%lookup_singleton_Some]. by left.
      * intros t Ht. left. unfold slot, RGTLB_TO_PGTLB. cbn [pgtlb]. split; [apply Hword; lia|]. intros j Hj.
        unfold tab_ok. cbn [desc_base page_base zero_desc pgtlb invalid_page_dma]. split; [apply Hword; lia|done].
    + intros p e _. split; [done|]. intros [(? & ? & ? & ?%lookup_empty_Some & _)|?]; done.
  - intros t a b Ht. unfold range_at, slot, RGTLB_TO_PGTLB. cbn [pgtlb]. destruct (Hword (t * 8 + 0) ltac:(lia)) as [-> _]. done.
Qed.
End Spec.
