(* ===== verification/UbDecoderSpec.v ===== *)
(** * The address decoder: the contract of its entry points

    Mapping and unmapping against the set of mappings, over every history of requests, and
    what an unmapping that runs out of memory leaves.  [fresh_page] is an allocator
    for the examples. *)

From S2P Require Import Prelude UmmuQueue UmmuCmd UbDecoder UbDecoderInv UbDecoderStep UbDecoderUnmap UbDecoderApi.

(** The window the hardware decodes is one the table covers. *)
Lemma cap_window (dma_alloc : nat -> gset Z -> option Z) (base end_ cap sup cq evq end' rg : Z) (d : ub_decoder) : 0 < base <= end_ -> end_ < 2 ^ 64 ->
  base + PAGES * SZ_1M < 2 ^ 64 -> ub_get_decoder_cap base end_ (inr cap) (inr false) = inr (sup, cq, evq, end', true) ->
  hi_create_decoder_table dma_alloc base end' rg true cq true true = inr d -> window_ok d.
Proof.
  intros Hb He Hm Hcap E. unfold ub_get_decoder_cap in Hcap. destruct (_ || _); [done|]. injection Hcap as Es _ _ Ee.
  rewrite field_div in Es, Ee by lia. rewrite Es in Ee. change (2 ^ (18 - 16 + 1)) with 8 in Es.
  pose proof (Z.mod_pos_bound (cap / 2 ^ 16) 8 ltac:(lia)) as Hsup. rewrite Es in Hsup.
  assert (Hs : 0 < mmio_size sup <= PAGES * SZ_1M).
  { unfold mmio_size. rewrite Z.shiftl_mul_pow2 by lia. pose proof (pow2_pos sup ltac:(lia)).
    assert (2 ^ sup <= 2 ^ 7) by (apply Z.pow_le_mono_r; lia). unfold PAGES, SZ_1M. lia. }
  assert (Hend : end' < base + PAGES * SZ_1M).
  { rewrite <- Ee. rewrite (uwrap_small 64 (end_ - base + 1)) by lia. destruct (Z.ltb_spec (mmio_size sup) (end_ - base + 1)); [|lia].
    rewrite uwrap_small by lia. lia. }
  unfold hi_create_decoder_table in E. cbn [negb] in E. destruct (dma_alloc 0%nat ∅) as [k|]; [|done]. injection E as <-.
  unfold window_ok. cbn [create_matt mmio_base_addr mmio_end_addr]. split_and!; try done; lia.
Qed.

(** ** Histories *)

Section History.
Context (dma_alloc : nat -> gset Z -> option Z) (ubc_feature q_base : Z).

(** The mappings with a slot of 32 GB in common with the [n] pages from [p0] on. *)
Definition hit (p0 n : Z) (S : maps) : list (Z * (Z * decoder_map_info)) := map_to_list (filter (fun x => ~ clear_of_slots p0 n x) S).

(** The decoder after some requests, with the mappings they leave, and the mappings that were hit when an unmapping ran out of
    memory: the one that was to go, and those that share a slot with it.  Their pages may be decoded or not, and nobody unmaps them again. *)
Inductive decoder_reach : ub_decoder -> maps -> list (Z * (Z * decoder_map_info)) -> Prop :=
  | reach_create base end_ cap sup cq evq end' rg d : 0 < base <= end_ -> end_ < 2 ^ 64 -> base + PAGES * SZ_1M < 2 ^ 64 ->
      ub_get_decoder_cap base end_ (inr cap) (inr false) = inr (sup, cq, evq, end', true) ->
      hi_create_decoder_table dma_alloc base end' rg true cq true true = inr d -> decoder_reach d ∅ []
  | reach_map hw d S B i p0 n r d' : decoder_reach d S B -> request_ok d i p0 n ->
      hi_decoder_map dma_alloc ubc_feature q_base hw d i = Some (r, d') ->
      decoder_reach d' (if r =? 0 then <[p0 := (n, i)]> S else S) B
  | reach_unmap hw d S B i p0 n size r d' : decoder_reach d S B -> S !! p0 = Some (n, i) -> ALIGN size SZ_1M = n * SZ_1M ->
      hi_decoder_unmap dma_alloc ubc_feature q_base hw d (addr_of d p0) size = Some (r, d') -> denied d' = denied d ->
      decoder_reach d' (delete p0 S) B
  | reach_unmap_denied hw d S B i p0 n size r d' : decoder_reach d S B -> S !! p0 = Some (n, i) -> ALIGN size SZ_1M = n * SZ_1M ->
      hi_decoder_unmap dma_alloc ubc_feature q_base hw d (addr_of d p0) size = Some (r, d') -> denied d' <> denied d ->
      decoder_reach d' (spared p0 n S) (hit p0 n S ++ B).

(** The page [p] of a former mapping. *)
Definition former (B : list (Z * (Z * decoder_map_info))) (p : Z) (e : page_entry) : Prop :=
  exists p0 n i, (p0, (n, i)) ∈ B /\ p0 <= p < p0 + n /\ e = fill_page_entry ubc_feature i ((p - p0) * SZ_1M).

Hypothesis Halloc : forall n g k, dma_alloc n g = Some k -> (k ∉ g) /\ addr_ok k.

Lemma hit_elem (p0 n q m : Z) (i : decoder_map_info) (S : maps) : (q, (m, i)) ∈ hit p0 n S <-> S !! q = Some (m, i) /\ ~ clear_of_slots p0 n (q, (m, i)).
Proof. unfold hit. rewrite elem_of_map_to_list. apply map_lookup_filter_Some. Qed.

Lemma reach_holds (d : ub_decoder) (S : maps) (B : list (Z * (Z * decoder_map_info))) : decoder_reach d S B -> exists X L, decoder_holds ubc_feature X d S L /\
  (forall p e, 0 <= p < PAGES -> L p = Some e -> former B p e) /\ (B = [] -> X = ∅ /\ forall p, L p = None).
Proof.
  induction 1 as [base end_ cap sup cq evq end' rg d Hb He Hm Hcap E|hw d S B i p0 n r d' _ (X & L & IH & HL & HB) Hreq E|hw d S B i p0 n size r d' _ (X & L & IH & HL & HB) H0 Hsz E Hd|hw d S B i p0 n size r d' _ (X & L & IH & HL & HB) H0 Hsz E Hd].
  - exists ∅, (fun _ => None). split; [|done]. eapply create_holds; [done|exact E|]. eapply cap_window; done.
  - exists X, L. split; [|done]. destruct (map_holds dma_alloc ubc_feature q_base Halloc X hw d S L i p0 n IH Hreq) as (r' & d1 & E' & _ & Hres).
    rewrite E in E'. injection E' as <- <-. destruct Hres as [(-> & _ & Hh)|(Hr & Hh & _)]; [done|].
    by rewrite (proj2 (Z.eqb_neq r 0)).
  - exists X, L. split; [|done]. destruct (unmap_holds dma_alloc ubc_feature q_base Halloc X hw d S L p0 n size i IH H0 Hsz) as (r' & d1 & E' & _ & Hres).
    rewrite E in E'. injection E' as <- <-. destruct Hres as [(_ & Hh & _)|(_ & Hx & _)]; [done|]. rewrite Hd in Hx. lia.
  - destruct (unmap_holds dma_alloc ubc_feature q_base Halloc X hw d S L p0 n size i IH H0 Hsz) as (r' & d1 & E' & Hw & Hres).
    rewrite E in E'. injection E' as <- <-. destruct Hres as [(? & _)|(_ & _ & F & HF & Hc)]; [done|].
    destruct (spared_holds ubc_feature X d d' S L F p0 n IH Hw HF Hc) as (X' & L' & Hh & HL' & _). exists X', L'. split; [done|]. split.
    + intros p e Hp Hl. destruct (HL' p e Hp Hl) as [(q & m & j & Hq & Hpq & ->)|Ho].
      * exists q, m, j. split_and!; try done; try lia. apply elem_of_app. left. apply hit_elem. split; [done|]. intros Hcl. destruct Hh as (_ & _ & _ & _ & _ & Hnc).
        apply (Hnc p _ Hl). exists q, m, j. split; [by apply map_lookup_filter_Some|done].
      * destruct (HL p e Hp Ho) as (q & m & j & Hq & ?). exists q, m, j. split; [apply elem_of_app; by right|done].
    + intros Hn. exfalso. apply app_eq_nil in Hn as [Hn _]. assert (Hin : (p0, (n, i)) ∈ hit p0 n S); [|by rewrite Hn in Hin; apply not_elem_of_nil in Hin].
      apply hit_elem. split; [done|]. destruct IH as (_ & _ & Hin & _). destruct (Hin _ _ _ H0) as (? & ? & ?). unfold clear_of_slots. cbn [fst snd].
      pose proof (Z.div_le_mono p0 (p0 + n - 1) 32768 ltac:(lia) ltac:(lia)). lia.
Qed.
End History.



(** ** Examples *)

(** The [n]-th request gets the page after the [n]-th, but for the requests in [no]. *)
Definition fresh_page (no : list nat) (n : nat) (g : gset Z) : option Z :=
  if decide (n ∈ no) then None
  else if decide (Z.of_nat n < 2 ^ 20 /\ (Z.of_nat n + 1) * 4096 ∉ g) then Some ((Z.of_nat n + 1) * 4096) else None.
Lemma fresh_page_ok (no : list nat) n g k : fresh_page no n g = Some k -> (k ∉ g) /\ addr_ok k.
Proof.
  unfold fresh_page. destruct (decide (n ∈ no)) as [|]; [done|]. destruct (decide _) as [[Hn Hg]|]; [|done]. intros [= <-].
  split; [done|]. unfold addr_ok. split; [lia|]. by exists (Z.of_nat n + 1).
Qed.

Definition quiet : hw_answers := {| cons_reads := [inr 0]; prod_err := 0; notified := true |}.
(** [n] pages from [p0] on, to the address [u]. *)
Definition pages (p0 n u : Z) : decoder_map_info :=
  {| pa := 2 ^ 44 + p0 * SZ_1M; uba := u; i_size := n * SZ_1M; i_tpg_num := 1; i_order_id := 0; i_order_type := 0;
     i_eid_low := 7; i_eid_high := 0; i_token_id := 5; i_token_value := 9; i_upi := 3; i_src_eid := 2 |}.

(** A decoder after the requests [l], each to be mapped. *)
Fixpoint map_all (no : list nat) (rg : Z) (l : list (Z * Z * Z)) : option ub_decoder :=
  match l with
  | [] => match hi_create_decoder_table (fresh_page no) (2 ^ 44) (2 ^ 45 - 1) rg true 4 true true with inr d => Some d | inl _ => None end
  | (p0, n, u) :: l' => d ← map_all no rg l'; '(r, d) ← hi_decoder_map (fresh_page no) 1 0 quiet d (pages p0 n u);
                        if r =? 0 then Some d else None
  end.

Definition maps_of (l : list (Z * Z * Z)) : maps := foldr (fun '(p0, n, u) S => <[p0 := (n, pages p0 n u)]> S) ∅ l.
Definition in_window '((p0, n, u) : Z * Z * Z) : bool := (0 <=? p0) && (1 <=? n) && (p0 + n <=? PAGES) && (u mod SZ_1M =? 0).

Lemma map_all_reach (no : list nat) (rg : Z) (l : list (Z * Z * Z)) (d : ub_decoder) : map_all no rg l = Some d -> forallb in_window l = true ->
  decoder_reach (fresh_page no) 1 0 d (maps_of l) [] /\ mmio_base_addr d = 2 ^ 44 /\ mmio_end_addr d = 2 ^ 45 - 1.
Proof.
  revert d. induction l as [|[[p0 n] u] l IH]; intros d E Hl; cbn [map_all] in E.
  - destruct (hi_create_decoder_table _ _ _ _ _ _ _ _) as [|d0] eqn:Ec; [done|]. injection E as <-.
    assert (Hb : create_matt d0 = true /\ mmio_base_addr d0 = 2 ^ 44 /\ mmio_end_addr d0 = 2 ^ 45 - 1).
    { unfold hi_create_decoder_table in Ec. cbn [negb] in Ec. destruct (fresh_page no 0 ∅); [|done]. by injection Ec as <-. }
    destruct Hb as (B1 & B2 & B3). split; [|done]. by apply (reach_create _ _ _ (2 ^ 44) (2 ^ 45 - 1) 0x74040 7 4 4 (2 ^ 45 - 1) rg).
  - cbn [forallb in_window] in Hl. apply andb_prop in Hl as [[[[W1%Z.leb_le W2%Z.leb_le]%andb_prop W3%Z.leb_le]%andb_prop W4%Z.eqb_eq]%andb_prop Hl].
    apply Z.mod_divide in W4; [|done]. destruct (map_all no rg l) as [d0|]; [|done]. cbn [mbind option_bind] in E.
    destruct (IH d0 eq_refl Hl) as (Hr & Hb & He). destruct (hi_decoder_map _ _ _ _ _ _) as [[r d1]|] eqn:Em; [|done]. cbn [mbind option_bind] in E.
    destruct (Z.eqb_spec r 0) as [->|]; [|done]. injection E as <-.
    assert (Hreq : request_ok d0 (pages p0 n u) p0 n).
    { unfold request_ok, addr_of. cbn [pa i_size uba pages]. rewrite Hb, He. split_and!; [lia|apply align_1M; unfold PAGES in W3; lia|done|done| |done].
      unfold PAGES, SZ_1M in *. lia. }
    destruct (reach_holds _ _ _ (fresh_page_ok no) _ _ _ Hr) as (X & L & Hh & _).
    destruct (map_holds (fresh_page no) 1 0 (fresh_page_ok no) X quiet d0 (maps_of l) L _ p0 n Hh Hreq)
      as (r' & d' & E' & (Wb & We & _) & _).
    rewrite Em in E'. injection E' as <- <-. rewrite Wb, We. split; [|done].
    exact (reach_map (fresh_page no) 1 0 quiet d0 _ _ _ p0 n 0 d1 Hr Hreq Em).
Qed.
Lemma map_all_holds (no : list nat) (rg : Z) (l : list (Z * Z * Z)) (d : ub_decoder) : map_all no rg l = Some d -> forallb in_window l = true ->
  exists L, decoder_holds 1 ∅ d (maps_of l) L /\ mmio_base_addr d = 2 ^ 44 /\ mmio_end_addr d = 2 ^ 45 - 1.
Proof.
  intros E Hl. destruct (map_all_reach no rg l d E Hl) as [Hr ?]. destruct (reach_holds _ _ _ (fresh_page_ok no) _ _ _ Hr) as (X & L & Hh & _ & HX).
  destruct (HX eq_refl) as [-> _]. by exists L.
Qed.

Lemma map_all_some (no : list nat) (rg : Z) (l : list (Z * Z * Z)) : match map_all no rg l with Some _ => true | None => false end = true ->
  exists d, map_all no rg l = Some d.
Proof. destruct (map_all no rg l) as [d|]; [by exists d|done]. Qed.

(** What the mapping [x], or the unmapping of the [n] pages from 0 on, returns after the mappings [l], and how many requests for memory were denied before and after. *)
Definition map_result (no : list nat) (rg : Z) (l : list (Z * Z * Z)) '((p0, n, u) : Z * Z * Z) : option (Z * nat * nat) :=
  d ← map_all no rg l; '(r, d') ← hi_decoder_map (fresh_page no) 1 0 quiet d (pages p0 n u); Some (r, denied d, denied d').
Definition unmap_result (no : list nat) (rg : Z) (l : list (Z * Z * Z)) (n : Z) : option (Z * nat * nat) :=
  d ← map_all no rg l; '(r, d') ← hi_decoder_unmap (fresh_page no) 1 0 quiet d (addr_of d 0) (n * SZ_1M); Some (r, denied d, denied d').

(** ** The contract *)

(** C13: mapping the [n] pages from [p0] on.  Either it succeeds, no page of the request was
    mapped before, no memory was denied, and the hardware now decodes the pages of the request to the target and
    every other page as before; or it fails, because a page was mapped or because a request for memory was denied during
    the call, and the hardware decodes every page as before the call (the part that was done is undone). *)
Theorem hi_decoder_map_spec (dma_alloc : nat -> gset Z -> option Z) (ubc_feature q_base : Z) (hw : hw_answers) (X : gset Z) (d : ub_decoder) (S : maps)
    (L : Z -> option page_entry) (i : decoder_map_info) (p0 n : Z)
  (Halloc : forall n g k, dma_alloc n g = Some k -> (k ∉ g) /\ addr_ok k)
  (Hd : decoder_holds ubc_feature X d S L) (Hreq : request_ok d i p0 n) :
  exists r d', hi_decoder_map dma_alloc ubc_feature q_base hw d i = Some (r, d') /\ same_window d d' /\
    ((r = 0 /\ denied d' = denied d /\ (forall p, p0 <= p < p0 + n -> decode d p = None) /\
      decoder_holds ubc_feature X d' (<[p0 := (n, i)]> S) L /\ decodes_exactly ubc_feature d' (<[p0 := (n, i)]> S) L) \/
     (r <> 0 /\ ((exists p, p0 <= p < p0 + n /\ is_Some (decode d p)) \/ (r = - ENOMEM /\ (denied d < denied d')%nat)) /\
      decoder_holds ubc_feature X d' S L /\ forall p, 0 <= p < PAGES -> decode d' p = decode d p)).
Proof.
  pose proof (holds_decodes _ _ _ _ _ Hd) as Hx. pose proof (request_in d i p0 n (proj1 Hd) Hreq) as Hin. pose proof Hreq as (_ & _ & H0 & _).
  destruct (map_holds dma_alloc ubc_feature q_base Halloc X hw d S L i p0 n Hd Hreq) as (r & d' & E & Hw & Hres). destruct (den_map _ _ _ _ _ _ _ _ E) as [Hden Hden0].
  exists r, d'. split; [done|]. split; [done|]. destruct Hres as [(-> & Hno & Hh)|(Hr & Hh & Hwhy)]; [left|right].
  - split_and!; [done|by apply Hden0| |done|by eapply holds_decodes]. intros p Hp. destruct (decode d p) as [e|] eqn:Ep; [|done].
    apply Hx in Ep; [|lia]. by destruct (Hno p e Hp).
  - split_and!; [done| |done|].
    + destruct Hwhy as [(p & e & Hp & Ht)|Hr']; [left|right; split; [done|by apply Hden]]. exists p. split; [done|]. exists e. apply Hx; [lia|done].
    + intros p Hp. apply option_eq. intros e. by rewrite (Hx p e Hp), (holds_decodes _ _ _ _ _ Hh p e Hp).
Qed.

Lemma hi_decoder_map_witness : exists d d', map_all [] (2 ^ 32) [(5000, 1, 2 ^ 40)] = Some d /\
  hi_decoder_map (fresh_page []) 1 0 quiet d (pages 4096 16 0) = Some (0, d') /\ decode d' 4100 = Some (fill_page_entry 1 (pages 4096 16 0) (4 * SZ_1M)).
Proof.
  destruct (map_all_some [] (2 ^ 32) [(5000, 1, 2 ^ 40)] ltac:(vm_compute; reflexivity)) as [d E].
  destruct (map_all_holds _ _ _ _ E eq_refl) as (L & Hh & Hb & He).
  destruct (hi_decoder_map_spec (fresh_page []) 1 0 quiet ∅ d _ L (pages 4096 16 0) 4096 16 (fresh_page_ok []) Hh) as (r & d' & Em & _ & Hres).
  { unfold request_ok, addr_of. rewrite Hb, He. clear. split_and!; [reflexivity|reflexivity|done|done|done|by exists 0]. }
  assert (Hr : map_result [] (2 ^ 32) [(5000, 1, 2 ^ 40)] (4096, 16, 0) = Some (0, 0%nat, 0%nat)) by (vm_compute; reflexivity).
  unfold map_result in Hr. rewrite E in Hr. cbn [mbind option_bind] in Hr. rewrite Em in Hr. cbn [mbind option_bind] in Hr. injection Hr as -> _ _.
  exists d, d'. split; [exact E|]. split; [exact Em|]. destruct Hres as [(_ & _ & _ & _ & Hx)|(Hr & _)]; [|destruct Hr; reflexivity].
  apply Hx; [unfold PAGES; lia|]. left. exists 4096, 16, (pages 4096 16 0). split; [apply lookup_insert_eq|]. split; [lia|reflexivity].
Defined.

(** C14: unmapping the [n] pages of a mapping.  Either no memory was denied, the hardware decodes none of these pages
    and every other as before, and the request ends with the invalidation of exactly these
    pages; or it returns [-ENOMEM] and a request for memory was denied during the call.  Then each page is decoded as before or not
    at all, and as before outside of the slots of 32 GB of the request; the mappings without such a slot are in place. *)
Theorem hi_decoder_unmap_spec (dma_alloc : nat -> gset Z -> option Z) (ubc_feature q_base : Z) (hw : hw_answers) (X : gset Z) (d : ub_decoder) (S : maps)
    (L : Z -> option page_entry) (i : decoder_map_info) (p0 n size : Z)
  (Halloc : forall n g k, dma_alloc n g = Some k -> (k ∉ g) /\ addr_ok k)
  (Hd : decoder_holds ubc_feature X d S L) (H0 : S !! p0 = Some (n, i)) (Hsz : ALIGN size SZ_1M = n * SZ_1M) :
  exists r d', hi_decoder_unmap dma_alloc ubc_feature q_base hw d (addr_of d p0) size = Some (r, d') /\ same_window d d' /\
    ((denied d' = denied d /\ decoder_holds ubc_feature X d' (delete p0 S) L /\
      (forall p, 0 <= p < PAGES -> decode d' p = if decide (p0 <= p < p0 + n) then None else decode d p) /\
      exists d1, same_cfg d d1 /\ (r, d') = hi_decoder_cmd_request q_base hw d1 (addr_of d p0) (n * SZ_1M) TLBI_PARTIAL) \/
     (r = - ENOMEM /\ denied d' = Datatypes.S (denied d) /\
      (exists X' L', decoder_holds ubc_feature X' d' (spared p0 n S) L') /\
      (forall p, 0 <= p < PAGES -> decode d' p = decode d p \/ decode d' p = None) /\
      forall p, 0 <= p < PAGES -> ~ p0 / 32768 <= p / 32768 <= (p0 + n - 1) / 32768 -> decode d' p = decode d p)).
Proof.
  destruct (unmap_holds dma_alloc ubc_feature q_base Halloc X hw d S L p0 n size i Hd H0 Hsz) as (r & d' & E & Hw & Hres).
  exists r, d'. split; [done|]. split; [done|]. destruct Hres as [(Hden & Hh & Hq)|(Hr & Hden & F & HF & Hc)]; [left|right].
  - split_and!; [done|done| |done]. intros p Hp. pose proof (holds_decodes _ _ _ _ _ Hd p) as H1. pose proof (holds_decodes _ _ _ _ _ Hh p) as H2. destruct Hd as (_ & Hap & _ & _ & _ & HL).
    assert (HLp : forall e, L p = Some e -> ~ p0 <= p < p0 + n) by (intros e Hl Hpp; apply (HL p e Hl); by exists p0, n, i).
    destruct (decide _) as [Hi|Ho].
    + destruct (decode d' p) as [e|]; [|done]. destruct (proj1 (H2 e Hp) eq_refl) as [Ht|Ht]; [|by apply HLp in Ht].
      apply (target_delete _ _ _ _ _ _ _ Hap H0) in Ht as [? _]. done.
    + apply option_eq. intros e. rewrite (H1 e Hp), (H2 e Hp), (target_delete _ _ _ _ _ _ _ Hap H0). tauto.
  - destruct (spared_holds ubc_feature X d d' S L F p0 n Hd Hw HF Hc) as (X' & L' & Hh & _ & H1 & H2). split_and!; [done|done|by exists X', L'|done|done].
Qed.

Lemma hi_decoder_unmap_witness : exists d r d', map_all [] (2 ^ 32) [(5000, 1, 2 ^ 40); (0, 4096, 0)] = Some d /\
  hi_decoder_unmap (fresh_page []) 1 0 quiet d (addr_of d 0) (4096 * SZ_1M) = Some (r, d') /\ decode d' 100 = None /\ decode d' 5000 = decode d 5000.
Proof.
  destruct (map_all_some [] (2 ^ 32) [(5000, 1, 2 ^ 40); (0, 4096, 0)] ltac:(vm_compute; reflexivity)) as [d E].
  destruct (map_all_holds _ _ _ _ E eq_refl) as (L & Hh & Hb & He).
  destruct (hi_decoder_unmap_spec (fresh_page []) 1 0 quiet ∅ d _ L (pages 0 4096 0) 0 4096 (4096 * SZ_1M) (fresh_page_ok []) Hh) as (r & d' & Em & Hw & Hres);
    [reflexivity|reflexivity|].
  assert (Hr : unmap_result [] (2 ^ 32) [(5000, 1, 2 ^ 40); (0, 4096, 0)] 4096 = Some (0, 0%nat, 0%nat)) by (vm_compute; reflexivity).
  unfold unmap_result in Hr. rewrite E in Hr. cbn [mbind option_bind] in Hr. rewrite Em in Hr. cbn [mbind option_bind] in Hr. injection Hr as -> _ _.
  exists d, 0, d'. split; [exact E|]. split; [exact Em|]. destruct Hres as [(_ & _ & Hx & _)|(Hx & _)]; [|discriminate Hx]. rewrite !Hx by (unfold PAGES; lia). split; reflexivity.
Defined.



(** The mappings [l], then the [n] pages from 0 on are unmapped: what becomes of [p], and of the
    memory of the first table. *)
Definition drop_check (no : list nat) (rg : Z) (l : list (Z * Z * Z)) (n p : Z) (all : list Z) : option (bool * Z * bool * bool * bool * Z) :=
  d ← map_all no rg l; k ← page_base (desc_base d 0);
  '(r, d') ← hi_decoder_unmap (fresh_page no) 1 0 quiet d (addr_of d 0) (n * SZ_1M);
  '(r', _) ← hi_decoder_unmap (fresh_page no) 1 0 quiet d' (addr_of d' p) SZ_1M;
  Some (bool_decide (is_Some (decode d p)), r, bool_decide (is_Some (decode d' p)), bool_decide (is_Some (mem d' !! k)),
    forallb (fun i => match page_base (desc_base d' i) with Some _ => false | None => true end) all, r').
Lemma drop_check_ok (no : list nat) (rg : Z) (l : list (Z * Z * Z)) (n p : Z) (all : list Z) :
  drop_check no rg l n p all = Some (true, - ENOMEM, false, true, true, - EINVAL) ->
  exists d d' d'' k, map_all no rg l = Some d /\ is_Some (decode d p) /\ page_base (desc_base d 0) = Some k /\
    hi_decoder_unmap (fresh_page no) 1 0 quiet d (addr_of d 0) (n * SZ_1M) = Some (- ENOMEM, d') /\ decode d' p = None /\
    is_Some (mem d' !! k) /\ Forall (fun i => page_base (desc_base d' i) = None) all /\
    hi_decoder_unmap (fresh_page no) 1 0 quiet d' (addr_of d' p) SZ_1M = Some (- EINVAL, d'').
Proof.
  unfold drop_check. destruct (map_all no rg l) as [d|]; [|done]. cbn [mbind option_bind].
  destruct (page_base (desc_base d 0)) as [k|] eqn:Ek; [|done]. cbn [mbind option_bind].
  destruct (hi_decoder_unmap _ _ _ _ d _ _) as [[r d']|] eqn:Eu; [|done]. cbn [mbind option_bind].
  destruct (hi_decoder_unmap _ _ _ _ d' _ _) as [[r' d'']|] eqn:Eu'; [|done]. cbn [mbind option_bind].
  intros [= H1%bool_decide_eq_true -> H2%bool_decide_eq_false%eq_None_not_Some H3%bool_decide_eq_true H4 ->].
  exists d, d', d'', k. split_and!; try done. apply Forall_forall. intros i Hi. rewrite forallb_forall in H4.
  specialize (H4 i (proj1 (list_elem_of_In _ _) Hi)). by destruct (page_base (desc_base d' i)).
Qed.

(** unmapping a range can lose other mappings of its slot.  A range of 4 GB and a page
    beside it are mapped; the memory for the table of the page runs out while the range is
    unmapped: the call fails with [-ENOMEM], and the page, which nobody asked to unmap, is no
    longer decoded, nor can it be unmapped; the memory that holds its entry belongs to no
    descriptor any more. *)
Theorem decoder_unmap_drops : exists d r d' k, map_all [2%nat] (2 ^ 32) [(5000, 1, 2 ^ 40); (0, 4096, 0)] = Some d /\
  is_Some (decode d 5000) /\ page_base (desc_base d 0) = Some k /\
  hi_decoder_unmap (fresh_page [2%nat]) 1 0 quiet d (addr_of d 0) (4096 * SZ_1M) = Some (r, d') /\ r = - ENOMEM /\
  decode d' 5000 = None /\ is_Some (mem d' !! k) /\ Forall (fun i => page_base (desc_base d' i) = None) (seqZ 0 4096) /\
  exists d'', hi_decoder_unmap (fresh_page [2%nat]) 1 0 quiet d' (addr_of d' 5000) SZ_1M = Some (- EINVAL, d'').
Proof.
  destruct (drop_check_ok [2%nat] (2 ^ 32) [(5000, 1, 2 ^ 40); (0, 4096, 0)] 4096 5000 (seqZ 0 4096) ltac:(vm_compute; reflexivity))
    as (d & d' & d'' & k & H1 & H2 & H3 & H4 & H5 & H6 & H7 & H8).
  exists d, (- ENOMEM), d', k. split_and!; [exact H1|exact H2|exact H3|exact H4|reflexivity|exact H5|exact H6|exact H7|by exists d''].
Qed.
