(* ===== verification/UbDecoderQueue.v ===== *)
(** * The queues of the address decoder

    The command queue of [hisi-decoder.c], which invalidates what the hardware has cached of
    the table, as counters of entries ([counts] of the command queues of the memory unit: the
    indices have the same form); and the queue of events, with the handler of an illegal
    command, which works on the registers of the command queue. *)

From S2P Require Import Prelude UmmuQueue UmmuCmd UbDecoder UbDecoderInv.

(** ** The command queue as counters *)

Definition ll (q : decoder_queue) : ummu_ll_queue := {| prod := wr_idx q; cons := rd_idx q; log2size := qs q |}.

(** [P] commands were written and [C] read; the indices fit in their fields. *)
Definition dq_counts (q : decoder_queue) (P C : Z) : Prop := qs q <= 10 /\ counts (ll q) false false P C.

(** The hardware reads commands in order, and none that is not there. *)
Definition reads_ok (q : decoder_queue) (P C : Z) (reads : list (Z + Z)) : Prop :=
  Forall (fun x => match x with
                   | inl err => err <> 0
                   | inr v => exists C', C <= C' <= P /\ uwrap 11 v = ptr (qs q) false C'
                   end) reads.

Lemma ptr_plain (n P : Z) : ptr n false P = P mod 2 ^ (n + 1).
Proof. done. Qed.
Lemma ptr_11 (n P : Z) : 0 <= n <= 10 -> uwrap 11 (ptr n false P) = ptr n false P.
Proof.
  intros Hn. rewrite ptr_plain. apply uwrap_small. pose proof (Z.mod_pos_bound P (2 ^ (n + 1)) ltac:(apply pow2_pos; lia)).
  assert (2 ^ (n + 1) <= 2 ^ 11) by (apply Z.pow_le_mono_r; lia). lia.
Qed.

Lemma inc_prod_ptr (q : decoder_queue) (P C k : Z) : dq_counts q P C -> 0 <= k <= 2 ^ 31 -> queue_inc_prod_n q k = ptr (qs q) false (P + k).
Proof.
  intros [_ Hc] Hk. pose proof (inc_prod_counts (ll q) _ _ _ _ k Hc Hk) as E. destruct Hc as (Hn & Hp & _).
  cbn [ll log2size prod] in *. rewrite <- E. unfold ummu_queue_inc_prod_n. cbn [ll log2size prod].
  assert (Hf : Q_OVF (wr_idx q) = 0) by (rewrite Hp; exact (ptr_ovf (qs q) Hn false P)). rewrite Hf. done.
Qed.
Lemma idx_of (q : decoder_queue) (P C : Z) : dq_counts q P C -> dq_idx q (wr_idx q) = P mod 2 ^ qs q.
Proof. intros [_ (Hn & Hp & _)]. cbn in Hp. rewrite Hp. exact (idx_ptr (ll q) false P Hn). Qed.

Lemma wait_ok (P C : Z) (reads : list (Z + Z)) : forall q C0, 0 <= C -> P - C <= 2 ^ qs q -> C <= C0 -> dq_counts q P C0 -> reads_ok q P C reads ->
  exists r q' C', wait_for_cmdq_free reads q 1 = (r, q') /\ C <= C' /\ dq_counts q' P C' /\ qs q' = qs q /\
    ring q' = ring q /\ (r = 0 -> P + 2 <= C' + 2 ^ qs q).
Proof.
  induction reads as [|[err|v] reads IH]; intros q C0 HC HP H0 Hc Hr; cbn [wait_for_cmdq_free].
  - by exists (- ETIMEDOUT), q, C0.
  - apply Forall_cons in Hr as [He _]. by exists err, q, C0.
  - apply Forall_cons in Hr as [(C1 & HC1 & Ev) Hr].
    assert (Hc' : dq_counts (UbDecoder.set_cons q v) P C1).
    { destruct Hc as [Hq (H1 & H2 & _)]. split; [done|]. split_and!; cbn in *; (done || lia). }
    destruct (queue_has_space _ _) eqn:Es.
    + exists 0, (UbDecoder.set_cons q v), C1. split_and!; try done; [lia|]. intros _.
      apply (has_space_counts (ll (UbDecoder.set_cons q v)) false false P C1 2); [apply Hc'|done|exact Es].
    + destruct (IH (UbDecoder.set_cons q v) C1 HC HP ltac:(lia) Hc' Hr) as (r & q' & C' & E & ?). by exists r, q', C'.
Qed.

(** One command is written behind the others. *)
Lemma put_ok (q : decoder_queue) (P C : Z) (c : Z * Z) : dq_counts q P C -> P + 1 <= C + 2 ^ qs q ->
  let q' := set_wr_idx (put_cmd q c) (queue_inc_prod_n (put_cmd q c) 1) in
  dq_counts q' (P + 1) C /\ qs q' = qs q /\ ring q' (P mod 2 ^ qs q) = c /\
  forall X, P - 2 ^ qs q < X < P -> ring q' (X mod 2 ^ qs q) = ring q (X mod 2 ^ qs q).
Proof.
  intros Hc Hs q'. pose proof Hc as [Hq (Hn & Hp & Hcn & Hle & Hd)]. unfold size_ok in Hn. cbn [ll log2size prod cons] in *.
  pose proof (idx_of q P C Hc) as Hi. change (queue_inc_prod_n (put_cmd q c) 1) with (queue_inc_prod_n q 1) in q'.
  split; [split; [done|]|split; [done|split]].
  - split_and!; cbn [q' ll log2size prod cons set_wr_idx put_cmd wr_idx rd_idx qs]; try (done || lia).
    rewrite (inc_prod_ptr q P C 1 Hc) by lia. apply ptr_11. lia.
  - cbn [q' set_wr_idx put_cmd ring]. by rewrite Hi, Z.eqb_refl.
  - intros X HX. cbn [q' set_wr_idx put_cmd ring]. rewrite Hi. destruct (Z.eqb_spec (X mod 2 ^ qs q) (P mod 2 ^ qs q)) as [E|]; [|done].
    exfalso. pose proof (pow2_pos (qs q) ltac:(lia)).
    pose proof (Z.div_mod X (2 ^ qs q) ltac:(lia)). pose proof (Z.div_mod P (2 ^ qs q) ltac:(lia)).
    assert (Em : (P / 2 ^ qs q - X / 2 ^ qs q) * 2 ^ qs q = P - X) by (rewrite Z.mul_sub_distr_r; lia).
    generalize dependent (P / 2 ^ qs q - X / 2 ^ qs q). intros a Ea. assert (0 < a) by nia. assert (a < 1) by nia. lia.
Qed.

(** ** What an invalidation names *)

(** The command [c] tells the hardware to forget the page [p] (pages of 1 MB, counted from the
    last multiple of 16 TB). *)
Definition tlbi_hits (c : Z * Z) (p : Z) : bool :=
  (FIELD_GET (GENMASK 7 0) (fst c) =? TLBI_PARTIAL) && (FIELD_GET (GENMASK 59 32) (fst c) <=? p mod 2 ^ 24) &&
  (p mod 2 ^ 24 <=? FIELD_GET (GENMASK 27 0) (snd c)).
Definition is_sync (c : Z * Z) : bool := FIELD_GET (GENMASK 7 0) (fst c) =? SYNC.

Definition tlbi_cmd (addr size op : Z) : Z * Z :=
  (Z.lor (FIELD_PREP (GENMASK 7 0) (u8 op))
         (FIELD_PREP (GENMASK 59 32) (uwrap 28 (Z.shiftr (Z.land addr TLBI_ADDR_MASK) TLBI_ADDR_OFFSET))),
   FIELD_PREP (GENMASK 27 0) (uwrap 28 (Z.shiftr (Z.land (u64 (addr + size - 1)) TLBI_ADDR_MASK) TLBI_ADDR_OFFSET))).

Lemma tlbi_addr (x : Z) : 0 <= uwrap 28 (Z.shiftr (Z.land x TLBI_ADDR_MASK) TLBI_ADDR_OFFSET) < 2 ^ 28 /\
  uwrap 28 (Z.shiftr (Z.land x TLBI_ADDR_MASK) TLBI_ADDR_OFFSET) = (x / SZ_1M) mod 2 ^ 24.
Proof.
  unfold TLBI_ADDR_MASK, TLBI_ADDR_OFFSET. rewrite field_div by lia. change (2 ^ (43 - 20 + 1)) with (2 ^ 24).
  pose proof (Z.mod_pos_bound (x / 2 ^ 20) (2 ^ 24) ltac:(lia)). unfold SZ_1M. rewrite uwrap_small by lia. lia.
Qed.

Lemma tlbi_hits_ok (addr size p : Z) : 0 <= addr -> 0 < size -> addr + size <= 2 ^ 64 -> addr / 2 ^ 44 = (addr + size - 1) / 2 ^ 44 ->
  p / 2 ^ 24 = addr / 2 ^ 44 ->
  tlbi_hits (tlbi_cmd addr size TLBI_PARTIAL) p = true <-> addr / SZ_1M <= p <= (addr + size - 1) / SZ_1M.
Proof.
  intros H0 H1 H2 Hl Hp. destruct (tlbi_addr addr) as [R1 E1]. destruct (tlbi_addr (u64 (addr + size - 1))) as [R2 E2].
  unfold tlbi_hits, tlbi_cmd. cbn [fst snd]. rewrite !get_lor, (get_prep_other _ (GENMASK 7 0) (GENMASK 59 32)), (get_prep_other _ (GENMASK 59 32) (GENMASK 7 0)) by reflexivity.
  rewrite (get_prep _ (GENMASK 7 0)), (get_prep _ (GENMASK 59 32)), (get_prep _ (GENMASK 27 0)) by (done || reflexivity).
  rewrite Z.lor_0_r, Z.lor_0_l, E1, E2, (uwrap_small 64) by lia. change (u8 TLBI_PARTIAL =? TLBI_PARTIAL) with true. cbn [andb].
  rewrite andb_true_iff, !Z.leb_le. unfold SZ_1M.
  assert (Hd : forall x, x / 2 ^ 44 = x / 2 ^ 20 / 2 ^ 24) by (intros x; rewrite Z.div_div by lia; done). rewrite !Hd in *.
  pose proof (Z.div_mod (addr / 2 ^ 20) (2 ^ 24) ltac:(lia)). pose proof (Z.div_mod ((addr + size - 1) / 2 ^ 20) (2 ^ 24) ltac:(lia)).
  pose proof (Z.div_mod p (2 ^ 24) ltac:(lia)). lia.
Qed.

Lemma sync_ok (q_base : Z) (q : decoder_queue) (P C : Z) : dq_counts q P C -> P + 1 <= C + 2 ^ qs q ->
  let q' := decoder_cmdq_issue_sync q_base q in
  dq_counts q' (P + 1) C /\ qs q' = qs q /\ is_sync (ring q' (P mod 2 ^ qs q)) = true /\
  forall X, P - 2 ^ qs q < X < P -> ring q' (X mod 2 ^ qs q) = ring q (X mod 2 ^ qs q).
Proof.
  intros Hc Hs. unfold decoder_cmdq_issue_sync. cbv zeta. match goal with |- context [put_cmd q ?c] => destruct (put_ok q P C c Hc Hs) as (H1 & H2 & H3 & H4) end.
  split; [exact H1|]. split; [exact H2|]. split; [|exact H4]. rewrite H3. reflexivity.
Qed.

(** C36: one request of an invalidation, of any part of the window that does not cross a
    multiple of 16 TB.  It returns; it either fails without a command written, or leaves two
    commands behind those that are there: one that names exactly the pages of the request, then
    a [SYNC].  No command is lost that the hardware has not read, and the queue is never
    overrun.  It succeeds exactly if the [SYNC] was notified in time. *)
Theorem decoder_cmd_request_spec (q_base : Z) (hw : hw_answers) (d : ub_decoder) (addr size P C : Z)
  (Hc : dq_counts (cmdq d) P C) (Hr : reads_ok (cmdq d) P C (cons_reads hw))
  (H0 : 0 <= addr) (H1 : 0 < size) (H2 : addr + size <= 2 ^ 64) (Hl : addr / 2 ^ 44 = (addr + size - 1) / 2 ^ 44) :
  exists r q C', hi_decoder_cmd_request q_base hw d addr size TLBI_PARTIAL = (r, set_cmdq d q) /\ C <= C' /\ qs q = qs (cmdq d) /\
    ((r <> 0 /\ dq_counts q P C' /\ ring q = ring (cmdq d)) \/
     (r = (if notified hw then 0 else - ETIMEDOUT) /\ dq_counts q (P + 2) C' /\
      (forall X, C' <= X < P -> ring q (X mod 2 ^ qs q) = ring (cmdq d) (X mod 2 ^ qs q)) /\
      (forall p, p / 2 ^ 24 = addr / 2 ^ 44 ->
         tlbi_hits (ring q (P mod 2 ^ qs q)) p = true <-> addr / SZ_1M <= p <= (addr + size - 1) / SZ_1M) /\
      is_sync (ring q ((P + 1) mod 2 ^ qs q)) = true)).
Proof.
  pose proof Hc as [_ (_ & _ & _ & Hle & Hd)]. unfold hi_decoder_cmd_request.
  destruct (wait_ok P C (cons_reads hw) (cmdq d) C ltac:(lia) Hd ltac:(lia) Hc Hr) as (r & q & C' & -> & HC & Hq & Eq & Er & Hs).
  destruct (ctrue r) eqn:Ec.
  { apply ctrue_nz in Ec. exists r, q, C'. split; [done|]. split; [done|]. split; [done|]. by left. }
  apply ctrue_z in Ec as ->. specialize (Hs eq_refl). rewrite <- Eq in Hs.
  destruct (put_ok q P C' (tlbi_cmd addr size TLBI_PARTIAL) Hq ltac:(lia)) as (A1 & A2 & A3 & A4).
  fold (tlbi_cmd addr size TLBI_PARTIAL). set (q1 := decoder_cmdq_issue_cmd q addr size TLBI_PARTIAL).
  change (dq_counts q1 (P + 1) C') in A1. change (qs q1 = qs q) in A2. change (ring q1 (P mod 2 ^ qs q) = tlbi_cmd addr size TLBI_PARTIAL) in A3.
  change (forall X, P - 2 ^ qs q < X < P -> ring q1 (X mod 2 ^ qs q) = ring q (X mod 2 ^ qs q)) in A4. clearbody q1.
  destruct (sync_ok q_base q1 (P + 1) C' A1 ltac:(rewrite A2; lia)) as (B1 & B2 & B3 & B4). rewrite A2 in B2, B3, B4.
  set (q2 := decoder_cmdq_issue_sync q_base q1) in *. clearbody q2.
  eexists _, (decoder_cmdq_update_prod q2 (prod_err hw)), C'. split; [done|]. split; [done|].
  split; [cbn; congruence|]. right. replace (P + 1 + 1) with (P + 2) in B1 by lia. cbn [decoder_cmdq_update_prod qs ring]. rewrite B2.
  split; [done|]. split; [exact B1|]. split; [|split].
  - intros X HX. rewrite B4, A4, Er by lia. done.
  - intros p Hp. destruct Hq as [_ (_ & _ & _ & Hle' & _)]. rewrite B4, A3 by lia. by apply tlbi_hits_ok.
  - exact B3.
Qed.

Lemma decoder_cmd_request_witness :
  let d := {| mmio_base_addr := 0; mmio_end_addr := 0; rg_size := 0; create_matt := false; invalid_page_dma := 0; pgtlb := fun _ => 0;
              desc_base := fun _ => zero_desc; mem := ∅; asked := 0; denied := 0;
              cmdq := {| qs := 2; wr_idx := 3; rd_idx := 0; err_resp := 0; ring := fun _ => (0, 0) |} |} in
  exists r q C', hi_decoder_cmd_request 0 {| cons_reads := [inr 0; inr 2]; prod_err := 0; notified := true |} d (5 * SZ_1M) (3 * SZ_1M) TLBI_PARTIAL =
    (r, set_cmdq d q) /\ 0 <= C'.
Proof.
  intros d. destruct (decoder_cmd_request_spec 0 {| cons_reads := [inr 0; inr 2]; prod_err := 0; notified := true |} d (5 * SZ_1M) (3 * SZ_1M) 3 0)
    as (r & q & C' & E & HC & _).
  - split; [done|]. split_and!; (reflexivity || done).
  - repeat constructor; [exists 0|exists 2]; split; (done || reflexivity).
  - done.
  - done.
  - done.
  - reflexivity.
  - exists r, q, C'. exact (conj E HC).
Defined.
