(* ===== verification/UbDecoderEvents.v ===== *)
(** * Events of the address decoder

    [hi_decoder_event_deal] of [hisi-decoder.c], which an interrupt runs: it reads the events
    between the two indices of the event queue, and for an illegal command puts a harmless one
    in its place and acknowledges the error.  The acknowledgement is a bit of the register that
    also holds the producer index of the command queue, which requests write as well. *)

From S2P Require Import Prelude UmmuQueue UmmuCmd UbDecoder UbDecoderInv UbDecoderQueue.

(** ** Data *)

Definition EVENT_ADDR_OUT_OF_RANGE : Z := 1.
Definition EVENT_ILLEGAL_CMD : Z := 2.
Definition TLBI_ALL : Z := 2.

(** The fields of [struct queue_idx], one word. *)
Definition idx_wr (x : Z) : Z := bf_get 0 11 x.
Definition idx_err (x : Z) : Z := bf_get 16 1 x.
Definition set_idx_err (v x : Z) : Z := bf_set 16 1 v x.

(** What the driver reports. *)
Inductive report := out_of_range (addr : Z) | illegal_cmd (op : Z) | invalid_event (id : Z).

(** The event queue, the bits of [cons.val] beside the index, which the driver keeps, and the consumer register; the registers and the ring of the command
    queue; the reports, and the number of register accesses so far. *)
Record evt_state := {
  evtq : decoder_queue; evt_rest : Z; evt_ci : Z;
  cmd_qs : Z; cmd_prod : Z; cmd_cons : Z; cmd_ring : Z -> Z * Z;
  reports : list report; accesses : nat;
}.
Definition set_evtq (s : evt_state) (q : decoder_queue) : evt_state :=
  {| evtq := q; evt_rest := evt_rest s; evt_ci := evt_ci s; cmd_qs := cmd_qs s; cmd_prod := cmd_prod s; cmd_cons := cmd_cons s;
     cmd_ring := cmd_ring s; reports := reports s; accesses := accesses s |}.
Definition add_report (s : evt_state) (r : report) : evt_state :=
  {| evtq := evtq s; evt_rest := evt_rest s; evt_ci := evt_ci s; cmd_qs := cmd_qs s; cmd_prod := cmd_prod s; cmd_cons := cmd_cons s;
     cmd_ring := cmd_ring s; reports := reports s ++ [r]; accesses := accesses s |}.
Definition set_cmd (s : evt_state) (p : Z) (w : Z -> Z * Z) (n : nat) : evt_state :=
  {| evtq := evtq s; evt_rest := evt_rest s; evt_ci := evt_ci s; cmd_qs := cmd_qs s; cmd_prod := p; cmd_cons := cmd_cons s;
     cmd_ring := w; reports := reports s; accesses := n |}.
Definition set_ci (s : evt_state) (c : Z) (n : nat) : evt_state :=
  {| evtq := evtq s; evt_rest := evt_rest s; evt_ci := c; cmd_qs := cmd_qs s; cmd_prod := cmd_prod s; cmd_cons := cmd_cons s;
     cmd_ring := cmd_ring s; reports := reports s; accesses := n |}.

(** ** Operations *)

Definition queue_empty (q : decoder_queue) : bool :=
  (dq_idx q (wr_idx q) =? dq_idx q (rd_idx q)) && (dq_wrp q (wr_idx q) =? dq_wrp q (rd_idx q)).
Definition queue_inc_cons (q : decoder_queue) : decoder_queue :=
  let cons := u32 (Z.lor (dq_wrp q (rd_idx q)) (dq_idx q (rd_idx q)) + 1) in
  UbDecoder.set_cons q (Z.lor (dq_wrp q cons) (dq_idx q cons)).

Section Events.
(** Whether the [n]-th access to a register succeeds. *)
Context (cfg_ok : nat -> bool).

Definition fix_err_cmd (s : evt_state) : evt_state :=
  let n := accesses s in
  if negb (cfg_ok n) then set_cmd s (cmd_prod s) (cmd_ring s) (n + 1)
  else if negb (cfg_ok (n + 1)) then set_cmd s (cmd_prod s) (cmd_ring s) (n + 2)
  else
    let i := Z.land (idx_wr (cmd_cons s)) (Z.shiftl 1 (cmd_qs s) - 1) in
    let w := fun j => if j =? i then (FIELD_PREP (GENMASK 7 0) TLBI_ALL, 0) else cmd_ring s j in
    let prod := set_idx_err (idx_err (cmd_cons s)) (cmd_prod s) in
    set_cmd s (if cfg_ok (n + 2) then prod else cmd_prod s) w (n + 3).

Definition handle_evt (s : evt_state) (evt : Z * Z) : evt_state :=
  let id := FIELD_GET (GENMASK 7 0) (fst evt) in
  if id =? EVENT_ADDR_OUT_OF_RANGE then add_report s (out_of_range (u32 (FIELD_GET (GENMASK 59 32) (fst evt))))
  else if id =? EVENT_ILLEGAL_CMD then fix_err_cmd (add_report s (illegal_cmd (u32 (FIELD_GET (GENMASK 39 32) (fst evt)))))
  else add_report s (invalid_event (u32 id)).

Fixpoint event_loop (fuel : nat) (s : evt_state) : option evt_state :=
  match fuel with
  | O => None
  | S fuel' =>
    if queue_empty (evtq s) then Some s
    else
      let s := handle_evt s (ring (evtq s) (dq_idx (evtq s) (rd_idx (evtq s)))) in
      let s := set_evtq s (queue_inc_cons (evtq s)) in
      let n := accesses s in
      event_loop fuel' (set_ci s (if cfg_ok n then bf_set 0 11 (rd_idx (evtq s)) (evt_rest s) else evt_ci s) (n + 1))
  end.

(** [pi] is the value of the producer register; its index has 11 bits. *)
Definition hi_decoder_event_deal (pi : Z) (s : evt_state) : option evt_state :=
  let n := accesses s in
  let s := set_ci s (evt_ci s) (n + 1) in
  if negb (cfg_ok n) then Some s
  else
    let q := evtq s in
    event_loop (Z.to_nat (2 ^ 11)) (set_evtq s {| qs := qs q; wr_idx := idx_wr pi; rd_idx := rd_idx q; err_resp := err_resp q; ring := ring q |}).
End Events.

(** ** The indices *)

Lemma idx_mod (q : decoder_queue) (p : Z) : 0 <= qs q -> dq_idx q p = p mod 2 ^ qs q.
Proof. exact (Q_IDX_mod (ll q) p). Qed.
Lemma idx_wrp_mod (q : decoder_queue) (p : Z) : 0 <= qs q -> Z.lor (dq_wrp q p) (dq_idx q p) = p mod 2 ^ (qs q + 1).
Proof. exact (low_bits (ll q) p). Qed.

Lemma empty_mod (q : decoder_queue) : 0 <= qs q -> queue_empty q = true <-> wr_idx q mod 2 ^ (qs q + 1) = rd_idx q mod 2 ^ (qs q + 1).
Proof.
  intros Hq. unfold queue_empty. rewrite andb_true_iff, !Z.eqb_eq. split.
  - intros [Ei Ew]. by rewrite <- !idx_wrp_mod, Ei, Ew by done.
  - intros E. exact (idx_wrp_cong (ll q) (wr_idx q) (rd_idx q) Hq E).
Qed.

Lemma inc_cons_ok (q : decoder_queue) : 0 <= qs q <= 10 ->
  queue_inc_cons q = {| qs := qs q; wr_idx := wr_idx q; rd_idx := (rd_idx q + 1) mod 2 ^ (qs q + 1); err_resp := err_resp q; ring := ring q |}.
Proof.
  intros Hq. unfold queue_inc_cons. rewrite !idx_wrp_mod by lia. unfold UbDecoder.set_cons. f_equal.
  pose proof (pow2_pos (qs q + 1) ltac:(lia)). assert (2 ^ (qs q + 1) <= 2 ^ 11) by (apply Z.pow_le_mono_r; lia).
  pose proof (Z.mod_pos_bound (rd_idx q) (2 ^ (qs q + 1)) ltac:(lia)). rewrite (uwrap_small 32) by lia.
  rewrite Zplus_mod_idemp_l. pose proof (Z.mod_pos_bound (rd_idx q + 1) (2 ^ (qs q + 1)) ltac:(lia)). apply uwrap_small. lia.
Qed.

(** ** One event *)

Definition report_of (evt : Z * Z) : report :=
  let id := FIELD_GET (GENMASK 7 0) (fst evt) in
  if id =? EVENT_ADDR_OUT_OF_RANGE then out_of_range (u32 (FIELD_GET (GENMASK 59 32) (fst evt)))
  else if id =? EVENT_ILLEGAL_CMD then illegal_cmd (u32 (FIELD_GET (GENMASK 39 32) (fst evt)))
  else invalid_event (u32 id).
Definition is_illegal (evt : Z * Z) : bool := FIELD_GET (GENMASK 7 0) (fst evt) =? EVENT_ILLEGAL_CMD.

(** The place of the command the hardware stopped at. *)
Definition stopped_at (s : evt_state) : Z := Z.land (idx_wr (cmd_cons s)) (Z.shiftl 1 (cmd_qs s) - 1).
(** A harmless command is there, and the error is acknowledged. *)
Definition fixed (s : evt_state) : Prop :=
  cmd_ring s (stopped_at s) = (TLBI_ALL, 0) /\ idx_err (cmd_prod s) = idx_err (cmd_cons s).

(** What events may change of the command queue. *)
Record cmd_rel (s s' : evt_state) : Prop := {
  cr_qs : cmd_qs s' = cmd_qs s;
  cr_cons : cmd_cons s' = cmd_cons s;
  cr_wr : idx_wr (cmd_prod s') = idx_wr (cmd_prod s);
  cr_ring : forall j, j <> stopped_at s -> cmd_ring s' j = cmd_ring s j;
  cr_fixed : fixed s -> fixed s';
}.

Lemma cmd_rel_refl (s s' : evt_state) : cmd_qs s' = cmd_qs s -> cmd_cons s' = cmd_cons s -> cmd_prod s' = cmd_prod s ->
  cmd_ring s' = cmd_ring s -> cmd_rel s s'.
Proof. intros E1 E2 E3 E4. split; try done; unfold fixed, stopped_at; rewrite ?E1, ?E2, ?E3, ?E4; done. Qed.
Lemma cmd_rel_trans (s s1 s2 : evt_state) : cmd_rel s s1 -> cmd_rel s1 s2 -> cmd_rel s s2.
Proof.
  intros [A1 A2 A3 A4 A5] [B1 B2 B3 B4 B5]. split; try congruence; [|by intros ?%A5%B5].
  intros j Hj. rewrite B4, A4; [done|done|]. unfold stopped_at in *. by rewrite A1, A2.
Qed.

Lemma err_set (v x : Z) : idx_err (set_idx_err (idx_err v) x) = idx_err v /\ idx_wr (set_idx_err (idx_err v) x) = idx_wr x.
Proof.
  unfold idx_err, idx_wr, set_idx_err. rewrite bf_get_set, bf_get_set_ne by lia. split; [|done].
  apply uwrap_small, bf_get_range. lia.
Qed.

Section Spec.
Context (cfg_ok : nat -> bool).

Lemma fix_ok (s : evt_state) : let s' := fix_err_cmd cfg_ok s in
  evtq s' = evtq s /\ evt_ci s' = evt_ci s /\ reports s' = reports s /\ cmd_rel s s' /\ ((forall n, cfg_ok n = true) -> fixed s').
Proof.
  unfold fix_err_cmd. cbv zeta. destruct (cfg_ok (accesses s)) eqn:E1; cbn [negb]; swap 1 2.
  { do 3 (split; [done|]). split; [by apply cmd_rel_refl|]. intros Hk. by rewrite Hk in E1. }
  destruct (cfg_ok (accesses s + 1)) eqn:E2; cbn [negb]; swap 1 2.
  { do 3 (split; [done|]). split; [by apply cmd_rel_refl|]. intros Hk. by rewrite Hk in E2. }
  fold (stopped_at s). set (x := if cfg_ok (accesses s + 2) then _ else _). destruct (err_set (cmd_cons s) (cmd_prod s)) as [Ee Ew].
  assert (Hring : forall b : Z -> Z * Z, (if stopped_at s =? stopped_at s then (FIELD_PREP (GENMASK 7 0) TLBI_ALL, 0) else b (stopped_at s)) = (TLBI_ALL, 0))
    by (intros b; by rewrite Z.eqb_refl).
  split_and!; try done.
  - split; try done; cbn [set_cmd cmd_prod cmd_ring].
    + unfold x. by destruct (cfg_ok (accesses s + 2)).
    + intros j Hj. by rewrite (proj2 (Z.eqb_neq j _) Hj).
    + intros [F1 F2]. split; cbn [set_cmd cmd_prod cmd_ring cmd_cons]; [apply (Hring (cmd_ring s))|]. unfold x. by destruct (cfg_ok (accesses s + 2)).
  - intros Hk. split; cbn [set_cmd cmd_prod cmd_ring cmd_cons]; [apply (Hring (cmd_ring s))|]. unfold x. by rewrite Hk.
Qed.

Lemma handle_ok (s : evt_state) (e : Z * Z) : let s' := handle_evt cfg_ok s e in
  evtq s' = evtq s /\ evt_ci s' = evt_ci s /\ reports s' = reports s ++ [report_of e] /\ cmd_rel s s' /\
  (is_illegal e = false -> cmd_prod s' = cmd_prod s /\ cmd_ring s' = cmd_ring s) /\
  (is_illegal e = true -> (forall n, cfg_ok n = true) -> fixed s').
Proof.
  unfold handle_evt, report_of, is_illegal. cbv zeta. destruct (Z.eqb_spec (FIELD_GET (GENMASK 7 0) (fst e)) EVENT_ADDR_OUT_OF_RANGE) as [->|_].
  { do 3 (split; [done|]). split; [by apply cmd_rel_refl|]. by split. }
  destruct (Z.eqb_spec (FIELD_GET (GENMASK 7 0) (fst e)) EVENT_ILLEGAL_CMD) as [_|_]; [|do 3 (split; [done|]); split; [by apply cmd_rel_refl|]; by split].
  match goal with |- context [add_report s ?r] => destruct (fix_ok (add_report s r)) as (H1 & H2 & H3 & H4 & H5) end.
  split_and!; try done. eapply cmd_rel_trans; [|exact H4]. by apply cmd_rel_refl.
Qed.

(** The first [n] events that were not read. *)
Definition pending (q : decoder_queue) (n : Z) : list (Z * Z) := (fun k => ring q ((rd_idx q + k) mod 2 ^ qs q)) <$> seqZ 0 n.

Lemma pending_cons (q : decoder_queue) (n : Z) : 0 <= qs q <= 10 -> 0 < n ->
  pending q n = ring q (dq_idx q (rd_idx q)) :: pending (queue_inc_cons q) (n - 1).
Proof.
  intros Hq Hn. unfold pending. rewrite seqZ_cons by lia. rewrite fmap_cons, Z.add_0_r, idx_mod by lia. f_equal.
  replace (Z.pred n) with (n - 1) by lia. change (Z.succ 0) with (1 + 0). rewrite <- (fmap_add_seqZ 1 0 (n - 1)), <- list_fmap_compose. apply list_fmap_ext. intros _ k _.
  rewrite inc_cons_ok by done. cbn [compose ring rd_idx qs]. f_equal.
  assert (Hd : forall x, x mod 2 ^ (qs q + 1) mod 2 ^ qs q = x mod 2 ^ qs q).
  { intros x. apply Z.mod_mod_divide. exists 2. rewrite Z.pow_add_r by lia. lia. }
  rewrite <- (Zplus_mod_idemp_l ((rd_idx q + 1) mod 2 ^ (qs q + 1))), Hd, Zplus_mod_idemp_l. f_equal. lia.
Qed.

Lemma pending_length (q : decoder_queue) (n : Z) : length (pending q n) = Z.to_nat n.
Proof. unfold pending. by rewrite length_fmap, length_seqZ. Qed.

(** What the loop has done once it ends. *)
Definition dealt (s s' : evt_state) (n : Z) : Prop :=
  reports s' = reports s ++ map report_of (pending (evtq s) n) /\ cmd_rel s s' /\
  (existsb is_illegal (pending (evtq s) n) = false -> cmd_prod s' = cmd_prod s /\ cmd_ring s' = cmd_ring s) /\
  ((forall k, cfg_ok k = true) -> (existsb is_illegal (pending (evtq s) n) = true -> fixed s') /\
    (0 < n -> evt_ci s' = bf_set 0 11 (wr_idx (evtq s) mod 2 ^ (qs (evtq s) + 1)) (evt_rest s))) /\
  (n = 0 -> evt_ci s' = evt_ci s).

Lemma left_zero (w r m : Z) : 0 < m -> (w - r) mod m = 0 <-> w mod m = r mod m.
Proof.
  intros Hm. split; intros E.
  - replace w with (r + (w - r)) by lia. by rewrite <- Zplus_mod_idemp_r, E, Z.add_0_r.
  - by rewrite Zminus_mod, E, Z.sub_diag, Z.mod_0_l by lia.
Qed.
Lemma left_step (w r m : Z) : 0 < m -> (w - r) mod m <> 0 -> (w - (r + 1) mod m) mod m = (w - r) mod m - 1.
Proof.
  intros Hm Hn. rewrite Zminus_mod_idemp_r. pose proof (Z.mod_pos_bound (w - r) m Hm).
  replace (w - (r + 1)) with (w - r - 1) by lia. rewrite <- Zminus_mod_idemp_l. apply Z.mod_small. lia.
Qed.

Lemma event_loop_ok (fuel : nat) : forall s n, 0 <= qs (evtq s) <= 10 ->
  (wr_idx (evtq s) - rd_idx (evtq s)) mod 2 ^ (qs (evtq s) + 1) = n -> n < Z.of_nat fuel ->
  exists s', event_loop cfg_ok fuel s = Some s' /\ dealt s s' n /\
    rd_idx (evtq s') mod 2 ^ (qs (evtq s) + 1) = wr_idx (evtq s) mod 2 ^ (qs (evtq s) + 1).
Proof.
  induction fuel as [|fuel IH]; intros s n Hq Hn Hf.
  { pose proof (Z.mod_pos_bound (wr_idx (evtq s) - rd_idx (evtq s)) (2 ^ (qs (evtq s) + 1)) ltac:(apply pow2_pos; lia)). lia. }
  pose proof (pow2_pos (qs (evtq s) + 1) ltac:(lia)) as Hm.
  cbn [event_loop]. destruct (queue_empty (evtq s)) eqn:Ee.
  { apply empty_mod in Ee; [|lia]. assert (n = 0) as -> by (rewrite <- Hn; by apply left_zero). exists s. split; [done|]. split; [|done].
    split; [by rewrite app_nil_r|]. split; [by apply cmd_rel_refl|]. split; [done|]. split; [|done]. intros _. split; [done|lia]. }
  assert (Hn0 : n <> 0).
  { rewrite <- Hn. intros E%left_zero; [|done]. apply empty_mod in E; [|lia]. congruence. }
  set (e := ring (evtq s) (dq_idx (evtq s) (rd_idx (evtq s)))).
  assert (Hrest : evt_rest (handle_evt cfg_ok s e) = evt_rest s) by (unfold handle_evt, fix_err_cmd; cbv zeta; repeat case_match; done).
  destruct (handle_ok s e) as (H1 & H2 & H3 & H4 & H5 & H6). set (s1 := handle_evt cfg_ok s e) in *.
  rewrite H1. cbn [set_evtq evtq accesses evt_ci]. rewrite H2.
  set (s2 := set_ci _ _ _). pose proof (inc_cons_ok (evtq s) Hq) as Hi.
  assert (E2 : evtq s2 = queue_inc_cons (evtq s)) by done.
  destruct (IH s2 (n - 1)) as (s' & -> & (D1 & D2 & D3 & D4 & D0) & D5).
  { by rewrite E2, Hi. }
  { rewrite E2, Hi. cbn [qs wr_idx rd_idx]. rewrite left_step by congruence. lia. }
  { lia. }
  rewrite E2, Hi in D5. cbn [qs wr_idx] in D5. rewrite E2 in D1, D3, D4. exists s'. split; [done|]. split; [|done].
  assert (Hp : pending (evtq s) n = e :: pending (queue_inc_cons (evtq s)) (n - 1)).
  { apply pending_cons; [done|]. pose proof (Z.mod_pos_bound (wr_idx (evtq s) - rd_idx (evtq s)) _ Hm). lia. }
  assert (R12 : cmd_rel s1 s2) by (by apply cmd_rel_refl).
  unfold dealt. rewrite Hp. cbn [map existsb]. split; [|split; [|split; [|split; [|done]]]].
  - rewrite D1. change (reports s2) with (reports s1). by rewrite H3, <- app_assoc.
  - eapply cmd_rel_trans; [exact H4|]. by eapply cmd_rel_trans.
  - intros [Hl Hr]%orb_false_iff. destruct (D3 Hr) as [-> ->]. change (cmd_prod s2) with (cmd_prod s1). change (cmd_ring s2) with (cmd_ring s1). by apply H5.
  - intros Hk. destruct (D4 Hk) as [D6 D7]. split.
    + intros [Hl|Hr]%orb_true_iff; [|by apply D6]. apply (cr_fixed _ _ D2), (cr_fixed _ _ R12). by apply H6.
    + intros Hpos. destruct (decide (0 < n - 1)) as [Hlt|Hlast]; [rewrite D7 by done; rewrite Hi; change (evt_rest s2) with (evt_rest s1); by rewrite Hrest|].
      assert (n = 1) as -> by lia. rewrite (D0 ltac:(lia)). cbn [s2 set_ci evt_ci]. rewrite Hk, Hi. cbn [rd_idx]. change (evt_rest (set_evtq _ _)) with (evt_rest s1). rewrite Hrest. f_equal.
      symmetry. apply left_zero; [done|]. replace (wr_idx (evtq s) - (rd_idx (evtq s) + 1)) with (wr_idx (evtq s) - rd_idx (evtq s) - 1) by lia.
      rewrite <- Zminus_mod_idemp_l, Hn. apply Z.mod_0_l. lia.
Qed.
End Spec.

(** C40: the handler of events returns, whatever the registers and the ring hold.  If it can
    read the producer index it reports every pending event once and in order, until the queue is
    empty; the command queue stays as it is but for the one command the hardware stopped at;
    and if the registers can be accessed, the events are given back to the hardware (the index in its register moves, the other bits are those the driver keeps), and after
    an illegal command a harmless one is in its place and the error is acknowledged. *)
Theorem hi_decoder_event_deal_spec (cfg_ok : nat -> bool) (pi : Z) (s : evt_state) (n : Z) (Hq : 0 <= qs (evtq s) <= 10)
  (Hn : n = (idx_wr pi - rd_idx (evtq s)) mod 2 ^ (qs (evtq s) + 1)) :
  exists s', hi_decoder_event_deal cfg_ok pi s = Some s' /\ cmd_rel s s' /\
    if cfg_ok (accesses s) then
      reports s' = reports s ++ map report_of (pending (evtq s) n) /\
      rd_idx (evtq s') mod 2 ^ (qs (evtq s) + 1) = idx_wr pi mod 2 ^ (qs (evtq s) + 1) /\
      (existsb is_illegal (pending (evtq s) n) = false -> cmd_prod s' = cmd_prod s /\ cmd_ring s' = cmd_ring s) /\
      ((forall k, cfg_ok k = true) ->
        (0 < n -> evt_ci s' = bf_set 0 11 (idx_wr pi mod 2 ^ (qs (evtq s) + 1)) (evt_rest s)) /\
        (existsb is_illegal (pending (evtq s) n) = true -> fixed s'))
    else reports s' = reports s /\ evtq s' = evtq s.
Proof.
  unfold hi_decoder_event_deal. cbv zeta. destruct (cfg_ok (accesses s)) eqn:Ec; cbn [negb].
  2:{ eexists. split; [done|]. split; [by apply cmd_rel_refl|]. done. }
  set (s1 := set_evtq _ _). assert (Hlt : n < 2 ^ 11).
  { rewrite Hn. pose proof (Z.mod_pos_bound (idx_wr pi - rd_idx (evtq s)) (2 ^ (qs (evtq s) + 1)) ltac:(apply pow2_pos; lia)).
    assert (2 ^ (qs (evtq s) + 1) <= 2 ^ 11) by (apply Z.pow_le_mono_r; lia). lia. }
  destruct (event_loop_ok cfg_ok (Z.to_nat (2 ^ 11)) s1 n) as (s' & -> & (D1 & D2 & D3 & D4 & _) & D5); [done|done|lia|].
  exists s'. split; [done|]. split; [eapply cmd_rel_trans, D2; by apply cmd_rel_refl|].
  split; [exact D1|]. split; [exact D5|]. split; [exact D3|]. intros Hk. destruct (D4 Hk). by split.
Qed.

Lemma hi_decoder_event_deal_witness :
  let s := {| evtq := {| qs := 2; wr_idx := 0; rd_idx := 3; err_resp := 0; ring := fun i => if i =? 3 then (2, 0) else (1, 0) |};
              evt_rest := 0; evt_ci := 3; cmd_qs := 3; cmd_prod := 5; cmd_cons := 2 ^ 16 + 4; cmd_ring := fun _ => (7, 7); reports := []; accesses := 0 |} in
  exists s', hi_decoder_event_deal (fun _ => true) 5 s = Some s' /\ reports s' = [illegal_cmd 0; out_of_range 0] /\ fixed s'.
Proof.
  intros s. destruct (hi_decoder_event_deal_spec (fun _ => true) 5 s 2 ltac:(done) eq_refl) as (s' & E & _ & Hr & _ & _ & Hf).
  exists s'. split; [exact E|]. split; [rewrite Hr; reflexivity|]. apply Hf; reflexivity.
Defined.

(** ** Two writers of one register *)

(** A request ([decoder_cmdq_update_prod]) and the handler ([fix_err_cmd]) each read the
    producer register and write it back: the request with its new index [wr], the handler with
    the error bit of [cons]. *)
Inductive prod_step := req_read | req_write | irq_read | irq_write.
Record prod_regs := { reg : Z; req_err : Z; irq_prod : Z }.
Definition prod_run_step (cons wr : Z) (s : prod_regs) (st : prod_step) : prod_regs :=
  match st with
  | req_read => {| reg := reg s; req_err := idx_err (reg s); irq_prod := irq_prod s |}
  | req_write => {| reg := set_idx_err (req_err s) (bf_set 0 11 wr 0); req_err := req_err s; irq_prod := irq_prod s |}
  | irq_read => {| reg := reg s; req_err := req_err s; irq_prod := reg s |}
  | irq_write => {| reg := set_idx_err (idx_err cons) (irq_prod s); req_err := req_err s; irq_prod := irq_prod s |}
  end.
Definition prod_run (cons wr r : Z) (l : list prod_step) : Z :=
  reg (foldl (prod_run_step cons wr) {| reg := r; req_err := 0; irq_prod := 0 |} l).

Lemma wr_set (v wr : Z) : 0 <= wr < 2 ^ 11 -> idx_wr (set_idx_err v (bf_set 0 11 wr 0)) = wr.
Proof. intros Hw. unfold idx_wr, set_idx_err. rewrite bf_get_set_ne, bf_get_set by lia. by apply uwrap_small. Qed.

(** no lock orders the two writers.  One after the other, in either order, both the new
    index and the acknowledgement reach the register; but when the interrupt comes between the
    read and the write of the request, the acknowledgement is lost, and when the request writes
    between the read and the write of the handler, the index goes back, and the hardware does not
    see the commands of the request. *)
Theorem decoder_prod_race :
  (forall cons wr r, 0 <= wr < 2 ^ 11 -> forall l, l = [req_read; req_write; irq_read; irq_write] \/ l = [irq_read; irq_write; req_read; req_write] ->
     idx_wr (prod_run cons wr r l) = wr /\ idx_err (prod_run cons wr r l) = idx_err cons) /\
  (exists cons wr r, idx_err (prod_run cons wr r [req_read; irq_read; irq_write; req_write]) <> idx_err cons) /\
  exists cons wr r, idx_wr (prod_run cons wr r [req_read; irq_read; req_write; irq_write]) <> wr.
Proof.
  split; [|split].
  - intros cons wr r Hw l [-> | ->]; unfold prod_run; cbn [foldl prod_run_step reg req_err irq_prod].
    + destruct (err_set cons (set_idx_err (idx_err r) (bf_set 0 11 wr 0))) as [-> ->]. split; [by apply wr_set|done].
    + destruct (err_set cons r) as [-> _]. split; [by apply wr_set|]. apply err_set.
  - exists (2 ^ 16), 2, 0. vm_compute. discriminate.
  - exists (2 ^ 16), 2, 0. vm_compute. discriminate.
Qed.
