(* ===== verification/UbRoute.v ===== *)
(** * Routing tables of the UB bus

    [drivers/ub/ubus/route.c]: each entity (a controller, a switch or another device) knows, for each
    of its ports, the network addresses (CNAs) it reaches through it, as a bitmap per port; beside the
    ports it keeps a sorted list with, for each address, the number of ports and the distance.  The
    list drives the update of the table in the configuration space.  When a link comes up or goes
    down, the routes of its two ends change, and the change is flooded to the other entities.

    A pointer to an entity is its position, and a pointer to a port that of its entity and its index;
    [None] is a pointer to nothing.  Whether the [n]-th allocation succeeds is an oracle. *)

From S2P Require Import Prelude.

Definition UB_ROUTE_TABLE_ENTRY_BITS : Z := 128.
Definition UB_ROUTE_KFIFO_DEPTH : nat := 16.
Abbreviation s16 := (swrap 16).

(** ** Data *)

(** [struct cna_node]. *)
Record cna_node := { cn_cna : Z; cn_distance : Z; cn_count : Z; cn_need : bool }.
(** [struct ub_port], its routes and its link. *)
Record ub_port := { p_cna : Z; cna_maps : gset Z; r_uent : option nat; r_index : nat }.
Inductive uent_kind := controller | switch | other.
(** [struct ub_entity]: what routing uses, and the words of the configuration space. *)
Record ub_entity := {
  u_cna : Z; u_kind : uent_kind; u_cluster : bool;
  ports : list ub_port; cna_list : list cna_node; route_updated : bool; cfg : Z -> Z;
}.
(** All entities, and the number of allocations so far. *)
Record bus := { ents : list ub_entity; allocs : nat }.

Definition port_nums (u : ub_entity) : Z := Z.of_nat (length (ports u)).
Definition set_maps (p : ub_port) (m : gset Z) : ub_port :=
  {| p_cna := p_cna p; cna_maps := m; r_uent := r_uent p; r_index := r_index p |}.
Definition set_ports (u : ub_entity) (l : list ub_port) : ub_entity :=
  {| u_cna := u_cna u; u_kind := u_kind u; u_cluster := u_cluster u; ports := l; cna_list := cna_list u;
     route_updated := route_updated u; cfg := cfg u |}.
Definition set_cna_list (u : ub_entity) (l : list cna_node) : ub_entity :=
  {| u_cna := u_cna u; u_kind := u_kind u; u_cluster := u_cluster u; ports := ports u; cna_list := l;
     route_updated := route_updated u; cfg := cfg u |}.
Definition set_updated (u : ub_entity) (b : bool) : ub_entity :=
  {| u_cna := u_cna u; u_kind := u_kind u; u_cluster := u_cluster u; ports := ports u; cna_list := cna_list u;
     route_updated := b; cfg := cfg u |}.
Definition set_cfg (u : ub_entity) (f : Z -> Z) : ub_entity :=
  {| u_cna := u_cna u; u_kind := u_kind u; u_cluster := u_cluster u; ports := ports u; cna_list := cna_list u;
     route_updated := route_updated u; cfg := f |}.

(** The bits of a port. *)
Definition test_bit (u : ub_entity) (i : nat) (c : Z) : bool :=
  match ports u !! i with Some p => bool_decide (c ∈ cna_maps p) | None => false end.
Definition set_bit (u : ub_entity) (i : nat) (c : Z) : ub_entity :=
  set_ports u (alter (fun p => set_maps p ({[c]} ∪ cna_maps p)) i (ports u)).
Definition clear_bit (u : ub_entity) (i : nat) (c : Z) : ub_entity :=
  set_ports u (alter (fun p => set_maps p (cna_maps p ∖ {[c]})) i (ports u)).

Section Route.
(** Whether the [n]-th [kzalloc] succeeds; where the table is in the configuration space. *)
Context (kzalloc : nat -> bool) (UB_ROUTE_TABLE_ENTRY_START : Z).

(** ** The list of an entity *)

Definition ub_create_cna_node (n : nat) (cna distance : Z) : option cna_node :=
  if kzalloc n then Some {| cn_cna := cna; cn_distance := u16 distance; cn_count := 1; cn_need := true |} else None.

Definition count_up (x : cna_node) : cna_node :=
  {| cn_cna := cn_cna x; cn_distance := cn_distance x; cn_count := u16 (cn_count x + 1); cn_need := cn_need x |}.

(** The walk from the tail of the list: [l] is the list in reverse. *)
Fixpoint add_walk (n : nat) (cna distance : Z) (l : list cna_node) : Z * list cna_node * nat :=
  match l with
  | [] => match ub_create_cna_node n cna distance with Some x => (0, [x], S n) | None => (- ENOMEM, [], S n) end
  | prev :: l' =>
    if cna <? cn_cna prev then let '(r, l', n) := add_walk n cna distance l' in (r, prev :: l', n)
    else if cn_cna prev =? cna then (0, count_up prev :: l', n)
    else match ub_create_cna_node n cna distance with Some x => (0, x :: l, S n) | None => (- ENOMEM, l, S n) end
  end.
Definition ub_add_cna_node (n : nat) (cna distance : Z) (l : list cna_node) : Z * list cna_node * nat :=
  let '(r, l, n) := add_walk n cna distance (rev l) in (r, rev l, n).

Fixpoint ub_find_cna_node (cna : Z) (l : list cna_node) : option cna_node :=
  match l with
  | [] => None
  | x :: l' => if cn_cna x <? cna then ub_find_cna_node cna l' else if cna <? cn_cna x then None else Some x
  end.
(** The node that was found is changed in place. *)
Fixpoint mod_cna_node (f : cna_node -> cna_node) (cna : Z) (l : list cna_node) : list cna_node :=
  match l with
  | [] => []
  | x :: l' => if cn_cna x =? cna then f x :: l' else x :: mod_cna_node f cna l'
  end.

Fixpoint copy_walk (n : nat) (update_only : bool) (l acc : list cna_node) : Z * list cna_node * nat :=
  match l with
  | [] => (0, acc, n)
  | x :: l' =>
    if update_only && negb (cn_need x) then copy_walk n update_only l' acc
    else match ub_create_cna_node n (cn_cna x) (cn_distance x) with
         | Some y => copy_walk (S n) update_only l' (acc ++ [y])
         | None => (- ENOMEM, [], S n)
         end
  end.
Definition ub_entity_copy_cna_list (n : nat) (u : ub_entity) (l : list cna_node) (update_only : bool) : Z * list cna_node * nat :=
  copy_walk n update_only (cna_list u) l.

Definition ub_route_clear (u : ub_entity) : ub_entity :=
  set_cna_list (set_ports u (map (fun p => set_maps p (filter (fun c => ~ c < UB_ROUTE_TABLE_ENTRY_BITS) (cna_maps p))) (ports u))) [].

(** ** Entries of a port *)

Definition ub_route_add_entry (n : nat) (u : ub_entity) (i : nat) (cna distance : Z) : Z * ub_entity * nat :=
  if test_bit u i cna then (- EEXIST, u, n)
  else
    let u := set_bit u i cna in
    let '(r, l, n) := ub_add_cna_node n cna distance (cna_list u) in (r, set_cna_list u l, n).

Definition ub_route_del_entry (u : ub_entity) (i : nat) (cna : Z) : ub_entity :=
  let u := clear_bit u i cna in
  match ub_find_cna_node cna (cna_list u) with
  | None => u
  | Some _ => set_cna_list u (mod_cna_node (fun x =>
      {| cn_cna := cn_cna x; cn_distance := cn_distance x; cn_count := u16 (cn_count x - 1); cn_need := true |}) cna (cna_list u))
  end.

Fixpoint del_walk (u : ub_entity) (i : nat) (l : list cna_node) (updated : bool) : bool * ub_entity :=
  match l with
  | [] => (updated, u)
  | x :: l' => if negb (test_bit u i (cn_cna x)) then del_walk u i l' updated
               else del_walk (ub_route_del_entry u i (cn_cna x)) i l' true
  end.
Definition ub_route_del_entries (u : ub_entity) (i : nat) (l : list cna_node) : bool * ub_entity :=
  let '(updated, u) := del_walk u i l false in (updated, if updated then set_updated u true else u).

Definition ub_entity_has_cna (cna : Z) (u : ub_entity) : bool :=
  (u_cna u =? cna) || existsb (fun p => p_cna p =? cna) (ports u).

(** The loop of [ub_route_mod_entries]; the first result is whether it got to its end. *)
Fixpoint mod_walk (n : nat) (u : ub_entity) (i : nat) (l : list cna_node) (off : Z) (updated : bool) : bool * bool * ub_entity * nat :=
  match l with
  | [] => (true, updated, u, n)
  | x :: l' =>
    let cna := cn_cna x in
    if test_bit u i cna then mod_walk n u i l' off updated
    else if ub_entity_has_cna cna u then mod_walk n u i l' off updated
    else
      let new_distance := s16 (cn_distance x + off) in
      match ub_find_cna_node cna (cna_list u) with
      | None =>
        let '(r, u, n) := ub_route_add_entry n u i cna new_distance in
        if ctrue r then (false, false, u, n) else mod_walk n u i l' off true
      | Some y =>
        if cn_distance y <? new_distance then mod_walk n u i l' off updated
        else
          let u := set_bit u i cna in
          let u := set_cna_list u (mod_cna_node (fun x =>
            {| cn_cna := cn_cna x; cn_distance := cn_distance x; cn_count := u16 (cn_count x + 1); cn_need := true |}) cna (cna_list u)) in
          mod_walk n u i l' off true
      end
  end.
Definition ub_route_mod_entries (n : nat) (u : ub_entity) (i : nat) (l : list cna_node) (off : Z) : bool * ub_entity * nat :=
  let '(fin, updated, u, n) := mod_walk n u i l off false in
  if fin then (updated, if updated then set_updated u true else u, n) else (false, u, n).

Definition ub_entity_support_forward (u : ub_entity) : bool :=
  match u_kind u with controller => true | switch => true | other => false end.

(** ** Clearing a port *)

(** The nodes before the first that is not below [cna]. *)
Fixpoint advance (cna : Z) (pre l : list cna_node) : list cna_node * list cna_node :=
  match l with
  | x :: l' => if cn_cna x <? cna then advance cna (pre ++ [x]) l' else (pre, l)
  | [] => (pre, l)
  end.
(** [l] starts at the current node; at the end of the list the bits are only cleared. *)
Fixpoint clear_walk (bits : list Z) (pre l : list cna_node) (updated : bool) : list cna_node * bool :=
  match bits with
  | [] => (pre ++ l, updated)
  | c :: bits' =>
    let '(pre, l) := advance c pre l in
    match l with
    | [] => clear_walk bits' pre l updated
    | x :: l' =>
      if cn_cna x =? c
      then clear_walk bits' pre ({| cn_cna := cn_cna x; cn_distance := cn_distance x; cn_count := u16 (cn_count x - 1); cn_need := true |} :: l') true
      else clear_walk bits' pre l updated
    end
  end.
Definition ub_route_clear_port (u : ub_entity) (i : nat) : ub_entity :=
  match ports u !! i with
  | None => u
  | Some p =>
    let '(l, updated) := clear_walk (merge_sort Z.le (elements (cna_maps p))) [] (cna_list u) false in
    let u := set_cna_list (set_ports u (<[i := set_maps p ∅]> (ports u))) l in
    if updated then set_updated u true else u
  end.

(** ** Neighbours *)

Definition get_ent (w : bus) (e : nat) : option ub_entity := ents w !! e.
Definition put_ent (w : bus) (e : nat) (u : ub_entity) (n : nat) : bus := {| ents := <[e := u]> (ents w); allocs := n |}.
Definition set_allocs (w : bus) (n : nat) : bus := {| ents := ents w; allocs := n |}.

(** [ub_route_mod_neighbor]: the routes of the port [i] of [e], for the port [ri] of [re]. *)
Definition ub_route_mod_neighbor (w : bus) (e i re ri : nat) : option (Z * bus) :=
  u ← get_ent w e; p ← ports u !! i; ru ← get_ent w re; _ ← ports ru !! ri;
  let '(r, l, n) := if ub_entity_support_forward u then ub_entity_copy_cna_list (allocs w) u [] false else (0, [], allocs w) in
  if ctrue r then Some (r, set_allocs w n)
  else
    let '(r, l, n) := ub_add_cna_node n (u_cna u) 0 l in
    if ctrue r then Some (r, set_allocs w n)
    else
      let '(r, l, n) := ub_add_cna_node n (p_cna p) 0 l in
      if ctrue r then Some (r, set_allocs w n)
      else let '(_, ru, n) := ub_route_mod_entries n ru ri l 1 in Some (0, put_ent w re ru n).

(** ** Flooding *)

(** [kfifo_put]: a queue that is full takes nothing. *)
Definition kfifo_put {A} (q : list A) (x : A) : list A := if (length q <? UB_ROUTE_KFIFO_DEPTH)%nat then q ++ [x] else q.

(** The remote ends of the ports of [e] on entities with more than one port. *)
Definition many_ports (w : bus) (e : nat) : option bool := u ← get_ent w e; Some (1 <? port_nums u).
Fixpoint put_ports {A} (w : bus) (mk : nat * nat -> A) (ok : nat -> bool) (k : nat) (l : list ub_port) (q : list A) : option (list A) :=
  match l with
  | [] => Some q
  | p :: l' =>
    match r_uent p with
    | None => put_ports w mk ok (S k) l' q
    | Some v =>
      m ← many_ports w v;
      put_ports w mk ok (S k) l' (if ok k && m then kfifo_put q (mk (v, r_index p)) else q)
    end
  end.
(** The neighbours of [e], but for the one at [from] ([ub_check_path]). *)
Definition neighbours {A} (w : bus) (e : nat) (from : option nat) (mk : nat * nat -> A) (q : list A) : option (list A) :=
  u ← get_ent w e; put_ports w mk (fun k => negb (bool_decide (Some k = from))) 0 (ports u) q.

(** [struct bfs_node]: the port and the offset. *)
Fixpoint mod_bfs_loop (fuel : nat) (w : bus) (l : list cna_node) (q : list (nat * nat * Z)) : option bus :=
  match q with
  | [] => Some w
  | (e, i, off) :: q =>
    match fuel with
    | O => None
    | S fuel' =>
      u ← get_ent w e; _ ← ports u !! i;
      let '(updated, u, n) := ub_route_mod_entries (allocs w) u i l off in
      let w := put_ent w e u n in
      if negb updated then mod_bfs_loop fuel' w l q
      else if negb (ub_entity_support_forward u) then mod_bfs_loop fuel' w l q
      else q ← neighbours w e (Some i) (fun p => (p, s16 (off + 1))) q; mod_bfs_loop fuel' w l q
    end
  end.
Definition ub_route_mod_bfs (fuel : nat) (w : bus) (e : nat) : option bus :=
  u ← get_ent w e;
  let '(r, l, n) := ub_entity_copy_cna_list (allocs w) u [] true in
  let w := set_allocs w n in
  if ctrue r then Some w
  else q ← neighbours w e None (fun p => (p, 1)) []; mod_bfs_loop fuel w l q.

Fixpoint del_bfs_loop (fuel : nat) (w : bus) (l : list cna_node) (q : list (nat * nat)) : option bus :=
  match q with
  | [] => Some w
  | (e, i) :: q =>
    match fuel with
    | O => None
    | S fuel' =>
      u ← get_ent w e; _ ← ports u !! i;
      let '(updated, u) := ub_route_del_entries u i l in
      let w := put_ent w e u (allocs w) in
      if negb updated then del_bfs_loop fuel' w l q
      else if negb (ub_entity_support_forward u) then del_bfs_loop fuel' w l q
      else q ← neighbours w e (Some i) id q; del_bfs_loop fuel' w l q
    end
  end.
Definition ub_route_del_bfs (fuel : nat) (w : bus) (e : nat) : option bus :=
  u ← get_ent w e;
  let '(r, l, n) := ub_entity_copy_cna_list (allocs w) u [] true in
  let w := set_allocs w n in
  if ctrue r then Some w
  else q ← neighbours w e None id []; del_bfs_loop fuel w l q.

(** ** The table of the hardware *)

Definition EBW (n : Z) : Z := Z.shiftr (n - 1) 5 + 1.

(** [entry] is the bitmap, whose words are written. *)
Definition ub_set_route_table_entry (u : ub_entity) (dst_cna entry : Z) : ub_entity :=
  if port_nums u =? 1 then u
  else if match u_kind u with controller => u_cluster u | _ => false end then u
  else
    set_cfg u (foldl (fun f i =>
      let offset := u32 (Z.shiftl ((dst_cna + 1) * EBW (port_nums u) + i) 2) in
      fun a => if a =? UB_ROUTE_TABLE_ENTRY_START + offset then u32 (Z.shiftr entry (32 * i)) else f a)
      (cfg u) (seqZ 0 (EBW (port_nums u)))).

Definition route_table_entry (u : ub_entity) (cna : Z) : Z :=
  foldl (fun b i => if test_bit u i cna then Z.setbit b (Z.of_nat i) else b) 0 (seq 0 (length (ports u))).

Fixpoint sync_walk (u : ub_entity) (pre l : list cna_node) : ub_entity :=
  match l with
  | [] => set_cna_list u pre
  | x :: l' =>
    if negb (cn_need x) then sync_walk u (pre ++ [x]) l'
    else if cn_count x =? 0 then sync_walk (ub_set_route_table_entry u (cn_cna x) 0) pre l'
    else
      let y := {| cn_cna := cn_cna x; cn_distance := cn_distance x; cn_count := cn_count x; cn_need := false |} in
      sync_walk (ub_set_route_table_entry u (cn_cna x) (route_table_entry u (cn_cna x))) (pre ++ [y]) l'
  end.
Definition ub_route_sync_dev (u : ub_entity) : ub_entity :=
  if negb (route_updated u) then u else set_updated (sync_walk u [] (cna_list u)) false.
(** [devs] are the entities on the lists of the controllers. *)
Definition ub_route_sync_all (w : bus) (devs : list nat) : bus :=
  {| ents := foldl (fun l e => alter ub_route_sync_dev e l) (ents w) devs; allocs := allocs w |}.

(** ** Links *)

Definition on_port (w : bus) (e i : nat) (f : ub_entity -> ub_entity) : option bus :=
  u ← get_ent w e; _ ← ports u !! i; Some (put_ent w e (f u) (allocs w)).
Definition flood_if (b : bool) (f : bus -> option bus) (w : bus) : option bus := if b then f w else Some w.
Definition forwards (w : bus) (e : nat) : option bool := u ← get_ent w e; Some (ub_entity_support_forward u).

Definition ub_route_table_clear_for_port (fuel : nat) (w : bus) (devs : list nat) (e i re ri : nat) : option bus :=
  w ← on_port w re ri (fun u => ub_route_clear_port u ri);
  w ← on_port w e i (fun u => ub_route_clear_port u i);
  b ← forwards w re; w ← flood_if b (fun w => ub_route_del_bfs fuel w re) w;
  b ← forwards w e; w ← flood_if b (fun w => ub_route_del_bfs fuel w e) w;
  Some (ub_route_sync_all w devs).

Definition ub_route_table_set_for_port (fuel : nat) (w : bus) (devs : list nat) (e i re ri : nat) : option (Z * bus) :=
  '(r, w) ← ub_route_mod_neighbor w e i re ri;
  if ctrue r then Some (r, w)
  else
    '(r, w) ← ub_route_mod_neighbor w re ri e i;
    if ctrue r then Some (r, w)
    else
      b ← forwards w e; w ← flood_if b (fun w => ub_route_mod_bfs fuel w e) w;
      b ← forwards w re; w ← flood_if b (fun w => ub_route_mod_bfs fuel w re) w;
      Some (0, ub_route_sync_all w devs).
End Route.
