(* ===== verification/UbRouteInv.v ===== *)
(** * Routing: the invariant of an entity

    The list of an entity agrees with the bitmaps of its ports, and the table in the configuration
    space agrees with both, but for the addresses that are marked for update. *)

From S2P Require Import Prelude UbRoute.

(** ** Sorted lists of nodes *)

Definition node_sorted (l : list cna_node) : Prop := StronglySorted Z.lt (map cn_cna l).
Abbreviation find := ub_find_cna_node.

Lemma sorted_app (l1 l2 : list cna_node) : node_sorted (l1 ++ l2) <->
  node_sorted l1 /\ node_sorted l2 /\ forall x y, x ∈ l1 -> y ∈ l2 -> cn_cna x < cn_cna y.
Proof.
  unfold node_sorted. induction l1 as [|a l1 IH]; cbn [app map].
  - split; [intros H; split_and!; [constructor|done|by intros ? ? ?%not_elem_of_nil]|by intros (_ & ? & _)].
  - split.
    + intros [H1 H2]%StronglySorted_inv. apply IH in H1 as (A1 & A2 & A3). rewrite map_app, Forall_app in H2. destruct H2 as [B1 B2].
      split_and!; [by constructor|done|]. intros x y [->|Hx]%elem_of_cons Hy; [|by apply A3].
      rewrite Forall_forall in B2. apply B2, list_elem_of_fmap. by exists y.
    + intros ([H1 H2]%StronglySorted_inv & H3 & H4). constructor.
      * apply IH. split_and!; [done|done|]. intros x y Hx Hy. apply H4; [by right|done].
      * rewrite map_app, Forall_app. split; [done|]. rewrite Forall_forall. intros c (y & -> & Hy)%list_elem_of_fmap. apply H4; [by left|done].
Qed.

Lemma find_some (c : Z) (l : list cna_node) (x : cna_node) : find c l = Some x -> x ∈ l /\ cn_cna x = c.
Proof.
  induction l as [|y l IH]; [done|]. cbn. destruct (Z.ltb_spec (cn_cna y) c); [intros [? ?]%IH; by split; [right|]|].
  destruct (Z.ltb_spec c (cn_cna y)); [done|]. intros [= <-]. split; [by left|lia].
Qed.

Lemma find_elem (l : list cna_node) (x : cna_node) : node_sorted l -> x ∈ l -> find (cn_cna x) l = Some x.
Proof.
  induction l as [|y l IH]; [by intros _ ?%not_elem_of_nil|]. intros [H1 H2]%StronglySorted_inv [->|Hx]%elem_of_cons; cbn.
  - by rewrite Z.ltb_irrefl.
  - assert (cn_cna y < cn_cna x). { rewrite Forall_forall in H2. apply H2, list_elem_of_fmap. by exists x. }
    rewrite (proj2 (Z.ltb_lt _ _)) by done. by apply IH.
Qed.

Lemma node_find_spec (l : list cna_node) (c : Z) (x : cna_node) : node_sorted l -> find c l = Some x <-> x ∈ l /\ cn_cna x = c.
Proof. intros Hs. split; [by apply find_some|]. intros [Hx <-]. by apply find_elem. Qed.

Lemma find_map (g : cna_node -> cna_node) (l : list cna_node) (c : Z) : (forall x, cn_cna (g x) = cn_cna x) -> find c (map g l) = g <$> find c l.
Proof. intros Hg. induction l as [|y l IH]; [done|]. cbn. rewrite Hg. destruct (_ <? _); [done|]. by destruct (_ <? _). Qed.
Lemma sorted_map (g : cna_node -> cna_node) (l : list cna_node) : (forall x, cn_cna (g x) = cn_cna x) -> node_sorted l -> node_sorted (map g l).
Proof. intros Hg. unfold node_sorted. rewrite map_map. by rewrite (map_ext (fun x => cn_cna (g x)) cn_cna Hg). Qed.

Lemma mod_node_map (f : cna_node -> cna_node) (c : Z) (l : list cna_node) : node_sorted l ->
  mod_cna_node f c l = map (fun x => if cn_cna x =? c then f x else x) l.
Proof.
  induction l as [|y l IH]; [done|]. intros [H1 H2]%StronglySorted_inv. cbn. destruct (Z.eqb_spec (cn_cna y) c) as [<-|_]; [|by rewrite IH].
  f_equal. rewrite <- (map_id l) at 1. apply map_ext_in. intros x Hx%list_elem_of_In. rewrite Forall_forall in H2.
  specialize (H2 (cn_cna x)). rewrite (proj2 (Z.eqb_neq _ _)); [done|]. assert (cn_cna y < cn_cna x); [|lia]. apply H2, list_elem_of_fmap. by exists x.
Qed.

Lemma find_app (l : list cna_node) (y : cna_node) (c : Z) : node_sorted (l ++ [y]) ->
  find c (l ++ [y]) = match find c l with Some x => Some x | None => if cn_cna y =? c then Some y else None end.
Proof.
  intros Hs. pose proof Hs as (Hl & _ & _)%sorted_app. apply option_eq. intros x. rewrite node_find_spec by done. rewrite elem_of_app, list_elem_of_singleton.
  destruct (find c l) as [z|] eqn:E.
  - apply find_some in E as [Hz Ez]. split.
    + intros [[Hx| ->] Ex]; [rewrite <- (find_elem l x), <- (find_elem l z) by done; congruence|].
      apply sorted_app in Hs as (_ & _ & H3). specialize (H3 z y Hz). rewrite list_elem_of_singleton in H3. specialize (H3 eq_refl). lia.
    + intros [= <-]. by split; [left|].
  - split.
    + intros [[Hx| ->] <-]; [by rewrite find_elem in E|]. by rewrite Z.eqb_refl.
    + destruct (Z.eqb_spec (cn_cna y) c) as [<-|]; [|done]. intros [= <-]. by split; [right|].
Qed.

(** ** Adding a node *)

Section Route.
Context (kzalloc : nat -> bool).

Definition new_node (c d : Z) : cna_node := {| cn_cna := c; cn_distance := u16 d; cn_count := 1; cn_need := true |}.

Lemma add_snoc (n : nat) (c d : Z) (l : list cna_node) (y : cna_node) :
  ub_add_cna_node kzalloc n c d (l ++ [y]) =
  if c <? cn_cna y then let '(r, l', n') := ub_add_cna_node kzalloc n c d l in (r, l' ++ [y], n')
  else if cn_cna y =? c then (0, l ++ [count_up y], n)
  else if kzalloc n then (0, l ++ [y; new_node c d], S n) else (- ENOMEM, l ++ [y], S n).
Proof.
  unfold ub_add_cna_node. rewrite rev_app_distr. cbn [rev app add_walk]. destruct (c <? cn_cna y).
  - by destruct (add_walk _ _ _ _ (rev l)) as [[r l'] n'].
  - destruct (cn_cna y =? c); [cbn [rev]; by rewrite rev_involutive|]. unfold ub_create_cna_node. destruct (kzalloc n); cbn [rev];
      rewrite rev_involutive; [|done]. by rewrite <- app_assoc.
Qed.

Lemma add_node_ok (Hk : forall n, kzalloc n = true) (n : nat) (c d : Z) (l : list cna_node) : node_sorted l ->
  exists l' n', ub_add_cna_node kzalloc n c d l = (0, l', n') /\ node_sorted l' /\
    (forall x, x ∈ l' -> cn_cna x = c \/ x ∈ l) /\
    forall c', find c' l' = if c' =? c then Some (match find c l with Some x => count_up x | None => new_node c d end) else find c' l.
Proof.
  induction l as [|y l IH] using rev_ind; intros Hs.
  - unfold ub_add_cna_node. cbn. unfold ub_create_cna_node. rewrite Hk. eexists _, _. split; [done|]. split_and!.
    + repeat constructor.
    + intros x [->|?]%elem_of_cons; [by left|by right].
    + intros c'. cbn. destruct (Z.eqb_spec c' c) as [->|]; [by rewrite Z.ltb_irrefl|]. destruct (Z.ltb_spec c c'); [done|]. by rewrite (proj2 (Z.ltb_lt c' c)) by lia.
  - rewrite add_snoc. pose proof Hs as (Hl & _ & Hlt)%sorted_app. destruct (Z.ltb_spec c (cn_cna y)) as [Hcy|Hcy].
    + destruct (IH Hl) as (l' & n' & -> & Hs' & Hin & Hf). eexists _, _. split; [done|].
      assert (Hs2 : node_sorted (l' ++ [y])).
      { apply sorted_app. split_and!; [done|repeat constructor|]. intros x z Hx ->%list_elem_of_singleton.
        destruct (Hin x Hx) as [->|Hx']; [done|]. apply Hlt; [done|by apply list_elem_of_singleton]. }
      split_and!; [done| |].
      * intros x [Hx| ->%list_elem_of_singleton]%elem_of_app; [|right; apply elem_of_app; right; by apply list_elem_of_singleton].
        destruct (Hin x Hx); [by left|right; apply elem_of_app; by left].
      * intros c'. rewrite !find_app, Hf by done. destruct (Z.eqb_spec c' c) as [->|]; [|done].
        destruct (find c l); [done|]. by rewrite (proj2 (Z.eqb_neq (cn_cna y) c)) by lia.
    + assert (Hnone : forall c', cn_cna y <= c' -> find c' l = None).
      { intros c' Hc'. destruct (find c' l) as [x|] eqn:E; [|done]. apply find_some in E as [Hx Ex].
        specialize (Hlt x y Hx ltac:(by apply list_elem_of_singleton)). lia. }
      destruct (Z.eqb_spec (cn_cna y) c) as [Ey|Hne].
      * eexists _, _. split; [done|]. assert (Hs2 : node_sorted (l ++ [count_up y])).
        { apply sorted_app. split_and!; [done|repeat constructor|]. intros x z Hx ->%list_elem_of_singleton. apply (Hlt x y Hx). by apply list_elem_of_singleton. }
        split_and!; [done| |].
        -- intros x [Hx| ->%list_elem_of_singleton]%elem_of_app; [right; apply elem_of_app; by left|by left].
        -- intros c'. rewrite !find_app by done. change (cn_cna (count_up y)) with (cn_cna y). rewrite Ey, (Hnone c) by lia.
           rewrite Z.eqb_refl. destruct (Z.eqb_spec c' c) as [->|Hc']; [by rewrite (Hnone c), Z.eqb_refl by lia|].
           by rewrite (proj2 (Z.eqb_neq c c')) by lia.
      * rewrite Hk. eexists _, _. split; [done|].
        assert (Hs2 : node_sorted ((l ++ [y]) ++ [new_node c d])).
        { apply sorted_app. split_and!; [done|repeat constructor|]. intros x z Hx ->%list_elem_of_singleton. cbn [new_node cn_cna].
          apply elem_of_app in Hx as [Hx| ->%list_elem_of_singleton]; [|lia]. specialize (Hlt x y Hx ltac:(by apply list_elem_of_singleton)). lia. }
        change [y; new_node c d] with ([y] ++ [new_node c d]). rewrite app_assoc. split_and!; [done| |].
        -- intros x [Hx| ->%list_elem_of_singleton]%elem_of_app; [by right|by left].
        -- intros c'. rewrite find_app by done. rewrite !find_app by done. cbn [new_node cn_cna]. rewrite (Hnone c) by lia.
           rewrite (proj2 (Z.eqb_neq (cn_cna y) c)) by done. rewrite (Z.eqb_sym c c'). destruct (Z.eqb_spec c' c) as [->|]; [|].
           ++ rewrite (Hnone c) by lia. by rewrite (proj2 (Z.eqb_neq (cn_cna y) c)) by done.
           ++ by destruct (find c' l), (cn_cna y =? c').
Qed.
End Route.

(** ** Clearing a port *)

Definition count_down (x : cna_node) : cna_node :=
  {| cn_cna := cn_cna x; cn_distance := cn_distance x; cn_count := u16 (cn_count x - 1); cn_need := true |}.
Definition down_in (bits : list Z) (x : cna_node) : cna_node := if bool_decide (cn_cna x ∈ bits) then count_down x else x.

Lemma down_cna (bits : list Z) (x : cna_node) : cn_cna (down_in bits x) = cn_cna x.
Proof. unfold down_in. by case_bool_decide. Qed.

Lemma advance_ok (c : Z) (l : list cna_node) : forall pre, node_sorted l -> exists a b, l = a ++ b /\ advance c pre l = (pre ++ a, b) /\
  (forall x, x ∈ a -> cn_cna x < c) /\ (forall x, x ∈ b -> c <= cn_cna x).
Proof.
  induction l as [|y l IH]; intros pre Hs; cbn.
  - exists [], []. rewrite !app_nil_r. split_and!; [done|done|by intros ? ?%not_elem_of_nil|by intros ? ?%not_elem_of_nil].
  - pose proof Hs as [Hl Hy]%StronglySorted_inv. destruct (Z.ltb_spec (cn_cna y) c) as [Hlt|Hge].
    + destruct (IH (pre ++ [y]) Hl) as (a & b & -> & -> & Ha & Hb). exists (y :: a), b. rewrite <- app_assoc. split_and!; [done|done| |done].
      intros x [->|Hx]%elem_of_cons; [done|by apply Ha].
    + exists [], (y :: l). rewrite app_nil_r. split_and!; [done|done|by intros ? ?%not_elem_of_nil|]. intros x [->|Hx]%elem_of_cons; [done|].
      rewrite Forall_forall in Hy. specialize (Hy (cn_cna x)). assert (cn_cna y < cn_cna x); [|lia]. apply Hy, list_elem_of_fmap. by exists x.
Qed.

Lemma down_id (bits : list Z) (l : list cna_node) : (forall x, x ∈ l -> cn_cna x ∉ bits) -> map (down_in bits) l = l.
Proof.
  intros H. rewrite <- (map_id l) at 2. apply map_ext_in. intros x Hx%list_elem_of_In. unfold down_in. rewrite bool_decide_eq_false_2; [done|]. by apply H.
Qed.

Lemma clear_walk_ok (bits : list Z) : StronglySorted Z.lt bits -> forall pre l upd, node_sorted l ->
  exists upd', clear_walk bits pre l upd = (pre ++ map (down_in bits) l, upd') /\
    (upd = true -> upd' = true) /\ (forall x, x ∈ l -> cn_cna x ∈ bits -> upd' = true).
Proof.
  induction bits as [|c bits IH]; intros Hb pre l upd Hs; cbn [clear_walk].
  - exists upd. rewrite down_id; [|by intros ? _ ?%not_elem_of_nil]. split_and!; [done|done|]. by intros x _ ?%not_elem_of_nil.
  - apply StronglySorted_inv in Hb as [Hb Hc]. rewrite Forall_forall in Hc.
    destruct (advance_ok c l pre Hs) as (a & b & -> & -> & Ha & Hbge). apply sorted_app in Hs as (Sa & Sb & Sab).
    assert (Ea : map (down_in (c :: bits)) a = a).
    { apply down_id. intros x Hx [E|Hin]%elem_of_cons; [specialize (Ha x Hx); lia|]. specialize (Hc _ Hin). specialize (Ha x Hx). lia. }
    rewrite map_app, Ea.
    assert (Ha' : forall x, x ∈ a -> cn_cna x ∈ c :: bits -> False).
    { intros x Hx [E|Hin]%elem_of_cons; [specialize (Ha x Hx); lia|]. specialize (Hc _ Hin). specialize (Ha x Hx). lia. }
    destruct b as [|y b].
    { destruct (IH Hb (pre ++ a) [] upd Sb) as (upd' & -> & H1 & H2). exists upd'. rewrite <- app_assoc. split_and!; [done|done|].
      intros x [Hx|?%not_elem_of_nil]%elem_of_app Hin; [|done]. by destruct (Ha' x Hx Hin). }
    pose proof Sb as [Sb' Hy]%StronglySorted_inv. rewrite Forall_forall in Hy.
    assert (Hrest : map (down_in (c :: bits)) b = map (down_in bits) b).
    { apply map_ext_in. intros x Hx%list_elem_of_In. unfold down_in. assert (cn_cna x <> c).
      { specialize (Hy (cn_cna x)). specialize (Hbge y ltac:(by left)). assert (cn_cna y < cn_cna x); [|lia]. apply Hy, list_elem_of_fmap. by exists x. }
      rewrite (bool_decide_ext _ (cn_cna x ∈ bits)); [done|]. rewrite elem_of_cons. intuition. }
    destruct (Z.eqb_spec (cn_cna y) c) as [Ey|Hne].
    + set (y' := {| cn_cna := _ |}). destruct (IH Hb (pre ++ a) (y' :: b) true) as (upd' & -> & H1 & H2); [exact Sb|].
      exists upd'. specialize (H1 eq_refl). split_and!; [|done|done]. cbn [map]. rewrite Hrest, <- app_assoc. do 3 f_equal.
      unfold down_in. rewrite (bool_decide_eq_true_2 (cn_cna y ∈ c :: bits)) by (rewrite Ey; by left). rewrite bool_decide_eq_false_2; [done|].
      cbn. intros Hin. specialize (Hc _ Hin). lia.
    + destruct (IH Hb (pre ++ a) (y :: b) upd Sb) as (upd' & -> & H1 & H2). exists upd'. split_and!; [|done|].
      * cbn [map]. rewrite Hrest, <- app_assoc. do 3 f_equal. unfold down_in. rewrite (bool_decide_ext (cn_cna y ∈ c :: bits) (cn_cna y ∈ bits)); [done|]. rewrite elem_of_cons. intuition.
      * intros x [Hx|Hx]%elem_of_app Hin; [by destruct (Ha' x Hx Hin)|]. apply (H2 x Hx). apply elem_of_cons in Hin as [E|Hin]; [|done].
        exfalso. apply elem_of_cons in Hx as [->|Hx]; [done|]. specialize (Hy (cn_cna x)). specialize (Hbge y ltac:(by left)).
        assert (cn_cna y < cn_cna x); [|lia]. apply Hy, list_elem_of_fmap. by exists x.
Qed.

(** The bits of a port in ascending order. *)
Lemma bits_sorted (m : gset Z) : StronglySorted Z.lt (merge_sort Z.le (elements m)) /\ forall c, c ∈ merge_sort Z.le (elements m) <-> c ∈ m.
Proof.
  split.
  - pose proof (StronglySorted_merge_sort Z.le (elements m)) as Hs. assert (Hn : NoDup (merge_sort Z.le (elements m))).
    { rewrite merge_sort_Permutation. apply NoDup_elements. }
    induction Hs as [|c l Hs IH Hc]; [constructor|]. apply NoDup_cons in Hn as [Hc' Hn]. constructor; [by apply IH|].
    rewrite Forall_forall in *. intros x Hx. specialize (Hc x Hx). assert (x <> c) by congruence. lia.
  - intros c. by rewrite merge_sort_Permutation, elem_of_elements.
Qed.

(** ** Ports *)

(** The number of ports with a route to [c]. *)
Definition nports (l : list ub_port) (c : Z) : nat := length (filter (fun p => c ∈ cna_maps p) l).

Lemma nports_alter (f : ub_port -> ub_port) (l : list ub_port) (i : nat) (p : ub_port) (c : Z) : l !! i = Some p ->
  (nports (alter f i l) c + (if bool_decide (c ∈ cna_maps p) then 1 else 0) = nports l c + if bool_decide (c ∈ cna_maps (f p)) then 1 else 0)%nat.
Proof.
  unfold nports. revert i. induction l as [|q l IH]; intros i Hi; [done|]. destruct i as [|i]; cbn in Hi.
  - injection Hi as ->. change (alter f O (p :: l)) with (f p :: l). rewrite !filter_cons. repeat case_decide; repeat case_bool_decide; cbn [length]; (done || lia).
  - specialize (IH i Hi). change (alter f (S i) (q :: l)) with (q :: alter f i l). rewrite !filter_cons. destruct (decide (c ∈ cna_maps q)); cbn [length]; repeat case_bool_decide; lia.
Qed.
Lemma nports_le (l : list ub_port) (c : Z) : (nports l c <= length l)%nat.
Proof. apply length_filter. Qed.
Lemma nports_zero (l : list ub_port) (c : Z) : nports l c = O <-> forall i p, l !! i = Some p -> c ∉ cna_maps p.
Proof.
  unfold nports. rewrite length_zero_iff_nil. split.
  - intros E i p Hp Hc. assert (Hx : p ∈ filter (fun p => c ∈ cna_maps p) l); [|by rewrite E in Hx; apply not_elem_of_nil in Hx].
    apply list_elem_of_filter. split; [done|]. by eapply list_elem_of_lookup_2.
  - intros H. destruct (filter _ l) as [|p l'] eqn:E; [done|]. exfalso.
    assert (Hx : p ∈ filter (fun p => c ∈ cna_maps p) l) by (rewrite E; by left). apply list_elem_of_filter in Hx as [Hc [i Hi]%list_elem_of_lookup].
    by eapply H.
Qed.
