(* ===== verification/UbRouteEnt.v ===== *)
(** * Routing: operations on one entity

    The invariant of an entity and that every operation of [route.c] on it keeps it, if memory does
    not run out. *)

From S2P Require Import Prelude UbRoute UbRouteInv.

(** ** The table in the configuration space *)

Section Table.
Context (START : Z).

Definition word_at (n c k : Z) : Z := START + Z.shiftl ((c + 1) * EBW n + k) 2.
(** The entry of [c] names the port [i]. *)
Definition hw_bit (u : ub_entity) (c i : Z) : bool := Z.testbit (cfg u (word_at (port_nums u) c (i / 32))) (i mod 32).
(** The table is written: not for a single port, nor for the controller of a cluster. *)
Definition has_table (u : ub_entity) : bool :=
  negb (port_nums u =? 1) && negb (match u_kind u with controller => u_cluster u | _ => false end).

Definition cna_ok (c : Z) : Prop := 0 <= c < 2 ^ 24.

Lemma ebw_ok (n : Z) : 0 <= n <= 128 -> 0 <= EBW n <= 4 /\ forall i, 0 <= i < n -> 0 <= i / 32 < EBW n.
Proof.
  intros Hn. unfold EBW. rewrite Z.shiftr_div_pow2 by lia. change (2 ^ 5) with 32.
  pose proof (Z.div_mod (n - 1) 32 ltac:(lia)). pose proof (Z.mod_pos_bound (n - 1) 32 ltac:(lia)). split; [lia|]. intros i Hi.
  pose proof (Z.div_mod i 32 ltac:(lia)). pose proof (Z.mod_pos_bound i 32 ltac:(lia)). lia.
Qed.

Lemma word_inj (n c c' k k' : Z) : 0 <= k < EBW n -> 0 <= k' < EBW n -> word_at n c k = word_at n c' k' -> c = c' /\ k = k'.
Proof.
  intros Hk Hk' E. unfold word_at in E. rewrite !Z.shiftl_mul_pow2 in E by lia. change (2 ^ 2) with 4 in E.
  assert (E' : (c + 1) * EBW n + k = (c' + 1) * EBW n + k') by lia. assert (Hc : (c - c') * EBW n = k' - k) by lia.
  assert (c = c') by nia. subst c'. split; [done|lia].
Qed.

Definition write_words (n d entry : Z) (f : Z -> Z) (l : list Z) : Z -> Z :=
  foldl (fun f i => let offset := u32 (Z.shiftl ((d + 1) * EBW n + i) 2) in
    fun a => if a =? START + offset then u32 (Z.shiftr entry (32 * i)) else f a) f l.

Lemma write_words_ok (n d entry : Z) (f : Z -> Z) (m : nat) : 0 <= n <= 128 -> cna_ok d -> Z.of_nat m <= EBW n ->
  let g := write_words n d entry f (seqZ 0 (Z.of_nat m)) in
  (forall i, 0 <= i < Z.of_nat m -> g (word_at n d i) = u32 (Z.shiftr entry (32 * i))) /\
  (forall c k, c <> d -> 0 <= k < EBW n -> g (word_at n c k) = f (word_at n c k)).
Proof.
  intros Hn Hd. destruct (ebw_ok n Hn) as [HE _]. unfold cna_ok in Hd.
  assert (Hoff : forall i, 0 <= i < EBW n -> u32 (Z.shiftl ((d + 1) * EBW n + i) 2) = Z.shiftl ((d + 1) * EBW n + i) 2).
  { intros i Hi. apply uwrap_small. rewrite Z.shiftl_mul_pow2 by lia. change (2 ^ 2) with 4. nia. }
  induction m as [|m IH]; intros Hm g.
  - split; [lia|done].
  - unfold g. rewrite seqZ_S. unfold write_words. rewrite foldl_app. cbn [foldl]. rewrite Hoff by lia. fold (word_at n d (0 + Z.of_nat m)).
    destruct (IH ltac:(lia)) as [H1 H2]. unfold write_words in H1, H2. cbv zeta in H1, H2. cbv zeta. split.
    + intros i Hi. destruct (Z.eqb_spec (word_at n d i) (word_at n d (0 + Z.of_nat m))) as [E|Hne].
      * apply word_inj in E as [_ ->]; [done|lia|lia].
      * apply H1. destruct (decide (i = Z.of_nat m)) as [->|]; [done|lia].
    + intros c k Hc Hk. destruct (Z.eqb_spec (word_at n c k) (word_at n d (0 + Z.of_nat m))) as [E|Hne]; [|by apply H2].
      apply word_inj in E as [? _]; (done || lia).
Qed.

Lemma set_entry_hw (u : ub_entity) (d entry c i : Z) : has_table u = true -> port_nums u <= 128 -> cna_ok d -> 0 <= i < port_nums u ->
  hw_bit (ub_set_route_table_entry START u d entry) c i = if c =? d then Z.testbit entry i else hw_bit u c i.
Proof.
  intros Ht Hn Hd Hi. unfold has_table in Ht. apply andb_prop in Ht as [Ht1 Ht2]. unfold ub_set_route_table_entry.
  apply negb_true_iff in Ht1 as ->. apply negb_true_iff in Ht2 as ->. fold (write_words (port_nums u) d entry (cfg u) (seqZ 0 (EBW (port_nums u)))).
  unfold hw_bit. cbn [set_cfg cfg]. change (port_nums (set_cfg u _)) with (port_nums u). destruct (ebw_ok (port_nums u) ltac:(lia)) as [HE Hw].
  specialize (Hw i Hi). destruct (write_words_ok (port_nums u) d entry (cfg u) (Z.to_nat (EBW (port_nums u))) ltac:(lia) Hd ltac:(lia)) as [H1 H2].
  rewrite Z2Nat.id in H1, H2 by lia. destruct (Z.eqb_spec c d) as [->|Hc]; [|by rewrite H2].
  rewrite H1 by lia. pose proof (Z.mod_pos_bound i 32 ltac:(lia)). pose proof (Z.div_mod i 32 ltac:(lia)). unfold uwrap. rewrite Z.mod_pow2_bits_low, Z.shiftr_spec by lia. f_equal. lia.
Qed.

Lemma route_entry_bit (u : ub_entity) (c : Z) (i : nat) : (i < length (ports u))%nat -> Z.testbit (route_table_entry u c) (Z.of_nat i) = test_bit u i c.
Proof.
  unfold route_table_entry. intros Hi.
  assert (Hgen : forall m, Z.testbit (foldl (fun b i => if test_bit u i c then Z.setbit b (Z.of_nat i) else b) 0 (seq 0 m)) (Z.of_nat i) =
    if (i <? m)%nat then test_bit u i c else false).
  { induction m as [|m IH]; [by rewrite Z.bits_0|]. rewrite seq_S, foldl_app. cbn [foldl]. rewrite Nat.add_0_l. destruct (decide (i = m)) as [->|Hne].
    - rewrite (proj2 (Nat.ltb_lt m (S m))) by lia. rewrite (proj2 (Nat.ltb_ge m m)) in IH by lia. destruct (test_bit u m c); [|done].
      rewrite Z.setbit_eq by lia. done.
    - assert (Hlt : (i <? S m)%nat = (i <? m)%nat) by (destruct (Nat.ltb_spec i (S m)), (Nat.ltb_spec i m); (done || lia)). rewrite Hlt, <- IH.
      destruct (test_bit u m c); [|done]. by rewrite Z.setbit_neq by lia. }
  rewrite Hgen. by rewrite (proj2 (Nat.ltb_lt _ _) Hi).
Qed.
Lemma entry_of_none (u : ub_entity) (c : Z) : nports (ports u) c = O -> forall i, test_bit u i c = false.
Proof.
  intros Hz i. unfold test_bit. destruct (ports u !! i) as [p|] eqn:E; [|done]. apply bool_decide_eq_false_2. by eapply nports_zero.
Qed.

(** ** The invariant *)

Record ent_ok (u : ub_entity) : Prop := {
  eo_ports : port_nums u <= 128;
  eo_cna : cna_ok (u_cna u) /\ Forall (fun p => cna_ok (p_cna p)) (ports u);
  eo_sorted : node_sorted (cna_list u);
  eo_nodes : Forall (fun x => cna_ok (cn_cna x)) (cna_list u);
  eo_count : forall c, match find c (cna_list u) with Some x => cn_count x = Z.of_nat (nports (ports u) c) | None => nports (ports u) c = O end;
  eo_live : Forall (fun x => cn_need x = false -> cn_count x <> 0) (cna_list u);
  eo_hw : has_table u = true -> forall c i, match find c (cna_list u) with Some x => cn_need x = false | None => True end -> (i < length (ports u))%nat ->
    cna_ok c -> hw_bit u c (Z.of_nat i) = test_bit u i c;
}.
Definition flagged (u : ub_entity) : Prop := route_updated u = true \/ Forall (fun x => cn_need x = false) (cna_list u).

(** The parts that routing does not change, and the table, which only [ub_route_sync_dev] writes. *)
Definition same_ent (u u' : ub_entity) : Prop :=
  u_cna u' = u_cna u /\ u_kind u' = u_kind u /\ u_cluster u' = u_cluster u /\ cfg u' = cfg u /\
  map (fun p => (p_cna p, r_uent p, r_index p)) (ports u') = map (fun p => (p_cna p, r_uent p, r_index p)) (ports u).

(** Only the routes to [c] change, whose node is marked. *)
Lemma touch_ok (u u' : ub_entity) (c : Z) : ent_ok u -> same_ent u u' -> cna_ok c -> node_sorted (cna_list u') ->
  (forall c', c' <> c -> find c' (cna_list u') = find c' (cna_list u) /\ nports (ports u') c' = nports (ports u) c' /\ forall i, test_bit u' i c' = test_bit u i c') ->
  (exists x, find c (cna_list u') = Some x /\ cn_need x = true /\ cn_count x = Z.of_nat (nports (ports u') c)) -> ent_ok u'.
Proof.
  intros [O1 [O2 O2'] O3 O4 O5 O7 O6] (S1 & S2 & S3 & S4 & S5) Hc Hs Hoth (x & Hx & Hneed & Hcnt).
  assert (Hlen : length (ports u') = length (ports u)) by (rewrite <- (length_map (fun p => (p_cna p, r_uent p, r_index p)) (ports u')), S5; apply length_map).
  assert (Hpn : port_nums u' = port_nums u) by (unfold port_nums; congruence).
  split; [congruence| |done| | | |].
  - split; [congruence|]. rewrite Forall_forall in *. intros p Hp.
    assert (Hm : (p_cna p, r_uent p, r_index p) ∈ map (fun p => (p_cna p, r_uent p, r_index p)) (ports u)) by (rewrite <- S5; apply list_elem_of_fmap; by exists p).
    apply list_elem_of_fmap in Hm as (q & [= -> _ _] & Hq). by apply O2'.
  - rewrite Forall_forall in *. intros y Hy. destruct (decide (cn_cna y = c)) as [->|Hne]; [done|].
    destruct (Hoth _ Hne) as [Ef _]. rewrite find_elem in Ef by done. symmetry in Ef. apply find_some in Ef as [Hin _]. by apply O4.
  - intros c'. destruct (decide (c' = c)) as [->|Hne]; [by rewrite Hx|]. destruct (Hoth c' Hne) as (-> & -> & _). apply O5.
  - rewrite Forall_forall in *. intros y Hy. destruct (decide (cn_cna y = c)) as [Ey|Hne].
    + rewrite <- Ey, find_elem in Hx by done. injection Hx as ->. congruence.
    + destruct (Hoth _ Hne) as [Ef _]. rewrite find_elem in Ef by done. symmetry in Ef. apply find_some in Ef as [Hin _]. by apply O7.
  - intros Ht c' i Hcond Hi Hc'. destruct (decide (c' = c)) as [->|Hne]; [rewrite Hx in Hcond; congruence|].
    destruct (Hoth c' Hne) as (Ef & _ & Eb). rewrite Ef in Hcond. rewrite Eb. rewrite Hlen in Hi. rewrite <- (O6 ltac:(unfold has_table in *; by rewrite <- Hpn, <- S2, <- S3) c' i Hcond Hi Hc').
    unfold hw_bit. by rewrite S4, Hpn.
Qed.
End Table.

(** ** Bits *)

Definition upd_bits (u : ub_entity) (i : nat) (g : gset Z -> gset Z) : ub_entity :=
  set_ports u (alter (fun p => set_maps p (g (cna_maps p))) i (ports u)).

Lemma ent_same_refl (u : ub_entity) : same_ent u u.
Proof. done. Qed.
Lemma ent_same_trans (u u1 u2 : ub_entity) : same_ent u u1 -> same_ent u1 u2 -> same_ent u u2.
Proof. intros (? & ? & ? & ? & ?) (? & ? & ? & ? & ?). unfold same_ent. split_and!; congruence. Qed.
Lemma same_len (u u' : ub_entity) : same_ent u u' -> length (ports u') = length (ports u).
Proof. intros (_ & _ & _ & _ & E). rewrite <- (length_map (fun p => (p_cna p, r_uent p, r_index p)) (ports u')), E. apply length_map. Qed.
Lemma same_port (u u' : ub_entity) (i : nat) : same_ent u u' -> is_Some (ports u !! i) -> is_Some (ports u' !! i).
Proof. rewrite !lookup_lt_is_Some. intros E. by rewrite (same_len u u' E). Qed.

Lemma upd_same (u : ub_entity) (i : nat) (g : gset Z -> gset Z) (l : list cna_node) (b : bool) : same_ent u (set_updated (set_cna_list (upd_bits u i g) l) b).
Proof.
  unfold same_ent. split_and!; [done|done|done|done|]. cbn [set_updated set_cna_list upd_bits set_ports ports]. revert i.
  induction (ports u) as [|p ps IH]; intros i; [done|]. destruct i as [|i]; [done|]. change (alter ?f (S i) (p :: ps)) with (p :: alter f i ps). cbn [map]. by rewrite IH.
Qed.

Lemma upd_test (u : ub_entity) (i j : nat) (g : gset Z -> gset Z) (c : Z) :
  test_bit (upd_bits u i g) j c = match ports u !! j with
                                  | Some p => bool_decide (c ∈ (if bool_decide (j = i) then g (cna_maps p) else cna_maps p))
                                  | None => false
                                  end.
Proof.
  unfold test_bit, upd_bits. cbn [set_ports ports]. case_bool_decide as Hj.
  - subst j. rewrite list_lookup_alter_eq. by destruct (ports u !! i).
  - by rewrite list_lookup_alter_ne by done.
Qed.

(** The bit [c] of the port [i] becomes [b]. *)
Record bit_set (u u' : ub_entity) (i : nat) (c : Z) (b : bool) : Prop := {
  bs_at : test_bit u' i c = b;
  bs_other : forall j c', (j, c') <> (i, c) -> test_bit u' j c' = test_bit u j c';
  bs_num : forall c', c' <> c -> nports (ports u') c' = nports (ports u) c';
  bs_this : (nports (ports u') c + (if test_bit u i c then 1 else 0) = nports (ports u) c + if b then 1 else 0)%nat;
}.

Lemma upd_bit_set (u : ub_entity) (i : nat) (p : ub_port) (g : gset Z -> gset Z) (c : Z) (b : bool) : ports u !! i = Some p ->
  (forall m c', c' ∈ g m <-> if bool_decide (c' = c) then b = true else c' ∈ m) -> bit_set u (upd_bits u i g) i c b.
Proof.
  intros Hp Hg. assert (Hgb : forall m c', bool_decide (c' ∈ g m) = if bool_decide (c' = c) then b else bool_decide (c' ∈ m)).
  { intros m c'. specialize (Hg m c'). case_bool_decide as E1; case_bool_decide as E2; try case_bool_decide; destruct b; intuition congruence. }
  assert (Hn : forall c', (nports (ports (upd_bits u i g)) c' + (if bool_decide (c' ∈ cna_maps p) then 1 else 0) =
    nports (ports u) c' + if bool_decide (c' ∈ g (cna_maps p)) then 1 else 0)%nat).
  { intros c'. exact (nports_alter (fun p => set_maps p (g (cna_maps p))) (ports u) i p c' Hp). }
  split.
  - rewrite upd_test, Hp, (bool_decide_eq_true_2 (i = i)) by done. rewrite Hgb. by rewrite bool_decide_eq_true_2.
  - intros j c' Hne. rewrite upd_test. unfold test_bit. destruct (ports u !! j) as [q|] eqn:Eq; [|done].
    destruct (decide (j = i)) as [->|Hj]; [|by rewrite (bool_decide_eq_false_2 (j = i))]. rewrite (bool_decide_eq_true_2 (i = i)) by done.
    rewrite Hgb, (bool_decide_eq_false_2 (c' = c)); [done|]. congruence.
  - intros c' Hc'. specialize (Hn c'). rewrite Hgb, (bool_decide_eq_false_2 (c' = c)) in Hn by done. lia.
  - specialize (Hn c). rewrite Hgb, (bool_decide_eq_true_2 (c = c)) in Hn by done. unfold test_bit. by rewrite Hp.
Qed.

Lemma set_bit_ok (u : ub_entity) (i : nat) (c : Z) : is_Some (ports u !! i) -> bit_set u (set_bit u i c) i c true.
Proof. intros [p Hp]. apply (upd_bit_set u i p (fun m => {[c]} ∪ m) c true Hp). intros m c'. destruct (bool_decide_reflect (c' = c)); rewrite ?elem_of_union, ?elem_of_difference, elem_of_singleton; intuition congruence. Qed.
Lemma clear_bit_ok (u : ub_entity) (i : nat) (c : Z) : is_Some (ports u !! i) -> bit_set u (clear_bit u i c) i c false.
Proof. intros [p Hp]. apply (upd_bit_set u i p (fun m => m ∖ {[c]}) c false Hp). intros m c'. destruct (bool_decide_reflect (c' = c)); rewrite ?elem_of_union, ?elem_of_difference, elem_of_singleton; intuition congruence. Qed.

(** ** Entries *)

Section Ops.
Context (kzalloc : nat -> bool) (START : Z).
Abbreviation ent_ok := (ent_ok START).

Lemma bit_touch (u u1 : ub_entity) (i : nat) (c : Z) (b : bool) (l' : list cna_node) (x : cna_node) : ent_ok u -> cna_ok c ->
  bit_set u u1 i c b -> same_ent u u1 -> node_sorted l' -> (forall c', c' <> c -> find c' l' = find c' (cna_list u)) ->
  find c l' = Some x -> cn_need x = true -> cn_count x = Z.of_nat (nports (ports u1) c) -> ent_ok (set_cna_list u1 l').
Proof.
  intros Hu Hc [B1 B2 B3 B4] Hs Hl Ho Hx Hn Hcnt. eapply (touch_ok START u _ c); [done|exact Hs|done|done| |by exists x].
  intros c' Hne. split; [by apply Ho|]. split; [by apply B3|]. intros j. apply B2. congruence.
Qed.

Lemma mod_find (f : cna_node -> cna_node) (c : Z) (l : list cna_node) (y : cna_node) : node_sorted l -> (forall x, cn_cna (f x) = cn_cna x) ->
  find c l = Some y -> node_sorted (mod_cna_node f c l) /\ find c (mod_cna_node f c l) = Some (f y) /\
  forall c', c' <> c -> find c' (mod_cna_node f c l) = find c' l.
Proof.
  intros Hs Hf Hy. rewrite mod_node_map by done. set (g := fun x => if cn_cna x =? c then f x else x).
  assert (Hg : forall x, cn_cna (g x) = cn_cna x) by (intros x; unfold g; by destruct (_ =? _)). split; [by apply sorted_map|].
  rewrite find_map by done. split.
  - rewrite Hy. cbn. apply find_some in Hy as [_ Hy]. unfold g. by rewrite Hy, Z.eqb_refl.
  - intros c' Hc'. rewrite find_map by done. destruct (find c' l) as [z|] eqn:E; [|done]. apply find_some in E as [_ <-]. cbn. unfold g.
    by rewrite (proj2 (Z.eqb_neq _ _)).
Qed.

Lemma nports_128 (u : ub_entity) (c : Z) : ent_ok u -> Z.of_nat (nports (ports u) c) <= 128.
Proof. intros [O1 _ _ _ _ _ _]. unfold port_nums in O1. pose proof (nports_le (ports u) c). lia. Qed.

(** What an operation on the port [i] may change of the bits: the addresses of [l] become [b]. *)
Record bits_to (u u' : ub_entity) (i : nat) (l : list Z) (b : bool) : Prop := {
  bt_same : same_ent u u';
  bt_only : forall j c, test_bit u' j c = test_bit u j c \/ (j = i /\ c ∈ l /\ test_bit u j c = negb b /\ test_bit u' j c = b);
}.
Lemma bits_refl (u : ub_entity) (i : nat) (l : list Z) (b : bool) : bits_to u u i l b.
Proof. split; [done|]. by left. Qed.
Lemma bits_trans (u u1 u2 : ub_entity) (i : nat) (l : list Z) (b : bool) : bits_to u u1 i l b -> bits_to u1 u2 i l b -> bits_to u u2 i l b.
Proof.
  intros [S1 B1] [S2 B2]. split; [by eapply ent_same_trans|]. intros j c. destruct (B2 j c) as [->|(-> & Hc & E1 & E2)]; [apply B1|].
  destruct (B1 i c) as [E|(_ & _ & _ & E)]; [right; split_and!; (done || congruence)|]. rewrite E in E1. by destruct b.
Qed.
Lemma bits_mono (u u' : ub_entity) (i : nat) (l l' : list Z) (b : bool) : (forall c, c ∈ l -> c ∈ l') -> bits_to u u' i l b -> bits_to u u' i l' b.
Proof. intros Hl [S B]. split; [done|]. intros j c. destruct (B j c) as [?|(Hj & Hc & E1 & E2)]; [by left|right]. split_and!; [done|by apply Hl|done|done]. Qed.
Lemma bits_one (u u1 u' : ub_entity) (i : nat) (c : Z) (l : list Z) (b : bool) : bit_set u u1 i c b -> same_ent u u' -> ports u' = ports u1 ->
  test_bit u i c = negb b -> c ∈ l -> bits_to u u' i l b /\ test_bit u' i c = b.
Proof.
  intros [B1 B2 _ _] Hs Hp Ht Hc. assert (E : forall j c', test_bit u' j c' = test_bit u1 j c') by (intros; unfold test_bit; by rewrite Hp).
  split; [|by rewrite E]. split; [done|]. intros j c'. rewrite E. destruct (decide ((j, c') = (i, c))) as [[= -> ->]|Hne]; [right; by split_and!|left; by apply B2].
Qed.

Lemma add_entry_ok (Hk : forall n, kzalloc n = true) (n : nat) (u : ub_entity) (i : nat) (c d : Z) : ent_ok u -> is_Some (ports u !! i) -> cna_ok c ->
  test_bit u i c = false -> match find c (cna_list u) with Some x => cn_need x = true | None => True end ->
  exists u' n', ub_route_add_entry kzalloc n u i c d = (0, u', n') /\ ent_ok u' /\ bits_to u u' i [c] true /\ test_bit u' i c = true /\
    route_updated u' = route_updated u /\
    (forall c', c' <> c -> find c' (cna_list u') = find c' (cna_list u)) /\ exists x, find c (cna_list u') = Some x /\ cn_need x = true.
Proof.
  intros Hu Hp Hc Ht Hneed. unfold ub_route_add_entry. rewrite Ht. pose proof (set_bit_ok u i c Hp) as Hb. pose proof Hu as [O1 _ O3 _ O5 _ _].
  destruct (add_node_ok kzalloc Hk n c d (cna_list (set_bit u i c)) O3) as (l' & n' & -> & Hs & _ & Hf). eexists _, _. split; [done|].
  assert (Hsame : same_ent u (set_cna_list (set_bit u i c) l')) by exact (upd_same u i _ l' (route_updated u)).
  destruct (bits_one u (set_bit u i c) (set_cna_list (set_bit u i c) l') i c [c] true Hb Hsame eq_refl Ht ltac:(by left)) as [Hbits Hat].
  pose proof (Hf c) as Hfc. rewrite Z.eqb_refl in Hfc. change (cna_list (set_bit u i c)) with (cna_list u) in Hf, Hfc.
  assert (Hoth : forall c', c' <> c -> find c' l' = find c' (cna_list u)) by (intros c' Hne; by rewrite Hf, (proj2 (Z.eqb_neq c' c))).
  pose proof (bs_this _ _ _ _ _ Hb) as Hnum. rewrite Ht in Hnum. cbv iota in Hnum. specialize (O5 c). pose proof (nports_128 u c Hu).
  assert (Hok : exists x, find c l' = Some x /\ cn_need x = true /\ cn_count x = Z.of_nat (nports (ports (set_bit u i c)) c)).
  { eexists. split; [exact Hfc|]. revert O5 Hneed. destruct (find c (cna_list u)) as [x|]; intros O5 Hneed; cbn [count_up new_node cn_need cn_count]; [split; [done|]; rewrite uwrap_small by lia; lia|split; [done|lia]]. }
  destruct Hok as (x & Hx & Hxn & Hxc). split_and!; [|done|done|done|done|by exists x].
  eapply (bit_touch u (set_bit u i c)); try done.
Qed.

(** The node of [c] is changed by [f], and the bit of the port [i] becomes [b]. *)
Lemma mod_entry_ok (u u1 : ub_entity) (i : nat) (c : Z) (b : bool) (y : cna_node) (f : cna_node -> cna_node) : ent_ok u -> bit_set u u1 i c b ->
  (forall l, same_ent u (set_cna_list u1 l)) -> cna_list u1 = cna_list u -> test_bit u i c = negb b -> find c (cna_list u) = Some y ->
  (forall x, cn_cna (f x) = cn_cna x /\ cn_need (f x) = true) -> cn_count (f y) = Z.of_nat (nports (ports u1) c) ->
  let u' := set_cna_list u1 (mod_cna_node f c (cna_list u1)) in
  ent_ok u' /\ bits_to u u' i [c] b /\ test_bit u' i c = b.
Proof.
  intros Hu Hb Hsame El Ht Hy Hf Hcnt u'. pose proof Hu as [_ _ O3 O4 _ _ _].
  destruct (mod_find f c (cna_list u) y O3 ltac:(intros x; apply Hf) Hy) as (M1 & M2 & M3).
  destruct (bits_one u u1 u' i c [c] b Hb (Hsame _) eq_refl Ht ltac:(by left)) as [Hbits Hat]. split_and!; [|done|done].
  apply find_some in Hy as [Hin <-]. rewrite Forall_forall in O4. unfold u'. rewrite El.
  eapply (bit_touch u u1); [done|by apply O4|done| |done|done|done|apply Hf|done]. specialize (Hsame (cna_list u1)). by destruct u1.
Qed.

Lemma del_entry_ok (u : ub_entity) (i : nat) (c : Z) : ent_ok u -> is_Some (ports u !! i) -> test_bit u i c = true ->
  ent_ok (ub_route_del_entry u i c) /\ bits_to u (ub_route_del_entry u i c) i [c] false /\ test_bit (ub_route_del_entry u i c) i c = false.
Proof.
  intros Hu Hp Ht. pose proof (clear_bit_ok u i c Hp) as Hb. pose proof Hu as [_ _ _ _ O5 _ _]. specialize (O5 c). unfold ub_route_del_entry.
  change (cna_list (clear_bit u i c)) with (cna_list u). destruct (find c (cna_list u)) as [y|] eqn:Ey.
  - pose proof (bs_this _ _ _ _ _ Hb) as Hnum. rewrite Ht in Hnum. cbv iota in Hnum. pose proof (nports_128 u c Hu).
    eapply (mod_entry_ok u (clear_bit u i c) i c false y); try done.
    + intros l. exact (upd_same u i (fun m => m ∖ {[c]}) l (route_updated u)).
    + cbn [cn_count]. rewrite uwrap_small by lia. lia.
  - exfalso. by rewrite (entry_of_none u c O5 i) in Ht.
Qed.

(** ** Loops over a list of addresses *)

Lemma set_bit_to (u : ub_entity) (i : nat) (c : Z) (l : list cna_node) : is_Some (ports u !! i) -> test_bit u i c = false ->
  bits_to u (set_cna_list (set_bit u i c) l) i [c] true /\ test_bit (set_cna_list (set_bit u i c) l) i c = true.
Proof.
  intros Hp Ht. eapply (bits_one u (set_bit u i c)); [by apply set_bit_ok|exact (upd_same u i (fun m => {[c]} ∪ m) l (route_updated u))|done|done|by left].
Qed.
Lemma clear_bit_to (u : ub_entity) (i : nat) (c : Z) (l : list cna_node) : is_Some (ports u !! i) -> test_bit u i c = true ->
  bits_to u (set_cna_list (clear_bit u i c) l) i [c] false /\ test_bit (set_cna_list (clear_bit u i c) l) i c = false.
Proof.
  intros Hp Ht. eapply (bits_one u (clear_bit u i c)); [by apply clear_bit_ok|exact (upd_same u i (fun m => m ∖ {[c]}) l (route_updated u))|done|done|by left].
Qed.

Lemma bits_head (u u1 u' : ub_entity) (i : nat) (c : Z) (l : list Z) (b : bool) : bits_to u u1 i [c] b -> bits_to u1 u' i l b -> bits_to u u' i (c :: l) b.
Proof.
  intros H1 H2. eapply bits_trans; [eapply bits_mono, H1|eapply bits_mono, H2].
  - intros c' ->%list_elem_of_singleton. by left.
  - intros c' Hc. by right.
Qed.
Lemma bits_tail (u u' : ub_entity) (i : nat) (c : Z) (l : list Z) (b : bool) : bits_to u u' i l b -> bits_to u u' i (c :: l) b.
Proof. apply bits_mono. intros c' Hc. by right. Qed.
Lemma bit_kept (u u' : ub_entity) (i : nat) (c : Z) (l : list Z) (b : bool) : bits_to u u' i l b -> test_bit u i c = b -> test_bit u' i c = b.
Proof. intros [_ B] Ht. destruct (B i c) as [->|(_ & _ & _ & ?)]; done. Qed.

(** A bit was changed, if the loop says so. *)
Definition changed (u u' : ub_entity) (i : nat) (l : list Z) (b : bool) : Prop := exists c, c ∈ l /\ test_bit u i c = negb b /\ test_bit u' i c = b.
Lemma changed_tail (u u' : ub_entity) (i : nat) (c : Z) (l : list Z) (b : bool) : changed u u' i l b -> changed u u' i (c :: l) b.
Proof. intros (c' & Hc & ?). exists c'. split; [by right|done]. Qed.
Lemma changed_head (u u1 u' : ub_entity) (i : nat) (c : Z) (l : list Z) (b : bool) : test_bit u i c = negb b -> test_bit u1 i c = b -> bits_to u1 u' i l b ->
  changed u u' i (c :: l) b.
Proof. intros H1 H2 H3. exists c. split; [by left|]. split; [done|by eapply bit_kept]. Qed.

Lemma add_entry_bits (n : nat) (u : ub_entity) (i : nat) (c d : Z) : is_Some (ports u !! i) -> test_bit u i c = false ->
  exists r u' n', ub_route_add_entry kzalloc n u i c d = (r, u', n') /\ bits_to u u' i [c] true /\ test_bit u' i c = true.
Proof.
  intros Hp Ht. unfold ub_route_add_entry. rewrite Ht. destruct (ub_add_cna_node _ _ _ _ _) as [[r l] n']. eexists _, _, _. split; [done|]. by apply set_bit_to.
Qed.

Lemma mod_walk_bits (i : nat) (off : Z) (l : list cna_node) : forall n u upd, is_Some (ports u !! i) ->
  exists fin upd' u' n', mod_walk kzalloc n u i l off upd = (fin, upd', u', n') /\ bits_to u u' i (map cn_cna l) true /\
    (fin = true -> upd' = true -> upd = true \/ changed u u' i (map cn_cna l) true).
Proof.
  induction l as [|x l IH]; intros n u upd Hp; cbn [mod_walk map].
  { eexists _, _, _, _. split; [done|]. split; [apply bits_refl|]. by left. }
  assert (Hskip : exists fin upd' u' n', mod_walk kzalloc n u i l off upd = (fin, upd', u', n') /\ bits_to u u' i (cn_cna x :: map cn_cna l) true /\
    (fin = true -> upd' = true -> upd = true \/ changed u u' i (cn_cna x :: map cn_cna l) true)).
  { destruct (IH n u upd Hp) as (fin & upd' & u' & n' & E & H1 & H2). exists fin, upd', u', n'. split; [done|]. split; [by apply bits_tail|].
    intros Hf Hu. destruct (H2 Hf Hu); [by left|right; by apply changed_tail]. }
  destruct (test_bit u i (cn_cna x)) eqn:Et; [done|]. destruct (ub_entity_has_cna (cn_cna x) u); [done|].
  destruct (find (cn_cna x) (cna_list u)) as [y|] eqn:Ef.
  - destruct (_ <? _); [done|]. match goal with |- context [mod_walk _ n (set_cna_list ?v ?m) i l off true] => destruct (set_bit_to u i (cn_cna x) m Hp Et) as [B1 B2] end.
    edestruct (IH n _ true (same_port _ _ _ (bt_same _ _ _ _ _ B1) Hp)) as (fin & upd' & u' & n' & E & H1 & H2).
    exists fin, upd', u', n'. split; [exact E|]. split; [by eapply bits_head|]. intros _ _. right. by eapply changed_head.
  - destruct (add_entry_bits n u i (cn_cna x) (s16 (cn_distance x + off)) Hp Et) as (r & u1 & n1 & -> & B1 & B2). destruct (ctrue r).
    + eexists _, _, _, _. split; [done|]. split; [|done]. eapply bits_head; [exact B1|apply bits_refl].
    + destruct (IH n1 u1 true (same_port _ _ _ (bt_same _ _ _ _ _ B1) Hp)) as (fin & upd' & u' & n' & E & H1 & H2).
      exists fin, upd', u', n'. split; [exact E|]. split; [by eapply bits_head|]. intros _ _. right. by eapply changed_head.
Qed.

Lemma del_walk_bits (i : nat) (l : list cna_node) : forall u upd, is_Some (ports u !! i) ->
  exists upd' u', del_walk u i l upd = (upd', u') /\ bits_to u u' i (map cn_cna l) false /\
    (upd' = true -> upd = true \/ changed u u' i (map cn_cna l) false) /\ (upd' = false -> u' = u) /\ (upd = true -> upd' = true).
Proof.
  induction l as [|x l IH]; intros u upd Hp; cbn [del_walk map].
  { eexists _, _. split; [done|]. split; [apply bits_refl|]. split; [by left|done]. }
  destruct (test_bit u i (cn_cna x)) eqn:Et; cbn [negb].
  - assert (B : bits_to u (ub_route_del_entry u i (cn_cna x)) i [cn_cna x] false /\ test_bit (ub_route_del_entry u i (cn_cna x)) i (cn_cna x) = false).
    { unfold ub_route_del_entry. destruct (find _ _); [by apply clear_bit_to|]. exact (clear_bit_to u i (cn_cna x) (cna_list u) Hp Et). }
    destruct B as [B1 B2]. destruct (IH _ true (same_port _ _ _ (bt_same _ _ _ _ _ B1) Hp)) as (upd' & u' & E & H1 & H2 & H3 & H4).
    exists upd', u'. specialize (H4 eq_refl). subst upd'. split; [exact E|]. split; [by eapply bits_head|]. split; [|done]. intros _. right. by eapply changed_head.
  - destruct (IH u upd Hp) as (upd' & u' & E & H1 & H2 & H3 & H4). exists upd', u'. split; [done|]. split; [by apply bits_tail|]. split; [|done].
    intros Hu. destruct (H2 Hu); [by left|right; by apply changed_tail].
Qed.
End Ops.
