(* ===== verification/UbRouteSync.v ===== *)
(** * Routing: the operations keep the invariant, and the table is brought up to date *)

From S2P Require Import Prelude UbRoute UbRouteInv UbRouteEnt.

Section Ops.
Context (kzalloc : nat -> bool) (START : Z).
Hypothesis Hk : forall n, kzalloc n = true.
Abbreviation ent_ok := (ent_ok START).

Lemma mod_walk_ok (i : nat) (off : Z) (l : list cna_node) : Forall (fun x => cna_ok (cn_cna x)) l -> forall n u upd, ent_ok u -> is_Some (ports u !! i) ->
  exists upd' u' n', mod_walk kzalloc n u i l off upd = (true, upd', u', n') /\ ent_ok u' /\ (upd' = false -> u' = u) /\ (upd = true -> upd' = true).
Proof.
  induction 1 as [|x l Hx Hl IH]; intros n u upd Hu Hp; cbn [mod_walk]; [by eexists _, _, _|].
  pose proof (IH n u upd Hu Hp) as Hskip. destruct (test_bit u i (cn_cna x)) eqn:Et; [done|]. destruct (ub_entity_has_cna (cn_cna x) u); [done|].
  destruct (find (cn_cna x) (cna_list u)) as [y|] eqn:Ef.
  - destruct (_ <? _); [done|]. pose proof (set_bit_ok u i (cn_cna x) Hp) as Hb. pose proof (bs_this _ _ _ _ _ Hb) as Hnum.
    rewrite Et in Hnum. cbv iota in Hnum. pose proof (nports_128 START u (cn_cna x) Hu). pose proof (eo_count _ _ Hu (cn_cna x)) as Hc. rewrite Ef in Hc.
    edestruct (mod_entry_ok START u (set_bit u i (cn_cna x)) i (cn_cna x) true y (fun x =>
      {| cn_cna := cn_cna x; cn_distance := cn_distance x; cn_count := u16 (cn_count x + 1); cn_need := true |})) as (U1 & U2 & _); try done.
    { intros l'. exact (upd_same u i (fun m => {[cn_cna x]} ∪ m) l' (route_updated u)). }
    { cbn [cn_count]. rewrite uwrap_small by lia. lia. }
    edestruct (IH n _ true U1 (same_port _ _ _ (bt_same _ _ _ _ _ U2) Hp)) as (upd' & u' & n' & E & H1 & H2 & H3).
    exists upd', u', n'. split; [exact E|]. specialize (H3 eq_refl). by subst upd'.
  - destruct (add_entry_ok kzalloc START Hk n u i (cn_cna x) (s16 (cn_distance x + off)) Hu Hp Hx Et) as (u1 & n1 & -> & U1 & U2 & _); [by rewrite Ef|].
    change (ctrue 0) with false. destruct (IH n1 u1 true U1 (same_port _ _ _ (bt_same _ _ _ _ _ U2) Hp)) as (upd' & u' & n' & E & H1 & H2 & H3).
    exists upd', u', n'. split; [exact E|]. specialize (H3 eq_refl). by subst upd'.
Qed.

Lemma del_walk_ok (i : nat) (l : list cna_node) : forall u upd, ent_ok u -> is_Some (ports u !! i) -> ent_ok (snd (del_walk u i l upd)).
Proof.
  induction l as [|x l IH]; intros u upd Hu Hp; cbn [del_walk]; [done|]. destruct (test_bit u i (cn_cna x)) eqn:Et; cbn [negb]; [|by apply IH].
  destruct (del_entry_ok START u i (cn_cna x) Hu Hp Et) as (U1 & U2 & _). apply IH; [done|]. by eapply same_port, Hp; apply (bt_same _ _ _ _ _ U2).
Qed.

Lemma updated_ok (u : ub_entity) (b : bool) : ent_ok u -> ent_ok (set_updated u b).
Proof. intros [O1 O2 O3 O4 O5 O7 O6]. split; [exact O1|exact O2|exact O3|exact O4|exact O5|exact O7|exact O6]. Qed.

(** Both loops, with the mark of the entity. *)
Definition op_ok (u u' : ub_entity) : Prop := same_ent u u' /\ (ent_ok u -> flagged u -> ent_ok u' /\ flagged u').

Lemma mod_entries_ok (n : nat) (u : ub_entity) (i : nat) (l : list cna_node) (off : Z) : is_Some (ports u !! i) -> Forall (fun x => cna_ok (cn_cna x)) l ->
  exists b u' n', ub_route_mod_entries kzalloc n u i l off = (b, u', n') /\ op_ok u u'.
Proof.
  intros Hp Hl. unfold ub_route_mod_entries. destruct (mod_walk_bits kzalloc i off l n u false Hp) as (fin & upd & u' & n' & E & [HS _] & _). rewrite E.
  destruct fin.
  - eexists _, _, _. split; [done|]. split; [by destruct upd|]. intros Hu Hf. destruct (mod_walk_ok i off l Hl n u false Hu Hp) as (upd1 & u1 & n1 & E1 & H1 & H2 & _).
    rewrite E in E1. injection E1 as <- <- <-. destruct upd; [split; [by apply updated_ok|by left]|]. rewrite (H2 eq_refl). done.
  - eexists _, _, _. split; [done|]. split; [done|]. intros Hu Hf. destruct (mod_walk_ok i off l Hl n u false Hu Hp) as (upd1 & u1 & n1 & E1 & _). congruence.
Qed.

Lemma del_entries_ok (u : ub_entity) (i : nat) (l : list cna_node) : is_Some (ports u !! i) ->
  exists b u', ub_route_del_entries u i l = (b, u') /\ op_ok u u'.
Proof.
  intros Hp. unfold ub_route_del_entries. destruct (del_walk_bits i l u false Hp) as (upd & u' & E & [HS _] & _ & H3 & _). rewrite E.
  eexists _, _. split; [done|]. split; [by destruct upd|]. intros Hu Hf. pose proof (del_walk_ok i l u false Hu Hp) as Hd. rewrite E in Hd. cbn [snd] in Hd.
  destruct upd; [split; [by apply updated_ok|by left]|]. by rewrite (H3 eq_refl).
Qed.

(** ** Clearing a port *)

Lemma clear_port_test (u : ub_entity) (i j : nat) (p : ub_port) (c : Z) (l : list cna_node) : ports u !! i = Some p ->
  test_bit (set_cna_list (set_ports u (<[i := set_maps p ∅]> (ports u))) l) j c = if bool_decide (j = i) then false else test_bit u j c.
Proof.
  intros Hp. unfold test_bit. cbn [set_cna_list set_ports ports]. destruct (decide (j = i)) as [->|Hne].
  - rewrite (bool_decide_eq_true_2 (i = i)) by done. rewrite list_lookup_insert_eq by (by eapply lookup_lt_Some). by apply bool_decide_eq_false_2, not_elem_of_empty.
  - rewrite (bool_decide_eq_false_2 (j = i)) by done. by rewrite list_lookup_insert_ne by congruence.
Qed.

Lemma clear_same (u : ub_entity) (i : nat) (p : ub_port) (l : list cna_node) (b : bool) : ports u !! i = Some p ->
  same_ent u (set_updated (set_cna_list (set_ports u (<[i := set_maps p ∅]> (ports u))) l) b).
Proof.
  intros Hp. unfold same_ent. split_and!; [done|done|done|done|]. cbn [set_updated set_cna_list set_ports ports].
  change (map ?f ?x) with (f <$> x). rewrite list_fmap_insert. apply list_insert_id. by rewrite list_lookup_fmap, Hp.
Qed.

Lemma clear_port_ok (u : ub_entity) (i : nat) : is_Some (ports u !! i) -> op_ok u (ub_route_clear_port u i).
Proof.
  intros [p Hp]. unfold ub_route_clear_port. rewrite Hp. destruct (bits_sorted (cna_maps p)) as [Hbs Hbin].
  set (bits := merge_sort Z.le (elements (cna_maps p))) in *. destruct (clear_walk bits [] (cna_list u) false) as [l' upd] eqn:E.
  split; [destruct upd; by apply clear_same|]. intros Hu Hf. pose proof Hu as [O1 O2 O3 O4 O5 O7 O6].
  destruct (clear_walk_ok bits Hbs [] (cna_list u) false O3) as (upd' & E' & _ & Hupd). rewrite E in E'. injection E' as -> ->.
  set (u1 := set_cna_list (set_ports u (<[i := set_maps p ∅]> (ports u))) (map (down_in bits) (cna_list u))).
  assert (Hfd : forall c, find c (map (down_in bits) (cna_list u)) = down_in bits <$> find c (cna_list u)) by (intros c; apply find_map, down_cna).
  assert (Hnum : forall c, (nports (ports u1) c + (if bool_decide (c ∈ cna_maps p) then 1 else 0) = nports (ports u) c)%nat).
  { intros c. pose proof (nports_alter (fun _ => set_maps p ∅) (ports u) i p c Hp) as Hn. cbv beta in Hn. rewrite (bool_decide_eq_false_2 (c ∈ cna_maps (set_maps p ∅))) in Hn by (apply not_elem_of_empty).
    rewrite <- list_insert_alter in Hn. cbn [u1 set_cna_list set_ports ports]. lia. }
  assert (Hlen : length (ports u1) = length (ports u)) by apply length_insert.
  assert (Hok1 : ent_ok u1).
  { split.
    - unfold port_nums in *. by rewrite Hlen.
    - split; [apply O2|]. destruct O2 as [_ O2]. apply Forall_insert; [done|]. rewrite Forall_forall in O2. apply (O2 p). by eapply list_elem_of_lookup_2.
    - apply sorted_map; [apply down_cna|done].
    - rewrite Forall_forall in *. intros x (y & -> & Hy)%list_elem_of_fmap. rewrite down_cna. by apply O4.
    - intros c. cbn [u1 set_cna_list cna_list]. rewrite Hfd. specialize (O5 c). specialize (Hnum c). pose proof (nports_128 START u c Hu).
      destruct (find c (cna_list u)) as [x|] eqn:Ex; cbn [fmap option_fmap option_map]; [|lia]. apply find_some in Ex as [_ Ex]. unfold down_in. rewrite Ex.
      rewrite (bool_decide_ext (c ∈ bits) (c ∈ cna_maps p)) by apply Hbin. destruct (bool_decide (c ∈ cna_maps p)); cbn [count_down cn_count]; [rewrite uwrap_small by lia|]; lia.
    - rewrite Forall_forall in *. intros x (y & -> & Hy)%list_elem_of_fmap. unfold down_in. destruct (bool_decide _); [done|by apply O7].
    - intros Ht c j Hcond Hj Hc. unfold u1. rewrite (clear_port_test u i j p c _ Hp). cbn [u1 set_cna_list cna_list] in Hcond. rewrite Hfd in Hcond.
      assert (Hold : hw_bit START u1 c (Z.of_nat j) = hw_bit START u c (Z.of_nat j)) by (unfold hw_bit, port_nums; by rewrite Hlen).
      fold u1. rewrite Hold, Hlen in *. assert (Ht' : has_table u = true) by (unfold has_table, port_nums in *; by rewrite <- Hlen).
      assert (Hun : match find c (cna_list u) with Some x => cn_need x = false | None => True end /\ c ∉ cna_maps p).
      { specialize (O5 c). destruct (find c (cna_list u)) as [x|] eqn:Ex; cbn in Hcond.
        - apply find_some in Ex as [_ Ex]. unfold down_in in Hcond. rewrite Ex in Hcond. destruct (bool_decide_reflect (c ∈ bits)) as [|Hn]; [done|].
          split; [done|]. by rewrite <- Hbin.
        - split; [done|]. by eapply nports_zero. }
      destruct Hun as [H1 H2]. rewrite (O6 Ht' c j H1 Hj Hc). destruct (bool_decide_reflect (j = i)) as [->|]; [|done].
      unfold test_bit. rewrite Hp. by apply bool_decide_eq_false_2. }
  destruct upd'; [split; [by apply updated_ok|by left]|]. split; [done|]. destruct Hf as [Hf|Hf]; [left; exact Hf|right].
  cbn [u1 set_cna_list cna_list]. rewrite down_id; [done|]. intros x Hx Hin. specialize (Hupd x Hx Hin). done.
Qed.

(** ** Writing the table *)

Lemma find_cons (x : cna_node) (l : list cna_node) (c : Z) : node_sorted (x :: l) -> find c (x :: l) = if cn_cna x =? c then Some x else find c l.
Proof.
  intros Hs. pose proof Hs as [Hl _]%StronglySorted_inv. apply option_eq. intros y. rewrite node_find_spec, elem_of_cons by done. destruct (Z.eqb_spec (cn_cna x) c) as [<-|Hne].
  - split; [|intros [= <-]; by split; [left|]]. intros [[->|Hy] E]; [done|]. exfalso. change (x :: l) with ([x] ++ l) in Hs. apply sorted_app in Hs as (_ & _ & H).
    specialize (H x y ltac:(by left) Hy). lia.
  - rewrite node_find_spec by done. split; [intros [[->|Hy] E]; done|]. intros [? ?]. by split; [right|].
Qed.
Lemma sorted_drop (pre : list cna_node) (x : cna_node) (l : list cna_node) : node_sorted (pre ++ x :: l) -> node_sorted (pre ++ l).
Proof.
  intros (H1 & H2 & H3)%sorted_app. pose proof H2 as [H4 _]%StronglySorted_inv. apply sorted_app. split_and!; [done|done|]. intros y z Hy Hz. apply H3; [done|by right].
Qed.
Lemma find_drop (pre : list cna_node) (x : cna_node) (l : list cna_node) (c : Z) : node_sorted (pre ++ x :: l) ->
  find c (pre ++ l) = if cn_cna x =? c then None else find c (pre ++ x :: l).
Proof.
  intros Hs. pose proof (sorted_drop pre x l Hs) as Hs'. destruct (Z.eqb_spec (cn_cna x) c) as [<-|Hne].
  - destruct (find (cn_cna x) (pre ++ l)) as [y|] eqn:E; [|done]. exfalso. apply find_some in E as [Hy Ey].
    apply sorted_app in Hs as (_ & Hs & H1). change (x :: l) with ([x] ++ l) in Hs. apply sorted_app in Hs as (_ & _ & H2).
    apply elem_of_app in Hy as [Hy|Hy]; [specialize (H1 y x Hy ltac:(by left)); lia|specialize (H2 x y ltac:(by left) Hy); lia].
  - apply option_eq. intros y. rewrite !node_find_spec by done. rewrite !elem_of_app, elem_of_cons. split; [intros [[?|?] ?]; tauto|]. intros [[?|[->|?]] ?]; [tauto|done|tauto].
Qed.
Lemma sorted_swap (pre : list cna_node) (x y : cna_node) (l : list cna_node) : cn_cna y = cn_cna x -> node_sorted (pre ++ x :: l) -> node_sorted ((pre ++ [y]) ++ l).
Proof. intros E. unfold node_sorted. rewrite <- app_assoc, !map_app. cbn [map app]. by rewrite E. Qed.
Lemma find_swap (pre : list cna_node) (x y : cna_node) (l : list cna_node) (c : Z) : cn_cna y = cn_cna x -> node_sorted (pre ++ x :: l) ->
  find c ((pre ++ [y]) ++ l) = if cn_cna x =? c then Some y else find c (pre ++ x :: l).
Proof.
  intros E Hs. pose proof (sorted_swap pre x y l E Hs) as Hs'. rewrite <- app_assoc in *. cbn [app] in *. destruct (Z.eqb_spec (cn_cna x) c) as [<-|Hne].
  - apply node_find_spec; [done|]. split; [apply elem_of_app; right; by left|done].
  - pose proof (find_drop pre x l c Hs) as E1. pose proof (find_drop pre y l c Hs') as E2. rewrite E in E2. rewrite (proj2 (Z.eqb_neq _ _) Hne) in E1, E2. congruence.
Qed.

Definition unmarked (l : list cna_node) (c : Z) : Prop := match find c l with Some x => cn_need x = false | None => True end.

(** [pre] is done, [l] is left. *)
Record sync_inv (u : ub_entity) (pre l : list cna_node) : Prop := {
  si_sorted : node_sorted (pre ++ l);
  si_nodes : Forall (fun x => cna_ok (cn_cna x)) (pre ++ l);
  si_pre : Forall (fun x => cn_need x = false /\ cn_count x <> 0) pre;
  si_live : Forall (fun x => cn_need x = false -> cn_count x <> 0) l;
  si_count : forall c, match find c (pre ++ l) with Some x => cn_count x = Z.of_nat (nports (ports u) c) | None => nports (ports u) c = O end;
  si_hw : has_table u = true -> forall c i, unmarked l c -> (i < length (ports u))%nat -> cna_ok c -> hw_bit START u c (Z.of_nat i) = test_bit u i c;
}.

(** All but the table of the hardware and the list. *)
Definition same_ports (u u' : ub_entity) : Prop := u_cna u' = u_cna u /\ u_kind u' = u_kind u /\ u_cluster u' = u_cluster u /\ ports u' = ports u.
Lemma set_entry_same (u : ub_entity) (c e : Z) : same_ports u (ub_set_route_table_entry START u c e).
Proof. unfold ub_set_route_table_entry. destruct (_ =? 1); [done|]. by destruct (match u_kind u with controller => _ | _ => _ end). Qed.

Lemma sync_entry (u : ub_entity) (pre pre' l : list cna_node) (x : cna_node) (e : Z) : port_nums u <= 128 -> sync_inv u pre (x :: l) ->
  node_sorted (pre' ++ l) -> Forall (fun x => cna_ok (cn_cna x)) (pre' ++ l) -> Forall (fun x => cn_need x = false /\ cn_count x <> 0) pre' ->
  (forall c, match find c (pre' ++ l) with Some x => cn_count x = Z.of_nat (nports (ports u) c) | None => nports (ports u) c = O end) ->
  (forall i, (i < length (ports u))%nat -> Z.testbit e (Z.of_nat i) = test_bit u i (cn_cna x)) ->
  sync_inv (ub_set_route_table_entry START u (cn_cna x) e) pre' l.
Proof.
  intros Hp [I1 I2 I3 I6 I4 I5] H1 H2 H3 H4 He. destruct (set_entry_same u (cn_cna x) e) as (S1 & S2 & S3 & S4).
  assert (Hx : cna_ok (cn_cna x)) by (rewrite Forall_app, Forall_cons in I2; tauto).
  split; [done|done|done|by apply Forall_cons in I6 as [_ I6]|by rewrite S4|]. intros Ht c i Hun Hi Hc. rewrite S4 in Hi.
  assert (Ht' : has_table u = true) by (unfold has_table, port_nums in *; by rewrite S2, S3, S4 in Ht).
  rewrite set_entry_hw by (done || (unfold port_nums in *; lia)). unfold test_bit at 1. rewrite S4. fold (test_bit u i c).
  destruct (Z.eqb_spec c (cn_cna x)) as [->|Hne]; [by apply He|]. apply I5; [done| |done|done]. unfold unmarked. apply sorted_app in I1 as (_ & I1 & _).
  rewrite find_cons by done. rewrite (proj2 (Z.eqb_neq (cn_cna x) c)) by congruence. exact Hun.
Qed.

Lemma sync_walk_ok (l : list cna_node) : forall u pre, port_nums u <= 128 -> sync_inv u pre l ->
  exists u' l', sync_walk START u pre l = set_cna_list u' l' /\ same_ports u u' /\ route_updated u' = route_updated u /\ sync_inv u' l' [].
Proof.
  induction l as [|x l IH]; intros u pre Hp Hi; cbn [sync_walk].
  { exists u, pre. split; [done|]. split; [done|]. done. }
  pose proof Hi as [I1 I2 I3 I6 I4 I5]. pose proof (I4 (cn_cna x)) as Hcx.
  assert (Hfx : find (cn_cna x) (pre ++ x :: l) = Some x) by (apply find_elem; [done|]; apply elem_of_app; right; by left). rewrite Hfx in Hcx.
  destruct (cn_need x) eqn:En; cbn [negb].
  - destruct (Z.eqb_spec (cn_count x) 0) as [E0|Hn0].
    + assert (Hi' : sync_inv (ub_set_route_table_entry START u (cn_cna x) 0) pre l).
      { eapply sync_entry; [done|exact Hi|by eapply sorted_drop| |done| |].
        - rewrite Forall_app, Forall_cons in I2. rewrite Forall_app. tauto.
        - intros c. rewrite (find_drop pre x l c I1). specialize (I4 c). destruct (Z.eqb_spec (cn_cna x) c) as [<-|]; [lia|done].
        - intros i Hi'. rewrite Z.bits_0, entry_of_none; [done|]. lia. }
      destruct (set_entry_same u (cn_cna x) 0) as (S1 & S2 & S3 & S4). edestruct (IH _ pre ltac:(unfold port_nums in *; by rewrite S4) Hi') as (u' & l' & E & (T1 & T2 & T3 & T4) & T5 & T6).
      exists u', l'. split; [exact E|]. split; [unfold same_ports; split_and!; congruence|]. split; [|done]. rewrite T5. unfold ub_set_route_table_entry.
      destruct (_ =? 1); [done|]. by destruct (match u_kind u with controller => _ | _ => _ end).
    + set (y := {| cn_cna := cn_cna x |}). assert (Hi' : sync_inv (ub_set_route_table_entry START u (cn_cna x) (route_table_entry u (cn_cna x))) (pre ++ [y]) l).
      { eapply sync_entry; [done|exact Hi|by apply (sorted_swap pre x)| | | |].
        - rewrite Forall_app, Forall_cons in I2. rewrite !Forall_app, Forall_singleton. tauto.
        - rewrite Forall_app, Forall_singleton. by split.
        - intros c. rewrite (find_swap pre x y l c eq_refl I1). specialize (I4 c). destruct (Z.eqb_spec (cn_cna x) c) as [<-|]; done.
        - intros i Hi'. by apply route_entry_bit. }
      destruct (set_entry_same u (cn_cna x) (route_table_entry u (cn_cna x))) as (S1 & S2 & S3 & S4).
      edestruct (IH _ (pre ++ [y]) ltac:(unfold port_nums in *; by rewrite S4) Hi') as (u' & l' & E & (T1 & T2 & T3 & T4) & T5 & T6).
      exists u', l'. split; [exact E|]. split; [unfold same_ports; split_and!; congruence|]. split; [|done]. rewrite T5. unfold ub_set_route_table_entry.
      destruct (_ =? 1); [done|]. by destruct (match u_kind u with controller => _ | _ => _ end).
  - apply Forall_cons in I6 as [I6 I6']. specialize (I6 En).
    assert (Hi' : sync_inv u (pre ++ [x]) l).
    { split; rewrite <- ?app_assoc; cbn [app]; try done.
      - rewrite Forall_app, Forall_singleton. by split.
      - intros Ht c i Hun Hi' Hc. apply I5; [done| |done|done]. unfold unmarked. pose proof I1 as (_ & I1' & _)%sorted_app. rewrite find_cons by done.
        destruct (_ =? _); done. }
    apply (IH u (pre ++ [x]) Hp Hi').
Qed.

(** What the table and the list are after an update. *)
Record synced (u : ub_entity) : Prop := {
  sy_hw : has_table u = true -> forall c i, cna_ok c -> (i < length (ports u))%nat -> hw_bit START u c (Z.of_nat i) = test_bit u i c;
  sy_list : forall c, is_Some (find c (cna_list u)) <-> exists i, test_bit u i c = true;
  sy_clean : Forall (fun x => cn_need x = false) (cna_list u);
}.

Lemma list_routes (u : ub_entity) (c : Z) : (forall x, find c (cna_list u) = Some x -> cn_count x <> 0) ->
  match find c (cna_list u) with Some x => cn_count x = Z.of_nat (nports (ports u) c) | None => nports (ports u) c = O end ->
  is_Some (find c (cna_list u)) <-> exists i, test_bit u i c = true.
Proof.
  intros Hl Hc. split.
  - intros [x Hx]. specialize (Hl x Hx). rewrite Hx in Hc. assert (Hn : nports (ports u) c <> O) by lia.
    destruct (decide (Exists (fun p => c ∈ cna_maps p) (ports u))) as [Hex|Hno].
    + apply Exists_exists in Hex as (p & [i Hi]%list_elem_of_lookup & Hp). exists i. unfold test_bit. rewrite Hi. by apply bool_decide_eq_true_2.
    + destruct Hn. apply nports_zero. intros i p Hi Hp. apply Hno, Exists_exists. exists p. split; [by eapply list_elem_of_lookup_2|done].
  - intros [i Hi]. destruct (find c (cna_list u)) as [x|]; [by eexists|]. by rewrite (entry_of_none u c Hc i) in Hi.
Qed.

Lemma clean_synced (u : ub_entity) : ent_ok u -> Forall (fun x => cn_need x = false) (cna_list u) -> synced u.
Proof.
  intros [O1 O2 O3 O4 O5 O7 O6] Hcl. rewrite Forall_forall in *. split.
  - intros Ht c i Hc Hi. apply O6; [done| |done|done]. destruct (find c (cna_list u)) as [x|] eqn:E; [|done]. apply find_some in E as [Hx _]. by apply Hcl.
  - intros c. apply list_routes; [|apply O5]. intros x [Hx _]%find_some. apply O7; [done|by apply Hcl].
  - by rewrite Forall_forall.
Qed.

Lemma sync_dev_ok (u : ub_entity) : ent_ok u -> flagged u ->
  same_ports u (ub_route_sync_dev START u) /\ ent_ok (ub_route_sync_dev START u) /\ flagged (ub_route_sync_dev START u) /\ synced (ub_route_sync_dev START u).
Proof.
  intros Hu Hf. unfold ub_route_sync_dev. destruct (route_updated u) eqn:Er; cbn [negb].
  - pose proof Hu as [O1 O2 O3 O4 O5 O7 O6].
    destruct (sync_walk_ok (cna_list u) u [] O1) as (u' & l' & -> & (T1 & T2 & T3 & T4) & T5 & [I1 I2 I3 _ I4 I5]).
    { split; [done|done|constructor|done|done|]. intros Ht c i Hun Hi Hc. by apply O6. }
    rewrite app_nil_r in *.
    assert (Hok : ent_ok (set_updated (set_cna_list u' l') false)).
    { split; cbn [set_updated set_cna_list ports u_cna cna_list].
      - unfold port_nums in *. cbn [set_updated set_cna_list ports]. by rewrite T4.
      - by rewrite T1, T4.
      - done.
      - done.
      - intros c. exact (I4 c).
      - eapply Forall_impl; [exact I3|]. cbn. tauto.
      - intros Ht c i _ Hi Hc. apply (I5 Ht c i); done. }
    assert (Hcl : Forall (fun x => cn_need x = false) (cna_list (set_updated (set_cna_list u' l') false))) by (eapply Forall_impl; [exact I3|]; cbn; tauto).
    split; [done|]. split; [done|]. split; [by right|]. by apply clean_synced.
  - destruct Hf as [Hf|Hf]; [congruence|]. split; [done|]. split; [done|]. split; [by right|]. by apply clean_synced.
Qed.
End Ops.
