(* ===== verification/UbRouteBus.v ===== *)
(** * Routing: the whole bus

    Flooding ends, and every operation keeps the invariant of every entity. *)

From S2P Require Import Prelude UbRoute UbRouteInv UbRouteEnt UbRouteSync.

(** ** The links *)

(** What routing does not change. *)
Definition shape (u : ub_entity) := (u_cna u, u_kind u, u_cluster u, map (fun p => (p_cna p, r_uent p, r_index p)) (ports u)).
Definition same_shape (w w' : bus) : Prop := map shape (ents w') = map shape (ents w).

(** There is such a port. *)
Definition port_at (w : bus) (e i : nat) : Prop := exists u, ents w !! e = Some u /\ is_Some (ports u !! i).
(** Links lead to ports. *)
Definition links_ok (w : bus) : Prop := forall e u i p v, ents w !! e = Some u -> ports u !! i = Some p -> r_uent p = Some v -> port_at w v (r_index p).

Lemma shape_ent (u u' : ub_entity) : same_ent u u' -> shape u' = shape u.
Proof. intros (E1 & E2 & E3 & _ & E4). unfold shape. congruence. Qed.
Lemma shape_ports (u u' : ub_entity) : same_ports u u' -> shape u' = shape u.
Proof. intros (E1 & E2 & E3 & E4). unfold shape. congruence. Qed.
Lemma shape_len (u u' : ub_entity) : shape u' = shape u -> length (ports u') = length (ports u).
Proof. intros [= _ _ _ E]. rewrite <- (length_map (fun p => (p_cna p, r_uent p, r_index p)) (ports u')), E. apply length_map. Qed.

Lemma shape_at (w w' : bus) (e : nat) (u' : ub_entity) : same_shape w w' -> ents w' !! e = Some u' -> exists u, ents w !! e = Some u /\ shape u' = shape u.
Proof.
  intros Hs He. assert (H : map shape (ents w') !! e = Some (shape u')) by (change (map shape (ents w')) with (shape <$> ents w'); by rewrite list_lookup_fmap, He).
  rewrite Hs in H. change (map shape (ents w)) with (shape <$> ents w) in H. rewrite list_lookup_fmap in H. destruct (ents w !! e) as [u|]; [|done].
  injection H as E1 E2 E3 E4. exists u. split; [done|]. unfold shape. congruence.
Qed.
Lemma shape_sym (w w' : bus) : same_shape w w' -> same_shape w' w.
Proof. by unfold same_shape. Qed.
Lemma shape_port (w w' : bus) (e i : nat) : same_shape w w' -> port_at w e i -> port_at w' e i.
Proof.
  intros Hs%shape_sym (u & Hu & Hi). destruct (shape_at w' w e u Hs Hu) as (u' & Hu' & E). exists u'. split; [done|].
  rewrite lookup_lt_is_Some in *. by rewrite <- (shape_len _ _ E).
Qed.
Lemma shape_links (w w' : bus) : same_shape w w' -> links_ok w -> links_ok w'.
Proof.
  intros Hs Hl e u' i p' v Hu' Hp' Hv. destruct (shape_at w w' e u' Hs Hu') as (u & Hu & [= _ _ _ E]). eapply shape_port; [done|].
  assert (H : map (fun p => (p_cna p, r_uent p, r_index p)) (ports u) !! i = Some (p_cna p', r_uent p', r_index p')).
  { rewrite <- E. change (map ?f ?l) with (f <$> l). by rewrite list_lookup_fmap, Hp'. }
  change (map ?f ?l) with (f <$> l) in H. rewrite list_lookup_fmap in H. destruct (ports u !! i) as [p|] eqn:Ep; [|done]. injection H as E1 E2 E3.
  rewrite <- E3. eapply Hl; [done|done|congruence].
Qed.
Lemma shape_put (w : bus) (e n : nat) (u u' : ub_entity) : ents w !! e = Some u -> shape u' = shape u -> same_shape w (put_ent w e u' n).
Proof.
  intros Hu E. unfold same_shape, put_ent. cbn [ents]. change (map shape ?l) with (shape <$> l). rewrite list_fmap_insert. apply list_insert_id.
  rewrite list_lookup_fmap, Hu. exact (f_equal Some (eq_sym E)).
Qed.
Lemma shape_trans (w w1 w2 : bus) : same_shape w w1 -> same_shape w1 w2 -> same_shape w w2.
Proof. unfold same_shape. congruence. Qed.

(** ** Neighbours *)

Lemma kfifo_length {A} (q : list A) (x : A) : (length q <= 16)%nat -> (length (kfifo_put q x) <= 16)%nat.
Proof. unfold kfifo_put, UB_ROUTE_KFIFO_DEPTH. destruct (Nat.ltb_spec (length q) 16); [|done]. rewrite length_app. cbn. lia. Qed.

Lemma put_ports_ok {A} (w : bus) (mk : nat * nat -> A) (at_ : A -> nat * nat) (ok : nat -> bool) (l : list ub_port) : (forall x, at_ (mk x) = x) ->
  (forall p v, p ∈ l -> r_uent p = Some v -> port_at w v (r_index p)) -> forall k q, Forall (fun a => port_at w (fst (at_ a)) (snd (at_ a))) q -> (length q <= 16)%nat ->
  exists q', put_ports w mk ok k l q = Some q' /\ Forall (fun a => port_at w (fst (at_ a)) (snd (at_ a))) q' /\ (length q' <= 16)%nat.
Proof.
  intros Hmk. induction l as [|p l IH]; intros Hl k q Hq Hlen; cbn [put_ports]; [by exists q|].
  assert (Hl' : forall p' v, p' ∈ l -> r_uent p' = Some v -> port_at w v (r_index p')) by (intros p' v Hp'; apply Hl; by right).
  destruct (r_uent p) as [v|] eqn:Ev; [|by apply IH]. destruct (Hl p v ltac:(by left) Ev) as (ru & Hru & Hi). unfold many_ports, get_ent. rewrite Hru. cbn [mbind option_bind].
  apply IH; [done| |].
  - destruct (_ && _); [|done]. unfold kfifo_put. destruct (_ <? _)%nat; [|done]. apply Forall_app. split; [done|]. apply Forall_singleton. rewrite Hmk. by exists ru.
  - destruct (_ && _); [by apply kfifo_length|done].
Qed.
Lemma neighbours_ok {A} (w : bus) (e : nat) (u : ub_entity) (from : option nat) (mk : nat * nat -> A) (at_ : A -> nat * nat) (q : list A) : (forall x, at_ (mk x) = x) ->
  links_ok w -> ents w !! e = Some u -> Forall (fun a => port_at w (fst (at_ a)) (snd (at_ a))) q -> (length q <= 16)%nat ->
  exists q', neighbours w e from mk q = Some q' /\ Forall (fun a => port_at w (fst (at_ a)) (snd (at_ a))) q' /\ (length q' <= 16)%nat.
Proof.
  intros Hmk Hl Hu Hq Hlen. unfold neighbours, get_ent. rewrite Hu. cbn [mbind option_bind]. apply put_ports_ok; try done.
  intros p v [i Hi]%list_elem_of_lookup Hv. by eapply Hl.
Qed.

(** ** Flooding ends *)

(** How many of the addresses [cs] can still become [b], over all ports. *)
Definition left_at (b : bool) (cs : list Z) (u : ub_entity) (j : nat) : nat := length (filter (fun c => test_bit u j c = negb b) cs).
Definition left_ent (b : bool) (cs : list Z) (u : ub_entity) : nat := sum_list (left_at b cs u <$> seq 0 (length (ports u))).
Definition left_bus (b : bool) (cs : list Z) (w : bus) : nat := sum_list (left_ent b cs <$> ents w).

Lemma sum_le {A} (f g : A -> nat) (l : list A) : (forall x, x ∈ l -> (f x <= g x)%nat) -> (sum_list (f <$> l) <= sum_list (g <$> l))%nat.
Proof. induction l as [|a l IH]; intros H; [done|]. cbn. specialize (IH ltac:(intros x Hx; apply H; by right)). specialize (H a ltac:(by left)). lia. Qed.
Lemma sum_lt {A} (f g : A -> nat) (l : list A) (a : A) : (forall x, x ∈ l -> (f x <= g x)%nat) -> a ∈ l -> (f a < g a)%nat ->
  (sum_list (f <$> l) < sum_list (g <$> l))%nat.
Proof.
  induction l as [|x l IH]; intros H Ha Hlt; [by apply not_elem_of_nil in Ha|]. cbn. assert (Hl : forall y, y ∈ l -> (f y <= g y)%nat) by (intros y Hy; apply H; by right).
  pose proof (sum_le f g l Hl). pose proof (H x ltac:(by left)). apply elem_of_cons in Ha as [->|Ha]; [lia|]. specialize (IH Hl Ha Hlt). lia.
Qed.
Lemma filter_le (P Q : Z -> Prop) {DP : forall x, Decision (P x)} {DQ : forall x, Decision (Q x)} (l : list Z) : (forall x, x ∈ l -> P x -> Q x) ->
  (length (filter P l) <= length (filter Q l))%nat.
Proof.
  induction l as [|a l IH]; intros H; [done|]. specialize (IH ltac:(intros x Hx; apply H; by right)). specialize (H a ltac:(by left)). rewrite !filter_cons.
  destruct (decide (P a)), (decide (Q a)); cbn [length]; try lia. tauto.
Qed.
Lemma filter_lt (P Q : Z -> Prop) {DP : forall x, Decision (P x)} {DQ : forall x, Decision (Q x)} (l : list Z) (a : Z) : (forall x, x ∈ l -> P x -> Q x) ->
  a ∈ l -> ~ P a -> Q a -> (length (filter P l) < length (filter Q l))%nat.
Proof.
  induction l as [|x l IH]; intros H Ha Hn Hq; [by apply not_elem_of_nil in Ha|]. assert (Hl : forall y, y ∈ l -> P y -> Q y) by (intros y Hy; apply H; by right).
  pose proof (filter_le P Q l Hl). pose proof (H x ltac:(by left)). rewrite !filter_cons. apply elem_of_cons in Ha as [->|Ha].
  - rewrite decide_False, decide_True by done. cbn [length]. lia.
  - specialize (IH Hl Ha Hn Hq). destruct (decide (P x)), (decide (Q x)); cbn [length]; try lia. tauto.
Qed.

Lemma left_ent_le (u u' : ub_entity) (i : nat) (cs : list Z) (b : bool) : bits_to u u' i cs b -> (left_ent b cs u' <= left_ent b cs u)%nat.
Proof.
  intros [HS HB]. unfold left_ent. rewrite (same_len u u' HS). apply sum_le. intros j _. apply filter_le. intros c _ Hc.
  destruct (HB j c) as [<-|(_ & _ & ? & ?)]; done.
Qed.
Lemma left_ent_lt (u u' : ub_entity) (i : nat) (cs : list Z) (b : bool) : bits_to u u' i cs b -> is_Some (ports u !! i) -> changed u u' i cs b ->
  (left_ent b cs u' < left_ent b cs u)%nat.
Proof.
  intros [HS HB] Hi (c & Hc & E1 & E2). unfold left_ent. rewrite (same_len u u' HS).
  assert (Hle : forall j c, test_bit u' j c = negb b -> test_bit u j c = negb b).
  { intros j c' Hc'. destruct (HB j c') as [<-|(_ & _ & ? & ?)]; done. }
  apply (sum_lt _ _ _ i).
  - intros j _. apply filter_le. intros c' _. apply Hle.
  - apply elem_of_seq. rewrite lookup_lt_is_Some in Hi. lia.
  - apply (filter_lt _ _ cs c); [intros c' _; apply Hle|done|by rewrite E2; destruct b|done].
Qed.
Lemma sum_insert {A} (f : A -> nat) (l : list A) (e : nat) (u u' : A) : l !! e = Some u ->
  (sum_list (f <$> <[e := u']> l) + f u = sum_list (f <$> l) + f u')%nat.
Proof.
  revert e. induction l as [|a l IH]; intros e He; [done|]. destruct e as [|e]; cbn in He.
  - injection He as ->. change (<[O := u']> (u :: l)) with (u' :: l). rewrite !fmap_cons. cbn [sum_list_with]. unfold id. lia.
  - specialize (IH e He). change (<[S e := u']> (a :: l)) with (a :: <[e := u']> l). rewrite !fmap_cons. cbn [sum_list_with]. lia.
Qed.
Lemma left_put (b : bool) (cs : list Z) (w : bus) (e n : nat) (u u' : ub_entity) : ents w !! e = Some u ->
  (left_bus b cs (put_ent w e u' n) + left_ent b cs u = left_bus b cs w + left_ent b cs u')%nat.
Proof. apply sum_insert. Qed.

(** ** Routes that only go away *)

Definition fewer_ent (u u' : ub_entity) : Prop :=
  map cn_cna (cna_list u') = map cn_cna (cna_list u) /\ forall j c, test_bit u' j c = true -> test_bit u j c = true.
Definition fewer (w w' : bus) : Prop := Forall2 fewer_ent (ents w) (ents w').

Lemma fewer_refl (w : bus) : fewer w w.
Proof. unfold fewer. apply Forall_Forall2_diag, Forall_forall. by intros u _. Qed.
Lemma fewer_trans (w w1 w2 : bus) : fewer w w1 -> fewer w1 w2 -> fewer w w2.
Proof. unfold fewer. apply Forall2_trans. intros u u1 u2 [A1 A2] [B1 B2]. split; [congruence|]. intros j c Ht. by apply A2, B2. Qed.
Lemma fewer_put (w : bus) (e n : nat) (u u' : ub_entity) : ents w !! e = Some u -> fewer_ent u u' -> fewer w (put_ent w e u' n).
Proof. intros Hu Hf. unfold fewer, put_ent. cbn [ents]. rewrite <- (list_insert_id (ents w) e u Hu) at 1. apply Forall2_insert; [apply fewer_refl|done]. Qed.

Lemma mod_node_cnas (f : cna_node -> cna_node) (c : Z) (l : list cna_node) : (forall x, cn_cna (f x) = cn_cna x) -> map cn_cna (mod_cna_node f c l) = map cn_cna l.
Proof. intros Hf. induction l as [|x l IH]; [done|]. cbn. destruct (_ =? _); cbn; [by rewrite Hf|by rewrite IH]. Qed.
Lemma del_walk_cnas (i : nat) (l : list cna_node) : forall u upd, map cn_cna (cna_list (snd (del_walk u i l upd))) = map cn_cna (cna_list u).
Proof.
  induction l as [|x l IH]; intros u upd; cbn [del_walk]; [done|]. destruct (negb _); [apply IH|]. rewrite IH. unfold ub_route_del_entry.
  destruct (find _ _); [|done]. cbn [set_cna_list cna_list]. by apply mod_node_cnas.
Qed.
Lemma advance_cnas (c : Z) (l : list cna_node) : forall pre, let '(a, b) := advance c pre l in a ++ b = pre ++ l.
Proof. induction l as [|x l IH]; intros pre; cbn; [done|]. destruct (_ <? _); [|done]. specialize (IH (pre ++ [x])). destruct (advance _ _ _). by rewrite IH, <- app_assoc. Qed.
Lemma clear_walk_cnas (bits : list Z) : forall pre l upd, map cn_cna (fst (clear_walk bits pre l upd)) = map cn_cna (pre ++ l).
Proof.
  induction bits as [|c bits IH]; intros pre l upd; cbn [clear_walk]; [done|]. pose proof (advance_cnas c l pre) as Ha. destruct (advance c pre l) as [a b]. rewrite <- Ha.
  destruct b as [|y b]; [apply IH|]. destruct (_ =? _); rewrite IH; [|done]. by rewrite !map_app.
Qed.
Lemma clear_port_fewer (u : ub_entity) (i : nat) : fewer_ent u (ub_route_clear_port u i) /\ forall c, test_bit (ub_route_clear_port u i) i c = false.
Proof.
  unfold ub_route_clear_port. destruct (ports u !! i) as [p|] eqn:Hp; [|split; [done|]; intros c; unfold test_bit; by rewrite Hp].
  destruct (clear_walk _ [] (cna_list u) false) as [l b] eqn:E. pose proof (clear_walk_cnas (merge_sort Z.le (elements (cna_maps p))) [] (cna_list u) false) as Hc. rewrite E in Hc.
  assert (Ht : forall j c, test_bit (if b then set_updated (set_cna_list (set_ports u (<[i := set_maps p ∅]> (ports u))) l) true
    else set_cna_list (set_ports u (<[i := set_maps p ∅]> (ports u))) l) j c = if bool_decide (j = i) then false else test_bit u j c).
  { intros j c. rewrite <- (clear_port_test u i j p c l Hp). by destruct b. }
  split; [|intros c; rewrite Ht; by rewrite bool_decide_eq_true_2]. split; [by destruct b|]. intros j c. rewrite Ht. by destruct (bool_decide _).
Qed.
Lemma fuel_fewer (w w' : bus) (e : nat) (u u' : ub_entity) : same_shape w w' -> fewer w w' -> ents w !! e = Some u -> ents w' !! e = Some u' ->
  sum_list ((fun u => length (ports u)) <$> ents w') = sum_list ((fun u => length (ports u)) <$> ents w) /\ length (cna_list u') = length (cna_list u).
Proof.
  intros Hs Hf Hu Hu'. split.
  - assert (E : forall x, (fun u => length (ports u)) <$> ents x = (fun s => length (snd s)) <$> map shape (ents x)).
    { intros x. change (map shape (ents x)) with (shape <$> ents x). rewrite <- list_fmap_compose. apply list_fmap_ext. intros _ v _. cbn. by rewrite length_map. }
    by rewrite !E, Hs.
  - destruct (Forall2_lookup_l _ _ _ _ _ Hf Hu) as (v & Hv & [E _]). rewrite Hu' in Hv. injection Hv as <-. rewrite <- (length_map cn_cna), E. apply length_map.
Qed.

Section Flood.
Context (kzalloc : nat -> bool) (START : Z).

Definition bus_ok (w : bus) : Prop := Forall (fun u => ent_ok START u /\ flagged u) (ents w).
(** If memory does not run out, the entities keep their invariant. *)
Definition keeps (l : list cna_node) (w w' : bus) : Prop :=
  (forall n, kzalloc n = true) -> Forall (fun x => cna_ok (cn_cna x)) l -> bus_ok w -> bus_ok w'.

Lemma updated_bits (u u' : ub_entity) (i : nat) (cs : list Z) (b c : bool) : bits_to u u' i cs b -> bits_to u (set_updated u' c) i cs b.
Proof. by intros [HS HB]. Qed.

Lemma mod_entries_bits (n : nat) (u : ub_entity) (i : nat) (l : list cna_node) (off : Z) : is_Some (ports u !! i) ->
  exists b u' n', ub_route_mod_entries kzalloc n u i l off = (b, u', n') /\ bits_to u u' i (map cn_cna l) true /\ (b = true -> changed u u' i (map cn_cna l) true).
Proof.
  intros Hp. unfold ub_route_mod_entries. destruct (mod_walk_bits kzalloc i off l n u false Hp) as (fin & upd & u' & n' & -> & HB & HC). destruct fin.
  - eexists _, _, _. split; [done|]. destruct upd; (split; [by try apply updated_bits|]); [|done]. intros _. by destruct (HC eq_refl eq_refl).
  - by eexists _, _, _.
Qed.
Lemma del_entries_bits (u : ub_entity) (i : nat) (l : list cna_node) : is_Some (ports u !! i) ->
  exists b u', ub_route_del_entries u i l = (b, u') /\ bits_to u u' i (map cn_cna l) false /\ (b = true -> changed u u' i (map cn_cna l) false).
Proof.
  intros Hp. unfold ub_route_del_entries. destruct (del_walk_bits i l u false Hp) as (upd & u' & -> & HB & HC & _).
  eexists _, _. split; [done|]. destruct upd; (split; [by try apply updated_bits|]); [|done]. intros _. by destruct (HC eq_refl).
Qed.

Lemma bus_put (w : bus) (e n : nat) (u u' : ub_entity) : ents w !! e = Some u -> op_ok START u u' -> bus_ok w -> bus_ok (put_ent w e u' n).
Proof.
  intros Hu [_ Ho] Hw. unfold bus_ok, put_ent. cbn [ents]. apply Forall_insert; [done|]. unfold bus_ok in Hw. rewrite Forall_forall in Hw.
  destruct (Hw u) as [H1 H2]; [by eapply list_elem_of_lookup_2|]. by apply Ho.
Qed.

Lemma mod_bfs_ends (l : list cna_node) (fuel : nat) : forall w q, links_ok w -> Forall (fun a : nat * nat * Z => port_at w (fst (fst a)) (snd (fst a))) q ->
  (length q <= 16)%nat -> (17 * left_bus true (map cn_cna l) w + length q <= fuel)%nat ->
  exists w', mod_bfs_loop kzalloc fuel w l q = Some w' /\ same_shape w w' /\ keeps l w w'.
Proof.
  induction fuel as [|fuel IH]; intros w q Hl Hq Hlen Hf.
  { destruct q; [|cbn in Hf; lia]. exists w. split; [done|]. split; [done|]. by intros _. }
  destruct q as [|[[e i] off] q]; cbn [mod_bfs_loop]; [exists w; split; [done|]; split; [done|]; by intros _|].
  apply Forall_cons in Hq as [(u & Hu & Hi) Hq]. cbn [fst snd] in Hu, Hi. unfold get_ent. rewrite Hu. cbn [mbind option_bind].
  destruct Hi as [p Hp]. rewrite Hp. cbn [mbind option_bind].
  destruct (mod_entries_bits (allocs w) u i l off ltac:(by eexists)) as (b & u' & n' & E & HB & HC). rewrite E.
  assert (Hsh : same_shape w (put_ent w e u' n')) by (eapply shape_put; [done|]; apply shape_ent, (bt_same _ _ _ _ _ HB)).
  assert (Hl' : links_ok (put_ent w e u' n')) by (by eapply shape_links).
  assert (Hq' : Forall (fun a : nat * nat * Z => port_at (put_ent w e u' n') (fst (fst a)) (snd (fst a))) q).
  { eapply Forall_impl; [exact Hq|]. intros a. by apply shape_port. }
  assert (Hkeep : keeps l w (put_ent w e u' n')).
  { intros Hk Hc Hw. destruct (mod_entries_ok kzalloc START Hk (allocs w) u i l off ltac:(by eexists) Hc) as (b1 & u1 & n1 & E1 & Ho).
    rewrite E in E1. injection E1 as <- <- <-. by eapply bus_put. }
  pose proof (left_put true (map cn_cna l) w e n' u u' Hu) as Hleft. pose proof (left_ent_le _ _ _ _ _ HB) as Hle. cbn [length] in Hlen, Hf.
  assert (Hgo : forall q', Forall (fun a : nat * nat * Z => port_at (put_ent w e u' n') (fst (fst a)) (snd (fst a))) q' -> (length q' <= 16)%nat ->
    (17 * left_bus true (map cn_cna l) (put_ent w e u' n') + length q' <= fuel)%nat ->
    exists w', mod_bfs_loop kzalloc fuel (put_ent w e u' n') l q' = Some w' /\ same_shape w w' /\ keeps l w w').
  { intros q' Hq1 Hq2 Hq3. destruct (IH _ q' Hl' Hq1 Hq2 Hq3) as (w' & Ew & Hs & Hkp). exists w'. split; [done|]. split; [by eapply shape_trans|].
    intros Hk Hc Hw. apply Hkp; [done|done|]. by apply Hkeep. }
  destruct b; cbn [negb]; [|apply Hgo; [done|lia|lia]]. pose proof (left_ent_lt _ _ _ _ _ HB ltac:(by eexists) (HC eq_refl)) as Hlt.
  destruct (ub_entity_support_forward u'); cbn [negb]; [|apply Hgo; [done|lia|lia]].
  destruct (neighbours_ok (put_ent w e u' n') e u' (Some i) (fun p => (p, s16 (off + 1))) fst q ltac:(done) Hl') as (q' & -> & Hq1 & Hq2); [|done|lia|].
  { unfold put_ent. cbn [ents]. apply list_lookup_insert_eq. by eapply lookup_lt_Some. }
  cbn [mbind option_bind]. apply Hgo; [done|done|lia].
Qed.

Lemma del_bfs_ends (l : list cna_node) (fuel : nat) : forall w q, links_ok w -> Forall (fun a : nat * nat => port_at w (fst a) (snd a)) q ->
  (length q <= 16)%nat -> (17 * left_bus false (map cn_cna l) w + length q <= fuel)%nat ->
  exists w', del_bfs_loop fuel w l q = Some w' /\ same_shape w w' /\ fewer w w' /\ (bus_ok w -> bus_ok w').
Proof.
  induction fuel as [|fuel IH]; intros w q Hl Hq Hlen Hf.
  { destruct q; [|cbn in Hf; lia]. exists w. pose proof (fewer_refl w). done. }
  destruct q as [|[e i] q]; cbn [del_bfs_loop]; [exists w; pose proof (fewer_refl w); done|].
  apply Forall_cons in Hq as [(u & Hu & Hi) Hq]. cbn [fst snd] in Hu, Hi. unfold get_ent. rewrite Hu. cbn [mbind option_bind].
  destruct Hi as [p Hp]. rewrite Hp. cbn [mbind option_bind].
  destruct (del_entries_bits u i l ltac:(by eexists)) as (b & u' & E & HB & HC). rewrite E. set (w1 := put_ent w e u' (allocs w)).
  assert (Hsh : same_shape w w1) by (eapply shape_put; [done|]; apply shape_ent, (bt_same _ _ _ _ _ HB)).
  assert (Hl' : links_ok w1) by (by eapply shape_links).
  assert (Hq' : Forall (fun a : nat * nat => port_at w1 (fst a) (snd a)) q).
  { eapply Forall_impl; [exact Hq|]. intros a. by apply shape_port. }
  assert (Hfew : fewer w w1).
  { eapply fewer_put; [done|]. split.
    - unfold ub_route_del_entries in E. pose proof (del_walk_cnas i l u false) as Hc. destruct (del_walk u i l false) as [upd v]. injection E as _ <-. by destruct upd.
    - intros j c Ht. destruct HB as [_ HB]. destruct (HB j c) as [<-|(_ & _ & ? & ?)]; done. }
  assert (Hkeep : bus_ok w -> bus_ok w1).
  { intros Hw. destruct (del_entries_ok START u i l ltac:(by eexists)) as (b1 & u1 & E1 & Ho). rewrite E in E1. injection E1 as <- <-. by eapply bus_put. }
  pose proof (left_put false (map cn_cna l) w e (allocs w) u u' Hu) as Hleft. fold w1 in Hleft. pose proof (left_ent_le _ _ _ _ _ HB) as Hle. cbn [length] in Hlen, Hf.
  assert (Hgo : forall q', Forall (fun a : nat * nat => port_at w1 (fst a) (snd a)) q' -> (length q' <= 16)%nat ->
    (17 * left_bus false (map cn_cna l) w1 + length q' <= fuel)%nat ->
    exists w', del_bfs_loop fuel w1 l q' = Some w' /\ same_shape w w' /\ fewer w w' /\ (bus_ok w -> bus_ok w')).
  { intros q' Hq1 Hq2 Hq3. destruct (IH _ q' Hl' Hq1 Hq2 Hq3) as (w' & Ew & Hs & Hfw & Hkp). exists w'. split; [done|]. split; [by eapply shape_trans|]. split; [by eapply fewer_trans|]. intros Hw. by apply Hkp, Hkeep. }
  destruct b; cbn [negb]; [|apply Hgo; [done|lia|lia]]. pose proof (left_ent_lt _ _ _ _ _ HB ltac:(by eexists) (HC eq_refl)) as Hlt.
  destruct (ub_entity_support_forward u'); cbn [negb]; [|apply Hgo; [done|lia|lia]].
  destruct (neighbours_ok w1 e u' (Some i) id id q ltac:(done) Hl') as (q' & -> & Hq1 & Hq2); [|done|lia|].
  { unfold w1, put_ent. cbn [ents]. apply list_lookup_insert_eq. by eapply lookup_lt_Some. }
  cbn [mbind option_bind]. apply Hgo; [done|done|lia].
Qed.

(** ** The copies of lists *)

Lemma copy_walk_ok (upd : bool) (l : list cna_node) : forall n acc, exists r l' n', copy_walk kzalloc n upd l acc = (r, l', n') /\
  (length l' <= length acc + length l)%nat /\ ((forall n, kzalloc n = true) -> r = 0) /\
  (Forall (fun x => cna_ok (cn_cna x)) (acc ++ l) -> Forall (fun x => cna_ok (cn_cna x)) l').
Proof.
  induction l as [|x l IH]; intros n acc; cbn [copy_walk].
  { eexists _, _, _. split; [done|]. split; [lia|]. split; [done|]. by rewrite app_nil_r. }
  destruct (upd && negb (cn_need x)).
  { destruct (IH n acc) as (r & l' & n' & E & H1 & H2 & H3). exists r, l', n'. split; [done|]. cbn [length]. split; [lia|]. split; [done|].
    intros HF. apply H3. rewrite Forall_app, Forall_cons in HF. rewrite Forall_app. tauto. }
  unfold ub_create_cna_node. destruct (kzalloc n) eqn:Ek.
  - edestruct (IH (S n)) as (r & l' & n' & E & H1 & H2 & H3). exists r, l', n'. split; [exact E|]. rewrite length_app in H1. cbn [length] in *. split; [lia|]. split; [done|].
    intros HF. apply H3. rewrite Forall_app, Forall_cons in HF. rewrite !Forall_app, Forall_singleton. cbn [cn_cna]. tauto.
  - eexists _, _, _. split; [done|]. cbn [length]. split; [lia|]. split; [intros Hk; congruence|]. intros _. constructor.
Qed.

Definition total_ports (w : bus) : nat := sum_list ((fun u => length (ports u)) <$> ents w).
Definition flood_fuel (w : bus) (u : ub_entity) : nat := 17 * (total_ports w * length (cna_list u)) + 16.

Lemma left_bound (b : bool) (cs : list Z) (w : bus) : (left_bus b cs w <= total_ports w * length cs)%nat.
Proof.
  unfold left_bus, total_ports. induction (ents w) as [|u l IH]; [done|]. rewrite !fmap_cons. cbn [sum_list_with]. unfold id at 1 3.
  assert (Hu : (left_ent b cs u <= length (ports u) * length cs)%nat); [|lia]. unfold left_ent.
  assert (Hg : forall js, (sum_list (left_at b cs u <$> js) <= length js * length cs)%nat).
  { induction js as [|j js IHj]; [done|]. rewrite fmap_cons. cbn [sum_list_with length]. unfold id at 1. pose proof (length_filter (fun c => test_bit u j c = negb b) cs).
    unfold left_at at 1. lia. }
  specialize (Hg (seq 0 (length (ports u)))). rewrite length_seq in Hg. done.
Qed.

Lemma allocs_shape (w : bus) (n : nat) : same_shape w (set_allocs w n).
Proof. done. Qed.
Lemma nodes_of (w : bus) (e : nat) (u : ub_entity) : bus_ok w -> ents w !! e = Some u -> ent_ok START u.
Proof. unfold bus_ok. rewrite Forall_forall. intros Hw Hu. apply Hw. by eapply list_elem_of_lookup_2. Qed.

Lemma mod_bfs_ok (fuel : nat) (w : bus) (e : nat) (u : ub_entity) : links_ok w -> ents w !! e = Some u -> (flood_fuel w u <= fuel)%nat ->
  exists w', ub_route_mod_bfs kzalloc fuel w e = Some w' /\ same_shape w w' /\ ((forall n, kzalloc n = true) -> bus_ok w -> bus_ok w').
Proof.
  intros Hl Hu Hf. unfold ub_route_mod_bfs, get_ent, ub_entity_copy_cna_list. rewrite Hu. cbn [mbind option_bind].
  destruct (copy_walk_ok true (cna_list u) (allocs w) []) as (r & l & n & -> & H1 & H2 & H3). destruct (ctrue r); [by eexists|].
  destruct (neighbours_ok (set_allocs w n) e u None (fun p => (p, 1)) fst [] ltac:(done) Hl Hu) as (q & -> & Hq1 & Hq2); [constructor|cbn; lia|].
  cbn [mbind option_bind]. destruct (mod_bfs_ends l fuel (set_allocs w n) q Hl Hq1 Hq2) as (w' & -> & Hs & Hkp).
  { pose proof (left_bound true (map cn_cna l) w) as Hb. rewrite length_map in Hb. cbn [length] in H1. unfold flood_fuel in Hf.
    change (left_bus true (map cn_cna l) (set_allocs w n)) with (left_bus true (map cn_cna l) w).
    assert ((total_ports w * length l <= total_ports w * length (cna_list u))%nat) by (apply Nat.mul_le_mono_l; lia). lia. }
  exists w'. split; [done|]. split; [done|]. intros Hk Hw. apply Hkp; [done| |done]. apply H3. exact (eo_nodes _ _ (nodes_of w e u Hw Hu)).
Qed.
Lemma del_bfs_ok (fuel : nat) (w : bus) (e : nat) (u : ub_entity) : links_ok w -> ents w !! e = Some u -> (flood_fuel w u <= fuel)%nat ->
  exists w', ub_route_del_bfs kzalloc fuel w e = Some w' /\ same_shape w w' /\ fewer w w' /\ (bus_ok w -> bus_ok w').
Proof.
  intros Hl Hu Hf. unfold ub_route_del_bfs, get_ent, ub_entity_copy_cna_list. rewrite Hu. cbn [mbind option_bind].
  destruct (copy_walk_ok true (cna_list u) (allocs w) []) as (r & l & n & -> & H1 & H2 & H3). destruct (ctrue r); [exists (set_allocs w n); pose proof (fewer_refl w); done|].
  destruct (neighbours_ok (set_allocs w n) e u None id id [] ltac:(done) Hl Hu) as (q & -> & Hq1 & Hq2); [constructor|cbn; lia|].
  cbn [mbind option_bind]. destruct (del_bfs_ends l fuel (set_allocs w n) q Hl Hq1 Hq2) as (w' & -> & Hs & Hfw & Hkp); [|by exists w'].
  pose proof (left_bound false (map cn_cna l) w) as Hb. rewrite length_map in Hb. cbn [length] in H1. unfold flood_fuel in Hf.
  change (left_bus false (map cn_cna l) (set_allocs w n)) with (left_bus false (map cn_cna l) w).
  assert ((total_ports w * length l <= total_ports w * length (cna_list u))%nat) by (apply Nat.mul_le_mono_l; lia). lia.
Qed.

(** ** Neighbours and the table *)

Lemma add_nodes_ok (Hk : forall n, kzalloc n = true) (n : nat) (c : Z) (l : list cna_node) : node_sorted l -> Forall (fun x => cna_ok (cn_cna x)) l -> cna_ok c ->
  exists l' n', ub_add_cna_node kzalloc n c 0 l = (0, l', n') /\ node_sorted l' /\ Forall (fun x => cna_ok (cn_cna x)) l'.
Proof.
  intros Hs Hl Hc. destruct (add_node_ok kzalloc Hk n c 0 l Hs) as (l' & n' & E & Hs' & Hin & _). exists l', n'. split_and!; [done|done|].
  rewrite Forall_forall in *. intros x Hx. destruct (Hin x Hx) as [->|Hx']; [done|by apply Hl].
Qed.
Lemma copy_sorted (Hk : forall n, kzalloc n = true) (l : list cna_node) : forall n acc r l' n', copy_walk kzalloc n false l acc = (r, l', n') ->
  map cn_cna l' = map cn_cna (acc ++ l).
Proof.
  induction l as [|x l IH]; intros n acc r l' n'; cbn [copy_walk].
  - intros [= _ <- _]. by rewrite app_nil_r.
  - unfold ub_create_cna_node. rewrite Hk. intros E. rewrite (IH _ _ _ _ _ E), !map_app. cbn [map]. by rewrite <- app_assoc.
Qed.

Lemma mod_neighbor_ok (w : bus) (e i re ri : nat) : port_at w e i -> port_at w re ri ->
  exists r w', ub_route_mod_neighbor kzalloc w e i re ri = Some (r, w') /\ same_shape w w' /\ ((forall n, kzalloc n = true) -> bus_ok w -> r = 0 /\ bus_ok w').
Proof.
  intros (u & Hu & [p Hp]) (ru & Hru & Hri). pose proof Hri as [rp Hrp]. unfold ub_route_mod_neighbor, get_ent. rewrite Hu. cbn [mbind option_bind]. rewrite Hp, Hru.
  cbn [mbind option_bind]. rewrite Hrp. cbn [mbind option_bind].
  assert (Hcopy : exists r l n, (if ub_entity_support_forward u then ub_entity_copy_cna_list kzalloc (allocs w) u [] false else (0, [], allocs w)) = (r, l, n) /\
    ((forall n, kzalloc n = true) -> r = 0 /\ (ent_ok START u -> node_sorted l /\ Forall (fun x => cna_ok (cn_cna x)) l))).
  { destruct (ub_entity_support_forward u).
    - unfold ub_entity_copy_cna_list. destruct (copy_walk_ok false (cna_list u) (allocs w) []) as (r & l & n & E & _ & H2 & H3). exists r, l, n. split; [done|].
      intros Hk. split; [by apply H2|]. intros [_ _ O3 O4 _ _ _]. split; [|by apply H3]. unfold node_sorted. by rewrite (copy_sorted Hk _ _ _ _ _ _ E).
    - eexists _, _, _. split; [done|]. intros _. split; [done|]. intros _. split; constructor. }
  destruct Hcopy as (r & l & n & -> & Hgood). destruct (ctrue r) eqn:Er.
  { eexists _, _. split; [done|]. split; [done|]. intros Hk _. destruct (Hgood Hk) as [-> _]. done. }
  destruct (ub_add_cna_node kzalloc n (u_cna u) 0 l) as [[r1 l1] n1] eqn:E1. destruct (ctrue r1) eqn:Er1.
  { eexists _, _. split; [done|]. split; [done|]. intros Hk Hw. pose proof (nodes_of w e u Hw Hu) as Hok. destruct (Hgood Hk) as [_ [G1 G2]%(fun f => f Hok)].
    destruct (add_nodes_ok Hk n (u_cna u) l G1 G2 (proj1 (eo_cna _ _ Hok))) as (? & ? & E & _). rewrite E1 in E. injection E as -> _ _. done. }
  destruct (ub_add_cna_node kzalloc n1 (p_cna p) 0 l1) as [[r2 l2] n2] eqn:E2.
  assert (Hall : (forall n, kzalloc n = true) -> bus_ok w -> r2 = 0 /\ Forall (fun x => cna_ok (cn_cna x)) l2).
  { intros Hk Hw. pose proof (nodes_of w e u Hw Hu) as Hok. destruct (Hgood Hk) as [_ [G1 G2]%(fun f => f Hok)].
    destruct (add_nodes_ok Hk n (u_cna u) l G1 G2 (proj1 (eo_cna _ _ Hok))) as (l' & n' & E & F1 & F2). rewrite E1 in E. injection E as -> <- <-.
    assert (Hpc : cna_ok (p_cna p)). { destruct (eo_cna _ _ Hok) as [_ Hall]. rewrite Forall_forall in Hall. apply Hall. by eapply list_elem_of_lookup_2. }
    destruct (add_nodes_ok Hk n1 (p_cna p) l1 F1 F2 Hpc) as (l'' & n'' & E & _ & F3). rewrite E2 in E. by injection E as -> <- <-. }
  destruct (ctrue r2) eqn:Er2.
  { eexists _, _. split; [done|]. split; [done|]. intros Hk Hw. destruct (Hall Hk Hw) as [-> _]. done. }
  destruct (mod_entries_bits n2 ru ri l2 1 Hri) as (b & ru' & n' & E & HB & _). rewrite E. eexists _, _. split; [done|].
  split; [eapply shape_put; [done|]; apply shape_ent, (bt_same _ _ _ _ _ HB)|]. intros Hk Hw. split; [done|]. destruct (Hall Hk Hw) as [_ Hc].
  destruct (mod_entries_ok kzalloc START Hk n2 ru ri l2 1 Hri Hc) as (b1 & u1 & n1' & E' & Ho). rewrite E in E'. injection E' as <- <- <-. by eapply bus_put.
Qed.

Lemma sync_all_ok (w : bus) (devs : list nat) : bus_ok w -> same_shape w (ub_route_sync_all START w devs) /\ bus_ok (ub_route_sync_all START w devs) /\
  map ports (ents (ub_route_sync_all START w devs)) = map ports (ents w) /\ forall e u, e ∈ devs -> ents (ub_route_sync_all START w devs) !! e = Some u -> synced START u.
Proof.
  intros Hw. unfold ub_route_sync_all. unfold same_shape, bus_ok in *. cbn [ents].
  assert (Hgo : forall devs l done_, Forall (fun u => ent_ok START u /\ flagged u) l -> (forall e u, e ∈ done_ -> l !! e = Some u -> synced START u) ->
    let l' := foldl (fun l e => alter (ub_route_sync_dev START) e l) l devs in
    map shape l' = map shape l /\ Forall (fun u => ent_ok START u /\ flagged u) l' /\ map ports l' = map ports l /\ forall e u, e ∈ done_ ++ devs -> l' !! e = Some u -> synced START u).
  { clear. induction devs as [|e devs IH]; intros l done_ Hl Hd; cbn [foldl]; [by rewrite app_nil_r|].
    assert (Hone : map shape (alter (ub_route_sync_dev START) e l) = map shape l /\ Forall (fun u => ent_ok START u /\ flagged u) (alter (ub_route_sync_dev START) e l) /\
      map ports (alter (ub_route_sync_dev START) e l) = map ports l /\ forall e' u, e' ∈ done_ ++ [e] -> alter (ub_route_sync_dev START) e l !! e' = Some u -> synced START u).
    { split; [|split; [|split]].
      - clear Hd. revert e. induction Hl as [|u l [Hu Hf] Hl IHl]; intros e; [done|]. destruct e as [|e].
        + change (alter ?f O (u :: l)) with (f u :: l). cbn [map]. f_equal. apply shape_ports. by apply sync_dev_ok.
        + change (alter ?f (S e) (u :: l)) with (u :: alter f e l). cbn [map]. by rewrite IHl.
      - apply Forall_alter; [done|]. intros u Hu [H1 H2]. destruct (sync_dev_ok START u H1 H2) as (_ & ? & ? & _). done.
      - clear Hd. revert e. induction Hl as [|u l [Hu Hf] Hl IHl]; intros e; [done|]. destruct e as [|e].
        + change (alter ?f O (u :: l)) with (f u :: l). cbn [map]. f_equal. by destruct (sync_dev_ok START u Hu Hf) as [(_ & _ & _ & ?) _].
        + change (alter ?f (S e) (u :: l)) with (u :: alter f e l). cbn [map]. by rewrite IHl.
      - intros e' u Hin He'. destruct (decide (e' = e)) as [->|Hne].
        + rewrite list_lookup_alter_eq in He'. destruct (l !! e) as [u0|] eqn:E0; [|done]. injection He' as <-. rewrite Forall_forall in Hl.
          destruct (Hl u0) as [H1 H2]; [by eapply list_elem_of_lookup_2|]. by apply sync_dev_ok.
        + rewrite list_lookup_alter_ne in He' by congruence. apply (Hd e'); [|done]. apply elem_of_app in Hin as [?|?%list_elem_of_singleton]; done. }
    destruct Hone as (A1 & A2 & A4 & A3). destruct (IH _ (done_ ++ [e]) A2 A3) as (B1 & B2 & B4 & B3). split; [congruence|]. split; [done|]. split; [congruence|]. intros e' u Hin. apply B3. by rewrite <- app_assoc. }
  destruct (Hgo devs (ents w) [] Hw) as (H1 & H2 & H4 & H3); [by intros ? ? ?%not_elem_of_nil|]. done.
Qed.
End Flood.
