(* ===== verification/UbRouteLow.v ===== *)
(** * Routing: when memory runs out

    An allocation that fails leaves a bit of a port without a node in the list, or a node that is marked
    in an entity that is not.  What still holds then, whatever the allocations do: the table names for
    each address that has a node without mark exactly the ports of the driver, it has nothing for an
    address without a node, and for the others it names no port that the driver does not. *)

From S2P Require Import Prelude UbRoute UbRouteInv UbRouteEnt UbRouteSync UbRouteBus.

(** ** The invariant *)

Section Soft.
Context (kzalloc : nat -> bool) (START : Z).

(** The row of [c] is as it should be; [b] is whether the table is going to be written. *)
Definition row_ok (b : bool) (u : ub_entity) (c : Z) (i : nat) : Prop :=
  match find c (cna_list u) with
  | None => hw_bit START u c (Z.of_nat i) = false
  | Some x => if cn_need x then b = false -> hw_bit START u c (Z.of_nat i) = true -> test_bit u i c = true
              else hw_bit START u c (Z.of_nat i) = test_bit u i c
  end.
Record soft_ok (b : bool) (u : ub_entity) : Prop := {
  so_ports : port_nums u <= 128;
  so_cna : cna_ok (u_cna u) /\ Forall (fun p => cna_ok (p_cna p)) (ports u);
  so_sorted : node_sorted (cna_list u);
  so_nodes : Forall (fun x => cna_ok (cn_cna x)) (cna_list u);
  so_rows : has_table u = true -> forall c i, (i < length (ports u))%nat -> cna_ok c -> row_ok b u c i;
}.
Definition soft (u : ub_entity) : Prop := soft_ok (route_updated u) u.
Definition bus_soft (w : bus) : Prop := Forall soft (ents w).

Lemma soft_mark (b : bool) (u : ub_entity) : soft_ok b u -> soft_ok true u.
Proof.
  intros [O1 O2 O3 O4 O5]. split; [done|done|done|done|]. intros Ht c i Hi Hc. specialize (O5 Ht c i Hi Hc). unfold row_ok in *.
  destruct (find c (cna_list u)) as [x|]; [|done]. by destruct (cn_need x).
Qed.
Lemma soft_updated (b b' : bool) (u : ub_entity) : soft_ok b u -> soft_ok b (set_updated u b').
Proof. intros [O1 O2 O3 O4 O5]. split; [exact O1|exact O2|exact O3|exact O4|exact O5]. Qed.
(** Without marks there is no difference. *)
Lemma soft_clean (b b' : bool) (u : ub_entity) : Forall (fun x => cn_need x = false) (cna_list u) -> soft_ok b u -> soft_ok b' u.
Proof.
  intros Hcl [O1 O2 O3 O4 O5]. split; [done|done|done|done|]. intros Ht c i Hi Hc. specialize (O5 Ht c i Hi Hc). unfold row_ok in *.
  destruct (find c (cna_list u)) as [x|] eqn:Ex; [|done]. apply find_some in Ex as [Hx _]. rewrite Forall_forall in Hcl. by rewrite (Hcl x Hx) in *.
Qed.
(** With all allocations the invariant is stronger. *)
Lemma ok_soft (u : ub_entity) : ent_ok START u -> flagged u -> soft u.
Proof.
  intros [O1 O2 O3 O4 O5 O7 O6] Hf. split; [done|done|done|done|]. intros Ht c i Hi Hc. specialize (O6 Ht c i). specialize (O5 c). unfold row_ok.
  destruct (find c (cna_list u)) as [x|] eqn:Ex; [|by rewrite O6, (entry_of_none u c O5)]. destruct (cn_need x) eqn:En; [|by apply O6].
  intros Hr. destruct Hf as [Hf|Hf]; [congruence|]. apply find_some in Ex as [Hx _]. rewrite Forall_forall in Hf. specialize (Hf x Hx). congruence.
Qed.
Lemma bus_ok_soft (w : bus) : bus_ok START w -> bus_soft w.
Proof. intros Hw. eapply Forall_impl; [exact Hw|]. intros u [H1 H2]. by apply ok_soft. Qed.

(** What [row_ok] says of every row. *)
Lemma row_sound (u : ub_entity) (c : Z) (i : nat) : row_ok false u c i -> hw_bit START u c (Z.of_nat i) = true -> test_bit u i c = true.
Proof. unfold row_ok. destruct (find c (cna_list u)) as [x|]; [|congruence]. destruct (cn_need x); [by intros H; apply H|congruence]. Qed.

(** Only the routes to [c] change: its node is marked and the routes only grow (or the table is going to be
    written), or there is no node before and after. *)
Lemma soft_touch (b : bool) (u u' : ub_entity) (c : Z) : soft_ok b u -> same_ent u u' -> cna_ok c -> node_sorted (cna_list u') ->
  (forall c', c' <> c -> find c' (cna_list u') = find c' (cna_list u) /\ forall i, test_bit u' i c' = test_bit u i c') ->
  match find c (cna_list u') with
  | Some x => cn_need x = true /\ (b = false -> forall i, test_bit u i c = true -> test_bit u' i c = true)
  | None => find c (cna_list u) = None
  end -> soft_ok b u'.
Proof.
  intros [O1 [O2 O2'] O3 O4 O5] HS Hc Hs Hoth Hx. pose proof HS as (S1 & S2 & S3 & S4 & S5). pose proof (same_len u u' HS) as Hlen.
  assert (Hpn : port_nums u' = port_nums u) by (unfold port_nums; congruence). split; [congruence| |done| |].
  - split; [congruence|]. rewrite Forall_forall in *. intros p Hp.
    assert (Hm : (p_cna p, r_uent p, r_index p) ∈ map (fun p => (p_cna p, r_uent p, r_index p)) (ports u)) by (rewrite <- S5; apply list_elem_of_fmap; by exists p).
    apply list_elem_of_fmap in Hm as (q & [= -> _ _] & Hq). by apply O2'.
  - rewrite Forall_forall in *. intros y Hy. destruct (decide (cn_cna y = c)) as [->|Hne]; [done|].
    destruct (Hoth _ Hne) as [Ef _]. rewrite find_elem in Ef by done. symmetry in Ef. apply find_some in Ef as [Hin _]. by apply O4.
  - intros Ht c' i Hi Hc'. assert (Ht' : has_table u = true) by (unfold has_table in *; by rewrite <- Hpn, <- S2, <- S3). rewrite Hlen in Hi. specialize (O5 Ht' c' i Hi Hc').
    assert (Hh : hw_bit START u' c' (Z.of_nat i) = hw_bit START u c' (Z.of_nat i)) by (unfold hw_bit; by rewrite S4, Hpn). unfold row_ok in *. rewrite Hh.
    destruct (decide (c' = c)) as [->|Hne]; [|by destruct (Hoth c' Hne) as [-> ->]]. destruct (find c (cna_list u')) as [x|]; [|by rewrite Hx in O5].
    destruct Hx as [-> Hg]. intros Hb Hw. apply (Hg Hb). destruct (find c (cna_list u)) as [y|]; [|congruence]. destruct (cn_need y); [by apply O5|congruence].
Qed.

(** ** Entries *)

(** The list after [ub_add_cna_node]: as with memory enough, or as before, without a node for [c]. *)
Lemma add_node_any (n : nat) (c d : Z) (l : list cna_node) : node_sorted l -> exists r l' n', ub_add_cna_node kzalloc n c d l = (r, l', n') /\
  ((r = 0 /\ exists m, ub_add_cna_node (fun _ => true) n c d l = (0, l', m)) \/ (r = - ENOMEM /\ l' = l /\ find c l = None)).
Proof.
  induction l as [|y l IH] using rev_ind; intros Hs.
  - unfold ub_add_cna_node. cbn. unfold ub_create_cna_node. destruct (kzalloc n); eexists _, _, _; (split; [done|]); [left|by right]. split; [done|]. by eexists.
  - rewrite !add_snoc. pose proof Hs as (Hl & _ & Hlt)%sorted_app. destruct (Z.ltb_spec c (cn_cna y)) as [Hcy|Hcy].
    + destruct (IH Hl) as (r & l' & n' & -> & H). eexists _, _, _. split; [done|]. destruct H as [(-> & m & ->)|(-> & -> & Hf)]; [left; split; [done|]; by eexists|right].
      split; [done|]. split; [done|]. rewrite find_app, Hf by done. by rewrite (proj2 (Z.eqb_neq (cn_cna y) c)) by lia.
    + destruct (Z.eqb_spec (cn_cna y) c) as [Ey|Hne]; [eexists _, _, _; split; [done|]; left; split; [done|]; by eexists|].
      destruct (kzalloc n); eexists _, _, _; (split; [done|]); [left; split; [done|]; by eexists|right]. split; [done|]. split; [done|].
      rewrite find_app by done. rewrite (proj2 (Z.eqb_neq (cn_cna y) c)) by done. destruct (find c l) as [x|] eqn:E; [|done].
      apply find_some in E as [Hx Ex]. specialize (Hlt x y Hx ltac:(by apply list_elem_of_singleton)). lia.
Qed.
Lemma add_node_cnas (n : nat) (c d : Z) (l : list cna_node) : node_sorted l -> Forall (fun x => cna_ok (cn_cna x)) l -> cna_ok c ->
  exists r l' n', ub_add_cna_node kzalloc n c d l = (r, l', n') /\ (r = 0 \/ r = - ENOMEM) /\ node_sorted l' /\ Forall (fun x => cna_ok (cn_cna x)) l'.
Proof.
  intros Hs Hl Hc. destruct (add_node_any n c d l Hs) as (r & l' & n' & -> & H). eexists _, _, _. split; [done|]. destruct H as [(-> & m & E)|(-> & -> & _)]; [|by split; [right|]].
  split; [by left|]. destruct (add_node_ok (fun _ => true) ltac:(done) n c d l Hs) as (l1 & n1 & E1 & H1 & H2 & _). rewrite E in E1. injection E1 as <- <-. split; [done|].
  rewrite Forall_forall in *. intros x Hx. destruct (H2 x Hx) as [->|?]; [done|by apply Hl].
Qed.

Lemma add_entry_soft (b : bool) (n : nat) (u : ub_entity) (i : nat) (c d : Z) : soft_ok b u -> is_Some (ports u !! i) -> cna_ok c -> test_bit u i c = false ->
  match find c (cna_list u) with Some x => cn_need x = true | None => True end ->
  exists r u' n', ub_route_add_entry kzalloc n u i c d = (r, u', n') /\ (r = 0 \/ r = - ENOMEM) /\ soft_ok b u' /\ bits_to u u' i [c] true.
Proof.
  intros Hu Hp Hc Ht Hneed. unfold ub_route_add_entry. rewrite Ht. change (cna_list (set_bit u i c)) with (cna_list u). pose proof (so_sorted _ _ Hu) as Hs.
  destruct (add_node_any n c d (cna_list u) Hs) as (r & l' & n' & -> & H). eexists _, _, _. split; [done|]. destruct (set_bit_to u i c l' Hp Ht) as [HB Hat].
  assert (Hf : node_sorted l' /\ (forall c', c' <> c -> find c' l' = find c' (cna_list u)) /\
    match find c l' with Some x => cn_need x = true | None => find c (cna_list u) = None end /\ (r = 0 \/ r = - ENOMEM)).
  { destruct H as [(-> & m & E)|(-> & -> & Hn)]; [|by rewrite Hn; repeat split; [|right]]. destruct (add_node_ok (fun _ => true) ltac:(done) n c d (cna_list u) Hs) as (l1 & n1 & E1 & H1 & _ & H2).
    rewrite E in E1. injection E1 as <- <-. split; [done|]. split; [intros c' Hne; by rewrite H2, (proj2 (Z.eqb_neq c' c))|]. split; [|by left]. rewrite H2, Z.eqb_refl.
    by destruct (find c (cna_list u)). }
  destruct Hf as (F1 & F2 & F3 & F4). split; [done|]. split; [|done]. eapply (soft_touch b u _ c); [done|apply (bt_same _ _ _ _ _ HB)|done|done| |].
  - intros c' Hne. split; [by apply F2|]. intros j. destruct (bt_only _ _ _ _ _ HB j c') as [->|(_ & ->%list_elem_of_singleton & _)]; done.
  - cbn [set_cna_list cna_list]. destruct (find c l'); [|done]. split; [done|]. intros _ j Hj. destruct (bt_only _ _ _ _ _ HB j c) as [->|(_ & _ & _ & ?)]; done.
Qed.

(** The node of [c] is changed and marked. *)
Lemma mod_node_soft (b v : bool) (u u1 : ub_entity) (i : nat) (c : Z) (y : cna_node) (f : cna_node -> cna_node) : soft_ok b u -> cna_list u1 = cna_list u ->
  (forall l, bits_to u (set_cna_list u1 l) i [c] v) -> (b = false -> v = true) -> find c (cna_list u) = Some y -> (forall x, cn_cna (f x) = cn_cna x /\ cn_need (f x) = true) ->
  soft_ok b (set_cna_list u1 (mod_cna_node f c (cna_list u1))).
Proof.
  intros Hu El HB Hv Hy Hf. destruct (mod_find f c (cna_list u) y (so_sorted _ _ Hu) ltac:(intros x; apply Hf) Hy) as (M1 & M2 & M3). rewrite El.
  pose proof (so_nodes _ _ Hu) as Hn. rewrite Forall_forall in Hn. specialize (HB (mod_cna_node f c (cna_list u))). pose proof Hy as [Hin <-]%find_some.
  eapply (soft_touch b u _ (cn_cna y)); [done|apply (bt_same _ _ _ _ _ HB)|by apply Hn|exact M1| |].
  - intros c' Hne. split; [by apply M3|]. intros j. destruct (bt_only _ _ _ _ _ HB j c') as [->|(_ & ->%list_elem_of_singleton & _)]; done.
  - cbn [set_cna_list cna_list]. rewrite M2. split; [apply Hf|]. intros ->%Hv j Hj. destruct (bt_only _ _ _ _ _ HB j (cn_cna y)) as [->|(_ & _ & _ & ?)]; done.
Qed.

Lemma mod_walk_soft (b : bool) (i : nat) (off : Z) (l : list cna_node) : Forall (fun x => cna_ok (cn_cna x)) l -> forall n u upd, soft_ok b u -> is_Some (ports u !! i) ->
  exists fin upd' u' n', mod_walk kzalloc n u i l off upd = (fin, upd', u', n') /\ soft_ok b u' /\ route_updated u' = route_updated u.
Proof.
  induction 1 as [|x l Hx Hl IH]; intros n u upd Hu Hp; cbn [mod_walk]; [by eexists _, _, _, _|].
  pose proof (IH n u upd Hu Hp) as Hskip. destruct (test_bit u i (cn_cna x)) eqn:Et; [done|]. destruct (ub_entity_has_cna (cn_cna x) u); [done|].
  destruct (find (cn_cna x) (cna_list u)) as [y|] eqn:Ef.
  - destruct (_ <? _); [done|]. set (f := fun x => {| cn_cna := cn_cna x; cn_distance := cn_distance x; cn_count := u16 (cn_count x + 1); cn_need := true |}).
    assert (HB : forall m, bits_to u (set_cna_list (set_bit u i (cn_cna x)) m) i [cn_cna x] true) by (intros m; by apply set_bit_to).
    apply (IH n (set_cna_list (set_bit u i (cn_cna x)) (mod_cna_node f (cn_cna x) (cna_list u))) true); [|by eapply same_port, Hp; apply (bt_same _ _ _ _ _ (HB _))].
    by eapply (mod_node_soft b true u (set_bit u i (cn_cna x)) i (cn_cna x) y f Hu eq_refl HB).
  - destruct (add_entry_soft b n u i (cn_cna x) (s16 (cn_distance x + off)) Hu Hp Hx Et) as (r & u1 & n1 & E & _ & U1 & U2); [by rewrite Ef|]. rewrite E.
    assert (Er : route_updated u1 = route_updated u).
    { unfold ub_route_add_entry in E. rewrite Et in E. destruct (ub_add_cna_node _ _ _ _ _) as [[? ?] ?]. by injection E as _ <- _. }
    destruct (ctrue r); [by eexists _, _, _, _|].
    destruct (IH n1 u1 true U1 (same_port _ _ _ (bt_same _ _ _ _ _ U2) Hp)) as (fin & upd' & u' & n' & E' & H1 & H2). exists fin, upd', u', n'. split; [done|]. split; [done|congruence].
Qed.
Lemma mod_entries_soft (n : nat) (u : ub_entity) (i : nat) (l : list cna_node) (off : Z) (b : bool) (u' : ub_entity) (n' : nat) : is_Some (ports u !! i) ->
  Forall (fun x => cna_ok (cn_cna x)) l -> ub_route_mod_entries kzalloc n u i l off = (b, u', n') -> soft u -> soft u'.
Proof.
  intros Hp Hl E Hu. unfold ub_route_mod_entries in E. destruct (mod_walk_soft (route_updated u) i off l Hl n u false Hu Hp) as (fin & upd & u1 & n1 & E1 & H1 & H2). rewrite E1 in E.
  unfold soft. destruct fin; [destruct upd|]; injection E as _ <- _; [|by rewrite H2..]. cbn [set_updated route_updated]. apply soft_updated. by eapply soft_mark.
Qed.

Lemma del_entry_soft (u : ub_entity) (i : nat) (c : Z) : cna_ok c -> soft_ok true u -> is_Some (ports u !! i) -> test_bit u i c = true ->
  soft_ok true (ub_route_del_entry u i c) /\ same_ent u (ub_route_del_entry u i c).
Proof.
  intros Hc Hu Hp Ht. unfold ub_route_del_entry. change (cna_list (clear_bit u i c)) with (cna_list u).
  assert (HB : forall m, bits_to u (set_cna_list (clear_bit u i c) m) i [c] false) by (intros m; by apply clear_bit_to).
  destruct (find c (cna_list u)) as [y|] eqn:Ey.
  - split; [|apply (bt_same _ _ _ _ _ (HB _))]. by eapply (mod_node_soft true false u (clear_bit u i c) i c y).
  - specialize (HB (cna_list u)). split; [|apply (bt_same _ _ _ _ _ HB)]. eapply (soft_touch true u _ c); [done|apply (bt_same _ _ _ _ _ HB)|done|apply (so_sorted _ _ Hu)| |].
    + intros c' Hne. split; [done|]. intros j. destruct (bt_only _ _ _ _ _ HB j c') as [E|(_ & ->%list_elem_of_singleton & _)]; [exact E|done].
    + change (cna_list (clear_bit u i c)) with (cna_list u). by rewrite Ey.
Qed.
Lemma del_walk_soft (i : nat) (l : list cna_node) : Forall (fun x => cna_ok (cn_cna x)) l -> forall u upd, soft_ok true u -> is_Some (ports u !! i) -> soft_ok true (snd (del_walk u i l upd)).
Proof.
  induction 1 as [|x l Hx Hl IH]; intros u upd Hu Hp; cbn [del_walk]; [done|]. destruct (test_bit u i (cn_cna x)) eqn:Et; cbn [negb]; [|by apply IH].
  destruct (del_entry_soft u i (cn_cna x) Hx Hu Hp Et) as [U1 U2]. apply IH; [done|]. by eapply same_port.
Qed.
Lemma del_entries_soft (u : ub_entity) (i : nat) (l : list cna_node) (b : bool) (u' : ub_entity) : is_Some (ports u !! i) -> Forall (fun x => cna_ok (cn_cna x)) l ->
  ub_route_del_entries u i l = (b, u') -> soft u -> soft u'.
Proof.
  intros Hp Hl E Hu. unfold ub_route_del_entries in E. destruct (del_walk_bits i l u false Hp) as (upd & u1 & E1 & _ & _ & H3 & _).
  pose proof (del_walk_soft i l Hl u false (soft_mark _ _ Hu) Hp) as Hd. rewrite E1 in Hd, E. cbn [snd] in Hd. injection E as _ <-.
  destruct upd; [by apply soft_updated|]. by rewrite (H3 eq_refl).
Qed.

(** ** Clearing a port *)

Lemma clear_port_soft (u : ub_entity) (i : nat) : is_Some (ports u !! i) -> soft u -> soft (ub_route_clear_port u i).
Proof.
  intros [p Hp] Hu. unfold ub_route_clear_port. rewrite Hp. destruct (bits_sorted (cna_maps p)) as [Hbs Hbin].
  set (bits := merge_sort Z.le (elements (cna_maps p))) in *. destruct (clear_walk bits [] (cna_list u) false) as [l' upd] eqn:E.
  pose proof Hu as [O1 O2 O3 O4 O5]. destruct (clear_walk_ok bits Hbs [] (cna_list u) false O3) as (upd' & E' & _ & Hupd). rewrite E in E'. injection E' as -> ->.
  cbn [app]. set (u1 := set_cna_list (set_ports u (<[i := set_maps p ∅]> (ports u))) (map (down_in bits) (cna_list u))).
  assert (Hlen : length (ports u1) = length (ports u)) by apply length_insert.
  assert (Hok : soft_ok (upd' || route_updated u) u1).
  { split.
    - unfold port_nums in *. by rewrite Hlen.
    - split; [apply O2|]. destruct O2 as [_ O2]. apply Forall_insert; [done|]. rewrite Forall_forall in O2. apply (O2 p). by eapply list_elem_of_lookup_2.
    - apply sorted_map; [apply down_cna|done].
    - rewrite Forall_forall in *. intros x (y & -> & Hy)%list_elem_of_fmap. rewrite down_cna. by apply O4.
    - intros Ht c j Hj Hc. assert (Hold : hw_bit START u1 c (Z.of_nat j) = hw_bit START u c (Z.of_nat j)) by (unfold hw_bit, port_nums; by rewrite Hlen).
      assert (Ht' : has_table u = true) by (unfold has_table, port_nums in *; by rewrite <- Hlen). rewrite Hlen in Hj. specialize (O5 Ht' c j Hj Hc).
      unfold row_ok in *. rewrite Hold. unfold u1 at 1. cbn [set_cna_list cna_list]. rewrite (find_map _ _ c (down_cna bits)).
      destruct (find c (cna_list u)) as [x|] eqn:Ex; [|done]. apply find_some in Ex as [Hx Ex]. cbn [fmap option_fmap option_map].
      assert (Hsame : c ∉ bits -> test_bit u1 j c = test_bit u j c).
      { intros Hn. rewrite Hbin in Hn. unfold u1. rewrite (clear_port_test u i j p c _ Hp). destruct (bool_decide_reflect (j = i)) as [->|]; [|done].
        unfold test_bit. rewrite Hp. by rewrite bool_decide_eq_false_2. }
      unfold down_in. rewrite Ex. destruct (bool_decide_reflect (c ∈ bits)) as [Hin|Hn]; cbn [count_down cn_need].
      + rewrite (Hupd x Hx) by (by rewrite Ex). done.
      + rewrite (Hsame Hn). destruct (cn_need x); [|done]. intros [_ Hr]%orb_false_iff. by apply O5. }
  unfold soft. destruct upd'; cbn [orb] in Hok; [by apply soft_updated|exact Hok].
Qed.

(** ** Writing the table *)

(** The row of a node is written and the node unmarked or taken off. *)
Lemma entry_soft (u : ub_entity) (l l' : list cna_node) (x : cna_node) (e : Z) : soft_ok true (set_cna_list u l) -> cna_ok (cn_cna x) -> node_sorted l' -> Forall (fun x => cna_ok (cn_cna x)) l' ->
  (forall c, c <> cn_cna x -> find c l' = find c l) ->
  match find (cn_cna x) l' with
  | None => e = 0
  | Some y => cn_need y = false /\ forall i, (i < length (ports u))%nat -> Z.testbit e (Z.of_nat i) = test_bit u i (cn_cna x)
  end -> soft_ok true (set_cna_list (ub_set_route_table_entry START u (cn_cna x) e) l').
Proof.
  intros [O1 O2 O3 O4 O5] Hc Hs Hn Hoth He. destruct (set_entry_same START u (cn_cna x) e) as (S1 & S2 & S3 & S4).
  split.
  - unfold port_nums in *. cbn [set_cna_list ports]. by rewrite S4.
  - cbn [set_cna_list ports u_cna]. by rewrite S1, S4.
  - exact Hs.
  - exact Hn.
  - intros Ht c i Hi Hco. cbn [set_cna_list ports] in Hi. rewrite S4 in Hi.
    assert (Ht' : has_table u = true) by (unfold has_table, port_nums in *; cbn [set_cna_list ports u_kind u_cluster] in Ht; by rewrite S2, S3, S4 in Ht).
    specialize (O5 Ht' c i Hi Hco). unfold row_ok in *. cbn [set_cna_list cna_list] in *.
    change (hw_bit START (set_cna_list ?v l') c (Z.of_nat i)) with (hw_bit START v c (Z.of_nat i)). change (test_bit (set_cna_list ?v l') i c) with (test_bit v i c).
    rewrite set_entry_hw by (done || (unfold port_nums in *; cbn [set_cna_list ports] in O1; lia)).
    assert (Etb : test_bit (ub_set_route_table_entry START u (cn_cna x) e) i c = test_bit u i c) by (unfold test_bit; by rewrite S4). rewrite Etb.
    destruct (Z.eqb_spec c (cn_cna x)) as [->|Hne]; [|by rewrite Hoth]. destruct (find (cn_cna x) l') as [y|]; [destruct He as [-> He]; by apply He|]. by rewrite He, Z.bits_0.
Qed.

Lemma sync_walk_soft (l : list cna_node) : forall u pre, soft_ok true (set_cna_list u (pre ++ l)) -> Forall (fun x => cn_need x = false) pre ->
  soft_ok true (sync_walk START u pre l) /\ same_ports u (sync_walk START u pre l) /\ Forall (fun x => cn_need x = false) (cna_list (sync_walk START u pre l)).
Proof.
  induction l as [|x l IH]; intros u pre Hu Hpre; cbn [sync_walk]; [by rewrite app_nil_r in Hu|]. pose proof (so_sorted _ _ Hu) as Hs. pose proof (so_nodes _ _ Hu) as Hn.
  cbn [set_cna_list cna_list] in Hs, Hn. assert (Hx : cna_ok (cn_cna x)) by (rewrite Forall_app, Forall_cons in Hn; tauto).
  assert (Hgo : forall e pre', soft_ok true (set_cna_list (ub_set_route_table_entry START u (cn_cna x) e) (pre' ++ l)) -> Forall (fun x => cn_need x = false) pre' ->
    let v := sync_walk START (ub_set_route_table_entry START u (cn_cna x) e) pre' l in
    soft_ok true v /\ same_ports u v /\ Forall (fun x => cn_need x = false) (cna_list v)).
  { intros e pre' H1 H2. destruct (IH _ pre' H1 H2) as (A1 & (B1 & B2 & B3 & B4) & A3). destruct (set_entry_same START u (cn_cna x) e) as (S1 & S2 & S3 & S4).
    split; [done|]. split; [|done]. unfold same_ports. split_and!; congruence. }
  destruct (cn_need x) eqn:En; cbn [negb].
  - destruct (cn_count x =? 0); apply Hgo; try done.
    + eapply (entry_soft u (pre ++ x :: l)); [done|done|by eapply sorted_drop| | |].
      * rewrite Forall_app, Forall_cons in Hn. rewrite Forall_app. tauto.
      * intros c Hne. rewrite (find_drop pre x l c Hs). by rewrite (proj2 (Z.eqb_neq _ _)) by congruence.
      * rewrite (find_drop pre x l _ Hs). by rewrite Z.eqb_refl.
    + set (y := {| cn_cna := cn_cna x |}). eapply (entry_soft u (pre ++ x :: l)); [done|done|by apply (sorted_swap pre x y)| | |].
      * rewrite Forall_app, Forall_cons in Hn. rewrite !Forall_app, Forall_singleton. tauto.
      * intros c Hne. rewrite (find_swap pre x y l c eq_refl Hs). by rewrite (proj2 (Z.eqb_neq _ _)) by congruence.
      * rewrite (find_swap pre x y l _ eq_refl Hs), Z.eqb_refl. split; [done|]. intros i Hi. by apply route_entry_bit.
    + rewrite Forall_app, Forall_singleton. by split.
  - apply IH; [by rewrite <- app_assoc|]. rewrite Forall_app, Forall_singleton. by split.
Qed.
Lemma sync_dev_soft (u : ub_entity) : soft u -> same_ports u (ub_route_sync_dev START u) /\ soft_ok false (ub_route_sync_dev START u) /\ route_updated (ub_route_sync_dev START u) = false.
Proof.
  unfold soft, ub_route_sync_dev. destruct (route_updated u) eqn:Er; cbn [negb]; intros Hu; [|done].
  destruct (sync_walk_soft (cna_list u) u [] ltac:(destruct u; exact Hu) ltac:(constructor)) as (A1 & A2 & A3). split; [done|]. split; [|done].
  apply soft_updated. by eapply soft_clean.
Qed.

(** ** The whole bus *)

Lemma soft_at (w : bus) (e : nat) (u : ub_entity) : bus_soft w -> ents w !! e = Some u -> soft u.
Proof. unfold bus_soft. rewrite Forall_forall. intros Hw Hu. apply Hw. by eapply list_elem_of_lookup_2. Qed.
Lemma soft_put (w : bus) (e n : nat) (u : ub_entity) : soft u -> bus_soft w -> bus_soft (put_ent w e u n).
Proof. intros Hu Hw. unfold bus_soft, put_ent. cbn [ents]. by apply Forall_insert. Qed.

Lemma mod_loop_soft (l : list cna_node) (fuel : nat) : Forall (fun x => cna_ok (cn_cna x)) l -> forall w q w', mod_bfs_loop kzalloc fuel w l q = Some w' -> bus_soft w -> bus_soft w'.
Proof.
  intros Hl. induction fuel as [|fuel IH]; intros w [|[[e i] off] q] w'; cbn [mod_bfs_loop]; try (by intros [= <-]); try done.
  unfold get_ent. destruct (ents w !! e) as [u|] eqn:Hu; [|done]. cbn [mbind option_bind]. destruct (ports u !! i) as [p|] eqn:Hp; [|done]. cbn [mbind option_bind].
  destruct (ub_route_mod_entries kzalloc (allocs w) u i l off) as [[b u'] n'] eqn:E. intros E' Hw.
  assert (Hw' : bus_soft (put_ent w e u' n')) by (apply soft_put; [|done]; eapply mod_entries_soft; [by eexists|done|exact E|by eapply soft_at]).
  destruct (negb b); [by eapply IH|]. destruct (negb _); [by eapply IH|]. destruct (neighbours _ _ _ _ _) as [q'|]; [|done]. cbn [mbind option_bind] in E'. by eapply IH.
Qed.
Lemma mod_bfs_soft (fuel : nat) (w : bus) (e : nat) (w' : bus) : ub_route_mod_bfs kzalloc fuel w e = Some w' -> bus_soft w -> bus_soft w'.
Proof.
  unfold ub_route_mod_bfs, get_ent. destruct (ents w !! e) as [u|] eqn:Hu; [|done]. cbn [mbind option_bind]. unfold ub_entity_copy_cna_list.
  destruct (copy_walk_ok kzalloc true (cna_list u) (allocs w) []) as (r & l & n & -> & _ & _ & H3). intros E Hw. specialize (H3 (so_nodes _ _ (soft_at w e u Hw Hu))).
  destruct (ctrue r); [by injection E as <-|]. destruct (neighbours _ _ _ _ _) as [q|]; [|done]. cbn [mbind option_bind] in E. by eapply mod_loop_soft.
Qed.
Lemma del_loop_soft (l : list cna_node) (fuel : nat) : Forall (fun x => cna_ok (cn_cna x)) l -> forall w q w', del_bfs_loop fuel w l q = Some w' -> bus_soft w -> bus_soft w'.
Proof.
  intros Hl. induction fuel as [|fuel IH]; intros w [|[e i] q] w'; cbn [del_bfs_loop]; try (by intros [= <-]); try done.
  unfold get_ent. destruct (ents w !! e) as [u|] eqn:Hu; [|done]. cbn [mbind option_bind]. destruct (ports u !! i) as [p|] eqn:Hp; [|done]. cbn [mbind option_bind].
  destruct (ub_route_del_entries u i l) as [b u'] eqn:E. intros E' Hw.
  assert (Hw' : bus_soft (put_ent w e u' (allocs w))) by (apply soft_put; [|done]; eapply del_entries_soft; [by eexists|done|exact E|by eapply soft_at]).
  destruct (negb b); [by eapply IH|]. destruct (negb _); [by eapply IH|]. destruct (neighbours _ _ _ _ _) as [q'|]; [|done]. cbn [mbind option_bind] in E'. by eapply IH.
Qed.
Lemma del_bfs_soft (fuel : nat) (w : bus) (e : nat) (w' : bus) : ub_route_del_bfs kzalloc fuel w e = Some w' -> bus_soft w -> bus_soft w'.
Proof.
  unfold ub_route_del_bfs, get_ent. destruct (ents w !! e) as [u|] eqn:Hu; [|done]. cbn [mbind option_bind]. unfold ub_entity_copy_cna_list.
  destruct (copy_walk_ok kzalloc true (cna_list u) (allocs w) []) as (r & l & n & -> & _ & _ & H3). intros E Hw. specialize (H3 (so_nodes _ _ (soft_at w e u Hw Hu))).
  destruct (ctrue r); [by injection E as <-|]. destruct (neighbours _ _ _ _ _) as [q|]; [|done]. cbn [mbind option_bind] in E. by eapply del_loop_soft.
Qed.

(** The addresses of a copy: those of the list. *)
Lemma copy_any (upd : bool) (l : list cna_node) : forall n acc r l' n', copy_walk kzalloc n upd l acc = (r, l', n') -> node_sorted (acc ++ l) ->
  (r = 0 \/ r = - ENOMEM) /\ node_sorted l'.
Proof.
  induction l as [|x l IH]; intros n acc r l' n'; cbn [copy_walk]; [intros [= <- <- <-]; rewrite app_nil_r; split; [by left|done]|].
  intros E Hs. destruct (upd && negb (cn_need x)); [eapply IH; [exact E|by eapply sorted_drop]|]. unfold ub_create_cna_node in E. destruct (kzalloc n).
  - eapply IH; [exact E|]. by apply (sorted_swap acc x).
  - injection E as <- <- <-. split; [by right|constructor].
Qed.
Lemma neighbor_soft (w : bus) (e i re ri : nat) (r : Z) (w' : bus) : ub_route_mod_neighbor kzalloc w e i re ri = Some (r, w') -> bus_soft w -> (r = 0 \/ r = - ENOMEM) /\ bus_soft w'.
Proof.
  unfold ub_route_mod_neighbor, get_ent. destruct (ents w !! e) as [u|] eqn:Hu; [|done]. cbn [mbind option_bind]. destruct (ports u !! i) as [p|] eqn:Hp; [|done]. cbn [mbind option_bind].
  destruct (ents w !! re) as [ru|] eqn:Hru; [|done]. cbn [mbind option_bind]. destruct (ports ru !! ri) as [rp|] eqn:Hri; [|done]. cbn [mbind option_bind]. intros E Hw.
  destruct (soft_at w e u Hw Hu) as [_ [Hcu Hcp] Hsu Hnu _]. rewrite Forall_forall in Hcp. specialize (Hcp p ltac:(by eapply list_elem_of_lookup_2)).
  assert (Hcopy : exists r l n, (if ub_entity_support_forward u then ub_entity_copy_cna_list kzalloc (allocs w) u [] false else (0, [], allocs w)) = (r, l, n) /\
    (r = 0 \/ r = - ENOMEM) /\ node_sorted l /\ Forall (fun x => cna_ok (cn_cna x)) l).
  { destruct (ub_entity_support_forward u); [|eexists _, _, _; split; [done|]; split; [by left|]; split; constructor]. unfold ub_entity_copy_cna_list.
    destruct (copy_walk_ok kzalloc false (cna_list u) (allocs w) []) as (r0 & l & n & E0 & _ & _ & H3). exists r0, l, n. split; [done|].
    destruct (copy_any false (cna_list u) _ _ _ _ _ E0 Hsu) as [A1 A2]. split; [done|]. split; [done|]. by apply H3. }
  destruct Hcopy as (r0 & l0 & n0 & E0 & R0 & S0 & N0). rewrite E0 in E. destruct (ctrue r0); [injection E as <- <-; done|].
  destruct (add_node_cnas n0 (u_cna u) 0 l0 S0 N0 Hcu) as (r1 & l1 & n1 & E1 & R1 & S1 & N1). rewrite E1 in E. destruct (ctrue r1); [injection E as <- <-; done|].
  destruct (add_node_cnas n1 (p_cna p) 0 l1 S1 N1 Hcp) as (r2 & l2 & n2 & E2 & R2 & S2 & N2). rewrite E2 in E. destruct (ctrue r2); [injection E as <- <-; done|].
  destruct (ub_route_mod_entries kzalloc n2 ru ri l2 1) as [[b ru'] n'] eqn:E3. injection E as <- <-. split; [by left|]. apply soft_put; [|done].
  eapply mod_entries_soft; [by eexists|done|exact E3|by eapply soft_at].
Qed.

Lemma sync_all_soft (w : bus) (devs : list nat) : bus_soft w -> bus_soft (ub_route_sync_all START w devs) /\
  map ports (ents (ub_route_sync_all START w devs)) = map ports (ents w) /\ map shape (ents (ub_route_sync_all START w devs)) = map shape (ents w) /\
  forall e u, e ∈ devs -> ents (ub_route_sync_all START w devs) !! e = Some u -> soft_ok false u.
Proof.
  unfold ub_route_sync_all, bus_soft. cbn [ents]. revert devs. generalize (ents w) as l.
  assert (Hone : forall l e, Forall soft l -> let l' := alter (ub_route_sync_dev START) e l in Forall soft l' /\ map ports l' = map ports l /\ map shape l' = map shape l).
  { intros l e Hl. revert e. induction Hl as [|u l Hu Hl IH]; intros e; [done|]. destruct (sync_dev_soft u Hu) as (A1 & A2 & A3). destruct e as [|e].
    - change (alter ?f O (u :: l)) with (f u :: l). split; [constructor; [by unfold soft; rewrite A3|done]|]. cbn [map]. split; f_equal; [apply A1|by apply shape_ports].
    - change (alter ?f (S e) (u :: l)) with (u :: alter f e l). destruct (IH e) as (B1 & B2 & B3). split; [by constructor|]. cbn [map]. by rewrite B2, B3. }
  intros l devs. revert l. induction devs as [|e devs IH] using rev_ind; intros l Hl.
  { split; [done|]. split; [done|]. split; [done|]. by intros ? ? ?%not_elem_of_nil. }
  rewrite foldl_app. cbn [foldl]. destruct (IH l Hl) as (A1 & A2 & A3 & A4). destruct (Hone _ e A1) as (B1 & B2 & B3).
  split; [done|]. split; [congruence|]. split; [congruence|]. intros e' u Hin He'. destruct (decide (e' = e)) as [->|Hne].
  - rewrite list_lookup_alter_eq in He'. destruct (_ !! e) as [u0|] eqn:E0; [|done]. injection He' as <-. apply sync_dev_soft.
    rewrite Forall_forall in A1. apply A1. by eapply list_elem_of_lookup_2.
  - rewrite list_lookup_alter_ne in He' by congruence. apply (A4 e'); [|done]. apply elem_of_app in Hin as [?|?%list_elem_of_singleton]; done.
Qed.
End Soft.
