(* ===== verification/UbRouteUp.v ===== *)
(** * Routing: a link that comes up

    Routes only grow, the two ends of the link reach each other through it, and the change is flooded and
    written. *)

From S2P Require Import Prelude UbRoute UbRouteInv UbRouteEnt UbRouteSync UbRouteBus UbRouteLow.

(** ** Routes that are only added *)

Definition more_ent (u u' : ub_entity) : Prop := forall j c, test_bit u j c = true -> test_bit u' j c = true.
Definition more (w w' : bus) : Prop := Forall2 more_ent (ents w) (ents w').

Lemma more_refl (w : bus) : more w w.
Proof. unfold more. apply Forall_Forall2_diag, Forall_forall. by intros u _ j c. Qed.
Lemma more_trans (w w1 w2 : bus) : more w w1 -> more w1 w2 -> more w w2.
Proof. unfold more. apply Forall2_trans. intros u u1 u2 A B j c Ht. by apply B, A. Qed.
Lemma more_bits (w : bus) (e n i : nat) (cs : list Z) (u u' : ub_entity) : ents w !! e = Some u -> bits_to u u' i cs true -> more w (put_ent w e u' n).
Proof.
  intros Hu [_ Hb]. unfold more, put_ent. cbn [ents]. rewrite <- (list_insert_id (ents w) e u Hu) at 1. apply Forall2_insert; [apply more_refl|].
  intros j c Ht. destruct (Hb j c) as [->|(_ & _ & _ & ?)]; done.
Qed.
Lemma more_at (w w' : bus) (e : nat) (u : ub_entity) : more w w' -> ents w !! e = Some u -> exists u', ents w' !! e = Some u' /\ more_ent u u'.
Proof. intros Hm Hu. destruct (Forall2_lookup_l _ _ _ _ _ Hm Hu) as (u' & Hu' & H). by exists u'. Qed.

Section Up.
Context (kzalloc : nat -> bool) (START : Z).

Lemma neighbor_more (w : bus) (e i re ri : nat) (r : Z) (w' : bus) : ub_route_mod_neighbor kzalloc w e i re ri = Some (r, w') -> more w w'.
Proof.
  unfold ub_route_mod_neighbor, get_ent. destruct (ents w !! e) as [u|]; [|done]. cbn [mbind option_bind]. destruct (ports u !! i) as [p|]; [|done]. cbn [mbind option_bind].
  destruct (ents w !! re) as [ru|] eqn:Hru; [|done]. cbn [mbind option_bind]. destruct (ports ru !! ri) as [rp|] eqn:Hri; [|done]. cbn [mbind option_bind].
  destruct (if ub_entity_support_forward u then _ else _) as [[r0 l0] n0]. destruct (ctrue r0); [intros [= <- <-]; apply (more_refl w)|].
  destruct (ub_add_cna_node kzalloc n0 _ 0 l0) as [[r1 l1] n1]. destruct (ctrue r1); [intros [= <- <-]; apply (more_refl w)|].
  destruct (ub_add_cna_node kzalloc n1 _ 0 l1) as [[r2 l2] n2]. destruct (ctrue r2); [intros [= <- <-]; apply (more_refl w)|].
  destruct (mod_entries_bits kzalloc n2 ru ri l2 1 ltac:(by eexists)) as (b & ru' & n' & -> & HB & _). intros [= <- <-]. by eapply more_bits.
Qed.

Lemma mod_loop_more (l : list cna_node) (fuel : nat) : forall w q w', mod_bfs_loop kzalloc fuel w l q = Some w' -> more w w'.
Proof.
  induction fuel as [|fuel IH]; intros w [|[[e i] off] q] w'; cbn [mod_bfs_loop]; try (intros [= <-]; apply more_refl).
  unfold get_ent. destruct (ents w !! e) as [u|] eqn:Hu; [|done]. cbn [mbind option_bind]. destruct (ports u !! i) as [p|] eqn:Hp; [|done]. cbn [mbind option_bind].
  destruct (mod_entries_bits kzalloc (allocs w) u i l off ltac:(by eexists)) as (b & u' & n' & -> & HB & _). pose proof (more_bits w e n' i _ u u' Hu HB) as Hm.
  destruct (negb b); [intros E%IH; by eapply more_trans|]. destruct (negb _); [intros E%IH; by eapply more_trans|].
  destruct (neighbours _ _ _ _ _) as [q'|]; [|done]. cbn [mbind option_bind]. intros E%IH. by eapply more_trans.
Qed.
Lemma mod_bfs_more (fuel : nat) (w : bus) (e : nat) (w' : bus) : ub_route_mod_bfs kzalloc fuel w e = Some w' -> more w w'.
Proof.
  unfold ub_route_mod_bfs. destruct (get_ent w e) as [u|]; [|done]. cbn [mbind option_bind]. destruct (ub_entity_copy_cna_list _ _ _ _ _) as [[r l] n].
  destruct (ctrue r); [intros [= <-]; apply (more_refl w)|]. destruct (neighbours _ _ _ _ _) as [q|]; [|done]. cbn [mbind option_bind]. apply mod_loop_more.
Qed.

(** More fuel does not change the result. *)
Lemma mod_loop_mono (l : list cna_node) (fuel : nat) : forall fuel' w q w', (fuel <= fuel')%nat -> mod_bfs_loop kzalloc fuel w l q = Some w' -> mod_bfs_loop kzalloc fuel' w l q = Some w'.
Proof.
  induction fuel as [|fuel IH]; intros [|fuel'] w [|[[e i] off] q] w' Hle; cbn [mod_bfs_loop]; try done; [lia|].
  assert (Hle' : (fuel <= fuel')%nat) by lia. destruct (get_ent w e) as [u|]; [|done]. cbn [mbind option_bind]. destruct (ports u !! i); [|done]. cbn [mbind option_bind].
  destruct (ub_route_mod_entries _ _ _ _ _ _) as [[b u'] n]. destruct (negb b); [by apply IH|]. destruct (negb _); [by apply IH|].
  destruct (neighbours _ _ _ _ _); [|done]. cbn [mbind option_bind]. by apply IH.
Qed.
Lemma mod_bfs_mono (fuel fuel' : nat) (w : bus) (e : nat) (w' : bus) : (fuel <= fuel')%nat -> ub_route_mod_bfs kzalloc fuel w e = Some w' -> ub_route_mod_bfs kzalloc fuel' w e = Some w'.
Proof.
  intros Hle. unfold ub_route_mod_bfs. destruct (get_ent w e) as [u|]; [|done]. cbn [mbind option_bind]. destruct (ub_entity_copy_cna_list _ _ _ _ _) as [[r l] n].
  destruct (ctrue r); [done|]. destruct (neighbours _ _ _ _ _) as [q|]; [|done]. cbn [mbind option_bind]. by apply mod_loop_mono.
Qed.

(** ** The neighbour *)

Hypothesis Hk : forall n, kzalloc n = true.
Abbreviation ent_ok := (ent_ok START).

(** The port [i] may route [c] at the distance [d]: nothing shorter is known. *)
Definition open_to (u : ub_entity) (c d : Z) : Prop := ub_entity_has_cna c u = false /\ match find c (cna_list u) with Some y => d <= cn_distance y | None => True end.

Lemma has_cna_same (u u' : ub_entity) (c : Z) : same_ent u u' -> ub_entity_has_cna c u' = ub_entity_has_cna c u.
Proof.
  intros (E1 & _ & _ & _ & E2). unfold ub_entity_has_cna. rewrite E1. f_equal. revert E2. generalize (ports u). induction (ports u') as [|p l IH]; intros [|q m] E; try done.
  cbn [map] in E. injection E as E1' _ _ E. cbn [existsb]. by rewrite E1', (IH m).
Qed.

Lemma mod_walk_routes (i : nat) (off : Z) (x : cna_node) (l : list cna_node) : Forall (fun x => cna_ok (cn_cna x)) l -> forall n u upd, ent_ok u -> is_Some (ports u !! i) ->
  x ∈ l -> open_to u (cn_cna x) (s16 (cn_distance x + off)) -> exists fin upd' u' n', mod_walk kzalloc n u i l off upd = (fin, upd', u', n') /\ test_bit u' i (cn_cna x) = true.
Proof.
  induction 1 as [|y l Hy Hl IH]; intros n u upd Hu Hp Hin [Hno Hd]; [by apply not_elem_of_nil in Hin|]. cbn [mod_walk].
  assert (Hdone : forall n u upd, is_Some (ports u !! i) -> test_bit u i (cn_cna x) = true ->
    exists fin upd' u' n', mod_walk kzalloc n u i l off upd = (fin, upd', u', n') /\ test_bit u' i (cn_cna x) = true).
  { intros n0 u0 upd0 Hp0 Ht. destruct (mod_walk_bits kzalloc i off l n0 u0 upd0 Hp0) as (fin & upd' & u' & n' & E & HB & _). exists fin, upd', u', n'. split; [done|]. by eapply bit_kept. }
  destruct (test_bit u i (cn_cna y)) eqn:Et.
  { apply elem_of_cons in Hin as [->|Hin]; [by apply Hdone|]. by apply IH. }
  destruct (ub_entity_has_cna (cn_cna y) u) eqn:Eh.
  { apply elem_of_cons in Hin as [->|Hin]; [congruence|]. by apply IH. }
  destruct (find (cn_cna y) (cna_list u)) as [z|] eqn:Ef.
  - destruct (Z.ltb_spec (cn_distance z) (s16 (cn_distance y + off))) as [Hz|Hz].
    { apply elem_of_cons in Hin as [->|Hin]; [rewrite Ef in Hd; lia|]. by apply IH. }
    pose proof (set_bit_ok u i (cn_cna y) Hp) as Hb. pose proof (bs_this _ _ _ _ _ Hb) as Hnum.
    rewrite Et in Hnum. cbv iota in Hnum. pose proof (nports_128 START u (cn_cna y) Hu). pose proof (eo_count _ _ Hu (cn_cna y)) as Hc. rewrite Ef in Hc.
    set (f := fun x => {| cn_cna := cn_cna x; cn_distance := cn_distance x; cn_count := u16 (cn_count x + 1); cn_need := true |}).
    edestruct (mod_entry_ok START u (set_bit u i (cn_cna y)) i (cn_cna y) true z f) as (U1 & U2 & U3); try done.
    { intros l'. exact (upd_same u i (fun m => {[cn_cna y]} ∪ m) l' (route_updated u)). }
    { cbn [f cn_count]. rewrite uwrap_small by lia. lia. }
    pose proof (same_port _ _ _ (bt_same _ _ _ _ _ U2) Hp) as Hp'. destruct (decide (cn_cna x = cn_cna y)) as [Exy|Hne]; [rewrite <- Exy in *; by apply Hdone|].
    apply elem_of_cons in Hin as [->|Hin]; [done|]. apply IH; [done|done|done|]. split; [by rewrite (has_cna_same _ _ _ (bt_same _ _ _ _ _ U2))|].
    destruct (mod_find f (cn_cna y) (cna_list u) z (eo_sorted _ _ Hu) ltac:(done) Ef) as (_ & _ & M3). cbn [set_cna_list cna_list].
    change (cna_list (set_bit u i (cn_cna y))) with (cna_list u). by rewrite M3.
  - destruct (add_entry_ok kzalloc START Hk n u i (cn_cna y) (s16 (cn_distance y + off)) Hu Hp Hy Et) as (u1 & n1 & -> & U1 & U2 & U3 & _ & U4 & _); [by rewrite Ef|].
    change (ctrue 0) with false. pose proof (same_port _ _ _ (bt_same _ _ _ _ _ U2) Hp) as Hp'.
    destruct (decide (cn_cna x = cn_cna y)) as [Exy|Hne]; [rewrite <- Exy in *; by apply Hdone|].
    apply elem_of_cons in Hin as [->|Hin]; [done|]. apply IH; [done|done|done|]. split; [by rewrite (has_cna_same _ _ _ (bt_same _ _ _ _ _ U2))|]. by rewrite U4.
Qed.

Lemma mod_entries_routes (n : nat) (u : ub_entity) (i : nat) (l : list cna_node) (off : Z) (x : cna_node) : Forall (fun x => cna_ok (cn_cna x)) l -> ent_ok u ->
  is_Some (ports u !! i) -> x ∈ l -> open_to u (cn_cna x) (s16 (cn_distance x + off)) ->
  exists b u' n', ub_route_mod_entries kzalloc n u i l off = (b, u', n') /\ test_bit u' i (cn_cna x) = true.
Proof.
  intros Hl Hu Hp Hx Ho. unfold ub_route_mod_entries. destruct (mod_walk_routes i off x l Hl n u false Hu Hp Hx Ho) as (fin & upd & u' & n' & -> & Ht).
  destruct fin; eexists _, _, _; (split; [done|]); by destruct upd.
Qed.

(** A node of a copy. *)
Definition copied (x : cna_node) : cna_node := {| cn_cna := cn_cna x; cn_distance := u16 (cn_distance x); cn_count := 1; cn_need := true |}.
(** The distance at which [u] announces the address [c] of its own: 0, or the one in the list that it copies. *)
Definition announced (u : ub_entity) (c : Z) : Z :=
  if ub_entity_support_forward u then match find c (cna_list u) with Some x => u16 (cn_distance x) | None => 0 end else 0.

Lemma copy_all (l : list cna_node) : forall n acc, exists n', copy_walk kzalloc n false l acc = (0, acc ++ map copied l, n').
Proof.
  induction l as [|x l IH]; intros n acc; cbn [copy_walk]; [exists n; by rewrite app_nil_r|]. unfold ub_create_cna_node. rewrite Hk. cbn [andb].
  destruct (IH (S n) (acc ++ [copied x])) as [n' E]. exists n'. change {| cn_cna := cn_cna x; cn_distance := u16 (cn_distance x); cn_count := 1; cn_need := true |} with (copied x).
  rewrite E. by rewrite <- app_assoc.
Qed.
Lemma copied_ok (w : bus) (u : ub_entity) : ent_ok u ->
  exists l n, (if ub_entity_support_forward u then ub_entity_copy_cna_list kzalloc (allocs w) u [] false else (0, [], allocs w)) = (0, l, n) /\
    node_sorted l /\ Forall (fun x => cna_ok (cn_cna x)) l /\ forall c, match find c l with Some x => cn_distance x = announced u c | None => announced u c = 0 end.
Proof.
  intros Hu. unfold announced. destruct (ub_entity_support_forward u); [|by exists [], (allocs w); repeat split; constructor].
  unfold ub_entity_copy_cna_list. destruct (copy_all (cna_list u) (allocs w) []) as [n ->]. exists (map copied (cna_list u)), n. split; [done|].
  split; [apply sorted_map; [done|apply (eo_sorted _ _ Hu)]|]. split.
  - pose proof (eo_nodes _ _ Hu) as Hn. rewrite Forall_forall in *. intros x (y & -> & Hy)%list_elem_of_fmap. exact (Hn y Hy).
  - intros c. rewrite find_map by done. by destruct (find c (cna_list u)).
Qed.
(** The address that was added last, or before it. *)
Lemma added_node (n : nat) (c d : Z) (l : list cna_node) : node_sorted l -> Forall (fun x => cna_ok (cn_cna x)) l -> cna_ok c ->
  exists l' n', ub_add_cna_node kzalloc n c 0 l = (0, l', n') /\ node_sorted l' /\ Forall (fun x => cna_ok (cn_cna x)) l' /\
    (exists x, find c l' = Some x /\ cn_distance x = match find c l with Some y => cn_distance y | None => 0 end) /\
    forall c', c' <> c -> find c' l' = find c' l.
Proof.
  intros Hs Hl Hc. destruct (add_nodes_ok kzalloc Hk n c l Hs Hl Hc) as (l' & n' & E & H1 & H2). destruct (add_node_ok kzalloc Hk n c 0 l Hs) as (l1 & n1 & E1 & _ & _ & Hf).
  rewrite E in E1. injection E1 as <- <-. exists l', n'. split; [done|]. split; [done|]. split; [done|]. split.
  - pose proof (Hf c) as Hfc. rewrite Z.eqb_refl in Hfc. eexists. split; [exact Hfc|]. by destruct (find c l) as [[]|].
  - intros c' Hne. by rewrite Hf, (proj2 (Z.eqb_neq c' c)).
Qed.

Lemma neighbor_routes (w : bus) (e i re ri : nat) (u ru : ub_entity) (p : ub_port) (c : Z) : bus_ok START w -> ents w !! e = Some u -> ports u !! i = Some p ->
  ents w !! re = Some ru -> is_Some (ports ru !! ri) -> c = u_cna u \/ c = p_cna p -> open_to ru c (s16 (announced u c + 1)) ->
  exists w' ru', ub_route_mod_neighbor kzalloc w e i re ri = Some (0, w') /\ ents w' !! re = Some ru' /\ test_bit ru' ri c = true.
Proof.
  intros Hw Hu Hp Hru Hri Hc Ho. pose proof (nodes_of START w e u Hw Hu) as Hok. pose proof (nodes_of START w re ru Hw Hru) as Hrok.
  destruct (eo_cna _ _ Hok) as [Hcu Hcp]. rewrite Forall_forall in Hcp. specialize (Hcp p ltac:(by eapply list_elem_of_lookup_2)).
  unfold ub_route_mod_neighbor, get_ent. rewrite Hu. cbn [mbind option_bind]. rewrite Hp, Hru. cbn [mbind option_bind]. pose proof Hri as [rp ->]. cbn [mbind option_bind].
  destruct (copied_ok w u Hok) as (l & n & -> & A1 & A2 & A3). change (ctrue 0) with false. cbv iota. specialize (A3 c).
  destruct (added_node n (u_cna u) 0 l A1 A2 Hcu) as (l1 & n1 & -> & B1 & B2 & (y & By & Bd) & B5). change (ctrue 0) with false. cbv iota.
  destruct (added_node n1 (p_cna p) 0 l1 B1 B2 Hcp) as (l2 & n2 & -> & C1 & C2 & (z & Cz & Cd) & C5). change (ctrue 0) with false. cbv iota.
  assert (Hd1 : match find c l1 with Some x => cn_distance x = announced u c | None => announced u c = 0 end).
  { destruct (decide (c = u_cna u)) as [->|Hne]; [|by rewrite B5]. rewrite By, Bd. by destruct (find (u_cna u) l). }
  assert (Hx : exists x, find c l2 = Some x /\ cn_distance x = announced u c).
  { destruct (decide (c = p_cna p)) as [->|Hne]; [exists z; split; [done|]; rewrite Cd; by destruct (find (p_cna p) l1)|].
    destruct Hc as [->|?]; [|done]. exists y. rewrite By in Hd1. by rewrite C5. }
  destruct Hx as (x & Hx & Hd). apply find_some in Hx as [Hin Hcx].
  destruct (mod_entries_routes n2 ru ri l2 1 x C2 Hrok Hri Hin) as (b & ru' & n' & -> & Ht); [by rewrite Hcx, Hd|].
  eexists _, ru'. split; [done|]. rewrite Hcx in Ht. split; [|done]. unfold put_ent. cbn [ents]. apply list_lookup_insert_eq. by eapply lookup_lt_Some.
Qed.

(** ** Both directions *)

(** No route to an address of the entity itself appears. *)
Lemma mod_walk_own (i : nat) (off c : Z) (l : list cna_node) : Forall (fun x => cna_ok (cn_cna x)) l -> forall n u upd, ent_ok u -> is_Some (ports u !! i) ->
  ub_entity_has_cna c u = true -> exists fin upd' u' n', mod_walk kzalloc n u i l off upd = (fin, upd', u', n') /\ find c (cna_list u') = find c (cna_list u).
Proof.
  induction 1 as [|y l Hy Hl IH]; intros n u upd Hu Hp Hc; cbn [mod_walk]; [by eexists _, _, _, _|].
  destruct (test_bit u i (cn_cna y)) eqn:Et; [by apply IH|]. destruct (ub_entity_has_cna (cn_cna y) u) eqn:Eh; [by apply IH|].
  assert (Hne : c <> cn_cna y) by congruence. destruct (find (cn_cna y) (cna_list u)) as [z|] eqn:Ef.
  - destruct (_ <? _); [by apply IH|]. pose proof (set_bit_ok u i (cn_cna y) Hp) as Hb. pose proof (bs_this _ _ _ _ _ Hb) as Hnum.
    rewrite Et in Hnum. cbv iota in Hnum. pose proof (nports_128 START u (cn_cna y) Hu). pose proof (eo_count _ _ Hu (cn_cna y)) as Hcn. rewrite Ef in Hcn.
    set (f := fun x => {| cn_cna := cn_cna x; cn_distance := cn_distance x; cn_count := u16 (cn_count x + 1); cn_need := true |}).
    edestruct (mod_entry_ok START u (set_bit u i (cn_cna y)) i (cn_cna y) true z f) as (U1 & U2 & _); try done.
    { intros l'. exact (upd_same u i (fun m => {[cn_cna y]} ∪ m) l' (route_updated u)). }
    { cbn [f cn_count]. rewrite uwrap_small by lia. lia. }
    edestruct (IH n _ true U1 (same_port _ _ _ (bt_same _ _ _ _ _ U2) Hp)) as (fin & upd' & u' & n' & E & H1); [by rewrite (has_cna_same _ _ _ (bt_same _ _ _ _ _ U2))|].
    exists fin, upd', u', n'. split; [exact E|]. rewrite H1. by apply (mod_find f (cn_cna y) (cna_list u) z (eo_sorted _ _ Hu)).
  - destruct (add_entry_ok kzalloc START Hk n u i (cn_cna y) (s16 (cn_distance y + off)) Hu Hp Hy Et) as (u1 & n1 & -> & U1 & U2 & U3 & _ & U4 & _); [by rewrite Ef|].
    change (ctrue 0) with false. edestruct (IH n1 u1 true U1 (same_port _ _ _ (bt_same _ _ _ _ _ U2) Hp)) as (fin & upd' & u' & n' & E & H1);
      [by rewrite (has_cna_same _ _ _ (bt_same _ _ _ _ _ U2))|].
    exists fin, upd', u', n'. split; [exact E|]. rewrite H1. by apply U4.
Qed.

(** [ub_route_mod_neighbor] changes the entity [re] only, and not its routes to itself. *)
Lemma neighbor_other (w : bus) (e i re ri : nat) (u ru : ub_entity) (p : ub_port) : bus_ok START w -> ents w !! e = Some u -> ports u !! i = Some p ->
  ents w !! re = Some ru -> is_Some (ports ru !! ri) ->
  exists w' ru', ub_route_mod_neighbor kzalloc w e i re ri = Some (0, w') /\ ents w' = <[re := ru']> (ents w) /\ same_ent ru ru' /\
    forall c, ub_entity_has_cna c ru = true -> find c (cna_list ru') = find c (cna_list ru).
Proof.
  intros Hw Hu Hp Hru Hri. pose proof (nodes_of START w e u Hw Hu) as Hok. pose proof (nodes_of START w re ru Hw Hru) as Hrok.
  destruct (eo_cna _ _ Hok) as [Hcu Hcp]. rewrite Forall_forall in Hcp. specialize (Hcp p ltac:(by eapply list_elem_of_lookup_2)).
  unfold ub_route_mod_neighbor, get_ent. rewrite Hu. cbn [mbind option_bind]. rewrite Hp, Hru. cbn [mbind option_bind]. pose proof Hri as [rp ->]. cbn [mbind option_bind].
  destruct (copied_ok w u Hok) as (l & n & -> & A1 & A2 & _). change (ctrue 0) with false. cbv iota.
  destruct (added_node n (u_cna u) 0 l A1 A2 Hcu) as (l1 & n1 & -> & B1 & B2 & _). change (ctrue 0) with false. cbv iota.
  destruct (added_node n1 (p_cna p) 0 l1 B1 B2 Hcp) as (l2 & n2 & -> & C1 & C2 & _). change (ctrue 0) with false. cbv iota.
  destruct (mod_entries_bits kzalloc n2 ru ri l2 1 Hri) as (b & ru' & n' & E & HB & _). rewrite E. exists (put_ent w re ru' n'), ru'. split; [done|]. split; [done|].
  split; [apply (bt_same _ _ _ _ _ HB)|]. intros c Hc. unfold ub_route_mod_entries in E. destruct (mod_walk_own ri 1 c l2 C2 n2 ru false Hrok Hri Hc) as (fin & upd & u' & m & E' & Hf).
  rewrite E' in E. destruct fin; injection E as _ <- _; [by destruct upd|done].
Qed.

Lemma flood_up (w : bus) (e : nat) (u : ub_entity) : links_ok w -> bus_soft START w -> ents w !! e = Some u ->
  exists b fuel0 w', forwards w e = Some b /\ (forall fuel, (fuel0 <= fuel)%nat -> flood_if b (fun w => ub_route_mod_bfs kzalloc fuel w e) w = Some w') /\
    same_shape w w' /\ bus_soft START w' /\ more w w' /\ ((forall n, kzalloc n = true) -> bus_ok START w -> bus_ok START w').
Proof.
  intros Hl Hw Hu. unfold forwards, get_ent. rewrite Hu. cbn [mbind option_bind]. exists (ub_entity_support_forward u), (flood_fuel w u).
  destruct (ub_entity_support_forward u); cbn [flood_if]; [|exists w; repeat split; [done|apply more_refl|done]].
  destruct (mod_bfs_ok kzalloc START (flood_fuel w u) w e u Hl Hu (le_n _)) as (w' & E & Hs & Hkp). exists w'. split; [done|]. split.
  - intros fuel Hf. by eapply mod_bfs_mono.
  - split; [done|]. split; [by eapply mod_bfs_soft|]. split; [by eapply mod_bfs_more|done].
Qed.
End Up.
