(* ===== verification/UbRouteSpec.v ===== *)
(** * Routing: the contract

    Flooding ends; the table of the hardware names the ports the driver knows, after any history (and no
    other port, even when allocations fail); a link that goes down leaves no route behind; and what the code does not promise: a link down
    also takes routes that still work, and a failed allocation loses a route for good. *)

From S2P Require Import Prelude UbRoute UbRouteInv UbRouteEnt UbRouteSync UbRouteBus UbRouteLow UbRouteUp.

(** ** Histories *)

(** An entity before any route. *)
Definition fresh_ent (u : ub_entity) : Prop :=
  port_nums u <= 128 /\ cna_ok (u_cna u) /\ Forall (fun p => cna_ok (p_cna p) /\ cna_maps p = ∅) (ports u) /\ cna_list u = [] /\ cfg u = fun _ => 0.
(** Links change ([ub_port_connect], [ub_port_disconnect]), routes stay. *)
Definition relinked (u u' : ub_entity) : Prop :=
  u_cna u' = u_cna u /\ u_kind u' = u_kind u /\ u_cluster u' = u_cluster u /\ cna_list u' = cna_list u /\ route_updated u' = route_updated u /\ cfg u' = cfg u /\
  map (fun p => (p_cna p, cna_maps p)) (ports u') = map (fun p => (p_cna p, cna_maps p)) (ports u).

Section History.
Context (kzalloc : nat -> bool) (START : Z).

(** The bus after some operations.  [reach_entry] is the route of [ub_enum_bfs_route_dev], which runs before
    the table is written. *)
Inductive route_reach : bus -> Prop :=
  | reach_fresh w : Forall fresh_ent (ents w) -> route_reach w
  | reach_relink w l n : route_reach w -> Forall2 relinked (ents w) l -> route_reach {| ents := l; allocs := n |}
  | reach_entry w e i u c d r u' n' : route_reach w -> ents w !! e = Some u -> is_Some (ports u !! i) -> cna_ok c ->
      match find c (cna_list u) with Some x => cn_need x = true | None => True end ->
      ub_route_add_entry kzalloc (allocs w) u i c d = (r, u', n') -> route_reach (put_ent w e (set_updated u' true) n')
  | reach_neighbor w e i re ri r w' : route_reach w -> ub_route_mod_neighbor kzalloc w e i re ri = Some (r, w') -> port_at w e i -> port_at w re ri -> route_reach w'
  | reach_mod_bfs w e u fuel w' : route_reach w -> links_ok w -> ents w !! e = Some u -> (flood_fuel w u <= fuel)%nat ->
      ub_route_mod_bfs kzalloc fuel w e = Some w' -> route_reach w'
  | reach_del_bfs w e u fuel w' : route_reach w -> links_ok w -> ents w !! e = Some u -> (flood_fuel w u <= fuel)%nat ->
      ub_route_del_bfs kzalloc fuel w e = Some w' -> route_reach w'
  | reach_clear_port w e i u : route_reach w -> ents w !! e = Some u -> is_Some (ports u !! i) -> route_reach (put_ent w e (ub_route_clear_port u i) (allocs w))
  | reach_sync w devs : route_reach w -> route_reach (ub_route_sync_all START w devs).

Lemma fresh_ok (u : ub_entity) : fresh_ent u -> ent_ok START u /\ flagged u.
Proof.
  intros (H1 & H2 & H3 & H4 & H5). rewrite Forall_forall in H3. assert (Hno : forall i c, test_bit u i c = false).
  { intros i c. unfold test_bit. destruct (ports u !! i) as [p|] eqn:Ep; [|done]. destruct (H3 p) as [_ ->]; [by eapply list_elem_of_lookup_2|].
    by apply bool_decide_eq_false_2, not_elem_of_empty. }
  split; [|right; by rewrite H4]. split; [done| | | | | |].
  - split; [done|]. rewrite Forall_forall. intros p Hp. by apply H3.
  - rewrite H4. constructor.
  - rewrite H4. constructor.
  - intros c. rewrite H4. cbn. apply nports_zero. intros i p Hp Hc. specialize (Hno i c). unfold test_bit in Hno. rewrite Hp in Hno. by apply bool_decide_eq_false in Hno.
  - rewrite H4. constructor.
  - intros _ c i _ _ _. rewrite Hno. unfold hw_bit. rewrite H5. apply Z.bits_0.
Qed.

Lemma relinked_ok (u u' : ub_entity) : relinked u u' -> ent_ok START u /\ flagged u -> ent_ok START u' /\ flagged u'.
Proof.
  intros (R1 & R2 & R3 & R4 & R5 & R6 & R7) [[O1 [O2 O2'] O3 O4 O5 O7 O6] Hf].
  assert (Hp : forall i, (fun p => (p_cna p, cna_maps p)) <$> ports u' !! i = (fun p => (p_cna p, cna_maps p)) <$> ports u !! i).
  { intros i. change (map ?f ?l) with (f <$> l) in R7. by rewrite <- !list_lookup_fmap, R7. }
  assert (Hlen : length (ports u') = length (ports u)) by (rewrite <- (length_map (fun p => (p_cna p, cna_maps p)) (ports u')), R7; apply length_map).
  assert (Ht : forall i c, test_bit u' i c = test_bit u i c).
  { intros i c. unfold test_bit. specialize (Hp i). destruct (ports u' !! i), (ports u !! i); try done. cbn in Hp. injection Hp as _ ->. done. }
  assert (Hn : forall c, nports (ports u') c = nports (ports u) c).
  { intros c. clear -R7. revert R7. generalize (ports u). induction (ports u') as [|p l IH]; intros [|q m] E; try done. cbn [map] in E. injection E as _ E1 E2.
    unfold nports in *. rewrite !filter_cons, E1. destruct (decide _); cbn [length]; by rewrite (IH m). }
  split; [|unfold flagged; by rewrite R4, R5]. split; rewrite ?R1, ?R4; try done.
  - unfold port_nums in *. by rewrite Hlen.
  - split; [done|]. rewrite Forall_forall in *. intros p [i Hi]%list_elem_of_lookup. specialize (Hp i). rewrite Hi in Hp. cbn in Hp.
    destruct (ports u !! i) as [q|] eqn:Eq; [|done]. injection Hp as -> _. apply O2'. by eapply list_elem_of_lookup_2.
  - intros c. rewrite Hn. apply O5.
  - intros Hh c i Hcond Hi Hc. rewrite Ht. rewrite Hlen in Hi. rewrite <- (O6 ltac:(unfold has_table, port_nums in *; by rewrite <- Hlen, <- R2, <- R3) c i Hcond Hi Hc).
    unfold hw_bit, port_nums. by rewrite Hlen, R6.
Qed.

Lemma fresh_soft (u : ub_entity) : fresh_ent u -> soft START u.
Proof. intros [H1 H2]%fresh_ok. by apply ok_soft. Qed.
Lemma relinked_soft (u u' : ub_entity) : relinked u u' -> soft START u -> soft START u'.
Proof.
  intros (R1 & R2 & R3 & R4 & R5 & R6 & R7) [O1 [O2 O2'] O3 O4 O5].
  assert (Hp : forall i, (fun p => (p_cna p, cna_maps p)) <$> ports u' !! i = (fun p => (p_cna p, cna_maps p)) <$> ports u !! i).
  { intros i. change (map ?f ?l) with (f <$> l) in R7. by rewrite <- !list_lookup_fmap, R7. }
  assert (Hlen : length (ports u') = length (ports u)) by (rewrite <- (length_map (fun p => (p_cna p, cna_maps p)) (ports u')), R7; apply length_map).
  split; rewrite ?R1, ?R4; try done.
  - unfold port_nums in *. by rewrite Hlen.
  - split; [done|]. rewrite Forall_forall in *. intros p [i Hi]%list_elem_of_lookup. specialize (Hp i). rewrite Hi in Hp. cbn in Hp.
    destruct (ports u !! i) as [q|] eqn:Eq; [|done]. injection Hp as -> _. apply O2'. by eapply list_elem_of_lookup_2.
  - intros Hh c i Hi Hc. rewrite Hlen in Hi. specialize (O5 ltac:(unfold has_table, port_nums in *; by rewrite <- Hlen, <- R2, <- R3) c i Hi Hc).
    assert (Ht : test_bit u' i c = test_bit u i c).
    { unfold test_bit. specialize (Hp i). destruct (ports u' !! i), (ports u !! i); try done. cbn in Hp. injection Hp as _ ->. done. }
    unfold row_ok in *. rewrite R4, R5, Ht. assert (Hw : hw_bit START u' c (Z.of_nat i) = hw_bit START u c (Z.of_nat i)) by (unfold hw_bit, port_nums; by rewrite Hlen, R6). by rewrite Hw.
Qed.

(** Whatever the allocations do. *)
Lemma reach_soft (w : bus) : route_reach w -> bus_soft START w.
Proof.
  induction 1 as [w Hf|w l n _ IH Hr|w e i u c d r u' n' _ IH Hu Hi Hc Hneed E|w e i re ri r w' _ IH E Hp Hr|w e u fuel w' _ IH Hl Hu Hf E|w e u fuel w' _ IH Hl Hu Hf E|w e i u _ IH Hu Hi|w devs _ IH].
  - eapply Forall_impl; [exact Hf|]. apply fresh_soft.
  - unfold bus_soft in *. cbn [ents]. rewrite Forall_forall in *. intros u' [i Hi]%list_elem_of_lookup. destruct (Forall2_lookup_r _ _ _ _ _ Hr Hi) as (u & Hu & Hru).
    eapply relinked_soft; [exact Hru|]. apply IH. by eapply list_elem_of_lookup_2.
  - apply soft_put; [|done]. unfold soft. cbn [set_updated route_updated]. apply soft_updated. pose proof (soft_mark _ _ _ (soft_at START w e u IH Hu)) as Hok.
    destruct (test_bit u i c) eqn:Et; [unfold ub_route_add_entry in E; rewrite Et in E; by injection E as _ <- _|].
    destruct (add_entry_soft kzalloc START true (allocs w) u i c d Hok Hi Hc Et Hneed) as (r1 & u1 & n1 & E1 & _ & H1 & _). rewrite E in E1. by injection E1 as <- <- <-.
  - by eapply neighbor_soft.
  - by eapply mod_bfs_soft.
  - by eapply del_bfs_soft.
  - apply soft_put; [|done]. apply clear_port_soft; [done|by eapply soft_at].
  - by apply sync_all_soft.
Qed.

Lemma reach_ok (Hk : forall n, kzalloc n = true) (w : bus) : route_reach w -> bus_ok START w.
Proof.
  induction 1 as [w Hf|w l n _ IH Hr|w e i u c d r u' n' _ IH Hu Hi Hc Hneed E|w e i re ri r w' _ IH E Hp Hr|w e u fuel w' _ IH Hl Hu Hf E|w e u fuel w' _ IH Hl Hu Hf E|w e i u _ IH Hu Hi|w devs _ IH].
  - unfold bus_ok. eapply Forall_impl; [exact Hf|]. apply fresh_ok.
  - unfold bus_ok in *. cbn [ents]. rewrite Forall_forall in *. intros u' [i Hi]%list_elem_of_lookup. destruct (Forall2_lookup_r _ _ _ _ _ Hr Hi) as (u & Hu & Hru).
    eapply relinked_ok; [exact Hru|]. apply IH. by eapply list_elem_of_lookup_2.
  - unfold bus_ok, put_ent. cbn [ents]. apply Forall_insert; [exact IH|]. split; [|by left]. apply updated_ok.
    pose proof (nodes_of START w e u IH Hu) as Hok. destruct (test_bit u i c) eqn:Et; [unfold ub_route_add_entry in E; rewrite Et in E; by injection E as _ <- _|].
    destruct (add_entry_ok kzalloc START Hk (allocs w) u i c d Hok Hi Hc Et Hneed) as (u1 & n1 & E1 & H1 & _). rewrite E in E1. by injection E1 as -> -> ->.
  - destruct (mod_neighbor_ok kzalloc START w e i re ri Hp Hr) as (r1 & w1 & E1 & _ & Hkp). rewrite E in E1. injection E1 as <- <-. by apply Hkp.
  - destruct (mod_bfs_ok kzalloc START fuel w e u Hl Hu Hf) as (w1 & E1 & _ & Hkp). rewrite E in E1. injection E1 as <-. by apply Hkp.
  - destruct (del_bfs_ok kzalloc START fuel w e u Hl Hu Hf) as (w1 & E1 & _ & _ & Hkp). rewrite E in E1. injection E1 as <-. by apply Hkp.
  - eapply bus_put; [exact Hu|by apply clear_port_ok|done].
  - by apply sync_all_ok.
Qed.
End History.

(** ** A link that goes down *)

Section Down.
Context (kzalloc : nat -> bool) (START : Z).

(** Nothing is routed through the port [i] of [e]. *)
Definition no_route (w : bus) (e i : nat) : Prop := forall u c, ents w !! e = Some u -> test_bit u i c = false.
(** Routes were only taken away. *)
Definition shrinks (w w' : bus) : Prop := same_shape w w' /\ fewer w w' /\ (bus_ok START w -> bus_ok START w').

Lemma shrinks_trans (w w1 w2 : bus) : shrinks w w1 -> shrinks w1 w2 -> shrinks w w2.
Proof. intros (A1 & A2 & A3) (B1 & B2 & B3). split; [by eapply shape_trans|]. split; [by eapply fewer_trans|]. intros Hw. by apply B3, A3. Qed.
Lemma fewer_route (w w' : bus) (k : nat) (v' : ub_entity) : fewer w w' -> ents w' !! k = Some v' -> exists v, ents w !! k = Some v /\ forall j c, test_bit v' j c = true -> test_bit v j c = true.
Proof. intros Hf Hv. destruct (Forall2_lookup_r _ _ _ _ _ Hf Hv) as (v & Hv' & _ & Ht). by exists v. Qed.
Lemma fewer_none (w w' : bus) (e i : nat) : fewer w w' -> no_route w e i -> no_route w' e i.
Proof. intros Hf Hn u' c Hu'. destruct (fewer_route w w' e u' Hf Hu') as (u & Hu & Ht). destruct (test_bit u' i c) eqn:E; [|done]. rewrite <- (Hn u c Hu). symmetry. by apply Ht. Qed.

Lemma clear_step (w : bus) (e i : nat) : port_at w e i ->
  exists w', on_port w e i (fun u => ub_route_clear_port u i) = Some w' /\ shrinks w w' /\ no_route w' e i.
Proof.
  intros (u & Hu & Hi). unfold on_port, get_ent. rewrite Hu. cbn [mbind option_bind]. pose proof Hi as [p ->]. cbn [mbind option_bind]. eexists. split; [done|].
  pose proof (clear_port_ok START u i Hi) as Ho. destruct (clear_port_fewer u i) as [Hf Hn]. split; [split; [|split]|].
  - eapply shape_put; [done|]. apply shape_ent. apply Ho.
  - by eapply fewer_put.
  - by eapply bus_put.
  - intros u' c Hu'. unfold put_ent in Hu'. cbn [ents] in Hu'. rewrite list_lookup_insert_eq in Hu' by (by eapply lookup_lt_Some). injection Hu' as <-. apply Hn.
Qed.
Lemma flood_step (fuel : nat) (w w1 : bus) (e : nat) (u : ub_entity) : links_ok w -> shrinks w w1 -> ents w !! e = Some u -> (flood_fuel w u <= fuel)%nat ->
  exists b w', forwards w1 e = Some b /\ flood_if b (fun w => ub_route_del_bfs kzalloc fuel w e) w1 = Some w' /\ shrinks w1 w'.
Proof.
  intros Hl (Hs & Hf & _) Hu Hfuel. destruct (shape_at w1 w e u (shape_sym _ _ Hs) Hu) as (u1 & Hu1 & _). destruct (fuel_fewer w w1 e u u1 Hs Hf Hu Hu1) as [E1 E2].
  unfold forwards, get_ent. rewrite Hu1. cbn [mbind option_bind]. exists (ub_entity_support_forward u1). destruct (ub_entity_support_forward u1); cbn [flood_if].
  - destruct (del_bfs_ok kzalloc START fuel w1 e u1) as (w' & -> & H); [by eapply shape_links|done| |by exists w'].
    unfold flood_fuel, total_ports in *. by rewrite E1, E2.
  - exists w1. split; [done|]. split; [done|]. split; [done|]. split; [apply fewer_refl|done].
Qed.

(** C18: [ub_route_table_clear_for_port], for a link that goes down: it ends; no address is routed through
    either port of the link any more, no entity has a route it did not have before, and the tables of the
    entities [devs] name exactly the ports that are left.  No allocation has to succeed. *)
Theorem route_link_down_spec (fuel : nat) (w : bus) (devs : list nat) (e i re ri : nat) (u ru : ub_entity) : links_ok w -> bus_ok START w ->
  ents w !! e = Some u -> is_Some (ports u !! i) -> ents w !! re = Some ru -> is_Some (ports ru !! ri) -> (flood_fuel w u <= fuel)%nat -> (flood_fuel w ru <= fuel)%nat ->
  exists w', ub_route_table_clear_for_port kzalloc START fuel w devs e i re ri = Some w' /\ same_shape w w' /\ bus_ok START w' /\ no_route w' e i /\ no_route w' re ri /\
    (forall k v', ents w' !! k = Some v' -> exists v, ents w !! k = Some v /\ forall j c, test_bit v' j c = true -> test_bit v j c = true) /\
    (forall k v', k ∈ devs -> ents w' !! k = Some v' -> synced START v').
Proof.
  intros Hl Hw Hu Hi Hru Hri Hf Hrf. unfold ub_route_table_clear_for_port.
  destruct (clear_step w re ri) as (w1 & -> & S1 & N1); [by exists ru|]. cbn [mbind option_bind].
  destruct (clear_step w1 e i) as (w2 & -> & S2 & N2); [eapply shape_port; [apply S1|by exists u]|]. cbn [mbind option_bind].
  pose proof (shrinks_trans _ _ _ S1 S2) as S12.
  destruct (flood_step fuel w w2 re ru Hl S12 Hru Hrf) as (b & w3 & -> & E3 & S3). cbn [mbind option_bind]. rewrite E3. cbn [mbind option_bind].
  destruct (flood_step fuel w w3 e u Hl (shrinks_trans _ _ _ S12 S3) Hu Hf) as (b' & w4 & -> & E4 & S4). cbn [mbind option_bind]. rewrite E4. cbn [mbind option_bind].
  pose proof (shrinks_trans _ _ _ S3 S4) as S34. destruct (shrinks_trans _ _ _ S12 S34) as (Hs & Hfw & Hok).
  destruct (sync_all_ok START w4 devs (Hok Hw)) as (T1 & T2 & T3 & T4).
  assert (Hback : forall k v', ents (ub_route_sync_all START w4 devs) !! k = Some v' -> exists v, ents w4 !! k = Some v /\ forall j c, test_bit v' j c = test_bit v j c).
  { intros k v' Hk. change (map ports ?l) with (ports <$> l) in T3. pose proof (f_equal (fun l => l !! k) T3) as E. rewrite !list_lookup_fmap, Hk in E.
    destruct (ents w4 !! k) as [v|]; [|done]. injection E as E. exists v. split; [done|]. intros j c. unfold test_bit. by rewrite E. }
  assert (Hnone : forall k j, no_route w4 k j -> no_route (ub_route_sync_all START w4 devs) k j).
  { intros k j Hn v c Hk. destruct (Hback k v Hk) as (v4 & H4 & ->). by apply Hn. }
  exists (ub_route_sync_all START w4 devs). split; [done|]. split; [by eapply shape_trans|]. split; [done|]. split; [|split; [|split; [|done]]].
  - apply Hnone. eapply fewer_none; [apply S34|done].
  - apply Hnone. eapply fewer_none; [apply S34|]. eapply fewer_none; [apply S2|done].
  - intros k v' Hk. destruct (Hback k v' Hk) as (v4 & H4 & Heq). destruct (fewer_route w w4 k v4 Hfw H4) as (v & Hv & Ht). exists v. split; [done|].
    intros j c. rewrite Heq. apply Ht.
Qed.
End Down.

(** ** A link that comes up *)

Section LinkUp.
Context (kzalloc : nat -> bool) (START : Z).

(** What a port can be asked to route. *)
Definition addr_of (u : ub_entity) (p : ub_port) (c : Z) : Prop := c = u_cna u \/ c = p_cna p.
(** The port [ri] of [re] routes [c]. *)
Definition routed (w : bus) (re ri : nat) (c : Z) : Prop := exists u, ents w !! re = Some u /\ test_bit u ri c = true.

Lemma routed_more (w w' : bus) (re ri : nat) (c : Z) : more w w' -> routed w re ri c -> routed w' re ri c.
Proof. intros Hm (u & Hu & Ht). destruct (more_at w w' re u Hm Hu) as (u' & Hu' & H). exists u'. split; [done|by apply H]. Qed.
Lemma sync_routes (w : bus) (devs : list nat) (k j : nat) (c : Z) : bus_soft START w -> routed (ub_route_sync_all START w devs) k j c <-> routed w k j c.
Proof.
  intros Hw. destruct (sync_all_soft START w devs Hw) as (_ & E & _). change (map ports ?l) with (ports <$> l) in E. pose proof (f_equal (fun l => l !! k) E) as Ek.
  rewrite !list_lookup_fmap in Ek. unfold routed. split; intros (u & Hu & Ht); rewrite Hu in Ek.
  - destruct (ents w !! k) as [v|]; [|done]. injection Ek as Ek. exists v. split; [done|]. unfold test_bit in *. by rewrite <- Ek.
  - destruct (ents (ub_route_sync_all START w devs) !! k) as [v|]; [|done]. injection Ek as Ek. exists v. split; [done|]. unfold test_bit in *. by rewrite Ek.
Qed.
Lemma own_addr (u : ub_entity) (i : nat) (p : ub_port) (c : Z) : ports u !! i = Some p -> addr_of u p c -> ub_entity_has_cna c u = true.
Proof.
  intros Hp Hc. unfold ub_entity_has_cna. apply orb_true_iff. destruct Hc as [-> | ->]; [left; apply Z.eqb_refl|right]. apply existsb_exists. exists p.
  split; [apply list_elem_of_In; by eapply list_elem_of_lookup_2|apply Z.eqb_refl].
Qed.

(** The table of [v] names no port that the driver does not. *)
Definition sound (v : ub_entity) : Prop := has_table v = true -> forall c i, cna_ok c -> (i < length (ports v))%nat -> hw_bit START v c (Z.of_nat i) = true -> test_bit v i c = true.
Lemma soft_sound (v : ub_entity) : soft_ok START false v -> sound v.
Proof. intros H Ht c i Hc Hi. apply row_sound. by apply (so_rows _ _ _ H). Qed.

(** Both ends learn the addresses of the other, with memory enough. *)
Definition learns (w w' : bus) (e i re ri : nat) : Prop := forall u p ru rp, ents w !! e = Some u -> ports u !! i = Some p -> ents w !! re = Some ru -> ports ru !! ri = Some rp ->
  (forall c, addr_of u p c -> open_to ru c (s16 (announced u c + 1)) -> routed w' re ri c) /\
  (forall c, addr_of ru rp c -> open_to u c (s16 (announced ru c + 1)) -> routed w' e i c).

Lemma neighbors_learn (w w1 w2 : bus) (e i re ri : nat) : (forall n, kzalloc n = true) -> bus_ok START w -> e <> re ->
  ub_route_mod_neighbor kzalloc w e i re ri = Some (0, w1) -> bus_ok START w1 -> ub_route_mod_neighbor kzalloc w1 re ri e i = Some (0, w2) -> learns w w2 e i re ri.
Proof.
  intros Hk Hw Hne E1 Hw1 E2 u p ru rp Hu Hp Hru Hrp.
  destruct (neighbor_other kzalloc START Hk w e i re ri u ru p Hw Hu Hp Hru ltac:(by eexists)) as (w1' & ru1 & E1' & D1 & S1 & F1). rewrite E1 in E1'. injection E1' as <-.
  assert (Hu1 : ents w1 !! e = Some u) by (by rewrite D1, list_lookup_insert_ne). assert (Hru1 : ents w1 !! re = Some ru1) by (rewrite D1; apply list_lookup_insert_eq; by eapply lookup_lt_Some).
  destruct (same_port ru ru1 ri S1 ltac:(by eexists)) as [rp1 Hrp1]. split.
  - intros c Hc Ho. destruct (neighbor_routes kzalloc START Hk w e i re ri u ru p c Hw Hu Hp Hru ltac:(by eexists) Hc Ho) as (w1' & ru' & E1' & Hr & Ht).
    rewrite E1 in E1'. injection E1' as <-. eapply routed_more; [by eapply neighbor_more|by exists ru'].
  - intros c Hc Ho. assert (Ecna : u_cna ru1 = u_cna ru /\ p_cna rp1 = p_cna rp).
    { destruct S1 as (A1 & _ & _ & _ & A2). split; [done|]. change (map ?f ?l) with (f <$> l) in A2. pose proof (f_equal (fun l => l !! ri) A2) as A. rewrite !list_lookup_fmap, Hrp, Hrp1 in A. by injection A. }
    assert (Hc1 : addr_of ru1 rp1 c) by (unfold addr_of; by rewrite (proj1 Ecna), (proj2 Ecna)).
    assert (Ho1 : open_to u c (s16 (announced ru1 c + 1))).
    { unfold announced in *. rewrite F1 by (by eapply own_addr). destruct S1 as (_ & A2 & _). unfold ub_entity_support_forward in *. by rewrite A2. }
    destruct (neighbor_routes kzalloc START Hk w1 re ri e i ru1 u rp1 c Hw1 Hru1 Hrp1 Hu1 ltac:(by eexists) Hc1 Ho1) as (w2' & u' & E2' & Hr & Ht).
    rewrite E2 in E2'. injection E2' as <-. by exists u'.
Qed.

(** C17: [ub_route_table_set_for_port], for a link that comes up.  Whatever the allocations do, it ends
    (with any fuel from some on, and one result) and returns 0 or [-ENOMEM], no entity loses a route, and
    when it returns 0 the tables of the entities [devs] name no port that the driver does not.  If all
    allocations succeed and the bus was up to date before, it returns 0, each end reaches the addresses of
    the other (that of the entity and that of the port) through its port of the link, unless the address is
    its own or it knows it at a smaller distance, and the tables of [devs] name exactly the ports of the driver. *)
Theorem route_link_up_spec (w : bus) (devs : list nat) (e i re ri : nat) : links_ok w -> bus_soft START w -> e <> re -> port_at w e i -> port_at w re ri ->
  exists fuel0 r w', (forall fuel, (fuel0 <= fuel)%nat -> ub_route_table_set_for_port kzalloc START fuel w devs e i re ri = Some (r, w')) /\
    (r = 0 \/ r = - ENOMEM) /\ same_shape w w' /\ bus_soft START w' /\ (forall k j c, routed w k j c -> routed w' k j c) /\
    (r = 0 -> forall k v, k ∈ devs -> ents w' !! k = Some v -> sound v) /\
    ((forall n, kzalloc n = true) -> bus_ok START w -> r = 0 /\ bus_ok START w' /\ learns w w' e i re ri /\
      forall k v, k ∈ devs -> ents w' !! k = Some v -> synced START v).
Proof.
  intros Hl Hw Hne P1 P2. unfold ub_route_table_set_for_port.
  destruct (mod_neighbor_ok kzalloc START w e i re ri P1 P2) as (r1 & w1 & E1 & Sh1 & K1). rewrite E1. cbn [mbind option_bind].
  destruct (neighbor_soft kzalloc START _ _ _ _ _ _ _ E1 Hw) as [R1 W1]. pose proof (neighbor_more kzalloc _ _ _ _ _ _ _ E1) as M1. destruct (ctrue r1) eqn:C1.
  { exists O, r1, w1. split; [done|]. split; [done|]. split; [done|]. split; [done|]. split; [intros k j c; by apply routed_more|]. split; [by intros ->|].
    intros Hk Ho. destruct (K1 Hk Ho) as [-> _]. done. }
  assert (r1 = 0) as -> by (destruct R1 as [?| ->]; done).
  destruct (mod_neighbor_ok kzalloc START w1 re ri e i (shape_port _ _ _ _ Sh1 P2) (shape_port _ _ _ _ Sh1 P1)) as (r2 & w2 & E2 & Sh2 & K2). rewrite E2. cbn [mbind option_bind].
  destruct (neighbor_soft kzalloc START _ _ _ _ _ _ _ E2 W1) as [R2 W2]. pose proof (more_trans _ _ _ M1 (neighbor_more kzalloc _ _ _ _ _ _ _ E2)) as M2.
  pose proof (shape_trans _ _ _ Sh1 Sh2) as Sh12. destruct (ctrue r2) eqn:C2.
  { exists O, r2, w2. split; [done|]. split; [done|]. split; [done|]. split; [done|]. split; [intros k j c; by apply routed_more|]. split; [by intros ->|].
    intros Hk Ho. destruct (K1 Hk Ho) as [_ Ho1]. destruct (K2 Hk Ho1) as [-> _]. done. }
  assert (r2 = 0) as -> by (destruct R2 as [?| ->]; done).
  destruct (shape_port _ _ _ _ Sh12 P1) as (u2 & Hu2 & _). destruct (flood_up kzalloc START w2 e u2 (shape_links _ _ Sh12 Hl) W2 Hu2) as (b & f3 & w3 & Eb & E3 & Sh3 & W3 & M3 & K3).
  pose proof (shape_trans _ _ _ Sh12 Sh3) as Sh13. destruct (shape_port _ _ _ _ Sh13 P2) as (ru3 & Hru3 & _).
  destruct (flood_up kzalloc START w3 re ru3 (shape_links _ _ Sh13 Hl) W3 Hru3) as (b' & f4 & w4 & Eb' & E4 & Sh4 & W4 & M4 & K4).
  pose proof (more_trans _ _ _ M3 M4) as M24. destruct (sync_all_soft START w4 devs W4) as (T1 & _ & T3 & T4). exists (f3 + f4)%nat, 0, (ub_route_sync_all START w4 devs).
  rewrite Eb. cbn [mbind option_bind]. split; [|split; [by left|split; [|split; [done|split; [|split]]]]].
  - intros fuel Hf. rewrite E3 by lia. cbn [mbind option_bind]. rewrite Eb'. cbn [mbind option_bind]. by rewrite E4 by lia.
  - eapply shape_trans; [|exact T3]. by eapply shape_trans.
  - intros k j c Hr. apply sync_routes; [done|]. eapply routed_more, Hr. by eapply more_trans.
  - intros _ k v Hkd Hv. apply soft_sound. by eapply T4.
  - intros Hk Ho. destruct (K1 Hk Ho) as [_ Ho1]. destruct (K2 Hk Ho1) as [_ Ho2]. destruct (sync_all_ok START w4 devs (K4 Hk (K3 Hk Ho2))) as (_ & A2 & _ & A4).
    split; [done|]. split; [done|]. split; [|done]. intros u p ru rp Hu Hp Hru Hrp. destruct (neighbors_learn w w1 w2 e i re ri Hk Ho Hne E1 Ho1 E2 u p ru rp Hu Hp Hru Hrp) as [L1 L2].
    split; intros c Hc Hop; (apply sync_routes; [done|]); (eapply routed_more; [exact M24|]); [by apply L1|by apply L2].
Qed.
End LinkUp.

(** ** Termination and history *)

Section Claims.
Context (kzalloc : nat -> bool) (START : Z).

(** C38: flooding ends, whatever the links (loops included) and even when allocations fail: with at most
    [flood_fuel] steps, 17 for each route that an address of the list can gain or lose at a port and 16
    for the queue, [ub_route_mod_bfs] and [ub_route_del_bfs] return; no link and no address changes. *)
Theorem route_flood_ends (fuel : nat) (w : bus) (e : nat) (u : ub_entity) : links_ok w -> ents w !! e = Some u -> (flood_fuel w u <= fuel)%nat ->
  (exists w', ub_route_mod_bfs kzalloc fuel w e = Some w' /\ same_shape w w') /\ (exists w', ub_route_del_bfs kzalloc fuel w e = Some w' /\ same_shape w w').
Proof.
  intros Hl Hu Hf. destruct (mod_bfs_ok kzalloc START fuel w e u Hl Hu Hf) as (w1 & E1 & H1 & _). destruct (del_bfs_ok kzalloc START fuel w e u Hl Hu Hf) as (w2 & E2 & H2 & _).
  split; by eexists.
Qed.

(** C16: after any history of routes added, links changed, changes flooded, ports cleared and tables
    written, whatever the allocations do, [ub_route_sync_all] leaves each entity of [devs] with a table
    that names no port for an address that the driver does not route there, exactly the ports of the
    driver for an address whose node is in the list without mark, and none for an address without a node
    (the bits of an allocation that failed).  If all allocations succeed, the table names for every address
    exactly the ports the driver knows, and the list holds exactly the addresses that some port reaches,
    each with the number of these ports. *)
Theorem route_history_exact (w : bus) (devs : list nat) (e : nat) (u : ub_entity) : route_reach kzalloc START w -> e ∈ devs ->
  ents (ub_route_sync_all START w devs) !! e = Some u ->
  (has_table u = true -> forall c i, cna_ok c -> (i < length (ports u))%nat ->
    (hw_bit START u c (Z.of_nat i) = true -> test_bit u i c = true) /\
    (find c (cna_list u) = None -> hw_bit START u c (Z.of_nat i) = false) /\
    (forall x, find c (cna_list u) = Some x -> cn_need x = false -> hw_bit START u c (Z.of_nat i) = test_bit u i c)) /\
  ((forall n, kzalloc n = true) ->
    (has_table u = true -> forall c i, cna_ok c -> (i < length (ports u))%nat -> hw_bit START u c (Z.of_nat i) = test_bit u i c) /\
    (forall c, is_Some (find c (cna_list u)) <-> exists i, test_bit u i c = true) /\
    (forall c x, find c (cna_list u) = Some x -> cn_count x = Z.of_nat (nports (ports u) c))).
Proof.
  intros Hr He Hu. split.
  - intros Ht c i Hc Hi. destruct (sync_all_soft START w devs (reach_soft kzalloc START w Hr)) as (_ & _ & _ & H4).
    pose proof (so_rows _ _ _ (H4 e u He Hu) Ht c i Hi Hc) as Hrow. split; [by apply row_sound|]. unfold row_ok in Hrow. split.
    + intros E. by rewrite E in Hrow.
    + intros x E Hn. by rewrite E, Hn in Hrow.
  - intros Hk. pose proof (reach_ok kzalloc START Hk w Hr) as Hok. destruct (sync_all_ok START w devs Hok) as (_ & H2 & _ & H4).
    destruct (H4 e u He Hu) as [S1 S2 _]. split; [done|]. split; [done|]. intros c x Hx. pose proof (eo_count _ _ (nodes_of START _ e u H2 Hu) c) as Hc. by rewrite Hx in Hc.
Qed.
End Claims.

(** ** A small bus *)

(** A controller, a switch, and a device with two links to the switch. *)
Definition mkport (c : Z) (v : option nat) (k : nat) : ub_port := {| p_cna := c; cna_maps := ∅; r_uent := v; r_index := k |}.
Definition mkent (c : Z) (k : uent_kind) (l : list ub_port) : ub_entity :=
  {| u_cna := c; u_kind := k; u_cluster := false; ports := l; cna_list := []; route_updated := false; cfg := fun _ => 0 |}.
Definition topo : bus := {| ents := [
  mkent 1 controller [mkport 11 (Some 1%nat) 0; mkport 12 None 0];
  mkent 2 switch [mkport 21 (Some 0%nat) 0; mkport 22 (Some 2%nat) 0; mkport 23 (Some 2%nat) 1];
  mkent 3 other [mkport 31 (Some 1%nat) 1; mkport 32 (Some 1%nat) 2]]; allocs := 0 |}.
Definition always (n : nat) : bool := true.

Definition links_check (w : bus) : bool := forallb (fun u => forallb (fun p =>
  match r_uent p with None => true | Some v => match ents w !! v with Some ru => (r_index p <? length (ports ru))%nat | None => false end end) (ports u)) (ents w).
Lemma links_checked (w : bus) : links_check w = true -> links_ok w.
Proof.
  intros H e u i p v Hu Hp Hv. unfold links_check in H. rewrite forallb_forall in H. specialize (H u). rewrite forallb_forall in H.
  assert (Hpu : List.In p (ports u)) by (apply list_elem_of_In; by eapply list_elem_of_lookup_2).
  specialize (H ltac:(apply list_elem_of_In; by eapply list_elem_of_lookup_2) p Hpu). rewrite Hv in H. destruct (ents w !! v) as [ru|] eqn:E; [|done].
  exists ru. split; [done|]. apply lookup_lt_is_Some. by apply Nat.ltb_lt.
Qed.
Lemma topo_fresh : Forall fresh_ent (ents topo).
Proof.
  assert (H : forall l, forallb (fun p => (0 <=? p_cna p) && (p_cna p <? 2 ^ 24) && bool_decide (cna_maps p = ∅)) l = true -> Forall (fun p => cna_ok (p_cna p) /\ cna_maps p = ∅) l).
  { intros l Hl. rewrite forallb_forall in Hl. apply Forall_forall. intros p Hp%list_elem_of_In. specialize (Hl p Hp). rewrite !andb_true_iff, bool_decide_eq_true in Hl.
    unfold cna_ok. split; [lia|apply Hl]. }
  unfold topo. cbn [ents]. do 3 (apply Forall_cons; split; [split; [by vm_compute|]; split; [by vm_compute|]; split; [apply H; vm_compute; reflexivity|]; done|]).
  by apply Forall_nil.
Qed.

(** The bus with the link of the controller up. *)
Definition topo_up : bus := match ub_route_mod_neighbor always topo 0 0 1 0 with Some (_, w) => w | None => topo end.
Lemma topo_reach : route_reach always 100 topo_up.
Proof.
  eapply (reach_neighbor always 100 topo 0 0 1 0 0 topo_up).
  - apply reach_fresh, topo_fresh.
  - vm_compute. reflexivity.
  - eexists. split; [reflexivity|]. by eexists.
  - eexists. split; [reflexivity|]. by eexists.
Qed.
Definition ent_of (w : bus) (e : nat) : ub_entity := match ents w !! e with Some u => u | None => mkent 0 other [] end.

Lemma route_flood_ends_witness : exists w', ub_route_mod_bfs always 1000 topo_up 1 = Some w' /\ same_shape topo_up w'.
Proof.
  apply (route_flood_ends always 100 1000 topo_up 1 (ent_of topo_up 1)).
  - apply links_checked. vm_compute. reflexivity.
  - vm_compute. reflexivity.
  - apply Nat.leb_le. vm_compute. reflexivity.
Defined.

(** The same link, with a third allocation that fails. *)
Definition third (n : nat) : bool := negb (n =? 2)%nat.
Definition topo_low : bus := match ub_route_mod_neighbor third topo 0 0 1 0 with Some (_, w) => w | None => topo end.
Lemma topo_low_reach : route_reach third 100 topo_low.
Proof.
  eapply (reach_neighbor third 100 topo 0 0 1 0 0 topo_low).
  - apply reach_fresh, topo_fresh.
  - vm_compute. reflexivity.
  - eexists. split; [reflexivity|]. by eexists.
  - eexists. split; [reflexivity|]. by eexists.
Qed.

(** With memory the table of the switch names the port to the controller; without, the bit of the driver is set
    and the table has nothing. *)
Lemma route_history_exact_witness : hw_bit 100 (ent_of (ub_route_sync_all 100 topo_up [1%nat]) 1) 1 0 = true /\
  test_bit (ent_of (ub_route_sync_all 100 topo_low [1%nat]) 1) 0 1 = true /\ hw_bit 100 (ent_of (ub_route_sync_all 100 topo_low [1%nat]) 1) 1 0 = false.
Proof.
  split; [|split; [vm_compute; reflexivity|]].
  - destruct (route_history_exact always 100 topo_up [1%nat] 1 (ent_of (ub_route_sync_all 100 topo_up [1%nat]) 1) topo_reach) as [_ H].
    + by left.
    + vm_compute. reflexivity.
    + destruct (H (fun _ => eq_refl)) as [Hx _]. etransitivity; [apply (Hx ltac:(vm_compute; reflexivity) 1 0%nat)|vm_compute; reflexivity].
      * unfold cna_ok. lia.
      * apply Nat.ltb_lt. vm_compute. reflexivity.
  - destruct (route_history_exact third 100 topo_low [1%nat] 1 (ent_of (ub_route_sync_all 100 topo_low [1%nat]) 1) topo_low_reach) as [H _].
    + by left.
    + vm_compute. reflexivity.
    + apply (H ltac:(vm_compute; reflexivity) 1 0%nat).
      * unfold cna_ok. lia.
      * apply Nat.ltb_lt. vm_compute. reflexivity.
      * vm_compute. reflexivity.
Defined.

Lemma route_link_down_spec_witness : exists w', ub_route_table_clear_for_port always 100 1000 topo_up [0; 1]%nat 0 0 1 0 = Some w' /\ no_route w' 1 0.
Proof.
  destruct (route_link_down_spec always 100 1000 topo_up [0; 1]%nat 0 0 1 0 (ent_of topo_up 0) (ent_of topo_up 1)) as (w' & E & _ & _ & _ & H & _).
  - apply links_checked. vm_compute. reflexivity.
  - apply (reach_ok always 100 ltac:(done)), topo_reach.
  - vm_compute. reflexivity.
  - eexists. vm_compute. reflexivity.
  - vm_compute. reflexivity.
  - eexists. vm_compute. reflexivity.
  - apply Nat.leb_le. vm_compute. reflexivity.
  - apply Nat.leb_le. vm_compute. reflexivity.
  - by exists w'.
Defined.

Lemma topo_port (e i : nat) : match ents topo !! e with Some u => bool_decide (is_Some (ports u !! i)) | None => false end = true -> port_at topo e i.
Proof. destruct (ents topo !! e) as [u|] eqn:E; [|done]. intros H%bool_decide_eq_true. by exists u. Qed.
Lemma route_link_up_spec_witness : exists fuel0 r w', (forall fuel, (fuel0 <= fuel)%nat -> ub_route_table_set_for_port always 100 fuel topo [0; 1]%nat 0 0 1 0 = Some (r, w')) /\
  r = 0 /\ routed w' 1 0 1 /\ routed w' 0 0 2.
Proof.
  destruct (route_link_up_spec always 100 topo [0; 1]%nat 0 0 1 0) as (fuel0 & r & w' & E & _ & _ & _ & _ & _ & H).
  - apply links_checked. vm_compute. reflexivity.
  - apply bus_ok_soft, (reach_ok always 100 ltac:(done)), reach_fresh, topo_fresh.
  - lia.
  - by apply topo_port.
  - by apply topo_port.
  - destruct (H (fun _ => eq_refl)) as (Hr & _ & L & _); [apply (reach_ok always 100 ltac:(done)), reach_fresh, topo_fresh|].
    destruct (L (ent_of topo 0) (mkport 11 (Some 1%nat) 0) (ent_of topo 1) (mkport 21 (Some 0%nat) 0)) as [L1 L2]; [reflexivity..|].
    exists fuel0, r, w'. split; [exact E|]. split; [exact Hr|]. split; [apply L1|apply L2]; first [by left | by split].
Defined.

(** ** What is not promised *)

Definition link_up (w : bus) (e i re ri : nat) : option bus := '(r, w) ← ub_route_table_set_for_port always 100 1000 w [0; 1; 2]%nat e i re ri; if ctrue r then None else Some w.
Definition topo_all : option bus := w ← link_up topo 0 0 1 0; w ← link_up w 1 1 2 0; link_up w 1 2 2 1.
Definition routes (o : option bus) (e i : nat) (c : Z) : option bool := w ← o; u ← ents w !! e; Some (test_bit u i c).

(** a link that goes down takes routes that still work: the device 3 is linked twice to the switch,
    and the controller reaches it through the switch; when one of the two links goes down, the switch
    still reaches the device through the other, but the controller has lost its route, because
    [ub_route_del_bfs] also floods the addresses that only changed. *)
Theorem route_link_down_drops :
  let down := w ← topo_all; ub_route_table_clear_for_port always 100 1000 w [0; 1; 2]%nat 1 1 2 0 in
  routes topo_all 0 0 3 = Some true /\ routes topo_all 1 1 3 = Some true /\ routes topo_all 1 2 3 = Some true /\
  routes down 1 1 3 = Some false /\ routes down 1 2 3 = Some true /\ routes down 0 0 3 = Some false.
Proof. split_and!; vm_compute; reflexivity. Qed.

(** The same for the table. *)
Definition table (o : option bus) (e i : nat) (c : Z) : option bool := w ← o; u ← ents w !! e; Some (hw_bit 100 u c (Z.of_nat i)).

(** A failed allocation loses a route: the third [kzalloc] fails, when [ub_route_add_entry] has set the
    bit of the switch for the controller but not yet the node.  [ub_route_table_set_for_port] returns 0
    nevertheless, and the table has no route; trying again with memory enough sets the route to the
    address of the port, but skips the one of the controller, whose bit is set. *)
Theorem route_alloc_lost :
  let first := ub_route_table_set_for_port third 100 1000 topo [0; 1; 2]%nat 0 0 1 0 in
  let w := '(_, w) ← first; Some w in let again := w ← w; link_up w 0 0 1 0 in
  fst <$> first = Some 0 /\ routes w 1 0 1 = Some true /\ table w 1 0 1 = Some false /\
  table again 1 0 11 = Some true /\ routes again 1 0 1 = Some true /\ table again 1 0 1 = Some false /\ table (link_up topo 0 0 1 0) 1 0 1 = Some true.
Proof. split_and!; vm_compute; reflexivity. Qed.
