(* ===== verification/UbLink.v ===== *)
(** * Links of the UB bus

    [port.c] and [link.c] of [drivers/ub/ubus]: two ports are connected and disconnected, the routes of a
    new link are set and those of a lost one cleared, and when the last link to an entity is lost, the
    entities behind it are found by a search over the links, to be removed. *)

From S2P Require Import Prelude UbRoute UbRouteInv UbRouteEnt UbRouteSync UbRouteBus UbRouteUp UbRouteSpec.

(** ** Connecting ports *)

Definition set_link (p : ub_port) (v : option nat) (k : nat) : ub_port := {| p_cna := p_cna p; cna_maps := cna_maps p; r_uent := v; r_index := k |}.
Definition get_port (w : bus) (e i : nat) : option ub_port := u ← ents w !! e; ports u !! i.
Definition alter_port (w : bus) (e i : nat) (f : ub_port -> ub_port) : bus :=
  {| ents := alter (fun u => set_ports u (alter f i (ports u))) e (ents w); allocs := allocs w |}.

Definition ub_port_connect (w : bus) (e i re ri : nat) : bus :=
  let w := alter_port w e i (fun p => set_link p (Some re) ri) in alter_port w re ri (fun p => set_link p (Some e) i).

(** [None] is an access outside the entities and their ports. *)
Definition ub_check_and_connect (w : bus) (e i re : nat) : option (bool * bus) :=
  p ← get_port w e i; ru ← ents w !! re;
  if port_nums ru <=? Z.of_nat (r_index p) then Some (false, w)
  else
    rp ← ports ru !! r_index p;
    match r_uent rp with
    | Some _ => Some (false, w)
    | None => Some (true, ub_port_connect w e i re (r_index p))
    end.

Definition ub_port_disconnect (w : bus) (e i : nat) : option bus :=
  p ← get_port w e i;
  match r_uent p with
  | None => Some w
  | Some re =>
    _ ← get_port w re (r_index p);
    let w := alter_port w re (r_index p) (fun p => set_link p None (r_index p)) in
    Some (alter_port w e i (fun p => set_link p None (r_index p)))
  end.

(** The last link of the entity of [port] to that of its remote end. *)
Definition ublc_device_is_down (w : bus) (e i : nat) : option bool :=
  p ← get_port w e i; u ← ents w !! e;
  Some (forallb (fun '(k, t) => bool_decide (k = i) || negb (bool_decide (r_uent t = r_uent p))) (zip (seq 0 (length (ports u))) (ports u))).

(** ** Routes of a link *)

Section Link.
Context (kzalloc : nat -> bool) (START : Z).

Definition ublc_update_route_link_down (fuel : nat) (w : bus) (devs : list nat) (e i : nat) : option bus :=
  w ← on_port w e i (fun u => ub_route_clear_port u i);
  b ← forwards w e; w ← flood_if b (fun w => ub_route_del_bfs kzalloc fuel w e) w;
  Some (ub_route_sync_all START w devs).

Definition ublc_update_route_link_up (fuel : nat) (w : bus) (devs : list nat) (e i : nat) : option (Z * bus) :=
  p ← get_port w e i; re ← r_uent p; let ri := r_index p in
  '(r, w) ← ub_route_mod_neighbor kzalloc w e i re ri;
  if ctrue r then Some (r, w)
  else
    '(r, w) ← ub_route_mod_neighbor kzalloc w re ri e i;
    if ctrue r then Some (r, w)
    else
      b ← forwards w e; w ← flood_if b (fun w => ub_route_mod_bfs kzalloc fuel w e) w;
      b ← forwards w re; w ← flood_if b (fun w => ub_route_mod_bfs kzalloc fuel w re) w;
      Some (0, ub_route_sync_all START w devs).
End Link.

(** [ub_route_table_set_for_port] is the same for a port and its remote end. *)
Lemma link_up_same (kzalloc : nat -> bool) (START : Z) (fuel : nat) (w : bus) (devs : list nat) (e i re : nat) (p : ub_port) : get_port w e i = Some p -> r_uent p = Some re ->
  ublc_update_route_link_up kzalloc START fuel w devs e i = ub_route_table_set_for_port kzalloc START fuel w devs e i re (r_index p).
Proof. intros Hp Hre. unfold ublc_update_route_link_up. rewrite Hp. cbn [mbind option_bind]. by rewrite Hre. Qed.
Lemma link_down_ok (kzalloc : nat -> bool) (START : Z) (fuel : nat) (w : bus) (devs : list nat) (e i : nat) (u : ub_entity) : links_ok w -> bus_ok START w ->
  ents w !! e = Some u -> is_Some (ports u !! i) -> (flood_fuel w u <= fuel)%nat -> exists w1 w', ublc_update_route_link_down kzalloc START fuel w devs e i = Some w' /\
    w' = ub_route_sync_all START w1 devs /\ no_route w1 e i /\ fewer w w1 /\ bus_ok START w1 /\ bus_ok START w'.
Proof.
  intros Hl Hw Hu Hi Hf. unfold ublc_update_route_link_down. destruct (clear_step START w e i) as (w1 & -> & S1 & N1); [by exists u|]. cbn [mbind option_bind].
  destruct (flood_step kzalloc START fuel w w1 e u Hl S1 Hu Hf) as (b & w2 & -> & E2 & S2). cbn [mbind option_bind]. rewrite E2. cbn [mbind option_bind].
  destruct (shrinks_trans START _ _ _ S1 S2) as (_ & Hfw & Hok). exists w2, (ub_route_sync_all START w2 devs). split; [done|]. split; [done|].
  split; [eapply fewer_none; [apply S2|done]|]. split; [done|]. split; [by apply Hok|]. by apply sync_all_ok, Hok.
Qed.

(** ** Detached entities *)

(** The entities that carry [UB_ENTITY_DETACHED]. *)
Fixpoint mark_ports (l : list ub_port) (det : gset nat) (q : list nat) : gset nat * list nat :=
  match l with
  | [] => (det, q)
  | p :: l' =>
    match r_uent p with
    | None => mark_ports l' det q
    | Some v => if bool_decide (v ∈ det) then mark_ports l' det q else mark_ports l' ({[v]} ∪ det) (kfifo_put q v)
    end
  end.
Fixpoint mark_loop (fuel : nat) (w : bus) (det : gset nat) (q devs : list nat) : option (gset nat * list nat) :=
  match q with
  | [] => Some (det, devs)
  | e :: q =>
    match fuel with
    | O => None
    | S fuel' => u ← ents w !! e; let '(det, q) := mark_ports (ports u) det q in mark_loop fuel' w det q (devs ++ [e])
    end
  end.
(** The flags, and [dev_list]. *)
Definition ublc_mark_detached_devices (fuel : nat) (w : bus) (det : gset nat) (root : nat) : option (gset nat * list nat) :=
  mark_loop fuel w ({[root]} ∪ det) (kfifo_put [] root) [].

(** ** Links come in pairs *)

Definition paired (w : bus) : Prop := forall e i p re, get_port w e i = Some p -> r_uent p = Some re ->
  exists rp, get_port w re (r_index p) = Some rp /\ r_uent rp = Some e /\ r_index rp = i.

Lemma get_alter (w : bus) (e i e' i' : nat) (f : ub_port -> ub_port) :
  get_port (alter_port w e i f) e' i' = if bool_decide (e' = e /\ i' = i) then f <$> get_port w e i else get_port w e' i'.
Proof.
  unfold get_port, alter_port. cbn [ents]. destruct (decide (e' = e)) as [->|Hne].
  - rewrite list_lookup_alter_eq. destruct (ents w !! e) as [u|]; [|by destruct (bool_decide _)]. cbn [fmap option_fmap option_map mbind option_bind set_ports ports]. destruct (decide (i' = i)) as [->|Hni].
    + by rewrite bool_decide_eq_true_2, list_lookup_alter_eq.
    + rewrite bool_decide_eq_false_2 by tauto. by rewrite list_lookup_alter_ne.
  - rewrite list_lookup_alter_ne by done. by rewrite bool_decide_eq_false_2 by tauto.
Qed.

Lemma relinked_refl (l : list ub_entity) : Forall2 relinked l l.
Proof. apply Forall_Forall2_diag, Forall_forall. by intros u _. Qed.
Lemma relinked_trans (l l1 l2 : list ub_entity) : Forall2 relinked l l1 -> Forall2 relinked l1 l2 -> Forall2 relinked l l2.
Proof.
  apply Forall2_trans. intros u u1 u2 (A1 & A2 & A3 & A4 & A5 & A6 & A7) (B1 & B2 & B3 & B4 & B5 & B6 & B7). unfold relinked.
  split; [congruence|]. split; [congruence|]. split; [congruence|]. split; [congruence|]. split; [congruence|]. split; congruence.
Qed.
Lemma relinked_alter (w : bus) (e i : nat) (f : ub_port -> ub_port) : (forall p, p_cna (f p) = p_cna p /\ cna_maps (f p) = cna_maps p) ->
  Forall2 relinked (ents w) (ents (alter_port w e i f)).
Proof.
  intros Hf. unfold alter_port. cbn [ents]. generalize (ents w). intros l. revert e. induction l as [|u l IH]; intros e; [constructor|]. destruct e as [|e].
  - change (alter ?g O (u :: l)) with (g u :: l). constructor; [|apply relinked_refl]. do 6 (split; [done|]). cbn [set_ports ports]. generalize (ports u). clear -Hf.
    intros l. revert i. induction l as [|p l IH]; intros i; [done|]. destruct i as [|i].
    + change (alter ?g O (p :: l)) with (g p :: l). cbn [map]. by rewrite (proj1 (Hf p)), (proj2 (Hf p)).
    + change (alter ?g (S i) (p :: l)) with (p :: alter g i l). cbn [map]. by rewrite IH.
  - change (alter ?g (S e) (u :: l)) with (u :: alter g e l). constructor; [done|apply IH].
Qed.

(** Two ports differ. *)
Local Ltac other_port := let A := fresh in let B := fresh in intros [A B]; first [congruence | subst; intuition congruence].

Lemma connect_paired (w : bus) (e i re ri : nat) (p rp : ub_port) : paired w -> get_port w e i = Some p -> r_uent p = None ->
  get_port w re ri = Some rp -> r_uent rp = None -> paired (ub_port_connect w e i re ri).
Proof.
  intros Hw Hp Hpn Hrp Hrn. unfold ub_port_connect. intros a j q v Hq. rewrite !get_alter in Hq. revert Hq.
  assert (Hfree : forall b k s t, get_port w b k = Some s -> r_uent s = Some t -> (t, r_index s) <> (e, i) /\ (t, r_index s) <> (re, ri)).
  { intros b k s t Hs Ht. destruct (Hw b k s t Hs Ht) as (z & Hz & Hzu & _). split; intros [= -> E]; rewrite E in Hz; congruence. }
  destruct (decide (a = re /\ j = ri)) as [[-> ->]|Hn1].
  - rewrite (bool_decide_eq_true_2 (re = re /\ ri = ri)) by done. destruct (decide (re = e /\ ri = i)) as [[-> ->]|Hn].
    + rewrite (bool_decide_eq_true_2 (e = e /\ i = i)) by done. rewrite Hp. intros [= <-]. cbn [set_link r_uent r_index]. intros [= <-]. rewrite !get_alter. rewrite !bool_decide_eq_true_2 by done. rewrite Hp. by eexists.
    + rewrite (bool_decide_eq_false_2 (re = e /\ ri = i)) by done. rewrite Hrp. intros [= <-]. cbn [set_link r_uent r_index]. intros [= <-]. rewrite !get_alter. rewrite bool_decide_eq_false_2 by other_port.
      rewrite bool_decide_eq_true_2 by done. rewrite Hp. by eexists.
  - rewrite bool_decide_eq_false_2 by done. destruct (decide (a = e /\ j = i)) as [[-> ->]|Hn2].
    + rewrite bool_decide_eq_true_2 by done. rewrite Hp. intros [= <-]. cbn [set_link r_uent r_index]. intros [= <-]. rewrite !get_alter.
      rewrite bool_decide_eq_true_2 by done. rewrite bool_decide_eq_false_2 by other_port. rewrite Hrp. by eexists.
    + rewrite bool_decide_eq_false_2 by done. intros Hq Hv. destruct (Hfree a j q v Hq Hv) as [F1 F2]. rewrite !get_alter.
      rewrite bool_decide_eq_false_2 by other_port. rewrite bool_decide_eq_false_2 by other_port. by apply Hw.
Qed.

Lemma disconnect_paired (w : bus) (e i re : nat) (p : ub_port) : paired w -> get_port w e i = Some p -> r_uent p = Some re ->
  paired (alter_port (alter_port w re (r_index p) (fun p => set_link p None (r_index p))) e i (fun p => set_link p None (r_index p))).
Proof.
  intros Hw Hp Hre a j q v Hq. destruct (Hw e i p re Hp Hre) as (rp & Hrp & Hrpu & Hrpi). rewrite !get_alter in Hq. revert Hq.
  destruct (decide (a = e /\ j = i)) as [[-> ->]|Hn1].
  - rewrite (bool_decide_eq_true_2 (e = e /\ i = i)) by done. destruct (bool_decide _); rewrite ?Hrp, ?Hp; by intros [= <-].
  - rewrite (bool_decide_eq_false_2 (a = e /\ j = i)) by done. destruct (decide (a = re /\ j = r_index p)) as [Ha|Hn2].
    + rewrite bool_decide_eq_true_2 by done. rewrite Hrp. by intros [= <-].
    + rewrite bool_decide_eq_false_2 by done. intros Hq Hv. destruct (Hw a j q v Hq Hv) as (z & Hz & Hzu & Hzi). exists z. split; [|done]. rewrite !get_alter.
      rewrite bool_decide_eq_false_2, bool_decide_eq_false_2; [done| |].
      * intros [-> E]. rewrite E in Hz. rewrite Hrp in Hz. injection Hz as <-. apply Hn1. split; congruence.
      * intros [-> E]. rewrite E in Hz. rewrite Hp in Hz. injection Hz as <-. apply Hn2. split; congruence.
Qed.

(** links come in pairs, and stay so: [ub_check_and_connect], on a port without a link, connects it to the
    port that its remote index names exactly if that port exists and has no link, and changes nothing
    otherwise; [ub_port_disconnect] clears both ends.  Neither changes a route. *)
Theorem link_pairs_spec (w : bus) (e i : nat) (p : ub_port) : paired w -> get_port w e i = Some p ->
  (forall re ru, r_uent p = None -> ents w !! re = Some ru -> exists b w', ub_check_and_connect w e i re = Some (b, w') /\ paired w' /\ Forall2 relinked (ents w) (ents w') /\
    (b = true <-> exists rp, get_port w re (r_index p) = Some rp /\ r_uent rp = None) /\ (b = false -> w' = w) /\
    (b = true -> exists p', get_port w' e i = Some p' /\ r_uent p' = Some re /\ r_index p' = r_index p)) /\
  (exists w' p', ub_port_disconnect w e i = Some w' /\ paired w' /\ Forall2 relinked (ents w) (ents w') /\ get_port w' e i = Some p' /\ r_uent p' = None /\
    forall re, r_uent p = Some re -> exists rp', get_port w' re (r_index p) = Some rp' /\ r_uent rp' = None).
Proof.
  intros Hw Hp. split.
  - intros re ru Hn Hru. unfold ub_check_and_connect. rewrite Hp. cbn [mbind option_bind]. rewrite Hru. cbn [mbind option_bind].
    assert (Hget : get_port w re (r_index p) = ports ru !! r_index p) by (unfold get_port; by rewrite Hru).
    destruct (Z.leb_spec (port_nums ru) (Z.of_nat (r_index p))) as [Hle|Hlt].
    { exists false, w. split; [done|]. split; [done|]. split; [apply relinked_refl|]. split; [|done]. split; [done|]. intros (rp & Hrp & _).
      rewrite Hget in Hrp. apply lookup_lt_Some in Hrp. unfold port_nums in Hle. lia. }
    destruct (lookup_lt_is_Some_2 (ports ru) (r_index p)) as [rp Hrp]; [unfold port_nums in Hlt; lia|]. rewrite Hrp. cbn [mbind option_bind]. rewrite Hrp in Hget.
    destruct (r_uent rp) as [v|] eqn:Erp.
    { exists false, w. split; [done|]. split; [done|]. split; [apply relinked_refl|]. split; [|done]. split; [done|]. intros (rp' & Hrp' & Hn'). congruence. }
    eexists true, _. split; [done|]. split; [by eapply connect_paired|]. split; [|split; [|split; [done|]]].
    + unfold ub_port_connect. eapply relinked_trans; by apply relinked_alter.
    + split; [|done]. intros _. by exists rp.
    + intros _. unfold ub_port_connect. rewrite get_alter, get_alter, get_alter. rewrite (bool_decide_eq_true_2 (e = e /\ i = i)) by done.
      destruct (bool_decide_reflect (e = re /\ i = r_index p)) as [[-> E]|Hne].
      * rewrite <- E. rewrite bool_decide_eq_true_2, Hp by done. by eexists.
      * rewrite Hp. by eexists.
  - unfold ub_port_disconnect. rewrite Hp. cbn [mbind option_bind]. destruct (r_uent p) as [re|] eqn:Ep.
    + destruct (Hw e i p re Hp Ep) as (rp & Hrp & _). rewrite Hrp. cbn [mbind option_bind]. eexists _, (set_link p None (r_index p)). split; [done|]. split; [by apply disconnect_paired|].
      split; [eapply relinked_trans; by apply relinked_alter|]. rewrite !get_alter. rewrite (bool_decide_eq_true_2 (e = e /\ i = i)) by done.
      destruct (bool_decide_reflect (e = re /\ i = r_index p)) as [[E1 E2]|Hne].
      * assert (rp = p) as -> by congruence. rewrite Hrp. split; [reflexivity|]. split; [done|]. intros re' [= <-]. rewrite !get_alter. rewrite <- E1, <- E2 in *. rewrite !bool_decide_eq_true_2, Hp by done. by eexists.
      * rewrite Hp. split; [reflexivity|]. split; [done|]. intros re' [= <-]. rewrite !get_alter. rewrite bool_decide_eq_false_2 by other_port.
        rewrite bool_decide_eq_true_2, Hrp by done. by eexists.
    + exists w, p. split; [done|]. split; [done|]. split; [apply relinked_refl|]. done.
Qed.

(** ** The entities behind a lost link *)

Definition linked (w : bus) (x y : nat) : Prop := exists u p, ents w !! x = Some u /\ p ∈ ports u /\ r_uent p = Some y.
(** A link to an entity that is not yet detached. *)
Definition fresh_link (w : bus) (det : gset nat) (x y : nat) : Prop := linked w x y /\ y ∉ det.

Section Detach.
Context (w : bus) (D0 : gset nat) (root : nat).
Hypothesis Hlinks : forall x y, linked w x y -> is_Some (ents w !! y).

(** Between two entities taken from the queue: [devs] were taken, [q] waits. *)
Record mark_inv (det : gset nat) (q devs : list nat) : Prop := {
  mi_once : NoDup (devs ++ q);
  mi_in : forall x, x ∈ devs ++ q -> x ∈ det /\ is_Some (ents w !! x) /\ rtc (fresh_link w D0) root x;
  mi_first : D0 ⊆ det;
  mi_reach : forall x, x ∈ det -> x ∈ D0 \/ rtc (fresh_link w D0) root x;
  mi_small : (length (ents w) <= 17)%nat -> forall x, x ∈ det -> x ∈ D0 \/ x ∈ devs ++ q;
}.

Lemma once_bound (l : list nat) : NoDup l -> (forall x, x ∈ l -> is_Some (ents w !! x)) -> (length l <= length (ents w))%nat.
Proof.
  intros Hd Hl. rewrite <- (length_seq (length (ents w)) 0). apply submseteq_length, NoDup_submseteq; [done|].
  intros x Hx%Hl. rewrite lookup_lt_is_Some in Hx. apply elem_of_seq. lia.
Qed.

Lemma mark_ports_ok (e : nat) (u : ub_entity) (l : list ub_port) : ents w !! e = Some u -> (forall p, p ∈ l -> p ∈ ports u) -> forall det q devs, e ∈ devs ->
  mark_inv det q devs -> let '(det', q') := mark_ports l det q in mark_inv det' q' devs /\ det ⊆ det' /\ forall p v, p ∈ l -> r_uent p = Some v -> v ∈ det'.
Proof.
  intros Hu. induction l as [|p l IH]; intros Hl det q devs He Hi; cbn [mark_ports]; [split; [done|]; split; [done|]; by intros p v ?%not_elem_of_nil|].
  specialize (IH ltac:(intros p' Hp'; apply Hl; by right)). assert (Hp : p ∈ ports u) by (apply Hl; by left). destruct (r_uent p) as [v|] eqn:Ev.
  2: { specialize (IH det q devs He Hi). destruct (mark_ports l det q) as [det' q']. destruct IH as (H1 & H2 & H3). split; [done|]. split; [done|].
       intros p' v' [->|Hp']%elem_of_cons Hv'; [congruence|by eapply H3]. }
  destruct (bool_decide_reflect (v ∈ det)) as [Hin|Hout].
  { specialize (IH det q devs He Hi). destruct (mark_ports l det q) as [det' q']. destruct IH as (H1 & H2 & H3). split; [done|]. split; [done|].
    intros p' v' [->|Hp']%elem_of_cons Hv'; [|by eapply H3]. apply H2. congruence. }
  destruct Hi as [I1 I2 I3 I4 I6]. assert (Hlk : linked w e v) by (by exists u, p). pose proof (Hlinks e v Hlk) as Hv.
  assert (Hrt : rtc (fresh_link w D0) root v).
  { eapply rtc_r; [apply (I2 e), elem_of_app; by left|]. split; [done|]. intros Hd. by apply Hout, I3. }
  assert (Hvn : v ∉ devs ++ q) by (intros Hd; by apply Hout, I2).
  assert (Hi' : mark_inv ({[v]} ∪ det) (kfifo_put q v) devs).
  { unfold kfifo_put, UB_ROUTE_KFIFO_DEPTH. destruct (Nat.ltb_spec (length q) 16) as [Hlt|Hfull].
    - split.
      + rewrite app_assoc, NoDup_app. split; [done|]. split; [|apply NoDup_singleton]. intros x Hx ->%list_elem_of_singleton. done.
      + intros x Hx. rewrite app_assoc, elem_of_app, list_elem_of_singleton in Hx. rewrite elem_of_union, elem_of_singleton. destruct Hx as [Hx| ->]; [|by split; [left|]].
        destruct (I2 x Hx) as (A & B & C). by split; [right|].
      + intros x Hx. apply elem_of_union. right. by apply I3.
      + intros x [->%elem_of_singleton|Hx]%elem_of_union; [by right|by apply I4].
      + intros Hs x [->%elem_of_singleton|Hx]%elem_of_union; rewrite app_assoc; [right; apply elem_of_app; right; by left|].
        destruct (I6 Hs x Hx); [by left|right; apply elem_of_app; by left].
    - split; [done| | | |].
      + intros x Hx. destruct (I2 x Hx) as (A & B & C). split; [|done]. apply elem_of_union. by right.
      + intros x Hx. apply elem_of_union. right. by apply I3.
      + intros x [->%elem_of_singleton|Hx]%elem_of_union; [by right|by apply I4].
      + intros Hs. exfalso. assert (Hb : (length (v :: devs ++ q) <= length (ents w))%nat).
        { apply once_bound; [by constructor|]. intros x [->|Hx]%elem_of_cons; [done|by apply I2]. }
        cbn [length] in Hb. rewrite length_app in Hb. destruct devs as [|d devs]; [by apply not_elem_of_nil in He|]. cbn [length] in Hb. lia. }
  specialize (IH _ _ devs He Hi'). destruct (mark_ports l ({[v]} ∪ det) (kfifo_put q v)) as [det' q']. destruct IH as (H1 & H2 & H3).
  split; [done|]. split; [intros x Hx; apply H2, elem_of_union; by right|]. intros p' v' [->|Hp']%elem_of_cons Hv'; [|by eapply H3].
  apply H2, elem_of_union. left. apply elem_of_singleton. congruence.
Qed.

Lemma mark_loop_ok (fuel : nat) : forall det q devs, mark_inv det q devs -> (forall x y, x ∈ devs -> linked w x y -> y ∈ det) -> (length (ents w) <= fuel + length devs)%nat ->
  exists det' devs', mark_loop fuel w det q devs = Some (det', devs') /\ mark_inv det' [] devs' /\ (forall x y, x ∈ devs' -> linked w x y -> y ∈ det') /\ (forall x, x ∈ devs ++ q -> x ∈ devs').
Proof.
  induction fuel as [|fuel IH]; intros det q devs Hi Hcl Hf.
  - destruct q as [|e q]; [exists det, devs; rewrite app_nil_r; done|]. pose proof (once_bound _ (mi_once _ _ _ Hi) ltac:(intros x Hx; by apply (mi_in _ _ _ Hi))) as Hb.
    rewrite length_app in Hb. cbn [length] in Hb. lia.
  - destruct q as [|e q]; cbn [mark_loop]; [exists det, devs; rewrite app_nil_r; done|].
    destruct (mi_in _ _ _ Hi e) as (_ & [u Hu] & _); [apply elem_of_app; right; by left|]. rewrite Hu. cbn [mbind option_bind].
    assert (Hi1 : mark_inv det q (devs ++ [e])) by (destruct Hi as [I1 I2 I3 I4 I6]; split; rewrite <- ?app_assoc; done).
    pose proof (mark_ports_ok e u (ports u) Hu ltac:(done) det q (devs ++ [e]) ltac:(apply elem_of_app; right; by left) Hi1) as Hmp.
    destruct (mark_ports (ports u) det q) as [det1 q1] eqn:Emp. destruct Hmp as (H1 & H2 & H3).
    destruct (IH det1 q1 (devs ++ [e]) H1) as (det' & devs' & E & G1 & G2 & G3); [|rewrite length_app; cbn [length]; lia|].
    + intros x y [Hx| ->%list_elem_of_singleton]%elem_of_app Hxy; [by eapply H2, Hcl|]. destruct Hxy as (u' & p & Hu' & Hp & Hy). rewrite Hu in Hu'. injection Hu' as <-. by eapply H3.
    + exists det', devs'. split; [done|]. split; [done|]. split; [done|]. intros x Hx. apply G3. apply elem_of_app in Hx as [Hx|[->|Hx]%elem_of_cons].
      * apply elem_of_app. left. apply elem_of_app. by left.
      * apply elem_of_app. left. apply elem_of_app. right. by left.
      * apply elem_of_app. right. clear -Hx Emp. revert det q Hx Emp. induction (ports u) as [|p l IHl]; intros det q Hx; cbn [mark_ports]; [by intros [= _ <-]|].
        destruct (r_uent p) as [v|]; [|by apply IHl]. destruct (bool_decide _); [by apply IHl|]. apply IHl. unfold kfifo_put. destruct (_ <? _)%nat; [|done]. apply elem_of_app. by left.
Qed.
End Detach.

(** C39: [ublc_mark_detached_devices] ends, visits each entity at most once, and every neighbour of an entity
    it puts on the list is marked as detached; on a bus of at most 17 entities the list is exactly
    what the root reaches over links to entities that were not detached, and these are exactly the
    entities it marks. *)
Theorem mark_detached_spec (w : bus) (D0 : gset nat) (root fuel : nat) : links_ok w -> is_Some (ents w !! root) -> (length (ents w) <= fuel)%nat ->
  exists det devs, ublc_mark_detached_devices fuel w D0 root = Some (det, devs) /\ NoDup devs /\ root ∈ devs /\ D0 ⊆ det /\
    (forall x, x ∈ devs -> x ∈ det /\ rtc (fresh_link w D0) root x) /\ (forall x y, x ∈ devs -> linked w x y -> y ∈ det) /\
    ((length (ents w) <= 17)%nat -> forall x, (x ∈ devs <-> rtc (fresh_link w D0) root x) /\ (x ∈ det <-> x ∈ D0 \/ rtc (fresh_link w D0) root x)).
Proof.
  intros Hl Hr Hf. assert (Hlinks : forall x y, linked w x y -> is_Some (ents w !! y)).
  { intros x y (u & p & Hu & [i Hi]%list_elem_of_lookup & Hy). destruct (Hl x u i p y Hu Hi Hy) as (ru & Hru & _). by eexists. }
  assert (Hi : mark_inv w D0 root ({[root]} ∪ D0) [root] []).
  { split; cbn [app].
    - apply NoDup_singleton.
    - intros x ->%list_elem_of_singleton. split; [apply elem_of_union; left; by apply elem_of_singleton|]. split; [done|apply rtc_refl].
    - intros x Hx. apply elem_of_union. by right.
    - intros x [->%elem_of_singleton|Hx]%elem_of_union; [right; apply rtc_refl|by left].
    - intros _ x [->%elem_of_singleton|Hx]%elem_of_union; [right; by left|by left]. }
  unfold ublc_mark_detached_devices. change (kfifo_put [] root) with [root].
  destruct (mark_loop_ok w D0 root Hlinks fuel _ _ _ Hi) as (det & devs & E & [G1 G2 G3 G4 G6] & Hcl & Hin); [by intros x y ?%not_elem_of_nil|cbn [length]; lia|].
  rewrite app_nil_r in *. exists det, devs. split; [done|]. split; [done|]. assert (Hroot : root ∈ devs) by (apply Hin; by left).
  split; [done|]. split; [done|]. split; [intros x Hx; by destruct (G2 x Hx) as (? & _ & ?)|]. split; [done|]. intros Hs x.
  assert (Hall : rtc (fresh_link w D0) root x -> x ∈ devs).
  { revert Hroot. clear -G6 Hcl Hs. intros Ha Hx. induction Hx as [|a b c [Hab Hb] _ IH]; [done|]. destruct (G6 Hs b (Hcl a b Ha Hab)) as [?|?]; [done|]. by apply IH. }
  split; [split; [|done]; intros Hx; by apply (G2 x Hx)|]. split; [apply G4|]. intros [Hx|Hx]; [by apply G3|]. by apply (G2 x (Hall Hx)).
Qed.

(** A bus of 18 entities: the first has a link to each of the others. *)
Definition star : bus := {| ents :=
  mkent 1 switch (map (fun k => mkport 0 (Some (S k)) 0) (seq 0 17)) :: map (fun k => mkent (Z.of_nat k) other [mkport 0 (Some O) k]) (seq 0 17); allocs := 0 |}.

(** On a larger bus entities are lost: the queue holds 16, so of 17 neighbours the last is marked as detached,
    but never put on the list, and nothing stops or removes it. *)
Theorem mark_detached_drops : match ublc_mark_detached_devices 100 star ∅ 0 with
  | Some (det, devs) => bool_decide (17%nat ∈ det) = true /\ bool_decide (17%nat ∈ devs) = false /\ devs = seq 0 17
  | None => False
  end.
Proof. vm_compute. done. Qed.

Lemma mark_detached_spec_witness : exists det devs, ublc_mark_detached_devices 3 topo {[0%nat]} 1 = Some (det, devs) /\ 2%nat ∈ devs /\ 0%nat ∉ devs.
Proof.
  destruct (mark_detached_spec topo {[0%nat]} 1 3) as (det & devs & E & _ & _ & _ & _ & _ & H).
  - apply links_checked. vm_compute. reflexivity.
  - by eexists.
  - cbn. lia.
  - exists det, devs. split; [exact E|]. specialize (H ltac:(cbn; lia)). split.
    + apply H. apply rtc_once. split; [|by apply not_elem_of_singleton]. by eexists _, _; split; [reflexivity|]; split; [right; left|].
    + intros H0%H. apply rtc_inv_r in H0 as [?|(z & _ & [_ Hz])]; [done|]. by apply Hz, elem_of_singleton.
Defined.

Definition paired_check (w : bus) : bool := forallb (fun e => match ents w !! e with None => true | Some u => forallb (fun i => match ports u !! i with
  | Some p => match r_uent p with None => true | Some re => match get_port w re (r_index p) with
      | Some rp => bool_decide (r_uent rp = Some e /\ r_index rp = i) | None => false end end
  | None => true end) (seq 0 (length (ports u))) end) (seq 0 (length (ents w))).
Lemma paired_checked (w : bus) : paired_check w = true -> paired w.
Proof.
  intros H e i p re Hp Hre. unfold get_port in Hp. destruct (ents w !! e) as [u|] eqn:Hu; [|done]. cbn [mbind option_bind] in Hp.
  unfold paired_check in H. rewrite forallb_forall in H. specialize (H e ltac:(apply in_seq; apply lookup_lt_Some in Hu; lia)). rewrite Hu, forallb_forall in H.
  specialize (H i ltac:(apply in_seq; apply lookup_lt_Some in Hp; lia)). rewrite Hp, Hre in H. destruct (get_port w re (r_index p)) as [rp|]; [|done].
  exists rp. split; [done|]. by apply bool_decide_eq_true in H.
Qed.

Lemma link_pairs_spec_witness : exists w' p', ub_port_disconnect topo 0 0 = Some w' /\ paired w' /\ get_port w' 0 0 = Some p' /\ r_uent p' = None.
Proof.
  destruct (link_pairs_spec topo 0 0 (mkport 11 (Some 1%nat) 0)) as [_ (w' & p' & E & H1 & _ & H2 & H3 & _)].
  - apply paired_checked. vm_compute. reflexivity.
  - reflexivity.
  - exists w', p'. split; [exact E|]. split; [exact H1|]. split; [exact H2|exact H3].
Defined.
