(* ===== verification/UbEnum.v ===== *)
(** * Routes of newly enumerated entities

    [ub_enum_bfs_route_cal] of [drivers/ub/ubus/enum.c]: from each new entity a breadth-first search over the
    links finds the shortest ways to the other new ones, and its ports learn the addresses behind
    them.  The search keeps the state of an entity in an array, at the index of its address in a
    second array, and counts the entries of the queue that belong to the current and to the next
    layer.  An entity that several shortest ways reach is queued once for each of them, so that all
    of their first ports learn what lies behind it. *)

From S2P Require Import Prelude UbRoute.

Definition BFS_UNVISITED : Z := 0.
Definition BFS_VISITED : Z := 1.
Definition BFS_VISITING : Z := 2.

Definition ONE_CNA (u : ub_entity) : bool := match u_kind u with switch => true | _ => false end || (port_nums u =? 1).

Fixpoint index_from (i : nat) (l : list Z) (cna : Z) : option nat :=
  match l with [] => None | x :: l' => if x =? cna then Some i else index_from (S i) l' cna end.
(** 0 if it is not there. *)
Definition cna2index (cna_map : list Z) (cna : Z) : nat := match index_from 0 cna_map cna with Some i => i | None => O end.

Section Enum.
(** Whether the [n]-th allocation of a node succeeds; the elements of the queue. *)
Context (kzalloc : nat -> bool) (SIZE : nat).
(** [bfs_route.cna_map]; the entities with [UB_ENTITY_DETACHED]. *)
Context (cna_map : list Z) (det : gset nat).

Abbreviation index u := (cna2index cna_map (u_cna u)).
(** [struct bfs_port_path]: the port of the source, if any, and the entity. *)
Abbreviation path := (option nat * nat)%type.

Definition put_path (q : list path) (x : path) : bool * list path := if (length q <? SIZE)%nat then (true, q ++ [x]) else (false, q).

(** The queue, and whether it grew. *)
Definition bfs_route_test_and_put (q : list path) (s : nat) (v : nat) (u : ub_entity) : Z * list path :=
  if negb (match u_kind u with switch | controller => true | other => false end) then (0, q)
  else if port_nums u =? 1 then (0, q)
  else let '(ok, q) := put_path q (Some s, v) in if ok then (1, q) else (0, q).

Definition ub_enum_bfs_layer_update (visited : list Z) : list Z := map (fun x => if x =? BFS_VISITING then BFS_VISITED else x) visited.

(** The routes that the port [s] of [u] learns from the link to the port [j] of [rdev]. *)
Definition learn (n : nat) (u : ub_entity) (s : nat) (rdev : ub_entity) (j : nat) (layer : Z) : option (ub_entity * nat) :=
  let '(_, u, n) := ub_route_add_entry kzalloc n u s (u_cna rdev) (layer + 1) in
  if ONE_CNA rdev then Some (set_updated u true, n)
  else rport ← ports rdev !! j; let '(_, u, n) := ub_route_add_entry kzalloc n u s (p_cna rport) (layer + 1) in Some (set_updated u true, n).

(** What the search carries. *)
Record bfs := { b_bus : bus; b_visited : list Z; b_queue : list path; b_next : Z }.

(** The loop over the ports, [l] from the [k]-th on; [ldev] is the source. *)
Fixpoint bfs_ports (ldev : nat) (layer : Z) (s_port : option nat) (k : nat) (l : list ub_port) (b : bfs) : option bfs :=
  match l with
  | [] => Some b
  | p :: l' =>
    let skip := bfs_ports ldev layer s_port (S k) l' b in
    if p_cna p =? 0 then skip
    else match r_uent p with
    | None => skip
    | Some v =>
      rdev ← get_ent (b_bus b) v;
      st ← b_visited b !! index rdev;
      if st =? BFS_VISITED then skip
      else if negb (bool_decide (v ∈ det)) then skip
      else
        let s := match s_port with Some s => s | None => k end in
        u ← get_ent (b_bus b) ldev; _ ← ports u !! s;
        '(u, n) ← learn (allocs (b_bus b)) u s rdev (r_index p) layer;
        let '(d, q) := bfs_route_test_and_put (b_queue b) s v rdev in
        bfs_ports ldev layer s_port (S k) l' {|
          b_bus := put_ent (b_bus b) ldev u n; b_visited := <[index rdev := BFS_VISITING]> (b_visited b);
          b_queue := q; b_next := b_next b + d |}
    end
  end.

Fixpoint bfs_loop (fuel : nat) (ldev : nat) (b : bfs) (curr layer : Z) : option bus :=
  match b_queue b with
  | [] => Some (b_bus b)
  | (s_port, x) :: q =>
    match fuel with
    | O => None
    | S fuel' =>
      u ← get_ent (b_bus b) x;
      b ← bfs_ports ldev layer s_port 0 (ports u) {| b_bus := b_bus b; b_visited := b_visited b; b_queue := q; b_next := b_next b |};
      if curr - 1 =? 0
      then bfs_loop fuel' ldev {| b_bus := b_bus b; b_visited := ub_enum_bfs_layer_update (b_visited b); b_queue := b_queue b; b_next := 0 |} (b_next b) (layer + 1)
      else bfs_loop fuel' ldev b (curr - 1) layer
    end
  end.

(** [visited] was cleared. *)
Definition ub_enum_bfs_route_dev (fuel : nat) (w : bus) (ldev : nat) : option bus :=
  u ← get_ent w ldev;
  let visited := replicate (length cna_map) BFS_UNVISITED in
  _ ← visited !! index u;
  let '(_, q) := put_path [] (None, ldev) in
  bfs_loop fuel ldev {| b_bus := w; b_visited := <[index u := BFS_VISITED]> visited; b_queue := q; b_next := 0 |} 1 0.

Fixpoint ub_enum_bfs_route_core (fuel : nat) (w : bus) (dev_list : list nat) : option bus :=
  match dev_list with
  | [] => Some w
  | e :: l =>
    u ← get_ent w e;
    if port_nums u =? 1 then ub_enum_bfs_route_core fuel w l
    else w ← ub_enum_bfs_route_dev fuel w e; ub_enum_bfs_route_core fuel w l
  end.
End Enum.

(** [cna_map]: the address of each entity and, if it has more than one, those of its ports. *)
Fixpoint ub_bfs_set_cna_map (w : bus) (dev_list : list nat) : option (list Z) :=
  match dev_list with
  | [] => Some []
  | e :: l => u ← get_ent w e; m ← ub_bfs_set_cna_map w l; Some (u_cna u :: (if ONE_CNA u then [] else map p_cna (ports u)) ++ m)
  end.

(** [ok] tells which of the three allocations succeed; [SZ_4K] elements in the queue. *)
Definition ub_enum_bfs_route_cal (kzalloc : nat -> bool) (ok : nat -> bool) (det : gset nat) (fuel : nat) (w : bus) (dev_list : list nat) : option (Z * bus) :=
  if negb (ok 0%nat) then Some (- ENOMEM, w)
  else
    m ← ub_bfs_set_cna_map w dev_list;
    if negb (ok 1%nat) then Some (- ENOMEM, w)
    else if negb (ok 2%nat) then Some (- ENOMEM, w)
    else w ← ub_enum_bfs_route_core kzalloc (Z.to_nat 4096) m det fuel w dev_list; Some (0, w).
