(* ===== verification/UbEnumRef.v ===== *)
(** * Routes of newly enumerated entities: the reference search

    The search layer by layer, without a queue that can overflow and without arrays; its layers are exactly
    the shortest ways. *)

From S2P Require Import Prelude UbRoute UbRouteInv UbRouteEnt UbRouteBus UbEnum.

(** ** Ways *)

Definition may_forward (u : ub_entity) : bool := match u_kind u with switch | controller => true | other => false end && negb (port_nums u =? 1).

Section Ways.
Context (det : gset nat) (w : bus) (ldev : nat).

(** The port [k] of [x] has a link to the port [j] of the detached entity [v]. *)
Definition hop (x k v j : nat) : Prop := exists u p, ents w !! x = Some u /\ ports u !! k = Some p /\ p_cna p <> 0 /\ r_uent p = Some v /\ r_index p = j /\ v ∈ det.
Definition forwarder (x : nat) : Prop := exists u, ents w !! x = Some u /\ may_forward u = true.

(** A way of [n] links from the port [s] of the source to the port [j] of [v], over entities that forward. *)
Inductive way (s : nat) : nat -> nat -> nat -> Prop :=
  | way_one v j : hop ldev s v j -> way s 1 v j
  | way_more n x i k v j : way s n x i -> forwarder x -> hop x k v j -> way s (S n) v j.

(** At most [n] links away. *)
Definition near (n v : nat) : Prop := v = ldev \/ exists m s j, (m <= n)%nat /\ way s m v j.

Lemma way_pos (s n v j : nat) : way s n v j -> (1 <= n)%nat.
Proof. destruct 1; lia. Qed.
Lemma near_le (n m v : nat) : (n <= m)%nat -> near n v -> near m v.
Proof. intros Hle [->|(k & s & j & Hk & Hw)]; [by left|]. right. exists k, s, j. split; [lia|done]. Qed.
Lemma near_zero (v : nat) : near 0 v <-> v = ldev.
Proof. split; [|by left]. intros [?|(m & s & j & Hm & Hw)]; [done|]. apply way_pos in Hw. lia. Qed.
Lemma near_step (n v : nat) : near (S n) v <-> near n v \/ exists s j, way s (S n) v j.
Proof.
  split.
  - intros [?|(m & s & j & Hm & Hw)]; [left; by left|]. destruct (decide (m = S n)) as [->|Hne]; [right; by exists s, j|]. left. right. exists m, s, j. split; [lia|done].
  - intros [Hn|(s & j & Hw)]; [by eapply near_le; [|exact Hn]; lia|]. right. exists (S n), s, j. done.
Qed.
(** One link further. *)
Lemma near_hop (n x k v j : nat) : near n x -> forwarder x \/ x = ldev -> hop x k v j -> near (S n) v.
Proof.
  intros Hn Hf Hh. destruct Hn as [->|(m & s & i & Hm & Hw)].
  - right. exists 1%nat, k, j. split; [lia|]. by apply way_one.
  - destruct Hf as [Hf| ->].
    + right. exists (S m), s, j. split; [lia|]. by eapply way_more.
    + right. exists 1%nat, k, j. split; [lia|]. by apply way_one.
Qed.

(** ** The layers *)

Abbreviation path := (option nat * nat)%type.
(** A step of the search: the port of the source, the entity and the port it is reached at. *)
Abbreviation news := (list (nat * nat * nat)).

Fixpoint news_ports (V : gset nat) (s_port : option nat) (k : nat) (l : list ub_port) : news :=
  match l with
  | [] => []
  | p :: l' =>
    let rest := news_ports V s_port (S k) l' in
    if p_cna p =? 0 then rest
    else match r_uent p with
    | None => rest
    | Some v => if bool_decide (v ∈ V) then rest else if negb (bool_decide (v ∈ det)) then rest
                else (match s_port with Some s => s | None => k end, v, r_index p) :: rest
    end
  end.
Definition news_of (V : gset nat) (a : path) : news := match ents w !! snd a with Some u => news_ports V (fst a) 0 (ports u) | None => [] end.
Definition onward (N : news) : list path :=
  omap (fun '(s, v, _) => match ents w !! v with Some u => if may_forward u then Some (Some s, v) else None | None => None end) N.
Definition seen (V : gset nat) (N : news) : gset nat := list_to_set (map (fun '(_, v, _) => v) N) ∪ V.

(** The entities that are at most [n] links away, and the queue of the layer [n]. *)
Fixpoint layer (n : nat) : gset nat * list path :=
  match n with
  | O => ({[ldev]}, [(None, ldev)])
  | S n' => let '(V, Q) := layer n' in let N := mbind (news_of V) Q in (seen V N, onward N)
  end.
Definition layer_news (n : nat) : news := let '(V, Q) := layer n in mbind (news_of V) Q.

Lemma layer_succ (n : nat) : layer (S n) = (seen (fst (layer n)) (layer_news n), onward (layer_news n)).
Proof. unfold layer_news. cbn [layer]. by destruct (layer n). Qed.

Lemma news_ports_spec (V : gset nat) (so : option nat) (s v j : nat) (l : list ub_port) : forall k0, (s, v, j) ∈ news_ports V so k0 l <->
  exists k p, l !! k = Some p /\ p_cna p <> 0 /\ r_uent p = Some v /\ r_index p = j /\ v ∈ det /\ (v ∉ V) /\ s = match so with Some s => s | None => (k0 + k)%nat end.
Proof.
  induction l as [|p l IH]; intros k0; cbn [news_ports].
  { split; [by intros ?%not_elem_of_nil|]. by intros (k & p & Hk & _). }
  assert (Hrest : (s, v, j) ∈ news_ports V so (S k0) l <-> exists k q, (p :: l) !! S k = Some q /\ p_cna q <> 0 /\ r_uent q = Some v /\ r_index q = j /\ v ∈ det /\ (v ∉ V) /\
    s = match so with Some s => s | None => (k0 + S k)%nat end).
  { rewrite IH. split; intros (k & q & H1 & H2 & H3 & H4 & H5 & H6 & H7); exists k, q; do 6 (split; [done|]); rewrite H7; destruct so; lia. }
  assert (Hskip : (forall q, p = q -> p_cna q <> 0 -> r_uent q = Some v -> r_index q = j -> v ∈ det -> v ∉ V -> False) ->
    (s, v, j) ∈ news_ports V so (S k0) l <-> exists k q, (p :: l) !! k = Some q /\ p_cna q <> 0 /\ r_uent q = Some v /\ r_index q = j /\ v ∈ det /\ (v ∉ V) /\
    s = match so with Some s => s | None => (k0 + k)%nat end).
  { intros Hno. rewrite Hrest. split; [intros (k & q & H); by exists (S k), q|]. intros ([|k] & q & H1 & H2 & H3 & H4 & H5 & H6 & H7); [|by exists k, q].
    exfalso. injection H1 as H1. by apply (Hno q). }
  destruct (Z.eqb_spec (p_cna p) 0) as [E0|E0]; [apply Hskip; intros q <-; done|]. destruct (r_uent p) as [v'|] eqn:Ev; [|apply Hskip; intros q <-; congruence].
  destruct (bool_decide_reflect (v' ∈ V)) as [HV|HV]; [apply Hskip; intros q <-; congruence|].
  destruct (bool_decide_reflect (v' ∈ det)) as [HD|HD]; cbn [negb]; [|apply Hskip; intros q <-; congruence].
  rewrite elem_of_cons, Hrest. split.
  - intros [[= -> -> ->]|(k & q & H)]; [|by exists (S k), q]. exists O, p. do 6 (split; [done|]). destruct so; [done|lia].
  - intros ([|k] & q & H1 & H2 & H3 & H4 & H5 & H6 & H7); [|right; by exists k, q]. left. injection H1 as <-. rewrite Ev in H3. injection H3 as <-. subst.
    destruct so; [done|]. by rewrite Nat.add_0_r.
Qed.
Lemma news_of_spec (V : gset nat) (so : option nat) (x s v j : nat) : (s, v, j) ∈ news_of V (so, x) <->
  exists k, hop x k v j /\ (v ∉ V) /\ s = match so with Some s => s | None => k end.
Proof.
  unfold news_of, hop. cbn [fst snd]. destruct (ents w !! x) as [u|] eqn:Hu.
  - rewrite news_ports_spec. split.
    + intros (k & p & H1 & H2 & H3 & H4 & H5 & H6 & H7). exists k. split; [by exists u, p|done].
    + intros (k & (u' & p & [= <-] & H2 & H3 & H4 & H5 & H6) & H7 & H8). by exists k, p.
  - split; [by intros ?%not_elem_of_nil|]. by intros (k & (u & p & ? & _) & _).
Qed.
Lemma onward_spec (N : news) (so : option nat) (x : nat) : (so, x) ∈ onward N <-> forwarder x /\ exists s j, so = Some s /\ (s, x, j) ∈ N.
Proof.
  unfold onward, forwarder. rewrite list_elem_of_omap. split.
  - intros ([[s v] j] & Hin & E). destruct (ents w !! v) as [u|] eqn:Hu; [|done]. destruct (may_forward u) eqn:Hf; [|done]. injection E as <- <-.
    split; [by exists u|]. by exists s, j.
  - intros [(u & Hu & Hf) (s & j & -> & Hin)]. exists (s, x, j). split; [done|]. by rewrite Hu, Hf.
Qed.
Lemma seen_spec (V : gset nat) (N : news) (v : nat) : v ∈ seen V N <-> v ∈ V \/ exists s j, (s, v, j) ∈ N.
Proof.
  unfold seen. rewrite elem_of_union, elem_of_list_to_set. change (map ?f N) with (f <$> N). rewrite list_elem_of_fmap. split.
  - intros [([[s v'] j] & -> & Hin)|?]; [right; by exists s, j|by left].
  - intros [?|(s & j & Hin)]; [by right|]. left. by exists (s, v, j).
Qed.

(** The layers are the shortest ways. *)
Lemma layer_spec (n : nat) :
  (forall v, v ∈ fst (layer n) <-> near n v) /\
  (forall so x, (so, x) ∈ snd (layer n) <-> match n with O => so = None /\ x = ldev | S m => forwarder x /\ ~ near m x /\ exists s j, so = Some s /\ way s n x j end) /\
  (forall s v j, (s, v, j) ∈ layer_news n <-> way s (S n) v j /\ ~ near n v).
Proof.
  assert (Hnews : forall n, (forall v, v ∈ fst (layer n) <-> near n v) ->
    (forall so x, (so, x) ∈ snd (layer n) <-> match n with O => so = None /\ x = ldev | S m => forwarder x /\ ~ near m x /\ exists s j, so = Some s /\ way s n x j end) ->
    forall s v j, (s, v, j) ∈ layer_news n <-> way s (S n) v j /\ ~ near n v).
  { clear n. intros n HV HQ s v j. unfold layer_news. destruct (layer n) as [V Q]. cbn [fst snd] in HV, HQ. rewrite list_elem_of_bind. split.
    - intros ([so x] & Hn & Hin). apply news_of_spec in Hn as (k & Hh & Hv & Es). apply HQ in Hin. rewrite HV in Hv. split; [|done]. destruct n as [|n].
      + destruct Hin as [-> ->]. subst. by apply way_one.
      + destruct Hin as (Hf & _ & s' & i & -> & Hw). subst. by eapply way_more.
    - intros [Hw Hv]. inversion Hw as [v' j' Hh E1 E2 E3|m x i k v' j' Hw' Hf Hh E1 E2 E3]; subst.
      + exists (None, ldev). split; [|by apply HQ]. apply news_of_spec. exists s. rewrite HV. done.
      + destruct n as [|n]; [by apply way_pos in Hw'; lia|]. exists (Some s, x). split.
        * apply news_of_spec. exists k. rewrite HV. done.
        * apply HQ. split; [done|]. split; [|by exists s, i]. intros Hn. apply Hv. eapply near_hop; [exact Hn|by left|exact Hh]. }
  induction n as [|n (IV & IQ & IN)].
  - assert (HV : forall v, v ∈ fst (layer 0) <-> near 0 v) by (intros v; cbn [layer fst]; rewrite elem_of_singleton; symmetry; apply near_zero).
    assert (HQ : forall so x, (so, x) ∈ snd (layer 0) <-> so = None /\ x = ldev) by (intros so x; cbn [layer snd]; rewrite list_elem_of_singleton; split; [by intros [= -> ->]|by intros [-> ->]]).
    split; [done|]. split; [done|]. by apply Hnews.
  - assert (HV : forall v, v ∈ fst (layer (S n)) <-> near (S n) v).
    { intros v. rewrite layer_succ. cbn [fst]. rewrite seen_spec, IV, near_step. split.
      - intros [?|(s & j & Hin)]; [by left|]. apply IN in Hin as [Hw _]. right. by exists s, j.
      - intros [?|(s & j & Hw)]; [by left|]. destruct (decide (v ∈ fst (layer n))) as [Hd|Hd]; rewrite IV in Hd; [by left|]. right. exists s, j. by apply IN. }
    assert (HQ : forall so x, (so, x) ∈ snd (layer (S n)) <-> forwarder x /\ ~ near n x /\ exists s j, so = Some s /\ way s (S n) x j).
    { intros so x. rewrite layer_succ. cbn [snd]. rewrite onward_spec. split.
      - intros [Hf (s & j & -> & Hin)]. apply IN in Hin as [Hw Hn]. split; [done|]. split; [done|]. by exists s, j.
      - intros (Hf & Hn & s & j & -> & Hw). split; [done|]. exists s, j. split; [done|]. by apply IN. }
    split; [done|]. split; [done|]. by apply Hnews.
Qed.

(** ** The search ends *)

Lemma layer_stops (n : nat) : snd (layer n) = [] -> snd (layer (S n)) = [] /\ layer_news n = [].
Proof. intros E. rewrite layer_succ. unfold layer_news. destruct (layer n) as [V Q]. cbn [snd] in *. by subst. Qed.
Lemma layer_stops_all (n m : nat) : snd (layer n) = [] -> (n <= m)%nat -> snd (layer m) = [] /\ layer_news m = [].
Proof. intros E Hle. induction Hle as [|m _ [IH _]]; [split; [done|by apply layer_stops]|]. destruct (layer_stops m IH) as [E' _]. split; [done|by apply layer_stops]. Qed.

Lemma layer_valid (Hl : forall x k v j, hop x k v j -> is_Some (ents w !! v)) (Hd : is_Some (ents w !! ldev)) (n v : nat) : v ∈ fst (layer n) -> is_Some (ents w !! v).
Proof. intros Hv. apply (layer_spec n) in Hv as [->|(m & s & j & _ & Hw)]; [done|]. destruct Hw as [v j Hh|n' x i k v j _ _ Hh]; by eapply Hl. Qed.
Lemma layer_size (Hl : forall x k v j, hop x k v j -> is_Some (ents w !! v)) (Hd : is_Some (ents w !! ldev)) (n : nat) : snd (layer n) <> [] -> (n < length (ents w))%nat.
Proof.
  intros Hne. assert (Hsz : (S n <= size (fst (layer n)))%nat).
  { induction n as [|n IH]; [cbn [layer fst]; by rewrite size_singleton|]. destruct (layer_spec n) as (IV & _). destruct (layer_spec (S n)) as (IV' & IQ & _).
    assert (Hq : snd (layer n) <> []) by (intros E; by apply Hne, layer_stops). specialize (IH Hq). destruct (snd (layer (S n))) as [|[so x] Q] eqn:E; [done|].
    destruct (proj1 (IQ so x) ltac:(by left)) as (_ & Hx & s & j & _ & Hw). apply Nat.le_trans with (size ({[x]} ∪ fst (layer n))).
    - rewrite size_union, size_singleton; [lia|]. apply disjoint_singleton_l. by rewrite IV.
    - apply subseteq_size. intros y [->%elem_of_singleton|Hy]%elem_of_union; apply IV'; [|by eapply near_le; [|by apply IV]; lia]. right. exists (S n), s, j. done. }
  assert (Hb : (size (fst (layer n)) <= length (ents w))%nat); [|lia]. rewrite <- (size_set_seq 0 (length (ents w)) (C := gset nat)). apply subseteq_size.
  intros v Hv. apply layer_valid in Hv; [|done|done]. apply lookup_lt_is_Some in Hv. apply elem_of_set_seq. lia.
Qed.
End Ways.
