(* ===== verification/UbEnumSim.v ===== *)
(** * Routes of newly enumerated entities: the code follows the reference search *)

From S2P Require Import Prelude UbRoute UbRouteInv UbRouteEnt UbRouteSync UbRouteBus UbEnum UbEnumRef.

(** The addresses that are learned from a link to the port [j] of [rdev]. *)
Definition rdev_addr (rdev : ub_entity) (j : nat) (c : Z) : Prop := c = u_cna rdev \/ (ONE_CNA rdev = false /\ exists p, ports rdev !! j = Some p /\ c = p_cna p).
Definition at_addr (w : bus) (v j : nat) (c : Z) : Prop := exists rdev, ents w !! v = Some rdev /\ rdev_addr rdev j c.

(** ** Learning *)

Section Learn.
Context (kzalloc : nat -> bool) (START : Z).
Hypothesis Hk : forall n, kzalloc n = true.
Abbreviation ent_ok := (ent_ok START).

(** The node is the old one, but for its count, or a new one. *)
Definition node_from (P : Z -> Prop) (d : Z) (u u' : ub_entity) : Prop := forall c x, find c (cna_list u') = Some x ->
  (exists y, find c (cna_list u) = Some y /\ cn_need x = cn_need y /\ cn_distance x = cn_distance y) \/ (P c /\ cn_need x = true /\ cn_distance x = u16 d).
Definition need_all (u : ub_entity) : Prop := forall c x, find c (cna_list u) = Some x -> cn_need x = true.
(** [u'] learned the addresses [P] at the port [s]. *)
Record learned (P : Z -> Prop) (s : nat) (d : Z) (u u' : ub_entity) : Prop := {
  le_ok : ent_ok u'; le_same : same_ent u u';
  le_bits : forall i c, test_bit u' i c = true <-> test_bit u i c = true \/ (i = s /\ P c);
  le_nodes : node_from P d u u'
}.

Lemma learned_need (P : Z -> Prop) (s : nat) (d : Z) (u u' : ub_entity) : learned P s d u u' -> need_all u -> need_all u'.
Proof. intros [_ _ _ Hn] Hu c x Hx. destruct (Hn c x Hx) as [(y & Hy & -> & _)|(_ & ? & _)]; [by eapply Hu|done]. Qed.

Lemma learn_one (n : nat) (u : ub_entity) (s : nat) (c d : Z) : ent_ok u -> is_Some (ports u !! s) -> cna_ok c -> need_all u ->
  exists r u' n', ub_route_add_entry kzalloc n u s c d = (r, u', n') /\ learned (eq c) s d u u'.
Proof.
  intros Hu Hp Hc Hn. destruct (test_bit u s c) eqn:Et.
  - unfold ub_route_add_entry. rewrite Et. eexists _, _, _. split; [done|]. split; [done|done| |].
    + intros i c'. split; [by left|]. by intros [?|[-> <-]].
    + intros c' x Hx. left. by exists x.
  - destruct (add_entry_ok kzalloc START Hk n u s c d Hu Hp Hc Et) as (u' & n' & E & H1 & H2 & H3 & _ & H5 & _).
    { destruct (find c (cna_list u)) as [x|] eqn:Ex; [by eapply Hn|done]. }
    eexists _, _, _. split; [done|]. split; [done|apply (bt_same _ _ _ _ _ H2)| |].
    + intros i c'. split.
      * intros Ht. destruct (bt_only _ _ _ _ _ H2 i c') as [E'|(-> & ->%list_elem_of_singleton & _)]; [left; congruence|by right].
      * intros [Ht|[-> <-]]; [|done]. destruct (bt_only _ _ _ _ _ H2 i c') as [->|(_ & _ & _ & ?)]; done.
    + intros c' x Hx. destruct (decide (c' = c)) as [->|Hne]; [|rewrite H5 in Hx by done; left; by exists x].
      unfold ub_route_add_entry in E. rewrite Et in E. destruct (add_node_ok kzalloc Hk n c d (cna_list (set_bit u s c)) (eo_sorted _ _ Hu)) as (l' & n1 & E1 & _ & _ & Hf).
      rewrite E1 in E. injection E as <- _. cbn [set_cna_list cna_list] in Hx. rewrite Hf, Z.eqb_refl in Hx. injection Hx as <-.
      change (cna_list (set_bit u s c)) with (cna_list u). destruct (find c (cna_list u)) as [y|]; [left; exists y; by destruct y|by right].
Qed.

Lemma learn_ok (n : nat) (u : ub_entity) (s : nat) (rdev : ub_entity) (j : nat) (d : Z) : ent_ok u -> is_Some (ports u !! s) -> need_all u ->
  cna_ok (u_cna rdev) -> (forall p, p ∈ ports rdev -> cna_ok (p_cna p)) -> is_Some (ports rdev !! j) ->
  exists u' n', learn kzalloc n u s rdev j d = Some (u', n') /\ learned (rdev_addr rdev j) s (d + 1) u u' /\ route_updated u' = true.
Proof.
  intros Hu Hp Hn Hc Hcp [rp Hrp]. unfold learn. destruct (learn_one n u s (u_cna rdev) (d + 1) Hu Hp Hc Hn) as (r & u1 & n1 & -> & H1). destruct (ONE_CNA rdev) eqn:Eo.
  - eexists _, _. split; [done|]. split; [|done]. destruct H1 as [A1 A2 A3 A4]. split; [by apply updated_ok|done| |].
    + intros i c. change (test_bit (set_updated u1 true) i c) with (test_bit u1 i c). rewrite A3. unfold rdev_addr. rewrite Eo. intuition congruence.
    + intros c x Hx. destruct (A4 c x Hx) as [?|(<- & ? & ?)]; [by left|right]. split; [by left|done].
  - rewrite Hrp. cbn [mbind option_bind]. pose proof (learned_need _ _ _ _ _ H1 Hn) as Hn1. destruct H1 as [A1 A2 A3 A4].
    destruct (learn_one n1 u1 s (p_cna rp) (d + 1) A1 (same_port _ _ _ A2 Hp)) as (r2 & u2 & n2 & -> & [B1 B2 B3 B4]); [apply Hcp; by eapply list_elem_of_lookup_2|done|].
    eexists _, _. split; [done|]. split; [|done]. assert (Hrp' : forall c, rdev_addr rdev j c <-> c = u_cna rdev \/ c = p_cna rp).
    { intros c. unfold rdev_addr. rewrite Eo, Hrp. split; [intros [?|(_ & p & [= <-] & ?)]; [by left|by right]|]. intros [?|?]; [by left|]. right. split; [done|]. by exists rp. }
    split; [by apply updated_ok|by eapply ent_same_trans| |].
    + intros i c. change (test_bit (set_updated u2 true) i c) with (test_bit u2 i c). rewrite B3, A3, Hrp'. intuition congruence.
    + intros c x Hx. destruct (B4 c x Hx) as [(y & Hy & E1 & E2)|(<- & ? & ?)]; [|right; split; [by apply Hrp'; right|done]].
      destruct (A4 c y Hy) as [(z & Hz & E3 & E4)|(<- & ? & ?)]; [left; exists z; split; [done|]; split; congruence|]. right. split; [by apply Hrp'; left|]. split; congruence.
Qed.
End Learn.

(** ** Indices *)

Lemma index_from_spec (l : list Z) (c : Z) : forall i, match index_from i l c with Some k => (i <= k)%nat /\ l !! (k - i)%nat = Some c | None => c ∉ l end.
Proof.
  induction l as [|x l IH]; intros i; cbn [index_from]; [apply not_elem_of_nil|]. destruct (Z.eqb_spec x c) as [->|Hne]; [by rewrite Nat.sub_diag|].
  specialize (IH (S i)). destruct (index_from (S i) l c) as [k|].
  - destruct IH as [H1 H2]. split; [lia|]. replace (k - i)%nat with (S (k - S i)) by lia. done.
  - by apply not_elem_of_cons.
Qed.
Lemma index_spec (l : list Z) (c : Z) : c ∈ l -> l !! cna2index l c = Some c.
Proof. intros Hc. unfold cna2index. pose proof (index_from_spec l c 0) as H. destruct (index_from 0 l c) as [k|]; [|done]. destruct H as [_ H]. by rewrite Nat.sub_0_r in H. Qed.
Lemma index_lt (l : list Z) (c : Z) : l <> [] -> (cna2index l c < length l)%nat.
Proof.
  intros Hl. unfold cna2index. pose proof (index_from_spec l c 0) as H. destruct (index_from 0 l c) as [k|]; [|destruct l; [done|cbn; lia]].
  destruct H as [_ H]. rewrite Nat.sub_0_r in H. by eapply lookup_lt_Some.
Qed.

(** ** Ways and layers depend on the shape of the bus only *)

Lemma port_shape (u u' : ub_entity) (k : nat) (p' : ub_port) : shape u' = shape u -> ports u' !! k = Some p' ->
  exists p, ports u !! k = Some p /\ p_cna p = p_cna p' /\ r_uent p = r_uent p' /\ r_index p = r_index p'.
Proof.
  intros [= _ _ _ E] Hp. change (map ?f ?l) with (f <$> l) in E. pose proof (f_equal (fun l => l !! k) E) as Ek. rewrite !list_lookup_fmap, Hp in Ek.
  destruct (ports u !! k) as [p|]; [|done]. injection Ek as E1 E2 E3. by exists p.
Qed.
Lemma forward_shape (u u' : ub_entity) : shape u' = shape u -> may_forward u' = may_forward u.
Proof. intros E. unfold may_forward, port_nums. rewrite (shape_len u u' E). by injection E as _ -> _ _. Qed.
Lemma one_shape (u u' : ub_entity) : shape u' = shape u -> ONE_CNA u' = ONE_CNA u.
Proof. intros E. unfold ONE_CNA, port_nums. rewrite (shape_len u u' E). by injection E as _ -> _ _. Qed.
Lemma hop_shape (det : gset nat) (w w' : bus) (x k v j : nat) : same_shape w w' -> hop det w x k v j -> hop det w' x k v j.
Proof.
  intros Hs%shape_sym (u & p & Hu & Hp & H1 & H2 & H3 & H4). destruct (shape_at w' w x u Hs Hu) as (u' & Hu' & E). destruct (port_shape u' u k p E Hp) as (p' & Hp' & E1 & E2 & E3).
  exists u', p'. split; [done|]. split; [done|]. rewrite E1, E2, E3. done.
Qed.
Lemma forwarder_shape (w w' : bus) (x : nat) : same_shape w w' -> forwarder w x -> forwarder w' x.
Proof. intros Hs%shape_sym (u & Hu & Hf). destruct (shape_at w' w x u Hs Hu) as (u' & Hu' & E). exists u'. split; [done|]. by rewrite <- (forward_shape u' u E). Qed.
Lemma way_shape (det : gset nat) (w w' : bus) (ldev s n v j : nat) : same_shape w w' -> way det w ldev s n v j -> way det w' ldev s n v j.
Proof. intros Hs. induction 1 as [v j Hh|n x i k v j _ IH Hf Hh]; [by apply way_one; eapply hop_shape|]. eapply way_more; [exact IH|by eapply forwarder_shape|by eapply hop_shape]. Qed.
Lemma addr_shape (w w' : bus) (v j : nat) (c : Z) : same_shape w w' -> at_addr w v j c -> at_addr w' v j c.
Proof.
  intros Hs%shape_sym (u & Hu & Hc). destruct (shape_at w' w v u Hs Hu) as (u' & Hu' & E). exists u'. split; [done|]. destruct Hc as [->|(Ho & p & Hp & ->)].
  - left. by injection E.
  - right. rewrite <- (one_shape u' u E). split; [done|]. destruct (port_shape u' u j p E Hp) as (p' & Hp' & E1 & _). by exists p'.
Qed.
Lemma news_ports_shape (det V : gset nat) (so : option nat) (l l' : list ub_port) : map (fun p => (p_cna p, r_uent p, r_index p)) l' = map (fun p => (p_cna p, r_uent p, r_index p)) l ->
  forall k, news_ports det V so k l' = news_ports det V so k l.
Proof. revert l'. induction l as [|p l IH]; intros [|p' l'] E k; try done. cbn [map] in E. injection E as E1 E2 E3 E. cbn [news_ports]. by rewrite E1, E2, E3, (IH l' E). Qed.
Lemma layer_shape (det : gset nat) (w w' : bus) (ldev n : nat) : same_shape w w' -> layer det w' ldev n = layer det w ldev n.
Proof.
  intros Hs. assert (Hat : forall e, match ents w !! e, ents w' !! e with Some u, Some u' => shape u' = shape u | None, None => True | _, _ => False end).
  { intros e. destruct (ents w !! e) as [u|] eqn:Hu.
    - destruct (shape_at w' w e u (shape_sym _ _ Hs) Hu) as (u' & -> & E). done.
    - destruct (ents w' !! e) as [u'|] eqn:Hu'; [|done]. destruct (shape_at w w' e u' Hs Hu') as (u & Hu2 & _). congruence. }
  induction n as [|n IH]; [done|]. cbn [layer]. rewrite IH. destruct (layer det w ldev n) as [V Q]. assert (En : mbind (news_of det w' V) Q = mbind (news_of det w V) Q).
  { apply list_bind_ext; [|done]. intros [so x]. unfold news_of. cbn [fst snd]. specialize (Hat x). destruct (ents w !! x) as [u|], (ents w' !! x) as [u'|]; try done.
    apply news_ports_shape. by injection Hat. }
  rewrite En. f_equal. unfold onward. apply list_omap_ext. apply Forall2_same_length_lookup. split; [done|]. intros i a b Ha Hb. rewrite Ha in Hb. injection Hb as <-. destruct a as [[s v] j].
  specialize (Hat v). destruct (ents w !! v) as [u|], (ents w' !! v) as [u'|]; try done. by rewrite (forward_shape u u' Hat).
Qed.

(** ** The simulation *)

Section Sim.
Context (kzalloc : nat -> bool) (START : Z) (SIZE : nat) (cna_map : list Z) (det : gset nat) (w : bus) (ldev : nat).
Hypothesis Hk : forall n, kzalloc n = true.
Hypothesis Hlinks : links_ok w.
Hypothesis Hbus : bus_ok START w.
Abbreviation index u := (cna2index cna_map (u_cna u)).
(** The entities of the search have indices of their own. *)
Definition indexed : Prop := (forall v u, v ∈ det \/ v = ldev -> ents w !! v = Some u -> u_cna u ∈ cna_map) /\
  (forall v v' u u', v ∈ det \/ v = ldev -> v' ∈ det \/ v' = ldev -> ents w !! v = Some u -> ents w !! v' = Some u' -> u_cna u = u_cna u' -> v = v').
Hypothesis Hidx : indexed.

Abbreviation path := (option nat * nat)%type.
Abbreviation news := (list (nat * nat * nat)).

(** What the source knows after the steps [L], with their layers. *)
Record knows (u : ub_entity) (L : list (Z * (nat * nat * nat))) : Prop := {
  kn_ok : ent_ok START u; kn_flag : flagged u;
  kn_bits : forall i c, test_bit u i c = true <-> exists d v j, (d, (i, v, j)) ∈ L /\ at_addr w v j c;
  kn_nodes : forall c x, find c (cna_list u) = Some x -> cn_need x = true /\ exists d s v j, (d, (s, v, j)) ∈ L /\ at_addr w v j c /\ cn_distance x = u16 d
}.

(** In the middle of a layer: [V] was visited before, [M] is what the layer found, [Q] is left of it. *)
Record sim (b : bfs) (V : gset nat) (M : news) (L : list (Z * (nat * nat * nat))) (Q : list path) : Prop := {
  si_shape : same_shape w (b_bus b);
  si_other : forall e, e <> ldev -> ents (b_bus b) !! e = ents w !! e;
  si_len : length (b_visited b) = length cna_map;
  si_vis : forall v u, v ∈ det \/ v = ldev -> ents w !! v = Some u ->
    b_visited b !! index u = Some (if bool_decide (v ∈ V) then BFS_VISITED else if bool_decide (v ∈ seen ∅ M) then BFS_VISITING else BFS_UNVISITED);
  si_queue : b_queue b = Q ++ onward w M;
  si_next : b_next b = Z.of_nat (length (onward w M));
  si_dev : exists u, ents (b_bus b) !! ldev = Some u /\ knows u L
}.

Lemma onward_app (M N : news) : onward w (M ++ N) = onward w M ++ onward w N.
Proof. apply omap_app. Qed.

Lemma knows_step (u u' : ub_entity) (L : list (Z * (nat * nat * nat))) (s v j : nat) (d : Z) (rdev : ub_entity) : knows u L -> ents w !! v = Some rdev ->
  learned START (rdev_addr rdev j) s d u u' -> route_updated u' = true -> knows u' (L ++ [(d, (s, v, j))]).
Proof.
  intros [K1 K2 K3 K4] Hv [L1 L2 L3 L4] Hup. assert (Ha : forall c, rdev_addr rdev j c <-> at_addr w v j c).
  { intros c. split; [by exists rdev|]. intros (r & Hr & H). by rewrite Hv in Hr; injection Hr as <-. }
  split; [done|by left| |].
  - intros i c. rewrite L3, K3. split.
    + intros [(d' & v' & j' & Hin & H)|[-> H%Ha]]; [exists d', v', j'; split; [apply elem_of_app; by left|done]|]. exists d, v, j. split; [apply elem_of_app; right; by left|done].
    + intros (d' & v' & j' & [Hin|E%list_elem_of_singleton]%elem_of_app & H); [left; by exists d', v', j'|]. injection E as -> -> -> ->. right. split; [done|by apply Ha].
  - intros c x Hx. destruct (L4 c x Hx) as [(y & Hy & -> & ->)|(H & ? & ?)].
    + destruct (K4 c y Hy) as [? (d' & s' & v' & j' & Hin & H)]. split; [done|]. exists d', s', v', j'. split; [apply elem_of_app; by left|done].
    + split; [done|]. exists d, s, v, j. split; [apply elem_of_app; right; by left|]. split; [by apply Ha|done].
Qed.
Lemma knows_need (u : ub_entity) (L : list (Z * (nat * nat * nat))) : knows u L -> need_all u.
Proof. intros [_ _ _ K] c x Hx. by apply (K c x). Qed.

(** One entity is found. *)
Lemma sim_found (b : bfs) (V : gset nat) (M : news) (L : list (Z * (nat * nat * nat))) (Q : list path) (s v j : nat) (rdev : ub_entity) (layer : Z) : sim b V M L Q -> ldev ∈ V ->
  (v ∉ V) -> v ∈ det -> ents w !! v = Some rdev -> is_Some (ports rdev !! j) -> port_at w ldev s -> (length (Q ++ onward w (M ++ [(s, v, j)])) <= SIZE)%nat ->
  exists u u' n, ents (b_bus b) !! ldev = Some u /\ is_Some (ports u !! s) /\ learn kzalloc (allocs (b_bus b)) u s rdev j layer = Some (u', n) /\
    let '(d, q) := bfs_route_test_and_put SIZE (b_queue b) s v rdev in
    sim {| b_bus := put_ent (b_bus b) ldev u' n; b_visited := <[index rdev := BFS_VISITING]> (b_visited b); b_queue := q; b_next := b_next b + d |} V (M ++ [(s, v, j)])
      (L ++ [(layer + 1, (s, v, j))]) Q.
Proof.
  intros [S1 S2 S3 S4 S5 S6 (u & Hu & Hkn)] HldV HvV Hvd Hrdev Hj Hport Hsize. pose proof (kn_ok _ _ Hkn) as Hok.
  assert (Hs : is_Some (ports u !! s)). { destruct (shape_port w (b_bus b) ldev s S1 Hport) as (u1 & Hu1 & ?). by rewrite Hu in Hu1; injection Hu1 as <-. }
  pose proof (nodes_of START w v rdev Hbus Hrdev) as Hrok. destruct (eo_cna _ _ Hrok) as [Hc Hcp]. rewrite Forall_forall in Hcp.
  destruct (learn_ok kzalloc START Hk (allocs (b_bus b)) u s rdev j layer Hok Hs (knows_need _ _ Hkn) Hc Hcp Hj) as (u' & n & E & Hl & Hup).
  exists u, u', n. split; [done|]. split; [done|]. split; [done|]. rewrite onward_app in Hsize.
  assert (Hq : bfs_route_test_and_put SIZE (b_queue b) s v rdev = (Z.of_nat (length (onward w [(s, v, j)])), Q ++ onward w M ++ onward w [(s, v, j)])).
  { unfold bfs_route_test_and_put. cbn [onward omap list_omap] in *. rewrite Hrdev in *. unfold may_forward in *. rewrite S5.
    destruct (match u_kind rdev with other => false | _ => true end) eqn:Ek; cbn [andb negb] in *; [|by rewrite app_nil_r].
    destruct (port_nums rdev =? 1); cbn [negb] in *; [by rewrite app_nil_r|]. unfold put_path.
    rewrite !length_app in Hsize. cbn [length] in Hsize. rewrite (proj2 (Nat.ltb_lt _ _)) by (rewrite length_app; lia). by rewrite <- app_assoc. }
  rewrite Hq. split; cbn [b_bus b_visited b_queue b_next].
  - eapply shape_trans; [exact S1|]. eapply shape_put; [done|]. apply shape_ent. apply (le_same _ _ _ _ _ _ Hl).
  - intros e He. unfold put_ent. cbn [ents]. rewrite list_lookup_insert_ne by congruence. by apply S2.
  - by rewrite length_insert.
  - intros v' x Hv' Hx. destruct Hidx as [I1 I2]. destruct (decide (v' = v)) as [->|Hne].
    + rewrite Hrdev in Hx. injection Hx as <-. rewrite list_lookup_insert_eq by (rewrite S3; apply index_lt; intros ->; specialize (I1 v rdev Hv' Hrdev); by apply not_elem_of_nil in I1).
      rewrite (bool_decide_eq_false_2 (v ∈ V)) by done. rewrite bool_decide_eq_true_2; [done|]. apply seen_spec. right. exists s, j. apply elem_of_app. right. by left.
    + assert (Hi : index rdev <> index x).
      { intros Ei. apply Hne. eapply (I2 v' v x rdev); [done|by left|done|done|]. pose proof (index_spec cna_map _ (I1 v' x Hv' Hx)) as A. pose proof (index_spec cna_map _ (I1 v rdev ltac:(by left) Hrdev)) as B. congruence. }
      rewrite list_lookup_insert_ne by done. rewrite (S4 v' x Hv' Hx). f_equal. destruct (bool_decide (v' ∈ V)); [done|].
      erewrite bool_decide_ext; [done|]. rewrite !seen_spec. split; (intros [?|(s' & j' & Hin)]; [by left|right; exists s', j']).
      * apply elem_of_app. by left.
      * apply elem_of_app in Hin as [?|[= ? ? ?]%list_elem_of_singleton]; [done|congruence].
  - by rewrite onward_app.
  - rewrite S6, onward_app, length_app. lia.
  - exists u'. unfold put_ent. cbn [ents]. split; [apply list_lookup_insert_eq; by eapply lookup_lt_Some|]. by eapply knows_step.
Qed.

Lemma bfs_ports_ok (V : gset nat) (Q : list path) (so : option nat) (layer : Z) (l : list ub_port) : ldev ∈ V ->
  (forall p v, p ∈ l -> r_uent p = Some v -> port_at w v (r_index p)) -> forall k b M L, sim b V M L Q ->
  (forall k', match so with Some s => port_at w ldev s | None => (k' < length l)%nat -> port_at w ldev (k + k')%nat end) ->
  (length (Q ++ onward w (M ++ news_ports det V so k l)) <= SIZE)%nat ->
  exists b', bfs_ports kzalloc SIZE cna_map det ldev layer so k l b = Some b' /\
    sim b' V (M ++ news_ports det V so k l) (L ++ map (pair (layer + 1)) (news_ports det V so k l)) Q.
Proof.
  intros HldV. induction l as [|p l IH]; intros Hlk k b M L Hb Hs Hsz; cbn [bfs_ports news_ports] in *; [exists b; by rewrite !app_nil_r|].
  assert (Hlk' : forall p v, p ∈ l -> r_uent p = Some v -> port_at w v (r_index p)) by (intros q v Hq; apply Hlk; by right).
  assert (Hs' : forall k', match so with Some s => port_at w ldev s | None => (k' < length l)%nat -> port_at w ldev (S k + k')%nat end).
  { intros k'. specialize (Hs (S k')). destruct so; [done|]. intros Hlt. replace (S k + k')%nat with (k + S k')%nat by lia. apply Hs. cbn [length]. lia. }
  specialize (IH Hlk' (S k)). destruct (p_cna p =? 0); [by apply IH|]. destruct (r_uent p) as [v|] eqn:Ev; [|by apply IH].
  destruct (Hlk p v ltac:(by left) Ev) as (rdev & Hrdev & Hj). pose proof (si_shape _ _ _ _ _ Hb) as Hshape.
  destruct (shape_at (b_bus b) w v rdev (shape_sym _ _ Hshape) Hrdev) as (rdev' & Hrdev' & Esh). assert (get_ent (b_bus b) v = Some rdev') as -> by done. cbn [mbind option_bind].
  assert (Ei : u_cna rdev' = u_cna rdev) by (by injection Esh). rewrite Ei. destruct (decide (v ∈ det)) as [Hd|Hd].
  - rewrite (si_vis _ _ _ _ _ Hb v rdev (or_introl Hd) Hrdev). cbn [mbind option_bind]. destruct (bool_decide_reflect (v ∈ V)) as [HV|HV]; [by apply IH|].
    rewrite (bool_decide_eq_true_2 (v ∈ det)) in * by done. cbn [negb] in *. set (s := match so with Some s => s | None => k end) in *.
    assert (Hst : forall x, ((if bool_decide (v ∈ seen ∅ M) then BFS_VISITING else BFS_UNVISITED) =? BFS_VISITED) = x -> x = false) by (intros x <-; by destruct (bool_decide _)).
    rewrite (Hst _ eq_refl). assert (Hvl : v <> ldev) by (intros ->; done). assert (rdev' = rdev) as ->.
    { pose proof (si_other _ _ _ _ _ Hb v Hvl) as Eo. congruence. }
    assert (Hport : port_at w ldev s). { unfold s. specialize (Hs O). destruct so; [done|]. rewrite Nat.add_0_r in Hs. apply Hs. cbn [length]. lia. }
    assert (Hsz1 : (length (Q ++ onward w (M ++ [(s, v, r_index p)])) <= SIZE)%nat).
    { eapply Nat.le_trans; [|exact Hsz]. change ((s, v, r_index p) :: news_ports det V so (S k) l) with ([(s, v, r_index p)] ++ news_ports det V so (S k) l).
      rewrite (app_assoc M), (onward_app (M ++ [(s, v, r_index p)])), !length_app. lia. }
    destruct (sim_found b V M L Q s v (r_index p) rdev layer Hb HldV HV Hd Hrdev Hj Hport Hsz1) as (u & u' & n & Hu & [q0 Hq0] & El & Hsim).
    unfold get_ent. rewrite Hu. cbn [mbind option_bind]. rewrite Hq0. cbn [mbind option_bind]. rewrite El. cbn [mbind option_bind].
    destruct (bfs_route_test_and_put SIZE (b_queue b) s v rdev) as [d q]. destruct (IH _ _ _ Hsim Hs') as (b' & -> & Hb').
    + by rewrite <- app_assoc.
    + exists b'. split; [reflexivity|]. rewrite <- !app_assoc in Hb'. exact Hb'.
  - assert (Hlt : (cna2index cna_map (u_cna rdev) < length (b_visited b))%nat).
    { rewrite (si_len _ _ _ _ _ Hb). apply index_lt. intros E. destruct (si_dev _ _ _ _ _ Hb) as (u & Hu & _).
      destruct (shape_at w (b_bus b) ldev u Hshape Hu) as (u0 & Hu0 & _). destruct Hidx as [I1 _]. specialize (I1 ldev u0 (or_intror eq_refl) Hu0). rewrite E in I1. by apply not_elem_of_nil in I1. }
    apply lookup_lt_is_Some in Hlt as [st Hst]. rewrite Hst. cbn [mbind option_bind]. rewrite (bool_decide_eq_false_2 (v ∈ det)) in * by done. cbn [negb] in *.
    assert (Hr : (if bool_decide (v ∈ V) then news_ports det V so (S k) l else news_ports det V so (S k) l) = news_ports det V so (S k) l) by (by destruct (bool_decide _)).
    rewrite Hr in *. destruct (st =? BFS_VISITED); by apply IH.
Qed.

(** ** Layers *)

(** The steps of the layers before [n]. *)
Definition all_news (n : nat) : list (Z * (nat * nat * nat)) := mbind (fun m => map (pair (Z.of_nat m + 1)) (layer_news det w ldev m)) (seq 0 n).
Lemma all_news_succ (n : nat) : all_news (S n) = all_news n ++ map (pair (Z.of_nat n + 1)) (layer_news det w ldev n).
Proof. unfold all_news. rewrite seq_S, bind_app. cbn [mbind list_bind]. by rewrite app_nil_r, Nat.add_0_l. Qed.

Lemma vis_update (b : bfs) (V : gset nat) (M : news) (L : list (Z * (nat * nat * nat))) : sim b V M L [] ->
  sim {| b_bus := b_bus b; b_visited := ub_enum_bfs_layer_update (b_visited b); b_queue := b_queue b; b_next := 0 |} (seen V M) [] L (onward w M).
Proof.
  intros [S1 S2 S3 S4 S5 S6 S7]. split; cbn [b_bus b_visited b_queue b_next]; try done.
  - unfold ub_enum_bfs_layer_update. by rewrite length_map.
  - intros v u Hv Hu. unfold ub_enum_bfs_layer_update. change (map ?f ?l) with (f <$> l). rewrite list_lookup_fmap, (S4 v u Hv Hu). cbn [fmap option_fmap option_map]. f_equal.
    rewrite (bool_decide_eq_false_2 (v ∈ seen ∅ [])) by (intros [?|(? & ? & ?)]%seen_spec; [by apply not_elem_of_empty in H|by apply not_elem_of_nil in H]).
    destruct (bool_decide_reflect (v ∈ V)) as [HV|HV]; [rewrite bool_decide_eq_true_2; [done|apply seen_spec; by left]|].
    destruct (bool_decide_reflect (v ∈ seen ∅ M)) as [HM|HM].
    + apply seen_spec in HM as [?|HM]; [by apply not_elem_of_empty in H|]. rewrite bool_decide_eq_true_2; [done|]. apply seen_spec. by right.
    + rewrite bool_decide_eq_false_2; [done|]. intros [?|H]%seen_spec; [done|]. apply HM, seen_spec. by right.
  - by rewrite app_nil_r.
Qed.

(** ** The loop *)

Abbreviation layer := (layer det w ldev).
Hypothesis Hdev : is_Some (ents w !! ldev).
(** The queue never overflows. *)
Hypothesis Hsize : forall n, (length (snd (layer n)) + length (snd (layer (S n))) <= SIZE)%nat.

Lemma hop_valid (x k v j : nat) : hop det w x k v j -> is_Some (ents w !! v).
Proof. intros (u & p & Hu & Hp & _ & Hr & _). destruct (Hlinks x u k p v Hu Hp Hr) as (r & Hr' & _). by eexists. Qed.
Lemma way_first (s n v j : nat) : way det w ldev s n v j -> port_at w ldev s.
Proof. induction 1 as [v j (u & p & Hu & Hp & _)|]; [|done]. exists u. split; [done|by eexists]. Qed.

(** The entries of a layer. *)
Lemma layer_entry (n : nat) (so : option nat) (x : nat) : (so, x) ∈ snd (layer n) ->
  is_Some (ents w !! x) /\ match so with Some s => port_at w ldev s | None => x = ldev end.
Proof.
  intros Hin. apply (layer_spec det w ldev n) in Hin. destruct n as [|n]; [by destruct Hin as [-> ->]|].
  destruct Hin as ((u & Hu & _) & _ & s & j & -> & Hw). split; [by eexists|by eapply way_first].
Qed.
Lemma in_first (n : nat) : ldev ∈ fst (layer n).
Proof. apply (layer_spec det w ldev n). by left. Qed.

Lemma entry_ok (n : nat) (so : option nat) (x : nat) (Qd Qr : list path) (b : bfs) : Qd ++ (so, x) :: Qr = snd (layer n) ->
  let V := fst (layer n) in sim b V (mbind (news_of det w V) Qd) (all_news n ++ map (pair (Z.of_nat n + 1)) (mbind (news_of det w V) Qd)) ((so, x) :: Qr) ->
  exists u b', ents (b_bus b) !! x = Some u /\
    bfs_ports kzalloc SIZE cna_map det ldev (Z.of_nat n) so 0 (ports u) {| b_bus := b_bus b; b_visited := b_visited b; b_queue := Qr ++ onward w (mbind (news_of det w V) Qd); b_next := b_next b |} = Some b' /\
    sim b' V (mbind (news_of det w V) (Qd ++ [(so, x)])) (all_news n ++ map (pair (Z.of_nat n + 1)) (mbind (news_of det w V) (Qd ++ [(so, x)]))) Qr.
Proof.
  intros EQ V Hb. assert (Hin : (so, x) ∈ snd (layer n)) by (rewrite <- EQ; apply elem_of_app; right; by left). destruct (layer_entry n so x Hin) as [[u0 Hu0] Hso].
  pose proof (si_shape _ _ _ _ _ Hb) as Hsh. destruct (shape_at (b_bus b) w x u0 (shape_sym _ _ Hsh) Hu0) as (u & Hu & Es).
  assert (En : news_ports det V so 0 (ports u) = news_of det w V (so, x)).
  { unfold news_of. cbn [fst snd]. rewrite Hu0. symmetry. apply news_ports_shape. by injection Es. }
  assert (Hb0 : sim {| b_bus := b_bus b; b_visited := b_visited b; b_queue := Qr ++ onward w (mbind (news_of det w V) Qd); b_next := b_next b |} V (mbind (news_of det w V) Qd)
    (all_news n ++ map (pair (Z.of_nat n + 1)) (mbind (news_of det w V) Qd)) Qr) by (destruct Hb as [S1 S2 S3 S4 S5 S6 S7]; by split).
  destruct (bfs_ports_ok V Qr so (Z.of_nat n) (ports u) (in_first n)) with (k := O) (b := {| b_bus := b_bus b; b_visited := b_visited b; b_queue := Qr ++ onward w (mbind (news_of det w V) Qd); b_next := b_next b |})
    (M := mbind (news_of det w V) Qd) (L := all_news n ++ map (pair (Z.of_nat n + 1)) (mbind (news_of det w V) Qd)) as (b' & E & Hb').
  - intros p v [k Hp]%list_elem_of_lookup Hv. eapply shape_port; [apply shape_sym, Hsh|]. eapply (shape_links w (b_bus b) Hsh Hlinks); [exact Hu|exact Hp|exact Hv].
  - exact Hb0.
  - intros k'. destruct so as [s|]; [exact Hso|]. subst x. intros Hlt. exists u0. split; [done|]. apply lookup_lt_is_Some. rewrite (shape_len u u0 Es). exact Hlt.
  - rewrite En. specialize (Hsize n). rewrite layer_succ in Hsize. cbn [snd] in Hsize. rewrite <- EQ in Hsize.
    assert (Hnews : layer_news det w ldev n = mbind (news_of det w V) Qd ++ news_of det w V (so, x) ++ mbind (news_of det w V) Qr).
    { unfold layer_news, V. destruct (layer n) as [V' Q']. cbn [fst snd] in *. subst Q'. rewrite bind_app. by rewrite bind_cons. }
    rewrite Hnews in Hsize. rewrite app_assoc, (onward_app (_ ++ _)) in Hsize. rewrite !length_app in *. cbn [length] in Hsize. lia.
  - exists u, b'. split; [done|]. split; [done|]. rewrite En in Hb'. rewrite bind_app, bind_cons. cbn [mbind list_bind]. rewrite app_nil_r, map_app, app_assoc. exact Hb'.
Qed.

(** What the search leaves behind. *)
Definition searched (w' : bus) : Prop := same_shape w w' /\ (forall e, e <> ldev -> ents w' !! e = ents w !! e) /\
  exists n u', snd (layer n) = [] /\ ents w' !! ldev = Some u' /\ knows u' (all_news n).

Lemma loop_ok (fuel : nat) : forall n Qd Qr b, Qd ++ Qr = snd (layer n) -> Qr <> [] ->
  sim b (fst (layer n)) (mbind (news_of det w (fst (layer n))) Qd) (all_news n ++ map (pair (Z.of_nat n + 1)) (mbind (news_of det w (fst (layer n))) Qd)) Qr ->
  (length Qr + SIZE * (length (ents w) - S n) <= fuel)%nat -> exists w', bfs_loop kzalloc SIZE cna_map det fuel ldev b (Z.of_nat (length Qr)) (Z.of_nat n) = Some w' /\ searched w'.
Proof.
  induction fuel as [|fuel IH]; intros n Qd [|[so x] Qr] b EQ HQr Hb Hf; try done; [cbn [length Nat.add] in Hf; by apply Nat.nle_succ_0 in Hf|].
  destruct (entry_ok n so x Qd Qr b EQ Hb) as (u & b' & Hu & E & Hb'). cbn [bfs_loop]. rewrite (si_queue _ _ _ _ _ Hb). cbn [app]. unfold get_ent. rewrite Hu. cbn [mbind option_bind].
  rewrite E. cbn [mbind option_bind]. cbn [length] in *. destruct Qr as [|a Qr].
  - change (Z.of_nat 1 - 1 =? 0) with true. cbv iota. pose proof (si_next _ _ _ _ _ Hb') as Hnext. apply vis_update in Hb'.
    assert (Hnews : mbind (news_of det w (fst (layer n))) (Qd ++ [(so, x)]) = layer_news det w ldev n) by (unfold layer_news; rewrite EQ; by destruct (layer n)).
    rewrite Hnews in Hb', Hnext. rewrite <- all_news_succ in Hb'. assert (En : layer (S n) = (seen (fst (layer n)) (layer_news det w ldev n), onward w (layer_news det w ldev n))) by apply layer_succ.
    rewrite Hnext. replace (Z.of_nat n + 1) with (Z.of_nat (S n)) by lia. destruct (decide (onward w (layer_news det w ldev n) = [])) as [Eo|Ho].
    + exists (b_bus b'). pose proof (si_queue _ _ _ _ _ Hb') as Eq. cbn [b_queue] in Eq. rewrite Eo in Eq. cbn [app onward omap list_omap] in Eq. split; [destruct fuel; cbn [bfs_loop b_queue]; by rewrite Eq|].
      destruct Hb' as [S1 S2 _ _ _ _ (u' & Hu' & Hkn)]. split; [done|]. split; [done|]. exists (S n), u'. split; [by rewrite En|done].
    + assert (HQ : snd (layer (S n)) = onward w (layer_news det w ldev n)) by (by rewrite En). pose proof (layer_size det w ldev hop_valid Hdev (S n) ltac:(by rewrite HQ)) as Hlt.
      specialize (Hsize (S n)). rewrite HQ in Hsize. apply (IH (S n) []); [by rewrite HQ|done| |].
      * rewrite En. cbn [fst mbind list_bind map]. rewrite app_nil_r. exact Hb'.
      * replace (length (ents w) - S n)%nat with (S (length (ents w) - S (S n))) in Hf by lia. rewrite Nat.mul_succ_r in Hf. lia.
  - replace (Z.of_nat (S (length (a :: Qr))) - 1) with (Z.of_nat (length (a :: Qr))) by lia. rewrite (proj2 (Z.eqb_neq _ _)) by (cbn [length]; lia).
    apply (IH n (Qd ++ [(so, x)])); [by rewrite <- app_assoc|done|done|cbn [length] in *; lia].
Qed.
End Sim.
