(* ===== verification/UbEnumSpec.v ===== *)
(** * Routes of newly enumerated entities: the contract

    The ports of a new entity learn exactly the addresses that lie on a shortest way through them. *)

From S2P Require Import Prelude UbRoute UbRouteInv UbRouteEnt UbRouteSync UbRouteBus UbRouteSpec UbEnum UbEnumRef UbEnumSim.

(** A way of [n] links from the port [s] of [e] to the port [j] of [v], and no way to [v] is shorter. *)
Definition shortest (det : gset nat) (w : bus) (e s n v j : nat) : Prop := way det w e s n v j /\ v <> e /\ forall s' n' j', way det w e s' n' v j' -> (n <= n')%nat.

(** The routes of [u] are the shortest ways from [e]. *)
Record shortest_routes (det : gset nat) (w : bus) (e : nat) (u : ub_entity) : Prop := {
  sr_bits : forall s c, test_bit u s c = true <-> exists n v j, shortest det w e s n v j /\ at_addr w v j c;
  sr_nodes : forall c x, find c (cna_list u) = Some x -> cn_need x = true /\ exists n s v j, shortest det w e s n v j /\ at_addr w v j c /\ cn_distance x = u16 (Z.of_nat n)
}.
(** No routes yet. *)
Definition no_routes (u : ub_entity) : Prop := cna_list u = [] /\ forall i c, test_bit u i c = false.

Lemma shortest_near (det : gset nat) (w : bus) (e s m v j : nat) : way det w e s (S m) v j /\ ~ near det w e m v <-> shortest det w e s (S m) v j.
Proof.
  split.
  - intros [Hw Hn]. split; [done|]. split; [intros ->; apply Hn; by left|]. intros s' n' j' Hw'. destruct (Nat.le_gt_cases (S m) n') as [?|Hlt]; [done|].
    exfalso. apply Hn. right. exists n', s', j'. split; [lia|done].
  - intros (Hw & Hne & Hmin). split; [done|]. intros [?|(k & s' & j' & Hk & Hw')]; [done|]. specialize (Hmin _ _ _ Hw'). lia.
Qed.

Lemma shortest_shape (det : gset nat) (w w' : bus) (e s n v j : nat) : same_shape w w' -> shortest det w e s n v j <-> shortest det w' e s n v j.
Proof.
  intros Hs. assert (Hgo : forall a b, same_shape a b -> shortest det a e s n v j -> shortest det b e s n v j).
  { intros a b Hab (H1 & H2 & H3). split; [by eapply way_shape|]. split; [done|]. intros s' n' j' Hw. eapply H3, way_shape; [by apply shape_sym|exact Hw]. }
  split; apply Hgo; [done|by apply shape_sym].
Qed.
Lemma routes_shape (det : gset nat) (w w' : bus) (e : nat) (u : ub_entity) : same_shape w w' -> shortest_routes det w' e u -> shortest_routes det w e u.
Proof.
  intros Hs [H1 H2]. assert (Ha : forall v j c, at_addr w' v j c <-> at_addr w v j c) by (intros v j c; split; apply addr_shape; [by apply shape_sym|done]). split.
  - intros s c. rewrite H1. split; intros (n & v & j & H & Hc); exists n, v, j; (split; [by apply (shortest_shape det w w')|by apply Ha]).
  - intros c x Hx. destruct (H2 c x Hx) as [? (n & s & v & j & H & Hc & Hd)]. split; [done|]. exists n, s, v, j. split; [by apply (shortest_shape det w w')|]. split; [by apply Ha|done].
Qed.

Section Dev.
Context (kzalloc : nat -> bool) (START : Z) (SIZE : nat) (cna_map : list Z) (det : gset nat).
Hypothesis Hk : forall n, kzalloc n = true.

Lemma knows_shortest (w : bus) (e n : nat) (u : ub_entity) : snd (layer det w e n) = [] -> knows START w u (all_news det w e n) -> shortest_routes det w e u.
Proof.
  intros Hn [_ _ K3 K4]. assert (Hin : forall d s v j, (d, (s, v, j)) ∈ all_news det w e n <-> exists m, d = Z.of_nat (S m) /\ shortest det w e s (S m) v j).
  { intros d s v j. unfold all_news. rewrite list_elem_of_bind. split.
    - intros (m & Hd & _). change (map ?f ?l) with (f <$> l) in Hd. apply list_elem_of_fmap in Hd as ([[s' v'] j'] & [= -> -> -> ->] & Hin). exists m. split; [lia|].
      apply shortest_near. by apply (layer_spec det w e m).
    - intros (m & -> & Hs). exists m. apply shortest_near in Hs. apply (layer_spec det w e m) in Hs. split.
      + change (map ?f ?l) with (f <$> l). apply list_elem_of_fmap. exists (s, v, j). split; [|done]. f_equal. lia.
      + apply elem_of_seq. split; [lia|]. destruct (Nat.le_gt_cases n m) as [Hle|?]; [|lia]. destruct (layer_stops_all det w e n m Hn Hle) as [_ E]. rewrite E in Hs. by apply not_elem_of_nil in Hs. }
  split.
  - intros s c. rewrite K3. split.
    + intros (d & v & j & (m & _ & Hs)%Hin & Hc). by exists (S m), v, j.
    + intros (k & v & j & Hs & Hc). destruct k as [|m]; [destruct Hs as [Hw _]; apply way_pos in Hw; lia|]. exists (Z.of_nat (S m)), v, j. split; [apply Hin; by exists m|done].
  - intros c x Hx. destruct (K4 c x Hx) as [? (d & s & v & j & (m & -> & Hs)%Hin & Hc & Hd)]. split; [done|]. by exists (S m), s, v, j.
Qed.

Lemma route_dev_ok (fuel : nat) (w : bus) (e : nat) (u : ub_entity) : links_ok w -> bus_ok START w -> indexed cna_map det w e -> ents w !! e = Some u -> no_routes u ->
  (forall n, (length (snd (layer det w e n)) + length (snd (layer det w e (S n))) <= SIZE)%nat) -> (S (SIZE * length (ents w)) <= fuel)%nat ->
  exists w' u', ub_enum_bfs_route_dev kzalloc SIZE cna_map det fuel w e = Some w' /\ same_shape w w' /\ (forall e', e' <> e -> ents w' !! e' = ents w !! e') /\
    ents w' !! e = Some u' /\ ent_ok START u' /\ flagged u' /\ shortest_routes det w e u'.
Proof.
  intros Hl Hw Hidx Hu [Hn Hb] Hsize Hf. unfold ub_enum_bfs_route_dev, get_ent. rewrite Hu. cbn [mbind option_bind]. pose proof (proj1 Hidx e u (or_intror eq_refl) Hu) as Hin.
  assert (Hlt : (cna2index cna_map (u_cna u) < length cna_map)%nat) by (apply index_lt; intros E; rewrite E in Hin; by apply not_elem_of_nil in Hin).
  rewrite lookup_replicate_2 by done. cbn [mbind option_bind]. unfold put_path. pose proof (Hsize O) as H0. cbn [layer snd length] in H0. rewrite (proj2 (Nat.ltb_lt _ _)) by (cbn; lia). cbn [app].
  assert (Hsim : sim START cna_map det w e {| b_bus := w; b_visited := <[cna2index cna_map (u_cna u) := BFS_VISITED]> (replicate (length cna_map) BFS_UNVISITED); b_queue := [(None, e)]; b_next := 0 |}
    {[e]} [] [] [(None, e)]).
  { split; cbn [b_bus b_visited b_queue b_next]; try done.
    - by rewrite length_insert, length_replicate.
    - intros v x Hv Hx. rewrite (bool_decide_eq_false_2 (v ∈ seen ∅ [])) by (intros [H|(? & ? & H)]%seen_spec; [by apply not_elem_of_empty in H|by apply not_elem_of_nil in H]).
      destruct Hidx as [I1 I2]. destruct (decide (v = e)) as [->|Hne].
      + rewrite Hu in Hx. injection Hx as <-. rewrite list_lookup_insert_eq by (by rewrite length_replicate). rewrite bool_decide_eq_true_2; [done|]. by apply elem_of_singleton.
      + rewrite bool_decide_eq_false_2 by (by rewrite elem_of_singleton). rewrite list_lookup_insert_ne.
        * apply lookup_replicate_2, index_lt. intros E. rewrite E in Hin. by apply not_elem_of_nil in Hin.
        * intros E. apply Hne. eapply (I2 v e x u); [done|by right|done|done|]. pose proof (index_spec cna_map _ (I1 v x Hv Hx)) as A. pose proof (index_spec cna_map _ Hin) as B. congruence.
    - exists u. split; [done|]. split; [by eapply nodes_of| | |].
      + right. by rewrite Hn.
      + intros i c. rewrite Hb. split; [done|]. by intros (? & ? & ? & ?%not_elem_of_nil & _).
      + rewrite Hn. done. }
  destruct (loop_ok kzalloc START SIZE cna_map det w e Hk Hl Hw Hidx ltac:(by eexists) Hsize fuel 0 [] [(None, e)] _ eq_refl ltac:(done) Hsim) as (w' & E & Hs & Ho & n & u' & Hln & Hu' & Hkn).
  { cbn [length]. destruct (length (ents w)) as [|k] eqn:Ek; [by apply lookup_lt_Some in Hu; lia|]. rewrite Nat.mul_succ_r in Hf. replace (S k - 1)%nat with k by lia. lia. }
  exists w', u'. split; [exact E|]. split; [done|]. split; [done|]. split; [done|]. split; [apply (kn_ok _ _ _ _ Hkn)|]. split; [apply (kn_flag _ _ _ _ Hkn)|]. by eapply knows_shortest.
Qed.
End Dev.

(** ** All new entities *)

Section Core.
Context (kzalloc : nat -> bool) (START : Z) (det : gset nat).
Hypothesis Hk : forall n, kzalloc n = true.

Lemma set_map_ok (w : bus) (l : list nat) : (forall e, e ∈ l -> is_Some (ents w !! e)) ->
  exists m, ub_bfs_set_cna_map w l = Some m /\ forall e u, e ∈ l -> ents w !! e = Some u -> u_cna u ∈ m.
Proof.
  induction l as [|e l IH]; intros Hl; cbn [ub_bfs_set_cna_map]; [exists []; split; [done|]; by intros ? ? ?%not_elem_of_nil|].
  destruct (Hl e ltac:(by left)) as [u Hu]. unfold get_ent. rewrite Hu. cbn [mbind option_bind]. destruct IH as (m & -> & Hm); [intros e' He'; apply Hl; by right|].
  cbn [mbind option_bind]. eexists. split; [done|]. intros e' u' [->|He']%elem_of_cons Hu'.
  - rewrite Hu in Hu'. injection Hu' as <-. by left.
  - right. apply elem_of_app. right. by eapply Hm.
Qed.

(** What is known of the bus and of the new entities [l] beforehand. *)
Record enumerated (w : bus) (l : list nat) : Prop := {
  en_links : links_ok w; en_bus : bus_ok START w; en_once : NoDup l;
  en_new : forall e, e ∈ l -> exists u, ents w !! e = Some u /\ no_routes u;
  en_det : forall e, e ∈ det -> e ∈ l;
  en_cna : forall e e' u u', e ∈ l -> e' ∈ l -> ents w !! e = Some u -> ents w !! e' = Some u' -> u_cna u = u_cna u' -> e = e'
}.
(** The shortest ways fit in the queue. *)
Definition fits (SIZE : nat) (w : bus) (l : list nat) : Prop := forall e n, e ∈ l -> (length (snd (layer det w e n)) + length (snd (layer det w e (S n))) <= SIZE)%nat.

Lemma enumerated_indexed (w w1 : bus) (l : list nat) (m : list Z) (e : nat) : enumerated w l -> same_shape w w1 ->
  (forall e u, e ∈ l -> ents w !! e = Some u -> u_cna u ∈ m) -> e ∈ l -> indexed m det w1 e.
Proof.
  intros Hen Hs Hm He. assert (Hin : forall v, v ∈ det \/ v = e -> v ∈ l) by (intros v [Hv| ->]; [by apply (en_det _ _ Hen)|done]).
  assert (Hback : forall v u1, ents w1 !! v = Some u1 -> exists u, ents w !! v = Some u /\ u_cna u = u_cna u1).
  { intros v u1 Hu1. destruct (shape_at w w1 v u1 Hs Hu1) as (u & Hu & E). exists u. split; [done|]. by injection E. }
  split.
  - intros v u1 Hv Hu1. destruct (Hback v u1 Hu1) as (u & Hu & <-). eapply Hm; [by apply Hin|done].
  - intros v v' u1 u1' Hv Hv' Hu1 Hu1' E. destruct (Hback v u1 Hu1) as (u & Hu & E1). destruct (Hback v' u1' Hu1') as (u' & Hu' & E2).
    eapply (en_cna _ _ Hen v v' u u'); [by apply Hin|by apply Hin|done|done|congruence].
Qed.

Lemma core_ok (SIZE fuel : nat) (m : list Z) (w : bus) (l : list nat) : enumerated w l -> fits SIZE w l -> (S (SIZE * length (ents w)) <= fuel)%nat ->
  (forall e u, e ∈ l -> ents w !! e = Some u -> u_cna u ∈ m) -> forall todo done_ w1, l = done_ ++ todo -> same_shape w w1 -> bus_ok START w1 ->
  (forall e, e ∉ done_ -> ents w1 !! e = ents w !! e) ->
  (forall e u, e ∈ done_ -> ents w1 !! e = Some u -> port_nums u <> 1 -> shortest_routes det w e u) ->
  exists w', ub_enum_bfs_route_core kzalloc SIZE m det fuel w1 todo = Some w' /\ same_shape w w' /\ bus_ok START w' /\ (forall e, e ∉ l -> ents w' !! e = ents w !! e) /\
    forall e u, e ∈ l -> ents w' !! e = Some u -> port_nums u <> 1 -> shortest_routes det w e u.
Proof.
  intros Hen Hfit Hf Hm. induction todo as [|e todo IH]; intros done_ w1 El Hs Hb Hother Hdone; cbn [ub_enum_bfs_route_core]; [rewrite app_nil_r in El; subst done_; by exists w1|].
  assert (He : e ∈ l) by (rewrite El; apply elem_of_app; right; by left). assert (Hnd : e ∉ done_).
  { pose proof (en_once _ _ Hen) as Hn. rewrite El in Hn. apply NoDup_app in Hn as (_ & Hd & _). intros Hin. apply (Hd e Hin). by left. }
  assert (El' : l = (done_ ++ [e]) ++ todo) by (by rewrite <- app_assoc). destruct (en_new _ _ Hen e He) as (u & Hu & Hnr). assert (Hu1 : ents w1 !! e = Some u) by (by rewrite Hother).
  unfold get_ent. rewrite Hu1. cbn [mbind option_bind]. destruct (Z.eqb_spec (port_nums u) 1) as [E1|E1].
  - apply (IH (done_ ++ [e]) w1 El' Hs Hb).
    + intros e' He'. apply Hother. intros ?. apply He', elem_of_app. by left.
    + intros e' u' [He'| ->%list_elem_of_singleton]%elem_of_app Hu' Hp; [by apply Hdone|]. rewrite Hu1 in Hu'. injection Hu' as <-. done.
  - destruct (route_dev_ok kzalloc START SIZE m det Hk fuel w1 e u (shape_links w w1 Hs (en_links _ _ Hen)) Hb (enumerated_indexed w w1 l m e Hen Hs Hm He) Hu1 Hnr)
      as (w2 & u2 & E2 & Hs2 & Ho2 & Hu2 & Hok2 & Hf2 & Hr2).
    + intros n. rewrite !(layer_shape det w w1 e) by done. by apply Hfit.
    + replace (length (ents w1)) with (length (ents w)); [done|]. rewrite <- (length_map shape (ents w)), <- Hs. apply length_map.
    + rewrite E2. cbn [mbind option_bind]. apply (IH (done_ ++ [e]) w2 El').
      * by eapply shape_trans.
      * unfold bus_ok in *. rewrite Forall_forall in *. intros x [k Hx]%list_elem_of_lookup. destruct (decide (k = e)) as [->|Hne]; [rewrite Hu2 in Hx; by injection Hx as <-|].
        rewrite Ho2 in Hx by done. apply Hb. by eapply list_elem_of_lookup_2.
      * intros e' He'. rewrite Ho2 by (intros ->; apply He', elem_of_app; right; by left). apply Hother. intros ?. apply He', elem_of_app. by left.
      * intros e' u' He' Hu' Hp. destruct (decide (e' = e)) as [->|Hne].
        -- rewrite Hu2 in Hu'. injection Hu' as <-. by eapply routes_shape.
        -- apply elem_of_app in He' as [He'|?%list_elem_of_singleton]; [|done]. apply Hdone; [done|by rewrite <- Ho2|done].
Qed.

(** C19: [ub_enum_bfs_route_cal] finds the shortest ways: a port of a new entity with more than one port knows an address exactly
    if a way from this port to the entity of the address (over links to new entities and through
    entities that forward) is as short as any, and the address is that of the entity or of the port
    it arrives at; the distance in the list is the length of that way.  It ends with the fuel
    given by the size of the queue and of the bus, and changes no other entity; if one of its three
    buffers cannot be allocated it returns [-ENOMEM] and changes nothing. *)
Theorem enum_routes_shortest (ok : nat -> bool) (fuel : nat) (w : bus) (l : list nat) : enumerated w l -> fits 4096 w l -> (S (4096 * length (ents w)) <= fuel)%nat ->
  exists w', ub_enum_bfs_route_cal kzalloc ok det fuel w l = Some (if ok 0%nat && ok 1%nat && ok 2%nat then 0 else - ENOMEM, w') /\
    (ok 0%nat && ok 1%nat && ok 2%nat = false -> w' = w) /\ same_shape w w' /\ bus_ok START w' /\ (forall e, e ∉ l -> ents w' !! e = ents w !! e) /\
    (ok 0%nat && ok 1%nat && ok 2%nat = true -> forall e u, e ∈ l -> ents w' !! e = Some u -> port_nums u <> 1 ->
      (forall s c, test_bit u s c = true <-> exists n v j, shortest det w e s n v j /\ at_addr w v j c) /\
      (forall c x, find c (cna_list u) = Some x -> exists n s v j, shortest det w e s n v j /\ at_addr w v j c /\ cn_distance x = u16 (Z.of_nat n))).
Proof.
  intros Hen Hfit Hf. unfold ub_enum_bfs_route_cal. pose proof (en_bus _ _ Hen) as Hb.
  destruct (set_map_ok w l) as (m & -> & Hm); [intros e He; destruct (en_new _ _ Hen e He) as (u & Hu & _); by eexists|]. cbn [mbind option_bind].
  destruct (ok 0%nat); cbn [negb andb]; [|by exists w]. destruct (ok 1%nat); cbn [negb andb]; [|by exists w]. destruct (ok 2%nat); cbn [negb andb]; [|by exists w].
  change (Z.to_nat 4096) with 4096%nat. destruct (core_ok 4096 fuel m w l Hen Hfit Hf Hm l [] w eq_refl eq_refl Hb ltac:(done)) as (w' & E & H1 & H2 & H3 & H4); [by intros ? ? ?%not_elem_of_nil|].
  exists w'. rewrite E. cbn [mbind option_bind]. split; [done|]. split; [done|]. split; [done|]. split; [done|]. split; [done|].
  intros _ e u He Hu Hp. destruct (H4 e u He Hu Hp) as [R1 R2]. split; [exact R1|]. intros c x Hx. by apply (R2 c x).
Qed.
End Core.

(** ** An example *)

Definition fits_check (det : gset nat) (SIZE N : nat) (w : bus) (l : list nat) : bool :=
  forallb (fun e => forallb (fun n => (length (snd (layer det w e n)) + length (snd (layer det w e (S n))) <=? SIZE)%nat) (seq 0 N) && (length (snd (layer det w e N)) =? 0)%nat) l.
Lemma fits_checked (det : gset nat) (SIZE N : nat) (w : bus) (l : list nat) : fits_check det SIZE N w l = true -> fits det SIZE w l.
Proof.
  intros H e n He. unfold fits_check in H. rewrite forallb_forall in H. specialize (H e ltac:(by apply list_elem_of_In)). apply andb_true_iff in H as [H1 H2].
  apply Nat.eqb_eq, nil_length_inv in H2. destruct (Nat.le_gt_cases N n) as [Hle|Hlt].
  - destruct (layer_stops_all det w e N n H2 Hle) as [-> _]. destruct (layer_stops_all det w e N (S n) H2 ltac:(lia)) as [-> _]. cbn. lia.
  - rewrite forallb_forall in H1. specialize (H1 n ltac:(apply in_seq; lia)). by apply Nat.leb_le.
Qed.

Definition three : gset nat := {[0%nat; 1%nat; 2%nat]}.
Lemma topo_enumerated : enumerated 100 three topo [0; 1; 2]%nat.
Proof.
  split.
  - apply links_checked. vm_compute. reflexivity.
  - apply (reach_ok always 100 ltac:(done)), reach_fresh, topo_fresh.
  - apply (bool_decide_eq_true_1 (NoDup [0; 1; 2]%nat)). vm_compute. reflexivity.
  - assert (Hno : forall e, e ∈ [0; 1; 2]%nat -> exists u, ents topo !! e = Some u /\ cna_list u = [] /\ forallb (fun p => bool_decide (cna_maps p = ∅)) (ports u) = true).
    { intros e He. repeat (apply elem_of_cons in He as [->|He]; [eexists; split; [reflexivity|]; split; [reflexivity|vm_compute; reflexivity]|]). by apply not_elem_of_nil in He. }
    intros e He. destruct (Hno e He) as (u & Hu & Hn & Hm). exists u. split; [done|]. split; [done|]. intros i c. unfold test_bit. destruct (ports u !! i) as [p|] eqn:Hp; [|done].
    rewrite forallb_forall in Hm. specialize (Hm p ltac:(apply list_elem_of_In; by eapply list_elem_of_lookup_2)). apply bool_decide_eq_true in Hm. rewrite Hm.
    by apply bool_decide_eq_false_2, not_elem_of_empty.
  - intros e He. apply elem_of_union in He as [He|He]; [apply elem_of_union in He as [He|He]|]; apply elem_of_singleton in He as ->; [left|right; left|right; right; left].
  - intros e e' u u' He He' Hu Hu' E. assert (Hat : forall e u, e ∈ [0; 1; 2]%nat -> ents topo !! e = Some u -> u_cna u = Z.of_nat e + 1).
    { intros x v Hx Hv. repeat (apply elem_of_cons in Hx as [->|Hx]; [injection Hv as <-; reflexivity|]). by apply not_elem_of_nil in Hx. }
    rewrite (Hat e u He Hu), (Hat e' u' He' Hu') in E. lia.
Qed.

Lemma enum_routes_shortest_witness : exists w' u', ub_enum_bfs_route_cal always (fun _ => true) three (S (4096 * length (ents topo))) topo [0; 1; 2]%nat = Some (0, w') /\
  ents w' !! 0%nat = Some u' /\ test_bit u' 0 3 = true.
Proof.
  destruct (enum_routes_shortest always 100 three (fun _ => eq_refl) (fun _ => true) (S (4096 * length (ents topo))) topo [0; 1; 2]%nat topo_enumerated)
    as (w' & E & _ & Hs & _ & _ & H); [apply (fits_checked _ _ 3); vm_compute; reflexivity|apply le_n|].
  destruct (shape_at w' topo 0 (mkent 1 controller [mkport 11 (Some 1%nat) 0; mkport 12 None 0]) (shape_sym _ _ Hs) eq_refl) as (u' & Hu' & Esh).
  exists w', u'. split; [exact E|]. split; [exact Hu'|]. apply (H eq_refl 0%nat u' ltac:(by left) Hu').
  - unfold port_nums. rewrite <- (shape_len _ _ Esh). done.
  - exists 2%nat, 2%nat, 0%nat. split.
    + apply shortest_near. apply (layer_spec three topo 0 1). apply (bool_decide_eq_true_1 ((0, 2, 0)%nat ∈ layer_news three topo 0 1)). vm_compute. reflexivity.
    + eexists. split; [reflexivity|]. by left.
Defined.
