(* ===== verification/SentryLimit.v ===== *)
(** * The rate limit of out-of-memory events

    [drivers/ub/sentry/oom_rate_limit.c]: for each kind of event and each NUMA node the reports of the last
    second are counted and limited.  The limits are set and shown as a text
    ["RR_KSWAPD:10,RR_DIRECT_RECLAIM:5"].

    Text is a list of characters; [strsep] splits it at the first separator.  The integer parser of
    the kernel is a parameter. *)

From S2P Require Import Prelude.
From stdpp Require Import strings.
Local Open Scope Z_scope.

Definition MAX_EVENT_TYPES : nat := 3.
Definition RATE_LIMIT_WINDOW_SEC : Z := 1.
Definition OOM_EVENT_MAX_NUMA_NODES : Z := 8.

Abbreviation text := (list Ascii.ascii).
Definition chars (s : string) : text := String.list_ascii_of_string s.
Definition event_type_names : list text := [chars "RR_KSWAPD"; chars "RR_DIRECT_RECLAIM"; chars "RR_HUGEPAGE_RECLAIM"].
Definition comma : Ascii.ascii := Ascii.ascii_of_nat 44.
Definition colon : Ascii.ascii := Ascii.ascii_of_nat 58.
Definition newline : Ascii.ascii := Ascii.ascii_of_nat 10.
Definition nul : Ascii.ascii := Ascii.ascii_of_nat 0.

(** ** State *)

(** [struct event_rate_limit_state]. *)
Record event_rate_limit_state := { last_update_time : Z; count : Z }.
(** The globals: the limits, the number of configured events, and the states. *)
Record limiter := { g_event_config : list Z; g_config_event_num : Z; g_event_state : nat -> Z -> event_rate_limit_state }.

Definition oom_rate_limit_init (s : limiter) : limiter :=
  {| g_event_config := replicate MAX_EVENT_TYPES (-1); g_config_event_num := g_config_event_num s; g_event_state := fun _ _ => {| last_update_time := 0; count := 0 |} |}.

(** ** The check *)

Section Check.
Context (HZ : Z).

Definition set_state (s : limiter) (reason : nat) (nid : Z) (x : event_rate_limit_state) : limiter :=
  {| g_event_config := g_event_config s; g_config_event_num := g_config_event_num s;
     g_event_state := fun r n => if bool_decide (r = reason /\ n = nid) then x else g_event_state s r n |}.

(** At the time [now] of [jiffies]; [None] for a reason outside the array. *)
Definition oom_rate_limit_check (now : Z) (s : limiter) (reason : nat) (nid : Z) : option (Z * limiter) :=
  if (nid <? 0) || (OOM_EVENT_MAX_NUMA_NODES <=? nid) then Some (- EINVAL, s)
  else
    limit ← g_event_config s !! reason;
    if limit =? 0 then Some (- EINVAL, s)
    else if limit =? -1 then Some (0, s)
    else
      let x := g_event_state s reason nid in
      let time_diff := u64 (now - last_update_time x) in
      let x := if HZ * RATE_LIMIT_WINDOW_SEC <=? time_diff then {| last_update_time := now; count := 0 |} else x in
      if count x <? limit
      then Some (0, set_state s reason nid {| last_update_time := last_update_time x; count := s32 (count x + 1) |})
      else Some (- EINVAL, set_state s reason nid x).
End Check.

(** ** The configuration *)

(** The token, and what is behind the separator. *)
Fixpoint strsep (d : Ascii.ascii) (s : text) : text * option text :=
  match s with
  | [] => ([], None)
  | c :: s' => if bool_decide (c = d) then ([], Some s') else let '(t, r) := strsep d s' in (c :: t, r)
  end.
(** Up to the terminating null character. *)
Fixpoint cstr (s : text) : text := match s with [] => [] | c :: s' => if bool_decide (c = nul) then [] else c :: cstr s' end.

Fixpoint event_index (i : nat) (names : list text) (name : text) : option nat :=
  match names with [] => None | x :: l => if bool_decide (name = x) then Some i else event_index (S i) l name end.

Section Config.
(** [kstrtoint] in base 10, if it succeeds. *)
Context (kstrtoint : text -> option Z).

(** One token. *)
Definition parse_token (config : list Z) (num : Z) (token : text) : option (list Z * Z) :=
  match strsep colon token with
  | (_, None) => None
  | (event_name, Some token) =>
    let '(limit_str, _) := strsep colon token in
    limit ← kstrtoint limit_str;
    if limit <? 0 then None
    else match event_index 0 event_type_names event_name with
         | Some i => Some (<[i := limit]> config, num + 1)
         | None => Some (config, num)
         end
  end.
(** The loop; [copy_str] is the text that is left.  The last result is [copy_str] at the end. *)
Fixpoint parse_loop (fuel : nat) (copy_str : text) (config : list Z) (num : Z) : option (Z * list Z * option text) :=
  match fuel with
  | O => None
  | S fuel' =>
    let '(token, rest) := strsep comma copy_str in
    match parse_token config num token with
    | None => Some (- EINVAL, config, rest)
    | Some (config, num) =>
      match rest with
      | Some s => parse_loop fuel' s config num
      | None => Some (num, config, None)
      end
    end
  end.
(** The result, the configuration and the argument of [kfree]: [None] for a null pointer, or the distance
    from the start of the block. *)
Definition parse_config_string (alloc : bool) (buf : text) (config : list Z) : option (Z * list Z * option (option nat)) :=
  if negb alloc then Some (- ENOMEM, config, None)
  else
    let s := cstr buf in
    '(ret, config, copy_str) ← parse_loop (S (length s)) s config 0;
    Some (ret, config, Some (match copy_str with Some r => Some (length s - length r)%nat | None => None end)).

Definition oom_rate_limit_config_write (alloc : bool) (s : limiter) (buf : text) : option (Z * limiter) :=
  '(ret, config, _) ← parse_config_string alloc buf (replicate MAX_EVENT_TYPES (-1));
  if ret <? 0 then Some (ret, s)
  else Some (0, {| g_event_config := config; g_config_event_num := ret; g_event_state := g_event_state s |}).
End Config.

(** ["%d"] of a number that is not negative. *)
Fixpoint digits (fuel : nat) (n : Z) (acc : text) : text :=
  match fuel with
  | O => acc
  | S fuel' => let acc := Ascii.ascii_of_nat (Z.to_nat (48 + n mod 10)) :: acc in if n <? 10 then acc else digits fuel' (n / 10) acc
  end.
Definition dec (n : Z) : text := digits 11 n [].

(** The loop from the index [i] on; [room] is [len - pos]. *)
Fixpoint read_loop (i : nat) (limits : list Z) (num room : Z) : option text :=
  match limits with
  | [] => Some []
  | limit :: l =>
    if limit =? -1 then read_loop (S i) l num room
    else
      let out := nth i event_type_names [] ++ [colon] ++ dec limit ++ [if Z.of_nat i <? num - 1 then comma else newline] in
      if room <=? Z.of_nat (length out) then None
      else rest ← read_loop (S i) l num (room - Z.of_nat (length out)); Some (out ++ rest)
  end.
(** The number of bytes and the text, or [-ENOSPC]. *)
Definition oom_rate_limit_config_read (s : limiter) (len : Z) : Z * text :=
  match read_loop 0 (g_event_config s) (g_config_event_num s) len with
  | Some t => (Z.of_nat (length t), t)
  | None => (- ENOSPC, [])
  end.

(** ** The limit *)

Section Bound.
Context (HZ : Z).
Hypothesis Hz : 0 < HZ.

(** How many of the events [evs] (time, kind and node) of the kind [r0] on the node [n0] are reported from [t] until a second later. *)
Fixpoint reports (s : limiter) (evs : list (Z * nat * Z)) (r0 : nat) (n0 t : Z) : option Z :=
  match evs with
  | [] => Some 0
  | (now, r, n) :: evs' =>
    '(ret, s') ← oom_rate_limit_check HZ now s r n;
    k ← reports s' evs' r0 n0 t;
    Some ((if (ret =? 0) && bool_decide (r = r0) && (n =? n0) && (t <=? now) && (now <? t + HZ) then 1 else 0) + k)
  end.
(** The events come in order. *)
Fixpoint in_order (from : Z) (evs : list (Z * nat * Z)) : Prop :=
  match evs with [] => True | (now, r, _) :: evs' => from <= now < 2 ^ 64 /\ (r < MAX_EVENT_TYPES)%nat /\ in_order now evs' end.

(** What can still be reported after the time [from]. *)
Definition budget (x : event_rate_limit_state) (limit t from : Z) : Z :=
  let left := Z.max 0 (limit - count x) in
  if t + HZ <=? from then 0 else if t <=? last_update_time x then left else if from <? t then 2 * limit else left + limit.

Lemma check_config (now : Z) (s s' : limiter) (r : nat) (n ret : Z) : oom_rate_limit_check HZ now s r n = Some (ret, s') -> g_event_config s' = g_event_config s.
Proof.
  unfold oom_rate_limit_check. destruct (_ || _); [by intros [= _ <-]|]. destruct (g_event_config s !! r) as [limit|]; [|done]. cbn [mbind option_bind].
  destruct (_ =? 0); [by intros [= _ <-]|]. destruct (_ =? -1); [by intros [= _ <-]|]. destruct (_ <? limit); by intros [= _ <-].
Qed.
Lemma check_other (now : Z) (s s' : limiter) (r r0 : nat) (n n0 ret : Z) : oom_rate_limit_check HZ now s r n = Some (ret, s') -> (r, n) <> (r0, n0) -> g_event_state s' r0 n0 = g_event_state s r0 n0.
Proof.
  intros E Hne. assert (Hset : forall x, g_event_state (set_state s r n x) r0 n0 = g_event_state s r0 n0).
  { intros x. cbn [set_state g_event_state]. rewrite bool_decide_eq_false_2; [done|]. intros [-> ->]. done. }
  revert E. unfold oom_rate_limit_check. destruct (_ || _); [by intros [= _ <-]|]. destruct (g_event_config s !! r) as [limit|]; [|done]. cbn [mbind option_bind].
  destruct (_ =? 0); [by intros [= _ <-]|]. destruct (_ =? -1); [by intros [= _ <-]|]. destruct (_ <? limit); intros [= _ <-]; apply Hset.
Qed.
Lemma rate_budget_pos (x : event_rate_limit_state) (limit t from : Z) : 0 <= limit -> 0 <= budget x limit t from.
Proof. intros Hl. unfold budget. destruct (_ <=? from); [done|]. destruct (_ <=? _); [lia|]. destruct (_ <? t); lia. Qed.
Lemma budget_later (x : event_rate_limit_state) (limit t from now : Z) : 0 <= limit -> 0 <= count x -> last_update_time x <= from <= now -> budget x limit t now <= budget x limit t from.
Proof.
  intros Hl Hc Hn. unfold budget. destruct (Z.leb_spec (t + HZ) now), (Z.leb_spec (t + HZ) from), (Z.leb_spec t (last_update_time x)), (Z.ltb_spec from t), (Z.ltb_spec now t); lia.
Qed.
(** The two ways the state changes. *)
Lemma budget_reset (x : event_rate_limit_state) (limit t from now : Z) : 0 < limit -> 0 <= count x -> last_update_time x <= from <= now -> HZ <= now - last_update_time x ->
  (if (t <=? now) && (now <? t + HZ) then 1 else 0) + budget {| last_update_time := now; count := 1 |} limit t now <= budget x limit t from.
Proof.
  intros Hl Hc Hn Hr. unfold budget. cbn [last_update_time count].
  destruct (Z.leb_spec (t + HZ) now), (Z.leb_spec (t + HZ) from), (Z.leb_spec t (last_update_time x)), (Z.ltb_spec from t), (Z.ltb_spec now t), (Z.leb_spec t now), (Z.ltb_spec now (t + HZ)); cbn [andb]; lia.
Qed.
Lemma budget_more (x : event_rate_limit_state) (limit t from now : Z) : 0 <= count x < limit -> last_update_time x <= from <= now ->
  (if (t <=? now) && (now <? t + HZ) then 1 else 0) + budget {| last_update_time := last_update_time x; count := count x + 1 |} limit t now <= budget x limit t from.
Proof.
  intros Hc Hn. unfold budget. cbn [last_update_time count].
  destruct (Z.leb_spec (t + HZ) now), (Z.leb_spec (t + HZ) from), (Z.leb_spec t (last_update_time x)), (Z.ltb_spec from t), (Z.ltb_spec now t), (Z.leb_spec t now), (Z.ltb_spec now (t + HZ)); cbn [andb]; lia.
Qed.

(** One call, on the state of its own kind and node. *)
Lemma check_same (now : Z) (s s' : limiter) (r : nat) (n ret limit t from : Z) : oom_rate_limit_check HZ now s r n = Some (ret, s') -> g_event_config s !! r = Some limit ->
  let x := g_event_state s r n in let x' := g_event_state s' r n in 0 <= limit < 2 ^ 31 -> 0 <= last_update_time x <= from -> from <= now < 2 ^ 64 -> 0 <= count x < 2 ^ 31 ->
  0 <= last_update_time x' <= now /\ 0 <= count x' < 2 ^ 31 /\
  (if (ret =? 0) && (t <=? now) && (now <? t + HZ) then 1 else 0) + budget x' limit t now <= budget x limit t from.
Proof.
  intros E Hcfg x x' Hl Hlast Hnow Hc. revert E. unfold oom_rate_limit_check. assert (Hset : forall y, g_event_state (set_state s r n y) r n = y).
  { intros y. cbn [set_state g_event_state]. by rewrite bool_decide_eq_true_2. }
  pose proof (budget_later x limit t from now) as Hlater.
  assert (Hsame : Some (- EINVAL, s) = Some (ret, s') -> 0 <= last_update_time x' <= now /\ 0 <= count x' < 2 ^ 31 /\
    (if (ret =? 0) && (t <=? now) && (now <? t + HZ) then 1 else 0) + budget x' limit t now <= budget x limit t from).
  { intros [= <- Es]. unfold x'. rewrite <- Es. fold x. change (- EINVAL =? 0) with false. cbn [andb]. split; [lia|]. split; [done|]. lia. }
  destruct ((n <? 0) || _); [done|]. rewrite Hcfg. cbn [mbind option_bind]. destruct (Z.eqb_spec limit 0) as [Hl0|Hl0]; [done|].
  rewrite (proj2 (Z.eqb_neq limit (-1))) by lia. fold x. rewrite (uwrap_small 64 (now - last_update_time x)) by lia. unfold RATE_LIMIT_WINDOW_SEC. rewrite Z.mul_1_r.
  destruct (Z.leb_spec HZ (now - last_update_time x)) as [Hr|Hr]; cbn [count last_update_time].
  - rewrite (proj2 (Z.ltb_lt 0 limit)) by lia. change (s32 (0 + 1)) with 1. intros [= <- Es]. unfold x'. rewrite <- Es, Hset. cbn [last_update_time count].
    split; [lia|]. split; [lia|]. change (0 =? 0) with true. cbn [andb]. apply budget_reset; lia.
  - destruct (Z.ltb_spec (count x) limit) as [Hlt|Hge]; intros [= <- Es]; unfold x'; rewrite <- Es, Hset; cbn [last_update_time count].
    + rewrite (swrap_small 32 (count x + 1)) by lia. split; [lia|]. split; [lia|]. change (0 =? 0) with true. cbn [andb]. apply budget_more; lia.
    + change (- EINVAL =? 0) with false. cbn [andb]. split; [lia|]. split; [done|]. lia.
Qed.

Lemma reports_bound (r0 : nat) (n0 t limit : Z) (evs : list (Z * nat * Z)) : 0 <= limit < 2 ^ 31 -> forall from s, length (g_event_config s) = MAX_EVENT_TYPES -> g_event_config s !! r0 = Some limit ->
  let x := g_event_state s r0 n0 in 0 <= last_update_time x <= from -> 0 <= count x < 2 ^ 31 -> in_order from evs ->
  exists k, reports s evs r0 n0 t = Some k /\ 0 <= k <= budget x limit t from.
Proof.
  intros Hl. induction evs as [|[[now r] n] evs IH]; intros from s Hlen Hcfg x Hlast Hc Hord; cbn [reports].
  { exists 0. split; [done|]. pose proof (rate_budget_pos x limit t from). lia. }
  destruct Hord as (Hnow & Hr & Hord). assert (Hsome : exists ret s', oom_rate_limit_check HZ now s r n = Some (ret, s')).
  { unfold oom_rate_limit_check. destruct (_ || _); [by eexists _, _|]. destruct (lookup_lt_is_Some_2 (g_event_config s) r) as [l ->]; [lia|]. cbn [mbind option_bind].
    destruct (l =? 0); [by eexists _, _|]. destruct (l =? -1); [by eexists _, _|]. destruct (_ <? l); by eexists _, _. }
  destruct Hsome as (ret & s' & E). rewrite E. cbn [mbind option_bind]. pose proof (check_config _ _ _ _ _ _ E) as Hcfg'. destruct (decide ((r, n) = (r0, n0))) as [[= -> ->]|Hne].
  - destruct (check_same now s s' r0 n0 ret limit t from E Hcfg Hl Hlast Hnow Hc) as (A1 & A2 & A3). destruct (IH now s') as (k & -> & Hk); [by rewrite Hcfg'|by rewrite Hcfg'|done|done|done|].
    cbn [mbind option_bind]. eexists. split; [done|]. rewrite bool_decide_eq_true_2, Z.eqb_refl by done. fold x in A3. rewrite !andb_true_r. destruct (_ && _); lia.
  - pose proof (check_other _ _ _ _ _ _ _ _ E Hne) as Eo. destruct (IH now s') as (k & -> & Hk); [by rewrite Hcfg'|by rewrite Hcfg'|rewrite Eo; fold x; lia|by rewrite Eo|done|].
    rewrite Eo in Hk. fold x in Hk. cbn [mbind option_bind]. eexists. split; [done|]. pose proof (budget_later x limit t from now).
    assert (Hf : bool_decide (r = r0) && (n =? n0) = false) by (destruct (bool_decide_reflect (r = r0)) as [->|]; [|done]; destruct (Z.eqb_spec n n0) as [->|]; done).
    rewrite <- (andb_assoc (ret =? 0)), Hf, andb_false_r. cbn [andb]. lia.
Qed.

(** C37: the limit of a kind of event with the limit [n] lets at most [2 n] reports of each node through in any second, whatever else is reported
    and however the calls are spread, from the initial state on; with the limit 0 there is none. *)
Theorem rate_limit_bound (s : limiter) (r0 : nat) (n0 t limit from : Z) (evs : list (Z * nat * Z)) : 0 <= limit < 2 ^ 31 -> length (g_event_config s) = MAX_EVENT_TYPES ->
  g_event_config s !! r0 = Some limit -> 0 <= from -> in_order from evs -> g_event_state s = g_event_state (oom_rate_limit_init s) ->
  exists k, reports s evs r0 n0 t = Some k /\ 0 <= k <= 2 * limit.
Proof.
  intros Hl Hlen Hcfg Hfrom Hord Hst. assert (Hx : g_event_state s r0 n0 = {| last_update_time := 0; count := 0 |}) by (by rewrite Hst).
  destruct (reports_bound r0 n0 t limit evs Hl from s Hlen Hcfg) as (k & E & Hk); [rewrite Hx; cbn; lia|rewrite Hx; cbn; lia|done|]. exists k. split; [done|].
  rewrite Hx in Hk. revert Hk. unfold budget. cbn [last_update_time count]. destruct (_ <=? from); [lia|]. destruct (_ <=? 0); [lia|]. destruct (_ <? t); lia.
Qed.
End Bound.

(** Two events a second. *)
Definition two_a_second : limiter := {| g_event_config := [2; -1; -1]; g_config_event_num := 1; g_event_state := fun _ _ => {| last_update_time := 0; count := 0 |} |}.
Definition burst : list (Z * nat * Z) := [(1000, O, 0); (1249, O, 0); (1250, O, 0); (1251, O, 0)].

Lemma rate_limit_bound_witness : exists k, reports 250 two_a_second burst 0 0 1249 = Some k /\ 0 <= k <= 4.
Proof.
  apply (rate_limit_bound 250 ltac:(lia) two_a_second 0 0 1249 2 1000 burst).
  - lia.
  - reflexivity.
  - reflexivity.
  - lia.
  - unfold burst, in_order, MAX_EVENT_TYPES. repeat split; lia.
  - reflexivity.
Defined.

(** More than the limit is reported within a second: the window starts with the first event, and three events of a limit of two pass
    within three ticks. *)
Theorem rate_limit_two_windows : reports 250 two_a_second burst 0 0 1249 = Some 3.
Proof. vm_compute. reflexivity. Qed.

(** ** The memory of the parser *)

Lemma strsep_shorter (d : Ascii.ascii) (s t r : text) : strsep d s = (t, Some r) -> (length r < length s)%nat.
Proof.
  revert t r. induction s as [|c s IH]; intros t r; cbn [strsep]; [done|]. case_bool_decide; [intros [= _ <-]; cbn; lia|].
  destruct (strsep d s) as [t' r']. intros [= _ ->]. specialize (IH t' r eq_refl). cbn. lia.
Qed.
Lemma parse_loop_ends (kstrtoint : text -> option Z) (fuel : nat) : forall s cfg num, (length s < fuel)%nat ->
  exists ret cfg' r, parse_loop kstrtoint fuel s cfg num = Some (ret, cfg', r) /\ forall x, r = Some x -> (length x < length s)%nat.
Proof.
  induction fuel as [|fuel IH]; intros s cfg num Hf; [lia|]. cbn [parse_loop]. destruct (strsep comma s) as [t r] eqn:Es.
  assert (Hr : forall x, r = Some x -> (length x < length s)%nat) by (intros x ->; by eapply strsep_shorter).
  destruct (parse_token _ _ _ _) as [[cfg1 num1]|]; [|by eexists _, _, _]. destruct r as [s'|]; [|by eexists _, _, _]. specialize (Hr s' eq_refl).
  destruct (IH s' cfg1 num1) as (ret & cfg' & r' & -> & Hr'); [lia|]. eexists _, _, _. split; [done|]. intros x Hx. specialize (Hr' x Hx). lia.
Qed.

(** The parser never frees its copy of the text: whatever the input, it ends, and the pointer it passes to [kfree] is null
    or lies behind the start of the block, because [strsep] has moved it. *)
Theorem parse_never_frees (kstrtoint : text -> option Z) (buf : text) (config : list Z) :
  exists ret config' p, parse_config_string kstrtoint true buf config = Some (ret, config', Some p) /\ p <> Some 0%nat.
Proof.
  unfold parse_config_string. cbn [negb]. destruct (parse_loop_ends kstrtoint (S (length (cstr buf))) (cstr buf) config 0 ltac:(lia)) as (ret & cfg & r & -> & Hr). cbn [mbind option_bind].
  eexists _, _, _. split; [done|]. destruct r as [x|]; [|done]. specialize (Hr x eq_refl). intros [= E]. lia.
Qed.

(** ** Text and configuration *)

Definition plain (c : Ascii.ascii) : Prop := c <> comma /\ c <> colon /\ c <> newline /\ c <> nul.

Lemma strsep_app (d : Ascii.ascii) (s r : text) : Forall (fun c => c <> d) s -> strsep d (s ++ d :: r) = (s, Some r).
Proof. induction 1 as [|c s Hc _ IH]; cbn [app strsep]; [by rewrite bool_decide_eq_true_2|]. by rewrite bool_decide_eq_false_2, IH. Qed.
Lemma strsep_none (d : Ascii.ascii) (s : text) : Forall (fun c => c <> d) s -> strsep d s = (s, None).
Proof. induction 1 as [|c s Hc _ IH]; cbn [strsep]; [done|]. by rewrite bool_decide_eq_false_2, IH. Qed.
Lemma cstr_id (s : text) : Forall (fun c => c <> nul) s -> cstr s = s.
Proof. induction 1 as [|c s Hc _ IH]; cbn [cstr]; [done|]. by rewrite bool_decide_eq_false_2, IH. Qed.

Definition digit (c : Ascii.ascii) : Prop := exists k, (k < 10)%nat /\ c = Ascii.ascii_of_nat (48 + k).
Lemma digits_ok (fuel : nat) : forall n acc, 0 <= n -> Forall digit acc -> Forall digit (digits fuel n acc) /\ (length (digits fuel n acc) <= length acc + fuel)%nat.
Proof.
  induction fuel as [|fuel IH]; intros n acc Hn Ha; cbn [digits]; [split; [done|lia]|]. pose proof (Z.mod_pos_bound n 10 ltac:(lia)) as Hm.
  assert (Hd : Forall digit (Ascii.ascii_of_nat (Z.to_nat (48 + n mod 10)) :: acc)).
  { constructor; [|done]. exists (Z.to_nat (n mod 10)). split; [lia|]. f_equal. lia. }
  destruct (n <? 10); [cbn [length]; split; [done|lia]|]. destruct (IH (n / 10) _ (Z.div_pos n 10 Hn ltac:(lia)) Hd) as [A B]. split; [done|]. cbn [length] in B. lia.
Qed.
Lemma digit_plain (c : Ascii.ascii) : digit c -> plain c.
Proof.
  intros (k & Hk & ->). assert (Hne : forall m, (m < 256)%nat -> m <> (48 + k)%nat -> Ascii.ascii_of_nat (48 + k) <> Ascii.ascii_of_nat m).
  { intros m Hm Hd E. apply Hd. rewrite <- (Ascii.nat_ascii_embedding m Hm), <- E. apply Ascii.nat_ascii_embedding. lia. }
  split; [apply Hne; lia|]. split; [apply Hne; lia|]. split; apply Hne; lia.
Qed.
Lemma dec_ok (n : Z) : 0 <= n -> Forall plain (dec n) /\ (length (dec n) <= 11)%nat.
Proof. intros Hn. destruct (digits_ok 11 n [] Hn ltac:(done)) as [A B]. split; [|done]. eapply Forall_impl; [exact A|]. apply digit_plain. Qed.

Definition plainb (c : Ascii.ascii) : bool := negb (bool_decide (c = comma) || bool_decide (c = colon) || bool_decide (c = newline) || bool_decide (c = nul)).
Lemma plainb_ok (s : text) : forallb plainb s = true -> Forall plain s.
Proof.
  rewrite forallb_forall, Forall_forall. intros H c Hc%list_elem_of_In. specialize (H c Hc). unfold plainb in H. rewrite negb_true_iff, !orb_false_iff, !bool_decide_eq_false in H. unfold plain. tauto.
Qed.
Lemma names_ok (i : nat) (name : text) : event_type_names !! i = Some name -> Forall plain name /\ (length name <= 19)%nat /\ event_index 0 event_type_names name = Some i.
Proof.
  intros H. assert (Hc : forallb plainb name && (length name <=? 19)%nat && bool_decide (event_index 0 event_type_names name = Some i) = true).
  { destruct i as [|[|[|i]]]; [| | |done]; injection H as <-; vm_compute; reflexivity. }
  rewrite !andb_true_iff, bool_decide_eq_true in Hc. destruct Hc as [[H1 H2] H3]. split; [by apply plainb_ok|]. split; [by apply Nat.leb_le|done].
Qed.

Section RoundTrip.
(** The parser of the kernel reads a decimal number, with or without a newline behind it, and nothing with text behind
    a newline. *)
Context (kstrtoint : text -> option Z).
Hypothesis Hknl : forall u c v, kstrtoint (u ++ newline :: c :: v) = None.
Hypothesis Hkstr : forall n, 0 <= n < 2 ^ 31 -> kstrtoint (dec n) = Some n /\ kstrtoint (dec n ++ [newline]) = Some n.

Definition entry (i : nat) (n : Z) : text := nth i event_type_names [] ++ [colon] ++ dec n.

Lemma entry_chars (i : nat) (n : Z) (d : Ascii.ascii) : (i < 3)%nat -> 0 <= n -> colon <> d -> (forall c, plain c -> c <> d) -> Forall (fun c => c <> d) (entry i n).
Proof.
  intros Hi Hn Hcd Hd. destruct (lookup_lt_is_Some_2 event_type_names i Hi) as [name Hname]. destruct (names_ok i name Hname) as (H1 & _). unfold entry. rewrite (nth_lookup_Some _ _ _ _ Hname).
  destruct (dec_ok n Hn) as [H2 _]. apply Forall_app. split; [by eapply Forall_impl; [exact H1|]|]. apply Forall_app. split; [by apply Forall_singleton|]. by eapply Forall_impl; [exact H2|].
Qed.
Lemma entry_length (i : nat) (n : Z) : (i < 3)%nat -> 0 <= n -> (0 < length (entry i n) <= 31)%nat.
Proof.
  intros Hi Hn. destruct (lookup_lt_is_Some_2 event_type_names i Hi) as [name Hname]. destruct (names_ok i name Hname) as (_ & H1 & _). destruct (dec_ok n Hn) as [_ H2].
  unfold entry. rewrite (nth_lookup_Some _ _ _ _ Hname), !length_app. cbn [length]. lia.
Qed.

Lemma token_ok (cfg : list Z) (num : Z) (i : nat) (n : Z) (tail : text) : (i < 3)%nat -> 0 <= n < 2 ^ 31 -> tail = [] \/ tail = [newline] ->
  parse_token kstrtoint cfg num (entry i n ++ tail) = Some (<[i := n]> cfg, num + 1).
Proof.
  intros Hi Hn Ht. destruct (lookup_lt_is_Some_2 event_type_names i Hi) as [name Hname]. destruct (names_ok i name Hname) as (H1 & _ & H3). destruct (dec_ok n ltac:(lia)) as [H2 _].
  unfold parse_token, entry. rewrite (nth_lookup_Some _ _ _ _ Hname), <- !app_assoc. cbn [app]. rewrite strsep_app by (eapply Forall_impl; [exact H1|]; intros c Hc; apply Hc).
  rewrite strsep_none.
  - assert (Hp : kstrtoint (dec n ++ tail) = Some n) by (destruct (Hkstr n Hn) as [E1 E2]; destruct Ht as [-> | ->]; [by rewrite app_nil_r|done]). rewrite Hp. cbn [mbind option_bind].
    rewrite (proj2 (Z.ltb_ge n 0)) by lia. by rewrite H3.
  - apply Forall_app. split; [eapply Forall_impl; [exact H2|]; intros c Hc; apply Hc|]. destruct Ht as [-> | ->]; [constructor|by apply Forall_singleton].
Qed.
Lemma step_more (fuel : nat) (i : nat) (n num : Z) (r : text) (cfg : list Z) : (i < 3)%nat -> 0 <= n < 2 ^ 31 ->
  parse_loop kstrtoint (S fuel) (entry i n ++ comma :: r) cfg num = parse_loop kstrtoint fuel r (<[i := n]> cfg) (num + 1).
Proof.
  intros Hi Hn. cbn [parse_loop]. rewrite strsep_app by (apply entry_chars; [done|lia|done|]; intros c Hc; apply Hc).
  pose proof (token_ok cfg num i n [] Hi Hn (or_introl eq_refl)) as E. rewrite app_nil_r in E. by rewrite E.
Qed.
Lemma step_last (fuel : nat) (i : nat) (n num : Z) (cfg : list Z) : (i < 3)%nat -> 0 <= n < 2 ^ 31 ->
  parse_loop kstrtoint (S fuel) (entry i n ++ [newline]) cfg num = Some (num + 1, <[i := n]> cfg, None).
Proof.
  intros Hi Hn. cbn [parse_loop]. rewrite strsep_none.
  - by rewrite (token_ok cfg num i n [newline] Hi Hn (or_intror eq_refl)).
  - apply Forall_app. split; [apply entry_chars; [done|lia|done|]; intros c Hc; apply Hc|by apply Forall_singleton].
Qed.
Lemma parse_loop_mono (fuel : nat) : forall fuel' s cfg num x, (fuel <= fuel')%nat -> parse_loop kstrtoint fuel s cfg num = Some x -> parse_loop kstrtoint fuel' s cfg num = Some x.
Proof.
  induction fuel as [|fuel IH]; intros [|fuel'] s cfg num x Hle; try done; [lia|]. cbn [parse_loop]. destruct (strsep comma s) as [t r]. destruct (parse_token _ _ _ _) as [[c n]|]; [|done].
  destruct r as [s'|]; [|done]. apply IH. lia.
Qed.

(** What the writer makes of a parsed text, in any state. *)
Lemma write_text (s : limiter) (t : text) (cfg : list Z) (ret : Z) (o : option text) (fuel : nat) : Forall (fun c => c <> nul) t -> (fuel <= S (length t))%nat ->
  parse_loop kstrtoint fuel t (replicate MAX_EVENT_TYPES (-1)) 0 = Some (ret, cfg, o) ->
  oom_rate_limit_config_write kstrtoint true s t = Some (if ret <? 0 then (ret, s) else (0, {| g_event_config := cfg; g_config_event_num := ret; g_event_state := g_event_state s |})).
Proof.
  intros Ht Hf Hp. unfold oom_rate_limit_config_write, parse_config_string. cbn [negb]. rewrite cstr_id by done. rewrite (parse_loop_mono fuel _ _ _ _ _ Hf Hp). cbn [mbind option_bind]. by destruct (ret <? 0).
Qed.

(** A newline between two events. *)
Lemma strsep_prefix (d : Ascii.ascii) (u r : text) : Forall (fun c => c <> d) u -> strsep d (u ++ r) = (u ++ fst (strsep d r), snd (strsep d r)).
Proof. induction 1 as [|c u Hc _ IH]; cbn [app strsep]; [by destruct (strsep d r)|]. rewrite bool_decide_eq_false_2 by done. by rewrite IH. Qed.
Lemma step_bad (fuel : nat) (i j : nat) (n m num : Z) (r : text) (cfg : list Z) : (i < 3)%nat -> (j < 3)%nat -> 0 <= n -> 0 <= m ->
  exists o, parse_loop kstrtoint (S fuel) (entry i n ++ newline :: entry j m ++ r) cfg num = Some (- EINVAL, cfg, o).
Proof.
  intros Hi Hj Hn Hm. cbn [parse_loop]. change (newline :: entry j m ++ r) with ([newline] ++ entry j m ++ r). rewrite !app_assoc, strsep_prefix.
  - set (t := fst (strsep comma r)). destruct (lookup_lt_is_Some_2 event_type_names i Hi) as [name Hname]. destruct (names_ok i name Hname) as (H1 & _). destruct (lookup_lt_is_Some_2 event_type_names j Hj) as [name' Hname']. destruct (names_ok j name' Hname') as (H1' & _). destruct (dec_ok n Hn) as [H2 _].
    assert (Hne : exists c v, name' = c :: v) by (destruct j as [|[|[|j]]]; [| | |done]; injection Hname' as <-; by eexists _, _). destruct Hne as (c & v & ->).
    assert (Hcol : forall u, Forall plain u -> Forall (fun c => c <> colon) u) by (intros u Hu; eapply Forall_impl; [exact Hu|]; intros z Hz; apply Hz).
    unfold parse_token, entry. rewrite (nth_lookup_Some _ _ _ _ Hname), (nth_lookup_Some _ _ _ _ Hname'), <- !app_assoc. cbn [app]. rewrite (strsep_app colon name) by (by apply Hcol).
    replace (dec n ++ newline :: c :: v ++ colon :: dec m ++ t) with ((dec n ++ newline :: c :: v) ++ colon :: dec m ++ t) by (by rewrite <- app_assoc).
    rewrite strsep_app by (apply Forall_app; split; [by apply Hcol|]; constructor; [done|by apply Hcol]). rewrite Hknl. by eexists.
  - apply Forall_app. split; [apply Forall_app; split|]; [|by apply Forall_singleton|]; (apply entry_chars; [done|done|done|]; intros z Hz; apply Hz).
Qed.

Definition configured (limits : list Z) : Z := Z.of_nat (length (filter (fun n => n <> -1) limits)).

(** The events with a limit, and their text if [num] is the number of events that the reader goes by. *)
Definition set_limits (limits : list Z) : list (nat * Z) := omap (fun '(i, n) => if n =? -1 then None else Some (i, n)) (zip (seq 0 (length limits)) limits).
Definition separator (num : Z) (i : nat) : Ascii.ascii := if Z.of_nat i <? num - 1 then comma else newline.
Fixpoint show (num : Z) (l : list (nat * Z)) : text := match l with [] => [] | (i, n) :: l' => entry i n ++ separator num i :: show num l' end.
(** Each event but the last is below [num - 1], and the last is not. *)
Fixpoint separated (num : Z) (l : list (nat * Z)) : bool :=
  match l with [] => false | [(i, _)] => num - 1 <=? Z.of_nat i | (i, _) :: l' => (Z.of_nat i <? num - 1) && separated num l' end.

Definition limit_ok (x : nat * Z) : Prop := (fst x < 3)%nat /\ 0 <= snd x < 2 ^ 31.
Lemma show_parse (count : Z) (l : list (nat * Z)) : Forall limit_ok l -> l <> [] -> forall cfg num, exists cfg' o,
  parse_loop kstrtoint (S (length l)) (show count l) cfg num = Some (if separated count l then num + Z.of_nat (length l) else - EINVAL, cfg', o) /\
  (separated count l = true -> cfg' = foldl (fun c '(i, n) => <[i := n]> c) cfg l).
Proof.
  induction 1 as [|[i n] l [Hi Hn] Hl IH]; intros Hne cfg num; [done|]. cbn [fst snd] in Hi, Hn. cbn [show length separated]. unfold separator. destruct (Z.ltb_spec (Z.of_nat i) (count - 1)) as [Hlt|Hge].
  - rewrite step_more by done. destruct l as [|a l].
    + cbn [show parse_loop strsep parse_token length]. rewrite (proj2 (Z.leb_gt _ _)) by lia. by eexists _, _.
    + destruct (IH ltac:(done) (<[i := n]> cfg) (num + 1)) as (cfg' & o & E & Hc). rewrite E. eexists _, _. split; [|exact Hc]. cbn [andb length]. destruct (separated count (a :: l)); [|done]. do 3 f_equal. lia.
  - destruct l as [|[j m] l].
    + cbn [show]. rewrite step_last by done. rewrite (proj2 (Z.leb_le _ _)) by lia. eexists _, _. split; [|done]. done.
    + apply Forall_cons in Hl as [[Hj Hm] _]. cbn [fst snd] in Hj, Hm. cbn [show]. destruct (step_bad (S (S (length l))) i j n m num (separator count j :: show count l) cfg) as (o & E); [done|done|lia|lia|]. cbn [length]. rewrite E. by eexists _, _.
Qed.
Lemma show_chars (count : Z) (l : list (nat * Z)) : Forall limit_ok l -> Forall (fun c => c <> nul) (show count l) /\ (length l <= length (show count l))%nat.
Proof.
  induction 1 as [|[i n] l [Hi Hn] Hl [A B]]; [split; [constructor|done]|]. cbn [fst snd] in Hi, Hn. cbn [show length]. rewrite length_app. cbn [length]. split; [|lia]. apply Forall_app. split.
  - apply entry_chars; [done|lia|done|]. intros c Hc. apply Hc.
  - constructor; [|done]. unfold separator. by destruct (_ <? _).
Qed.

Lemma read_one (i : nat) (n num room : Z) (l : list Z) : (i < 3)%nat -> 0 <= n -> 33 <= room ->
  exists room', room - 32 <= room' /\ read_loop i (n :: l) num room = (rest ← read_loop (S i) l num room'; Some (entry i n ++ (if Z.of_nat i <? num - 1 then comma else newline) :: rest)).
Proof.
  intros Hi Hn Hr. pose proof (entry_length i n Hi Hn) as Hlen. cbn [read_loop]. rewrite (proj2 (Z.eqb_neq n (-1))) by lia.
  assert (Eo : forall x, nth i event_type_names [] ++ [colon] ++ dec n ++ [x] = entry i n ++ [x]) by (intros x; unfold entry; by rewrite <- !app_assoc). rewrite Eo.
  rewrite length_app. cbn [length]. rewrite (proj2 (Z.leb_gt _ _)) by lia.
  exists (room - Z.of_nat (length (entry i n) + 1)). split; [lia|]. destruct (read_loop _ _ _ _); cbn [mbind option_bind]; [by rewrite <- app_assoc|done].
Qed.
Lemma read_skip (i : nat) (num room : Z) (l : list Z) : read_loop i (-1 :: l) num room = read_loop (S i) l num room.
Proof. done. Qed.
Lemma read_done (i : nat) (num room : Z) : read_loop i [] num room = Some [].
Proof. done. Qed.

Lemma read_shows (a b c num len : Z) : Forall (fun n => n = -1 \/ 0 <= n < 2 ^ 31) [a; b; c] -> 128 <= len -> read_loop 0 [a; b; c] num len = Some (show num (set_limits [a; b; c])) /\
  Forall limit_ok (set_limits [a; b; c]) /\ foldl (fun c '(i, n) => <[i := n]> c) (replicate MAX_EVENT_TYPES (-1)) (set_limits [a; b; c]) = [a; b; c].
Proof.
  intros Hlim Hlen. rewrite !Forall_cons in Hlim. destruct Hlim as (La & Lb & Lc & _). unfold set_limits. cbn [length seq zip zip_with omap list_omap].
  destruct La as [-> | La], Lb as [-> | Lb], Lc as [-> | Lc];
    repeat (match goal with |- context [?x =? -1] => first [rewrite (proj2 (Z.eqb_neq x (-1))) by lia | change (-1 =? -1) with true; cbv iota] end);
    (split; [|split; [repeat (constructor; [split; cbn [fst snd]; lia|]); constructor|reflexivity]]);
    rewrite ?read_skip; repeat (match goal with |- context [read_loop ?i (?n :: ?l) ?num ?room] => destruct (read_one i n num room l ltac:(lia) ltac:(lia) ltac:(lia)) as (? & ? & ->) end; rewrite ?read_skip);
    rewrite ?read_done; reflexivity.
Qed.

(** C34: The limits can be shown and set again, exactly when the number of events that the reader goes by separates them: for
    any limits, at least one of them set, and any [g_config_event_num], [oom_rate_limit_config_read] gives a text; if every event with a limit but the last
    has an index below [g_config_event_num - 1] and the last has not, [oom_rate_limit_config_write] of the text succeeds in any
    state and sets exactly these limits and their number; otherwise it returns [-EINVAL] and changes nothing. If the
    number is that of the events with a limit, the text is refused only if exactly the second and the third have one. *)
Theorem rate_config_roundtrip (s s0 : limiter) (a b c len : Z) : g_event_config s = [a; b; c] -> Forall (fun n => n = -1 \/ 0 <= n < 2 ^ 31) [a; b; c] -> 0 < configured [a; b; c] -> 128 <= len ->
  exists t, oom_rate_limit_config_read s len = (Z.of_nat (length t), t) /\
    oom_rate_limit_config_write kstrtoint true s0 t =
      Some (if separated (g_config_event_num s) (set_limits [a; b; c]) then (0, {| g_event_config := [a; b; c]; g_config_event_num := configured [a; b; c]; g_event_state := g_event_state s0 |}) else (- EINVAL, s0)) /\
    (g_config_event_num s = configured [a; b; c] -> separated (g_config_event_num s) (set_limits [a; b; c]) = negb ((a =? -1) && negb (b =? -1) && negb (c =? -1))).
Proof.
  intros Hcfg Hlim Hpos Hlen. set (l := set_limits [a; b; c]). destruct (read_shows a b c (g_config_event_num s) len Hlim Hlen) as (Hr & Hl & Hf). fold l in Hr, Hl, Hf. exists (show (g_config_event_num s) l).
  assert (Hcount : Z.of_nat (length l) = configured [a; b; c] /\ (g_config_event_num s = configured [a; b; c] -> separated (g_config_event_num s) l = negb ((a =? -1) && negb (b =? -1) && negb (c =? -1)))).
  { unfold l, set_limits, configured in *. cbn [length seq zip zip_with omap list_omap] in *. rewrite !filter_cons, filter_nil in *.
    destruct (Z.eqb_spec a (-1)), (Z.eqb_spec b (-1)), (Z.eqb_spec c (-1)); repeat (match goal with |- context [decide (?x <> -1)] => first [rewrite (decide_True (P := x <> -1)) in * by done | rewrite (decide_False (P := x <> -1)) in * by tauto] end);
      cbn [length] in *; (split; [done|]); intros ->; try (exfalso; lia); reflexivity. }
  destruct Hcount as [Hc1 Hc2]. split; [|split; [|exact Hc2]].
  - unfold oom_rate_limit_config_read. by rewrite Hcfg, Hr.
  - assert (Hne : l <> []) by (intros E; rewrite E in Hc1; cbn in Hc1; lia). destruct (show_parse (g_config_event_num s) l Hl Hne (replicate MAX_EVENT_TYPES (-1)) 0) as (cfg & o & E & Hc). destruct (show_chars (g_config_event_num s) l Hl) as [C1 C2].
    rewrite (write_text s0 _ cfg _ o (S (length l)) C1 ltac:(lia) E). destruct (separated _ l); [|done]. rewrite (Hc eq_refl), Hf, Z.add_0_l, Hc1. by rewrite (proj2 (Z.ltb_ge _ _)) by lia.
Qed.
End RoundTrip.

(** ** A parser of integers, for the example *)

Definition strip (s : text) : text := match rev s with c :: r => if bool_decide (c = newline) then rev r else s | [] => s end.
Definition digit_value (c : Ascii.ascii) : Z := Z.of_nat (Ascii.nat_of_ascii c) - 48.
Definition is_digit (c : Ascii.ascii) : bool := (0 <=? digit_value c) && (digit_value c <? 10).
Definition value (acc : Z) (s : text) : Z := foldl (fun a c => 10 * a + digit_value c) acc s.
Definition parse_int (s : text) : option Z :=
  let s := strip s in if bool_decide (s = []) || negb (forallb is_digit s) || (2 ^ 31 <=? value 0 s) then None else Some (value 0 s).

Lemma digit_val (k : nat) : (k < 10)%nat -> digit_value (Ascii.ascii_of_nat (48 + k)) = Z.of_nat k.
Proof. intros Hk. unfold digit_value. rewrite Ascii.nat_ascii_embedding by lia. lia. Qed.
Lemma digits_value (fuel : nat) : forall n acc, 0 <= n < 10 ^ Z.of_nat fuel -> value 0 (digits fuel n acc) = value n acc.
Proof.
  induction fuel as [|fuel IH]; intros n acc Hn; [cbn in Hn; replace n with 0 by lia; done|]. cbn [digits]. pose proof (Z.mod_pos_bound n 10 ltac:(lia)) as Hm. pose proof (Z.div_mod n 10 ltac:(lia)) as Hd.
  assert (Hc : digit_value (Ascii.ascii_of_nat (Z.to_nat (48 + n mod 10))) = n mod 10).
  { replace (Z.to_nat (48 + n mod 10)) with (48 + Z.to_nat (n mod 10))%nat by lia. rewrite digit_val by lia. lia. }
  destruct (Z.ltb_spec n 10) as [Hlt|Hge].
  - unfold value. cbn [foldl]. rewrite Hc. rewrite Z.mod_small by lia. f_equal.
  - rewrite IH. { unfold value. cbn [foldl]. rewrite Hc. f_equal. lia. }
    rewrite Nat2Z.inj_succ, Z.pow_succ_r in Hn by lia. split; [apply Z.div_pos; lia|]. apply Z.div_lt_upper_bound; lia.
Qed.
Lemma dec_digits (n : Z) : 0 <= n -> Forall digit (dec n) /\ dec n <> [].
Proof.
  intros Hn. split; [by apply digits_ok|]. assert (Hg : forall fuel m acc, acc <> [] -> digits fuel m acc <> []).
  { induction fuel as [|fuel IH]; intros m acc Ha; [done|]. cbn [digits]. destruct (m <? 10); [done|]. by apply IH. }
  unfold dec. assert (H1 : forall fuel, digits (S fuel) n [] <> []); [|apply (H1 10%nat)]. intros fuel. cbn [digits]. destruct (n <? 10); [done|]. by apply Hg.
Qed.
Lemma parse_int_ok (n : Z) : 0 <= n < 2 ^ 31 -> parse_int (dec n) = Some n /\ parse_int (dec n ++ [newline]) = Some n.
Proof.
  intros Hn. destruct (dec_digits n ltac:(lia)) as [Hd Hne]. assert (Hv : value 0 (dec n) = n) by (unfold dec; rewrite digits_value; [done|change (10 ^ Z.of_nat 11) with 100000000000; lia]).
  assert (Hs1 : strip (dec n) = dec n).
  { unfold strip. destruct (rev (dec n)) as [|c r] eqn:Er; [done|]. rewrite bool_decide_eq_false_2; [done|]. intros ->. assert (Hc : newline ∈ dec n).
    { apply list_elem_of_In, in_rev. rewrite Er. by left. }
    rewrite Forall_forall in Hd. apply Hd, digit_plain in Hc as (_ & _ & Hnl & _). done. }
  assert (Hs2 : strip (dec n ++ [newline]) = dec n) by (unfold strip; rewrite rev_app_distr; cbn [rev app]; rewrite bool_decide_eq_true_2 by done; apply rev_involutive).
  assert (Hall : forallb is_digit (dec n) = true).
  { apply forallb_forall. intros c Hc%list_elem_of_In. rewrite Forall_forall in Hd. destruct (Hd c Hc) as (k & Hk & ->). unfold is_digit. rewrite digit_val by done. lia. }
  unfold parse_int. rewrite Hs1, Hs2, Hall, Hv, bool_decide_eq_false_2 by done. rewrite (proj2 (Z.leb_gt _ _)) by lia. done.
Qed.

Definition first_and_third : limiter := {| g_event_config := [10; -1; 5]; g_config_event_num := 2; g_event_state := fun _ _ => {| last_update_time := 0; count := 0 |} |}.
Lemma parse_int_newline (u : text) (c : Ascii.ascii) (v : text) : parse_int (u ++ newline :: c :: v) = None.
Proof.
  assert (Hall : forall w, newline ∈ w -> forallb is_digit w = false). { intros w Hw. apply not_true_iff_false. intros Hf. rewrite forallb_forall in Hf. specialize (Hf newline (proj1 (list_elem_of_In _ _) Hw)). discriminate Hf. }
  assert (Hin : newline ∈ strip (u ++ newline :: c :: v)).
  { unfold strip. destruct (rev (u ++ newline :: c :: v)) as [|d r] eqn:Er; [apply elem_of_app; right; by left|]. destruct (bool_decide _); [|apply elem_of_app; right; by left].
    rewrite rev_app_distr in Er. cbn [rev] in Er. rewrite <- !app_assoc in Er. cbn [app] in Er. apply list_elem_of_In, in_rev. rewrite rev_involutive. destruct (rev v) as [|e w]; cbn [app] in Er; injection Er as <- <-; [by left|]. apply in_or_app. right. right. by left. }
  unfold parse_int. rewrite (Hall _ Hin). cbn [negb]. by rewrite orb_true_r.
Qed.
(** No limits are set where the text is written. *)
Lemma rate_config_roundtrip_witness : exists t, oom_rate_limit_config_read first_and_third 256 = (Z.of_nat (length t), t) /\
  (g_event_config <$> (snd <$> oom_rate_limit_config_write parse_int true (oom_rate_limit_init first_and_third) t)) = Some [10; -1; 5].
Proof.
  destruct (rate_config_roundtrip parse_int parse_int_newline parse_int_ok first_and_third (oom_rate_limit_init first_and_third) 10 (-1) 5 256 eq_refl ltac:(repeat constructor; lia) ltac:(vm_compute; reflexivity) ltac:(lia)) as (t & H1 & H2 & _).
  exists t. split; [exact H1|]. rewrite H2. vm_compute. reflexivity.
Defined.

(** When exactly the second and the third event have a limit, the text has a newline where a comma should be, and is refused when it
    is written back; a text that names an event twice leaves a comma at the end. *)
Theorem rate_config_gap :
  let set t := oom_rate_limit_config_write parse_int true (oom_rate_limit_init first_and_third) (chars t) in
  let shown t := '(_, s) ← set t; Some (snd (oom_rate_limit_config_read s 256)) in
  fst <$> set "RR_DIRECT_RECLAIM:1,RR_HUGEPAGE_RECLAIM:2"%string = Some 0 /\
  shown "RR_DIRECT_RECLAIM:1,RR_HUGEPAGE_RECLAIM:2"%string = Some (chars "RR_DIRECT_RECLAIM:1" ++ [newline] ++ chars "RR_HUGEPAGE_RECLAIM:2" ++ [newline]) /\
  (t ← shown "RR_DIRECT_RECLAIM:1,RR_HUGEPAGE_RECLAIM:2"%string; fst <$> oom_rate_limit_config_write parse_int true first_and_third t) = Some (- EINVAL) /\
  shown "RR_KSWAPD:1,RR_KSWAPD:2"%string = Some (chars "RR_KSWAPD:2,").
Proof. split_and!; vm_compute; reflexivity. Qed.
