(* ===== verification/SentryMsg.v ===== *)
(** * Messages between the kernel and the sentry service

    [drivers/ub/sentry/smh_message.c]: drivers send messages through a bounded queue; a process of the service takes
    them out and may acknowledge them, and the driver asks whether an acknowledgement has arrived.
    A message is held by a pointer to an allocated [smh_msg_handler] that moves from the queue to
    the list of messages to acknowledge and to the list of acknowledged ones; messages that are too old are
    dropped on the way.

    The calls of drivers are atomic steps (each takes one lock at a time, and what it does between two locks touches
    only the handler it removed); the reader, which sleeps when the queue is empty, is a sequence of
    steps. There is one reader, and the messages that callers pass are not NULL. *)

From S2P Require Import Prelude.

Definition NSEC_PER_MSEC : Z := 1000000.
Definition SMH_MESSAGE_BUFFER_MAX_LENGTH : Z := 4096.

(** ** State *)

(** [struct sentry_msg_helper_msg], without the data of the event. *)
Record msg := { msgid : Z; start_send_time : Z; timeout_time : Z; res : Z }.
(** [struct smh_msg_handler]. *)
Record smh_msg_handler := { h_msg : msg; h_ack : bool }.
(** Where the reader is: outside, before it takes a message, after it found none, asleep, woken, or with a message. *)
Inductive reader := RIdle | RTry | REmpty | RSleep | RWoken | RHold (h : nat).
(** [struct smh_msg_ctx], the allocated handlers and the number of the next one. *)
Record smh := { heap : gmap nat smh_msg_handler; fresh : nat; msgbuf_send : list nat; msgbuf_ack : list nat; msgbuf_get : list nat; rd : reader; message_id_generator : Z }.

Definition set_heap (s : smh) (x : gmap nat smh_msg_handler) : smh := {| heap := x; fresh := fresh s; msgbuf_send := msgbuf_send s; msgbuf_ack := msgbuf_ack s; msgbuf_get := msgbuf_get s; rd := rd s; message_id_generator := message_id_generator s |}.
Definition set_send (s : smh) (x : list nat) : smh := {| heap := heap s; fresh := fresh s; msgbuf_send := x; msgbuf_ack := msgbuf_ack s; msgbuf_get := msgbuf_get s; rd := rd s; message_id_generator := message_id_generator s |}.
Definition set_ack (s : smh) (x : list nat) : smh := {| heap := heap s; fresh := fresh s; msgbuf_send := msgbuf_send s; msgbuf_ack := x; msgbuf_get := msgbuf_get s; rd := rd s; message_id_generator := message_id_generator s |}.
Definition set_get (s : smh) (x : list nat) : smh := {| heap := heap s; fresh := fresh s; msgbuf_send := msgbuf_send s; msgbuf_ack := msgbuf_ack s; msgbuf_get := x; rd := rd s; message_id_generator := message_id_generator s |}.
Definition set_rd (s : smh) (x : reader) : smh := {| heap := heap s; fresh := fresh s; msgbuf_send := msgbuf_send s; msgbuf_ack := msgbuf_ack s; msgbuf_get := msgbuf_get s; rd := x; message_id_generator := message_id_generator s |}.
Definition kfree (s : smh) (h : nat) : smh := set_heap s (delete h (heap s)).
Definition kzalloc (s : smh) (x : smh_msg_handler) : nat * smh :=
  (fresh s, {| heap := <[fresh s := x]> (heap s); fresh := S (fresh s); msgbuf_send := msgbuf_send s; msgbuf_ack := msgbuf_ack s; msgbuf_get := msgbuf_get s; rd := rd s; message_id_generator := message_id_generator s |}).

Definition smh_get_new_msg_id (s : smh) : Z * smh :=
  let id := u64 (message_id_generator s + 1) in
  (id, {| heap := heap s; fresh := fresh s; msgbuf_send := msgbuf_send s; msgbuf_ack := msgbuf_ack s; msgbuf_get := msgbuf_get s; rd := rd s; message_id_generator := id |}).

Definition check_msg_is_timeout (now : Z) (m : msg) : bool := timeout_time m <? u64 (now - start_send_time m) / NSEC_PER_MSEC.

Section Smh.
(** The capacity of the queue, and the size of a message. *)
Context (SIZE : nat) (MSG_SIZE : Z).

Definition kfifo_in (q : list nat) (h : nat) : option (list nat) := if (length q <? SIZE)%nat then Some (q ++ [h]) else None.

(** ** Drivers *)

(** A reader that sleeps is woken. *)
Definition wake_up (s : smh) : smh := match rd s with RSleep => set_rd s RWoken | _ => s end.

Definition smh_message_send (alloc : bool) (s : smh) (m : msg) (ack : bool) : Z * smh :=
  if msgid m =? 0 then (- EINVAL, s)
  else if negb alloc then (- ENOMEM, s)
  else
    let '(h, s) := kzalloc s {| h_msg := m; h_ack := ack |} in
    match kfifo_in (msgbuf_send s) h with
    | None => (- EAGAIN, kfree s h)
    | Some q => (0, wake_up (set_send s q))
    end.

(** [FIND_AND_REMOVE_TIMEOUT_FROM_LIST]: what is left of the list, the heap, and the handler that was found. *)
Fixpoint find_remove (now : Z) (id : Z) (hp : gmap nat smh_msg_handler) (l : list nat) : option (list nat * gmap nat smh_msg_handler * option nat) :=
  match l with
  | [] => Some ([], hp, None)
  | h :: l' =>
    x ← hp !! h;
    if check_msg_is_timeout now (h_msg x) then find_remove now id (delete h hp) l'
    else if msgid (h_msg x) =? id then Some (l', hp, Some h)
    else '(r, hp, o) ← find_remove now id hp l'; Some (h :: r, hp, o)
  end.

Definition smh_message_get_ack (now : Z) (s : smh) (id : Z) : option (bool * Z * smh) :=
  '(l, hp, o) ← find_remove now id (heap s) (msgbuf_get s);
  let s := set_get (set_heap s hp) l in
  match o with
  | None => Some (false, 0, s)
  | Some h => x ← heap s !! h; Some (true, res (h_msg x), kfree s h)
  end.

(** ** The service *)

Definition smh_message_ack (now : Z) (s : smh) (id r : Z) : option (Z * smh) :=
  '(l, hp, o) ← find_remove now id (heap s) (msgbuf_ack s);
  let s := set_ack (set_heap s hp) l in
  match o with
  | None => Some (- ENOENT, s)
  | Some h =>
    x ← heap s !! h; let m := h_msg x in
    let x := {| h_msg := {| msgid := msgid m; start_send_time := start_send_time m; timeout_time := timeout_time m; res := r |}; h_ack := h_ack x |} in
    Some (0, set_get (set_heap s (<[h := x]> (heap s))) (msgbuf_get s ++ [h]))
  end.

(** [smh_message_get], step by step: a process calls it, and is turned away if another one is waiting. *)
Definition get_call (s : smh) : option (Z * smh) :=
  match rd s with
  | RSleep | RWoken => Some (- EPERM, s)
  | RIdle => Some (0, set_rd s RTry)
  | _ => None
  end.
(** It takes the next message, or finds none. *)
Definition get_take (now : Z) (s : smh) : option smh :=
  match rd s with
  | RTry =>
    match msgbuf_send s with
    | [] => Some (set_rd s REmpty)
    | h :: q =>
      x ← heap s !! h;
      if check_msg_is_timeout now (h_msg x) then Some (kfree (set_send s q) h) else Some (set_rd (set_send s q) (RHold h))
    end
  | _ => None
  end.
(** It joins the wait queue and sleeps. *)
Definition get_sleep (s : smh) : option smh := match rd s with REmpty => Some (set_rd s RSleep) | _ => None end.
(** It wakes up, by a message or by a signal ([pending]), and leaves the wait queue. *)
Definition get_wake (pending : bool) (s : smh) : option (Z * smh) :=
  match rd s with
  | RWoken => Some (if pending then (- ERESTART, set_rd s RIdle) else (0, set_rd s RTry))
  | RSleep => if pending then Some (- ERESTART, set_rd s RIdle) else None
  | _ => None
  end.

(** The message is waiting for its acknowledgement already. *)
Fixpoint in_ack (hp : gmap nat smh_msg_handler) (id : Z) (l : list nat) : option bool :=
  match l with [] => Some false | h :: l' => x ← hp !! h; if msgid (h_msg x) =? id then Some true else in_ack hp id l' end.
(** It copies the message to the user ([copied] if that succeeds). *)
Definition get_copy (copied : bool) (s : smh) : option (Z * smh) :=
  match rd s with
  | RHold h =>
    let s := set_rd s RIdle in
    x ← heap s !! h;
    if negb copied then
      match kfifo_in (msgbuf_send s) h with
      | None => Some (- EFAULT, kfree s h)
      | Some q => Some (- EAGAIN, set_send s q)
      end
    else if h_ack x then
      match in_ack (heap s) (msgid (h_msg x)) (msgbuf_ack s) with
      | None => None
      | Some found => Some (MSG_SIZE, if (found : bool) then kfree s h else set_ack s (msgbuf_ack s ++ [h]))
      end
    else Some (MSG_SIZE, kfree s h)
  | _ => None
  end.

(** ** Start and end *)

Definition smh_empty : smh := {| heap := ∅; fresh := 0; msgbuf_send := []; msgbuf_ack := []; msgbuf_get := []; rd := RIdle; message_id_generator := 0 |}.
(** With the module parameter [smh_message_buffer_length] and the result of [kfifo_alloc]. *)
Definition smh_message_init (smh_message_buffer_length kfifo_alloc : Z) (s : smh) : Z * smh :=
  if (smh_message_buffer_length <=? 0) || (SMH_MESSAGE_BUFFER_MAX_LENGTH <? smh_message_buffer_length) then (- EINVAL, s)
  else if kfifo_alloc <? 0 then (kfifo_alloc, s)
  else (0, smh_empty).
Definition smh_message_exit (s : smh) : smh :=
  let s := foldl kfree s (msgbuf_ack s ++ msgbuf_get s ++ msgbuf_send s) in set_send (set_get (set_ack s []) []) [].

(** ** Runs *)

(** What a step tells the outside. *)
Inductive event := Sent (id : Z) | Delivered (id : Z) | Acked (id r : Z) | Collected (id r : Z) | Quiet.

Inductive smh_step : smh -> event -> smh -> Prop :=
  | st_id s id s' : smh_get_new_msg_id s = (id, s') -> smh_step s Quiet s'
  | st_send s alloc m ack s' : smh_message_send alloc s m ack = (0, s') -> smh_step s (Sent (msgid m)) s'
  | st_send_fail s alloc m ack r s' : smh_message_send alloc s m ack = (r, s') -> r <> 0 -> smh_step s Quiet s'
  | st_call s r s' : get_call s = Some (r, s') -> smh_step s Quiet s'
  | st_take s now s' : get_take now s = Some s' -> smh_step s Quiet s'
  | st_sleep s s' : get_sleep s = Some s' -> smh_step s Quiet s'
  | st_wake s pending r s' : get_wake pending s = Some (r, s') -> smh_step s Quiet s'
  | st_copy s h x s' : rd s = RHold h -> heap s !! h = Some x -> get_copy true s = Some (MSG_SIZE, s') -> smh_step s (Delivered (msgid (h_msg x))) s'
  | st_copy_fail s r s' : get_copy false s = Some (r, s') -> smh_step s Quiet s'
  | st_ack s now id r s' : smh_message_ack now s id r = Some (0, s') -> smh_step s (Acked id r) s'
  | st_ack_none s now id r e s' : smh_message_ack now s id r = Some (e, s') -> e <> 0 -> smh_step s Quiet s'
  | st_collect s now id r s' : smh_message_get_ack now s id = Some (true, r, s') -> smh_step s (Collected id r) s'
  | st_collect_none s now id r s' : smh_message_get_ack now s id = Some (false, r, s') -> smh_step s Quiet s'.

Inductive smh_run : smh -> list event -> Prop :=
  | run_init len alloc s0 s : smh_message_init len alloc s0 = (0, s) -> smh_run s []
  | run_step s log e s' : smh_run s log -> smh_step s e s' -> smh_run s' (log ++ [e]).
End Smh.

(** ** Handlers have one owner *)

Definition held (s : smh) : list nat := match rd s with RHold h => [h] | _ => [] end.
Definition owned (s : smh) : list nat := msgbuf_send s ++ held s ++ msgbuf_ack s ++ msgbuf_get s.

(** The list [l] owns the heap [hp]. *)
Definition owns (l : list nat) (hp : gmap nat smh_msg_handler) : Prop := l ≡ₚ elements (dom hp).

Lemma owns_perm (l l' : list nat) (hp : gmap nat smh_msg_handler) : l ≡ₚ l' -> owns l hp <-> owns l' hp.
Proof. intros Hp. unfold owns. by rewrite Hp. Qed.
Lemma owns_nodup (l : list nat) (hp : gmap nat smh_msg_handler) : owns l hp -> NoDup l.
Proof. unfold owns. intros ->. apply NoDup_elements. Qed.
Lemma owns_in (l : list nat) (hp : gmap nat smh_msg_handler) (h : nat) : owns l hp -> h ∈ l <-> is_Some (hp !! h).
Proof. unfold owns. intros ->. by rewrite elem_of_elements, elem_of_dom. Qed.
Lemma owns_insert (l : list nat) (hp : gmap nat smh_msg_handler) (h : nat) (x : smh_msg_handler) : owns l hp -> hp !! h = None -> owns (h :: l) (<[h := x]> hp).
Proof. unfold owns. intros -> Hn. rewrite dom_insert. symmetry. apply elements_union_singleton. by apply not_elem_of_dom. Qed.
Lemma owns_delete (l : list nat) (hp : gmap nat smh_msg_handler) (h : nat) : owns (h :: l) hp -> owns l (delete h hp).
Proof.
  unfold owns. intros Hl. assert (Hin : h ∈ dom hp) by (apply elem_of_elements; rewrite <- Hl; by left).
  apply (Permutation.Permutation_cons_inv (a := h)). rewrite Hl, dom_delete. rewrite <- (elements_union_singleton (dom hp ∖ {[h]}) h); [|set_unfold; tauto].
  apply elements_proper. intros y. rewrite elem_of_union, elem_of_difference, elem_of_singleton. destruct (decide (y = h)) as [->|]; tauto.
Qed.
Lemma owns_update (l : list nat) (hp : gmap nat smh_msg_handler) (h : nat) (x : smh_msg_handler) : owns l hp -> is_Some (hp !! h) -> owns l (<[h := x]> hp).
Proof. unfold owns. intros -> Hin. apply elements_proper. rewrite dom_insert. apply elem_of_dom in Hin. intros y. rewrite elem_of_union, elem_of_singleton. split; [by right|]. by intros [->|?]. Qed.

(** ** Counting handlers *)

Definition cnt (p : smh_msg_handler -> bool) (hp : gmap nat smh_msg_handler) (l : list nat) : nat := length (filter (fun h => p <$> hp !! h = Some true) l).

Lemma cnt_app (p : smh_msg_handler -> bool) (hp : gmap nat smh_msg_handler) (l l' : list nat) : cnt p hp (l ++ l') = (cnt p hp l + cnt p hp l')%nat.
Proof. unfold cnt. by rewrite filter_app, length_app. Qed.
Lemma cnt_cons (p : smh_msg_handler -> bool) (hp : gmap nat smh_msg_handler) (h : nat) (x : smh_msg_handler) (l : list nat) : hp !! h = Some x ->
  cnt p hp (h :: l) = ((if p x then 1 else 0) + cnt p hp l)%nat.
Proof. intros Hx. unfold cnt. rewrite filter_cons, Hx. cbn [fmap option_fmap option_map]. destruct (p x); [by rewrite decide_True|by rewrite decide_False by congruence]. Qed.
Lemma cnt_ext (p : smh_msg_handler -> bool) (hp hp' : gmap nat smh_msg_handler) (l : list nat) : (forall h, h ∈ l -> hp' !! h = hp !! h) -> cnt p hp' l = cnt p hp l.
Proof.
  intros H. unfold cnt. induction l as [|h l IH]; [done|]. rewrite !filter_cons, (H h) by (by left). assert (IH' := IH ltac:(intros y Hy; apply H; by right)).
  destruct (decide _); cbn [length]; by rewrite IH'.
Qed.
Lemma cnt_insert (p : smh_msg_handler -> bool) (hp : gmap nat smh_msg_handler) (h : nat) (x : smh_msg_handler) (l : list nat) : h ∉ l -> cnt p (<[h := x]> hp) l = cnt p hp l.
Proof. intros Hn. apply cnt_ext. intros y Hy. apply lookup_insert_ne. by intros ->. Qed.
Lemma cnt_delete (p : smh_msg_handler -> bool) (hp : gmap nat smh_msg_handler) (h : nat) (l : list nat) : h ∉ l -> cnt p (delete h hp) l = cnt p hp l.
Proof. intros Hn. apply cnt_ext. intros y Hy. apply lookup_delete_ne. by intros ->. Qed.

(** The search in a list, beside what others own. *)
Lemma find_remove_ok (now id : Z) (l : list nat) : forall hp rest, owns (l ++ rest) hp ->
  exists l' hp' o, find_remove now id hp l = Some (l', hp', o) /\ owns (from_option (fun h => [h]) [] o ++ l' ++ rest) hp' /\
    (forall h x, hp' !! h = Some x -> hp !! h = Some x) /\
    (forall p, (cnt p hp' (from_option (fun h => [h]) [] o ++ l') <= cnt p hp l)%nat) /\ forall h, o = Some h -> exists x, hp' !! h = Some x /\ msgid (h_msg x) = id.
Proof.
  induction l as [|h l IH]; intros hp rest Ho; cbn [find_remove].
  { eexists _, _, _. split; [done|]. split; [done|]. split; [done|]. split; [done|]. by intros h [=]. }
  destruct (proj1 (owns_in _ _ h Ho) ltac:(by left)) as [x Hx]. rewrite Hx. cbn [mbind option_bind]. pose proof (owns_nodup _ _ Ho) as Hnd. cbn [app] in Hnd. apply NoDup_cons in Hnd as [Hh Hnd].
  assert (Hl : h ∉ l) by (intros Hin; apply Hh, elem_of_app; by left). destruct (check_msg_is_timeout now (h_msg x)).
  - destruct (IH (delete h hp) rest (owns_delete _ _ _ Ho)) as (l' & hp' & o & -> & A1 & A2 & A3 & A4). eexists _, _, _. split; [done|]. split; [done|]. split; [|split; [|done]].
    + intros k y Hy. specialize (A2 k y Hy). apply lookup_delete_Some in A2. by apply A2.
    + intros p. specialize (A3 p). rewrite cnt_delete in A3 by done. rewrite (cnt_cons p hp h x l Hx). lia.
  - destruct (Z.eqb_spec (msgid (h_msg x)) id) as [Eid|Eid].
    + eexists _, _, _. split; [done|]. cbn [from_option app]. split; [done|]. split; [done|]. split; [done|]. intros k [= <-]. by exists x.
    + destruct (IH hp (h :: rest)) as (l' & hp' & o & -> & A1 & A2 & A3 & A4); [eapply owns_perm; [|exact Ho]; by rewrite <- Permutation_middle|]. cbn [mbind option_bind].
      assert (Hx' : hp' !! h = Some x). { destruct (proj1 (owns_in _ _ h A1)) as [y Hy]; [apply elem_of_app; right; apply elem_of_app; right; by left|]. rewrite Hy, <- Hx. symmetry. by apply A2. }
      eexists _, _, _. split; [done|]. split; [eapply owns_perm; [|exact A1]; by rewrite <- Permutation_middle|]. split; [done|]. split; [|done].
      intros p. specialize (A3 p). rewrite cnt_app in *. rewrite (cnt_cons p hp' h x l' Hx'), (cnt_cons p hp h x l Hx). lia.
Qed.

Lemma cnt_frame (p : smh_msg_handler -> bool) (hp hp' : gmap nat smh_msg_handler) (L l : list nat) : owns L hp' -> (forall h x, hp' !! h = Some x -> hp !! h = Some x) ->
  (forall h, h ∈ l -> h ∈ L) -> cnt p hp' l = cnt p hp l.
Proof. intros Ho Hs Hl. apply cnt_ext. intros h Hh. destruct (proj1 (owns_in _ _ h Ho) (Hl h Hh)) as [x Hx]. rewrite Hx. symmetry. by apply Hs. Qed.

(** ** The history *)

Definition id_is (m : Z) (x : smh_msg_handler) : bool := msgid (h_msg x) =? m.
Definition res_is (m r : Z) (x : smh_msg_handler) : bool := (msgid (h_msg x) =? m) && (res (h_msg x) =? r).
Definition times (f : event -> bool) (log : list event) : nat := length (filter (fun e => f e = true) log).
Definition is_sent (m : Z) (e : event) : bool := match e with Sent i => i =? m | _ => false end.
Definition is_delivered (m : Z) (e : event) : bool := match e with Delivered i => i =? m | _ => false end.
Definition is_acked (m : Z) (e : event) : bool := match e with Acked i _ => i =? m | _ => false end.
Definition is_acked_with (m r : Z) (e : event) : bool := match e with Acked i x => (i =? m) && (x =? r) | _ => false end.
Definition is_collected (m r : Z) (e : event) : bool := match e with Collected i x => (i =? m) && (x =? r) | _ => false end.

Lemma times_snoc (f : event -> bool) (log : list event) (e : event) : times f (log ++ [e]) = (times f log + if f e then 1 else 0)%nat.
Proof. unfold times. rewrite filter_app, length_app, filter_cons. destruct (f e); [by rewrite decide_True|by rewrite decide_False]. Qed.

Record smh_inv (s : smh) (log : list event) : Prop := {
  sm_own : owns (owned s) (heap s);
  sm_fresh : forall h, is_Some (heap s !! h) -> (h < fresh s)%nat;
  sm_sent : forall m, (cnt (id_is m) (heap s) (msgbuf_send s ++ held s) + times (is_delivered m) log <= times (is_sent m) log)%nat;
  sm_ack : forall m, (cnt (id_is m) (heap s) (msgbuf_ack s) + times (is_acked m) log <= times (is_delivered m) log)%nat;
  sm_get : forall m r, (cnt (res_is m r) (heap s) (msgbuf_get s) + times (is_collected m r) log <= times (is_acked_with m r) log)%nat
}.

(** Steps that say nothing. *)
Lemma smh_inv_quiet (s : smh) (log : list event) : smh_inv s log -> smh_inv s (log ++ [Quiet]).
Proof. intros [A1 A2 A3 A4 A5]. split; try done; intros *; rewrite !times_snoc; cbn [is_delivered is_sent is_acked is_collected is_acked_with]; rewrite !Nat.add_0_r; auto. Qed.

(** Only the lists and the heap count. *)
Lemma inv_same (s s' : smh) (log : list event) : smh_inv s log -> heap s' = heap s -> msgbuf_send s' = msgbuf_send s -> held s' = held s -> msgbuf_ack s' = msgbuf_ack s -> msgbuf_get s' = msgbuf_get s ->
  (fresh s <= fresh s')%nat -> smh_inv s' log.
Proof.
  intros [A1 A2 A3 A4 A5] E1 E2 E3 E4 E5 Hf. split; unfold owned in *; rewrite ?E1, ?E2, ?E3, ?E4, ?E5; try done. intros h Hh. specialize (A2 h Hh). lia.
Qed.

(** A handler that the first two owners lose. *)
Lemma drop_ok (s : smh) (log : list event) (h : nat) (x : smh_msg_handler) (q hd : list nat) (s' : smh) : smh_inv s log -> heap s !! h = Some x -> msgbuf_send s ++ held s ≡ₚ h :: q ++ hd ->
  heap s' = delete h (heap s) -> msgbuf_send s' = q -> held s' = hd -> msgbuf_ack s' = msgbuf_ack s -> msgbuf_get s' = msgbuf_get s -> fresh s' = fresh s -> smh_inv s' log.
Proof.
  intros [A1 A2 A3 A4 A5] Hx Hp E1 E2 E3 E4 E5 E6.
  assert (Hown : owns (h :: q ++ hd ++ msgbuf_ack s ++ msgbuf_get s) (heap s)).
  { eapply owns_perm; [|exact A1]. unfold owned. rewrite (app_assoc q), app_comm_cons, <- Hp. by rewrite <- app_assoc. }
  pose proof (owns_nodup _ _ Hown) as [Hh _]%NoDup_cons. rewrite !not_elem_of_app in Hh. destruct Hh as (H1 & H2 & H3 & H4).
  split; unfold owned; rewrite ?E1, ?E2, ?E3, ?E4, ?E5, ?E6.
  - by apply owns_delete.
  - intros y Hy. apply A2. destruct Hy as [z Hz]. apply lookup_delete_Some in Hz as [_ Hz]. by eexists.
  - intros m. specialize (A3 m). assert (Hc : cnt (id_is m) (heap s) (msgbuf_send s ++ held s) = cnt (id_is m) (heap s) (h :: q ++ hd)) by (unfold cnt; by rewrite Hp).
    rewrite Hc, (cnt_cons _ _ _ x) in A3 by done. rewrite cnt_delete by (rewrite not_elem_of_app; done). lia.
  - intros m. by rewrite cnt_delete.
  - intros m r. by rewrite cnt_delete.
Qed.

Lemma owned_heap (s : smh) (log : list event) (h : nat) : smh_inv s log -> h ∈ owned s -> exists x, heap s !! h = Some x.
Proof. intros Hi Hh. by apply (owns_in _ _ h (sm_own _ _ Hi)). Qed.

(** A new handler in the queue. *)
Lemma send_ok (SIZE : nat) (alloc : bool) (s : smh) (m : msg) (ack : bool) (log : list event) (r : Z) (s' : smh) : smh_inv s log -> smh_message_send SIZE alloc s m ack = (r, s') ->
  if r =? 0 then smh_inv s' (log ++ [Sent (msgid m)]) else smh_inv s' log.
Proof.
  intros Hi. unfold smh_message_send. destruct (msgid m =? 0); [by intros [= <- <-]|]. destruct alloc; cbn [negb]; [|by intros [= <- <-]]. cbn [kzalloc].
  assert (Hn : heap s !! fresh s = None). { destruct (heap s !! fresh s) as [x|] eqn:Ex; [|done]. pose proof (sm_fresh _ _ Hi (fresh s) ltac:(by eexists)). lia. }
  unfold kfifo_in. destruct (length _ <? SIZE)%nat; intros [= <- <-].
  - destruct Hi as [A1 A2 A3 A4 A5]. set (x := {| h_msg := m; h_ack := ack |}). change (0 =? 0) with true. cbv iota.
    assert (Hnot : forall l : list nat, (forall h, h ∈ l -> h ∈ owned s) -> fresh s ∉ l) by (intros l Hl Hin; apply Hl, (owns_in _ _ _ A1) in Hin as [y Hy]; congruence).
    assert (Hw : forall u, held (wake_up u) = held u /\ heap (wake_up u) = heap u /\ msgbuf_send (wake_up u) = msgbuf_send u /\ msgbuf_ack (wake_up u) = msgbuf_ack u /\ msgbuf_get (wake_up u) = msgbuf_get u /\ fresh (wake_up u) = fresh u).
    { intros u. unfold wake_up, held. destruct (rd u) eqn:Er; cbn [set_rd rd]; rewrite ?Er; done. }
    match goal with |- smh_inv (wake_up ?u) _ => destruct (Hw u) as (W1 & W2 & W3 & W4 & W5 & W6) end.
    split; unfold owned; rewrite ?W1, ?W2, ?W3, ?W4, ?W5, ?W6; cbn [set_send heap msgbuf_send msgbuf_ack msgbuf_get fresh]; (change (held (set_send _ _)) with (held s)).
    + eapply owns_perm; [|apply (owns_insert _ _ (fresh s) x A1 Hn)]. unfold owned. rewrite <- app_assoc. cbn [app]. by rewrite <- Permutation_middle.
    + intros h [y Hy]. destruct (decide (h = fresh s)) as [->|Hne]; [lia|]. rewrite lookup_insert_ne in Hy by done. specialize (A2 h ltac:(by eexists)). lia.
    + intros i. specialize (A3 i). rewrite !times_snoc. cbn [is_delivered is_sent]. rewrite !cnt_app in *. rewrite (cnt_cons _ _ (fresh s) x) by apply lookup_insert_eq.
      rewrite (cnt_insert _ _ _ _ (msgbuf_send s)), (cnt_insert _ _ _ _ (held s)) by (apply Hnot; intros h Hh; unfold owned; rewrite !elem_of_app; tauto). change (cnt (id_is i) _ []) with 0%nat. change (id_is i x) with (msgid m =? i). destruct (msgid m =? i); lia.
    + intros i. rewrite !times_snoc. cbn [is_delivered is_acked]. rewrite cnt_insert by (apply Hnot; intros h Hh; unfold owned; rewrite !elem_of_app; tauto). rewrite !Nat.add_0_r. apply A4.
    + intros i z. rewrite !times_snoc. cbn [is_collected is_acked_with]. rewrite cnt_insert by (apply Hnot; intros h Hh; unfold owned; rewrite !elem_of_app; tauto). rewrite !Nat.add_0_r. apply A5.
  - change (- EAGAIN =? 0) with false. cbv iota. eapply inv_same; [exact Hi| | | | | |]; try done; [|cbn; lia]. cbn [kfree set_heap heap]. by apply delete_insert_id.
Qed.

Lemma take_ok (now : Z) (s : smh) (log : list event) : smh_inv s log -> rd s = RTry -> exists s', get_take now s = Some s' /\ smh_inv s' log.
Proof.
  intros Hi Hr. unfold get_take. rewrite Hr. assert (Hh0 : held s = []) by (unfold held; by rewrite Hr). destruct (msgbuf_send s) as [|h q] eqn:Eq.
  - eexists. split; [done|]. eapply inv_same; [exact Hi| | | | | |]; try done; by rewrite ?Hh0.
  - destruct (owned_heap s log h Hi) as [x Hx]; [unfold owned; rewrite Eq; by left|]. rewrite Hx. cbn [mbind option_bind]. destruct (check_msg_is_timeout now (h_msg x)).
    + eexists. split; [done|]. eapply (drop_ok s log h x q []); try done. by rewrite Eq, Hh0.
    + eexists. split; [done|]. destruct Hi as [A1 A2 A3 A4 A5]. unfold owned in *. rewrite Eq, Hh0 in *. split; unfold owned; cbn [set_rd set_send heap msgbuf_send msgbuf_ack msgbuf_get fresh held rd]; try done.
      * eapply owns_perm; [|exact A1]. cbn [app]. by rewrite <- Permutation_middle.
      * intros m. specialize (A3 m). assert (Hc : cnt (id_is m) (heap s) (q ++ [h]) = cnt (id_is m) (heap s) ((h :: q) ++ [])) by (unfold cnt; by rewrite app_nil_r, <- Permutation_cons_append).
        by rewrite Hc.
Qed.

Lemma in_ack_some (s : smh) (log : list event) (id : Z) (l : list nat) : smh_inv s log -> (forall h, h ∈ l -> h ∈ owned s) -> exists b, in_ack (heap s) id l = Some b.
Proof.
  intros Hi. induction l as [|h l IH]; intros Hl; cbn [in_ack]; [by eexists|]. destruct (owned_heap s log h Hi (Hl h ltac:(by left))) as [x ->]. cbn [mbind option_bind].
  destruct (_ =? id); [by eexists|]. apply IH. intros y Hy. apply Hl. by right.
Qed.

Lemma copy_ok (SIZE : nat) (MSG_SIZE : Z) (copied : bool) (s : smh) (log : list event) (h : nat) : smh_inv s log -> rd s = RHold h ->
  exists x r s', heap s !! h = Some x /\ get_copy SIZE MSG_SIZE copied s = Some (r, s') /\ smh_inv s' (if copied then log ++ [Delivered (msgid (h_msg x))] else log) /\ (copied = true -> r = MSG_SIZE).
Proof.
  intros Hi Hr. assert (Hh0 : held s = [h]) by (unfold held; by rewrite Hr). destruct (owned_heap s log h Hi) as [x Hx]; [unfold owned; rewrite Hh0, !elem_of_app; right; left; by left|].
  exists x. unfold get_copy. rewrite Hr. cbn [set_rd heap msgbuf_send msgbuf_ack]. rewrite Hx. cbn [mbind option_bind].
  assert (Hperm : msgbuf_send s ++ held s ≡ₚ h :: msgbuf_send s ++ []) by (rewrite Hh0, app_nil_r; symmetry; apply Permutation_cons_append).
  assert (Hfree : smh_inv (kfree (set_rd s RIdle) h) log) by (eapply (drop_ok s log h x (msgbuf_send s) []); done).
  destruct copied; cbn [negb].
  - assert (Hgone : smh_inv (kfree (set_rd s RIdle) h) (log ++ [Delivered (msgid (h_msg x))])).
    { destruct Hfree as [A1 A2 A3 A4 A5]. split; try done.
      - intros m. rewrite !times_snoc. cbn [is_delivered is_sent]. change (held (kfree (set_rd s RIdle) h)) with (@nil nat). rewrite app_nil_r. cbn [kfree set_heap set_rd heap msgbuf_send].
        destruct Hi as [B1 _ B3 _ _]. specialize (B3 m). rewrite cnt_app, Hh0, (cnt_cons _ _ h x) in B3 by done. rewrite cnt_delete.
        + change (id_is m x) with (msgid (h_msg x) =? m) in B3. destruct (_ =? m); lia.
        + intros Hin. pose proof (owns_nodup _ _ B1) as Hnd. unfold owned in Hnd. rewrite Hh0 in Hnd. apply NoDup_app in Hnd as (_ & Hd & _). apply (Hd h Hin). by left.
      - intros m. rewrite !times_snoc. cbn [is_delivered is_acked]. specialize (A4 m). lia.
      - intros m r. rewrite !times_snoc. cbn [is_collected is_acked_with]. specialize (A5 m r). lia. }
    destruct (h_ack x); [|by eexists _, _]. destruct (in_ack_some s log (msgid (h_msg x)) (msgbuf_ack s) Hi) as [b ->]; [intros y Hy; unfold owned; rewrite !elem_of_app; tauto|].
    destruct b; [by eexists _, _|]. eexists _, _. split; [done|]. split; [done|]. split; [|done]. destruct Hi as [A1 A2 A3 A4 A5].
    split; unfold owned in *; cbn [set_ack set_rd heap msgbuf_send msgbuf_ack msgbuf_get fresh held rd] in *; try done.
    + eapply owns_perm; [|exact A1]. rewrite Hh0. cbn [app]. rewrite <- (app_assoc (msgbuf_ack s)). cbn [app]. by rewrite <- Permutation_middle.
    + intros m. specialize (A3 m). rewrite !times_snoc. cbn [is_delivered is_sent]. rewrite cnt_app, Hh0, (cnt_cons _ _ h x) in A3 by done. rewrite app_nil_r. change (id_is m x) with (msgid (h_msg x) =? m) in A3. destruct (_ =? m); lia.
    + intros m. specialize (A4 m). rewrite !times_snoc. cbn [is_delivered is_acked]. rewrite cnt_app, (cnt_cons _ _ h x) by done. change (cnt (id_is m) (heap s) []) with 0%nat. change (id_is m x) with (msgid (h_msg x) =? m). destruct (_ =? m); lia.
    + intros m r. specialize (A5 m r). rewrite !times_snoc. cbn [is_collected is_acked_with]. lia.
  - unfold kfifo_in. destruct (length _ <? SIZE)%nat; [|by eexists _, _]. eexists _, _. split; [done|]. split; [done|]. split; [|done]. destruct Hi as [A1 A2 A3 A4 A5].
    split; unfold owned in *; cbn [set_send set_rd heap msgbuf_send msgbuf_ack msgbuf_get fresh held rd] in *; try done.
    + rewrite Hh0 in A1. cbn [app]. by rewrite <- app_assoc.
    + intros m. specialize (A3 m). rewrite Hh0 in A3. by rewrite app_nil_r.
Qed.

(** The search in one of the two lists; the other owners keep what they have. *)
Lemma search_ok (now id : Z) (s : smh) (log : list event) (l rest : list nat) : smh_inv s log -> owned s ≡ₚ l ++ rest ->
  exists l' hp' o, find_remove now id (heap s) l = Some (l', hp', o) /\ owns (from_option (fun h => [h]) [] o ++ l' ++ rest) hp' /\
    (forall h, is_Some (hp' !! h) -> (h < fresh s)%nat) /\ (forall p k, (forall h, h ∈ k -> h ∈ rest) -> cnt p hp' k = cnt p (heap s) k) /\
    (forall p, (cnt p hp' (from_option (fun h => [h]) [] o ++ l') <= cnt p (heap s) l)%nat) /\
    forall h, o = Some h -> exists x, hp' !! h = Some x /\ msgid (h_msg x) = id /\ h ∉ l' ++ rest.
Proof.
  intros Hi Hp. destruct (find_remove_ok now id l (heap s) rest) as (l' & hp' & o & E & B1 & B2 & B3 & B4); [by eapply owns_perm; [symmetry; exact Hp|exact (sm_own _ _ Hi)]|].
  exists l', hp', o. split; [done|]. split; [done|]. split; [|split; [|split; [done|]]].
  - intros h [x Hx]. apply (sm_fresh _ _ Hi). eexists. by apply B2.
  - intros p k Hk. eapply cnt_frame; [exact B1|exact B2|]. intros h Hh. rewrite !elem_of_app. auto.
  - intros h ->. destruct (B4 h eq_refl) as (x & Hx & Hid). exists x. split; [done|]. split; [done|]. by pose proof (owns_nodup _ _ B1) as [Hn _]%NoDup_cons.
Qed.

Lemma get_ack_ok (now : Z) (s : smh) (id : Z) (log : list event) : smh_inv s log ->
  exists found r s', smh_message_get_ack now s id = Some (found, r, s') /\ smh_inv s' (if found : bool then log ++ [Collected id r] else log).
Proof.
  intros Hi. destruct (search_ok now id s log (msgbuf_get s) (msgbuf_send s ++ held s ++ msgbuf_ack s) Hi) as (l & hp & o & E & B1 & B2 & B3 & B4 & B5); [unfold owned; solve_Permutation|].
  unfold smh_message_get_ack. rewrite E. cbn [mbind option_bind]. pose proof Hi as [_ _ A3 A4 A5].
  assert (Hrest : forall k, (forall h, h ∈ k -> h ∈ msgbuf_send s ++ held s ++ msgbuf_ack s) -> forall p, cnt p hp k = cnt p (heap s) k) by (intros k Hk p; by apply B3).
  destruct o as [h|].
  - destruct (B5 h eq_refl) as (x & Hx & Hid & Hn). cbn [set_get set_heap heap]. rewrite Hx. cbn [mbind option_bind]. eexists _, _, _. split; [done|]. cbv iota.
    rewrite !not_elem_of_app in Hn. destruct Hn as (N0 & N1 & N2 & N3).
    split; unfold owned; cbn [kfree set_get set_heap heap msgbuf_send msgbuf_ack msgbuf_get fresh]; (try change (held (kfree _ _)) with (held s)).
    + apply owns_delete. eapply owns_perm; [|exact B1]. cbn [from_option]. solve_Permutation.
    + intros y [z Hz]. apply B2. apply lookup_delete_Some in Hz as [_ Hz]. by eexists.
    + intros m. rewrite !times_snoc, cnt_delete, Hrest by (rewrite ?not_elem_of_app; try done; intros y; rewrite !elem_of_app; tauto). cbn [is_delivered is_sent]. specialize (A3 m). lia.
    + intros m. rewrite !times_snoc, cnt_delete, Hrest by (try done; intros y; rewrite !elem_of_app; tauto). cbn [is_delivered is_acked]. specialize (A4 m). lia.
    + intros m r. rewrite !times_snoc, cnt_delete by done. cbn [is_collected is_acked_with]. specialize (A5 m r). specialize (B4 (res_is m r)). cbn [from_option app] in B4. rewrite (cnt_cons _ _ h x) in B4 by done.
      change (res_is m r x) with ((msgid (h_msg x) =? m) && (res (h_msg x) =? r)) in B4. rewrite Hid in B4. destruct (_ && _); lia.
  - eexists _, _, _. split; [done|]. cbv iota.
    split; unfold owned; cbn [set_get set_heap heap msgbuf_send msgbuf_ack msgbuf_get fresh]; (try change (held (set_get _ _)) with (held s)); try done.
    + eapply owns_perm; [|exact B1]. cbn [from_option]. solve_Permutation.
    + intros m. rewrite Hrest by (intros y; rewrite !elem_of_app; tauto). apply A3.
    + intros m. rewrite Hrest by (intros y; rewrite !elem_of_app; tauto). apply A4.
    + intros m r. specialize (A5 m r). specialize (B4 (res_is m r)). cbn [from_option app] in B4. lia.
Qed.

Lemma ack_ok (now : Z) (s : smh) (id r : Z) (log : list event) : smh_inv s log ->
  exists e s', smh_message_ack now s id r = Some (e, s') /\ smh_inv s' (if e =? 0 then log ++ [Acked id r] else log).
Proof.
  intros Hi. destruct (search_ok now id s log (msgbuf_ack s) (msgbuf_send s ++ held s ++ msgbuf_get s) Hi) as (l & hp & o & E & B1 & B2 & B3 & B4 & B5); [unfold owned; solve_Permutation|].
  unfold smh_message_ack. rewrite E. cbn [mbind option_bind]. pose proof Hi as [_ _ A3 A4 A5].
  assert (Hrest : forall k, (forall h, h ∈ k -> h ∈ msgbuf_send s ++ held s ++ msgbuf_get s) -> forall p, cnt p hp k = cnt p (heap s) k) by (intros k Hk p; by apply B3).
  destruct o as [h|].
  - destruct (B5 h eq_refl) as (x & Hx & Hid & Hn). cbn [set_ack set_heap heap]. rewrite Hx. cbn [mbind option_bind]. eexists _, _. split; [done|]. change (0 =? 0) with true. cbv iota.
    rewrite !not_elem_of_app in Hn. destruct Hn as (N0 & N1 & N2 & N3). set (x' := {| h_msg := _; h_ack := h_ack x |}).
    split; unfold owned; cbn [set_ack set_get set_heap heap msgbuf_send msgbuf_ack msgbuf_get fresh]; (try change (held (set_get _ _)) with (held s)).
    + apply owns_update; [|by eexists]. eapply owns_perm; [|exact B1]. cbn [from_option]. solve_Permutation.
    + intros y [z Hz]. apply B2. destruct (decide (y = h)) as [->|]; [by eexists|]. rewrite lookup_insert_ne in Hz by done. by eexists.
    + intros m. rewrite !times_snoc, cnt_insert, Hrest by (rewrite ?not_elem_of_app; try done; intros y; rewrite !elem_of_app; tauto). cbn [is_delivered is_sent]. specialize (A3 m). lia.
    + intros m. rewrite !times_snoc, cnt_insert by done. cbn [is_delivered is_acked]. specialize (A4 m). specialize (B4 (id_is m)). cbn [from_option app] in B4. rewrite (cnt_cons _ _ h x) in B4 by done.
      change (id_is m x) with (msgid (h_msg x) =? m) in B4. rewrite Hid in B4. destruct (_ =? m); lia.
    + intros m z. rewrite !times_snoc, cnt_app, (cnt_cons _ _ h x') by apply lookup_insert_eq. rewrite cnt_insert, Hrest by (try done; intros y; rewrite !elem_of_app; tauto). cbn [is_collected is_acked_with].
      change (cnt (res_is m z) _ []) with 0%nat. specialize (A5 m z). change (res_is m z x') with ((msgid (h_msg x) =? m) && (r =? z)). rewrite Hid. destruct (_ && _); lia.
  - eexists _, _. split; [done|]. change (- ENOENT =? 0) with false. cbv iota.
    split; unfold owned; cbn [set_ack set_heap heap msgbuf_send msgbuf_ack msgbuf_get fresh]; (try change (held (set_ack _ _)) with (held s)); try done.
    + eapply owns_perm; [|exact B1]. cbn [from_option]. solve_Permutation.
    + intros m. rewrite Hrest by (intros y; rewrite !elem_of_app; tauto). apply A3.
    + intros m. specialize (A4 m). specialize (B4 (id_is m)). cbn [from_option app] in B4. lia.
    + intros m z. rewrite Hrest by (intros y; rewrite !elem_of_app; tauto). apply A5.
Qed.

(** ** Every run *)

Section Runs.
Context (SIZE : nat) (MSG_SIZE : Z).

Lemma smh_inv_init : smh_inv smh_empty [].
Proof. split; [|by intros h [x [=]]|done|done|done]. unfold owns. cbn [smh_empty heap]. by rewrite dom_empty_L. Qed.

Lemma inv_step (s : smh) (e : event) (s' : smh) (log : list event) : smh_inv s log -> smh_step SIZE MSG_SIZE s e s' -> smh_inv s' (log ++ [e]).
Proof.
  intros Hi Hs. destruct Hs.
  - injection H as <- <-. apply smh_inv_quiet. by eapply inv_same.
  - exact (send_ok SIZE alloc s m ack log 0 s' Hi H).
  - apply smh_inv_quiet. pose proof (send_ok SIZE alloc s m ack log r s' Hi H) as Hk. by rewrite (proj2 (Z.eqb_neq r 0)) in Hk.
  - apply smh_inv_quiet. unfold get_call in H. destruct (rd s) eqn:Er; try discriminate; injection H as <- <-; try done. eapply inv_same; try done. unfold held. by rewrite Er.
  - apply smh_inv_quiet. assert (Hr : rd s = RTry) by (unfold get_take in H; by destruct (rd s)). destruct (take_ok now s log Hi Hr) as (u & E & Hu). congruence.
  - apply smh_inv_quiet. unfold get_sleep in H. destruct (rd s) eqn:Er; try discriminate. injection H as <-. eapply inv_same; try done. unfold held. by rewrite Er.
  - apply smh_inv_quiet. unfold get_wake in H. destruct (rd s) eqn:Er; try discriminate; destruct pending; try discriminate; injection H as <- <-; (eapply inv_same; try done; unfold held; by rewrite Er).
  - destruct (copy_ok SIZE MSG_SIZE true s log h Hi H) as (y & r & u & Hy & E & Hu & _). rewrite H0 in Hy. injection Hy as <-. rewrite H1 in E. injection E as _ <-. done.
  - apply smh_inv_quiet. assert (exists h, rd s = RHold h) as [h Hr] by (unfold get_copy in H; destruct (rd s); try discriminate; by eexists).
    destruct (copy_ok SIZE MSG_SIZE false s log h Hi Hr) as (y & z & u & _ & E & Hu & _). rewrite H in E. by injection E as _ <-.
  - destruct (ack_ok now s id r log Hi) as (e & u & E & Hu). rewrite H in E. by injection E as <- <-.
  - destruct (ack_ok now s id r log Hi) as (e' & u & E & Hu). rewrite H in E. injection E as <- <-. rewrite (proj2 (Z.eqb_neq e 0)) in Hu by done. by apply smh_inv_quiet.
  - destruct (get_ack_ok now s id log Hi) as (f & z & u & E & Hu). rewrite H in E. by injection E as <- <- <-.
  - destruct (get_ack_ok now s id log Hi) as (f & z & u & E & Hu). rewrite H in E. injection E as <- <- <-. by apply smh_inv_quiet.
Qed.

Lemma inv_run (s : smh) (log : list event) : smh_run SIZE MSG_SIZE s log -> smh_inv s log.
Proof. induction 1 as [len alloc s0 s Hs|s log e s' _ IH Hs]; [|by eapply inv_step]. unfold smh_message_init in Hs. destruct (_ || _); [discriminate|]. destruct (Z.ltb_spec alloc 0); [injection Hs; lia|]. injection Hs as <-. apply smh_inv_init. Qed.

Lemma foldl_kfree (l : list nat) : forall s h, heap (foldl kfree s l) !! h = if bool_decide (h ∈ l) then None else heap s !! h.
Proof.
  induction l as [|k l IH]; intros s h; cbn [foldl]; [by rewrite bool_decide_eq_false_2 by apply not_elem_of_nil|]. rewrite IH. cbn [kfree set_heap heap].
  destruct (decide (h = k)) as [->|Hne].
  - rewrite lookup_delete_eq, (bool_decide_eq_true_2 (k ∈ k :: l)) by (by left). by destruct (bool_decide _).
  - rewrite lookup_delete_ne by done. rewrite (bool_decide_ext (h ∈ k :: l) (h ∈ l)); [done|]. rewrite elem_of_cons. tauto.
Qed.

Lemma acked_with_acked (m r : Z) (log : list event) : (times (is_acked_with m r) log <= times (is_acked m) log)%nat.
Proof.
  induction log as [|e log IH]; [done|]. change (e :: log) with ([e] ++ log). unfold times in *. rewrite !filter_app, !length_app. assert (is_acked_with m r e = true -> is_acked m e = true) by (destruct e; cbn; try done; by intros [? _]%andb_prop).
  rewrite !filter_cons, !filter_nil. destruct (is_acked_with m r e), (is_acked m e); rewrite ?decide_True, ?decide_False by done; cbn [length]; try lia.
Qed.

(** C23: Whatever the drivers and the reader do, an allocated message handler is in exactly one place (the send queue,
    the reader's hands, the list that waits for acknowledgements or the list of acknowledged messages)
    and nothing else is there, so no operation touches a handler that was freed: acknowledging, asking for an
    acknowledgement, taking a message and copying it always return. [smh_message_exit] then frees every handler unless
    the reader holds one. *)
Theorem smh_handlers_owned (s : smh) (log : list event) (Hrun : smh_run SIZE MSG_SIZE s log) :
  NoDup (owned s) /\ (forall h, h ∈ owned s <-> is_Some (heap s !! h)) /\
  (forall now id r, is_Some (smh_message_ack now s id r) /\ is_Some (smh_message_get_ack now s id)) /\
  (forall now copied, (rd s = RTry -> is_Some (get_take now s)) /\ (forall h, rd s = RHold h -> is_Some (get_copy SIZE MSG_SIZE copied s))) /\
  (held s = [] -> heap (smh_message_exit s) = ∅).
Proof.
  pose proof (inv_run s log Hrun) as Hi. pose proof (sm_own _ _ Hi) as Ho. split; [by eapply owns_nodup|]. split; [intros h; by apply owns_in|]. split; [|split].
  - intros now id r. destruct (ack_ok now s id r log Hi) as (e & u & -> & _), (get_ack_ok now s id log Hi) as (f & z & v & -> & _). by split; eexists.
  - intros now copied. split; [intros Hr|intros h Hr].
    + destruct (take_ok now s log Hi Hr) as (u & -> & _). by eexists.
    + destruct (copy_ok SIZE MSG_SIZE copied s log h Hi Hr) as (x & r & u & _ & -> & _). by eexists.
  - intros Hh. apply map_eq. intros h. rewrite lookup_empty. unfold smh_message_exit. cbn [set_send set_get set_ack heap]. rewrite foldl_kfree. destruct (bool_decide_reflect (h ∈ msgbuf_ack s ++ msgbuf_get s ++ msgbuf_send s)) as [|Hn]; [done|].
    destruct (heap s !! h) as [x|] eqn:Ex; [|done]. exfalso. apply Hn. assert (Hin : h ∈ owned s) by (apply (owns_in _ _ h Ho); by eexists). unfold owned in Hin. rewrite Hh in Hin. rewrite !elem_of_app in *. rewrite elem_of_nil in Hin. tauto.
Qed.

(** C24: An acknowledgement that a driver collects was given by the service, with that result, for a message that was
    delivered to it, and that a driver sent; each is used once: for every message id, in every run, there are at most as many
    collected acknowledgements with a result as acknowledgements given with it, at most as many acknowledgements as
    deliveries, and at most as many deliveries as successful sends. *)
Theorem smh_ack_history (s : smh) (log : list event) (Hrun : smh_run SIZE MSG_SIZE s log) (m r : Z) :
  (times (is_collected m r) log <= times (is_acked_with m r) log <= times (is_acked m) log)%nat /\ (times (is_acked m) log <= times (is_delivered m) log <= times (is_sent m) log)%nat.
Proof.
  destruct (inv_run s log Hrun) as [_ _ A3 A4 A5]. specialize (A3 m). specialize (A4 m). specialize (A5 m r). pose proof (acked_with_acked m r log). lia.
Qed.
End Runs.

(** ** A run *)

Definition m7 (t : Z) : msg := {| msgid := 7; start_send_time := 0; timeout_time := t; res := 0 |}.
(** One message, from the driver to the service and back. *)
Definition round : list event := [Sent 7; Quiet; Quiet; Delivered 7; Acked 7 3; Collected 7 3].
Definition round1 : smh := snd (smh_message_send 2 true smh_empty (m7 1000) true).
Definition round2 : smh := set_rd round1 RTry.
Definition round3 : smh := default round2 (get_take 0 round2).
Definition round4 : smh := from_option snd round3 (get_copy 2 64 true round3).
Definition round5 : smh := from_option snd round4 (smh_message_ack 0 round4 7 3).
Definition round6 : smh := from_option snd round5 (smh_message_get_ack 0 round5 7).

Lemma round_run : smh_run 2 64 round6 round.
Proof.
  change round with ((((([] ++ [Sent 7]) ++ [Quiet]) ++ [Quiet]) ++ [Delivered 7]) ++ [Acked 7 3] ++ [Collected 7 3]). rewrite app_assoc.
  apply (run_step _ _ round5); [|apply (st_collect 2 64 _ 0); vm_compute; reflexivity]. apply (run_step _ _ round4); [|apply (st_ack 2 64 _ 0); vm_compute; reflexivity].
  apply (run_step _ _ round3); [|apply (st_copy 2 64 _ 0 {| h_msg := m7 1000; h_ack := true |}); vm_compute; reflexivity].
  apply (run_step _ _ round2); [|apply (st_take 2 64 _ 0); vm_compute; reflexivity]. apply (run_step _ _ round1); [|apply (st_call 2 64 _ 0); vm_compute; reflexivity].
  apply (run_step _ _ smh_empty); [exact (run_init 2 64 2 0 smh_empty smh_empty eq_refl)|apply (st_send 2 64 _ true (m7 1000) true); vm_compute; reflexivity].
Qed.

Lemma smh_handlers_owned_witness : smh_run 2 64 round6 round /\ heap (smh_message_exit round6) = ∅.
Proof. split; [exact round_run|]. destruct (smh_handlers_owned 2 64 round6 round round_run) as (_ & _ & _ & _ & He). apply He. vm_compute. reflexivity. Defined.

Lemma smh_ack_history_witness : times (is_collected 7 3) round = 1%nat /\ (1 <= times (is_sent 7) round)%nat.
Proof. split; [vm_compute; reflexivity|]. destruct (smh_ack_history 2 64 round6 round round_run 7 3) as [H1 H2]. change (times (is_collected 7 3) round) with 1%nat in H1. lia. Defined.

(** ** The lost wake-up *)

Definition lost1 : smh := set_rd smh_empty REmpty.
Definition lost2 : smh := snd (smh_message_send 2 true lost1 (m7 1000) true).
Definition lost3 : smh := set_rd lost2 RSleep.

(** The reader of [smh_message_get] joins the wait queue after it has looked into the send queue, and does not look
    again before it sleeps: a message that is sent in between finds nobody waiting. There is a run after which the reader sleeps while
    a message that has not timed out is in the queue; no step of the reader takes it: it can only be woken by
    another message or a signal. *)
Theorem smh_lost_wakeup :
  smh_run 2 64 lost3 [Quiet; Quiet; Sent 7; Quiet] /\ rd lost3 = RSleep /\ msgbuf_send lost3 = [0%nat] /\ (forall now, get_take now lost3 = None) /\ get_wake false lost3 = None.
Proof.
  split; [|split; [|split; [|split]]]; try (vm_compute; reflexivity).
  change [Quiet; Quiet; Sent 7; Quiet] with (((([] ++ [Quiet]) ++ [Quiet]) ++ [Sent 7]) ++ [Quiet]).
  apply (run_step _ _ lost2); [|apply st_sleep; vm_compute; reflexivity]. apply (run_step _ _ lost1); [|apply (st_send 2 64 _ true (m7 1000) true); vm_compute; reflexivity].
  apply (run_step _ _ (set_rd smh_empty RTry)); [|apply (st_take 2 64 _ 0); vm_compute; reflexivity]. apply (run_step _ _ smh_empty); [exact (run_init 2 64 2 0 smh_empty smh_empty eq_refl)|apply (st_call 2 64 _ 0); vm_compute; reflexivity].
Qed.
