(* ===== verification/ObmmAddr.v ===== *)
(** * Physical address ranges in use by OBMM

    [drivers/ub/obmm/obmm_addr_check.c]: each import and pre-import of memory occupies a range of physical
    addresses, and no two ranges share an address.  The ranges are kept in a maple tree of the
    kernel, which maps each address of a range to a pointer to an allocated copy of its description.

    The maple tree is an interface with laws ([MapleTree]); the file gives a simple implementation to show
    that the laws can hold.  What the file promises to the rest of OBMM is the class [PaRanges]: the
    checker is a collection of disjoint ranges. *)

From S2P Require Import Prelude.

(** ** The maple tree *)

Class MapleTree (T : Type) := {
  mt_init : T;
  (** The entry at an address, with its range. *)
  mt_load : T -> Z -> option (Z * Z * nat);
  (** [GFP_ATOMIC] memory is there if the first argument is [true]. *)
  mtree_insert_range : bool -> T -> Z -> Z -> nat -> Z * T;
  mtree_erase : T -> Z -> option nat * T;
  mt_find : T -> Z -> Z -> option nat;
  mt_ok : T -> Prop
}.

Class MapleTreeLaws (T : Type) `{MapleTree T} := {
  mt_init_ok : mt_ok mt_init /\ forall i, mt_load mt_init i = None;
  mt_load_range (t : T) (i a b : Z) (e : nat) : mt_ok t -> mt_load t i = Some (a, b, e) -> a <= i <= b /\ forall j, a <= j <= b -> mt_load t j = Some (a, b, e);
  mt_insert_bad (al : bool) (t : T) (a b : Z) (e : nat) : mt_ok t -> b < a -> mtree_insert_range al t a b e = (- EINVAL, t);
  mt_insert_taken (al : bool) (t : T) (a b i : Z) (e : nat) : mt_ok t -> a <= i <= b -> mt_load t i <> None -> mtree_insert_range al t a b e = (- EEXIST, t);
  mt_insert_nomem (t : T) (a b : Z) (e : nat) : mt_ok t -> a <= b -> (forall i, a <= i <= b -> mt_load t i = None) -> mtree_insert_range false t a b e = (- ENOMEM, t);
  mt_insert_free (t : T) (a b : Z) (e : nat) : mt_ok t -> a <= b -> (forall i, a <= i <= b -> mt_load t i = None) ->
    exists t', mtree_insert_range true t a b e = (0, t') /\ mt_ok t' /\ forall i, mt_load t' i = if (a <=? i) && (i <=? b) then Some (a, b, e) else mt_load t i;
  mt_erase_none (t : T) (i : Z) : mt_ok t -> mt_load t i = None -> mtree_erase t i = (None, t);
  mt_erase_some (t : T) (i a b : Z) (e : nat) : mt_ok t -> mt_load t i = Some (a, b, e) ->
    exists t', mtree_erase t i = (Some e, t') /\ mt_ok t' /\ forall j, mt_load t' j = if (a <=? j) && (j <=? b) then None else mt_load t j;
  mt_find_at (t : T) (i : Z) : mt_ok t -> mt_find t i i = snd <$> mt_load t i
}.

(** ** Data *)

(** [enum obmm_addr_user]. *)
Inductive obmm_addr_user := OBMM_ADDR_USER_DIRECT_IMPORT | OBMM_ADDR_USER_PREIMPORT.
(** The pointers that [data] holds: to [not_ready_dummy], to an import region or to a pre-import range. *)
Inductive pa_data := not_ready_ptr | Region (i_reg : nat) | Ppr (p : nat).
#[export] Instance obmm_addr_user_eq : EqDecision obmm_addr_user.
Proof. solve_decision. Defined.
#[export] Instance pa_data_eq : EqDecision pa_data.
Proof. solve_decision. Defined.

(** [struct obmm_addr_info] and [struct obmm_pa_range]. *)
Record obmm_addr_info := { user : obmm_addr_user; data : pa_data }.
Record obmm_pa_range := { r_start : Z; r_end : Z; r_info : obmm_addr_info }.
Definition in_range (r : obmm_pa_range) (i : Z) : Prop := r_start r <= i <= r_end r.

(** What two users of the checker can tell: the same ranges. *)
Definition is_same_pa_range (l r : obmm_pa_range) : bool := (r_start l =? r_start r) && (r_end l =? r_end r).

Section Checker.
Context {T : Type} `{MapleTree T}.

(** [struct pa_checker], the allocated descriptions and the number of the next one. *)
Record pa_checker := { pa_ranges : T; infos : gmap nat obmm_pa_range; next_info : nat }.

(** ** Operations *)

(** [kmemdup] succeeds if [alloc]. *)
Definition occupy_pa_range (alloc alloc_tree : bool) (c : pa_checker) (pa_range : obmm_pa_range) : Z * pa_checker :=
  if negb alloc then (- ENOMEM, c)
  else
    let persist_info := next_info c in
    let heap := <[persist_info := pa_range]> (infos c) in
    let '(ret, t) := mtree_insert_range alloc_tree (pa_ranges c) (r_start pa_range) (r_end pa_range) persist_info in
    if ret =? 0 then (0, {| pa_ranges := t; infos := heap; next_info := S persist_info |})
    else (ret, {| pa_ranges := t; infos := delete persist_info heap; next_info := S persist_info |}).

Definition free_pa_range (c : pa_checker) (pa_range : obmm_pa_range) : option (Z * pa_checker) :=
  let '(entry, t) := mtree_erase (pa_ranges c) (r_start pa_range) in
  match entry with
  | None => Some (- EFAULT, {| pa_ranges := t; infos := infos c; next_info := next_info c |})
  | Some e =>
    x ← infos c !! e;
    Some (if is_same_pa_range x pa_range then 0 else - ENOTRECOVERABLE, {| pa_ranges := t; infos := delete e (infos c); next_info := next_info c |})
  end.

Definition query_pa_range (c : pa_checker) (addr : Z) : option (Z * option obmm_addr_info) :=
  match mt_find (pa_ranges c) addr addr with
  | None => Some (- EFAULT, None)
  | Some e => x ← infos c !! e; Some (0, Some (r_info x))
  end.

Definition update_pa_range (c : pa_checker) (addr : Z) (info : obmm_addr_info) : option (Z * pa_checker) :=
  match mt_find (pa_ranges c) addr addr with
  | None => Some (- EFAULT, c)
  | Some e =>
    x ← infos c !! e;
    Some (0, {| pa_ranges := pa_ranges c; infos := <[e := {| r_start := r_start x; r_end := r_end x; r_info := info |}]> (infos c); next_info := next_info c |})
  end.

Definition module_addr_check_init : pa_checker := {| pa_ranges := mt_init; infos := ∅; next_info := 0 |}.
End Checker.
Arguments pa_checker T : clear implicits.

(** ** The promise to the rest of OBMM *)

(** A collection of ranges, in no order. *)
Definition clash (r : obmm_pa_range) (R : list obmm_pa_range) : bool := existsb (fun x => (r_start x <=? r_end r) && (r_start r <=? r_end x)) R.

Class PaRanges (S : Type) := {
  pr_init : S;
  pr_occupy : bool -> bool -> S -> obmm_pa_range -> Z * S;
  pr_free : S -> obmm_pa_range -> option (Z * S);
  pr_query : S -> Z -> option (Z * option obmm_addr_info);
  pr_update : S -> Z -> obmm_addr_info -> option (Z * S);
  (** The checker holds these ranges. *)
  pa_rel : S -> list obmm_pa_range -> Prop
}.

Class PaRangesLaws (S : Type) `{PaRanges S} := {
  pr_init_rel : pa_rel pr_init [];
  pa_rel_perm (s : S) (R R' : list obmm_pa_range) : R ≡ₚ R' -> pa_rel s R -> pa_rel s R';
  pa_rel_disjoint (s : S) (r r' : obmm_pa_range) (R : list obmm_pa_range) (i : Z) : pa_rel s (r :: r' :: R) -> in_range r i -> ~ in_range r' i;
  pr_occupy_law (a b : bool) (s : S) (r : obmm_pa_range) (R : list obmm_pa_range) : pa_rel s R -> exists s',
    pr_occupy a b s r = (if negb a then - ENOMEM else if r_end r <? r_start r then - EINVAL else if clash r R then - EEXIST else if negb b then - ENOMEM else 0, s') /\
    pa_rel s' (if a && b && negb (r_end r <? r_start r) && negb (clash r R) then r :: R else R);
  pr_free_law (s : S) (r : obmm_pa_range) (R : list obmm_pa_range) (x : obmm_pa_range) : pa_rel s (x :: R) -> in_range x (r_start r) -> exists s',
    pr_free s r = Some (if is_same_pa_range x r then 0 else - ENOTRECOVERABLE, s') /\ pa_rel s' R;
  pr_free_none (s : S) (r : obmm_pa_range) (R : list obmm_pa_range) : pa_rel s R -> (forall x, x ∈ R -> ~ in_range x (r_start r)) -> exists s', pr_free s r = Some (- EFAULT, s') /\ pa_rel s' R;
  pr_query_law (s : S) (i : Z) (R : list obmm_pa_range) (x : obmm_pa_range) : pa_rel s R -> x ∈ R -> in_range x i -> pr_query s i = Some (0, Some (r_info x));
  pr_query_none (s : S) (i : Z) (R : list obmm_pa_range) : pa_rel s R -> (forall x, x ∈ R -> ~ in_range x i) -> pr_query s i = Some (- EFAULT, None);
  pr_update_law (s : S) (i : Z) (info : obmm_addr_info) (R : list obmm_pa_range) (x : obmm_pa_range) : pa_rel s (x :: R) -> in_range x i -> exists s',
    pr_update s i info = Some (0, s') /\ pa_rel s' ({| r_start := r_start x; r_end := r_end x; r_info := info |} :: R);
  pr_update_none (s : S) (i : Z) (info : obmm_addr_info) (R : list obmm_pa_range) : pa_rel s R -> (forall x, x ∈ R -> ~ in_range x i) -> pr_update s i info = Some (- EFAULT, s)
}.

(** ** The checker keeps it *)

Section CheckerLaws.
Context {T : Type} `{MapleTreeLaws T}.
Abbreviation checker := (pa_checker T).

Record pa_inv (c : checker) : Prop := {
  pi_tree : mt_ok (pa_ranges c);
  pi_load : forall i a b e, mt_load (pa_ranges c) i = Some (a, b, e) <-> exists r, infos c !! e = Some r /\ r_start r = a /\ r_end r = b /\ in_range r i;
  pi_next : forall e, is_Some (infos c !! e) -> (e < next_info c)%nat;
  pi_order : forall e r, infos c !! e = Some r -> r_start r <= r_end r
}.
(** The ranges of the checker. *)
Definition ranges (c : checker) : list obmm_pa_range := (map_to_list (infos c)).*2.
Definition checker_rel (c : checker) (R : list obmm_pa_range) : Prop := pa_inv c /\ ranges c ≡ₚ R.

Lemma checker_perm (c : checker) (R R' : list obmm_pa_range) : R ≡ₚ R' -> checker_rel c R -> checker_rel c R'.
Proof. intros Hp [Hi Hr]. split; [done|]. by rewrite Hr. Qed.

Lemma ranges_in (c : checker) (R : list obmm_pa_range) (r : obmm_pa_range) : ranges c ≡ₚ R -> r ∈ R <-> exists e, infos c !! e = Some r.
Proof.
  intros <-. unfold ranges. rewrite list_elem_of_fmap. split.
  - intros ([e x] & -> & Hx%elem_of_map_to_list). by exists e.
  - intros [e He]. exists (e, r). split; [done|]. by apply elem_of_map_to_list.
Qed.
(** A description that is in the collection can be taken out. *)
Lemma ranges_out (c : checker) (e : nat) (x : obmm_pa_range) (R : list obmm_pa_range) : infos c !! e = Some x -> ranges c ≡ₚ x :: R -> (map_to_list (delete e (infos c))).*2 ≡ₚ R.
Proof.
  intros He Hp. apply (Permutation.Permutation_cons_inv (a := x)). rewrite <- Hp. unfold ranges. by rewrite <- (map_to_list_delete (infos c) e x He).
Qed.
Lemma inv_at (c : checker) (e : nat) (r : obmm_pa_range) (i : Z) : pa_inv c -> infos c !! e = Some r -> in_range r i -> mt_load (pa_ranges c) i = Some (r_start r, r_end r, e).
Proof. intros Hi Hr Hin. apply (pi_load c Hi). by exists r. Qed.
Lemma inv_none (c : checker) (R : list obmm_pa_range) (i : Z) : checker_rel c R -> (forall x, x ∈ R -> ~ in_range x i) -> mt_load (pa_ranges c) i = None.
Proof.
  intros [Hi Hp] Hn. destruct (mt_load (pa_ranges c) i) as [[[a b] e]|] eqn:E; [|done]. apply (pi_load c Hi) in E as (r & Hr & _ & _ & Hin). destruct (Hn r); [|done]. apply (ranges_in c R r Hp). by exists e.
Qed.
Lemma inv_same_entry (c : checker) (e e' : nat) (r r' : obmm_pa_range) (i : Z) : pa_inv c -> infos c !! e = Some r -> infos c !! e' = Some r' -> in_range r i -> in_range r' i -> e = e'.
Proof. intros Hi H1 H2 H3 H4. pose proof (inv_at c e r i Hi H1 H3) as E1. pose proof (inv_at c e' r' i Hi H2 H4) as E2. congruence. Qed.

Lemma clash_in (r : obmm_pa_range) (R : list obmm_pa_range) : r_start r <= r_end r -> (forall x, x ∈ R -> r_start x <= r_end x) ->
  clash r R = true <-> exists x i, x ∈ R /\ in_range x i /\ in_range r i.
Proof.
  intros Hr HR. unfold clash. rewrite existsb_exists. unfold in_range. split.
  - intros (x & Hx & Hc). apply list_elem_of_In in Hx. apply andb_prop in Hc as [H1%Z.leb_le H2%Z.leb_le]. exists x, (Z.max (r_start r) (r_start x)). specialize (HR x Hx). split; [done|]. lia.
  - intros (x & i & Hx & H1 & H2). exists x. split; [by apply list_elem_of_In|]. apply andb_true_intro. rewrite !Z.leb_le. lia.
Qed.

Lemma checker_init : checker_rel module_addr_check_init [].
Proof.
  destruct mt_init_ok as [H1 H2]. split; [|unfold ranges; cbn [module_addr_check_init infos]; by rewrite map_to_list_empty].
  split; cbn [module_addr_check_init infos pa_ranges]; [done| |by intros e [x Hx]|by intros e r Hr].
  intros i a b e. rewrite H2. split; [done|]. by intros (r & Hr & _).
Qed.

Lemma checker_disjoint (c : checker) (r r' : obmm_pa_range) (R : list obmm_pa_range) (i : Z) : checker_rel c (r :: r' :: R) -> in_range r i -> ~ in_range r' i.
Proof.
  intros [Hi Hp] H1 H2. destruct (proj1 (ranges_in c _ r Hp) ltac:(by left)) as [e He]. pose proof (ranges_out c e r _ He Hp) as Hp'.
  assert (r' ∈ (map_to_list (delete e (infos c))).*2) as ([e' x] & -> & Hx%elem_of_map_to_list)%list_elem_of_fmap by (rewrite Hp'; by left).
  apply lookup_delete_Some in Hx as [Hne Hx]. apply Hne. by eapply inv_same_entry.
Qed.

Lemma checker_occupy (a b : bool) (c : checker) (r : obmm_pa_range) (R : list obmm_pa_range) : checker_rel c R -> exists c',
  occupy_pa_range a b c r = (if negb a then - ENOMEM else if r_end r <? r_start r then - EINVAL else if clash r R then - EEXIST else if negb b then - ENOMEM else 0, c') /\
  checker_rel c' (if a && b && negb (r_end r <? r_start r) && negb (clash r R) then r :: R else R).
Proof.
  intros Hrel. pose proof Hrel as [Hi Hp]. unfold occupy_pa_range. destruct a; cbn [negb andb]; [|by eexists].
  assert (Hn : infos c !! next_info c = None). { destruct (infos c !! next_info c) eqn:E; [|done]. pose proof (pi_next c Hi (next_info c) ltac:(by eexists)). lia. }
  assert (Hfail : forall ret, (ret =? 0) = false -> exists c', (let '(ret, t) := (ret, pa_ranges c) in if ret =? 0 then (0, {| pa_ranges := t; infos := <[next_info c:=r]> (infos c); next_info := S (next_info c) |}) else (ret, {| pa_ranges := t; infos := delete (next_info c) (<[next_info c:=r]> (infos c)); next_info := S (next_info c) |})) = (ret, c') /\ checker_rel c' R).
  { intros ret ->. eexists. split; [done|]. rewrite delete_insert_id by done. split; [|done]. destruct Hi as [I1 I2 I3 I4]. split; cbn [pa_ranges infos next_info]; try done. intros e He. specialize (I3 e He). lia. }
  assert (HR : forall x, x ∈ R -> r_start x <= r_end x). { intros x Hx. apply (ranges_in c R x Hp) in Hx as [e He]. by apply (pi_order c Hi e). }
  destruct (Z.ltb_spec (r_end r) (r_start r)) as [Hlt|Hle]; cbn [negb].
  { rewrite mt_insert_bad by (try done; apply (pi_tree c Hi)). rewrite andb_false_r. cbn [andb]. by apply Hfail. }
  rewrite andb_true_r. destruct (clash r R) eqn:Ec; cbn [negb].
  { apply clash_in in Ec as (x & i & Hx & H1 & H2); [|done|done]. rewrite andb_false_r. apply (ranges_in c R x Hp) in Hx as [e He].
    rewrite (mt_insert_taken b (pa_ranges c) _ _ i); [by apply Hfail|apply (pi_tree c Hi)|done|]. rewrite (inv_at c e x i Hi He H1). done. }
  assert (Hfree : forall i, r_start r <= i <= r_end r -> mt_load (pa_ranges c) i = None).
  { intros i Hin. apply (inv_none c R i Hrel). intros x Hx Hxi. assert (clash r R = true) by (apply clash_in; [done|done|by exists x, i]). congruence. }
  rewrite andb_true_r. destruct b; cbn [negb]; [|rewrite mt_insert_nomem by (try done; apply (pi_tree c Hi)); by apply Hfail].
  destruct (mt_insert_free (pa_ranges c) (r_start r) (r_end r) (next_info c) (pi_tree c Hi) Hle Hfree) as (t & -> & Ht & Hl). change (0 =? 0) with true. cbv iota. eexists. split; [done|].
  destruct Hi as [I1 I2 I3 I4]. split; [split; cbn [pa_ranges infos next_info]|].
  - done.
  - intros i x y e. rewrite Hl. destruct (decide (e = next_info c)) as [->|Hne].
    + rewrite lookup_insert_eq. split.
      * destruct ((r_start r <=? i) && (i <=? r_end r)) eqn:Eb; [intros [= <- <-]; exists r; apply andb_prop in Eb as [E1%Z.leb_le E2%Z.leb_le]; done|]. intros (r' & Hr' & _)%I2. congruence.
      * intros (r' & [= <-] & <- & <- & Hin). unfold in_range in Hin. by rewrite (proj2 (Z.leb_le _ _) (proj1 Hin)), (proj2 (Z.leb_le _ _) (proj2 Hin)).
    + rewrite lookup_insert_ne by done. rewrite <- I2. destruct ((r_start r <=? i) && (i <=? r_end r)) eqn:Eb; [|done]. rewrite Hfree by lia. split; [congruence|done].
  - intros e [x Hx]. destruct (decide (e = next_info c)) as [->|Hne]; [lia|]. rewrite lookup_insert_ne in Hx by done. specialize (I3 e ltac:(by eexists)). lia.
  - intros e x Hx. destruct (decide (e = next_info c)) as [->|Hne]; [rewrite lookup_insert_eq in Hx; by injection Hx as <-|]. rewrite lookup_insert_ne in Hx by done. by apply (I4 e).
  - unfold ranges. cbn [infos]. rewrite map_to_list_insert by done. cbn [fmap list_fmap]. by rewrite <- Hp.
Qed.

Lemma checker_free (c : checker) (r : obmm_pa_range) (R : list obmm_pa_range) (x : obmm_pa_range) : checker_rel c (x :: R) -> in_range x (r_start r) -> exists c',
  free_pa_range c r = Some (if is_same_pa_range x r then 0 else - ENOTRECOVERABLE, c') /\ checker_rel c' R.
Proof.
  intros [Hi Hp] Hin. destruct (proj1 (ranges_in c _ x Hp) ltac:(by left)) as [e He]. pose proof (inv_at c e x _ Hi He Hin) as Hl. unfold free_pa_range.
  destruct (mt_erase_some (pa_ranges c) _ _ _ _ (pi_tree c Hi) Hl) as (t & -> & Ht & Hl'). rewrite He. cbn [mbind option_bind]. eexists. split; [done|].
  destruct Hi as [I1 I2 I3 I4]. split; [split; cbn [pa_ranges infos next_info]|].
  - done.
  - intros i a b e'. rewrite Hl'. split.
    + destruct ((r_start x <=? i) && (i <=? r_end x)) eqn:Eb; [done|]. intros (y & Hy & <- & <- & Hyi)%I2. exists y. split; [|done]. apply lookup_delete_Some. split; [|done]. intros <-. unfold in_range in Hyi. rewrite He in Hy. injection Hy as <-. lia.
    + intros (y & [Hne Hy]%lookup_delete_Some & <- & <- & Hyi). destruct ((r_start x <=? i) && (i <=? r_end x)) eqn:Eb.
      * exfalso. apply Hne. eapply (inv_same_entry c e e' x y i); try done. unfold in_range. lia.
      * apply I2. by exists y.
  - intros e' [y Hy]. apply I3. apply lookup_delete_Some in Hy as [_ Hy]. by eexists.
  - intros e' y Hy. apply lookup_delete_Some in Hy as [_ Hy]. by apply (I4 e').
  - by apply (ranges_out c e x).
Qed.

Lemma checker_free_none (c : checker) (r : obmm_pa_range) (R : list obmm_pa_range) : checker_rel c R -> (forall x, x ∈ R -> ~ in_range x (r_start r)) -> exists c', free_pa_range c r = Some (- EFAULT, c') /\ checker_rel c' R.
Proof.
  intros Hrel Hn. pose proof Hrel as [Hi Hp]. unfold free_pa_range. rewrite mt_erase_none; [|apply (pi_tree c Hi)|by eapply inv_none]. eexists. split; [done|]. split; [|done]. by destruct Hi.
Qed.

Lemma checker_query (c : checker) (i : Z) (R : list obmm_pa_range) (x : obmm_pa_range) : checker_rel c R -> x ∈ R -> in_range x i -> query_pa_range c i = Some (0, Some (r_info x)).
Proof.
  intros [Hi Hp] Hx Hin. destruct (proj1 (ranges_in c R x Hp) Hx) as [e He]. unfold query_pa_range. rewrite mt_find_at by apply (pi_tree c Hi). rewrite (inv_at c e x i Hi He Hin). cbn [fmap option_fmap option_map snd]. by rewrite He.
Qed.
Lemma checker_query_none (c : checker) (i : Z) (R : list obmm_pa_range) : checker_rel c R -> (forall x, x ∈ R -> ~ in_range x i) -> query_pa_range c i = Some (- EFAULT, None).
Proof. intros Hrel Hn. unfold query_pa_range. rewrite mt_find_at by apply (pi_tree c (proj1 Hrel)). by rewrite (inv_none c R i Hrel Hn). Qed.

Lemma checker_update (c : checker) (i : Z) (info : obmm_addr_info) (R : list obmm_pa_range) (x : obmm_pa_range) : checker_rel c (x :: R) -> in_range x i -> exists c',
  update_pa_range c i info = Some (0, c') /\ checker_rel c' ({| r_start := r_start x; r_end := r_end x; r_info := info |} :: R).
Proof.
  intros [Hi Hp] Hin. destruct (proj1 (ranges_in c _ x Hp) ltac:(by left)) as [e He]. unfold update_pa_range. rewrite mt_find_at by apply (pi_tree c Hi). rewrite (inv_at c e x i Hi He Hin). cbn [fmap option_fmap option_map snd]. rewrite He. cbn [mbind option_bind].
  eexists. split; [done|]. set (x' := {| r_start := r_start x; r_end := r_end x; r_info := info |}). destruct Hi as [I1 I2 I3 I4]. split; [split; cbn [pa_ranges infos next_info]|].
  - done.
  - intros j a b e'. rewrite I2. destruct (decide (e' = e)) as [->|Hne]; [|by rewrite lookup_insert_ne]. rewrite lookup_insert_eq, He. split; intros (y & [= <-] & <- & <- & Hj); by eexists.
  - intros e' [y Hy]. apply I3. destruct (decide (e' = e)) as [->|Hne]; [by eexists|]. rewrite lookup_insert_ne in Hy by done. by eexists.
  - intros e' y Hy. destruct (decide (e' = e)) as [->|Hne]; [rewrite lookup_insert_eq in Hy; injection Hy as <-; exact (I4 e x He)|]. rewrite lookup_insert_ne in Hy by done. by apply (I4 e').
  - unfold ranges. cbn [infos]. rewrite <- insert_delete_eq, map_to_list_insert by apply lookup_delete_eq. cbn [fmap list_fmap]. by rewrite (ranges_out c e x R He Hp).
Qed.
Lemma checker_update_none (c : checker) (i : Z) (info : obmm_addr_info) (R : list obmm_pa_range) : checker_rel c R -> (forall x, x ∈ R -> ~ in_range x i) -> update_pa_range c i info = Some (- EFAULT, c).
Proof. intros Hrel Hn. unfold update_pa_range. rewrite mt_find_at by apply (pi_tree c (proj1 Hrel)). by rewrite (inv_none c R i Hrel Hn). Qed.

#[export] Instance checker_ops : PaRanges checker := {|
  pr_init := module_addr_check_init; pr_occupy := occupy_pa_range; pr_free := free_pa_range; pr_query := query_pa_range; pr_update := update_pa_range; pa_rel := checker_rel
|}.
#[export] Instance checker_laws : PaRangesLaws checker.
Proof.
  split.
  - exact checker_init.
  - exact checker_perm.
  - exact checker_disjoint.
  - exact checker_occupy.
  - exact checker_free.
  - exact checker_free_none.
  - exact checker_query.
  - exact checker_query_none.
  - exact checker_update.
  - exact checker_update_none.
Qed.
End CheckerLaws.

(** ** Histories *)

Inductive pa_call := Occupy (a b : bool) (r : obmm_pa_range) | Free (r : obmm_pa_range) | Query (i : Z) | Update (i : Z) (info : obmm_addr_info).
Definition pa_answer : Type := Z * option obmm_addr_info.

(** What the calls mean for a list of ranges. *)
Fixpoint take_at (i : Z) (R : list obmm_pa_range) : option (obmm_pa_range * list obmm_pa_range) :=
  match R with
  | [] => None
  | x :: R' => if (r_start x <=? i) && (i <=? r_end x) then Some (x, R') else '(y, R'') ← take_at i R'; Some (y, x :: R'')
  end.
Definition spec_call (R : list obmm_pa_range) (op : pa_call) : pa_answer * list obmm_pa_range :=
  match op with
  | Occupy a b r =>
    if negb a then ((- ENOMEM, None), R) else if r_end r <? r_start r then ((- EINVAL, None), R)
    else if clash r R then ((- EEXIST, None), R) else if negb b then ((- ENOMEM, None), R) else ((0, None), r :: R)
  | Free r => match take_at (r_start r) R with None => ((- EFAULT, None), R) | Some (x, R') => ((if is_same_pa_range x r then 0 else - ENOTRECOVERABLE, None), R') end
  | Query i => match take_at i R with None => ((- EFAULT, None), R) | Some (x, _) => ((0, Some (r_info x)), R) end
  | Update i info => match take_at i R with None => ((- EFAULT, None), R) | Some (x, R') => ((0, None), {| r_start := r_start x; r_end := r_end x; r_info := info |} :: R') end
  end.
Fixpoint spec_calls (R : list obmm_pa_range) (ops : list pa_call) : list pa_answer * list obmm_pa_range :=
  match ops with [] => ([], R) | op :: ops => let '(a, R) := spec_call R op in let '(l, R) := spec_calls R ops in (a :: l, R) end.

Lemma take_at_some (i : Z) (R : list obmm_pa_range) : forall x R', take_at i R = Some (x, R') -> R ≡ₚ x :: R' /\ in_range x i.
Proof.
  induction R as [|y R IH]; intros x R'; cbn [take_at]; [done|]. destruct ((r_start y <=? i) && (i <=? r_end y)) eqn:E.
  - intros [= <- <-]. split; [done|]. unfold in_range. lia.
  - destruct (take_at i R) as [[z R'']|]; [|done]. cbn [mbind option_bind]. intros [= <- <-]. destruct (IH z R'' eq_refl) as [H1 H2]. split; [|done]. rewrite H1. constructor.
Qed.
Lemma take_at_none (i : Z) (R : list obmm_pa_range) : take_at i R = None -> forall x, x ∈ R -> ~ in_range x i.
Proof.
  induction R as [|y R IH]; cbn [take_at]; [by intros _ x ?%not_elem_of_nil|]. destruct ((r_start y <=? i) && (i <=? r_end y)) eqn:E; [done|].
  destruct (take_at i R) as [[z R'']|]; [done|]. intros _ x [->|Hx]%elem_of_cons; [unfold in_range; lia|by apply IH].
Qed.

Section Histories.
Context {T : Type} `{MapleTreeLaws T}.

Definition call (c : pa_checker T) (op : pa_call) : option (pa_answer * pa_checker T) :=
  match op with
  | Occupy a b r => let '(ret, c) := occupy_pa_range a b c r in Some ((ret, None), c)
  | Free r => '(ret, c) ← free_pa_range c r; Some ((ret, None), c)
  | Query i => x ← query_pa_range c i; Some (x, c)
  | Update i info => '(ret, c) ← update_pa_range c i info; Some ((ret, None), c)
  end.
Fixpoint calls (c : pa_checker T) (ops : list pa_call) : option (list pa_answer * pa_checker T) :=
  match ops with [] => Some ([], c) | op :: ops => '(a, c) ← call c op; '(l, c) ← calls c ops; Some (a :: l, c) end.

Lemma call_ok (c : pa_checker T) (R : list obmm_pa_range) (op : pa_call) : checker_rel c R -> exists c', call c op = Some (fst (spec_call R op), c') /\ checker_rel c' (snd (spec_call R op)).
Proof.
  intros Hrel. destruct op as [a b r|r|i|i info]; cbn [call spec_call].
  - destruct (checker_occupy a b c r R Hrel) as (c' & -> & H1). exists c'. destruct a, b, (r_end r <? r_start r), (clash r R); done.
  - destruct (take_at (r_start r) R) as [[x R']|] eqn:E.
    + apply take_at_some in E as [Hp Hin]. destruct (checker_free c r R' x) as (c' & -> & H1); [|done|by exists c']. by apply (checker_perm c R).
    + destruct (checker_free_none c r R Hrel (take_at_none _ _ E)) as (c' & -> & H1). by exists c'.
  - exists c. destruct (take_at i R) as [[x R']|] eqn:E.
    + apply take_at_some in E as [Hp Hin]. rewrite (checker_query c i R x); [done|done|rewrite Hp; by left|done].
    + by rewrite (checker_query_none c i R Hrel (take_at_none _ _ E)).
  - destruct (take_at i R) as [[x R']|] eqn:E.
    + apply take_at_some in E as [Hp Hin]. destruct (checker_update c i info R' x) as (c' & -> & H1); [|done|by exists c']. by apply (checker_perm c R).
    + rewrite (checker_update_none c i info R Hrel (take_at_none _ _ E)). by exists c.
Qed.

Lemma calls_ok (ops : list pa_call) : forall c R, checker_rel c R -> exists c', calls c ops = Some (fst (spec_calls R ops), c') /\ checker_rel c' (snd (spec_calls R ops)).
Proof.
  induction ops as [|op ops IH]; intros c R Hrel; cbn [calls spec_calls]; [by exists c|]. destruct (call_ok c R op Hrel) as (c1 & -> & H1). cbn [mbind option_bind]. destruct (spec_call R op) as [a R1]. cbn [fst snd] in *.
  destruct (IH c1 R1 H1) as (c2 & -> & H2). cbn [mbind option_bind]. destruct (spec_calls R1 ops) as [l R2]. by exists c2.
Qed.

(** C22: The checker of physical addresses, over any maple tree that keeps its laws, implements a plain list of ranges: after any
    history of calls, with any failures of allocation, every call has returned what the
    specification returns (and touched no freed description), the descriptions that are allocated are those of the
    specification, and no two of them share an address. *)
Theorem addr_check_refines (ops : list pa_call) :
  exists c, calls module_addr_check_init ops = Some (fst (spec_calls [] ops), c) /\ (map_to_list (infos c)).*2 ≡ₚ snd (spec_calls [] ops) /\
    forall r r' R i, snd (spec_calls [] ops) ≡ₚ r :: r' :: R -> in_range r i -> ~ in_range r' i.
Proof.
  destruct (calls_ok ops module_addr_check_init [] checker_init) as (c & Hc & Hrel). exists c. split; [done|]. split; [apply Hrel|].
  intros r r' R i Hp. apply (checker_disjoint c r r' R i). by apply (checker_perm c (snd (spec_calls [] ops))).
Qed.
End Histories.

(** ** A tree that keeps the laws *)

Section ListTree.
Abbreviation tree := (list (Z * Z * nat)).
Definition covers (i : Z) (x : Z * Z * nat) : bool := (fst (fst x) <=? i) && (i <=? snd (fst x)).
Definition lt_load (t : tree) (i : Z) : option (Z * Z * nat) := List.find (covers i) t.
Definition lt_taken (t : tree) (a b : Z) : bool := existsb (fun x => (fst (fst x) <=? b) && (a <=? snd (fst x))) t.
Definition lt_insert (al : bool) (t : tree) (a b : Z) (e : nat) : Z * tree :=
  if b <? a then (- EINVAL, t) else if lt_taken t a b then (- EEXIST, t) else if al then (0, (a, b, e) :: t) else (- ENOMEM, t).
Definition lt_erase (t : tree) (i : Z) : option nat * tree := match lt_load t i with None => (None, t) | Some x => (Some (snd x), List.filter (fun y => negb (covers i y)) t) end.
(** Ranges are not empty and share no address. *)
Fixpoint lt_ok (t : tree) : Prop := match t with [] => True | (a, b, e) :: t' => a <= b /\ lt_taken t' a b = false /\ lt_ok t' end.

#[local] Instance list_tree : MapleTree tree := {|
  mt_init := []; mt_load := lt_load; mtree_insert_range := lt_insert; mtree_erase := lt_erase; mt_find := fun t i _ => snd <$> lt_load t i; mt_ok := lt_ok
|}.

Lemma lt_taken_load (t : tree) (a b : Z) : a <= b -> lt_ok t -> lt_taken t a b = true <-> exists i, a <= i <= b /\ lt_load t i <> None.
Proof.
  intros Hab. unfold lt_taken, lt_load. induction t as [|[[x y] e] t IH]; cbn [existsb List.find lt_ok fst snd]; [intros _; split; [done|by intros (i & _ & ?)]|]. intros (Hxy & _ & Hok). rewrite orb_true_iff, (IH Hok). split.
  - intros [Hc|(i & Hi & Hn)].
    + exists (Z.max a x). split; [lia|]. unfold covers. cbn [fst snd]. by rewrite (proj2 (Z.leb_le _ _)), (proj2 (Z.leb_le _ _)) by lia.
    + exists i. split; [done|]. by destruct (covers i (x, y, e)).
  - intros (i & Hi & Hn). destruct (covers i (x, y, e)) eqn:E; [left; unfold covers in E; cbn [fst snd] in E; lia|right; by exists i].
Qed.
Lemma lt_load_in (t : tree) (i : Z) (x : Z * Z * nat) : lt_ok t -> lt_load t i = Some x <-> x ∈ t /\ covers i x = true.
Proof.
  intros Hok. split; [by intros [H1%list_elem_of_In H2]%List.find_some|]. intros [Hx Hc]. revert Hok. unfold lt_load. induction t as [|[[a b] e] t IH]; [by apply not_elem_of_nil in Hx|]. cbn [lt_ok List.find]. intros (Hab & Hn & Hok).
  apply elem_of_cons in Hx as [->|Hx]; [by rewrite Hc|]. destruct (covers i (a, b, e)) eqn:E; [|by apply IH]. exfalso.
  assert (lt_taken t a b = true); [|congruence]. unfold lt_taken. apply existsb_exists. exists x. split; [by apply list_elem_of_In|]. unfold covers in *. cbn [fst snd] in *. lia.
Qed.
Lemma lt_filter (p : Z * Z * nat -> bool) (t : tree) : lt_ok t -> lt_ok (List.filter p t).
Proof.
  induction t as [|[[a b] e] t IH]; cbn [lt_ok List.filter]; [done|]. intros (H1 & H2 & H3). destruct (p (a, b, e)); [|by apply IH]. cbn [lt_ok]. split; [done|]. split; [|by apply IH].
  apply not_true_iff_false. intros (x & Hx & Hc)%existsb_exists. apply filter_In in Hx as [Hx _]. apply not_true_iff_false in H2. apply H2. apply existsb_exists. by exists x.
Qed.

#[local] Instance list_tree_laws : MapleTreeLaws tree.
Proof.
  split; cbn [mt_ok mt_init mt_load mtree_insert_range mtree_erase mt_find list_tree].
  - by split.
  - intros t i a b e Hok Hl. apply lt_load_in in Hl as [Hx Hc]; [|done]. unfold covers in Hc. cbn [fst snd] in Hc. split; [lia|]. intros j Hj. apply lt_load_in; [done|]. split; [done|]. unfold covers. cbn [fst snd]. lia.
  - intros al t a b e _ Hlt. unfold lt_insert. by rewrite (proj2 (Z.ltb_lt _ _)).
  - intros al t a b i e Hok Hi Hn. unfold lt_insert. rewrite (proj2 (Z.ltb_ge _ _)) by lia. rewrite (proj2 (lt_taken_load t a b ltac:(lia) Hok)); [done|]. by exists i.
  - intros t a b e Hok Hab Hf. unfold lt_insert. rewrite (proj2 (Z.ltb_ge _ _)) by lia. destruct (lt_taken t a b) eqn:E; [|done]. apply (lt_taken_load t a b Hab Hok) in E as (i & Hi & Hn). by rewrite Hf in Hn.
  - intros t a b e Hok Hab Hf. unfold lt_insert. rewrite (proj2 (Z.ltb_ge _ _)) by lia. destruct (lt_taken t a b) eqn:E; [apply (lt_taken_load t a b Hab Hok) in E as (i & Hi & Hn); by rewrite Hf in Hn|].
    eexists. split; [done|]. split; [done|]. intros i. done.
  - intros t i Hok Hl. unfold lt_erase. by rewrite Hl.
  - intros t i a b e Hok Hl. unfold lt_erase. rewrite Hl. eexists. split; [done|]. split; [by apply lt_filter|]. intros j. apply lt_load_in in Hl as [Hx Hc]; [|done].
    assert (Hfil : forall y, y ∈ List.filter (fun y => negb (covers i y)) t <-> y ∈ t /\ y <> (a, b, e)).
    { intros y. rewrite !list_elem_of_In, filter_In, negb_true_iff, <- !list_elem_of_In. split; intros [H1 H2]; (split; [done|]).
      - intros ->. congruence.
      - destruct (covers i y) eqn:Ey; [|done]. destruct H2. pose proof (proj2 (lt_load_in t i y Hok) (conj H1 Ey)). pose proof (proj2 (lt_load_in t i _ Hok) (conj Hx Hc)). congruence. }
    destruct ((a <=? j) && (j <=? b)) eqn:Ej.
    + destruct (lt_load _ j) as [y|] eqn:Ey; [|done]. apply lt_load_in in Ey as [[H1 H2]%Hfil H3]; [|by apply lt_filter]. destruct H2.
      pose proof (proj2 (lt_load_in t j y Hok) (conj H1 H3)). pose proof (proj2 (lt_load_in t j (a, b, e) Hok) (conj Hx Ej)). congruence.
    + destruct (lt_load t j) as [y|] eqn:Ey.
      * apply lt_load_in in Ey as [H1 H2]; [|done]. apply lt_load_in; [by apply lt_filter|]. split; [|done]. apply Hfil. split; [done|]. intros ->. unfold covers in H2. cbn [fst snd] in H2. congruence.
      * destruct (lt_load (List.filter _ t) j) as [y|] eqn:Ez; [|done]. apply lt_load_in in Ez as [[H1 _]%Hfil H2]; [|by apply lt_filter]. pose proof (proj2 (lt_load_in t j y Hok) (conj H1 H2)). congruence.
  - done.
Qed.

Definition range_1_9 : obmm_pa_range := {| r_start := 1; r_end := 9; r_info := {| user := OBMM_ADDR_USER_PREIMPORT; data := not_ready_ptr |} |}.
Definition some_calls : list pa_call := [Occupy true true range_1_9; Occupy true true range_1_9; Query 9; Query 10; Free range_1_9; Free range_1_9].

Lemma addr_check_refines_witness : exists c, calls (T := tree) module_addr_check_init some_calls = Some ([(0, None); (- EEXIST, None); (0, Some (r_info range_1_9)); (- EFAULT, None); (0, None); (- EFAULT, None)], c) /\ (map_to_list (infos c)).*2 ≡ₚ [].
Proof. destruct (addr_check_refines (T := tree) some_calls) as (c & H1 & H2 & _). exists c. split; [exact H1|exact H2]. Defined.
End ListTree.
