(* ===== verification/ObmmPreimport.v ===== *)
(** * Pre-imported memory

    [drivers/ub/obmm/obmm_preimport.c] and [obmm_preimport_prefilled.c]: a range of physical addresses of remote memory is
    prepared ahead of time (pre-import); imports then commit blocks of it, and the range is released when
    no import uses it.  Direct imports ([obmm_import.c]) occupy ranges of their own.

    Calls run concurrently: each is a sequence of steps, a step being what the code does between two points where
    others can interfere (a critical section of [preimport_mutex] or [bitmap_lock], one call of the
    address checker, or work on memory that nobody else can reach).  Results of the kernel and of the
    bus drivers are inputs of each step.  [None] and [Bug] stand for an access to freed memory. *)

From S2P Require Import Prelude ObmmAddr.

Definition ULLONG_MAX : Z := 2 ^ 64 - 1.
Definition MAX_NUMA_DIST : Z := 255.
(** [LOCAL_DISTANCE] of the kernel. *)
Definition LOCAL_DISTANCE : Z := 10.
Definition OBMM_BASIC_GRANU : Z := 2 ^ 21.
Definition OBMM_PREIMPORT_FLAG_MASK : Z := 0.
Definition OBMM_UNPREIMPORT_FLAG_MASK : Z := 0.
Definition NUMA_NO_NODE : Z := -1.

(** ** Data *)

(** [struct obmm_datapath]. *)
Record obmm_datapath := { scna : Z; dcna : Z; seid : list Z; deid : list Z }.
(** [struct obmm_cmd_preimport]. *)
Record obmm_cmd_preimport := { c_pa : Z; c_length : Z; c_flags : Z; c_path : obmm_datapath; c_numa_id : Z; c_base_dist : Z }.
(** [struct prefilled_preimport_range], with its [struct preimport_range]. *)
Record prefilled_preimport_range := { numa_id : Z; p_start : Z; p_end : Z; p_path : obmm_datapath; use_count : Z; bitmap : list bool }.

(** What the kernel and the drivers answer during a step: the allocations (of a structure, and of its bitmap or of a
    node of the maple tree), [setup_ubmem_resource], [validate_scna], [ub_memory_validate_pa], [add_memory_remote],
    [obmm_set_numa_distance], [remove_memory_remote]. *)
Record answers := { x_alloc : bool; x_alloc2 : bool; x_res : Z; x_scna : bool; x_pa : bool; x_add : Z; x_dist : Z; x_remove : Z }.

Definition cmd_end (cmd : obmm_cmd_preimport) : Z := u64 (c_pa cmd + c_length cmd - 1).
Definition set_use (x : prefilled_preimport_range) (n : Z) : prefilled_preimport_range := {| numa_id := numa_id x; p_start := p_start x; p_end := p_end x; p_path := p_path x; use_count := n; bitmap := bitmap x |}.
Definition set_bitmap (x : prefilled_preimport_range) (b : list bool) : prefilled_preimport_range := {| numa_id := numa_id x; p_start := p_start x; p_end := p_end x; p_path := p_path x; use_count := use_count x; bitmap := b |}.
Definition set_numa (x : prefilled_preimport_range) (n : Z) : prefilled_preimport_range := {| numa_id := n; p_start := p_start x; p_end := p_end x; p_path := p_path x; use_count := use_count x; bitmap := bitmap x |}.

(** ** Checks *)

Definition is_numa_base_dist_valid (base_dist : Z) : bool :=
  if MAX_NUMA_DIST <? base_dist then false
  else if negb (base_dist =? 0) && (base_dist <=? LOCAL_DISTANCE) then false
  else true.

Section Preimport.
(** [memory_block_size_bytes()]. *)
Context (BLOCK : Z) {S : Type} `{PaRanges S}.

Definition check_preimport_cmd_common (x : answers) (cmd : obmm_cmd_preimport) : Z :=
  if negb (c_length cmd mod BLOCK =? 0) then - EINVAL
  else if negb (c_pa cmd mod BLOCK =? 0) then - EINVAL
  else if ULLONG_MAX - c_pa cmd <? c_length cmd then - EINVAL
  else if c_length cmd =? 0 then - EINVAL
  else if ctrue (Z.ldiff (c_flags cmd) OBMM_PREIMPORT_FLAG_MASK) then - EINVAL
  else if negb (x_scna x) then - ENODEV
  else if negb (is_numa_base_dist_valid (c_base_dist cmd)) then - EINVAL
  else 0.
Definition check_preimport_cmd (x : answers) (cmd : obmm_cmd_preimport) : Z :=
  let ret := check_preimport_cmd_common x cmd in
  if ctrue ret then ret else if c_pa cmd =? 0 then - EINVAL else 0.
Definition check_unpreimport_cmd_common (cmd : obmm_cmd_preimport) : Z := if ctrue (Z.ldiff (c_flags cmd) OBMM_UNPREIMPORT_FLAG_MASK) then - EINVAL else 0.

Definition check_preimport_datapath_common (pr : prefilled_preimport_range) (datapath : obmm_datapath) : Z :=
  if negb (scna (p_path pr) =? scna datapath) || negb (dcna (p_path pr) =? dcna datapath) then - EINVAL
  else if negb (bool_decide (seid (p_path pr) = seid datapath)) then - EINVAL
  else if negb (bool_decide (deid (p_path pr) = deid datapath)) then - EINVAL
  else 0.

(** The checks of an import region with the size [mem_size]. *)
Definition validate_pa_range (pa size : Z) : bool :=
  if negb (pa mod OBMM_BASIC_GRANU =? 0) || negb (size mod OBMM_BASIC_GRANU =? 0) then false
  else if pa =? 0 then false
  else if u64 (pa + size) <? pa then false
  else true.
Definition validate_import_region (pa mem_size : Z) : bool := if mem_size =? 0 then false else validate_pa_range pa mem_size.

(** ** State *)

(** The address checker, the allocated ranges and the number of the next one, [pr_list], and whether [preimport_mutex] is held. *)
Record preimport := { pa : S; pprs : gmap nat prefilled_preimport_range; next_ppr : nat; pr_list : list nat; preimport_mutex : bool }.
Definition set_pa (s : preimport) (c : S) : preimport := {| pa := c; pprs := pprs s; next_ppr := next_ppr s; pr_list := pr_list s; preimport_mutex := preimport_mutex s |}.
Definition set_pprs (s : preimport) (h : gmap nat prefilled_preimport_range) : preimport := {| pa := pa s; pprs := h; next_ppr := next_ppr s; pr_list := pr_list s; preimport_mutex := preimport_mutex s |}.
Definition set_list (s : preimport) (l : list nat) : preimport := {| pa := pa s; pprs := pprs s; next_ppr := next_ppr s; pr_list := l; preimport_mutex := preimport_mutex s |}.
Definition set_mutex (s : preimport) (b : bool) : preimport := {| pa := pa s; pprs := pprs s; next_ppr := next_ppr s; pr_list := pr_list s; preimport_mutex := b |}.
Definition new_ppr (s : preimport) (x : prefilled_preimport_range) : preimport := {| pa := pa s; pprs := <[next_ppr s := x]> (pprs s); next_ppr := Datatypes.S (next_ppr s); pr_list := pr_list s; preimport_mutex := preimport_mutex s |}.

(** ** Pre-import *)

(** The range of a command, not ready. *)
Definition cmd_range (cmd : obmm_cmd_preimport) : obmm_pa_range := {| r_start := c_pa cmd; r_end := cmd_end cmd; r_info := {| user := OBMM_ADDR_USER_PREIMPORT; data := not_ready_ptr |} |}.

(** When [setup_ubmem_resource] fails, the result is read from the structure that was just freed. *)
Definition create_prefilled_preimport_range (x : answers) (s : preimport) (cmd : obmm_cmd_preimport) : option (Z * option nat * preimport) :=
  if negb (x_alloc x) then Some (- ENOMEM, None, s)
  else if negb (x_alloc2 x) then Some (- ENOMEM, None, s)
  else if x_res x <? 0 then None
  else
    let ppr := {| numa_id := c_numa_id cmd; p_start := c_pa cmd; p_end := cmd_end cmd; p_path := c_path cmd; use_count := 0; bitmap := replicate (Z.to_nat (c_length cmd / BLOCK)) false |} in
    Some (0, Some (next_ppr s), new_ppr s ppr).

Definition destroy_prefilled_preimport_range (s : preimport) (p : nat) : option preimport := _ ← pprs s !! p; Some (set_pprs s (delete p (pprs s))).

Definition preimport_prepare_common (x : answers) (s : preimport) (p : nat) : option (Z * preimport) :=
  pr ← pprs s !! p;
  if negb (x_pa x) then Some (- EINVAL, s)
  else if x_add x <? 0 then Some (- EPERM, s)
  else
    let s := set_pprs s (<[p := set_numa pr (x_add x)]> (pprs s)) in
    if x_dist x <? 0 then Some (x_dist x, s) else Some (0, set_list s (p :: pr_list s)).

(** [list_del] of a node that is not in the list is an error. *)
Fixpoint list_del (l : list nat) (p : nat) : option (list nat) :=
  match l with [] => None | q :: l' => if bool_decide (q = p) then Some l' else r ← list_del l' p; Some (q :: r) end.
Definition preimport_release_common (x : answers) (s : preimport) (p : nat) (force : bool) : option (Z * preimport) :=
  _ ← pprs s !! p;
  if ctrue (x_remove x) && negb force then Some (x_remove x, s)
  else l ← list_del (pr_list s) p; Some (x_remove x, set_list s l).

Definition get_pa_mapping (s : preimport) (addr : Z) : option (Z * option nat) :=
  '(ret, info) ← pr_query (pa s) addr;
  if ctrue ret then Some (ret, None)
  else match info with
  | None => None
  | Some info =>
    if negb (bool_decide (user info = OBMM_ADDR_USER_PREIMPORT)) then Some (- EINVAL, None)
    else match data info with not_ready_ptr => Some (- EAGAIN, None) | Ppr p => Some (0, Some p) | Region _ => None end
  end.

(** ** Commitments *)

Definition get_ppr (s : preimport) (addr : Z) : option (Z * option nat * preimport) :=
  '(ret, o) ← get_pa_mapping s addr;
  match o with
  | None => Some (ret, None, s)
  | Some p => ppr ← pprs s !! p; Some (0, Some p, set_pprs s (<[p := set_use ppr (u32 (use_count ppr + 1))]> (pprs s)))
  end.
Definition put_ppr (s : preimport) (p : nat) : option preimport := ppr ← pprs s !! p; Some (set_pprs s (<[p := set_use ppr (u32 (use_count ppr - 1))]> (pprs s))).

(** The loops over the bits from [init_bit] to [end_bit]: whether one of them is [v], and their assignment. *)
Definition bits (ppr : prefilled_preimport_range) (st en : Z) : list nat :=
  let init_bit := (st - p_start ppr) / BLOCK in let end_bit := (en - p_start ppr) / BLOCK in seq (Z.to_nat init_bit) (Z.to_nat (end_bit - init_bit + 1)).
Fixpoint test_bits (v : bool) (bm : list bool) (l : list nat) : option bool :=
  match l with [] => Some false | b :: l' => x ← bm !! b; if Bool.eqb x v then Some true else test_bits v bm l' end.
Definition set_bits (v : bool) (bm : list bool) (l : list nat) : list bool := foldl (fun bm b => <[b := v]> bm) bm l.

Definition occupy_ppr_blocks (s : preimport) (p : nat) (st en : Z) : option (Z * preimport) :=
  ppr ← pprs s !! p;
  if (st <? p_start ppr) || (p_end ppr <? en) then Some (- EINVAL, s)
  else
    t ← test_bits true (bitmap ppr) (bits ppr st en);
    if (t : bool) then Some (- EEXIST, s)
    else Some (0, set_pprs s (<[p := set_bitmap ppr (set_bits true (bitmap ppr) (bits ppr st en))]> (pprs s))).
Definition free_ppr_blocks (s : preimport) (p : nat) (st en : Z) : option (Z * preimport) :=
  ppr ← pprs s !! p;
  if (st <? p_start ppr) || (p_end ppr <? en) then Some (- EINVAL, s)
  else
    t ← test_bits false (bitmap ppr) (bits ppr st en);
    if (t : bool) then Some (- EINVAL, s)
    else Some (0, set_pprs s (<[p := set_bitmap ppr (set_bits false (bitmap ppr) (bits ppr st en))]> (pprs s))).

(** ** Calls *)

(** Where a call is.  A committed range stays until it is given back, and a direct import until it ends. *)
Inductive op :=
  | PrepOccupy (cmd : obmm_cmd_preimport) | PrepCreate (cmd : obmm_cmd_preimport) | PrepCommon (cmd : obmm_cmd_preimport) (p : nat) | PrepPublish (cmd : obmm_cmd_preimport) (p : nat)
  | PrepUndo (cmd : obmm_cmd_preimport) (p : nat) (ret : Z) | PrepDestroy (cmd : obmm_cmd_preimport) (p : nat) (ret : Z) | PrepFree (cmd : obmm_cmd_preimport) (ret : Z)
  | RelQuery (cmd : obmm_cmd_preimport) | RelCommon (p : nat) | RelFree (p : nat) (ret : Z) | RelDestroy (p : nat) (ret : Z)
  | ComGet (st en : Z) (datapath : obmm_datapath) | ComOccupy (p : nat) (st en : Z) (datapath : obmm_datapath) | ComPut (p : nat) (ret : Z)
  | Committed (p : nat) (st en : Z) | UncPut (p : nat) (ret : Z)
  | DirOccupy (i_reg : nat) (st en : Z) | Direct (i_reg : nat) (st en : Z)
  | Returned (ret : Z).

(** A step is an error, waits for [preimport_mutex], or goes on. *)
Inductive outcome := Bug | Wait | Go (s : preimport) (o : op).
Definition go {A} (m : option A) (k : A -> outcome) : outcome := match m with None => Bug | Some a => k a end.
Definition with_mutex (s : preimport) (k : outcome) : outcome := if preimport_mutex s then Wait else k.

(** [preimport_prepare_prefilled]. *)
Definition prepare_occupy (x : answers) (s : preimport) (cmd : obmm_cmd_preimport) : outcome :=
  let ret := check_preimport_cmd x cmd in
  if ctrue ret then Go s (Returned ret)
  else let '(ret, c) := pr_occupy (x_alloc x) (x_alloc2 x) (pa s) (cmd_range cmd) in
       if ctrue ret then Go (set_pa s c) (Returned ret) else Go (set_pa s c) (PrepCreate cmd).
Definition prepare_create (x : answers) (s : preimport) (cmd : obmm_cmd_preimport) : outcome :=
  go (create_prefilled_preimport_range x s cmd) (fun '(ret, o, s) => match o with None => Go s (PrepFree cmd ret) | Some p => Go s (PrepCommon cmd p) end).
Definition prepare_common (x : answers) (s : preimport) (cmd : obmm_cmd_preimport) (p : nat) : outcome :=
  go (preimport_prepare_common x s p) (fun '(ret, s) => if ctrue ret then Go s (PrepDestroy cmd p ret) else Go s (PrepPublish cmd p)).
Definition prepare_publish (s : preimport) (cmd : obmm_cmd_preimport) (p : nat) : outcome :=
  go (pr_update (pa s) (c_pa cmd) {| user := OBMM_ADDR_USER_PREIMPORT; data := Ppr p |}) (fun '(ret, c) => if ctrue ret then Go (set_pa s c) (PrepUndo cmd p ret) else Go (set_pa s c) (Returned 0)).
Definition prepare_free (s : preimport) (cmd : obmm_cmd_preimport) (ret : Z) : outcome := go (pr_free (pa s) (cmd_range cmd)) (fun '(_, c) => Go (set_pa s c) (Returned ret)).

(** [obmm_unpreimport] and [preimport_release_prefilled]; [preimport_mutex] is held from the first step to the third. *)
Definition release_query (s : preimport) (cmd : obmm_cmd_preimport) : outcome :=
  if ctrue (check_unpreimport_cmd_common cmd) then Go s (Returned (check_unpreimport_cmd_common cmd))
  else with_mutex s (go (get_pa_mapping s (c_pa cmd)) (fun '(ret, o) =>
    match o with
    | None => Go s (Returned ret)
    | Some p => go (pprs s !! p) (fun ppr =>
      if negb (p_start ppr =? c_pa cmd) || negb (p_end ppr =? cmd_end cmd) then Go s (Returned (- EINVAL))
      else if negb (use_count ppr =? 0) then Go s (Returned (- EBUSY))
      else Go (set_mutex s true) (RelCommon p))
    end)).
Definition release_common (x : answers) (s : preimport) (p : nat) : outcome :=
  go (preimport_release_common x s p false) (fun '(ret, s) => if ctrue ret then Go (set_mutex s false) (Returned ret) else Go s (RelFree p ret)).
Definition release_free (s : preimport) (p : nat) (ret : Z) : outcome :=
  go (pprs s !! p) (fun ppr => go (pr_free (pa s) {| r_start := p_start ppr; r_end := p_end ppr; r_info := {| user := OBMM_ADDR_USER_PREIMPORT; data := Ppr p |} |})
    (fun '(_, c) => Go (set_mutex (set_pa s c) false) (RelDestroy p ret))).

(** [preimport_commit_prefilled] and [preimport_uncommit_prefilled]. *)
Definition commit_get (s : preimport) (st en : Z) (datapath : obmm_datapath) : outcome :=
  with_mutex s (go (get_ppr s st) (fun '(ret, o, s) => match o with None => Go s (Returned ret) | Some p => Go s (ComOccupy p st en datapath) end)).
Definition commit_occupy (s : preimport) (p : nat) (st en : Z) (datapath : obmm_datapath) : outcome :=
  go (pprs s !! p) (fun ppr =>
    let ret := check_preimport_datapath_common ppr datapath in
    if ctrue ret then Go s (ComPut p ret)
    else go (occupy_ppr_blocks s p st en) (fun '(ret, s) => if ctrue ret then Go s (ComPut p ret) else Go s (Committed p st en))).
Definition commit_put (s : preimport) (p : nat) (ret : Z) : outcome := with_mutex s (go (put_ppr s p) (fun s => Go s (Returned ret))).
Definition uncommit_free (s : preimport) (p : nat) (st en : Z) : outcome := go (free_ppr_blocks s p st en) (fun '(ret, s) => if ctrue ret then Go s (Returned ret) else Go s (UncPut p ret)).

(** [occupy_addr_range] and [free_addr_range] of an import that is not pre-imported. *)
Definition direct_range (i_reg : nat) (st en : Z) : obmm_pa_range := {| r_start := st; r_end := en; r_info := {| user := OBMM_ADDR_USER_DIRECT_IMPORT; data := Region i_reg |} |}.
Definition occupy_addr_range (x : answers) (s : preimport) (i_reg : nat) (st en : Z) : outcome :=
  let '(ret, c) := pr_occupy (x_alloc x) (x_alloc2 x) (pa s) (direct_range i_reg st en) in if ctrue ret then Go (set_pa s c) (Returned ret) else Go (set_pa s c) (Direct i_reg st en).
Definition free_addr_range (s : preimport) (i_reg : nat) (st en : Z) : outcome := go (pr_free (pa s) (direct_range i_reg st en)) (fun '(ret, c) => Go (set_pa s c) (Returned ret)).

Definition op_step (x : answers) (s : preimport) (o : op) : outcome :=
  match o with
  | PrepOccupy cmd => prepare_occupy x s cmd
  | PrepCreate cmd => prepare_create x s cmd
  | PrepCommon cmd p => prepare_common x s cmd p
  | PrepPublish cmd p => prepare_publish s cmd p
  | PrepUndo cmd p ret => go (preimport_release_common x s p true) (fun '(_, s) => Go s (PrepDestroy cmd p ret))
  | PrepDestroy cmd p ret => go (destroy_prefilled_preimport_range s p) (fun s => Go s (PrepFree cmd ret))
  | PrepFree cmd ret => prepare_free s cmd ret
  | RelQuery cmd => release_query s cmd
  | RelCommon p => release_common x s p
  | RelFree p ret => release_free s p ret
  | RelDestroy p ret => go (destroy_prefilled_preimport_range s p) (fun s => Go s (Returned ret))
  | ComGet st en datapath => commit_get s st en datapath
  | ComOccupy p st en datapath => commit_occupy s p st en datapath
  | ComPut p ret => commit_put s p ret
  | Committed p st en => uncommit_free s p st en
  | UncPut p ret => commit_put s p ret
  | DirOccupy i st en => occupy_addr_range x s i st en
  | Direct i st en => free_addr_range s i st en
  | Returned ret => Go s (Returned ret)
  end.

(** A call that nobody disturbs, to its end. *)
Fixpoint finish (fuel : nat) (x : answers) (s : preimport) (o : op) : option (preimport * op) :=
  match o with
  | Returned _ | Committed _ _ _ | Direct _ _ _ => Some (s, o)
  | _ => match fuel with O => None | Datatypes.S fuel' => match op_step x s o with Go s' o' => finish fuel' x s' o' | _ => None end end
  end.

(** ** Runs *)

Definition preimport_init : preimport := {| pa := pr_init; pprs := ∅; next_ppr := 0; pr_list := []; preimport_mutex := false |}.

(** Calls that start: commands with fields of their width, and import regions that passed the checks. *)
Definition starts (o : op) : Prop :=
  match o with
  | PrepOccupy cmd | RelQuery cmd => 0 <= c_pa cmd < 2 ^ 64 /\ 0 <= c_length cmd < 2 ^ 64
  | ComGet st en _ | DirOccupy _ st en => exists size, 0 <= st < 2 ^ 64 /\ 0 <= size < 2 ^ 64 /\ validate_import_region st size = true /\ en = u64 (st + size - 1)
  | _ => False
  end.

(** Fewer than [2 ^ 32] calls and commitments at once. *)
Inductive pre_run : preimport -> list op -> Prop :=
  | pre_init : pre_run preimport_init []
  | pre_call s ops o : pre_run s ops -> starts o -> Z.of_nat (length ops) + 1 < 2 ^ 32 -> pre_run s (o :: ops)
  | pre_step s ops o rest x s' o' : pre_run s ops -> ops ≡ₚ o :: rest -> op_step x s o = Go s' o' -> pre_run s' (o' :: rest)
  | pre_return s ops ret rest : pre_run s ops -> ops ≡ₚ Returned ret :: rest -> pre_run s rest.
End Preimport.
Arguments preimport S : clear implicits.
