(* ===== verification/ObmmPreimportInv.v ===== *)
(** * Pre-imported memory: the invariant

    What each call owns while it runs, and the invariant that every step of every call keeps: the ranges of the
    address checker, the allocated ranges, their use counts and their bitmaps are the
    sums of what the calls own. *)

From S2P Require Import Prelude ObmmAddr ObmmPreimport.

(** ** What calls own *)

Definition own (o : op) : list obmm_pa_range :=
  match o with
  | PrepCreate cmd | PrepCommon cmd _ | PrepPublish cmd _ | PrepUndo cmd _ _ | PrepDestroy cmd _ _ | PrepFree cmd _ => [cmd_range cmd]
  | Direct i st en => [direct_range i st en]
  | _ => []
  end.
(** Ranges that only this call can reach. *)
Definition holds (o : op) : list nat := match o with PrepCommon _ p | PrepPublish _ p | PrepUndo _ p _ | PrepDestroy _ p _ | RelDestroy p _ => [p] | _ => [] end.
(** References counted in [use_count]. *)
Definition refs (p : nat) (o : op) : bool := match o with ComOccupy q _ _ _ | ComPut q _ | Committed q _ _ | UncPut q _ => bool_decide (q = p) | _ => false end.
(** On [pr_list] beside the published ranges, or off it although published. *)
Definition listed (o : op) : list nat := match o with PrepPublish _ p | PrepUndo _ p _ => [p] | _ => [] end.
Definition unlisted (o : op) : list nat := match o with RelFree p _ => [p] | _ => [] end.
(** Holders of the mutex. *)
Definition locked (o : op) : list nat := match o with RelCommon p | RelFree p _ => [p] | _ => [] end.
Definition used (BLOCK start : Z) (p : nat) (b : nat) (o : op) : bool :=
  match o with Committed q st en => bool_decide (q = p) && ((st - start) / BLOCK <=? Z.of_nat b) && (Z.of_nat b <=? (en - start) / BLOCK) | _ => false end.

Fixpoint tally (f : op -> bool) (ops : list op) : nat := match ops with [] => 0%nat | o :: ops => ((if f o then 1 else 0) + tally f ops)%nat end.
Lemma tally_perm (f : op -> bool) (l l' : list op) : l ≡ₚ l' -> tally f l = tally f l'.
Proof. induction 1 as [|o l l' _ IH|o o' l|l l' l'' _ IH1 _ IH2]; cbn [tally]; lia. Qed.
Lemma tally_le (f : op -> bool) (l : list op) : (tally f l <= length l)%nat.
Proof. induction l as [|o l IH]; cbn [tally length]; [lia|]. destruct (f o); lia. Qed.
Lemma tally_zero (f : op -> bool) (l : list op) (o : op) : tally f l = 0%nat -> o ∈ l -> f o = false.
Proof. induction l as [|y l IH]; cbn [tally]; [by intros _ ?%not_elem_of_nil|]. intros Hc [->|Ho]%elem_of_cons; destruct (f _) eqn:E; try done; try lia. - apply IH; [lia|done]. Qed.
Lemma tally_none (f : op -> bool) (l : list op) : (forall o, o ∈ l -> f o = false) -> tally f l = 0%nat.
Proof. induction l as [|y l IH]; cbn [tally]; intros H; [done|]. rewrite (H y) by (by left). apply IH. intros o Ho. apply H. by right. Qed.
Lemma tally_ext (f g : op -> bool) (l : list op) : (forall o, o ∈ l -> f o = g o) -> tally f l = tally g l.
Proof. induction l as [|y l IH]; cbn [tally]; intros H; [done|]. rewrite (H y) by (by left). rewrite IH; [done|]. intros o Ho. apply H. by right. Qed.

Section Inv.
Context (BLOCK : Z) (BLOCK_pos : 0 < BLOCK) {S : Type} `{PaRangesLaws S}.
Abbreviation preimport := (preimport S).
Abbreviation heap := (gmap nat prefilled_preimport_range).
(** Published ranges. *)
Abbreviation pub := (nat * Z * Z)%type.
Definition pub_range (x : pub) : obmm_pa_range := {| r_start := snd (fst x); r_end := snd x; r_info := {| user := OBMM_ADDR_USER_PREIMPORT; data := Ppr (fst (fst x)) |} |}.
Definition pub_id (x : pub) : nat := fst (fst x).

Definition cmd_ok (cmd : obmm_cmd_preimport) : Prop := c_length cmd mod BLOCK = 0 /\ 0 <= c_pa cmd /\ 0 < c_length cmd /\ cmd_end cmd = c_pa cmd + c_length cmd - 1.
Definition made_for (h : heap) (cmd : obmm_cmd_preimport) (p : nat) : Prop := exists x, h !! p = Some x /\ p_start x = c_pa cmd /\ p_end x = cmd_end cmd.
(** What a call relies on. *)
Definition op_ok (h : heap) (P : list pub) (o : op) : Prop :=
  match o with
  | PrepOccupy cmd => 0 <= c_pa cmd < 2 ^ 64 /\ 0 <= c_length cmd < 2 ^ 64
  | PrepCreate cmd | PrepFree cmd _ => cmd_ok cmd
  | PrepCommon cmd p | PrepPublish cmd p | PrepUndo cmd p _ | PrepDestroy cmd p _ => cmd_ok cmd /\ made_for h cmd p
  | RelCommon p | RelFree p _ => p ∈ pub_id <$> P /\ forall x, h !! p = Some x -> use_count x = 0
  | ComGet st en _ | DirOccupy _ st en | Direct _ st en => st <= en
  | ComOccupy p st en _ => p ∈ pub_id <$> P /\ st <= en
  | ComPut p _ | UncPut p _ => p ∈ pub_id <$> P
  | Committed p st en => p ∈ pub_id <$> P /\ st <= en /\ exists x, h !! p = Some x /\ p_start x <= st /\ en <= p_end x
  | _ => True
  end.

Record pre_inv (s : preimport) (ops : list op) (P : list pub) : Prop := {
  v_rel : pa_rel (pa s) (flat_map own ops ++ (pub_range <$> P));
  v_heap : (pub_id <$> P) ++ flat_map holds ops ≡ₚ elements (dom (pprs s));
  v_pub : forall x, x ∈ P -> exists ppr, pprs s !! pub_id x = Some ppr /\ p_start ppr = snd (fst x) /\ p_end ppr = snd x;
  v_ops : Forall (op_ok (pprs s) P) ops;
  v_use : forall p x, pprs s !! p = Some x -> use_count x = Z.of_nat (tally (refs p) ops);
  v_bits : forall p x b bit, pprs s !! p = Some x -> bitmap x !! b = Some bit -> tally (used BLOCK (p_start x) p b) ops = if (bit : bool) then 1%nat else 0%nat;
  v_wf : forall p x, pprs s !! p = Some x -> p_start x <= p_end x /\ p_end x - p_start x + 1 = BLOCK * Z.of_nat (length (bitmap x));
  v_list : pr_list s ++ flat_map unlisted ops ≡ₚ (pub_id <$> P) ++ flat_map listed ops;
  v_mutex : length (flat_map locked ops) = if preimport_mutex s then 1%nat else 0%nat;
  v_next : forall p, is_Some (pprs s !! p) -> (p < next_ppr s)%nat;
  v_small : Z.of_nat (length ops) < 2 ^ 32
}.
Definition inv (s : preimport) (ops : list op) : Prop := exists P, pre_inv s ops P.

Lemma flat_map_perm {A} (f : op -> list A) (l l' : list op) : l ≡ₚ l' -> flat_map f l ≡ₚ flat_map f l'.
Proof. intros Hp. induction Hp as [|o l l' _ IH|o o' l|l l' l'' _ IH1 _ IH2]; cbn [flat_map]; [done|by rewrite IH| |by rewrite IH1]. rewrite !app_assoc. by rewrite (Permutation_app_comm (f o')). Qed.

Lemma pre_inv_perm (s : preimport) (ops ops' : list op) (P : list pub) : ops ≡ₚ ops' -> pre_inv s ops P -> pre_inv s ops' P.
Proof.
  intros Hp [A1 A3 A4 A5 A6 A7 A8 A9 A10 A11 A12]. split; try done.
  - eapply pa_rel_perm; [|exact A1]. by rewrite (flat_map_perm own ops ops' Hp).
  - by rewrite <- (flat_map_perm holds ops ops' Hp).
  - by rewrite <- Hp.
  - intros p x Hx. rewrite <- (tally_perm _ _ _ Hp). by apply A6.
  - intros p x b bit Hx Hb. rewrite <- (tally_perm _ _ _ Hp). by apply (A7 p x b bit).
  - by rewrite <- (flat_map_perm unlisted ops ops' Hp), <- (flat_map_perm listed ops ops' Hp).
  - by rewrite <- (flat_map_perm locked ops ops' Hp).
  - by rewrite <- Hp.
Qed.

(** ** Frames *)

(** The call moves on; only the checker may change. *)
Lemma inv_move (s s' : preimport) (o o' : op) (rest : list op) (P : list pub) : pre_inv s (o :: rest) P -> pprs s' = pprs s -> next_ppr s' = next_ppr s -> pr_list s' = pr_list s -> preimport_mutex s' = preimport_mutex s ->
  pa_rel (pa s') (own o' ++ flat_map own rest ++ (pub_range <$> P)) -> holds o' = holds o -> (forall p, refs p o' = refs p o) ->
  listed o' = listed o -> unlisted o' = unlisted o -> locked o' = locked o -> (forall st p b, used BLOCK st p b o' = used BLOCK st p b o) -> op_ok (pprs s) P o' -> pre_inv s' (o' :: rest) P.
Proof.
  intros [A1 A3 A4 A5 A6 A7 A8 A9 A10 A11 A12] F1 F2 F3 F4 HR E2 E3 E4 E5 E6 E7 Hok. apply Forall_cons in A5 as [_ A5].
  split; cbn [flat_map tally length] in *; rewrite ?E2, ?E4, ?E5, ?E6, ?F1, ?F2, ?F3, ?F4, <- ?app_assoc; try done.
  - by apply Forall_cons.
  - intros p x Hx. rewrite E3. by apply A6.
  - intros p x b bit Hx Hb. rewrite E7. by apply (A7 p x b bit).
Qed.
Lemma inv_swap (s : preimport) (o o' : op) (rest : list op) (P : list pub) : pre_inv s (o :: rest) P -> own o' = own o -> holds o' = holds o -> (forall p, refs p o' = refs p o) ->
  listed o' = listed o -> unlisted o' = unlisted o -> locked o' = locked o -> (forall st p b, used BLOCK st p b o' = used BLOCK st p b o) -> op_ok (pprs s) P o' -> pre_inv s (o' :: rest) P.
Proof. intros Hi E. eapply inv_move; try done. rewrite E. pose proof (v_rel _ _ _ Hi) as Hr. cbn [flat_map] in Hr. by rewrite <- app_assoc in Hr. Qed.

(** A range that changes in place. *)
Lemma op_ok_update (h : heap) (P : list pub) (p : nat) (x x' : prefilled_preimport_range) (o : op) : h !! p = Some x -> p_start x' = p_start x -> p_end x' = p_end x -> use_count x' = use_count x \/ locked o = [] ->
  op_ok h P o -> op_ok (<[p := x']> h) P o.
Proof.
  intros Hx Es Ee Hu.
  assert (Hm : forall cmd q, made_for h cmd q -> made_for (<[p := x']> h) cmd q).
  { intros cmd q (y & Hy & H1 & H2). destruct (decide (q = p)) as [->|Hne]; [exists x'; rewrite lookup_insert_eq|exists y; by rewrite lookup_insert_ne]. rewrite Hx in Hy. injection Hy as <-. split; [done|]. by rewrite Es, Ee. }
  assert (Hz : forall q, use_count x' = use_count x -> (forall y, h !! q = Some y -> use_count y = 0) -> forall y, <[p := x']> h !! q = Some y -> use_count y = 0).
  { intros q Heq Hq y Hy. destruct (decide (q = p)) as [->|Hne]; [rewrite lookup_insert_eq in Hy; injection Hy as <-; rewrite Heq; by apply Hq|]. rewrite lookup_insert_ne in Hy by done. by apply Hq. }
  destruct o; cbn [op_ok locked] in *; try done; try (intros [? ?]; split; [done|by apply Hm]).
  - destruct Hu as [Hu|?]; [|done]. intros [H1 H2]. split; [done|]. by apply Hz.
  - destruct Hu as [Hu|?]; [|done]. intros [H1 H2]. split; [done|]. by apply Hz.
  - intros (H1 & H2 & y & Hy & H3 & H4). split; [done|]. split; [done|]. destruct (decide (p0 = p)) as [->|Hne]; [exists x'; rewrite lookup_insert_eq|exists y; by rewrite lookup_insert_ne]. rewrite Hx in Hy. injection Hy as <-. by rewrite Es, Ee.
Qed.

Lemma locked_nil (ops : list op) (o : op) : flat_map locked ops = [] -> o ∈ ops -> locked o = [].
Proof. induction ops as [|y ops IH]; [by intros _ ?%not_elem_of_nil|]. cbn [flat_map]. intros [H1 H2]%app_eq_nil [->|Ho]%elem_of_cons; [done|by apply IH]. Qed.

Lemma inv_update_ppr (s s' : preimport) (o o' : op) (rest : list op) (P : list pub) (p : nat) (x x' : prefilled_preimport_range) : pre_inv s (o :: rest) P -> pprs s !! p = Some x ->
  pa s' = pa s -> pprs s' = <[p := x']> (pprs s) -> next_ppr s' = next_ppr s -> pr_list s' = pr_list s -> preimport_mutex s' = preimport_mutex s ->
  p_start x' = p_start x -> p_end x' = p_end x -> length (bitmap x') = length (bitmap x) -> use_count x' = use_count x \/ flat_map locked rest = [] ->
  own o' = own o -> holds o' = holds o -> listed o' = listed o -> unlisted o' = unlisted o -> locked o' = locked o ->
  (forall q, q <> p -> refs q o' = refs q o) -> use_count x' = Z.of_nat (tally (refs p) (o' :: rest)) ->
  (forall st q b, q <> p -> used BLOCK st q b o' = used BLOCK st q b o) -> (forall b bit, bitmap x' !! b = Some bit -> tally (used BLOCK (p_start x) p b) (o' :: rest) = if (bit : bool) then 1%nat else 0%nat) ->
  op_ok (<[p := x']> (pprs s)) P o' -> pre_inv s' (o' :: rest) P.
Proof.
  intros [A1 A3 A4 A5 A6 A7 A8 A9 A10 A11 A12] Hx F0 F1 F2 F3 F4 Es Ee El Hu E1 E2 E4 E5 E6 E3 Huse E7 Hbits Hok. apply Forall_cons in A5 as [_ A5].
  split; cbn [flat_map length] in *; rewrite ?E1, ?E2, ?E4, ?E5, ?E6, ?F0, ?F1, ?F2, ?F3, ?F4; try done.
  - rewrite A3. apply elements_proper. rewrite dom_insert. intros y. rewrite elem_of_union, elem_of_singleton. split; [by right|]. intros [->|?]; [|done]. apply elem_of_dom. by eexists.
  - intros y Hy. destruct (A4 y Hy) as (z & Hz & H1 & H2). destruct (decide (pub_id y = p)) as [<-|Hne]; [|exists z; by rewrite lookup_insert_ne]. rewrite Hx in Hz. injection Hz as <-. exists x'. rewrite lookup_insert_eq. split; [done|]. by rewrite Es, Ee.
  - apply Forall_cons. split; [done|]. apply Forall_forall. intros y Hy. rewrite Forall_forall in A5. eapply op_ok_update; try done; [|by apply A5]. destruct Hu as [Hu|Hu]; [by left|right]. by eapply locked_nil.
  - intros q y Hy. destruct (decide (q = p)) as [->|Hne]; [rewrite lookup_insert_eq in Hy; by injection Hy as <-|]. rewrite lookup_insert_ne in Hy by done. cbn [tally] in *. rewrite E3 by done. by apply A6.
  - intros q y b bit Hy Hb. destruct (decide (q = p)) as [->|Hne]; [rewrite lookup_insert_eq in Hy; injection Hy as <-; rewrite Es; by apply Hbits|]. rewrite lookup_insert_ne in Hy by done. cbn [tally] in *. rewrite E7 by done. by apply (A7 q y b bit).
  - intros q y Hy. destruct (decide (q = p)) as [->|Hne]; [rewrite lookup_insert_eq in Hy; injection Hy as <-; rewrite Es, Ee, El; by apply (A8 p)|]. rewrite lookup_insert_ne in Hy by done. by apply (A8 q).
  - intros q [y Hy]. apply A11. destruct (decide (q = p)) as [->|Hne]; [by eexists|]. rewrite lookup_insert_ne in Hy by done. by eexists.
Qed.

(** ** Ranges that one call holds *)

Lemma held_alone (s : preimport) (o : op) (rest : list op) (P : list pub) (p : nat) : pre_inv s (o :: rest) P -> holds o = [p] ->
  (p ∉ pub_id <$> P) /\ (p ∉ flat_map holds rest) /\ is_Some (pprs s !! p).
Proof.
  intros Hi Hh. pose proof (v_heap _ _ _ Hi) as Hp. cbn [flat_map] in Hp. rewrite Hh in Hp. cbn [app] in Hp. rewrite <- Permutation_middle in Hp.
  assert (Hnd : NoDup (p :: (pub_id <$> P) ++ flat_map holds rest)) by (rewrite Hp; apply NoDup_elements). apply NoDup_cons in Hnd as [Hn _]. rewrite not_elem_of_app in Hn. destruct Hn as [H1 H2]. split; [done|]. split; [done|].
  apply elem_of_dom, elem_of_elements. rewrite <- Hp. by left.
Qed.
Lemma in_flat_map_op {A} (f : op -> list A) (l : list op) (o : op) (a : A) : o ∈ l -> a ∈ f o -> a ∈ flat_map f l.
Proof. intros Ho Ha. apply list_elem_of_In, in_flat_map. exists o. split; by apply list_elem_of_In. Qed.

Lemma op_ok_delete (h : heap) (P : list pub) (p : nat) (o : op) : (p ∉ pub_id <$> P) -> (p ∉ holds o) -> op_ok h P o -> op_ok (delete p h) P o.
Proof.
  intros HP Hh. assert (Hm : forall cmd q, q <> p -> made_for h cmd q -> made_for (delete p h) cmd q) by (intros cmd q Hne (y & Hy & H1); exists y; by rewrite lookup_delete_ne).
  destruct o; cbn [op_ok holds] in *; try done; try (intros [? ?]; split; [done|]; apply Hm; [intros ->; apply Hh; by left|done]).
  - intros [H1 H2]. split; [done|]. intros x [_ Hx]%lookup_delete_Some. by apply H2.
  - intros [H1 H2]. split; [done|]. intros x [_ Hx]%lookup_delete_Some. by apply H2.
  - intros (H1 & H2 & y & Hy & H3). split; [done|]. split; [done|]. exists y. rewrite lookup_delete_ne; [done|]. by intros ->.
Qed.

(** A range is freed by the call that holds it. *)
Lemma inv_destroy (s : preimport) (o o' : op) (rest : list op) (P : list pub) (p : nat) : pre_inv s (o :: rest) P -> holds o = [p] -> holds o' = [] -> own o' = own o -> (forall q, refs q o = false /\ refs q o' = false) ->
  listed o = [] -> listed o' = [] -> unlisted o' = unlisted o -> locked o' = locked o -> (forall st q b, used BLOCK st q b o = false /\ used BLOCK st q b o' = false) -> op_ok (delete p (pprs s)) P o' ->
  exists s', destroy_prefilled_preimport_range s p = Some s' /\ pre_inv s' (o' :: rest) P.
Proof.
  intros Hi Hh Hh' E1 E3 E4 E4' E5 E6 E7 Hok. destruct (held_alone s o rest P p Hi Hh) as (H1 & H2 & x & Hx). unfold destroy_prefilled_preimport_range. rewrite Hx. cbn [mbind option_bind]. eexists. split; [done|].
  destruct Hi as [A1 A3 A4 A5 A6 A7 A8 A9 A10 A11 A12]. apply Forall_cons in A5 as [_ A5].
  split; cbn [set_pprs pa pprs next_ppr pr_list preimport_mutex flat_map length] in *; rewrite ?E1, ?E5, ?E6; try done.
  - rewrite Hh'. cbn [app]. rewrite Hh in A3. cbn [app] in A3. rewrite <- Permutation_middle in A3. apply (Permutation.Permutation_cons_inv (a := p)). rewrite A3, dom_delete. rewrite <- (elements_union_singleton (dom (pprs s) ∖ {[p]}) p) by (rewrite elem_of_difference, elem_of_singleton; tauto).
    apply elements_proper. intros y. rewrite elem_of_union, elem_of_difference, elem_of_singleton. destruct (decide (y = p)) as [->|]; [|tauto]. split; [by left|]. intros _. apply elem_of_dom. by eexists.
  - intros y Hy. destruct (A4 y Hy) as (z & Hz & H3). exists z. rewrite lookup_delete_ne; [done|]. intros ->. apply H1, list_elem_of_fmap. by exists y.
  - apply Forall_cons. split; [done|]. apply Forall_forall. intros y Hy. rewrite Forall_forall in A5. apply op_ok_delete; [done| |by apply A5]. intros Hin. apply H2. by eapply in_flat_map_op.
  - intros q y [_ Hy]%lookup_delete_Some. specialize (A6 q y Hy). cbn [tally] in *. rewrite (proj1 (E3 q)) in A6. by rewrite (proj2 (E3 q)).
  - intros q y b bit [_ Hy]%lookup_delete_Some Hb. specialize (A7 q y b bit Hy Hb). cbn [tally] in *. rewrite (proj1 (E7 _ q b)) in A7. by rewrite (proj2 (E7 _ q b)).
  - intros q y [_ Hy]%lookup_delete_Some. by apply (A8 q).
  - by rewrite E4', <- E4.
  - intros q [y [_ Hy]%lookup_delete_Some]. apply A11. by eexists.
Qed.

(** [list_del] finds what is there. *)
Lemma list_del_ok (l l' : list nat) (p : nat) : l ≡ₚ p :: l' -> exists r, list_del l p = Some r /\ r ≡ₚ l'.
Proof.
  revert l'. induction l as [|q l IH]; intros l' Hp; [by apply Permutation.Permutation_nil_cons in Hp|]. cbn [list_del]. destruct (bool_decide_reflect (q = p)) as [->|Hne].
  - exists l. split; [done|]. by apply (Permutation.Permutation_cons_inv Hp).
  - assert (Hq : p ∈ l). { assert (Hin : p ∈ q :: l) by (rewrite Hp; by left). apply elem_of_cons in Hin as [->|?]; [done|done]. } apply list_elem_of_split in Hq as (l1 & l2 & ->).
    destruct (IH (l1 ++ l2)) as (r & -> & Hr); [by rewrite Permutation_middle|]. cbn [mbind option_bind]. exists (q :: r). split; [done|]. rewrite Hr. apply (Permutation.Permutation_cons_inv (a := p)). rewrite <- Hp. rewrite <- Permutation_middle. constructor.
Qed.
End Inv.
