(* ===== verification/ObmmPreimportStep.v ===== *)
(** * Pre-imported memory: every step keeps the invariant *)

From S2P Require Import Prelude ObmmAddr ObmmPreimport ObmmPreimportInv.

Section Step.
Context (BLOCK : Z) (BLOCK_pos : 0 < BLOCK) {S : Type} `{PaRangesLaws S}.
Abbreviation preimport := (preimport S).
Abbreviation pub := (nat * Z * Z)%type.
Abbreviation pre_inv := (pre_inv BLOCK).
Abbreviation inv := (inv BLOCK).

(** A step is not an error, waits only for the mutex, and keeps the invariant. *)
Definition fine (s : preimport) (rest : list op) (out : outcome) : Prop :=
  match out with Bug => False | Wait => preimport_mutex s = true | Go s' o' => inv s' (o' :: rest) end.

Lemma ctrue_0 (r : Z) : ctrue r = false -> r = 0.
Proof. by intros ?%ctrue_z. Qed.

(** ** Pre-import *)

Lemma check_cmd_ok (x : answers) (cmd : obmm_cmd_preimport) : 0 <= c_pa cmd < 2 ^ 64 -> 0 <= c_length cmd < 2 ^ 64 -> ctrue (check_preimport_cmd BLOCK x cmd) = false -> cmd_ok BLOCK cmd.
Proof.
  intros Hp Hl. unfold check_preimport_cmd, check_preimport_cmd_common. destruct (Z.eqb_spec (c_length cmd mod BLOCK) 0) as [E1|]; cbn [negb]; [|done]. destruct (_ =? 0); cbn [negb]; [|done].
  destruct (Z.ltb_spec (ULLONG_MAX - c_pa cmd) (c_length cmd)) as [|E2]; [done|]. destruct (Z.eqb_spec (c_length cmd) 0) as [|E3]; [done|]. intros _. unfold ULLONG_MAX in E2.
  split; [done|]. split; [lia|]. split; [lia|]. unfold cmd_end. apply uwrap_small. lia.
Qed.

Lemma prepare_occupy_ok (x : answers) (s : preimport) (cmd : obmm_cmd_preimport) (rest : list op) (P : list pub) : pre_inv s (PrepOccupy cmd :: rest) P -> fine s rest (prepare_occupy BLOCK x s cmd).
Proof.
  intros Hi. unfold prepare_occupy. destruct (ctrue (check_preimport_cmd BLOCK x cmd)) eqn:Ec; [exists P; by eapply inv_swap|]. pose proof (v_ops _ _ _ _ Hi) as [[Hc1 Hc2] _]%Forall_cons. pose proof (check_cmd_ok x cmd Hc1 Hc2 Ec) as Hok.
  destruct (pr_occupy_law (x_alloc x) (x_alloc2 x) (pa s) (cmd_range cmd) _ (v_rel _ _ _ _ Hi)) as (c & -> & Hrel). cbn [flat_map own app] in Hrel.
  assert (Hord : (r_end (cmd_range cmd) <? r_start (cmd_range cmd)) = false). { cbn [cmd_range r_end r_start]. destruct Hok as (_ & H1 & H2 & ->). lia. } rewrite Hord in *.
  cbn [flat_map own app] in *. destruct (x_alloc x); cbn [negb andb] in *; [|exists P; by eapply inv_move]. destruct (clash _ _); cbn [negb andb] in *; [rewrite andb_false_r in Hrel; exists P; by eapply inv_move|].
  destruct (x_alloc2 x); cbn [negb andb] in *; exists P; by eapply inv_move.
Qed.

Lemma prepare_create_ok (x : answers) (s : preimport) (cmd : obmm_cmd_preimport) (rest : list op) (P : list pub) : pre_inv s (PrepCreate cmd :: rest) P -> 0 <= x_res x -> fine s rest (prepare_create BLOCK x s cmd).
Proof.
  intros Hi Hres. unfold prepare_create, create_prefilled_preimport_range. pose proof (v_ops _ _ _ _ Hi) as [Hok _]%Forall_cons. cbn [op_ok] in Hok.
  destruct (x_alloc x); cbn [negb]; [|exists P; by eapply inv_swap]. destruct (x_alloc2 x); cbn [negb]; [|exists P; by eapply inv_swap]. rewrite (proj2 (Z.ltb_ge (x_res x) 0)) by done. cbn [go]. exists P.
  destruct Hi as [A1 A3 A4 A5 A6 A7 A8 A9 A10 A11 A12]. assert (Hn : pprs s !! next_ppr s = None). { destruct (pprs s !! next_ppr s) eqn:E; [|done]. specialize (A11 (next_ppr s) ltac:(by eexists)). lia. }
  assert (Hni : next_ppr s ∉ (pub_id <$> P) ++ flat_map holds (PrepCreate cmd :: rest)) by (rewrite A3, elem_of_elements; by apply not_elem_of_dom).
  set (ppr := {| numa_id := _ |}).
  assert (Hz : forall f, (forall o, o ∈ rest -> f o = true -> exists q, q ∈ pub_id <$> P /\ q = next_ppr s) -> tally f rest = 0%nat).
  { intros f Hf. apply tally_none. intros o Ho. destruct (f o) eqn:E; [|done]. destruct (Hf o Ho E) as (q & Hq & ->). exfalso. apply Hni, elem_of_app. by left. }
  apply Forall_cons in A5 as [_ A5]. rewrite Forall_forall in A5.
  split; cbn [new_ppr pa pprs next_ppr pr_list preimport_mutex flat_map length own holds listed unlisted locked app] in *; try done.
  - rewrite <- Permutation_middle, A3, dom_insert. symmetry. apply elements_union_singleton. by apply not_elem_of_dom.
  - intros y Hy. destruct (A4 y Hy) as (z & Hz' & H1). exists z. rewrite lookup_insert_ne; [done|]. congruence.
  - apply Forall_cons. split.
    + cbn [op_ok]. split; [done|]. exists ppr. rewrite lookup_insert_eq. done.
    + apply Forall_forall. intros o Ho. specialize (A5 o Ho). assert (Hm : forall c q, made_for (pprs s) c q -> made_for (<[next_ppr s := ppr]> (pprs s)) c q) by (intros c q (y & Hy & H1); exists y; rewrite lookup_insert_ne; [done|congruence]).
      destruct o; cbn [op_ok] in *; try done; try (destruct A5; split; [done|by apply Hm]).
      * destruct A5 as [H1 H2]. split; [done|]. intros y Hy. rewrite lookup_insert_ne in Hy; [by apply H2|]. intros <-. apply Hni, elem_of_app. by left.
      * destruct A5 as [H1 H2]. split; [done|]. intros y Hy. rewrite lookup_insert_ne in Hy; [by apply H2|]. intros <-. apply Hni, elem_of_app. by left.
      * destruct A5 as (H1 & H2 & y & Hy & H3). split; [done|]. split; [done|]. exists y. rewrite lookup_insert_ne; [done|congruence].
  - intros p y Hy. destruct (decide (p = next_ppr s)) as [->|Hne].
    + rewrite lookup_insert_eq in Hy. injection Hy as <-. cbn [tally refs ppr use_count]. rewrite Hz; [done|]. intros o Ho Hr. specialize (A5 o Ho). exists (next_ppr s). split; [|done]. destruct o; cbn [refs] in Hr; try done; apply bool_decide_eq_true in Hr as ->; cbn [op_ok] in A5; try apply A5; done.
    + rewrite lookup_insert_ne in Hy by done. by apply (A6 p).
  - intros p y b bit Hy Hb. destruct (decide (p = next_ppr s)) as [->|Hne].
    + rewrite lookup_insert_eq in Hy. injection Hy as <-. cbn [ppr bitmap] in Hb. apply lookup_replicate in Hb as [-> _]. cbn [tally used]. rewrite Hz; [done|]. intros o Ho Hr. specialize (A5 o Ho). exists (next_ppr s). split; [|done].
      destruct o; cbn [used] in Hr; try done. apply andb_prop in Hr as [[Hr%bool_decide_eq_true _]%andb_prop _]. subst p. apply A5.
    + rewrite lookup_insert_ne in Hy by done. by apply (A7 p y b bit).
  - intros p y Hy. destruct (decide (p = next_ppr s)) as [->|Hne].
    + rewrite lookup_insert_eq in Hy. injection Hy as <-. cbn [ppr p_start p_end bitmap]. rewrite length_replicate. destruct Hok as (H1 & H2 & H3 & ->). rewrite Z2Nat.id by (apply Z.div_pos; lia). split; [lia|]. pose proof (Z.div_mod (c_length cmd) BLOCK). lia.
    + rewrite lookup_insert_ne in Hy by done. by apply (A8 p).
  - intros p [y Hy]. destruct (decide (p = next_ppr s)) as [->|Hne]; [lia|]. rewrite lookup_insert_ne in Hy by done. specialize (A11 p ltac:(by eexists)). lia.
Qed.

(** Only [pr_list], and the mutex, change. *)
Lemma inv_list (s s' : preimport) (o o' : op) (rest : list op) (P : list pub) : pre_inv s (o :: rest) P -> pa s' = pa s -> pprs s' = pprs s -> next_ppr s' = next_ppr s ->
  pr_list s' ++ unlisted o' ++ flat_map unlisted rest ≡ₚ (pub_id <$> P) ++ listed o' ++ flat_map listed rest ->
  own o' = own o -> holds o' = holds o -> (forall p, refs p o' = refs p o) -> length (locked o' ++ flat_map locked rest) = (if preimport_mutex s' then 1 else 0)%nat ->
  (forall st p b, used BLOCK st p b o' = used BLOCK st p b o) -> op_ok BLOCK (pprs s) P o' -> pre_inv s' (o' :: rest) P.
Proof.
  intros [A1 A3 A4 A5 A6 A7 A8 A9 A10 A11 A12] F1 F2 F3 Hl E1 E2 E3 E4 E5 Hok. apply Forall_cons in A5 as [_ A5].
  split; cbn [flat_map tally length] in *; rewrite ?E1, ?E2, ?F1, ?F2, ?F3; try done.
  - by apply Forall_cons.
  - intros p x Hx. rewrite E3. by apply A6.
  - intros p x b bit Hx Hb. rewrite E5. by apply (A7 p x b bit).
Qed.

Lemma prepare_common_ok (x : answers) (s : preimport) (cmd : obmm_cmd_preimport) (p : nat) (rest : list op) (P : list pub) : pre_inv s (PrepCommon cmd p :: rest) P -> fine s rest (prepare_common x s cmd p).
Proof.
  intros Hi. unfold prepare_common, preimport_prepare_common. pose proof (v_ops _ _ _ _ Hi) as [(Hc & Hm) _]%Forall_cons. pose proof Hm as (y & Hy & H1 & H2). rewrite Hy. cbn [mbind option_bind].
  destruct (x_pa x); cbn [negb]; [|exists P; by eapply inv_swap]. destruct (x_add x <? 0); [exists P; by eapply inv_swap|].
  set (s1 := set_pprs s (<[p := set_numa y (x_add x)]> (pprs s))).
  assert (Hi1 : pre_inv s1 (PrepCommon cmd p :: rest) P).
  { eapply (inv_update_ppr BLOCK s s1 _ _ rest P p y (set_numa y (x_add x))); try done; [by left| | |].
    - exact (v_use _ _ _ _ Hi p y Hy).
    - intros b bit Hb. exact (v_bits _ _ _ _ Hi p y b bit Hy Hb).
    - split; [done|]. exists (set_numa y (x_add x)). by rewrite lookup_insert_eq. }
  destruct (Z.ltb_spec (x_dist x) 0); cbn [go].
  - rewrite (proj2 (ctrue_nz (x_dist x))) by lia. exists P. eapply inv_swap; try done. pose proof (v_ops _ _ _ _ Hi1) as [Hok1 _]%Forall_cons. exact Hok1.
  - exists P. pose proof (v_ops _ _ _ _ Hi1) as [Hok _]%Forall_cons. eapply (inv_list s1); try done.
    + pose proof (v_list _ _ _ _ Hi1) as Hl. cbn [flat_map listed unlisted app set_list pr_list] in *. rewrite <- Permutation_middle. by rewrite Hl.
    + apply (v_mutex _ _ _ _ Hi1).
Qed.

Lemma op_ok_mono (h : gmap nat prefilled_preimport_range) (P P' : list pub) (o : op) : (forall p, p ∈ pub_id <$> P -> p ∈ pub_id <$> P') -> op_ok BLOCK h P o -> op_ok BLOCK h P' o.
Proof. intros HP. destruct o; cbn [op_ok]; try done; try (intros [? ?]; split; [by apply HP|done]); try apply HP. Qed.

Lemma prepare_publish_ok (s : preimport) (cmd : obmm_cmd_preimport) (p : nat) (rest : list op) (P : list pub) : pre_inv s (PrepPublish cmd p :: rest) P -> fine s rest (prepare_publish s cmd p).
Proof.
  intros Hi. unfold prepare_publish. pose proof (v_ops _ _ _ _ Hi) as [(Hc & y & Hy & H1 & H2) _]%Forall_cons. destruct Hc as (_ & Hc1 & Hc2 & Hc3). pose proof (v_rel _ _ _ _ Hi) as Hr. cbn [flat_map own app] in Hr.
  destruct (pr_update_law (pa s) (c_pa cmd) {| user := OBMM_ADDR_USER_PREIMPORT; data := Ppr p |} _ _ Hr) as (c & -> & Hr'); [unfold in_range; cbn [cmd_range r_start r_end]; lia|]. cbn [go]. change (ctrue 0) with false. cbv iota.
  exists ((p, c_pa cmd, cmd_end cmd) :: P). destruct Hi as [A1 A3 A4 A5 A6 A7 A8 A9 A10 A11 A12]. apply Forall_cons in A5 as [_ A5].
  split; cbn [set_pa pa pprs next_ppr pr_list preimport_mutex flat_map length own holds listed unlisted locked app] in *; try done.
  - eapply pa_rel_perm; [|exact Hr']. cbn [fmap list_fmap]. by rewrite <- Permutation_middle.
  - cbn [fmap list_fmap app]. rewrite <- A3. by rewrite <- Permutation_middle.
  - intros z [->|Hz]%elem_of_cons; [|by apply A4]. exists y. done.
  - apply Forall_cons. split; [done|]. eapply Forall_impl; [exact A5|]. intros o. apply op_ok_mono. intros q Hq. cbn [fmap list_fmap]. by right.
  - rewrite A9. cbn [fmap list_fmap app]. by rewrite <- Permutation_middle.
Qed.

(** What the published ranges and [pr_list] say of a range that is listed. *)
Lemma prepare_undo_ok (x : answers) (s : preimport) (cmd : obmm_cmd_preimport) (p : nat) (ret : Z) (rest : list op) (P : list pub) : pre_inv s (PrepUndo cmd p ret :: rest) P -> fine s rest (op_step BLOCK x s (PrepUndo cmd p ret)).
Proof.
  intros Hi. cbn [op_step]. pose proof (v_ops _ _ _ _ Hi) as [Hok Hall]%Forall_cons. pose proof Hok as (Hc & y & Hy & _). unfold preimport_release_common. rewrite Hy. cbn [mbind option_bind]. rewrite andb_false_r.
  destruct (held_alone BLOCK s _ rest P p Hi eq_refl) as (H1 & H2 & _). pose proof (v_list _ _ _ _ Hi) as Hl. cbn [flat_map listed unlisted app] in Hl. rewrite <- Permutation_middle in Hl.
  assert (Hin : p ∈ pr_list s). { assert (Hin : p ∈ pr_list s ++ flat_map unlisted rest) by (rewrite Hl; by left). apply elem_of_app in Hin as [|Hin]; [done|]. exfalso. apply list_elem_of_In, in_flat_map in Hin as (o & Ho%list_elem_of_In & Hp). rewrite Forall_forall in Hall. specialize (Hall o Ho).
    destruct o; try done. cbn [unlisted] in Hp. destruct Hp as [<-|[]]. by destruct (H1 (proj1 Hall)). }
  apply list_elem_of_split in Hin as (l1 & l2 & El). destruct (list_del_ok (pr_list s) (l1 ++ l2) p) as (r & -> & Hr); [rewrite El; by rewrite Permutation_middle|]. cbn [mbind option_bind go]. exists P.
  eapply (inv_list s); try done; [|apply (v_mutex _ _ _ _ Hi)]. cbn [unlisted listed app set_list pr_list]. apply (Permutation.Permutation_cons_inv (a := p)). rewrite <- Hl, Hr, El, app_comm_cons. by rewrite Permutation_middle.
Qed.

Lemma prepare_destroy_ok (x : answers) (s : preimport) (cmd : obmm_cmd_preimport) (p : nat) (ret : Z) (rest : list op) (P : list pub) : pre_inv s (PrepDestroy cmd p ret :: rest) P -> fine s rest (op_step BLOCK x s (PrepDestroy cmd p ret)).
Proof.
  intros Hi. cbn [op_step]. pose proof (v_ops _ _ _ _ Hi) as [Hok _]%Forall_cons. destruct (inv_destroy BLOCK s (PrepDestroy cmd p ret) (PrepFree cmd ret) rest P p Hi) as (s' & -> & Hi'); try done; [apply Hok|]. by exists P.
Qed.

Lemma is_same_refl (r : obmm_pa_range) : is_same_pa_range r r = true.
Proof. unfold is_same_pa_range. by rewrite !Z.eqb_refl. Qed.

(** A call gives its range back. *)
Lemma give_back (s : preimport) (o o' : op) (rest : list op) (P : list pub) (r : obmm_pa_range) : pre_inv s (o :: rest) P -> own o = [r] -> own o' = [] -> r_start r <= r_end r -> holds o' = holds o -> (forall p, refs p o' = refs p o) ->
  listed o' = listed o -> unlisted o' = unlisted o -> locked o' = locked o -> (forall st p b, used BLOCK st p b o' = used BLOCK st p b o) -> op_ok BLOCK (pprs s) P o' ->
  exists c, pr_free (pa s) r = Some (0, c) /\ pre_inv (set_pa s c) (o' :: rest) P.
Proof.
  intros Hi Ho Ho' Hle E2 E3 E4 E5 E6 E7 Hok. pose proof (v_rel _ _ _ _ Hi) as Hr. cbn [flat_map] in Hr. rewrite Ho in Hr. cbn [app] in Hr.
  destruct (pr_free_law (pa s) r _ r Hr) as (c & Hc & Hr'); [unfold in_range; lia|]. rewrite is_same_refl in Hc. exists c. split; [done|]. eapply inv_move; try done. by rewrite Ho'.
Qed.

Lemma prepare_free_ok (s : preimport) (cmd : obmm_cmd_preimport) (ret : Z) (rest : list op) (P : list pub) : pre_inv s (PrepFree cmd ret :: rest) P -> fine s rest (prepare_free s cmd ret).
Proof.
  intros Hi. unfold prepare_free. pose proof (v_ops _ _ _ _ Hi) as [(_ & H1 & H2 & H3) _]%Forall_cons.
  destruct (give_back s _ (Returned ret) rest P (cmd_range cmd) Hi) as (c & -> & Hi'); try done; [cbn [cmd_range r_start r_end]; lia|]. by exists P.
Qed.

(** ** Direct imports *)

Lemma occupy_addr_range_ok (x : answers) (s : preimport) (i : nat) (st en : Z) (rest : list op) (P : list pub) : pre_inv s (DirOccupy i st en :: rest) P -> fine s rest (occupy_addr_range x s i st en).
Proof.
  intros Hi. unfold occupy_addr_range. pose proof (v_ops _ _ _ _ Hi) as [Hle _]%Forall_cons. cbn [op_ok] in Hle.
  destruct (pr_occupy_law (x_alloc x) (x_alloc2 x) (pa s) (direct_range i st en) _ (v_rel _ _ _ _ Hi)) as (c & -> & Hrel).
  assert (Hord : (r_end (direct_range i st en) <? r_start (direct_range i st en)) = false) by (cbn [direct_range r_end r_start]; lia). rewrite Hord in *.
  cbn [flat_map own app] in *. destruct (x_alloc x); cbn [negb andb] in *; [|exists P; by eapply inv_move]. destruct (clash _ _); cbn [negb andb] in *; [rewrite andb_false_r in Hrel; exists P; by eapply inv_move|].
  destruct (x_alloc2 x); cbn [negb andb] in *; exists P; by eapply inv_move.
Qed.
Lemma free_addr_range_ok (s : preimport) (i : nat) (st en : Z) (rest : list op) (P : list pub) : pre_inv s (Direct i st en :: rest) P -> fine s rest (free_addr_range s i st en) /\ exists s', free_addr_range s i st en = Go s' (Returned 0).
Proof.
  intros Hi. unfold free_addr_range. pose proof (v_ops _ _ _ _ Hi) as [Hle _]%Forall_cons. cbn [op_ok] in Hle.
  destruct (give_back s _ (Returned 0) rest P (direct_range i st en) Hi) as (c & -> & Hi'); try done. split; [by exists P|]. by eexists.
Qed.

(** ** Release *)

(** Who owns an address. *)
Lemma get_pa_mapping_ok (s : preimport) (ops : list op) (P : list pub) (addr : Z) : pre_inv s ops P -> exists ret o, get_pa_mapping s addr = Some (ret, o) /\
  match o with Some p => exists x, x ∈ P /\ pub_id x = p /\ in_range (pub_range x) addr | None => ctrue ret = true end.
Proof.
  intros Hi. pose proof (v_rel _ _ _ _ Hi) as Hr. unfold get_pa_mapping. destruct (take_at addr (flat_map own ops ++ (pub_range <$> P))) as [[r R]|] eqn:E.
  - apply take_at_some in E as [Hp Hin]. assert (Hr' : r ∈ flat_map own ops ++ (pub_range <$> P)) by (rewrite Hp; by left). rewrite (pr_query_law _ addr _ r Hr Hr' Hin). cbn [mbind option_bind]. change (ctrue 0) with false. cbv iota.
    apply elem_of_app in Hr' as [Ho|(x & -> & Hx)%list_elem_of_fmap].
    + apply list_elem_of_In, in_flat_map in Ho as (o & _ & Ho). destruct o; cbn [own] in Ho; try done; destruct Ho as [<-|[]]; eexists _, None; cbn [cmd_range direct_range r_info user data]; (first [rewrite bool_decide_eq_true_2 by done|rewrite bool_decide_eq_false_2 by done]); done.
    + eexists _, (Some (pub_id x)). split; [cbn [pub_range r_info user data]; by rewrite bool_decide_eq_true_2|]. by exists x.
  - rewrite (pr_query_none _ addr _ Hr (take_at_none _ _ E)). cbn [mbind option_bind]. eexists _, None. done.
Qed.

Lemma mutex_free (s : preimport) (o : op) (rest : list op) (P : list pub) : pre_inv s (o :: rest) P -> preimport_mutex s = false -> flat_map locked rest = [].
Proof. intros Hi Hm. pose proof (v_mutex _ _ _ _ Hi) as Hl. rewrite Hm in Hl. cbn [flat_map] in Hl. rewrite length_app in Hl. apply nil_length_inv. lia. Qed.
Lemma mutex_mine (s : preimport) (o : op) (rest : list op) (P : list pub) (p : nat) : pre_inv s (o :: rest) P -> locked o = [p] -> preimport_mutex s = true /\ flat_map locked rest = [].
Proof. intros Hi Ho. pose proof (v_mutex _ _ _ _ Hi) as Hl. cbn [flat_map] in Hl. rewrite Ho in Hl. cbn [app length] in Hl. destruct (preimport_mutex s); [|done]. split; [done|]. apply nil_length_inv. lia. Qed.
Lemma unlisted_nil (ops : list op) : flat_map locked ops = [] -> flat_map unlisted ops = [].
Proof. induction ops as [|o ops IH]; cbn [flat_map]; [done|]. intros [H1 H2]%app_eq_nil. rewrite IH by done. destruct o; cbn [locked unlisted] in *; done. Qed.
Lemma published (s : preimport) (ops : list op) (P : list pub) (p : nat) : pre_inv s ops P -> p ∈ pub_id <$> P -> exists x ppr, x ∈ P /\ pub_id x = p /\ pprs s !! p = Some ppr /\ p_start ppr = snd (fst x) /\ p_end ppr = snd x.
Proof. intros Hi (x & -> & Hx)%list_elem_of_fmap. destruct (v_pub _ _ _ _ Hi x Hx) as (ppr & H1 & H2). by exists x, ppr. Qed.

Lemma release_query_ok (s : preimport) (cmd : obmm_cmd_preimport) (rest : list op) (P : list pub) : pre_inv s (RelQuery cmd :: rest) P -> fine s rest (release_query s cmd).
Proof.
  intros Hi. unfold release_query, with_mutex. destruct (ctrue _); [exists P; by eapply inv_swap|]. destruct (preimport_mutex s) eqn:Em; [done|].
  destruct (get_pa_mapping_ok s _ P (c_pa cmd) Hi) as (ret & o & -> & Ho). cbn [go]. destruct o as [p|]; [|exists P; by eapply inv_swap]. destruct Ho as (x & Hx & <- & _). destruct (v_pub _ _ _ _ Hi x Hx) as (ppr & Hp & _). rewrite Hp. cbn [go].
  destruct (_ || _); [exists P; by eapply inv_swap|]. destruct (Z.eqb_spec (use_count ppr) 0) as [Hu|]; cbn [negb]; [|exists P; by eapply inv_swap]. exists P. eapply (inv_list s); try done.
  - apply (v_list _ _ _ _ Hi).
  - cbn [locked set_mutex preimport_mutex]. by rewrite (mutex_free s _ rest P Hi Em).
  - cbn [op_ok]. split; [apply list_elem_of_fmap; by exists x|]. intros y Hy. congruence.
Qed.

Lemma release_common_ok (x : answers) (s : preimport) (p : nat) (rest : list op) (P : list pub) : pre_inv s (RelCommon p :: rest) P -> fine s rest (release_common x s p).
Proof.
  intros Hi. unfold release_common, preimport_release_common. pose proof (v_ops _ _ _ _ Hi) as [Hok _]%Forall_cons. destruct Hok as [Hp Hu]. destruct (published s _ P p Hi Hp) as (y & ppr & Hy & Ey & Hppr & _). rewrite Hppr. cbn [mbind option_bind].
  destruct (mutex_mine s _ rest P p Hi eq_refl) as [Hm Hl]. rewrite andb_true_r. destruct (ctrue (x_remove x)) eqn:Er; cbn [go].
  - rewrite Er. exists P. eapply (inv_list s); try done; [apply (v_list _ _ _ _ Hi)|]. cbn [locked app set_mutex preimport_mutex]. by rewrite Hl.
  - pose proof (v_list _ _ _ _ Hi) as Hpl. cbn [flat_map unlisted listed app] in Hpl. rewrite (unlisted_nil rest Hl), app_nil_r in Hpl. apply list_elem_of_split in Hp as (l1 & l2 & El).
    destruct (list_del_ok (pr_list s) (l1 ++ l2 ++ flat_map listed rest) p) as (r & -> & Hr); [rewrite Hpl, El, <- app_assoc; cbn [app]; symmetry; apply Permutation_middle|]. cbn [mbind option_bind go]. rewrite Er. exists P. eapply (inv_list s); try done.
    + cbn [unlisted listed set_list pr_list app]. rewrite (unlisted_nil rest Hl), Hr, El. rewrite <- Permutation_cons_append. rewrite <- (app_assoc l1). cbn [app]. apply Permutation_middle.
    + cbn [locked app set_list preimport_mutex]. by rewrite Hl, Hm.
    + cbn [op_ok]. split; [rewrite El; apply elem_of_app; right; by left|done].
Qed.

(** The order of the published ranges does not matter. *)
Lemma pre_inv_pub_perm (s : preimport) (ops : list op) (P P' : list pub) : P ≡ₚ P' -> pre_inv s ops P -> pre_inv s ops P'.
Proof.
  intros Hp [A1 A3 A4 A5 A6 A7 A8 A9 A10 A11 A12]. split; try done.
  - eapply pa_rel_perm; [|exact A1]. by rewrite Hp.
  - by rewrite <- Hp.
  - intros x Hx. apply A4. by rewrite Hp.
  - eapply Forall_impl; [exact A5|]. intros o. apply op_ok_mono. intros q. by rewrite Hp.
  - by rewrite <- Hp.
Qed.
Lemma op_ok_drop (h : gmap nat prefilled_preimport_range) (x : pub) (P : list pub) (o : op) : refs (pub_id x) o = false -> locked o = [] -> op_ok BLOCK h (x :: P) o -> op_ok BLOCK h P o.
Proof.
  intros Hr Hl. assert (Hin : forall q, bool_decide (q = pub_id x) = false -> q ∈ pub_id <$> (x :: P) -> q ∈ pub_id <$> P) by (intros q Hq%bool_decide_eq_false; cbn [fmap list_fmap]; rewrite elem_of_cons; tauto).
  destruct o; cbn [op_ok refs locked] in *; try done; try (intros [? ?]; split; [by apply Hin|done]); by apply Hin.
Qed.

Lemma release_free_ok (s : preimport) (p : nat) (ret : Z) (rest : list op) (P : list pub) : pre_inv s (RelFree p ret :: rest) P -> fine s rest (release_free s p ret).
Proof.
  intros Hi. unfold release_free. pose proof (v_ops _ _ _ _ Hi) as [[Hp Hu] _]%Forall_cons. destruct (published s _ P p Hi Hp) as (y & ppr & Hy & <- & Hppr & Es & Ee). rewrite Hppr. cbn [go].
  destruct (mutex_mine s _ rest P _ Hi eq_refl) as [Hm Hl]. apply list_elem_of_split in Hy as (P1 & P2 & ->). apply (pre_inv_pub_perm s _ _ (y :: P1 ++ P2)) in Hi; [|by rewrite Permutation_middle]. set (P := P1 ++ P2) in *.
  pose proof (v_rel _ _ _ _ Hi) as Hr. cbn [flat_map own app fmap list_fmap] in Hr. apply (pa_rel_perm _ _ (pub_range y :: flat_map own rest ++ (pub_range <$> P))) in Hr; [|by rewrite Permutation_middle].
  set (r := {| r_start := p_start ppr; r_end := p_end ppr; r_info := _ |}). destruct (v_wf _ _ _ _ Hi _ _ Hppr) as [Hle _].
  destruct (pr_free_law (pa s) r _ _ Hr) as (c & -> & Hr'); [unfold in_range; cbn [pub_range r_start r_end r]; lia|]. cbn [go]. exists P.
  pose proof (v_use _ _ _ _ Hi _ _ Hppr) as Huse. rewrite (Hu ppr Hppr) in Huse. cbn [tally refs] in Huse.
  destruct Hi as [A1 A3 A4 A5 A6 A7 A8 A9 A10 A11 A12]. apply Forall_cons in A5 as [_ A5].
  split; cbn [set_mutex set_pa pa pprs next_ppr pr_list preimport_mutex flat_map length own holds listed unlisted locked app] in *; try done.
  - rewrite <- Permutation_middle. cbn [fmap list_fmap app] in A3. done.
  - intros z Hz. apply A4. by right.
  - apply Forall_cons. split; [done|]. apply Forall_forall. intros o Ho. rewrite Forall_forall in A5. apply (op_ok_drop _ y); [|by eapply locked_nil|by apply A5]. eapply tally_zero; [|exact Ho]. lia.
  - rewrite (unlisted_nil rest Hl) in *. rewrite app_nil_r. cbn [fmap list_fmap app] in A9. apply (Permutation.Permutation_cons_inv (a := pub_id y)). by rewrite <- A9, <- Permutation_cons_append.
  - by rewrite Hl.
Qed.

Lemma release_destroy_ok (x : answers) (s : preimport) (p : nat) (ret : Z) (rest : list op) (P : list pub) : pre_inv s (RelDestroy p ret :: rest) P -> fine s rest (op_step BLOCK x s (RelDestroy p ret)).
Proof. intros Hi. cbn [op_step]. destruct (inv_destroy BLOCK s (RelDestroy p ret) (Returned ret) rest P p Hi) as (s' & -> & Hi'); try done. by exists P. Qed.

(** ** Commitments *)

Lemma bits_in (ppr : prefilled_preimport_range) (st en : Z) (b : nat) : p_start ppr <= st <= en -> b ∈ bits BLOCK ppr st en <-> (st - p_start ppr) / BLOCK <= Z.of_nat b <= (en - p_start ppr) / BLOCK.
Proof.
  intros Hs. unfold bits. rewrite elem_of_seq. assert (0 <= (st - p_start ppr) / BLOCK) by (apply Z.div_pos; lia). assert ((st - p_start ppr) / BLOCK <= (en - p_start ppr) / BLOCK) by (apply Z.div_le_mono; lia). lia.
Qed.
Lemma bits_bound (ppr : prefilled_preimport_range) (st en : Z) (b : nat) : p_start ppr <= st <= en -> en <= p_end ppr -> p_end ppr - p_start ppr + 1 = BLOCK * Z.of_nat (length (bitmap ppr)) -> b ∈ bits BLOCK ppr st en -> (b < length (bitmap ppr))%nat.
Proof. intros Hs He Hw Hb. apply bits_in in Hb; [|done]. assert ((en - p_start ppr) / BLOCK < Z.of_nat (length (bitmap ppr))) by (apply Z.div_lt_upper_bound; lia). lia. Qed.

Lemma test_bits_ok (v : bool) (bm : list bool) (l : list nat) : (forall b, b ∈ l -> (b < length bm)%nat) -> exists t, test_bits v bm l = Some t /\ (t = false <-> forall b, b ∈ l -> bm !! b = Some (negb v)).
Proof.
  induction l as [|b l IH]; intros Hl; cbn [test_bits]; [exists false; split; [done|split; [by intros _ b ?%not_elem_of_nil|done]]|].
  destruct (lookup_lt_is_Some_2 bm b (Hl b ltac:(by left))) as [y Hy]. rewrite Hy. cbn [mbind option_bind]. destruct (Bool.eqb y v) eqn:E.
  - exists true. split; [done|]. split; [done|]. intros Hall. specialize (Hall b ltac:(by left)). apply eqb_prop in E as ->. rewrite Hy in Hall. injection Hall. by destruct v.
  - destruct IH as (t & -> & Ht); [intros c Hc; apply Hl; by right|]. exists t. split; [done|]. rewrite Ht. split.
    + intros Hall c [->|Hc]%elem_of_cons; [|by apply Hall]. rewrite Hy. destruct y, v; done.
    + intros Hall c Hc. apply Hall. by right.
Qed.
Lemma set_bits_length (v : bool) (l : list nat) : forall bm, length (set_bits v bm l) = length bm.
Proof. unfold set_bits. induction l as [|b l IH]; intros bm; cbn [foldl]; [done|]. rewrite IH. apply length_insert. Qed.
Lemma set_bits_lookup (v : bool) (l : list nat) : forall bm b, (b < length bm)%nat -> set_bits v bm l !! b = if bool_decide (b ∈ l) then Some v else bm !! b.
Proof.
  unfold set_bits. induction l as [|c l IH]; intros bm b Hb; cbn [foldl]; [by rewrite bool_decide_eq_false_2 by apply not_elem_of_nil|]. rewrite IH by (by rewrite length_insert).
  destruct (decide (b = c)) as [->|Hne].
  - rewrite (bool_decide_eq_true_2 (c ∈ c :: l)) by (by left). rewrite list_lookup_insert_eq by done. by destruct (bool_decide _).
  - rewrite list_lookup_insert_ne by done. rewrite (bool_decide_ext (b ∈ c :: l) (b ∈ l)); [done|]. rewrite elem_of_cons. tauto.
Qed.

Lemma commit_get_ok (s : preimport) (st en : Z) (datapath : obmm_datapath) (rest : list op) (P : list pub) : pre_inv s (ComGet st en datapath :: rest) P -> fine s rest (commit_get s st en datapath).
Proof.
  intros Hi. unfold commit_get, with_mutex, get_ppr. destruct (preimport_mutex s) eqn:Em; [done|]. destruct (get_pa_mapping_ok s _ P st Hi) as (ret & o & -> & Ho). cbn [mbind option_bind].
  destruct o as [p|]; [|exists P; by eapply inv_swap]. destruct Ho as (y & Hy & <- & _). destruct (v_pub _ _ _ _ Hi y Hy) as (ppr & Hp & _). rewrite Hp. cbn [mbind option_bind go]. exists P.
  pose proof (v_use _ _ _ _ Hi _ _ Hp) as Hu. pose proof (v_small _ _ _ _ Hi) as Hs. cbn [tally refs length] in Hu, Hs. pose proof (tally_le (refs (pub_id y)) rest).
  pose proof (v_ops _ _ _ _ Hi) as [Hle _]%Forall_cons. cbn [op_ok] in Hle.
  eapply (inv_update_ppr BLOCK s _ _ _ rest P _ ppr (set_use ppr (u32 (use_count ppr + 1)))); try done.
  - right. by apply (mutex_free s _ rest P Hi).
  - intros q Hq. cbn [refs]. by apply bool_decide_eq_false_2.
  - cbn [set_use use_count tally refs]. rewrite bool_decide_eq_true_2 by done. rewrite uwrap_small by lia. lia.
  - intros b bit Hb. exact (v_bits _ _ _ _ Hi _ ppr b bit Hp Hb).
  - cbn [op_ok]. split; [|done]. apply list_elem_of_fmap. by exists y.
Qed.

Lemma commit_occupy_ok (s : preimport) (p : nat) (st en : Z) (datapath : obmm_datapath) (rest : list op) (P : list pub) : pre_inv s (ComOccupy p st en datapath :: rest) P -> fine s rest (commit_occupy BLOCK s p st en datapath).
Proof.
  intros Hi. unfold commit_occupy, occupy_ppr_blocks. pose proof (v_ops _ _ _ _ Hi) as [[Hp Hle] _]%Forall_cons. destruct (published s _ P p Hi Hp) as (y & ppr & _ & _ & Hppr & _). rewrite Hppr. cbn [go mbind option_bind].
  assert (Hput : forall ret, inv s (ComPut p ret :: rest)) by (intros ret; exists P; by eapply inv_swap). destruct (ctrue (check_preimport_datapath_common ppr datapath)); [apply Hput|].
  destruct ((st <? p_start ppr) || (p_end ppr <? en)) eqn:Eb; [cbn [go]; apply Hput|]. destruct (v_wf _ _ _ _ Hi _ _ Hppr) as [_ Hw]. assert (Hb : forall b, b ∈ bits BLOCK ppr st en -> (b < length (bitmap ppr))%nat) by (intros b; apply bits_bound; lia).
  destruct (test_bits_ok true (bitmap ppr) (bits BLOCK ppr st en) Hb) as (t & -> & Ht). cbn [mbind option_bind]. destruct t; cbn [go]; [apply Hput|]. pose proof (proj1 Ht eq_refl) as Hfree. exists P. change (ctrue 0) with false. cbv iota.
  eapply (inv_update_ppr BLOCK s _ _ _ rest P p ppr (set_bitmap ppr (set_bits true (bitmap ppr) (bits BLOCK ppr st en)))); try done.
  - apply set_bits_length.
  - by left.
  - exact (v_use _ _ _ _ Hi _ _ Hppr).
  - intros st' q b Hq. cbn [used]. by rewrite bool_decide_eq_false_2.
  - intros b bit Hbit. cbn [set_bitmap bitmap] in Hbit. pose proof (lookup_lt_Some _ _ _ Hbit) as Hlen. rewrite set_bits_length in Hlen. rewrite set_bits_lookup in Hbit by done. cbn [tally used]. rewrite (bool_decide_eq_true_2 (p = p)) by done. cbn [andb].
    pose proof (bits_in ppr st en b ltac:(lia)) as Hin. destruct (bool_decide_reflect (b ∈ bits BLOCK ppr st en)) as [Hy|Hn].
    + injection Hbit as <-. pose proof (v_bits _ _ _ _ Hi _ _ _ _ Hppr (Hfree b Hy)) as Hc. cbn [tally used negb] in Hc. apply Hin in Hy. rewrite (proj2 (Z.leb_le _ _) (proj1 Hy)), (proj2 (Z.leb_le _ _) (proj2 Hy)). cbn [andb]. lia.
    + pose proof (v_bits _ _ _ _ Hi _ _ _ _ Hppr Hbit) as Hc. cbn [tally used] in Hc. destruct ((_ <=? _) && (_ <=? _)) eqn:E; [|done]. destruct Hn. apply Hin. lia.
  - cbn [op_ok]. split; [done|]. split; [done|]. eexists. split; [apply lookup_insert_eq|]. cbn [set_bitmap p_start p_end]. lia.
Qed.

Lemma uncommit_free_ok (s : preimport) (p : nat) (st en : Z) (rest : list op) (P : list pub) : pre_inv s (Committed p st en :: rest) P -> fine s rest (uncommit_free BLOCK s p st en) /\ exists s', uncommit_free BLOCK s p st en = Go s' (UncPut p 0).
Proof.
  intros Hi. unfold uncommit_free, free_ppr_blocks. pose proof (v_ops _ _ _ _ Hi) as [(Hp & Hle & ppr & Hppr & H1 & H2) _]%Forall_cons. rewrite Hppr. cbn [mbind option_bind]. rewrite (proj2 (Z.ltb_ge _ _) H1), (proj2 (Z.ltb_ge _ _) H2). cbn [orb].
  destruct (v_wf _ _ _ _ Hi _ _ Hppr) as [_ Hw]. assert (Hb : forall b, b ∈ bits BLOCK ppr st en -> (b < length (bitmap ppr))%nat) by (intros b; apply bits_bound; lia).
  assert (Hin : forall b, b ∈ bits BLOCK ppr st en <-> used BLOCK (p_start ppr) p b (Committed p st en) = true) by (intros b; rewrite bits_in by lia; cbn [used]; rewrite (bool_decide_eq_true_2 (p = p)) by done; cbn [andb]; lia).
  destruct (test_bits_ok false (bitmap ppr) (bits BLOCK ppr st en) Hb) as (t & -> & Ht). cbn [mbind option_bind].
  assert (t = false) as ->. { apply Ht. intros b Hbb. destruct (lookup_lt_is_Some_2 _ _ (Hb b Hbb)) as [bit Hbit]. rewrite Hbit. pose proof (v_bits _ _ _ _ Hi _ _ _ _ Hppr Hbit) as Hc. cbn [tally] in Hc. rewrite (proj1 (Hin b) Hbb) in Hc. by destruct bit. }
  cbn [go]. change (ctrue 0) with false. cbv iota. split; [|by eexists]. exists P.
  eapply (inv_update_ppr BLOCK s _ _ _ rest P p ppr (set_bitmap ppr (set_bits false (bitmap ppr) (bits BLOCK ppr st en)))); try done.
  - apply set_bits_length.
  - by left.
  - exact (v_use _ _ _ _ Hi _ _ Hppr).
  - intros st' q b Hq. cbn [used]. by rewrite bool_decide_eq_false_2.
  - intros b bit Hbit. cbn [set_bitmap bitmap] in Hbit. pose proof (lookup_lt_Some _ _ _ Hbit) as Hlen. rewrite set_bits_length in Hlen. rewrite set_bits_lookup in Hbit by done. change (tally (used BLOCK (p_start ppr) p b) (UncPut p 0 :: rest)) with (tally (used BLOCK (p_start ppr) p b) rest).
    destruct (lookup_lt_is_Some_2 _ _ Hlen) as [old Hold]. pose proof (v_bits _ _ _ _ Hi _ _ _ _ Hppr Hold) as Hc. cbn [tally] in Hc. destruct (bool_decide_reflect (b ∈ bits BLOCK ppr st en)) as [Hy|Hn].
    + injection Hbit as <-. rewrite (proj1 (Hin b) Hy) in Hc. destruct old; lia.
    + rewrite Hold in Hbit. injection Hbit as <-. destruct (used BLOCK (p_start ppr) p b (Committed p st en)) eqn:E; [by destruct Hn; apply Hin|done].
Qed.

Lemma commit_put_ok (s : preimport) (o : op) (p : nat) (ret : Z) (rest : list op) (P : list pub) : pre_inv s (o :: rest) P -> o = ComPut p ret \/ o = UncPut p ret -> fine s rest (commit_put s p ret).
Proof.
  intros Hi Ho. unfold commit_put, with_mutex, put_ppr. destruct (preimport_mutex s) eqn:Em; [done|]. pose proof (v_ops _ _ _ _ Hi) as [Hok _]%Forall_cons. assert (Hp : p ∈ pub_id <$> P) by (by destruct Ho as [-> | ->]).
  destruct (published s _ P p Hi Hp) as (y & ppr & _ & _ & Hppr & _). rewrite Hppr. cbn [mbind option_bind go]. exists P.
  pose proof (v_use _ _ _ _ Hi _ _ Hppr) as Hu. pose proof (v_small _ _ _ _ Hi) as Hs. assert (Href : refs p o = true) by (destruct Ho as [-> | ->]; cbn [refs]; by apply bool_decide_eq_true_2). cbn [tally length] in Hu, Hs. rewrite Href in Hu. pose proof (tally_le (refs p) rest).
  eapply (inv_update_ppr BLOCK s _ _ _ rest P p ppr (set_use ppr (u32 (use_count ppr - 1)))); try done; try (by destruct Ho as [-> | ->]).
  - right. by apply (mutex_free s _ rest P Hi).
  - intros q Hq. destruct Ho as [-> | ->]; cbn [refs]; symmetry; by apply bool_decide_eq_false_2.
  - cbn [set_use use_count tally refs]. rewrite uwrap_small by lia. lia.
  - intros b bit Hb. pose proof (v_bits _ _ _ _ Hi _ ppr b bit Hppr Hb) as Hc. destruct Ho as [-> | ->]; exact Hc.
Qed.

(** ** All steps *)

Lemma step_ok (x : answers) (s : preimport) (o : op) (rest : list op) (P : list pub) : pre_inv s (o :: rest) P -> (forall cmd, o = PrepCreate cmd -> 0 <= x_res x) -> fine s rest (op_step BLOCK x s o).
Proof.
  intros Hi Hres. destruct o; cbn [op_step].
  - by eapply prepare_occupy_ok.
  - eapply prepare_create_ok; [done|]. by eapply Hres.
  - by eapply prepare_common_ok.
  - by eapply prepare_publish_ok.
  - by eapply (prepare_undo_ok x).
  - by eapply (prepare_destroy_ok x).
  - by eapply prepare_free_ok.
  - by eapply release_query_ok.
  - by eapply release_common_ok.
  - by eapply release_free_ok.
  - by eapply (release_destroy_ok x).
  - by eapply commit_get_ok.
  - by eapply commit_occupy_ok.
  - eapply commit_put_ok; [done|by left].
  - by eapply uncommit_free_ok.
  - eapply commit_put_ok; [done|by right].
  - by eapply occupy_addr_range_ok.
  - by eapply free_addr_range_ok.
  - by exists P.
Qed.
End Step.
