(* ===== verification/ObmmPreimportSpec.v ===== *)
(** * Pre-imported memory: what the calls guarantee *)

From S2P Require Import Prelude ObmmAddr ObmmPreimport ObmmPreimportInv ObmmPreimportStep.

(** The addresses that an import may use. *)
Definition in_use (o : op) (i : Z) : Prop := match o with Committed _ st en | Direct _ st en => st <= i <= en | _ => False end.

Section Spec.
Context (BLOCK : Z) (BLOCK_pos : 0 < BLOCK) {S : Type} `{PaRangesLaws S}.
Abbreviation preimport := (preimport S).
Abbreviation pub := (nat * Z * Z)%type.
Abbreviation pre_inv := (pre_inv BLOCK).
Abbreviation inv := (inv BLOCK).

(** ** Every run *)

Lemma inv_start : inv preimport_init [].
Proof. exists []. split; cbn [preimport_init pa pprs next_ppr pr_list preimport_mutex flat_map app fmap list_fmap]; try done. - apply pr_init_rel. - by intros x ?%not_elem_of_nil. - by intros p [x Hx]. Qed.

Lemma validated (st size en : Z) : 0 <= st < 2 ^ 64 -> 0 <= size < 2 ^ 64 -> validate_import_region st size = true -> en = u64 (st + size - 1) -> st <= en.
Proof.
  intros Hs Hz. unfold validate_import_region, validate_pa_range. destruct (Z.eqb_spec size 0) as [|Hne]; [done|]. destruct (_ || _); [done|]. destruct (Z.eqb_spec st 0) as [|Hst]; [done|].
  destruct (Z.ltb_spec (u64 (st + size)) st) as [|Hge]; [done|]. intros _ ->. assert (st + size < 2 ^ 64).
  { destruct (Z.lt_ge_cases (st + size) (2 ^ 64)) as [|Hbig]; [done|]. unfold uwrap in Hge. rewrite <- (Z_mod_plus_full (st + size) (-1) (2 ^ 64)) in Hge. rewrite Z.mod_small in Hge by lia. lia. }
  rewrite uwrap_small by lia. lia.
Qed.

Lemma inv_call (s : preimport) (ops : list op) (o : op) : inv s ops -> starts o -> Z.of_nat (length ops) + 1 < 2 ^ 32 -> inv s (o :: ops).
Proof.
  intros (P & [A1 A3 A4 A5 A6 A7 A8 A9 A10 A11 A12]) Ho Hl. exists P. assert (Hok : op_ok BLOCK (pprs s) P o). { destruct o; cbn [starts op_ok] in *; try done; destruct Ho as (size & H1 & H2 & H3 & H4); by eapply validated. }
  assert (E : own o = [] /\ holds o = [] /\ listed o = [] /\ unlisted o = [] /\ locked o = [] /\ (forall p, refs p o = false) /\ forall st p b, used BLOCK st p b o = false) by (by destruct o). destruct E as (E1 & E2 & E3 & E4 & E5 & E6 & E7).
  split; cbn [flat_map tally length]; rewrite ?E1, ?E2, ?E3, ?E4, ?E5; try done; [by apply Forall_cons| | |lia].
  - intros p x Hx. rewrite E6. by apply A6.
  - intros p x b bit Hx Hb. rewrite E7. by apply (A7 p x b bit).
Qed.
Lemma inv_return (s : preimport) (ret : Z) (rest : list op) : inv s (Returned ret :: rest) -> inv s rest.
Proof. intros (P & [A1 A3 A4 A5 A6 A7 A8 A9 A10 A11 A12]). exists P. apply Forall_cons in A5 as [_ A5]. cbn [flat_map tally length own holds refs listed unlisted locked used app] in *. split; try done. lia. Qed.

(** The only error is the one in [create_prefilled_preimport_range]. *)
Lemma step_inv (x : answers) (s : preimport) (o : op) (rest : list op) : inv s (o :: rest) ->
  match op_step BLOCK x s o with Bug => (exists cmd, o = PrepCreate cmd) /\ x_res x < 0 | Wait => preimport_mutex s = true | Go s' o' => inv s' (o' :: rest) end.
Proof.
  intros (P & Hi). destruct (Z.lt_ge_cases (x_res x) 0) as [Hneg|Hpos].
  - destruct o as [|cmd| | | | | | | | | | | | | | | | |]; try (pose proof (step_ok BLOCK BLOCK_pos x s _ rest P Hi ltac:(done)) as Hf; by destruct (op_step BLOCK x s _)).
    cbn [op_step]. unfold prepare_create, create_prefilled_preimport_range. destruct (x_alloc x); cbn [negb go]; [|exists P; eapply inv_swap; try done; by pose proof (v_ops _ _ _ _ Hi) as [? _]%Forall_cons]. destruct (x_alloc2 x); cbn [negb go]; [|exists P; eapply inv_swap; try done; by pose proof (v_ops _ _ _ _ Hi) as [? _]%Forall_cons].
    rewrite (proj2 (Z.ltb_lt _ _) Hneg). cbn [go]. split; [by eexists|done].
  - pose proof (step_ok BLOCK BLOCK_pos x s o rest P Hi ltac:(done)) as Hf. by destruct (op_step BLOCK x s o).
Qed.

Lemma inv_perm (s : preimport) (ops ops' : list op) : ops ≡ₚ ops' -> inv s ops -> inv s ops'.
Proof. intros Hp (P & Hi). exists P. by eapply pre_inv_perm. Qed.
Lemma preimport_inv_run (s : preimport) (ops : list op) : pre_run BLOCK s ops -> inv s ops.
Proof.
  induction 1 as [|s ops o _ IH Ho Hl|s ops o rest x s' o' _ IH Hp Hs|s ops ret rest _ IH Hp].
  - apply inv_start.
  - by apply inv_call.
  - apply (inv_perm _ _ _ Hp) in IH. pose proof (step_inv x s o rest IH) as Hk. by rewrite Hs in Hk.
  - apply (inv_perm _ _ _ Hp) in IH. by eapply inv_return.
Qed.

(** ** Memory in use *)

Lemma used_of (p : nat) (st en start i : Z) : start <= st -> st <= i <= en -> used BLOCK start p (Z.to_nat ((i - start) / BLOCK)) (Committed p st en) = true.
Proof.
  intros Hs Hi. cbn [used]. rewrite bool_decide_eq_true_2 by done. assert (0 <= (i - start) / BLOCK) by (apply Z.div_pos; lia). rewrite Z2Nat.id by done. pose proof (Z.div_le_mono (st - start) (i - start) BLOCK BLOCK_pos ltac:(lia)). pose proof (Z.div_le_mono (i - start) (en - start) BLOCK BLOCK_pos ltac:(lia)). lia.
Qed.
Lemma committed_home (s : preimport) (ops : list op) (P : list pub) (p : nat) (st en : Z) : pre_inv s ops P -> Committed p st en ∈ ops ->
  exists x ppr, x ∈ P /\ pub_id x = p /\ pprs s !! p = Some ppr /\ p_start ppr = snd (fst x) /\ p_end ppr = snd x /\ p_start ppr <= st /\ st <= en /\ en <= p_end ppr /\ 1 <= use_count ppr.
Proof.
  intros Hi Hin. pose proof (v_ops _ _ _ _ Hi) as Hall. rewrite Forall_forall in Hall. destruct (Hall _ Hin) as (Hp & Hle & ppr & Hppr & H1 & H2). destruct (published BLOCK s ops P p Hi Hp) as (x & ppr' & Hx & Ex & Hppr' & H3 & H4). rewrite Hppr in Hppr'. injection Hppr' as <-.
  exists x, ppr. split_and!; try done. rewrite (v_use _ _ _ _ Hi _ _ Hppr). destruct (tally (refs p) ops) eqn:Et; [|lia]. pose proof (tally_zero _ _ _ Et Hin) as Hf. cbn [refs] in Hf. by rewrite bool_decide_eq_true_2 in Hf.
Qed.

Lemma exclusive (s : preimport) (o o' : op) (rest : list op) (P : list pub) (i : Z) : pre_inv s (o :: o' :: rest) P -> in_use o i -> ~ in_use o' i.
Proof.
  intros Hi Ho Ho'. pose proof (v_rel _ _ _ _ Hi) as Hr. cbn [flat_map] in Hr.
  assert (Hdis : forall r r' R, flat_map own (o :: o' :: rest) ++ (pub_range <$> P) ≡ₚ r :: r' :: R -> in_range r i -> ~ in_range r' i) by (intros r r' R Hp; apply (pa_rel_disjoint (pa s) r r' R i); by eapply pa_rel_perm).
  destruct o as [| | | | | | | | | | | | | |p st en| | |n st en|]; try done; destruct o' as [| | | | | | | | | | | | | |p' st' en'| | |n' st' en'|]; try done; cbn [in_use flat_map own app] in *.
  - destruct (committed_home s _ P p st en Hi ltac:(by left)) as (x & ppr & Hx & Ex & Hppr & E1 & E2 & L1 & _ & L2 & _). destruct (committed_home s _ P p' st' en' Hi ltac:(right; by left)) as (x' & ppr' & Hx' & Ex' & Hppr' & E1' & E2' & L1' & _ & L2' & _).
    destruct (decide (x = x')) as [<-|Hne].
    + assert (p' = p) as -> by congruence. rewrite Hppr in Hppr'. injection Hppr' as <-. destruct (v_wf _ _ _ _ Hi _ _ Hppr) as [_ Hw].
      assert (Hb : (Z.to_nat ((i - p_start ppr) / BLOCK) < length (bitmap ppr))%nat). { assert (0 <= (i - p_start ppr) / BLOCK) by (apply Z.div_pos; lia). assert ((i - p_start ppr) / BLOCK < Z.of_nat (length (bitmap ppr))) by (apply Z.div_lt_upper_bound; lia). lia. }
      destruct (lookup_lt_is_Some_2 _ _ Hb) as [bit Hbit]. pose proof (v_bits _ _ _ _ Hi _ _ _ _ Hppr Hbit) as Hc. cbn [tally] in Hc. rewrite !used_of in Hc by lia. destruct bit; lia.
    + apply list_elem_of_split in Hx as (P1 & P2 & EP). assert (Hx2 : x' ∈ P1 ++ P2). { rewrite EP in Hx'. rewrite !elem_of_app, elem_of_cons in *. destruct Hx' as [?|[->|?]]; tauto. }
      apply list_elem_of_split in Hx2 as (P3 & P4 & EQ). refine (Hdis (pub_range x) (pub_range x') (flat_map own rest ++ (pub_range <$> (P3 ++ P4))) _ _ _); [|unfold in_range; cbn [pub_range r_start r_end]; lia|unfold in_range; cbn [pub_range r_start r_end]; lia].
      rewrite EP, <- Permutation_middle, EQ, <- Permutation_middle. cbn [fmap list_fmap]. by rewrite <- !Permutation_middle.
  - destruct (committed_home s _ P p st en Hi ltac:(by left)) as (x & ppr & Hx & Ex & Hppr & E1 & E2 & L1 & _ & L2 & _). apply list_elem_of_split in Hx as (P1 & P2 & EP).
    refine (Hdis (pub_range x) (direct_range n' st' en') (flat_map own rest ++ (pub_range <$> (P1 ++ P2))) _ _ _); [|unfold in_range; cbn [pub_range r_start r_end]; lia|done]. rewrite EP, <- Permutation_middle. cbn [fmap list_fmap]. rewrite <- Permutation_middle. constructor.
  - destruct (committed_home s _ P p' st' en' Hi ltac:(right; by left)) as (x & ppr & Hx & Ex & Hppr & E1 & E2 & L1 & _ & L2 & _). apply list_elem_of_split in Hx as (P1 & P2 & EP).
    refine (Hdis (direct_range n st en) (pub_range x) (flat_map own rest ++ (pub_range <$> (P1 ++ P2))) _ _ _); [|done|unfold in_range; cbn [pub_range r_start r_end]; lia]. rewrite EP, <- Permutation_middle. cbn [fmap list_fmap]. by rewrite <- Permutation_middle.
  - by apply (Hdis (direct_range n st en) (direct_range n' st' en') (flat_map own rest ++ (pub_range <$> P))).
Qed.

(** C20: Pre-import, release, commitment and direct import, run concurrently in any interleaving and with any answers of the
    kernel, share memory safely: (1) no step touches freed memory, except the creation of a range
    whose resource cannot be set up; (2) no address is used by two imports; (3) a committed range is
    inside a live pre-import range whose use count is the number of references to it, and giving it back succeeds;
    (4) a call that waits waits for one that can go on; (5) when no call is left, the allocated ranges are those
    on the list. *)
Theorem preimport_exclusive (s : preimport) (ops : list op) (Hrun : pre_run BLOCK s ops) :
  (forall x o, o ∈ ops -> op_step BLOCK x s o = Bug -> (exists cmd, o = PrepCreate cmd) /\ x_res x < 0) /\
  (forall o o' rest i, ops ≡ₚ o :: o' :: rest -> in_use o i -> ~ in_use o' i) /\
  (forall x p st en, Committed p st en ∈ ops -> (exists s', op_step BLOCK x s (Committed p st en) = Go s' (UncPut p 0)) /\
    exists ppr, pprs s !! p = Some ppr /\ p_start ppr <= st <= en /\ en <= p_end ppr /\ use_count ppr = Z.of_nat (tally (refs p) ops) /\ 1 <= use_count ppr) /\
  (forall x o, o ∈ ops -> op_step BLOCK x s o = Wait -> exists o', o' ∈ ops /\ forall x', exists s' o'', op_step BLOCK x' s o' = Go s' o'') /\
  (ops = [] -> pr_list s ≡ₚ elements (dom (pprs s))).
Proof.
  pose proof (preimport_inv_run s ops Hrun) as Hi. assert (Hat : forall o, o ∈ ops -> exists rest, ops ≡ₚ o :: rest /\ inv s (o :: rest)). { intros o (l1 & l2 & ->)%list_elem_of_split. exists (l1 ++ l2). split; [by rewrite <- Permutation_middle|]. eapply inv_perm; [|exact Hi]. by rewrite <- Permutation_middle. }
  split; [|split; [|split; [|split]]].
  - intros x o Ho Hb. destruct (Hat o Ho) as (rest & _ & Hir). pose proof (step_inv x s o rest Hir) as Hk. by rewrite Hb in Hk.
  - intros o o' rest i Hp. apply (inv_perm _ _ _ Hp) in Hi as (P & Hi). by eapply exclusive.
  - intros x p st en Ho. destruct (Hat _ Ho) as (rest & _ & P' & Hir). split; [by apply (uncommit_free_ok BLOCK BLOCK_pos s p st en rest P')|]. destruct Hi as (P & Hi). destruct (committed_home s ops P p st en Hi Ho) as (y & ppr & _ & _ & Hppr & _ & _ & H1 & H2 & H3 & H4). exists ppr. pose proof (v_use _ _ _ _ Hi _ _ Hppr). done.
  - intros x o Ho Hw. destruct (Hat o Ho) as (rest & _ & Hir). pose proof (step_inv x s o rest Hir) as Hk. rewrite Hw in Hk. destruct Hi as (P & Hi). pose proof (v_mutex _ _ _ _ Hi) as Hm. rewrite Hk in Hm. destruct (flat_map locked ops) as [|p l] eqn:El; [done|].
    assert (Hp : In p (flat_map locked ops)) by (rewrite El; by left). apply in_flat_map in Hp as (o' & Ho'%list_elem_of_In & Hl). exists o'. split; [done|]. intros x'. destruct (Hat o' Ho') as (rest' & _ & P' & Hir').
    destruct o'; try done; cbn [op_step].
    + pose proof (release_common_ok BLOCK x' s _ rest' P' Hir') as Hf. unfold release_common in *. destruct (preimport_release_common x' s p0 false) as [[ret u]|]; [|done]. cbn [go] in *. destruct (ctrue ret); by eexists _, _.
    + pose proof (release_free_ok BLOCK s _ _ rest' P' Hir') as Hf. unfold release_free in *. destruct (pprs s !! p0) as [ppr|]; [|done]. cbn [go] in *. destruct (pr_free _ _) as [[r c]|]; [|done]. by eexists _, _.
  - intros ->. destruct Hi as (P & [_ A3 _ _ _ _ _ A9 _ _ _]). cbn [flat_map] in *. by rewrite !app_nil_r in *; rewrite A9.
Qed.

(** ** Committing *)

(** The blocks that the import [st .. en] needs are free. *)
Definition blocks_free (ops : list op) (p : nat) (start st en : Z) : Prop :=
  forall a b, Committed p a b ∈ ops -> (b - start) / BLOCK < (st - start) / BLOCK \/ (en - start) / BLOCK < (a - start) / BLOCK.
Definition same_path (a b : obmm_datapath) : Prop := scna a = scna b /\ dcna a = dcna b /\ seid a = seid b /\ deid a = deid b.
(** The range is on the list, and the call that put it there has made it known. *)
Definition ready (s : preimport) (ops : list op) (p : nat) : Prop := p ∈ pr_list s /\ forall o, o ∈ ops -> p ∉ listed o.
Definition can_commit (s : preimport) (ops : list op) (st en : Z) (datapath : obmm_datapath) : Prop :=
  exists p ppr, ready s ops p /\ pprs s !! p = Some ppr /\ p_start ppr <= st <= p_end ppr /\ en <= p_end ppr /\ same_path (p_path ppr) datapath /\ blocks_free ops p (p_start ppr) st en.

Lemma same_path_check (ppr : prefilled_preimport_range) (datapath : obmm_datapath) : check_preimport_datapath_common ppr datapath = 0 <-> same_path (p_path ppr) datapath.
Proof.
  unfold check_preimport_datapath_common, same_path. destruct (Z.eqb_spec (scna (p_path ppr)) (scna datapath)), (Z.eqb_spec (dcna (p_path ppr)) (dcna datapath)); cbn [negb orb]; try (split; [done|intros (? & ? & ?); done]).
  repeat case_bool_decide; cbn [negb]; split; try done; intros (? & ? & ? & ?); done.
Qed.
Lemma ready_pub (s : preimport) (ops : list op) (P : list pub) (p : nat) : pre_inv s ops P -> preimport_mutex s = false -> ready s ops p <-> p ∈ pub_id <$> P.
Proof.
  intros Hi Hm. pose proof (v_mutex _ _ _ _ Hi) as Hk. rewrite Hm in Hk. pose proof (v_list _ _ _ _ Hi) as Hl.
  assert (Hu : flat_map unlisted ops = []). { destruct (flat_map unlisted ops) as [|q l] eqn:E; [done|]. assert (Hq : In q (flat_map unlisted ops)) by (rewrite E; by left). apply in_flat_map in Hq as (o & Ho & Hq). destruct o as [| | | | | | | | |r ret| | | | | | | | |]; try done. assert (Hin : In r (flat_map locked ops)) by (apply in_flat_map; eexists; split; [exact Ho|by left]). by destruct (flat_map locked ops). }
  rewrite Hu, app_nil_r in Hl. pose proof (NoDup_elements (dom (pprs s))) as Hnd. rewrite <- (v_heap _ _ _ _ Hi) in Hnd. apply NoDup_app in Hnd as (_ & Hnd & _). unfold ready. rewrite Hl, elem_of_app. split.
  - intros [[Hp|Hp] Hn]; [done|]. apply list_elem_of_In, in_flat_map in Hp as (o & Ho & Hp). exfalso. apply (Hn o); by apply list_elem_of_In.
  - intros Hp. split; [by left|]. intros o Ho Hin. apply (Hnd p Hp). apply list_elem_of_In, in_flat_map. exists o. split; [by apply list_elem_of_In|]. apply list_elem_of_In in Hin. by destruct o.
Qed.
(** The range that [get_pa_mapping] finds. *)
Lemma can_commit_found (s : preimport) (ops : list op) (P : list pub) (st en : Z) (datapath : obmm_datapath) : pre_inv s ops P -> preimport_mutex s = false ->
  can_commit s ops st en datapath <-> exists p ppr, get_pa_mapping s st = Some (0, Some p) /\ pprs s !! p = Some ppr /\ en <= p_end ppr /\ check_preimport_datapath_common ppr datapath = 0 /\ blocks_free ops p (p_start ppr) st en.
Proof.
  intros Hi Hm. unfold can_commit. split; intros (p & ppr & H1 & H2 & H3).
  - destruct H3 as (Hst & He & Hp & Hb). exists p, ppr. rewrite same_path_check. split_and!; try done. apply (ready_pub s ops P p Hi Hm) in H1. destruct (published BLOCK s ops P p Hi H1) as (x & ppr' & Hx & <- & Hppr & E1 & E2). rewrite H2 in Hppr. injection Hppr as <-.
    unfold get_pa_mapping. rewrite (pr_query_law _ st _ (pub_range x) (v_rel _ _ _ _ Hi)). + cbn [mbind option_bind]. change (ctrue 0) with false. cbv iota. cbn [pub_range r_info user data]. by rewrite bool_decide_eq_true_2. + apply elem_of_app. right. apply list_elem_of_fmap. by exists x. + unfold in_range. cbn [pub_range r_start r_end]. lia.
  - destruct H3 as (He & Hc & Hb). exists p, ppr. rewrite (ready_pub s ops P p Hi Hm), <- same_path_check. destruct (get_pa_mapping_ok BLOCK s ops P st Hi) as (ret & o & E & Ho). rewrite H1 in E. injection E as <- <-. destruct Ho as (x & Hx & <- & Hin). destruct (v_pub _ _ _ _ Hi x Hx) as (ppr' & Hppr & E1 & E2). rewrite H2 in Hppr. injection Hppr as <-.
    unfold in_range in Hin. cbn [pub_range r_start r_end] in Hin. split_and!; try done; try lia. apply list_elem_of_fmap. by exists x.
Qed.

Lemma blocks_free_bits (s : preimport) (ops : list op) (P : list pub) (p : nat) (ppr : prefilled_preimport_range) (st en : Z) : pre_inv s ops P -> pprs s !! p = Some ppr -> p_start ppr <= st <= en -> en <= p_end ppr ->
  (forall b, b ∈ bits BLOCK ppr st en -> bitmap ppr !! b = Some false) <-> blocks_free ops p (p_start ppr) st en.
Proof.
  intros Hi Hppr Hs He. destruct (v_wf _ _ _ _ Hi _ _ Hppr) as [_ Hw]. split.
  - intros Hfree a b Hin. destruct (committed_home s ops P p a b Hi Hin) as (x & ppr' & _ & _ & Hppr' & _ & _ & L1 & L2 & L3 & _). rewrite Hppr in Hppr'. injection Hppr' as <-.
    destruct (Z.lt_ge_cases ((b - p_start ppr) / BLOCK) ((st - p_start ppr) / BLOCK)) as [|H1]; [by left|]. destruct (Z.lt_ge_cases ((en - p_start ppr) / BLOCK) ((a - p_start ppr) / BLOCK)) as [|H2]; [by right|]. exfalso.
    set (k := Z.to_nat (Z.max ((st - p_start ppr) / BLOCK) ((a - p_start ppr) / BLOCK))). assert (0 <= (st - p_start ppr) / BLOCK) by (apply Z.div_pos; lia).
    assert ((st - p_start ppr) / BLOCK <= (en - p_start ppr) / BLOCK) by (apply Z.div_le_mono; lia). assert ((a - p_start ppr) / BLOCK <= (b - p_start ppr) / BLOCK) by (apply Z.div_le_mono; lia).
    assert (Hk : k ∈ bits BLOCK ppr st en) by (apply bits_in; lia). pose proof (v_bits _ _ _ _ Hi _ _ _ _ Hppr (Hfree k Hk)) as Hc. pose proof (tally_zero _ _ _ Hc Hin) as Hf. cbn [used] in Hf. rewrite bool_decide_eq_true_2 in Hf by done. lia.
  - intros Hfree k Hk. pose proof (bits_bound BLOCK BLOCK_pos ppr st en k Hs He Hw Hk) as Hlt. destruct (lookup_lt_is_Some_2 _ _ Hlt) as [bit Hbit]. rewrite Hbit. pose proof (v_bits _ _ _ _ Hi _ _ _ _ Hppr Hbit) as Hc. destruct bit; [|done]. exfalso.
    apply (bits_in BLOCK BLOCK_pos) in Hk; [|done]. assert (Hz : tally (used BLOCK (p_start ppr) p k) ops = 0%nat); [|lia]. apply tally_none. intros o Ho. destruct o as [| | | | | | | | | | | | | |q a b| | | |]; try done. cbn [used]. destruct (bool_decide_reflect (q = p)) as [->|]; [|done]. cbn [andb]. destruct (Hfree a b Ho); lia.
Qed.

Lemma set_use_back (x : prefilled_preimport_range) (n : Z) : set_use (set_use x n) (use_count x) = x.
Proof. by destruct x. Qed.
Lemma set_pprs_back (s : preimport) (h : gmap nat prefilled_preimport_range) : set_pprs (set_pprs s h) (pprs s) = s.
Proof. by destruct s. Qed.

(** A reference that is dropped again leaves no trace. *)
Lemma commit_undo (s : preimport) (ops : list op) (P : list pub) (p : nat) (ppr : prefilled_preimport_range) (ret : Z) (h : gmap nat prefilled_preimport_range) : pre_inv s ops P -> Z.of_nat (length ops) + 1 < 2 ^ 32 -> preimport_mutex s = false -> pprs s !! p = Some ppr ->
  h = <[p := set_use ppr (u32 (use_count ppr + 1))]> (pprs s) -> commit_put (set_pprs s h) p ret = Go s (Returned ret).
Proof.
  intros Hi Hl Hm Hppr ->. unfold commit_put, with_mutex, put_ppr. cbn [set_pprs preimport_mutex pprs]. rewrite Hm, lookup_insert_eq. cbn [mbind option_bind go].
  pose proof (v_use _ _ _ _ Hi _ _ Hppr) as Hu. pose proof (tally_le (refs p) ops). cbn [set_use use_count]. rewrite (uwrap_small 32 (use_count ppr + 1)) by lia. replace (use_count ppr + 1 - 1) with (use_count ppr) by lia. rewrite (uwrap_small 32 (use_count ppr)) by lia.
  f_equal. rewrite insert_insert_eq. fold (set_use ppr (use_count ppr + 1)). rewrite set_use_back, (insert_id (pprs s) p ppr Hppr). apply set_pprs_back.
Qed.

(** The blocks are taken, and the range has one more user. *)
Definition committed (s : preimport) (st en : Z) (s' : preimport) (o : op) : Prop :=
  exists p ppr ppr', o = Committed p st en /\ pprs s !! p = Some ppr /\ p_start ppr <= st <= p_end ppr /\ s' = set_pprs s (<[p := ppr']> (pprs s)) /\
    p_start ppr' = p_start ppr /\ p_end ppr' = p_end ppr /\ p_path ppr' = p_path ppr /\ use_count ppr' = use_count ppr + 1 /\ length (bitmap ppr') = length (bitmap ppr) /\
    forall b, (b < length (bitmap ppr))%nat -> bitmap ppr' !! b = if decide ((st - p_start ppr) / BLOCK <= Z.of_nat b <= (en - p_start ppr) / BLOCK) then Some true else bitmap ppr !! b.

(** C21: A commitment that is not disturbed ends, and takes the blocks exactly when it may: the first address belongs to
    a pre-import range that is on the list and ready, the last one too, the two ends of the data path have the addresses and identities of those of the range,
    and no commitment of the range has a block in common with it; exactly the blocks of the import are then marked, the use count is one more, and nothing else changes. Otherwise it returns an error and the state is as before. *)
Theorem preimport_commit_spec (s : preimport) (ops : list op) (x : answers) (st en : Z) (datapath : obmm_datapath) (Hrun : pre_run BLOCK s ops) (Hm : preimport_mutex s = false) (Hst : starts (ComGet st en datapath))
  (Hl : Z.of_nat (length ops) + 1 < 2 ^ 32) : exists s' o, finish BLOCK 3 x s (ComGet st en datapath) = Some (s', o) /\ (can_commit s ops st en datapath -> committed s st en s' o) /\ (~ can_commit s ops st en datapath -> s' = s /\ exists ret, o = Returned ret /\ ret <> 0).
Proof.
  destruct (preimport_inv_run s ops Hrun) as (P & Hi). assert (Hle : st <= en) by (destruct Hst as (size & H1 & H2 & H3 & H4); by eapply validated).
  pose proof (can_commit_found s ops P st en datapath Hi Hm) as Hcan. set (can := exists p ppr, _) in Hcan. setoid_rewrite Hcan. clear Hcan.
  cbn [finish op_step]. unfold commit_get, with_mutex, get_ppr. rewrite Hm. destruct (get_pa_mapping_ok BLOCK s ops P st Hi) as (ret & o & E & Ho). rewrite E. cbn [mbind option_bind]. destruct o as [p|].
  2:{ cbn [go]. exists s, (Returned ret). split; [done|]. split; [intros (p & ppr & Hg & _); congruence|]. intros _. split; [done|]. exists ret. split; [done|]. by apply ctrue_nz. }
  destruct Ho as (y & Hy & Ep & Hin). destruct (v_pub _ _ _ _ Hi y Hy) as (ppr & Hppr & Es & Ee). rewrite Ep in Hppr. rewrite Hppr. cbn [mbind option_bind go]. unfold in_range in Hin. cbn [pub_range r_start r_end] in Hin.
  assert (Hret : ret = 0). { unfold get_pa_mapping in E. destruct (pr_query (pa s) st) as [[r i]|]; [|done]. cbn [mbind option_bind] in E. destruct (ctrue r); [done|]. destruct i as [i|]; [|done]. destruct (negb _); [done|]. destruct (data i); [done|done|]. congruence. } subst ret.
  cbn [finish op_step]. unfold commit_occupy, occupy_ppr_blocks. cbn [set_pprs pprs]. rewrite lookup_insert_eq. cbn [go mbind option_bind]. change (check_preimport_datapath_common (set_use ppr (u32 (use_count ppr + 1))) datapath) with (check_preimport_datapath_common ppr datapath).
  assert (Hone : forall q z, get_pa_mapping s st = Some (0, Some q) -> pprs s !! q = Some z -> q = p /\ z = ppr) by (intros q z Hq Hz; rewrite E in Hq; injection Hq as <-; rewrite Hppr in Hz; by injection Hz as <-).
  assert (Hfail : forall r, r <> 0 -> ~ can -> exists s' o, finish BLOCK 1 x (set_pprs s (<[p := set_use ppr (u32 (use_count ppr + 1))]> (pprs s))) (ComPut p r) = Some (s', o) /\
    (can -> committed s st en s' o) /\ (~ can -> s' = s /\ exists ret, o = Returned ret /\ ret <> 0)).
  { intros r Hr Hno. cbn [finish op_step]. rewrite (commit_undo s ops P p ppr r _ Hi Hl Hm Hppr eq_refl). cbn [finish]. exists s, (Returned r). split; [done|]. split; [done|]. intros _. split; [done|]. by exists r. }
  destruct (Z.eq_dec (check_preimport_datapath_common ppr datapath) 0) as [Ec|Ec].
  2:{ rewrite (proj2 (ctrue_nz _) Ec). apply Hfail; [done|]. intros (q & z & Hq & Hz & _ & Hc & _). destruct (Hone q z Hq Hz) as [-> ->]. done. }
  rewrite Ec. change (ctrue 0) with false. cbv iota. cbn [set_use p_start p_end bitmap]. change (bits BLOCK (set_use ppr (u32 (use_count ppr + 1))) st en) with (bits BLOCK ppr st en).
  destruct ((st <? p_start ppr) || (p_end ppr <? en)) eqn:Eb.
  { cbn [go]. change (ctrue (- EINVAL)) with true. cbv iota. apply Hfail; [done|]. intros (q & z & Hq & Hz & He & _). destruct (Hone q z Hq Hz) as [-> ->]. lia. }
  destruct (v_wf _ _ _ _ Hi _ _ Hppr) as [_ Hw]. destruct (test_bits_ok true (bitmap ppr) (bits BLOCK ppr st en)) as (t & -> & Ht); [intros b; apply (bits_bound BLOCK BLOCK_pos); lia|]. cbn [mbind option_bind].
  assert (Hbits := blocks_free_bits s ops P p ppr st en Hi Hppr ltac:(lia) ltac:(lia)). cbn [negb] in Ht. rewrite Hbits in Ht. destruct t; cbn [go].
  { change (ctrue (- EEXIST)) with true. cbv iota. apply Hfail; [done|]. intros (q & z & Hq & Hz & _ & _ & Hb). destruct (Hone q z Hq Hz) as [-> ->]. by apply Ht in Hb. }
  change (ctrue 0) with false. cbv iota. cbn [finish]. eexists _, _. split; [done|]. assert (Hyes : can) by (exists p, ppr; split_and!; try done; [lia|by apply Ht]). split; [|done]. intros _.
  pose proof (v_use _ _ _ _ Hi _ _ Hppr) as Hu. pose proof (tally_le (refs p) ops). exists p, ppr. eexists. split; [done|]. split; [done|]. split; [lia|]. split; [cbn [set_pprs]; by rewrite insert_insert_eq|]. cbn [set_bitmap set_use use_count bitmap p_start p_end p_path].
  split; [done|]. split; [done|]. split; [done|]. split; [apply uwrap_small; lia|]. split; [apply set_bits_length|]. intros b Hb. rewrite set_bits_lookup by done.
  destruct (decide _) as [Hd|Hd]; [rewrite bool_decide_eq_true_2; [done|apply (bits_in BLOCK BLOCK_pos); lia]|rewrite bool_decide_eq_false_2; [done|]]. intros Hb'%(bits_in BLOCK BLOCK_pos); lia.
Qed.
End Spec.

(** ** A run *)

#[local] Existing Instance list_tree.
#[local] Existing Instance list_tree_laws.
Abbreviation tree := (list (Z * Z * nat)).
Abbreviation state := (preimport (pa_checker tree)).

Definition block : Z := 2 ^ 27.
Definition some_path : obmm_datapath := {| scna := 1; dcna := 2; seid := [3]; deid := [4] |}.
Definition two_blocks : obmm_cmd_preimport := {| c_pa := 8 * block; c_length := 2 * block; c_flags := 0; c_path := some_path; c_numa_id := -1; c_base_dist := 20 |}.
Definition all_well : answers := {| x_alloc := true; x_alloc2 := true; x_res := 0; x_scna := true; x_pa := true; x_add := 4; x_dist := 0; x_remove := 0 |}.
Definition no_resource : answers := {| x_alloc := true; x_alloc2 := true; x_res := - ENOMEM; x_scna := true; x_pa := true; x_add := 4; x_dist := 0; x_remove := 0 |}.

Definition next (so : state * op) : state * op := match op_step block all_well (fst so) (snd so) with Go s o => (s, o) | _ => so end.
Definition run1 : state * op := next (preimport_init, PrepOccupy two_blocks).
Definition run2 : state * op := next run1.
Definition run3 : state * op := next run2.
Definition run4 : state * op := next run3.
(** The range is there; the second block is committed, and another import occupies memory of its own. *)
Definition get_second : op := ComGet (9 * block) (10 * block - 1) some_path.
Definition run5 : state * op := next (fst run4, get_second).
Definition run6 : state * op := next run5.
Definition run7 : state * op := next (fst run6, DirOccupy 0 (2 * block) (3 * block - 1)).

Lemma next_run (so : state * op) (rest : list op) : pre_run block (fst so) (snd so :: rest) -> (if op_step block all_well (fst so) (snd so) is Go _ _ then true else false) = true -> pre_run block (fst (next so)) (snd (next so) :: rest).
Proof. intros Hr. unfold next. destruct (op_step block all_well (fst so) (snd so)) as [| |s' o'] eqn:E; try done. intros _. by eapply pre_step. Qed.

Lemma starts_get : starts get_second.
Proof. exists block. vm_compute. split_and!; try done. Qed.
Lemma run4_run : pre_run block (fst run4) [].
Proof.
  eapply (pre_return _ _ [snd run4] 0 []); [|done]. do 4 (apply next_run; [|vm_compute; reflexivity]). apply pre_call; [apply pre_init| |vm_compute; reflexivity]. vm_compute. split_and!; done.
Qed.
Lemma run7_run : pre_run block (fst run7) [snd run7; snd run6].
Proof.
  apply next_run; [|vm_compute; reflexivity]. apply pre_call; [|exists block; vm_compute; split_and!; done|vm_compute; reflexivity]. do 2 (apply next_run; [|vm_compute; reflexivity]). apply pre_call; [apply run4_run|apply starts_get|vm_compute; reflexivity].
Qed.

Lemma preimport_exclusive_witness : snd run6 = Committed 0 (9 * block) (10 * block - 1) /\ in_use (snd run6) (9 * block) /\ ~ in_use (snd run7) (9 * block).
Proof.
  split; [vm_compute; reflexivity|]. assert (Hu : in_use (snd run6) (9 * block)) by (change (snd run6) with (Committed 0 (9 * block) (10 * block - 1)); unfold in_use, block; lia). split; [exact Hu|].
  destruct (preimport_exclusive block ltac:(unfold block; lia) (fst run7) [snd run7; snd run6] run7_run) as (_ & Hx & _). intros Hv. exact (Hx (snd run7) (snd run6) [] (9 * block) ltac:(reflexivity) Hv Hu).
Defined.

Lemma preimport_commit_spec_witness : exists s' o, finish block 3 all_well (fst run4) get_second = Some (s', o) /\ committed block (fst run4) (9 * block) (10 * block - 1) s' o.
Proof.
  destruct (preimport_commit_spec block ltac:(unfold block; lia) (fst run4) [] all_well (9 * block) (10 * block - 1) some_path run4_run ltac:(vm_compute; reflexivity) starts_get ltac:(vm_compute; reflexivity)) as (s' & o & H1 & H2 & _).
  exists s', o. split; [exact H1|]. apply H2. eexists 0%nat, _. split; [split; [vm_compute; left|by intros o' ?%not_elem_of_nil]|]. split; [vm_compute; reflexivity|]. split; [vm_compute; split; discriminate|]. split; [vm_compute; discriminate|]. split; [vm_compute; repeat split|]. intros a b Hin. inversion Hin.
Defined.

(** When [setup_ubmem_resource] fails, [create_prefilled_preimport_range] reads the error from the structure that it has just freed. *)
Theorem preimport_create_uaf : pre_run block (fst run1) [PrepCreate two_blocks] /\ op_step block no_resource (fst run1) (PrepCreate two_blocks) = Bug.
Proof.
  split; [|vm_compute; reflexivity]. change (PrepCreate two_blocks) with (snd run1). apply next_run; [|vm_compute; reflexivity]. apply pre_call; [apply pre_init| |vm_compute; reflexivity]. vm_compute. split_and!; done.
Qed.
